(* ===== verification/_CoqProject ===== *)
-Q . S2P
Prelude.v
Klist.v
KlistSort.v
Strings.v
Vaddr.v
Args.v
Bitmap.v
Palloc.v
Pagedir.v
Sched.v
SchedInv.v
SchedStep.v
SchedFair.v
Process.v
ProcessInv.v
Inode.v
Layout.v
Directory.v
Filesys.v
Files.v
Syscall.v
SyscallInv.v
Load.v
Boot.v
Malloc.v
Hash.v
Arith64.v
CStdlib.v
Stdio.v
Intq.v
Kbd.v
Vga.v
Console.v
Ustar.v
Fsutil.v
Block.v
Interrupt.v
Switch.v
Thread.v
Gdt.v
Timer.v
Paging.v
Random.v
Rtc.v
Command.v
Ide.v
