(* ===== verification/Prelude.v ===== *)
(** * A Pintos kernel with user programs

    The program is the kernel of an instructional operating system for 32-bit PCs:
    threads and synchronization (src/threads), virtual memory and processes
    (src/userprog), a file system (src/filesys), drivers (src/devices) and a small C
    library (src/lib).  A
    process enters the kernel through a system call; the handler works on the files
    through a table of descriptors, or starts, waits for and ends processes; threads
    run interleaved, switched by the timer; pages come from two pools of physical
    memory and are mapped through two-level page tables; files are runs of sectors
    of a block device, found through one directory.

    ** How the code is represented

    Integers of the machine are [Z] with the wrap-around of their type written out
    ([u8], [u32], [s32]).  Code that can stop is a computation of the monad [M S A]:
    from a state of type [S] it gives a result and a state, or one of three failures:
    [Panic] (an [ASSERT], [PANIC] or [NOT_REACHED]), [Fault] (memory that is not
    mapped or not allocated) or [Exhausted] (a loop that used up its fuel).  [wp c s Q]
    says that [c] from [s] returns, none of the failures occurs, and [Q] holds of the
    result; a theorem with [wp] is thus also a proof of termination.  Loops carry as
    fuel a number computed from their arguments or from the size of the memory, and
    the theorems about them show that it is enough.

    ** Files and what their theorems show

    - [Prelude]: integers, the monad, its rules, sums over finite maps.
    - [Klist], [KlistSort] (lib/kernel/list.c): doubly linked lists over a heap of link
      pairs, refined to lists of addresses; [list_sort] terminates with a sorted, stable
      permutation, [list_insert_ordered] keeps order.
    - [Strings] (lib/string.c): every function over a byte memory.
    - [Vaddr] (threads/vaddr.h, threads/pte.h): addresses and page table entries.
    - [Args] ([parse_command_string], [setup_stack] of userprog/process.c): the words of
      a command line and the initial stack of a program.
    - [Bitmap] (lib/kernel/bitmap.c), [Palloc] (threads/palloc.c): bit sets and the page
      allocator; no page is handed out twice.
    - [Pagedir] (userprog/pagedir.c, [install_page]): page tables in physical memory
      implement a map from user pages to frames.
    - [Sched] (threads/thread.c, threads/synch.c): threads, semaphores, locks and
      condition variables, with one step for each stretch of code that runs with
      interrupts off.  [SchedInv] and [SchedStep] give the invariant of all reachable
      states: no assertion fails, locks exclude each other, wake-ups and signals are not
      lost, a thread is on one list.  [SchedFair]: a ready thread runs within a bounded
      number of timer ticks.
    - [Process], [ProcessInv] ([process_execute], [process_wait], [process_exit] and the
      rest of userprog/process.c that processes share): exec, wait and exit in any
      interleaving; what they return, and the two uses of freed memory.
    - [Inode] (filesys/inode.c, file.c, free-map.c), [Layout] (the invariant of a device:
      sectors of different files and of the free map do not overlap), [Directory]
      (filesys/directory.c, over an interface of inodes), [Filesys] (filesys/filesys.c):
      the device refines a map from names to contents.  [Files]: open files, denied
      writes, removed files.
    - [Syscall], [SyscallInv] (userprog/syscall.c, the fault handler of exception.c): no
      request of a process makes the kernel fail; what is written is read back.
    - [Load] ([load] and its helpers in userprog/process.c): an ELF executable is mapped
      as its headers say, for any contents of the file.
    - [Boot] ([filesys_init], [do_format] and the files of the free map): formatting, and
      restarting on the device of a running file system, which keeps every file.
    - [Malloc] (threads/malloc.c): descriptors, arenas and free lists over the page
      allocator; blocks in use are disjoint and pages come back when all are freed.
    - [Hash] (lib/kernel/hash.c): hash tables refine finite maps.
    - [Arith64] (lib/arithmetic.c): 64-bit division with 32-bit instructions.
    - [CStdlib] (lib/stdlib.c, lib/ctype.h): [atoi], heap sort, binary search.
    - [Stdio] (lib/stdio.c): [__vprintf] over any receiver of characters (the class
      [Sink]) prints the text that the directives of a format stand for; [snprintf].
    - [Console] (lib/kernel/console.c, lib/user/console.c): [printf] in the kernel, with
      the recursive console lock, and in processes, with a buffer in front of [write].
    - [Intq] (devices/intq.c): queues between interrupt handlers and threads, as events in
      any order; first in, first out, no lost wake-up, and the assertion that two readers
      break.
    - [Kbd] (devices/kbd.c, devices/input.c): scancodes to characters.
    - [Vga] (devices/vga.c): the screen shows the last 25 lines of the text.
    - [Ustar] (lib/ustar.c): headers of archives; what is composed is parsed, and no name
      that is accepted leads out of the directory.
    - [Fsutil] (filesys/fsutil.c): the file commands of the kernel command line; an archive
      that is appended is extracted again.
    - [Block] (devices/block.c, devices/partition.c): registered devices and the scan of
      partition tables, which stays inside the disk and can loop on a crafted table.
    - [Interrupt] (threads/interrupt.c, devices/pit.c, the handlers that [main] registers):
      the table of gates, the controllers, and the handling of interrupts with the
      scheduler; a process reaches only the handlers meant for it.
    - [Switch] (threads/intr-stubs.S, threads/switch.S, [kill]): the assembly instruction by
      instruction; interrupts and switches give back the registers.
    - [Thread] (the page of a thread in threads/thread.c and thread.h): the first switch to
      a new thread runs its function.
    - [Gdt] (userprog/gdt.c, tss.c): descriptors as the processor decodes them.
    - [Timer] (devices/timer.c): calibration, sleeping and delays for any clock.
    - [Paging] ([paging_init] of threads/init.c, [palloc_init]): what the processor
      translates after the start.
    - [Command] (the command line in threads/init.c): options, actions, devices.
    - [Random] (lib/random.c): the generator is RC4.  [Rtc] (devices/rtc.c): the time that
      is reported, and by how much it is late.
    - [Ide] (devices/ide.c): the driver over a model of the ATA commands implements arrays
      of sectors for any timing below its limit of 30 seconds.

    ** Assumptions

    Code outside the sources is an argument of the definitions: the keys typed, the
    memory that is uninitialised, the ports of a device, whether memory is available.
    [mallocs n] says whether the [n]-th call of [malloc] succeeds; the theorems on the
    file system and the system calls assume that it does, as the code does not test it
    everywhere.

    ** Not modelled

    The loader and the switch to protected mode (threads/loader.S, threads/start.S), the
    order of the calls of [main], the serial port, the speaker and the ports that switch
    the machine off, [thread_init], [thread_foreach] and the statistics, the text of
    messages, and the programs that run outside the kernel (examples, tests, utilities).
    Above [Block] a disk is an array of sectors, which is what [Ide] implements for one
    channel with a master; the console is a list of bytes. *)
From stdpp Require Import base list numbers gmap fin_maps.
From Stdlib Require Import ZArith Lia.

Declare Scope pintos_scope.
Delimit Scope pintos_scope with pintos.
Open Scope Z_scope.

(** Comparisons stay folded until their arguments are known. *)
#[global] Arguments Z.eqb : simpl never.
#[global] Arguments Z.ltb : simpl never.
#[global] Arguments Z.leb : simpl never.

(** * Fixed-width integers

    Machine integers are kept as [Z]; every C operation that can leave the
    range of its type is followed by one of these reductions. *)

Definition u8 (z : Z) : Z := z mod 2 ^ 8.
Definition u32 (z : Z) : Z := z mod 2 ^ 32.
Definition u64 (z : Z) : Z := z mod 2 ^ 64.

(** Conversion to a signed [w]-bit type, as gcc defines it. *)
Definition swrap (w z : Z) : Z := (z + 2 ^ (w - 1)) mod 2 ^ w - 2 ^ (w - 1).
Definition s32 (z : Z) : Z := swrap 32 z.
Definition s64 (z : Z) : Z := swrap 64 z.

Lemma swrap_small w z : 0 < w -> - 2 ^ (w - 1) <= z < 2 ^ (w - 1) -> swrap w z = z.
Proof.
  intros Hw Hz. unfold swrap. assert (2 ^ w = 2 * 2 ^ (w - 1)) as E by (rewrite <-Z.pow_succ_r by lia; f_equal; lia). rewrite Z.mod_small; lia.
Qed.
Lemma swrap_range w z : 0 < w -> - 2 ^ (w - 1) <= swrap w z < 2 ^ (w - 1).
Proof.
  intros Hw. unfold swrap. assert (2 ^ w = 2 * 2 ^ (w - 1)) as E by (rewrite <-Z.pow_succ_r by lia; f_equal; lia).
  pose proof (Z.mod_pos_bound (z + 2 ^ (w - 1)) (2 ^ w) ltac:(lia)). lia.
Qed.
Lemma swrap_mod w z : swrap w z mod 2 ^ w = z mod 2 ^ w.
Proof. unfold swrap. rewrite Zminus_mod_idemp_l. f_equal. lia. Qed.
Lemma swrap_eq w x y : x mod 2 ^ w = y mod 2 ^ w -> swrap w x = swrap w y.
Proof. intros E. unfold swrap. f_equal. rewrite <-(Zplus_mod_idemp_l x), <-(Zplus_mod_idemp_l y). by rewrite E. Qed.

Lemma s32_small z : - 2 ^ 31 <= z < 2 ^ 31 -> s32 z = z.
Proof. by apply (swrap_small 32). Qed.
Lemma s32_range z : - 2 ^ 31 <= s32 z < 2 ^ 31.
Proof. by apply (swrap_range 32). Qed.
Lemma s32_mod z : s32 z mod 2 ^ 32 = z mod 2 ^ 32.
Proof. apply (swrap_mod 32). Qed.
Lemma s32_eq x y : x mod 2 ^ 32 = y mod 2 ^ 32 -> s32 x = s32 y.
Proof. apply (swrap_eq 32). Qed.
Lemma s64_small z : - 2 ^ 63 <= z < 2 ^ 63 -> s64 z = z.
Proof. by apply (swrap_small 64). Qed.

(** lib/round.h. *)
Definition DIV_ROUND_UP (x step : Z) : Z := (x + step - 1) / step.
Definition ROUND_UP (x step : Z) : Z := (x + step - 1) / step * step.
Definition ROUND_DOWN (x step : Z) : Z := x / step * step.

Definition NULL : Z := 0.

(** * Bit fields *)

(** A number below [2 ^ n] beside one without bits there. *)
Lemma lor_add n a b : 0 <= n -> 0 <= a < 2 ^ n -> b mod 2 ^ n = 0 -> Z.lor b a = b + a.
Proof.
  intros Hn Ha Hb. assert (Z.land b a = 0) as H.
  { apply Z.bits_inj'. intros k Hk. rewrite Z.land_spec, Z.testbit_0_l. destruct (Z.lt_ge_cases k n).
    - rewrite <-(Z.mod_pow2_bits_low b n) by lia. by rewrite Hb, Z.testbit_0_l.
    - rewrite <-(Z.mod_small a (2 ^ n)) by lia. by rewrite (Z.mod_pow2_bits_high a n), andb_false_r by lia. }
  rewrite <-Z.lxor_lor by done. symmetry. by apply Z.add_nocarry_lxor.
Qed.

(** The upper bits of a number of [n + m] bits. *)
Lemma land_high n m a : 0 <= n -> 0 <= m -> 0 <= a < 2 ^ (n + m) -> Z.land a (Z.shiftl (Z.ones m) n) = a / 2 ^ n * 2 ^ n.
Proof.
  intros Hn Hm Ha. rewrite <-Z.shiftr_div_pow2, <-Z.shiftl_mul_pow2 by lia. apply Z.bits_inj'. intros k Hk.
  rewrite Z.land_spec, !Z.shiftl_spec by lia. destruct (Z.lt_ge_cases k n).
  - rewrite !(Z.testbit_neg_r _ (k - n)) by lia. by rewrite andb_false_r.
  - rewrite Z.shiftr_spec by lia. replace (k - n + n) with k by lia. destruct (Z.lt_ge_cases k (n + m)).
    + rewrite Z.ones_spec_low by lia. by rewrite andb_true_r.
    + rewrite <-(Z.mod_small a (2 ^ (n + m))) by lia. by rewrite Z.mod_pow2_bits_high by lia.
Qed.

(** * Outcomes and effects

    [Panic] is a failed [ASSERT], a [PANIC] or a [NOT_REACHED]: the kernel
    stops.  [Fault] is an access to memory that is not mapped or not allocated.
    [Exhausted] is a loop that used up the fuel of the model; the theorems show
    where it cannot occur. *)
Inductive fail : Set := Panic | Fault | Exhausted.

Inductive res (A : Type) : Type :=
| Ok (a : A)
| Err (e : fail).
Arguments Ok {A} _.
Arguments Err {A} _.

#[global] Instance res_ret : MRet res := @Ok.
#[global] Instance res_bind : MBind res :=
  fun A B f m => match m with Ok a => f a | Err e => Err e end.

(** State-passing computations over a state [S]. *)
Definition M (S A : Type) : Type := S -> res (A * S).

#[global] Instance M_ret {S} : MRet (M S) := fun A a s => Ok (a, s).
#[global] Instance M_bind {S} : MBind (M S) :=
  fun A B f m s => match m s with Ok (a, s') => f a s' | Err e => Err e end.

Definition mget {S} : M S S := fun s => Ok (s, s).
Definition mput {S} (s : S) : M S unit := fun _ => Ok (tt, s).
Definition mfail {S A} (e : fail) : M S A := fun _ => Err e.
Definition mlift {S A} (r : res A) : M S A :=
  fun s => match r with Ok a => Ok (a, s) | Err e => Err e end.

(** [ASSERT (b)] of lib/debug.h: NDEBUG is not defined in this build. *)
Definition ASSERT {S} (b : bool) : M S unit :=
  if b then mret tt else mfail Panic.

(** A C loop.  The body maps the values of the loop's local variables either to
    the next ones ([inl]) or to the loop's result ([inr]). *)
Fixpoint loop {S A B} (fuel : nat) (body : A -> M S (A + B)) (a : A) : M S B :=
  match fuel with
  | O => mfail Exhausted
  | S n => r ← body a; match r with inl a' => loop n body a' | inr b => mret b end
  end.

(** A loop over a list. *)
Fixpoint for_each {S A} (f : A -> M S unit) (l : list A) : M S unit :=
  match l with [] => mret tt | x :: l => f x;; for_each f l end.

(** ** Total-correctness weakest preconditions *)

(** [wp m s Q]: running [m] from [s] returns (no failure, no exhausted fuel) and
    its result and final state satisfy [Q]. *)
Definition wp {S A} (m : M S A) (s : S) (Q : A -> S -> Prop) : Prop :=
  match m s with Ok (a, s') => Q a s' | Err _ => False end.

Section Wp.
Context {S : Type}.

Lemma wp_unfold {A} (m : M S A) s Q :
  wp m s Q <-> exists a s', m s = Ok (a, s') /\ Q a s'.
Proof.
  unfold wp. destruct (m s) as [[a s']|e].
  - split; [eauto | intros (? & ? & [= <- <-] & ?); done].
  - split; [done | intros (? & ? & [=] & _)].
Qed.

Lemma wp_ok {A} (m : M S A) s a s' (Q : A -> S -> Prop) :
  m s = Ok (a, s') -> Q a s' -> wp m s Q.
Proof. unfold wp. by intros ->. Qed.

Lemma wp_ret {A} (a : A) s (Q : A -> S -> Prop) : Q a s -> wp (mret a) s Q.
Proof. done. Qed.

Lemma wp_bind {A B} (m : M S A) (f : A -> M S B) s Q :
  wp m s (fun a s' => wp (f a) s' Q) -> wp (m ≫= f) s Q.
Proof.
  unfold wp, mbind, M_bind. by destruct (m s) as [[a s']|e].
Qed.

Lemma wp_bind_inv {A B} (m : M S A) (f : A -> M S B) s Q :
  wp (m ≫= f) s Q -> wp m s (fun a s' => wp (f a) s' Q).
Proof. unfold wp, mbind, M_bind. by destruct (m s) as [[a s']|e]. Qed.

Lemma wp_assoc {A B C} (m : M S A) (f : A -> M S B) (g : B -> M S C) s Q :
  wp (m ≫= fun a => f a ≫= g) s Q -> wp ((m ≫= f) ≫= g) s Q.
Proof. unfold wp, mbind, M_bind. by destruct (m s) as [[a s']|e]. Qed.

Lemma wp_get s (Q : S -> S -> Prop) : Q s s -> wp mget s Q.
Proof. done. Qed.

Lemma wp_put s' s (Q : unit -> S -> Prop) : Q tt s' -> wp (mput s') s Q.
Proof. done. Qed.

Lemma wp_lift {A} (r : res A) s (Q : A -> S -> Prop) a :
  r = Ok a -> Q a s -> wp (mlift r) s Q.
Proof. unfold wp, mlift. by intros ->. Qed.

Lemma wp_assert (b : bool) s (Q : unit -> S -> Prop) :
  b = true -> Q tt s -> wp (ASSERT b) s Q.
Proof. by intros ->. Qed.

Lemma wp_mono {A} (m : M S A) s (P Q : A -> S -> Prop) :
  wp m s P -> (forall a s', P a s' -> Q a s') -> wp m s Q.
Proof. unfold wp. destruct (m s) as [[a s']|e]; eauto. Qed.

Lemma bind_ok {A B} (m : M S A) (f : A -> M S B) s a s' :
  m s = Ok (a, s') -> (m ≫= f) s = f a s'.
Proof. unfold mbind, M_bind. by intros ->. Qed.

(** Loop rule: an invariant indexed by a natural number that every iteration
    decreases; enough fuel is one more than the initial index. *)
Lemma wp_loop {A B} (I : nat -> A -> S -> Prop) (Q : B -> S -> Prop)
    (body : A -> M S (A + B)) :
  (forall n a s, I n a s ->
     wp (body a) s (fun r s' =>
       match r with
       | inl a' => exists n', (n' < n)%nat /\ I n' a' s'
       | inr b => Q b s'
       end)) ->
  forall n fuel a s, I n a s -> (n < fuel)%nat -> wp (loop fuel body a) s Q.
Proof.
  intros Hbody n fuel. revert n. induction fuel as [|f IH]; intros n a s HI Hn; [lia|].
  simpl. apply wp_bind. eapply wp_mono; [by apply Hbody|].
  intros [a'|b] s'; [|by apply wp_ret].
  intros (n' & Hn' & HI'). eapply IH; [done | lia].
Qed.

(** One iteration, for proofs by induction on the data a loop walks over. *)
Lemma wp_loop_S {A B} fuel (body : A -> M S (A + B)) a s (Q : B -> S -> Prop) :
  wp (body a) s (fun r s' =>
    match r with inl a' => wp (loop fuel body a') s' Q | inr b => Q b s' end) ->
  wp (loop (Datatypes.S fuel) body a) s Q.
Proof.
  intros H. simpl. apply wp_bind. eapply wp_mono; [exact H|]. by intros [a'|b] s'.
Qed.

(** An invariant of a loop over a list. *)
Lemma wp_for_each {A} (I : nat -> S -> Prop) (f : A -> M S unit) (l : list A) s (Q : unit -> S -> Prop) :
  I 0%nat s -> (forall i x s, l !! i = Some x -> I i s -> wp (f x) s (fun _ s' => I (i + 1)%nat s')) ->
  (forall s', I (length l) s' -> Q tt s') -> wp (for_each f l) s Q.
Proof.
  revert I s. induction l as [|x l IH]; intros I s H0 Hf HQ; cbn [for_each].
  - apply wp_ret. by apply HQ.
  - apply wp_bind. eapply wp_mono; [exact (Hf 0%nat x s eq_refl H0)|]. intros [] s1 H1.
    apply (IH (fun i => I (i + 1)%nat)); [done|intros i y s2 Hy Hi; apply (Hf (i + 1)%nat y); [by rewrite Nat.add_1_r|done]|].
    intros s' H. apply HQ. cbn [length]. by replace (Datatypes.S (length l)) with (length l + 1)%nat by lia.
Qed.

(** One unfolding of a loop whose body returns. *)
Lemma loop_step {A B} fuel (body : A -> M S (A + B)) a s r s' :
  body a s = Ok (r, s') ->
  loop (Datatypes.S fuel) body a s =
    match r with inl a' => loop fuel body a' s' | inr b => Ok (b, s') end.
Proof.
  intros Hb. simpl. rewrite (bind_ok _ _ _ _ _ Hb). by destruct r.
Qed.
End Wp.

(** ** Computations that may fail

    [wpe m s Q E]: running [m] from [s] either returns and satisfies [Q], or fails and
    the failure satisfies [E]. *)
Definition wpe {S A} (m : M S A) (s : S) (Q : A -> S -> Prop) (E : fail -> Prop) : Prop :=
  match m s with Ok (a, s') => Q a s' | Err e => E e end.

Section Wpe.
Context {S : Type}.

Lemma wpe_wp {A} (m : M S A) s Q E : wp m s Q -> wpe m s Q E.
Proof. unfold wp, wpe. by destruct (m s) as [[a s']|e]. Qed.

Lemma wpe_bind {A B} (m : M S A) (f : A -> M S B) s Q E :
  wpe m s (fun a s' => wpe (f a) s' Q E) E -> wpe (m ≫= f) s Q E.
Proof. unfold wpe, mbind, M_bind. by destruct (m s) as [[a s']|e]. Qed.

(** A step that returns, in front of one that may fail. *)
Lemma wpe_step {A B} (m : M S A) (f : A -> M S B) s Q E :
  wp m s (fun a s' => wpe (f a) s' Q E) -> wpe (m ≫= f) s Q E.
Proof. intros H. by apply wpe_bind, wpe_wp. Qed.

Lemma wpe_fail {A} e s (Q : A -> S -> Prop) (E : fail -> Prop) : E e -> wpe (mfail e) s Q E.
Proof. done. Qed.

Lemma wpe_mono {A} (m : M S A) s (P Q : A -> S -> Prop) (D E : fail -> Prop) :
  wpe m s P D -> (forall a s', P a s' -> Q a s') -> (forall e, D e -> E e) -> wpe m s Q E.
Proof. unfold wpe. destruct (m s) as [[a s']|e]; eauto. Qed.

Lemma wpe_loop_S {A B} fuel (body : A -> M S (A + B)) a s (Q : B -> S -> Prop) E :
  wpe (body a) s (fun r s' =>
    match r with inl a' => wpe (loop fuel body a') s' Q E | inr b => Q b s' end) E ->
  wpe (loop (Datatypes.S fuel) body a) s Q E.
Proof.
  intros H. simpl. apply wpe_bind. eapply wpe_mono; [exact H| |done]. by intros [a'|b] s'.
Qed.
End Wpe.

(** * Lists *)

Lemma filter_same {A} (P P' : A -> Prop) `{!forall x, Decision (P x), !forall x, Decision (P' x)} (l : list A) :
  (forall x, x ∈ l -> P x <-> P' x) -> filter P l = filter P' l.
Proof.
  induction l as [|x l IH]; intros HP; [done|]. rewrite !filter_cons, IH by (intros y Hy; apply HP; by right).
  pose proof (HP x ltac:(left)). repeat case_decide; tauto.
Qed.

Lemma filter_all {A} (P : A -> Prop) `{!forall x, Decision (P x)} (l : list A) :
  (forall x, x ∈ l -> P x) -> filter P l = l.
Proof.
  induction l as [|x l IH]; intros HP; [done|]. rewrite filter_cons_True by (apply HP; by left).
  rewrite IH; [done|]. intros y Hy. apply HP. by right.
Qed.

Lemma filter_none {A} (P : A -> Prop) `{!forall x, Decision (P x)} (l : list A) :
  (forall x, x ∈ l -> ~ P x) -> filter P l = [].
Proof.
  induction l as [|x l IH]; intros HP; [done|]. rewrite filter_cons_False by (apply HP; by left).
  apply IH. intros y Hy. apply HP. by right.
Qed.

(** * Sums over finite maps *)

Definition msum {K A} `{Countable K} (f : A -> Z) (m : gmap K A) : Z :=
  map_fold (fun _ x n => f x + n) 0 m.

Section Msum.
Context {K A : Type} `{Countable K} (f : A -> Z).
Implicit Types m : gmap K A.

Lemma msum_empty : msum f (∅ : gmap K A) = 0.
Proof. unfold msum. by rewrite map_fold_empty. Qed.

Lemma msum_insert m i x : m !! i = None -> msum f (<[i := x]> m) = f x + msum f m.
Proof. intros Hi. unfold msum. rewrite map_fold_insert_L; [done | lia | done]. Qed.

Lemma msum_delete m i x : m !! i = Some x -> msum f (delete i m) = msum f m - f x.
Proof.
  intros Hi. rewrite <- (insert_delete_id m i x Hi) at 2.
  rewrite msum_insert by apply lookup_delete_eq. lia.
Qed.

Lemma msum_update m i x y : m !! i = Some x -> msum f (<[i := y]> m) = msum f m - f x + f y.
Proof.
  intros Hi. rewrite <- insert_delete_eq, msum_insert by apply lookup_delete_eq.
  rewrite (msum_delete m i x Hi). lia.
Qed.

Lemma msum_nonneg m : (forall x, 0 <= f x) -> 0 <= msum f m.
Proof.
  intros Hf. induction m as [|i x m Hi IH] using map_ind.
  - by rewrite msum_empty.
  - rewrite msum_insert by done. specialize (Hf x). lia.
Qed.

Lemma msum_ge m i x : (forall x, 0 <= f x) -> m !! i = Some x -> f x <= msum f m.
Proof.
  intros Hf Hi. pose proof (msum_nonneg (delete i m) Hf). rewrite (msum_delete m i x Hi) in H0. lia.
Qed.

Lemma msum_pos m : 0 < msum f m -> exists i x, m !! i = Some x /\ 0 < f x.
Proof.
  induction m as [|i x m Hi IH] using map_ind.
  - rewrite msum_empty. lia.
  - rewrite msum_insert by done. intros Hs. destruct (decide (0 < f x)) as [Hx|Hx].
    + exists i, x. by rewrite lookup_insert_eq.
    + destruct IH as (j & y & Hj & Hy); [lia|]. exists j, y.
      rewrite lookup_insert_ne; [done | congruence].
Qed.
End Msum.
