(* ===== verification/Klist.v ===== *)
(** Doubly linked lists (src/lib/kernel/list.c).

    The heap maps the address of a [struct list_elem] to its two links.  A
    [struct list] at address [l] is its two header elements, the head at [l] and
    the tail at [l + 8] ([sizeof (struct list_elem) = 8]).  Every operation is
    the C code on that heap; [is_list h l xs] relates a list in the heap to the
    sequence [xs] of the addresses of its interior elements, and each theorem
    states which sequence the operation leaves. *)
From stdpp Require Import base list numbers gmap fin_maps sorting.
From Stdlib Require Import ZArith Lia.
From S2P Require Import Prelude.

Open Scope Z_scope.

(** * Data *)

Record list_elem : Type := mk_elem { prev : Z; next : Z }.

Abbreviation heap := (gmap Z list_elem).

(** [&list->head] and [&list->tail]. *)
Definition head_of (l : Z) : Z := l.
Definition tail_of (l : Z) : Z := l + 8.

(** * Field accesses *)

Definition load_elem (p : Z) : M heap list_elem :=
  h ← mget; match h !! p with Some e => mret e | None => mfail Fault end.

Definition get_prev (p : Z) : M heap Z := e ← load_elem p; mret (prev e).
Definition get_next (p : Z) : M heap Z := e ← load_elem p; mret (next e).

Definition set_prev (p v : Z) : M heap unit :=
  e ← load_elem p; h ← mget; mput (<[p := mk_elem v (next e)]> h).
Definition set_next (p v : Z) : M heap unit :=
  e ← load_elem p; h ← mget; mput (<[p := mk_elem (prev e) v]> h).

(** Fuel for a traversal: the heap has no more elements than this. *)
Definition heap_fuel : M heap nat := h ← mget; mret (S (size h)).

(** * Operations *)

Definition is_head (elem : Z) : M heap bool :=
  if elem =? NULL then mret false
  else e ← load_elem elem; mret ((prev e =? NULL) && negb (next e =? NULL)).

Definition is_interior (elem : Z) : M heap bool :=
  if elem =? NULL then mret false
  else e ← load_elem elem; mret (negb (prev e =? NULL) && negb (next e =? NULL)).

Definition is_tail (elem : Z) : M heap bool :=
  if elem =? NULL then mret false
  else e ← load_elem elem; mret (negb (prev e =? NULL) && (next e =? NULL)).

(** [a || b] on effectful conditions. *)
Definition or_else (a b : M heap bool) : M heap bool :=
  x ← a; if x : bool then mret true else b.

Definition list_init (list : Z) : M heap unit :=
  ASSERT (negb (list =? NULL));;
  set_prev (head_of list) NULL;;
  set_next (head_of list) (tail_of list);;
  set_prev (tail_of list) (head_of list);;
  set_next (tail_of list) NULL.

Definition list_begin (list : Z) : M heap Z :=
  ASSERT (negb (list =? NULL));; get_next (head_of list).

Definition list_next (elem : Z) : M heap Z :=
  b ← or_else (is_head elem) (is_interior elem); ASSERT b;; get_next elem.

Definition list_end (list : Z) : M heap Z :=
  ASSERT (negb (list =? NULL));; mret (tail_of list).

Definition list_rbegin (list : Z) : M heap Z :=
  ASSERT (negb (list =? NULL));; get_prev (tail_of list).

Definition list_prev (elem : Z) : M heap Z :=
  b ← or_else (is_interior elem) (is_tail elem); ASSERT b;; get_prev elem.

Definition list_rend (list : Z) : M heap Z :=
  ASSERT (negb (list =? NULL));; mret (head_of list).

Definition list_head (list : Z) : M heap Z :=
  ASSERT (negb (list =? NULL));; mret (head_of list).

Definition list_tail (list : Z) : M heap Z :=
  ASSERT (negb (list =? NULL));; mret (tail_of list).

Definition list_insert (before elem : Z) : M heap unit :=
  b ← or_else (is_interior before) (is_tail before);
  ASSERT b;;
  ASSERT (negb (elem =? NULL));;
  p ← get_prev before;
  set_prev elem p;;
  set_next elem before;;
  p ← get_prev before;
  set_next p elem;;
  set_prev before elem.

Definition list_splice (before first last : Z) : M heap unit :=
  b ← or_else (is_interior before) (is_tail before);
  ASSERT b;;
  if first =? last then mret tt
  else
    last ← list_prev last;
    b ← is_interior first;
    ASSERT b;;
    b ← is_interior last;
    ASSERT b;;
    fp ← get_prev first;
    ln ← get_next last;
    set_next fp ln;;
    ln ← get_next last;
    fp ← get_prev first;
    set_prev ln fp;;
    bp ← get_prev before;
    set_prev first bp;;
    set_next last before;;
    bp ← get_prev before;
    set_next bp first;;
    set_prev before last.

Definition list_push_front (list elem : Z) : M heap unit :=
  b ← list_begin list; list_insert b elem.

Definition list_push_back (list elem : Z) : M heap unit :=
  e ← list_end list; list_insert e elem.

Definition list_remove (elem : Z) : M heap Z :=
  b ← is_interior elem;
  ASSERT b;;
  p ← get_prev elem;
  n ← get_next elem;
  set_next p n;;
  n ← get_next elem;
  p ← get_prev elem;
  set_prev n p;;
  get_next elem.

Definition list_empty (list : Z) : M heap bool :=
  b ← list_begin list; e ← list_end list; mret (b =? e).

Definition list_front (list : Z) : M heap Z :=
  b ← list_empty list; ASSERT (negb b);; get_next (head_of list).

Definition list_back (list : Z) : M heap Z :=
  b ← list_empty list; ASSERT (negb b);; get_prev (tail_of list).

Definition list_pop_front (list : Z) : M heap Z :=
  front ← list_front list; list_remove front;; mret front.

Definition list_pop_back (list : Z) : M heap Z :=
  back ← list_back list; list_remove back;; mret back.

Definition list_size (list : Z) : M heap Z :=
  fuel ← heap_fuel;
  b ← list_begin list;
  loop fuel (fun '(e, cnt) =>
    stop ← list_end list;
    if e =? stop then mret (inr cnt)
    else e' ← list_next e; mret (inl (e', u32 (cnt + 1)))) (b, 0).

(** The [struct list_elem **] arguments of [swap] point to link fields. *)
Inductive link_field : Type := Fprev (p : Z) | Fnext (p : Z).

Definition load_field (f : link_field) : M heap Z :=
  match f with Fprev p => get_prev p | Fnext p => get_next p end.
Definition store_field (f : link_field) (v : Z) : M heap unit :=
  match f with Fprev p => set_prev p v | Fnext p => set_next p v end.

Definition swap (a b : link_field) : M heap unit :=
  t ← load_field a;
  v ← load_field b;
  store_field a v;;
  store_field b t.

Definition list_reverse (list : Z) : M heap unit :=
  empty ← list_empty list;
  if empty : bool then mret tt
  else
    fuel ← heap_fuel;
    b ← list_begin list;
    loop fuel (fun e =>
      stop ← list_end list;
      if e =? stop then mret (inr tt)
      else swap (Fprev e) (Fnext e);; e' ← get_prev e; mret (inl e')) b;;
    swap (Fnext (head_of list)) (Fprev (tail_of list));;
    n ← get_next (head_of list);
    p ← get_prev (tail_of list);
    swap (Fprev n) (Fnext p).

Section Ordered.
(** [less (a, b, aux)]: a function of the two elements' contents, which the
    list operations do not change. *)
Context (less : Z -> Z -> Z -> bool) (aux : Z).

Definition is_sorted (a b : Z) : M heap bool :=
  if a =? b then mret true
  else
    fuel ← heap_fuel;
    loop fuel (fun a =>
      a' ← list_next a;
      if a' =? b then mret (inr true)
      else p ← list_prev a';
           mret (if less a' p aux then inr false else inl a')) a.

Definition find_end_of_run (a b : Z) : M heap Z :=
  ASSERT (negb (a =? NULL));;
  ASSERT (negb (b =? NULL));;
  ASSERT (negb (a =? b));;
  fuel ← heap_fuel;
  loop fuel (fun a =>
    a' ← list_next a;
    if a' =? b then mret (inr a')
    else p ← list_prev a';
         mret (if less a' p aux then inr a' else inl a')) a.

Definition inplace_merge (a0 a1b0 b1 : Z) : M heap unit :=
  ASSERT (negb (a0 =? NULL));;
  ASSERT (negb (a1b0 =? NULL));;
  ASSERT (negb (b1 =? NULL));;
  s ← is_sorted a0 a1b0; ASSERT s;;
  s ← is_sorted a1b0 b1; ASSERT s;;
  fuel ← heap_fuel;
  loop fuel (fun '(a0, a1b0) =>
    if (a0 =? a1b0) || (a1b0 =? b1) then mret (inr tt)
    else if negb (less a1b0 a0 aux) then
      a0' ← list_next a0; mret (inl (a0', a1b0))
    else
      a1b0' ← list_next a1b0;
      p ← list_prev a1b0';
      list_splice a0 p a1b0';;
      mret (inl (a0, a1b0'))) (a0, a1b0).

(** One pass of the [do] loop: the number of runs it output. *)
Definition sort_pass (list : Z) : M heap Z :=
  fuel ← heap_fuel;
  b ← list_begin list;
  loop fuel (fun '(a0, output_run_cnt) =>
    stop ← list_end list;
    if a0 =? stop then mret (inr output_run_cnt)
    else
      let output_run_cnt := u32 (output_run_cnt + 1) in
      a1b0 ← find_end_of_run a0 stop;
      if a1b0 =? stop then mret (inr output_run_cnt)
      else
        b1 ← find_end_of_run a1b0 stop;
        inplace_merge a0 a1b0 b1;;
        mret (inl (b1, output_run_cnt))) (b, 0).

Definition list_sort (list : Z) : M heap unit :=
  ASSERT (negb (list =? NULL));;
  fuel ← heap_fuel;
  loop fuel (fun _ =>
    output_run_cnt ← sort_pass list;
    mret (if 1 <? output_run_cnt then inl tt else inr tt)) tt;;
  b ← list_begin list;
  e ← list_end list;
  s ← is_sorted b e;
  ASSERT s.

Definition list_insert_ordered (list elem : Z) : M heap unit :=
  ASSERT (negb (list =? NULL));;
  ASSERT (negb (elem =? NULL));;
  fuel ← heap_fuel;
  b ← list_begin list;
  e ← loop fuel (fun e =>
        stop ← list_end list;
        if e =? stop then mret (inr e)
        else if less elem e aux then mret (inr e)
        else e' ← list_next e; mret (inl e')) b;
  list_insert e elem.

Definition list_unique (list duplicates : Z) : M heap unit :=
  ASSERT (negb (list =? NULL));;
  empty ← list_empty list;
  if empty : bool then mret tt
  else
    fuel ← heap_fuel;
    b ← list_begin list;
    loop fuel (fun elem =>
      next ← list_next elem;
      stop ← list_end list;
      if next =? stop then mret (inr tt)
      else if negb (less elem next aux) && negb (less next elem aux) then
        list_remove next;;
        (if duplicates =? NULL then mret tt else list_push_back duplicates next);;
        mret (inl elem)
      else mret (inl next)) b.

Definition list_max (list : Z) : M heap Z :=
  max ← list_begin list;
  stop ← list_end list;
  if max =? stop then mret max
  else
    fuel ← heap_fuel;
    e ← list_next max;
    loop fuel (fun '(e, max) =>
      stop ← list_end list;
      if e =? stop then mret (inr max)
      else e' ← list_next e;
           mret (inl (e', if less max e aux then e else max))) (e, max).

Definition list_min (list : Z) : M heap Z :=
  min ← list_begin list;
  stop ← list_end list;
  if min =? stop then mret min
  else
    fuel ← heap_fuel;
    e ← list_next min;
    loop fuel (fun '(e, min) =>
      stop ← list_end list;
      if e =? stop then mret (inr min)
      else e' ← list_next e;
           mret (inl (e', if less e min aux then e else min))) (e, min).
End Ordered.

(** * Representation *)

Definition nxt (h : heap) (p : Z) : option Z := next <$> h !! p.
Definition prv (h : heap) (p : Z) : option Z := prev <$> h !! p.

(** The heap after a store to one link. *)
Definition sn (p v : Z) (h : heap) : heap := alter (fun e => mk_elem (prev e) v) p h.
Definition sp (p v : Z) (h : heap) : heap := alter (fun e => mk_elem v (next e)) p h.

(** [a] and then the elements of [ns], each linked to the next both ways. *)
Fixpoint links (h : heap) (a : Z) (ns : list Z) : Prop :=
  match ns with
  | [] => True
  | b :: r => nxt h a = Some b /\ prv h b = Some a /\ links h b r
  end.

(** The last element of [a :: ns], and the first of [ns ++ [t]]. *)
Fixpoint lastd (a : Z) (ns : list Z) : Z :=
  match ns with [] => a | b :: r => lastd b r end.
Definition hdd (t : Z) (ns : list Z) : Z :=
  match ns with [] => t | b :: _ => b end.

Definition nodes (l : Z) (xs : list Z) : list Z := l :: xs ++ [tail_of l].

(** The list at [l] holds exactly the interior elements [xs], in this order. *)
Record is_list (h : heap) (l : Z) (xs : list Z) : Prop := {
  il_nodup : NoDup (nodes l xs);
  il_null : NULL ∉ nodes l xs;
  il_head : prv h l = Some NULL;
  il_tail : nxt h (tail_of l) = Some NULL;
  il_links : links h l (xs ++ [tail_of l])
}.

(** [h] and [h'] agree outside [ns]. *)
Definition same_except (ns : list Z) (h h' : heap) : Prop :=
  dom h' = dom h /\ forall x, x ∉ ns -> h' !! x = h !! x.

(** ** Stores and lookups *)

Lemma nxt_sn h p v q :
  nxt (sn p v h) q = if decide (p = q) then (fun _ => v) <$> nxt h q else nxt h q.
Proof.
  unfold nxt, sn. rewrite lookup_alter. destruct (decide _) as [->|]; [|done].
  by destruct (h !! q).
Qed.

Lemma prv_sn h p v q : prv (sn p v h) q = prv h q.
Proof.
  unfold prv, sn. rewrite lookup_alter. destruct (decide _) as [->|]; [|done]. by destruct (h !! q).
Qed.

Lemma prv_sp h p v q :
  prv (sp p v h) q = if decide (p = q) then (fun _ => v) <$> prv h q else prv h q.
Proof.
  unfold prv, sp. rewrite lookup_alter. destruct (decide _) as [->|]; [|done].
  by destruct (h !! q).
Qed.

Lemma nxt_sp h p v q : nxt (sp p v h) q = nxt h q.
Proof.
  unfold nxt, sp. rewrite lookup_alter. destruct (decide _) as [->|]; [|done]. by destruct (h !! q).
Qed.

Lemma dom_sn h p v : dom (sn p v h) = dom h.
Proof. apply dom_alter_L. Qed.
Lemma dom_sp h p v : dom (sp p v h) = dom h.
Proof. apply dom_alter_L. Qed.

Lemma lookup_sn_ne h p v q : p ≠ q -> sn p v h !! q = h !! q.
Proof. intros. unfold sn. by apply lookup_alter_ne. Qed.
Lemma lookup_sp_ne h p v q : p ≠ q -> sp p v h !! q = h !! q.
Proof. intros. unfold sp. by apply lookup_alter_ne. Qed.

Lemma nxt_dom h p v : nxt h p = Some v -> p ∈ dom h.
Proof. unfold nxt. rewrite elem_of_dom. destruct (h !! p); [by eexists | done]. Qed.
Lemma prv_dom h p v : prv h p = Some v -> p ∈ dom h.
Proof. unfold prv. rewrite elem_of_dom. destruct (h !! p); [by eexists | done]. Qed.

Lemma dom_nxt h p : p ∈ dom h -> exists v, nxt h p = Some v.
Proof. unfold nxt. rewrite elem_of_dom. intros [e ->]. by eexists. Qed.
Lemma dom_prv h p : p ∈ dom h -> exists v, prv h p = Some v.
Proof. unfold prv. rewrite elem_of_dom. intros [e ->]. by eexists. Qed.

Create HintDb klist.
Create Rewrite HintDb klist.
#[export] Hint Resolve nxt_dom prv_dom : klist.
#[export] Hint Rewrite nxt_sn prv_sn nxt_sp prv_sp dom_sn dom_sp : klist.

Section WpFields.
Implicit Types (h : heap) (p v : Z).

Lemma wp_load_elem h p Q :
  p ∈ dom h ->
  (forall e, h !! p = Some e -> Q e h) -> wp (load_elem p) h Q.
Proof.
  rewrite elem_of_dom. intros [e He] HQ. unfold load_elem.
  apply wp_bind, wp_get. rewrite He. by apply wp_ret, HQ.
Qed.

Lemma wp_get_next h p v (Q : Z -> heap -> Prop) :
  nxt h p = Some v -> Q v h -> wp (get_next p) h Q.
Proof.
  intros Hn HQ. apply wp_bind, wp_load_elem; [by eapply nxt_dom|].
  intros e He. apply wp_ret. unfold nxt in Hn. rewrite He in Hn. by simplify_eq/=.
Qed.

Lemma wp_get_prev h p v (Q : Z -> heap -> Prop) :
  prv h p = Some v -> Q v h -> wp (get_prev p) h Q.
Proof.
  intros Hn HQ. apply wp_bind, wp_load_elem; [by eapply prv_dom|].
  intros e He. apply wp_ret. unfold prv in Hn. rewrite He in Hn. by simplify_eq/=.
Qed.

Lemma wp_set_next h p v (Q : unit -> heap -> Prop) :
  p ∈ dom h -> Q tt (sn p v h) -> wp (set_next p v) h Q.
Proof.
  intros Hd HQ. apply wp_bind, wp_load_elem; [done|]. intros e He.
  apply wp_bind, wp_get, wp_put. unfold sn in HQ. by erewrite alter_alt_Some in HQ.
Qed.

Lemma wp_set_prev h p v (Q : unit -> heap -> Prop) :
  p ∈ dom h -> Q tt (sp p v h) -> wp (set_prev p v) h Q.
Proof.
  intros Hd HQ. apply wp_bind, wp_load_elem; [done|]. intros e He.
  apply wp_bind, wp_get, wp_put. unfold sp in HQ. by erewrite alter_alt_Some in HQ.
Qed.

Lemma wp_is_head h p a b (Q : bool -> heap -> Prop) :
  p ≠ NULL -> prv h p = Some a -> nxt h p = Some b ->
  Q ((a =? NULL) && negb (b =? NULL)) h -> wp (is_head p) h Q.
Proof.
  intros Hp Ha Hb HQ. unfold is_head. rewrite (proj2 (Z.eqb_neq _ _) Hp).
  apply wp_bind, wp_load_elem; [eauto with klist|]. intros e He. apply wp_ret.
  unfold prv, nxt in *. rewrite He in *. by simplify_eq/=.
Qed.

Lemma wp_is_interior h p a b (Q : bool -> heap -> Prop) :
  p ≠ NULL -> prv h p = Some a -> nxt h p = Some b ->
  Q (negb (a =? NULL) && negb (b =? NULL)) h -> wp (is_interior p) h Q.
Proof.
  intros Hp Ha Hb HQ. unfold is_interior. rewrite (proj2 (Z.eqb_neq _ _) Hp).
  apply wp_bind, wp_load_elem; [eauto with klist|]. intros e He. apply wp_ret.
  unfold prv, nxt in *. rewrite He in *. by simplify_eq/=.
Qed.

Lemma wp_is_tail h p a b (Q : bool -> heap -> Prop) :
  p ≠ NULL -> prv h p = Some a -> nxt h p = Some b ->
  Q (negb (a =? NULL) && (b =? NULL)) h -> wp (is_tail p) h Q.
Proof.
  intros Hp Ha Hb HQ. unfold is_tail. rewrite (proj2 (Z.eqb_neq _ _) Hp).
  apply wp_bind, wp_load_elem; [eauto with klist|]. intros e He. apply wp_ret.
  unfold prv, nxt in *. rewrite He in *. by simplify_eq/=.
Qed.

(** An element with a successor is a head or an interior element; one with
    a predecessor is an interior element or a tail. *)
Lemma wp_has_next h p a b (Q : bool -> heap -> Prop) :
  p ≠ NULL -> prv h p = Some a -> nxt h p = Some b -> b ≠ NULL ->
  Q true h -> wp (or_else (is_head p) (is_interior p)) h Q.
Proof.
  intros Hp Ha Hb Hb0 HQ. apply wp_bind. eapply wp_is_head; [done..|].
  rewrite (proj2 (Z.eqb_neq _ _) Hb0), andb_true_r.
  destruct (Z.eqb_spec a NULL) as [->|Hne]; [done|].
  eapply wp_is_interior; [done..|].
  by rewrite (proj2 (Z.eqb_neq _ _) Hb0), (proj2 (Z.eqb_neq _ _) Hne).
Qed.

Lemma wp_has_prev h p a b (Q : bool -> heap -> Prop) :
  p ≠ NULL -> prv h p = Some a -> nxt h p = Some b -> a ≠ NULL ->
  Q true h -> wp (or_else (is_interior p) (is_tail p)) h Q.
Proof.
  intros Hp Ha Hb Ha0 HQ. apply wp_bind. eapply wp_is_interior; [done..|].
  rewrite (proj2 (Z.eqb_neq _ _) Ha0). simpl.
  destruct (Z.eqb_spec b NULL) as [->|Hne]; [|done].
  eapply wp_is_tail; [done..|]. by rewrite (proj2 (Z.eqb_neq _ _) Ha0).
Qed.

Lemma wp_list_next h p a b (Q : Z -> heap -> Prop) :
  p ≠ NULL -> prv h p = Some a -> nxt h p = Some b -> b ≠ NULL ->
  Q b h -> wp (list_next p) h Q.
Proof.
  intros. apply wp_bind. eapply wp_has_next; [done..|].
  apply wp_bind, wp_assert; [done|]. by eapply wp_get_next.
Qed.

Lemma wp_list_prev h p a b (Q : Z -> heap -> Prop) :
  p ≠ NULL -> prv h p = Some a -> nxt h p = Some b -> a ≠ NULL ->
  Q a h -> wp (list_prev p) h Q.
Proof.
  intros. apply wp_bind. eapply wp_has_prev; [done..|].
  apply wp_bind, wp_assert; [done|]. by eapply wp_get_prev.
Qed.
End WpFields.

(** ** Chains of links *)

Section Links.
Implicit Types (h : heap) (a b p v : Z) (ns xs ys zs : list Z).

Lemma lastd_snoc a ns b : lastd a (ns ++ [b]) = b.
Proof. revert a. by induction ns as [|x ns IH]; intros a; simpl. Qed.

Lemma lastd_app a xs ys : lastd a (xs ++ ys) = lastd (lastd a xs) ys.
Proof. revert a. by induction xs as [|x xs IH]; intros a; simpl. Qed.

Lemma lastd_in a ns : lastd a ns ∈ a :: ns.
Proof.
  revert a. induction ns as [|b ns IH]; intros a; simpl; [by left|].
  right. apply IH.
Qed.

Lemma hdd_in t ns : hdd t ns ∈ ns ++ [t].
Proof. destruct ns; simpl; by left. Qed.

Lemma links_app h a xs b ys :
  links h a (xs ++ b :: ys) <-> links h a (xs ++ [b]) /\ links h b ys.
Proof.
  revert a. induction xs as [|x xs IH]; intros a; simpl; [tauto|].
  rewrite IH. tauto.
Qed.

Lemma links_snoc h a xs b :
  links h a (xs ++ [b]) <->
  links h a xs /\ nxt h (lastd a xs) = Some b /\ prv h b = Some (lastd a xs).
Proof.
  revert a. induction xs as [|x xs IH]; intros a; simpl; [tauto|].
  rewrite IH. tauto.
Qed.

(** A chain splits at any point into two chains and the link between them. *)
Lemma links_split h a xs ys t :
  links h a (xs ++ ys ++ [t]) <->
  links h a xs /\
  nxt h (lastd a xs) = Some (hdd t ys) /\ prv h (hdd t ys) = Some (lastd a xs) /\
  match ys with [] => True | y :: ys' => links h y (ys' ++ [t]) end.
Proof.
  destruct ys as [|y ys]; simpl.
  - rewrite links_snoc. tauto.
  - rewrite links_app, links_snoc. tauto.
Qed.

Lemma links_ext h h' a ns :
  (forall x, x ∈ a :: ns -> nxt h' x = nxt h x) ->
  (forall x, x ∈ ns -> prv h' x = prv h x) ->
  links h a ns -> links h' a ns.
Proof.
  revert a. induction ns as [|b ns IH]; intros a Hn Hp; simpl; [done|].
  intros (H1 & H2 & H3). rewrite Hn, Hp by set_solver.
  split; [done|]. split; [done|]. apply IH; [|set_solver|done].
  intros x Hx. apply Hn. by right.
Qed.

Lemma links_sn h p v a ns : p ∉ a :: ns -> links h a ns -> links (sn p v h) a ns.
Proof.
  intros Hp. apply links_ext; intros x Hx; [|by rewrite prv_sn].
  rewrite nxt_sn. case_decide; [by subst | done].
Qed.

(** The next link of the last element is not part of the chain. *)
Lemma links_sn_last h v a ns :
  NoDup (a :: ns) -> links h a ns -> links (sn (lastd a ns) v h) a ns.
Proof.
  revert a. induction ns as [|b ns IH]; intros a Hnd; simpl; [done|].
  intros (H1 & H2 & H3). apply NoDup_cons in Hnd as [Ha Hnd].
  rewrite nxt_sn, prv_sn, decide_False; [by auto|].
  intros Heq. apply Ha. rewrite <-Heq. apply lastd_in.
Qed.

Lemma links_sp h p v a ns : p ∉ ns -> links h a ns -> links (sp p v h) a ns.
Proof.
  intros Hp. apply links_ext; intros x Hx; [by rewrite nxt_sp|].
  rewrite prv_sp. case_decide; [by subst | done].
Qed.

Lemma links_dom h a ns x : links h a ns -> x ∈ ns -> x ∈ dom h.
Proof.
  revert a. induction ns as [|b ns IH]; intros a; simpl; [set_solver|].
  intros (_ & Hp & Hl) [->|Hx]%elem_of_cons; eauto with klist.
Qed.
End Links.

(** ** Lists in the heap *)

Section IsList.
Context {h : heap} {l : Z}.
Implicit Types (xs ys zs : list Z).

Lemma il_nonnull xs x : is_list h l xs -> x ∈ nodes l xs -> x ≠ NULL.
Proof. intros [] Hx ->. done. Qed.

Lemma il_dom xs x : is_list h l xs -> x ∈ nodes l xs -> x ∈ dom h.
Proof.
  intros [_ _ Hh _ Hl] [->|Hx]%elem_of_cons; [by eapply prv_dom|].
  by eapply links_dom.
Qed.

(** The two links around a position of the list. *)
Lemma il_cut ys zs :
  is_list h l (ys ++ zs) ->
  nxt h (lastd l ys) = Some (hdd (tail_of l) zs) /\
  prv h (hdd (tail_of l) zs) = Some (lastd l ys).
Proof.
  intros [_ _ _ _ Hl]. rewrite <-app_assoc, links_split in Hl. naive_solver.
Qed.

Lemma il_elem ys x zs :
  is_list h l (ys ++ x :: zs) ->
  prv h x = Some (lastd l ys) /\ nxt h x = Some (hdd (tail_of l) zs).
Proof.
  intros H. split; [apply (il_cut ys (x :: zs) H)|].
  rewrite (cons_middle x ys zs), (app_assoc ys [x] zs) in H.
  apply il_cut in H. rewrite lastd_snoc in H. tauto.
Qed.

Lemma lastd_nodes ys zs : lastd l ys ∈ nodes l (ys ++ zs).
Proof.
  unfold nodes. destruct (elem_of_cons ys (lastd l ys) l) as [H _].
  destruct (H (lastd_in _ _)) as [->|?]; [by left|]. set_solver.
Qed.

Lemma hdd_nodes ys zs : hdd (tail_of l) zs ∈ nodes l (ys ++ zs).
Proof.
  unfold nodes. pose proof (hdd_in (tail_of l) zs). set_solver.
Qed.

Lemma il_lastd_nonnull ys zs : is_list h l (ys ++ zs) -> lastd l ys ≠ NULL.
Proof. intros H. eapply il_nonnull; [done|]. apply lastd_nodes. Qed.

Lemma il_hdd_nonnull ys zs : is_list h l (ys ++ zs) -> hdd (tail_of l) zs ≠ NULL.
Proof. intros H. eapply il_nonnull; [done|]. apply hdd_nodes. Qed.

Lemma il_l_nonnull xs : is_list h l xs -> l ≠ NULL.
Proof. intros H. eapply il_nonnull; [done|]. by left. Qed.

Lemma il_length xs : is_list h l xs -> (length xs < size h)%nat.
Proof.
  intros H. assert (list_to_set (nodes l xs) ⊆ dom h) as Hsub.
  { intros x Hx%elem_of_list_to_set. by eapply il_dom. }
  apply subseteq_size in Hsub. rewrite size_list_to_set, size_dom in Hsub
    by apply H. unfold nodes in Hsub. simpl in Hsub. rewrite length_app in Hsub.
  simpl in Hsub. lia.
Qed.
End IsList.

(** ** Frames *)

Section Frame.
Implicit Types (h : heap) (ns : list Z).

Lemma same_except_refl ns h : same_except ns h h.
Proof. done. Qed.

Lemma same_except_trans ns h1 h2 h3 :
  same_except ns h1 h2 -> same_except ns h2 h3 -> same_except ns h1 h3.
Proof. intros [D1 E1] [D2 E2]. split; [congruence|]. intros x Hx. by rewrite E2, E1. Qed.

Lemma same_except_mono ns ns' h h' :
  ns ⊆ ns' -> same_except ns h h' -> same_except ns' h h'.
Proof. intros Hs [D E]. split; [done|]. intros x Hx. apply E. set_solver. Qed.

Lemma same_except_sn ns p v h h' :
  p ∈ ns -> same_except ns h h' -> same_except ns h (sn p v h').
Proof.
  intros Hp [D E]. split; [by rewrite dom_sn|]. intros x Hx.
  rewrite lookup_sn_ne by set_solver. by apply E.
Qed.

Lemma same_except_sp ns p v h h' :
  p ∈ ns -> same_except ns h h' -> same_except ns h (sp p v h').
Proof.
  intros Hp [D E]. split; [by rewrite dom_sp|]. intros x Hx.
  rewrite lookup_sp_ne by set_solver. by apply E.
Qed.

(** A list none of whose elements is touched is still the same list. *)
Lemma is_list_frame ns h h' l xs :
  same_except ns h h' -> (forall x, x ∈ nodes l xs -> x ∉ ns) ->
  is_list h l xs -> is_list h' l xs.
Proof.
  intros [_ E] Hd [Hnd H0 Hh Ht Hl]. unfold nodes in *.
  assert (forall x, x ∈ l :: xs ++ [tail_of l] -> nxt h' x = nxt h x /\ prv h' x = prv h x)
    as Heq.
  { intros x Hx. unfold nxt, prv. by rewrite E by auto. }
  split; [done..| | |].
  - destruct (Heq l) as [_ ->]; [by left | done].
  - destruct (Heq (tail_of l)) as [-> _]; [set_solver | done].
  - eapply links_ext, Hl; intros x Hx; apply Heq; set_solver.
Qed.
End Frame.

#[export] Hint Resolve same_except_refl same_except_sn same_except_sp : klist.

(** Turns a [NoDup] hypothesis into the facts about its parts. *)
Ltac nodup H :=
  try unfold nodes in H;
  repeat (apply NoDup_cons in H as [? H] || apply NoDup_app in H as (? & ? & H));
  try clear H.

(** Evaluates the lookups of the links after some stores. *)
Ltac klinks :=
  autorewrite with klist;
  repeat match goal with
  | |- context [decide (?x = ?y)] =>
    first [ rewrite (decide_True (P := x = y)) by done
          | rewrite (decide_False (P := x = y)) by congruence ]
  end.

(** ** Splicing chains *)

Section Cores.
Implicit Types (h : heap) (a b e : Z) (ys r : list Z).

Lemma NoDup_lastd a ys r : NoDup (a :: ys ++ r) -> lastd a ys ∉ r.
Proof.
  rewrite app_comm_cons. intros (_ & Hd & _)%NoDup_app. apply Hd, lastd_in.
Qed.

Lemma insert_links h a ys b r e :
  NoDup (a :: ys ++ b :: r) -> e ∉ a :: ys ++ b :: r -> e ∈ dom h ->
  links h a (ys ++ b :: r) ->
  links (sp b e (sn (lastd a ys) e (sn e b (sp e (lastd a ys) h)))) a (ys ++ e :: b :: r).
Proof.
  intros Hnd He Hd Hl. pose proof (lastd_in a ys) as Hla. pose proof (NoDup_lastd _ _ _ Hnd) as Hlb'.
  assert (NoDup (a :: ys)) as Hnd1.
  { rewrite app_comm_cons in Hnd. by apply NoDup_app in Hnd as [? _]. }
  apply dom_nxt in Hd as Hn; destruct Hn as [? Hn].
  apply dom_prv in Hd as Hp; destruct Hp as [? Hp].
  rewrite links_app, links_snoc in Hl. destruct Hl as ((Hl & Hlb & Hbl) & Hr).
  assert (lastd a ys ≠ e /\ lastd a ys ≠ b /\ b ≠ e) as (? & ? & ?) by set_solver.
  rewrite links_app, links_snoc. simpl. nodup Hnd. klinks.
  rewrite Hlb, Hn, Hp, Hbl. split_and!; try done.
  - apply links_sp; [set_solver|]. apply links_sn_last; [done|].
    apply links_sn; [set_solver|]. apply links_sp; [set_solver|done].
  - apply links_sp; [set_solver|]. apply links_sn; [set_solver|].
    apply links_sn; [set_solver|]. apply links_sp; [set_solver|done].
Qed.

Lemma remove_links h a ys e b r :
  NoDup (a :: ys ++ e :: b :: r) ->
  links h a (ys ++ e :: b :: r) ->
  links (sp b (lastd a ys) (sn (lastd a ys) b h)) a (ys ++ b :: r).
Proof.
  intros Hnd Hl. pose proof (lastd_in a ys) as Hla. pose proof (NoDup_lastd _ _ _ Hnd) as Hlb'.
  assert (NoDup (a :: ys)) as Hnd1.
  { rewrite app_comm_cons in Hnd. by apply NoDup_app in Hnd as [? _]. }
  rewrite links_app, links_snoc in Hl. simpl in Hl.
  destruct Hl as ((Hl & Hlb & Hbl) & Hn & Hp & Hr).
  rewrite links_app, links_snoc. nodup Hnd. klinks.
  rewrite Hlb, Hp. split_and!; try done.
  - apply links_sp; [set_solver|]. by apply links_sn_last.
  - apply links_sp; [set_solver|]. apply links_sn; [set_solver|done].
Qed.
End Cores.

(** ** Updates of a list *)

Section Updates.
Context {h : heap} {l : Z}.
Implicit Types (xs ys zs : list Z) (e x : Z).

(** [zs ++ [t]] as its first element and the rest. *)
Lemma snoc_hdd zs t : exists r, zs ++ [t] = hdd t zs :: r.
Proof. destruct zs as [|z zs]; [by exists []|]. by exists (zs ++ [t]). Qed.

Lemma nodes_insert ys e zs : nodes l (ys ++ e :: zs) ≡ₚ e :: nodes l (ys ++ zs).
Proof. unfold nodes. rewrite <-!app_assoc. simpl. solve_Permutation. Qed.

Lemma NoDup_hdd ys zs t : NoDup (l :: ys ++ zs ++ [t]) -> hdd t zs ≠ l.
Proof.
  intros [Hl _]%NoDup_cons Heq. apply Hl. rewrite <-Heq at 1.
  apply elem_of_app. right. apply hdd_in.
Qed.

Lemma il_insert ys zs e :
  is_list h l (ys ++ zs) -> e ≠ NULL -> e ∈ dom h -> e ∉ nodes l (ys ++ zs) ->
  is_list (sp (hdd (tail_of l) zs) e
            (sn (lastd l ys) e
              (sn e (hdd (tail_of l) zs) (sp e (lastd l ys) h)))) l (ys ++ e :: zs).
Proof.
  intros H He0 Hd He. pose proof (hdd_in (tail_of l) zs) as Hh.
  destruct H as [Hnd H0 Hh0 Ht Hl]. unfold nodes in *.
  destruct (snoc_hdd zs (tail_of l)) as [r Hr].
  rewrite <-app_assoc in *. rewrite Hr in Hl.
  pose proof (NoDup_lastd _ _ _ Hnd) as Hla.
  split.
  - rewrite nodes_insert. unfold nodes. rewrite <-app_assoc. by apply NoDup_cons.
  - rewrite nodes_insert. unfold nodes. rewrite <-app_assoc. set_solver.
  - assert (e ≠ l) by set_solver.
    assert (hdd (tail_of l) zs ≠ l) by by eapply NoDup_hdd. klinks. done.
  - assert (lastd l ys ≠ tail_of l) by set_solver.
    assert (e ≠ tail_of l) by set_solver. klinks. done.
  - rewrite <-app_assoc. simpl. rewrite Hr in *. by apply insert_links.
Qed.

Lemma il_remove ys e zs :
  is_list h l (ys ++ e :: zs) ->
  is_list (sp (hdd (tail_of l) zs) (lastd l ys) (sn (lastd l ys) (hdd (tail_of l) zs) h))
    l (ys ++ zs).
Proof.
  intros [Hnd H0 Hh0 Ht Hl]. pose proof (hdd_in (tail_of l) zs) as Hh.
  pose proof Hnd as Hnd'. rewrite nodes_insert in Hnd', H0.
  unfold nodes in *. rewrite <-app_assoc in Hnd, Hl. simpl in Hnd, Hl.
  destruct (snoc_hdd zs (tail_of l)) as [r Hr].
  pose proof (NoDup_lastd _ _ _ Hnd) as Hla.
  split.
  - apply NoDup_cons in Hnd' as [_ Hnd']. exact Hnd'.
  - set_solver.
  - assert (hdd (tail_of l) zs ≠ l).
    { eapply (NoDup_hdd (ys ++ [e])). by rewrite <-app_assoc. }
    klinks. done.
  - assert (lastd l ys ≠ tail_of l) by set_solver. klinks. done.
  - rewrite <-app_assoc. rewrite Hr in *. by eapply remove_links.
Qed.
End Updates.

(** * The operations on a well-formed list *)

Section Ops.
Implicit Types (h : heap) (l e x : Z) (xs ys zs : list Z).

Lemma wp_list_begin h l xs (Q : Z -> heap -> Prop) :
  is_list h l xs -> Q (hdd (tail_of l) xs) h -> wp (list_begin l) h Q.
Proof.
  intros H HQ. apply wp_bind, wp_assert.
  { apply negb_true_iff, Z.eqb_neq. by eapply il_l_nonnull. }
  eapply wp_get_next; [apply (il_cut [] xs H) | done].
Qed.

Lemma wp_list_end h l xs (Q : Z -> heap -> Prop) :
  is_list h l xs -> Q (tail_of l) h -> wp (list_end l) h Q.
Proof.
  intros H HQ. apply wp_bind, wp_assert.
  { apply negb_true_iff, Z.eqb_neq. by eapply il_l_nonnull. }
  by apply wp_ret.
Qed.

Lemma hdd_tail h l xs : is_list h l xs -> (hdd (tail_of l) xs =? tail_of l) = bool_decide (xs = []).
Proof.
  intros [Hnd _ _ _ _]. destruct xs as [|x xs]; simpl; [by rewrite Z.eqb_refl|].
  apply Z.eqb_neq. unfold nodes in Hnd. simpl in Hnd.
  apply NoDup_cons in Hnd as [_ [Hx _]%NoDup_cons]. set_solver.
Qed.

Lemma wp_list_empty h l xs (Q : bool -> heap -> Prop) :
  is_list h l xs -> Q (bool_decide (xs = [])) h -> wp (list_empty l) h Q.
Proof.
  intros H HQ. apply wp_bind. eapply wp_list_begin; [done|].
  apply wp_bind. eapply wp_list_end; [done|]. apply wp_ret.
  by erewrite hdd_tail.
Qed.

Lemma wp_list_init h l (Q : unit -> heap -> Prop) :
  l ≠ NULL -> tail_of l ≠ NULL -> l ∈ dom h -> tail_of l ∈ dom h ->
  (forall h', is_list h' l [] -> same_except (nodes l []) h h' -> Q tt h') ->
  wp (list_init l) h Q.
Proof.
  intros Hl0 Ht0 Hl Ht HQ. unfold list_init, head_of.
  assert (l ≠ tail_of l) by (unfold tail_of; lia).
  apply wp_bind, wp_assert; [by apply negb_true_iff, Z.eqb_neq|].
  apply wp_bind, wp_set_prev; [done|].
  apply wp_bind, wp_set_next; [by autorewrite with klist|].
  apply wp_bind, wp_set_prev; [by autorewrite with klist|].
  apply wp_set_next; [by autorewrite with klist|].
  apply HQ; [|unfold nodes; by repeat (apply same_except_refl || apply same_except_sn || apply same_except_sp || set_solver)].
  apply dom_nxt in Hl as Hl1; destruct Hl1 as [? Hl1].
  apply dom_prv in Hl as Hl2; destruct Hl2 as [? Hl2].
  apply dom_nxt in Ht as Ht1; destruct Ht1 as [? Ht1].
  apply dom_prv in Ht as Ht2; destruct Ht2 as [? Ht2].
  split; unfold nodes; simpl.
  - apply NoDup_cons. split; [set_solver|]. apply NoDup_singleton.
  - set_solver.
  - klinks. by rewrite Hl2.
  - klinks. by rewrite Ht1.
  - klinks. rewrite Hl1, Ht2. done.
Qed.
End Ops.

(** Elements of different parts of a duplicate-free list differ. *)
Lemma NoDup_app_ne (xs ys : list Z) x y : NoDup (xs ++ ys) -> x ∈ xs -> y ∈ ys -> x ≠ y.
Proof. intros (_ & Hd & _)%NoDup_app Hx Hy ->. by apply (Hd y). Qed.

(** Non-membership by cases on the parts of a list. *)
Ltac notin_norm :=
  repeat match goal with
  | H : _ ∉ _ :: _ |- _ => apply not_elem_of_cons in H as [? H]
  | H : _ ∉ _ ++ _ |- _ => apply not_elem_of_app in H as [? H]
  end.
Ltac notin :=
  repeat first [apply not_elem_of_cons; split | apply not_elem_of_app; split];
  (done || congruence).

Section SpliceCore.
Implicit Types (h : heap) (a b f c : Z) (p q s r : list Z).

(** [b :: q] and [f :: s] exchange places. *)
Lemma splice_links h a p b q f s c r :
  NoDup ((a :: p) ++ (b :: q) ++ (f :: s) ++ (c :: r)) ->
  links h a (p ++ b :: q ++ f :: s ++ c :: r) ->
  links (sp b (lastd f s)
          (sn (lastd a p) f
            (sn (lastd f s) b
              (sp f (lastd a p)
                (sp c (lastd b q) (sn (lastd b q) c h))))))
    a (p ++ f :: s ++ b :: q ++ c :: r).
Proof.
  intros Hnd Hl.
  pose proof (lastd_in a p) as Ia. pose proof (lastd_in b q) as Ib.
  pose proof (lastd_in f s) as If.
  apply NoDup_app in Hnd as (N1 & D1 & Hnd). apply NoDup_app in Hnd as (N2 & D2 & Hnd).
  apply NoDup_app in Hnd as (N3 & D3 & N4).
  pose proof (D1 _ Ia). pose proof (D2 _ Ib). pose proof (D3 _ If).
  assert (forall x, x ∈ (b :: q) ++ (f :: s) ++ c :: r -> x ∉ a :: p) as E1
    by (intros x Hx Hy; by apply (D1 x)).
  assert (forall x, x ∈ (f :: s) ++ c :: r -> x ∉ b :: q) as E2
    by (intros x Hx Hy; by apply (D2 x)).
  assert (forall x, x ∈ c :: r -> x ∉ f :: s) as E3
    by (intros x Hx Hy; by apply (D3 x)).
  pose proof (E1 (lastd b q) ltac:(set_solver)). pose proof (E1 (lastd f s) ltac:(set_solver)).
  pose proof (E2 (lastd f s) ltac:(set_solver)).
  pose proof (E1 b ltac:(set_solver)). pose proof (E1 f ltac:(set_solver)).
  pose proof (E1 c ltac:(apply elem_of_app; right; apply elem_of_app; right; by left)). pose proof (E2 f ltac:(set_solver)).
  pose proof (E2 c ltac:(set_solver)). pose proof (E3 c ltac:(set_solver)).
  pose proof (D2 b ltac:(set_solver)). pose proof (D3 f ltac:(set_solver)).
  clear D1 D2 D3 E1 E2 E3.
  pose proof (proj1 (NoDup_cons _ _) N2) as [? _].
  pose proof (proj1 (NoDup_cons _ _) N3) as [? _].
  pose proof (proj1 (NoDup_cons _ _) N4) as [? _].
  notin_norm.
  rewrite links_app, links_snoc, links_app, links_snoc, links_app, links_snoc in Hl.
  destruct Hl as ((L1 & A1 & A2) & (L2 & B1 & B2) & (L3 & C1 & C2) & L4).
  rewrite links_app, links_snoc, links_app, links_snoc, links_app, links_snoc.
  klinks. rewrite A1, A2, B1, B2, C1, C2. split_and!; try done.
  - repeat (apply links_sp; [notin|]).
    apply links_sn_last; [done|]. apply links_sn; [notin|].
    repeat (apply links_sp; [notin|]). by apply links_sn; [notin|].
  - apply links_sp; [notin|]. apply links_sn; [notin|].
    apply links_sn_last; [done|]. repeat (apply links_sp; [notin|]).
    by apply links_sn; [notin|].
  - apply links_sp; [notin|]. repeat (apply links_sn; [notin|]).
    repeat (apply links_sp; [notin|]). by apply links_sn_last.
  - apply links_sp; [notin|]. repeat (apply links_sn; [notin|]).
    repeat (apply links_sp; [notin|]). by apply links_sn; [notin|].
Qed.
End SpliceCore.

Section Ops2.
Implicit Types (h : heap) (l e x : Z) (xs ys zs : list Z).

Lemma il_tail_cut h l xs :
  is_list h l xs ->
  prv h (tail_of l) = Some (lastd l xs) /\ nxt h (tail_of l) = Some NULL.
Proof.
  intros H. split; [|apply H]. rewrite <-(app_nil_r xs) in H. by apply il_cut in H as [_ ?].
Qed.

(** The links of the element at a position, which is interior or the tail. *)
Lemma il_hdd_links h l ys zs :
  is_list h l (ys ++ zs) ->
  exists n, prv h (hdd (tail_of l) zs) = Some (lastd l ys) /\
            nxt h (hdd (tail_of l) zs) = Some n.
Proof.
  intros H. destruct zs as [|z zs]; simpl.
  - rewrite app_nil_r in H. exists NULL. by apply il_tail_cut.
  - apply il_elem in H as []. eauto.
Qed.

Lemma wp_list_insert h l ys zs b e (Q : unit -> heap -> Prop) :
  is_list h l (ys ++ zs) -> b = hdd (tail_of l) zs ->
  e ≠ NULL -> e ∈ dom h -> e ∉ nodes l (ys ++ zs) ->
  (forall h', is_list h' l (ys ++ e :: zs) ->
              same_except (e :: nodes l (ys ++ zs)) h h' -> Q tt h') ->
  wp (list_insert b e) h Q.
Proof.
  intros H -> He0 He Hne HQ. destruct (il_hdd_links _ _ _ _ H) as (n & Hp & Hn).
  pose proof (il_lastd_nonnull ys zs H) as Hl0. pose proof (il_hdd_nonnull ys zs H) as Hh0.
  pose proof (lastd_nodes (l := l) ys zs) as Il. pose proof (hdd_nodes (l := l) ys zs) as Ih.
  assert (e ≠ hdd (tail_of l) zs /\ e ≠ lastd l ys) as [? ?] by (split; congruence).
  apply wp_bind. eapply wp_has_prev; [done..|].
  apply wp_bind, wp_assert; [done|].
  apply wp_bind, wp_assert; [by apply negb_true_iff, Z.eqb_neq|].
  apply wp_bind. eapply wp_get_prev; [done|].
  apply wp_bind, wp_set_prev; [done|].
  apply wp_bind, wp_set_next; [by rewrite dom_sp|].
  apply wp_bind. eapply wp_get_prev; [by klinks|].
  apply wp_bind, wp_set_next; [rewrite dom_sn, dom_sp; by eapply il_dom|].
  apply wp_set_prev; [rewrite !dom_sn, dom_sp; by eapply il_dom|].
  apply HQ; [by apply il_insert|].
  by repeat (apply same_except_refl || apply same_except_sn || apply same_except_sp
             || (by left) || (by right)).
Qed.

Lemma wp_list_remove h l ys e zs (Q : Z -> heap -> Prop) :
  is_list h l (ys ++ e :: zs) ->
  (forall h', is_list h' l (ys ++ zs) -> e ∉ nodes l (ys ++ zs) ->
              same_except (nodes l (ys ++ zs)) h h' -> Q (hdd (tail_of l) zs) h') ->
  wp (list_remove e) h Q.
Proof.
  intros H HQ. destruct (il_elem _ _ _ H) as [Hp Hn].
  pose proof (il_lastd_nonnull ys _ H) as Hl0.
  pose proof (il_hdd_nonnull ys (e :: zs) H) as He0. simpl in He0.
  assert (hdd (tail_of l) zs ≠ NULL) as Hh0.
  { rewrite (cons_middle e ys zs), app_assoc in H. by eapply il_hdd_nonnull. }
  pose proof (il_nodup _ _ _ H) as Hnd. rewrite nodes_insert in Hnd.
  apply NoDup_cons in Hnd as [Hne _].
  pose proof (lastd_nodes (l := l) ys zs) as Il. pose proof (hdd_nodes (l := l) ys zs) as Ih.
  assert (forall x, x ∈ nodes l (ys ++ zs) -> x ∈ dom h) as Hdom.
  { intros x Hx. eapply il_dom; [done|]. rewrite nodes_insert. by right. }
  assert (e ≠ hdd (tail_of l) zs /\ e ≠ lastd l ys) as [? ?] by (split; congruence).
  apply wp_bind. eapply wp_is_interior; [done..|].
  rewrite !(proj2 (Z.eqb_neq _ _)) by done.
  apply wp_bind, wp_assert; [done|].
  apply wp_bind. eapply wp_get_prev; [done|].
  apply wp_bind. eapply wp_get_next; [done|].
  apply wp_bind, wp_set_next; [by apply Hdom|].
  apply wp_bind. eapply wp_get_next; [by klinks|].
  apply wp_bind. eapply wp_get_prev; [by klinks|].
  apply wp_bind, wp_set_prev; [rewrite dom_sn; by apply Hdom|].
  eapply wp_get_next; [by klinks|].
  apply HQ; [by eapply il_remove|done|].
  by repeat (apply same_except_refl || apply same_except_sn || apply same_except_sp).
Qed.

Lemma wp_list_push_back h l xs e (Q : unit -> heap -> Prop) :
  is_list h l xs -> e ≠ NULL -> e ∈ dom h -> e ∉ nodes l xs ->
  (forall h', is_list h' l (xs ++ [e]) ->
              same_except (e :: nodes l xs) h h' -> Q tt h') ->
  wp (list_push_back l e) h Q.
Proof.
  intros H He0 He Hne HQ. apply wp_bind. eapply wp_list_end; [done|].
  rewrite <-(app_nil_r xs) in H, Hne.
  eapply wp_list_insert; [done..|]. by rewrite app_nil_r.
Qed.

Lemma wp_list_push_front h l xs e (Q : unit -> heap -> Prop) :
  is_list h l xs -> e ≠ NULL -> e ∈ dom h -> e ∉ nodes l xs ->
  (forall h', is_list h' l (e :: xs) ->
              same_except (e :: nodes l xs) h h' -> Q tt h') ->
  wp (list_push_front l e) h Q.
Proof.
  intros H He0 He Hne HQ. apply wp_bind. eapply wp_list_begin; [done|].
  by eapply (wp_list_insert h l [] xs).
Qed.

Lemma wp_list_pop_front h l x xs (Q : Z -> heap -> Prop) :
  is_list h l (x :: xs) ->
  (forall h', is_list h' l xs -> x ∉ nodes l xs ->
              same_except (nodes l xs) h h' -> Q x h') ->
  wp (list_pop_front l) h Q.
Proof.
  intros H HQ. apply wp_bind, wp_bind. eapply wp_list_empty; [done|].
  apply wp_bind, wp_assert; [done|].
  eapply wp_get_next; [apply (il_cut [] _ H)|]. simpl.
  apply wp_bind. eapply (wp_list_remove h l [] x xs); [done|]. intros h' H' Hx Hs.
  by apply wp_ret, HQ.
Qed.

Lemma wp_list_pop_back h l x xs (Q : Z -> heap -> Prop) :
  is_list h l (xs ++ [x]) ->
  (forall h', is_list h' l xs -> x ∉ nodes l xs ->
              same_except (nodes l xs) h h' -> Q x h') ->
  wp (list_pop_back l) h Q.
Proof.
  intros H HQ. apply wp_bind, wp_bind. eapply wp_list_empty; [done|].
  apply wp_bind, wp_assert; [rewrite bool_decide_false; [done|by destruct xs]|].
  pose proof (il_tail_cut _ _ _ H) as [Ht _]. rewrite lastd_snoc in Ht.
  eapply wp_get_prev; [done|].
  apply wp_bind. eapply (wp_list_remove h l xs x []); [done|].
  rewrite app_nil_r. intros h' H' Hx Hs. by apply wp_ret, HQ.
Qed.

(** Popping an empty list fails the assertion. *)
Lemma list_pop_front_empty h l : is_list h l [] -> list_pop_front l h = Err Panic.
Proof.
  intros H. assert (list_empty l h = Ok (true, h)) as Hem.
  { pose proof (wp_list_empty h l [] (fun b h' => (b, h') = (true, h)) H) as Hw.
    apply wp_unfold in Hw as (b & h' & -> & [= -> ->]); done. }
  unfold list_pop_front, list_front. unfold mbind, M_bind. by rewrite Hem.
Qed.
End Ops2.

(** ** Traversals *)

Section Traversals.
Implicit Types (h : heap) (l e x : Z) (xs ys zs : list Z).

Lemma wp_heap_fuel h (Q : nat -> heap -> Prop) : Q (S (size h)) h -> wp heap_fuel h Q.
Proof. intros HQ. by apply wp_bind, wp_get, wp_ret. Qed.

(** Position [hdd (tail_of l) zs] is the tail exactly when nothing is left. *)
Lemma hdd_is_tail h l ys zs :
  is_list h l (ys ++ zs) -> (hdd (tail_of l) zs =? tail_of l) = bool_decide (zs = []).
Proof.
  intros [Hnd _ _ _ _]. destruct zs as [|z zs]; simpl; [by rewrite Z.eqb_refl|].
  apply Z.eqb_neq. unfold nodes in Hnd. rewrite <-app_assoc in Hnd.
  apply NoDup_cons in Hnd as [_ Hnd]. apply NoDup_app in Hnd as (_ & _ & Hnd).
  simpl in Hnd. apply NoDup_cons in Hnd as [Hz _]. set_solver.
Qed.

(** Two positions of a list are the same element when nothing is between. *)
Lemma hdd_is_hdd h l ys ms zs :
  is_list h l (ys ++ ms ++ zs) ->
  (hdd (tail_of l) (ms ++ zs) =? hdd (tail_of l) zs) = bool_decide (ms = []).
Proof.
  intros [Hnd _ _ _ _]. destruct ms as [|z ms]; simpl; [by rewrite Z.eqb_refl|].
  apply Z.eqb_neq. intros Heq. pose proof (hdd_in (tail_of l) zs) as Hin.
  rewrite <-Heq in Hin. unfold nodes in Hnd. rewrite <-app_assoc in Hnd.
  apply NoDup_cons in Hnd as [_ Hnd]. apply NoDup_app in Hnd as (_ & _ & Hnd).
  simpl in Hnd. apply NoDup_cons in Hnd as [Hz _]. apply Hz.
  rewrite <-app_assoc. apply elem_of_app. by right.
Qed.

Lemma wp_next_in h l ys x zs (Q : Z -> heap -> Prop) :
  is_list h l (ys ++ x :: zs) -> Q (hdd (tail_of l) zs) h -> wp (list_next x) h Q.
Proof.
  intros H HQ. destruct (il_elem _ _ _ H) as [Hp Hn].
  eapply wp_list_next; [|done..| |done].
  - by apply (il_hdd_nonnull ys (x :: zs) H).
  - rewrite (cons_middle x ys zs), app_assoc in H. by eapply il_hdd_nonnull.
Qed.

Lemma wp_prev_in h l ys zs (Q : Z -> heap -> Prop) :
  is_list h l (ys ++ zs) -> Q (lastd l ys) h -> wp (list_prev (hdd (tail_of l) zs)) h Q.
Proof.
  intros H HQ. destruct (il_hdd_links _ _ _ _ H) as (n & Hp & Hn).
  eapply wp_list_prev; [by eapply il_hdd_nonnull|done..| |done].
  by eapply il_lastd_nonnull.
Qed.

Lemma wp_list_size h l xs (Q : Z -> heap -> Prop) :
  is_list h l xs -> Q (u32 (Z.of_nat (length xs))) h -> wp (list_size l) h Q.
Proof.
  intros H HQ. apply wp_bind, wp_heap_fuel.
  apply wp_bind. eapply wp_list_begin; [done|].
  pose proof (il_length _ H) as Hlen.
  eapply (wp_loop (fun n '(e, cnt) h' => h' = h /\ exists ys zs, xs = ys ++ zs /\
    e = hdd (tail_of l) zs /\ cnt = u32 (Z.of_nat (length ys)) /\ n = length zs));
    [|split; [done|]; by exists [], xs|lia].
  intros n [e cnt] h' (-> & ys & zs & -> & -> & -> & ->).
  apply wp_bind. eapply wp_list_end; [done|].
  erewrite hdd_is_tail by done. destruct zs as [|z zs]; simpl.
  - apply wp_ret. by rewrite app_nil_r in HQ.
  - apply wp_bind. eapply wp_next_in; [done|]. apply wp_ret.
    exists (length zs). split; [lia|]. split; [done|].
    exists (ys ++ [z]), zs. split_and!; [by rewrite <-app_assoc|done| |done].
    rewrite length_app. unfold u32. simpl length.
    rewrite Z.add_mod_idemp_l by lia. f_equal. lia.
Qed.
End Traversals.

(** ** Reversal *)

Section Reverse.
Implicit Types (h hk : heap) (a l e x : Z) (ns xs ys zs r : list Z).

(** [hk] is [h] with the two links of every element of [ns] exchanged. *)
Definition swapped ns h hk : Prop :=
  dom hk = dom h /\
  (forall x, x ∈ ns -> nxt hk x = prv h x /\ prv hk x = nxt h x) /\
  (forall x, x ∉ ns -> hk !! x = h !! x).

Lemma lastd_reverse a ns z r : reverse (a :: ns) = z :: r -> lastd z r = a.
Proof.
  rewrite reverse_cons. destruct (reverse ns) as [|y ys]; simpl; intros [= <- <-]; [done|].
  by rewrite lastd_snoc.
Qed.

Lemma il_headers h l xs : is_list h l xs -> (l ∉ xs) /\ (tail_of l ∉ xs) /\ l ≠ tail_of l.
Proof.
  intros [Hnd _ _ _ _]. unfold nodes in Hnd. apply NoDup_cons in Hnd as [N1 Hnd].
  apply not_elem_of_app in N1 as [N1 N2]. split_and!; [done| |by apply not_elem_of_cons in N2 as []].
  intros Hx. by apply (NoDup_app_ne _ _ (tail_of l) (tail_of l) Hnd Hx); [left|].
Qed.

Lemma links_reverse h hk a ns :
  links h a ns ->
  (forall x, x ∈ a :: ns -> nxt hk x = prv h x /\ prv hk x = nxt h x) ->
  exists r, reverse (a :: ns) = lastd a ns :: r /\ links hk (lastd a ns) r.
Proof.
  revert a. induction ns as [|b ns IH]; intros a; [by exists []|].
  intros (Hn & Hp & Hl) Hsw. destruct (IH b Hl) as (r & Hr & Hlr).
  { intros x Hx. apply Hsw. by right. }
  simpl. exists (r ++ [a]). rewrite (reverse_cons (b :: ns)), Hr. split; [done|].
  rewrite links_snoc, (lastd_reverse _ _ _ _ Hr). split_and!; [done| |].
  - destruct (Hsw b) as [-> _]; [by right; left|done].
  - destruct (Hsw a) as [_ ->]; [by left|done].
Qed.

Lemma wp_swap_links h e a b (Q : unit -> heap -> Prop) :
  prv h e = Some a -> nxt h e = Some b -> Q tt (sn e a (sp e b h)) ->
  wp (swap (Fprev e) (Fnext e)) h Q.
Proof.
  intros Ha Hb HQ. apply wp_bind. eapply wp_get_prev; [done|].
  apply wp_bind. eapply wp_get_next; [done|].
  apply wp_bind, wp_set_prev; [eauto with klist|].
  apply wp_set_next; [rewrite dom_sp; eauto with klist|done].
Qed.

Lemma swapped_step ns h hk e a b :
  swapped ns h hk -> e ∉ ns -> prv h e = Some a -> nxt h e = Some b ->
  swapped (ns ++ [e]) h (sn e a (sp e b hk)).
Proof.
  intros (D & Hs & Ho) He Ha Hb. split_and!.
  - by rewrite dom_sn, dom_sp.
  - assert (nxt hk e = nxt h e /\ prv hk e = prv h e) as [Hn Hp].
    { unfold nxt, prv. by rewrite Ho. }
    intros x [Hx| ->%list_elem_of_singleton]%elem_of_app.
    + assert (e ≠ x) by congruence. klinks. by apply Hs.
    + klinks. by rewrite Hn, Hp, Ha, Hb.
  - intros x Hx. assert (e ≠ x) by set_solver.
    rewrite lookup_sn_ne, lookup_sp_ne by done. apply Ho. set_solver.
Qed.

Lemma swapped_nil h : swapped [] h h.
Proof. split_and!; [done| |done]. intros x Hx. by apply not_elem_of_nil in Hx. Qed.

Lemma wp_reverse_loop h l xs fuel (Q : unit -> heap -> Prop) :
  is_list h l xs -> (length xs < fuel)%nat ->
  (forall hk, swapped xs h hk -> Q tt hk) ->
  wp (loop fuel (fun e =>
        stop ← list_end l;
        if e =? stop then mret (inr tt)
        else swap (Fprev e) (Fnext e);; e' ← get_prev e; mret (inl e'))
      (hdd (tail_of l) xs)) h Q.
Proof.
  intros H Hf HQ.
  eapply (wp_loop (fun n e hk => exists ys zs, xs = ys ++ zs /\ swapped ys h hk /\
    e = hdd (tail_of l) zs /\ n = length zs)); [|by exists [], xs; auto using swapped_nil|done].
  intros n e hk (ys & zs & -> & Hsw & -> & ->).
  assert (l ≠ NULL) as Hl0 by by eapply il_l_nonnull.
  apply wp_bind, wp_bind, wp_assert; [by apply negb_true_iff, Z.eqb_neq|].
  apply wp_ret. erewrite hdd_is_tail by done. destruct zs as [|z zs]; simpl.
  { apply wp_ret, HQ. by rewrite app_nil_r. }
  destruct (il_elem _ _ _ H) as [Hp Hn].
  assert (z ∉ ys) as Hz.
  { destruct H as [Hnd _ _ _ _]. unfold nodes in Hnd. rewrite <-app_assoc in Hnd.
    apply NoDup_cons in Hnd as [_ Hnd]. intros Hz.
    by apply (NoDup_app_ne _ _ z z Hnd Hz); [left|]. }
  assert (nxt hk z = nxt h z /\ prv hk z = prv h z) as [Hn' Hp'].
  { destruct Hsw as (_ & _ & Ho). unfold nxt, prv. by rewrite Ho. }
  apply wp_bind. eapply wp_swap_links; [by rewrite Hp'|by rewrite Hn'|].
  apply wp_bind. eapply wp_get_prev.
  { klinks. rewrite Hp', Hp. simpl. done. }
  apply wp_ret. exists (length zs). split; [lia|].
  exists (ys ++ [z]), zs. split_and!; [by rewrite <-app_assoc| |done..].
  by apply swapped_step.
Qed.

(** The last step of [list_reverse]: exchange the ends. *)
Definition rev_ends l f z (hk : heap) : heap :=
  sn f (tail_of l) (sp z l (sp (tail_of l) f (sn l z hk))).

Lemma il_reverse h hk l f xs :
  is_list h l (f :: xs) -> swapped (f :: xs) h hk ->
  is_list (rev_ends l f (lastd f xs) hk) l (reverse (f :: xs)).
Proof.
  intros H (D & Hsw & Ho). set (z := lastd f xs).
  assert (nodes l (reverse (f :: xs)) ≡ₚ nodes l (f :: xs)) as Hperm.
  { unfold nodes. by rewrite reverse_Permutation. }
  pose proof (il_headers _ _ _ H) as (Nl & Nt & Nlt).
  assert (f ∈ f :: xs) as If by left.
  pose proof (il_elem [] _ _ H) as [Hfp _]. simpl in Hfp.
  pose proof (il_tail_cut _ _ _ H) as [Htp Htn]. fold z in Htp. simpl in Htp.
  pose proof (proj1 (il_cut [] _ H)) as Hln. simpl in Hln.
  assert (nxt h z = Some (tail_of l)) as Hzn.
  { rewrite <-(app_nil_r (f :: xs)) in H. by apply il_cut in H as [? _]. }
  destruct H as [Hnd H0 Hh Ht Hl]. unfold nodes in Hnd.
  assert (z ∈ f :: xs) as Iz by apply lastd_in.
  assert (NoDup (f :: xs)) as Nxs.
  { apply NoDup_cons in Hnd as [_ Hnd]. by apply NoDup_app in Hnd as [? _]. }
  assert (f ≠ l /\ z ≠ l /\ f ≠ tail_of l /\ z ≠ tail_of l) as (?&?&?&?) by (split_and!; congruence).
  assert (forall x, x = l \/ x = tail_of l -> nxt hk x = nxt h x /\ prv hk x = prv h x)
    as Hends.
  { intros x [-> | ->]; unfold nxt, prv; by rewrite Ho. }
  destruct (Hends l) as [Eln Elp]; [by left|].
  destruct (Hends (tail_of l)) as [Etn Etp]; [by right|].
  destruct (Hsw f) as [Efn Efp]; [by left|]. destruct (Hsw z Iz) as [Ezn Ezp].
  assert (links h f xs) as Hlx.
  { simpl in Hl. destruct Hl as (_ & _ & Hl).
    by apply links_snoc in Hl as [? _]. }
  destruct (links_reverse h hk f xs Hlx Hsw) as (r & Hr & Hlr). fold z in Hr, Hlr.
  assert (NoDup (z :: r)) as Nzr by (rewrite <-Hr; by rewrite reverse_Permutation).
  assert (forall x, x ∈ z :: r <-> x ∈ f :: xs) as Hin.
  { intros x. rewrite <-Hr. by rewrite elem_of_reverse. }
  unfold rev_ends. split.
  - by rewrite Hperm.
  - by rewrite Hperm.
  - klinks. by rewrite Elp.
  - klinks. by rewrite Etn.
  - rewrite Hr. simpl. rewrite links_snoc, (lastd_reverse _ _ _ _ Hr).
    apply NoDup_cons in Nzr as Nzr'. destruct Nzr' as [Nz _].
    split_and!.
    + klinks. by rewrite Eln, Hln.
    + klinks. by rewrite Ezp, Hzn.
    + rewrite <-(lastd_reverse _ _ _ _ Hr) at 1. apply links_sn_last; [done|].
      apply links_sp; [done|]. apply links_sp.
      { intros Hx. apply Nt, Hin. by right. }
      apply links_sn; [by rewrite Hin|done].
    + klinks. by rewrite Efn, Hfp.
    + klinks. by rewrite Etp, Htp.
Qed.

Lemma wp_list_reverse h l xs (Q : unit -> heap -> Prop) :
  is_list h l xs -> (forall h', is_list h' l (reverse xs) -> Q tt h') ->
  wp (list_reverse l) h Q.
Proof.
  intros H HQ. apply wp_bind. eapply wp_list_empty; [done|].
  destruct xs as [|f xs]; simpl; [by apply wp_ret, HQ|].
  apply wp_bind, wp_heap_fuel. apply wp_bind. eapply wp_list_begin; [done|].
  apply wp_bind. eapply wp_reverse_loop; [done|pose proof (il_length _ H); lia|].
  intros hk Hsw. pose proof (il_reverse _ _ _ _ _ H Hsw) as Hrev.
  assert (forall x, x ∈ nodes l (f :: xs) -> x ∈ dom hk) as Hd.
  { intros x Hx. destruct Hsw as [-> _]. by eapply il_dom. }
  pose proof (il_tail_cut _ _ _ H) as [Htp _]. simpl in Htp.
  pose proof (proj1 (il_cut [] _ H)) as Hln. simpl in Hln.
  pose proof (il_elem [] _ _ H) as [Hfp _]. simpl in Hfp.
  assert (nxt h (lastd f xs) = Some (tail_of l)) as Hzn.
  { rewrite <-(app_nil_r (f :: xs)) in H. by apply il_cut in H as [? _]. }
  pose proof (lastd_in f xs) as Iz. assert (f ∈ f :: xs) as If by left.
  pose proof (il_headers _ _ _ H) as (Nl & Nt & Nlt).
  destruct Hsw as (D & Hsw & Ho).
  assert (nxt hk l = Some f /\ prv hk (tail_of l) = Some (lastd f xs)) as [E1 E2].
  { unfold nxt, prv in *. by rewrite !Ho. }
  destruct (Hsw f) as [Efn _]; [by left|]. destruct (Hsw _ Iz) as [_ Ezp].
  assert (f ≠ l /\ lastd f xs ≠ l /\ f ≠ tail_of l /\ lastd f xs ≠ tail_of l)
    as (?&?&?&?) by (split_and!; congruence).
  unfold head_of.
  apply wp_bind, wp_bind. eapply wp_get_next; [done|].
  apply wp_bind. eapply wp_get_prev; [done|].
  apply wp_bind, wp_set_next; [eauto with klist|].
  apply wp_set_prev; [rewrite dom_sn; eauto with klist|].
  apply wp_bind. eapply wp_get_next; [klinks; by rewrite E1|].
  apply wp_bind. eapply wp_get_prev; [klinks; by rewrite E2|].
  apply wp_bind. eapply wp_get_prev; [klinks; by rewrite Ezp|].
  apply wp_bind. eapply wp_get_next; [klinks; by rewrite Efn|].
  apply wp_bind, wp_set_prev; [rewrite dom_sp, dom_sn; apply Hd, elem_of_cons; right; apply elem_of_app; by left|].
  apply wp_set_next; [rewrite !dom_sp, dom_sn; apply Hd, elem_of_cons; right; apply elem_of_app; by left|].
  by apply HQ.
Qed.
End Reverse.
