(* ===== verification/KlistSort.v ===== *)
(** The ordered operations of src/lib/kernel/list.c: [list_splice],
    [list_sort] and its helpers, [list_insert_ordered], [list_unique],
    [list_max] and [list_min], proved against the sequences they should leave
    or find.  The definitions are those of [Klist]. *)
From stdpp Require Import base list numbers gmap fin_maps sorting.
From Stdlib Require Import ZArith Lia.
From S2P Require Import Prelude Klist.

Open Scope Z_scope.

(** * Splicing inside a list *)

(** Membership in one of the parts of an append. *)
Ltac inparts :=
  first [assumption | apply elem_of_app; left; inparts | apply elem_of_app; right; inparts].

Section Splice.
Implicit Types (h : heap) (l : Z) (p q s r : list Z).

(** The heap that [list_splice] leaves, moving [f .. z] from between [y] and
    [c] to between [x] and [b]. *)
Definition spliced (x b y f z c : Z) h : heap :=
  sp b z (sn x f (sn z b (sp f x (sp c y (sn y c h))))).

Lemma wp_splice_exec h x b y f z c bn fn zp cn (Q : unit -> heap -> Prop) :
  prv h b = Some x -> nxt h b = Some bn -> b ≠ NULL -> x ≠ NULL ->
  prv h f = Some y -> nxt h f = Some fn -> f ≠ NULL -> y ≠ NULL -> fn ≠ NULL ->
  prv h z = Some zp -> nxt h z = Some c -> z ≠ NULL -> zp ≠ NULL ->
  prv h c = Some z -> nxt h c = Some cn -> c ≠ NULL ->
  f ≠ c -> y ≠ z -> b ≠ c -> b ≠ f -> y ∈ dom h -> x ∈ dom h ->
  Q tt (spliced x b y f z c h) -> wp (list_splice b f c) h Q.
Proof.
  intros. unfold list_splice. apply wp_bind. eapply wp_has_prev; [done..|].
  apply wp_bind, wp_assert; [done|]. rewrite (proj2 (Z.eqb_neq f c)) by done.
  apply wp_bind. eapply wp_list_prev; [done..|].
  apply wp_bind. eapply wp_is_interior; [done..|].
  rewrite (proj2 (Z.eqb_neq y _)), (proj2 (Z.eqb_neq fn _)) by done.
  apply wp_bind, wp_assert; [done|].
  apply wp_bind. eapply wp_is_interior; [done..|].
  rewrite (proj2 (Z.eqb_neq zp _)), (proj2 (Z.eqb_neq c _)) by done.
  apply wp_bind, wp_assert; [done|].
  apply wp_bind. eapply wp_get_prev; [done|]. apply wp_bind. eapply wp_get_next; [done|].
  apply wp_bind, wp_set_next; [done|].
  apply wp_bind. eapply wp_get_next; [by klinks|].
  apply wp_bind. eapply wp_get_prev; [by klinks|].
  apply wp_bind, wp_set_prev; [rewrite dom_sn; eauto with klist|].
  apply wp_bind. eapply wp_get_prev; [by klinks|].
  apply wp_bind, wp_set_prev; [rewrite dom_sp, dom_sn; eauto with klist|].
  apply wp_bind, wp_set_next; [rewrite !dom_sp, dom_sn; eauto with klist|].
  apply wp_bind. eapply wp_get_prev; [by klinks|].
  apply wp_bind, wp_set_next; [by autorewrite with klist|].
  apply wp_set_prev; [autorewrite with klist; eauto with klist|done].
Qed.

Lemma nodes_splice l p q s r : nodes l (p ++ s ++ q ++ r) ≡ₚ nodes l (p ++ q ++ s ++ r).
Proof. unfold nodes. solve_Permutation. Qed.

(** The four parts of the list, the last one with its tail. *)
Lemma nodes_parts l p b q f s r :
  exists r', nodes l (p ++ (b :: q) ++ (f :: s) ++ r) =
    (l :: p) ++ (b :: q) ++ (f :: s) ++ hdd (tail_of l) r :: r' /\
    r ++ [tail_of l] = hdd (tail_of l) r :: r'.
Proof.
  destruct (snoc_hdd r (tail_of l)) as [r' Hr']. exists r'.
  unfold nodes. rewrite <-!app_assoc, Hr'. done.
Qed.

Lemma il_splice h l p b q f s r :
  is_list h l (p ++ (b :: q) ++ (f :: s) ++ r) ->
  is_list (spliced (lastd l p) b (lastd b q) f (lastd f s) (hdd (tail_of l) r) h) l
    (p ++ (f :: s) ++ (b :: q) ++ r).
Proof.
  intros [Hnd H0 Hh Ht Hl]. destruct (nodes_parts l p b q f s r) as (r' & Hns & Hr').
  split; [by rewrite nodes_splice|by rewrite nodes_splice|..].
  3: { rewrite <-!app_assoc. rewrite <-!app_assoc in Hl. rewrite Hr' in *.
       apply splice_links; [by rewrite <-Hns|done]. }
  all: rewrite Hns in Hnd; unfold spliced; autorewrite with klist.
  - assert (forall u, u ∈ (b :: q) ++ (f :: s) ++ hdd (tail_of l) r :: r' -> u ≠ l) as N.
    { intros u Hu ->. apply NoDup_cons in Hnd as [Hx _]. apply Hx, elem_of_app. by right. }
    rewrite !decide_False; [done|apply N; rewrite !elem_of_app..].
    + right; right; by left.
    + right; left; by left.
    + left; by left.
  - assert (tail_of l ∈ hdd (tail_of l) r :: r') as It
      by (rewrite <-Hr'; apply elem_of_app; right; by left).
    assert (forall u, u ∈ (l :: p) ++ (b :: q) ++ (f :: s) -> u ≠ tail_of l) as N.
    { intros u Hu. rewrite 2!app_assoc, <-(app_assoc (l :: p)) in Hnd.
      by eapply NoDup_app_ne. }
    rewrite !decide_False; [done|apply N; rewrite !elem_of_app..].
    + right; left; apply lastd_in.
    + right; right; apply lastd_in.
    + left; apply lastd_in.
Qed.

Lemma spliced_frame h x b y f z c ns :
  b ∈ ns -> x ∈ ns -> y ∈ ns -> f ∈ ns -> z ∈ ns -> c ∈ ns ->
  same_except ns h (spliced x b y f z c h).
Proof.
  intros. unfold spliced.
  repeat (first [apply same_except_refl |
    eapply same_except_trans; [|first [by apply same_except_sp|by apply same_except_sn]]]).
Qed.

Lemma snoc_lastd f s : exists s', f :: s = s' ++ [lastd f s].
Proof.
  induction s as [|z s _] using rev_ind; [by exists []|].
  exists (f :: s). by rewrite lastd_snoc.
Qed.

Lemma wp_list_splice h l p b q f s r (Q : unit -> heap -> Prop) :
  is_list h l (p ++ (b :: q) ++ (f :: s) ++ r) ->
  (forall h', is_list h' l (p ++ (f :: s) ++ (b :: q) ++ r) ->
     same_except (nodes l (p ++ (b :: q) ++ (f :: s) ++ r)) h h' -> Q tt h') ->
  wp (list_splice b f (hdd (tail_of l) r)) h Q.
Proof.
  intros H HQ. pose proof (il_splice _ _ _ _ _ _ _ _ H) as H'.
  destruct (nodes_parts l p b q f s r) as (r' & Hns & _).
  assert (is_list h l ((p ++ b :: q) ++ f :: s ++ r)) as Hf by (by rewrite <-app_assoc).
  assert (is_list h l ((p ++ (b :: q) ++ f :: s) ++ r)) as Hc.
  { rewrite <-app_assoc, <-(app_assoc (b :: q)). done. }
  destruct (snoc_lastd f s) as [s' Hs'].
  assert (is_list h l ((p ++ (b :: q) ++ s') ++ lastd f s :: r)) as Hz.
  { revert H. rewrite Hs' at 1. by rewrite <-!app_assoc. }
  destruct (il_elem _ _ _ H) as [Hb1 Hb2]. destruct (il_elem _ _ _ Hf) as [Hf1 Hf2].
  destruct (il_elem _ _ _ Hz) as [Hz1 Hz2].
  destruct (il_hdd_links _ _ _ _ Hc) as (cn & Hc1 & Hc2).
  rewrite lastd_app in Hf1. rewrite !lastd_app in Hc1. simpl in Hf1, Hc1.
  pose proof (il_nodup _ _ _ H) as Hnd. rewrite Hns in Hnd.
  assert (forall u, u ∈ (l :: p) ++ (b :: q) ++ (f :: s) ++ hdd (tail_of l) r :: r' -> u ≠ NULL)
    as N by (rewrite <-Hns; intros u; by eapply il_nonnull).
  assert (forall u, u ∈ (l :: p) ++ (b :: q) ++ (f :: s) ++ hdd (tail_of l) r :: r' -> u ∈ dom h)
    as D by (rewrite <-Hns; intros u; by eapply il_dom).
  apply NoDup_app in Hnd as (_ & _ & Hnd2).
  pose proof (proj2 (proj2 (proj1 (NoDup_app _ _) Hnd2))) as Hnd3.
  pose proof (lastd_in l p) as Ix. pose proof (lastd_in b q) as Iy. pose proof (lastd_in f s) as Iz.
  assert (hdd (tail_of l) r ∈ hdd (tail_of l) r :: r') as Ic by left.
  assert (b ∈ b :: q) as Ib by left. assert (f ∈ f :: s) as If by left.
  eapply (wp_splice_exec _ (lastd l p) _ (lastd b q) _ (lastd f s)); try done;
    try (apply N; inparts); try (apply D; inparts); try by eapply il_lastd_nonnull.
  - assert (is_list h l ((p ++ (b :: q) ++ [f]) ++ s ++ r)) as Hg by (by rewrite <-!app_assoc).
    by eapply il_hdd_nonnull.
  - by apply (NoDup_app_ne _ _ _ _ Hnd3).
  - by apply (NoDup_app_ne _ _ _ _ Hnd2); [|inparts].
  - by apply (NoDup_app_ne _ _ _ _ Hnd2); [|inparts].
  - by apply (NoDup_app_ne _ _ _ _ Hnd2); [|inparts].
  - apply HQ; [done|]. rewrite Hns. apply spliced_frame; inparts.
Qed.
End Splice.

(** * Runs *)

Section Runs.
Context (less : Z -> Z -> Z -> bool) (aux : Z).

(** [b] may follow [a] in nondecreasing order. *)
Definition ord (a b : Z) : Prop := less b a aux = false.

#[export] Instance ord_dec : RelDecision ord.
Proof. intros a b. unfold ord. apply _. Defined.

Fixpoint chain (x : Z) (xs : list Z) : bool :=
  match xs with
  | [] => true
  | y :: ys => if less y x aux then false else chain y ys
  end.
Definition sortedb (xs : list Z) : bool :=
  match xs with [] => true | x :: xs => chain x xs end.

(** The elements after [x] that continue its run, and those after the run. *)
Fixpoint run (x : Z) (xs : list Z) : list Z :=
  match xs with
  | [] => []
  | y :: ys => if less y x aux then [] else y :: run y ys
  end.
Fixpoint after_run (x : Z) (xs : list Z) : list Z :=
  match xs with
  | [] => []
  | y :: ys => if less y x aux then y :: ys else after_run y ys
  end.

(** The number of maximal nondecreasing runs. *)
Fixpoint descents (x : Z) (xs : list Z) : nat :=
  match xs with
  | [] => 0
  | y :: ys => (if less y x aux then 1 else 0) + descents y ys
  end.
Definition nruns (xs : list Z) : nat :=
  match xs with [] => 0 | x :: xs => S (descents x xs) end.

Lemma run_split x xs : xs = run x xs ++ after_run x xs.
Proof.
  revert x. induction xs as [|y ys IH]; intros x; simpl; [done|].
  destruct (less y x aux); simpl; [done|]. by rewrite <-IH.
Qed.

Lemma run_chain x xs : chain x (run x xs) = true.
Proof.
  revert x. induction xs as [|y ys IH]; intros x; simpl; [done|].
  destruct (less y x aux) eqn:E; simpl; [done|]. by rewrite E.
Qed.

Lemma descents_after_run x xs : descents x xs = nruns (after_run x xs).
Proof.
  revert x. induction xs as [|y ys IH]; intros x; simpl; [done|].
  destruct (less y x aux); simpl; by rewrite ?IH.
Qed.

Lemma nruns_run x xs : nruns (x :: xs) = S (nruns (after_run x xs)).
Proof. simpl. by rewrite descents_after_run. Qed.

Lemma descents_app x xs ys : (descents x (xs ++ ys) <= descents x xs + nruns ys)%nat.
Proof.
  revert x. induction xs as [|y xs IH]; intros x; simpl.
  - destruct ys as [|z ys]; simpl; [lia|]. destruct (less z x aux); lia.
  - specialize (IH y). lia.
Qed.

Lemma nruns_app xs ys : (nruns (xs ++ ys) <= nruns xs + nruns ys)%nat.
Proof. destruct xs as [|x xs]; simpl; [lia|]. pose proof (descents_app x xs ys). lia. Qed.

Lemma descents_length x xs : (descents x xs <= length xs)%nat.
Proof.
  revert x. induction xs as [|y xs IH]; intros x; simpl; [lia|].
  specialize (IH y). destruct (less y x aux); lia.
Qed.

Lemma nruns_length xs : (nruns xs <= length xs)%nat.
Proof. destruct xs as [|x xs]; simpl; [lia|]. pose proof (descents_length x xs). lia. Qed.

Lemma chain_descents x xs : chain x xs = true <-> descents x xs = 0%nat.
Proof.
  revert x. induction xs as [|y xs IH]; intros x; simpl; [done|].
  destruct (less y x aux); simpl; [|done]. split; [done|lia].
Qed.

Lemma nruns_sorted xs : sortedb xs = true <-> (nruns xs <= 1)%nat.
Proof. destruct xs as [|x xs]; simpl; [split; [lia|done]|]. rewrite chain_descents. lia. Qed.

Lemma sortedb_Sorted xs : sortedb xs = true <-> Sorted ord xs.
Proof.
  destruct xs as [|x xs]; simpl; [split; [constructor|done]|].
  revert x. induction xs as [|y xs IH]; intros x; simpl; [split; [repeat constructor|done]|].
  unfold ord in *. destruct (less y x aux) eqn:E.
  - split; [done|]. intros H. inversion H as [|? ? _ Hh]. inversion Hh. congruence.
  - rewrite IH. split; [intros H; constructor; [done|by constructor]|]. by inversion 1.
Qed.

(** [less] does not order a pair both ways. *)
Definition asymmetric : Prop := forall a b, less a b aux = true -> less b a aux = false.

Lemma merge_sortedb xs ys :
  asymmetric -> sortedb xs = true -> sortedb ys = true ->
  sortedb (list_merge ord xs ys) = true.
Proof.
  intros Has. rewrite !sortedb_Sorted. assert (Total ord) as Htot; [|by apply Sorted_list_merge].
  intros a b. unfold ord. destruct (less b a aux) eqn:E; [right; by apply Has|by left].
Qed.
End Runs.

(** * Sorting *)

Section Sort.
Context (less : Z -> Z -> Z -> bool) (aux : Z).
Implicit Types (h : heap) (l : Z) (p q s r xs : list Z).

Local Abbreviation sortedb := (sortedb less aux).
Local Abbreviation chain := (chain less aux).
Local Abbreviation ord := (ord less aux).
Local Abbreviation nruns := (nruns less aux).

Lemma il_hdd_snoc h l p x s : is_list h l (p ++ x :: s) -> is_list h l ((p ++ [x]) ++ s).
Proof. by rewrite <-app_assoc. Qed.

Lemma is_list_ne_null h l p s : is_list h l (p ++ s) -> (hdd (tail_of l) s =? NULL) = false.
Proof. intros H. apply Z.eqb_neq. by eapply il_hdd_nonnull. Qed.

Lemma wp_is_sorted h l p s r (Q : bool -> heap -> Prop) :
  is_list h l (p ++ s ++ r) -> Q (sortedb s) h ->
  wp (is_sorted less aux (hdd (tail_of l) (s ++ r)) (hdd (tail_of l) r)) h Q.
Proof.
  intros H HQ. unfold is_sorted. erewrite hdd_is_hdd by done.
  destruct s as [|x s]; simpl; [by apply wp_ret|].
  apply wp_bind, wp_heap_fuel. pose proof (il_length _ H) as Hlen.
  eapply (wp_loop (fun n a h' => h' = h /\ exists d t, is_list h l ((p ++ d) ++ a :: t ++ r) /\
    chain x s = chain a t /\ n = length t)); [|split; [done|]|].
  2: { exists [], s. by rewrite app_nil_r. }
  2: { rewrite !length_app in Hlen. simpl in Hlen. lia. }
  intros n a h' (-> & d & t & Ha & Hc & ->). apply wp_bind. eapply wp_next_in; [done|].
  pose proof (il_hdd_snoc _ _ _ _ _ Ha) as Ha'.
  erewrite hdd_is_hdd by done. destruct t as [|b t]; simpl.
  - apply wp_ret. simpl in HQ. by rewrite Hc in HQ.
  - apply wp_bind. eapply (wp_prev_in _ _ _ (b :: t ++ r)); [done|]. apply wp_ret.
    rewrite lastd_snoc. simpl in HQ, Hc. rewrite Hc in HQ. destruct (less b a aux); [done|].
    exists (length t). split; [lia|]. split; [done|]. exists (d ++ [a]), t.
    by rewrite app_assoc.
Qed.

Lemma wp_find_end_of_run h l p x s (Q : Z -> heap -> Prop) :
  is_list h l (p ++ x :: s) -> Q (hdd (tail_of l) (after_run less aux x s)) h ->
  wp (find_end_of_run less aux x (tail_of l)) h Q.
Proof.
  intros H HQ. unfold find_end_of_run.
  apply wp_bind, wp_assert.
  { pose proof (is_list_ne_null _ _ _ (x :: s) H) as E. simpl in E. by rewrite E. }
  apply wp_bind, wp_assert.
  { rewrite <-(app_nil_r (p ++ x :: s)) in H.
    pose proof (is_list_ne_null _ _ _ [] H) as E. simpl in E. by rewrite E. }
  apply wp_bind, wp_assert.
  { pose proof (hdd_is_tail _ _ _ (x :: s) H) as E. simpl in E. by rewrite E. }
  apply wp_bind, wp_heap_fuel. pose proof (il_length _ H) as Hlen.
  eapply (wp_loop (fun n a h' => h' = h /\ exists d t, is_list h l (d ++ a :: t) /\
    after_run less aux x s = after_run less aux a t /\ n = length t)); [|split; [done|]|].
  2: { by exists p, s. }
  2: { rewrite !length_app in Hlen. simpl in Hlen. lia. }
  intros n a h' (-> & d & t & Ha & Hc & ->). apply wp_bind. eapply wp_next_in; [done|].
  pose proof (il_hdd_snoc _ _ _ _ _ Ha) as Ha'.
  erewrite hdd_is_tail by done. rewrite Hc in HQ. destruct t as [|b t]; simpl.
  - by apply wp_ret.
  - apply wp_bind. eapply (wp_prev_in _ _ _ (b :: t)); [done|]. apply wp_ret.
    rewrite lastd_snoc. simpl in HQ, Hc. rewrite Hc. destruct (less b a aux); [done|].
    exists (length t). split; [lia|]. split; [done|]. by exists (d ++ [a]), t.
Qed.

Lemma merge_cons a A b B :
  list_merge ord (a :: A) (b :: B) =
    if less b a aux then b :: list_merge ord (a :: A) B else a :: list_merge ord A (b :: B).
Proof.
  rewrite list_merge_cons. unfold ord at 1 2. destruct (decide _) as [->|E]; [done|].
  by destruct (less b a aux).
Qed.

Lemma nodes_perm l p A B d A' B' r :
  d ++ A' ++ B' ≡ₚ A ++ B -> nodes l ((p ++ d) ++ A' ++ B' ++ r) ≡ₚ nodes l (p ++ A ++ B ++ r).
Proof. intros HP. unfold nodes. rewrite (app_assoc A B r), <-HP. by rewrite <-!app_assoc. Qed.

(** The loop of [inplace_merge]: [A] and [B] are what is left of the two
    runs. *)
Lemma wp_merge_loop h l p A B r fuel (Q : unit -> heap -> Prop) :
  is_list h l (p ++ A ++ B ++ r) -> (length A + length B < fuel)%nat ->
  (forall h', is_list h' l (p ++ list_merge ord A B ++ r) ->
     same_except (nodes l (p ++ A ++ B ++ r)) h h' -> Q tt h') ->
  wp (loop fuel (fun '(a0, a1b0) =>
    if (a0 =? a1b0) || (a1b0 =? hdd (tail_of l) r) then mret (inr tt)
    else if negb (less a1b0 a0 aux) then
      a0' ← list_next a0; mret (inl (a0', a1b0))
    else
      a1b0' ← list_next a1b0;
      p ← list_prev a1b0';
      list_splice a0 p a1b0';;
      mret (inl (a0, a1b0')))
    (hdd (tail_of l) (A ++ B ++ r), hdd (tail_of l) (B ++ r))) h Q.
Proof.
  intros H Hf HQ.
  eapply (wp_loop (fun n '(a0, a1b0) h' => exists d A' B',
    is_list h' l ((p ++ d) ++ A' ++ B' ++ r) /\
    same_except (nodes l (p ++ A ++ B ++ r)) h h' /\
    list_merge ord A B = d ++ list_merge ord A' B' /\ d ++ A' ++ B' ≡ₚ A ++ B /\
    a0 = hdd (tail_of l) (A' ++ B' ++ r) /\ a1b0 = hdd (tail_of l) (B' ++ r) /\
    n = (length A' + length B')%nat)); [|exists [], A, B; rewrite app_nil_r|exact Hf].
  2: { split_and!; [done|apply same_except_refl|done..]. }
  intros n [a0 a1b0] h' (d & A' & B' & H' & Hs & Hm & HP & -> & -> & ->).
  assert (is_list h' l (((p ++ d) ++ A') ++ B' ++ r)) as HB by (by rewrite <-app_assoc).
  erewrite hdd_is_hdd by exact H'. erewrite (hdd_is_hdd _ _ _ B') by exact HB.
  destruct A' as [|a A']; [|destruct B' as [|b B']]; simpl.
  - apply wp_ret. apply HQ; [|done]. rewrite Hm. rewrite <-!app_assoc in *. simpl.
    by destruct B'.
  - apply wp_ret. apply HQ; [|done]. rewrite Hm. rewrite <-!app_assoc in *. done.
  - rewrite merge_cons in Hm. destruct (less b a aux); simpl.
    + apply wp_bind. eapply wp_next_in; [exact HB|].
      assert (is_list h' l ((((p ++ d) ++ a :: A') ++ [b]) ++ B' ++ r)) as Hb
        by (by apply il_hdd_snoc).
      apply wp_bind. eapply wp_prev_in; [exact Hb|]. rewrite lastd_snoc.
      apply wp_bind. apply (wp_list_splice h' l (p ++ d) a A' b [] (B' ++ r)); [exact H'|].
      intros h'' H'' Hs''. apply wp_ret. exists (length (a :: A') + length B')%nat.
      split; [simpl; lia|]. exists (d ++ [b]), (a :: A'), B'. split_and!; try done.
      * rewrite <-!app_assoc in *. exact H''.
      * eapply same_except_trans; [done|]. eapply same_except_mono; [|done].
        intros u. rewrite (nodes_perm l p A B d (a :: A') (b :: B') r) by done. done.
      * by rewrite <-app_assoc.
      * rewrite <-HP. solve_Permutation.
    + apply wp_bind. eapply wp_next_in; [exact H'|]. apply wp_ret.
      exists (length A' + length (b :: B'))%nat. split; [simpl; lia|].
      exists (d ++ [a]), A', (b :: B'). rewrite (app_assoc p), <-!(app_assoc _ [a]).
      by split_and!.
Qed.

Lemma wp_inplace_merge h l p A B r (Q : unit -> heap -> Prop) :
  is_list h l (p ++ A ++ B ++ r) -> sortedb A = true -> sortedb B = true ->
  (forall h', is_list h' l (p ++ list_merge ord A B ++ r) ->
     same_except (nodes l (p ++ A ++ B ++ r)) h h' -> Q tt h') ->
  wp (inplace_merge less aux (hdd (tail_of l) (A ++ B ++ r)) (hdd (tail_of l) (B ++ r))
        (hdd (tail_of l) r)) h Q.
Proof.
  intros H HA HB HQ. unfold inplace_merge.
  assert (is_list h l ((p ++ A) ++ B ++ r)) as H1 by (by rewrite <-app_assoc).
  assert (is_list h l (((p ++ A) ++ B) ++ r)) as H2 by (by rewrite <-app_assoc).
  erewrite !is_list_ne_null by done.
  do 3 (apply wp_bind, wp_assert; [done|]).
  apply wp_bind. eapply wp_is_sorted; [done|]. apply wp_bind, wp_assert; [done|].
  apply wp_bind. eapply wp_is_sorted; [done|]. apply wp_bind, wp_assert; [done|].
  apply wp_bind, wp_heap_fuel. apply (wp_merge_loop _ _ p); [done| |done].
  pose proof (il_length _ H) as Hlen. rewrite !length_app in Hlen. lia.
Qed.

(** The run that starts at [x] is what [find_end_of_run] cuts off. *)
Lemma first_run x s :
  exists A, x :: s = A ++ after_run less aux x s /\ sortedb A = true /\
    nruns (x :: s) = S (nruns (after_run less aux x s)) /\
    (length (after_run less aux x s) <= length s)%nat.
Proof.
  exists (x :: run less aux x s). split_and!; [|apply run_chain|apply nruns_run|].
  - simpl. by rewrite <-run_split.
  - rewrite (run_split less aux x s) at 2. rewrite length_app. lia.
Qed.

(** What one pass of [list_sort] leaves: a permutation whose number of runs is
    at most the count [c] the pass returns, about half of what it was. *)
Definition pass_post l xs h (c : Z) (h' : heap) : Prop :=
  exists ys, is_list h' l ys /\ ys ≡ₚ xs /\ same_except (nodes l xs) h h' /\
    Z.of_nat (nruns ys) <= c /\ 2 * c <= Z.of_nat (nruns xs) + 1.

Lemma wp_sort_pass h l xs (Q : Z -> heap -> Prop) :
  is_list h l xs -> asymmetric less aux -> Z.of_nat (length xs) < 2 ^ 32 ->
  (forall c h', pass_post l xs h c h' -> Q c h') ->
  wp (sort_pass less aux l) h Q.
Proof.
  intros H Has Hu HQ. apply wp_bind, wp_heap_fuel.
  apply wp_bind. eapply wp_list_begin; [done|].
  pose proof (il_length _ H) as Hlen. pose proof (nruns_length less aux xs) as Hr.
  eapply (wp_loop (fun n '(a0, k) h' => exists p s, is_list h' l (p ++ s) /\
    p ++ s ≡ₚ xs /\ same_except (nodes l xs) h h' /\ a0 = hdd (tail_of l) s /\
    0 <= Z.of_nat (nruns p) <= k /\ 2 * k + Z.of_nat (nruns s) <= Z.of_nat (nruns xs) /\
    n = length s)); [|exists [], xs|by apply Nat.lt_lt_succ_r].
  2: { split_and!; simpl; try done; lia. }
  intros n [a0 k] h' (p & s & Hl & HP & Hs & -> & Hk & Hk2 & ->).
  apply wp_bind. eapply wp_list_end; [done|]. erewrite hdd_is_tail by done.
  destruct s as [|x s]; simpl.
  { apply wp_ret. apply HQ. exists p. rewrite app_nil_r in *. simpl in Hk2. split_and!; try done; lia. }
  destruct (first_run x s) as (A & E1 & HA & HnA & HlA). rewrite HnA in Hk2. rewrite E1 in Hl, HP.
  assert (u32 (k + 1) = k + 1) as -> by (apply Z.mod_small; lia).
  apply wp_bind. eapply wp_find_end_of_run; [by rewrite E1|].
  assert (is_list h' l ((p ++ A) ++ after_run less aux x s)) as Hl1 by (by rewrite <-app_assoc).
  erewrite hdd_is_tail by exact Hl1.
  destruct (after_run less aux x s) as [|y t]; simpl.
  - apply wp_ret. apply HQ. exists (p ++ A). rewrite app_nil_r in *. simpl in Hk2.
    pose proof (nruns_app less aux p A). apply nruns_sorted in HA. split_and!; try done; lia.
  - apply wp_bind. eapply wp_find_end_of_run; [exact Hl1|].
    destruct (first_run y t) as (B & E2 & HB & HnB & HlB). rewrite HnB in Hk2. rewrite E2 in Hl, HP.
    set (r := after_run less aux y t) in *. clearbody r. apply wp_bind.
    pose proof (wp_inplace_merge h' l p A B r) as W. rewrite <-E2, <-E1 in W. simpl in W.
    apply W; [by rewrite E1, E2|done..|].
    intros h'' Hl' Hs'. apply wp_ret. rewrite E1, E2 in Hs'. exists (length r). split; [simpl in *; lia|].
    exists (p ++ list_merge ord A B), r. 
    pose proof (nruns_app less aux p (list_merge ord A B)) as Hn.
    pose proof (merge_sortedb less aux A B Has HA HB) as Hm. apply nruns_sorted in Hm.
    split_and!; try done; try lia.
    + by rewrite <-app_assoc.
    + rewrite <-HP. rewrite merge_Permutation. solve_Permutation.
    + eapply same_except_trans; [done|]. eapply same_except_mono; [|done].
      intros u. unfold nodes. by rewrite HP.
Qed.

Lemma wp_list_sort h l xs (Q : unit -> heap -> Prop) :
  is_list h l xs -> asymmetric less aux -> Z.of_nat (length xs) < 2 ^ 32 ->
  (forall h' ys, is_list h' l ys -> ys ≡ₚ xs -> Sorted ord ys ->
     same_except (nodes l xs) h h' -> Q tt h') ->
  wp (list_sort less aux l) h Q.
Proof.
  intros H Has Hu HQ. unfold list_sort.
  apply wp_bind, wp_assert; [by rewrite (proj2 (Z.eqb_neq _ _)) by (by eapply il_l_nonnull)|].
  apply wp_bind, wp_heap_fuel. apply wp_bind.
  pose proof (il_length _ H) as Hlen. pose proof (nruns_length less aux xs) as Hr.
  eapply (wp_loop (fun n _ h' => exists ys, is_list h' l ys /\ ys ≡ₚ xs /\
    same_except (nodes l xs) h h' /\ n = nruns ys)); [|by exists xs|lia].
  intros n _ h' (ys & Hl & HP & Hs & ->). apply wp_bind.
  eapply wp_sort_pass; [done..|by rewrite HP|].
  intros c h'' (zs & Hl' & HP' & Hs' & Hc1 & Hc2). apply wp_ret.
  assert (same_except (nodes l xs) h h'') as Hss.
  { eapply same_except_trans; [done|]. eapply same_except_mono; [|done].
    intros u. unfold nodes. by rewrite HP. }
  destruct (1 <? c) eqn:Hc; [apply Z.ltb_lt in Hc|apply Z.ltb_ge in Hc].
  - exists (nruns zs). split; [lia|]. exists zs. split_and!; [done|by etrans|done..].
  - apply wp_bind. eapply wp_list_begin; [done|]. apply wp_bind. eapply wp_list_end; [done|].
    assert (sortedb zs = true) as Hz by (apply nruns_sorted; lia).
    apply wp_bind. pose proof (wp_is_sorted h'' l [] zs []) as W. rewrite app_nil_r in W.
    apply W; [done|]. apply wp_assert; [done|]. eapply HQ; [done|by rewrite HP'| |done].
    by apply sortedb_Sorted.
Qed.

(** Where [list_insert_ordered] puts [x]: before the first element it is less
    than. *)
Fixpoint insert_sorted (x : Z) (xs : list Z) : list Z :=
  match xs with
  | [] => [x]
  | y :: ys => if less x y aux then x :: y :: ys else y :: insert_sorted x ys
  end.

Lemma wp_list_insert_ordered h l xs e (Q : unit -> heap -> Prop) :
  is_list h l xs -> e ≠ NULL -> e ∈ dom h -> e ∉ nodes l xs ->
  (forall h', is_list h' l (insert_sorted e xs) ->
     same_except (e :: nodes l xs) h h' -> Q tt h') ->
  wp (list_insert_ordered less aux l e) h Q.
Proof.
  intros H He0 He Hne HQ. unfold list_insert_ordered.
  apply wp_bind, wp_assert; [by rewrite (proj2 (Z.eqb_neq _ _)) by (by eapply il_l_nonnull)|].
  apply wp_bind, wp_assert; [by rewrite (proj2 (Z.eqb_neq _ _))|].
  apply wp_bind, wp_heap_fuel. apply wp_bind. eapply wp_list_begin; [done|]. apply wp_bind.
  pose proof (il_length _ H) as Hlen.
  eapply (wp_loop (fun n a h' => h' = h /\ exists ys zs, xs = ys ++ zs /\
    a = hdd (tail_of l) zs /\ insert_sorted e xs = ys ++ insert_sorted e zs /\
    n = length zs)); [|split; [done|]; by exists [], xs|lia].
  intros n a h' (-> & ys & zs & -> & -> & Hi & ->).
  apply wp_bind. eapply wp_list_end; [done|]. erewrite hdd_is_tail by done.
  assert (insert_sorted e zs = e :: zs ->
    wp (list_insert (hdd (tail_of l) zs) e) h Q) as Hins.
  { intros Hz. eapply wp_list_insert; [done..|]. rewrite <-Hz, <-Hi. exact HQ. }
  destruct zs as [|z zs]; simpl in *; [by apply wp_ret, Hins|].
  destruct (less e z aux); [by apply wp_ret, Hins|].
  apply wp_bind. eapply wp_next_in; [done|]. apply wp_ret.
  exists (length zs). split; [lia|]. split; [done|]. exists (ys ++ [z]), zs.
  by rewrite Hi, <-!app_assoc.
Qed.

Lemma insert_sorted_perm x xs : insert_sorted x xs ≡ₚ x :: xs.
Proof.
  induction xs as [|y ys IH]; simpl; [done|]. destruct (less x y aux); [done|].
  rewrite IH. solve_Permutation.
Qed.

Lemma insert_sorted_Sorted x xs :
  asymmetric less aux -> Sorted ord xs -> Sorted ord (insert_sorted x xs).
Proof.
  intros Has. induction 1 as [|y ys Hs IH Hh]; simpl; [repeat constructor|].
  destruct (less x y aux) eqn:E.
  - constructor; [by constructor|]. constructor. by apply Has.
  - constructor; [done|]. destruct Hh as [|z zs Hz]; simpl; [by constructor|].
    by destruct (less x z aux); constructor.
Qed.

(** The scans of [list_max] and [list_min]. *)
Definition max_from (m : Z) (xs : list Z) : Z :=
  foldl (fun m e => if less m e aux then e else m) m xs.
Definition min_from (m : Z) (xs : list Z) : Z :=
  foldl (fun m e => if less e m aux then e else m) m xs.

(** A loop that folds [upd] over the elements from [e] to the end. *)
Lemma wp_scan_best h l p s (upd : Z -> Z -> Z) m fuel (Q : Z -> heap -> Prop) :
  is_list h l (p ++ s) -> (length s < fuel)%nat -> Q (foldl upd m s) h ->
  wp (loop fuel (fun '(e, m) =>
      stop ← list_end l;
      if e =? stop then mret (inr m)
      else e' ← list_next e; mret (inl (e', upd m e)))
    (hdd (tail_of l) s, m)) h Q.
Proof.
  intros H Hf HQ.
  eapply (wp_loop (fun n '(e, m') h' => h' = h /\ exists ys zs, is_list h l (ys ++ zs) /\
    e = hdd (tail_of l) zs /\ foldl upd m s = foldl upd m' zs /\ n = length zs));
    [|split; [done|]; by exists p, s|done].
  intros n [e m'] h' (-> & ys & zs & Hl & -> & Hi & ->).
  apply wp_bind. eapply wp_list_end; [done|]. erewrite hdd_is_tail by done.
  destruct zs as [|z zs]; simpl in *; [apply wp_ret; by rewrite <-Hi|].
  apply wp_bind. eapply wp_next_in; [done|]. apply wp_ret.
  exists (length zs). split; [lia|]. split; [done|]. exists (ys ++ [z]), zs.
  split_and!; [by apply il_hdd_snoc|done..].
Qed.

Lemma wp_list_max h l x xs (Q : Z -> heap -> Prop) :
  is_list h l (x :: xs) -> Q (max_from x xs) h -> wp (list_max less aux l) h Q.
Proof.
  intros H HQ. unfold list_max. apply wp_bind. eapply wp_list_begin; [done|].
  apply wp_bind. eapply wp_list_end; [done|]. simpl.
  pose proof (hdd_is_tail _ _ [] (x :: xs) H) as E. simpl in E. rewrite E.
  apply wp_bind, wp_heap_fuel. apply wp_bind. eapply (wp_next_in _ _ []); [done|].
  pose proof (il_length _ H) as Hlen. simpl in Hlen.
  apply (wp_scan_best h l [x] xs (fun m e => if less m e aux then e else m)); [done|lia|done].
Qed.

Lemma wp_list_min h l x xs (Q : Z -> heap -> Prop) :
  is_list h l (x :: xs) -> Q (min_from x xs) h -> wp (list_min less aux l) h Q.
Proof.
  intros H HQ. unfold list_min. apply wp_bind. eapply wp_list_begin; [done|].
  apply wp_bind. eapply wp_list_end; [done|]. simpl.
  pose proof (hdd_is_tail _ _ [] (x :: xs) H) as E. simpl in E. rewrite E.
  apply wp_bind, wp_heap_fuel. apply wp_bind. eapply (wp_next_in _ _ []); [done|].
  pose proof (il_length _ H) as Hlen. simpl in Hlen.
  apply (wp_scan_best h l [x] xs (fun m e => if less e m aux then e else m)); [done|lia|done].
Qed.

(** The elements of [x :: xs] that [list_unique] keeps after [x] and those it
    moves to [duplicates]. *)
Definition same (a b : Z) : bool := negb (less a b aux) && negb (less b a aux).

Fixpoint kept (x : Z) (xs : list Z) : list Z :=
  match xs with
  | [] => []
  | y :: ys => if same x y then kept x ys else y :: kept y ys
  end.
Fixpoint dropped (x : Z) (xs : list Z) : list Z :=
  match xs with
  | [] => []
  | y :: ys => if same x y then y :: dropped x ys else dropped y ys
  end.

(** The [duplicates] argument: a null pointer, or a list apart from [l]. *)
Definition dup_list h (d l : Z) ds xs : Prop :=
  d ≠ NULL -> is_list h d ds /\ (forall u, u ∈ nodes d ds -> u ∉ nodes l xs).

(** Moving [y] from [l] to the end of [duplicates]. *)
Lemma wp_move_dup {B} h l d p y s ds (k : M heap B) (Q : B -> heap -> Prop) :
  is_list h l (p ++ y :: s) -> dup_list h d l ds (p ++ y :: s) ->
  (forall h', is_list h' l (p ++ s) -> dup_list h' d l (ds ++ [y]) (p ++ s) ->
              dom h' = dom h -> wp k h' Q) ->
  wp (list_remove y;; (if d =? NULL then mret tt else list_push_back d y);; k) h Q.
Proof.
  intros H Hd HQ. apply wp_bind. eapply wp_list_remove; [done|].
  intros h1 H1 Hy Hs1. apply wp_bind. destruct (Z.eqb_spec d NULL) as [->|Hd0].
  { apply wp_ret, HQ; [done| |apply Hs1]. intros []. done. }
  destruct (Hd Hd0) as [Hdl Hdis].
  assert (nodes l (p ++ y :: s) ≡ₚ y :: nodes l (p ++ s)) as HP
    by (unfold nodes; solve_Permutation).
  assert (forall u, u ∈ nodes d ds -> u ≠ y /\ u ∉ nodes l (p ++ s)) as Hdis'.
  { intros u Hu. apply Hdis in Hu. rewrite HP in Hu. by apply not_elem_of_cons in Hu. }
  assert (is_list h1 d ds) as Hdl1.
  { eapply is_list_frame; [exact Hs1| |done]. intros u Hu. by apply Hdis'. }
  assert (y ∈ nodes l (p ++ y :: s)) as Hyin by (rewrite HP; left).
  eapply wp_list_push_back; [done|eapply il_nonnull; [exact H|done]| |intros Hu; by apply Hdis' in Hu as []|].
  { rewrite (proj1 Hs1). eapply il_dom; [exact H|done]. }
  intros h2 H2 Hs2. apply HQ; [|intros _; split; [done|]|].
  - eapply is_list_frame; [exact Hs2| |done]. intros u Hu [->|Hu2]%elem_of_cons; [done|].
    by apply Hdis' in Hu2 as [].
  - assert (nodes d (ds ++ [y]) ≡ₚ y :: nodes d ds) as HP2 by (unfold nodes; solve_Permutation).
    intros u. rewrite HP2. intros [->|Hu]%elem_of_cons; [done|]. by apply Hdis'.
  - rewrite (proj1 Hs2). apply Hs1.
Qed.

Lemma wp_list_unique h l d x xs ds (Q : unit -> heap -> Prop) :
  is_list h l (x :: xs) -> dup_list h d l ds (x :: xs) ->
  (forall h', is_list h' l (x :: kept x xs) ->
              dup_list h' d l (ds ++ dropped x xs) (x :: kept x xs) -> Q tt h') ->
  wp (list_unique less aux l d) h Q.
Proof.
  intros H Hd HQ. unfold list_unique.
  apply wp_bind, wp_assert; [by rewrite (proj2 (Z.eqb_neq _ _)) by (by eapply il_l_nonnull)|].
  apply wp_bind. eapply wp_list_empty; [done|]. simpl.
  apply wp_bind, wp_heap_fuel. apply wp_bind. eapply wp_list_begin; [done|].
  pose proof (il_length _ H) as Hlen. simpl in Hlen.
  eapply (wp_loop (fun n a h' => exists ys zs es, is_list h' l (ys ++ a :: zs) /\
    dup_list h' d l es (ys ++ a :: zs) /\ x :: kept x xs = ys ++ a :: kept a zs /\
    ds ++ dropped x xs = es ++ dropped a zs /\ n = length zs));
    [|by exists [], xs, ds|lia].
  intros n a h' (ys & zs & es & Hl & Hdl & Hk & Hdr & ->).
  apply wp_bind. eapply wp_next_in; [done|]. apply wp_bind. eapply wp_list_end; [done|].
  erewrite hdd_is_tail by (by apply il_hdd_snoc).
  destruct zs as [|z zs]; simpl in *.
  { apply wp_ret. rewrite Hk, Hdr, app_nil_r in HQ. by apply HQ. }
  fold (same a z). destruct (same a z).
  - apply (wp_move_dup _ l _ (ys ++ [a]) z zs es); [by rewrite <-app_assoc..|].
    intros h2 Hl2 Hd2 _. apply wp_ret. exists (length zs). split; [lia|].
    exists ys, zs, (es ++ [z]). rewrite <-!app_assoc in *. by split_and!.
  - apply wp_ret. exists (length zs). split; [lia|]. exists (ys ++ [a]), zs, es.
    by rewrite <-!app_assoc.
Qed.
End Sort.

(** * What the ordered operations promise *)

Section Promises.
Context (less : Z -> Z -> Z -> bool) (aux : Z).

(** "Not less" is transitive; with [asymmetric], a strict weak order. *)
Definition neg_transitive : Prop :=
  forall a b c, less a b aux = false -> less b c aux = false -> less a c aux = false.

Lemma less_split a b c :
  neg_transitive -> less a b aux = true -> less a c aux = true \/ less c b aux = true.
Proof.
  intros Hn Hab. destruct (less a c aux) eqn:E1; [by left|].
  destruct (less c b aux) eqn:E2; [by right|]. by rewrite (Hn a c b) in Hab.
Qed.

Lemma sorted_strongly xs :
  neg_transitive -> Sorted (ord less aux) xs -> StronglySorted (ord less aux) xs.
Proof.
  intros Hn. apply Sorted_StronglySorted. intros a b c. unfold ord. intros. by apply (Hn c b a).
Qed.

(** [m] is the first of the greatest elements of [xs]. *)
Definition first_max (m : Z) (xs : list Z) : Prop :=
  exists ys zs, xs = ys ++ m :: zs /\ (forall y, y ∈ ys -> less y m aux = true) /\
                (forall z, z ∈ zs -> less m z aux = false).

Definition first_min (m : Z) (xs : list Z) : Prop :=
  exists ys zs, xs = ys ++ m :: zs /\ (forall y, y ∈ ys -> less m y aux = true) /\
                (forall z, z ∈ zs -> less z m aux = false).

Lemma max_from_first m xs done :
  asymmetric less aux -> neg_transitive ->
  first_max m done -> first_max (max_from less aux m xs) (done ++ xs).
Proof.
  intros Ha Hn. revert m done. induction xs as [|e xs IH]; intros m d (ys & zs & -> & Hy & Hz).
  { rewrite app_nil_r. by exists ys, zs. }
  rewrite cons_middle, app_assoc. apply IH. destruct (less m e aux) eqn:E.
  - exists (ys ++ m :: zs), []. split_and!; [done| |by intros ? ?%not_elem_of_nil].
    intros u [Hu|[->|Hu]%elem_of_cons]%elem_of_app; [|done|].
    + destruct (less_split u m e Hn (Hy u Hu)) as [|C]; [done|]. by rewrite (Ha _ _ C) in E.
    + destruct (less_split m e u Hn E) as [C|]; [|done]. by rewrite (Hz u Hu) in C.
  - exists ys, (zs ++ [e]). rewrite <-app_assoc. split_and!; [done..|].
    by intros u [Hu| ->%list_elem_of_singleton]%elem_of_app; [apply Hz|].
Qed.

Lemma min_from_first m xs done :
  asymmetric less aux -> neg_transitive ->
  first_min m done -> first_min (min_from less aux m xs) (done ++ xs).
Proof.
  intros Ha Hn. revert m done. induction xs as [|e xs IH]; intros m d (ys & zs & -> & Hy & Hz).
  { rewrite app_nil_r. by exists ys, zs. }
  rewrite cons_middle, app_assoc. apply IH. destruct (less e m aux) eqn:E.
  - exists (ys ++ m :: zs), []. split_and!; [done| |by intros ? ?%not_elem_of_nil].
    intros u [Hu|[->|Hu]%elem_of_cons]%elem_of_app; [|done|].
    + destruct (less_split m u e Hn (Hy u Hu)) as [C|]; [|done]. by rewrite (Ha _ _ C) in E.
    + destruct (less_split e m u Hn E) as [|C]; [done|]. by rewrite (Hz u Hu) in C.
  - exists ys, (zs ++ [e]). rewrite <-app_assoc. split_and!; [done..|].
    by intros u [Hu| ->%list_elem_of_singleton]%elem_of_app; [apply Hz|].
Qed.

(** In a sorted list, no two elements that [list_unique] keeps are equal:
    each is less than the next. *)
Lemma kept_strict x xs :
  Sorted (ord less aux) (x :: xs) -> neg_transitive ->
  Sorted (fun a b => less a b aux = true) (x :: kept less aux x xs).
Proof.
  intros Hs Hn. apply (sorted_strongly _ Hn) in Hs. revert x Hs.
  induction xs as [|y xs IH]; intros x Hs; simpl; [repeat constructor|].
  apply StronglySorted_inv in Hs as [Hs Hx]. apply Forall_cons in Hx as [Hxy Hx].
  unfold same. rewrite Hxy. destruct (less x y aux) eqn:E; simpl.
  - constructor; [by apply IH|]. by constructor.
  - apply IH. apply StronglySorted_inv in Hs as [Hs _]. by constructor.
Qed.

Lemma kept_dropped x xs : kept less aux x xs ++ dropped less aux x xs ≡ₚ xs.
Proof.
  revert x. induction xs as [|y xs IH]; intros x; simpl; [done|].
  destruct (same less aux x y); simpl.
  - rewrite <-Permutation_middle. by rewrite IH.
  - by rewrite IH.
Qed.
End Promises.

(** ** Theorems *)


(** [list_insert_ordered] puts its element into a sorted list so that the
    list stays sorted, and after the elements equal to it. *)
Theorem list_insert_ordered_correct less aux h l xs e :
  is_list h l xs -> e ≠ NULL -> e ∈ dom h -> e ∉ nodes l xs ->
  asymmetric less aux -> Sorted (ord less aux) xs ->
  wp (list_insert_ordered less aux l e) h (fun _ h' => exists ys zs,
    xs = ys ++ zs /\ is_list h' l (ys ++ e :: zs) /\ Sorted (ord less aux) (ys ++ e :: zs) /\
    Forall (fun y => less e y aux = false) ys /\
    match zs with [] => True | z :: _ => less e z aux = true end).
Proof.
  intros H He0 He Hne Ha Hs. eapply wp_list_insert_ordered; [done..|]. intros h' Hl _.
  pose proof (insert_sorted_Sorted less aux e xs Ha Hs) as Hs'. revert Hl Hs'.
  assert (exists ys zs, xs = ys ++ zs /\ insert_sorted less aux e xs = ys ++ e :: zs /\
    Forall (fun y => less e y aux = false) ys /\
    match zs with [] => True | z :: _ => less e z aux = true end) as (ys & zs & E & -> & F).
  { clear. induction xs as [|y xs (ys & zs & -> & E & F & G)]; [by exists [], []|]. simpl.
    destruct (less e y aux) eqn:Ey; [by exists [], (y :: ys ++ zs)|].
    exists (y :: ys), zs. rewrite E. auto. }
  intros. exists ys, zs. by split_and!; [..|apply F|apply F].
Qed.

(** [list_unique] on a sorted list leaves a strictly increasing list, moves
    the other elements to [duplicates] in their order, and loses none. *)
Theorem list_unique_correct less aux h l d x xs ds :
  is_list h l (x :: xs) -> is_list h d ds -> d ≠ NULL ->
  (forall u, u ∈ nodes d ds -> u ∉ nodes l (x :: xs)) ->
  neg_transitive less aux -> Sorted (ord less aux) (x :: xs) ->
  wp (list_unique less aux l d) h (fun _ h' => exists ks es,
    is_list h' l (x :: ks) /\ is_list h' d (ds ++ es) /\ ks ++ es ≡ₚ xs /\
    Sorted (fun a b => less a b aux = true) (x :: ks)).
Proof.
  intros H Hd Hd0 Hdis Hn Hs. eapply wp_list_unique; [done|by intros _|].
  intros h' Hl Hd'. exists (kept less aux x xs), (dropped less aux x xs).
  split_and!; [done|by apply Hd'|apply kept_dropped|by apply kept_strict].
Qed.

(** [list_max] and [list_min] return the first of the greatest and of the
    least elements of a nonempty list, and leave the list alone. *)
Theorem list_max_min_correct less aux h l x xs :
  is_list h l (x :: xs) -> asymmetric less aux -> neg_transitive less aux ->
  wp (list_max less aux l) h (fun m h' => h' = h /\ first_max less aux m (x :: xs)) /\
  wp (list_min less aux l) h (fun m h' => h' = h /\ first_min less aux m (x :: xs)).
Proof.
  intros H Ha Hn.
  assert (forall z, z ∈ @nil Z -> False) as N by (by intros z ?%not_elem_of_nil).
  split; [eapply wp_list_max|eapply wp_list_min]; try done; split; try done.
  - apply (max_from_first less aux x xs [x]); [done..|]. exists [], []. naive_solver.
  - apply (min_from_first less aux x xs [x]); [done..|]. exists [], []. naive_solver.
Qed.

(** A concrete list: head 100, tail 108, elements 3, 1 and 2 in this order; the
    list at 200 is empty and 4 is on no list. *)
Definition demo_heap : heap :=
  list_to_map [(100, mk_elem 0 3); (3, mk_elem 100 1); (1, mk_elem 3 2);
               (2, mk_elem 1 108); (108, mk_elem 2 0); (4, mk_elem 0 0);
               (200, mk_elem 0 208); (208, mk_elem 200 0)].
Definition demo_less (a b _ : Z) : bool := a <? b.
(** [demo_heap] with the elements in order. *)
Definition demo_heap' : heap :=
  list_to_map [(100, mk_elem 0 1); (1, mk_elem 100 2); (2, mk_elem 1 3);
               (3, mk_elem 2 108); (108, mk_elem 3 0); (4, mk_elem 0 0);
               (200, mk_elem 0 208); (208, mk_elem 200 0)].

Lemma demo_less_asymmetric : asymmetric demo_less 0.
Proof. intros a b. unfold demo_less. rewrite Z.ltb_lt, Z.ltb_ge. lia. Qed.
Lemma demo_less_neg_transitive : neg_transitive demo_less 0.
Proof. intros a b c. unfold demo_less. rewrite !Z.ltb_ge. lia. Qed.

Ltac demo_list :=
  split; [apply (bool_decide_unpack _); vm_compute; exact I
         |apply (bool_decide_unpack _); vm_compute; exact I
         |vm_compute; reflexivity|vm_compute; reflexivity|vm_compute; tauto].

Lemma demo_is_list : is_list demo_heap 100 [3; 1; 2].
Proof. demo_list. Qed.
Lemma demo_is_list' : is_list demo_heap' 100 [1; 2; 3].
Proof. demo_list. Qed.
Lemma demo_is_empty : is_list demo_heap' 200 [].
Proof. demo_list. Qed.


Lemma list_insert_ordered_correct_witness :
  wp (list_insert_ordered demo_less 0 100 4) demo_heap' (fun _ h' => exists ys zs,
    [1; 2; 3] = ys ++ zs /\ is_list h' 100 (ys ++ 4 :: zs) /\
    Sorted (ord demo_less 0) (ys ++ 4 :: zs) /\
    Forall (fun y => demo_less 4 y 0 = false) ys /\
    match zs with [] => True | z :: _ => demo_less 4 z 0 = true end).
Proof.
  apply (list_insert_ordered_correct demo_less 0 demo_heap' 100 [1; 2; 3] 4).
  - exact demo_is_list'.
  - discriminate.
  - apply (bool_decide_unpack _). vm_compute. exact I.
  - apply (bool_decide_unpack _). vm_compute. exact I.
  - exact demo_less_asymmetric.
  - repeat constructor.
Defined.

Lemma list_unique_correct_witness :
  wp (list_unique demo_less 0 100 200) demo_heap' (fun _ h' => exists ks es,
    is_list h' 100 (1 :: ks) /\ is_list h' 200 ([] ++ es) /\ ks ++ es ≡ₚ [2; 3] /\
    Sorted (fun a b => demo_less a b 0 = true) (1 :: ks)).
Proof.
  apply (list_unique_correct demo_less 0 demo_heap' 100 200 1 [2; 3] []).
  - exact demo_is_list'.
  - exact demo_is_empty.
  - discriminate.
  - apply Forall_forall, (bool_decide_unpack _). vm_compute. exact I.
  - exact demo_less_neg_transitive.
  - repeat constructor.
Defined.

Lemma list_max_min_correct_witness :
  wp (list_max demo_less 0 100) demo_heap
    (fun m h' => h' = demo_heap /\ first_max demo_less 0 m [3; 1; 2]) /\
  wp (list_min demo_less 0 100) demo_heap
    (fun m h' => h' = demo_heap /\ first_min demo_less 0 m [3; 1; 2]).
Proof.
  apply (list_max_min_correct demo_less 0 demo_heap 100 3 [1; 2]).
  - exact demo_is_list.
  - exact demo_less_asymmetric.
  - exact demo_less_neg_transitive.
Defined.
