(* ===== verification/Strings.v ===== *)
(** src/lib/string.c: the memory and string routines, over a byte memory.

    A pointer is an address ([Z]), [NULL] is 0; reading or writing an address
    outside the memory is a [Fault].  Loops that run to a null terminator get
    one more unit of fuel than there are bytes in memory, which the theorems
    show is enough. *)
From stdpp Require Import base list numbers gmap fin_maps.
From Stdlib Require Import ZArith Lia.
From S2P Require Import Prelude.

Open Scope Z_scope.

Abbreviation mem := (gmap Z Z).

Definition load8 (a : Z) : M mem Z :=
  fun m => match m !! a with Some b => Ok (b, m) | None => Err Fault end.
Definition store8 (a v : Z) : M mem unit :=
  fun m => match m !! a with Some _ => Ok (tt, <[a := u8 v]> m) | None => Err Fault end.
Definition mem_fuel : M mem nat := m ← mget; mret (S (size m)).

Definition nonnull (p : Z) : bool := negb (p =? NULL).

(** * Blocks *)

(** [while (size-- > 0) *dst++ = *src++;] *)
Fixpoint copy_up (size : nat) (dst src : Z) : M mem unit :=
  match size with
  | O => mret tt
  | S size => b ← load8 src; store8 dst b;; copy_up size (dst + 1) (src + 1)
  end.

(** [while (size-- > 0) *--dst = *--src;] *)
Fixpoint copy_down (size : nat) (dst src : Z) : M mem unit :=
  match size with
  | O => mret tt
  | S size => b ← load8 (src - 1); store8 (dst - 1) b;; copy_down size (dst - 1) (src - 1)
  end.

Definition memcpy (dst_ src_ : Z) (size : nat) : M mem Z :=
  ASSERT (nonnull dst_ || (size =? 0)%nat);;
  ASSERT (nonnull src_ || (size =? 0)%nat);;
  copy_up size dst_ src_;;
  mret dst_.

(** The last statement of the source is [return dst], not [return dst_]: after
    the forward loop [dst] has moved past the block. *)
Definition memmove (dst_ src_ : Z) (size : nat) : M mem Z :=
  ASSERT (nonnull dst_ || (size =? 0)%nat);;
  ASSERT (nonnull src_ || (size =? 0)%nat);;
  if dst_ <? src_ then
    copy_up size dst_ src_;;
    mret (dst_ + Z.of_nat size)
  else
    copy_down size (dst_ + Z.of_nat size) (src_ + Z.of_nat size);;
    mret dst_.

Fixpoint compare_up (size : nat) (a b : Z) : M mem Z :=
  match size with
  | O => mret 0
  | S size =>
    x ← load8 a; y ← load8 b;
    if negb (x =? y) then mret (if y <? x then 1 else -1)
    else compare_up size (a + 1) (b + 1)
  end.

Definition memcmp (a_ b_ : Z) (size : nat) : M mem Z :=
  ASSERT (nonnull a_ || (size =? 0)%nat);;
  ASSERT (nonnull b_ || (size =? 0)%nat);;
  compare_up size a_ b_.

Fixpoint scan_up (ch : Z) (size : nat) (block : Z) : M mem Z :=
  match size with
  | O => mret NULL
  | S size =>
    x ← load8 block; if x =? ch then mret block else scan_up ch size (block + 1)
  end.

Definition memchr (block_ ch_ : Z) (size : nat) : M mem Z :=
  ASSERT (nonnull block_ || (size =? 0)%nat);;
  scan_up (u8 ch_) size block_.

Fixpoint fill_up (value : Z) (size : nat) (dst : Z) : M mem unit :=
  match size with
  | O => mret tt
  | S size => store8 dst value;; fill_up value size (dst + 1)
  end.

Definition memset (dst_ value : Z) (size : nat) : M mem Z :=
  ASSERT (nonnull dst_ || (size =? 0)%nat);;
  fill_up value size dst_;;
  mret dst_.

(** * Strings *)

Definition strlen (string : Z) : M mem Z :=
  ASSERT (nonnull string);;
  fuel ← mem_fuel;
  loop fuel (fun p =>
    c ← load8 p;
    mret (if negb (c =? 0) then inl (p + 1) else inr (p - string))) string.

Definition strnlen (string maxlen : Z) : M mem Z :=
  fuel ← mem_fuel;
  loop fuel (fun length =>
    c ← load8 (string + length);
    mret (if negb (c =? 0) && (length <? maxlen) then inl (length + 1) else inr length)) 0.

Definition strcmp (a_ b_ : Z) : M mem Z :=
  ASSERT (nonnull a_);;
  ASSERT (nonnull b_);;
  fuel ← mem_fuel;
  '(a, b) ← loop fuel (fun '(a, b) =>
    x ← load8 a;
    if x =? 0 then mret (inr (a, b))
    else y ← load8 b;
         mret (if x =? y then inl (a + 1, b + 1) else inr (a, b))) (a_, b_);
  x ← load8 a; y ← load8 b;
  mret (if x <? y then -1 else if y <? x then 1 else 0).

Definition strchr (string c_ : Z) : M mem Z :=
  let c := u8 c_ in
  ASSERT (nonnull string);;
  fuel ← mem_fuel;
  loop fuel (fun string =>
    x ← load8 string;
    mret (if x =? c then inr string else if x =? 0 then inr NULL else inl (string + 1))) string.

Definition strcspn (string stop : Z) : M mem Z :=
  fuel ← mem_fuel;
  loop fuel (fun length =>
    x ← load8 (string + length);
    if x =? 0 then mret (inr length)
    else p ← strchr stop x;
         mret (if nonnull p then inr length else inl (length + 1))) 0.

Definition strspn (string skip : Z) : M mem Z :=
  fuel ← mem_fuel;
  loop fuel (fun length =>
    x ← load8 (string + length);
    if x =? 0 then mret (inr length)
    else p ← strchr skip x;
         mret (if p =? NULL then inr length else inl (length + 1))) 0.

Definition strpbrk (string stop : Z) : M mem Z :=
  fuel ← mem_fuel;
  loop fuel (fun string =>
    x ← load8 string;
    if x =? 0 then mret (inr NULL)
    else p ← strchr stop x;
         mret (if nonnull p then inr string else inl (string + 1))) string.

Definition strrchr (string c_ : Z) : M mem Z :=
  let c := u8 c_ in
  fuel ← mem_fuel;
  loop fuel (fun '(string, p) =>
    x ← load8 string;
    mret (if x =? 0 then inr p
          else inl (string + 1, if x =? c then string else p))) (string, NULL).

Definition strstr (haystack needle : Z) : M mem Z :=
  haystack_len ← strlen haystack;
  needle_len ← strlen needle;
  if needle_len <=? haystack_len then
    loop (S (S (Z.to_nat (haystack_len - needle_len)))) (fun i =>
      if i <=? haystack_len - needle_len then
        r ← memcmp (haystack + i) needle (Z.to_nat needle_len);
        mret (if r =? 0 then inr (haystack + i) else inl (i + 1))
      else mret (inr NULL)) 0
  else mret NULL.

(** [*save_ptr] is a variable of the caller: [save] is its value before the
    call, the second result its value after. *)
Definition strtok_r (s delimiters save : Z) : M mem (Z * Z) :=
  ASSERT (nonnull delimiters);;
  let s := if s =? NULL then save else s in
  ASSERT (nonnull s);;
  fuel ← mem_fuel;
  start ← loop fuel (fun s =>
    x ← load8 s;
    p ← strchr delimiters x;
    if nonnull p then
      mret (if x =? 0 then inr (inl s) else inl (s + 1))
    else mret (inr (inr s))) s;
  match start with
  | inl s => mret (NULL, s)
  | inr token =>
    s ← loop fuel (fun s =>
      x ← load8 s;
      p ← strchr delimiters x;
      mret (if p =? NULL then inl (s + 1) else inr s)) token;
    x ← load8 s;
    if negb (x =? 0) then
      store8 s 0;;
      mret (token, s + 1)
    else mret (token, s)
  end.

Definition strlcpy (dst src size : Z) : M mem Z :=
  ASSERT (nonnull dst);;
  ASSERT (nonnull src);;
  src_len ← strlen src;
  (if 0 <? size then
     let dst_len := size - 1 in
     let dst_len := if src_len <? dst_len then src_len else dst_len in
     memcpy dst src (Z.to_nat dst_len);;
     store8 (dst + dst_len) 0
   else mret tt);;
  mret src_len.

Definition strlcat (dst src size : Z) : M mem Z :=
  ASSERT (nonnull dst);;
  ASSERT (nonnull src);;
  src_len ← strlen src;
  dst_len ← strlen dst;
  (if (0 <? size) && (dst_len <? size) then
     let copy_cnt := size - dst_len - 1 in
     let copy_cnt := if src_len <? copy_cnt then src_len else copy_cnt in
     memcpy (dst + dst_len) src (Z.to_nat copy_cnt);;
     store8 (dst + dst_len + copy_cnt) 0
   else mret tt);;
  mret (src_len + dst_len).

(** * Representation *)

(** The bytes [bs] are at address [a]. *)
Fixpoint bytes_at (m : mem) (a : Z) (bs : list Z) : Prop :=
  match bs with
  | [] => True
  | b :: bs => m !! a = Some b /\ bytes_at m (a + 1) bs
  end.

(** The memory after [bs] have been written at [a]. *)
Fixpoint put (m : mem) (a : Z) (bs : list Z) : mem :=
  match bs with
  | [] => m
  | b :: bs => put (<[a := b]> m) (a + 1) bs
  end.

(** [a .. a + n - 1] is mapped. *)
Definition mapped (m : mem) (a : Z) (n : nat) : Prop :=
  forall i, a <= i < a + Z.of_nat n -> is_Some (m !! i).

Definition byte (b : Z) : Prop := 0 <= b < 256.

(** The string [s] at [a], with its terminator. *)
Definition cstr (m : mem) (a : Z) (s : list Z) : Prop :=
  0 < a /\ bytes_at m a (s ++ [0]) /\ Forall (fun c => byte c /\ c ≠ 0) s.

Section Blocks.
Implicit Types (m : mem) (a : Z) (bs s : list Z).

Lemma u8_byte b : byte b -> u8 b = b.
Proof. unfold byte, u8. intros. apply Z.mod_small. lia. Qed.

Lemma byte_u8 b : byte (u8 b).
Proof. unfold byte, u8. apply Z.mod_pos_bound. lia. Qed.

Lemma bytes_at_app m a bs cs :
  bytes_at m a (bs ++ cs) <-> bytes_at m a bs /\ bytes_at m (a + Z.of_nat (length bs)) cs.
Proof.
  revert a. induction bs as [|b bs IH]; intros a; simpl.
  - rewrite Z.add_0_r. tauto.
  - rewrite IH. replace (a + 1 + Z.of_nat (length bs)) with (a + Z.of_nat (S (length bs))) by lia.
    tauto.
Qed.

Lemma bytes_at_lookup m a bs :
  bytes_at m a bs <-> forall i b, bs !! i = Some b -> m !! (a + Z.of_nat i) = Some b.
Proof.
  revert a. induction bs as [|c bs IH]; intros a; simpl; [split; [by intros _ [|i] b|done]|].
  rewrite IH. split.
  - intros [H0 H] [|i] b Hb; simpl in Hb.
    + simplify_eq. by rewrite Z.add_0_r.
    + replace (a + Z.of_nat (S i)) with (a + 1 + Z.of_nat i) by lia. by apply H.
  - intros H. split; [by rewrite <-(H 0%nat c) by done; rewrite Z.add_0_r|].
    intros i b Hb. rewrite <-(H (S i) b) by done. f_equal. lia.
Qed.

Lemma bytes_at_eq m m' a bs :
  bytes_at m a bs ->
  (forall i, a <= i < a + Z.of_nat (length bs) -> m' !! i = m !! i) -> bytes_at m' a bs.
Proof.
  rewrite !bytes_at_lookup. intros H Heq i b Hb. rewrite Heq; [by apply H|].
  apply lookup_lt_Some in Hb. lia.
Qed.

Lemma bytes_at_inj m a bs cs :
  bytes_at m a bs -> bytes_at m a cs -> length bs = length cs -> bs = cs.
Proof.
  revert a cs. induction bs as [|b bs IH]; intros a [|c cs] Hb Hc Hl; simpl in *; try done.
  destruct Hb as [H1 Hb], Hc as [H2 Hc]. f_equal; [congruence|]. eapply IH; eauto.
Qed.

Lemma lookup_put m a bs i :
  put m a bs !! i =
    if decide (a <= i < a + Z.of_nat (length bs)) then bs !! Z.to_nat (i - a) else m !! i.
Proof.
  revert m a. induction bs as [|b bs IH]; intros m a; simpl; [by rewrite decide_False by lia|].
  rewrite IH. destruct (decide (i = a)) as [->|Hi].
  - rewrite decide_False by lia. rewrite lookup_insert_eq, decide_True by lia.
    by rewrite Z.sub_diag.
  - rewrite lookup_insert_ne by done.
    destruct (decide (a + 1 <= i < a + 1 + Z.of_nat (length bs))).
    + rewrite decide_True by lia. replace (Z.to_nat (i - a)) with (S (Z.to_nat (i - (a + 1)))) by lia.
      done.
    + by rewrite decide_False by lia.
Qed.

Lemma put_bytes m a bs : bytes_at (put m a bs) a bs.
Proof.
  apply bytes_at_lookup. intros i b Hb. rewrite lookup_put.
  pose proof (lookup_lt_Some _ _ _ Hb). rewrite decide_True by lia.
  by replace (Z.to_nat (a + Z.of_nat i - a)) with i by lia.
Qed.

Lemma put_frame m a bs b cs :
  bytes_at m b cs -> b + Z.of_nat (length cs) <= a \/ a + Z.of_nat (length bs) <= b ->
  bytes_at (put m a bs) b cs.
Proof.
  intros H Hd. eapply bytes_at_eq; [exact H|]. intros i Hi. rewrite lookup_put.
  by rewrite decide_False by lia.
Qed.

Lemma put_app m a bs cs : put m a (bs ++ cs) = put (put m a bs) (a + Z.of_nat (length bs)) cs.
Proof.
  revert m a. induction bs as [|b bs IH]; intros m a; simpl; [by rewrite Z.add_0_r|].
  rewrite IH. f_equal. lia.
Qed.

Lemma put_insert_comm m a bs i v :
  (i < a \/ a + Z.of_nat (length bs) <= i) -> put (<[i := v]> m) a bs = <[i := v]> (put m a bs).
Proof.
  intros Hi. apply map_eq. intros j. rewrite lookup_put. destruct (decide (j = i)) as [->|Hj].
  - rewrite decide_False by lia. by rewrite !lookup_insert_eq.
  - rewrite !lookup_insert_ne by done. by rewrite lookup_put.
Qed.

Lemma dom_put m a bs : mapped m a (length bs) -> dom (put m a bs) = dom m.
Proof.
  revert m a. induction bs as [|b bs IH]; intros m a Hm; simpl; [done|]. rewrite IH.
  - apply dom_insert_lookup_L, Hm. simpl. lia.
  - intros i Hi. rewrite lookup_insert_is_Some'. right. apply Hm. simpl. lia.
Qed.

Lemma mapped_dom m m' a n : dom m' = dom m -> mapped m a n -> mapped m' a n.
Proof.
  intros Hd Hm i Hi. apply elem_of_dom. rewrite Hd. apply elem_of_dom, Hm, Hi.
Qed.

Lemma mapped_le m a n n' : mapped m a n -> (n' <= n)%nat -> mapped m a n'.
Proof. intros H Hn i Hi. apply H. lia. Qed.

Lemma mapped_put m a n b bs : mapped m a n -> mapped (put m b bs) a n.
Proof.
  intros H i Hi. rewrite lookup_put. destruct (decide _); [|by apply H].
  apply lookup_lt_is_Some. lia.
Qed.

Lemma mapped_insert m a n i v : mapped m a n -> mapped (<[i := v]> m) a n.
Proof. apply (mapped_put m a n i [v]). Qed.

Lemma bytes_at_mapped m a bs : bytes_at m a bs -> mapped m a (length bs).
Proof.
  rewrite bytes_at_lookup. intros H i Hi.
  destruct (lookup_lt_is_Some_2 bs (Z.to_nat (i - a))) as [b Hb]; [lia|].
  apply H in Hb. replace (a + Z.of_nat (Z.to_nat (i - a))) with i in Hb by lia. eauto.
Qed.

Lemma wp_load8 m a b (Q : Z -> mem -> Prop) : m !! a = Some b -> Q b m -> wp (load8 a) m Q.
Proof. intros H HQ. unfold wp, load8. by rewrite H. Qed.

Lemma wp_store8 m a v (Q : unit -> mem -> Prop) :
  is_Some (m !! a) -> Q tt (<[a := u8 v]> m) -> wp (store8 a v) m Q.
Proof. intros [b H] HQ. unfold wp, store8. by rewrite H. Qed.

Lemma wp_mem_fuel m (Q : nat -> mem -> Prop) : Q (S (size m)) m -> wp mem_fuel m Q.
Proof. done. Qed.

(** A block is no longer than the memory. *)
Lemma bytes_at_size m a bs : bytes_at m a bs -> (length bs <= size m)%nat.
Proof.
  revert m a. induction bs as [|b bs IH]; intros m a; simpl; [lia|]. intros [H0 H].
  rewrite <-(insert_delete_id m a b H0). rewrite map_size_insert_None by apply lookup_delete_eq.
  apply le_n_S, (IH _ (a + 1)). eapply bytes_at_eq; [exact H|]. intros i Hi.
  by rewrite lookup_delete_ne by lia.
Qed.
Definition bytes_ok (m : mem) : Prop := map_Forall (fun _ b => byte b) m.

Lemma bytes_ok_put m a bs : bytes_ok m -> Forall byte bs -> bytes_ok (put m a bs).
Proof.
  intros Hm Hb i b. rewrite lookup_put. destruct (decide _); [|by apply Hm].
  intros E. exact (Forall_lookup_1 _ _ _ _ Hb E).
Qed.

Lemma mapped_bytes m a n : bytes_ok m -> mapped m a n -> exists bs, length bs = n /\ bytes_at m a bs /\ Forall byte bs.
Proof.
  intros Hb. revert a. induction n as [|n IH]; intros a Hm; [by exists []|]. destruct (Hm a) as [b E]; [lia|].
  destruct (IH (a + 1)) as (bs & Hl & H1 & H2); [intros i Hi; apply Hm; lia|]. exists (b :: bs). split_and!; [cbn; lia|done|].
  constructor; [exact (Hb _ _ E)|done].
Qed.
End Blocks.

(** * Blocks *)

Section BlockSpecs.
Implicit Types (m : mem) (bs cs : list Z).

Lemma wp_copy_up m dst src bs (Q : unit -> mem -> Prop) :
  bytes_at m src bs -> Forall byte bs -> mapped m dst (length bs) ->
  dst <= src \/ src + Z.of_nat (length bs) <= dst ->
  Q tt (put m dst bs) -> wp (copy_up (length bs) dst src) m Q.
Proof.
  revert m dst src. induction bs as [|b bs IH]; intros m dst src Hb HB Hm Ho HQ; [done|].
  destruct Hb as [Hb0 Hb]. apply Forall_cons in HB as [Hb1 HB].
  apply wp_bind. eapply wp_load8; [done|]. apply wp_bind, wp_store8; [apply Hm; simpl; lia|].
  rewrite u8_byte by done. simpl in Ho. apply IH; [|done| |lia|done].
  - eapply bytes_at_eq; [exact Hb|]. intros i Hi. by rewrite lookup_insert_ne by lia.
  - apply mapped_insert. intros i Hi. apply Hm. simpl. lia.
Qed.

Lemma wp_copy_down m dst src bs (Q : unit -> mem -> Prop) :
  bytes_at m src bs -> Forall byte bs -> mapped m dst (length bs) ->
  src <= dst \/ dst + Z.of_nat (length bs) <= src ->
  Q tt (put m dst bs) ->
  wp (copy_down (length bs) (dst + Z.of_nat (length bs)) (src + Z.of_nat (length bs))) m Q.
Proof.
  revert m. induction bs as [|b bs IH] using rev_ind; intros m Hb HB Hm Ho HQ; [done|].
  apply bytes_at_app in Hb as [Hb [Hb0 _]]. apply Forall_app in HB as [HB HB0].
  apply Forall_cons in HB0 as [HB0 _]. rewrite length_app in *. simpl in *.
  rewrite Nat.add_1_r in *. simpl.
  replace (src + Z.of_nat (S (length bs)) - 1) with (src + Z.of_nat (length bs)) by lia.
  replace (dst + Z.of_nat (S (length bs)) - 1) with (dst + Z.of_nat (length bs)) by lia.
  apply wp_bind. eapply wp_load8; [done|]. apply wp_bind, wp_store8; [apply Hm; lia|].
  rewrite u8_byte by done. apply IH; [|done| |lia|].
  - eapply bytes_at_eq; [exact Hb|]. intros i Hi. by rewrite lookup_insert_ne by lia.
  - apply mapped_insert. eapply mapped_le; [done|lia].
  - rewrite put_insert_comm by lia. by rewrite put_app in HQ.
Qed.

Lemma nonnull_true p : p ≠ NULL -> nonnull p = true.
Proof. intros H. unfold nonnull. by rewrite (proj2 (Z.eqb_neq p NULL)). Qed.

Lemma wp_memcpy m dst src bs (Q : Z -> mem -> Prop) :
  dst ≠ NULL -> src ≠ NULL ->
  bytes_at m src bs -> Forall byte bs -> mapped m dst (length bs) ->
  dst <= src \/ src + Z.of_nat (length bs) <= dst ->
  Q dst (put m dst bs) -> wp (memcpy dst src (length bs)) m Q.
Proof.
  intros. unfold memcpy. rewrite !nonnull_true by done.
  do 2 (apply wp_bind, wp_assert; [done|]). apply wp_bind. by eapply wp_copy_up.
Qed.

Lemma wp_memset m dst v n (Q : Z -> mem -> Prop) :
  dst ≠ NULL -> mapped m dst n ->
  Q dst (put m dst (replicate n (u8 v))) -> wp (memset dst v n) m Q.
Proof.
  intros Hd Hm HQ. unfold memset. rewrite nonnull_true by done.
  apply wp_bind, wp_assert; [done|]. apply wp_bind.
  assert (forall d m, mapped m d n -> (wp (mret dst) (put m d (replicate n (u8 v))) Q) ->
    wp (fill_up v n d) m (fun _ m' => wp (mret dst) m' Q)) as L; [|by apply L].
  clear. induction n as [|n IH]; intros d m Hm HQ; [done|].
  apply wp_bind, wp_store8; [apply Hm; lia|]. apply IH; [|done].
  apply mapped_insert. intros i Hi. apply Hm. lia.
Qed.

(** The sign of the first difference, as [memcmp] and [strcmp] return it. *)
Fixpoint cmp_bytes bs cs : Z :=
  match bs, cs with
  | b :: bs, c :: cs => if b <? c then -1 else if c <? b then 1 else cmp_bytes bs cs
  | _, _ => 0
  end.

Lemma wp_memcmp m a b bs cs n (Q : Z -> mem -> Prop) :
  a ≠ NULL -> b ≠ NULL -> bytes_at m a bs -> bytes_at m b cs ->
  length bs = n -> length cs = n -> Q (cmp_bytes bs cs) m -> wp (memcmp a b n) m Q.
Proof.
  intros Ha Hb Hbs Hcs Hn Hc HQ. unfold memcmp. rewrite !nonnull_true by done.
  do 2 (apply wp_bind, wp_assert; [done|]). clear Ha Hb. subst n.
  revert a b cs Hbs Hcs Hc HQ. induction bs as [|x bs IH]; intros a b [|y cs] Hbs Hcs Hc HQ;
    simpl in *; try done.
  destruct Hbs as [Hx Hbs], Hcs as [Hy Hcs]. apply wp_bind. eapply wp_load8; [done|].
  apply wp_bind. eapply wp_load8; [done|]. destruct (Z.eqb_spec x y) as [->|Hne]; simpl.
  - rewrite Z.ltb_irrefl in HQ. eapply IH; eauto.
  - apply wp_ret. destruct (Z.ltb_spec y x), (Z.ltb_spec x y); try done; lia.
Qed.

Lemma cmp_bytes_eq bs cs : length bs = length cs -> cmp_bytes bs cs = 0 <-> bs = cs.
Proof.
  revert cs. induction bs as [|x bs IH]; intros [|y cs] Hl; simpl in *; try done.
  destruct (Z.ltb_spec x y); [split; [done|intros [=]; lia]|].
  destruct (Z.ltb_spec y x); [split; [done|intros [=]; lia]|].
  assert (x = y) as -> by lia. rewrite IH by lia. split; [by intros ->|by intros [=]].
Qed.

(** The position of the first [c]. *)
Fixpoint index_of (c : Z) (s : list Z) : option nat :=
  match s with
  | [] => None
  | x :: s => if x =? c then Some O else S <$> index_of c s
  end.
Definition ptr_at (a : Z) (i : option nat) : Z :=
  match i with Some i => a + Z.of_nat i | None => NULL end.

Lemma ptr_at_S a i : ptr_at (a + 1) i = ptr_at a (S <$> i).
Proof. destruct i as [i|]; simpl; [lia|done]. Qed.

Lemma wp_memchr m a c bs (Q : Z -> mem -> Prop) :
  a ≠ NULL -> bytes_at m a bs -> Q (ptr_at a (index_of (u8 c) bs)) m ->
  wp (memchr a c (length bs)) m Q.
Proof.
  intros Ha Hbs HQ. unfold memchr. rewrite nonnull_true by done.
  apply wp_bind, wp_assert; [done|]. clear Ha.
  revert a Hbs HQ. induction bs as [|x bs IH]; intros a Hbs HQ; [done|].
  destruct Hbs as [Hx Hbs]. apply wp_bind. eapply wp_load8; [done|]. simpl in HQ.
  destruct (x =? u8 c); [unfold ptr_at in HQ; by rewrite Z.add_0_r in HQ|]. apply IH; [done|]. by rewrite ptr_at_S.
Qed.
End BlockSpecs.

(** * Strings *)

Section StringSpecs.
Implicit Types (m : mem) (s t : list Z).

Lemma cstr_nil m a : cstr m a [] -> m !! a = Some 0.
Proof. intros (_ & [H _] & _). done. Qed.

Lemma cstr_cons m a c s :
  cstr m a (c :: s) <-> 0 < a /\ m !! a = Some c /\ byte c /\ c ≠ 0 /\ cstr m (a + 1) s.
Proof.
  unfold cstr. simpl. rewrite Forall_cons. split.
  - intros (? & [? ?] & ? & ?). split_and!; naive_solver lia.
  - intros (? & ? & ? & ? & ? & ? & ?). tauto.
Qed.

Lemma cstr_app m a s t :
  cstr m a (s ++ t) -> cstr m (a + Z.of_nat (length s)) t.
Proof.
  revert a. induction s as [|c s IH]; intros a; simpl; [by rewrite Z.add_0_r|].
  rewrite cstr_cons. intros (_ & _ & _ & _ & H). apply IH in H.
  by replace (a + Z.of_nat (S (length s))) with (a + 1 + Z.of_nat (length s)) by lia.
Qed.

Lemma cstr_size m a s : cstr m a s -> (length s < size m)%nat.
Proof. intros (_ & H & _). apply bytes_at_size in H. rewrite length_app in H. simpl in H. lia. Qed.

Lemma cstr_pos m a s : cstr m a s -> 0 < a.
Proof. by intros [? _]. Qed.

Lemma cstr_frame m m' a s :
  cstr m a s -> (forall i, a <= i <= a + Z.of_nat (length s) -> m' !! i = m !! i) -> cstr m' a s.
Proof.
  intros (Ha & H & Hs) E. split_and!; [done| |done]. eapply bytes_at_eq; [exact H|].
  intros i Hi. rewrite length_app in Hi. simpl in Hi. apply E. lia.
Qed.

(** The first character of a string, or its terminator. *)
Lemma cstr_hd m a s : cstr m a s -> m !! a = Some (hd 0 s).
Proof. destruct s as [|c s]; [apply cstr_nil|]. rewrite cstr_cons. tauto. Qed.

Lemma cstr_char m a c s : cstr m a (c :: s) -> (c =? 0) = false.
Proof. rewrite cstr_cons. intros (_ & _ & _ & H & _). by apply Z.eqb_neq. Qed.

Lemma nonnull_pos a : 0 < a -> nonnull a = true.
Proof. intros H. apply nonnull_true. unfold NULL. lia. Qed.

(** A walk over a string.  [f n] is the loop's variable after [n] iterations and
    [I p] holds when the characters [p] have been passed. *)
Lemma wp_walk {A B} m (f : nat -> A) (I : list Z -> Prop) (body : A -> M mem (A + B))
    (Q : B -> mem -> Prop) s a fuel :
  cstr m a s -> (size m < fuel)%nat -> I [] ->
  (forall p t, s = p ++ t -> cstr m (a + Z.of_nat (length p)) t -> I p ->
     wp (body (f (length p))) m (fun r m' =>
       match r with
       | inl a' => a' = f (S (length p)) /\ m' = m /\ exists c t', t = c :: t' /\ I (p ++ [c])
       | inr b => Q b m'
       end)) ->
  wp (loop fuel body (f O)) m Q.
Proof.
  intros Hs Hf HI Hb. pose proof (cstr_size _ _ _ Hs) as Hlen.
  eapply (wp_loop (fun n x m' => m' = m /\ exists p t, s = p ++ t /\ I p /\
    x = f (length p) /\ n = length t)); [|split; [done|]; by exists [], s|lia].
  intros n x m' (-> & p & t & -> & Hp & -> & ->).
  eapply wp_mono; [apply (Hb p t); [done|by apply cstr_app|done]|].
  intros [x'|b] m'; [|done]. intros (-> & -> & c & t' & -> & Hc).
  exists (length t'). split; [simpl; lia|]. split; [done|]. exists (p ++ [c]), t'.
  rewrite length_app, <-app_assoc. split_and!; try done. f_equal. simpl. lia.
Qed.

(** The same for a loop whose variable is the pointer into the string. *)
Lemma wp_walk_ptr {B} m (I : list Z -> Prop) (body : Z -> M mem (Z + B))
    (Q : B -> mem -> Prop) s a fuel :
  cstr m a s -> (size m < fuel)%nat -> I [] ->
  (forall p t, s = p ++ t -> cstr m (a + Z.of_nat (length p)) t -> I p ->
     wp (body (a + Z.of_nat (length p))) m (fun r m' =>
       match r with
       | inl a' => a' = a + Z.of_nat (S (length p)) /\ m' = m /\
                   exists c t', t = c :: t' /\ I (p ++ [c])
       | inr b => Q b m'
       end)) ->
  wp (loop fuel body a) m Q.
Proof.
  intros Hs Hf HI Hb. pose proof (wp_walk m (fun n => a + Z.of_nat n) I body Q s a fuel) as W.
  simpl in W. rewrite Z.add_0_r in W. by apply W.
Qed.

(** The postcondition, up to arithmetic on the result. *)
Ltac post HQ :=
  simpl;
  match type of HQ with
  | ?Q ?x ?m =>
    match goal with
    | |- ?Q ?y ?m => replace y with x; [exact HQ|unfold ptr_at; simpl; lia]
    end
  end.

Lemma index_of_app c p t :
  index_of c p = None -> index_of c (p ++ t) = (fun i => length p + i)%nat <$> index_of c t.
Proof.
  induction p as [|x p IH]; simpl; [by intros _; destruct (index_of c t)|].
  destruct (x =? c); [done|]. intros H.
  rewrite IH by (by destruct (index_of c p)). by destruct (index_of c t).
Qed.

(** Reading the current character of a walk. *)
Ltac walk_step Ht :=
  apply wp_bind; eapply wp_load8; [exact (cstr_hd _ _ _ Ht)|].

Lemma wp_strlen m a s (Q : Z -> mem -> Prop) :
  cstr m a s -> Q (Z.of_nat (length s)) m -> wp (strlen a) m Q.
Proof.
  intros Hs HQ. unfold strlen. rewrite nonnull_pos by (by eapply cstr_pos).
  apply wp_bind, wp_assert; [done|]. apply wp_bind, wp_mem_fuel.
  apply (wp_walk_ptr m (fun _ => True) _ _ s a); [done|lia|done|].
  intros p t -> Ht _. walk_step Ht. apply wp_ret. destruct t as [|c t]; simpl.
  - rewrite app_nil_r in HQ. by replace (a + Z.of_nat (length p) - a) with (Z.of_nat (length p)) by lia.
  - rewrite (cstr_char _ _ _ _ Ht). simpl. split_and!; [lia|done|eauto].
Qed.

Lemma wp_strnlen m a s n (Q : Z -> mem -> Prop) :
  cstr m a s -> 0 <= n -> Q (Z.min (Z.of_nat (length s)) n) m -> wp (strnlen a n) m Q.
Proof.
  intros Hs Hn HQ. unfold strnlen. apply wp_bind, wp_mem_fuel.
  apply (wp_walk m Z.of_nat (fun p => Z.of_nat (length p) <= n) _ _ s a); [done|lia|done|].
  intros p t -> Ht Hp. walk_step Ht. apply wp_ret. destruct t as [|c t]; simpl.
  - by rewrite app_nil_r, Z.min_l in HQ by done.
  - rewrite (cstr_char _ _ _ _ Ht). simpl. rewrite length_app in HQ. simpl in HQ.
    destruct (Z.ltb_spec (Z.of_nat (length p)) n); simpl.
    + split_and!; [lia|done|]. exists c, t. rewrite length_app. simpl. split; [done|lia].
    + by replace (Z.min _ _) with (Z.of_nat (length p)) in HQ by lia.
Qed.

Lemma wp_strchr m a s c (Q : Z -> mem -> Prop) :
  cstr m a s -> Q (ptr_at a (index_of (u8 c) (s ++ [0]))) m -> wp (strchr a c) m Q.
Proof.
  intros Hs HQ. unfold strchr. rewrite nonnull_pos by (by eapply cstr_pos).
  apply wp_bind, wp_assert; [done|]. apply wp_bind, wp_mem_fuel.
  apply (wp_walk_ptr m (fun p => index_of (u8 c) p = None) _ _ s a);
    [done|lia|done|].
  intros p t -> Ht Hp. walk_step Ht. apply wp_ret.
  rewrite <-app_assoc, (index_of_app _ p) in HQ by done.
  destruct t as [|x t]; cbn [hd app index_of] in *.
  - destruct (0 =? u8 c); [post HQ|done].
  - destruct (x =? u8 c) eqn:E; [post HQ|].
    rewrite (cstr_char _ _ _ _ Ht). split_and!; [lia|done|]. exists x, t. split; [done|].
    rewrite index_of_app by done. simpl. by rewrite E.
Qed.

(** [c] is one of the characters of the string [ds]. *)
Definition in_str (ds : list Z) (c : Z) : bool := existsb (Z.eqb c) ds.

Lemma index_of_in_str c ds : index_of c ds = None <-> in_str ds c = false.
Proof.
  induction ds as [|d ds IH]; simpl; [done|]. rewrite (Z.eqb_sym d c).
  destruct (c =? d); simpl; [done|]. rewrite <-IH. by destruct (index_of c ds).
Qed.

(** [strchr] as the membership test it is used as: the terminator is found
    too. *)
Lemma wp_strchr_test m d ds c (Q : Z -> mem -> Prop) :
  cstr m d ds -> byte c ->
  (forall p, nonnull p = (c =? 0) || in_str ds c -> Q p m) -> wp (strchr d c) m Q.
Proof.
  intros Hd Hc HQ. eapply wp_strchr; [done|]. apply HQ. rewrite u8_byte by done.
  pose proof (cstr_pos _ _ _ Hd) as Hd0.
  assert (forall i, nonnull (ptr_at d (Some i)) = true) as Hs by (intros; apply nonnull_pos; simpl; lia).
  destruct (in_str ds c) eqn:E.
  - rewrite orb_true_r. destruct (index_of c (ds ++ [0])) eqn:E2; [apply Hs|].
    apply index_of_in_str in E2. unfold in_str in *. by rewrite existsb_app, E in E2.
  - rewrite index_of_app by (by apply index_of_in_str). simpl. rewrite orb_false_r, (Z.eqb_sym c).
    destruct (0 =? c); [apply Hs|done].
Qed.

Lemma cstr_byte m a s c : cstr m a s -> c ∈ s -> byte c /\ (c =? 0) = false.
Proof.
  intros (_ & _ & H) Hc. rewrite Forall_forall in H. apply H in Hc as [? ?]. split; [done|].
  by apply Z.eqb_neq.
Qed.

(** The length of the longest prefix that satisfies [f]. *)
Fixpoint span (f : Z -> bool) (s : list Z) : nat :=
  match s with
  | c :: s => if f c then S (span f s) else O
  | [] => O
  end.

Lemma span_app f p t : Forall (fun c => f c = true) p -> span f (p ++ t) = (length p + span f t)%nat.
Proof. induction 1 as [|c p Hc _ IH]; simpl; [done|]. by rewrite Hc, IH. Qed.

Lemma wp_strcspn m a s d ds (Q : Z -> mem -> Prop) :
  cstr m a s -> cstr m d ds ->
  Q (Z.of_nat (span (fun c => negb (in_str ds c)) s)) m -> wp (strcspn a d) m Q.
Proof.
  intros Hs Hd HQ. unfold strcspn. apply wp_bind, wp_mem_fuel.
  apply (wp_walk m Z.of_nat (Forall (fun c => negb (in_str ds c) = true)) _ _ s a);
    [done|lia|done|].
  intros p t -> Ht Hp. walk_step Ht. rewrite span_app in HQ by done. destruct t as [|c t]; simpl in *.
  { apply wp_ret. by rewrite Nat.add_0_r in HQ. }
  destruct (cstr_byte _ _ _ c Ht) as [Hc Hc0]; [left|]. rewrite Hc0.
  apply wp_bind. eapply wp_strchr_test; [done..|]. intros q ->. apply wp_ret. rewrite Hc0. simpl.
  destruct (in_str ds c) eqn:E; simpl in *; [by rewrite Nat.add_0_r in HQ|].
  split_and!; [lia|done|]. exists c, t. split; [done|]. apply Forall_app. split; [done|].
  constructor; [by rewrite E|done].
Qed.

Lemma wp_strspn m a s d ds (Q : Z -> mem -> Prop) :
  cstr m a s -> cstr m d ds -> Q (Z.of_nat (span (in_str ds) s)) m -> wp (strspn a d) m Q.
Proof.
  intros Hs Hd HQ. unfold strspn. apply wp_bind, wp_mem_fuel.
  apply (wp_walk m Z.of_nat (Forall (fun c => in_str ds c = true)) _ _ s a); [done|lia|done|].
  intros p t -> Ht Hp. walk_step Ht. rewrite span_app in HQ by done. destruct t as [|c t]; simpl in *.
  { apply wp_ret. by rewrite Nat.add_0_r in HQ. }
  destruct (cstr_byte _ _ _ c Ht) as [Hc Hc0]; [left|]. rewrite Hc0.
  apply wp_bind. eapply wp_strchr_test; [done..|]. intros q Hq. apply wp_ret.
  unfold nonnull in Hq. rewrite Hc0 in Hq. simpl in Hq.
  destruct (in_str ds c) eqn:E; simpl in *; [apply negb_true_iff in Hq|apply negb_false_iff in Hq];
    rewrite Hq; [|by rewrite Nat.add_0_r in HQ].
  split_and!; [lia|done|]. exists c, t. split; [done|]. apply Forall_app. auto.
Qed.

(** The position of the first character in [ds]. *)
Fixpoint index_in (ds s : list Z) : option nat :=
  match s with
  | [] => None
  | c :: s => if in_str ds c then Some O else S <$> index_in ds s
  end.

Lemma index_in_app ds p t :
  index_in ds p = None -> index_in ds (p ++ t) = (fun i => length p + i)%nat <$> index_in ds t.
Proof.
  induction p as [|x p IH]; simpl; [by intros _; destruct (index_in ds t)|].
  destruct (in_str ds x); [done|]. intros H.
  rewrite IH by (by destruct (index_in ds p)). by destruct (index_in ds t).
Qed.

Lemma wp_strpbrk m a s d ds (Q : Z -> mem -> Prop) :
  cstr m a s -> cstr m d ds -> Q (ptr_at a (index_in ds s)) m -> wp (strpbrk a d) m Q.
Proof.
  intros Hs Hd HQ. unfold strpbrk. apply wp_bind, wp_mem_fuel.
  apply (wp_walk_ptr m (fun p => index_in ds p = None) _ _ s a); [done|lia|done|].
  intros p t -> Ht Hp. walk_step Ht. rewrite index_in_app in HQ by done.
  destruct t as [|c t]; simpl in HQ |- *; [by apply wp_ret|].
  destruct (cstr_byte _ _ _ c Ht) as [Hc Hc0]; [left|]. rewrite Hc0.
  apply wp_bind. eapply wp_strchr_test; [done..|]. intros q ->. apply wp_ret. rewrite Hc0.
  destruct (in_str ds c) eqn:E; [post HQ|]. simpl.
  split_and!; [lia|done|]. exists c, t. split; [done|]. rewrite index_in_app by done. simpl.
  by rewrite E.
Qed.

(** The position of the last [c], or [j]. *)
Fixpoint rindex_of (c : Z) (j : option nat) (i : nat) (s : list Z) : option nat :=
  match s with
  | [] => j
  | x :: s => rindex_of c (if x =? c then Some i else j) (S i) s
  end.

Lemma wp_strrchr m a s c (Q : Z -> mem -> Prop) :
  cstr m a s -> Q (ptr_at a (rindex_of (u8 c) None O s)) m -> wp (strrchr a c) m Q.
Proof.
  intros Hs HQ. unfold strrchr. apply wp_bind, wp_mem_fuel.
  pose proof (cstr_size _ _ _ Hs) as Hlen.
  eapply (wp_loop (fun n '(x, q) m' => m' = m /\ exists p t j, s = p ++ t /\
    x = a + Z.of_nat (length p) /\ q = ptr_at a j /\
    rindex_of (u8 c) None O s = rindex_of (u8 c) j (length p) t /\ n = length t));
    [|split; [done|]; exists [], s, None; by rewrite Z.add_0_r|lia].
  intros n [x q] m' (-> & p & t & j & -> & -> & -> & Hj & ->).
  pose proof (cstr_app _ _ _ _ Hs) as Ht. walk_step Ht. apply wp_ret. rewrite Hj in HQ.
  destruct t as [|y t]; simpl in *; [done|]. rewrite (cstr_char _ _ _ _ Ht).
  exists (length t). split; [lia|]. split; [done|]. exists (p ++ [y]), t.
  exists (if y =? u8 c then Some (length p) else j).
  rewrite length_app, <-app_assoc, Nat.add_1_r. split_and!; [done|lia|by destruct (y =? u8 c)|done..].
Qed.

Lemma wp_strcmp m a s b t (Q : Z -> mem -> Prop) :
  cstr m a s -> cstr m b t -> Q (cmp_bytes (s ++ [0]) (t ++ [0])) m -> wp (strcmp a b) m Q.
Proof.
  intros Hs Ht HQ. unfold strcmp.
  rewrite (nonnull_pos a), (nonnull_pos b) by (by eapply cstr_pos).
  do 2 (apply wp_bind, wp_assert; [done|]). apply wp_bind, wp_mem_fuel. apply wp_bind.
  pose proof (cstr_size _ _ _ Hs) as Hlen.
  eapply (wp_loop (fun n '(x, y) m' => m' = m /\ exists s' t', cstr m x s' /\ cstr m y t' /\
    cmp_bytes (s ++ [0]) (t ++ [0]) = cmp_bytes (s' ++ [0]) (t' ++ [0]) /\ n = length s'));
    [|split; [done|]; by exists s, t|lia].
  intros n [x y] m' (-> & s' & t' & Hs' & Ht' & Hc & ->). rewrite Hc in HQ. walk_step Hs'.
  destruct s' as [|c s']; simpl in *.
  - apply wp_ret. walk_step Hs'. walk_step Ht'. apply wp_ret. destruct t' as [|d t']; simpl in *; [done|].
    by repeat destruct (_ <? _).
  - rewrite (cstr_char _ _ _ _ Hs'). walk_step Ht'. destruct (Z.eqb_spec c (hd 0 t')) as [E|E].
    + apply wp_ret. destruct t' as [|d t']; simpl in *; subst.
      { by apply cstr_char in Hs'. }
      rewrite Z.ltb_irrefl in Hc. apply cstr_cons in Hs' as (_ & _ & _ & _ & Hs').
      apply cstr_cons in Ht' as (_ & _ & _ & _ & Ht').
      exists (length s'). split; [lia|]. split; [done|]. by exists s', t'.
    + apply wp_ret. walk_step Hs'. walk_step Ht'. apply wp_ret.
      destruct t' as [|d t']; simpl in *;
        [destruct (Z.ltb_spec c 0), (Z.ltb_spec 0 c)|destruct (Z.ltb_spec c d), (Z.ltb_spec d c)];
        first [done|lia].
Qed.

Lemma cstr_mapped m a s : cstr m a s -> mapped m a (S (length s)).
Proof.
  intros (_ & H & _). apply bytes_at_mapped in H. by rewrite length_app, Nat.add_1_r in H.
Qed.

Lemma cstr_take m a s n : cstr m a s -> bytes_at m a (take n s) /\ Forall byte (take n s).
Proof.
  intros (_ & H & Hs). rewrite <-(take_drop n s) in H at 1. rewrite <-app_assoc in H.
  apply bytes_at_app in H as [H _]. split; [done|]. apply Forall_take.
  by eapply Forall_impl; [exact Hs|]; intros ? [].
Qed.

Lemma cstr_no_nul m a s c : cstr m a s -> c ∈ s -> byte c /\ c ≠ 0.
Proof. intros (_ & _ & H). rewrite Forall_forall in H. apply H. Qed.

(** The copy of [n] characters of [src] followed by a terminator. *)
Lemma wp_copy_str {B} m dst src s n (k : M mem B) (Q : B -> mem -> Prop) :
  0 < dst -> cstr m src s -> 0 <= n <= Z.of_nat (length s) -> mapped m dst (S (Z.to_nat n)) ->
  dst + n < src \/ src + Z.of_nat (length s) < dst ->
  wp k (put m dst (take (Z.to_nat n) s ++ [0])) Q ->
  wp (memcpy dst src (Z.to_nat n);; store8 (dst + n) 0;; k) m Q.
Proof.
  intros Hd Hs Hn Hm Ho HQ. destruct (cstr_take _ _ _ (Z.to_nat n) Hs) as [Hb HB].
  assert (length (take (Z.to_nat n) s) = Z.to_nat n) as Hlen by (rewrite length_take; lia).
  apply wp_bind. rewrite <-Hlen at 1. pose proof (cstr_pos _ _ _ Hs).
  eapply wp_memcpy; unfold NULL; try lia; [done|done| |].
  - eapply mapped_le; [done|lia].
  - apply wp_bind, wp_store8.
    + apply mapped_put with (n := S (Z.to_nat n)) (a := dst); [done|lia].
    + rewrite put_app, Hlen in HQ. by rewrite Z2Nat.id in HQ by lia.
Qed.

(** [strlcpy] writes at most [size] bytes: a prefix and its terminator. *)
Lemma wp_strlcpy m dst src s size (Q : Z -> mem -> Prop) :
  0 < dst -> cstr m src s -> 0 <= size -> mapped m dst (Z.to_nat size) ->
  dst + size <= src \/ src + Z.of_nat (length s) < dst ->
  Q (Z.of_nat (length s))
    (if 0 <? size then put m dst (take (Z.to_nat (size - 1)) s ++ [0]) else m) ->
  wp (strlcpy dst src size) m Q.
Proof.
  intros Hd Hs Hz Hm Ho HQ. unfold strlcpy.
  rewrite (nonnull_pos dst), (nonnull_pos src) by (try done; by eapply cstr_pos).
  do 2 (apply wp_bind, wp_assert; [done|]). apply wp_bind. eapply wp_strlen; [done|].
  destruct (Z.ltb_spec 0 size); [|by apply wp_bind, wp_ret].
  set (n := if Z.of_nat (length s) <? size - 1 then _ else _).
  assert (0 <= n <= Z.of_nat (length s) /\ n <= size - 1 /\
          take (Z.to_nat n) s = take (Z.to_nat (size - 1)) s) as (Hn & Hn' & Ht).
  { subst n. destruct (Z.ltb_spec (Z.of_nat (length s)) (size - 1)); [|split_and!; [lia..|done]].
    split_and!; [lia..|]. by rewrite !take_ge by lia. }
  rewrite <-Ht in HQ. apply wp_assoc. apply (wp_copy_str _ _ _ s); [done..| |lia|done].
  eapply mapped_le; [done|lia].
Qed.

Lemma wp_strlcat m dst src s t size (Q : Z -> mem -> Prop) :
  cstr m dst t -> cstr m src s -> 0 <= size -> mapped m dst (Z.to_nat size) ->
  dst + size <= src \/ src + Z.of_nat (length s) < dst ->
  Q (Z.of_nat (length s) + Z.of_nat (length t))
    (if Z.of_nat (length t) <? size then
       put m (dst + Z.of_nat (length t))
         (take (Z.to_nat (size - Z.of_nat (length t) - 1)) s ++ [0])
     else m) ->
  wp (strlcat dst src size) m Q.
Proof.
  intros Ht Hs Hz Hm Ho HQ. unfold strlcat. pose proof (cstr_pos _ _ _ Ht) as Hd.
  rewrite (nonnull_pos dst), (nonnull_pos src) by (try done; by eapply cstr_pos).
  do 2 (apply wp_bind, wp_assert; [done|]). do 2 (apply wp_bind; eapply wp_strlen; [done|]).
  destruct (Z.ltb_spec (Z.of_nat (length t)) size) as [Hlt|Hge]; cycle 1.
  { rewrite andb_false_r. by apply wp_bind, wp_ret. }
  rewrite (proj2 (Z.ltb_lt 0 size)) by lia. simpl andb. cbv iota.
  set (n := if Z.of_nat (length s) <? size - Z.of_nat (length t) - 1 then _ else _).
  assert (0 <= n <= Z.of_nat (length s) /\ n <= size - Z.of_nat (length t) - 1 /\
    take (Z.to_nat n) s = take (Z.to_nat (size - Z.of_nat (length t) - 1)) s) as (Hn & Hn' & Htk).
  { subst n. destruct (Z.ltb_spec (Z.of_nat (length s)) (size - Z.of_nat (length t) - 1));
      [|split_and!; [lia..|done]].
    split_and!; [lia..|]. by rewrite !take_ge by lia. }
  rewrite <-Htk in HQ. apply wp_assoc. apply (wp_copy_str _ _ _ s); [lia|done|lia| |lia|done].
  intros i Hi. apply Hm. lia.
Qed.

(** The position of the first occurrence of [ns]. *)
Fixpoint find_sub (ns hs : list Z) : option nat :=
  if bool_decide (take (length ns) hs = ns) then Some O
  else match hs with [] => None | _ :: hs => S <$> find_sub ns hs end.

Lemma find_sub_short ns hs : (length hs < length ns)%nat -> find_sub ns hs = None.
Proof.
  induction hs as [|c hs IH]; simpl; intros Hl; rewrite bool_decide_eq_false_2.
  - done.
  - intros E. rewrite take_nil in E. rewrite <-E in Hl. simpl in Hl. lia.
  - rewrite IH by lia. done.
  - intros E. apply (f_equal length) in E. rewrite length_take in E. simpl in E. lia.
Qed.

Lemma find_sub_unfold ns hs :
  find_sub ns hs = if bool_decide (take (length ns) hs = ns) then Some O
                   else match hs with [] => None | _ :: hs => S <$> find_sub ns hs end.
Proof. by destruct hs. Qed.

Lemma wp_strstr m a hs b ns (Q : Z -> mem -> Prop) :
  cstr m a hs -> cstr m b ns -> Q (ptr_at a (find_sub ns hs)) m -> wp (strstr a b) m Q.
Proof.
  intros Hh Hn HQ. unfold strstr. do 2 (apply wp_bind; eapply wp_strlen; [done|]).
  destruct (Z.leb_spec (Z.of_nat (length ns)) (Z.of_nat (length hs))) as [Hle|Hgt]; cycle 1.
  { apply wp_ret. by rewrite find_sub_short in HQ by lia. }
  set (d := Z.of_nat (length hs) - Z.of_nat (length ns)).
  eapply (wp_loop (fun n i m' => m' = m /\ exists p t, hs = p ++ t /\ i = Z.of_nat (length p) /\
    ptr_at a (find_sub ns hs) = ptr_at (a + i) (find_sub ns t) /\ 0 <= i <= d + 1 /\
    n = Z.to_nat (d + 1 - i))); [|split; [done|]; exists [], hs; rewrite Z.add_0_r; split_and!; try done; lia|lia].
  intros n i m' (-> & p & t & -> & -> & Hf & Hi & ->). rewrite Hf in HQ. subst d.
  rewrite length_app in *. destruct (Z.leb_spec (Z.of_nat (length p))
    (Z.of_nat (length p + length t) - Z.of_nat (length ns))) as [Hi'|Hi']; cycle 1.
  { apply wp_ret. rewrite find_sub_short in HQ by lia. done. }
  pose proof (cstr_pos _ _ _ Hn). pose proof (cstr_pos _ _ _ Hh).
  pose proof (cstr_app _ _ _ _ Hh) as Ht. rewrite Nat2Z.id. apply wp_bind.
  assert (length (take (length ns) t) = length ns) as Hlt by (rewrite length_take; lia).
  eapply (wp_memcmp m _ _ (take (length ns) t) ns); unfold NULL; try lia.
  { by apply cstr_take. }
  { destruct (cstr_take _ _ _ (length ns) Hn) as [Hb _]. by rewrite take_ge in Hb by lia. }
  apply wp_ret. rewrite (find_sub_unfold ns t) in HQ, Hf.
  destruct (Z.eqb_spec (cmp_bytes (take (length ns) t) ns) 0) as [E|E].
  - apply cmp_bytes_eq in E; [|done]. rewrite bool_decide_eq_true_2 in HQ by done. post HQ.
  - rewrite cmp_bytes_eq in E by done. rewrite bool_decide_eq_false_2 in HQ, Hf by done.
    destruct t as [|c t]; [rewrite take_nil in *; simpl in *; by destruct ns|].
    simpl length in *. exists (Z.to_nat (Z.of_nat (length p + S (length t)) - Z.of_nat (length ns) - Z.of_nat (length p))).
    split; [lia|]. split; [done|]. exists (p ++ [c]), t. rewrite <-app_assoc, length_app. simpl length.
    split_and!; [done|lia| |lia..]. rewrite Hf. rewrite <-ptr_at_S. f_equal. lia.
Qed.

(** What [strtok_r] returns, stores in [*save_ptr] and leaves in memory, for a
    string [s] at [a]. *)
Definition tok_step (ds : list Z) (m : mem) (a : Z) (s : list Z) : (Z * Z) * mem :=
  let k := span (in_str ds) s in
  let rest := drop k s in
  let w := span (fun c => negb (in_str ds c)) rest in
  let token := a + Z.of_nat k in
  let e := token + Z.of_nat w in
  match rest with
  | [] => ((NULL, token), m)
  | _ => match drop w rest with
         | [] => ((token, e), m)
         | _ => ((token, e + 1), <[e := 0]> m)
         end
  end.

Lemma span_split f s :
  s = take (span f s) s ++ drop (span f s) s /\
  Forall (fun c => f c = true) (take (span f s) s) /\
  match drop (span f s) s with [] => True | c :: _ => f c = false end.
Proof.
  rewrite take_drop. split; [done|]. induction s as [|c s [IH1 IH2]]; simpl; [done|].
  destruct (f c) eqn:E; simpl; [|done]. split; [by constructor|done].
Qed.

Lemma span_length f s : (span f s <= length s)%nat.
Proof. induction s as [|c s IH]; simpl; [lia|]. destruct (f c); simpl; lia. Qed.

Lemma span_unique f p t :
  Forall (fun c => f c = true) p -> match t with [] => True | c :: _ => f c = false end ->
  span f (p ++ t) = length p.
Proof.
  intros Hp Ht. rewrite span_app by done. destruct t as [|c t]; simpl; [lia|]. rewrite Ht. lia.
Qed.

(** The two scans of [strtok_r]. *)
Lemma wp_skip_delims m a s d ds fuel (Q : Z + Z -> mem -> Prop) :
  cstr m a s -> cstr m d ds -> (size m < fuel)%nat ->
  (let k := span (in_str ds) s in
   Q (match drop k s with [] => inl (a + Z.of_nat k) | _ => inr (a + Z.of_nat k) end) m) ->
  wp (loop fuel (fun (s : Z) =>
    x ← load8 s;
    p ← strchr d x;
    if nonnull p then
      mret (if x =? 0 then inr (inl s) else inl (s + 1))
    else mret (inr (inr s))) a) m Q.
Proof.
  intros Hs Hd Hf HQ. cbv zeta in HQ.
  apply (wp_walk_ptr m (Forall (fun c => in_str ds c = true)) _ _ s a); try done.
  intros p t -> Ht Hp. walk_step Ht. apply wp_bind. destruct t as [|c t]; simpl.
  - eapply wp_strchr_test; [done|split; lia|]. intros q ->. simpl. apply wp_ret. simpl.
    rewrite (span_unique _ p []) in HQ by done. by rewrite drop_app_length in HQ.
  - destruct (cstr_byte _ _ _ c Ht) as [Hc Hc0]; [left|].
    eapply wp_strchr_test; [done..|]. intros q ->. rewrite Hc0. simpl.
    destruct (in_str ds c) eqn:E; apply wp_ret.
    + split_and!; [lia|done|]. exists c, t. split; [done|]. apply Forall_app. auto.
    + rewrite (span_unique _ p (c :: t)) in HQ by done. by rewrite drop_app_length in HQ.
Qed.

Lemma wp_skip_word m a s d ds fuel (Q : Z -> mem -> Prop) :
  cstr m a s -> cstr m d ds -> (size m < fuel)%nat ->
  Q (a + Z.of_nat (span (fun c => negb (in_str ds c)) s)) m ->
  wp (loop fuel (fun (s : Z) =>
    x ← load8 s;
    p ← strchr d x;
    mret (if p =? NULL then inl (s + 1) else inr s)) a) m Q.
Proof.
  intros Hs Hd Hf HQ.
  apply (wp_walk_ptr m (Forall (fun c => negb (in_str ds c) = true)) _ _ s a); try done.
  intros p t -> Ht Hp. walk_step Ht. apply wp_bind. destruct t as [|c t]; simpl.
  - eapply wp_strchr_test; [done|split; lia|]. intros q Hq. apply wp_ret.
    unfold nonnull in Hq. simpl in Hq. apply negb_true_iff in Hq. rewrite Hq.
    by rewrite (span_unique _ p []) in HQ.
  - destruct (cstr_byte _ _ _ c Ht) as [Hc Hc0]; [left|].
    eapply wp_strchr_test; [done..|]. intros q Hq. apply wp_ret. unfold nonnull in Hq.
    rewrite Hc0 in Hq. simpl in Hq.
    destruct (in_str ds c) eqn:E; [apply negb_true_iff in Hq|apply negb_false_iff in Hq]; rewrite Hq.
    + rewrite (span_unique _ p (c :: t)) in HQ; [done..|by rewrite E].
    + split_and!; [lia|done|]. exists c, t. split; [done|]. apply Forall_app. split; [done|]. constructor; [by rewrite E|done].
Qed.

Lemma wp_strtok_r m (s0 save a : Z) s d ds (Q : Z * Z -> mem -> Prop) :
  a = (if s0 =? NULL then save else s0) ->
  cstr m a s -> cstr m d ds ->
  Q (tok_step ds m a s).1 (tok_step ds m a s).2 -> wp (strtok_r s0 d save) m Q.
Proof.
  intros -> Hs Hd HQ. unfold strtok_r. rewrite (nonnull_pos d) by (by eapply cstr_pos).
  apply wp_bind, wp_assert; [done|]. cbv zeta. rewrite nonnull_pos by (by eapply cstr_pos).
  apply wp_bind, wp_assert; [done|]. apply wp_bind, wp_mem_fuel.
  apply wp_bind. eapply wp_skip_delims; [done|done|lia|]. cbv zeta.
  set (a := if s0 =? NULL then save else s0) in *. unfold tok_step in HQ.
  destruct (span_split (in_str ds) s) as (Hsplit & _ & _).
  pose proof (span_length (in_str ds) s) as Hk. set (k := span (in_str ds) s) in *.
  assert (cstr m (a + Z.of_nat k) (drop k s)) as Hr.
  { rewrite Hsplit in Hs. apply cstr_app in Hs. by rewrite length_take_le in Hs by lia. }
  destruct (drop k s) as [|c r] eqn:Er; [by apply wp_ret|]. rewrite <-Er in *.
  apply wp_bind. eapply wp_skip_word; [done|done|lia|].
  set (f := fun c => negb (in_str ds c)) in *. destruct (span_split f (drop k s)) as (Hs2 & _ & _).
  pose proof (span_length f (drop k s)) as Hw. set (w := span f (drop k s)) in *.
  assert (cstr m (a + Z.of_nat k + Z.of_nat w) (drop w (drop k s))) as He.
  { rewrite Hs2 in Hr. apply cstr_app in Hr. by rewrite length_take_le in Hr by lia. }
  walk_step He. destruct (drop w (drop k s)) as [|x t] eqn:Et; simpl; [by apply wp_ret|].
  rewrite (cstr_char _ _ _ _ He). simpl. apply wp_bind, wp_store8; [|by apply wp_ret].
  apply cstr_cons in He as (_ & -> & _). eauto.
Qed.
End StringSpecs.

(** * Words of memory *)

(** The [n] bytes of [v], least significant first, and back. *)
Fixpoint le (n : nat) (v : Z) : list Z :=
  match n with O => [] | S n => v mod 256 :: le n (v / 256) end.
Fixpoint unle (bs : list Z) : Z :=
  match bs with [] => 0 | b :: bs => b + 256 * unle bs end.

Lemma unle_range c : Forall byte c -> 0 <= unle c < 256 ^ Z.of_nat (length c).
Proof.
  induction 1 as [|b c Hb _ IH]; cbn [unle length]; [done|]. rewrite Nat2Z.inj_succ, Z.pow_succ_r by lia. unfold byte in Hb. lia.
Qed.

Fixpoint load_le (n : nat) (a : Z) : M mem Z :=
  match n with
  | O => mret 0
  | S n => b ← load8 a; v ← load_le n (a + 1); mret (b + 256 * v)
  end.
Fixpoint store_le (n : nat) (a v : Z) : M mem unit :=
  match n with
  | O => mret tt
  | S n => store8 a v;; store_le n (a + 1) (v / 256)
  end.
Definition load32 : Z -> M mem Z := load_le 4.
Definition store32 : Z -> Z -> M mem unit := store_le 4.

Section Words.
Implicit Types (m : mem).

Lemma length_le n v : length (le n v) = n.
Proof. revert v. induction n; intros; simpl; auto. Qed.

Lemma le_bytes n v : Forall byte (le n v).
Proof.
  revert v. induction n; intros v; simpl; constructor; [|done].
  unfold byte. apply Z.mod_pos_bound. lia.
Qed.

Lemma unle_le n v : 0 <= v < 256 ^ Z.of_nat n -> unle (le n v) = v.
Proof.
  revert v. induction n as [|n IH]; intros v Hv.
  - change (256 ^ Z.of_nat 0) with 1 in Hv. simpl. lia.
  - rewrite Nat2Z.inj_succ, Z.pow_succ_r in Hv by lia. cbn [unle le].
    rewrite IH; [pose proof (Z.div_mod v 256); lia|].
    split; [apply Z.div_pos; lia|]. apply Z.div_lt_upper_bound; lia.
Qed.

Lemma wp_load_le m n a bs (Q : Z -> mem -> Prop) :
  bytes_at m a bs -> length bs = n -> Q (unle bs) m -> wp (load_le n a) m Q.
Proof.
  revert a bs Q. induction n as [|n IH]; intros a [|b bs] Q Hb Hl HQ; simpl in *; try done.
  destruct Hb as [Hb0 Hb]. apply wp_bind. eapply wp_load8; [done|]. apply wp_bind.
  eapply IH; [done|lia|]. by apply wp_ret.
Qed.

Lemma wp_store_le m n a v (Q : unit -> mem -> Prop) :
  mapped m a n -> Q tt (put m a (le n v)) -> wp (store_le n a v) m Q.
Proof.
  revert m a v. induction n as [|n IH]; intros m a v Hm HQ; simpl in *; [done|].
  apply wp_bind, wp_store8; [apply Hm; lia|]. apply IH; [|done].
  apply mapped_insert. intros i Hi. apply Hm. lia.
Qed.

Lemma wp_load32 m a v (Q : Z -> mem -> Prop) :
  bytes_at m a (le 4 v) -> 0 <= v < 2 ^ 32 -> Q v m -> wp (load32 a) m Q.
Proof. intros Hb Hv HQ. eapply wp_load_le; [done|done|]. by rewrite unle_le. Qed.

Lemma wp_store32 m a v (Q : unit -> mem -> Prop) :
  mapped m a 4 -> Q tt (put m a (le 4 v)) -> wp (store32 a v) m Q.
Proof. apply wp_store_le. Qed.

(** An array of 32-bit words. *)
Definition words32 (vs : list Z) : list Z := flat_map (le 4) vs.

Lemma length_words32 vs : length (words32 vs) = (4 * length vs)%nat.
Proof. induction vs as [|v vs IH]; [done|]. simpl in *. rewrite IH. lia. Qed.

Lemma words32_app us vs : words32 (us ++ vs) = words32 us ++ words32 vs.
Proof. apply flat_map_app. Qed.

Lemma words32_snoc vs v : words32 (vs ++ [v]) = words32 vs ++ le 4 v.
Proof. by rewrite words32_app. Qed.

Lemma words32_lookup m a us v vs :
  bytes_at m a (words32 (us ++ v :: vs)) -> bytes_at m (a + 4 * Z.of_nat (length us)) (le 4 v).
Proof.
  rewrite words32_app. cbn [words32 flat_map]. rewrite !bytes_at_app. intros (_ & H & _).
  rewrite length_words32 in H. by replace (4 * Z.of_nat (length us)) with (Z.of_nat (4 * length us)) by lia.
Qed.
End Words.

(** * Theorems *)

(** [memmove] leaves at [dst] the block as it was at [src] before the call,
    however the two overlap, and changes nothing else.  The pointer it returns
    is [dst] only when it copied backwards: after a forward copy it is the end
    of the block, not the [dst] its comment promises. *)
Theorem memmove_correct m dst src bs :
  dst ≠ NULL -> src ≠ NULL -> bytes_at m src bs -> Forall byte bs -> mapped m dst (length bs) ->
  memmove dst src (length bs) m =
    Ok (if dst <? src then dst + Z.of_nat (length bs) else dst, put m dst bs).
Proof.
  intros Hd Hs Hb HB Hm.
  assert (wp (memmove dst src (length bs)) m (fun r m' =>
    r = (if dst <? src then dst + Z.of_nat (length bs) else dst) /\ m' = put m dst bs)) as W.
  { unfold memmove. rewrite !nonnull_true by done. do 2 (apply wp_bind, wp_assert; [done|]).
    destruct (Z.ltb_spec dst src); apply wp_bind.
    - apply wp_copy_up; [done..|lia|]. by apply wp_ret.
    - apply wp_copy_down; [done..|lia|]. by apply wp_ret. }
  apply wp_unfold in W as (r & m' & -> & -> & ->). done.
Qed.

(** [strlcpy] leaves at [dst] the first [size - 1] characters of the source
    as a terminated string, writes nothing outside [dst .. dst + size - 1] and
    returns the length of the source. *)
Theorem strlcpy_correct m dst src s size :
  0 < dst -> cstr m src s -> 0 < size -> mapped m dst (Z.to_nat size) ->
  dst + size <= src \/ src + Z.of_nat (length s) < dst ->
  wp (strlcpy dst src size) m (fun r m' =>
    r = Z.of_nat (length s) /\ cstr m' dst (take (Z.to_nat (size - 1)) s) /\
    forall i, ~ (dst <= i < dst + size) -> m' !! i = m !! i).
Proof.
  intros Hd Hs Hz Hm Ho. eapply wp_strlcpy; [done..|lia|done|done|].
  rewrite (proj2 (Z.ltb_lt 0 size)) by done. split_and!; [done| |].
  - split_and!; [done|apply put_bytes|]. apply Forall_take. apply Hs.
  - intros i Hi. rewrite lookup_put, decide_False; [done|].
    rewrite length_app, length_take. simpl. lia.
Qed.

Lemma find_sub_spec ns hs :
  match find_sub ns hs with
  | Some i => take (length ns) (drop i hs) = ns /\
              forall j, (j < i)%nat -> take (length ns) (drop j hs) ≠ ns
  | None => forall j, (j <= length hs)%nat -> take (length ns) (drop j hs) ≠ ns
  end.
Proof.
  induction hs as [|c hs IH]; rewrite find_sub_unfold; case_bool_decide as E.
  - split; [done|lia].
  - intros j Hj. simpl in Hj. by replace j with O by lia.
  - split; [done|lia].
  - destruct (find_sub ns hs) as [i|]; simpl.
    + destruct IH as [IH1 IH2]. split; [done|]. intros [|j] Hj; [done|]. apply IH2. lia.
    + intros [|j] Hj; [done|]. apply IH. lia.
Qed.

(** [strstr] returns the address of the first occurrence of [needle] in
    [haystack], and a null pointer exactly when there is none. *)
Theorem strstr_correct m a hs b ns :
  cstr m a hs -> cstr m b ns ->
  wp (strstr a b) m (fun r m' => m' = m /\
    ((exists i, r = a + Z.of_nat i /\ take (length ns) (drop i hs) = ns /\
        forall j, (j < i)%nat -> take (length ns) (drop j hs) ≠ ns) \/
     (r = NULL /\ forall j, (j <= length hs)%nat -> take (length ns) (drop j hs) ≠ ns))).
Proof.
  intros Hh Hn. eapply wp_strstr; [done..|]. split; [done|].
  pose proof (find_sub_spec ns hs) as H. destruct (find_sub ns hs) as [i|]; [left; by exists i|by right].
Qed.

(** "abcd" at 16, "bc" at 32 and eight free bytes at 64. *)
Definition demo_mem : mem :=
  put (put (put ∅ 16 [97; 98; 99; 100; 0]) 32 [98; 99; 0]) 64 [0; 0; 0; 0; 0; 0; 0; 0].

(** Facts about a concrete memory, by computation. *)
Ltac mem_facts :=
  match goal with
  | |- cstr _ _ _ => split; [lia|split; [vm_compute; tauto|]]; mem_facts
  | |- mapped _ _ _ => intros ? ?; apply (bool_decide_unpack _)
  | |- Forall _ _ => repeat (constructor; [unfold byte; lia|]); constructor
  | |- bytes_at _ _ _ => vm_compute; tauto
  | _ => idtac
  end.

Lemma demo_mapped m a n : forallb (fun i => bool_decide (is_Some (m !! (a + Z.of_nat i)))) (seq 0 n) = true ->
  mapped m a n.
Proof.
  rewrite forallb_forall. intros H i Hi. specialize (H (Z.to_nat (i - a))).
  rewrite bool_decide_eq_true, in_seq in H. replace (a + Z.of_nat (Z.to_nat (i - a))) with i in H by lia.
  apply H. lia.
Qed.

Lemma memmove_correct_witness :
  memmove 16 17 4 demo_mem = Ok (20, put demo_mem 16 [98; 99; 100; 0]).
Proof.
  apply (memmove_correct demo_mem 16 17 [98; 99; 100; 0]).
  - discriminate.
  - discriminate.
  - mem_facts.
  - mem_facts.
  - apply demo_mapped. vm_compute. reflexivity.
Defined.

Lemma strlcpy_correct_witness :
  wp (strlcpy 64 16 3) demo_mem (fun r m' =>
    r = 4 /\ cstr m' 64 [97; 98] /\ forall i, ~ (64 <= i < 67) -> m' !! i = demo_mem !! i).
Proof.
  apply (strlcpy_correct demo_mem 64 16 [97; 98; 99; 100] 3).
  - lia.
  - mem_facts.
  - lia.
  - apply demo_mapped. vm_compute. reflexivity.
  - right. simpl. lia.
Defined.

Lemma strstr_correct_witness :
  wp (strstr 16 32) demo_mem (fun r m' => m' = demo_mem /\
    ((exists i, r = 16 + Z.of_nat i /\ take 2 (drop i [97; 98; 99; 100]) = [98; 99] /\
        forall j, (j < i)%nat -> take 2 (drop j [97; 98; 99; 100]) ≠ [98; 99]) \/
     (r = NULL /\ forall j, (j <= 4)%nat -> take 2 (drop j [97; 98; 99; 100]) ≠ [98; 99]))).
Proof.
  apply (strstr_correct demo_mem 16 [97; 98; 99; 100] 32 [98; 99]); mem_facts.
Defined.
