(* ===== verification/Vaddr.v ===== *)
(** src/threads/vaddr.h and src/threads/pte.h: virtual addresses, page numbers
    and page table entries, all 32-bit values. *)
From stdpp Require Import base list numbers.
From Stdlib Require Import ZArith Lia.
From S2P Require Import Prelude.

Open Scope Z_scope.

(** * vaddr.h *)

Definition BITMASK (SHIFT CNT : Z) : Z := Z.shiftl (Z.shiftl 1 CNT - 1) SHIFT.
Definition PGSHIFT : Z := 0.
Definition PGBITS : Z := 12.
Definition PGSIZE : Z := Z.shiftl 1 PGBITS.
Definition PGMASK : Z := BITMASK PGSHIFT PGBITS.
Definition LOADER_PHYS_BASE : Z := 0xc0000000.
Definition PHYS_BASE : Z := LOADER_PHYS_BASE.

Definition pg_ofs (va : Z) : Z := Z.land va PGMASK.
Definition pg_no (va : Z) : Z := Z.shiftr va PGBITS.
Definition pg_round_up (va : Z) : Z := Z.land (u32 (va + PGSIZE - 1)) (u32 (Z.lnot PGMASK)).
Definition pg_round_down (va : Z) : Z := Z.land va (u32 (Z.lnot PGMASK)).
Definition is_user_vaddr (vaddr : Z) : bool := vaddr <? PHYS_BASE.
Definition is_kernel_vaddr (vaddr : Z) : bool := PHYS_BASE <=? vaddr.
Definition ptov {S} (paddr : Z) : M S Z :=
  ASSERT (paddr <? PHYS_BASE);; mret (u32 (paddr + PHYS_BASE)).
Definition vtop {S} (vaddr : Z) : M S Z :=
  ASSERT (is_kernel_vaddr vaddr);; mret (vaddr - PHYS_BASE).

(** * pte.h *)

Definition PTSHIFT : Z := PGBITS.
Definition PTBITS : Z := 10.
Definition PTMASK : Z := BITMASK PTSHIFT PTBITS.
Definition PDSHIFT : Z := PTSHIFT + PTBITS.

Definition pt_no (va : Z) : Z := Z.shiftr (Z.land va PTMASK) PTSHIFT.
Definition pd_no (va : Z) : Z := Z.shiftr va PDSHIFT.

Definition PTE_ADDR : Z := 0xfffff000.
Definition PTE_P : Z := 0x1.
Definition PTE_W : Z := 0x2.
Definition PTE_U : Z := 0x4.
Definition PTE_A : Z := 0x20.
Definition PTE_D : Z := 0x40.

(** A C condition on a masked word. *)
Definition flag (word mask : Z) : bool := negb (Z.land word mask =? 0).

Definition pde_create {S} (pt : Z) : M S Z :=
  ASSERT (pg_ofs pt =? 0);;
  p ← vtop pt;
  mret (Z.lor (Z.lor (Z.lor p PTE_U) PTE_P) PTE_W).

Definition pde_get_pt {S} (pde : Z) : M S Z :=
  ASSERT (flag pde PTE_P);;
  ptov (Z.land pde PTE_ADDR).

Definition pte_create_kernel {S} (page : Z) (writable : bool) : M S Z :=
  ASSERT (pg_ofs page =? 0);;
  p ← vtop page;
  mret (Z.lor (Z.lor p PTE_P) (if writable then PTE_W else 0)).

Definition pte_create_user {S} (page : Z) (writable : bool) : M S Z :=
  e ← pte_create_kernel page writable; mret (Z.lor e PTE_U).

Definition pte_get_page {S} (pte : Z) : M S Z := ptov (Z.land pte PTE_ADDR).

(** * Arithmetic *)

(** The page constants as numbers, for [lia]. *)
Ltac unpage := change PHYS_BASE with 3221225472 in *; change PGSIZE with 4096 in *.

Section Arithmetic.

Lemma PGSIZE_val : PGSIZE = 4096. Proof. done. Qed.
Lemma PHYS_BASE_val : PHYS_BASE = 3221225472. Proof. done. Qed.

Lemma pg_ofs_mod va : pg_ofs va = va mod 4096.
Proof. unfold pg_ofs. change PGMASK with (Z.ones 12). by rewrite Z.land_ones. Qed.

Lemma pg_no_div va : pg_no va = va / 4096.
Proof. unfold pg_no. by rewrite Z.shiftr_div_pow2. Qed.

Lemma pd_no_div va : pd_no va = va / 2 ^ 22.
Proof. unfold pd_no. by rewrite Z.shiftr_div_pow2. Qed.

Lemma pt_no_div va : pt_no va = va / 4096 mod 1024.
Proof.
  unfold pt_no. change PTMASK with (Z.shiftl (Z.ones 10) 12).
  rewrite Z.shiftr_land, Z.shiftr_shiftl_l by done.
  change (Z.shiftl (Z.ones 10) (12 - PTSHIFT)) with (Z.ones 10).
  rewrite Z.land_ones by done. by rewrite Z.shiftr_div_pow2.
Qed.

(** The low twelve bits of a masked word are zero. *)
Lemma land_not_pgmask x : 0 <= x < 2 ^ 32 -> Z.land x 0xfffff000 = x / 4096 * 4096.
Proof.
  intros Hx. change 0xfffff000 with (Z.land (Z.ones 32) (Z.lnot (Z.ones 12))).
  rewrite Z.land_assoc, Z.land_ones, Z.mod_small by lia.
  rewrite <-Z.ldiff_land, Z.ldiff_ones_r by lia. by rewrite Z.shiftl_mul_pow2, Z.shiftr_div_pow2 by lia.
Qed.

Lemma pg_round_down_div va : 0 <= va < 2 ^ 32 -> pg_round_down va = va / 4096 * 4096.
Proof. apply land_not_pgmask. Qed.

Lemma pg_round_up_div va :
  0 <= va <= 2 ^ 32 - 4096 -> pg_round_up va = (va + 4095) / 4096 * 4096.
Proof.
  intros Hv. unfold pg_round_up, u32. change PGSIZE with 4096.
  rewrite (Z.mod_small (va + 4096 - 1)) by lia. replace (va + 4096 - 1) with (va + 4095) by lia.
  apply land_not_pgmask. lia.
Qed.

(** Flags below bit 12 and an aligned address share no bits. *)
Lemma land_aligned p f : p mod 4096 = 0 -> 0 <= f < 4096 -> Z.land p f = 0.
Proof.
  intros Hp Hf. apply Z.bits_inj'. intros n Hn. rewrite Z.land_spec, Z.testbit_0_l.
  destruct (Z.lt_ge_cases n 12).
  - rewrite <-(Z.mod_pow2_bits_low p 12) by lia. change (2 ^ 12) with 4096. by rewrite Hp, Z.testbit_0_l.
  - rewrite <-(Z.mod_small f 4096) by lia. change 4096 with (2 ^ 12).
    by rewrite (Z.mod_pow2_bits_high f 12), andb_false_r by lia.
Qed.

Lemma lor_flags p f : p mod 4096 = 0 -> 0 <= f < 4096 -> Z.lor p f = p + f.
Proof.
  intros Hp Hf. pose proof (land_aligned p f Hp Hf) as H.
  rewrite <-Z.lxor_lor by done. symmetry. by apply Z.add_nocarry_lxor.
Qed.

(** Reading a flag of an entry [p + f]. *)
Lemma flag_entry p f mask :
  p mod 4096 = 0 -> 0 <= f < 4096 -> 0 <= mask < 4096 -> flag (p + f) mask = flag f mask.
Proof.
  intros Hp Hf Hm. unfold flag. rewrite <-lor_flags by done. rewrite Z.land_lor_distr_l.
  by rewrite (land_aligned p mask) by done.
Qed.

Lemma entry_addr p f :
  0 <= p < 2 ^ 32 -> p mod 4096 = 0 -> 0 <= f < 4096 -> Z.land (p + f) PTE_ADDR = p.
Proof.
  intros Hp Ha Hf. unfold PTE_ADDR. rewrite land_not_pgmask.
  - Z.to_euclidean_division_equations. lia.
  - Z.to_euclidean_division_equations. lia.
Qed.
End Arithmetic.

(** * Entries *)

Section Entries.
Context {S : Type}.
Implicit Types (s : S).

(** A page of kernel memory: page-aligned, inside the kernel's part. *)
Definition kernel_page (page : Z) : Prop :=
  PHYS_BASE <= page < 2 ^ 32 /\ page mod 4096 = 0.

Lemma kernel_page_phys page :
  kernel_page page -> 0 <= page - PHYS_BASE < PHYS_BASE /\ (page - PHYS_BASE) mod 4096 = 0.
Proof.
  unfold kernel_page. unpage. intros [H1 H2]. split; [lia|].
  rewrite Zminus_mod, H2. done.
Qed.

(** The words that [pde_create] and [pte_create_user] build. *)
Definition pde_of (pt : Z) : Z := (pt - PHYS_BASE) + 7.
Definition pte_of (page : Z) (writable : bool) : Z :=
  (page - PHYS_BASE) + (if writable then 7 else 5).

Lemma wp_pde_create pt s (Q : Z -> S -> Prop) :
  kernel_page pt -> Q (pde_of pt) s -> wp (pde_create pt) s Q.
Proof.
  intros Hk HQ. destruct (kernel_page_phys _ Hk) as [Hp Ha]. destruct Hk as [Hk1 Hk2].
  apply wp_bind, wp_assert; [rewrite pg_ofs_mod; by apply Z.eqb_eq|].
  apply wp_bind, wp_bind, wp_assert; [apply Z.leb_le; lia|]. apply wp_ret, wp_ret.
  rewrite <-!Z.lor_assoc. change (Z.lor PTE_U (Z.lor PTE_P PTE_W)) with 7.
  by rewrite lor_flags by (try done; lia).
Qed.

Lemma wp_pte_create_user page w s (Q : Z -> S -> Prop) :
  kernel_page page -> Q (pte_of page w) s -> wp (pte_create_user page w) s Q.
Proof.
  intros Hk HQ. destruct (kernel_page_phys _ Hk) as [Hp Ha]. destruct Hk as [Hk1 Hk2].
  apply wp_bind, wp_bind, wp_assert; [rewrite pg_ofs_mod; by apply Z.eqb_eq|].
  apply wp_bind, wp_bind, wp_assert; [apply Z.leb_le; lia|]. apply wp_ret, wp_ret, wp_ret.
  rewrite <-!Z.lor_assoc.
  assert (Z.lor PTE_P (Z.lor (if w then PTE_W else 0) PTE_U) = if w then 7 else 5) as ->
    by (by destruct w).
  rewrite lor_flags by (try done; destruct w; lia). done.
Qed.

Lemma wp_ptov p s (Q : Z -> S -> Prop) :
  0 <= p -> p + PHYS_BASE < 2 ^ 32 -> Q (p + PHYS_BASE) s -> wp (ptov p) s Q.
Proof.
  intros H0 H1 HQ. unpage. apply wp_bind, wp_assert; [apply Z.ltb_lt; unpage; lia|]. apply wp_ret.
  unfold u32. by rewrite Z.mod_small by (unpage; lia).
Qed.

Lemma wp_pde_get_pt pt s (Q : Z -> S -> Prop) :
  kernel_page pt -> Q pt s -> wp (pde_get_pt (pde_of pt)) s Q.
Proof.
  intros Hk HQ. destruct (kernel_page_phys _ Hk) as [Hp Ha]. destruct Hk as [Hk1 Hk2].
  unfold pde_of. apply wp_bind, wp_assert; [by rewrite flag_entry|].
  rewrite entry_addr by (unpage; lia). apply wp_ptov; [lia..|].
  by replace (pt - PHYS_BASE + PHYS_BASE) with pt by lia.
Qed.

Lemma wp_pte_get_page page w s (Q : Z -> S -> Prop) :
  kernel_page page -> Q page s -> wp (pte_get_page (pte_of page w)) s Q.
Proof.
  intros Hk HQ. destruct (kernel_page_phys _ Hk) as [Hp Ha]. destruct Hk as [Hk1 Hk2].
  unfold pte_of, pte_get_page. rewrite entry_addr by (destruct w; unpage; lia). apply wp_ptov; [lia..|].
  by replace (page - PHYS_BASE + PHYS_BASE) with page by lia.
Qed.

Lemma pte_flags page w mask :
  kernel_page page -> 0 <= mask < 4096 ->
  flag (pte_of page w) mask = flag (if w then 7 else 5) mask.
Proof.
  intros Hk Hm. destruct (kernel_page_phys _ Hk) as [Hp Ha].
  unfold pte_of. by rewrite flag_entry by (try done; destruct w; lia).
Qed.
End Entries.
