(* ===== verification/Args.v ===== *)
(** Command lines, from src/userprog/process.c: [parse_command_string] cuts a
    command into words in place, and [setup_stack] lays the words out on the
    initial stack of a user program as the System V calling convention wants
    them.  Both work on the byte memory of [Strings]. *)
From stdpp Require Import base list numbers gmap fin_maps.
From Stdlib Require Import ZArith Lia.
From S2P Require Import Prelude Strings Vaddr.

Open Scope Z_scope.

(** * Operations *)

Definition MAX_ARGS_COUNT : Z := 100.

Section Operations.
(** The address of the string literal " " of [parse_command_string]. *)
Context (sp : Z).

Definition parse_command_string (command argv : Z) (set_first_only : bool) : M mem Z :=
  '(tok, save) ← strtok_r command sp NULL;
  store32 (argv + 4 * 0) tok;;
  fuel ← mem_fuel;
  loop fuel (fun '(i, save) =>
    v ← load32 (argv + 4 * i);
    if v =? NULL then mret (inr i)
    else
      '(tok, save) ← strtok_r NULL sp save;
      store32 (argv + 4 * (i + 1)) tok;;
      mret (if set_first_only then inr (i + 1) else inl (i + 1, save))) (0, save).

(** The first [while] of [setup_stack]: the words, last one first, from the top
    of the stack down.  [p_byte] is [unioned_esp.p_byte]; the argument pointers
    go to the array [esp_arg_ptrs]. *)
Definition push_strings (argv esp_arg_ptrs p_byte argc : Z) : M mem (Z * Z) :=
  loop (S (Z.to_nat argc)) (fun '(argc_cpy, total_args_length_count, p_byte) =>
    if 0 <=? argc_cpy then
      arg ← load32 (argv + 4 * argc_cpy);
      len ← strlen arg;
      let arg_length := len + 1 in
      let total_args_length_count := total_args_length_count + arg_length in
      let p_byte := p_byte - arg_length in
      memcpy p_byte arg (Z.to_nat arg_length);;
      store32 (esp_arg_ptrs + 4 * argc_cpy) p_byte;;
      mret (inl (argc_cpy - 1, total_args_length_count, p_byte))
    else mret (inr (total_args_length_count, p_byte))) (argc - 1, 0, p_byte).

(** The second [while]: the argument pointers, last one first. *)
Definition push_pointers (esp_arg_ptrs p_word argc : Z) : M mem Z :=
  loop (S (Z.to_nat argc)) (fun '(argc_cpy, p_word) =>
    if 0 <=? argc_cpy then
      v ← load32 (esp_arg_ptrs + 4 * argc_cpy);
      store32 p_word v;;
      mret (inl (argc_cpy - 1, p_word - 4))
    else mret (inr p_word)) (argc - 1, p_word).

(** The branch of [setup_stack] taken when the page is installed: the final
    value of [*esp].  [argv] and [esp_arg_ptrs] are its two local arrays. *)
Definition push_args (argv esp_arg_ptrs file_name : Z) : M mem Z :=
  let p_byte := PHYS_BASE in
  argc ← parse_command_string file_name argv false;
  '(total_args_length_count, p_byte) ← push_strings argv esp_arg_ptrs p_byte argc;
  let char_per_word := 4 in
  let remainder := Z.rem total_args_length_count char_per_word in
  let p_byte := if negb (remainder =? 0) then p_byte - (char_per_word - remainder) else p_byte in
  let p_word := p_byte - 4 in
  store32 p_word NULL;;
  let p_word := p_word - 4 in
  p_word ← push_pointers esp_arg_ptrs p_word argc;
  let temp := p_word + 4 in
  store32 p_word temp;;
  let p_word := p_word - 4 in
  store32 p_word argc;;
  let p_word := p_word - 4 in
  store32 p_word NULL;;
  mret p_word.

(** [setup_stack] with the calls it makes: [palloc_get_page (PAL_USER |
    PAL_ZERO)], [install_page] and [palloc_free_page]; [on_page] runs the stores
    to the installed page.  The result is the return value and, on success, the
    new [*esp]. *)
Definition setup_stack {S} (palloc_get_page : M S Z) (install_page : Z -> Z -> bool -> M S bool)
    (palloc_free_page : Z -> M S unit) (on_page : Z -> M mem Z -> M S Z) (argv esp_arg_ptrs file_name : Z) : M S (bool * option Z) :=
  kpage ← palloc_get_page;
  if nonnull kpage then
    success ← install_page (PHYS_BASE - PGSIZE) kpage true;
    if success : bool then
      esp ← on_page kpage (push_args argv esp_arg_ptrs file_name);
      mret (true, Some esp)
    else palloc_free_page kpage;; mret (false, None)
  else mret (false, None).
End Operations.

(** * Words of a command *)

(** The maximal runs of characters that are not in [ds]; [cur] is the run read
    so far. *)
Fixpoint words_from (ds cur s : list Z) : list (list Z) :=
  match s with
  | [] => match cur with [] => [] | _ => [cur] end
  | c :: s =>
    if in_str ds c then match cur with [] => words_from ds [] s | _ => cur :: words_from ds [] s end
    else words_from ds (cur ++ [c]) s
  end.
Definition words (ds s : list Z) : list (list Z) := words_from ds [] s.

Section WordLemmas.
Implicit Types (m : mem) (ds s t w : list Z).

Lemma words_skip ds p t : Forall (fun c => in_str ds c = true) p -> words ds (p ++ t) = words ds t.
Proof. unfold words. induction 1 as [|c p Hc _ IH]; simpl; [done|]. by rewrite Hc. Qed.

Lemma words_from_word ds cur w t :
  Forall (fun c => negb (in_str ds c) = true) w ->
  words_from ds cur (w ++ t) = words_from ds (cur ++ w) t.
Proof.
  intros H. revert cur. induction H as [|c w Hc _ IH]; intros cur; simpl; [by rewrite app_nil_r|].
  apply negb_true_iff in Hc. rewrite Hc, IH. by rewrite <-app_assoc.
Qed.

Lemma words_word ds w t :
  w ≠ [] -> Forall (fun c => negb (in_str ds c) = true) w ->
  match t with [] => True | c :: _ => in_str ds c = true end ->
  words ds (w ++ t) = w :: words ds (tail t).
Proof.
  intros Hw Hf Ht. unfold words. rewrite words_from_word by done. simpl.
  destruct w as [|x w]; [done|]. destruct t as [|c t]; simpl; [done|]. by rewrite Ht.
Qed.

Lemma words_Forall (P : Z -> Prop) ds s : Forall P s -> Forall (Forall P) (words ds s).
Proof.
  unfold words. intros Hs. assert (Forall P []) as Hc by constructor. revert Hc. generalize (@nil Z) as cur.
  induction Hs as [|c s Hc _ IH]; intros cur Hcur; simpl; [destruct cur; [constructor|constructor; [done|constructor]]|].
  destruct (in_str ds c); [|apply IH, Forall_app; split; [done|by constructor]].
  destruct cur; [by apply IH|]. constructor; [done|]. by apply IH.
Qed.

(** A null byte after [w] ends the string there. *)
Lemma cstr_terminate m a w t e :
  cstr m a (w ++ t) -> e = a + Z.of_nat (length w) -> cstr (<[e := 0]> m) a w.
Proof.
  intros (Ha & Hb & Hf) ->. split_and!; [done| |by apply Forall_app in Hf as [? _]].
  rewrite <-app_assoc in Hb. apply bytes_at_app in Hb as [Hb _]. apply bytes_at_app. split.
  - eapply bytes_at_eq; [exact Hb|]. intros i Hi. by rewrite lookup_insert_ne by lia.
  - simpl. by rewrite lookup_insert_eq.
Qed.

(** One call of [strtok_r]: nothing but delimiters is left, or the next word
    with its terminator in place and the rest of the string at [save]. *)
Lemma tok_step_spec ds m a s :
  cstr m a s ->
  match words ds s with
  | [] => exists x, tok_step ds m a s = ((NULL, x), m)
  | w :: ws => exists p save rest m',
      tok_step ds m a s = ((p, save), m') /\ ws = words ds rest /\
      a <= p /\ p + Z.of_nat (length w) <= save /\ w ≠ [] /\
      save + Z.of_nat (length rest) <= a + Z.of_nat (length s) /\
      (length rest < length s)%nat /\
      cstr m' p w /\ cstr m' save rest /\ dom m' = dom m /\
      (forall i, ~ (a < i <= a + Z.of_nat (length s)) -> m' !! i = m !! i)
  end.
Proof.
  intros Hs. unfold tok_step.
  destruct (span_split (in_str ds) s) as (E1 & F1 & G1). set (k := span (in_str ds) s) in *.
  assert (k <= length s)%nat as Hk by apply span_length.
  assert (words ds s = words ds (drop k s)) as -> by (rewrite E1 at 1; by apply words_skip).
  destruct (drop k s) as [|c r] eqn:Er; [simpl; by eexists|]. rewrite <-Er in *.
  assert (cstr m (a + Z.of_nat k) (drop k s)) as Hr.
  { rewrite E1 in Hs. apply cstr_app in Hs. by rewrite length_take_le in Hs by lia. }
  set (f := fun c => negb (in_str ds c)). destruct (span_split f (drop k s)) as (E2 & F2 & G2).
  assert (span f (drop k s) <= length (drop k s))%nat as Hw by apply span_length.
  set (n := span f (drop k s)) in *.
  assert (take n (drop k s) ≠ []) as Hne.
  { subst n. rewrite Er. simpl. unfold f. by rewrite G1. }
  set (w := take n (drop k s)) in *. set (t := drop n (drop k s)) in *.
  assert (length w = n) as Hlw by (apply length_take_le; lia).
  assert (length s = k + n + length t)%nat as Hls.
  { rewrite E1, length_app, E2, length_app, length_take_le by lia. lia. }
  assert (1 <= n)%nat as Hn by (destruct w; simpl in *; [done|lia]).
  assert (words ds (drop k s) = w :: words ds (tail t)) as ->.
  { rewrite E2. apply words_word; [done|done|]. destruct t as [|x t']; [done|].
    unfold f in G2. by apply negb_false_iff in G2. }
  exists (a + Z.of_nat k). destruct t as [|x t']; simpl.
  - exists (a + Z.of_nat k + Z.of_nat n), [], m. rewrite E2, app_nil_r in Hr. simpl in *.
    split_and!; try done; try lia. rewrite <-(app_nil_r w) in Hr. apply cstr_app in Hr.
    by rewrite Hlw in Hr.
  - exists (a + Z.of_nat k + Z.of_nat n + 1), t', (<[a + Z.of_nat k + Z.of_nat n := 0]> m).
    simpl in Hls. rewrite E2 in Hr. pose proof (cstr_app _ _ _ _ Hr) as Ht. rewrite Hlw in Ht.
    split_and!; try done; try lia.
    + by apply cstr_terminate with (t := x :: t'); rewrite ?Hlw.
    + apply cstr_cons in Ht as (_ & _ & _ & _ & Ht). eapply cstr_frame; [exact Ht|].
      intros i Hi. by rewrite lookup_insert_ne by lia.
    + apply dom_insert_lookup_L. apply cstr_cons in Ht as (_ & -> & _). eauto.
    + intros i Hi. by rewrite lookup_insert_ne by lia.
Qed.
End WordLemmas.

(** * Parsing a command *)

Section Parse.
Context (sp : Z) (m : mem) (command argv : Z) (s : list Z).

(** The delimiters of [parse_command_string]. *)
Definition blank : list Z := [32].
Abbreviation n := (length (words blank s)).

(** The command and the literal are strings, and the array [argv] has room for
    one pointer per word and the null pointer after them. *)
Record parse_pre : Prop := {
  pp_cmd : cstr m command s;
  pp_sp : cstr m sp blank;
  pp_argv : mapped m argv (4 * S n);
  pp_pos : 0 < argv;
  pp_fits : command + Z.of_nat (length s) < 2 ^ 32;
  pp_argv_cmd : argv + 4 * Z.of_nat (S n) <= command \/ command + Z.of_nat (length s) < argv;
  pp_sp_cmd : sp + 1 < command \/ command + Z.of_nat (length s) < sp;
  pp_sp_argv : sp + 1 < argv \/ argv + 4 * Z.of_nat (S n) <= sp
}.

(** The words found so far are [es], with their addresses; [argv] starts with
    [vs]; what is left of the command is [rest], at [a]. *)
Record parse_inv (es : list (Z * list Z)) (vs : list Z) (a : Z) (rest : list Z) (m' : mem) : Prop := {
  pi_dom : dom m' = dom m;
  pi_rest : cstr m' a rest;
  pi_lo : command <= a;
  pi_hi : a + Z.of_nat (length rest) <= command + Z.of_nat (length s);
  pi_words : words blank s = map snd es ++ words blank rest;
  pi_es : Forall (fun e => cstr m' e.1 e.2 /\ command <= e.1 /\
                           e.1 + Z.of_nat (length e.2) <= a) es;
  pi_argv : bytes_at m' argv (words32 vs);
  pi_frame : forall i, ~ (command <= i <= command + Z.of_nat (length s)) ->
               ~ (argv <= i < argv + 4 * Z.of_nat (S n)) -> m' !! i = m !! i
}.

Hypothesis Hpre : parse_pre.

Lemma put_snoc m' a bs cs :
  bytes_at m' a bs -> bytes_at (put m' (a + Z.of_nat (length bs)) cs) a (bs ++ cs).
Proof.
  intros H. apply bytes_at_app. split; [|apply put_bytes]. apply put_frame; [done|lia].
Qed.

(** Writing the next element of [argv]. *)
Lemma parse_inv_store es vs a rest m' v :
  parse_inv es vs a rest m' -> (length vs < S n)%nat ->
  parse_inv es (vs ++ [v]) a rest (put m' (argv + 4 * Z.of_nat (length vs)) (le 4 v)).
Proof.
  intros [Hd Hr Hlo Hhi Hw Hes Hargv Hfr] Hlen. destruct Hpre as [_ _ Hm _ _ Hac _ _].
  assert (forall i, command <= i <= command + Z.of_nat (length s) ->
    put m' (argv + 4 * Z.of_nat (length vs)) (le 4 v) !! i = m' !! i) as Hput.
  { intros i Hi. rewrite lookup_put, length_le, decide_False by lia. done. }
  split; [|by eapply cstr_frame; [exact Hr|]; intros; apply Hput; lia|done..| | |].
  - rewrite <-Hd. apply dom_put. apply (mapped_dom m); [done|]. intros i Hi.
    rewrite length_le in Hi. apply Hm. lia.
  - eapply Forall_impl; [exact Hes|]. intros [p w] (Hc & H1 & H2). split_and!; [|done..].
    eapply cstr_frame; [exact Hc|]. intros; simpl in *. apply Hput. lia.
  - rewrite words32_snoc. replace (4 * Z.of_nat (length vs)) with (Z.of_nat (length (words32 vs)))
      by (rewrite length_words32; lia). by apply put_snoc.
  - intros i H1 H2. rewrite lookup_put, length_le, decide_False by lia. by apply Hfr.
Qed.

Lemma parse_inv_sp es vs a rest m' : parse_inv es vs a rest m' -> cstr m' sp blank.
Proof.
  intros H. destruct Hpre as [_ Hsp _ _ _ _ Hsc Hsa]. eapply cstr_frame; [exact Hsp|].
  intros i Hi. simpl in Hi. apply H; lia.
Qed.

(** One call of [strtok_r] and the store of its result. *)
Lemma wp_parse_tok {B} es a rest m' s0 save0 (k : Z -> Z -> M mem B) (Q : B -> mem -> Prop) :
  parse_inv es (map fst es) a rest m' -> a = (if s0 =? NULL then save0 else s0) ->
  (forall x m'', words blank rest = [] -> parse_inv es (map fst es ++ [NULL]) a rest m'' ->
     wp (k NULL x) m'' Q) ->
  (forall p w save rest' m'', words blank rest = w :: words blank rest' ->
     (length rest' < length rest)%nat ->
     parse_inv (es ++ [(p, w)]) (map fst (es ++ [(p, w)])) save rest' m'' -> wp (k p save) m'' Q) ->
  wp (ts ← strtok_r s0 sp save0;
      let '(tok, save) := ts in store32 (argv + 4 * Z.of_nat (length es)) tok;; k tok save) m' Q.
Proof.
  intros Hi Ha Hnull Htok. apply wp_bind.
  pose proof (tok_step_spec blank m' a rest (pi_rest _ _ _ _ _ Hi)) as Ht.
  eapply wp_strtok_r; [done|by apply Hi|by eapply parse_inv_sp|].
  assert (length es <= n)%nat as Hn.
  { rewrite (pi_words _ _ _ _ _ Hi), length_app, length_map. lia. }
  assert (mapped m' (argv + 4 * Z.of_nat (length es)) 4) as Hm.
  { apply (mapped_dom m); [apply Hi|]. intros i Hi'. apply (pp_argv Hpre). lia. }
  destruct (words blank rest) as [|w ws] eqn:Ew.
  - destruct Ht as [x ->]. simpl. apply wp_bind, wp_store32; [done|]. apply Hnull; [done|].
    rewrite <-(length_map fst es). apply parse_inv_store; [done|]. rewrite length_map. lia.
  - destruct Ht as (p & save & rest' & m'' & -> & -> & Hp & Hsv & Hw & Hr' & Hlen & Hc1 & Hc2 & Hd & Hfr).
    simpl. apply wp_bind, wp_store32; [by apply (mapped_dom m')|].
    apply (Htok p w save rest'); [done|done|]. rewrite map_app. simpl. rewrite <-(length_map fst es).
    apply parse_inv_store; [|rewrite length_map; lia].
    destruct Hi as [Hd0 Hr Hlo Hhi Hws Hes Hargv Hfr0]. pose proof (pp_argv_cmd Hpre).
    split; [by rewrite Hd|done|lia|lia| | | |].
    + rewrite Hws, Ew, map_app, <-app_assoc. done.
    + apply Forall_app. split; [|constructor; [simpl; split_and!; [done|lia|lia]|done]].
      eapply Forall_impl; [exact Hes|]. intros [q u] (Hq & H1 & H2). simpl in *.
      split_and!; [|done|lia]. eapply cstr_frame; [exact Hq|]. intros i Hi. apply Hfr. lia.
    + eapply bytes_at_eq; [exact Hargv|]. intros i Hi. rewrite length_words32, length_map in Hi.
      apply Hfr. lia.
    + intros i H1 H2. rewrite Hfr by lia. by apply Hfr0.
Qed.

Lemma parse_inv_init : parse_inv [] [] command s m.
Proof. by split; try done; try lia; apply Hpre. Qed.

(** After [parse_command_string (command, argv, false)]. *)
Definition parsed (argc : Z) (m' : mem) : Prop :=
  argc = Z.of_nat n /\
  exists es, map snd es = words blank s /\ bytes_at m' argv (words32 (map fst es ++ [NULL])) /\
    Forall (fun e => cstr m' e.1 e.2 /\ command <= e.1 /\
                     e.1 + Z.of_nat (length e.2) <= command + Z.of_nat (length s)) es /\
    dom m' = dom m /\
    (forall i, ~ (command <= i <= command + Z.of_nat (length s)) ->
       ~ (argv <= i < argv + 4 * Z.of_nat (S n)) -> m' !! i = m !! i).

Lemma parse_inv_done es a rest m' :
  parse_inv es (map fst es ++ [NULL]) a rest m' -> words blank rest = [] ->
  parsed (Z.of_nat (length es)) m'.
Proof.
  intros [Hd Hr Hlo Hhi Hw Hes Hargv Hfr] He. rewrite He, app_nil_r in Hw.
  split; [by rewrite Hw, length_map|]. exists es. split_and!; [done|done| |done|done].
  eapply Forall_impl; [exact Hes|]. intros [p w] (H1 & H2 & H3). split_and!; [done|done|lia].
Qed.

(** The head of the loop of [parse_command_string]: [argv[i]] is the word found
    last, or the null pointer after the last word. *)
Definition parse_head (k : nat) (st : Z * Z) (m' : mem) : Prop :=
  exists es a rest,
    (k = O /\ st.1 = Z.of_nat (length es) /\ words blank rest = [] /\
     parse_inv es (map fst es ++ [NULL]) a rest m') \/
    (k = S (length rest) /\ st.1 + 1 = Z.of_nat (length es) /\ st.2 = a /\ es ≠ [] /\
     parse_inv es (map fst es) a rest m').

Lemma parse_head_argv k st m' :
  parse_head k st m' ->
  exists v, bytes_at m' (argv + 4 * st.1) (le 4 v) /\ 0 <= v < 2 ^ 32 /\
    (v = NULL <-> k = O).
Proof.
  intros (es & a & rest & [(-> & Hi & _ & H)|(-> & Hi & _ & Hne & H)]).
  - exists NULL. split; [|done]. rewrite Hi, <-(length_map fst es).
    eapply (words32_lookup m' argv (map fst es) NULL []), H.
  - destruct (exists_last Hne) as (es' & [p w] & ->). pose proof (pi_es _ _ _ _ _ H) as Hes.
    apply Forall_app in Hes as [_ Hes]. apply Forall_cons in Hes as [(Hc & Hlo & Hhi) _]. simpl in *.
    rewrite length_app in Hi. simpl in Hi. exists p.
    pose proof (pi_argv _ _ _ _ _ H) as Hargv. rewrite map_app in Hargv.
    apply words32_lookup in Hargv. rewrite length_map in Hargv.
    replace st.1 with (Z.of_nat (length es')) by lia.
    pose proof (cstr_pos _ _ _ Hc). pose proof (pp_fits Hpre). pose proof (pi_hi _ _ _ _ _ H).
    split; [exact Hargv|]. unfold NULL. split; [lia|]. split; lia.
Qed.

Lemma wp_parse_loop k st fuel m' (Q : Z -> mem -> Prop) :
  parse_head k st m' -> (k < fuel)%nat -> (forall argc m', parsed argc m' -> Q argc m') ->
  wp (loop fuel (fun '(i, save) =>
    v ← load32 (argv + 4 * i);
    if v =? NULL then mret (inr i)
    else
      '(tok, save) ← strtok_r NULL sp save;
      store32 (argv + 4 * (i + 1)) tok;;
      mret (if false then inr (i + 1) else inl (i + 1, save))) st) m' Q.
Proof.
  intros Hh Hf HQ. eapply (wp_loop parse_head); [|exact Hh|done]. clear Hh Hf k st m'.
  intros k [i save] m' Hh. destruct (parse_head_argv _ _ _ Hh) as (v & Hv & Hb & Hk).
  apply wp_bind. eapply wp_load32; [done|done|].
  destruct Hh as (es & a & rest & [(-> & Hi & Hw & H)|(-> & Hi & Ha & Hne & H)]); simpl in *.
  { rewrite (proj2 Hk) by done. apply wp_ret, HQ. rewrite Hi. by eapply parse_inv_done. }
  rewrite (proj2 (Z.eqb_neq v NULL)) by (intros E; by apply Hk in E). rewrite Hi.
  apply (wp_parse_tok es a rest m' NULL save (fun tok save => mret (inl (Z.of_nat (length es), save))));
    [done|done| |].
  - intros x m'' Hw H'. apply wp_ret. exists O. split; [lia|]. exists es, a, rest. by left.
  - intros p w save' rest' m'' Hw Hlen H'. apply wp_ret. exists (S (length rest')). split; [lia|].
    exists (es ++ [(p, w)]), save', rest'. right. rewrite length_app. simpl.
    split_and!; [done|lia|done| |done]. by destruct es.
Qed.

Lemma wp_parse_command_string (Q : Z -> mem -> Prop) :
  (forall argc m', parsed argc m' -> Q argc m') ->
  wp (parse_command_string sp command argv false) m Q.
Proof.
  intros HQ. unfold parse_command_string. pose proof parse_inv_init as Hi.
  apply (wp_parse_tok [] command s m command NULL
    (fun tok save => fuel ← mem_fuel; loop fuel _ (0, save))); [done| | |].
  - pose proof (cstr_pos _ _ _ (pp_cmd Hpre)). unfold NULL. destruct (Z.eqb_spec command 0); lia.
  - intros x m' Hw H. apply wp_bind, wp_mem_fuel. eapply (wp_parse_loop O); [|lia|done].
    exists [], command, s. by left.
  - intros p w save rest m' Hw Hlen H. apply wp_bind, wp_mem_fuel.
    eapply (wp_parse_loop (S (length rest))); [|pose proof (cstr_size _ _ _ (pi_rest _ _ _ _ _ H)); lia|done].
    exists [(p, w)], save, rest. by right.
Qed.
End Parse.

(** * The initial stack *)

(** The argument strings one after the other, and their addresses when the
    first is at [p]. *)
Definition arg_strings (ws : list (list Z)) : list Z := flat_map (fun w => w ++ [0]) ws.
Fixpoint arg_addrs (p : Z) (ws : list (list Z)) : list Z :=
  match ws with
  | [] => []
  | w :: ws => p :: arg_addrs (p + Z.of_nat (length w) + 1) ws
  end.

Lemma arg_strings_cons w ws : arg_strings (w :: ws) = (w ++ [0]) ++ arg_strings ws.
Proof. done. Qed.

Lemma length_arg_strings w ws :
  Z.of_nat (length (arg_strings (w :: ws))) = Z.of_nat (length w) + 1 + Z.of_nat (length (arg_strings ws)).
Proof. rewrite arg_strings_cons, !length_app. simpl. lia. Qed.

Lemma length_arg_addrs p ws : length (arg_addrs p ws) = length ws.
Proof. revert p. induction ws; intros; simpl; auto. Qed.

Lemma arg_addrs_bound p ws :
  Forall (fun a => p <= a < p + Z.of_nat (length (arg_strings ws))) (arg_addrs p ws).
Proof.
  revert p. induction ws as [|w ws IH]; intros p; cbn [arg_addrs]; [constructor|].
  rewrite length_arg_strings. constructor; [lia|].
  eapply Forall_impl; [apply IH|]. simpl. intros. lia.
Qed.

Section PushStrings.
(** [m] is the memory after parsing: [es] are the words and their addresses. *)
Context (m : mem) (argv eap : Z) (es : list (Z * list Z)).
Abbreviation ws := (map snd es).
Abbreviation total := (Z.of_nat (length (arg_strings ws))).

Record push_pre : Prop := {
  ps_argv : bytes_at m argv (words32 (map fst es ++ [NULL]));
  ps_es : Forall (fun e => cstr m e.1 e.2 /\ PHYS_BASE <= e.1 /\ e.1 < 2 ^ 32 /\
    (e.1 + Z.of_nat (length e.2) < eap \/ eap + 4 * Z.of_nat (length es) <= e.1)) es;
  ps_eap : mapped m eap (4 * length es);
  ps_kernel : PHYS_BASE <= argv /\ PHYS_BASE <= eap;
  ps_apart : argv + 4 * Z.of_nat (S (length es)) <= eap \/ eap + 4 * Z.of_nat (length es) <= argv;
  ps_page : mapped m (PHYS_BASE - PGSIZE) (Z.to_nat PGSIZE);
  ps_room : total <= PGSIZE
}.
Hypothesis Hpre : push_pre.

(** The strings of [es2] and their addresses are in place, from [p] up. *)
Record pushed (es1 es2 : list (Z * list Z)) (p : Z) (m' : mem) : Prop := {
  pu_es : es = es1 ++ es2;
  pu_p : p = PHYS_BASE - Z.of_nat (length (arg_strings (map snd es2)));
  pu_strings : bytes_at m' p (arg_strings (map snd es2));
  pu_addrs : bytes_at m' (eap + 4 * Z.of_nat (length es1)) (words32 (arg_addrs p (map snd es2)));
  pu_dom : dom m' = dom m;
  pu_frame : forall i, ~ (p <= i < PHYS_BASE) ->
    ~ (eap <= i < eap + 4 * Z.of_nat (length es)) -> m' !! i = m !! i
}.

Lemma arg_strings_le es1 es2 :
  es = es1 ++ es2 -> Z.of_nat (length (arg_strings (map snd es2))) <= total.
Proof.
  intros E. rewrite E, map_app. unfold arg_strings. rewrite flat_map_app, length_app. lia.
Qed.

(** One more string. *)
Lemma pushed_step es1 a w es2 p m' :
  pushed (es1 ++ [(a, w)]) es2 p m' ->
  let p' := p - (Z.of_nat (length w) + 1) in
  pushed es1 ((a, w) :: es2) p'
    (put (put m' p' (w ++ [0])) (eap + 4 * Z.of_nat (length es1)) (le 4 p')).
Proof.
  intros [He Hp Hs Ha Hd Hfr] p'. pose proof Hpre as [_ _ Heap [_ Hk] _ Hpage Hroom].
  rewrite <-app_assoc in He. simpl in He. pose proof (arg_strings_le _ _ He) as Hle.
  cbn [map snd] in Hle. rewrite length_arg_strings in Hle. change PGSIZE with 4096 in *.
  assert (length es = length es1 + S (length es2))%nat as Hlen by (rewrite He, length_app; done).
  assert (length (w ++ [0]) = S (length w)) as Hlw by (rewrite length_app; simpl; lia).
  split; [done|..]; cbn [map snd].
  - rewrite length_arg_strings. lia.
  - apply put_frame; [|left; rewrite length_arg_strings; lia].
    rewrite arg_strings_cons. apply bytes_at_app. split; [apply put_bytes|].
    rewrite Hlw. replace (p' + Z.of_nat (S (length w))) with p by lia. apply put_frame; [done|lia].
  - cbn [arg_addrs words32 flat_map]. apply bytes_at_app. split; [apply put_bytes|].
    rewrite length_app in Ha. simpl in Ha. rewrite length_le. fold (words32 (arg_addrs (p' + Z.of_nat (length w) + 1) (map snd es2))).
    replace (p' + Z.of_nat (length w) + 1) with p by lia.
    replace (eap + 4 * Z.of_nat (length es1) + Z.of_nat 4) with (eap + 4 * Z.of_nat (length es1 + 1)) by lia.
    assert (Z.of_nat (length (words32 (arg_addrs p (map snd es2)))) = 4 * Z.of_nat (length es2)) as Hl.
    { rewrite length_words32, length_arg_addrs, length_map. lia. }
    apply put_frame; [|rewrite length_le; lia]. apply put_frame; [done|lia].
  - assert (mapped m' p' (length (w ++ [0]))) as Hm1.
    { apply (mapped_dom m); [done|]. intros i Hi. apply Hpage. lia. }
    rewrite !dom_put; [done|done|]. rewrite length_le. apply mapped_put.
    apply (mapped_dom m); [done|]. intros i Hi. apply Heap. lia.
  - intros i H1 H2. rewrite !lookup_put, length_le, !decide_False by lia. apply Hfr; lia.
Qed.

(** What the loop reads: the word and its pointer, which it has not touched. *)
Lemma pushed_reads es1 a w es2 p m' :
  pushed (es1 ++ [(a, w)]) es2 p m' ->
  cstr m' a w /\ PHYS_BASE <= a < 2 ^ 32 /\ bytes_at m' (argv + 4 * Z.of_nat (length es1)) (le 4 a) /\
  Z.of_nat (length w) + 1 + Z.of_nat (length (arg_strings (map snd es2))) <= PGSIZE.
Proof.
  intros [He Hp Hs Ha Hd Hfr]. pose proof Hpre as [Hargv Hes Heap [Hk1 Hk2] Hap Hpage Hroom].
  rewrite <-app_assoc in He. simpl in He. pose proof (arg_strings_le _ _ He) as Hle.
  cbn [map snd] in Hle. rewrite length_arg_strings in Hle. change PGSIZE with 4096 in *.
  assert (length es = length es1 + S (length es2))%nat as Hlen by (rewrite He, length_app; done).
  assert ((a, w) ∈ es) as Hin by (rewrite He; apply elem_of_app; right; left).
  rewrite Forall_forall in Hes. apply Hes in Hin as (Hc & Ha1 & Ha2 & Ha3). cbn [fst snd] in *.
  split; [|split; [lia|split; [|lia]]].
  - eapply cstr_frame; [exact Hc|]. intros i Hi. apply Hfr; lia.
  - assert (bytes_at m (argv + 4 * Z.of_nat (length es1)) (le 4 a)) as Hb.
    { rewrite He, map_app, <-app_assoc in Hargv. apply words32_lookup in Hargv.
      by rewrite length_map in Hargv. }
    eapply bytes_at_eq; [exact Hb|]. intros i Hi. rewrite length_le in Hi. apply Hfr; lia.
Qed.

Lemma wp_push_strings (Q : Z * Z -> mem -> Prop) :
  (forall p m', pushed [] es p m' -> Q (total, p) m') ->
  wp (push_strings argv eap PHYS_BASE (Z.of_nat (length es))) m Q.
Proof.
  intros HQ. unfold push_strings.
  eapply (wp_loop (fun k '(c, tot, p) m' => exists es1 es2, pushed es1 es2 p m' /\
    k = length es1 /\ c = Z.of_nat (length es1) - 1 /\
    tot = Z.of_nat (length (arg_strings (map snd es2))))).
  2: { exists es, []. split_and!; [|done..]. split; simpl; try done; try lia. by rewrite app_nil_r. }
  2: { lia. }
  intros k [[c tot] p] m' (es1 & es2 & H & -> & -> & ->).
  destruct (Z.leb_spec 0 (Z.of_nat (length es1) - 1)) as [Hc|Hc]; cycle 1.
  { destruct es1 as [|e es1]; [|simpl in Hc; lia]. apply wp_ret. pose proof (pu_es _ _ _ _ H) as E.
    simpl in E. rewrite <-E in *. by apply HQ. }
  destruct (exists_last (l := es1)) as (es1' & [a w] & ->); [by intros ->|].
  destruct (pushed_reads _ _ _ _ _ _ H) as (Hw & Ha & Hargv & Hroom).
  rewrite length_app in *. simpl length in *.
  replace (Z.of_nat (length es1' + 1) - 1) with (Z.of_nat (length es1')) by lia.
  apply wp_bind. eapply wp_load32; [done|unpage; lia|].
  apply wp_bind. eapply wp_strlen; [done|]. cbv zeta.
  set (p' := p - (Z.of_nat (length w) + 1)).
  pose proof (pu_p _ _ _ _ H) as Hp. pose proof Hpre as [_ _ Heap [_ Hk] _ Hpage _].
  pose proof (arg_strings_le _ _ (pu_es _ _ _ _ H)) as Hle.
  assert (length (w ++ [0]) = Z.to_nat (Z.of_nat (length w) + 1)) as Hl
    by (rewrite length_app; simpl; lia).
  apply wp_bind. rewrite <-Hl. unpage.
  eapply wp_memcpy; unfold NULL; try lia; [apply Hw|apply Forall_app; split| |].
  { eapply Forall_impl; [apply Hw|]. by intros ? []. }
  { repeat constructor; lia. }
  { apply (mapped_dom m); [apply H|]. intros i Hi. apply Hpage. lia. }
  apply wp_bind, wp_store32.
  { apply mapped_put, (mapped_dom m); [apply H|]. intros i Hi. apply Heap.
    rewrite (pu_es _ _ _ _ H), !length_app. simpl. lia. }
  apply wp_ret. exists (length es1'). split; [lia|]. exists es1', ((a, w) :: es2).
  split; [by apply pushed_step|]. cbn [map snd]. rewrite length_arg_strings. split_and!; lia.
Qed.
End PushStrings.

Section PushPointers.
Context (m : mem) (eap : Z) (addrs : list Z).

Lemma wp_push_pointers top tl (Q : Z -> mem -> Prop) :
  let n := Z.of_nat (length addrs) in
  bytes_at m eap (words32 addrs) -> Forall (fun a => 0 <= a < 2 ^ 32) addrs ->
  bytes_at m top (words32 tl) -> mapped m (top - 4 * n) (4 * length addrs) -> top <= eap ->
  (forall m', bytes_at m' (top - 4 * n) (words32 (addrs ++ tl)) -> dom m' = dom m ->
     (forall i, ~ (top - 4 * n <= i < top) -> m' !! i = m !! i) -> Q (top - 4 * n - 4) m') ->
  wp (push_pointers eap (top - 4) n) m Q.
Proof.
  intros n Heap Hb Htl Hm Hd HQ. unfold push_pointers, n. rewrite Nat2Z.id.
  eapply (wp_loop (fun k '(c, p) m' => exists us vs, addrs = us ++ vs /\ k = length us /\
    c = Z.of_nat (length us) - 1 /\ p = top - 4 * Z.of_nat (length vs) - 4 /\
    bytes_at m' (p + 4) (words32 (vs ++ tl)) /\ dom m' = dom m /\
    (forall i, ~ (p + 4 <= i < top) -> m' !! i = m !! i))).
  2: { exists addrs, []. rewrite app_nil_r. simpl length.
       replace (top - 4 + 4) with top by lia. split_and!; first [done|lia]. }
  2: { lia. }
  intros k [c p] m' (us & vs & E & -> & -> & -> & Hw & Hdom & Hfr).
  assert (length addrs = length us + length vs)%nat as Hlen by (rewrite E, length_app; done).
  destruct (Z.leb_spec 0 (Z.of_nat (length us) - 1)) as [Hc|Hc]; cycle 1.
  { destruct us as [|u us]; [|simpl in Hc; lia]. simpl in E. subst vs. apply wp_ret.
    replace (top - 4 * Z.of_nat (length addrs) - 4 + 4) with (top - 4 * n) in * by lia.
    by apply HQ. }
  destruct (exists_last (l := us)) as (us' & v & ->); [by intros ->|]. rewrite length_app in *.
  simpl length in *. replace (Z.of_nat (length us' + 1) - 1) with (Z.of_nat (length us')) by lia.
  assert (bytes_at m (eap + 4 * Z.of_nat (length us')) (le 4 v)) as Hv.
  { rewrite E, <-app_assoc in Heap. by apply words32_lookup in Heap. }
  assert (0 <= v < 2 ^ 32) as Hv32.
  { rewrite E in Hb. apply Forall_app in Hb as [Hb _]. apply Forall_app in Hb as [_ Hb].
    by apply Forall_cons in Hb as [? _]. }
  apply wp_bind. eapply wp_load32; [|done|].
  { eapply bytes_at_eq; [exact Hv|]. intros i Hi. rewrite length_le in Hi. apply Hfr. lia. }
  apply wp_bind, wp_store32.
  { apply (mapped_dom m); [done|]. intros i Hi. apply Hm. lia. }
  apply wp_ret. exists (length us'). split; [lia|]. exists us', (v :: vs). simpl length.
  replace (top - 4 * Z.of_nat (length vs) - 4 - 4 + 4) with (top - 4 * Z.of_nat (length vs) - 4) by lia.
  split; [by rewrite <-app_assoc in E|]. split; [done|]. split; [lia|]. split; [lia|]. split; [|split].
  - cbn [app words32 flat_map]. apply bytes_at_app. split; [apply put_bytes|].
    rewrite length_le. apply put_frame; [exact Hw|]. rewrite length_le. lia.
  - rewrite dom_put; [done|]. rewrite length_le. apply (mapped_dom m); [done|].
    intros i Hi. apply Hm. lia.
  - intros i Hi. rewrite lookup_put, length_le, decide_False by lia. apply Hfr. lia.
Qed.
End PushPointers.

Section PushWords.
Context (m : mem) (eap : Z) (addrs : list Z).

(** A word stored just below a block of words. *)
Lemma put_word_below m' p v vs :
  bytes_at m' p (words32 vs) -> bytes_at (put m' (p - 4) (le 4 v)) (p - 4) (words32 (v :: vs)).
Proof.
  intros H. cbn [words32 flat_map]. apply bytes_at_app. split; [apply put_bytes|].
  rewrite length_le. replace (p - 4 + Z.of_nat 4) with p by lia.
  apply put_frame; [done|]. rewrite length_le. lia.
Qed.

(** Everything [setup_stack] pushes below the strings, which end at [top]. *)
Lemma wp_push_words top argc (Q : Z -> mem -> Prop) :
  let n := Z.of_nat (length addrs) in
  let esp := top - 4 * (n + 4) in
  bytes_at m eap (words32 addrs) -> Forall (fun a => 0 <= a < 2 ^ 32) addrs -> argc = n ->
  mapped m esp (4 * (length addrs + 4)) -> top <= eap ->
  (forall m', bytes_at m' esp (words32 ([NULL; n; esp + 12] ++ addrs ++ [NULL])) ->
     dom m' = dom m -> (forall i, ~ (esp <= i < top) -> m' !! i = m !! i) -> Q esp m') ->
  wp (store32 (top - 4) NULL;;
      p_word ← push_pointers eap (top - 4 - 4) argc;
      store32 p_word (p_word + 4);;
      store32 (p_word - 4) argc;;
      store32 (p_word - 4 - 4) NULL;;
      mret (p_word - 4 - 4)) m Q.
Proof.
  intros n esp Heap Hb -> Hm Hd HQ.
  assert (forall m' a, dom m' = dom m -> esp <= a -> a + 4 <= top -> mapped m' a 4) as Hmap.
  { intros m' a Hdom H1 H2. apply (mapped_dom m); [done|]. intros i Hi. apply Hm. lia. }
  assert (forall m' a v, dom m' = dom m -> esp <= a -> a + 4 <= top ->
    dom (put m' a (le 4 v)) = dom m) as Hdom.
  { intros m' a v Hdm H1 H2. rewrite dom_put; [done|]. rewrite length_le. by apply Hmap. }
  apply wp_bind, wp_store32; [apply Hmap; [done|lia..]|]. apply wp_bind.
  set (m1 := put m (top - 4) (le 4 NULL)). assert (dom m1 = dom m) as Hd1 by (apply Hdom; [done|lia..]).
  eapply (wp_push_pointers m1 eap addrs (top - 4) [NULL]).
  - apply put_frame; [done|]. rewrite length_le, length_words32. lia.
  - done.
  - apply (put_word_below m top NULL []). done.
  - apply (mapped_dom m); [done|]. intros i Hi. apply Hm. lia.
  - lia.
  - intros m2 Hw Hd2 Hf2. rewrite Hd1 in Hd2. set (p := top - 4 - 4 * n) in *.
    set (m3 := put m2 (p - 4) (le 4 p)). set (m4 := put m3 (p - 4 - 4) (le 4 n)).
    change (top - 4 - 4 * Z.of_nat (length addrs)) with p. replace (p - 4 + 4) with p by lia.
    assert (dom m3 = dom m) as Hd3 by (apply Hdom; [done|lia..]).
    assert (dom m4 = dom m) as Hd4 by (apply Hdom; [done|lia..]).
    apply wp_bind, wp_store32; [apply Hmap; [done|lia..]|].
    apply wp_bind, wp_store32; [apply Hmap; [exact Hd3|lia..]|].
    apply wp_bind, wp_store32; [apply Hmap; [exact Hd4|lia..]|]. apply wp_ret.
    replace (p - 4 - 4 - 4) with esp by lia. apply HQ.
    + replace (esp + 12) with p by lia. replace esp with (p - 4 - 4 - 4) by lia.
      by do 3 apply put_word_below.
    + apply Hdom; [done|lia..].
    + intros i Hi. unfold m4, m3. rewrite !lookup_put, !length_le, !decide_False by lia.
      rewrite Hf2 by lia. unfold m1. rewrite lookup_put, length_le, decide_False by lia. done.
Qed.
End PushWords.

Section PushArgs.
Context (sp : Z) (m : mem) (file_name argv eap : Z) (s : list Z).
Abbreviation ws := (words blank s).
Abbreviation n := (Z.of_nat (length (words blank s))).
Abbreviation total := (Z.of_nat (length (arg_strings (words blank s)))).

(** The command and the two arrays are in kernel memory, apart from each other;
    the stack page is mapped and what is pushed fits in it. *)
Record stack_pre : Prop := {
  sk_parse : parse_pre sp m file_name argv s;
  sk_eap : mapped m eap (4 * length (words blank s));
  sk_kernel : PHYS_BASE <= argv /\ PHYS_BASE <= eap /\ PHYS_BASE <= file_name;
  sk_ea : argv + 4 * (n + 1) <= eap \/ eap + 4 * n <= argv;
  sk_ec : eap + 4 * n <= file_name \/ file_name + Z.of_nat (length s) < eap;
  sk_page : mapped m (PHYS_BASE - PGSIZE) (Z.to_nat PGSIZE);
  sk_room : total + (- total) mod 4 + 4 * (n + 4) <= PGSIZE
}.

(** The stack that a program's start-up code expects: from [esp] up a null
    return address, [argc], [argv], the pointers [argv[0 .. argc - 1]] and
    their null terminator; then, after at most three bytes of padding, the
    argument strings up to the top of user memory. *)
Record args_layout (esp : Z) (m' : mem) : Prop := {
  al_aligned : esp mod 4 = 0;
  al_low : PHYS_BASE - PGSIZE <= esp;
  al_words : bytes_at m' esp
    (words32 ([NULL; n; esp + 12] ++ arg_addrs (PHYS_BASE - total) (words blank s) ++ [NULL]));
  al_strings : bytes_at m' (PHYS_BASE - total) (arg_strings (words blank s));
  al_gap : 0 <= (PHYS_BASE - total) - (esp + 4 * (n + 4)) < 4
}.

Hypothesis Hpre : stack_pre.

Lemma parsed_push_pre es m1 :
  map snd es = words blank s -> bytes_at m1 argv (words32 (map fst es ++ [NULL])) ->
  Forall (fun e => cstr m1 e.1 e.2 /\ file_name <= e.1 /\
            e.1 + Z.of_nat (length e.2) <= file_name + Z.of_nat (length s)) es ->
  dom m1 = dom m -> push_pre m1 argv eap es.
Proof.
  intros Hw Hargv Hes Hd. destruct Hpre as [Hp He Hk Hea Hec Hpg Hr].
  assert (length es = length (words blank s)) as Hlen by (by rewrite <-Hw, length_map).
  split; [done| |by rewrite Hlen; apply (mapped_dom m)|lia|lia|by apply (mapped_dom m)|].
  - eapply Forall_impl; [exact Hes|]. intros [p w] (H1 & H2 & H3). simpl in *.
    pose proof (pp_fits _ _ _ _ _ Hp). split_and!; [done|lia|lia|rewrite Hlen; lia].
  - rewrite Hw. pose proof (Z.mod_pos_bound (- total) 4). lia.
Qed.

(** The padding the code computes brings the stack pointer down to a multiple
    of four. *)
Lemma pad_spec t :
  0 <= t ->
  (if negb (Z.rem t 4 =? 0) then PHYS_BASE - t - (4 - Z.rem t 4) else PHYS_BASE - t)
    = PHYS_BASE - t - (- t) mod 4.
Proof.
  intros Ht. rewrite Z.rem_mod_nonneg by lia.
  destruct (Z.eqb_spec (t mod 4) 0) as [E|E]; simpl.
  - rewrite Z_mod_zero_opp_full by done. lia.
  - rewrite Z_mod_nz_opp_full by done. lia.
Qed.

Lemma top_aligned t : (PHYS_BASE - t - (- t) mod 4) mod 4 = 0.
Proof. unpage. Z.to_euclidean_division_equations. lia. Qed.

Lemma wp_push_args (Q : Z -> mem -> Prop) :
  (forall esp m', args_layout esp m' -> dom m' = dom m -> Q esp m') ->
  wp (push_args sp argv eap file_name) m Q.
Proof.
  intros HQ. unfold push_args. cbv zeta. apply wp_bind.
  eapply wp_parse_command_string; [apply Hpre|].
  intros argc m1 (-> & es & Hw & Hargv & Hes & Hd1 & _).
  pose proof (parsed_push_pre es m1 Hw Hargv Hes Hd1) as Hpp.
  assert (length es = length (words blank s)) as Hlen by (by rewrite <-Hw, length_map).
  apply wp_bind. rewrite <-Hlen. eapply wp_push_strings; [exact Hpp|].
  intros p m2 [_ Hp Hstr Haddr Hd2 _]. rewrite Hw in *. simpl in Haddr. rewrite Z.add_0_r in Haddr.
  rewrite Hlen. rewrite Hp in *. rewrite pad_spec by lia.
  destruct Hpre as [_ _ [Hk1 [Hk2 Hk3]] _ _ Hpg Hroom].
  set (base := PHYS_BASE - total) in *. set (top := base - (- total) mod 4).
  pose proof (Z.mod_pos_bound (- total) 4 eq_refl) as Hpad.
  assert (n = Z.of_nat (length (arg_addrs base ws))) as Hn by (by rewrite length_arg_addrs).
  assert (dom m2 = dom m) as Hd by congruence. pose proof (length_arg_addrs base ws) as Hla.
  apply (wp_push_words m2 eap (arg_addrs base ws)); [done| |done| |lia|].
  - eapply Forall_impl; [apply arg_addrs_bound|]. simpl. unpage. lia.
  - apply (mapped_dom m); [done|]. intros i Hi. apply Hpg. unpage. lia.
  - intros m3 Hwords Hd3 Hf3. rewrite <-Hn in *. apply HQ; [|congruence]. split.
    + pose proof (top_aligned total) as Ht. fold base in Ht. fold top in Ht.
      rewrite Zminus_mod, Ht. replace (4 * (n + 4)) with ((n + 4) * 4) by lia. by rewrite Z_mod_mult.
    + lia.
    + exact Hwords.
    + eapply bytes_at_eq; [exact Hstr|]. intros i Hi. apply Hf3. lia.
    + lia.
Qed.

(** The layout in another memory with the same bytes in the stack page. *)
Lemma args_layout_view esp m1 m2 :
  args_layout esp m1 -> (forall a, PHYS_BASE - PGSIZE <= a < PHYS_BASE -> m2 !! a = u8 <$> m1 !! a) -> args_layout esp m2.
Proof.
  intros [H1 H2 H3 H4 H5] Hv.
  assert (forall a bs, PHYS_BASE - PGSIZE <= a -> a + Z.of_nat (length bs) <= PHYS_BASE -> Forall byte bs -> bytes_at m1 a bs -> bytes_at m2 a bs) as Ht.
  { intros a bs Ha He Hb. rewrite !bytes_at_lookup. intros H i b Hi. pose proof (lookup_lt_Some _ _ _ Hi) as Hlt. rewrite Hv by lia. rewrite (H i b Hi). cbn.
    f_equal. eapply Forall_lookup_1 in Hb; [|exact Hi]. unfold byte in Hb. unfold u8. by apply Z.mod_small. }
  split; [done|done| | |done].
  - apply Ht; [done| | |done].
    + rewrite length_words32, !length_app, length_arg_addrs. cbn [length]. lia.
    + unfold words32. apply Forall_flat_map, Forall_true. intros v. apply le_bytes.
  - apply Ht; [lia|lia| |done]. unfold arg_strings. apply Forall_flat_map.
    destruct (pp_cmd _ _ _ _ _ (sk_parse Hpre)) as (_ & _ & Hs). eapply Forall_impl; [apply words_Forall, Hs|].
    intros w Hw. apply Forall_app. split; [by eapply Forall_impl; [exact Hw|intros c [? _]]|]. repeat constructor; lia.
Qed.
End PushArgs.

(** * Theorems *)

(** [parse_command_string] returns the number of words of the command, fills
    [argv] with pointers to the words in order, each a terminated string inside
    the command's buffer, puts a null pointer after them, and touches nothing
    but the buffer and those elements of [argv]. *)
Theorem parse_command_string_correct sp m command argv s :
  parse_pre sp m command argv s ->
  wp (parse_command_string sp command argv false) m (parsed m command argv s).
Proof. intros H. by eapply wp_parse_command_string. Qed.

(** [setup_stack], when the page is allocated and installed, returns true
    and leaves [*esp] word-aligned in the stack page, pointing at the frame a
    program's start-up code expects. *)
Theorem setup_stack_correct sp palloc install free argv eap file_name s m kpage m1 m2 :
  palloc m = Ok (kpage, m1) -> kpage ≠ NULL ->
  install (PHYS_BASE - PGSIZE) kpage true m1 = Ok (true, m2) ->
  stack_pre sp m2 file_name argv eap s ->
  wp (setup_stack sp palloc install free (fun _ c => c) argv eap file_name) m (fun r m' =>
    exists esp, r = (true, Some esp) /\ args_layout s esp m').
Proof.
  intros Hp Hk Hi Hpre. unfold setup_stack. apply wp_bind. eapply wp_ok; [exact Hp|].
  rewrite nonnull_true by done. apply wp_bind. eapply wp_ok; [exact Hi|]. apply wp_bind.
  eapply wp_push_args; [exact Hpre|]. intros esp m' Hl _. apply wp_ret. by exists esp.
Qed.

(** The command "ls -l" at [PHYS_BASE + 16], the literal " " at [PHYS_BASE + 8],
    [argv] at [PHYS_BASE + 64] and [esp_arg_ptrs] at [PHYS_BASE + 128]. *)
Definition ls_mem : mem :=
  put (put (put (put ∅ (PHYS_BASE + 8) [32; 0]) (PHYS_BASE + 16) [108; 115; 32; 45; 108; 0])
    (PHYS_BASE + 64) (replicate 12 170)) (PHYS_BASE + 128) (replicate 8 170).
Definition ls_command : list Z := [108; 115; 32; 45; 108].

(** A concrete inequality or a choice between two. *)
Ltac zcompute :=
  first [vm_compute; reflexivity | vm_compute; discriminate
        | left; zcompute | right; zcompute | split; zcompute].

Lemma ls_parse_pre : parse_pre (PHYS_BASE + 8) ls_mem (PHYS_BASE + 16) (PHYS_BASE + 64) ls_command.
Proof.
  split; [| | |zcompute..].
  - split; [reflexivity|split; [vm_compute; tauto|]]. mem_facts.
  - split; [reflexivity|split; [vm_compute; tauto|]]. mem_facts.
  - apply demo_mapped. vm_compute. reflexivity.
Qed.

Lemma parse_command_string_correct_witness :
  wp (parse_command_string (PHYS_BASE + 8) (PHYS_BASE + 16) (PHYS_BASE + 64) false) ls_mem
    (parsed ls_mem (PHYS_BASE + 16) (PHYS_BASE + 64) ls_command).
Proof.
  apply (parse_command_string_correct (PHYS_BASE + 8) ls_mem). exact ls_parse_pre.
Defined.

(** [install_page] as it succeeds: a zeroed page appears at [upage]. *)
Definition install_zeroed (upage kpage : Z) (writable : bool) : M mem bool :=
  m ← mget; mput (put m upage (replicate (Z.to_nat PGSIZE) 0));; mret true.
Lemma install_zeroed_ok upage kpage writable m :
  install_zeroed upage kpage writable m = Ok (true, put m upage (replicate (Z.to_nat PGSIZE) 0)).
Proof. done. Qed.
Definition ls_stack_mem : mem := put ls_mem (PHYS_BASE - PGSIZE) (replicate (Z.to_nat PGSIZE) 0).

Lemma ls_stack_mem_eq : ls_stack_mem = put ls_mem (PHYS_BASE - PGSIZE) (replicate (Z.to_nat PGSIZE) 0).
Proof. reflexivity. Qed.

Lemma ls_stack_pre :
  stack_pre (PHYS_BASE + 8) ls_stack_mem (PHYS_BASE + 16) (PHYS_BASE + 64) (PHYS_BASE + 128) ls_command.
Proof.
  split; [| |zcompute..| |zcompute].
  - split; [| | |zcompute..].
    + split; [reflexivity|split; [vm_compute; tauto|]]. mem_facts.
    + split; [reflexivity|split; [vm_compute; tauto|]]. mem_facts.
    + apply demo_mapped. vm_compute. reflexivity.
  - apply demo_mapped. vm_compute. reflexivity.
  - apply demo_mapped. vm_compute. reflexivity.
Qed.

Lemma setup_stack_correct_witness :
  wp (setup_stack (PHYS_BASE + 8) (mret (PHYS_BASE + 4096)) install_zeroed (fun _ => mret tt) (fun _ c => c)
        (PHYS_BASE + 64) (PHYS_BASE + 128) (PHYS_BASE + 16)) ls_mem (fun r m' =>
    exists esp, r = (true, Some esp) /\ args_layout ls_command esp m').
Proof.
  apply (setup_stack_correct (PHYS_BASE + 8) (mret (PHYS_BASE + 4096)) install_zeroed
    (fun _ => mret tt) (PHYS_BASE + 64) (PHYS_BASE + 128) (PHYS_BASE + 16) ls_command
    ls_mem (PHYS_BASE + 4096) ls_mem ls_stack_mem).
  - reflexivity.
  - discriminate.
  - exact (install_zeroed_ok (PHYS_BASE - PGSIZE) (PHYS_BASE + 4096) true ls_mem).
  - exact ls_stack_pre.
Defined.

(** With [set_first_only] and the one-element array its callers declare, the
    call stores to [argv[1]], past the end of the array: here the four bytes
    after the array are not mapped. *)
Example parse_first_only_overflow :
  parse_command_string 8 16 64 true
    (put (put (put ∅ 8 [32; 0]) 16 [108; 115; 0]) 64 (replicate 4 0)) = Err Fault.
Proof. vm_compute. reflexivity. Qed.
