(* ===== verification/Bitmap.v ===== *)
(** src/lib/kernel/bitmap.c: arrays of bits kept in 32-bit elements.  The
    operations act on one bitmap, the state of the computation; the file
    operations are in [Filesys], which has files. *)
From stdpp Require Import base list numbers.
From Stdlib Require Import ZArith Lia Bool.
From S2P Require Import Prelude.

Open Scope Z_scope.

(** * Data *)

Definition ELEM_BITS : Z := 32.
Record bitmap : Type := mk_bitmap { bit_cnt : Z; bits : list Z }.

(** [size_t] of -1. *)
Definition BITMAP_ERROR : Z := 2 ^ 32 - 1.

Definition elem_idx (bit_idx : Z) : Z := bit_idx / ELEM_BITS.
Definition bit_mask (bit_idx : Z) : Z := u32 (Z.shiftl 1 (bit_idx mod ELEM_BITS)).
Definition elem_cnt (bit_cnt : Z) : Z := u32 (bit_cnt + ELEM_BITS - 1) / ELEM_BITS.
Definition byte_cnt (bit_cnt : Z) : Z := u32 (4 * elem_cnt bit_cnt).
Definition last_mask (b : bitmap) : Z :=
  let last_bits := bit_cnt b mod ELEM_BITS in
  if negb (last_bits =? 0) then u32 (Z.shiftl 1 last_bits - 1) else 2 ^ 32 - 1.

(** * Operations *)

Definition load_bits (idx : Z) : M bitmap Z :=
  fun b => match bits b !! Z.to_nat idx with Some e => Ok (e, b) | None => Err Fault end.
Definition store_bits (idx v : Z) : M bitmap unit :=
  fun b => match bits b !! Z.to_nat idx with
           | Some _ => Ok (tt, mk_bitmap (bit_cnt b) (<[Z.to_nat idx := v]> (bits b)))
           | None => Err Fault
           end.

Definition bitmap_size : M bitmap Z := b ← mget; mret (bit_cnt b).

Definition bitmap_mark (bit_idx : Z) : M bitmap unit :=
  let idx := elem_idx bit_idx in
  let mask := bit_mask bit_idx in
  e ← load_bits idx; store_bits idx (Z.lor e mask).

Definition bitmap_reset (bit_idx : Z) : M bitmap unit :=
  let idx := elem_idx bit_idx in
  let mask := bit_mask bit_idx in
  e ← load_bits idx; store_bits idx (Z.land e (u32 (Z.lnot mask))).

Definition bitmap_flip (bit_idx : Z) : M bitmap unit :=
  let idx := elem_idx bit_idx in
  let mask := bit_mask bit_idx in
  e ← load_bits idx; store_bits idx (Z.lxor e mask).

Definition bitmap_set (idx : Z) (value : bool) : M bitmap unit :=
  b ← mget;
  ASSERT (idx <? bit_cnt b);;
  if value then bitmap_mark idx else bitmap_reset idx.

Definition bitmap_test (idx : Z) : M bitmap bool :=
  b ← mget;
  ASSERT (idx <? bit_cnt b);;
  e ← load_bits (elem_idx idx);
  mret (negb (Z.land e (bit_mask idx) =? 0)).

(** The guards that the operations on ranges share. *)
Definition check_range (start cnt : Z) : M bitmap unit :=
  b ← mget;
  ASSERT (start <=? bit_cnt b);;
  ASSERT (u32 (start + cnt) <=? bit_cnt b).

Definition bitmap_set_multiple (start cnt : Z) (value : bool) : M bitmap unit :=
  check_range start cnt;;
  loop (S (Z.to_nat cnt)) (fun i =>
    if i <? cnt then bitmap_set (u32 (start + i)) value;; mret (inl (i + 1))
    else mret (inr tt)) 0.

Definition bitmap_set_all (value : bool) : M bitmap unit :=
  cnt ← bitmap_size; bitmap_set_multiple 0 cnt value.

Definition bitmap_count (start cnt : Z) (value : bool) : M bitmap Z :=
  check_range start cnt;;
  loop (S (Z.to_nat cnt)) (fun '(i, value_cnt) =>
    if i <? cnt then
      v ← bitmap_test (u32 (start + i));
      mret (inl (i + 1, if eqb v value then value_cnt + 1 else value_cnt))
    else mret (inr value_cnt)) (0, 0).

Definition bitmap_contains (start cnt : Z) (value : bool) : M bitmap bool :=
  check_range start cnt;;
  loop (S (Z.to_nat cnt)) (fun i =>
    if i <? cnt then
      v ← bitmap_test (u32 (start + i));
      mret (if eqb v value then inr true else inl (i + 1))
    else mret (inr false)) 0.

Definition bitmap_any (start cnt : Z) : M bitmap bool := bitmap_contains start cnt true.
Definition bitmap_none (start cnt : Z) : M bitmap bool :=
  c ← bitmap_contains start cnt true; mret (negb c).
Definition bitmap_all (start cnt : Z) : M bitmap bool :=
  c ← bitmap_contains start cnt false; mret (negb c).

Definition bitmap_scan (start cnt : Z) (value : bool) : M bitmap Z :=
  b ← mget;
  ASSERT (start <=? bit_cnt b);;
  if cnt <=? bit_cnt b then
    let last := bit_cnt b - cnt in
    loop (S (S (Z.to_nat (last - start)))) (fun i =>
      if i <=? last then
        c ← bitmap_contains i cnt (negb value);
        mret (if negb c then inr i else inl (i + 1))
      else mret (inr BITMAP_ERROR)) start
  else mret BITMAP_ERROR.

Definition bitmap_scan_and_flip (start cnt : Z) (value : bool) : M bitmap Z :=
  idx ← bitmap_scan start cnt value;
  (if negb (idx =? BITMAP_ERROR) then bitmap_set_multiple idx cnt (negb value) else mret tt);;
  mret idx.

(** [bitmap_create_in_buf]: the storage at [block] is [old], its contents
    arbitrary; [block_size] is its size. *)
Definition bitmap_buf_size (bit_cnt : Z) : Z := u32 (8 + byte_cnt bit_cnt).
Definition bitmap_create_in_buf (bit_cnt : Z) (old : list Z) (block_size : Z) : res bitmap :=
  if bitmap_buf_size bit_cnt <=? block_size then
    '(_, b) ← bitmap_set_all false (mk_bitmap bit_cnt old); mret b
  else Err Panic.

(** [bitmap_create]: [malloc] gives storage with arbitrary contents, or fails. *)
Definition bitmap_create (bit_cnt : Z) (malloc_b : bool) (malloc_bits : option (list Z)) :
    res (option bitmap) :=
  if malloc_b then
    if negb (bool_decide (malloc_bits = None)) || (bit_cnt =? 0) then
      '(_, b) ← bitmap_set_all false (mk_bitmap bit_cnt (default [] malloc_bits)); mret (Some b)
    else mret None
  else mret None.

(** * The bits *)

Definition bit (b : bitmap) (i : Z) : bool :=
  match bits b !! Z.to_nat (elem_idx i) with
  | Some e => Z.testbit e (i mod ELEM_BITS)
  | None => false
  end.

Record bm_wf (b : bitmap) : Prop := {
  bw_cnt : 0 <= bit_cnt b < 2 ^ 32 - 32;
  bw_len : Z.of_nat (length (bits b)) = elem_cnt (bit_cnt b);
  bw_elems : Forall (fun e => 0 <= e < 2 ^ 32) (bits b)
}.

(** [b'] has the same size as [b] and its bits are [f]. *)
Definition bits_are (b b' : bitmap) (f : Z -> bool) : Prop :=
  bm_wf b' /\ bit_cnt b' = bit_cnt b /\ forall j, 0 <= j < bit_cnt b -> bit b' j = f j.

(** * Single bits *)

Section Bits.
Implicit Types (b : bitmap).

Lemma bit_mask_pow i : bit_mask i = 2 ^ (i mod 32).
Proof.
  unfold bit_mask, ELEM_BITS, u32. pose proof (Z.mod_pos_bound i 32 eq_refl).
  rewrite Z.shiftl_1_l. apply Z.mod_small. split; [lia|]. apply Z.pow_lt_mono_r; lia.
Qed.

Lemma testbit_mask i k : 0 <= k -> Z.testbit (bit_mask i) k = (i mod 32 =? k).
Proof.
  intros Hk. pose proof (Z.mod_pos_bound i 32 eq_refl). rewrite bit_mask_pow.
  by rewrite Z.pow2_bits_eqb by lia.
Qed.

Lemma testbit_u32 x k : 0 <= k < 32 -> Z.testbit (u32 x) k = Z.testbit x k.
Proof. intros Hk. unfold u32. by rewrite Z.mod_pow2_bits_low by lia. Qed.

(** A value is in 32 bits when no higher bit is set. *)
Lemma fits_u32 x : 0 <= x < 2 ^ 32 <-> 0 <= x /\ forall k, 32 <= k -> Z.testbit x k = false.
Proof.
  split.
  - intros [H0 H1]. split; [done|]. intros k Hk. destruct (decide (x = 0)) as [->|]; [apply Z.testbit_0_l|].
    apply Z.bits_above_log2; [done|]. apply Z.log2_lt_pow2; [lia|].
    eapply Z.lt_le_trans; [exact H1|]. apply Z.pow_le_mono_r; lia.
  - intros [H0 H1]. split; [done|]. destruct (decide (x = 0)) as [->|]; [lia|].
    apply Z.log2_lt_pow2; [lia|]. destruct (Z.lt_ge_cases (Z.log2 x) 32) as [|Hge]; [done|].
    apply H1 in Hge. by rewrite Z.bit_log2 in Hge by lia.
Qed.

Lemma lookup_bits b i :
  bm_wf b -> 0 <= i < bit_cnt b ->
  exists e, bits b !! Z.to_nat (elem_idx i) = Some e /\ 0 <= e < 2 ^ 32.
Proof.
  intros [Hc Hl He] Hi. unfold elem_idx, elem_cnt, ELEM_BITS, u32 in *.
  rewrite Z.mod_small in Hl by lia.
  destruct (lookup_lt_is_Some_2 (bits b) (Z.to_nat (i / 32))) as [e He'].
  { apply Nat2Z.inj_lt. rewrite Hl, Z2Nat.id by (apply Z.div_pos; lia).
    apply Z.div_lt_upper_bound; [lia|]. Z.to_euclidean_division_equations. lia. }
  exists e. split; [done|]. exact (Forall_lookup_1 _ _ _ _ He He').
Qed.

(** Replacing the element that holds bit [i] by one that differs in that bit
    only. *)
Lemma store_bit b i v e e' (Q : unit -> bitmap -> Prop) :
  bm_wf b -> 0 <= i < bit_cnt b -> bits b !! Z.to_nat (elem_idx i) = Some e ->
  0 <= e' < 2 ^ 32 ->
  (forall k, 0 <= k < 32 -> Z.testbit e' k = if i mod 32 =? k then v else Z.testbit e k) ->
  (forall b', bits_are b b' (fun j => if j =? i then v else bit b j) -> Q tt b') ->
  wp (store_bits (elem_idx i) e') b Q.
Proof.
  intros Hwf Hi He He' Hbits HQ. unfold wp, store_bits. rewrite He. apply HQ.
  split; [|split; [done|]].
  - destruct Hwf as [Hc Hl Hf]. split; simpl; [done|by rewrite length_insert|by apply Forall_insert].
  - intros j Hj. unfold bit, elem_idx, ELEM_BITS. simpl.
    destruct (decide (j / 32 = i / 32)) as [Hd|Hd].
    + rewrite Hd. rewrite list_lookup_insert_eq by (by eapply lookup_lt_Some).
      unfold elem_idx, ELEM_BITS in He. rewrite He.
      rewrite Hbits by (apply Z.mod_pos_bound; lia).
      assert ((i mod 32 =? j mod 32) = (j =? i)) as ->; [|done].
      pose proof (Z.div_mod i 32). pose proof (Z.div_mod j 32).
      destruct (Z.eqb_spec j i), (Z.eqb_spec (i mod 32) (j mod 32)); subst; try done; lia.
    + rewrite list_lookup_insert_ne.
      2: { intros E. apply Hd. apply Z2Nat.inj in E; [done|apply Z.div_pos; lia..]. }
      destruct (Z.eqb_spec j i); [by subst|done].
Qed.

Lemma wp_load_bits b i e (Q : Z -> bitmap -> Prop) :
  bits b !! Z.to_nat (elem_idx i) = Some e -> Q e b -> wp (load_bits (elem_idx i)) b Q.
Proof. intros H HQ. unfold wp, load_bits. by rewrite H. Qed.

Lemma wp_bitmap_mark b i (Q : unit -> bitmap -> Prop) :
  bm_wf b -> 0 <= i < bit_cnt b ->
  (forall b', bits_are b b' (fun j => if j =? i then true else bit b j) -> Q tt b') ->
  wp (bitmap_mark i) b Q.
Proof.
  intros Hwf Hi HQ. destruct (lookup_bits b i Hwf Hi) as (e & He & Hb). unfold bitmap_mark.
  apply wp_bind. eapply wp_load_bits; [done|]. eapply store_bit; [done..| | |done].
  - apply fits_u32. split; [apply Z.lor_nonneg; split; [lia|rewrite bit_mask_pow; lia]|].
    intros k Hk. rewrite Z.lor_spec, testbit_mask by lia. apply fits_u32 in Hb as [_ Hb].
    rewrite Hb by done. pose proof (Z.mod_pos_bound i 32 eq_refl). simpl. apply Z.eqb_neq. lia.
  - intros k Hk. rewrite Z.lor_spec, testbit_mask by lia.
    destruct (_ =? _); [by rewrite orb_true_r|by rewrite orb_false_r].
Qed.

Lemma wp_bitmap_reset b i (Q : unit -> bitmap -> Prop) :
  bm_wf b -> 0 <= i < bit_cnt b ->
  (forall b', bits_are b b' (fun j => if j =? i then false else bit b j) -> Q tt b') ->
  wp (bitmap_reset i) b Q.
Proof.
  intros Hwf Hi HQ. destruct (lookup_bits b i Hwf Hi) as (e & He & Hb). unfold bitmap_reset.
  apply wp_bind. eapply wp_load_bits; [done|]. eapply store_bit; [done..| | |done].
  - apply fits_u32. split; [apply Z.land_nonneg; left; lia|]. intros k Hk.
    rewrite Z.land_spec. apply fits_u32 in Hb as [_ Hb]. by rewrite Hb.
  - intros k Hk. rewrite Z.land_spec, testbit_u32, Z.lnot_spec, testbit_mask by lia.
    destruct (_ =? _); [by rewrite andb_false_r|by rewrite andb_true_r].
Qed.

Lemma wp_bitmap_flip b i (Q : unit -> bitmap -> Prop) :
  bm_wf b -> 0 <= i < bit_cnt b ->
  (forall b', bits_are b b' (fun j => if j =? i then negb (bit b i) else bit b j) -> Q tt b') ->
  wp (bitmap_flip i) b Q.
Proof.
  intros Hwf Hi HQ. destruct (lookup_bits b i Hwf Hi) as (e & He & Hb). unfold bitmap_flip.
  apply wp_bind. eapply wp_load_bits; [done|]. eapply store_bit; [done..| | |done].
  - apply fits_u32. split; [apply Z.lxor_nonneg; rewrite bit_mask_pow; pose proof (Z.pow_nonneg 2 (i mod 32)); lia|].
    intros k Hk. rewrite Z.lxor_spec, testbit_mask by lia. apply fits_u32 in Hb as [_ Hb].
    rewrite Hb by done. pose proof (Z.mod_pos_bound i 32 eq_refl).
    rewrite (proj2 (Z.eqb_neq _ _)) by lia. done.
  - intros k Hk. rewrite Z.lxor_spec, testbit_mask by lia. unfold bit. rewrite He. unfold ELEM_BITS.
    destruct (Z.eqb_spec (i mod 32) k) as [<-|]; [by rewrite xorb_true_r|by rewrite xorb_false_r].
Qed.

Lemma wp_bitmap_set b i v (Q : unit -> bitmap -> Prop) :
  bm_wf b -> 0 <= i < bit_cnt b ->
  (forall b', bits_are b b' (fun j => if j =? i then v else bit b j) -> Q tt b') ->
  wp (bitmap_set i v) b Q.
Proof.
  intros Hwf Hi HQ. apply wp_bind, wp_get. apply wp_bind, wp_assert; [apply Z.ltb_lt; lia|].
  destruct v; [by apply wp_bitmap_mark|by apply wp_bitmap_reset].
Qed.

Lemma wp_bitmap_test b i (Q : bool -> bitmap -> Prop) :
  bm_wf b -> 0 <= i < bit_cnt b -> Q (bit b i) b -> wp (bitmap_test i) b Q.
Proof.
  intros Hwf Hi HQ. destruct (lookup_bits b i Hwf Hi) as (e & He & Hb).
  apply wp_bind, wp_get. apply wp_bind, wp_assert; [apply Z.ltb_lt; lia|].
  apply wp_bind. eapply wp_load_bits; [done|]. apply wp_ret.
  assert (negb (Z.land e (bit_mask i) =? 0) = bit b i) as ->; [|done].
  unfold bit. rewrite He. unfold ELEM_BITS. pose proof (Z.mod_pos_bound i 32 eq_refl).
  destruct (Z.testbit e (i mod 32)) eqn:E.
  - apply negb_true_iff, Z.eqb_neq. intros H0. apply (f_equal (fun x => Z.testbit x (i mod 32))) in H0.
    rewrite Z.land_spec, testbit_mask, E, Z.eqb_refl, Z.testbit_0_l in H0 by lia. done.
  - apply negb_false_iff, Z.eqb_eq. apply Z.bits_inj'. intros k Hk.
    rewrite Z.land_spec, testbit_mask, Z.testbit_0_l by lia.
    destruct (Z.eqb_spec (i mod 32) k) as [<-|]; [by rewrite E|by rewrite andb_false_r].
Qed.
End Bits.

(** * Ranges of bits *)

(** All bits of the [cnt] starting at [start] are [v]. *)
Definition group (b : bitmap) (start cnt : Z) (v : bool) : Prop :=
  forall j, start <= j < start + cnt -> bit b j = v.

Section Ranges.
Implicit Types (b : bitmap).

Lemma wp_check_range b start cnt (Q : unit -> bitmap -> Prop) :
  bm_wf b -> 0 <= start -> 0 <= cnt -> start + cnt <= bit_cnt b -> Q tt b ->
  wp (check_range start cnt) b Q.
Proof.
  intros [Hc _ _] Hs Hn Hle HQ. apply wp_bind, wp_get.
  apply wp_bind, wp_assert; [apply Z.leb_le; lia|]. apply wp_assert; [|done].
  unfold u32. rewrite Z.mod_small by lia. apply Z.leb_le. lia.
Qed.

Lemma wp_set_multiple b start cnt v (Q : unit -> bitmap -> Prop) :
  bm_wf b -> 0 <= start -> 0 <= cnt -> start + cnt <= bit_cnt b ->
  (forall b', bits_are b b' (fun j => if (start <=? j) && (j <? start + cnt) then v else bit b j) ->
     Q tt b') ->
  wp (bitmap_set_multiple start cnt v) b Q.
Proof.
  intros Hwf Hs Hn Hle HQ. apply wp_bind. apply wp_check_range; [done..|].
  pose proof (bw_cnt _ Hwf) as Hc.
  eapply (wp_loop (fun n i b' => 0 <= i <= cnt /\ n = Z.to_nat (cnt - i) /\
    bits_are b b' (fun j => if (start <=? j) && (j <? start + i) then v else bit b j))).
  - intros n i b' (Hi & -> & Hw & Hcnt & Hb). destruct (Z.ltb_spec i cnt) as [Hlt|Hge].
    + unfold u32. rewrite Z.mod_small by lia.
      apply wp_bind, wp_bitmap_set; [done|lia|]. intros b'' (Hw' & Hcnt' & Hb'). apply wp_ret.
      exists (Z.to_nat (cnt - (i + 1))). split; [lia|]. split; [lia|]. split; [done|].
      split; [done|]. split; [by rewrite Hcnt'|]. intros j Hj. rewrite Hb' by lia.
      destruct (Z.eqb_spec j (start + i)) as [->|].
      * rewrite (proj2 (Z.leb_le _ _)), (proj2 (Z.ltb_lt _ _)) by lia. done.
      * rewrite Hb by lia. destruct (Z.leb_spec start j); [|done]. simpl.
        destruct (Z.ltb_spec j (start + i)), (Z.ltb_spec j (start + (i + 1))); try done; lia.
    + apply wp_ret, HQ. by replace i with cnt in * by lia.
  - split; [lia|]. split; [done|]. split; [done|]. split; [done|]. intros j Hj.
    rewrite Z.add_0_r. destruct (Z.leb_spec start j), (Z.ltb_spec j start); try done; lia.
  - lia.
Qed.

Lemma wp_contains b start cnt v (Q : bool -> bitmap -> Prop) :
  bm_wf b -> 0 <= start -> 0 <= cnt -> start + cnt <= bit_cnt b ->
  (forall r, (r = false <-> group b start cnt (negb v)) -> Q r b) ->
  wp (bitmap_contains start cnt v) b Q.
Proof.
  intros Hwf Hs Hn Hle HQ. apply wp_bind. apply wp_check_range; [done..|].
  pose proof (bw_cnt _ Hwf) as Hc.
  eapply (wp_loop (fun n i b' => b' = b /\ 0 <= i <= cnt /\ n = Z.to_nat (cnt - i) /\
    group b start i (negb v))).
  - intros n i b' (-> & Hi & -> & Hg). destruct (Z.ltb_spec i cnt) as [Hlt|Hge].
    + unfold u32. rewrite Z.mod_small by lia. apply wp_bind, wp_bitmap_test; [done|lia|]. apply wp_ret.
      destruct (eqb (bit b (start + i)) v) eqn:E.
      * apply HQ. split; [done|]. intros Hg'. rewrite (Hg' (start + i)) in E by lia. by destruct v.
      * exists (Z.to_nat (cnt - (i + 1))). split; [lia|]. split; [done|]. split; [lia|]. split; [done|].
        intros j Hj. destruct (decide (j = start + i)) as [->|]; [|apply Hg; lia].
        by destruct (bit b (start + i)), v.
    + apply wp_ret, HQ. split; [|done]. intros _. by replace cnt with i by lia.
  - split; [done|]. split; [lia|]. split; [done|]. intros j Hj. lia.
  - lia.
Qed.

(** What [bitmap_scan] finds. *)
Definition scan_result b start cnt v (r : Z) : Prop :=
  (start <= r /\ r + cnt <= bit_cnt b /\ group b r cnt v /\
     forall i, start <= i < r -> ~ group b i cnt v) \/
  (r = BITMAP_ERROR /\ forall i, start <= i -> i + cnt <= bit_cnt b -> ~ group b i cnt v).

Lemma wp_scan b start cnt v (Q : Z -> bitmap -> Prop) :
  bm_wf b -> 0 <= start <= bit_cnt b -> 0 <= cnt ->
  (forall r, scan_result b start cnt v r -> Q r b) -> wp (bitmap_scan start cnt v) b Q.
Proof.
  intros Hwf Hs Hn HQ. apply wp_bind, wp_get. apply wp_bind, wp_assert; [apply Z.leb_le; lia|].
  destruct (Z.leb_spec cnt (bit_cnt b)) as [Hle|Hgt]; cycle 1.
  { apply wp_ret, HQ. right. split; [done|]. lia. }
  set (last := bit_cnt b - cnt).
  eapply (wp_loop (fun n i b' => b' = b /\ start <= i /\ n = Z.to_nat (last + 1 - i) /\
    forall k, start <= k < i -> ~ group b k cnt v)).
  - intros n i b' (-> & Hi & -> & Hg). destruct (Z.leb_spec i last) as [Hlt|Hge].
    + apply wp_bind. apply wp_contains; [done|lia..|]. intros r Hr. rewrite negb_involutive in Hr.
      apply wp_ret. destruct r; simpl.
      * exists (Z.to_nat (last + 1 - (i + 1))). split; [lia|]. split; [done|]. split; [lia|].
        split; [done|]. intros k Hk. destruct (decide (k = i)) as [->|]; [|apply Hg; lia].
        intros G. by apply Hr in G.
      * apply HQ. left. split; [lia|]. split; [lia|]. split; [by apply Hr|done].
    + apply wp_ret, HQ. right. split; [done|]. intros k Hk1 Hk2. apply Hg. lia.
  - split; [done|]. split; [lia|]. split; [done|]. lia.
  - lia.
Qed.

(** [bitmap_scan_and_flip]: the first group of [cnt] bits [v] is inverted, or
    there is none and nothing changes. *)
Lemma wp_scan_and_flip b start cnt v (Q : Z -> bitmap -> Prop) :
  bm_wf b -> 0 <= start <= bit_cnt b -> 0 <= cnt ->
  (forall r b', scan_result b start cnt v r ->
     (r = BITMAP_ERROR -> b' = b) ->
     (r ≠ BITMAP_ERROR ->
        bits_are b b' (fun j => if (r <=? j) && (j <? r + cnt) then negb v else bit b j)) ->
     Q r b') ->
  wp (bitmap_scan_and_flip start cnt v) b Q.
Proof.
  intros Hwf Hs Hn HQ. apply wp_bind. apply wp_scan; [done..|]. intros r Hr. apply wp_bind.
  destruct (Z.eqb_spec r BITMAP_ERROR) as [->|Hne]; simpl.
  - by apply wp_ret, wp_ret, HQ.
  - destruct Hr as [(H1 & H2 & H3)|[-> _]]; [|done].
    apply wp_set_multiple; [done|lia..|]. intros b' Hb'. apply wp_ret, HQ; [by left|done|done].
Qed.

Lemma wp_bitmap_all b start cnt (Q : bool -> bitmap -> Prop) :
  bm_wf b -> 0 <= start -> 0 <= cnt -> start + cnt <= bit_cnt b ->
  (forall r, (r = true <-> group b start cnt true) -> Q r b) -> wp (bitmap_all start cnt) b Q.
Proof.
  intros. apply wp_bind, wp_contains; [done..|]. intros r Hr. apply wp_ret. simpl in Hr.
  apply H3. rewrite <-Hr. by destruct r.
Qed.

Lemma wp_set_all b v (Q : unit -> bitmap -> Prop) :
  bm_wf b -> (forall b', bits_are b b' (fun _ => v) -> Q tt b') -> wp (bitmap_set_all v) b Q.
Proof.
  intros Hwf HQ. apply wp_bind, wp_bind, wp_get. apply wp_ret. pose proof (bw_cnt _ Hwf).
  apply wp_set_multiple; [done|lia..|]. intros b' (H1 & H2 & H3). apply HQ. split_and!; [done..|].
  intros j Hj. rewrite H3 by done. rewrite (proj2 (Z.leb_le _ _)), (proj2 (Z.ltb_lt _ _)) by lia. done.
Qed.
End Ranges.

(** * Theorems *)

(** [bitmap_scan_and_flip] returns the first position at or after [start]
    where [cnt] consecutive bits are [value], and inverts exactly those bits;
    it returns [BITMAP_ERROR], and changes nothing, exactly when there is no
    such position. *)
Theorem bitmap_scan_and_flip_correct b start cnt value :
  bm_wf b -> 0 <= start <= bit_cnt b -> 0 <= cnt ->
  wp (bitmap_scan_and_flip start cnt value) b (fun r b' =>
    scan_result b start cnt value r /\ bm_wf b' /\ bit_cnt b' = bit_cnt b /\
    forall j, 0 <= j < bit_cnt b ->
      bit b' j = if negb (r =? BITMAP_ERROR) && ((r <=? j) && (j <? r + cnt))
                 then negb value else bit b j).
Proof.
  intros Hwf Hs Hn. apply wp_scan_and_flip; [done..|]. intros r b' Hr He Hf.
  split; [done|]. destruct (Z.eqb_spec r BITMAP_ERROR) as [->|Hne]; simpl.
  - by rewrite He.
  - by apply Hf.
Qed.

Lemma bitmap_scan_and_flip_correct_witness :
  wp (bitmap_scan_and_flip 1 2 false) (mk_bitmap 40 [5; 0]) (fun r b' =>
    scan_result (mk_bitmap 40 [5; 0]) 1 2 false r /\ bm_wf b' /\ bit_cnt b' = 40 /\
    forall j, 0 <= j < 40 ->
      bit b' j = if negb (r =? BITMAP_ERROR) && ((r <=? j) && (j <? r + 2))
                 then negb false else bit (mk_bitmap 40 [5; 0]) j).
Proof.
  apply (bitmap_scan_and_flip_correct (mk_bitmap 40 [5; 0]) 1 2 false).
  - split; [simpl; lia|reflexivity|]. repeat constructor; lia.
  - simpl. lia.
  - lia.
Defined.

(** For zero bits the result is [start], whatever the bitmap holds. *)
Theorem bitmap_scan_and_flip_zero b start value :
  bm_wf b -> 0 <= start <= bit_cnt b ->
  wp (bitmap_scan_and_flip start 0 value) b (fun r _ => r = start).
Proof.
  intros Hwf Hs. apply wp_scan_and_flip; [done|done|lia|]. intros r b' Hr _ _.
  assert (group b start 0 value) as G by (intros j Hj; lia).
  destruct Hr as [(H1 & H2 & H3 & H4)|[-> H]].
  - destruct (decide (r = start)) as [->|]; [done|]. exfalso. apply (H4 start); [lia|done].
  - exfalso. apply (H start); [lia|lia|done].
Qed.
