(* ===== verification/Palloc.v ===== *)
(** src/threads/palloc.c: the page allocator.

    The state is the machine's memory and the two pools.  A pool's [used_map]
    is a [Bitmap]; the pool lock is held only around [bitmap_scan_and_flip],
    which is one step of the model.  The pages of a pool start after the pages
    its bitmap is stored in, so the bitmap is kept apart from the memory that
    is handed out. *)
From stdpp Require Import base list numbers gmap fin_maps.
From Stdlib Require Import ZArith Lia.
From S2P Require Import Prelude Strings Vaddr Bitmap.

Open Scope Z_scope.

(** * State *)

Record pool : Type := mk_pool { used_map : bitmap; base : Z }.
Record machine : Type := mk_machine {
  kernel_pool : pool;
  user_pool : pool;
  ram : mem;     (* the bytes, by kernel virtual address *)
  cr3 : Z        (* page directory base register: a physical address *)
}.

Definition PAL_ASSERT : Z := 1.
Definition PAL_ZERO : Z := 2.
Definition PAL_USER : Z := 4.

Definition the_pool (user : bool) (s : machine) : pool :=
  if user then user_pool s else kernel_pool s.
Definition set_pool (user : bool) (p : pool) (s : machine) : machine :=
  if user then mk_machine (kernel_pool s) p (ram s) (cr3 s)
  else mk_machine p (user_pool s) (ram s) (cr3 s).
Definition set_ram (m : mem) (s : machine) : machine :=
  mk_machine (kernel_pool s) (user_pool s) m (cr3 s).

(** A computation on one pool's bitmap, or on the memory. *)
Definition on_map {A} (user : bool) (c : M bitmap A) : M machine A :=
  fun s => match c (used_map (the_pool user s)) with
           | Ok (a, b) => Ok (a, set_pool user (mk_pool b (base (the_pool user s))) s)
           | Err e => Err e
           end.
Definition on_ram {A} (c : M mem A) : M machine A :=
  fun s => match c (ram s) with Ok (a, m) => Ok (a, set_ram m s) | Err e => Err e end.

(** * Operations *)

Definition palloc_get_multiple (flags page_cnt : Z) : M machine Z :=
  let user := flag flags PAL_USER in
  if page_cnt =? 0 then mret NULL
  else
    page_idx ← on_map user (bitmap_scan_and_flip 0 page_cnt false);
    s ← mget;
    let pages := if negb (page_idx =? BITMAP_ERROR)
                 then u32 (base (the_pool user s) + PGSIZE * page_idx) else NULL in
    (if nonnull pages then
       if flag flags PAL_ZERO
       then on_ram (memset pages 0 (Z.to_nat (u32 (PGSIZE * page_cnt))));; mret tt
       else mret tt
     else if flag flags PAL_ASSERT then mfail Panic else mret tt);;
    mret pages.

Definition palloc_get_page (flags : Z) : M machine Z := palloc_get_multiple flags 1.

Definition page_from_pool (p : pool) (page : Z) : bool :=
  let page_no := pg_no page in
  let start_page := pg_no (base p) in
  let end_page := u32 (start_page + bit_cnt (used_map p)) in
  (start_page <=? page_no) && (page_no <? end_page).

Definition palloc_free_multiple (pages page_cnt : Z) : M machine unit :=
  ASSERT (pg_ofs pages =? 0);;
  if (pages =? NULL) || (page_cnt =? 0) then mret tt
  else
    s ← mget;
    user ← (if page_from_pool (kernel_pool s) pages then mret false
            else if page_from_pool (user_pool s) pages then mret true
            else mfail Panic);
    let page_idx := u32 (pg_no pages - pg_no (base (the_pool user s))) in
    on_ram (memset pages 0xcc (Z.to_nat (u32 (PGSIZE * page_cnt))));;
    all ← on_map user (bitmap_all page_idx page_cnt);
    ASSERT all;;
    on_map user (bitmap_set_multiple page_idx page_cnt false).

Definition palloc_free_page (page : Z) : M machine unit := palloc_free_multiple page 1.

(** [old] is what the memory of the bitmap holds before. *)
Definition init_pool (old : list Z) (start page_cnt : Z) : res pool :=
  let bm_pages := u32 (bitmap_buf_size page_cnt + PGSIZE - 1) / PGSIZE in
  if page_cnt <? bm_pages then Err Panic
  else
    let page_cnt := page_cnt - bm_pages in
    b ← bitmap_create_in_buf page_cnt old (u32 (bm_pages * PGSIZE));
    mret (mk_pool b (u32 (start + bm_pages * PGSIZE))).

Definition palloc_init (init_ram_pages user_page_limit : Z) (old_k old_u : list Z) (m : mem) (c : Z) :
    res machine :=
  '(free_start, _) ← ptov (1024 * 1024) tt;
  '(free_end, _) ← ptov (u32 (init_ram_pages * PGSIZE)) tt;
  let free_pages := Z.quot (free_end - free_start) PGSIZE in
  let user_pages := free_pages / 2 in
  let user_pages := if user_page_limit <? user_pages then user_page_limit else user_pages in
  let kernel_pages := free_pages - user_pages in
  k ← init_pool old_k free_start kernel_pages;
  u ← init_pool old_u (u32 (free_start + kernel_pages * PGSIZE)) user_pages;
  mret (mk_machine k u m c).

(** * Well-formed machines and allocated pages *)

Abbreviation pages_of p := (bit_cnt (used_map p)).

Record pool_wf (m : mem) (p : pool) : Prop := {
  pw_map : bm_wf (used_map p);
  pw_align : base p mod 4096 = 0;
  pw_low : PHYS_BASE <= base p;
  pw_high : base p + 4096 * pages_of p <= 2 ^ 32 - 4096;
  pw_mapped : mapped m (base p) (Z.to_nat (4096 * pages_of p))
}.

Record machine_wf (s : machine) : Prop := {
  mw_kernel : pool_wf (ram s) (kernel_pool s);
  mw_user : pool_wf (ram s) (user_pool s);
  mw_apart : base (kernel_pool s) + 4096 * pages_of (kernel_pool s) <= base (user_pool s)
}.

(** [page] is one of the pages of pool [p]. *)
Definition in_pool (p : pool) (page : Z) : Prop :=
  page mod 4096 = 0 /\ base p <= page < base p + 4096 * pages_of p.

(** [page], one of the pages of [p], is allocated. *)
Definition pool_used (p : pool) (page : Z) : bool :=
  bit (used_map p) ((page - base p) / 4096).

(** [page] belongs to pool [user] and is allocated, or is free. *)
Definition owned (s : machine) (user : bool) (page : Z) : Prop :=
  in_pool (the_pool user s) page /\ pool_used (the_pool user s) page = true.
Definition free (s : machine) (user : bool) (page : Z) : Prop :=
  in_pool (the_pool user s) page /\ pool_used (the_pool user s) page = false.

(** The [cnt] pages starting at [pages]. *)
Definition in_group (pages cnt page : Z) : Prop :=
  page mod 4096 = 0 /\ pages <= page < pages + 4096 * cnt.

(** The pools are where they were; only the bits may differ. *)
Definition same_pools (s s' : machine) : Prop :=
  forall user, base (the_pool user s') = base (the_pool user s) /\
               pages_of (the_pool user s') = pages_of (the_pool user s).

(** * Allocation *)

Section Pools.
Implicit Types (s : machine) (p : pool).

Lemma mw_pool s user : machine_wf s -> pool_wf (ram s) (the_pool user s).
Proof. intros [Hk Hu _]. by destruct user. Qed.

Lemma the_set_pool user u p s :
  the_pool u (set_pool user p s) = if eqb u user then p else the_pool u s.
Proof. by destruct user, u. Qed.

Lemma set_pool_id user s : set_pool user (the_pool user s) s = s.
Proof. by destruct user, s. Qed.

Lemma ram_set_pool user p s : ram (set_pool user p s) = ram s.
Proof. by destruct user. Qed.

Lemma cr3_set_pool user p s : cr3 (set_pool user p s) = cr3 s.
Proof. by destruct user. Qed.

Lemma the_set_ram u m s : the_pool u (set_ram m s) = the_pool u s.
Proof. by destruct u. Qed.

(** The index of a page in its pool. *)
Lemma in_pool_index m p page :
  pool_wf m p -> in_pool p page ->
  0 <= (page - base p) / 4096 < pages_of p /\ page = base p + 4096 * ((page - base p) / 4096).
Proof.
  intros [_ Ha _ _ _] [Hm Hb]. Z.to_euclidean_division_equations. lia.
Qed.

Lemma page_in_pool m p i :
  pool_wf m p -> 0 <= i < pages_of p -> in_pool p (base p + 4096 * i).
Proof. intros [_ Ha _ _ _] Hi. split; [|lia]. Z.to_euclidean_division_equations. lia. Qed.

Lemma page_index p i : (base p + 4096 * i - base p) / 4096 = i.
Proof. replace (base p + 4096 * i - base p) with (i * 4096) by lia. by apply Z.div_mul. Qed.

Lemma in_pool_kernel_page m p page : pool_wf m p -> in_pool p page -> kernel_page page.
Proof. intros [_ _ Hl Hh _] [Ha Hb]. split; [lia|done]. Qed.

(** New bits and new memory of the same shape keep the machine well formed. *)
Lemma machine_wf_pool s user b m :
  machine_wf s -> bm_wf b -> bit_cnt b = pages_of (the_pool user s) -> dom m = dom (ram s) ->
  machine_wf (set_ram m (set_pool user (mk_pool b (base (the_pool user s))) s)).
Proof.
  intros [[K1 K2 K3 K4 K5] [U1 U2 U3 U4 U5] Hap] Hb Hc Hd.
  assert (forall a n, mapped (ram s) a n -> mapped m a n) as Hm by (intros; by apply (mapped_dom (ram s))).
  destruct user; simpl in *; split; try split; simpl; rewrite ?Hc; auto.
Qed.

Lemma wp_on_map {A} s user (c : M bitmap A) (Q : A -> machine -> Prop) :
  wp c (used_map (the_pool user s)) (fun a b =>
    Q a (set_pool user (mk_pool b (base (the_pool user s))) s)) ->
  wp (on_map user c) s Q.
Proof. unfold wp, on_map. by destruct (c _) as [[a b]|e]. Qed.

Lemma wp_on_ram {A} s (c : M mem A) (Q : A -> machine -> Prop) :
  wp c (ram s) (fun a m => Q a (set_ram m s)) -> wp (on_ram c) s Q.
Proof. unfold wp, on_ram. by destruct (c _) as [[a b]|e]. Qed.

Lemma owned_set_ram s m user page : owned (set_ram m s) user page <-> owned s user page.
Proof. unfold owned. by rewrite the_set_ram. Qed.

Lemma machine_wf_set_ram s m : machine_wf s -> dom m = dom (ram s) -> machine_wf (set_ram m s).
Proof.
  intros [[K1 K2 K3 K4 K5] [U1 U2 U3 U4 U5] Hap] Hd.
  split; [split|split|]; simpl; try done; by apply (mapped_dom (ram s)).
Qed.

(** What a successful [palloc_get_multiple] does. *)
Record got (s s' : machine) (user : bool) (cnt : Z) (zero : bool) (pages : Z) : Prop := {
  got_aligned : pages mod 4096 = 0;
  got_range : base (the_pool user s) <= pages /\
              pages + 4096 * cnt <= base (the_pool user s) + 4096 * pages_of (the_pool user s);
  got_free : forall page, in_group pages cnt page -> free s user page;
  got_owned : forall page, in_group pages cnt page -> owned s' user page;
  got_other : forall u page, in_pool (the_pool u s) page -> u ≠ user \/ ~ in_group pages cnt page ->
              pool_used (the_pool u s') page = pool_used (the_pool u s) page;
  got_ram : ram s' = if zero then put (ram s) pages (replicate (Z.to_nat (4096 * cnt)) 0) else ram s;
  got_cr3 : cr3 s' = cr3 s;
  got_pools : same_pools s s';
  got_wf : machine_wf s'
}.

(** There is no run of [cnt] free pages in the pool. *)
Definition no_run (p : pool) (cnt : Z) : Prop :=
  forall i, 0 <= i -> i + cnt <= pages_of p -> ~ group (used_map p) i cnt false.

Lemma got_intro s user cnt r b (zero : bool) :
  machine_wf s -> 0 < cnt -> 0 <= r -> r + cnt <= pages_of (the_pool user s) ->
  group (used_map (the_pool user s)) r cnt false ->
  bits_are (used_map (the_pool user s)) b
    (fun j => if (r <=? j) && (j <? r + cnt) then true else bit (used_map (the_pool user s)) j) ->
  let pages := base (the_pool user s) + 4096 * r in
  let m := if zero then put (ram s) pages (replicate (Z.to_nat (4096 * cnt)) 0) else ram s in
  got s (set_ram m (set_pool user (mk_pool b (base (the_pool user s))) s)) user cnt zero pages.
Proof.
  intros Hwf Hc H0 Hle Hg (Hb1 & Hb2 & Hb3) pages m.
  pose proof (mw_pool s user Hwf) as Hp. set (p := the_pool user s) in *.
  assert (forall page, in_group pages cnt page -> in_pool p page /\ r <= (page - base p) / 4096 < r + cnt) as Hin.
  { intros page [Ha Hr]. assert (in_pool p page) as Hi by (split; [done|lia]). split; [done|].
    destruct (in_pool_index _ _ _ Hp Hi) as [_ E]. lia. }
  assert (dom m = dom (ram s)) as Hd.
  { unfold m. destruct zero; [|done]. apply dom_put. rewrite length_replicate.
    intros i Hi. apply (pw_mapped _ _ Hp). lia. }
  split.
  - unfold pages. pose proof (pw_align _ _ Hp). Z.to_euclidean_division_equations. lia.
  - fold p. unfold pages. lia.
  - intros page Hpg. destruct (Hin _ Hpg) as [H1 H2]. split; [done|]. unfold pool_used. by apply Hg.
  - intros page Hpg. destruct (Hin _ Hpg) as [H1 H2]. unfold owned. rewrite the_set_ram, the_set_pool, eqb_reflx.
    split; [by destruct H1; split; simpl; rewrite ?Hb2|].
    unfold pool_used. simpl. destruct (in_pool_index _ _ _ Hp H1) as [H3 _]. rewrite Hb3 by done.
    rewrite (proj2 (Z.leb_le _ _)), (proj2 (Z.ltb_lt _ _)) by lia. done.
  - intros u page Hi Ho. rewrite the_set_ram, the_set_pool.
    destruct (eqb u user) eqn:E; [|done]. apply eqb_prop in E as ->. fold p in Hi |- *.
    unfold pool_used. simpl. destruct (in_pool_index _ _ _ Hp Hi) as [H3 H4]. rewrite Hb3 by done.
    destruct (Z.leb_spec r ((page - base p) / 4096)), (Z.ltb_spec ((page - base p) / 4096) (r + cnt)); try done.
    exfalso. destruct Ho as [|Ho]; [done|]. apply Ho. destruct Hi as [Hi1 _]. split; [done|]. unfold pages. lia.
  - done.
  - simpl. by rewrite cr3_set_pool.
  - intros u. rewrite the_set_ram, the_set_pool. destruct (eqb u user) eqn:E; [|done].
    apply eqb_prop in E as ->. done.
  - by apply machine_wf_pool.
Qed.

Lemma wp_palloc_get_multiple s flags cnt (Q : Z -> machine -> Prop) :
  machine_wf s -> 0 < cnt ->
  (forall pages s', got s s' (flag flags PAL_USER) cnt (flag flags PAL_ZERO) pages ->
     kernel_page pages -> Q pages s') ->
  (no_run (the_pool (flag flags PAL_USER) s) cnt -> flag flags PAL_ASSERT = false /\ Q NULL s) ->
  wp (palloc_get_multiple flags cnt) s Q.
Proof.
  intros Hwf Hc HQ HN. unfold palloc_get_multiple. rewrite (proj2 (Z.eqb_neq cnt 0)) by lia.
  set (user := flag flags PAL_USER) in *. pose proof (mw_pool s user Hwf) as Hp.
  set (p := the_pool user s) in *. pose proof (bw_cnt _ (pw_map _ _ Hp)) as Hcnt.
  apply wp_bind, wp_on_map. fold p. apply wp_scan_and_flip; [apply Hp|lia|lia|].
  intros r b Hr He Hf. apply wp_bind, wp_get. rewrite the_set_pool, eqb_reflx. simpl base.
  destruct (Z.eqb_spec r BITMAP_ERROR) as [->|Hne]; simpl.
  - rewrite He by done. replace (mk_pool (used_map p) (base p)) with p by (by destruct p).
    unfold p. rewrite set_pool_id. destruct HN as [-> HN]; [|by apply wp_ret].
    destruct Hr as [(? & ? & _)|[_ Hr]]; [exfalso; unfold BITMAP_ERROR in *; lia|]. exact Hr.
  - destruct Hr as [(H1 & H2 & H3 & _)|[-> _]]; [|done]. destruct Hp as [P1 P2 P3 P4 P5].
    assert (u32 (base p + PGSIZE * r) = base p + 4096 * r) as ->.
    { unfold u32. apply Z.mod_small. unpage. lia. }
    rewrite nonnull_true by (unfold NULL; unpage; lia).
    pose proof (got_intro s user cnt r b (flag flags PAL_ZERO) Hwf Hc H1 H2 H3 (Hf Hne)) as G.
    assert (kernel_page (base p + 4096 * r)) as Hk.
    { split; [unpage; lia|apply G]. }
    destruct (flag flags PAL_ZERO).
    + apply wp_bind, wp_bind, wp_on_ram. rewrite ram_set_pool.
      assert (u32 (PGSIZE * cnt) = 4096 * cnt) as -> by (unfold u32; apply Z.mod_small; unpage; lia).
      apply wp_memset; [unfold NULL; unpage; lia| |].
      * intros i Hi. apply P5. lia.
      * apply wp_ret, wp_ret, HQ; [exact G|exact Hk].
    + apply wp_bind, wp_ret, wp_ret, HQ; [|exact Hk]. cbv zeta in G. by destruct user, s.
Qed.

(** Allocation keeps the page directory: what it hands out was free. *)
Lemma got_owned_kept s s' user cnt zero pages u page :
  got s s' user cnt zero pages -> owned s u page -> owned s' u page /\ (u = user -> ~ in_group pages cnt page).
Proof.
  intros G [Hi Hu]. destruct (got_pools _ _ _ _ _ _ G u) as [Hb Hc].
  assert (u = user -> ~ in_group pages cnt page) as Hn.
  { intros -> Hg. apply (got_free _ _ _ _ _ _ G) in Hg as [_ Hg]. congruence. }
  split; [|done]. split; [by unfold in_pool; rewrite Hb, Hc|].
  rewrite (got_other _ _ _ _ _ _ G) by (try done; destruct (decide (u = user)); auto). done.
Qed.

(** What [palloc_free_multiple] does. *)
Record freed (s s' : machine) (user : bool) (cnt pages : Z) : Prop := {
  fr_free : forall page, in_group pages cnt page -> free s' user page;
  fr_other : forall u page, in_pool (the_pool u s) page -> u ≠ user \/ ~ in_group pages cnt page ->
             pool_used (the_pool u s') page = pool_used (the_pool u s) page;
  fr_ram : ram s' = put (ram s) pages (replicate (Z.to_nat (4096 * cnt)) 204);
  fr_cr3 : cr3 s' = cr3 s;
  fr_pools : same_pools s s';
  fr_wf : machine_wf s'
}.

Lemma page_from_pool_spec m p page :
  pool_wf m p -> page mod 4096 = 0 ->
  page_from_pool p page = true <-> in_pool p page.
Proof.
  intros [P1 P2 P3 P4 P5] Ha. unfold page_from_pool, in_pool. rewrite !pg_no_div, andb_true_iff, Z.leb_le, Z.ltb_lt.
  pose proof (bw_cnt _ P1). unfold u32. rewrite Z.mod_small by (unpage; Z.to_euclidean_division_equations; lia).
  split.
  - intros [H1 H2]. split; [done|]. Z.to_euclidean_division_equations. lia.
  - intros [_ H1]. Z.to_euclidean_division_equations. lia.
Qed.

(** The pool that [palloc_free_multiple] picks. *)
Lemma pick_pool s user page :
  machine_wf s -> in_pool (the_pool user s) page ->
  (if page_from_pool (kernel_pool s) page then mret false
   else if page_from_pool (user_pool s) page then mret true else mfail Panic) = (mret user : M machine bool).
Proof.
  intros Hwf Hi. destruct Hwf as [Hk Hu Hap].
  pose proof (page_from_pool_spec _ _ page Hk (proj1 Hi)) as Ek.
  pose proof (page_from_pool_spec _ _ page Hu (proj1 Hi)) as Eu.
  destruct user; simpl in Hi.
  - destruct (page_from_pool (kernel_pool s) page).
    + exfalso. apply proj1 in Ek. specialize (Ek eq_refl). destruct Ek, Hi. lia.
    + by rewrite (proj2 Eu).
  - by rewrite (proj2 Ek).
Qed.

Lemma freed_intro s user cnt i b :
  machine_wf s -> 0 < cnt -> 0 <= i -> i + cnt <= pages_of (the_pool user s) ->
  bits_are (used_map (the_pool user s)) b
    (fun j => if (i <=? j) && (j <? i + cnt) then false else bit (used_map (the_pool user s)) j) ->
  let pages := base (the_pool user s) + 4096 * i in
  let m := put (ram s) pages (replicate (Z.to_nat (4096 * cnt)) 204) in
  freed s (set_ram m (set_pool user (mk_pool b (base (the_pool user s))) s)) user cnt pages.
Proof.
  intros Hwf Hc H0 Hle (Hb1 & Hb2 & Hb3) pages m.
  pose proof (mw_pool s user Hwf) as Hp. set (p := the_pool user s) in *.
  split.
  - intros page [Ha Hr]. assert (in_pool p page) as Hi by (split; [done|unfold pages in Hr; lia]).
    destruct (in_pool_index _ _ _ Hp Hi) as [H3 H4]. unfold free, pool_used.
    rewrite the_set_ram, the_set_pool, eqb_reflx. simpl.
    split; [by destruct Hi; split; simpl; rewrite ?Hb2|]. fold p. rewrite Hb3 by done.
    unfold pages in Hr. rewrite (proj2 (Z.leb_le _ _)), (proj2 (Z.ltb_lt _ _)) by lia. done.
  - intros u page Hi Ho. rewrite the_set_ram, the_set_pool.
    destruct (eqb u user) eqn:E; [|done]. apply eqb_prop in E as ->. fold p in Hi |- *.
    unfold pool_used. simpl. destruct (in_pool_index _ _ _ Hp Hi) as [H3 H4]. rewrite Hb3 by done.
    destruct (Z.leb_spec i ((page - base p) / 4096)), (Z.ltb_spec ((page - base p) / 4096) (i + cnt)); try done.
    exfalso. destruct Ho as [|Ho]; [done|]. apply Ho. destruct Hi as [Hi1 _]. split; [done|]. unfold pages. lia.
  - done.
  - simpl. by rewrite cr3_set_pool.
  - intros u. rewrite the_set_ram, the_set_pool. destruct (eqb u user) eqn:E; [|done].
    apply eqb_prop in E as ->. done.
  - apply machine_wf_pool; [done..|]. apply dom_put. rewrite length_replicate.
    intros k Hk. apply (pw_mapped _ _ Hp). unfold pages in Hk. lia.
Qed.

Lemma set_ram_pool m user p s : set_pool user p (set_ram m s) = set_ram m (set_pool user p s).
Proof. by destruct user. Qed.

Lemma wp_palloc_free_multiple s user pages cnt (Q : unit -> machine -> Prop) :
  machine_wf s -> 0 < cnt -> pages mod 4096 = 0 ->
  (forall page, in_group pages cnt page -> owned s user page) ->
  (forall s', freed s s' user cnt pages -> Q tt s') ->
  wp (palloc_free_multiple pages cnt) s Q.
Proof.
  intros Hwf Hc Ha Hown HQ. pose proof (mw_pool s user Hwf) as Hp. set (p := the_pool user s) in *.
  destruct (Hown pages) as [Hi _]; [split; [done|lia]|]. fold p in Hi.
  destruct (Hown (pages + 4096 * (cnt - 1))) as [Hl _].
  { split; [Z.to_euclidean_division_equations; lia|lia]. }
  fold p in Hl. destruct (in_pool_index _ _ _ Hp Hi) as [Hi1 Hi2].
  set (i := (pages - base p) / 4096) in *. assert (i + cnt <= pages_of p) as Hle by (destruct Hl; lia).
  destruct Hp as [P1 P2 P3 P4 P5]. pose proof (bw_cnt _ P1) as Hcnt.
  unfold palloc_free_multiple. rewrite pg_ofs_mod, Ha. apply wp_bind, wp_assert; [done|].
  rewrite (proj2 (Z.eqb_neq pages NULL)) by (unfold NULL; unpage; lia).
  rewrite (proj2 (Z.eqb_neq cnt 0)) by lia. simpl. apply wp_bind, wp_get.
  rewrite (pick_pool s user) by done. apply wp_bind, wp_ret. fold p.
  assert (u32 (pg_no pages - pg_no (base p)) = i) as ->.
  { rewrite !pg_no_div. unfold u32. rewrite Z.mod_small; unfold i; Z.to_euclidean_division_equations; lia. }
  assert (u32 (PGSIZE * cnt) = 4096 * cnt) as -> by (unfold u32; apply Z.mod_small; unpage; lia).
  apply wp_bind, wp_on_ram. apply wp_memset; [unfold NULL; unpage; lia|intros k Hk; apply P5; lia|].
  apply wp_bind, wp_on_map. rewrite the_set_ram. fold p. apply wp_bitmap_all; [done|lia..|].
  intros r Hr. rewrite set_ram_pool. replace (mk_pool (used_map p) (base p)) with p by (by destruct p).
  unfold p at 1. rewrite set_pool_id. apply wp_bind, wp_assert.
  { apply Hr. intros j Hj. destruct (Hown (base p + 4096 * j)) as [_ Hu].
    - split; [Z.to_euclidean_division_equations; lia|lia].
    - fold p in Hu. unfold pool_used in Hu. by rewrite page_index in Hu. }
  apply wp_on_map. rewrite the_set_ram. fold p. apply wp_set_multiple; [done|lia..|].
  intros b Hb. apply HQ. rewrite set_ram_pool. rewrite Hi2.
  apply (freed_intro s user cnt i b); [done|done|lia|exact Hle|exact Hb].
Qed.
End Pools.

(** * Theorems *)

(** [palloc_get_multiple] returns page-aligned pages of the pool that the
    flags name, all of them free before and allocated after, zeroed if asked,
    and changes no other page's status and no other memory; it returns a null
    pointer, changing nothing, only when the pool has no run of free pages that
    long. *)
Theorem palloc_get_multiple_correct s flags cnt :
  machine_wf s -> 0 < cnt -> flag flags PAL_ASSERT = false ->
  wp (palloc_get_multiple flags cnt) s (fun pages s' =>
    (kernel_page pages /\ got s s' (flag flags PAL_USER) cnt (flag flags PAL_ZERO) pages) \/
    (pages = NULL /\ s' = s /\ no_run (the_pool (flag flags PAL_USER) s) cnt)).
Proof.
  intros Hwf Hc Hf. apply wp_palloc_get_multiple; [done|done| |].
  - intros pages s' G Hk. by left.
  - intros Hn. split; [done|]. by right.
Qed.

(** freeing pages that are allocated makes exactly those pages free again,
    whichever pool they came from. *)
Theorem palloc_free_multiple_correct s user pages cnt :
  machine_wf s -> 0 < cnt -> pages mod 4096 = 0 ->
  (forall page, in_group pages cnt page -> owned s user page) ->
  wp (palloc_free_multiple pages cnt) s (fun _ s' => freed s s' user cnt pages).
Proof. intros. by eapply wp_palloc_free_multiple. Qed.

(** A machine with four free pages in each pool, the first kernel page
    allocated. *)
Definition demo_base : Z := PHYS_BASE + 1024 * 1024.
Definition demo_machine : machine :=
  mk_machine (mk_pool (mk_bitmap 4 [1]) demo_base) (mk_pool (mk_bitmap 4 [0]) (demo_base + 4 * 4096))
    (put ∅ demo_base (replicate (Z.to_nat (8 * 4096)) 0)) 0.

Lemma demo_ram_mapped a n :
  demo_base <= a -> a + Z.of_nat n <= demo_base + 8 * 4096 -> mapped (ram demo_machine) a n.
Proof.
  intros H1 H2 i Hi. cbn [ram demo_machine]. rewrite lookup_put, length_replicate, decide_True by lia.
  apply lookup_lt_is_Some. rewrite length_replicate. lia.
Qed.

Lemma demo_machine_wf : machine_wf demo_machine.
Proof.
  split; [split|split|]; cbn [demo_machine kernel_pool user_pool used_map base bit_cnt]; unfold demo_base.
  - split; [simpl; lia|reflexivity|]. repeat constructor; lia.
  - reflexivity.
  - lia.
  - unpage. lia.
  - apply (demo_ram_mapped demo_base); unfold demo_base; lia.
  - split; [simpl; lia|reflexivity|]. repeat constructor; lia.
  - reflexivity.
  - lia.
  - unpage. lia.
  - apply (demo_ram_mapped (demo_base + 4 * 4096)); unfold demo_base; lia.
  - lia.
Qed.

Lemma palloc_get_multiple_correct_witness :
  wp (palloc_get_multiple PAL_ZERO 2) demo_machine (fun pages s' =>
    (kernel_page pages /\ got demo_machine s' false 2 true pages) \/
    (pages = NULL /\ s' = demo_machine /\ no_run (kernel_pool demo_machine) 2)).
Proof.
  apply (palloc_get_multiple_correct demo_machine PAL_ZERO 2).
  - exact demo_machine_wf.
  - reflexivity.
  - reflexivity.
Defined.

Lemma palloc_free_multiple_correct_witness :
  wp (palloc_free_multiple demo_base 1) demo_machine (fun _ s' =>
    freed demo_machine s' false 1 demo_base).
Proof.
  apply (palloc_free_multiple_correct demo_machine false demo_base 1).
  - exact demo_machine_wf.
  - reflexivity.
  - reflexivity.
  - intros page [Ha Hr]. assert (page = demo_base) as ->.
    { unfold demo_base in *. unpage. Z.to_euclidean_division_equations. lia. }
    split; [split; [reflexivity|split; [discriminate|reflexivity]]|reflexivity].
Defined.

