(* ===== verification/Pagedir.v ===== *)
(** src/userprog/pagedir.c and [install_page] of src/userprog/process.c: page
    directories and page tables in the memory of [Palloc], with the theorem
    that they implement a map from user pages to frames. *)
From stdpp Require Import base list numbers gmap fin_maps.
From Stdlib Require Import ZArith Lia.
From S2P Require Import Prelude Strings Vaddr Bitmap Palloc.

Open Scope Z_scope.

(** * Operations *)

Section Operations.
(** The kernel's page directory and the number of pages of RAM. *)
Context (init_page_dir init_ram_pages : Z).

Definition pagedir_create : M machine Z :=
  pd ← palloc_get_page 0;
  (if nonnull pd then on_ram (memcpy pd init_page_dir (Z.to_nat PGSIZE));; mret tt else mret tt);;
  mret pd.

(** The page table entry's address, or [NULL]. *)
Definition lookup_page (pd vaddr : Z) (create : bool) : M machine Z :=
  ASSERT (nonnull pd);;
  ASSERT (negb create || is_user_vaddr vaddr);;
  let pde := pd + 4 * pd_no vaddr in
  w ← on_ram (load32 pde);
  found ← (if w =? 0 then
             if create then
               pt ← palloc_get_page PAL_ZERO;
               if pt =? NULL then mret false
               else e ← pde_create pt; on_ram (store32 pde e);; mret true
             else mret false
           else mret true);
  if found : bool then
    w ← on_ram (load32 pde);
    pt ← pde_get_pt w;
    mret (pt + 4 * pt_no vaddr)
  else mret NULL.

Definition pagedir_set_page (pd upage kpage : Z) (writable : bool) : M machine bool :=
  ASSERT (pg_ofs upage =? 0);;
  ASSERT (pg_ofs kpage =? 0);;
  ASSERT (is_user_vaddr upage);;
  p ← vtop kpage;
  ASSERT (Z.shiftr p PTSHIFT <? init_ram_pages);;
  ASSERT (negb (pd =? init_page_dir));;
  pte ← lookup_page pd upage true;
  if nonnull pte then
    w ← on_ram (load32 pte);
    ASSERT (negb (flag w PTE_P));;
    e ← pte_create_user kpage writable;
    on_ram (store32 pte e);;
    mret true
  else mret false.

Definition pagedir_get_page (pd uaddr : Z) : M machine Z :=
  ASSERT (is_user_vaddr uaddr);;
  pte ← lookup_page pd uaddr false;
  if nonnull pte then
    w ← on_ram (load32 pte);
    if flag w PTE_P then p ← pte_get_page w; mret (p + pg_ofs uaddr) else mret NULL
  else mret NULL.

Definition pagedir_activate (pd : Z) : M machine unit :=
  let pd := if pd =? NULL then init_page_dir else pd in
  p ← vtop pd;
  s ← mget;
  mput (mk_machine (kernel_pool s) (user_pool s) (ram s) p).

Definition active_pd : M machine Z := s ← mget; ptov (cr3 s).

Definition invalidate_pagedir (pd : Z) : M machine unit :=
  a ← active_pd; if a =? pd then pagedir_activate pd else mret tt.

Definition pagedir_clear_page (pd upage : Z) : M machine unit :=
  ASSERT (pg_ofs upage =? 0);;
  ASSERT (is_user_vaddr upage);;
  pte ← lookup_page pd upage false;
  if nonnull pte then
    w ← on_ram (load32 pte);
    if flag w PTE_P then
      on_ram (store32 pte (Z.land w (u32 (Z.lnot PTE_P))));;
      invalidate_pagedir pd
    else mret tt
  else mret tt.

(** [pagedir_is_dirty] and [pagedir_is_accessed], which differ in the bit. *)
Definition pagedir_test_bit (mask pd vpage : Z) : M machine bool :=
  pte ← lookup_page pd vpage false;
  if nonnull pte then w ← on_ram (load32 pte); mret (flag w mask) else mret false.

(** [pagedir_set_dirty] and [pagedir_set_accessed]. *)
Definition pagedir_set_bit (mask pd vpage : Z) (on : bool) : M machine unit :=
  pte ← lookup_page pd vpage false;
  if nonnull pte then
    w ← on_ram (load32 pte);
    if on then on_ram (store32 pte (Z.lor w mask))
    else on_ram (store32 pte (Z.land w (u32 (Z.lnot mask))));; invalidate_pagedir pd
  else mret tt.

Definition pagedir_is_dirty : Z -> Z -> M machine bool := pagedir_test_bit PTE_D.
Definition pagedir_set_dirty : Z -> Z -> bool -> M machine unit := pagedir_set_bit PTE_D.
Definition pagedir_is_accessed : Z -> Z -> M machine bool := pagedir_test_bit PTE_A.
Definition pagedir_set_accessed : Z -> Z -> bool -> M machine unit := pagedir_set_bit PTE_A.

(** The inner loop of [pagedir_destroy], over the entries of one page table. *)
Definition destroy_pt (pt : Z) : M machine unit :=
  loop (S (Z.to_nat (PGSIZE / 4))) (fun pte =>
    if pte <? pt + 4 * (PGSIZE / 4) then
      w ← on_ram (load32 pte);
      (if flag w PTE_P then p ← pte_get_page w; palloc_free_page p else mret tt);;
      mret (inl (pte + 4))
    else mret (inr tt)) pt.

Definition pagedir_destroy (pd : Z) : M machine unit :=
  if pd =? NULL then mret tt
  else
    ASSERT (negb (pd =? init_page_dir));;
    loop (S (Z.to_nat (pd_no PHYS_BASE))) (fun pde =>
      if pde <? pd + 4 * pd_no PHYS_BASE then
        w ← on_ram (load32 pde);
        (if flag w PTE_P then
           pt ← pde_get_pt w;
           destroy_pt pt;;
           palloc_free_page pt
         else mret tt);;
        mret (inl (pde + 4))
      else mret (inr tt)) pd;;
    palloc_free_page pd.

(** process.c: [pagedir] is the current thread's page directory. *)
Definition install_page (pagedir upage kpage : Z) (writable : bool) : M machine bool :=
  p ← pagedir_get_page pagedir upage;
  if p =? NULL then pagedir_set_page pagedir upage kpage writable else mret false.
End Operations.

(** * Words of memory *)

(** The word at [a]. *)
Definition rd (m : mem) (a : Z) : Z :=
  let b i := default 0 (m !! (a + i)) in b 0 + 256 * (b 1 + 256 * (b 2 + 256 * b 3)).

Section Memory.
Implicit Types (m : mem).

Lemma rd_range m a : bytes_ok m -> 0 <= rd m a < 2 ^ 32.
Proof.
  intros H. assert (forall i, byte (default 0 (m !! i))) as B.
  { intros i. destruct (m !! i) as [b|] eqn:E; simpl; [exact (H _ _ E)|unfold byte; lia]. }
  unfold rd, byte in *. pose proof (B (a + 0)). pose proof (B (a + 1)). pose proof (B (a + 2)).
  pose proof (B (a + 3)). lia.
Qed.

Lemma rd_bytes_at m a bs : bytes_at m a bs -> length bs = 4%nat -> rd m a = unle bs.
Proof.
  destruct bs as [|b0 [|b1 [|b2 [|b3 [|]]]]]; try done. intros (H0 & H1 & H2 & H3 & _) _.
  unfold rd. rewrite Z.add_0_r, H0, H1. replace (a + 2) with (a + 1 + 1) by lia.
  replace (a + 3) with (a + 1 + 1 + 1) by lia. rewrite H2, H3. simpl. lia.
Qed.

Lemma rd_put_eq m a v : 0 <= v < 2 ^ 32 -> rd (put m a (le 4 v)) a = v.
Proof.
  intros Hv. rewrite (rd_bytes_at _ _ (le 4 v)); [by rewrite unle_le|apply put_bytes|done].
Qed.

Lemma rd_eq m m' a : (forall i, a <= i < a + 4 -> m' !! i = m !! i) -> rd m' a = rd m a.
Proof. intros H. unfold rd. by rewrite !H by lia. Qed.

Lemma rd_put_ne m a bs b :
  b + 4 <= a \/ a + Z.of_nat (length bs) <= b -> rd (put m a bs) b = rd m b.
Proof. intros H. apply rd_eq. intros i Hi. by rewrite lookup_put, decide_False by lia. Qed.

Lemma mapped_bytes_at m a : mapped m a 4 -> exists bs, bytes_at m a bs /\ length bs = 4%nat.
Proof.
  intros H. destruct (H a) as [b0 H0]; [lia|]. destruct (H (a + 1)) as [b1 H1]; [lia|].
  destruct (H (a + 1 + 1)) as [b2 H2]; [lia|]. destruct (H (a + 1 + 1 + 1)) as [b3 H3]; [lia|].
  by exists [b0; b1; b2; b3].
Qed.

Lemma wp_load_rd m a (Q : Z -> mem -> Prop) :
  mapped m a 4 -> Q (rd m a) m -> wp (load32 a) m Q.
Proof.
  intros Hm HQ. destruct (mapped_bytes_at m a Hm) as (bs & Hb & Hl).
  eapply wp_load_le; [done|done|]. by rewrite <-(rd_bytes_at m a bs).
Qed.

(** The bytes of a mapped block. *)
(** A word of a copy. *)
Lemma rd_copy m a d bs k : bytes_at m a bs -> 0 <= k -> k + 4 <= Z.of_nat (length bs) -> rd (put m d bs) (d + k) = rd m (a + k).
Proof.
  intros Hb H0 Hk. assert (forall i, 0 <= i < 4 -> put m d bs !! (d + k + i) = m !! (a + k + i)) as H.
  { intros i Hi. rewrite lookup_put, decide_True by lia. replace (Z.to_nat (d + k + i - d)) with (Z.to_nat (k + i)) by lia.
    destruct (lookup_lt_is_Some_2 bs (Z.to_nat (k + i))) as [b E]; [lia|]. rewrite E. symmetry. rewrite bytes_at_lookup in Hb.
    rewrite <-(Hb _ _ E). f_equal. lia. }
  unfold rd. by rewrite !H by lia.
Qed.

Lemma rd_zeros m a n b :
  a <= b -> b + 4 <= a + Z.of_nat n -> rd (put m a (replicate n 0)) b = 0.
Proof.
  intros H1 H2. unfold rd. assert (forall i, 0 <= i < 4 ->
    default 0 (put m a (replicate n 0) !! (b + i)) = 0) as Z0.
  { intros i Hi. rewrite lookup_put, length_replicate, decide_True by lia.
    rewrite lookup_replicate_2; [done|lia]. }
  rewrite !Z0 by lia. done.
Qed.
End Memory.

(** * Page directories as maps *)

(** [pts] are the page tables of [pd], by page directory index.  The page
    directory and the page tables are distinct allocated pages of the kernel
    pool, and every present entry names a frame of kernel memory. *)
Record pd_wf (s : machine) (pd : Z) (pts : gmap Z Z) : Prop := {
  pd_machine : machine_wf s;
  pd_bytes : bytes_ok (ram s);
  pd_owned : owned s false pd;
  pd_pdes : forall i, 0 <= i < 768 ->
    match pts !! i with
    | Some pt => flag (rd (ram s) (pd + 4 * i)) PTE_P = true /\
                 Z.land (rd (ram s) (pd + 4 * i)) PTE_ADDR = pt - PHYS_BASE
    | None => rd (ram s) (pd + 4 * i) = 0
    end;
  pd_pts : forall i pt, pts !! i = Some pt -> 0 <= i < 768 /\ owned s false pt /\ pt ≠ pd;
  pd_inj : forall i j pt, pts !! i = Some pt -> pts !! j = Some pt -> i = j;
  pd_ptes : forall i pt j, pts !! i = Some pt -> 0 <= j < 1024 ->
    flag (rd (ram s) (pt + 4 * j)) PTE_P = true ->
    exists page, kernel_page page /\ Z.land (rd (ram s) (pt + 4 * j)) PTE_ADDR = page - PHYS_BASE
}.

(** The present entry for [va], if any, and the address it translates to. *)
Definition mapping (s : machine) (pts : gmap Z Z) (va : Z) : option Z :=
  match pts !! pd_no va with
  | Some pt => let w := rd (ram s) (pt + 4 * pt_no va) in if flag w PTE_P then Some w else None
  | None => None
  end.
Definition frame_of (w : Z) : Z := Z.land w PTE_ADDR + PHYS_BASE.

Section Lookup.
Implicit Types (s : machine) (pts : gmap Z Z).

Lemma user_indices va : 0 <= va < PHYS_BASE -> 0 <= pd_no va < 768 /\ 0 <= pt_no va < 1024.
Proof.
  rewrite pd_no_div, pt_no_div. unpage. intros H. split; Z.to_euclidean_division_equations; lia.
Qed.

Lemma same_indices va vb :
  0 <= va < PHYS_BASE -> 0 <= vb < PHYS_BASE ->
  pd_no va = pd_no vb /\ pt_no va = pt_no vb <-> pg_no va = pg_no vb.
Proof.
  rewrite !pd_no_div, !pt_no_div, !pg_no_div. unpage. intros Ha Hb.
  split; [intros [H1 H2]|intros H1; split]; Z.to_euclidean_division_equations; lia.
Qed.

(** An allocated kernel page is mapped, and is a page of kernel memory. *)
Lemma owned_mapped s page :
  machine_wf s -> owned s false page -> mapped (ram s) page 4096 /\ kernel_page page.
Proof.
  intros Hwf [Hi _]. pose proof (mw_pool s false Hwf) as Hp.
  split; [|by eapply in_pool_kernel_page]. destruct (in_pool_index _ _ _ Hp Hi) as [H1 H2].
  intros i Hi'. apply (pw_mapped _ _ Hp). lia.
Qed.

Lemma page_word_mapped s page i :
  machine_wf s -> owned s false page -> 0 <= i < 1024 -> mapped (ram s) (page + 4 * i) 4.
Proof.
  intros Hwf Ho Hi. destruct (owned_mapped _ _ Hwf Ho) as [Hm _].
  intros k Hk. apply Hm. lia.
Qed.

Lemma wp_on_load s a (Q : Z -> machine -> Prop) :
  mapped (ram s) a 4 -> Q (rd (ram s) a) s -> wp (on_ram (load32 a)) s Q.
Proof.
  intros Hm HQ. apply wp_on_ram, wp_load_rd; [done|]. by destruct s.
Qed.

Lemma wp_on_store s a v (Q : unit -> machine -> Prop) :
  mapped (ram s) a 4 -> Q tt (set_ram (put (ram s) a (le 4 v)) s) -> wp (on_ram (store32 a v)) s Q.
Proof. intros Hm HQ. by apply wp_on_ram, wp_store32. Qed.

Lemma wp_entry_page s w page (Q : Z -> machine -> Prop) :
  kernel_page page -> Z.land w PTE_ADDR = page - PHYS_BASE ->
  Q page s -> wp (ptov (Z.land w PTE_ADDR)) s Q.
Proof.
  intros [Hk _] -> HQ. apply wp_ptov; [lia|lia|]. by replace (page - PHYS_BASE + PHYS_BASE) with page by lia.
Qed.

Lemma flag_zero mask : flag 0 mask = false. Proof. done. Qed.

Lemma wp_lookup_page s pd pts va (Q : Z -> machine -> Prop) :
  pd_wf s pd pts -> 0 <= va < PHYS_BASE ->
  Q (match pts !! pd_no va with Some pt => pt + 4 * pt_no va | None => NULL end) s ->
  wp (lookup_page pd va false) s Q.
Proof.
  intros Hwf Hva HQ. destruct (user_indices va Hva) as [Hi Hj]. pose proof (pd_machine _ _ _ Hwf) as Hm.
  destruct (owned_mapped _ _ Hm (pd_owned _ _ _ Hwf)) as [_ [Hk _]].
  unfold lookup_page. rewrite nonnull_true by (unfold NULL; unpage; lia).
  do 2 (apply wp_bind, wp_assert; [done|]). cbv zeta.
  assert (mapped (ram s) (pd + 4 * pd_no va) 4) as Hpd.
  { apply page_word_mapped; [done|apply Hwf|lia]. }
  apply wp_bind, wp_on_load; [done|]. pose proof (pd_pdes _ _ _ Hwf _ Hi) as Hpde.
  destruct (pts !! pd_no va) as [pt|] eqn:E.
  - destruct Hpde as [Hp Ha]. rewrite (proj2 (Z.eqb_neq _ 0)) by (intros E0; by rewrite E0 in Hp).
    apply wp_bind, wp_ret. apply wp_bind, wp_on_load; [done|]. apply wp_bind.
    apply wp_bind, wp_assert; [done|]. destruct (pd_pts _ _ _ Hwf _ _ E) as (_ & Ho & _).
    destruct (owned_mapped _ _ Hm Ho) as [_ Hkp].
    eapply wp_entry_page; [exact Hkp|done|]. by apply wp_ret.
  - rewrite Hpde. by apply wp_bind, wp_ret, wp_ret.
Qed.

Lemma wp_pagedir_get_page s pd pts va (Q : Z -> machine -> Prop) :
  pd_wf s pd pts -> 0 <= va < PHYS_BASE ->
  Q (match mapping s pts va with Some w => frame_of w + pg_ofs va | None => NULL end) s ->
  wp (pagedir_get_page pd va) s Q.
Proof.
  intros Hwf Hva HQ. destruct (user_indices va Hva) as [Hi Hj]. unfold pagedir_get_page, is_user_vaddr.
  apply wp_bind, wp_assert; [apply Z.ltb_lt; lia|]. apply wp_bind. eapply wp_lookup_page; [done|done|].
  unfold mapping in HQ. destruct (pts !! pd_no va) as [pt|] eqn:E; [|by apply wp_ret].
  destruct (pd_pts _ _ _ Hwf _ _ E) as (_ & Ho & _).
  destruct (owned_mapped _ _ (pd_machine _ _ _ Hwf) Ho) as [_ [Hk _]].
  rewrite nonnull_true by (unfold NULL; unpage; lia).
  apply wp_bind, wp_on_load; [by apply page_word_mapped; [apply Hwf| |]|]. cbv zeta in HQ.
  destruct (flag _ PTE_P) eqn:F; [|by apply wp_ret].
  destruct (pd_ptes _ _ _ Hwf _ _ _ E Hj F) as (page & Hkp & Ha). apply wp_bind.
  eapply wp_entry_page; [exact Hkp|done|]. apply wp_ret. unfold frame_of in HQ. rewrite Ha in HQ.
  by replace (page - PHYS_BASE + PHYS_BASE) with page in HQ by lia.
Qed.
End Lookup.

(** * Changing entries *)

Section Update.
Implicit Types (s : machine) (pts : gmap Z Z).

Lemma owned_aligned s page : owned s false page -> page mod 4096 = 0.
Proof. intros [[H _] _]. done. Qed.

(** Words of different pages, and different words of a page, do not overlap. *)
Lemma pages_apart p q i j :
  p mod 4096 = 0 -> q mod 4096 = 0 -> 0 <= i < 1024 -> 0 <= j < 1024 ->
  p ≠ q \/ i ≠ j -> p + 4 * i + 4 <= q + 4 * j \/ q + 4 * j + 4 <= p + 4 * i.
Proof. intros. Z.to_euclidean_division_equations. lia. Qed.

(** The entry [v] may be stored in a page table. *)
Definition entry_ok (v : Z) : Prop :=
  0 <= v < 2 ^ 32 /\
  (flag v PTE_P = true -> exists page, kernel_page page /\ Z.land v PTE_ADDR = page - PHYS_BASE).

Lemma pd_wf_store s pd pts i pt j v :
  pd_wf s pd pts -> pts !! i = Some pt -> 0 <= j < 1024 -> entry_ok v ->
  pd_wf (set_ram (put (ram s) (pt + 4 * j) (le 4 v)) s) pd pts.
Proof.
  intros [Hm Hb Ho Hpde Hpts Hinj Hpte] E Hj [Hv Hok]. destruct (Hpts _ _ E) as (Hi & Hopt & Hne).
  pose proof (owned_aligned _ _ Hopt) as Apt. pose proof (owned_aligned _ _ Ho) as Apd.
  split; cbn [ram set_ram]; [| |by apply owned_set_ram| |intros ? ? H; rewrite owned_set_ram; by apply Hpts|done|].
  - apply machine_wf_set_ram; [done|]. apply dom_put. rewrite length_le.
    by apply page_word_mapped.
  - apply bytes_ok_put; [done|apply le_bytes].
  - intros k Hk. specialize (Hpde k Hk). rewrite rd_put_ne; [done|]. rewrite length_le.
    pose proof (pages_apart pd pt k j). lia.
  - intros k q l Eq Hl. destruct (Hpts _ _ Eq) as (_ & Hoq & _). pose proof (owned_aligned _ _ Hoq) as Aq.
    destruct (decide (q = pt /\ l = j)) as [[-> ->]|Hd].
    + rewrite rd_put_eq by done. apply Hok.
    + rewrite rd_put_ne; [by apply (Hpte k)|]. rewrite length_le.
      pose proof (pages_apart q pt l j). lia.
Qed.

Lemma mapping_store s pd pts i pt j v va :
  pd_wf s pd pts -> pts !! i = Some pt -> 0 <= j < 1024 -> 0 <= v < 2 ^ 32 -> 0 <= va < PHYS_BASE ->
  mapping (set_ram (put (ram s) (pt + 4 * j) (le 4 v)) s) pts va =
    if bool_decide (pd_no va = i /\ pt_no va = j) then (if flag v PTE_P then Some v else None)
    else mapping s pts va.
Proof.
  intros [Hm Hb Ho Hpde Hpts Hinj Hpte] E Hj Hv Hva. destruct (user_indices va Hva) as [Hi' Hj'].
  unfold mapping. cbn [ram set_ram]. case_bool_decide as Hd.
  - destruct Hd as [-> ->]. rewrite E. by rewrite rd_put_eq.
  - destruct (pts !! pd_no va) as [q|] eqn:Eq; [|done]. destruct (Hpts _ _ E) as (_ & Ho1 & _).
    destruct (Hpts _ _ Eq) as (_ & Ho2 & _). cbv zeta. rewrite rd_put_ne; [done|]. rewrite length_le.
    pose proof (pages_apart q pt (pt_no va) j (owned_aligned _ _ Ho2) (owned_aligned _ _ Ho1) Hj' Hj) as Hap.
    destruct (decide (q = pt)) as [->|]; [|lia].
    pose proof (Hinj _ _ _ Eq E). destruct (decide (pt_no va = j)); [|lia]. exfalso. auto.
Qed.

(** Words of pages allocated before keep their values. *)
Lemma got_rd s s' zero pt page i :
  got s s' false 1 zero pt -> owned s false page -> 0 <= i < 1024 ->
  rd (ram s') (page + 4 * i) = rd (ram s) (page + 4 * i).
Proof.
  intros G Ho Hi. destruct (got_owned_kept _ _ _ _ _ _ _ _ G Ho) as [_ Hn].
  rewrite (got_ram _ _ _ _ _ _ G). destruct zero; [|done]. apply rd_put_ne.
  rewrite length_replicate. pose proof (owned_aligned _ _ Ho). pose proof (got_aligned _ _ _ _ _ _ G).
  assert (page ≠ pt) as Hne.
  { intros ->. apply Hn; [done|]. split; [done|lia]. }
  Z.to_euclidean_division_equations. lia.
Qed.

Lemma pde_of_flags pt :
  kernel_page pt -> flag (pde_of pt) PTE_P = true /\ Z.land (pde_of pt) PTE_ADDR = pt - PHYS_BASE /\
  0 <= pde_of pt < 2 ^ 32.
Proof.
  intros Hk. destruct (kernel_page_phys _ Hk) as [Hp Ha]. unfold pde_of. split_and!.
  - by rewrite flag_entry.
  - by rewrite entry_addr by (unpage; lia).
  - lia.
  - unpage; lia.
Qed.

(** The machine after a new page table [pt] has been hooked into [pd]. *)
Definition grown s' pd i pt : machine :=
  set_ram (put (ram s') (pd + 4 * i) (le 4 (pde_of pt))) s'.

Section Grow.
Context (s s' : machine) (pd : Z) (pts : gmap Z Z) (i pt : Z).
Context (Hwf : pd_wf s pd pts) (E : pts !! i = None) (Hi : 0 <= i < 768).
Context (G : got s s' false 1 true pt) (Hk : kernel_page pt).

Lemma grow_fresh : owned s' false pt /\ pt ≠ pd /\ owned s' false pd /\
  (forall j q, pts !! j = Some q -> owned s' false q /\ q ≠ pt).
Proof.
  assert (in_group pt 1 pt) as Hg by (split; [apply G|lia]).
  destruct (got_owned_kept _ _ _ _ _ _ _ _ G (pd_owned _ _ _ Hwf)) as [Ho' Hpd].
  split_and!; [by apply G|by intros ->; apply Hpd|done|].
  intros j q Ej. destruct (pd_pts _ _ _ Hwf _ _ Ej) as (_ & Hoq & _).
  destruct (got_owned_kept _ _ _ _ _ _ _ _ G Hoq) as [Hoq' Hq]. split; [done|].
  intros ->. by apply Hq.
Qed.

Lemma grow_reads :
  (forall q k, owned s false q -> q ≠ pd -> 0 <= k < 1024 ->
     rd (ram (grown s' pd i pt)) (q + 4 * k) = rd (ram s) (q + 4 * k)) /\
  (forall k, 0 <= k < 1024 -> rd (ram (grown s' pd i pt)) (pt + 4 * k) = 0) /\
  (forall k, 0 <= k < 1024 -> rd (ram (grown s' pd i pt)) (pd + 4 * k) =
     if decide (k = i) then pde_of pt else rd (ram s) (pd + 4 * k)).
Proof.
  destruct grow_fresh as (Hopt & Hne & Hopd & _). destruct (pde_of_flags pt Hk) as (_ & _ & F3).
  pose proof (owned_aligned _ _ Hopd) as Apd. pose proof (owned_aligned _ _ Hopt) as Apt.
  cbn [ram grown set_ram]. split_and!.
  - intros q k Hq Hqpd Hk'. rewrite rd_put_ne; [by eapply got_rd|].
    rewrite length_le. pose proof (pages_apart q pd k i (owned_aligned _ _ Hq)). lia.
  - intros k Hk'. rewrite rd_put_ne.
    + rewrite (got_ram _ _ _ _ _ _ G). apply rd_zeros; lia.
    + rewrite length_le. pose proof (pages_apart pt pd k i). lia.
  - intros k Hk'. destruct (decide (k = i)) as [->|]; [by rewrite rd_put_eq|].
    rewrite rd_put_ne; [apply (got_rd s s' true pt); [done|apply Hwf|done]|]. rewrite length_le. lia.
Qed.

Lemma pd_wf_grow : pd_wf (grown s' pd i pt) pd (<[i := pt]> pts).
Proof.
  destruct grow_fresh as (Hopt & Hne & Hopd & Hothers). destruct grow_reads as (R1 & R2 & R3).
  destruct (pde_of_flags pt Hk) as (F1 & F2 & _). pose proof Hwf as [Hm Hb Ho Hpde Hpts Hinj Hpte].
  split.
  - apply machine_wf_set_ram; [apply G|]. apply dom_put. rewrite length_le.
    apply page_word_mapped; [apply G|done|lia].
  - cbn [ram grown set_ram]. apply bytes_ok_put; [|apply le_bytes]. rewrite (got_ram _ _ _ _ _ _ G).
    apply bytes_ok_put; [done|]. apply Forall_replicate. unfold byte. lia.
  - by apply owned_set_ram.
  - intros k Hk'. rewrite R3 by lia. destruct (decide (k = i)) as [->|Hki].
    + rewrite lookup_insert_eq. done.
    + rewrite lookup_insert_ne by done. by apply Hpde.
  - intros k q. rewrite lookup_insert_Some. intros [[<- <-]|[_ Eq]].
    + split_and!; [lia|lia|by apply owned_set_ram|done].
    + destruct (Hpts _ _ Eq) as (? & _ & ?). split_and!; [lia|lia|apply owned_set_ram; by eapply Hothers|done].
  - intros k l q. rewrite !lookup_insert_Some.
    intros [[<- <-]|[_ Eq1]] [[<- Eq]|[_ Eq2]]; [done| | |by eapply Hinj].
    + by apply Hothers in Eq2 as [_ ?].
    + subst. by apply Hothers in Eq1 as [_ ?].
  - intros k q j. rewrite lookup_insert_Some. intros [[<- <-]|[_ Eq]] Hj.
    + by rewrite R2.
    + destruct (Hpts _ _ Eq) as (_ & Hoq & Hqpd). rewrite R1 by done. by apply (Hpte k).
Qed.

Lemma mapping_grow va :
  0 <= va < PHYS_BASE -> mapping (grown s' pd i pt) (<[i := pt]> pts) va = mapping s pts va.
Proof.
  intros Hva. destruct grow_reads as (R1 & R2 & _). destruct (user_indices va Hva) as [_ Hj].
  unfold mapping. destruct (decide (i = pd_no va)) as [->|Hd].
  - rewrite lookup_insert_eq, E. cbv zeta. by rewrite R2.
  - rewrite lookup_insert_ne by done. destruct (pts !! pd_no va) as [q|] eqn:Eq; [|done].
    destruct (pd_pts _ _ _ Hwf _ _ Eq) as (_ & Hoq & Hqpd). cbv zeta. by rewrite R1.
Qed.
End Grow.
End Update.

(** * The operations on the map *)

Section MapOperations.
Context (init_page_dir init_ram_pages : Z).
Implicit Types (s : machine) (pts : gmap Z Z).

(** The pages of the user pool, and which of them are allocated, are as before. *)
Definition kernel_only s s' : Prop :=
  same_pools s s' /\ (forall page, in_pool (user_pool s) page -> pool_used (user_pool s') page = pool_used (user_pool s) page) /\
  (forall a, base (user_pool s) <= a -> ram s' !! a = ram s !! a).

Lemma kernel_only_refl s : kernel_only s s.
Proof. by split_and!. Qed.

(** A store to a page of the kernel pool. *)
Lemma kernel_only_store s s' page i v :
  kernel_only s s' -> machine_wf s' -> owned s' false page -> 0 <= i < 1024 ->
  kernel_only s (set_ram (put (ram s') (page + 4 * i) (le 4 v)) s').
Proof.
  intros (H1 & H2 & H3) Hwf [[Ha Hr] _] Hi. split_and!; [done|done|]. intros a Hlo. cbn [ram set_ram]. rewrite lookup_put, length_le.
  rewrite decide_False; [by apply H3|]. pose proof (mw_apart _ Hwf) as Hap. destruct (H1 true) as [E1 E2]. simpl in *.
  pose proof (pw_align _ _ (mw_kernel _ Hwf)). Z.to_euclidean_division_equations. lia.
Qed.

Lemma kernel_only_got s s' zero pt : machine_wf s -> got s s' false 1 zero pt -> kernel_only s s'.
Proof.
  intros Hwf G. split_and!; [apply G|intros page Hp; apply (got_other _ _ _ _ _ _ G true); [done|by left]|].
  intros a Ha. rewrite (got_ram _ _ _ _ _ _ G). destruct zero; [|done]. rewrite lookup_put, length_replicate, decide_False; [done|].
  pose proof (got_range _ _ _ _ _ _ G). pose proof (mw_apart _ Hwf). simpl in *. lia.
Qed.

(** [lookup_page] with [create]: the entry's page table is there afterwards, or
    there was no memory for it. *)
Lemma wp_lookup_create s pd pts va (Q : Z -> machine -> Prop) :
  pd_wf s pd pts -> 0 <= va < PHYS_BASE ->
  (forall s' pts' pt, pd_wf s' pd pts' -> pts' !! pd_no va = Some pt ->
     (forall vb, 0 <= vb < PHYS_BASE -> mapping s' pts' vb = mapping s pts vb) -> kernel_only s s' ->
     Q (pt + 4 * pt_no va) s') ->
  (no_run (kernel_pool s) 1 -> Q NULL s) ->
  wp (lookup_page pd va true) s Q.
Proof.
  intros Hwf Hva HQ HN. destruct (user_indices va Hva) as [Hi Hj]. pose proof (pd_machine _ _ _ Hwf) as Hm.
  destruct (owned_mapped _ _ Hm (pd_owned _ _ _ Hwf)) as [_ [Hk _]].
  unfold lookup_page, is_user_vaddr. rewrite nonnull_true by (unfold NULL; unpage; lia).
  apply wp_bind, wp_assert; [done|]. apply wp_bind, wp_assert; [apply Z.ltb_lt; lia|]. cbv zeta.
  assert (mapped (ram s) (pd + 4 * pd_no va) 4) as Hpd.
  { apply page_word_mapped; [done|apply Hwf|lia]. }
  apply wp_bind, wp_on_load; [done|]. pose proof (pd_pdes _ _ _ Hwf _ Hi) as Hpde.
  destruct (pts !! pd_no va) as [pt|] eqn:E.
  - destruct Hpde as [Hp Ha]. rewrite (proj2 (Z.eqb_neq _ 0)) by (intros E0; by rewrite E0 in Hp).
    apply wp_bind, wp_ret. apply wp_bind, wp_on_load; [done|]. apply wp_bind.
    apply wp_bind, wp_assert; [done|]. destruct (pd_pts _ _ _ Hwf _ _ E) as (_ & Ho & _).
    destruct (owned_mapped _ _ Hm Ho) as [_ Hkp].
    eapply wp_entry_page; [exact Hkp|done|]. by apply wp_ret, (HQ s pts pt).
  - rewrite Hpde. apply wp_bind, wp_bind. apply wp_palloc_get_multiple; [done|lia| |].
    + intros pt s' G Hkp. rewrite (proj2 (Z.eqb_neq pt NULL)) by (destruct Hkp; unfold NULL; unpage; lia).
      apply wp_bind, wp_pde_create; [done|].
      assert (mapped (ram s') (pd + 4 * pd_no va) 4) as Hpd'.
      { apply page_word_mapped; [apply G| |lia].
        apply (got_owned_kept _ _ _ _ _ _ _ _ G (pd_owned _ _ _ Hwf)). }
      apply wp_bind, wp_on_store; [done|]. apply wp_ret.
      change (set_ram _ s') with (grown s' pd (pd_no va) pt).
      apply wp_bind, wp_on_load.
      { apply (mapped_dom (ram s')); [|done]. cbn [ram grown set_ram]. apply dom_put. by rewrite length_le. }
      destruct (pde_of_flags pt Hkp) as (_ & _ & F3). cbn [ram grown set_ram]. rewrite rd_put_eq by done.
      apply wp_bind, wp_pde_get_pt; [done|]. apply wp_ret, (HQ _ (<[pd_no va := pt]> pts) pt).
      * by apply (pd_wf_grow s).
      * apply lookup_insert_eq.
      * intros vb Hvb. by apply mapping_grow.
      * apply kernel_only_store; [by eapply kernel_only_got|apply G| |lia].
        apply (got_owned_kept _ _ _ _ _ _ _ _ G (pd_owned _ _ _ Hwf)).
    + intros Hn. split; [done|]. by apply wp_ret, wp_ret, HN.
Qed.

(** [m2] maps [va]'s page to [v] and every other page as [m1]. *)
Definition remapped s pts s' pts' (va : Z) (v : option Z) : Prop :=
  forall vb, 0 <= vb < PHYS_BASE ->
    mapping s' pts' vb = if pg_no vb =? pg_no va then v else mapping s pts vb.

Lemma remapped_store s pd pts pt va v :
  pd_wf s pd pts -> 0 <= va < PHYS_BASE -> pts !! pd_no va = Some pt -> entry_ok v ->
  let s' := set_ram (put (ram s) (pt + 4 * pt_no va) (le 4 v)) s in
  pd_wf s' pd pts /\ remapped s pts s' pts va (if flag v PTE_P then Some v else None).
Proof.
  intros Hwf Hva E Hok s'. destruct (user_indices va Hva) as [Hi Hj]. split.
  - by eapply pd_wf_store.
  - intros vb Hvb. unfold s'. erewrite mapping_store by (try done; apply Hok).
    pose proof (same_indices vb va Hvb Hva) as Hsame.
    destruct (Z.eqb_spec (pg_no vb) (pg_no va)) as [Heq|Hne].
    + rewrite bool_decide_eq_true_2 by (by apply Hsame). done.
    + rewrite bool_decide_eq_false_2; [done|]. intros H. by apply Hne, Hsame.
Qed.

Lemma pte_of_ok kpage w :
  kernel_page kpage -> entry_ok (pte_of kpage w) /\ flag (pte_of kpage w) PTE_P = true /\
  frame_of (pte_of kpage w) = kpage /\ flag (pte_of kpage w) PTE_W = w /\ flag (pte_of kpage w) PTE_U = true.
Proof.
  intros Hk. destruct (kernel_page_phys _ Hk) as [Hp Ha].
  assert (Z.land (pte_of kpage w) PTE_ADDR = kpage - PHYS_BASE) as Hadr.
  { unfold pte_of. rewrite entry_addr by (destruct w; unpage; lia). done. }
  split_and!.
  - split; [unfold pte_of; destruct w; unpage; lia|]. intros _. by exists kpage.
  - rewrite pte_flags by done. by destruct w.
  - unfold frame_of. rewrite Hadr. lia.
  - rewrite pte_flags by done. by destruct w.
  - rewrite pte_flags by done. by destruct w.
Qed.

Lemma wp_pagedir_set_page s pd pts upage kpage w (Q : bool -> machine -> Prop) :
  pd_wf s pd pts -> 0 <= upage < PHYS_BASE -> upage mod 4096 = 0 -> mapping s pts upage = None ->
  kernel_page kpage -> (kpage - PHYS_BASE) / 4096 < init_ram_pages -> pd ≠ init_page_dir ->
  (forall s' pts', pd_wf s' pd pts' ->
     remapped s pts s' pts' upage (Some (pte_of kpage w)) -> kernel_only s s' -> Q true s') ->
  (no_run (kernel_pool s) 1 -> Q false s) ->
  wp (pagedir_set_page init_page_dir init_ram_pages pd upage kpage w) s Q.
Proof.
  intros Hwf Hu Hua Hnone Hk Hram Hpd HQ HN. pose proof Hk as [Hk1 Hk2].
  unfold pagedir_set_page, is_user_vaddr. rewrite !pg_ofs_mod, Hua, Hk2.
  do 2 (apply wp_bind, wp_assert; [done|]). apply wp_bind, wp_assert; [apply Z.ltb_lt; lia|].
  apply wp_bind. apply wp_bind, wp_assert; [apply Z.leb_le; lia|]. apply wp_ret.
  apply wp_bind, wp_assert; [rewrite Z.shiftr_div_pow2 by done; by apply Z.ltb_lt|].
  apply wp_bind, wp_assert; [by apply negb_true_iff, Z.eqb_neq|].
  apply wp_bind. eapply wp_lookup_create; [done|done| |].
  - intros s' pts' pt Hwf' E Hsame Hko. destruct (user_indices upage Hu) as [Hi Hj].
    destruct (pd_pts _ _ _ Hwf' _ _ E) as (_ & Ho & _).
    pose proof (pd_machine _ _ _ Hwf') as Hm. destruct (owned_mapped _ _ Hm Ho) as [_ [Hkp _]].
    rewrite nonnull_true by (unfold NULL; unpage; lia).
    apply wp_bind, wp_on_load; [by apply page_word_mapped|]. apply wp_bind, wp_assert.
    { rewrite <-Hsame in Hnone by done. unfold mapping in Hnone. rewrite E in Hnone. cbv zeta in Hnone.
      by destruct (flag _ PTE_P). }
    apply wp_bind, wp_pte_create_user; [done|]. apply wp_bind, wp_on_store; [by apply page_word_mapped|].
    apply wp_ret. destruct (pte_of_ok kpage w Hk) as (Hok & HP & _).
    destruct (remapped_store s' pd pts' pt upage _ Hwf' Hu E Hok) as [Hw Hr]. rewrite HP in Hr.
    apply (HQ _ pts'); [done| |by apply kernel_only_store]. intros vb Hvb. rewrite Hr by done. destruct (_ =? _); [done|]. by apply Hsame.
  - intros Hn. by apply wp_ret, HN.
Qed.

(** The kernel's page directory: an allocated page that maps no user memory. *)
Definition kernel_dir s : Prop :=
  owned s false init_page_dir /\ forall i, 0 <= i < 768 -> rd (ram s) (init_page_dir + 4 * i) = 0.

(** [pagedir_create] copies the kernel's page directory to a new page. *)
Lemma wp_pagedir_copy s (Q : Z -> machine -> Prop) :
  machine_wf s -> bytes_ok (ram s) -> owned s false init_page_dir ->
  (forall pd s1 bs, got s s1 false 1 false pd -> kernel_page pd -> pd ≠ init_page_dir ->
     Z.of_nat (length bs) = 4096 -> bytes_at (ram s) init_page_dir bs -> Forall byte bs ->
     Q pd (set_ram (put (ram s1) pd bs) s1)) -> Q NULL s ->
  wp (pagedir_create init_page_dir) s Q.
Proof.
  intros Hwf Hb Ho HQ HN. apply wp_bind. apply wp_palloc_get_multiple; [done|lia| |]; cycle 1.
  { intros _. split; [done|]. by apply wp_bind, wp_ret, wp_ret. }
  change (flag 0 PAL_USER) with false. change (flag 0 PAL_ZERO) with false. intros pd s1 G Hk.
  pose proof (got_ram _ _ _ _ _ _ G) as Er. cbn in Er. pose proof Hk as [Hk1 Hk2]. rewrite nonnull_true by (unfold NULL; unpage; lia).
  destruct (got_owned_kept _ _ _ _ _ _ _ _ G Ho) as [Ho1 Hne]. assert (in_group pd 1 pd) as Hg by (split; [done|lia]).
  assert (init_page_dir ≠ pd) as Hd by (intros E; rewrite E in Hne; by apply Hne).
  pose proof (got_owned _ _ _ _ _ _ G _ Hg) as Hop. destruct (owned_mapped _ _ (got_wf _ _ _ _ _ _ G) Hop) as [Hmp _].
  destruct (owned_mapped _ _ Hwf Ho) as [Hmi [Hi1 Hi2]]. destruct (mapped_bytes _ _ _ Hb Hmi) as (bs & Hl & Hbs & Hby).
  apply wp_bind, wp_bind, wp_on_ram. change (Z.to_nat PGSIZE) with 4096%nat. rewrite <-Hl.
  apply (wp_memcpy _ pd init_page_dir bs); [unfold NULL; unpage; lia|unfold NULL; unpage; lia|by rewrite Er|done|by rewrite Hl| |].
  { rewrite Hl. Z.to_euclidean_division_equations. lia. }
  do 2 apply wp_ret. apply HQ; [done|done|done|lia|done|done].
Qed.

Lemma wp_pagedir_create s (Q : Z -> machine -> Prop) :
  machine_wf s -> bytes_ok (ram s) -> kernel_dir s ->
  (forall pd s', pd_wf s' pd ∅ -> pd ≠ init_page_dir -> kernel_page pd -> kernel_only s s' -> Q pd s') -> Q NULL s ->
  wp (pagedir_create init_page_dir) s Q.
Proof.
  intros Hwf Hb [Ho Hz] HQ HN. apply wp_pagedir_copy; [done..| |done]. intros pd s1 bs G Hk Hd Hl Hbs Hby.
  pose proof (got_ram _ _ _ _ _ _ G) as Er. cbn in Er. assert (in_group pd 1 pd) as Hg by (split; [apply Hk|lia]).
  pose proof (got_owned _ _ _ _ _ _ G _ Hg) as Hop. destruct (owned_mapped _ _ (got_wf _ _ _ _ _ _ G) Hop) as [Hmp _].
  apply HQ; [|done|done|].
  - split; cbn [ram set_ram].
    + apply machine_wf_set_ram; [apply G|]. apply dom_put. by replace (length bs) with 4096%nat by lia.
    + rewrite Er. by apply bytes_ok_put.
    + by apply owned_set_ram.
    + intros i Hi. rewrite lookup_empty, <-(Hz i Hi), Er. apply rd_copy; [done|lia|lia].
    + intros i pt H. by rewrite lookup_empty in H.
    + intros i j pt H. by rewrite lookup_empty in H.
    + intros i pt j H. by rewrite lookup_empty in H.
  - destruct (kernel_only_got _ _ _ _ Hwf G) as (K1 & K2 & K3). split_and!; [done|done|]. intros a Ha. cbn [ram set_ram].
    rewrite lookup_put, decide_False; [by apply K3|]. pose proof (got_range _ _ _ _ _ _ G). pose proof (mw_apart _ Hwf). simpl in *. lia.
Qed.

Lemma wp_install_page s pd pts upage kpage w (Q : bool -> machine -> Prop) :
  pd_wf s pd pts -> 0 <= upage < PHYS_BASE -> upage mod 4096 = 0 ->
  kernel_page kpage -> (kpage - PHYS_BASE) / 4096 < init_ram_pages -> pd ≠ init_page_dir ->
  (forall s' pts', mapping s pts upage = None -> pd_wf s' pd pts' ->
     remapped s pts s' pts' upage (Some (pte_of kpage w)) -> kernel_only s s' -> Q true s') ->
  (mapping s pts upage ≠ None \/ no_run (kernel_pool s) 1 -> Q false s) ->
  wp (install_page init_page_dir init_ram_pages pd upage kpage w) s Q.
Proof.
  intros Hwf Hu Hua Hk Hram Hpd HQ HN. apply wp_bind. eapply wp_pagedir_get_page; [done|done|].
  destruct (mapping s pts upage) as [e|] eqn:E.
  - assert (0 <= Z.land e PTE_ADDR) by (apply Z.land_nonneg; by right).
    rewrite (proj2 (Z.eqb_neq _ NULL)); [by apply wp_ret, HN; left|].
    rewrite pg_ofs_mod, Hua. unfold frame_of, NULL. unpage. lia.
  - rewrite Z.eqb_refl. eapply wp_pagedir_set_page; [done..| |].
    + intros s' pts' Hwf' Hr Hko. by eapply HQ.
    + intros Hn. apply HN. by right.
Qed.

(** CR3 holds the physical address of a page. *)
Definition cr3_ok s : Prop := kernel_page (cr3 s + PHYS_BASE).

Lemma wp_invalidate s pd (Q : unit -> machine -> Prop) :
  cr3_ok s -> pd ≠ NULL -> Q tt s -> wp (invalidate_pagedir init_page_dir pd) s Q.
Proof.
  intros Hc Hpd HQ. pose proof (kernel_page_phys _ Hc) as [Hp _]. destruct Hc as [Hc _].
  apply wp_bind, wp_bind, wp_get. apply wp_ptov; [lia|lia|].
  destruct (Z.eqb_spec (cr3 s + PHYS_BASE) pd) as [<-|]; [|by apply wp_ret].
  unfold pagedir_activate. rewrite (proj2 (Z.eqb_neq _ NULL)) by done.
  apply wp_bind, wp_bind, wp_assert; [apply Z.leb_le; lia|]. apply wp_ret.
  apply wp_bind, wp_get, wp_put. replace (cr3 s + PHYS_BASE - PHYS_BASE) with (cr3 s) by lia.
  by destruct s.
Qed.

(** A present bit cleared, the other bits kept. *)
Lemma clear_present w : 0 <= w < 2 ^ 32 -> entry_ok (Z.land w (u32 (Z.lnot PTE_P))) /\
  flag (Z.land w (u32 (Z.lnot PTE_P))) PTE_P = false.
Proof.
  intros Hw. assert (flag (Z.land w (u32 (Z.lnot PTE_P))) PTE_P = false) as F.
  { unfold flag. rewrite <-Z.land_assoc. change (Z.land (u32 (Z.lnot PTE_P)) PTE_P) with 0.
    by rewrite Z.land_0_r. }
  split; [|done]. split; [|by rewrite F]. apply fits_u32. split; [apply Z.land_nonneg; lia|].
  intros k Hk. rewrite Z.land_spec. apply fits_u32 in Hw as [_ Hw]. by rewrite Hw.
Qed.

Lemma wp_pagedir_clear_page s pd pts upage (Q : unit -> machine -> Prop) :
  pd_wf s pd pts -> 0 <= upage < PHYS_BASE -> upage mod 4096 = 0 -> cr3_ok s ->
  (forall s', pd_wf s' pd pts -> remapped s pts s' pts upage None -> Q tt s') ->
  wp (pagedir_clear_page init_page_dir pd upage) s Q.
Proof.
  intros Hwf Hu Hua Hc HQ. unfold pagedir_clear_page, is_user_vaddr. rewrite pg_ofs_mod, Hua.
  apply wp_bind, wp_assert; [done|]. apply wp_bind, wp_assert; [apply Z.ltb_lt; lia|].
  apply wp_bind. eapply wp_lookup_page; [done|done|]. destruct (user_indices upage Hu) as [Hi Hj].
  assert (mapping s pts upage = None -> Q tt s) as Hnone.
  { intros Hm. apply HQ; [done|]. intros vb Hvb. destruct (Z.eqb_spec (pg_no vb) (pg_no upage)) as [He|]; [|done].
    apply same_indices in He as [E1 E2]; [|done|done]. rewrite <-Hm. unfold mapping. by rewrite E1, E2. }
  pose proof (pd_machine _ _ _ Hwf) as Hm.
  destruct (owned_mapped _ _ Hm (pd_owned _ _ _ Hwf)) as [_ [Hkd _]].
  destruct (pts !! pd_no upage) as [pt|] eqn:E.
  - destruct (pd_pts _ _ _ Hwf _ _ E) as (_ & Ho & _). destruct (owned_mapped _ _ Hm Ho) as [_ [Hkp _]].
    rewrite nonnull_true by (unfold NULL; unpage; lia).
    assert (mapped (ram s) (pt + 4 * pt_no upage) 4) as Hma by (by apply page_word_mapped).
    apply wp_bind, wp_on_load; [done|]. destruct (flag (rd _ _) PTE_P) eqn:F.
    + apply wp_bind, wp_on_store; [done|].
      destruct (clear_present (rd (ram s) (pt + 4 * pt_no upage))) as [Hok HP].
      { apply rd_range, Hwf. }
      destruct (remapped_store s pd pts pt upage _ Hwf Hu E Hok) as [Hw Hr]. rewrite HP in Hr.
      apply wp_invalidate; [done|unfold NULL; unpage; lia|]. by apply HQ.
    + apply wp_ret, Hnone. unfold mapping. rewrite E. cbv zeta. by rewrite F.
  - apply wp_ret, Hnone. unfold mapping. by rewrite E.
Qed.
End MapOperations.

(** ** Changes in the user pool *)

Section Users.
Implicit Types (s : machine) (pts : gmap Z Z).

(** Nothing below the user pool, and no kernel page, has changed. *)
Record user_only s s' : Prop := {
  uo_wf : machine_wf s';
  uo_bytes : bytes_ok (ram s');
  uo_pools : same_pools s s';
  uo_kernel : forall page, in_pool (kernel_pool s) page -> pool_used (kernel_pool s') page = pool_used (kernel_pool s) page;
  uo_ram : forall a, a < base (user_pool s) -> ram s' !! a = ram s !! a
}.

Lemma pd_wf_user s s' pd pts :
  pd_wf s pd pts -> user_only s s' -> pd_wf s' pd pts /\ forall va, 0 <= va < PHYS_BASE -> mapping s' pts va = mapping s pts va.
Proof.
  intros [W1 W2 W3 W4 W5 W6 W7] [U1 U2 U3 U4 U5]. destruct (U3 false) as [E1 E2]. simpl in E1, E2.
  assert (forall page, owned s false page -> owned s' false page) as Hown.
  { intros page [Hi Hu]. split; [unfold in_pool in *; simpl; by rewrite E1, E2|]. simpl in *. by rewrite U4. }
  assert (forall page j, owned s false page -> 0 <= j < 1024 -> rd (ram s') (page + 4 * j) = rd (ram s) (page + 4 * j)) as Hrd.
  { intros page j [[Ha Hr] _] Hj. apply rd_eq. intros i Hi. apply U5. pose proof (mw_apart _ W1). simpl in *.
    pose proof (pw_align _ _ (mw_kernel _ W1)). Z.to_euclidean_division_equations. lia. }
  split.
  - split; try done; [by apply Hown| | |].
    + intros i Hi. specialize (W4 i Hi). rewrite Hrd; [done|done|lia].
    + intros i pt Hpt. destruct (W5 i pt Hpt) as (? & ? & ?). split_and!; try done; [lia|lia|by apply Hown].
    + intros i pt j Hpt Hj. rewrite Hrd by (try done; by apply (W5 i)). by apply (W7 i).
  - intros va Hva. unfold mapping. destruct (user_indices va Hva) as [_ Hj]. destruct (pts !! pd_no va) as [pt|] eqn:E; [|done].
    destruct (W5 _ _ E) as (_ & Ho & _). by rewrite Hrd.
Qed.
End Users.

(** * Theorems *)

(** [pagedir_get_page] translates every user address as the page tables do,
    to the frame of the present entry plus the offset in the page, and returns a
    null pointer exactly for unmapped addresses. *)
Theorem pagedir_get_page_correct s pd pts va :
  pd_wf s pd pts -> 0 <= va < PHYS_BASE ->
  wp (pagedir_get_page pd va) s (fun r s' => s' = s /\
    match mapping s pts va with
    | Some w => r = frame_of w + va mod 4096 /\ r ≠ NULL
    | None => r = NULL
    end).
Proof.
  intros Hwf Hva. eapply wp_pagedir_get_page; [done|done|]. split; [done|].
  destruct (mapping s pts va) as [w|] eqn:E; [|done]. rewrite pg_ofs_mod. split; [done|].
  unfold frame_of. assert (0 <= Z.land w PTE_ADDR).
  { apply Z.land_nonneg. right. done. }
  pose proof (Z.mod_pos_bound va 4096 eq_refl). unfold NULL. unpage. lia.
Qed.

(** [install_page] maps an unmapped user page to the frame given, writable
    or not as asked and accessible to the user, leaving every other mapping as
    it was; it returns false, changing nothing, only when the page was mapped
    already or no page is left for a page table. *)
Theorem install_page_correct init_page_dir init_ram_pages s pd pts upage kpage w :
  pd_wf s pd pts -> 0 <= upage < PHYS_BASE -> upage mod 4096 = 0 ->
  kernel_page kpage -> (kpage - PHYS_BASE) / 4096 < init_ram_pages -> pd ≠ init_page_dir ->
  wp (install_page init_page_dir init_ram_pages pd upage kpage w) s (fun r s' =>
    (r = true /\ mapping s pts upage = None /\ exists pts' e, pd_wf s' pd pts' /\
       remapped s pts s' pts' upage (Some e) /\ frame_of e = kpage /\
       flag e PTE_W = w /\ flag e PTE_U = true) \/
    (r = false /\ s' = s /\ (mapping s pts upage ≠ None \/ no_run (kernel_pool s) 1))).
Proof.
  intros Hwf Hu Hua Hk Hram Hpd. destruct (pte_of_ok kpage w Hk) as (_ & _ & H1 & H2 & H3).
  eapply wp_install_page; [done..| |].
  - intros s' pts' Hnone Hwf' Hr _. left. split_and!; [done|done|]. by exists pts', (pte_of kpage w).
  - intros Hn. by right.
Qed.

(** After [pagedir_clear_page] the page is unmapped and every other mapping
    is as it was. *)
Theorem pagedir_clear_page_correct init_page_dir s pd pts upage :
  pd_wf s pd pts -> 0 <= upage < PHYS_BASE -> upage mod 4096 = 0 -> cr3_ok s ->
  wp (pagedir_clear_page init_page_dir pd upage) s (fun _ s' =>
    pd_wf s' pd pts /\ remapped s pts s' pts upage None).
Proof. intros. by eapply wp_pagedir_clear_page. Qed.

(** The first kernel page of [demo_machine] as an empty page directory. *)
Lemma demo_pd_wf : pd_wf demo_machine demo_base ∅.
Proof.
  split.
  - exact demo_machine_wf.
  - cbn [ram demo_machine]. apply bytes_ok_put; [apply map_Forall_empty|].
    apply Forall_replicate. unfold byte. lia.
  - split; [split; [reflexivity|split; [discriminate|reflexivity]]|reflexivity].
  - intros i Hi. rewrite lookup_empty. cbn [ram demo_machine]. apply rd_zeros; lia.
  - intros i pt H. rewrite lookup_empty in H. discriminate H.
  - intros i j pt H. rewrite lookup_empty in H. discriminate H.
  - intros i pt j H. rewrite lookup_empty in H. discriminate H.
Qed.

Lemma pagedir_get_page_correct_witness :
  wp (pagedir_get_page demo_base 0x8048123) demo_machine (fun r s' => s' = demo_machine /\
    match mapping demo_machine ∅ 0x8048123 with
    | Some w => r = frame_of w + 0x8048123 mod 4096 /\ r ≠ NULL
    | None => r = NULL
    end).
Proof.
  apply (pagedir_get_page_correct demo_machine demo_base ∅ 0x8048123).
  - exact demo_pd_wf.
  - split; [discriminate|reflexivity].
Defined.

Lemma install_page_correct_witness :
  wp (install_page 0 1024 demo_base 0x8048000 (demo_base + 4 * 4096) true) demo_machine (fun r s' =>
    (r = true /\ mapping demo_machine ∅ 0x8048000 = None /\ exists pts' e, pd_wf s' demo_base pts' /\
       remapped demo_machine ∅ s' pts' 0x8048000 (Some e) /\ frame_of e = demo_base + 4 * 4096 /\
       flag e PTE_W = true /\ flag e PTE_U = true) \/
    (r = false /\ s' = demo_machine /\
     (mapping demo_machine ∅ 0x8048000 ≠ None \/ no_run (kernel_pool demo_machine) 1))).
Proof.
  apply (install_page_correct 0 1024 demo_machine demo_base ∅ 0x8048000 (demo_base + 4 * 4096) true).
  - exact demo_pd_wf.
  - split; [discriminate|reflexivity].
  - reflexivity.
  - split; [split; [discriminate|reflexivity]|reflexivity].
  - reflexivity.
  - discriminate.
Defined.

Lemma pagedir_clear_page_correct_witness :
  wp (pagedir_clear_page 0 demo_base 0x8048000) demo_machine (fun _ s' =>
    pd_wf s' demo_base ∅ /\ remapped demo_machine ∅ s' ∅ 0x8048000 None).
Proof.
  apply (pagedir_clear_page_correct 0 demo_machine demo_base ∅ 0x8048000).
  - exact demo_pd_wf.
  - split; [discriminate|reflexivity].
  - reflexivity.
  - split; [split; [discriminate|reflexivity]|reflexivity].
Defined.
