(* ===== verification/Sched.v ===== *)
(** src/threads/thread.c and src/threads/synch.c: the round-robin scheduler,
    semaphores, locks and condition variables.

    The kernel runs on one processor and the primitives turn interrupts off, so
    a step is one section with interrupts off, executed by the running thread, or
    one interrupt.  Between steps every thread has a program counter [pc]: where
    it is inside the primitives, or [Run] when it executes other code, which may
    call any primitive next.  [run] performs one step; a thread that blocks in
    [sema_down] stays at [Test], where it tests the semaphore again when it is
    scheduled.  A thread is identified by its tid. *)
From stdpp Require Import base list numbers gmap fin_maps countable.
From Stdlib Require Import ZArith Lia.
From S2P Require Import Prelude.

Open Scope Z_scope.

(** * State *)

Inductive thread_status : Set := THREAD_RUNNING | THREAD_READY | THREAD_BLOCKED | THREAD_DYING.

(** Semaphores: free-standing ones, the one inside lock [l], and the one that
    thread [t] waits on inside [cond_wait]. *)
Inductive sid : Set := Sem (a : Z) | LockSem (l : Z) | WaitSem (t : Z).

(** Where a thread is; the last argument is where it continues. *)
Inductive pc : Set :=
| Run
| Idle
| Test (sm : sid) (k : pc)
| TakeLock (l : Z) (k : pc)
| SetHolder (l : Z) (k : pc)
| Post (sm : sid) (k : pc)
| Broadcast (c l : Z).

#[global] Instance status_eq_dec : EqDecision thread_status.
Proof. solve_decision. Defined.
#[global] Instance sid_eq_dec : EqDecision sid.
Proof. solve_decision. Defined.
#[global] Instance sid_countable : Countable sid.
Proof.
  apply (inj_countable' (fun x => match x with Sem a => inl a | LockSem l => inr (inl l) | WaitSem t => inr (inr t) end)
    (fun y => match y with inl a => Sem a | inr (inl l) => LockSem l | inr (inr t) => WaitSem t end)).
  by intros [].
Defined.
#[global] Instance pc_eq_dec : EqDecision pc.
Proof. solve_decision. Defined.

Record thread : Type := mk_thread { status : thread_status; at_pc : pc; priority : Z }.
Record semaphore : Type := mk_sema { value : Z; waiters : list Z }.

Record kstate : Type := mk_kstate {
  threads : gmap Z thread;
  all_list : list Z;
  ready_list : list Z;
  current : Z;
  idle_thread : Z;
  initial_thread : Z;
  semas : gmap sid semaphore;
  holders : gmap Z Z;
  conds : gmap Z (list Z);
  next_tid : Z;
  thread_ticks : Z
}.

Definition set_threads x s := mk_kstate x (all_list s) (ready_list s) (current s) (idle_thread s) (initial_thread s) (semas s) (holders s) (conds s) (next_tid s) (thread_ticks s).
Definition set_all x s := mk_kstate (threads s) x (ready_list s) (current s) (idle_thread s) (initial_thread s) (semas s) (holders s) (conds s) (next_tid s) (thread_ticks s).
Definition set_ready x s := mk_kstate (threads s) (all_list s) x (current s) (idle_thread s) (initial_thread s) (semas s) (holders s) (conds s) (next_tid s) (thread_ticks s).
Definition set_current x s := mk_kstate (threads s) (all_list s) (ready_list s) x (idle_thread s) (initial_thread s) (semas s) (holders s) (conds s) (next_tid s) (thread_ticks s).
Definition set_semas x s := mk_kstate (threads s) (all_list s) (ready_list s) (current s) (idle_thread s) (initial_thread s) x (holders s) (conds s) (next_tid s) (thread_ticks s).
Definition set_holders x s := mk_kstate (threads s) (all_list s) (ready_list s) (current s) (idle_thread s) (initial_thread s) (semas s) x (conds s) (next_tid s) (thread_ticks s).
Definition set_conds x s := mk_kstate (threads s) (all_list s) (ready_list s) (current s) (idle_thread s) (initial_thread s) (semas s) (holders s) x (next_tid s) (thread_ticks s).
Definition set_next_tid x s := mk_kstate (threads s) (all_list s) (ready_list s) (current s) (idle_thread s) (initial_thread s) (semas s) (holders s) (conds s) x (thread_ticks s).
Definition set_ticks x s := mk_kstate (threads s) (all_list s) (ready_list s) (current s) (idle_thread s) (initial_thread s) (semas s) (holders s) (conds s) (next_tid s) x.

Definition update (f : kstate -> kstate) : M kstate unit := s ← mget; mput (f s).

Definition get_thread (t : Z) : M kstate thread :=
  s ← mget; match threads s !! t with Some th => mret th | None => mfail Fault end.
Definition put_thread (t : Z) (th : thread) : M kstate unit :=
  update (fun s => set_threads (<[t := th]> (threads s)) s).
Definition set_status (t : Z) (st : thread_status) : M kstate unit :=
  th ← get_thread t; put_thread t (mk_thread st (at_pc th) (priority th)).
Definition goto (t : Z) (p : pc) : M kstate unit :=
  th ← get_thread t; put_thread t (mk_thread (status th) p (priority th)).

(** * thread.c *)

Definition PRI_MIN : Z := 0.
Definition PRI_DEFAULT : Z := 31.
Definition PRI_MAX : Z := 63.
Definition TIME_SLICE : Z := 4.
Definition TID_ERROR : Z := -1.

Definition thread_current : M kstate Z :=
  s ← mget;
  th ← get_thread (current s);
  ASSERT (bool_decide (status th = THREAD_RUNNING));;
  mret (current s).

Definition next_thread_to_run : M kstate Z :=
  s ← mget;
  match ready_list s with
  | [] => mret (idle_thread s)
  | t :: ready => update (set_ready ready);; mret t
  end.

(** The page of a dying thread is freed, with its [struct thread]. *)
Definition thread_schedule_tail (prev : option Z) : M kstate unit :=
  s ← mget;
  set_status (current s) THREAD_RUNNING;;
  update (set_ticks 0);;
  match prev with
  | None => mret tt
  | Some p =>
    th ← get_thread p;
    if bool_decide (status th = THREAD_DYING) && negb (p =? initial_thread s) then
      ASSERT (negb (p =? current s));;
      update (fun s => set_threads (delete p (threads s)) s)
    else mret tt
  end.

Definition schedule : M kstate unit :=
  s ← mget;
  let cur := current s in
  next ← next_thread_to_run;
  th ← get_thread cur;
  ASSERT (negb (bool_decide (status th = THREAD_RUNNING)));;
  s ← mget;
  ASSERT (bool_decide (is_Some (threads s !! next)));;
  if negb (cur =? next) then
    update (set_current next);; thread_schedule_tail (Some cur)
  else thread_schedule_tail None.

Definition thread_block : M kstate unit :=
  t ← thread_current; set_status t THREAD_BLOCKED;; schedule.

Definition thread_unblock (t : Z) : M kstate unit :=
  th ← get_thread t;
  ASSERT (bool_decide (status th = THREAD_BLOCKED));;
  update (fun s => set_ready (ready_list s ++ [t]) s);;
  set_status t THREAD_READY.

Definition thread_yield : M kstate unit :=
  cur ← thread_current;
  s ← mget;
  (if negb (cur =? idle_thread s) then update (set_ready (ready_list s ++ [cur])) else mret tt);;
  set_status cur THREAD_READY;;
  schedule.

(** The end of [thread_exit_process], after [process_exit]. *)
Definition thread_exit : M kstate unit :=
  t ← thread_current;
  update (fun s => set_all (filter (fun x => x ≠ t) (all_list s)) s);;
  set_status t THREAD_DYING;;
  schedule.

(** [page] says whether [palloc_get_page] gave a page for the thread. *)
Definition thread_create (page : bool) (prio : Z) : M kstate Z :=
  if page then
    ASSERT ((PRI_MIN <=? prio) && (prio <=? PRI_MAX));;
    s ← mget;
    let tid := next_tid s in
    update (set_next_tid (tid + 1));;
    put_thread tid (mk_thread THREAD_BLOCKED Run prio);;
    update (fun s => set_all (all_list s ++ [tid]) s);;
    thread_unblock tid;;
    mret tid
  else mret TID_ERROR.

(** The timer interrupt: [thread_tick], and the yield when the handler returns. *)
Definition thread_tick : M kstate unit :=
  thread_current;;
  s ← mget;
  update (set_ticks (thread_ticks s + 1));;
  if TIME_SLICE <=? thread_ticks s + 1 then thread_yield else mret tt.

(** * synch.c *)

Definition get_sema (sm : sid) : M kstate semaphore :=
  s ← mget; match semas s !! sm with Some q => mret q | None => mfail Fault end.
Definition put_sema (sm : sid) (q : semaphore) : M kstate unit :=
  update (fun s => set_semas (<[sm := q]> (semas s)) s).

Definition sema_init (sm : sid) (v : Z) : M kstate unit := put_sema sm (mk_sema v []).

(** One pass of the loop of [sema_down], for a caller that continues at [k]. *)
Definition sema_down (sm : sid) (k : pc) : M kstate unit :=
  t ← thread_current;
  q ← get_sema sm;
  if value q =? 0 then
    put_sema sm (mk_sema (value q) (waiters q ++ [t]));;
    thread_block
  else
    put_sema sm (mk_sema (value q - 1) (waiters q));;
    goto t k.

Definition sema_try_down (sm : sid) : M kstate bool :=
  q ← get_sema sm;
  if 0 <? value q then put_sema sm (mk_sema (value q - 1) (waiters q));; mret true else mret false.

Definition sema_up (sm : sid) : M kstate unit :=
  q ← get_sema sm;
  (match waiters q with
   | [] => mret tt
   | w :: ws => put_sema sm (mk_sema (value q) ws);; thread_unblock w
   end);;
  q ← get_sema sm;
  put_sema sm (mk_sema (u32 (value q + 1)) (waiters q)).

Definition lock_init (l : Z) : M kstate unit :=
  update (fun s => set_holders (<[l := NULL]> (holders s)) s);;
  sema_init (LockSem l) 1.

Definition get_holder (l : Z) : M kstate Z :=
  s ← mget; match holders s !! l with Some h => mret h | None => mfail Fault end.
Definition put_holder (l h : Z) : M kstate unit :=
  update (fun s => set_holders (<[l := h]> (holders s)) s).

Definition lock_held_by_current_thread (l : Z) : M kstate bool :=
  h ← get_holder l; t ← thread_current; mret (h =? t).

(** [lock_acquire] up to the call of [sema_down]; [SetHolder] is the rest. *)
Definition lock_acquire (l : Z) (k : pc) : M kstate unit :=
  held ← lock_held_by_current_thread l;
  ASSERT (negb held);;
  t ← thread_current;
  goto t (Test (LockSem l) (SetHolder l k)).

Definition lock_try_acquire (l : Z) (k : pc) : M kstate bool :=
  held ← lock_held_by_current_thread l;
  ASSERT (negb held);;
  success ← sema_try_down (LockSem l);
  (if success : bool then t ← thread_current; goto t (SetHolder l k) else mret tt);;
  mret success.

(** [lock_release] up to the call of [sema_up]. *)
Definition lock_release (l : Z) (k : pc) : M kstate unit :=
  held ← lock_held_by_current_thread l;
  ASSERT held;;
  put_holder l NULL;;
  t ← thread_current;
  goto t (Post (LockSem l) k).

Definition get_cond (c : Z) : M kstate (list Z) :=
  s ← mget; match conds s !! c with Some ws => mret ws | None => mfail Fault end.
Definition put_cond (c : Z) (ws : list Z) : M kstate unit :=
  update (fun s => set_conds (<[c := ws]> (conds s)) s).

Definition cond_init (c : Z) : M kstate unit := put_cond c [].

(** The waiter on the stack of thread [t] is listed as [t]. *)
Definition cond_wait (c l : Z) : M kstate unit :=
  held ← lock_held_by_current_thread l;
  ASSERT held;;
  t ← thread_current;
  sema_init (WaitSem t) 0;;
  ws ← get_cond c;
  put_cond c (ws ++ [t]);;
  lock_release l (Test (WaitSem t) (TakeLock l Run)).

Definition cond_signal (c l : Z) (k : pc) : M kstate unit :=
  held ← lock_held_by_current_thread l;
  ASSERT held;;
  ws ← get_cond c;
  t ← thread_current;
  match ws with
  | [] => goto t k
  | w :: ws => put_cond c ws;; goto t (Post (WaitSem w) k)
  end.

(** One pass of the loop of [cond_broadcast]. *)
Definition cond_broadcast (c l : Z) : M kstate unit :=
  ws ← get_cond c;
  match ws with
  | [] => t ← thread_current; goto t Run
  | _ => cond_signal c l (Broadcast c l)
  end.

(** * Steps *)

(** What code outside the primitives may call. *)
Inductive call : Set :=
| CSemaInit (a v : Z) | CDown (a : Z) | CTryDown (a : Z) | CUp (a : Z)
| CLockInit (l : Z) | CAcquire (l : Z) | CTryAcquire (l : Z) | CRelease (l : Z)
| CCondInit (c : Z) | CWait (c l : Z) | CSignal (c l : Z) | CBroadcast (c l : Z)
| CCreate (page : bool) (prio : Z) | CYield | CExit | CSetPriority (p : Z).

Definition do_call (c : call) : M kstate unit :=
  t ← thread_current;
  match c with
  | CSemaInit a v => sema_init (Sem a) v
  | CDown a => goto t (Test (Sem a) Run)
  | CTryDown a => sema_try_down (Sem a);; mret tt
  | CUp a => goto t (Post (Sem a) Run)
  | CLockInit l => lock_init l
  | CAcquire l => goto t (TakeLock l Run)
  | CTryAcquire l => lock_try_acquire l Run;; mret tt
  | CRelease l => lock_release l Run
  | CCondInit c => cond_init c
  | CWait c l => cond_wait c l
  | CSignal c l => cond_signal c l Run
  | CBroadcast c l => goto t (Broadcast c l)
  | CCreate page prio => thread_create page prio;; mret tt
  | CYield => thread_yield
  | CExit => thread_exit
  | CSetPriority p => th ← get_thread t; put_thread t (mk_thread (status th) (at_pc th) p)
  end.

(** The body of the loop of the idle thread, which halts the processor after it. *)
Definition idle : M kstate unit := thread_block.

(** The running thread goes on inside a primitive; the idle thread blocks again. *)
Definition go : M kstate unit :=
  t ← thread_current;
  th ← get_thread t;
  match at_pc th with
  | Run => mret tt
  | Idle => idle
  | Test sm k => sema_down sm k
  | TakeLock l k => lock_acquire l k
  | SetHolder l k => put_holder l t;; goto t k
  | Post sm k => sema_up sm;; goto t k
  | Broadcast c l => cond_broadcast c l
  end.

(** A step: a call, progress inside a primitive, a timer interrupt, or an
    interrupt handler that ups a semaphore. *)
Inductive label : Set := Call (c : call) | Go | Tick | IntrUp (a : Z).

Definition run (x : label) : M kstate unit :=
  match x with
  | Call c => do_call c
  | Go => go
  | Tick => thread_tick
  | IntrUp a => sema_up (Sem a)
  end.
