(* ===== verification/SchedInv.v ===== *)
(** Invariants of the scheduler and of the synchronisation primitives of
    [Sched], and their preservation by every step. *)
From stdpp Require Import base numbers gmap fin_maps countable list.
From Stdlib Require Import ZArith Lia.
From S2P Require Import Prelude Sched.

Open Scope Z_scope.

(** * The invariant *)

(** What the primitives depend on: whether a thread is blocked, and its [pc]. *)
Abbreviation view := (bool * pc)%type.
Definition view_of (th : thread) : view := (bool_decide (status th = THREAD_BLOCKED), at_pc th).
Definition views (s : kstate) : gmap Z view := view_of <$> threads s.

(** The forms that the [pc] of thread [t] takes. *)
Inductive shape (t : Z) : pc -> Prop :=
| sh_run : shape t Run
| sh_idle : shape t Idle
| sh_test_sem a : shape t (Test (Sem a) Run)
| sh_test_lock l : shape t (Test (LockSem l) (SetHolder l Run))
| sh_test_wait l : shape t (Test (WaitSem t) (TakeLock l Run))
| sh_take l : shape t (TakeLock l Run)
| sh_set l : shape t (SetHolder l Run)
| sh_post_sem a : shape t (Post (Sem a) Run)
| sh_post_lock l : shape t (Post (LockSem l) Run)
| sh_post_wait l : shape t (Post (LockSem l) (Test (WaitSem t) (TakeLock l Run)))
| sh_signal w : shape t (Post (WaitSem w) Run)
| sh_signal_all w c l : shape t (Post (WaitSem w) (Broadcast c l))
| sh_broadcast c l : shape t (Broadcast c l).

(** Between [sema_down] and [sema_up] of lock [l], with the holder not set. *)
Definition owns (l : Z) (p : pc) : bool :=
  match p with SetHolder l' _ | Post (LockSem l') _ => l' =? l | _ => false end.
Definition tests (sm : sid) (p : pc) : bool :=
  match p with Test sm' _ => bool_decide (sm' = sm) | _ => false end.
Definition posts (sm : sid) (p : pc) : bool :=
  match p with Post sm' _ => bool_decide (sm' = sm) | _ => false end.
(** The locks that a thread is about to take. *)
Definition takes (l : Z) (p : pc) : bool :=
  match p with
  | TakeLock l' _ | Test (LockSem l') _ | Test (WaitSem _) (TakeLock l' _)
  | Post (LockSem _) (Test (WaitSem _) (TakeLock l' _)) => l' =? l
  | _ => false
  end.
(** Inside [cond_wait], not yet woken by a signal. *)
Definition waits (t : Z) (p : pc) : bool :=
  match p with
  | Test (WaitSem t') _ | Post _ (Test (WaitSem t') _) => t' =? t
  | _ => false
  end.
(** The semaphores that a thread is going to use. *)
Fixpoint uses_sema (sm : sid) (p : pc) : bool :=
  match p with
  | Test sm' k | Post sm' k => bool_decide (sm' = sm) || uses_sema sm k
  | TakeLock l k | SetHolder l k => bool_decide (LockSem l = sm) || uses_sema sm k
  | _ => false
  end.
(** Inside [cond_broadcast]. *)
Definition in_broadcast (p : pc) : option (Z * Z) :=
  match p with Broadcast c l | Post _ (Broadcast c l) => Some (c, l) | _ => None end.

Definition ind (b : bool) : Z := if b then 1 else 0.

(** The threads that were woken to test [sm] again, or that test it first. *)
Definition woken (V : gmap Z view) (sm : sid) : Z :=
  msum (fun x : view => ind (negb x.1 && tests sm x.2)) V.
(** The threads about to up the semaphore of waiter [w]. *)
Definition posting (V : gmap Z view) (w : Z) : Z :=
  msum (fun x : view => ind (posts (WaitSem w) x.2)) V.
Fixpoint count (w : Z) (ws : list Z) : Z :=
  match ws with [] => 0 | x :: ws => ind (x =? w) + count w ws end.
Definition listed (C : gmap Z (list Z)) (w : Z) : Z := msum (count w) C.
Definition signalled (Sm : gmap sid semaphore) (w : Z) : Z := default 0 (value <$> Sm !! WaitSem w).
Definition waiting (V : gmap Z view) (w : Z) : Z :=
  default 0 ((fun x : view => ind (waits w x.2)) <$> V !! w).

Section Inv.
Context (V : gmap Z view) (Sm : gmap sid semaphore) (H : gmap Z Z) (C : gmap Z (list Z)).

Record wait_ok : Prop := {
  wt_iff : forall sm q t, Sm !! sm = Some q -> t ∈ waiters q <-> exists k, V !! t = Some (true, Test sm k);
  wt_nodup : forall sm q, Sm !! sm = Some q -> NoDup (waiters q);
  wt_blocked : forall t p, V !! t = Some (true, p) -> p = Idle \/ exists sm k, p = Test sm k;
  wt_sema : forall t b p sm, V !! t = Some (b, p) -> uses_sema sm p = true -> is_Some (Sm !! sm);
  wt_value : forall sm q, Sm !! sm = Some q -> 0 <= value q < 2 ^ 32
}.

(** No lost wake-up: while threads wait, every unit of the semaphore has a thread
    that is about to take it. *)
Definition wake_ok : Prop :=
  forall sm q, Sm !! sm = Some q -> waiters q ≠ [] -> value q <= woken V sm.

Definition owner (l t : Z) : Prop := exists b p, V !! t = Some (b, p) /\ owns l p = true.

(** A lock is free, held, or between [sema_down] and [sema_up] with the holder not
    set, by exactly one thread. *)
Inductive lock_state (l h v : Z) : Prop :=
| lock_free : v = 1 -> h = NULL -> (forall t, ~ owner l t) -> lock_state l h v
| lock_held : v = 0 -> h ≠ NULL -> (forall t, ~ owner l t) -> lock_state l h v
| lock_moving t : v = 0 -> h = NULL -> (forall t', owner l t' <-> t' = t) -> lock_state l h v.

Record lock_ok : Prop := {
  lk_dom : forall l, is_Some (H !! l) <-> is_Some (Sm !! LockSem l);
  lk_state : forall l h q, H !! l = Some h -> Sm !! LockSem l = Some q -> lock_state l h (value q);
  lk_takes : forall t b p l h, V !! t = Some (b, p) -> takes l p = true -> H !! l = Some h -> h ≠ t
}.

(** A thread that waits for a condition is in exactly one of three stages: listed,
    about to be posted by a thread that signals, or posted; other threads are in
    none. *)
Definition cond_ok : Prop :=
  forall w, signalled Sm w + listed C w + posting V w = waiting V w.

Record sync_ok : Prop := {
  sy_shape : forall t b p, V !! t = Some (b, p) -> shape t p;
  sy_tid : forall t x, V !! t = Some x -> 0 < t;
  sy_bcast : forall t b p c l, V !! t = Some (b, p) -> in_broadcast p = Some (c, l) ->
    H !! l = Some t /\ is_Some (C !! c);
  sy_wait : wait_ok;
  sy_wake : wake_ok;
  sy_lock : lock_ok;
  sy_cond : cond_ok
}.
End Inv.

(** The queues of the scheduler; [running] is false inside [schedule]. *)
Record queue_ok (running : bool) (s : kstate) : Prop := {
  qu_cur : exists th, threads s !! current s = Some th /\ (status th = THREAD_RUNNING <-> running = true);
  qu_run : forall t th, threads s !! t = Some th -> status th = THREAD_RUNNING -> t = current s;
  qu_dying : forall t th, threads s !! t = Some th -> status th = THREAD_DYING ->
    (t = current s /\ at_pc th = Run) \/ t = initial_thread s;
  qu_nodup : NoDup (ready_list s);
  qu_ready : forall t, t ∈ ready_list s <->
    t ≠ idle_thread s /\ exists th, threads s !! t = Some th /\ status th = THREAD_READY;
  qu_idle : exists th, threads s !! idle_thread s = Some th /\ at_pc th = Idle /\ status th ≠ THREAD_DYING;
  qu_only_idle : forall t th, threads s !! t = Some th -> at_pc th = Idle -> t = idle_thread s;
  qu_tid : forall t th, threads s !! t = Some th -> 0 < t < next_tid s
}.

Definition inv (running : bool) (s : kstate) : Prop :=
  queue_ok running s /\ sync_ok (views s) (semas s) (holders s) (conds s).

(** * Preservation, clause by clause *)

(** Case analysis on a lookup in an updated map. *)
Ltac ins H :=
  apply lookup_insert_Some in H as [[<- H]|[? H]];
  [first [discriminate H | injection H as <- <- | injection H as -> <- | injection H as <- | destruct H]|].

Lemma waiting_insert V t b p w :
  waiting (<[t := (b, p)]> V) w = if decide (w = t) then ind (waits w p) else waiting V w.
Proof.
  unfold waiting. destruct (decide (w = t)) as [->|Hn].
  - by rewrite lookup_insert_eq.
  - by rewrite lookup_insert_ne.
Qed.

Lemma signalled_insert Sm sm q w :
  signalled (<[sm := q]> Sm) w = if decide (sm = WaitSem w) then value q else signalled Sm w.
Proof.
  unfold signalled. destruct (decide (sm = WaitSem w)) as [->|Hn].
  - by rewrite lookup_insert_eq.
  - by rewrite lookup_insert_ne.
Qed.

Lemma woken_update V t b p b' p' sm :
  V !! t = Some (b, p) ->
  woken (<[t := (b', p')]> V) sm = woken V sm - ind (negb b && tests sm p) + ind (negb b' && tests sm p').
Proof. intros Ht. unfold woken. by rewrite (msum_update _ _ _ _ _ Ht). Qed.

Lemma posting_update V t b p b' p' w :
  V !! t = Some (b, p) ->
  posting (<[t := (b', p')]> V) w = posting V w - ind (posts (WaitSem w) p) + ind (posts (WaitSem w) p').
Proof. intros Ht. unfold posting. by rewrite (msum_update _ _ _ _ _ Ht). Qed.

Lemma ind_nonneg b : 0 <= ind b.
Proof. by destruct b. Qed.
Lemma count_nonneg w ws : 0 <= count w ws.
Proof. induction ws as [|x ws IH]; simpl; [done|]. pose proof (ind_nonneg (x =? w)). lia. Qed.
Lemma count_app w l1 l2 : count w (l1 ++ l2) = count w l1 + count w l2.
Proof. induction l1 as [|x l IH]; simpl; [done|]. rewrite IH. lia. Qed.
Lemma woken_nonneg V sm : 0 <= woken V sm.
Proof. apply msum_nonneg. intros. apply ind_nonneg. Qed.
Lemma posting_nonneg V w : 0 <= posting V w.
Proof. apply msum_nonneg. intros. apply ind_nonneg. Qed.
Lemma listed_nonneg C w : 0 <= listed C w.
Proof. apply msum_nonneg. intros. apply count_nonneg. Qed.

Section Wait.
Context (V : gmap Z view) (Sm : gmap sid semaphore).
Context (W : wait_ok V Sm).

Lemma wait_goto t p p' :
  V !! t = Some (false, p) -> (forall sm, uses_sema sm p' = true -> is_Some (Sm !! sm)) ->
  wait_ok (<[t := (false, p')]> V) Sm.
Proof.
  destruct W as [W1 W2 W3 W4 W5]. intros Ht Hu. split; [|done| | |done].
  - intros sm q u Hq. rewrite (W1 _ _ _ Hq). split; intros [k Hk]; exists k.
    + rewrite lookup_insert_ne; congruence.
    + by ins Hk.
  - intros u p0 Hp. ins Hp. eauto.
  - intros u b p0 sm Hp. ins Hp; eauto.
Qed.

Lemma wait_idle t b b' :
  V !! t = Some (b, Idle) -> wait_ok (<[t := (b', Idle)]> V) Sm.
Proof.
  destruct W as [W1 W2 W3 W4 W5]. intros Ht. split; [|done| | |done].
  - intros sm q u Hq. rewrite (W1 _ _ _ Hq). split; intros [k Hk]; exists k.
    + rewrite lookup_insert_ne; congruence.
    + by ins Hk.
  - intros u p0 Hp. ins Hp; eauto.
  - intros u b0 p0 sm Hp. ins Hp; eauto.
Qed.

Lemma wait_delete t b : V !! t = Some (b, Run) -> wait_ok (delete t V) Sm.
Proof.
  destruct W as [W1 W2 W3 W4 W5]. intros Ht. split; [|done| | |done].
  - intros sm q u Hq. rewrite (W1 _ _ _ Hq). split; intros [k Hk]; exists k.
    + rewrite lookup_delete_ne; congruence.
    + by apply lookup_delete_Some in Hk as [_ Hk].
  - intros u p0 [_ Hp]%lookup_delete_Some. eauto.
  - intros u b0 p0 sm [_ Hp]%lookup_delete_Some. eauto.
Qed.

Lemma wait_new t : V !! t = None -> wait_ok (<[t := (false, Run)]> V) Sm.
Proof.
  destruct W as [W1 W2 W3 W4 W5]. intros Ht. split; [|done| | |done].
  - intros sm q u Hq. rewrite (W1 _ _ _ Hq). split; intros [k Hk]; exists k.
    + rewrite lookup_insert_ne; congruence.
    + by ins Hk.
  - intros u p0 Hp. ins Hp; eauto.
  - intros u b0 p0 sm Hp. ins Hp; eauto; done.
Qed.

Lemma wait_sema sm q v :
  Sm !! sm = Some q -> 0 <= v < 2 ^ 32 -> wait_ok V (<[sm := mk_sema v (waiters q)]> Sm).
Proof.
  destruct W as [W1 W2 W3 W4 W5]. intros Hq Hv. split; [| |done| |].
  - intros sm' q' u Hq'. ins Hq'; simpl; eauto.
  - intros sm' q' Hq'. ins Hq'; simpl; eauto.
  - intros u b p sm' Hp Hu. rewrite lookup_insert_is_Some'. eauto.
  - intros sm' q' Hq'. ins Hq'; simpl; eauto.
Qed.

Lemma wait_init sm v :
  (forall t k, V !! t ≠ Some (true, Test sm k)) -> 0 <= v < 2 ^ 32 ->
  wait_ok V (<[sm := mk_sema v []]> Sm).
Proof.
  destruct W as [W1 W2 W3 W4 W5]. intros Hno Hv. split; [| |done| |].
  - intros sm' q' u Hq'. ins Hq'; [|eauto]. split.
    + by intros ?%not_elem_of_nil.
    + intros [k Hk]. by destruct (Hno u k).
  - intros sm' q' Hq'. ins Hq'; [|eauto]. constructor.
  - intros u b p sm' Hp Hu. rewrite lookup_insert_is_Some'. eauto.
  - intros sm' q' Hq'. ins Hq'; simpl; eauto.
Qed.

Lemma wait_block t sm k q :
  V !! t = Some (false, Test sm k) -> Sm !! sm = Some q ->
  wait_ok (<[t := (true, Test sm k)]> V) (<[sm := mk_sema (value q) (waiters q ++ [t])]> Sm).
Proof.
  destruct W as [W1 W2 W3 W4 W5]. intros Ht Hq. split.
  - intros sm' q' u Hq'. ins Hq'.
    + simpl. rewrite elem_of_app, (W1 _ _ _ Hq), list_elem_of_singleton. split.
      * intros [[k' Hk]| ->]; [|exists k; by rewrite lookup_insert_eq].
        exists k'. rewrite lookup_insert_ne; congruence.
      * intros [k' Hk]. apply lookup_insert_Some in Hk as [[<- _]|[_ Hk]]; eauto.
    + rewrite (W1 _ _ _ Hq'). split; intros [k' Hk]; exists k'.
      * rewrite lookup_insert_ne; congruence.
      * apply lookup_insert_Some in Hk as [[<- [=]]|[_ Hk]]; [congruence|done].
  - intros sm' q' Hq'. ins Hq'; [|eauto]. simpl. apply NoDup_app. split_and!.
    + eauto.
    + intros x Hx [= ->]%list_elem_of_singleton. apply (W1 _ _ _ Hq) in Hx as [? ?]. congruence.
    + apply NoDup_singleton.
  - intros u p Hp. ins Hp; eauto.
  - intros u b p sm' Hp Hu. rewrite lookup_insert_is_Some'. ins Hp; eauto.
  - intros sm' q' Hq'. ins Hq'; [|eauto]. simpl. eauto.
Qed.

Lemma wait_unblock sm q w ws :
  Sm !! sm = Some q -> waiters q = w :: ws ->
  exists k, V !! w = Some (true, Test sm k) /\
    wait_ok (<[w := (false, Test sm k)]> V) (<[sm := mk_sema (value q) ws]> Sm).
Proof.
  destruct W as [W1 W2 W3 W4 W5]. intros Hq Hws.
  destruct (proj1 (W1 _ _ w Hq)) as [k Hk]; [rewrite Hws; by left|].
  pose proof (W2 _ _ Hq) as Hnd. rewrite Hws in Hnd. apply NoDup_cons in Hnd as [Hnin Hnd].
  exists k. split; [done|]. split.
  - intros sm' q' u Hq'. ins Hq'.
    + simpl. split.
      * intros Hu. destruct (proj1 (W1 _ _ u Hq)) as [k' Hk']; [rewrite Hws; by right|].
        exists k'. rewrite lookup_insert_ne; [done | congruence].
      * intros [k' Hk']. ins Hk'.
        assert (u ∈ waiters q) as Hu by (apply (W1 _ _ _ Hq); eauto).
        rewrite Hws in Hu. apply elem_of_cons in Hu as [->|Hu]; done.
    + rewrite (W1 _ _ _ Hq'). split; intros [k' Hk']; exists k'.
      * rewrite lookup_insert_ne; congruence.
      * by ins Hk'.
  - intros sm' q' Hq'. ins Hq'; simpl; eauto.
  - intros u p Hp. ins Hp; eauto.
  - intros u b p sm' Hp Hu. rewrite lookup_insert_is_Some'. ins Hp; eauto.
  - intros sm' q' Hq'. ins Hq'; [|eauto]. simpl. eauto.
Qed.
End Wait.

Section Wake.
Context (V : gmap Z view) (Sm : gmap sid semaphore).
Context (K : wake_ok V Sm).

Lemma wake_views V' : (forall sm, woken V sm <= woken V' sm) -> wake_ok V' Sm.
Proof. intros Hle sm q Hq Hw. specialize (K sm q Hq Hw). specialize (Hle sm). lia. Qed.

Lemma wake_goto t p p' :
  V !! t = Some (false, p) -> (forall sm, tests sm p = false) -> wake_ok (<[t := (false, p')]> V) Sm.
Proof.
  intros Ht Hp. apply wake_views. intros sm. rewrite (woken_update _ _ _ _ _ _ _ Ht), Hp.
  simpl. pose proof (ind_nonneg (tests sm p')). lia.
Qed.

Lemma wake_empty sm v : wake_ok V (<[sm := mk_sema v []]> Sm).
Proof. intros sm' q' Hq'. ins Hq'; [done | by apply K]. Qed.

Lemma wake_take t p p' sm q :
  V !! t = Some (false, p) -> Sm !! sm = Some q -> p = Run \/ p = Test sm p' ->
  wake_ok (<[t := (false, p')]> V) (<[sm := mk_sema (value q - 1) (waiters q)]> Sm).
Proof.
  intros Ht Hq Hp sm' q' Hq' Hw. rewrite (woken_update _ _ _ _ _ _ _ Ht). simpl.
  pose proof (ind_nonneg (tests sm' p')). ins Hq'.
  - simpl in *. specialize (K _ _ Hq Hw).
    assert (ind (tests sm p) <= 1) by (destruct (tests sm p); simpl; lia). lia.
  - specialize (K _ _ Hq' Hw). replace (tests sm' p) with false; [simpl; lia|].
    destruct Hp as [->| ->]; simpl; [done|]. by rewrite bool_decide_false.
Qed.

Lemma wake_block t sm k q ws :
  V !! t = Some (false, Test sm k) -> value q = 0 ->
  wake_ok (<[t := (true, Test sm k)]> V) (<[sm := mk_sema (value q) ws]> Sm).
Proof.
  intros Ht Hv sm' q' Hq' Hw. ins Hq'.
  - simpl. rewrite Hv. apply woken_nonneg.
  - rewrite (woken_update _ _ _ _ _ _ _ Ht). specialize (K _ _ Hq' Hw). simpl.
    rewrite bool_decide_false by done. simpl. lia.
Qed.

Lemma wake_unblock sm q w k ws v :
  Sm !! sm = Some q -> waiters q = w :: ws -> V !! w = Some (true, Test sm k) -> v <= value q + 1 ->
  wake_ok (<[w := (false, Test sm k)]> V) (<[sm := mk_sema v ws]> Sm).
Proof.
  intros Hq Hws Hw Hv sm' q' Hq' Hne. rewrite (woken_update _ _ _ _ _ _ _ Hw). simpl. ins Hq'.
  - simpl. rewrite bool_decide_true by done. simpl.
    assert (value q <= woken V sm) by (apply K; congruence). lia.
  - specialize (K _ _ Hq' Hne). rewrite bool_decide_false by done. simpl. lia.
Qed.
End Wake.

Lemma owner_insert V t b p l u :
  owner (<[t := (b, p)]> V) l u <-> (u = t /\ owns l p = true) \/ (u ≠ t /\ owner V l u).
Proof.
  unfold owner. destruct (decide (u = t)) as [->|Hn].
  - setoid_rewrite lookup_insert_eq. naive_solver.
  - setoid_rewrite lookup_insert_ne; [naive_solver | done].
Qed.

Lemma owner_lookup V l t b p : V !! t = Some (b, p) -> owner V l t <-> owns l p = true.
Proof. intros Ht. split; [intros (? & ? & ? & ?); congruence | by exists b, p]. Qed.

Lemma owner_goto V t b p b' p' l :
  V !! t = Some (b, p) -> owns l p = owns l p' ->
  forall u, owner (<[t := (b', p')]> V) l u <-> owner V l u.
Proof.
  intros Ht Ho u. rewrite owner_insert. destruct (decide (u = t)) as [->|]; [|naive_solver].
  rewrite (owner_lookup _ _ _ _ _ Ht). naive_solver.
Qed.

Lemma lock_state_views V V' l h v :
  (forall t, owner V' l t <-> owner V l t) -> lock_state V l h v -> lock_state V' l h v.
Proof.
  intros HV [? ? Hn|? ? Hn|t ? ? Hu].
  - apply lock_free; [done..|]. intros t. by rewrite HV.
  - apply lock_held; [done..|]. intros t. by rewrite HV.
  - apply (lock_moving _ _ _ _ t); [done..|]. intros t'. by rewrite HV.
Qed.

Section Lock.
Context (V : gmap Z view) (Sm : gmap sid semaphore) (H : gmap Z Z).
Context (L : lock_ok V Sm H).

Lemma lock_views V' :
  (forall l t, owner V' l t <-> owner V l t) ->
  (forall t b p l h, V' !! t = Some (b, p) -> takes l p = true -> H !! l = Some h -> h ≠ t) ->
  lock_ok V' Sm H.
Proof.
  destruct L as [L1 L2 L3]. intros HV Hk. split; [done| |done].
  intros l h q Hh Hq. apply (lock_state_views V); eauto.
Qed.

Lemma lock_goto t b p b' p' :
  V !! t = Some (b, p) -> (forall l, owns l p = owns l p') ->
  (forall l h, takes l p' = true -> H !! l = Some h -> h ≠ t) ->
  lock_ok (<[t := (b', p')]> V) Sm H.
Proof.
  intros Ht Ho Hk. apply lock_views.
  - intros l. by apply (owner_goto _ _ b p).
  - intros u b0 p0 l h Hu. ins Hu; [eauto|]. by apply (lk_takes _ _ _ L) with (1 := Hu).
Qed.

Lemma lock_sema sm q' :
  (forall l, sm = LockSem l -> exists q, Sm !! sm = Some q /\ value q = value q') ->
  lock_ok V (<[sm := q']> Sm) H.
Proof.
  destruct L as [L1 L2 L3]. intros Hs. split; [| |done].
  - intros l. rewrite lookup_insert_is_Some', L1. split; [by right|]. intros [->|?]; [|done].
    destruct (Hs l) as (q & Hq & _); eauto.
  - intros l h q Hh Hq. apply lookup_insert_Some in Hq as [[-> <-]|[_ Hq]]; [|eauto].
    destruct (Hs l) as (q & Hq & <-); eauto.
Qed.

(** A step of thread [t] on lock [l] alone. *)
Lemma lock_change t b p p' l h' q' :
  V !! t = Some (b, p) -> is_Some (H !! l) ->
  (forall l', l' ≠ l -> owns l' p = owns l' p') ->
  lock_state (<[t := (b, p')]> V) l h' (value q') ->
  (forall l' h, takes l' p' = true -> <[l := h']> H !! l' = Some h -> h ≠ t) ->
  (forall u b p, V !! u = Some (b, p) -> u ≠ t -> takes l p = true -> h' ≠ u) ->
  lock_ok (<[t := (b, p')]> V) (<[LockSem l := q']> Sm) (<[l := h']> H).
Proof.
  destruct L as [L1 L2 L3]. intros Ht Hl Ho Hst Hk Hk'. split.
  - intros l0. rewrite !lookup_insert_is_Some', L1.
    split; (intros [Hx|?]; [left; congruence | by right]).
  - intros l0 h q Hh Hq. ins Hh.
    + rewrite lookup_insert_eq in Hq. by injection Hq as <-.
    + rewrite lookup_insert_ne in Hq by congruence. apply (lock_state_views V); [|eauto].
      apply (owner_goto _ _ b p); eauto.
  - intros u b0 p0 l0 h Hu Hu'. ins Hu; [by apply Hk|]. intros Hh. ins Hh; eauto.
Qed.
End Lock.

(** * Preservation by the transitions of the primitives *)

Section Sync.
Context (V : gmap Z view) (Sm : gmap sid semaphore) (H : gmap Z Z) (C : gmap Z (list Z)).
Context (I : sync_ok V Sm H C).

Definition shapes (V' : gmap Z view) : Prop := forall t b p, V' !! t = Some (b, p) -> shape t p.
Definition tids (V' : gmap Z view) : Prop := forall t (x : view), V' !! t = Some x -> 0 < t.
Definition bcasts (V' : gmap Z view) (H' : gmap Z Z) (C' : gmap Z (list Z)) : Prop :=
  forall t b p c l, V' !! t = Some (b, p) -> in_broadcast p = Some (c, l) ->
    H' !! l = Some t /\ is_Some (C' !! c).

Lemma shapes_insert t b p x :
  V !! t = Some x -> shape t p -> shapes (<[t := (b, p)]> V) /\ tids (<[t := (b, p)]> V).
Proof.
  destruct I. intros Ht Hp. split.
  - intros u b' p' Hu. ins Hu; eauto.
  - intros u [b' p'] Hu. ins Hu; eauto.
Qed.

Lemma bcasts_insert t b p :
  (forall c l, in_broadcast p = Some (c, l) -> H !! l = Some t /\ is_Some (C !! c)) ->
  bcasts (<[t := (b, p)]> V) H C.
Proof. intros Hp u b' p' c l Hu. ins Hu; [by apply Hp|]. by apply (sy_bcast _ _ _ _ I u b'). Qed.

Lemma cond_goto t b p b' p' :
  V !! t = Some (b, p) -> (forall w, posts (WaitSem w) p' = posts (WaitSem w) p) -> waits t p' = waits t p ->
  cond_ok (<[t := (b', p')]> V) Sm C.
Proof.
  intros Ht Hp Hw w. rewrite waiting_insert, (posting_update _ _ _ _ _ _ _ Ht), Hp.
  pose proof (sy_cond _ _ _ _ I w) as Hc. destruct (decide (w = t)) as [->|].
  - unfold waiting in Hc. rewrite Ht in Hc. simpl in Hc. rewrite Hw. lia.
  - lia.
Qed.

Lemma sync_goto t p p' :
  V !! t = Some (false, p) -> shape t p' ->
  (forall sm, uses_sema sm p' = true -> is_Some (Sm !! sm)) ->
  (forall sm, tests sm p = false) -> (forall l, owns l p = owns l p') ->
  (forall l h, takes l p' = true -> H !! l = Some h -> h ≠ t) ->
  (forall c l, in_broadcast p' = Some (c, l) -> H !! l = Some t /\ is_Some (C !! c)) ->
  (forall w, posts (WaitSem w) p' = posts (WaitSem w) p) -> waits t p' = waits t p ->
  sync_ok (<[t := (false, p')]> V) Sm H C.
Proof.
  intros Ht Hsh Hu Hte Ho Hta Hb Hpo Hw. destruct (shapes_insert _ false _ _ Ht Hsh).
  destruct I. split; [done | done | by apply bcasts_insert | | | |].
  - by apply (wait_goto _ _ sy_wait0 _ p).
  - by apply (wake_goto _ _ sy_wake0 _ p).
  - by apply (lock_goto _ _ _ sy_lock0 _ false p).
  - by apply (cond_goto _ false p).
Qed.

Lemma sync_idle t b b' : V !! t = Some (b, Idle) -> sync_ok (<[t := (b', Idle)]> V) Sm H C.
Proof.
  intros Ht. destruct (shapes_insert t b' Idle _ Ht) as [? ?]; [constructor|].
  destruct I. split; [done | done | by apply bcasts_insert | | | |].
  - by apply (wait_idle _ _ sy_wait0 _ b).
  - apply (wake_views _ _ sy_wake0). intros sm. rewrite (woken_update _ _ _ _ _ _ _ Ht).
    rewrite !andb_false_r. simpl. lia.
  - by apply (lock_goto _ _ _ sy_lock0 _ b Idle).
  - by apply (cond_goto _ b Idle).
Qed.

Lemma sync_delete t b : V !! t = Some (b, Run) -> sync_ok (delete t V) Sm H C.
Proof.
  intros Ht. destruct I. split.
  - intros u b' p [_ Hu]%lookup_delete_Some. eauto.
  - intros u x [_ Hu]%lookup_delete_Some. eauto.
  - intros u b' p c l [_ Hu]%lookup_delete_Some. eauto.
  - by apply (wait_delete _ _ sy_wait0 _ b).
  - apply (wake_views _ _ sy_wake0). intros sm. unfold woken.
    rewrite (msum_delete _ _ _ _ Ht). simpl. rewrite andb_false_r. simpl. lia.
  - apply (lock_views _ _ _ sy_lock0).
    + intros l u. unfold owner. setoid_rewrite lookup_delete_Some. naive_solver.
    + intros u b' p l h [_ Hu]%lookup_delete_Some. eauto using lk_takes.
  - intros w. unfold posting. rewrite (msum_delete _ _ _ _ Ht). simpl.
    specialize (sy_cond0 w). unfold posting, waiting in *. destruct (decide (w = t)) as [->|].
    + rewrite lookup_delete_eq. rewrite Ht in sy_cond0. simpl in *. lia.
    + rewrite lookup_delete_ne by done. lia.
Qed.

Lemma sync_new t : V !! t = None -> 0 < t -> sync_ok (<[t := (false, Run)]> V) Sm H C.
Proof.
  intros Ht Hpos. destruct I. split.
  - intros u b p Hu. ins Hu; [constructor | eauto].
  - intros u [b p] Hu. ins Hu; eauto.
  - by apply bcasts_insert.
  - by apply wait_new.
  - apply (wake_views _ _ sy_wake0). intros sm. unfold woken. rewrite msum_insert by done. done.
  - apply (lock_views _ _ _ sy_lock0).
    + intros l u. rewrite owner_insert. unfold owner. naive_solver.
    + intros u b p l h Hu. ins Hu; [done|]. eauto using lk_takes.
  - intros w. rewrite waiting_insert. unfold posting. rewrite msum_insert by done. simpl.
    specialize (sy_cond0 w). unfold posting, waiting in *. destruct (decide (w = t)) as [->|].
    + rewrite Ht in sy_cond0. simpl in *. lia.
    + lia.
Qed.

Lemma sync_block t sm k q :
  V !! t = Some (false, Test sm k) -> Sm !! sm = Some q -> value q = 0 ->
  sync_ok (<[t := (true, Test sm k)]> V) (<[sm := mk_sema (value q) (waiters q ++ [t])]> Sm) H C.
Proof.
  intros Ht Hq Hv. destruct (shapes_insert t true (Test sm k) _ Ht) as [? ?]; [by apply (sy_shape _ _ _ _ I _ _ _ Ht)|].
  pose proof (cond_goto t false (Test sm k) true (Test sm k) Ht (fun w => eq_refl) eq_refl) as Hc.
  destruct I. split; [done | done | by apply bcasts_insert | | | |].
  - by apply wait_block.
  - by apply wake_block.
  - apply lock_sema; [|intros; eauto]. apply (lock_goto _ _ _ sy_lock0 _ false (Test sm k)); [done..|].
    intros l h. by apply (lk_takes _ _ _ sy_lock0) with (1 := Ht).
  - intros w. rewrite <- (Hc w). rewrite signalled_insert. destruct (decide _) as [->|]; [|done].
    unfold signalled. by rewrite Hq.
Qed.
Lemma sync_take_cond t p p' sm q :
  V !! t = Some (false, p) -> Sm !! sm = Some q -> 0 < value q ->
  (p = Run /\ forall w, sm ≠ WaitSem w) \/ p = Test sm p' -> shape t (Test sm p') ->
  cond_ok (<[t := (false, p')]> V) (<[sm := mk_sema (value q - 1) (waiters q)]> Sm) C.
Proof.
  intros Ht Hq Hv Hp Hsh w. rewrite waiting_insert, signalled_insert, (posting_update _ _ _ _ _ _ _ Ht).
  pose proof (sy_cond _ _ _ _ I w) as Hc.
  pose proof (posting_nonneg V w). pose proof (listed_nonneg C w).
  replace (posts (WaitSem w) p) with false by (destruct Hp as [[-> _]| ->]; done).
  replace (posts (WaitSem w) p') with false by (by inversion Hsh).
  unfold waiting in *. destruct (decide (w = t)) as [->|Hn].
  - rewrite Ht in Hc. replace (waits t p') with false by (by inversion Hsh).
    destruct Hp as [[-> Hp]| ->]; [rewrite decide_False by done; simpl in *; lia|].
    inversion Hsh; subst.
    1-2: rewrite decide_False by done; simpl in *; lia.
    rewrite decide_True by done. unfold signalled in Hc. rewrite Hq in Hc. simpl in *.
    rewrite Z.eqb_refl in Hc. simpl in *. lia.
  - rewrite decide_False; [lia|]. intros ->. destruct Hp as [[-> Hp]| ->]; [by destruct (Hp w)|].
    inversion Hsh; congruence.
Qed.

Lemma sync_take_lock t p p' sm q :
  V !! t = Some (false, p) -> Sm !! sm = Some q -> 0 < value q ->
  p = Run \/ p = Test sm p' ->
  shape t (Test sm p') -> (forall l h, takes l p' = true -> H !! l = Some h -> h ≠ t) ->
  lock_ok (<[t := (false, p')]> V) (<[sm := mk_sema (value q - 1) (waiters q)]> Sm) H.
Proof.
  intros Ht Hq Hv Hp Hsh Hta. pose proof (sy_lock _ _ _ _ I) as L.
  assert (Hno : forall l, owns l p = false) by (by destruct Hp as [->| ->]).
  assert ((exists l, sm = LockSem l) \/ forall l, sm ≠ LockSem l) as [[l ->]|Hnl]
    by (clear; destruct sm; [by right | left; by eexists | by right]).
  - destruct (proj2 (lk_dom _ _ _ L l)) as [h Hh]; [eauto|].
    pose proof (lk_state _ _ _ L _ _ _ Hh Hq) as Hst.
    assert (p' = SetHolder l Run) as -> by (by inversion Hsh).
    rewrite <- (insert_id H l h Hh). apply (lock_change _ _ _ L t false p); [done|eauto| | |by intros; simplify_map_eq|].
    + intros l' Hl'. rewrite Hno. simpl. symmetry. by apply Z.eqb_neq.
    + destruct Hst as [Hv1 Hh1 Hfree|Hv1 _ _|? Hv1 _ _]; [|lia|lia].
      apply (lock_moving _ _ _ _ t); simpl; [lia|done|]. intros u. rewrite owner_insert. simpl.
      rewrite Z.eqb_refl. naive_solver.
    + intros u b p0 Hu _ Htk. by apply (lk_takes _ _ _ L) with (1 := Hu) (2 := Htk).
  - apply lock_sema; [|naive_solver]. apply (lock_goto _ _ _ L _ false p); [done| |done].
    intros l. rewrite Hno. inversion Hsh; naive_solver.
Qed.

(** A successful [sema_down] or [sema_try_down]. *)
Lemma sync_take t p p' sm q :
  V !! t = Some (false, p) -> Sm !! sm = Some q -> 0 < value q ->
  (p = Run /\ forall w, sm ≠ WaitSem w) \/ p = Test sm p' ->
  shape t (Test sm p') -> (forall l h, takes l p' = true -> H !! l = Some h -> h ≠ t) ->
  sync_ok (<[t := (false, p')]> V) (<[sm := mk_sema (value q - 1) (waiters q)]> Sm) H C.
Proof.
  intros Ht Hq Hv Hp Hsh Hta.
  assert (Hsh' : shape t p') by (inversion Hsh; constructor).
  destruct (shapes_insert t false p' _ Ht Hsh') as [? ?].
  pose proof (wt_value _ _ (sy_wait _ _ _ _ I) _ _ Hq) as Hb.
  destruct I. split; [done | done | apply bcasts_insert; by inversion Hsh | | | |].
  - apply (wait_sema _ _); [|done|lia]. apply (wait_goto _ _ sy_wait0 _ p); [done|].
    intros sm' Hu. destruct Hp as [[-> Hp]| ->].
    + inversion Hsh; subst; simpl in Hu; [done| |by destruct (Hp t)].
      rewrite orb_false_r in Hu. apply bool_decide_eq_true in Hu as <-. eauto.
    + apply (wt_sema _ _ sy_wait0 _ _ _ sm' Ht). simpl. by rewrite Hu, orb_true_r.
  - apply (wake_take _ _ sy_wake0 _ p); [done..|]. naive_solver.
  - apply (sync_take_lock _ p); naive_solver.
  - by apply (sync_take_cond _ p).
Qed.

(** A thread between [sema_down] and [sema_up] of a lock with no holder set. *)
Lemma moving_owner t b p l :
  V !! t = Some (b, p) -> owns l p = true ->
  exists q, Sm !! LockSem l = Some q /\ H !! l = Some NULL /\ value q = 0 /\
    forall u, owner V l u <-> u = t.
Proof.
  intros Ht Ho. pose proof (sy_lock _ _ _ _ I) as L.
  assert (is_Some (Sm !! LockSem l)) as [q Hq].
  { apply (wt_sema _ _ (sy_wait _ _ _ _ I) _ _ _ (LockSem l) Ht).
    pose proof (sy_shape _ _ _ _ I _ _ _ Ht) as Hs.
    destruct Hs; simpl in *; try done; apply Z.eqb_eq in Ho as ->; by rewrite bool_decide_true. }
  destruct (proj2 (lk_dom _ _ _ L l)) as [h Hh]; [eauto|].
  assert (Hot : owner V l t) by (by exists b, p).
  destruct (lk_state _ _ _ L _ _ _ Hh Hq) as [_ _ Hn|_ _ Hn|t' Hv -> Hu]; [by destruct (Hn t)..|].
  exists q. apply Hu in Hot as ->. done.
Qed.

(** The last statement of [lock_acquire]. *)
Lemma sync_set t l :
  V !! t = Some (false, SetHolder l Run) ->
  sync_ok (<[t := (false, Run)]> V) Sm (<[l := t]> H) C.
Proof.
  intros Ht. destruct (shapes_insert t false Run _ Ht) as [? ?]; [constructor|].
  pose proof (cond_goto t false _ false Run Ht (fun w => eq_refl) eq_refl) as Hc.
  pose proof (sy_tid _ _ _ _ I _ _ Ht) as Hpos.
  destruct (moving_owner t false _ l Ht) as (q & Hq & Hh & Hv & Hu); [by simpl; rewrite Z.eqb_refl|].
  destruct I. split; [done|done| | | | |done].
  - intros u b p c l' Hu' Hb. ins Hu'; [done|]. destruct (sy_bcast0 _ _ _ _ _ Hu' Hb) as [Hl ?].
    split; [|done]. rewrite lookup_insert_ne; [done|]. intros <-.
    pose proof (sy_tid0 _ _ Hu'). unfold NULL in *. assert (u = 0) by congruence. lia.
  - by apply (wait_goto _ _ sy_wait0 _ (SetHolder l Run)).
  - by apply (wake_goto _ _ sy_wake0 _ (SetHolder l Run)).
  - rewrite <- (insert_id Sm (LockSem l) q Hq).
    apply (lock_change _ _ _ sy_lock0 t false (SetHolder l Run)); eauto.
    + intros l' Hl'. simpl. by apply Z.eqb_neq.
    + apply lock_held; [done|unfold NULL; lia|]. intros u. rewrite owner_insert, Hu. naive_solver.
Qed.

(** [lock_release] before [sema_up], also inside [cond_wait]. *)
Lemma sync_release_lock t l k :
  V !! t = Some (false, Run) -> H !! l = Some t ->
  (forall l', takes l' (Post (LockSem l) k) = true -> l' = l) ->
  lock_ok (<[t := (false, Post (LockSem l) k)]> V) Sm (<[l := NULL]> H).
Proof.
  intros Ht Hl Hk. pose proof (sy_lock _ _ _ _ I) as L.
  pose proof (sy_tid _ _ _ _ I _ _ Ht) as Hpos.
  destruct (proj1 (lk_dom _ _ _ L l)) as [q Hq]; [eauto|].
  rewrite <- (insert_id Sm (LockSem l) q Hq). apply (lock_change _ _ _ L t false Run); eauto.
  - intros l' Hl'. simpl. symmetry. by apply Z.eqb_neq.
  - destruct (lk_state _ _ _ L _ _ _ Hl Hq) as [_ Hn _|Hv _ Hno|? _ Hn _]; [unfold NULL in *; lia| |unfold NULL in *; lia].
    apply (lock_moving _ _ _ _ t); [done..|]. intros u. rewrite owner_insert. simpl. rewrite Z.eqb_refl.
    split; [naive_solver|]. intros ->. by left.
  - intros l' h Htk. rewrite (Hk _ Htk), lookup_insert_eq. intros [= <-]. unfold NULL. lia.
  - intros u b p Hu _ _. pose proof (sy_tid _ _ _ _ I _ _ Hu). unfold NULL. lia.
Qed.

Lemma bcasts_release t p l :
  V !! t = Some (false, Run) -> H !! l = Some t -> in_broadcast p = None ->
  bcasts (<[t := (false, p)]> V) (<[l := NULL]> H) C.
Proof.
  intros Ht Hl Hp u b p' c l' Hu Hb. ins Hu; [congruence|].
  destruct (sy_bcast _ _ _ _ I _ _ _ _ _ Hu Hb) as [Hl' ?]. split; [|done].
  rewrite lookup_insert_ne; [done|]. congruence.
Qed.

Lemma sync_release t l :
  V !! t = Some (false, Run) -> H !! l = Some t ->
  sync_ok (<[t := (false, Post (LockSem l) Run)]> V) Sm (<[l := NULL]> H) C.
Proof.
  intros Ht Hl. destruct (shapes_insert t false (Post (LockSem l) Run) _ Ht) as [? ?]; [constructor|].
  pose proof (sync_release_lock t l Run Ht Hl ltac:(done)).
  pose proof (bcasts_release t (Post (LockSem l) Run) l Ht Hl eq_refl).
  pose proof (cond_goto t false _ false (Post (LockSem l) Run) Ht (fun w => eq_refl) eq_refl) as Hc.
  destruct I. split; [done|done|done| | |auto|done].
  - apply (wait_goto _ _ sy_wait0 _ Run); [done|]. intros sm. simpl.
    rewrite orb_false_r. intros Hs%bool_decide_eq_true. subst. apply (lk_dom _ _ _ sy_lock0). eauto.
  - by apply (wake_goto _ _ sy_wake0 _ Run).
Qed.

(** A listed waiter has its semaphore. *)
Lemma signal_sema c w ws : C !! c = Some (w :: ws) -> is_Some (Sm !! WaitSem w).
Proof.
  intros Hws. pose proof (sy_cond _ _ _ _ I w) as Hc.
  destruct (Sm !! WaitSem w) as [q|] eqn:Hq; [eauto|]. exfalso.
  unfold signalled in Hc. rewrite Hq in Hc. simpl in Hc.
  assert (1 <= listed C w).
  { pose proof (msum_ge (count w) C c _ (count_nonneg w) Hws) as Hge. simpl in Hge.
    rewrite Z.eqb_refl in Hge. simpl in Hge. pose proof (count_nonneg w ws). unfold listed. lia. }
  pose proof (posting_nonneg V w). unfold waiting in Hc.
  destruct (V !! w) as [[b p]|] eqn:Hw; simpl in Hc; [|lia].
  destruct (waits w p) eqn:Hp; simpl in Hc; [|lia].
  destruct (wt_sema _ _ (sy_wait _ _ _ _ I) _ _ _ (WaitSem w) Hw); [|congruence].
  pose proof (sy_shape _ _ _ _ I _ _ _ Hw) as Hs. clear -Hs Hp.
  destruct Hs; simpl in *; try done; rewrite ?bool_decide_true by done; rewrite ?orb_true_r; done.
Qed.

(** [cond_wait] up to the [sema_up] of its [lock_release]. *)
Lemma sync_wait_cond t c ws p :
  V !! t = Some (false, Run) -> C !! c = Some ws -> waits t p = true ->
  (forall w, posts (WaitSem w) p = false) ->
  cond_ok (<[t := (false, p)]> V) (<[WaitSem t := mk_sema 0 []]> Sm) (<[c := ws ++ [t]]> C).
Proof.
  intros Ht Hws Hp Hno w. rewrite waiting_insert, signalled_insert, (posting_update _ _ _ _ _ _ _ Ht), Hno.
  unfold listed. rewrite (msum_update _ _ _ _ _ Hws), count_app. simpl. fold (listed C w).
  pose proof (sy_cond _ _ _ _ I w) as Hc.
  pose proof (posting_nonneg V w). pose proof (listed_nonneg C w).
  assert (0 <= signalled Sm w).
  { unfold signalled. destruct (Sm !! WaitSem w) as [q|] eqn:Hq; simpl; [|done].
    by apply (wt_value _ _ (sy_wait _ _ _ _ I) _ _ Hq). }
  destruct (decide (w = t)) as [->|Hn].
  - rewrite Z.eqb_refl, decide_True by done. unfold waiting in Hc. rewrite Ht in Hc. rewrite Hp. simpl in *. lia.
  - rewrite decide_False by congruence. rewrite (proj2 (Z.eqb_neq t w)) by done. simpl. lia.
Qed.

Lemma sync_wait_call t c ws l :
  V !! t = Some (false, Run) -> H !! l = Some t -> C !! c = Some ws ->
  sync_ok (<[t := (false, Post (LockSem l) (Test (WaitSem t) (TakeLock l Run)))]> V)
    (<[WaitSem t := mk_sema 0 []]> Sm) (<[l := NULL]> H) (<[c := ws ++ [t]]> C).
Proof.
  intros Ht Hl Hws. set (p := Post (LockSem l) (Test (WaitSem t) (TakeLock l Run))).
  destruct (shapes_insert t false p _ Ht) as [? ?]; [constructor|].
  pose proof (sync_wait_cond t c ws p Ht Hws) as Hc.
  pose proof (bcasts_release t p l Ht Hl eq_refl) as Hb.
  assert (Hlk : lock_ok (<[t := (false, p)]> V) Sm (<[l := NULL]> H)).
  { apply sync_release_lock; [done..|]. intros l'. simpl. intros Hx%Z.eqb_eq. done. }
  destruct I. split; [done|done| | | |by apply lock_sema|].
  - intros u b p' c' l' Hu Hp'. destruct (Hb u b p' c' l' Hu Hp') as [? ?]. split; [done|].
    rewrite lookup_insert_is_Some'. by right.
  - assert (W : wait_ok V (<[WaitSem t := mk_sema 0 []]> Sm)).
    { apply wait_init; [done| |lia]. intros u k Hu. pose proof (sy_shape0 _ _ _ Hu) as Hs.
      inversion Hs; subst. congruence. }
    apply (wait_goto _ _ W _ Run); [done|]. intros sm Hs. rewrite lookup_insert_is_Some'.
    unfold p in Hs. simpl in Hs. rewrite !orb_true_iff, !bool_decide_eq_true in Hs.
    destruct Hs as [<-|[<-|[<-|?]]]; [right|by left|right|done]; apply (lk_dom _ _ _ sy_lock0); eauto.
  - apply wake_goto with (p := Run); [|done..]. by apply wake_empty.
  - apply Hc; [|done]. simpl. apply Z.eqb_refl.
Qed.

(** [cond_signal] takes a waiter off the list. *)
Lemma sync_signal t p k c w ws :
  V !! t = Some (false, p) -> C !! c = Some (w :: ws) ->
  (p = Run /\ k = Run) \/ (exists l, p = Broadcast c l /\ k = p) ->
  sync_ok (<[t := (false, Post (WaitSem w) k)]> V) Sm H (<[c := ws]> C).
Proof.
  intros Ht Hws Hp. destruct (shapes_insert t false (Post (WaitSem w) k) _ Ht) as [? ?].
  { destruct Hp as [[-> ->]|(l & -> & ->)]; constructor. }
  assert (Hnt : forall sm, tests sm p = false) by (by destruct Hp as [[-> ->]|(l & -> & ->)]).
  assert (Hno : forall l, owns l p = false) by (by destruct Hp as [[-> ->]|(l & -> & ->)]).
  assert (Hnp : forall w, posts (WaitSem w) p = false) by (by destruct Hp as [[-> ->]|(l & -> & ->)]).
  assert (Hwt : waits t p = false) by (by destruct Hp as [[-> ->]|(l & -> & ->)]).
  pose proof (signal_sema c w ws Hws) as Hsem.
  destruct I. split; [done|done| | | | |].
  - intros u b p' c' l Hu Hb. rewrite lookup_insert_is_Some'. ins Hu.
    + destruct Hp as [[-> ->]|(l' & -> & ->)]; [done|]. destruct (sy_bcast0 _ _ _ _ _ Ht Hb). eauto.
    + destruct (sy_bcast0 _ _ _ _ _ Hu Hb). eauto.
  - apply (wait_goto _ _ sy_wait0 _ p); [done|]. intros sm Hs. simpl in Hs.
    apply orb_true_iff in Hs as [Hs|Hs]; [apply bool_decide_eq_true in Hs as <-; done|].
    by destruct Hp as [[-> ->]|(l & -> & ->)].
  - by apply (wake_goto _ _ sy_wake0 _ p).
  - apply (lock_goto _ _ _ sy_lock0 _ false p); [done|by intros; rewrite Hno|].
    by destruct Hp as [[-> ->]|(l & -> & ->)].
  - intros u. specialize (sy_cond0 u). rewrite waiting_insert, (posting_update _ _ _ _ _ _ _ Ht), Hnp.
    replace (waits u (Post (WaitSem w) k)) with false by (by destruct Hp as [[-> ->]|(l & -> & ->)]).
    unfold listed in *. rewrite (msum_update _ _ _ _ _ Hws). simpl.
    replace (bool_decide (WaitSem w = WaitSem u)) with (w =? u).
    2: { destruct (Z.eqb_spec w u) as [->|]; [by rewrite bool_decide_true|]. rewrite bool_decide_false; congruence. }
    destruct (decide (u = t)) as [->|]; [|lia]. unfold waiting in sy_cond0. rewrite Ht in sy_cond0.
    simpl in sy_cond0. rewrite Hwt in sy_cond0. simpl in sy_cond0. lia.
Qed.

(** The values that [sema_up] can find. *)
Lemma wait_sem_bound w q : Sm !! WaitSem w = Some q -> value q <= 1.
Proof.
  intros Hq. pose proof (sy_cond _ _ _ _ I w) as Hc.
  pose proof (posting_nonneg V w). pose proof (listed_nonneg C w).
  unfold signalled, waiting in Hc. rewrite Hq in Hc. simpl in Hc.
  destruct (V !! w) as [[b p]|]; simpl in Hc; [|lia]. destruct (waits w p); simpl in Hc; lia.
Qed.

Lemma sync_sema_init a v :
  (forall t k, V !! t ≠ Some (true, Test (Sem a) k)) -> 0 <= v < 2 ^ 32 ->
  sync_ok V (<[Sem a := mk_sema v []]> Sm) H C.
Proof.
  intros Hno Hv. destruct I. split; [done|done|done| | | |].
  - by apply wait_init.
  - by apply wake_empty.
  - by apply lock_sema.
  - intros w. rewrite signalled_insert, decide_False by done. apply sy_cond0.
Qed.

Lemma sync_lock_init l :
  H !! l = None -> sync_ok V (<[LockSem l := mk_sema 1 []]> Sm) (<[l := NULL]> H) C.
Proof.
  intros Hl. pose proof I as I0. destruct I.
  assert (Hnone : Sm !! LockSem l = None).
  { apply eq_None_not_Some. rewrite <- (lk_dom _ _ _ sy_lock0), Hl. apply is_Some_None. }
  assert (Hno : forall t, ~ owner V l t).
  { intros t (b & p & Ht & Ho). destruct (moving_owner t b p l Ht Ho) as (q & Hq & _). congruence. }
  split; [done|done| | | | |].
  - intros t b p c l' Ht Hp. destruct (sy_bcast0 _ _ _ _ _ Ht Hp). split; [|done].
    rewrite lookup_insert_ne; congruence.
  - apply wait_init; [done| |lia]. intros t k Ht.
    destruct (wt_sema _ _ sy_wait0 _ _ _ (LockSem l) Ht); [|congruence]. simpl. by rewrite bool_decide_true.
  - by apply wake_empty.
  - destruct sy_lock0 as [L1 L2 L3]. split.
    + intros l'. rewrite !lookup_insert_is_Some', L1. split; (intros [?|?]; [left; congruence|by right]).
    + intros l' h q Hh Hq. ins Hh.
      * rewrite lookup_insert_eq in Hq. injection Hq as <-. by apply lock_free.
      * rewrite lookup_insert_ne in Hq by congruence. eauto.
    + intros t b p l' h Ht Hp Hh. ins Hh; [|eauto]. pose proof (sy_tid0 _ _ Ht). unfold NULL. lia.
  - intros w. rewrite signalled_insert, decide_False by done. apply sy_cond0.
Qed.

Lemma sync_cond_init c :
  C !! c = None \/ C !! c = Some [] -> sync_ok V Sm H (<[c := []]> C).
Proof.
  intros Hc. destruct I. split; [done|done| |done|done|done|].
  - intros t b p c' l Ht Hp. rewrite lookup_insert_is_Some'. destruct (sy_bcast0 _ _ _ _ _ Ht Hp). eauto.
  - intros w. rewrite <- (sy_cond0 w). unfold listed.
    destruct Hc as [Hc|Hc]; [by rewrite msum_insert|]. by rewrite insert_id.
Qed.
End Sync.

(** What [sema_up] does to the views and the semaphores. *)
Inductive raised (V : gmap Z view) (Sm : gmap sid semaphore) (sm : sid) : gmap Z view -> gmap sid semaphore -> Prop :=
| raised_none q : Sm !! sm = Some q -> waiters q = [] ->
    raised V Sm sm V (<[sm := mk_sema (u32 (value q + 1)) []]> Sm)
| raised_one q w ws k : Sm !! sm = Some q -> waiters q = w :: ws -> V !! w = Some (true, Test sm k) ->
    raised V Sm sm (<[w := (false, Test sm k)]> V) (<[sm := mk_sema (u32 (value q + 1)) ws]> Sm).

Section Raise.
Context (V : gmap Z view) (Sm : gmap sid semaphore) (H : gmap Z Z) (C : gmap Z (list Z)).
Context (I : sync_ok V Sm H C) (sm : sid) (V' : gmap Z view) (Sm' : gmap sid semaphore).
Context (R : raised V Sm sm V' Sm').

Lemma raised_pc t p : (exists b, V' !! t = Some (b, p)) <-> (exists b, V !! t = Some (b, p)).
Proof.
  destruct R as [|q w ws k _ _ Hw]; [done|]. destruct (decide (t = w)) as [->|].
  - rewrite lookup_insert_eq, Hw. naive_solver.
  - by rewrite lookup_insert_ne.
Qed.

Lemma raised_running t p : V !! t = Some (false, p) -> V' !! t = Some (false, p).
Proof.
  destruct R as [|q w ws k _ _ Hw]; [done|]. intros Ht. rewrite lookup_insert_ne; congruence.
Qed.

Lemma raised_owner l t : owner V' l t <-> owner V l t.
Proof.
  unfold owner. split; intros (b & p & Ht & Ho).
  - destruct (proj1 (raised_pc t p)) as [b' Hb']; [eauto|]. eauto.
  - destruct (proj2 (raised_pc t p)) as [b' Hb']; [eauto|]. eauto.
Qed.

Lemma raised_lock : lock_ok V' Sm H.
Proof.
  apply (lock_views _ _ _ (sy_lock _ _ _ _ I) V' raised_owner). intros t b p l h Ht.
  destruct (proj1 (raised_pc t p)) as [b' Hb']; [eauto|]. apply (lk_takes _ _ _ (sy_lock _ _ _ _ I) _ b').
  done.
Qed.

Lemma raised_shapes : shapes V' /\ tids V' /\ bcasts V' H C.
Proof.
  destruct I. repeat split.
  - intros t b p Ht. destruct (proj1 (raised_pc t p)) as [b' Hb']; eauto.
  - intros t [b p] Ht. destruct (proj1 (raised_pc t p)) as [b' Hb']; eauto.
  - destruct (proj1 (raised_pc t p)) as [b' Hb']; [eauto|]. by eapply sy_bcast0.
  - destruct (proj1 (raised_pc t p)) as [b' Hb']; [eauto|]. by eapply sy_bcast0.
Qed.

Lemma raised_value v : 0 <= v < 2 ^ 32 -> 0 <= u32 (v + 1) < 2 ^ 32 /\ u32 (v + 1) <= v + 1.
Proof.
  intros Hv. unfold u32. split; [apply Z.mod_pos_bound; lia|]. apply Z.mod_le; lia.
Qed.

Lemma raised_wait : wait_ok V' Sm' /\ wake_ok V' Sm'.
Proof.
  destruct I. destruct R as [q Hq Hw|q w ws k Hq Hws Hw];
    destruct (raised_value (value q)) as [Hb Hle]; try by apply (wt_value _ _ sy_wait0 _ _ Hq).
  - split; [|by apply wake_empty]. rewrite <- Hw. by apply wait_sema.
  - split; [|by apply (wake_unblock _ _ sy_wake0 _ q)].
    destruct (wait_unblock _ _ sy_wait0 _ _ _ _ Hq Hws) as (k' & Hk' & W).
    assert (k' = k) as -> by congruence.
    rewrite <- (insert_insert_eq Sm sm _ (mk_sema (value q) ws)).
    refine (wait_sema _ _ W sm (mk_sema (value q) ws) _ _ Hb). apply lookup_insert_eq.
Qed.

Lemma raised_posting w : posting V' w = posting V w /\ waiting V' w = waiting V w.
Proof.
  destruct R as [|q u ws k Hq Hws Hw]; [done|]. split.
  - rewrite (posting_update _ _ _ _ _ _ _ Hw). simpl. lia.
  - rewrite waiting_insert. destruct (decide (w = u)) as [->|]; [|done]. unfold waiting. by rewrite Hw.
Qed.

Lemma raised_signalled w :
  signalled Sm' w = signalled Sm w + ind (bool_decide (sm = WaitSem w)).
Proof.
  assert (exists q ws, Sm !! sm = Some q /\ Sm' = <[sm := mk_sema (u32 (value q + 1)) ws]> Sm) as (q & ws & Hq & ->).
  { destruct R; eauto. }
  rewrite signalled_insert. destruct (decide (sm = WaitSem w)) as [->|].
  - rewrite bool_decide_true by done. unfold signalled. rewrite Hq. simpl.
    pose proof (wait_sem_bound _ _ _ _ I w q Hq). pose proof (wt_value _ _ (sy_wait _ _ _ _ I) _ _ Hq).
    unfold u32. rewrite Z.mod_small; lia.
  - rewrite bool_decide_false by done. simpl. lia.
Qed.

(** [sema_up] by an interrupt handler. *)
Lemma sync_raise a : sm = Sem a -> sync_ok V' Sm' H C.
Proof.
  intros Hsm. destruct raised_shapes as (? & ? & ?), raised_wait as [? ?]. split; try done.
  - pose proof raised_lock as L. destruct R; apply lock_sema; congruence.
  - intros w. destruct (raised_posting w) as [-> ->]. rewrite raised_signalled.
    rewrite bool_decide_false by congruence. simpl. rewrite <- (sy_cond _ _ _ _ I w). lia.
Qed.

Lemma raised_post_lock t k :
  V !! t = Some (false, Post sm k) -> shape t (Post sm k) -> lock_ok (<[t := (false, k)]> V') Sm' H.
Proof.
  intros Ht Hsh. pose proof raised_lock as L. pose proof (raised_running _ _ Ht) as Ht'.
  assert (Hok : forall l, owns l k = false) by (by inversion Hsh).
  assert (Htk : forall l h, takes l k = true -> H !! l = Some h -> h ≠ t).
  { intros l h Hl. apply (lk_takes _ _ _ L _ _ _ _ _ Ht'). inversion Hsh; subst; done. }
  assert ((exists l, sm = LockSem l) \/ forall l, sm ≠ LockSem l) as [[l Hsm]|Hnl]
    by (clear; destruct sm; [by right | left; by eexists | by right]).
  - destruct (moving_owner _ _ _ _ I t _ _ l Ht) as (q & Hq & Hh & Hv & Hu); [rewrite Hsm; simpl; apply Z.eqb_refl|].
    assert (exists ws, Sm' = <[LockSem l := mk_sema 1 ws]> Sm) as [ws HSm].
    { rewrite Hsm in R. destruct R as [q' Hq' _|q' w ws k' Hq' _ _];
        assert (q' = q) as -> by congruence; rewrite Hv; by eexists. }
    rewrite HSm. rewrite <- (insert_id H l NULL Hh). apply (lock_change _ _ _ L t false (Post sm k)); [done|eauto| | | |].
    + intros l' Hl'. rewrite Hok, Hsm. simpl. by apply Z.eqb_neq.
    + apply lock_free; [done..|]. intros u. rewrite owner_insert, raised_owner, Hu, Hok. naive_solver.
    + intros l' h. rewrite (insert_id H l NULL Hh). apply Htk.
    + intros u b p Hu' _ Hp. by apply (lk_takes _ _ _ L _ _ _ _ _ Hu' Hp).
  - assert (L' : lock_ok V' Sm' H) by (destruct R; apply lock_sema; naive_solver).
    apply (lock_goto _ _ _ L' _ false (Post sm k)); [done| |done].
    intros l. rewrite Hok. destruct sm; simpl; naive_solver.
Qed.

(** [sema_up] by a thread. *)
Lemma sync_post t k :
  V !! t = Some (false, Post sm k) -> sync_ok (<[t := (false, k)]> V') Sm' H C.
Proof.
  intros Ht. destruct raised_shapes as (S1 & S2 & S3), raised_wait as [W K].
  pose proof (raised_running _ _ Ht) as Ht'. pose proof (sy_shape _ _ _ _ I _ _ _ Ht) as Hsh. split.
  - intros u b p Hu. ins Hu; [by inversion Hsh; constructor|eauto].
  - intros u [b p] Hu. ins Hu; eauto.
  - intros u b p c l Hu Hb. ins Hu; [|eauto]. apply (S3 _ _ _ c l Ht'). inversion Hsh; subst; done.
  - apply (wait_goto _ _ W _ (Post sm k)); [done|]. intros sm' Hs.
    apply (wt_sema _ _ W _ _ _ _ Ht'). simpl. by rewrite Hs, orb_true_r.
  - by apply (wake_goto _ _ K _ (Post sm k)).
  - by apply raised_post_lock.
  - intros w. rewrite waiting_insert, raised_signalled, (posting_update _ _ _ _ _ _ _ Ht').
    destruct (raised_posting w) as [-> ->]. pose proof (sy_cond _ _ _ _ I w) as Hc.
    assert (posts (WaitSem w) k = false) as -> by (by inversion Hsh). simpl.
    destruct (decide (w = t)) as [->|]; [|lia]. unfold waiting in Hc. rewrite Ht in Hc.
    replace (waits t k) with (waits t (Post sm k)); [simpl in *; lia|]. by inversion Hsh.
Qed.
End Raise.
