(* ===== verification/SchedStep.v ===== *)
(** Every step of [Sched] that respects the contracts of the primitives succeeds
    and keeps the invariant of [SchedInv]; mutual exclusion, no lost wake-up and
    the discipline of the scheduler's lists follow for all reachable states. *)
From stdpp Require Import base numbers gmap fin_maps countable list.
From Stdlib Require Import ZArith Lia.
From S2P Require Import Prelude Sched SchedInv.

Open Scope Z_scope.

(** * Operations on one thread *)

Lemma wp_update f s (Q : unit -> kstate -> Prop) : Q tt (f s) -> wp (update f) s Q.
Proof. done. Qed.

Lemma wp_get_thread t th s (Q : thread -> kstate -> Prop) :
  threads s !! t = Some th -> Q th s -> wp (get_thread t) s Q.
Proof. intros Ht HQ. unfold get_thread. apply wp_bind, wp_get. by rewrite Ht. Qed.

Lemma wp_set_status t th st s (Q : unit -> kstate -> Prop) :
  threads s !! t = Some th ->
  Q tt (set_threads (<[t := mk_thread st (at_pc th) (priority th)]> (threads s)) s) ->
  wp (set_status t st) s Q.
Proof. intros Ht HQ. unfold set_status. apply wp_bind. by eapply wp_get_thread. Qed.

Lemma wp_goto t th p s (Q : unit -> kstate -> Prop) :
  threads s !! t = Some th ->
  Q tt (set_threads (<[t := mk_thread (status th) p (priority th)]> (threads s)) s) ->
  wp (goto t p) s Q.
Proof. intros Ht HQ. unfold goto. apply wp_bind. by eapply wp_get_thread. Qed.

Lemma wp_thread_current s th (Q : Z -> kstate -> Prop) :
  threads s !! current s = Some th -> status th = THREAD_RUNNING -> Q (current s) s ->
  wp thread_current s Q.
Proof.
  intros Ht Hst HQ. unfold thread_current. apply wp_bind, wp_get, wp_bind.
  eapply wp_get_thread; [done|]. apply wp_bind, wp_assert; [by rewrite bool_decide_true | done].
Qed.

Lemma views_insert s t th : views (set_threads (<[t := th]> (threads s)) s) = <[t := view_of th]> (views s).
Proof. unfold views. simpl. by rewrite fmap_insert. Qed.

Lemma views_lookup s t th : threads s !! t = Some th -> views s !! t = Some (view_of th).
Proof. intros Ht. unfold views. by rewrite lookup_fmap, Ht. Qed.

Lemma set_ready_id s : set_ready (ready_list s) s = s.
Proof. by destruct s. Qed.

(** * schedule *)

Section Dispatch.
Context (s : kstate) (Q : queue_ok false s).
Context (next : Z) (rest : list Z).
Context (Hnext : ready_list s = next :: rest \/ (ready_list s = [] /\ rest = [] /\ next = idle_thread s)).

Lemma next_thread : exists th, threads s !! next = Some th /\ status th ≠ THREAD_RUNNING /\
  status th ≠ THREAD_DYING /\ (status th = THREAD_BLOCKED -> at_pc th = Idle).
Proof.
  destruct Q as [Qcur Qrun Qdy Qnd Qrd Qid Qoi Qtid]. destruct Hnext as [Hr|(Hr & _ & ->)].
  - destruct (proj1 (Qrd next)) as [_ (th & Ht & Hst)]; [rewrite Hr; by left|].
    exists th. rewrite Hst. done.
  - destruct Qid as (th & Ht & Hp & Hd). exists th. split_and!; [done| |done|done].
    intros Hrun. destruct Qcur as (th' & Ht' & Hst'). rewrite (Qrun _ _ Ht Hrun) in Ht.
    assert (th' = th) as -> by congruence. by apply Hst' in Hrun.
Qed.

Lemma not_running t th : threads s !! t = Some th -> status th ≠ THREAD_RUNNING.
Proof.
  destruct Q as [Qcur Qrun Qdy Qnd Qrd Qid Qoi Qtid]. intros Ht Hrun. destruct Qcur as (th' & Ht' & Hst').
  rewrite (Qrun _ _ Ht Hrun) in Ht. assert (th' = th) as -> by congruence. by apply Hst' in Hrun.
Qed.

(** The state after the switch; [T] is the threads without the one that is freed. *)
Definition dispatched (T : gmap Z thread) (th : thread) : kstate :=
  set_threads (<[next := mk_thread THREAD_RUNNING (at_pc th) (priority th)]> T)
    (set_ticks 0 (set_current next (set_ready rest s))).

Section Queue.
Context (T : gmap Z thread) (th : thread) (Hth : T !! next = Some th).
Context (Hsub : T ⊆ threads s).
Context (Hkeep : forall t th, threads s !! t = Some th -> T !! t = Some th \/ status th = THREAD_DYING).
Context (Hdy : forall t th, T !! t = Some th -> status th = THREAD_DYING -> t = initial_thread s).

Lemma dispatched_queue : queue_ok true (dispatched T th).
Proof.
  pose proof not_running as Hnr. destruct Q as [Qcur Qrun Qdy Qnd Qrd Qid Qoi Qtid].
  assert (Hs : forall t th', T !! t = Some th' -> threads s !! t = Some th').
  { intros t th' Ht. by apply (lookup_weaken T). }
  split; simpl.
  - eexists. by rewrite lookup_insert_eq.
  - intros t th' Ht Hst. apply lookup_insert_Some in Ht as [[<- _]|[_ Ht]]; [done|].
    by destruct (Hnr t th'); [apply Hs|].
  - intros t th' Ht Hst. apply lookup_insert_Some in Ht as [[_ <-]|[Hne Ht]]; [done|]. right. eauto.
  - destruct Hnext as [Hr|(Hr & -> & _)]; [|constructor]. rewrite Hr in Qnd.
    by apply NoDup_cons in Qnd as [_ ?].
  - intros t. specialize (Qrd t). destruct Hnext as [Hr|(Hr & -> & ->)]; rewrite Hr in *.
    + apply NoDup_cons in Qnd as [Hni _]. rewrite elem_of_cons in Qrd. split.
      * intros Ht. destruct (proj1 Qrd) as [? (th' & Ht' & Hst)]; [by right|].
        split; [done|]. exists th'. split; [|done]. rewrite lookup_insert_ne by (intros ->; done).
        destruct (Hkeep _ _ Ht'); congruence.
      * intros [Hi (th' & Ht' & Hst)]. apply lookup_insert_Some in Ht' as [[_ <-]|[Hne Ht']]; [done|].
        destruct (proj2 Qrd); [eauto|congruence|done].
    + split; [by intros ?%not_elem_of_nil|]. intros [Hi (th' & Ht' & Hst)].
      apply Qrd. rewrite lookup_insert_ne in Ht' by done. eauto.
  - destruct Qid as (th' & Ht' & Hp & Hd). destruct (decide (next = idle_thread s)) as [He|].
    + rewrite He in *. rewrite lookup_insert_eq. eexists. split; [done|].
      apply Hs in Hth. assert (th' = th) as -> by congruence. done.
    + exists th'. rewrite lookup_insert_ne by done. destruct (Hkeep _ _ Ht'); [done|congruence].
  - intros t th' Ht Hp. apply lookup_insert_Some in Ht as [[<- <-]|[Hne Ht]]; eauto.
  - intros t th' Ht. apply lookup_insert_Some in Ht as [[<- <-]|[Hne Ht]]; eauto.
Qed.

Lemma dispatched_inv :
  sync_ok (view_of <$> T) (semas s) (holders s) (conds s) -> inv true (dispatched T th).
Proof.
  intros HS. split; [apply dispatched_queue|]. simpl.
  destruct next_thread as (th' & Hth' & _ & _ & Hb).
  assert (th' = th) as -> by (pose proof (lookup_weaken T (threads s) _ _ Hth Hsub); congruence).
  unfold views. simpl. rewrite fmap_insert. unfold view_of at 1. simpl.
  assert (Hv : (view_of <$> T) !! next = Some (view_of th)) by (by rewrite lookup_fmap, Hth).
  destruct (decide (status th = THREAD_BLOCKED)) as [Hbl|Hnb].
  - rewrite (Hb Hbl). unfold view_of in Hv. rewrite (Hb Hbl) in Hv. by apply (sync_idle _ _ _ _ HS) with (1 := Hv).
  - rewrite insert_id; [done|]. rewrite Hv. unfold view_of. by rewrite bool_decide_false.
Qed.
End Queue.
End Dispatch.

Lemma wp_thread_schedule_tail s next th prev (Q : unit -> kstate -> Prop) :
  threads s !! next = Some th -> current s = next ->
  let s' := set_threads (<[next := mk_thread THREAD_RUNNING (at_pc th) (priority th)]> (threads s)) (set_ticks 0 s) in
  match prev with
  | None => Q tt s'
  | Some p => exists thp, threads s !! p = Some thp /\ p ≠ next /\
    if decide (status thp = THREAD_DYING /\ p ≠ initial_thread s)
    then Q tt (set_threads (delete p (threads s')) s') else Q tt s'
  end ->
  wp (thread_schedule_tail prev) s Q.
Proof.
  intros Ht Hc s' HQ. unfold thread_schedule_tail. apply wp_bind, wp_get, wp_bind. rewrite Hc.
  eapply wp_set_status; [done|]. apply wp_bind, wp_update. fold s'.
  destruct prev as [p|]; [|done]. destruct HQ as (thp & Hp & Hne & HQ).
  apply wp_bind. apply wp_get_thread with (th := thp); [simpl; by rewrite lookup_insert_ne|].
  case_decide as Hd.
  - destruct Hd as [Hd Hi]. rewrite bool_decide_true by done. rewrite (proj2 (Z.eqb_neq _ _)) by done. simpl.
    apply wp_bind, wp_assert; [by rewrite (proj2 (Z.eqb_neq _ _))|]. by apply wp_update.
  - destruct (decide (status thp = THREAD_DYING)) as [He|]; [|by rewrite bool_decide_false].
    assert (p = initial_thread s) as -> by (destruct (decide (p = initial_thread s)); tauto).
    rewrite Z.eqb_refl, andb_false_r. done.
Qed.

Lemma sync_free s p thp :
  sync_ok (views s) (semas s) (holders s) (conds s) -> threads s !! p = Some thp -> at_pc thp = Run ->
  sync_ok (view_of <$> delete p (threads s)) (semas s) (holders s) (conds s).
Proof.
  intros HS Hp Hr. rewrite fmap_delete. eapply (sync_delete _ _ _ _ HS).
  rewrite (views_lookup _ _ _ Hp). unfold view_of. by rewrite Hr.
Qed.

(** The threads that remain when the previous thread is switched out. *)
Definition survivors (s : kstate) (thp : thread) : gmap Z thread :=
  if decide (status thp = THREAD_DYING /\ current s ≠ initial_thread s)
  then delete (current s) (threads s) else threads s.

Lemma survivors_inv s next rest thp thn :
  inv false s -> threads s !! current s = Some thp ->
  ready_list s = next :: rest \/ (ready_list s = [] /\ rest = [] /\ next = idle_thread s) ->
  threads s !! next = Some thn -> (next = current s -> status thp ≠ THREAD_DYING) ->
  inv true (dispatched s next rest (survivors s thp) thn).
Proof.
  intros [HQ HS] Hp Hn Hnext Hne. unfold survivors. case_decide as Hd.
  - destruct Hd as [Hd Hi]. apply dispatched_inv; [done|done| | | | |].
    + rewrite lookup_delete_ne; [done|]. intros <-. by apply Hne.
    + apply delete_subseteq.
    + intros t th Ht. destruct (decide (t = current s)) as [->|].
      * right. congruence.
      * left. by rewrite lookup_delete_ne.
    + intros t th [Htc Ht]%lookup_delete_Some Hst. destruct (qu_dying _ _ HQ _ _ Ht Hst) as [[-> _]|?]; done.
    + apply (sync_free s _ thp HS Hp). destruct (qu_dying _ _ HQ _ _ Hp Hd) as [[_ ?]|?]; done.
  - apply dispatched_inv; [done|done|done|done|auto| |done].
    intros t th Ht Hst. destruct (qu_dying _ _ HQ _ _ Ht Hst) as [[-> _]|?]; [|done].
    assert (th = thp) as -> by congruence. destruct (decide (current s = initial_thread s)); tauto.
Qed.

Lemma wp_schedule s (Q : unit -> kstate -> Prop) :
  inv false s -> (forall s', inv true s' -> Q tt s') -> wp schedule s Q.
Proof.
  intros Hinv HQ. pose proof Hinv as [HU HS]. unfold schedule. apply wp_bind, wp_get, wp_bind.
  assert (exists next rest, (ready_list s = next :: rest \/ (ready_list s = [] /\ rest = [] /\ next = idle_thread s)) /\
    next_thread_to_run s = Ok (next, set_ready rest s)) as (next & rest & Hn & Hrun).
  { unfold next_thread_to_run, mbind, M_bind, mget, update, mput. destruct (ready_list s) as [|t r] eqn:Hr.
    - exists (idle_thread s), []. split; [by right|]. rewrite <- Hr. by destruct s.
    - exists t, r. split; [by left|]. done. }
  apply (wp_ok _ _ _ _ _ Hrun). destruct (next_thread s HU next rest Hn) as (thn & Hthn & _ & Hnd & _).
  destruct (qu_cur _ _ HU) as (thp & Hp & Hst).
  pose proof (survivors_inv s next rest thp thn Hinv Hp Hn Hthn) as Hres.
  apply wp_bind. apply wp_get_thread with (th := thp); [done|].
  apply wp_bind, wp_assert; [rewrite bool_decide_false; [done | intros ?%Hst; done]|].
  apply wp_bind, wp_get, wp_bind, wp_assert; [apply bool_decide_eq_true; simpl; eauto|].
  destruct (Z.eqb_spec (current s) next) as [He|Hne]; simpl.
  - apply (wp_thread_schedule_tail _ next thn); [done|done|]. simpl. apply HQ.
    assert (thn = thp) as -> by congruence. rewrite <- He in *.
    replace (threads s) with (survivors s thp); [by apply Hres|].
    unfold survivors. rewrite decide_False; [done|naive_solver].
  - apply wp_bind, wp_update. apply (wp_thread_schedule_tail _ next thn); [done|done|]. simpl.
    exists thp. split; [done|]. split; [done|].
    specialize (Hres ltac:(congruence)). unfold survivors in Hres. case_decide as Hd; apply HQ; [|done].
    rewrite delete_insert_ne by done. done.
Qed.

(** * Changes of the queues *)

Section Change.
Context (s : kstate) (th : thread) (HQ : queue_ok true s) (Hcur : threads s !! current s = Some th).

Lemma cur_running : status th = THREAD_RUNNING.
Proof. destruct (qu_cur _ _ HQ) as (th' & Ht & Hst). assert (th' = th) as -> by congruence. by apply Hst. Qed.

Lemma queue_ext s' :
  threads s' = threads s -> ready_list s' = ready_list s -> current s' = current s ->
  idle_thread s' = idle_thread s -> initial_thread s' = initial_thread s -> next_tid s' = next_tid s ->
  queue_ok true s'.
Proof. destruct HQ. intros H1 H2 H3 H4 H5 H6. split; rewrite ?H1, ?H2, ?H3, ?H4, ?H5, ?H6; done. Qed.

(** The running thread changes anything but its status. *)
Lemma queue_self th' :
  status th' = THREAD_RUNNING -> (at_pc th' = Idle <-> at_pc th = Idle) ->
  queue_ok true (set_threads (<[current s := th']> (threads s)) s).
Proof.
  intros Hst Hp. pose proof cur_running as Hr. destruct HQ as [Qcur Qrun Qdy Qnd Qrd Qid Qoi Qtid]. split; simpl.
  - exists th'. by rewrite lookup_insert_eq.
  - intros t th0 Ht. apply lookup_insert_Some in Ht as [[<- _]|[_ Ht]]; eauto.
  - intros t th0 Ht Hd. apply lookup_insert_Some in Ht as [[_ <-]|[_ Ht]]; [congruence|eauto].
  - done.
  - intros t. rewrite Qrd. destruct (decide (t = current s)) as [->|Hne].
    + rewrite lookup_insert_eq, Hcur. split; intros (? & ? & [= <-] & ?); congruence.
    + by rewrite lookup_insert_ne.
  - destruct Qid as (thi & Hi & Hpi & Hdi). destruct (decide (idle_thread s = current s)) as [He|Hne].
    + rewrite He in *. exists th'. rewrite lookup_insert_eq. assert (thi = th) as -> by congruence.
      split_and!; [done|by apply Hp|congruence].
    + exists thi. by rewrite lookup_insert_ne.
  - intros t th0 Ht Hi. apply lookup_insert_Some in Ht as [[<- <-]|[_ Ht]]; [|eauto]. apply Hp in Hi. eauto.
  - intros t th0 Ht. apply lookup_insert_Some in Ht as [[<- <-]|[_ Ht]]; eauto.
Qed.

(** The running thread gives up the processor. *)
Lemma queue_stop st ready :
  st ≠ THREAD_RUNNING -> (st = THREAD_DYING -> at_pc th = Run) ->
  ready = (if decide (st = THREAD_READY /\ current s ≠ idle_thread s) then ready_list s ++ [current s] else ready_list s) ->
  queue_ok false (set_ready ready (set_threads (<[current s := mk_thread st (at_pc th) (priority th)]> (threads s)) s)).
Proof.
  intros Hst Hd Hready. pose proof cur_running as Hr.
  assert (Hnin : current s ∉ ready_list s).
  { intros [_ (th' & Ht' & ?)]%(qu_ready _ _ HQ). congruence. }
  destruct HQ as [Qcur Qrun Qdy Qnd Qrd Qid Qoi Qtid]. split; simpl.
  - eexists. by rewrite lookup_insert_eq.
  - intros t th0 Ht. apply lookup_insert_Some in Ht as [[<- _]|[_ Ht]]; eauto.
  - intros t th0 Ht Hdy. apply lookup_insert_Some in Ht as [[<- <-]|[Hne Ht]]; [simpl in *; eauto|].
    destruct (Qdy _ _ Ht Hdy) as [[-> _]|]; [done|by right].
  - rewrite Hready. case_decide; [|done]. apply NoDup_app. split_and!; [done| |apply NoDup_singleton].
    by intros x Hx ->%list_elem_of_singleton.
  - intros t. destruct (decide (t = current s)) as [->|Hne].
    + rewrite lookup_insert_eq, Hready. case_decide as Hc.
      * destruct Hc as [-> ?]. split; [intros _; eauto|intros _]. apply elem_of_app. right. by apply list_elem_of_singleton.
      * split; [done|]. intros (? & ? & [= <-] & ?). simpl in *. tauto.
    + rewrite lookup_insert_ne by done. rewrite <- Qrd, Hready. case_decide; [|done].
      rewrite elem_of_app, list_elem_of_singleton. tauto.
  - destruct Qid as (thi & Hi & Hpi & Hdi). destruct (decide (idle_thread s = current s)) as [He|Hne].
    + rewrite He in *. rewrite lookup_insert_eq. assert (thi = th) as -> by congruence.
      eexists. split_and!; [done|done|]. simpl. intros Hx. rewrite (Hd Hx) in Hpi. done.
    + exists thi. by rewrite lookup_insert_ne.
  - intros t th0 Ht Hi. apply lookup_insert_Some in Ht as [[<- <-]|[_ Ht]]; eauto.
  - intros t th0 Ht. apply lookup_insert_Some in Ht as [[<- <-]|[_ Ht]]; eauto.
Qed.

(** Another thread becomes ready: unblocked, or new with tid [next_tid]. *)
Lemma queue_wake w thw next :
  status thw = THREAD_READY -> at_pc thw ≠ Idle -> w ∉ ready_list s -> w ≠ idle_thread s -> w ≠ current s ->
  0 < w < next -> next_tid s <= next ->
  queue_ok true (set_next_tid next (set_ready (ready_list s ++ [w]) (set_threads (<[w := thw]> (threads s)) s))).
Proof.
  intros Hst Hp Hnin Hi Hc Hw Hn. destruct HQ as [Qcur Qrun Qdy Qnd Qrd Qid Qoi Qtid]. split; simpl.
  - by rewrite lookup_insert_ne.
  - intros t th0 Ht Hst0. apply lookup_insert_Some in Ht as [[<- <-]|[_ Ht]]; [congruence|eauto].
  - intros t th0 Ht Hd. apply lookup_insert_Some in Ht as [[<- <-]|[_ Ht]]; [congruence|eauto].
  - apply NoDup_app. split_and!; [done| |apply NoDup_singleton]. by intros x Hx ->%list_elem_of_singleton.
  - intros t. rewrite elem_of_app, list_elem_of_singleton, Qrd. destruct (decide (t = w)) as [->|Hne].
    + rewrite lookup_insert_eq. split; [eauto|]. intros _. by right.
    + rewrite lookup_insert_ne by done. split; [by intros [?|?]|by left].
  - by rewrite lookup_insert_ne.
  - intros t th0 Ht Hi0. apply lookup_insert_Some in Ht as [[<- <-]|[_ Ht]]; [done|eauto].
  - intros t th0 Ht. apply lookup_insert_Some in Ht as [[<- <-]|[_ Ht]]; [done|]. specialize (Qtid _ _ Ht). lia.
Qed.
End Change.

(** * The primitives *)

Section Ops.
Context (s : kstate) (th : thread) (HI : inv true s) (Hcur : threads s !! current s = Some th).
Context (Q : unit -> kstate -> Prop) (HQ : forall s', inv true s' -> Q tt s').

Lemma cur_view : views s !! current s = Some (false, at_pc th).
Proof.
  rewrite (views_lookup _ _ _ Hcur). unfold view_of. by rewrite (cur_running s th (proj1 HI) Hcur).
Qed.

Lemma cur_pos : 0 < current s.
Proof. by destruct (qu_tid _ _ (proj1 HI) _ _ Hcur). Qed.

Lemma wp_current (Q' : Z -> kstate -> Prop) s1 :
  threads s1 = threads s -> current s1 = current s -> Q' (current s) s1 -> wp thread_current s1 Q'.
Proof.
  intros H1 H2 H3. apply (wp_thread_current s1 th); [by rewrite H1, H2|by apply (cur_running s th (proj1 HI))|by rewrite H2].
Qed.

(** The end of a step in which the running thread goes on at [p], after changes of
    the synchronisation objects. *)
Lemma wp_goto_inv s1 p :
  threads s1 = threads s -> ready_list s1 = ready_list s -> current s1 = current s ->
  idle_thread s1 = idle_thread s -> initial_thread s1 = initial_thread s -> next_tid s1 = next_tid s ->
  at_pc th ≠ Idle -> p ≠ Idle ->
  sync_ok (<[current s := (false, p)]> (views s)) (semas s1) (holders s1) (conds s1) ->
  wp (goto (current s) p) s1 Q.
Proof.
  intros H1 H2 H3 H4 H5 H6 Hp Hp' HS. pose proof (queue_ext s (proj1 HI) s1 H1 H2 H3 H4 H5 H6) as HU.
  assert (Hc1 : threads s1 !! current s1 = Some th) by (by rewrite H1, H3).
  apply wp_goto with (th := th); [by rewrite <- H3|]. apply HQ. rewrite <- H3. split.
  - apply (queue_self s1 th HU Hc1); [exact (cur_running s1 th HU Hc1)|done].
  - rewrite views_insert. simpl. unfold view_of. simpl. rewrite (cur_running s1 th HU Hc1).
    rewrite bool_decide_false by done. unfold views. rewrite H1, H3. done.
Qed.

(** The end of a step that only changes the synchronisation objects. *)
Lemma inv_objects s1 :
  threads s1 = threads s -> ready_list s1 = ready_list s -> current s1 = current s ->
  idle_thread s1 = idle_thread s -> initial_thread s1 = initial_thread s -> next_tid s1 = next_tid s ->
  sync_ok (views s) (semas s1) (holders s1) (conds s1) -> inv true s1.
Proof.
  intros H1 H2 H3 H4 H5 H6 HS. split; [by apply (queue_ext s (proj1 HI))|]. unfold views. by rewrite H1.
Qed.

Lemma wp_thread_yield s1 :
  threads s1 = threads s -> ready_list s1 = ready_list s -> current s1 = current s ->
  idle_thread s1 = idle_thread s -> initial_thread s1 = initial_thread s -> next_tid s1 = next_tid s ->
  semas s1 = semas s -> holders s1 = holders s -> conds s1 = conds s ->
  wp thread_yield s1 Q.
Proof.
  intros H1 H2 H3 H4 H5 H6 H7 H8 H9.
  assert (HI1 : inv true s1) by (apply inv_objects; [done..|]; rewrite H7, H8, H9; apply HI).
  assert (Hc1 : threads s1 !! current s1 = Some th) by (by rewrite H1, H3).
  unfold thread_yield. apply wp_bind, wp_current; [done..|]. rewrite <- H3.
  apply wp_bind, wp_get, wp_bind.
  assert (Hend : forall ready, ready = (if decide (THREAD_READY = THREAD_READY /\ current s1 ≠ idle_thread s1)
      then ready_list s1 ++ [current s1] else ready_list s1) ->
    wp (set_status (current s1) THREAD_READY;; schedule) (set_ready ready s1) Q).
  { intros ready Hr. apply wp_bind. eapply wp_set_status; [exact Hc1|]. apply wp_schedule; [|done].
    split; [by apply (queue_stop s1 th (proj1 HI1) Hc1 THREAD_READY)|].
    unfold views. simpl. rewrite fmap_insert, insert_id; [apply HI1|].
    rewrite lookup_fmap, Hc1. simpl. unfold view_of. by rewrite (cur_running s1 th (proj1 HI1) Hc1). }
  destruct (Z.eqb_spec (current s1) (idle_thread s1)); simpl.
  - apply wp_ret. replace s1 with (set_ready (ready_list s1) s1) at 2 by (by destruct s1).
    apply Hend. rewrite decide_False; [done|tauto].
  - apply wp_update. apply Hend. by rewrite decide_True.
Qed.

Lemma wp_thread_block s1 sm :
  threads s1 = threads s -> ready_list s1 = ready_list s -> current s1 = current s ->
  idle_thread s1 = idle_thread s -> initial_thread s1 = initial_thread s -> next_tid s1 = next_tid s ->
  semas s1 = sm -> holders s1 = holders s -> conds s1 = conds s ->
  sync_ok (<[current s := (true, at_pc th)]> (views s)) sm (holders s) (conds s) ->
  wp thread_block s1 Q.
Proof.
  intros H1 H2 H3 H4 H5 H6 H7 H8 H9 HS. unfold thread_block.
  apply wp_bind, wp_current; [done..|]. rewrite <- H3. apply wp_bind.
  assert (Hc1 : threads s1 !! current s1 = Some th) by (by rewrite H1, H3).
  pose proof (queue_ext s (proj1 HI) s1 H1 H2 H3 H4 H5 H6) as HU.
  eapply wp_set_status; [exact Hc1|]. apply wp_schedule; [|done]. split.
  - rewrite <- (set_ready_id (set_threads _ s1)). by apply (queue_stop s1 th HU Hc1 THREAD_BLOCKED).
  - rewrite views_insert. simpl. rewrite H7, H8, H9. unfold views. rewrite H1, H3. done.
Qed.

Lemma wp_thread_exit : at_pc th = Run -> wp thread_exit s Q.
Proof.
  intros Hp. unfold thread_exit. apply wp_bind, wp_current; [done..|]. apply wp_bind, wp_update, wp_bind.
  eapply wp_set_status; [exact Hcur|]. apply wp_schedule; [|done]. split.
  - set (s1 := set_all _ s). assert (HU : queue_ok true s1) by (by apply (queue_ext s (proj1 HI))).
    rewrite <- (set_ready_id (set_threads _ s1)).
    by apply (queue_stop s1 th HU Hcur THREAD_DYING).
  - unfold views. simpl. rewrite fmap_insert, insert_id; [apply HI|].
    rewrite lookup_fmap, Hcur. simpl. unfold view_of. by rewrite (cur_running s th (proj1 HI) Hcur).
Qed.
(** The states that [sema_up] can lead to. *)
Record upped (sm : sid) (s' : kstate) : Prop := {
  up_queue : queue_ok true s';
  up_raised : raised (views s) (semas s) sm (views s') (semas s');
  up_current : current s' = current s;
  up_thread : threads s' !! current s = Some th;
  up_holders : holders s' = holders s;
  up_conds : conds s' = conds s
}.

Lemma wp_get_sema sm q s1 (Q' : semaphore -> kstate -> Prop) :
  semas s1 !! sm = Some q -> Q' q s1 -> wp (get_sema sm) s1 Q'.
Proof. intros Hq HQ'. unfold get_sema. apply wp_bind, wp_get. by rewrite Hq. Qed.

Lemma upped_one sm q w ws thw k s' :
  semas s !! sm = Some q -> waiters q = w :: ws -> threads s !! w = Some thw ->
  status thw = THREAD_BLOCKED -> at_pc thw = Test sm k ->
  s' = set_semas (<[sm := mk_sema (u32 (value q + 1)) ws]> (semas s))
    (set_ready (ready_list s ++ [w]) (set_threads (<[w := mk_thread THREAD_READY (at_pc thw) (priority thw)]> (threads s)) s)) ->
  upped sm s'.
Proof.
  intros Hq Hws Hw Hst Hp ->. destruct HI as [HU HS]. pose proof cur_view as Hcv.
  assert (Hwv : views s !! w = Some (true, Test sm k)).
  { rewrite (views_lookup _ _ _ Hw). unfold view_of. by rewrite Hst, Hp. }
  assert (w ≠ current s) as Hwc by congruence.
  split; simpl; [| |done|by rewrite lookup_insert_ne|done|done].
  - eapply queue_ext; [apply (queue_wake s HU w (mk_thread THREAD_READY (at_pc thw) (priority thw)) (next_tid s)); simpl|done..].
    + done.
    + by rewrite Hp.
    + intros [_ (th' & Ht' & ?)]%(qu_ready _ _ HU). congruence.
    + intros ->. destruct (qu_idle _ _ HU) as (th' & Ht' & Hi & _). congruence.
    + done.
    + by apply (qu_tid _ _ HU _ _ Hw).
    + lia.
  - unfold views at 2. simpl. rewrite fmap_insert. unfold view_of at 1. simpl. rewrite Hp. by apply raised_one.
Qed.

Lemma wp_sema_up sm (Q' : unit -> kstate -> Prop) :
  is_Some (semas s !! sm) -> (forall s', upped sm s' -> Q' tt s') -> wp (sema_up sm) s Q'.
Proof.
  intros [q Hq] HQ'. unfold sema_up. apply wp_bind, (wp_get_sema sm q); [done|]. apply wp_bind.
  destruct (waiters q) as [|w ws] eqn:Hws.
  - apply wp_ret, wp_bind, (wp_get_sema sm q); [done|]. apply HQ'. rewrite Hws. split; simpl; try done.
    + by apply (queue_ext s (proj1 HI)).
    + by apply raised_none.
  - destruct (wait_unblock _ _ (sy_wait _ _ _ _ (proj2 HI)) _ _ _ _ Hq Hws) as (k & Hk & _).
    unfold views in Hk. rewrite lookup_fmap in Hk. destruct (threads s !! w) as [thw|] eqn:Hw; [|done].
    injection Hk as Hst%bool_decide_eq_true Hp.
    unfold thread_unblock. apply wp_bind, wp_update, wp_bind, (wp_get_thread _ thw); [done|].
    apply wp_bind, wp_assert; [by rewrite bool_decide_true|]. apply wp_bind, wp_update.
    eapply wp_set_status; [done|].
    apply wp_bind, (wp_get_sema sm (mk_sema (value q) ws)); [simpl; by rewrite lookup_insert_eq|].
    apply HQ', (upped_one sm q w ws thw k); [done..|]. simpl.
    unfold set_semas, set_ready, set_threads. simpl. by rewrite insert_insert_eq.
Qed.

(** A step of [sema_up] and of what follows it in thread [current s]. *)
Lemma wp_post sm k : at_pc th = Post sm k -> wp (sema_up sm;; goto (current s) k) s Q.
Proof.
  intros Hp. pose proof HI as [HU HS]. pose proof cur_view as Hcv. rewrite Hp in Hcv.
  apply wp_bind, wp_sema_up.
  { apply (wt_sema _ _ (sy_wait _ _ _ _ HS) _ _ _ _ Hcv). simpl. by rewrite bool_decide_true. }
  intros s' [U1 U2 U3 U4 U5 U6]. pose proof (sync_post _ _ _ _ HS _ _ _ U2 _ _ Hcv) as HS'.
  eapply wp_goto; [exact U4|]. apply HQ. rewrite <- U3 in *.
  pose proof (cur_running s' th U1 U4) as Hr. split.
  - apply (queue_self s' th U1 U4); [done|]. rewrite Hp. simpl.
    pose proof (sy_shape _ _ _ _ HS _ _ _ Hcv) as Hsh. split; [|done]. intros ->. inversion Hsh.
  - rewrite views_insert. simpl. rewrite U5, U6. unfold view_of. simpl. rewrite Hr. done.
Qed.

Lemma wp_sema_down sm k : at_pc th = Test sm k -> wp (sema_down sm k) s Q.
Proof.
  intros Hp. pose proof HI as [HU HS]. pose proof cur_view as Hcv. rewrite Hp in Hcv.
  assert (is_Some (semas s !! sm)) as [q Hq].
  { apply (wt_sema _ _ (sy_wait _ _ _ _ HS) _ _ _ _ Hcv). simpl. by rewrite bool_decide_true. }
  pose proof (wt_value _ _ (sy_wait _ _ _ _ HS) _ _ Hq) as Hv.
  pose proof (sy_shape _ _ _ _ HS _ _ _ Hcv) as Hsh.
  unfold sema_down. apply wp_bind, wp_current; [done..|]. apply wp_bind, (wp_get_sema sm q); [done|].
  destruct (Z.eqb_spec (value q) 0) as [Hz|Hz].
  - apply wp_bind, wp_update. eapply wp_thread_block; [done..|]. rewrite Hp. by apply sync_block.
  - apply wp_bind, wp_update. apply wp_goto_inv; try done; [by rewrite Hp|intros ->; inversion Hsh|].
    apply (sync_take _ _ _ _ HS _ (Test sm k)); try done; [lia|by right|].
    intros l h Hl. apply (lk_takes _ _ _ (sy_lock _ _ _ _ HS) _ _ _ _ _ Hcv). by inversion Hsh; subst.
Qed.
Lemma wp_held l h (Q' : bool -> kstate -> Prop) :
  holders s !! l = Some h -> Q' (h =? current s) s -> wp (lock_held_by_current_thread l) s Q'.
Proof.
  intros Hh HQ'. unfold lock_held_by_current_thread, get_holder. apply wp_bind, wp_bind, wp_get.
  rewrite Hh. apply wp_ret, wp_bind, wp_current; done.
Qed.

Lemma wp_lock_acquire l : at_pc th = TakeLock l Run -> wp (lock_acquire l Run) s Q.
Proof.
  intros Hp. pose proof HI as [HU HS]. pose proof cur_view as Hcv. rewrite Hp in Hcv.
  assert (is_Some (semas s !! LockSem l)) as Hq.
  { apply (wt_sema _ _ (sy_wait _ _ _ _ HS) _ _ _ _ Hcv). simpl. by rewrite bool_decide_true. }
  destruct (proj2 (lk_dom _ _ _ (sy_lock _ _ _ _ HS) l) Hq) as [h Hh].
  assert (h ≠ current s) as Hne.
  { apply (lk_takes _ _ _ (sy_lock _ _ _ _ HS) _ _ _ _ _ Hcv) with (2 := Hh). apply Z.eqb_refl. }
  unfold lock_acquire. apply wp_bind, (wp_held l h); [done|].
  apply wp_bind, wp_assert; [by rewrite (proj2 (Z.eqb_neq _ _))|]. apply wp_bind, wp_current; [done..|].
  apply wp_goto_inv; try done; [by rewrite Hp|].
  apply (sync_goto _ _ _ _ HS _ (TakeLock l Run)); try done; [constructor| |].
  - intros sm. simpl. rewrite orb_false_r, orb_diag. by intros <-%bool_decide_eq_true.
  - intros l' h' Hl%Z.eqb_eq. subst l'. congruence.
Qed.

Lemma wp_set_holder l k : at_pc th = SetHolder l k -> wp (put_holder l (current s);; goto (current s) k) s Q.
Proof.
  intros Hp. pose proof HI as [HU HS]. pose proof cur_view as Hcv. rewrite Hp in Hcv.
  pose proof (sy_shape _ _ _ _ HS _ _ _ Hcv) as Hsh. inversion Hsh; subst.
  apply wp_bind, wp_update. apply wp_goto_inv; try done; [by rewrite Hp|]. by apply sync_set.
Qed.

Lemma wp_lock_release l : at_pc th = Run -> holders s !! l = Some (current s) -> wp (lock_release l Run) s Q.
Proof.
  intros Hp Hl. pose proof HI as [HU HS]. pose proof cur_view as Hcv. rewrite Hp in Hcv.
  unfold lock_release. apply wp_bind, (wp_held l (current s)); [done|].
  apply wp_bind, wp_assert; [apply Z.eqb_refl|]. apply wp_bind, wp_update, wp_bind, wp_current; [done..|].
  apply wp_goto_inv; try done; [by rewrite Hp|]. by apply sync_release.
Qed.

Lemma wp_lock_try_acquire l h :
  at_pc th = Run -> holders s !! l = Some h -> h ≠ current s -> wp (lock_try_acquire l Run;; mret tt) s Q.
Proof.
  intros Hp Hl Hne. pose proof HI as [HU HS]. pose proof cur_view as Hcv. rewrite Hp in Hcv.
  destruct (proj1 (lk_dom _ _ _ (sy_lock _ _ _ _ HS) l)) as [q Hq]; [eauto|].
  apply wp_bind. unfold lock_try_acquire. apply wp_bind, (wp_held l h); [done|].
  apply wp_bind, wp_assert; [by rewrite (proj2 (Z.eqb_neq _ _))|]. apply wp_bind. unfold sema_try_down.
  apply wp_bind, (wp_get_sema _ q); [done|].
  destruct (Z.ltb_spec 0 (value q)); [|by apply wp_ret, wp_bind, wp_ret, wp_ret, wp_ret, HQ].
  apply wp_bind, wp_update, wp_ret, wp_bind, wp_bind, wp_current; [done..|].
  eapply wp_mono; [apply wp_goto_inv; try done; [by rewrite Hp|]|by intros [] s' ?].
  apply (sync_take _ _ _ _ HS _ Run); try done; [by left|constructor].
Qed.

Lemma wp_cond_wait c l :
  at_pc th = Run -> holders s !! l = Some (current s) -> is_Some (conds s !! c) -> wp (cond_wait c l) s Q.
Proof.
  intros Hp Hl [ws Hws]. pose proof HI as [HU HS]. pose proof cur_view as Hcv. rewrite Hp in Hcv.
  unfold cond_wait. apply wp_bind, (wp_held l (current s)); [done|].
  apply wp_bind, wp_assert; [apply Z.eqb_refl|]. apply wp_bind, wp_current; [done..|].
  apply wp_bind, wp_update, wp_bind. unfold get_cond. apply wp_bind, wp_get. simpl. rewrite Hws.
  apply wp_ret, wp_bind, wp_update. unfold lock_release, lock_held_by_current_thread, get_holder.
  apply wp_bind, wp_bind, wp_bind, wp_get. simpl. rewrite Hl. apply wp_ret, wp_bind, wp_current; [done..|].
  apply wp_ret, wp_bind, wp_assert; [apply Z.eqb_refl|]. apply wp_bind, wp_update, wp_bind, wp_current; [done..|].
  apply wp_goto_inv; try done; [by rewrite Hp|]. by apply sync_wait_call.
Qed.

Lemma wp_cond_signal c l k :
  (at_pc th = Run /\ k = Run) \/ (at_pc th = Broadcast c l /\ k = at_pc th) ->
  holders s !! l = Some (current s) -> is_Some (conds s !! c) -> wp (cond_signal c l k) s Q.
Proof.
  intros Hp Hl [ws Hws]. pose proof HI as [HU HS]. pose proof cur_view as Hcv.
  unfold cond_signal. apply wp_bind, (wp_held l (current s)); [done|].
  apply wp_bind, wp_assert; [apply Z.eqb_refl|]. apply wp_bind. unfold get_cond. apply wp_bind, wp_get. rewrite Hws.
  apply wp_ret, wp_bind, wp_current; [done..|].
  assert (Hni : at_pc th ≠ Idle) by (by destruct Hp as [[-> _]|[-> _]]).
  destruct ws as [|w ws].
  - apply wp_goto_inv; try done; [by destruct Hp as [[_ ->]|[-> ->]]|].
    assert (k = at_pc th) as -> by (destruct Hp as [[-> ->]|[_ ->]]; done). by rewrite insert_id.
  - apply wp_bind, wp_update. apply wp_goto_inv; try done. eapply sync_signal; [done..|].
    destruct Hp as [?|[Hp Hk]]; [by left|right]. eauto.
Qed.

Lemma wp_cond_broadcast c l :
  at_pc th = Broadcast c l -> wp (cond_broadcast c l) s Q.
Proof.
  intros Hp. pose proof HI as [HU HS]. pose proof cur_view as Hcv. rewrite Hp in Hcv.
  destruct (sy_bcast _ _ _ _ HS _ _ _ c l Hcv) as [Hl [ws Hws]]; [done|].
  unfold cond_broadcast. apply wp_bind. unfold get_cond. apply wp_bind, wp_get. rewrite Hws. apply wp_ret.
  destruct ws as [|w ws].
  - apply wp_bind, wp_current; [done..|]. apply wp_goto_inv; try done; [by rewrite Hp|].
    by apply (sync_goto _ _ _ _ HS _ (Broadcast c l)); try done; [constructor].
  - rewrite <- Hp. apply wp_cond_signal; [right; by rewrite Hp|done|eauto].
Qed.

Lemma wp_thread_create page prio :
  at_pc th = Run -> (page = true -> PRI_MIN <= prio <= PRI_MAX) -> wp (thread_create page prio;; mret tt) s Q.
Proof.
  intros Hp Hprio. pose proof HI as [HU HS]. apply wp_bind. unfold thread_create. destruct page; [|by apply HQ].
  destruct (Hprio eq_refl) as [Hlo Hhi]. set (t := next_tid s).
  assert (Hfresh : threads s !! t = None).
  { destruct (threads s !! t) as [tht|] eqn:Ht; [|done]. apply (qu_tid _ _ HU) in Ht. unfold t in Ht. lia. }
  assert (Hpos : 0 < t) by (pose proof (qu_tid _ _ HU _ _ Hcur); unfold t; lia).
  apply wp_bind, wp_assert; [by apply andb_true_intro; split; apply Z.leb_le|].
  apply wp_bind, wp_get, wp_bind, wp_update, wp_bind, wp_update, wp_bind, wp_update, wp_bind.
  unfold thread_unblock. apply wp_bind, (wp_get_thread _ (mk_thread THREAD_BLOCKED Run prio)); [apply lookup_insert_eq|].
  apply wp_bind, wp_assert; [done|]. apply wp_bind, wp_update.
  eapply wp_set_status; [apply lookup_insert_eq|]. apply wp_ret, wp_ret, HQ. split.
  - eapply queue_ext; [apply (queue_wake s HU t (mk_thread THREAD_READY Run prio) (t + 1)); simpl| |done..].
    + done.
    + done.
    + intros [_ (th' & Ht' & ?)]%(qu_ready _ _ HU). congruence.
    + intros He. destruct (qu_idle _ _ HU) as (th' & Ht' & _). congruence.
    + congruence.
    + lia.
    + unfold t. lia.
    + simpl. by rewrite insert_insert_eq.
  - unfold views. simpl. rewrite insert_insert_eq, fmap_insert. unfold view_of at 1. simpl.
    apply sync_new; [done| |done]. rewrite lookup_fmap. fold t. by rewrite Hfresh.
Qed.
End Ops.

(** * Steps *)

(** What the documentation of each primitive asks of its caller. *)
Definition call_ok (c : call) (s : kstate) : Prop :=
  match c with
  | CSemaInit a v => 0 <= v < 2 ^ 32 /\ forall q, semas s !! Sem a = Some q -> waiters q = []
  | CDown a | CTryDown a | CUp a => is_Some (semas s !! Sem a)
  | CLockInit l => holders s !! l = None
  | CAcquire l | CTryAcquire l => exists h, holders s !! l = Some h /\ h ≠ current s
  | CRelease l => holders s !! l = Some (current s)
  | CCondInit c => conds s !! c = None \/ conds s !! c = Some []
  | CWait c l | CSignal c l | CBroadcast c l => holders s !! l = Some (current s) /\ is_Some (conds s !! c)
  | CCreate page prio => page = true -> PRI_MIN <= prio <= PRI_MAX
  | CYield | CExit | CSetPriority _ => True
  end.

Definition contract (x : label) (s : kstate) : Prop :=
  match x with
  | Call c => (exists th, threads s !! current s = Some th /\ at_pc th = Run) /\ call_ok c s
  | Go | Tick => True
  | IntrUp a => is_Some (semas s !! Sem a)
  end.

Section Step.
Context (s : kstate) (th : thread) (HI : inv true s) (Hcur : threads s !! current s = Some th).
Let Q := fun (_ : unit) (s' : kstate) => inv true s'.

Lemma wp_sema_try_down a :
  at_pc th = Run -> is_Some (semas s !! Sem a) -> wp (sema_try_down (Sem a);; mret tt) s Q.
Proof.
  intros Hp [q Hq]. pose proof HI as [HU HS]. pose proof (cur_view s th HI Hcur) as Hcv. rewrite Hp in Hcv.
  apply wp_bind. unfold sema_try_down. apply wp_bind, (wp_get_sema _ q); [done|].
  destruct (Z.ltb_spec 0 (value q)); [|done]. apply wp_bind, wp_update, wp_ret, wp_ret.
  apply (inv_objects s HI); try done. simpl. rewrite <- (insert_id (views s) _ _ Hcv).
  apply (sync_take _ _ _ _ HS _ Run); try done; [by left|constructor].
Qed.

Lemma wp_do_call c : at_pc th = Run -> call_ok c s -> wp (do_call c) s Q.
Proof.
  intros Hp Hok. pose proof HI as [HU HS]. pose proof (cur_view s th HI Hcur) as Hcv. rewrite Hp in Hcv.
  assert (HQ : forall s', inv true s' -> Q tt s') by done.
  assert (Hgoto : forall p, p ≠ Idle -> sync_ok (<[current s := (false, p)]> (views s)) (semas s) (holders s) (conds s) ->
    wp (goto (current s) p) s Q).
  { intros p Hi Hs. apply (wp_goto_inv s th HI Hcur); try done. by rewrite Hp. }
  assert (Hone : forall sm p, is_Some (semas s !! sm) -> (bool_decide (sm = p) || false)%bool = true -> is_Some (semas s !! p)).
  { intros sm p Hs. rewrite orb_false_r. by intros <-%bool_decide_eq_true. }
  unfold do_call. apply wp_bind, (wp_current s th HI Hcur); [done..|]. destruct c; simpl in Hok.
  - apply wp_update, (inv_objects s HI); try done. apply sync_sema_init; [done| |apply Hok].
    intros t k Ht. destruct Hok as [_ Hw].
    destruct (wt_sema _ _ (sy_wait _ _ _ _ HS) _ _ _ (Sem a) Ht) as [q Hq]; [simpl; by rewrite bool_decide_true|].
    apply (not_elem_of_nil t). rewrite <- (Hw _ Hq). apply (wt_iff _ _ (sy_wait _ _ _ _ HS) _ _ _ Hq). eauto.
  - apply Hgoto; [done|]. apply (sync_goto _ _ _ _ HS _ Run); try done; [constructor|intros sm; by apply Hone].
  - by apply wp_sema_try_down.
  - apply Hgoto; [done|]. apply (sync_goto _ _ _ _ HS _ Run); try done; [constructor|intros sm; by apply Hone].
  - apply wp_bind, wp_update, wp_update, (inv_objects s HI); try done. by apply sync_lock_init.
  - destruct Hok as (h & Hh & Hne). apply Hgoto; [done|].
    apply (sync_goto _ _ _ _ HS _ Run); try done; [constructor| |].
    + intros sm. apply Hone, (lk_dom _ _ _ (sy_lock _ _ _ _ HS)). eauto.
    + intros l' h' Hl%Z.eqb_eq. subst l'. congruence.
  - destruct Hok as (h & Hh & Hne). by apply (wp_lock_try_acquire s th HI Hcur Q HQ l h).
  - by apply (wp_lock_release s th HI Hcur Q HQ).
  - apply wp_update, (inv_objects s HI); try done. by apply sync_cond_init.
  - destruct Hok. by apply (wp_cond_wait s th HI Hcur Q HQ).
  - destruct Hok. apply (wp_cond_signal s th HI Hcur Q HQ); auto.
  - destruct Hok as [Hl Hc]. apply Hgoto; [done|]. apply (sync_goto _ _ _ _ HS _ Run); try done; [constructor|].
    by intros c' l' [= <- <-].
  - by apply (wp_thread_create s th HI Hcur Q HQ).
  - by apply (wp_thread_yield s th HI Hcur Q HQ).
  - by apply (wp_thread_exit s th HI Hcur Q HQ).
  - apply wp_bind, (wp_get_thread _ th); [done|]. apply wp_update. split.
    + apply (queue_self s th HU Hcur); [exact (cur_running s th HU Hcur)|done].
    + rewrite views_insert. rewrite insert_id; [done|]. rewrite Hcv. unfold view_of. simpl.
      by rewrite Hp, (cur_running s th HU Hcur).
Qed.

Lemma wp_go : wp go s Q.
Proof.
  pose proof HI as [HU HS]. pose proof (cur_view s th HI Hcur) as Hcv.
  pose proof (sy_shape _ _ _ _ HS _ _ _ Hcv) as Hsh. assert (HQ : forall s', inv true s' -> Q tt s') by done.
  unfold go. apply wp_bind, (wp_current s th HI Hcur); [done..|]. apply wp_bind, (wp_get_thread _ th); [done|].
  destruct (at_pc th) as [| |sm k|l k|l k|sm k|c l] eqn:Hp.
  - done.
  - eapply (wp_thread_block s th HI Hcur Q HQ); [done..|]. rewrite Hp. by apply (sync_idle _ _ _ _ HS _ false).
  - by apply (wp_sema_down s th HI Hcur Q HQ).
  - inversion Hsh; subst. by apply (wp_lock_acquire s th HI Hcur Q HQ).
  - by apply (wp_set_holder s th HI Hcur Q HQ).
  - by apply (wp_post s th HI Hcur Q HQ).
  - by apply (wp_cond_broadcast s th HI Hcur Q HQ).
Qed.
End Step.

Lemma step_ok x s : inv true s -> contract x s -> wp (run x) s (fun _ s' => inv true s').
Proof.
  intros HI Hx. pose proof HI as [HU HS]. destruct (qu_cur _ _ HU) as (th & Hcur & _). destruct x as [c| | |a]; simpl.
  - destruct Hx as [(th' & Ht' & Hp) Hok]. assert (th' = th) as -> by congruence. by apply (wp_do_call s th HI Hcur).
  - by apply (wp_go s th HI Hcur).
  - unfold thread_tick. apply wp_bind, (wp_current s th HI Hcur); [done..|].
    apply wp_bind, wp_get, wp_bind, wp_update.
    destruct (_ <=? _); [by apply (wp_thread_yield s th HI Hcur)|]. apply wp_ret. by apply (inv_objects s HI).
  - apply (wp_sema_up s th HI Hcur); [done|]. intros s' [U1 U2 U3 U4 U5 U6]. split; [done|].
    rewrite U5, U6. by apply (sync_raise _ _ _ _ HS _ _ _ U2 a).
Qed.

(** * Reachable states *)

(** The state that [thread_init] and [thread_start] leave: the initial thread runs
    and the idle thread has blocked itself. *)
Definition booted : kstate :=
  mk_kstate {[ 1 := mk_thread THREAD_RUNNING Run PRI_DEFAULT; 2 := mk_thread THREAD_BLOCKED Idle PRI_MIN ]}
    [1; 2] [] 1 2 1 ∅ ∅ ∅ 3 0.

Inductive reachable : kstate -> Prop :=
| reach_boot : reachable booted
| reach_step x s s' : reachable s -> contract x s -> run x s = Ok (tt, s') -> reachable s'.

Lemma booted_lookup t th :
  threads booted !! t = Some th ->
  (t = 1 /\ th = mk_thread THREAD_RUNNING Run PRI_DEFAULT) \/ (t = 2 /\ th = mk_thread THREAD_BLOCKED Idle PRI_MIN).
Proof.
  simpl. intros Ht. apply lookup_insert_Some in Ht as [[<- <-]|[_ Ht]]; [by left|].
  apply lookup_singleton_Some in Ht as [<- <-]. by right.
Qed.

Lemma booted_view t x : views booted !! t = Some x -> (t = 1 /\ x = (false, Run)) \/ (t = 2 /\ x = (true, Idle)).
Proof.
  unfold views. rewrite lookup_fmap. destruct (threads booted !! t) as [th|] eqn:Ht; [|done].
  intros [= <-]. apply booted_lookup in Ht as [[-> ->]|[-> ->]]; auto.
Qed.

Lemma booted_inv : inv true booted.
Proof.
  split; split.
  - by exists (mk_thread THREAD_RUNNING Run PRI_DEFAULT).
  - by intros t th [[-> ->]|[-> ->]]%booted_lookup Hst.
  - by intros t th [[-> ->]|[-> ->]]%booted_lookup Hst.
  - constructor.
  - intros t. split; [by intros ?%not_elem_of_nil|]. by intros [_ (th & [[-> ->]|[-> ->]]%booted_lookup & Hst)].
  - by exists (mk_thread THREAD_BLOCKED Idle PRI_MIN).
  - by intros t th [[-> ->]|[-> ->]]%booted_lookup Hst.
  - by intros t th [[-> ->]|[-> ->]]%booted_lookup.
  - intros t b p [[-> [= -> ->]]|[-> [= -> ->]]]%booted_view; constructor.
  - by intros t x [[-> _]|[-> _]]%booted_view.
  - by intros t b p c l [[-> [= -> ->]]|[-> [= -> ->]]]%booted_view.
  - split; try done.
    + intros t p [[-> [= ->]]|[-> [= ->]]]%booted_view. by left.
    + by intros t b p sm [[-> [= -> ->]]|[-> [= -> ->]]]%booted_view.
  - done.
  - split; [|done|].
    + intros l. split; intros [? [=]].
    + by intros t b p l h [[-> [= -> ->]]|[-> [= -> ->]]]%booted_view.
  - intros w. unfold waiting. assert (Hw : forall x, views booted !! w = Some x -> waits w x.2 = false).
    { by intros x [[-> ->]|[-> ->]]%booted_view. }
    destruct (views booted !! w) as [x|]; simpl; [rewrite (Hw x eq_refl)|]; done.
Qed.

Lemma reachable_inv s : reachable s -> inv true s.
Proof.
  induction 1 as [|x s s' _ IH Hx Hrun]; [apply booted_inv|].
  pose proof (step_ok x s IH Hx) as H. unfold wp in H. by rewrite Hrun in H.
Qed.

(** Executes steps whose contracts are checked one by one. *)
Lemma reachable_run x s s' : contract x s -> run x s = Ok (tt, s') -> reachable s -> reachable s'.
Proof. eauto using reachable. Qed.

(** * The properties of reachable states *)

(** A thread that has taken lock [l] and not given it back. *)
Definition critical (s : kstate) (l t : Z) : Prop :=
  holders s !! l = Some t \/ exists th, threads s !! t = Some th /\ owns l (at_pc th) = true.

Lemma critical_owner s l t th : threads s !! t = Some th -> owns l (at_pc th) = true -> owner (views s) l t.
Proof. intros Ht Ho. exists (view_of th).1, (at_pc th). by rewrite (views_lookup _ _ _ Ht). Qed.

Lemma critical_unique s l t1 t2 th1 th2 :
  inv true s -> threads s !! t1 = Some th1 -> threads s !! t2 = Some th2 ->
  critical s l t1 -> critical s l t2 -> t1 = t2.
Proof.
  intros [HU HS] Ht1 Ht2 H1 H2. pose proof (sy_lock _ _ _ _ HS) as L.
  pose proof (qu_tid _ _ HU _ _ Ht1) as P1. pose proof (qu_tid _ _ HU _ _ Ht2) as P2.
  assert (Hdom : forall t, critical s l t -> is_Some (holders s !! l)).
  { intros t [Hh|(th & Ht & Ho)]; [eauto|]. pose proof (views_lookup _ _ _ Ht) as Hv.
    destruct (moving_owner _ _ _ _ HS t _ _ l Hv Ho) as (q & _ & Hh & _). eauto. }
  destruct (Hdom t1 H1) as [h Hh]. destruct (proj1 (lk_dom _ _ _ L l)) as [q Hq]; [eauto|].
  assert (Hcase : forall t th, threads s !! t = Some th -> 0 < t -> critical s l t -> (h = t /\ h ≠ NULL) \/ owner (views s) l t).
  { intros t th Ht Hp [Hh'|(th' & Ht' & Ho)]; [left; unfold NULL; split; [congruence|]|right; by eapply critical_owner].
    assert (h = t) by congruence. lia. }
  apply (Hcase _ _ Ht1) in H1; [|lia]. apply (Hcase _ _ Ht2) in H2; [|lia].
  destruct (lk_state _ _ _ L _ _ _ Hh Hq) as [_ Hn Hno|_ Hn Hno|u _ Hn Hu].
  - destruct H1 as [[? ?]|H1]; [done|]. by destruct (Hno t1).
  - destruct H1 as [[? _]|H1]; [|by destruct (Hno t1)]. destruct H2 as [[? _]|H2]; [|by destruct (Hno t2)]. congruence.
  - destruct H1 as [[? ?]|H1]; [done|]. destruct H2 as [[? ?]|H2]; [done|]. apply Hu in H1, H2. congruence.
Qed.

(** * Executing steps under their contracts *)

Definition allowed_call (c : call) (s : kstate) : bool :=
  match c with
  | CSemaInit a v => (0 <=? v) && (v <? 2 ^ 32) &&
      match semas s !! Sem a with Some q => bool_decide (waiters q = []) | None => true end
  | CDown a | CTryDown a | CUp a => bool_decide (is_Some (semas s !! Sem a))
  | CLockInit l => bool_decide (holders s !! l = None)
  | CAcquire l | CTryAcquire l => match holders s !! l with Some h => negb (h =? current s) | None => false end
  | CRelease l => bool_decide (holders s !! l = Some (current s))
  | CCondInit c => bool_decide (conds s !! c = None \/ conds s !! c = Some [])
  | CWait c l | CSignal c l | CBroadcast c l =>
      bool_decide (holders s !! l = Some (current s) /\ is_Some (conds s !! c))
  | CCreate page prio => negb page || ((PRI_MIN <=? prio) && (prio <=? PRI_MAX))
  | CYield | CExit | CSetPriority _ => true
  end.

Definition allowed (x : label) (s : kstate) : bool :=
  match x with
  | Call c => bool_decide (at_pc <$> threads s !! current s = Some Run) && allowed_call c s
  | Go | Tick => true
  | IntrUp a => bool_decide (is_Some (semas s !! Sem a))
  end.

Lemma allowed_contract x s : allowed x s = true -> contract x s.
Proof.
  destruct x as [c| | |a]; simpl; [|done|done|apply bool_decide_eq_true].
  rewrite andb_true_iff, bool_decide_eq_true. intros [Hp Hc]. split.
  { destruct (threads s !! current s) as [th|]; [|done]. injection Hp as Hp. eauto. }
  destruct c; simpl in *; try done; try by apply bool_decide_eq_true in Hc.
  - rewrite !andb_true_iff, Z.leb_le, Z.ltb_lt in Hc. destruct Hc as [? Hw]. split; [done|].
    intros q Hq. rewrite Hq in Hw. by apply bool_decide_eq_true in Hw.
  - destruct (holders s !! l) as [h|]; [|done]. exists h. apply negb_true_iff, Z.eqb_neq in Hc. done.
  - destruct (holders s !! l) as [h|]; [|done]. exists h. apply negb_true_iff, Z.eqb_neq in Hc. done.
  - intros ->. simpl in Hc. by rewrite andb_true_iff, !Z.leb_le in Hc.
Qed.

Fixpoint drive (xs : list label) (s : kstate) : option kstate :=
  match xs with
  | [] => Some s
  | x :: xs => if allowed x s then match run x s with Ok (_, s') => drive xs s' | Err _ => None end else None
  end.

Lemma drive_reachable xs : forall s s', reachable s -> drive xs s = Some s' -> reachable s'.
Proof.
  induction xs as [|x xs IH]; intros s s' Hs Hd; simpl in Hd; [by injection Hd as <-|].
  destruct (allowed x s) eqn:Ha; [|done]. destruct (run x s) as [[[] s1]|] eqn:Hr; [|done].
  eapply IH; [|exact Hd]. by eapply reach_step; [|apply allowed_contract|].
Qed.

(** Thread 1 makes a lock and threads 3 and 4, takes the lock and is preempted;
    thread 3 blocks on the lock. *)
Definition demo_steps : list label :=
  [Call (CLockInit 7); Call (CCondInit 8); Call (CSemaInit 9 0); Call (CCreate true 31); Call (CCreate true 31);
   Call (CAcquire 7); Go; Go; Go; Call CYield; Call (CAcquire 7); Go; Go].
Definition demo : kstate := default booted (drive demo_steps booted).

Lemma demo_reachable : reachable demo.
Proof. apply (drive_reachable demo_steps booted); [constructor|]. vm_compute. reflexivity. Qed.

(** C4: in every reachable state, every step that respects the contracts of the
    primitives succeeds: no assertion of thread.c or synch.c fails, no object is
    used that does not exist, and the scheduler finds a thread to run. *)
Theorem sched_progress (s : kstate) (x : label) :
  reachable s -> contract x s -> exists s', run x s = Ok (tt, s') /\ reachable s'.
Proof.
  intros Hs Hx. pose proof (step_ok x s (reachable_inv s Hs) Hx) as H.
  apply wp_unfold in H as ([] & s' & Hr & _). exists s'. split; [done|]. by eapply reach_step.
Qed.

Lemma sched_progress_witness : exists s', run (Call CExit) demo = Ok (tt, s') /\ reachable s'.
Proof.
  apply (sched_progress demo (Call CExit)); [apply demo_reachable|].
  apply allowed_contract. vm_compute. reflexivity.
Defined.

(** C3: mutual exclusion.  At most one thread is between its [sema_down] and its
    [sema_up] on the semaphore of a lock, in every reachable state. *)
Theorem lock_mutual_exclusion (s : kstate) (l t1 t2 : Z) :
  reachable s -> is_Some (threads s !! t1) -> is_Some (threads s !! t2) ->
  critical s l t1 -> critical s l t2 -> t1 = t2.
Proof.
  intros Hs [th1 H1] [th2 H2] C1 C2. exact (critical_unique s l t1 t2 th1 th2 (reachable_inv s Hs) H1 H2 C1 C2).
Qed.

Lemma lock_mutual_exclusion_witness : critical demo 7 1 /\ forall t, is_Some (threads demo !! t) -> critical demo 7 t -> 1 = t.
Proof.
  assert (H1 : critical demo 7 1) by (left; vm_compute; reflexivity).
  split; [exact H1|]. intros t Ht Hc. apply (lock_mutual_exclusion demo 7 1 t demo_reachable); [|exact Ht|exact H1|exact Hc].
  vm_compute. eexists. reflexivity.
Defined.

(** C24: no lost wake-up.  When threads wait on a semaphore whose value is
    positive, a thread that is not blocked is about to test that semaphore. *)
Theorem no_lost_wakeup (s : kstate) (sm : sid) (q : semaphore) :
  reachable s -> semas s !! sm = Some q -> waiters q ≠ [] -> 0 < value q ->
  exists t th k, threads s !! t = Some th /\ at_pc th = Test sm k /\ status th ≠ THREAD_BLOCKED.
Proof.
  intros Hs Hq Hw Hv. destruct (reachable_inv s Hs) as [_ HS].
  pose proof (sy_wake _ _ _ _ HS sm q Hq Hw) as Hle.
  destruct (msum_pos (fun x : view => ind (negb x.1 && tests sm x.2)) (views s)) as (t & [b p] & Ht & Hx).
  { unfold woken in Hle. lia. }
  unfold views in Ht. rewrite lookup_fmap in Ht. destruct (threads s !! t) as [th|] eqn:Hth; [|done].
  injection Ht as <- <-. simpl in Hx. unfold tests in Hx. exists t, th.
  destruct (at_pc th) as [| |sm' k| | | |]; rewrite ?andb_false_r in Hx; simpl in Hx; try lia.
  exists k. case_bool_decide as Hb; simpl in Hx; [lia|]. case_bool_decide; simpl in Hx; [|lia]. naive_solver.
Qed.

(** Threads 3 and 4 wait on semaphore 9, which thread 1 ups once. *)
Definition demo_wake_steps : list label :=
  [Call (CSemaInit 9 0); Call (CCreate true 31); Call (CCreate true 31); Call CYield;
   Call (CDown 9); Go; Call (CDown 9); Go; Call (CUp 9); Go].
Definition demo_wake : kstate := default booted (drive demo_wake_steps booted).

Lemma demo_wake_reachable : reachable demo_wake.
Proof. apply (drive_reachable demo_wake_steps booted); [constructor|]. vm_compute. reflexivity. Qed.

Lemma no_lost_wakeup_witness :
  semas demo_wake !! Sem 9 = Some (mk_sema 1 [4]) /\
  exists t th k, threads demo_wake !! t = Some th /\ at_pc th = Test (Sem 9) k /\ status th ≠ THREAD_BLOCKED.
Proof.
  assert (Hq : semas demo_wake !! Sem 9 = Some (mk_sema 1 [4])) by (vm_compute; reflexivity).
  split; [exact Hq|]. exact (no_lost_wakeup demo_wake (Sem 9) _ demo_wake_reachable Hq ltac:(done) ltac:(done)).
Defined.

(** On which lists a thread is, by its status. *)
Definition listed_by_status (s : kstate) (t : Z) (th : thread) : Prop :=
  match status th with
  | THREAD_RUNNING => t = current s /\ (t ∉ ready_list s) /\ forall sm q, semas s !! sm = Some q -> t ∉ waiters q
  | THREAD_READY => (t ∈ ready_list s <-> t ≠ idle_thread s) /\ forall sm q, semas s !! sm = Some q -> t ∉ waiters q
  | THREAD_BLOCKED => (t ∉ ready_list s) /\ (t = idle_thread s \/
      exists sm k q, at_pc th = Test sm k /\ semas s !! sm = Some q /\ t ∈ waiters q /\
        forall sm' q', semas s !! sm' = Some q' -> t ∈ waiters q' -> sm' = sm)
  | THREAD_DYING => t = initial_thread s /\ t ∉ ready_list s
  end.

Lemma inv_lists s t th : inv true s -> threads s !! t = Some th -> listed_by_status s t th.
Proof.
  intros [HU HS] Ht. pose proof (views_lookup _ _ _ Ht) as Hv. unfold view_of in Hv.
  pose proof (sy_wait _ _ _ _ HS) as W.
  assert (Hr : t ∈ ready_list s -> status th = THREAD_READY).
  { intros [_ (th' & Ht' & ?)]%(qu_ready _ _ HU). congruence. }
  assert (Hw : forall sm q, semas s !! sm = Some q -> t ∈ waiters q -> status th = THREAD_BLOCKED /\ exists k, at_pc th = Test sm k).
  { intros sm q Hq [k Hk]%(wt_iff _ _ W _ _ _ Hq). rewrite Hv in Hk. injection Hk as Hb%bool_decide_eq_true Hp. eauto. }
  unfold listed_by_status. destruct (status th) eqn:Hst.
  - split_and!; [by apply (qu_run _ _ HU _ _ Ht)|intros ?%Hr; done|]. by intros sm q Hq [? _]%(Hw _ _ Hq).
  - split; [|by intros sm q Hq [? _]%(Hw _ _ Hq)]. rewrite (qu_ready _ _ HU). naive_solver.
  - split; [by intros ?%Hr|]. rewrite bool_decide_true in Hv by done.
    destruct (wt_blocked _ _ W _ _ Hv) as [Hi|(sm & k & Hp)]; [left; by apply (qu_only_idle _ _ HU _ _ Ht)|right].
    destruct (wt_sema _ _ W _ _ _ sm Hv) as [q Hq]; [rewrite Hp; simpl; by rewrite bool_decide_true|].
    exists sm, k, q. split_and!; [done|done| |].
    + apply (wt_iff _ _ W _ _ _ Hq). exists k. by rewrite Hv, Hp.
    + intros sm' q' Hq' [_ [k' Hk']]%(Hw _ _ Hq'). congruence.
  - split; [|by intros ?%Hr]. destruct (qu_dying _ _ HU _ _ Ht Hst) as [[-> _]|?]; [|done].
    destruct (qu_cur _ _ HU) as (th' & Ht' & Hrun). assert (th' = th) as -> by congruence.
    by rewrite (proj2 Hrun eq_refl) in Hst.
Qed.

(** C25: in every reachable state the running thread is the current one and on no
    list, a ready thread other than the idle thread is on the ready list only,
    once, and a blocked one is on the waiters of exactly the semaphore that it
    tests, so one list element per thread is enough. *)
Theorem threads_on_one_list (s : kstate) (t : Z) (th : thread) :
  reachable s -> threads s !! t = Some th -> listed_by_status s t th /\ NoDup (ready_list s).
Proof. intros Hs Ht. destruct (reachable_inv s Hs). split; [by apply inv_lists|by eapply qu_nodup]. Qed.

Lemma threads_on_one_list_witness : exists th, threads demo !! 3 = Some th /\ listed_by_status demo 3 th /\ NoDup (ready_list demo).
Proof.
  eexists. split; [vm_compute; reflexivity|].
  apply (threads_on_one_list demo 3 _ demo_reachable). vm_compute. reflexivity.
Defined.

(** no lost signal.  In every reachable state, a thread inside [cond_wait] is in
    exactly one of three stages: on the list of one condition, once; taken off by
    one thread that has still to up its semaphore; or upped, once.  Threads outside
    [cond_wait] are in none of them. *)
Theorem no_lost_signal (s : kstate) (t : Z) (th : thread) :
  reachable s -> threads s !! t = Some th ->
  signalled (semas s) t + listed (conds s) t + posting (views s) t = ind (waits t (at_pc th)).
Proof.
  intros Hs Ht. destruct (reachable_inv s Hs) as [_ HS]. rewrite (sy_cond _ _ _ _ HS t).
  unfold waiting. by rewrite (views_lookup _ _ _ Ht).
Qed.

(** Thread 1 waits for condition 8; thread 3 takes the lock and signals it. *)
Definition demo_cond_steps : list label :=
  [Call (CLockInit 7); Call (CCondInit 8); Call (CCreate true 31); Call (CAcquire 7); Go; Go; Go;
   Call (CWait 8 7); Go; Go; Call (CAcquire 7); Go; Go; Go; Call (CSignal 8 7)].
Definition demo_cond : kstate := default booted (drive demo_cond_steps booted).

Lemma demo_cond_reachable : reachable demo_cond.
Proof. apply (drive_reachable demo_cond_steps booted); [constructor|]. vm_compute. reflexivity. Qed.

Lemma no_lost_signal_witness : posting (views demo_cond) 1 = 1 /\
  signalled (semas demo_cond) 1 + listed (conds demo_cond) 1 + posting (views demo_cond) 1 = 1.
Proof.
  split; [vm_compute; reflexivity|].
  apply (no_lost_signal demo_cond 1 (mk_thread THREAD_BLOCKED (Test (WaitSem 1) (TakeLock 7 Run)) 31) demo_cond_reachable).
  vm_compute. reflexivity.
Defined.
