(* ===== verification/SchedFair.v ===== *)
(** The order in which [Sched] runs threads: the ready list is a queue, and a
    thread in it waits for a bounded number of timer ticks. *)
From stdpp Require Import base numbers gmap fin_maps countable list.
From Stdlib Require Import ZArith Lia.
From S2P Require Import Prelude Sched SchedStep.

Open Scope Z_scope.

(** No switch: the running thread and its time slice stay, and threads are only
    appended to the ready list. *)
Record held (s s' : kstate) : Prop := {
  kp_current : current s' = current s;
  kp_ticks : thread_ticks s' = thread_ticks s;
  kp_ready : exists l, ready_list s' = ready_list s ++ l
}.

(** A switch to the first thread of the ready list, after threads were appended. *)
Definition switched (s s' : kstate) : Prop :=
  thread_ticks s' = 0 /\ exists l, ready_list s ++ l = [] \/ ready_list s ++ l = current s' :: ready_list s'.

Definition keeps {A} (m : M kstate A) : Prop := forall s a s', m s = Ok (a, s') -> held s s'.
Definition moves {A} (m : M kstate A) : Prop :=
  forall s a s', m s = Ok (a, s') -> held s s' \/ switched s s'.

Lemma held_refl s : held s s.
Proof. split; [done..|]. exists []. by rewrite app_nil_r. Qed.

Lemma held_trans s1 s2 s3 : held s1 s2 -> held s2 s3 -> held s1 s3.
Proof.
  intros [H1 H2 [l Hl]] [H3 H4 [l' Hl']]. split; [congruence..|]. exists (l ++ l'). by rewrite Hl', Hl, app_assoc.
Qed.

Create HintDb sched.

Lemma keeps_ret {A} (a : A) : keeps (mret a).
Proof. intros s a' s' [= <- <-]. apply held_refl. Qed.
Lemma keeps_fail {A} e : keeps (mfail e : M kstate A).
Proof. by intros s a s' [=]. Qed.
Lemma keeps_get : keeps mget.
Proof. intros s a' s' [= <- <-]. apply held_refl. Qed.
Lemma keeps_assert b : keeps (ASSERT b).
Proof. destruct b; [apply keeps_ret | apply keeps_fail]. Qed.
Lemma keeps_update f : (forall s, held s (f s)) -> keeps (update f).
Proof. intros Hf s [] s' [= <-]. apply Hf. Qed.

Lemma bind_inv {A B} (m : M kstate A) (f : A -> M kstate B) s b s' :
  (m ≫= f) s = Ok (b, s') -> exists a s1, m s = Ok (a, s1) /\ f a s1 = Ok (b, s').
Proof. unfold mbind, M_bind. destruct (m s) as [[a s1]|]; [eauto|done]. Qed.

Lemma keeps_bind {A B} (m : M kstate A) (f : A -> M kstate B) :
  keeps m -> (forall a, keeps (f a)) -> keeps (m ≫= f).
Proof.
  intros Hm Hf s b s' (a & s1 & H1 & H2)%bind_inv. eapply held_trans; [by eapply Hm|by eapply Hf].
Qed.

Lemma keeps_moves {A} (m : M kstate A) : keeps m -> moves m.
Proof. intros Hm s a s' Hs. left. by eapply Hm. Qed.

Lemma moves_bind {A B} (m : M kstate A) (f : A -> M kstate B) :
  keeps m -> (forall a, moves (f a)) -> moves (m ≫= f).
Proof.
  intros Hm Hf s b s' (a & s1 & H1 & H2)%bind_inv. specialize (Hm _ _ _ H1).
  destruct (Hf _ _ _ _ H2) as [Hk|[Ht [l' Hl']]]; [left; by eapply held_trans|].
  destruct Hm as [Hc Htk [l Hl]]. right. split; [done|]. exists (l ++ l'). by rewrite app_assoc, <- Hl.
Qed.

#[export] Hint Resolve keeps_ret keeps_fail keeps_get keeps_assert : sched.

Lemma keeps_field f :
  (forall s, current (f s) = current s) -> (forall s, thread_ticks (f s) = thread_ticks s) ->
  (forall s, ready_list (f s) = ready_list s) -> keeps (update f).
Proof.
  intros H1 H2 H3. apply keeps_update. intros s. split; [done..|]. exists []. by rewrite H3, app_nil_r.
Qed.

(** Operations without [schedule], by their structure. *)
Ltac keep :=
  repeat first
    [ solve [auto with sched]
    | solve [apply keeps_field; done]
    | apply keeps_bind; [|intros ?]
    | match goal with |- keeps (match ?x with _ => _ end) => destruct x end ].

Lemma keeps_get_thread t : keeps (get_thread t).
Proof. unfold get_thread. keep. Qed.
Lemma keeps_put_thread t th : keeps (put_thread t th).
Proof. unfold put_thread. keep. Qed.
#[export] Hint Resolve keeps_get_thread keeps_put_thread : sched.
Lemma keeps_set_status t st : keeps (set_status t st).
Proof. unfold set_status. keep. Qed.
Lemma keeps_goto t p : keeps (goto t p).
Proof. unfold goto. keep. Qed.
Lemma keeps_thread_current : keeps thread_current.
Proof. unfold thread_current. keep. Qed.
Lemma keeps_get_sema sm : keeps (get_sema sm).
Proof. unfold get_sema. keep. Qed.
Lemma keeps_put_sema sm q : keeps (put_sema sm q).
Proof. unfold put_sema. keep. Qed.
Lemma keeps_get_holder l : keeps (get_holder l).
Proof. unfold get_holder. keep. Qed.
Lemma keeps_put_holder l h : keeps (put_holder l h).
Proof. unfold put_holder. keep. Qed.
Lemma keeps_get_cond c : keeps (get_cond c).
Proof. unfold get_cond. keep. Qed.
Lemma keeps_put_cond c ws : keeps (put_cond c ws).
Proof. unfold put_cond. keep. Qed.
#[export] Hint Resolve keeps_set_status keeps_goto keeps_thread_current keeps_get_sema keeps_put_sema
  keeps_get_holder keeps_put_holder keeps_get_cond keeps_put_cond : sched.
Lemma keeps_append t : keeps (update (fun s => set_ready (ready_list s ++ [t]) s)).
Proof. apply keeps_update. intros s. split; [done..|]. by exists [t]. Qed.
#[export] Hint Resolve keeps_append : sched.
Lemma keeps_thread_unblock t : keeps (thread_unblock t).
Proof. unfold thread_unblock. keep. Qed.
#[export] Hint Resolve keeps_thread_unblock : sched.
Lemma keeps_sema_up sm : keeps (sema_up sm).
Proof. unfold sema_up. keep. Qed.
Lemma keeps_sema_try_down sm : keeps (sema_try_down sm).
Proof. unfold sema_try_down. keep. Qed.
Lemma keeps_held l : keeps (lock_held_by_current_thread l).
Proof. unfold lock_held_by_current_thread. keep. Qed.
#[export] Hint Resolve keeps_sema_up keeps_sema_try_down keeps_held : sched.
Lemma keeps_lock_release l k : keeps (lock_release l k).
Proof. unfold lock_release. keep. Qed.
Lemma keeps_lock_acquire l k : keeps (lock_acquire l k).
Proof. unfold lock_acquire. keep. Qed.
Lemma keeps_lock_try_acquire l k : keeps (lock_try_acquire l k).
Proof. unfold lock_try_acquire. keep. Qed.
Lemma keeps_cond_signal c l k : keeps (cond_signal c l k).
Proof. unfold cond_signal. keep. Qed.
#[export] Hint Resolve keeps_lock_release keeps_lock_acquire keeps_lock_try_acquire keeps_cond_signal : sched.
Lemma keeps_cond_wait c l : keeps (cond_wait c l).
Proof. unfold cond_wait, sema_init. keep. Qed.
Lemma keeps_cond_broadcast c l : keeps (cond_broadcast c l).
Proof. unfold cond_broadcast. keep. Qed.
Lemma keeps_thread_create page prio : keeps (thread_create page prio).
Proof. unfold thread_create. keep. Qed.
#[export] Hint Resolve keeps_cond_wait keeps_cond_broadcast keeps_thread_create : sched.

(** * Switches *)

Lemma tail_switches prev s s' :
  thread_schedule_tail prev s = Ok (tt, s') ->
  thread_ticks s' = 0 /\ ready_list s' = ready_list s /\ current s' = current s.
Proof.
  unfold thread_schedule_tail. intros (? & ? & [= <- <-] & H)%bind_inv.
  apply bind_inv in H as ([] & s1 & H1 & H). apply bind_inv in H as ([] & s2 & [= <-] & H).
  assert (ready_list s1 = ready_list s /\ current s1 = current s) as [Hr Hc].
  { unfold set_status in H1. apply bind_inv in H1 as (th & s3 & H3 & [= <-]).
    unfold get_thread in H3. apply bind_inv in H3 as (? & ? & [= <- <-] & H3).
    destruct (threads s !! current s); [|done]. by injection H3 as <- <-. }
  destruct prev as [p|]; [|by injection H as <-].
  apply bind_inv in H as (th & s2 & H2 & H).
  assert (s2 = set_ticks 0 s1) as ->.
  { unfold get_thread in H2. apply bind_inv in H2 as (? & ? & [= <- <-] & H2).
    destruct (threads _ !! p); [|done]. by injection H2 as <- <-. }
  destruct (_ && _); [|by injection H as <-].
  apply bind_inv in H as ([] & s3 & H3 & [= <-]). unfold ASSERT in H3. destruct (negb _); [|done].
  by injection H3 as <-.
Qed.

Lemma schedule_switches s s' : schedule s = Ok (tt, s') -> switched s s'.
Proof.
  unfold schedule. intros (? & ? & [= <- <-] & H)%bind_inv.
  apply bind_inv in H as (next & s1 & H1 & H). apply bind_inv in H as (th & s2 & H2 & H).
  apply bind_inv in H as ([] & s3 & H3 & H). apply bind_inv in H as (? & ? & [= <- <-] & H).
  apply bind_inv in H as ([] & s4 & H4 & H).
  assert (s2 = s1) as ->.
  { unfold get_thread in H2. apply bind_inv in H2 as (? & ? & [= <- <-] & H2).
    destruct (threads _ !! _); [|done]. by injection H2 as <- <-. }
  unfold ASSERT in H3, H4. destruct (negb _); [|done]. injection H3 as <-. destruct (bool_decide _); [|done].
  injection H4 as <-.
  assert (thread_ticks s' = 0 /\ ready_list s' = ready_list s1 /\ current s' = next) as (Ht & Hr & Hc).
  { destruct (Z.eqb_spec (current s) next) as [He|]; simpl in H.
    - assert (current s1 = current s).
      { unfold next_thread_to_run in H1. apply bind_inv in H1 as (? & ? & [= <- <-] & H1).
        destruct (ready_list s); [by injection H1 as <- <-|]. apply bind_inv in H1 as ([] & s5 & [= <-] & H1).
        by injection H1 as <- <-. }
      apply tail_switches in H as (? & ? & ?). split_and!; [done..|congruence].
    - apply bind_inv in H as ([] & s5 & [= <-] & H). by apply tail_switches in H. }
  split; [done|]. exists []. rewrite app_nil_r, Hr, Hc.
  unfold next_thread_to_run in H1. apply bind_inv in H1 as (? & ? & [= <- <-] & H1).
  destruct (ready_list s) as [|t r]; [by left|]. apply bind_inv in H1 as ([] & s5 & [= <-] & H1).
  injection H1 as <- <-. by right.
Qed.

Lemma moves_schedule : moves schedule.
Proof. intros s [] s' H. right. by apply schedule_switches. Qed.
#[export] Hint Resolve moves_schedule : sched.

Lemma yield_switches s s' : thread_yield s = Ok (tt, s') -> switched s s'.
Proof.
  unfold thread_yield. intros (cur & s1 & H1 & H)%bind_inv. apply keeps_thread_current in H1 as K1.
  apply bind_inv in H as (? & ? & [= <- <-] & H). apply bind_inv in H as ([] & s2 & H2 & H).
  apply bind_inv in H as ([] & s3 & H3 & H). apply keeps_set_status in H3.
  apply schedule_switches in H.
  assert (exists l, ready_list s2 = ready_list s1 ++ l) as Hl.
  { destruct (negb _); injection H2 as <-; [by exists [cur]|]. exists []. by rewrite app_nil_r. }
  destruct K1 as [_ _ [l1 Hl1]], Hl as [l2 Hl2], H3 as [_ _ [l3 Hl3]], H as [Ht [l4 Hl4]].
  split; [done|]. exists (l1 ++ l2 ++ l3 ++ l4). rewrite Hl3, Hl2, Hl1 in Hl4. by rewrite !app_assoc in *.
Qed.

Lemma moves_yield : moves thread_yield.
Proof. intros s [] s' H. right. by apply yield_switches. Qed.
#[export] Hint Resolve moves_yield : sched.

Ltac mv :=
  repeat first
    [ solve [auto with sched]
    | solve [apply keeps_moves; keep]
    | apply moves_bind; [solve [keep] | intros ?]
    | match goal with |- moves (match ?x with _ => _ end) => destruct x end ].

Lemma moves_block : moves thread_block.
Proof. unfold thread_block. mv. Qed.
#[export] Hint Resolve moves_block : sched.
Lemma moves_exit : moves thread_exit.
Proof. unfold thread_exit. mv. Qed.
Lemma moves_sema_down sm k : moves (sema_down sm k).
Proof. unfold sema_down. mv. Qed.
#[export] Hint Resolve moves_exit moves_sema_down : sched.
Lemma moves_do_call c : moves (do_call c).
Proof. unfold do_call. apply moves_bind; [keep|]. intros t. destruct c; unfold sema_init, lock_init, cond_init; mv. Qed.
Lemma moves_go : moves go.
Proof. unfold go. mv. Qed.

(** * No starvation *)

Definition slice_ok (s : kstate) : Prop := 0 <= thread_ticks s < TIME_SLICE.

(** Ticks until thread [t] runs, from position [i] of the ready list. *)
Definition wait (s : kstate) (i : nat) : Z := TIME_SLICE * (Z.of_nat i + 1) - thread_ticks s.

Definition is_tick (x : label) : Z := match x with Tick => 1 | _ => 0 end.

(** One step brings a ready thread closer to the processor, or to it. *)
Lemma step_wait x s s' i t :
  slice_ok s -> run x s = Ok (tt, s') -> ready_list s !! i = Some t ->
  slice_ok s' /\ (current s' = t \/ exists j, ready_list s' !! j = Some t /\ wait s' j <= wait s i - is_tick x).
Proof.
  unfold slice_ok, wait, TIME_SLICE. intros Hs Hrun Hi.
  assert (Hsw : switched s s' -> 0 <= thread_ticks s' < 4 /\ (current s' = t \/
    exists j, ready_list s' !! j = Some t /\ 4 * (Z.of_nat j + 1) - thread_ticks s' <= 4 * (Z.of_nat i + 1) - thread_ticks s - 1)).
  { intros [Ht [l [Hl|Hl]]]; (split; [lia|]).
    - by destruct (ready_list s).
    - apply (lookup_app_l_Some _ l) in Hi. rewrite Hl in Hi. destruct i as [|j]; simpl in Hi.
      + left. congruence.
      + right. exists j. split; [done|]. lia. }
  assert (Hmv : held s s' \/ switched s s' -> is_tick x = 0 -> 0 <= thread_ticks s' < 4 /\ (current s' = t \/
    exists j, ready_list s' !! j = Some t /\ 4 * (Z.of_nat j + 1) - thread_ticks s' <= 4 * (Z.of_nat i + 1) - thread_ticks s - is_tick x)).
  { intros [[_ Ht [l Hl]]|Hw] ->.
    - split; [lia|]. right. exists i. rewrite Hl. split; [by apply lookup_app_l_Some|]. lia.
    - destruct (Hsw Hw) as [? [?|(j & ? & ?)]]; (split; [done|]); [by left|right; exists j; split; [done|lia]]. }
  destruct x as [c| | |a]; simpl in Hrun.
  - apply Hmv; [|done]. by apply (moves_do_call c) with (1 := Hrun).
  - apply Hmv; [|done]. by apply moves_go with (1 := Hrun).
  - unfold thread_tick in Hrun. apply bind_inv in Hrun as (cur & s1 & H1 & H). apply keeps_thread_current in H1 as [Hc Ht [l Hl]].
    apply bind_inv in H as (? & ? & [= <- <-] & H). apply bind_inv in H as ([] & s2 & [= <-] & H).
    unfold TIME_SLICE in H. destruct (Z.leb_spec 4 (thread_ticks s1 + 1)) as [Hle|Hlt].
    + apply Hsw. apply yield_switches in H as [Ht' [l' Hl']]. split; [done|]. exists (l ++ l').
      simpl in Hl'. by rewrite app_assoc, <- Hl.
    + injection H as <-. simpl. split; [lia|]. right. exists i. rewrite Hl.
      split; [by apply lookup_app_l_Some|]. simpl. lia.
  - apply Hmv; [|done]. left. by apply keeps_sema_up in Hrun.
Qed.

(** The states that a sequence of steps goes through. *)
Fixpoint trace (xs : list label) (s : kstate) : res (list kstate) :=
  match xs with
  | [] => Ok []
  | x :: xs => '(_, s') ← run x s; ss ← trace xs s'; Ok (s' :: ss)
  end.

Fixpoint ticks (xs : list label) : Z :=
  match xs with [] => 0 | x :: xs => is_tick x + ticks xs end.

Lemma trace_runs xs : forall s ss i t,
  slice_ok s -> trace xs s = Ok ss -> ready_list s !! i = Some t -> wait s i <= ticks xs ->
  exists s', s' ∈ ss /\ current s' = t.
Proof.
  induction xs as [|x xs IH]; intros s ss i t Hs Htr Hi Hw.
  - unfold wait, slice_ok, TIME_SLICE in *. simpl in Hw. lia.
  - simpl in Htr. destruct (run x s) as [[[] s']|] eqn:Hrun; [|done]. simpl in Htr.
    destruct (trace xs s') as [ss'|] eqn:Htr'; [|done]. injection Htr as <-.
    destruct (step_wait x s s' i t Hs Hrun Hi) as [Hs' [Hc|(j & Hj & Hle)]].
    + exists s'. split; [by left|done].
    + simpl in Hw. destruct (IH s' ss' j t Hs' Htr' Hj) as (s2 & H2 & Hc); [lia|].
      exists s2. split; [by right|done].
Qed.

Lemma slice_step x s s' : slice_ok s -> run x s = Ok (tt, s') -> slice_ok s'.
Proof.
  intros Hs Hrun. destruct (ready_list s) as [|t r] eqn:Hr.
  2: { eapply (step_wait x s s' 0 t Hs Hrun). by rewrite Hr. }
  unfold slice_ok, TIME_SLICE in *.
  assert (Hmv : held s s' \/ switched s s' -> 0 <= thread_ticks s' < 4).
  { intros [[_ Ht _]|[Ht _]]; lia. }
  destruct x as [c| | |a]; simpl in Hrun.
  - by apply Hmv, (moves_do_call c) with (1 := Hrun).
  - by apply Hmv, moves_go with (1 := Hrun).
  - unfold thread_tick in Hrun. apply bind_inv in Hrun as (cur & s1 & H1 & H). apply keeps_thread_current in H1 as [_ Ht _].
    apply bind_inv in H as (? & ? & [= <- <-] & H). apply bind_inv in H as ([] & s2 & [= <-] & H).
    unfold TIME_SLICE in H. destruct (Z.leb_spec 4 (thread_ticks s1 + 1)) as [Hle|Hlt].
    + apply yield_switches in H as [Ht' _]. lia.
    + injection H as <-. simpl. lia.
  - apply Hmv. left. by apply keeps_sema_up in Hrun.
Qed.

Lemma reachable_slice s : reachable s -> slice_ok s.
Proof. induction 1 as [|x s s' _ IH _ Hrun]; [done|]. by eapply slice_step. Qed.

(** C22: no starvation.  A thread at position [i] of the ready list runs within
    [4 * (i + 1)] timer ticks, whatever the other threads do in between: block,
    wake each other, create threads or exit. *)
Theorem ready_thread_runs (s : kstate) (xs : list label) (ss : list kstate) (i : nat) (t : Z) :
  reachable s -> ready_list s !! i = Some t -> trace xs s = Ok ss ->
  TIME_SLICE * (Z.of_nat i + 1) <= ticks xs ->
  exists s', s' ∈ ss /\ current s' = t.
Proof.
  intros Hs Hi Htr Hn. apply reachable_slice in Hs. apply (trace_runs xs s ss i t); [done..|].
  unfold wait, slice_ok in *. lia.
Qed.

Lemma ready_thread_runs_witness : exists ss s', trace (replicate 8 Tick) demo = Ok ss /\ s' ∈ ss /\ current s' = 1.
Proof.
  destruct (trace (replicate 8 Tick) demo) as [ss|] eqn:Htr; [|vm_compute in Htr; discriminate].
  destruct (ready_thread_runs demo (replicate 8 Tick) ss 0 1 demo_reachable) as (s' & Hin & Hc).
  - vm_compute. reflexivity.
  - exact Htr.
  - vm_compute. discriminate.
  - exists ss, s'. split; [reflexivity|]. split; [exact Hin|exact Hc].
Defined.
