(* ===== verification/Process.v ===== *)
(** src/userprog/process.c and src/userprog/syscall.c: how processes start each
    other, wait for each other and exit.

    Processes run interleaved; a step of one of them ends where it may lose the
    processor to a process that it shares data with.  Semaphores and the lock
    [open_close_lock] appear here with the behaviour that [SchedStep] shows for
    the primitives: a step that would block leaves the state as it is.  A child
    record is freed once; records and processes are named by numbers that are not
    reused, so an access to a freed one is a [Fault]. *)
From stdpp Require Import base numbers gmap fin_maps list.
From Stdlib Require Import ZArith Lia.
From S2P Require Import Prelude.

Open Scope Z_scope.

(** * State *)

Inductive child_status_t : Set := PROCESS_RUNNING | PROCESS_STOPPED | PROCESS_DONE.

(** [load_status] is the process on whose stack the semaphore is; [inception] the
    process whose [child_data] is meant; [exit_status] is not initialised at first. *)
Record child_list_elem : Type := mk_child {
  pid : Z;
  parent_pid : Z;
  load_status : option Z;
  mom_im_out_of_money : bool;
  child_status : child_status_t;
  sema : Z;
  exit_status : option Z;
  inception : Z
}.

(** Where a process is. *)
Inductive ppc : Set :=
| User
| ExecLock | ExecCreate | ExecAdd (k : Z) | ExecStatus (k : Z) (e : option Z)
| ExecRelease (k e : Z) | ExecDown (k e : Z) | ExecResult (k e : Z)
| LoadStart | LoadLock | LoadOpen | LoadBody | LoadTail (ok : bool) | LoadMark (ok : bool)
| LoadRelease (ok : bool) | LoadUp (ok : bool)
| WaitDown (e : Z) | WaitDone (e : Z)
| ExitLock (st : Z) | ExitRelease (st : Z) | ExitReport (st : Z) | ExitWrite (st e : Z) | ExitUp (st e : Z)
| ExitOrphans | ExitEnd.

(** [load_sema] is the local semaphore of [process_execute], while it lives. *)
Record process : Type := mk_process {
  at_ppc : ppc;
  child_list : list Z;
  child_data : option Z;
  load_sema : option Z;
  load_failed : bool
}.

(** [exits] and [loads] record what each process exited with and whether it loaded;
    no step reads them. *)
Record pstate : Type := mk_pstate {
  procs : gmap Z process;
  elems : gmap Z child_list_elem;
  next_pid : Z;
  next_elem : Z;
  open_close_lock : option Z;
  exits : gmap Z Z;
  loads : gmap Z bool
}.

Definition set_procs x s := mk_pstate x (elems s) (next_pid s) (next_elem s) (open_close_lock s) (exits s) (loads s).
Definition set_elems x s := mk_pstate (procs s) x (next_pid s) (next_elem s) (open_close_lock s) (exits s) (loads s).
Definition set_next_pid x s := mk_pstate (procs s) (elems s) x (next_elem s) (open_close_lock s) (exits s) (loads s).
Definition set_next_elem x s := mk_pstate (procs s) (elems s) (next_pid s) x (open_close_lock s) (exits s) (loads s).
Definition set_lock x s := mk_pstate (procs s) (elems s) (next_pid s) (next_elem s) x (exits s) (loads s).
Definition set_exits x s := mk_pstate (procs s) (elems s) (next_pid s) (next_elem s) (open_close_lock s) x (loads s).
Definition set_loads x s := mk_pstate (procs s) (elems s) (next_pid s) (next_elem s) (open_close_lock s) (exits s) x.

Definition change (f : pstate -> pstate) : M pstate unit := s ← mget; mput (f s).

Definition get_proc (t : Z) : M pstate process :=
  s ← mget; match procs s !! t with Some p => mret p | None => mfail Fault end.
Definition put_proc (t : Z) (p : process) : M pstate unit :=
  change (fun s => set_procs (<[t := p]> (procs s)) s).
Definition goto (t : Z) (c : ppc) : M pstate unit :=
  p ← get_proc t; put_proc t (mk_process c (child_list p) (child_data p) (load_sema p) (load_failed p)).
Definition get_elem (e : Z) : M pstate child_list_elem :=
  s ← mget; match elems s !! e with Some c => mret c | None => mfail Fault end.
Definition put_elem (e : Z) (c : child_list_elem) : M pstate unit :=
  change (fun s => set_elems (<[e := c]> (elems s)) s).
(** A pointer to a child record, which may be null. *)
Definition deref (e : option Z) : M pstate Z :=
  match e with Some e => mret e | None => mfail Fault end.

(** [lock_acquire (&open_close_lock)], then [next]. *)
Definition acquire (t : Z) (next : ppc) : M pstate unit :=
  s ← mget;
  match open_close_lock s with
  | None => change (set_lock (Some t));; goto t next
  | Some h => ASSERT (negb (h =? t))
  end.
Definition release (t : Z) (next : ppc) : M pstate unit :=
  s ← mget;
  ASSERT (bool_decide (open_close_lock s = Some t));;
  change (set_lock None);; goto t next.

(** * syscall.c *)

Fixpoint find_child (es : list Z) (k : Z) : M pstate (option Z) :=
  match es with
  | [] => mret None
  | e :: es => c ← get_elem e; if pid c =? k then mret (Some e) else find_child es k
  end.
Definition find_child_element (t k : Z) : M pstate (option Z) :=
  p ← get_proc t; find_child (child_list p) k.

(** [mem]: whether [malloc] gives memory; its result is not tested. *)
Definition add_child_to_list (t k : Z) (mem : bool) : M pstate Z :=
  if mem then
    s ← mget;
    let e := next_elem s in
    change (set_next_elem (e + 1));;
    put_elem e (mk_child k t None false PROCESS_RUNNING 0 None k);;
    child ← get_proc k;
    put_proc k (mk_process (at_ppc child) (child_list child) (Some e) (load_sema child) (load_failed child));;
    p ← get_proc t;
    put_proc t (mk_process (at_ppc p) (child_list p ++ [e]) (child_data p) (load_sema p) (load_failed p));;
    mret e
  else mfail Fault.

(** * process.c *)

(** What a process does next, where the program or the machine has a choice:
    system calls of user code, whether there is memory, whether loading works. *)
Inductive event : Set :=
| Exec (page : bool) | Wait (k : Z) | Exit (st : Z) | Mem (ok : bool) | Loaded (ok : bool) | Go.

#[global] Instance event_eq_dec : EqDecision event.
Proof. solve_decision. Defined.

Definition TID_ERROR : Z := -1.

(** [process_execute]; the result is what it returns, when it does. *)
Definition process_execute (t : Z) (c : ppc) (ev : event) : M pstate (option Z) :=
  match c, ev with
  | User, Exec page => if page then goto t ExecLock;; mret None else mret (Some TID_ERROR)
  | ExecLock, Go => acquire t ExecCreate;; mret None
  | ExecCreate, Mem ok =>
    if ok then
      s ← mget;
      let k := next_pid s in
      change (set_next_pid (k + 1));;
      put_proc k (mk_process LoadStart [] None None false);;
      goto t (ExecAdd k);; mret None
    else goto t (ExecStatus TID_ERROR None);; mret None
  | ExecAdd k, Mem ok => e ← add_child_to_list t k ok; goto t (ExecStatus k (Some e));; mret None
  | ExecStatus k success, Go =>
    p ← get_proc t;
    put_proc t (mk_process (at_ppc p) (child_list p) (child_data p) (Some 0) (load_failed p));;
    e ← deref success;
    c ← get_elem e;
    put_elem e (mk_child (pid c) (parent_pid c) (Some t) (mom_im_out_of_money c) (child_status c) (sema c) (exit_status c) (inception c));;
    goto t (ExecRelease k e);; mret None
  | ExecRelease k e, Go => release t (ExecDown k e);; mret None
  | ExecDown k e, Go =>
    p ← get_proc t;
    match load_sema p with
    | None => mfail Fault
    | Some v => if v =? 0 then mret None
      else put_proc t (mk_process (ExecResult k e) (child_list p) (child_data p) (Some (v - 1)) (load_failed p));; mret None
    end
  | ExecResult k e, Go =>
    c ← get_elem e;
    p ← get_proc t;
    put_proc t (mk_process User (child_list p) (child_data p) None (load_failed p));;
    mret (Some (if mom_im_out_of_money c then TID_ERROR else k))
  | _, _ => mret None
  end.

(** [load], for what it shares with other processes. *)
Definition load (t : Z) (c : ppc) (ev : event) : M pstate (option Z) :=
  match c, ev with
  | LoadStart, Mem ok => goto t (if ok then LoadLock else LoadTail false);; mret None
  | LoadLock, Go => acquire t LoadOpen;; mret None
  | LoadOpen, Go => release t LoadBody;; mret None
  | LoadBody, Loaded ok => goto t (LoadTail ok);; mret None
  | LoadTail ok, Go => acquire t (LoadMark ok);; mret None
  | LoadMark ok, Go =>
    change (fun s => set_loads (<[t := ok]> (loads s)) s);;
    p ← get_proc t;
    (if ok : bool then mret tt else
       e ← deref (child_data p);
       c ← get_elem e;
       put_elem e (mk_child (pid c) (parent_pid c) (load_status c) true (child_status c) (sema c) (exit_status c) (inception c)));;
    goto t (LoadRelease ok);; mret None
  | LoadRelease ok, Go => release t (LoadUp ok);; mret None
  | _, _ => mret None
  end.

(** The rest of [start_process]: [sema_up] on the semaphore of the parent, which
    lives on the parent's stack. *)
Definition start_process (t : Z) (c : ppc) (ev : event) : M pstate (option Z) :=
  match c, ev with
  | LoadUp ok, Go =>
    p ← get_proc t;
    put_proc t (mk_process (at_ppc p) (child_list p) (child_data p) (load_sema p) (negb ok || load_failed p));;
    e ← deref (child_data p);
    c ← get_elem e;
    q ← deref (load_status c);
    parent ← get_proc q;
    v ← match load_sema parent with Some v => mret v | None => mfail Fault end;
    put_proc q (mk_process (at_ppc parent) (child_list parent) (child_data parent) (Some (v + 1)) (load_failed parent));;
    (if ok then goto t User
     else change (fun s => set_exits (<[t := -1]> (exits s)) s);; goto t (ExitLock (-1)));; mret None
  | _, _ => load t c ev
  end.

Definition process_wait (t : Z) (c : ppc) (ev : event) : M pstate (option Z) :=
  match c, ev with
  | User, Wait k =>
    e ← find_child_element t k;
    match e with
    | None => mret (Some (-1))
    | Some e => goto t (WaitDown e);; mret None
    end
  | WaitDown e, Go =>
    c ← get_elem e;
    if sema c =? 0 then mret None
    else
      put_elem e (mk_child (pid c) (parent_pid c) (load_status c) (mom_im_out_of_money c) (child_status c) (sema c - 1) (exit_status c) (inception c));;
      goto t (WaitDone e);; mret None
  | WaitDone e, Go =>
    c ← get_elem e;
    st ← match exit_status c with Some st => mret st | None => mfail Fault end;
    p ← get_proc t;
    put_proc t (mk_process User (filter (fun x => x ≠ e) (child_list p)) (child_data p) (load_sema p) (load_failed p));;
    change (fun s => set_elems (delete e (elems s)) s);;
    mret (Some st)
  | _, _ => mret None
  end.

(** [process_exit] after the files are closed, and the end of the thread. *)
Definition process_exit (t : Z) (c : ppc) (ev : event) : M pstate (option Z) :=
  match c, ev with
  | User, Exit st => change (fun s => set_exits (<[t := st]> (exits s)) s);; goto t (ExitLock st);; mret None
  | ExitLock st, Go => acquire t (ExitRelease st);; mret None
  | ExitRelease st, Go => release t (ExitReport st);; mret None
  | ExitReport st, Go =>
    p ← get_proc t;
    goto t (match child_data p with Some e => ExitWrite st e | None => ExitOrphans end);; mret None
  | ExitWrite st e, Go =>
    c ← get_elem e;
    put_elem e (mk_child (pid c) (parent_pid c) (load_status c) (mom_im_out_of_money c) PROCESS_DONE (sema c) (Some st) (inception c));;
    goto t (ExitUp st e);; mret None
  | ExitUp st e, Go =>
    c ← get_elem e;
    put_elem e (mk_child (pid c) (parent_pid c) (load_status c) (mom_im_out_of_money c) (child_status c) (sema c + 1) (exit_status c) (inception c));;
    goto t ExitOrphans;; mret None
  | ExitOrphans, Go =>
    p ← get_proc t;
    match child_list p with
    | [] => goto t ExitEnd;; mret None
    | e :: es =>
      put_proc t (mk_process (at_ppc p) es (child_data p) (load_sema p) (load_failed p));;
      c ← get_elem e;
      child ← get_proc (inception c);
      put_proc (inception c) (mk_process (at_ppc child) (child_list child) None (load_sema child) (load_failed child));;
      change (fun s => set_elems (delete e (elems s)) s);; mret None
    end
  | ExitEnd, Go => change (fun s => set_procs (delete t (procs s)) s);; mret None
  | _, _ => mret None
  end.

Definition step (t : Z) (ev : event) : M pstate (option Z) :=
  p ← get_proc t;
  match at_ppc p with
  | User => match ev with
            | Exec _ => process_execute t User ev
            | Wait _ => process_wait t User ev
            | Exit _ => process_exit t User ev
            | _ => mret None
            end
  | ExecLock | ExecCreate | ExecAdd _ | ExecStatus _ _ | ExecRelease _ _ | ExecDown _ _ | ExecResult _ _ =>
    process_execute t (at_ppc p) ev
  | LoadStart | LoadLock | LoadOpen | LoadBody | LoadTail _ | LoadMark _ | LoadRelease _ | LoadUp _ =>
    start_process t (at_ppc p) ev
  | WaitDown _ | WaitDone _ => process_wait t (at_ppc p) ev
  | _ => process_exit t (at_ppc p) ev
  end.
