(* ===== verification/ProcessInv.v ===== *)
(** The invariant of the process protocol of [Process], its preservation by every
    step, and what follows for [exec], [wait] and [exit]. *)
From stdpp Require Import base numbers gmap fin_maps list.
From Stdlib Require Import ZArith Lia.
From S2P Require Import Prelude Process.

Open Scope Z_scope.

(** * The invariant *)

Definition holds (c : ppc) : bool :=
  match c with
  | ExecCreate | ExecAdd _ | ExecStatus _ _ | ExecRelease _ _
  | LoadOpen | LoadMark _ | LoadRelease _ | ExitRelease _ => true
  | _ => false
  end.

(** Inside [load]: [Some None] before the outcome is recorded, then [Some (Some ok)]. *)
Definition loading (c : ppc) : option (option bool) :=
  match c with
  | LoadStart | LoadLock | LoadOpen | LoadBody | LoadTail _ | LoadMark _ => Some None
  | LoadRelease ok | LoadUp ok => Some (Some ok)
  | _ => None
  end.

(** The child has reported its exit status, or has no parent to report to. *)
Definition gone (c : ppc) : bool := match c with ExitOrphans | ExitEnd => true | _ => false end.

(** The child that a parent is starting, with its record. *)
Definition starting (c : ppc) : option (Z * Z) :=
  match c with
  | ExecStatus k (Some e) | ExecRelease k e | ExecDown k e | ExecResult k e => Some (k, e)
  | _ => None
  end.
Definition waiting_for (c : ppc) : option Z := match c with WaitDown e | WaitDone e => Some e | _ => None end.
Definition exiting (c : ppc) : option Z :=
  match c with
  | ExitLock st | ExitRelease st | ExitReport st | ExitWrite st _ | ExitUp st _ => Some st
  | _ => None
  end.
Definition reporting (c : ppc) : option Z := match c with ExitWrite _ e | ExitUp _ e => Some e | _ => None end.

(** How parent [t], at [P] with local semaphore [L], its child at [K] and the record
    [c] of the child fit together while the child loads. *)
Definition link_load (t e : Z) (P : ppc) (L : option Z) (K : option ppc) (c : child_list_elem) (lo : option bool) : Prop :=
  match K ≫= loading with
  | Some None => mom_im_out_of_money c = false /\
    ((P = ExecStatus (pid c) (Some e) /\ load_status c = None) \/
     (load_status c = Some t /\ L = Some 0 /\ (P = ExecRelease (pid c) e \/ P = ExecDown (pid c) e)))
  | Some (Some ok) =>
    load_status c = Some t /\ L = Some 0 /\ P = ExecDown (pid c) e /\ lo = Some ok /\ mom_im_out_of_money c = negb ok
  | None =>
    (forall k, starting P ≠ Some (k, e)) \/
    (lo = Some (negb (mom_im_out_of_money c)) /\ ((P = ExecDown (pid c) e /\ L = Some 1) \/ P = ExecResult (pid c) e))
  end.

(** The same for the exit of the child. *)
Definition link_exit (e : Z) (P : ppc) (K : option ppc) (c : child_list_elem) (ex : option Z) : Prop :=
  match K with
  | Some pc => if gone pc then exit_status c = ex /\ is_Some ex /\ (P = WaitDone e -> sema c = 0) /\ (P ≠ WaitDone e -> sema c = 1)
    else sema c = 0 /\ P ≠ WaitDone e /\ forall st, pc = ExitUp st e -> exit_status c = Some st
  | None => exit_status c = ex /\ is_Some ex /\ (P = WaitDone e -> sema c = 0) /\ (P ≠ WaitDone e -> sema c = 1)
  end.

Definition link (s : pstate) (e : Z) (c : child_list_elem) : Prop :=
  exists p, procs s !! parent_pid c = Some p /\ e ∈ child_list p /\ inception c = pid c /\ pid c ≠ parent_pid c /\ pid c < next_pid s /\
    (forall pk, procs s !! pid c = Some pk -> child_data pk = Some e) /\
    let K := at_ppc <$> procs s !! pid c in
    link_load (parent_pid c) e (at_ppc p) (load_sema p) K c (loads s !! pid c) /\
    link_exit e (at_ppc p) K c (exits s !! pid c).

Record proc_ok (s : pstate) (t : Z) (p : process) : Prop := {
  po_pid : 0 < t < next_pid s;
  po_lock : holds (at_ppc p) = true <-> open_close_lock s = Some t;
  po_nodup : NoDup (child_list p);
  po_own : forall e, e ∈ child_list p -> exists c, elems s !! e = Some c /\ parent_pid c = t;
  po_data : forall e, child_data p = Some e -> (exists c, elems s !! e = Some c /\ pid c = t) \/ gone (at_ppc p) = true;
  po_start : forall k e, starting (at_ppc p) = Some (k, e) -> e ∈ child_list p /\ forall c, elems s !! e = Some c -> pid c = k;
  po_wait : forall e, waiting_for (at_ppc p) = Some e -> e ∈ child_list p;
  po_exit : forall st, exiting (at_ppc p) = Some st -> exits s !! t = Some st;
  po_report : forall e, reporting (at_ppc p) = Some e -> e < next_elem s /\ forall c, elems s !! e = Some c -> pid c = t;
  po_add : forall k, at_ppc p = ExecAdd k -> k ≠ t /\ (exists pk, procs s !! k = Some pk /\ loading (at_ppc pk) = Some None /\ child_data pk = None) /\
    forall e c, elems s !! e = Some c -> pid c ≠ k;
  po_load : loading (at_ppc p) ≠ None -> child_data p = None -> exists t' p', procs s !! t' = Some p' /\ at_ppc p' = ExecAdd t;
  po_null : forall k, at_ppc p ≠ ExecStatus k None;
  po_end : at_ppc p = ExitEnd -> child_list p = []
}.

Record pinv (s : pstate) : Prop := {
  pi_proc : forall t p, procs s !! t = Some p -> proc_ok s t p;
  pi_link : forall e c, elems s !! e = Some c -> link s e c;
  pi_elem : forall e c, elems s !! e = Some c -> e < next_elem s;
  pi_unique : forall e1 e2 c1 c2, elems s !! e1 = Some c1 -> elems s !! e2 = Some c2 -> pid c1 = pid c2 -> e1 = e2;
  pi_held : forall t, open_close_lock s = Some t -> is_Some (procs s !! t)
}.

(** * Frames *)

(** A parent that is busy with something else. *)
Lemma link_load_other t e P L P' L' K c lo :
  (forall k, starting P ≠ Some (k, e)) -> (forall k, starting P' ≠ Some (k, e)) ->
  link_load t e P L K c lo -> link_load t e P' L' K c lo.
Proof.
  intros H1 H2. unfold link_load. destruct (K ≫= loading) as [[ok|]|]; intros Hl.
  - destruct Hl as (_ & _ & -> & _). by destruct (H1 (pid c)).
  - destruct (H1 (pid c)). destruct Hl as [_ [[-> _]|(_ & _ & [->| ->])]]; done.
  - by left.
Qed.

Lemma link_exit_other e P P' K c c' ex :
  P ≠ WaitDone e -> P' ≠ WaitDone e -> exit_status c' = exit_status c -> sema c' = sema c ->
  link_exit e P K c ex -> link_exit e P' K c' ex.
Proof.
  intros H1 H2 H3 H4. unfold link_exit. rewrite H3, H4. destruct K as [pc|]; [destruct (gone pc)|].
  - intros (? & ? & _ & Hs). split_and!; [done|done|done|]. intros _. by apply Hs.
  - intros (? & _ & ?). done.
  - intros (? & ? & _ & Hs). split_and!; [done|done|done|]. intros _. by apply Hs.
Qed.

(** A child that is loading has not exited. *)
Lemma link_exit_load e pc c pc' c' P ex :
  gone pc = false -> gone pc' = false -> (forall st e, pc' ≠ ExitUp st e) -> sema c' = sema c ->
  link_exit e P (Some pc) c ex -> link_exit e P (Some pc') c' ex.
Proof.
  intros H1 H2 H3 H4. unfold link_exit. rewrite H1, H2, H4. intros (? & ? & _). split_and!; [done..|].
  intros st E. by destruct (H3 st e).
Qed.

(** A process that a step does not touch. *)
Lemma proc_frame s s' u p :
  proc_ok s u p -> next_pid s <= next_pid s' -> next_elem s <= next_elem s' ->
  (open_close_lock s' = Some u <-> open_close_lock s = Some u) -> exits s' !! u = exits s !! u ->
  (forall e c, elems s !! e = Some c -> parent_pid c = u ->
     exists c', elems s' !! e = Some c' /\ parent_pid c' = u /\ pid c' = pid c) ->
  (forall e c, child_data p = Some e -> elems s !! e = Some c -> pid c = u ->
     (exists c', elems s' !! e = Some c' /\ pid c' = u) \/ gone (at_ppc p) = true) ->
  (forall e c', elems s' !! e = Some c' -> e < next_elem s -> exists c, elems s !! e = Some c /\ pid c = pid c') ->
  (forall k, at_ppc p = ExecAdd k ->
     (exists pk, procs s' !! k = Some pk /\ loading (at_ppc pk) = Some None /\ child_data pk = None) /\
     forall e c, elems s' !! e = Some c -> pid c ≠ k) ->
  (loading (at_ppc p) ≠ None -> child_data p = None -> exists t' p', procs s' !! t' = Some p' /\ at_ppc p' = ExecAdd u) ->
  (forall e c, elems s !! e = Some c -> e < next_elem s) ->
  proc_ok s' u p.
Proof.
  intros [H1 H2 H3 H4 H5 H6 H7 H8 H9 H10 H11 H12 H13] Hn He Hl Hx Hown Hdata Hold Hadd Hload Hlt. split; try done.
  - lia.
  - by rewrite H2, Hl.
  - intros e Hin. destruct (H4 e Hin) as (c & Hc & Hp). destruct (Hown _ _ Hc Hp) as (c' & ? & ? & ?). eauto.
  - intros e Hd. destruct (H5 e Hd) as [(c & Hc & Hp)|]; [|by right]. eauto.
  - intros k e Hs. destruct (H6 k e Hs) as [Hin Hk]. split; [done|]. intros c' Hc'.
    destruct (H4 e Hin) as (c & Hc & Hp). destruct (Hown _ _ Hc Hp) as (c'' & Hc'' & _ & Hpid).
    rewrite Hc' in Hc''. injection Hc'' as <-. rewrite Hpid. eauto.
  - intros st Hs. rewrite Hx. eauto.
  - intros e Hr. destruct (H9 e Hr) as [Hb Hc]. split; [lia|]. intros c' Hc'.
    destruct (Hold _ _ Hc' Hb) as (c & Hc0 & <-). eauto.
  - intros k Hk. destruct (H10 k Hk) as (Hne & _ & _). split; [done|]. eauto.
Qed.

(** A record that a step does not change, with its parent at [P] and its child at [K]. *)
Lemma link_intro s e c p :
  procs s !! parent_pid c = Some p -> e ∈ child_list p -> inception c = pid c -> pid c ≠ parent_pid c -> pid c < next_pid s ->
  (forall pk, procs s !! pid c = Some pk -> child_data pk = Some e) ->
  link_load (parent_pid c) e (at_ppc p) (load_sema p) (at_ppc <$> procs s !! pid c) c (loads s !! pid c) ->
  link_exit e (at_ppc p) (at_ppc <$> procs s !! pid c) c (exits s !! pid c) -> link s e c.
Proof. intros. exists p. auto 10. Qed.

(** A parent, or a child, that record [e] cannot tell from what it was. *)
Definition parent_sim (e : Z) (r r' : process) : Prop :=
  e ∈ child_list r' /\
  ((at_ppc r' = at_ppc r /\ load_sema r' = load_sema r) \/
   ((forall k, starting (at_ppc r) ≠ Some (k, e)) /\ (forall k, starting (at_ppc r') ≠ Some (k, e)) /\
    at_ppc r ≠ WaitDone e /\ at_ppc r' ≠ WaitDone e)).
Definition child_sim (e : Z) (K K' : option process) : Prop :=
  K' = K \/
  (exists k, K = Some k /\ ((K' = None /\ loading (at_ppc k) = None /\ gone (at_ppc k) = true) \/
    exists k', K' = Some k' /\ child_data k' = Some e /\ loading (at_ppc k') = loading (at_ppc k) /\
      gone (at_ppc k') = gone (at_ppc k) /\ (at_ppc k' = at_ppc k \/ forall st, at_ppc k' ≠ ExitUp st e))).

Lemma link_sim s s' e c r r' :
  link s e c -> procs s !! parent_pid c = Some r -> procs s' !! parent_pid c = Some r' -> parent_sim e r r' ->
  child_sim e (procs s !! pid c) (procs s' !! pid c) -> next_pid s <= next_pid s' ->
  loads s' !! pid c = loads s !! pid c ->
  (exits s' !! pid c = exits s !! pid c \/ exists k, procs s !! pid c = Some k /\ gone (at_ppc k) = false) -> link s' e c.
Proof.
  intros (r0 & Hr0 & Hin & Hi & Hne & Hlt & Hd & Hl & Hx) Hr Hr' [Hin' HP] HK Hn Hlo Hex.
  assert (r0 = r) as -> by congruence.
  assert (Hl1 : link_load (parent_pid c) e (at_ppc r') (load_sema r') (at_ppc <$> procs s !! pid c) c (loads s !! pid c)).
  { destruct HP as [[-> ->]|(A1 & A2 & _)]; [done|by eapply link_load_other; [..|exact Hl]]. }
  assert (Hx1 : link_exit e (at_ppc r') (at_ppc <$> procs s !! pid c) c (exits s' !! pid c)).
  { assert (Hx0 : link_exit e (at_ppc r) (at_ppc <$> procs s !! pid c) c (exits s' !! pid c)).
    { destruct Hex as [->|(k & Hk & Hg)]; [done|]. rewrite Hk in *. unfold link_exit in *. simpl in *. by rewrite Hg in *. }
    destruct HP as [[-> _]|(_ & _ & A1 & A2)]; [done|by eapply link_exit_other; [..|exact Hx0]]. }
  apply (link_intro _ e c r'); try done; try lia; rewrite ?Hlo.
  - destruct HK as [->|(k & Hk & [(-> & _)|(k' & -> & Hcd & _)])]; [done|done|by intros pk [= <-]].
  - destruct HK as [->|(k & Hk & HK)]; [done|]. rewrite Hk in Hl1. unfold link_load in *.
    destruct HK as [(-> & E & _)|(k' & -> & _ & E & _)]; simpl in *; [by rewrite E in Hl1|by rewrite E].
  - destruct HK as [->|(k & Hk & HK)]; [done|]. rewrite Hk in Hx1. unfold link_exit in *.
    destruct HK as [(-> & _ & E)|(k' & -> & _ & _ & E & Hup)]; simpl in *; [by rewrite E in Hx1|]. rewrite E.
    destruct (gone (at_ppc k)); [done|]. destruct Hx1 as (? & ? & Hst). split_and!; try done.
    destruct Hup as [->|Hup]; [done|]. intros st Hst'. by destruct (Hup st).
Qed.

(** ** Steps of one process and one record *)

Section Move.
Context (s : pstate) (I : pinv s) (t : Z) (p p' : process) (Ht : procs s !! t = Some p).
Context (el' : gmap Z child_list_elem) (lock' : option Z) (ex' : gmap Z Z) (lo' : gmap Z bool) (e0 : Z).
Context (Hlist : child_list p' = child_list p) (Hdata : child_data p' = child_data p).
Let s' := mk_pstate (<[t := p']> (procs s)) el' (next_pid s) (next_elem s) lock' ex' lo'.

(** Only record [e0] changes, and not whose it is. *)
Context (Hel : forall e, e ≠ e0 -> el' !! e = elems s !! e).
Context (He0 : forall c, elems s !! e0 = Some c -> exists c', el' !! e0 = Some c' /\ pid c' = pid c /\ parent_pid c' = parent_pid c).
Context (He0' : forall c', el' !! e0 = Some c' -> exists c, elems s !! e0 = Some c /\ pid c = pid c').

(** As a parent, [t] concerns [e0] only. *)
Definition parent_quiet : Prop :=
  forall e, (exists k, starting (at_ppc p) = Some (k, e) \/ starting (at_ppc p') = Some (k, e)) \/
    at_ppc p = WaitDone e \/ at_ppc p' = WaitDone e -> e = e0.
(** As a child, too, or its parent notices nothing. *)
Definition child_quiet : Prop :=
  (exists c, elems s !! e0 = Some c /\ pid c = t) \/
  (loading (at_ppc p') = loading (at_ppc p) /\ (gone (at_ppc p') = gone (at_ppc p) \/ child_data p = None) /\
   (forall st e, at_ppc p' ≠ ExitUp st e) /\ lo' !! t = loads s !! t /\ (ex' !! t = exits s !! t \/ gone (at_ppc p') = false)).

Lemma quiet_link e c :
  parent_quiet -> child_quiet -> (forall u, u ≠ t -> ex' !! u = exits s !! u) -> (forall u, u ≠ t -> lo' !! u = loads s !! u) ->
  elems s !! e = Some c -> e ≠ e0 -> link s' e c.
Proof.
  intros QP QC Hx Hlo Hc Hee. pose proof (pi_link _ I _ _ Hc) as HL.
  pose proof HL as (q & Hq & Hin & Hi & Hne & Hlt & Hd & Hl & Hxx).
  assert (Hps : exists q', procs s' !! parent_pid c = Some q' /\ parent_sim e q q').
  { destruct (decide (parent_pid c = t)) as [He|Hpt]; [|exists q; simpl; rewrite lookup_insert_ne by done; split; [done|split; [done|by left]]].
    exists p'. simpl. rewrite He, lookup_insert_eq. assert (q = p) as -> by congruence. split; [done|].
    split; [by rewrite Hlist|right]. split_and!; intros; intros ?; destruct Hee; apply QP; eauto. }
  destruct Hps as (q' & Hq' & Hps). destruct (decide (pid c = t)) as [He|Hkt].
  - destruct QC as [(c0 & Hc0 & Hk0)|(Q5 & Q6 & Q7 & Q8 & Q9)].
    { destruct Hee. apply (pi_unique _ I _ _ _ _ Hc Hc0). congruence. }
    rewrite He in *. assert (gone (at_ppc p') = gone (at_ppc p)) as E.
    { destruct Q6 as [?|Hn]; [done|]. rewrite (Hd p Ht) in Hn. done. }
    apply (link_sim s s' e c q q'); rewrite ?He; try done.
    + right. exists p. split; [done|right]. exists p'. simpl. rewrite lookup_insert_eq, Hdata. split_and!; auto.
    + destruct Q9 as [?|Hg]; [by left|right]. exists p. split; [done|congruence].
  - apply (link_sim s s' e c q q'); try done; [left; simpl; by rewrite lookup_insert_ne|by apply Hlo|left; by apply Hx].
Qed.

Lemma pinv_move :
  parent_quiet -> child_quiet -> (forall c', el' !! e0 = Some c' -> link s' e0 c') ->
  (holds (at_ppc p') = true <-> lock' = Some t) ->
  (forall u, u ≠ t -> lock' = Some u <-> open_close_lock s = Some u) ->
  (forall u, u ≠ t -> ex' !! u = exits s !! u) -> (forall u, u ≠ t -> lo' !! u = loads s !! u) ->
  (forall k e, starting (at_ppc p') = Some (k, e) -> e ∈ child_list p /\ forall c, el' !! e = Some c -> pid c = k) ->
  (forall e, waiting_for (at_ppc p') = Some e -> e ∈ child_list p) ->
  (forall st, exiting (at_ppc p') = Some st -> ex' !! t = Some st) ->
  (forall e, reporting (at_ppc p') = Some e -> e < next_elem s /\ forall c, elems s !! e = Some c -> pid c = t) ->
  (forall k, at_ppc p' ≠ ExecStatus k None) -> (forall k, at_ppc p ≠ ExecAdd k) -> (forall k, at_ppc p' ≠ ExecAdd k) ->
  (gone (at_ppc p) = true -> gone (at_ppc p') = true) -> (loading (at_ppc p') ≠ None -> loading (at_ppc p) ≠ None) ->
  (at_ppc p' = ExitEnd -> child_list p = []) -> pinv s'.
Proof.
  intros QP QC Hlink Hlk Hlu Hx Hlo Hst Hw He Hr Hn Q8 Q9 Hg Hld Hend.
  pose proof (pi_proc _ I _ _ Ht) as [H1 H2 H3 H4 H5 H6 H7 H8 H9 H10 H11 H12 H13'].
  assert (Hold : forall e c, elems s !! e = Some c -> exists c', el' !! e = Some c' /\ pid c' = pid c /\ parent_pid c' = parent_pid c).
  { intros e c Hc. destruct (decide (e = e0)) as [->|]; [auto|]. exists c. by rewrite Hel. }
  assert (Hnew : forall e c', el' !! e = Some c' -> exists c, elems s !! e = Some c /\ pid c = pid c').
  { intros e c Hc. destruct (decide (e = e0)) as [->|]; [auto|]. exists c. by rewrite <- Hel. }
  assert (Hadd : forall u q, u ≠ t -> procs s !! u = Some q -> forall k, at_ppc q = ExecAdd k ->
     (exists pk, procs s' !! k = Some pk /\ loading (at_ppc pk) = Some None /\ child_data pk = None)).
  { intros u q Hne Hu k Hk. destruct (po_add _ _ _ (pi_proc _ I _ _ Hu) k Hk) as (_ & (pk & Hpk & Hlo' & Hcd) & Hno).
    destruct (decide (k = t)) as [->|Hkt].
    - exists p'. simpl. rewrite lookup_insert_eq, Hdata. assert (pk = p) as -> by congruence.
      destruct QC as [(c0 & Hc0 & Hk0)|(Q5 & _)]; [by destruct (Hno _ _ Hc0)|]. by rewrite Q5.
    - exists pk. simpl. by rewrite lookup_insert_ne. }
  assert (Hadder : forall u, (exists t' q', procs s !! t' = Some q' /\ at_ppc q' = ExecAdd u) ->
     exists t' q', procs s' !! t' = Some q' /\ at_ppc q' = ExecAdd u).
  { intros u (t' & q' & Hq' & Ha). exists t', q'. simpl. rewrite lookup_insert_ne; [done|]. intros <-.
    assert (q' = p) as -> by congruence. by destruct (Q8 u). }
  split; simpl.
  - intros u q Hu. apply lookup_insert_Some in Hu as [[<- <-]|[Hne Hu]].
    + split; simpl; rewrite ?Hlist, ?Hdata; try done; try congruence.
      * intros e Hin. destruct (H4 e Hin) as (c & Hc & Hp). destruct (Hold _ _ Hc) as (c' & ? & ? & ?). exists c'. split; [done|congruence].
      * intros e Hd. destruct (H5 e Hd) as [(c & Hc & Hp)|?]; [left|right; auto].
        destruct (Hold _ _ Hc) as (c' & ? & ? & ?). exists c'. split; [done|congruence].
      * intros e Hre. destruct (Hr e Hre) as [? Hc]. split; [done|]. intros c' Hc'.
        destruct (Hnew _ _ Hc') as (c & Hc0 & <-). auto.
      * intros Hlo' Hcd. apply Hadder. auto.
    + pose proof (pi_proc _ I _ _ Hu) as HU. apply (proc_frame s); simpl; try done.
      * by apply Hlu.
      * by apply Hx.
      * intros e c Hc <-. destruct (Hold _ _ Hc) as (c' & ? & ? & ?). eauto.
      * intros e c _ Hc <-. left. destruct (Hold _ _ Hc) as (c' & ? & ? & ?). eauto.
      * eauto.
      * intros k Hk. split; [by eapply Hadd|]. intros e c' Hc'. destruct (Hnew _ _ Hc') as (c & Hc & <-).
        destruct (po_add _ _ _ HU k Hk) as (_ & _ & Hno). eauto.
      * intros Hlo' Hcd. apply Hadder. by apply (po_load _ _ _ HU).
      * apply I.
  - intros e c Hc. destruct (decide (e = e0)) as [->|]; [auto|]. rewrite Hel in Hc by done. by apply quiet_link.
  - intros e c' Hc'. destruct (Hnew _ _ Hc') as (c & Hc & _). by apply (pi_elem _ I _ _ Hc).
  - intros e1 e2 c1 c2 Hc1 Hc2 Hk. destruct (Hnew _ _ Hc1) as (d1 & Hd1 & E1), (Hnew _ _ Hc2) as (d2 & Hd2 & E2).
    apply (pi_unique _ I _ _ _ _ Hd1 Hd2). congruence.
  - intros u Hu. destruct (decide (u = t)) as [->|Hne]; [rewrite lookup_insert_eq; eauto|].
    rewrite lookup_insert_ne by done. apply (pi_held _ I). by apply Hlu.
Qed.
End Move.

Definition at_pc (c : ppc) (p : process) : process :=
  mk_process c (child_list p) (child_data p) (load_sema p) (load_failed p).

(** A step of one process that no other process notices. *)
Lemma pinv_goto s t p c lock' ex' :
  pinv s -> procs s !! t = Some p ->
  starting (at_ppc p) = None -> starting c = None -> (forall e, at_ppc p ≠ WaitDone e) -> (forall e, c ≠ WaitDone e) ->
  loading c = loading (at_ppc p) -> (gone c = gone (at_ppc p) \/ child_data p = None) -> (forall st e, c ≠ ExitUp st e) ->
  (forall k, at_ppc p ≠ ExecAdd k) -> (forall k, c ≠ ExecAdd k) -> (forall k, c ≠ ExecStatus k None) ->
  (gone (at_ppc p) = true -> gone c = true) ->
  (holds c = true <-> lock' = Some t) -> (forall u, u ≠ t -> lock' = Some u <-> open_close_lock s = Some u) ->
  (forall u, u ≠ t -> ex' !! u = exits s !! u) -> (ex' !! t = exits s !! t \/ gone c = false) ->
  (forall e, waiting_for c = Some e -> e ∈ child_list p) -> (forall st, exiting c = Some st -> ex' !! t = Some st) ->
  (forall e, reporting c = Some e -> e < next_elem s /\ forall r, elems s !! e = Some r -> pid r = t) ->
  (c = ExitEnd -> child_list p = []) ->
  pinv (mk_pstate (<[t := at_pc c p]> (procs s)) (elems s) (next_pid s) (next_elem s) lock' ex' (loads s)).
Proof.
  intros I Ht H1 H2 H3 H4 H5 H6 H7 H8 H9 H10 H11 H12 H13 H14 H15 H16 H17 H18 H19.
  assert (Hfresh : elems s !! next_elem s = None).
  { destruct (elems s !! next_elem s) as [r|] eqn:Hr; [|done]. pose proof (pi_elem _ I _ _ Hr). lia. }
  apply (pinv_move s I t p (at_pc c p) Ht (elems s) lock' ex' (loads s) (next_elem s)); simpl; try done; try congruence.
  - intros e [[k [Hk|Hk]]|[Hk|Hk]]; simpl in *; [congruence|congruence|by destruct (H3 e)|by destruct (H4 e)].
  - right. auto 10.
Qed.

(** ** Steps on one record *)

(** A record and a process that is its parent or its child, at [e]. *)
Section Record.
Context (s : pstate) (I : pinv s) (t : Z) (p : process) (Ht : procs s !! t = Some p).
Context (e : Z) (c : child_list_elem) (Hc : elems s !! e = Some c).
Context (p' : process) (c' : child_list_elem) (lock' : option Z) (lo' : gmap Z bool).
Context (Hlist : child_list p' = child_list p) (Hdata : child_data p' = child_data p).
Context (Hpid : pid c' = pid c) (Hpar : parent_pid c' = parent_pid c) (Hinc : inception c' = inception c).
Context (Hlock : holds (at_ppc p') = true <-> lock' = Some t).
Context (Hlock' : forall u, u ≠ t -> lock' = Some u <-> open_close_lock s = Some u).
Let s' := mk_pstate (<[t := p']> (procs s)) (<[e := c']> (elems s)) (next_pid s) (next_elem s) lock' (exits s) lo'.

(** [t] is the parent. *)
Lemma pinv_parent :
  parent_pid c = t -> lo' = loads s ->
  (forall k e', starting (at_ppc p) = Some (k, e') -> e' = e) ->
  (forall k e', starting (at_ppc p') = Some (k, e') -> e' = e /\ k = pid c) ->
  (forall e', at_ppc p = WaitDone e' -> e' = e) -> (forall e', waiting_for (at_ppc p') = Some e' -> e' = e) ->
  loading (at_ppc p) = None -> loading (at_ppc p') = None -> gone (at_ppc p) = false -> gone (at_ppc p') = false ->
  exiting (at_ppc p') = None -> reporting (at_ppc p') = None -> (forall st e, at_ppc p' ≠ ExitUp st e) ->
  (forall k, at_ppc p' ≠ ExecStatus k None) -> (forall k, at_ppc p ≠ ExecAdd k) -> (forall k, at_ppc p' ≠ ExecAdd k) ->
  (let K := at_ppc <$> procs s !! pid c in
   link_load t e (at_ppc p) (load_sema p) K c (loads s !! pid c) ->
   link_exit e (at_ppc p) K c (exits s !! pid c) ->
   link_load t e (at_ppc p') (load_sema p') K c' (loads s !! pid c) /\ link_exit e (at_ppc p') K c' (exits s !! pid c)) ->
  pinv s'.
Proof.
  intros Hp Hlo S1 S2 W1 W2 L1 L2 G1 G2 X1 X2 X3 N1 N2 N3 Hlk.
  destruct (pi_link _ I _ _ Hc) as (q & Hq & Hin & Hi & Hne & Hlt & Hd & Hl & Hx).
  assert (q = p) as -> by congruence. rewrite Hp in Hl. destruct (Hlk Hl Hx) as [Hl' Hx'].
  assert (Hin' : forall e', e' = e -> e' ∈ child_list p) by (by intros ? ->).
  apply (pinv_move s I t p p' Ht _ lock' (exits s) lo' e); try done; subst lo'; try done.
  - intros e' He'. by rewrite lookup_insert_ne.
  - intros c0 Hc0. assert (c0 = c) as -> by congruence. exists c'. by rewrite lookup_insert_eq.
  - intros c0 Hc0. rewrite lookup_insert_eq in Hc0. injection Hc0 as <-. eauto.
  - intros e' [[k [Hk|Hk]]|[Hk|Hk]]; [eauto|by destruct (S2 _ _ Hk)|eauto|apply W2; by rewrite Hk].
  - right. rewrite L1, L2, G1, G2. auto 10.
  - intros c0 Hc0. rewrite lookup_insert_eq in Hc0. injection Hc0 as <-.
    apply (link_intro _ e c' p'); simpl; rewrite ?Hpar, ?Hp, ?Hpid, ?Hinc, ?lookup_insert_eq; rewrite ?lookup_insert_ne by congruence; try done; try congruence.
  - intros k e' Hk. destruct (S2 _ _ Hk) as [-> ->]. split; [by apply Hin'|]. intros c0 Hc0.
    rewrite lookup_insert_eq in Hc0. by injection Hc0 as <-.
  - eauto.
  - congruence.
  - congruence.
  - congruence.
  - intros E. by rewrite E in G2.
Qed.

(** [t] is the child. *)
Lemma pinv_child :
  pid c = t -> (forall u, u ≠ t -> lo' !! u = loads s !! u) ->
  starting (at_ppc p) = None -> starting (at_ppc p') = None ->
  waiting_for (at_ppc p) = None -> waiting_for (at_ppc p') = None ->
  (forall st, exiting (at_ppc p') = Some st -> exiting (at_ppc p) = Some st) ->
  (forall e', reporting (at_ppc p') = Some e' -> e' = e) ->
  (forall k, at_ppc p' ≠ ExecStatus k None) -> (forall k, at_ppc p ≠ ExecAdd k) -> (forall k, at_ppc p' ≠ ExecAdd k) ->
  gone (at_ppc p) = false -> (loading (at_ppc p') ≠ None -> loading (at_ppc p) ≠ None) -> at_ppc p' ≠ ExitEnd ->
  (forall q, procs s !! parent_pid c = Some q -> e ∈ child_list q ->
   link_load (parent_pid c) e (at_ppc q) (load_sema q) (Some (at_ppc p)) c (loads s !! t) ->
   link_exit e (at_ppc q) (Some (at_ppc p)) c (exits s !! t) ->
   link_load (parent_pid c) e (at_ppc q) (load_sema q) (Some (at_ppc p')) c' (lo' !! t) /\
   link_exit e (at_ppc q) (Some (at_ppc p')) c' (exits s !! t)) ->
  pinv s'.
Proof.
  intros Hp Hlo S1 S2 W1 W2 X1 X2 N1 N2 N3 G1 L1 N4 Hlk.
  destruct (pi_link _ I _ _ Hc) as (q & Hq & Hin & Hi & Hne & Hlt & Hd & Hl & Hx).
  rewrite Hp, Ht in Hl, Hx. destruct (Hlk q Hq Hin Hl Hx) as [Hl' Hx'].
  apply (pinv_move s I t p p' Ht _ lock' (exits s) lo' e); try done.
  - intros e' He'. by rewrite lookup_insert_ne.
  - intros c0 Hc0. assert (c0 = c) as -> by congruence. exists c'. by rewrite lookup_insert_eq.
  - intros c0 Hc0. rewrite lookup_insert_eq in Hc0. injection Hc0 as <-. eauto.
  - intros e' [[k [Hk|Hk]]|[Hk|Hk]]; [congruence|congruence|by rewrite Hk in W1|by rewrite Hk in W2].
  - left. eauto.
  - intros c0 Hc0. rewrite lookup_insert_eq in Hc0. injection Hc0 as <-.
    apply (link_intro _ e c' q); simpl; rewrite ?Hpar, ?Hpid, ?Hinc, ?Hp, ?lookup_insert_eq; try done; try congruence.
    + rewrite lookup_insert_ne by congruence. done.
    + intros pk [= <-]. rewrite Hdata. apply Hd. by rewrite Hp.
  - congruence.
  - congruence.
  - intros st Hst. apply (po_exit _ _ _ (pi_proc _ I _ _ Ht)). auto.
  - intros e' He'. rewrite (X2 _ He'). split; [by apply (pi_elem _ I _ _ Hc)|]. congruence.
  - congruence.
Qed.
End Record.

(** ** Steps on several processes *)

(** The last step of a process. *)
Lemma pinv_end s t p :
  pinv s -> procs s !! t = Some p -> at_ppc p = ExitEnd -> pinv (set_procs (delete t (procs s)) s).
Proof.
  intros I Ht Hp. pose proof (pi_proc _ I _ _ Ht) as Pt. pose proof (po_end _ _ _ Pt Hp) as Hnil.
  assert (Hdel : forall u q, delete t (procs s) !! u = Some q <-> u ≠ t /\ procs s !! u = Some q).
  { intros u q. rewrite lookup_delete_Some. naive_solver. }
  split; simpl.
  - intros u q [Hne Hu]%Hdel. pose proof (pi_proc _ I _ _ Hu) as PU. apply (proc_frame s); simpl; try done; try (by eauto).
    + intros k Hk. destruct (po_add _ _ _ PU k Hk) as (_ & (pk & Hpk & Hl & Hcd) & Hno). split; [|done].
      exists pk. split; [|done]. apply Hdel. split; [|done]. intros ->. assert (pk = p) as -> by congruence. by rewrite Hp in Hl.
    + intros Hl Hcd. destruct (po_load _ _ _ PU Hl Hcd) as (t' & q' & Hq' & Ha). exists t', q'. split; [|done].
      apply Hdel. split; [|done]. intros ->. congruence.
    + apply I.
  - intros e c Hc. pose proof (pi_link _ I _ _ Hc) as HL. pose proof HL as (q & Hq & Hin & _).
    assert (parent_pid c ≠ t) as Hpt by (intros He; assert (q = p) as -> by congruence; rewrite Hnil in Hin; by apply not_elem_of_nil in Hin).
    apply (link_sim s _ e c q q); simpl; try done; [by rewrite lookup_delete_ne|split; [done|by left]| |by left].
    destruct (decide (pid c = t)) as [He|]; [|left; by rewrite lookup_delete_ne]. right. rewrite He, lookup_delete_eq.
    exists p. split; [done|]. left. by rewrite Hp.
  - apply I.
  - apply I.
  - intros u Hu. destruct (pi_held _ I _ Hu) as [q Hq]. exists q. apply Hdel. split; [|done]. intros ->.
    apply (po_lock _ _ _ Pt) in Hu. by rewrite Hp in Hu.
Qed.

(** The end of [process_wait]. *)
Lemma pinv_wait_done s t p e c :
  pinv s -> procs s !! t = Some p -> at_ppc p = WaitDone e -> elems s !! e = Some c ->
  pinv (set_elems (delete e (elems s))
    (set_procs (<[t := mk_process User (filter (fun x => x ≠ e) (child_list p)) (child_data p) (load_sema p) (load_failed p)]> (procs s)) s)).
Proof.
  intros I Ht Hp Hc. pose proof (pi_proc _ I _ _ Ht) as Pt.
  pose proof (po_wait _ _ _ Pt e ltac:(by rewrite Hp)) as Hine.
  destruct (po_own _ _ _ Pt e Hine) as (c0 & Hc0 & Hpar). assert (c0 = c) as -> by congruence.
  destruct (pi_link _ I _ _ Hc) as (q0 & Hq0 & _ & _ & _ & _ & _ & _ & Hx0).
  rewrite Hpar in Hq0. assert (q0 = p) as -> by congruence. rewrite Hp in Hx0.
  set (p' := mk_process User _ _ _ _).
  assert (Hdel : forall e' c', delete e (elems s) !! e' = Some c' <-> e' ≠ e /\ elems s !! e' = Some c').
  { intros e' c'. rewrite lookup_delete_Some. naive_solver. }
  assert (Hgone : forall pk, procs s !! pid c = Some pk -> gone (at_ppc pk) = true).
  { intros pk Hpk. rewrite Hpk in Hx0. unfold link_exit in Hx0. simpl in Hx0. destruct (gone (at_ppc pk)); [done|].
    by destruct Hx0 as (_ & ? & _). }
  split; simpl.
  - intros u q Hu. apply lookup_insert_Some in Hu as [[<- <-]|[Hne Hu]].
    + destruct Pt as [H1 H2 H3 H4 H5 H6 H7 H8 H9 H10 H11 H12 H13]. rewrite Hp in *. split; simpl; try done.
      * by apply NoDup_filter.
      * intros e' [Hne Hin]%list_elem_of_filter. destruct (H4 e' Hin) as (c' & ? & ?). exists c'. by rewrite Hdel.
      * intros e' Hd. destruct (H5 e' Hd) as [(c' & Hc' & Hk)|?]; [left|done]. exists c'. rewrite Hdel. split; [|done].
        split; [|done]. intros ->. assert (c' = c) as -> by congruence. specialize (Hgone p). rewrite Hk in Hgone.
        specialize (Hgone Ht). by rewrite Hp in Hgone.
    + pose proof (pi_proc _ I _ _ Hu) as PU. apply (proc_frame s); simpl; try done.
      * intros e' c' Hc' <-. exists c'. rewrite Hdel. split_and!; try done. intros ->. congruence.
      * intros e' c' Hd Hc' <-. destruct (decide (e' = e)) as [->|]; [right|left; exists c'; by rewrite Hdel].
        assert (c' = c) as -> by congruence. eauto.
      * intros e' c' [_ Hc']%Hdel _. eauto.
      * intros k Hk. destruct (po_add _ _ _ PU k Hk) as (_ & (pk & Hpk & Hl & Hcd) & Hno). split.
        -- destruct (decide (k = t)) as [->|]; [|exists pk; by rewrite lookup_insert_ne].
           assert (pk = p) as -> by congruence. by rewrite Hp in Hl.
        -- intros e' c' [_ Hc']%Hdel. eauto.
      * intros Hl Hcd. destruct (po_load _ _ _ PU Hl Hcd) as (t' & q' & Hq' & Ha). exists t', q'.
        rewrite lookup_insert_ne; [done|]. congruence.
      * apply I.
  - intros e' c' [Hee Hc']%Hdel. pose proof (pi_link _ I _ _ Hc') as HL.
    pose proof HL as (q & Hq & Hin & _ & Hne & _ & Hd & _ & _).
    assert (Hps : exists q', <[t := p']> (procs s) !! parent_pid c' = Some q' /\ parent_sim e' q q').
    { destruct (decide (parent_pid c' = t)) as [He|Hpt]; [|exists q; rewrite lookup_insert_ne by done; split; [done|split; [done|by left]]].
      exists p'. rewrite He, lookup_insert_eq. assert (q = p) as -> by congruence. split; [done|].
      split; [simpl; by apply list_elem_of_filter|right]. simpl. rewrite Hp. split_and!; try done. congruence. }
    destruct Hps as (q' & Hq' & Hps). apply (link_sim s _ e' c' q q'); simpl; try done; [|by left].
    destruct (decide (pid c' = t)) as [He|]; [|left; by rewrite lookup_insert_ne]. right. rewrite He in *. rewrite lookup_insert_eq.
    exists p. split; [done|right]. exists p'. rewrite Hp. simpl. split_and!; auto.
  - intros e' c' [_ Hc']%Hdel. by eapply pi_elem.
  - intros e1 e2 c1 c2 [_ H1]%Hdel [_ H2]%Hdel. by eapply pi_unique.
  - intros u Hu. rewrite lookup_insert_is_Some'. right. by apply (pi_held _ I).
Qed.

(** What the invariant says of a process that has recorded the outcome of [load]. *)
Lemma loaded_child s t p ok :
  pinv s -> procs s !! t = Some p -> loading (at_ppc p) = Some ok -> holds (at_ppc p) = true \/ ok ≠ None ->
  exists e c q, child_data p = Some e /\ elems s !! e = Some c /\ pid c = t /\ parent_pid c ≠ t /\
    procs s !! parent_pid c = Some q /\ at_ppc q = ExecDown t e /\ load_sema q = Some 0 /\ load_status c = Some (parent_pid c) /\
    match ok with Some b => loads s !! t = Some b /\ mom_im_out_of_money c = negb b | None => mom_im_out_of_money c = false end.
Proof.
  intros I Ht Hl Hh. pose proof (pi_proc _ I _ _ Ht) as Pt.
  assert (Hne : forall u q, procs s !! u = Some q -> u ≠ t -> holds (at_ppc q) = true -> holds (at_ppc p) = true -> False).
  { intros u q Hu Hut Hq Hpp. apply (po_lock _ _ _ (pi_proc _ I _ _ Hu)) in Hq. apply (po_lock _ _ _ Pt) in Hpp. congruence. }
  destruct (child_data p) as [e|] eqn:Hd.
  2: { destruct (po_load _ _ _ Pt) as (t' & q & Hq & Ha); [congruence|done|].
       destruct (po_add _ _ _ (pi_proc _ I _ _ Hq) t Ha) as (Htt & (pk & Hpk & Hlk & _) & _).
       assert (pk = p) as -> by congruence. exfalso.
       destruct Hh as [Hh|Hh]; [|congruence]. apply (Hne t' q Hq); [congruence|by rewrite Ha|done]. }
  destruct (po_data _ _ _ Pt e Hd) as [(c & Hc & Hk)|Hg]; [|destruct (at_ppc p); done].
  destruct (pi_link _ I _ _ Hc) as (q & Hq & _ & _ & Hpq & _ & _ & Hlo & _).
  rewrite Hk, Ht in Hlo. unfold link_load in Hlo. simpl in Hlo. rewrite Hl, Hk in Hlo.
  exists e, c, q. destruct ok as [b|].
  - destruct Hlo as (? & ? & ? & ? & ?). split_and!; try done. congruence.
  - destruct Hh as [Hh|]; [|done].
    destruct Hlo as (Hmom & [[E _]|(? & ? & [E|E])]); [exfalso..|].
    + apply (Hne _ q Hq); [congruence|by rewrite E|done].
    + apply (Hne _ q Hq); [congruence|by rewrite E|done].
    + split_and!; try done. congruence.
Qed.

(** The child wakes its parent up from [process_execute]. *)
Section Wake.
Context (s : pstate) (I : pinv s) (t : Z) (p : process) (ok : bool) (e : Z) (c : child_list_elem) (q : Z) (Q : process).
Context (Ht : procs s !! t = Some p) (Hp : at_ppc p = LoadUp ok) (Hcd : child_data p = Some e).
Context (Hc : elems s !! e = Some c) (Hk : pid c = t) (Hpar : parent_pid c = q).
Context (Hq : procs s !! q = Some Q) (HQ : at_ppc Q = ExecDown t e).
Context (pc' : ppc) (lf : bool) (ex' : gmap Z Z).
Context (Hpc : (pc' = User /\ ex' = exits s) \/ (exists st, pc' = ExitLock st /\ ex' = <[t := st]> (exits s))).
Let p' := mk_process pc' (child_list p) (child_data p) (load_sema p) lf.
Let Q' := mk_process (at_ppc Q) (child_list Q) (child_data Q) (Some 1) (load_failed Q).
Let s' := set_exits ex' (set_procs (<[t := p']> (<[q := Q']> (procs s))) s).

Lemma wake_pc : loading pc' = None /\ holds pc' = false /\ gone pc' = false /\ starting pc' = None /\ waiting_for pc' = None /\ reporting pc' = None.
Proof. by destruct Hpc as [[-> _]|(st & -> & _)]. Qed.

Lemma wake_ne : t ≠ q.
Proof. destruct (pi_link _ I _ _ Hc) as (r & _ & _ & _ & Hne & _). congruence. Qed.

Lemma wake_exits u : u ≠ t -> ex' !! u = exits s !! u.
Proof. intros Hu. destruct Hpc as [[_ ->]|(st & _ & ->)]; [done|]. by rewrite lookup_insert_ne. Qed.

Lemma wake_link e' d : elems s !! e' = Some d -> e' ≠ e -> link s' e' d.
Proof.
  intros Hd Hee. destruct wake_pc as (E1 & E2 & E3 & E4 & E5 & E6). pose proof wake_ne as Hne.
  pose proof (pi_link _ I _ _ Hd) as Hlk. pose proof Hlk as (r & Hr & Hin & _ & _ & _ & Hdd & _ & _).
  assert (Hpt : pid d ≠ t) by (intros He; destruct Hee; apply (pi_unique _ I _ _ _ _ Hd Hc); congruence).
  assert (Hps : exists r', procs s' !! parent_pid d = Some r' /\ parent_sim e' r r').
  { simpl. destruct (decide (parent_pid d = t)) as [He|]; [|destruct (decide (parent_pid d = q)) as [He|]].
    - exists p'. rewrite He, lookup_insert_eq. assert (r = p) as -> by congruence. split; [done|]. split; [done|right]. simpl.
      rewrite Hp, E4. split_and!; try done. intros E. by rewrite E in E5.
    - exists Q'. rewrite He, lookup_insert_ne, lookup_insert_eq by done. assert (r = Q) as -> by congruence.
      split; [done|]. split; [done|right]. simpl. rewrite HQ. split_and!; try done; intros k [= _ E]; congruence.
    - exists r. rewrite !lookup_insert_ne by done. split; [done|]. split; [done|by left]. }
  destruct Hps as (r' & Hr' & Hps). apply (link_sim s _ e' d r r'); simpl; try done; [|left; by apply wake_exits].
  rewrite lookup_insert_ne by done. destruct (decide (pid d = q)) as [E|]; [|left; by rewrite lookup_insert_ne].
  right. rewrite E in *. rewrite lookup_insert_eq. exists Q. split; [done|right]. exists Q'. split; [done|]. simpl. split_and!; auto.
Qed.

Lemma wake_link_self : link s' e c.
Proof.
  destruct wake_pc as (E1 & E2 & E3 & _). pose proof wake_ne as Hne.
  destruct (pi_link _ I _ _ Hc) as (Q0 & HQ0 & Hin0 & Hinc & Hnp & Hlt & Hd0 & Hl0 & Hx0).
  rewrite Hpar, Hk, ?Ht in *. assert (Q0 = Q) as -> by congruence.
  apply (link_intro _ e c Q'); simpl; rewrite ?Hpar, ?Hk; try done; rewrite ?lookup_insert_eq.
  - rewrite lookup_insert_ne by done. by rewrite lookup_insert_eq.
  - by intros pk [= <-].
  - unfold link_load in *. simpl in *. rewrite Hp in Hl0. rewrite E1. simpl in Hl0.
    destruct Hl0 as (_ & _ & _ & -> & ->). right. rewrite negb_involutive, Hk. split; [done|]. by left.
  - unfold link_exit in *. simpl in *. rewrite Hp in Hx0. rewrite E3. simpl in Hx0.
    destruct Hx0 as (? & ? & _). split_and!; try done. intros st ->. by destruct Hpc as [[? _]|(st' & ? & _)].
Qed.

Lemma wake_proc u r : procs s' !! u = Some r -> proc_ok s' u r.
Proof.
  destruct wake_pc as (E1 & E2 & E3 & E4 & E5 & E6). pose proof wake_ne as Hne. pose proof (pi_proc _ I) as PI.
  assert (Hexc : forall k, pc' ≠ ExecAdd k /\ pc' ≠ ExecStatus k None /\ pc' ≠ ExitEnd) by (by destruct Hpc as [[-> _]|(st & -> & _)]).
  intros Hu. simpl in Hu. apply lookup_insert_Some in Hu as [[<- <-]|[Hut Hu]].
  { destruct (PI _ _ Ht) as [H1 H2 H3 H4 H5 H6 H7 H8 H9 H10 H11 H12 H13]. rewrite Hp in *. split; simpl; try done; try congruence.
    - by rewrite E2, <- H2.
    - intros e' He'. destruct (H5 e' He') as [?|?]; [by left|done].
    - intros st Hst. destruct Hpc as [[-> _]|(st' & -> & ->)]; [done|]. rewrite lookup_insert_eq. simpl in Hst. congruence.
    - intros k Hk'. by destruct (Hexc k) as (? & _).
    - intros k Hk'. by destruct (Hexc k) as (_ & ? & _).
    - intros Hk'. by destruct (Hexc 0) as (_ & _ & ?). }
  apply lookup_insert_Some in Hu as [[<- <-]|[Huq Hu]].
  { destruct (PI _ _ Hq) as [H1 H2 H3 H4 H5 H6 H7 H8 H9 H10 H11 H12 H13]. rewrite HQ in *. split; simpl; rewrite ?HQ; done. }
  pose proof (PI _ _ Hu) as PU. apply (proc_frame s); simpl; try done; try (by eauto).
  - by apply wake_exits.
  - intros k Ha. destruct (po_add _ _ _ PU k Ha) as (_ & (pk & Hpk & Hlk & Hcdk) & Hno). split; [|done].
    exists pk. rewrite !lookup_insert_ne; [done| |]; intros ->.
    + assert (pk = Q) as -> by congruence. by rewrite HQ in Hlk.
    + assert (pk = p) as -> by congruence. by rewrite Hp in Hlk.
  - intros Hl Hcd'. destruct (po_load _ _ _ PU Hl Hcd') as (t' & q' & Hq' & Ha). exists t', q'.
    rewrite !lookup_insert_ne; [done|congruence|congruence].
  - apply I.
Qed.

Lemma pinv_load_up : pinv s'.
Proof.
  split; [apply wake_proc| |apply I|apply I|].
  - intros e' d Hd. destruct (decide (e' = e)) as [->|]; [|by apply wake_link].
    simpl in Hd. assert (d = c) as -> by congruence. apply wake_link_self.
  - intros u Hu. simpl. rewrite !lookup_insert_is_Some'. right. right. by apply (pi_held _ I).
Qed.
End Wake.

(** An exiting parent frees a record of a child that is still there. *)
Section Orphan.
Context (s : pstate) (I : pinv s) (t : Z) (p : process) (e : Z) (es : list Z) (c : child_list_elem) (k : process).
Context (Ht : procs s !! t = Some p) (Hp : at_ppc p = ExitOrphans) (Hes : child_list p = e :: es).
Context (Hc : elems s !! e = Some c) (Hk : procs s !! pid c = Some k).
Let p' := mk_process (at_ppc p) es (child_data p) (load_sema p) (load_failed p).
Let k' := mk_process (at_ppc k) (child_list k) None (load_sema k) (load_failed k).
Let s' := set_elems (delete e (elems s)) (set_procs (<[pid c := k']> (<[t := p']> (procs s))) s).

Lemma orphan_facts : parent_pid c = t /\ pid c ≠ t /\ loading (at_ppc k) = None /\ NoDup (e :: es).
Proof.
  pose proof (pi_proc _ I _ _ Ht) as Pt. destruct (po_own _ _ _ Pt e) as (c0 & Hc0 & Hpar); [rewrite Hes; by left|].
  assert (c0 = c) as -> by congruence. pose proof (po_nodup _ _ _ Pt) as Hnd. rewrite Hes in Hnd.
  destruct (pi_link _ I _ _ Hc) as (q & Hq & _ & _ & Hne & _ & _ & Hl & _). assert (q = p) as -> by congruence.
  split_and!; [done|congruence| |done]. unfold link_load in Hl. rewrite Hk, Hp in Hl. simpl in Hl.
  destruct (loading (at_ppc k)) as [[b|]|]; [by destruct Hl as (_ & _ & ? & _)| |done].
  by destruct Hl as [_ [[? _]|(_ & _ & [?|?])]].
Qed.

Lemma orphan_elems e' d : delete e (elems s) !! e' = Some d <-> e' ≠ e /\ elems s !! e' = Some d.
Proof. rewrite lookup_delete_Some. naive_solver. Qed.

Lemma orphan_link e' d : elems s' !! e' = Some d -> link s' e' d.
Proof.
  destruct orphan_facts as (Hpar & Hne & Hlk & Hnd). simpl. intros [Hee Hd]%orphan_elems.
  pose proof (pi_link _ I _ _ Hd) as HL. pose proof HL as (r & Hr & Hin & _ & _ & _ & Hdd & _ & _).
  assert (Hpk : pid d ≠ pid c) by (intros E; destruct Hee; by apply (pi_unique _ I _ _ _ _ Hd Hc)).
  assert (Hps : exists r', procs s' !! parent_pid d = Some r' /\ parent_sim e' r r').
  { simpl. destruct (decide (parent_pid d = pid c)) as [E|]; [|destruct (decide (parent_pid d = t)) as [E|]].
    - exists k'. rewrite E, lookup_insert_eq. assert (r = k) as -> by congruence. split; [done|]. split; [done|by left].
    - exists p'. rewrite E, lookup_insert_ne, lookup_insert_eq by done. assert (r = p) as -> by congruence.
      split; [done|]. split; [|by left]. simpl. rewrite Hes in Hin. by apply elem_of_cons in Hin as [?|?].
    - exists r. rewrite !lookup_insert_ne by done. split; [done|]. split; [done|by left]. }
  destruct Hps as (r' & Hr' & Hps). apply (link_sim s _ e' d r r'); simpl; try done; [|by left].
  rewrite lookup_insert_ne by done. destruct (decide (pid d = t)) as [E|]; [|left; by rewrite lookup_insert_ne].
  right. rewrite E in *. rewrite lookup_insert_eq. exists p. split; [done|right]. exists p'. split; [done|]. simpl.
  split_and!; auto.
Qed.

Lemma orphan_proc u r : procs s' !! u = Some r -> proc_ok s' u r.
Proof.
  destruct orphan_facts as (Hpar & Hne & Hlk & Hnd). pose proof (pi_proc _ I) as PI.
  assert (Hown : forall e' d, elems s !! e' = Some d -> parent_pid d ≠ t -> delete e (elems s) !! e' = Some d).
  { intros e' d Hd Hpd. apply orphan_elems. split; [|done]. intros ->. congruence. }
  assert (Hpid : forall e' d, elems s !! e' = Some d -> pid d ≠ pid c -> delete e (elems s) !! e' = Some d).
  { intros e' d Hd Hpd. apply orphan_elems. split; [|done]. intros ->. congruence. }
  assert (Hadd : forall j, (exists pk, procs s !! j = Some pk /\ loading (at_ppc pk) = Some None /\ child_data pk = None) ->
    exists pk, <[pid c := k']> (<[t := p']> (procs s)) !! j = Some pk /\ loading (at_ppc pk) = Some None /\ child_data pk = None).
  { intros j (pk & Hpk & Hl & Hd). exists pk. rewrite !lookup_insert_ne; [done| |]; intros E.
    - assert (pk = p) as -> by congruence. by rewrite Hp in Hl.
    - assert (pk = k) as -> by congruence. congruence. }
  assert (Hadder : forall u, (exists t' q', procs s !! t' = Some q' /\ at_ppc q' = ExecAdd u) ->
    exists t' q', <[pid c := k']> (<[t := p']> (procs s)) !! t' = Some q' /\ at_ppc q' = ExecAdd u).
  { intros j (t' & q' & Hq' & Ha). destruct (decide (t' = pid c)) as [->|].
    - exists (pid c), k'. rewrite lookup_insert_eq. split; [done|]. simpl. congruence.
    - exists t', q'. rewrite !lookup_insert_ne; [done|congruence|done]. }
  intros Hu. simpl in Hu. apply lookup_insert_Some in Hu as [[<- <-]|[Huk Hu]].
  { destruct (PI _ _ Hk) as [H1 H2 H3 H4 H5 H6 H7 H8 H9 H10 H11 H12 H13]. split; simpl; try done.
    - intros e' Hin. destruct (H4 e' Hin) as (d & Hd & Hpd). exists d. split; [|done]. apply Hown; [done|congruence].
    - intros j e' Hst. destruct (H6 _ _ Hst) as [? Hc']. split; [done|]. intros d [_ Hd]%orphan_elems. eauto.
    - intros e' Hr. destruct (H9 _ Hr) as [? Hc']. split; [done|]. intros d [_ Hd]%orphan_elems. eauto.
    - intros j Ha. destruct (H10 j Ha) as (? & Hx & Hno). split_and!; [done|by apply Hadd|]. intros e' d [_ Hd]%orphan_elems. eauto. }
  apply lookup_insert_Some in Hu as [[<- <-]|[Hut Hu]].
  { destruct (PI _ _ Ht) as [H1 H2 H3 H4 H5 H6 H7 H8 H9 H10 H11 H12 H13]. rewrite Hes in *. rewrite Hp in *.
    apply NoDup_cons in Hnd as [Hnin Hnd]. split; simpl; rewrite ?Hp; try done.
    - intros e' Hin. destruct (H4 e') as (d & Hd & Hpd); [by right|]. exists d. split; [|done]. apply orphan_elems.
      split; [|done]. by intros ->.
    - intros e' Hd. by right. }
  pose proof (PI _ _ Hu) as PU. apply (proc_frame s); simpl; try done.
  - intros e' d Hd <-. exists d. split; [|done]. by apply Hown.
  - intros e' d _ Hd <-. left. exists d. split; [|done]. by apply Hpid.
  - intros e' d [_ Hd]%orphan_elems _. eauto.
  - intros j Ha. destruct (po_add _ _ _ PU j Ha) as (_ & Hx & Hno). split; [by apply Hadd|]. intros e' d [_ Hd]%orphan_elems. eauto.
  - intros Hl Hcd. apply Hadder. by apply (po_load _ _ _ PU).
  - apply I.
Qed.

Lemma pinv_orphan : pinv s'.
Proof.
  split; [apply orphan_proc|apply orphan_link| | |].
  - simpl. intros e' d [_ Hd]%orphan_elems. by eapply pi_elem.
  - simpl. intros e1 e2 c1 c2 [_ H1]%orphan_elems [_ H2]%orphan_elems. by eapply pi_unique.
  - intros u Hu. simpl. rewrite !lookup_insert_is_Some'. right. right. by apply (pi_held _ I).
Qed.
End Orphan.

(** [thread_create] inside [process_execute]. *)
Section Create.
Context (s : pstate) (I : pinv s) (t : Z) (p : process) (Ht : procs s !! t = Some p) (Hp : at_ppc p = ExecCreate).
Let k := next_pid s.
Let p' := at_pc (ExecAdd k) p.
Let new := mk_process LoadStart [] None None false.
Let s' := set_next_pid (k + 1) (set_procs (<[t := p']> (<[k := new]> (procs s))) s).

Lemma create_fresh : procs s !! k = None /\ t ≠ k /\ (forall e c, elems s !! e = Some c -> pid c < k) /\ 0 < k.
Proof.
  pose proof (po_pid _ _ _ (pi_proc _ I _ _ Ht)) as Hb. unfold k. split_and!; [|lia| |lia].
  - destruct (procs s !! next_pid s) as [q|] eqn:Hq; [|done]. pose proof (po_pid _ _ _ (pi_proc _ I _ _ Hq)). lia.
  - intros e c Hc. by destruct (pi_link _ I _ _ Hc) as (q & _ & _ & _ & _ & ? & _).
Qed.

Lemma create_link e c : elems s' !! e = Some c -> link s' e c.
Proof.
  destruct create_fresh as (Hf & Hne & Hlt & _). simpl. intros Hc.
  pose proof (pi_link _ I _ _ Hc) as HL. pose proof HL as (r & Hr & Hin & _ & _ & _ & Hdd & _ & _).
  pose proof (Hlt _ _ Hc) as Hck.
  assert (Hps : exists r', procs s' !! parent_pid c = Some r' /\ parent_sim e r r').
  { simpl. destruct (decide (parent_pid c = t)) as [E|].
    - exists p'. rewrite E, lookup_insert_eq. assert (r = p) as -> by congruence. split; [done|]. split; [done|right].
      simpl. by rewrite Hp.
    - exists r. rewrite !lookup_insert_ne; [split; [done|]; split; [done|by left]|congruence|done]. }
  destruct Hps as (r' & Hr' & Hps). apply (link_sim s _ e c r r'); simpl; try done; [|unfold k; lia|by left].
  destruct (decide (pid c = t)) as [E|]; [|left; rewrite !lookup_insert_ne by (unfold k in *; lia || done); done].
  right. rewrite E in *. rewrite lookup_insert_eq. exists p. split; [done|right]. exists p'. simpl. rewrite Hp. split_and!; auto.
Qed.

Lemma create_proc u r : procs s' !! u = Some r -> proc_ok s' u r.
Proof.
  destruct create_fresh as (Hf & Hne & Hlt & Hpos). pose proof (pi_proc _ I) as PI.
  assert (Hlock : open_close_lock s = Some t) by (apply (po_lock _ _ _ (PI _ _ Ht)); by rewrite Hp).
  intros Hu. simpl in Hu. apply lookup_insert_Some in Hu as [[<- <-]|[Hut Hu]].
  { destruct (PI _ _ Ht) as [H1 H2 H3 H4 H5 H6 H7 H8 H9 H10 H11 H12 H13]. rewrite Hp in *. split; simpl; try done; try lia.
    intros j [= <-]. split_and!; [congruence| |].
      + exists new. by rewrite lookup_insert_ne, lookup_insert_eq.
      + intros e c Hc. pose proof (Hlt _ _ Hc). lia. }
  apply lookup_insert_Some in Hu as [[<- <-]|[Huk Hu]].
  { split; simpl; try done; try lia.
    - rewrite Hlock. split; [done|congruence].
    - constructor.
    - by intros e ?%not_elem_of_nil.
    - intros _ _. exists t, p'. by rewrite lookup_insert_eq. }
  pose proof (PI _ _ Hu) as PU. apply (proc_frame s); simpl; try done; try (by eauto).
  - unfold k. lia.
  - intros j Ha. assert (holds (at_ppc r) = true) as Hh by (by rewrite Ha). apply (po_lock _ _ _ PU) in Hh. congruence.
  - intros Hl Hcd. destruct (po_load _ _ _ PU Hl Hcd) as (t' & q' & Hq' & Ha). exists t', q'.
    rewrite !lookup_insert_ne; [done|congruence|congruence].
  - apply I.
Qed.

Lemma pinv_create : pinv s'.
Proof.
  split; [apply create_proc|apply create_link|apply I|apply I|].
  intros u Hu. simpl. rewrite !lookup_insert_is_Some'. right. right. by apply (pi_held _ I).
Qed.
End Create.

(** [add_child_to_list] inside [process_execute]. *)
Section Add.
Context (s : pstate) (I : pinv s) (t : Z) (p : process) (k : Z) (K : process).
Context (Ht : procs s !! t = Some p) (Hp : at_ppc p = ExecAdd k) (Hk : procs s !! k = Some K).
Let e := next_elem s.
Let c := mk_child k t None false PROCESS_RUNNING 0 None k.
Let K' := mk_process (at_ppc K) (child_list K) (Some e) (load_sema K) (load_failed K).
Let p' := mk_process (ExecStatus k (Some e)) (child_list p ++ [e]) (child_data p) (load_sema p) (load_failed p).
Let s' := set_next_elem (e + 1) (set_elems (<[e := c]> (elems s)) (set_procs (<[t := p']> (<[k := K']> (procs s))) s)).

Lemma add_facts : k ≠ t /\ loading (at_ppc K) = Some None /\ child_data K = None /\ (forall e c, elems s !! e = Some c -> pid c ≠ k) /\
  elems s !! e = None /\ open_close_lock s = Some t.
Proof.
  pose proof (pi_proc _ I _ _ Ht) as Pt. destruct (po_add _ _ _ Pt k Hp) as (Hne & (pk & Hpk & Hl & Hd) & Hno).
  assert (pk = K) as -> by congruence. split_and!; try done.
  - unfold e. destruct (elems s !! next_elem s) as [r|] eqn:Hr; [|done]. pose proof (pi_elem _ I _ _ Hr). lia.
  - apply (po_lock _ _ _ Pt). by rewrite Hp.
Qed.

Lemma add_elems e' d : elems s' !! e' = Some d <-> (e' = e /\ d = c) \/ elems s !! e' = Some d.
Proof.
  destruct add_facts as (_ & _ & _ & _ & Hf & _). simpl. rewrite lookup_insert_Some. split; [naive_solver|].
  intros [[-> ->]|Hd]; [by left|right]. split; [congruence|done].
Qed.

Lemma add_link_new : link s' e c.
Proof.
  destruct add_facts as (Hne & Hl & Hd & Hno & Hf & _).
  pose proof (po_pid _ _ _ (pi_proc _ I _ _ Hk)).
  apply (link_intro _ e c p'); simpl; try done; try lia; rewrite ?lookup_insert_eq; rewrite ?lookup_insert_ne by congruence; rewrite ?lookup_insert_eq.
  - done.
  - apply elem_of_app. right. by apply list_elem_of_singleton.
  - by intros pk [= <-].
  - unfold link_load. simpl. rewrite Hl. split; [done|]. by left.
  - unfold link_exit. simpl. assert (gone (at_ppc K) = false) as -> by (destruct (at_ppc K); done).
    split_and!; [done..|]. intros st E. by rewrite E in Hl.
Qed.

Lemma add_link_old e' d : elems s !! e' = Some d -> link s' e' d.
Proof.
  destruct add_facts as (Hne & Hl & Hd & Hno & Hf & _). intros Hed.
  pose proof (pi_link _ I _ _ Hed) as HL. pose proof HL as (r & Hr & Hin & _ & _ & _ & Hdd & _ & _).
  assert (Hee : e' ≠ e) by congruence.
  assert (Hps : exists r', procs s' !! parent_pid d = Some r' /\ parent_sim e' r r').
  { simpl. destruct (decide (parent_pid d = t)) as [E|]; [|destruct (decide (parent_pid d = k)) as [E|]].
    - exists p'. rewrite E, lookup_insert_eq. assert (r = p) as -> by congruence. split; [done|].
      split; [apply elem_of_app; by left|right]. simpl. rewrite Hp. split_and!; try done. intros j [= _ E']. congruence.
    - exists K'. rewrite E, lookup_insert_ne, lookup_insert_eq by done. assert (r = K) as -> by congruence.
      split; [done|]. split; [done|by left].
    - exists r. rewrite !lookup_insert_ne by done. split; [done|]. split; [done|by left]. }
  destruct Hps as (r' & Hr' & Hps). apply (link_sim s _ e' d r r'); simpl; try done; [|by left].
  pose proof (Hno _ _ Hed) as Hdk.
  destruct (decide (pid d = t)) as [E|]; [|left; by rewrite !lookup_insert_ne].
  right. rewrite E in *. rewrite lookup_insert_eq. exists p. split; [done|right]. exists p'. simpl. rewrite Hp. split_and!; auto.
Qed.

Lemma add_proc u r : procs s' !! u = Some r -> proc_ok s' u r.
Proof.
  destruct add_facts as (Hne & Hl & Hd & Hno & Hf & Hlock). pose proof (pi_proc _ I) as PI.
  assert (Hold : forall e' d, elems s !! e' = Some d -> elems s' !! e' = Some d) by (intros; apply add_elems; by right).
  assert (Hback : forall e' d, elems s' !! e' = Some d -> e' ≠ e -> elems s !! e' = Some d).
  { intros e' d Hed Hee. by apply add_elems in Hed as [[? _]|?]. }
  assert (Hown : forall u q e', procs s !! u = Some q -> e' ∈ child_list q -> e' ≠ e).
  { intros v q e' Hv Hin ->. destruct (po_own _ _ _ (PI _ _ Hv) e Hin) as (d & ? & _). congruence. }
  assert (Hself : elems s' !! e = Some c) by (apply add_elems; by left).
  intros Hu. simpl in Hu. apply lookup_insert_Some in Hu as [[<- <-]|[Hut Hu]].
  { destruct (PI _ _ Ht) as [H1 H2 H3 H4 H5 H6 H7 H8 H9 H10 H11 H12 H13]. rewrite Hp in *. split; simpl; try done.
    - apply NoDup_app. split_and!; [done| |apply NoDup_singleton]. intros e' Hin ->%list_elem_of_singleton. by apply (Hown t p e).
    - intros e' [Hin| ->%list_elem_of_singleton]%elem_of_app; [|by exists c]. destruct (H4 e' Hin) as (d & ? & ?). eauto.
    - intros e' Hd'. destruct (H5 e' Hd') as [(d & ? & ?)|?]; [left; eauto|done].
    - intros j e' [= <- <-]. split; [apply elem_of_app; right; by apply list_elem_of_singleton|]. intros d Hed.
      rewrite lookup_insert_eq in Hed. by injection Hed as <-. }
  assert (Hu' : proc_ok s' u r \/ (u ≠ k /\ procs s !! u = Some r)).
  { apply lookup_insert_Some in Hu as [[<- <-]|[Huk Hu]]; [left|by right].
    destruct (PI _ _ Hk) as [H1 H2 H3 H4 H5 H6 H7 H8 H9 H10 H11 H12 H13].
    assert (Hpc : starting (at_ppc K) = None /\ waiting_for (at_ppc K) = None /\ reporting (at_ppc K) = None /\ forall j, at_ppc K ≠ ExecAdd j).
    { by destruct (at_ppc K). }
    destruct Hpc as (P1 & P2 & P3 & P4). split; simpl; try done; try congruence.
    - intros e' Hin. destruct (H4 e' Hin) as (d & ? & ?). eauto.
    - intros e' [= <-]. left. by exists c. }
  destruct Hu' as [?|[Huk Hu']]; [done|]. pose proof (PI _ _ Hu') as PU. apply (proc_frame s); simpl; try done.
  - unfold e. lia.
  - intros e' d Hed <-. exists d. auto.
  - intros e' d _ Hed <-. left. exists d. auto.
  - intros e' d Hed Hlt. exists d. split; [|done]. apply Hback; [done|]. unfold e. lia.
  - intros j Ha. assert (holds (at_ppc r) = true) as Hh by (by rewrite Ha). apply (po_lock _ _ _ PU) in Hh. congruence.
  - intros Hlo Hcd. destruct (po_load _ _ _ PU Hlo Hcd) as (t' & q' & Hq' & Ha). exfalso.
    assert (holds (at_ppc q') = true) as Hh by (by rewrite Ha). apply (po_lock _ _ _ (PI _ _ Hq')) in Hh.
    assert (t' = t) as -> by congruence. assert (q' = p) as -> by congruence. congruence.
  - apply I.
Qed.

Lemma pinv_add : pinv s'.
Proof.
  destruct add_facts as (Hne & Hl & Hd & Hno & Hf & Hlock).
  split; [apply add_proc| | | |].
  - intros e' d [[-> ->]|Hed]%add_elems; [apply add_link_new|by apply add_link_old].
  - intros e' d [[-> ->]|Hed]%add_elems; simpl; [lia|]. pose proof (pi_elem _ I _ _ Hed). unfold e. lia.
  - intros e1 e2 c1 c2 [[-> ->]|H1]%add_elems [[-> ->]|H2]%add_elems Hpid; simpl in *; [done| | |by apply (pi_unique _ I _ _ _ _ H1 H2)].
    + by destruct (Hno _ _ H2).
    + by destruct (Hno _ _ H1).
  - intros u Hu. simpl. rewrite !lookup_insert_is_Some'. right. right. by apply (pi_held _ I).
Qed.
End Add.

(** * Every step *)

Lemma wp_change f s (Q : unit -> pstate -> Prop) : Q tt (f s) -> wp (change f) s Q.
Proof. done. Qed.
Lemma wp_get_proc t p s (Q : process -> pstate -> Prop) : procs s !! t = Some p -> Q p s -> wp (get_proc t) s Q.
Proof. intros Ht HQ. unfold get_proc. apply wp_bind, wp_get. by rewrite Ht. Qed.
Lemma wp_get_elem e c s (Q : child_list_elem -> pstate -> Prop) : elems s !! e = Some c -> Q c s -> wp (get_elem e) s Q.
Proof. intros He HQ. unfold get_elem. apply wp_bind, wp_get. by rewrite He. Qed.
Lemma wp_pgoto t p c s (Q : unit -> pstate -> Prop) :
  procs s !! t = Some p -> Q tt (set_procs (<[t := at_pc c p]> (procs s)) s) -> wp (goto t c) s Q.
Proof. intros Ht HQ. unfold goto. apply wp_bind, (wp_get_proc t p); done. Qed.

Lemma wp_find_child es k s (Q : option Z -> pstate -> Prop) :
  (forall e, e ∈ es -> is_Some (elems s !! e)) ->
  (forall e c, e ∈ es -> elems s !! e = Some c -> pid c = k -> Q (Some e) s) ->
  ((forall e c, e ∈ es -> elems s !! e = Some c -> pid c ≠ k) -> Q None s) -> wp (find_child es k) s Q.
Proof.
  induction es as [|e es IH]; intros Hlive HS HN; simpl.
  - apply HN. by intros e c ?%not_elem_of_nil.
  - destruct (Hlive e) as [c Hc]; [by left|]. apply wp_bind, (wp_get_elem e c); [done|].
    destruct (Z.eqb_spec (pid c) k) as [Hk|Hk]; [by apply (HS e c); [left|..]|].
    apply IH.
    + intros e' He'. apply Hlive. by right.
    + intros e' c' He'. apply HS. by right.
    + intros Hno. apply HN. intros e' c' [->|He']%elem_of_cons Hc'; [congruence|eauto].
Qed.

(** A record that was freed too early, or a child whose thread is gone. *)
Definition dangling (s : pstate) (p : process) : Prop :=
  match at_ppc p with
  | ExitWrite _ e | ExitUp _ e => elems s !! e = None
  | ExitOrphans => match child_list p with
                   | e :: _ => match elems s !! e with Some c => procs s !! inception c = None | None => True end
                   | [] => False
                   end
  | _ => False
  end.

(** There is memory for a new thread and its record. *)
Definition memory (p : process) (ev : event) : Prop :=
  match at_ppc p with ExecCreate | ExecAdd _ => ev ≠ Mem false | _ => True end.

Section Steps.
Context (s : pstate) (I : pinv s) (t : Z) (p : process) (Ht : procs s !! t = Some p).
Let Q := fun (_ : option Z) (s' : pstate) => pinv s'.

Lemma step_lock : holds (at_ppc p) = true <-> open_close_lock s = Some t.
Proof. apply (po_lock _ _ _ (pi_proc _ I _ _ Ht)). Qed.

Lemma step_pos : 0 < t.
Proof. by destruct (po_pid _ _ _ (pi_proc _ I _ _ Ht)). Qed.

Lemma lock_same c : holds c = holds (at_ppc p) -> (holds c = true <-> open_close_lock s = Some t).
Proof. intros ->. apply step_lock. Qed.

(** [lock_acquire] and [lock_release] inside a step that nobody else notices. *)
Lemma wp_acquire c :
  holds (at_ppc p) = false -> holds c = true ->
  starting (at_ppc p) = None -> starting c = None -> waiting_for (at_ppc p) = None -> waiting_for c = None ->
  loading c = loading (at_ppc p) -> gone c = false -> gone (at_ppc p) = false -> reporting c = None ->
  (forall k, at_ppc p ≠ ExecAdd k) -> (forall k, c ≠ ExecAdd k) -> (forall k, c ≠ ExecStatus k None) ->
  exiting c = exiting (at_ppc p) -> wp (acquire t c;; mret None) s Q.
Proof.
  intros H1 H2 H3 H4 H5 H6 H7 H8 H9 H10 H11 H12 H13 H14. apply wp_bind. unfold acquire. apply wp_bind, wp_get.
  destruct (open_close_lock s) as [h|] eqn:Hl.
  - apply wp_assert; [|done]. apply negb_true_iff, Z.eqb_neq. intros ->. apply step_lock in Hl. congruence.
  - apply wp_bind, wp_change, (wp_pgoto t p); [done|]. apply wp_ret.
    apply (pinv_goto s t p c (Some t) (exits s)); try done.
    + intros e E. by rewrite E in H5.
    + intros e E. by rewrite E in H6.
    + left. congruence.
    + intros st e E. by rewrite E in H10.
    + congruence.
    + intros u Hu. rewrite Hl. split; [congruence|done].
    + by left.
    + congruence.
    + intros st Hst. apply (po_exit _ _ _ (pi_proc _ I _ _ Ht)). congruence.
    + congruence.
    + intros E. by rewrite E in H8.
Qed.

Lemma wp_release c :
  holds (at_ppc p) = true -> holds c = false ->
  starting (at_ppc p) = None -> starting c = None -> waiting_for (at_ppc p) = None -> waiting_for c = None ->
  loading c = loading (at_ppc p) -> gone c = false -> gone (at_ppc p) = false -> reporting c = None ->
  (forall k, at_ppc p ≠ ExecAdd k) -> (forall k, c ≠ ExecAdd k) -> (forall k, c ≠ ExecStatus k None) ->
  exiting c = exiting (at_ppc p) -> wp (release t c;; mret None) s Q.
Proof.
  intros H1 H2 H3 H4 H5 H6 H7 H8 H9 H10 H11 H12 H13 H14. apply wp_bind. unfold release. apply wp_bind, wp_get.
  pose proof (proj1 step_lock H1) as Hl. apply wp_bind, wp_assert; [by apply bool_decide_eq_true|].
  apply wp_bind, wp_change, (wp_pgoto t p); [done|]. apply wp_ret.
  apply (pinv_goto s t p c None (exits s)); try done.
  - intros e E. by rewrite E in H5.
  - intros e E. by rewrite E in H6.
  - left. congruence.
  - intros st e E. by rewrite E in H10.
  - congruence.
  - rewrite H2. done.
  - intros u Hu. rewrite Hl. split; [done|congruence].
  - by left.
  - congruence.
  - intros st Hst. apply (po_exit _ _ _ (pi_proc _ I _ _ Ht)). congruence.
  - congruence.
  - intros E. by rewrite E in H8.
Qed.

(** A plain move between two places. *)
Lemma wp_plain c (Q' : option Z -> pstate -> Prop) :
  (forall s', pinv s' -> Q' None s') ->
  holds (at_ppc p) = holds c ->
  starting (at_ppc p) = None -> starting c = None -> (forall e, at_ppc p ≠ WaitDone e) -> (forall e, c ≠ WaitDone e) ->
  loading c = loading (at_ppc p) -> (gone c = gone (at_ppc p) \/ child_data p = None) -> (gone (at_ppc p) = true -> gone c = true) ->
  (forall st e, c ≠ ExitUp st e) ->
  (forall k, at_ppc p ≠ ExecAdd k) -> (forall k, c ≠ ExecAdd k) -> (forall k, c ≠ ExecStatus k None) ->
  (forall e, waiting_for c = Some e -> e ∈ child_list p) -> (forall st, exiting c = Some st -> exiting (at_ppc p) = Some st) ->
  (forall e, reporting c = Some e -> e < next_elem s /\ forall r, elems s !! e = Some r -> pid r = t) ->
  (c = ExitEnd -> child_list p = []) -> wp (goto t c;; mret None) s Q'.
Proof.
  intros HQ H1 H2 H3 H4 H5 H6 H7 H8 H9 H10 H11 H12 H13 H14 H15 H16. apply wp_bind, (wp_pgoto t p); [done|]. apply wp_ret, HQ.
  apply (pinv_goto s t p c (open_close_lock s) (exits s)); try done.
  - apply lock_same. congruence.
  - by left.
  - intros st Hst. apply (po_exit _ _ _ (pi_proc _ I _ _ Ht)). auto.
Qed.
Lemma step_record e : e ∈ child_list p -> exists c, elems s !! e = Some c /\ parent_pid c = t.
Proof. apply (po_own _ _ _ (pi_proc _ I _ _ Ht)). Qed.

(** The records that [t] is about to use in [process_execute]. *)
Lemma step_starting k e : starting (at_ppc p) = Some (k, e) ->
  exists c, elems s !! e = Some c /\ pid c = k /\ parent_pid c = t /\
    let K := at_ppc <$> procs s !! k in
    link_load t e (at_ppc p) (load_sema p) K c (loads s !! k) /\ link_exit e (at_ppc p) K c (exits s !! k).
Proof.
  intros Hs. destruct (po_start _ _ _ (pi_proc _ I _ _ Ht) k e Hs) as [Hin Hpid]. destruct (step_record e Hin) as (c & Hc & Hpar).
  destruct (pi_link _ I _ _ Hc) as (q & Hq & _ & _ & _ & _ & _ & Hl & Hx). rewrite (Hpid c Hc), Hpar in *.
  assert (q = p) as -> by congruence. exists c. split_and!; auto.
Qed.

Lemma step_status k e : at_ppc p = ExecStatus k (Some e) -> wp (process_execute t (ExecStatus k (Some e)) Go) s Q.
Proof.
  intros Hp. destruct (step_starting k e) as (c & Hc & Hk & Hpar & Hl & Hx); [by rewrite Hp|].
  pose proof (proj1 step_lock ltac:(by rewrite Hp)) as Hlk.
  simpl. apply wp_bind, (wp_get_proc t p); [done|]. apply wp_bind, wp_change, wp_bind, wp_ret, wp_bind, (wp_get_elem e c); [done|].
  apply wp_bind, wp_change, wp_bind. eapply wp_pgoto; [apply lookup_insert_eq|]. apply wp_ret. unfold set_procs. simpl. rewrite insert_insert_eq.
  apply (pinv_parent s I t p Ht e c Hc (mk_process (ExecRelease k e) _ _ (Some 0) _) _ (open_close_lock s) (loads s)); simpl; rewrite ?Hp; try done.
  - by intros k' e' [= <- <-].
  - by intros k' e' [= <- <-].
  - rewrite Hk. intros _ _. rewrite Hp in Hl, Hx. split.
    + revert Hl. unfold link_load. destruct (_ ≫= loading) as [[b|]|]; intros Hl; simpl.
      * by destruct Hl as (_ & _ & ? & _).
      * destruct Hl as [? _]. split; [done|]. right. split_and!; [done|done|]. by left.
      * destruct Hl as [Hl|(_ & [[? _]|?])]; [by destruct (Hl k)|done|done].
    + by apply (link_exit_other e (ExecStatus k (Some e)) _ _ c).
Qed.

Lemma step_release k e : at_ppc p = ExecRelease k e -> wp (process_execute t (ExecRelease k e) Go) s Q.
Proof.
  intros Hp. destruct (step_starting k e) as (c & Hc & Hk & Hpar & Hl & Hx); [by rewrite Hp|].
  pose proof (proj1 step_lock ltac:(by rewrite Hp)) as Hlk.
  simpl. apply wp_bind. unfold release. apply wp_bind, wp_get, wp_bind, wp_assert; [by apply bool_decide_eq_true|].
  apply wp_bind, wp_change, (wp_pgoto t p); [done|]. apply wp_ret.
  unfold Q, set_procs. simpl. rewrite <- (insert_id (elems s) e c Hc).
  apply (pinv_parent s I t p Ht e c Hc (at_pc (ExecDown k e) p) c None (loads s)); simpl; rewrite ?Hp; try done.
  - intros u Hu. rewrite Hlk. split; [done|congruence].
  - by intros k' e' [= <- <-].
  - by intros k' e' [= <- <-].
  - rewrite Hk. intros _ _. rewrite Hp in Hl, Hx. split; [|by apply (link_exit_other e (ExecRelease k e) _ _ c)].
    revert Hl. unfold link_load. destruct (_ ≫= loading) as [[b|]|]; intros Hl; simpl.
    + by destruct Hl as (_ & _ & ? & _).
    + destruct Hl as [Hm [[? _]|(? & ? & _)]]; [done|]. split; [done|]. right. rewrite Hk. auto.
    + destruct Hl as [Hl|(_ & [[? _]|?])]; [by destruct (Hl k)|done|done].
Qed.

Lemma step_down k e : at_ppc p = ExecDown k e -> wp (process_execute t (ExecDown k e) Go) s Q.
Proof.
  intros Hp. destruct (step_starting k e) as (c & Hc & Hk & Hpar & Hl & Hx); [by rewrite Hp|].
  rewrite Hp in Hl, Hx. unfold link_load in Hl. rewrite Hk in Hl.
  assert (Hsema : load_sema p = Some 0 \/ (load_sema p = Some 1 /\ (at_ppc <$> procs s !! k) ≫= loading = None /\ loads s !! k = Some (negb (mom_im_out_of_money c)))).
  { destruct (_ ≫= loading) as [[b|]|]; [left; by destruct Hl as (_ & ? & _)| |].
    - left. destruct Hl as [_ [[? _]|(_ & ? & _)]]; done.
    - right. destruct Hl as [Hl|(? & [[_ ?]|?])]; [by destruct (Hl k)|done|done]. }
  simpl. apply wp_bind, (wp_get_proc t p); [done|]. destruct Hsema as [->|(Hs & Hlo & Hld)]; [done|]. rewrite Hs. simpl.
  apply wp_bind, wp_change, wp_ret. unfold Q, set_procs. simpl. rewrite <- (insert_id (elems s) e c Hc).
  apply (pinv_parent s I t p Ht e c Hc (mk_process (ExecResult k e) _ _ _ _) c (open_close_lock s) (loads s)); simpl; rewrite ?Hp; try done.
  - rewrite <- step_lock. by rewrite Hp.
  - by intros k' e' [= <- <-].
  - by intros k' e' [= <- <-].
  - rewrite Hk. intros _ _. split; [|by apply (link_exit_other e (ExecDown k e) _ _ c)].
    unfold link_load. rewrite Hlo. right. split; [done|right]. by rewrite Hk.
Qed.

Lemma step_result k e : at_ppc p = ExecResult k e -> wp (process_execute t (ExecResult k e) Go) s
  (fun r s' => pinv s' /\ exists b : bool, loads s !! k = Some b /\ r = Some (if b then k else TID_ERROR)).
Proof.
  intros Hp. destruct (step_starting k e) as (c & Hc & Hk & Hpar & Hl & Hx); [by rewrite Hp|].
  rewrite Hp in Hl, Hx. unfold link_load in Hl. rewrite Hk in Hl.
  assert (Hlo : (at_ppc <$> procs s !! k) ≫= loading = None /\ loads s !! k = Some (negb (mom_im_out_of_money c))).
  { destruct (_ ≫= loading) as [[b|]|]; [by destruct Hl as (_ & _ & ? & _)| |].
    - destruct Hl as [_ [[? _]|(_ & _ & [?|?])]]; done.
    - destruct Hl as [Hl|(? & _)]; [by destruct (Hl k)|done]. }
  destruct Hlo as [Hlo Hld]. simpl. apply wp_bind, (wp_get_elem e c); [done|]. apply wp_bind, (wp_get_proc t p); [done|].
  apply wp_bind, wp_change, wp_ret. split; [|exists (negb (mom_im_out_of_money c)); split; [done|]; by destruct (mom_im_out_of_money c)].
  unfold set_procs. simpl. rewrite <- (insert_id (elems s) e c Hc).
  apply (pinv_parent s I t p Ht e c Hc (mk_process User _ _ _ _) c (open_close_lock s) (loads s)); simpl; rewrite ?Hp; try done.
  - rewrite <- step_lock. by rewrite Hp.
  - by intros k' e' [= <- <-].
  - rewrite Hk. intros _ _. split; [|by apply (link_exit_other e (ExecResult k e) _ _ c)].
    unfold link_load. rewrite Hlo. left. done.
Qed.

Lemma step_execute ev : memory p ev ->
  match at_ppc p with ExecLock | ExecCreate | ExecAdd _ | ExecStatus _ _ | ExecRelease _ _ | ExecDown _ _ | ExecResult _ _ => True | _ => False end ->
  wp (process_execute t (at_ppc p) ev) s Q.
Proof.
  intros Hm Hpc. unfold memory in Hm. destruct (at_ppc p) as [| | |k|k [e|]|k e|k e|k e| | | | | | | | | | | | | | | | |] eqn:Hp; try done.
  - destruct ev; try done. apply wp_acquire; rewrite ?Hp; done.
  - destruct ev as [| | |[|]| |]; try done. simpl. apply wp_bind, wp_get, wp_bind, wp_change, wp_bind, wp_change, wp_bind.
    apply (wp_pgoto t p).
    + simpl. rewrite lookup_insert_ne; [done|]. pose proof (po_pid _ _ _ (pi_proc _ I _ _ Ht)). lia.
    + apply wp_ret. exact (pinv_create s I t p Ht Hp).
  - destruct ev as [| | |[|]| |]; try done.
    destruct (po_add _ _ _ (pi_proc _ I _ _ Ht) k Hp) as (Hne & (K & HK & _) & _).
    simpl. apply wp_bind. apply wp_bind, wp_get, wp_bind, wp_change, wp_bind, wp_change, wp_bind, (wp_get_proc k K); [done|].
    apply wp_bind, wp_change, wp_bind, (wp_get_proc t p); [simpl; by rewrite lookup_insert_ne|].
    apply wp_bind, wp_change, wp_ret, wp_bind. eapply wp_pgoto; [apply lookup_insert_eq|]. apply wp_ret.
    unfold Q, set_procs. simpl. rewrite insert_insert_eq. exact (pinv_add s I t p k K Ht Hp HK).
  - destruct ev; try done. by apply step_status.
  - by destruct (po_null _ _ _ (pi_proc _ I _ _ Ht) k).
  - destruct ev; try done. by apply step_release.
  - destruct ev; try done. by apply step_down.
  - destruct ev; try done. eapply wp_mono; [by apply step_result|]. by intros r s' [? _].
Qed.
Lemma step_mark ok : at_ppc p = LoadMark ok -> wp (load t (LoadMark ok) Go) s Q.
Proof.
  intros Hp. destruct (loaded_child s t p None I Ht) as (e & c & q & Hd & Hc & Hk & Hpt & Hq & HQ & HL & Hls & Hm); [by rewrite Hp|left; by rewrite Hp|].
  pose proof (proj1 step_lock ltac:(by rewrite Hp)) as Hlk.
  assert (Hend : forall c', pid c' = pid c -> parent_pid c' = parent_pid c -> inception c' = inception c -> load_status c' = load_status c ->
    exit_status c' = exit_status c -> sema c' = sema c -> mom_im_out_of_money c' = negb ok ->
    pinv (mk_pstate (<[t := at_pc (LoadRelease ok) p]> (procs s)) (<[e := c']> (elems s)) (next_pid s) (next_elem s) (open_close_lock s) (exits s) (<[t := ok]> (loads s)))).
  { intros c' C1 C2 C3 C4 C5 C6 C7.
    apply (pinv_child s I t p Ht e c Hc (at_pc (LoadRelease ok) p) c'); simpl; rewrite ?Hp; try done.
    - intros u Hu. by rewrite lookup_insert_ne.
    - intros q' Hq' Hin Hl Hx. assert (q' = q) as -> by congruence. split; [|exact (link_exit_load e (LoadMark ok) c (LoadRelease ok) c' (at_ppc q) (exits s !! t) eq_refl eq_refl ltac:(done) C6 Hx)].
      unfold link_load. simpl. rewrite lookup_insert_eq, C1, C4, Hk, Hls, HQ. split_and!; done. }
  simpl. apply wp_bind, wp_change, wp_bind, (wp_get_proc t p); [done|]. apply wp_bind. destruct ok.
  - apply wp_ret, wp_bind, (wp_pgoto t p); [done|]. apply wp_ret. unfold Q, set_procs. simpl. rewrite <- (insert_id (elems s) e c Hc). by apply Hend.
  - apply wp_bind. rewrite Hd. apply wp_ret, wp_bind, (wp_get_elem e c); [done|]. apply wp_change, wp_bind, (wp_pgoto t p); [done|].
    apply wp_ret. by apply Hend.
Qed.

Lemma step_up ok : at_ppc p = LoadUp ok -> wp (start_process t (LoadUp ok) Go) s Q.
Proof.
  intros Hp. destruct (loaded_child s t p (Some ok) I Ht) as (e & c & q & Hd & Hc & Hk & Hpt & Hq & HQ & HL & Hls & Hlo & Hm); [by rewrite Hp|by right|].
  simpl. apply wp_bind, (wp_get_proc t p); [done|]. apply wp_bind, wp_change, wp_bind. rewrite Hd. apply wp_ret.
  apply wp_bind, (wp_get_elem e c); [done|]. apply wp_bind. rewrite Hls. apply wp_ret.
  apply wp_bind, (wp_get_proc _ q); [simpl; by rewrite lookup_insert_ne|]. apply wp_bind. rewrite HL. apply wp_ret.
  apply wp_bind, wp_change, wp_bind. set (lf := (negb ok || load_failed p)%bool).
  pose proof (fun pc ex H => pinv_load_up s I t p ok e c (parent_pid c) q Ht Hp Hd Hc Hk eq_refl Hq HQ pc lf ex H) as Hup.
  destruct ok.
  - eapply wp_pgoto; [simpl; rewrite lookup_insert_ne by congruence; apply lookup_insert_eq|]. apply wp_ret.
    unfold Q, set_procs. simpl. rewrite (insert_insert_ne _ t (parent_pid c)), insert_insert_eq by congruence.
    rewrite <- (insert_insert_ne _ t (parent_pid c)) by congruence. rewrite <- Hd. apply (Hup User (exits s)). by left.
  - apply wp_bind, wp_change. eapply wp_pgoto; [simpl; rewrite lookup_insert_ne by congruence; apply lookup_insert_eq|]. apply wp_ret.
    unfold Q, set_procs. simpl. rewrite (insert_insert_ne _ t (parent_pid c)), insert_insert_eq by congruence.
    rewrite <- (insert_insert_ne _ t (parent_pid c)) by congruence. rewrite <- Hd. apply (Hup (ExitLock (-1))). right. eauto.
Qed.

Lemma step_start ev :
  match at_ppc p with LoadStart | LoadLock | LoadOpen | LoadBody | LoadTail _ | LoadMark _ | LoadRelease _ | LoadUp _ => True | _ => False end ->
  wp (start_process t (at_ppc p) ev) s Q.
Proof.
  intros Hpc. destruct (at_ppc p) as [| | | | | | | | | | | |ok|ok|ok|ok| | | | | | | | |] eqn:Hp; try done; destruct ev; try done.
  - destruct ok; apply wp_plain; rewrite ?Hp; auto; done.
  - apply wp_acquire; rewrite ?Hp; done.
  - apply wp_release; rewrite ?Hp; done.
  - apply wp_plain; rewrite ?Hp; auto; done.
  - apply wp_acquire; rewrite ?Hp; done.
  - by apply step_mark.
  - apply wp_release; rewrite ?Hp; done.
  - by apply step_up.
Qed.
(** A record that [t] waits for, with what it says of the child. *)
Lemma step_waiting e : waiting_for (at_ppc p) = Some e ->
  exists c, elems s !! e = Some c /\ parent_pid c = t /\
    let K := at_ppc <$> procs s !! pid c in
    link_load t e (at_ppc p) (load_sema p) K c (loads s !! pid c) /\ link_exit e (at_ppc p) K c (exits s !! pid c).
Proof.
  intros Hw. pose proof (po_wait _ _ _ (pi_proc _ I _ _ Ht) e Hw) as Hin. destruct (step_record e Hin) as (c & Hc & Hpar).
  destruct (pi_link _ I _ _ Hc) as (q & Hq & _ & _ & _ & _ & _ & Hl & Hx). rewrite Hpar in *.
  assert (q = p) as -> by congruence. exists c. split_and!; auto.
Qed.

Lemma step_wait_call k : at_ppc p = User -> wp (process_wait t User (Wait k)) s
  (fun r s' => pinv s' /\ match r with
    | None => exists e c, e ∈ child_list p /\ elems s !! e = Some c /\ pid c = k
    | Some v => v = -1 /\ forall e c, e ∈ child_list p -> elems s !! e = Some c -> pid c ≠ k
    end).
Proof.
  intros Hp. simpl. apply wp_bind, wp_bind, (wp_get_proc t p); [done|]. apply wp_find_child.
  - intros e Hin. destruct (step_record e Hin) as (c & ? & _). eauto.
  - intros e c Hin Hc Hk. apply wp_plain; rewrite ?Hp; auto; try done; [eauto 10|]. by intros e' [= <-].
  - intros Hno. by apply wp_ret.
Qed.

Lemma step_wait_down e : at_ppc p = WaitDown e -> wp (process_wait t (WaitDown e) Go) s Q.
Proof.
  intros Hp. destruct (step_waiting e) as (c & Hc & Hpar & Hl & Hx); [by rewrite Hp|]. rewrite Hp in Hl, Hx.
  simpl. apply wp_bind, (wp_get_elem e c); [done|]. destruct (Z.eqb_spec (sema c) 0) as [|Hs]; [done|].
  apply wp_bind, wp_change, wp_bind, (wp_pgoto t p); [done|]. apply wp_ret.
  set (c' := mk_child _ _ _ _ _ _ _ _).
  assert (Hg : exit_status c = exits s !! pid c /\ is_Some (exits s !! pid c) /\ sema c = 1 /\
    match at_ppc <$> procs s !! pid c with Some pc => gone pc = true | None => True end).
  { revert Hx. unfold link_exit. destruct (at_ppc <$> _) as [pc|]; [destruct (gone pc)|]; [|by intros (? & _)|];
      intros (? & ? & _ & H1); split_and!; auto. }
  destruct Hg as (G1 & G2 & G3 & G4).
  apply (pinv_parent s I t p Ht e c Hc (at_pc (WaitDone e) p) c' (open_close_lock s) (loads s)); simpl; rewrite ?Hp; try done.
  - rewrite <- step_lock. by rewrite Hp.
  - by intros e' [= <-].
  - intros _ _. split; [by apply (link_load_other _ _ (WaitDown e) (load_sema p))|].
    unfold link_exit. simpl. rewrite G3. destruct (at_ppc <$> _) as [pc|]; [rewrite G4|]; split_and!; done.
Qed.

Lemma step_wait_done e : at_ppc p = WaitDone e -> wp (process_wait t (WaitDone e) Go) s
  (fun r s' => pinv s' /\ exists c, elems s !! e = Some c /\ parent_pid c = t /\ r = exits s !! pid c /\ is_Some r /\
     forall e' c', elems s' !! e' = Some c' -> pid c' ≠ pid c).
Proof.
  intros Hp. destruct (step_waiting e) as (c & Hc & Hpar & Hl & Hx); [by rewrite Hp|]. rewrite Hp in Hl, Hx.
  assert (Hg : exit_status c = exits s !! pid c /\ is_Some (exits s !! pid c)).
  { revert Hx. unfold link_exit. destruct (at_ppc <$> _) as [pc|]; [destruct (gone pc)|]; [|by intros (_ & ? & _)|];
      intros (? & ? & _); done. }
  destruct Hg as [G1 [st G2]]. simpl. apply wp_bind, (wp_get_elem e c); [done|]. apply wp_bind. rewrite G1, G2. apply wp_ret.
  apply wp_bind, (wp_get_proc t p); [done|]. apply wp_bind, wp_change, wp_bind, wp_change, wp_ret. split.
  - exact (pinv_wait_done s t p e c I Ht Hp Hc).
  - exists c. split_and!; [done|done|by rewrite G2|eauto|]. simpl. intros e' c' [Hne Hc']%lookup_delete_Some Hk.
    destruct Hne. by apply (pi_unique _ I _ _ _ _ Hc Hc').
Qed.

Lemma step_in_wait ev : match at_ppc p with WaitDown _ | WaitDone _ => True | _ => False end -> wp (process_wait t (at_ppc p) ev) s Q.
Proof.
  intros Hpc. destruct (at_ppc p) eqn:Hp; try done; destruct ev; try done; [by apply step_wait_down|].
  eapply wp_mono; [by apply step_wait_done|]. by intros r s' [? _].
Qed.

Lemma step_write st e : at_ppc p = ExitWrite st e -> is_Some (elems s !! e) -> wp (process_exit t (ExitWrite st e) Go) s Q.
Proof.
  intros Hp [c Hc]. destruct (po_report _ _ _ (pi_proc _ I _ _ Ht) e) as [Hlt Hk]; [by rewrite Hp|].
  simpl. apply wp_bind, (wp_get_elem e c); [done|]. apply wp_bind, wp_change, wp_bind, (wp_pgoto t p); [done|]. apply wp_ret.
  apply (pinv_child s I t p Ht e c Hc (at_pc (ExitUp st e) p) (mk_child _ _ _ _ _ _ _ _) (open_close_lock s) (loads s)); simpl; rewrite ?Hp; auto; try done.
  - rewrite <- step_lock. by rewrite Hp.
  - by intros e' [= <-].
  - intros q Hq Hin Hl Hx. split; [done|]. destruct Hx as (? & ? & _). split_and!; [done..|]. by intros st' [= <-].
Qed.

Lemma step_exit_up st e : at_ppc p = ExitUp st e -> is_Some (elems s !! e) -> wp (process_exit t (ExitUp st e) Go) s Q.
Proof.
  intros Hp [c Hc]. destruct (po_report _ _ _ (pi_proc _ I _ _ Ht) e) as [Hlt Hk]; [by rewrite Hp|].
  pose proof (po_exit _ _ _ (pi_proc _ I _ _ Ht) st ltac:(by rewrite Hp)) as Hst.
  simpl. apply wp_bind, (wp_get_elem e c); [done|]. apply wp_bind, wp_change, wp_bind, (wp_pgoto t p); [done|]. apply wp_ret.
  apply (pinv_child s I t p Ht e c Hc (at_pc ExitOrphans p) (mk_child _ _ _ _ _ _ _ _) (open_close_lock s) (loads s)); simpl; rewrite ?Hp; auto; try done.
  - rewrite <- step_lock. by rewrite Hp.
  - intros q Hq Hin Hl Hx. split; [done|]. destruct Hx as (-> & ? & He). rewrite (He st eq_refl), Hst. split_and!; done.
Qed.

Lemma step_exit ev : ~ dangling s p ->
  match at_ppc p with ExitLock _ | ExitRelease _ | ExitReport _ | ExitWrite _ _ | ExitUp _ _ | ExitOrphans | ExitEnd => True | _ => False end ->
  wp (process_exit t (at_ppc p) ev) s Q.
Proof.
  intros Hnd Hpc. unfold dangling in Hnd. pose proof (pi_proc _ I _ _ Ht) as Pt.
  destruct (at_ppc p) as [| | | | | | | | | | | | | | | | | |st|st|st|st e|st e| |] eqn:Hp; try done; destruct ev; try done.
  - apply wp_acquire; rewrite ?Hp; done.
  - apply wp_release; rewrite ?Hp; done.
  - simpl. apply wp_bind, (wp_get_proc t p); [done|]. destruct (child_data p) as [e|] eqn:Hd.
    + apply wp_plain; rewrite ?Hp; auto; try done. intros e' [= <-].
      destruct (po_data _ _ _ Pt e Hd) as [(c & Hc & Hk)|Hg]; [|by rewrite Hp in Hg].
      split; [by apply (pi_elem _ I _ _ Hc)|]. congruence.
    + apply wp_plain; rewrite ?Hp; auto; done.
  - apply step_write; [done|]. by apply not_eq_None_Some.
  - apply step_exit_up; [done|]. by apply not_eq_None_Some.
  - simpl. apply wp_bind, (wp_get_proc t p); [done|]. destruct (child_list p) as [|e es] eqn:Hes.
    + apply wp_plain; rewrite ?Hp; auto; done.
    + destruct (step_record e) as (c & Hc & Hpar); [rewrite Hes; by left|]. rewrite Hc in Hnd.
      destruct (pi_link _ I _ _ Hc) as (q & _ & _ & Hi & Hne & _). rewrite Hi in Hnd.
      apply not_eq_None_Some in Hnd as [k Hk].
      apply wp_bind, wp_change, wp_bind, (wp_get_elem e c); [done|]. rewrite Hi.
      apply wp_bind, (wp_get_proc _ k); [simpl; rewrite lookup_insert_ne; [done|congruence]|].
      apply wp_bind, wp_change, wp_bind, wp_change, wp_ret. exact (pinv_orphan s I t p e es c k Ht Hp Hes Hc Hk).
  - simpl. apply wp_bind, wp_change, wp_ret. exact (pinv_end s t p I Ht Hp).
Qed.

Lemma step_exit_call st : at_ppc p = User -> wp (process_exit t User (Exit st)) s Q.
Proof.
  intros Hp. simpl. apply wp_bind, wp_change, wp_bind, (wp_pgoto t p); [done|]. apply wp_ret.
  apply (pinv_goto s t p (ExitLock st) (open_close_lock s) (<[t := st]> (exits s))); simpl; rewrite ?Hp; auto; try done.
  - rewrite <- step_lock. by rewrite Hp.
  - intros u Hu. by rewrite lookup_insert_ne.
  - intros st' [= <-]. apply lookup_insert_eq.
Qed.
End Steps.

(** A step that has the memory that it needs, and does not touch what was freed,
    succeeds and keeps the invariant. *)
Lemma process_step_ok s t p ev :
  pinv s -> procs s !! t = Some p -> memory p ev -> ~ dangling s p -> wp (step t ev) s (fun _ s' => pinv s').
Proof.
  intros I Ht Hm Hnd. unfold step. apply wp_bind, (wp_get_proc t p); [done|].
  pose proof (step_execute s I t p Ht ev Hm) as SE. pose proof (step_start s I t p Ht ev) as SS.
  pose proof (step_in_wait s I t p Ht ev) as SW. pose proof (step_exit s I t p Ht ev Hnd) as SX.
  destruct (at_ppc p) eqn:Hp; try (by apply SE); try (by apply SS); try (by apply SW); try (by apply SX).
  destruct ev as [page|k|st| | |]; try done.
  - destruct page; [|done]. simpl. apply (wp_plain s I t p Ht); rewrite ?Hp; auto; done.
  - eapply wp_mono; [by apply (step_wait_call s I t p)|]. by intros r s' [? _].
  - by apply (step_exit_call s I t p).
Qed.

(** * Reachable states *)

(** Before the first program: the initial thread is 1, the idle thread was 2. *)
Definition started : pstate :=
  mk_pstate {[ 1 := mk_process User [] None None false ]} ∅ 3 0 None ∅ ∅.

Inductive preach : pstate -> Prop :=
| preach_start : preach started
| preach_step t p ev r s s' : preach s -> procs s !! t = Some p -> memory p ev -> step t ev s = Ok (r, s') -> preach s'.

Lemma dangling_fault s t p r s' : procs s !! t = Some p -> dangling s p -> step t Go s ≠ Ok (r, s').
Proof.
  intros Ht Hd. unfold step. rewrite (bind_ok (get_proc t) _ s p s).
  2: { unfold get_proc. rewrite (bind_ok _ _ _ s s) by done. by rewrite Ht. }
  unfold dangling in Hd. destruct (at_ppc p); try done; simpl.
  - unfold get_elem, mbind, M_bind, mget. by rewrite Hd.
  - unfold get_elem, mbind, M_bind, mget. by rewrite Hd.
  - destruct (child_list p) as [|e es] eqn:Hes; [done|].
    rewrite (bind_ok (get_proc t) _ s p s).
    2: { unfold get_proc. rewrite (bind_ok _ _ _ s s) by done. by rewrite Ht. }
    rewrite Hes. unfold get_elem, get_proc, put_proc, change, mbind, M_bind, mget, mput. simpl.
    destruct (elems s !! e) as [c|] eqn:Hc; simpl; [|done].
    rewrite lookup_insert_ne; [by rewrite Hd|]. intros E. rewrite <- E in Hd. congruence.
Qed.

Lemma dangling_go s t p ev r s' :
  procs s !! t = Some p -> dangling s p -> ev ≠ Go -> step t ev s = Ok (r, s') -> s' = s.
Proof.
  intros Ht Hd He. unfold step. rewrite (bind_ok (get_proc t) _ s p s).
  2: { unfold get_proc. rewrite (bind_ok _ _ _ s s) by done. by rewrite Ht. }
  unfold dangling in Hd. by destruct (at_ppc p); try done; destruct ev; try done; intros [= _ <-].
Qed.

Lemma preach_inv s : preach s -> pinv s.
Proof.
  induction 1 as [|t p ev r s s' _ IH Ht Hm Hs].
  - assert (Hst : forall t p, procs started !! t = Some p -> t = 1 /\ p = mk_process User [] None None false).
    { intros t p. simpl. rewrite lookup_singleton_Some. by intros [<- <-]. }
    split; try done. intros t p [-> ->]%Hst. split; simpl; try done; [constructor|by intros e ?%not_elem_of_nil].
  - assert (Hdec : dangling s p \/ ~ dangling s p).
    { unfold dangling. destruct (at_ppc p); try (right; intros ?; done); try (destruct (elems s !! e); [right; intros ?; done|by left]).
      destruct (child_list p) as [|e es]; [right; intros ?; done|]. destruct (elems s !! e) as [c|]; [|by left].
      destruct (procs s !! inception c); [right; intros ?; done|by left]. }
    destruct Hdec as [Hd|Hnd].
    + destruct (decide (ev = Go)) as [->|Hne]; [by destruct (dangling_fault s t p r s')|].
      by rewrite (dangling_go s t p ev r s' Ht Hd Hne Hs).
    + pose proof (process_step_ok s t p ev IH Ht Hm Hnd) as Hok. unfold wp in Hok. by rewrite Hs in Hok.
Qed.

(** * What the protocol guarantees *)

(** Executes steps of given processes. *)
Definition memory_b (p : process) (ev : event) : bool :=
  match at_ppc p with ExecCreate | ExecAdd _ => negb (bool_decide (ev = Mem false)) | _ => true end.

Fixpoint run_steps (xs : list (Z * event)) (s : pstate) : option pstate :=
  match xs with
  | [] => Some s
  | (t, ev) :: xs =>
    match procs s !! t with
    | Some p => if memory_b p ev then match step t ev s with Ok (_, s') => run_steps xs s' | Err _ => None end else None
    | None => None
    end
  end.

Lemma run_steps_reach xs : forall s s', preach s -> run_steps xs s = Some s' -> preach s'.
Proof.
  induction xs as [|[t ev] xs IH]; intros s s' Hs Hr; simpl in Hr; [by injection Hr as <-|].
  destruct (procs s !! t) as [p|] eqn:Ht; [|done]. destruct (memory_b p ev) eqn:Hm; [|done].
  destruct (step t ev s) as [[r s1]|] eqn:Hst; [|done]. apply (IH s1); [|done].
  eapply preach_step; [done|done| |done]. unfold memory_b, memory in *. destruct (at_ppc p); try done;
    apply negb_true_iff, bool_decide_eq_false in Hm; done.
Qed.

(** Process 1 starts process 3, which loads, exits with status 7 and is gone. *)
Definition demo_start : list (Z * event) :=
  [(1, Exec true); (1, Go); (1, Mem true); (1, Mem true); (3, Mem true); (3, Go); (1, Go); (1, Go);
   (3, Go); (3, Go); (3, Loaded true); (3, Go); (3, Go); (3, Go); (3, Go); (1, Go); (1, Go)].
Definition demo_exit : list (Z * event) :=
  [(3, Exit 7); (3, Go); (3, Go); (3, Go); (3, Go); (3, Go); (3, Go); (3, Go)].
Definition demo_state (xs : list (Z * event)) : pstate := default started (run_steps xs started).

Lemma demo_reach xs : run_steps xs started = Some (demo_state xs) -> preach (demo_state xs).
Proof. apply run_steps_reach. constructor. Qed.




Definition demo_wait : list (Z * event) := demo_start ++ [(1, Wait 3); (1, Go)] ++ demo_exit ++ [(1, Go)].


(** [wait] returns -1 at once exactly when the caller has no child with that
    process id that it has not waited for. *)
Theorem wait_refuses_strangers (s s' : pstate) (t k : Z) (p : process) (r : option Z) :
  preach s -> procs s !! t = Some p -> at_ppc p = User -> step t (Wait k) s = Ok (r, s') ->
  match r with
  | Some v => v = -1 /\ forall e c, e ∈ child_list p -> elems s !! e = Some c -> pid c ≠ k
  | None => exists e c, e ∈ child_list p /\ elems s !! e = Some c /\ pid c = k
  end.
Proof.
  intros Hs Ht Hp Hst. pose proof (step_wait_call s (preach_inv s Hs) t p Ht k Hp) as H.
  unfold step in Hst. rewrite (bind_ok (get_proc t) _ s p s) in Hst.
  2: { unfold get_proc. rewrite (bind_ok _ _ _ s s) by done. by rewrite Ht. }
  rewrite Hp in Hst. unfold wp in H. rewrite Hst in H. by destruct H as [_ ?].
Qed.

Lemma wait_refuses_strangers_witness : exists s', step 1 (Wait 5) (demo_state demo_start) = Ok (Some (-1), s') /\
  forall e c, e ∈ [0] -> elems (demo_state demo_start) !! e = Some c -> pid c ≠ 5.
Proof.
  destruct (step 1 (Wait 5) (demo_state demo_start)) as [[r s']|] eqn:Hst; [|vm_compute in Hst; discriminate].
  assert (r = Some (-1)) by (vm_compute in Hst; congruence). subst r. exists s'. split; [reflexivity|].
  refine (proj2 (wait_refuses_strangers _ s' 1 5 (mk_process User [0] None None false) (Some (-1)) _ _ eq_refl Hst)).
  - apply demo_reach. vm_compute. reflexivity.
  - vm_compute. reflexivity.
Defined.

(** [exec] returns the id of the new process if it could load its program, and
    -1 otherwise, and only after the outcome is known. *)
Theorem exec_reports_load (s s' : pstate) (t k e : Z) (p : process) (r : option Z) :
  preach s -> procs s !! t = Some p -> at_ppc p = ExecResult k e -> step t Go s = Ok (r, s') ->
  exists ok : bool, loads s !! k = Some ok /\ r = Some (if ok then k else TID_ERROR).
Proof.
  intros Hs Ht Hp Hst. pose proof (step_result s (preach_inv s Hs) t p Ht k e Hp) as H.
  unfold step in Hst. rewrite (bind_ok (get_proc t) _ s p s) in Hst.
  2: { unfold get_proc. rewrite (bind_ok _ _ _ s s) by done. by rewrite Ht. }
  rewrite Hp in Hst. unfold wp in H. rewrite Hst in H. by destruct H as [_ ?].
Qed.

(** The child of process 1 can not load its program. *)
Definition demo_failed : list (Z * event) :=
  [(1, Exec true); (1, Go); (1, Mem true); (1, Mem true); (1, Go); (1, Go); (3, Mem false); (3, Go); (3, Go); (3, Go); (3, Go); (1, Go)].

Lemma exec_reports_load_witness : exists r s' ok, step 1 Go (demo_state demo_failed) = Ok (r, s') /\
  loads (demo_state demo_failed) !! 3 = Some ok /\ r = Some (if ok : bool then 3 else TID_ERROR).
Proof.
  destruct (step 1 Go (demo_state demo_failed)) as [[r s']|] eqn:Hst; [|vm_compute in Hst; discriminate].
  destruct (exec_reports_load (demo_state demo_failed) s' 1 3 0 (mk_process (ExecResult 3 0) [0] None (Some 0) false) r) as (ok & Hok & Hr).
  - apply demo_reach. vm_compute. reflexivity.
  - vm_compute. reflexivity.
  - reflexivity.
  - exact Hst.
  - exists r, s', ok. split; [reflexivity|]. split; [exact Hok|exact Hr].
Defined.


