(* ===== verification/Inode.v ===== *)
(** src/filesys/inode.c, src/filesys/file.c and src/filesys/free-map.c, with the
    file operations of src/lib/kernel/bitmap.c: files as runs of sectors on a
    block device.

    The state holds the device, the open inodes, files and directories (by
    address) and the free map.  [mallocs] says which calls of [malloc] and [calloc] succeed:
    [mallocs n] for the [n]-th.  Data read is returned as the list of bytes
    that the code stores in the caller's buffer. *)
From stdpp Require Import base list numbers gmap fin_maps.
From Stdlib Require Import ZArith Lia.
From S2P Require Import Prelude Strings Bitmap.

Open Scope Z_scope.

(** * State *)

Definition BLOCK_SECTOR_SIZE : Z := 512.
Definition INODE_MAGIC : Z := 0x494e4f44.
Definition FREE_MAP_SECTOR : Z := 0.
Definition ROOT_DIR_SECTOR : Z := 1.

Record inode_disk : Type := mk_disk { start : Z; length_of : Z; magic : Z }.
Record inode : Type := mk_inode {
  sector : Z; open_cnt : Z; removed : bool; deny_write_cnt : Z; data : inode_disk }.
Record file : Type := mk_file { f_inode : Z; pos : Z; deny_write : bool }.
Record dir : Type := mk_dir { d_inode : Z; d_pos : Z }.

Record fs : Type := mk_fs {
  disk : gmap Z (list Z);
  inodes : gmap Z inode;
  open_inodes : list Z;
  files : gmap Z file;
  dirs : gmap Z dir;
  free_map : bitmap;
  free_map_file : Z;
  next_addr : Z;
  clock : nat
}.

Definition set_disk d s := mk_fs d (inodes s) (open_inodes s) (files s) (dirs s) (free_map s) (free_map_file s) (next_addr s) (clock s).
Definition set_inodes i o s := mk_fs (disk s) i o (files s) (dirs s) (free_map s) (free_map_file s) (next_addr s) (clock s).
Definition set_files f s := mk_fs (disk s) (inodes s) (open_inodes s) f (dirs s) (free_map s) (free_map_file s) (next_addr s) (clock s).
Definition set_dirs d s := mk_fs (disk s) (inodes s) (open_inodes s) (files s) d (free_map s) (free_map_file s) (next_addr s) (clock s).
Definition set_free_map b s := mk_fs (disk s) (inodes s) (open_inodes s) (files s) (dirs s) b (free_map_file s) (next_addr s) (clock s).
Definition set_free_map_file f s := mk_fs (disk s) (inodes s) (open_inodes s) (files s) (dirs s) (free_map s) f (next_addr s) (clock s).
Definition set_heap a c s := mk_fs (disk s) (inodes s) (open_inodes s) (files s) (dirs s) (free_map s) (free_map_file s) a c.

Definition modify (f : fs -> fs) : M fs unit := s ← mget; mput (f s).

(** A sector outside the device stops the kernel (devices/block.c). *)
Definition block_read (n : Z) : M fs (list Z) :=
  s ← mget; match disk s !! n with Some b => mret b | None => mfail Panic end.
Definition block_write (n : Z) (b : list Z) : M fs unit :=
  s ← mget;
  match disk s !! n with Some _ => modify (set_disk (<[n := b]> (disk s))) | None => mfail Panic end.

Definition get_inode (i : Z) : M fs inode :=
  s ← mget; match inodes s !! i with Some ino => mret ino | None => mfail Fault end.
Definition put_inode (i : Z) (ino : inode) : M fs unit :=
  modify (fun s => set_inodes (<[i := ino]> (inodes s)) (open_inodes s) s).
Definition get_file (f : Z) : M fs file :=
  s ← mget; match files s !! f with Some x => mret x | None => mfail Fault end.
Definition put_file (f : Z) (x : file) : M fs unit := modify (fun s => set_files (<[f := x]> (files s)) s).

(** The on-disk inode as the bytes of its sector, and back. *)
Definition encode_inode (d : inode_disk) : list Z :=
  le 4 (start d) ++ le 4 (u32 (length_of d)) ++ le 4 (magic d) ++ replicate 500 0.
Definition decode_inode (b : list Z) : inode_disk :=
  mk_disk (unle (take 4 b)) (s32 (unle (take 4 (drop 4 b)))) (unle (take 4 (drop 8 b))).

Definition bytes_to_sectors (size : Z) : Z :=
  u32 (Z.quot (s32 (size + BLOCK_SECTOR_SIZE - 1)) BLOCK_SECTOR_SIZE).

Definition byte_to_sector (ino : inode) (p : Z) : Z :=
  if p <? length_of (data ino) then u32 (start (data ino) + Z.quot p BLOCK_SECTOR_SIZE) else 2 ^ 32 - 1.

Definition inode_length (i : Z) : M fs Z := ino ← get_inode i; mret (length_of (data ino)).

Section Operations.
Context (mallocs : nat -> bool).

(** A fresh address, or [NULL]. *)
Definition malloc : M fs Z :=
  s ← mget;
  if mallocs (clock s) then
    modify (set_heap (next_addr s + 1) (S (clock s)));; mret (next_addr s)
  else modify (set_heap (next_addr s) (S (clock s)));; mret NULL.

(** The bounce buffer, allocated when it is first needed. *)
Definition get_bounce (bounce : bool) : M fs bool :=
  if bounce then mret true else p ← malloc; mret (nonnull p).

Definition min_chunk (size inode_left sector_left : Z) : Z :=
  let min_left := if inode_left <? sector_left then inode_left else sector_left in
  if size <? min_left then size else min_left.

(** The number of bytes returned is the length of the list. *)
Definition inode_read_at (i size offset : Z) : M fs (list Z) :=
  loop (S (Z.to_nat size)) (fun '(size, offset, out, bounce) =>
    if 0 <? size then
      ino ← get_inode i;
      let sector_idx := byte_to_sector ino offset in
      let sector_ofs := Z.rem offset BLOCK_SECTOR_SIZE in
      inode_len ← inode_length i;
      let inode_left := inode_len - offset in
      let sector_left := BLOCK_SECTOR_SIZE - sector_ofs in
      let chunk_size := min_chunk size inode_left sector_left in
      if chunk_size <=? 0 then mret (inr out)
      else if (sector_ofs =? 0) && (chunk_size =? BLOCK_SECTOR_SIZE) then
        b ← block_read sector_idx;
        mret (inl (size - chunk_size, offset + chunk_size, out ++ b, bounce))
      else
        ok ← get_bounce bounce;
        if ok : bool then
          b ← block_read sector_idx;
          mret (inl (size - chunk_size, offset + chunk_size,
                     out ++ take (Z.to_nat chunk_size) (drop (Z.to_nat sector_ofs) b), true))
        else mret (inr out)
    else mret (inr out)) (size, offset, [], false).

(** [bs] with [c] written over it at [o]. *)
Definition splice (bs : list Z) (o : nat) (c : list Z) : list Z :=
  take o bs ++ c ++ drop (o + length c) bs.

(** The number of bytes written; [buffer] holds at least [size] bytes. *)
Definition inode_write_at (i : Z) (buffer : list Z) (size offset : Z) : M fs Z :=
  ino ← get_inode i;
  if negb (deny_write_cnt ino =? 0) then mret 0
  else
    loop (S (Z.to_nat size)) (fun '(size, offset, bytes_written, bounce) =>
      if 0 <? size then
        ino ← get_inode i;
        let sector_idx := byte_to_sector ino offset in
        let sector_ofs := Z.rem offset BLOCK_SECTOR_SIZE in
        inode_len ← inode_length i;
        let inode_left := inode_len - offset in
        let sector_left := BLOCK_SECTOR_SIZE - sector_ofs in
        let chunk_size := min_chunk size inode_left sector_left in
        let chunk := take (Z.to_nat chunk_size) (drop (Z.to_nat bytes_written) buffer) in
        if chunk_size <=? 0 then mret (inr bytes_written)
        else if (sector_ofs =? 0) && (chunk_size =? BLOCK_SECTOR_SIZE) then
          block_write sector_idx chunk;;
          mret (inl (size - chunk_size, offset + chunk_size, bytes_written + chunk_size, bounce))
        else
          ok ← get_bounce bounce;
          if ok : bool then
            b ← (if (0 <? sector_ofs) || (chunk_size <? sector_left) then block_read sector_idx
                 else mret (replicate (Z.to_nat BLOCK_SECTOR_SIZE) 0));
            block_write sector_idx (splice b (Z.to_nat sector_ofs) chunk);;
            mret (inl (size - chunk_size, offset + chunk_size, bytes_written + chunk_size, true))
          else mret (inr bytes_written)
      else mret (inr bytes_written)) (size, offset, 0, false).

(** ** file.c: positioned access *)

Definition file_read_at (f size ofs : Z) : M fs (list Z) :=
  x ← get_file f; inode_read_at (f_inode x) size ofs.
Definition file_write_at (f : Z) (buffer : list Z) (size ofs : Z) : M fs Z :=
  x ← get_file f; inode_write_at (f_inode x) buffer size ofs.

(** ** bitmap.c: files *)

Definition bitmap_file_size (b : bitmap) : Z := byte_cnt (bit_cnt b).

Definition bitmap_write (b : bitmap) (f : Z) : M fs bool :=
  let size := byte_cnt (bit_cnt b) in
  n ← file_write_at f (words32 (bits b)) size 0; mret (n =? size).

(** The elements of [b] with the bytes [bs] read over them. *)
Fixpoint unwords32 (n : nat) (bs : list Z) : list Z :=
  match n with O => [] | S n => unle (take 4 bs) :: unwords32 n (drop 4 bs) end.

Definition bitmap_read (f : Z) : M fs bool :=
  s ← mget;
  let b := free_map s in
  if 0 <? bit_cnt b then
    let size := byte_cnt (bit_cnt b) in
    bs ← file_read_at f size 0;
    let all := bs ++ drop (length bs) (words32 (bits b)) in
    let es := unwords32 (length (bits b)) all in
    let last := Z.to_nat (elem_cnt (bit_cnt b) - 1) in
    match es !! last with
    | Some e =>
      modify (set_free_map (mk_bitmap (bit_cnt b) (<[last := Z.land e (last_mask b)]> es)));;
      mret (Z.of_nat (length bs) =? size)
    | None => mfail Fault
    end
  else mret true.

(** ** free-map.c *)

(** A computation on the free map. *)
Definition on_free_map {A} (c : M bitmap A) : M fs A :=
  fun s => match c (free_map s) with Ok (a, b) => Ok (a, set_free_map b s) | Err e => Err e end.

Definition free_map_allocate (cnt : Z) : M fs (option Z) :=
  sector ← on_free_map (bitmap_scan_and_flip 0 cnt false);
  s ← mget;
  sector ← (if negb (sector =? BITMAP_ERROR) && nonnull (free_map_file s) then
              ok ← bitmap_write (free_map s) (free_map_file s);
              if ok : bool then mret sector
              else on_free_map (bitmap_set_multiple sector cnt false);; mret BITMAP_ERROR
            else mret sector);
  mret (if negb (sector =? BITMAP_ERROR) then Some sector else None).

Definition free_map_release (sector cnt : Z) : M fs unit :=
  all ← on_free_map (bitmap_all sector cnt);
  ASSERT all;;
  on_free_map (bitmap_set_multiple sector cnt false);;
  s ← mget;
  bitmap_write (free_map s) (free_map_file s);;
  mret tt.

(** ** inode.c: creation, opening, closing *)

Definition inode_create (sector length : Z) : M fs bool :=
  ASSERT (0 <=? length);;
  p ← malloc;
  if nonnull p then
    let sectors := bytes_to_sectors length in
    a ← free_map_allocate sectors;
    match a with
    | Some first =>
      block_write sector (encode_inode (mk_disk first length INODE_MAGIC));;
      (if 0 <? sectors then
         loop (S (Z.to_nat sectors)) (fun i =>
           if i <? sectors then
             block_write (u32 (first + i)) (replicate (Z.to_nat BLOCK_SECTOR_SIZE) 0);;
             mret (inl (i + 1))
           else mret (inr tt)) 0
       else mret tt);;
      mret true
    | None => mret false
    end
  else mret false.

Definition inode_reopen (i : Z) : M fs Z :=
  if nonnull i then
    ino ← get_inode i;
    put_inode i (mk_inode (sector ino) (open_cnt ino + 1) (removed ino) (deny_write_cnt ino) (data ino));;
    mret i
  else mret i.

(** The search of [inode_open] through the open inodes. *)
Fixpoint find_open (n : Z) (l : list Z) : M fs (option Z) :=
  match l with
  | [] => mret None
  | i :: l => ino ← get_inode i; if sector ino =? n then mret (Some i) else find_open n l
  end.

Definition inode_open (n : Z) : M fs Z :=
  s ← mget;
  found ← find_open n (open_inodes s);
  match found with
  | Some i => inode_reopen i
  | None =>
    i ← malloc;
    if i =? NULL then mret NULL
    else
      modify (fun s => set_inodes (inodes s) (i :: open_inodes s) s);;
      b ← block_read n;
      put_inode i (mk_inode n 1 false 0 (decode_inode b));;
      mret i
  end.

Definition inode_close (i : Z) : M fs unit :=
  if i =? NULL then mret tt
  else
    ino ← get_inode i;
    put_inode i (mk_inode (sector ino) (open_cnt ino - 1) (removed ino) (deny_write_cnt ino) (data ino));;
    if open_cnt ino - 1 =? 0 then
      modify (fun s => set_inodes (inodes s) (filter (fun x => x ≠ i) (open_inodes s)) s);;
      (if removed ino then
         free_map_release (sector ino) 1;;
         free_map_release (start (data ino)) (bytes_to_sectors (length_of (data ino)))
       else mret tt);;
      modify (fun s => set_inodes (delete i (inodes s)) (open_inodes s) s)
    else mret tt.

Definition inode_remove (i : Z) : M fs unit :=
  ino ← get_inode i;
  put_inode i (mk_inode (sector ino) (open_cnt ino) true (deny_write_cnt ino) (data ino)).

Definition inode_deny_write (i : Z) : M fs unit :=
  ino ← get_inode i;
  put_inode i (mk_inode (sector ino) (open_cnt ino) (removed ino) (deny_write_cnt ino + 1) (data ino));;
  ASSERT (deny_write_cnt ino + 1 <=? open_cnt ino).

Definition inode_allow_write (i : Z) : M fs unit :=
  ino ← get_inode i;
  ASSERT (0 <? deny_write_cnt ino);;
  ASSERT (deny_write_cnt ino <=? open_cnt ino);;
  put_inode i (mk_inode (sector ino) (open_cnt ino) (removed ino) (deny_write_cnt ino - 1) (data ino)).

(** ** file.c *)

Definition file_open (i : Z) : M fs Z :=
  f ← malloc;
  if nonnull i && nonnull f then
    put_file f (mk_file i 0 false);; mret f
  else
    inode_close i;; mret NULL.

Definition file_reopen (f : Z) : M fs Z := x ← get_file f; i ← inode_reopen (f_inode x); file_open i.

Definition file_deny_write (f : Z) : M fs unit :=
  ASSERT (nonnull f);;
  x ← get_file f;
  if negb (deny_write x) then
    put_file f (mk_file (f_inode x) (pos x) true);; inode_deny_write (f_inode x)
  else mret tt.

Definition file_allow_write (f : Z) : M fs unit :=
  ASSERT (nonnull f);;
  x ← get_file f;
  if deny_write x then
    put_file f (mk_file (f_inode x) (pos x) false);; inode_allow_write (f_inode x)
  else mret tt.

Definition file_close (f : Z) : M fs unit :=
  if nonnull f then
    file_allow_write f;;
    x ← get_file f;
    inode_close (f_inode x);;
    modify (fun s => set_files (delete f (files s)) s)
  else mret tt.

Definition file_read (f size : Z) : M fs (list Z) :=
  x ← get_file f;
  out ← inode_read_at (f_inode x) size (pos x);
  x ← get_file f;
  put_file f (mk_file (f_inode x) (s32 (pos x + Z.of_nat (length out))) (deny_write x));;
  mret out.

Definition file_write (f : Z) (buffer : list Z) (size : Z) : M fs Z :=
  x ← get_file f;
  n ← inode_write_at (f_inode x) buffer size (pos x);
  x ← get_file f;
  put_file f (mk_file (f_inode x) (s32 (pos x + n)) (deny_write x));;
  mret n.

Definition file_length (f : Z) : M fs Z :=
  ASSERT (nonnull f);; x ← get_file f; inode_length (f_inode x).

Definition file_seek (f new_pos : Z) : M fs unit :=
  ASSERT (nonnull f);;
  ASSERT (0 <=? new_pos);;
  x ← get_file f;
  put_file f (mk_file (f_inode x) new_pos (deny_write x)).

Definition file_tell (f : Z) : M fs Z := ASSERT (nonnull f);; x ← get_file f; mret (pos x).

(** ** free-map.c: the free map file *)

Definition free_map_init (device_size : Z) (malloc_bits : option (list Z)) : M fs unit :=
  s ← mget;
  b ← mlift (bitmap_create device_size (mallocs (clock s)) malloc_bits);
  match b with
  | Some b =>
    modify (set_free_map b);;
    on_free_map (bitmap_mark FREE_MAP_SECTOR);;
    on_free_map (bitmap_mark ROOT_DIR_SECTOR)
  | None => mfail Panic
  end.

Definition free_map_open : M fs unit :=
  i ← inode_open FREE_MAP_SECTOR;
  f ← file_open i;
  modify (set_free_map_file f);;
  if f =? NULL then mfail Panic
  else ok ← bitmap_read f; if ok : bool then mret tt else mfail Panic.

Definition free_map_close : M fs unit := s ← mget; file_close (free_map_file s).

Definition free_map_create : M fs unit :=
  s ← mget;
  ok ← inode_create FREE_MAP_SECTOR (bitmap_file_size (free_map s));
  if ok : bool then
    i ← inode_open FREE_MAP_SECTOR;
    f ← file_open i;
    modify (set_free_map_file f);;
    if f =? NULL then mfail Panic
    else s ← mget;
         w ← bitmap_write (free_map s) f;
         if w : bool then mret tt else mfail Panic
  else mfail Panic.
End Operations.

(** * Contents *)

(** The number of data sectors, the sectors, and the bytes of an inode. *)
Definition nsectors (d : inode_disk) : Z := (length_of d + 511) / 512.
Definition sectors (s : fs) (d : inode_disk) : list (list Z) :=
  map (fun k => default [] (disk s !! (start d + k))) (seqZ 0 (nsectors d)).
Definition bytes_of (s : fs) (d : inode_disk) : list Z :=
  take (Z.to_nat (length_of d)) (concat (sectors s d)).
Definition content (s : fs) (i : Z) : option (list Z) :=
  ino ← inodes s !! i; Some (bytes_of s (data ino)).

(** Sector [n] holds data of the inode. *)
Definition in_data (d : inode_disk) (n : Z) : Prop := start d <= n < start d + nsectors d.

Record disk_ok (s : fs) (d : inode_disk) : Prop := {
  dk_len : 0 <= length_of d < 2 ^ 31 - 512;
  dk_start : 0 <= start d /\ start d + nsectors d <= 2 ^ 32;
  dk_sectors : forall n, in_data d n -> is_Some (disk s !! n)
}.

Record fs_wf (s : fs) : Prop := {
  fw_sector : forall n b, disk s !! n = Some b -> length b = 512%nat;
  fw_inode : forall i ino, inodes s !! i = Some ino -> disk_ok s (data ino);
  fw_apart : forall i j x y n, inodes s !! i = Some x -> inodes s !! j = Some y -> i ≠ j ->
             in_data (data x) n -> ~ in_data (data y) n;
  fw_heap : 0 < next_addr s
}.

(** [s'] differs from [s] in the heap only. *)
Definition heap_eq (s s' : fs) : Prop := exists a c, s' = set_heap a c s /\ next_addr s <= a.

Section Slices.
Implicit Types (bs c : list Z) (L : list (list Z)).

Lemma length_splice bs o c : (o + length c <= length bs)%nat -> length (splice bs o c) = length bs.
Proof.
  intros H. unfold splice. rewrite !length_app, length_take, length_drop. lia.
Qed.

Lemma splice_app_l bs cs o c :
  (o + length c <= length bs)%nat -> splice (bs ++ cs) o c = splice bs o c ++ cs.
Proof.
  intros H. unfold splice. rewrite take_app_le by lia. rewrite drop_app_le by lia.
  by rewrite <-!app_assoc.
Qed.

Lemma splice_app_r bs cs o c :
  splice (bs ++ cs) (length bs + o) c = bs ++ splice cs o c.
Proof.
  unfold splice. rewrite take_app_add, <-Nat.add_assoc, drop_app_add. by rewrite <-!app_assoc.
Qed.

(** A slice inside one of the blocks of a list of equal blocks. *)
Lemma concat_slice L q o n b :
  Forall (fun x => length x = 512%nat) L -> L !! q = Some b -> (o + n <= 512)%nat ->
  take n (drop (q * 512 + o) (concat L)) = take n (drop o b).
Proof.
  intros HL. revert q. induction HL as [|x L Hx HL IH]; intros q Hq Ho; [done|].
  destruct q as [|q]; simpl in Hq.
  - simplify_eq. simpl. rewrite drop_app_le by lia. rewrite take_app_le; [done|].
    rewrite length_drop. lia.
  - simpl concat. replace (S q * 512 + o)%nat with (length x + (q * 512 + o))%nat by lia.
    rewrite drop_app_add. by apply IH.
Qed.

Lemma concat_splice L q o c b :
  Forall (fun x => length x = 512%nat) L -> L !! q = Some b -> (o + length c <= 512)%nat ->
  concat (<[q := splice b o c]> L) = splice (concat L) (q * 512 + o) c.
Proof.
  intros HL. revert q. induction HL as [|x L Hx HL IH]; intros q Hq Ho; [done|].
  destruct q as [|q]; simpl in Hq.
  - simplify_eq. simpl. by rewrite splice_app_l by lia.
  - change (<[S q := splice b o c]> (x :: L)) with (x :: <[q := splice b o c]> L). cbn [concat].
    rewrite IH by done. replace (S q * 512 + o)%nat with (length x + (q * 512 + o))%nat by lia.
    by rewrite splice_app_r.
Qed.

Lemma length_concat_512 L :
  Forall (fun x => length x = 512%nat) L -> length (concat L) = (512 * length L)%nat.
Proof. induction 1 as [|x L Hx _ IH]; simpl; [done|]. rewrite length_app, IH, Hx. lia. Qed.

Lemma take_splice bs n o c :
  (o + length c <= n)%nat -> (n <= length bs)%nat -> take n (splice bs o c) = splice (take n bs) o c.
Proof.
  intros H1 H2. rewrite <-(take_drop n bs) at 1. rewrite splice_app_l by (rewrite length_take; lia).
  rewrite take_app_le; [|rewrite length_splice; rewrite length_take; lia].
  rewrite take_ge; [done|]. rewrite length_splice; rewrite length_take; lia.
Qed.

(** Two adjacent writes. *)
Lemma splice_splice bs o c d :
  (o + length c + length d <= length bs)%nat ->
  splice (splice bs o c) (o + length c) d = splice bs o (c ++ d).
Proof.
  intros H. set (p := take o bs ++ c). set (r := drop (o + length c) bs).
  assert (length p = o + length c)%nat as Hp by (unfold p; rewrite length_app, length_take; lia).
  assert (splice bs o c = p ++ r) as -> by (unfold splice; by rewrite app_assoc).
  rewrite <-Hp, <-(Nat.add_0_r (length p)), splice_app_r. unfold splice, p, r. simpl.
  rewrite drop_drop, <-!app_assoc, length_app. do 4 f_equal. lia.
Qed.
End Slices.

Section Access.
Context (mallocs : nat -> bool) (Hmalloc : forall n, mallocs n = true).
Implicit Types (s : fs) (d : inode_disk).

Lemma heap_eq_refl s : heap_eq s s.
Proof. exists (next_addr s), (clock s). split; [by destruct s|lia]. Qed.

Lemma heap_eq_trans s1 s2 s3 : heap_eq s1 s2 -> heap_eq s2 s3 -> heap_eq s1 s3.
Proof. intros (a & c & -> & H1) (a' & c' & -> & H2). exists a', c'. simpl in *. split; [done|lia]. Qed.

Lemma heap_eq_wf s s' : heap_eq s s' -> fs_wf s -> fs_wf s'.
Proof.
  intros (a & c & -> & Ha) [H1 H2 H3 H4]. split; simpl; [done| |done|lia].
  intros i ino Hi. destruct (H2 i ino Hi). by split.
Qed.

Lemma heap_eq_same s s' :
  heap_eq s s' -> disk s' = disk s /\ inodes s' = inodes s /\ open_inodes s' = open_inodes s /\
  files s' = files s /\ dirs s' = dirs s /\ free_map s' = free_map s /\ free_map_file s' = free_map_file s.
Proof. by intros (a & c & -> & _). Qed.

Lemma wp_malloc s (Q : Z -> fs -> Prop) :
  0 < next_addr s ->
  Q (next_addr s) (set_heap (next_addr s + 1) (S (clock s)) s) -> wp (malloc mallocs) s Q.
Proof.
  intros Hn HQ. apply wp_bind, wp_get. rewrite Hmalloc. apply wp_bind, wp_bind, wp_get, wp_put, wp_ret.
  exact HQ.
Qed.

Lemma wp_get_bounce s bounce (Q : bool -> fs -> Prop) :
  0 < next_addr s -> (forall s', heap_eq s s' -> Q true s') -> wp (get_bounce mallocs bounce) s Q.
Proof.
  intros Hn HQ. unfold get_bounce. destruct bounce; [apply wp_ret, HQ, heap_eq_refl|].
  apply wp_bind, wp_malloc; [done|]. apply wp_ret. rewrite nonnull_pos by done. apply HQ.
  exists (next_addr s + 1), (S (clock s)). split; [done|lia].
Qed.

Lemma wp_get_inode s i ino (Q : inode -> fs -> Prop) :
  inodes s !! i = Some ino -> Q ino s -> wp (get_inode i) s Q.
Proof. intros H HQ. apply wp_bind, wp_get. by rewrite H. Qed.

Lemma wp_block_read s n b (Q : list Z -> fs -> Prop) :
  disk s !! n = Some b -> Q b s -> wp (block_read n) s Q.
Proof. intros H HQ. apply wp_bind, wp_get. by rewrite H. Qed.

Lemma wp_block_write s n b b' (Q : unit -> fs -> Prop) :
  disk s !! n = Some b -> Q tt (set_disk (<[n := b']> (disk s)) s) -> wp (block_write n b') s Q.
Proof. intros H HQ. apply wp_bind, wp_get. rewrite H. apply wp_bind, wp_get. by apply wp_put. Qed.

Lemma wp_inode_length s i ino (Q : Z -> fs -> Prop) :
  inodes s !! i = Some ino -> Q (length_of (data ino)) s -> wp (inode_length i) s Q.
Proof. intros H HQ. apply wp_bind. eapply wp_get_inode; [done|]. by apply wp_ret. Qed.

(** The sectors of an inode and where an offset falls in them. *)
Lemma sectors_512 s d :
  fs_wf s -> disk_ok s d -> Forall (fun x => length x = 512%nat) (sectors s d).
Proof.
  intros Hwf Hd. apply Forall_forall. intros x Hx. unfold sectors in Hx.
  apply list_elem_of_fmap in Hx as (k & -> & Hk). apply elem_of_seqZ in Hk.
  destruct (dk_sectors _ _ Hd (start d + k)) as [b Hb]; [unfold in_data; lia|].
  rewrite Hb. simpl. by eapply fw_sector.
Qed.

Lemma nsectors_bound d : 0 <= length_of d -> length_of d <= 512 * nsectors d < length_of d + 512.
Proof. intros H. unfold nsectors. Z.to_euclidean_division_equations. lia. Qed.

Lemma length_sectors s d : 0 <= length_of d -> length (sectors s d) = Z.to_nat (nsectors d).
Proof. intros H. unfold sectors. by rewrite length_map, length_seqZ. Qed.

Lemma length_bytes_of s d : fs_wf s -> disk_ok s d -> Z.of_nat (length (bytes_of s d)) = length_of d.
Proof.
  intros Hwf Hd. pose proof (dk_len _ _ Hd) as Hl. pose proof (nsectors_bound d) as Hn.
  unfold bytes_of. rewrite length_take, length_concat_512 by (by apply sectors_512).
  rewrite length_sectors by lia. lia.
Qed.

(** The sector with offset [off], and the offset's place in it. *)
Lemma sector_at s d off :
  fs_wf s -> disk_ok s d -> 0 <= off < length_of d ->
  exists b, disk s !! (start d + off / 512) = Some b /\ length b = 512%nat /\
    sectors s d !! Z.to_nat (off / 512) = Some b /\ in_data d (start d + off / 512).
Proof.
  intros Hwf Hd Ho. pose proof (nsectors_bound d) as Hn.
  assert (0 <= off / 512 < nsectors d) as Hq by (unfold nsectors in *; Z.to_euclidean_division_equations; lia).
  assert (in_data d (start d + off / 512)) as Hin by (unfold in_data; lia).
  destruct (dk_sectors _ _ Hd _ Hin) as [b Hb]. exists b. split_and!; [done|by eapply fw_sector| |done].
  unfold sectors. rewrite list_lookup_fmap, lookup_seqZ_lt by lia.
  cbn [fmap option_fmap option_map]. rewrite Z2Nat.id, Z.add_0_l by lia. by rewrite Hb.
Qed.

(** A slice of the contents inside one sector. *)
Lemma bytes_slice s d off n b :
  fs_wf s -> disk_ok s d -> 0 <= off < length_of d ->
  sectors s d !! Z.to_nat (off / 512) = Some b ->
  0 <= n -> off mod 512 + n <= 512 -> off + n <= length_of d ->
  take (Z.to_nat n) (drop (Z.to_nat off) (bytes_of s d)) =
  take (Z.to_nat n) (drop (Z.to_nat (off mod 512)) b).
Proof.
  intros Hwf Hd Ho Hb Hn H1 H2. pose proof (Z.mod_pos_bound off 512 eq_refl).
  rewrite <-(concat_slice (sectors s d) (Z.to_nat (off / 512)) (Z.to_nat (off mod 512)) (Z.to_nat n) b);
    [|by apply sectors_512|done|lia].
  replace (Z.to_nat (off / 512) * 512 + Z.to_nat (off mod 512))%nat with (Z.to_nat off)
    by (Z.to_euclidean_division_equations; lia).
  unfold bytes_of. rewrite !take_drop_commute, take_take. do 3 f_equal. lia.
Qed.

(** The chunk that an iteration of the access loops handles. *)
Lemma chunk_bounds size left o :
  0 <= o < 512 -> 0 < size -> 0 < left ->
  let c := min_chunk size left (512 - o) in
  0 < c /\ c <= size /\ c <= left /\ o + c <= 512 /\
  (c = size \/ c = left \/ o + c = 512).
Proof.
  intros Ho Hs Hl. unfold min_chunk. cbv zeta.
  destruct (Z.ltb_spec left (512 - o)); [destruct (Z.ltb_spec size left)|destruct (Z.ltb_spec size (512 - o))]; lia.
Qed.

Lemma chunk_end size left o :
  0 <= o < 512 -> left <= 0 -> (min_chunk size left (512 - o) <=? 0) = true.
Proof.
  intros Ho Hl. apply Z.leb_le. unfold min_chunk. destruct (Z.ltb_spec left (512 - o)); [|lia].
  destruct (Z.ltb_spec size left); lia.
Qed.

Lemma byte_to_sector_eq s i ino off :
  fs_wf s -> inodes s !! i = Some ino -> 0 <= off < length_of (data ino) ->
  byte_to_sector ino off = start (data ino) + off / 512.
Proof.
  intros Hwf Hi Ho. pose proof (fw_inode _ Hwf _ _ Hi) as Hd.
  destruct (sector_at s (data ino) off Hwf Hd Ho) as (b & _ & _ & _ & Hin).
  unfold byte_to_sector, BLOCK_SECTOR_SIZE, u32. rewrite (proj2 (Z.ltb_lt _ _)) by lia.
  rewrite Z.quot_div_nonneg by lia. pose proof (dk_start _ _ Hd). unfold in_data in Hin.
  apply Z.mod_small. lia.
Qed.

Lemma take_drop_add (l : list Z) a n m :
  take n (drop a l) ++ take m (drop (a + n) l) = take (n + m) (drop a l).
Proof. rewrite <-drop_drop. by rewrite take_take_drop. Qed.

(** The state of the loop of [inode_read_at] after [k] bytes. *)
Definition reading s (d : inode_disk) size offset (n : nat) (st : Z * Z * list Z * bool) s' : Prop :=
  let '(size', offset', out, _) := st in
  heap_eq s s' /\ exists k : nat, size' = size - Z.of_nat k /\ offset' = offset + Z.of_nat k /\
    0 <= size' /\ out = take k (drop (Z.to_nat offset) (bytes_of s d)) /\
    offset' <= Z.max offset (length_of d) /\ n = Z.to_nat size'.

Lemma bytes_of_heap_eq s s' d : heap_eq s s' -> bytes_of s' d = bytes_of s d.
Proof. by intros (a & c & -> & _). Qed.

Lemma reading_step s i ino size offset size' offset' out bounce bounce' n s' s'' b :
  fs_wf s -> inodes s !! i = Some ino -> 0 <= offset ->
  reading s (data ino) size offset n (size', offset', out, bounce) s' ->
  0 < size' -> offset' < length_of (data ino) -> heap_eq s' s'' ->
  let c := min_chunk size' (length_of (data ino) - offset') (512 - offset' mod 512) in
  sectors s (data ino) !! Z.to_nat (offset' / 512) = Some b ->
  exists n', (n' < n)%nat /\
    reading s (data ino) size offset n'
      (size' - c, offset' + c, out ++ take (Z.to_nat c) (drop (Z.to_nat (offset' mod 512)) b), bounce') s''.
Proof.
  intros Hwf Hi Ho (He & k & -> & -> & Hs & -> & Hoff & ->) Hs' Hlt He' c Hb.
  pose proof (fw_inode _ Hwf _ _ Hi) as Hd.
  destruct (chunk_bounds (size - Z.of_nat k) (length_of (data ino) - (offset + Z.of_nat k)) ((offset + Z.of_nat k) mod 512))
    as (C1 & C2 & C3 & C4 & _); [apply Z.mod_pos_bound; lia|lia|lia|]. fold c in C1, C2, C3, C4.
  exists (Z.to_nat (size - Z.of_nat k - c)). split; [lia|]. split; [by eapply heap_eq_trans|].
  exists (k + Z.to_nat c)%nat. split_and!; [lia|lia|lia| |lia|lia].
  rewrite <-(bytes_slice s (data ino) _ c b Hwf Hd) by (try done; lia).
  rewrite <-take_drop_add. do 3 f_equal. lia.
Qed.

Lemma wp_inode_read_at s i ino size offset (Q : list Z -> fs -> Prop) :
  fs_wf s -> inodes s !! i = Some ino -> 0 <= offset ->
  (forall s', heap_eq s s' ->
     Q (take (Z.to_nat size) (drop (Z.to_nat offset) (bytes_of s (data ino)))) s') ->
  wp (inode_read_at mallocs i size offset) s Q.
Proof.
  intros Hwf Hi Ho HQ. pose proof (fw_inode _ Hwf _ _ Hi) as Hd.
  pose proof (length_bytes_of _ _ Hwf Hd) as Hlen.
  destruct (Z.le_gt_cases size 0) as [Hneg|Hpos].
  { unfold inode_read_at. replace (Z.to_nat size) with O by lia. apply wp_loop_S.
    rewrite (proj2 (Z.ltb_ge 0 size)) by lia. apply wp_ret.
    replace (Z.to_nat size) with O in HQ by lia. rewrite take_0 in HQ. apply HQ, heap_eq_refl. }
  eapply (wp_loop (reading s (data ino) size offset)); [|split; [apply heap_eq_refl|]|].
  2: { exists O. split_and!; first [done|lia|by rewrite take_0]. }
  2: { lia. }
  intros n [[[size' offset'] out] bounce] s' Hr. pose proof Hr as (He & k & Hk1 & Hk2 & Hs & Hout & Hoff & Hn).
  destruct (heap_eq_same _ _ He) as (Ed & Ei & _). pose proof (heap_eq_wf _ _ He Hwf) as Hwf'.
  assert (inodes s' !! i = Some ino) as Hi' by (by rewrite Ei).
  destruct (Z.ltb_spec 0 size') as [Hs'|Hs']; cycle 1.
  { apply wp_ret. subst out. replace (Z.to_nat size) with k in HQ by lia. by apply HQ. }
  apply wp_bind. eapply wp_get_inode; [done|]. cbv zeta. apply wp_bind. eapply wp_inode_length; [done|].
  unfold BLOCK_SECTOR_SIZE. rewrite Z.rem_mod_nonneg by lia.
  destruct (Z.lt_ge_cases offset' (length_of (data ino))) as [Hlt|Hge]; cycle 1.
  { rewrite chunk_end by (try apply Z.mod_pos_bound; lia). apply wp_ret. subst out.
    rewrite take_ge; [|rewrite length_drop; lia]. rewrite take_ge in HQ by (rewrite length_drop; lia). by apply HQ. }
  destruct (chunk_bounds size' (length_of (data ino) - offset') (offset' mod 512)) as (C1 & C2 & C3 & C4 & _);
    [apply Z.mod_pos_bound; lia|lia|lia|]. set (c := min_chunk _ _ _) in *.
  rewrite (proj2 (Z.leb_gt c 0)) by lia. rewrite (byte_to_sector_eq s' i) by (try done; lia).
  destruct (sector_at s (data ino) offset' Hwf Hd) as (b & Hb1 & Hb2 & Hb3 & _); [lia|].
  assert (forall bounce' s'', heap_eq s' s'' -> exists n', (n' < n)%nat /\
    reading s (data ino) size offset n' (size' - c, offset' + c,
      out ++ take (Z.to_nat c) (drop (Z.to_nat (offset' mod 512)) b), bounce') s'') as Hstep.
  { intros bounce' s'' He''. eapply (reading_step s i ino); [done..|exact Hr|lia|lia|done|done]. }
  destruct ((offset' mod 512 =? 0) && (c =? 512)) eqn:Efull.
  - apply andb_true_iff in Efull as [E1 E2]. apply Z.eqb_eq in E1, E2.
    apply wp_bind. eapply wp_block_read; [by rewrite Ed|]. apply wp_ret.
    specialize (Hstep bounce s' (heap_eq_refl s')). rewrite E1, E2 in Hstep. rewrite E2.
    rewrite drop_0, take_ge in Hstep by lia. exact Hstep.
  - apply wp_bind. apply wp_get_bounce; [apply Hwf'|]. intros s'' He''.
    destruct (heap_eq_same _ _ He'') as (Ed'' & _).
    apply wp_bind. eapply wp_block_read; [by rewrite Ed'', Ed|]. apply wp_ret. by apply Hstep.
Qed.

(** ** Writing *)

(** [s'] is [s] with [bs] as the contents of [d]: only data sectors of [d] and
    the heap differ. *)
Record wrote s s' d (bs : list Z) : Prop := {
  wr_state : exists dk a c, s' = set_heap a c (set_disk dk s) /\ next_addr s <= a;
  wr_same : forall n, ~ in_data d n -> disk s' !! n = disk s !! n;
  wr_dom : forall n, is_Some (disk s !! n) -> is_Some (disk s' !! n);
  wr_512 : forall n x, disk s' !! n = Some x -> length x = 512%nat;
  wr_bytes : bytes_of s' d = bs
}.

Lemma wrote_heap s s' d : fs_wf s -> heap_eq s s' -> wrote s s' d (bytes_of s d).
Proof.
  intros Hwf (a & c & -> & Ha). split; [|done|done|apply Hwf|done].
  exists (disk s), a, c. split; [by destruct s|done].
Qed.

Lemma wrote_trans s1 s2 s3 d bs cs : wrote s1 s2 d bs -> wrote s2 s3 d cs -> wrote s1 s3 d cs.
Proof.
  intros [(dk & a & c & -> & Ha) S1 D1 L1 B1] [(dk' & a' & c' & -> & Ha') S2 D2 L2 B2].
  split; [|intros n Hn; by rewrite S2, S1|auto|done|done].
  exists dk', a', c'. simpl in *. split; [done|lia].
Qed.

Lemma wrote_wf s s' i ino bs :
  fs_wf s -> inodes s !! i = Some ino -> wrote s s' (data ino) bs -> fs_wf s'.
Proof.
  intros [H1 H2 H3 H4] Hi [(dk & a & c & -> & Ha) S1 D1 L1 B1]. split; simpl in *; [done| |done|lia].
  intros j y Hj. destruct (H2 _ _ Hj) as [L S X]. split; [done..|]. intros n Hn. by apply D1, X.
Qed.

(** Other inodes keep their contents. *)
Lemma bytes_of_disk s s' d :
  (forall n, in_data d n -> disk s' !! n = disk s !! n) -> bytes_of s' d = bytes_of s d.
Proof.
  intros H. unfold bytes_of, sectors. do 2 f_equal. apply list_fmap_ext. intros k x Hx.
  apply lookup_seqZ in Hx as [-> Hx]. rewrite H; [done|]. unfold in_data. lia.
Qed.

Lemma wrote_other s s' i j x y bs :
  fs_wf s -> inodes s !! i = Some x -> inodes s !! j = Some y -> i ≠ j ->
  wrote s s' (data x) bs -> bytes_of s' (data y) = bytes_of s (data y).
Proof.
  intros Hwf Hi Hj Hne Hw. apply bytes_of_disk. intros n Hn. apply (wr_same _ _ _ _ Hw).
  by apply (fw_apart _ Hwf j i y x n).
Qed.

(** One sector rewritten. *)
Lemma sectors_insert s d q x :
  0 <= q < nsectors d ->
  sectors (set_disk (<[start d + q := x]> (disk s)) s) d = <[Z.to_nat q := x]> (sectors s d).
Proof.
  intros Hq. apply list_eq. intros k. unfold sectors. cbn [disk set_disk].
  destruct (decide (k = Z.to_nat q)) as [->|Hne].
  - rewrite list_lookup_insert_eq by (rewrite length_map, length_seqZ; lia).
    rewrite list_lookup_fmap, lookup_seqZ_lt by lia. cbn [fmap option_fmap option_map].
    replace (start d + (0 + Z.of_nat (Z.to_nat q))) with (start d + q) by lia. by rewrite lookup_insert_eq.
  - rewrite list_lookup_insert_ne by done. rewrite !list_lookup_fmap.
    destruct (seqZ 0 (nsectors d) !! k) as [y|] eqn:Ey; [|done].
    apply lookup_seqZ in Ey as [-> Hk]. cbn [fmap option_fmap option_map].
    by rewrite lookup_insert_ne by lia.
Qed.

Lemma write_chunk s i ino off c b :
  fs_wf s -> inodes s !! i = Some ino -> 0 <= off < length_of (data ino) ->
  disk s !! (start (data ino) + off / 512) = Some b ->
  off mod 512 + Z.of_nat (length c) <= 512 -> off + Z.of_nat (length c) <= length_of (data ino) ->
  wrote s (set_disk (<[start (data ino) + off / 512 := splice b (Z.to_nat (off mod 512)) c]> (disk s)) s)
    (data ino) (splice (bytes_of s (data ino)) (Z.to_nat off) c).
Proof.
  intros Hwf Hi Ho Hb H1 H2. set (d := data ino) in *. pose proof (fw_inode _ Hwf _ _ Hi) as Hd. fold d in Hd.
  destruct (sector_at s d off Hwf Hd Ho) as (b' & Hb1 & Hb2 & Hb3 & Hin). simplify_eq.
  pose proof (Z.mod_pos_bound off 512 eq_refl) as Hm. pose proof (nsectors_bound d) as Hn.
  pose proof (sectors_512 _ _ Hwf Hd) as H512.
  split; cbn [disk set_disk].
  - exists (<[start d + off / 512 := splice b (Z.to_nat (off mod 512)) c]> (disk s)), (next_addr s), (clock s).
    split; [done|lia].
  - intros n Hnin. rewrite lookup_insert_ne; [done|]. by intros <-.
  - intros n Hs. by apply lookup_insert_is_Some'; right.
  - intros n x. rewrite lookup_insert_Some. intros [[<- <-]|[_ Hx]]; [|by eapply fw_sector].
    rewrite length_splice; lia.
  - unfold bytes_of. unfold in_data in Hin. rewrite sectors_insert by lia.
    rewrite (concat_splice _ _ _ _ b) by (done || lia).
    replace (Z.to_nat (off / 512) * 512 + Z.to_nat (off mod 512))%nat with (Z.to_nat off)
      by (Z.to_euclidean_division_equations; lia).
    apply take_splice; [lia|]. rewrite length_concat_512, length_sectors by (done || lia). lia.
Qed.

(** The state of the loop of [inode_write_at] after [k] bytes. *)
Definition writing s (d : inode_disk) buffer size offset (n : nat) (st : Z * Z * Z * bool) s' : Prop :=
  let '(size', offset', written, _) := st in
  exists k : nat, size' = size - Z.of_nat k /\ offset' = offset + Z.of_nat k /\ written = Z.of_nat k /\
    0 <= size' /\ offset' <= Z.max offset (length_of d) /\ n = Z.to_nat size' /\
    wrote s s' d (splice (bytes_of s d) (Z.to_nat offset) (take k buffer)).

Lemma splice_nil bs o : splice bs o [] = bs.
Proof. unfold splice. simpl. by rewrite Nat.add_0_r, take_drop. Qed.

Lemma splice_full b c : length b = length c -> splice b 0 c = c.
Proof. intros H. unfold splice. simpl. by rewrite drop_ge, app_nil_r by lia. Qed.

Lemma writing_step s i ino buffer size offset size' offset' w bounce bounce' n s' s'' b :
  fs_wf s -> inodes s !! i = Some ino -> 0 <= offset -> size <= Z.of_nat (length buffer) ->
  writing s (data ino) buffer size offset n (size', offset', w, bounce) s' ->
  0 < size' -> offset' < length_of (data ino) -> heap_eq s' s'' ->
  let c := min_chunk size' (length_of (data ino) - offset') (512 - offset' mod 512) in
  disk s'' !! (start (data ino) + offset' / 512) = Some b ->
  exists n', (n' < n)%nat /\
    writing s (data ino) buffer size offset n' (size' - c, offset' + c, w + c, bounce')
      (set_disk (<[start (data ino) + offset' / 512 :=
          splice b (Z.to_nat (offset' mod 512)) (take (Z.to_nat c) (drop (Z.to_nat w) buffer))]> (disk s'')) s'').
Proof.
  intros Hwf Hi Ho Hbuf (k & -> & -> & -> & Hs & Hoff & -> & Hw) Hs' Hlt He c Hb.
  pose proof (wrote_wf _ _ _ _ _ Hwf Hi Hw) as Hwf'. pose proof (heap_eq_wf _ _ He Hwf') as Hwf''.
  assert (inodes s'' !! i = Some ino) as Hi''.
  { destruct (heap_eq_same _ _ He) as (_ & -> & _). by destruct Hw as [(dk & a & cl & -> & _) _ _ _ _]. }
  pose proof (length_bytes_of _ _ Hwf (fw_inode _ Hwf _ _ Hi)) as Hlen.
  destruct (chunk_bounds (size - Z.of_nat k) (length_of (data ino) - (offset + Z.of_nat k)) ((offset + Z.of_nat k) mod 512))
    as (C1 & C2 & C3 & C4 & _); [apply Z.mod_pos_bound; lia|lia|lia|]. fold c in C1, C2, C3, C4.
  exists (Z.to_nat (size - Z.of_nat k - c)). split; [lia|].
  exists (k + Z.to_nat c)%nat. split_and!; [lia..|].
  rewrite Nat2Z.id. set (ch := take (Z.to_nat c) (drop k buffer)).
  assert (length ch = Z.to_nat c) as Hch by (unfold ch; rewrite length_take, length_drop; lia).
  pose proof (wrote_trans _ _ _ _ _ _ Hw (wrote_heap _ _ (data ino) Hwf' He)) as Hw2.
  pose proof (write_chunk s'' i ino (offset + Z.of_nat k) ch b Hwf'' Hi'' ltac:(lia) Hb ltac:(lia) ltac:(lia)) as Hw3.
  pose proof (wrote_trans _ _ _ _ _ _ Hw2 Hw3) as Hw4.
  rewrite (bytes_of_heap_eq _ _ _ He), (wr_bytes _ _ _ _ Hw) in Hw4.
  replace (splice (bytes_of s (data ino)) (Z.to_nat offset) (take (k + Z.to_nat c) buffer)) with
    (splice (splice (bytes_of s (data ino)) (Z.to_nat offset) (take k buffer)) (Z.to_nat (offset + Z.of_nat k)) ch);
    [exact Hw4|].
  replace (Z.to_nat (offset + Z.of_nat k)) with (Z.to_nat offset + length (take k buffer))%nat
    by (rewrite length_take; lia).
  rewrite splice_splice by (rewrite length_take; lia). f_equal. unfold ch. by rewrite take_take_drop.
Qed.

Lemma wp_inode_write_at s i ino buffer size offset (Q : Z -> fs -> Prop) :
  fs_wf s -> inodes s !! i = Some ino -> 0 <= offset -> 0 <= size <= Z.of_nat (length buffer) ->
  deny_write_cnt ino = 0 ->
  (forall k s', Z.of_nat k = Z.min size (Z.max 0 (length_of (data ino) - offset)) ->
     wrote s s' (data ino) (splice (bytes_of s (data ino)) (Z.to_nat offset) (take k buffer)) ->
     Q (Z.of_nat k) s') ->
  wp (inode_write_at mallocs i buffer size offset) s Q.
Proof.
  intros Hwf Hi Ho Hbuf Hdeny HQ. unfold inode_write_at.
  apply wp_bind. eapply wp_get_inode; [done|]. rewrite Hdeny. cbn [negb].
  change (0 =? 0) with true. cbn [negb].
  eapply (wp_loop (writing s (data ino) buffer size offset)).
  2: { exists O. split_and!; [lia|lia|lia|lia|lia|done|]. rewrite take_0, splice_nil. by apply wrote_heap, heap_eq_refl. }
  2: { lia. }
  intros n [[[size' offset'] w] bounce] s' Hr. pose proof Hr as (k & Hk1 & Hk2 & Hk3 & Hs & Hoff & Hn & Hw).
  pose proof (wrote_wf _ _ _ _ _ Hwf Hi Hw) as Hwf'.
  assert (inodes s' !! i = Some ino) as Hi' by (by destruct Hw as [(dk & a & cl & -> & _) _ _ _ _]).
  pose proof (fw_inode _ Hwf' _ _ Hi') as Hd'.
  destruct (Z.ltb_spec 0 size') as [Hs'|Hs']; cycle 1.
  { apply wp_ret. subst w. apply HQ; [lia|done]. }
  apply wp_bind. eapply wp_get_inode; [done|]. cbv zeta. apply wp_bind. eapply wp_inode_length; [done|].
  unfold BLOCK_SECTOR_SIZE. rewrite Z.rem_mod_nonneg by lia.
  destruct (Z.lt_ge_cases offset' (length_of (data ino))) as [Hlt|Hge]; cycle 1.
  { rewrite chunk_end by (try apply Z.mod_pos_bound; lia). apply wp_ret. subst w. apply HQ; [lia|done]. }
  destruct (chunk_bounds size' (length_of (data ino) - offset') (offset' mod 512)) as (C1 & C2 & C3 & C4 & _);
    [apply Z.mod_pos_bound; lia|lia|lia|].
  pose proof (fun bounce' s'' b He => writing_step s i ino buffer size offset size' offset' w bounce bounce' n s' s'' b
    Hwf Hi Ho ltac:(lia) Hr Hs' Hlt He) as Hstep.
  set (c := min_chunk _ _ _) in *.
  rewrite (proj2 (Z.leb_gt c 0)) by lia. rewrite (byte_to_sector_eq s' i) by (try done; lia).
  destruct (sector_at s' (data ino) offset' Hwf' Hd') as (b & Hb1 & Hb2 & Hb3 & _); [lia|].
  destruct ((offset' mod 512 =? 0) && (c =? 512)) eqn:Efull.
  - apply andb_true_iff in Efull as [E1 E2]. apply Z.eqb_eq in E1, E2.
    apply wp_bind. eapply wp_block_write; [done|]. apply wp_ret.
    specialize (Hstep bounce s' b (heap_eq_refl s') Hb1). rewrite E1, E2 in Hstep. rewrite E2.
    rewrite splice_full in Hstep; [exact Hstep|]. rewrite length_take, length_drop. lia.
  - apply wp_bind. apply wp_get_bounce; [apply Hwf'|]. intros s'' He.
    destruct (heap_eq_same _ _ He) as (Ed & _). rewrite <-Ed in Hb1.
    replace ((0 <? offset' mod 512) || (c <? 512 - offset' mod 512)) with true.
    2: { apply andb_false_iff in Efull. symmetry. apply orb_true_iff. rewrite !Z.ltb_lt.
         rewrite !Z.eqb_neq in Efull. pose proof (Z.mod_pos_bound offset' 512). lia. }
    apply wp_bind. eapply wp_block_read; [done|]. apply wp_bind. eapply wp_block_write; [done|]. apply wp_ret.
    exact (Hstep true s'' b He Hb1).
Qed.

Lemma wp_inode_write_denied s i ino buffer size offset (Q : Z -> fs -> Prop) :
  inodes s !! i = Some ino -> deny_write_cnt ino ≠ 0 -> Q 0 s ->
  wp (inode_write_at mallocs i buffer size offset) s Q.
Proof.
  intros Hi Hd HQ. apply wp_bind. eapply wp_get_inode; [done|].
  rewrite (proj2 (Z.eqb_neq _ _)) by done. by apply wp_ret.
Qed.
End Access.

(** * Claims *)

(** Reading from an open inode returns exactly the bytes of the file from
    the offset, up to [size] and to the end of the file, whatever sectors they
    cross; the disk and the inodes do not change and the loop ends. *)
Theorem inode_read_at_correct mallocs s i ino size offset :
  (forall n, mallocs n = true) -> fs_wf s -> inodes s !! i = Some ino -> 0 <= offset ->
  exists s', inode_read_at mallocs i size offset s =
    Ok (take (Z.to_nat size) (drop (Z.to_nat offset) (bytes_of s (data ino))), s') /\ heap_eq s s'.
Proof.
  intros Hm Hwf Hi Ho.
  destruct (proj1 (wp_unfold _ _ _) (wp_inode_read_at mallocs Hm s i ino size offset
    (fun out s' => out = take (Z.to_nat size) (drop (Z.to_nat offset) (bytes_of s (data ino))) /\ heap_eq s s')
    Hwf Hi Ho (fun s' H => conj eq_refl H))) as (out & s' & E & -> & He).
  by exists s'.
Qed.

(** Writing to an open inode replaces exactly the bytes that fit before the
    end of the file and reports their number, or changes nothing when writes are
    denied.  The file keeps its length, every other open file keeps its
    contents, and the file system stays well formed. *)
Theorem inode_write_at_correct mallocs s i ino buffer size offset :
  (forall n, mallocs n = true) -> fs_wf s -> inodes s !! i = Some ino ->
  0 <= offset -> 0 <= size <= Z.of_nat (length buffer) ->
  let k := if deny_write_cnt ino =? 0
           then Z.min size (Z.max 0 (length_of (data ino) - offset)) else 0 in
  exists s', inode_write_at mallocs i buffer size offset s = Ok (k, s') /\
    fs_wf s' /\ inodes s' = inodes s /\
    content s' i = Some (splice (bytes_of s (data ino)) (Z.to_nat offset) (take (Z.to_nat k) buffer)) /\
    (forall j, j ≠ i -> content s' j = content s j).
Proof.
  intros Hm Hwf Hi Ho Hbuf. cbv zeta. destruct (Z.eqb_spec (deny_write_cnt ino) 0) as [Hd|Hd]; cycle 1.
  { exists s. split_and!; try done.
    - unfold inode_write_at. rewrite (bind_ok (get_inode i) _ s ino s).
      + by rewrite (proj2 (Z.eqb_neq _ _) Hd).
      + unfold get_inode. by rewrite (bind_ok mget _ s s s), Hi.
    - unfold content. rewrite Hi. cbn. by rewrite splice_nil. }
  assert (wp (inode_write_at mallocs i buffer size offset) s (fun r s' => exists k : nat, r = Z.of_nat k /\
    r = Z.min size (Z.max 0 (length_of (data ino) - offset)) /\
    wrote s s' (data ino) (splice (bytes_of s (data ino)) (Z.to_nat offset) (take k buffer)))) as Hwp.
  { eapply wp_inode_write_at; eauto. }
  apply wp_unfold in Hwp as (r & s' & E & k & Hr & Hk & Hw). exists s'. rewrite <-Hk.
  assert (inodes s' = inodes s) as Ei by (by destruct Hw as [(dk & a & c & -> & _) _ _ _ _]).
  split_and!; [done|by eapply wrote_wf|done| |].
  - unfold content. rewrite Ei, Hi. cbn. by rewrite (wr_bytes _ _ _ _ Hw), Hr, Nat2Z.id.
  - intros j Hj. unfold content. rewrite Ei. destruct (inodes s !! j) as [y|] eqn:Ey; [|done]. cbn.
    by rewrite (wrote_other s s' i j ino y _ Hwf Hi Ey (not_eq_sym Hj) Hw).
Qed.

(** A small device with two open files. *)
Definition demo_fs : fs :=
  mk_fs (gset_to_gmap (replicate 512 7) (list_to_set (seqZ 0 8)))
    {[ 100 := mk_inode 2 1 false 0 (mk_disk 3 700 INODE_MAGIC); 101 := mk_inode 5 1 false 0 (mk_disk 6 10 INODE_MAGIC) ]}
    [101; 100] ∅ ∅ (mk_bitmap 8 [127]) 0 200 0.

Lemma demo_disk n b : disk demo_fs !! n = Some b <-> 0 <= n < 8 /\ replicate 512 7 = b.
Proof.
  unfold demo_fs. cbn [disk]. rewrite lookup_gset_to_gmap_Some, elem_of_list_to_set, elem_of_seqZ.
  split; intros [H <-]; (split; [lia|done]).
Qed.

Lemma demo_inodes i x :
  inodes demo_fs !! i = Some x ->
  i = 100 /\ x = mk_inode 2 1 false 0 (mk_disk 3 700 INODE_MAGIC) \/
  i = 101 /\ x = mk_inode 5 1 false 0 (mk_disk 6 10 INODE_MAGIC).
Proof.
  unfold demo_fs. cbn [inodes]. rewrite lookup_insert_Some, lookup_singleton_Some. naive_solver.
Qed.

Lemma demo_fs_wf : fs_wf demo_fs.
Proof.
  split.
  - intros n b Hb. apply demo_disk in Hb as [_ <-]. by rewrite length_replicate.
  - intros i x Hi. apply demo_inodes in Hi as [[_ ->]|[_ ->]]; (split; [done|done|]);
      intros n Hn; exists (replicate 512 7); apply demo_disk; split; try done; revert Hn;
      unfold in_data, nsectors; cbn [start length_of data];
      change ((700 + 511) / 512) with 2; change ((10 + 511) / 512) with 1; lia.
  - intros i j x y n Hi Hj Hne. apply demo_inodes in Hi as [[-> ->]|[-> ->]];
      apply demo_inodes in Hj as [[-> ->]|[-> ->]]; try done; unfold in_data, nsectors; cbn [start length_of data];
      change ((700 + 511) / 512) with 2; change ((10 + 511) / 512) with 1; lia.
  - done.
Qed.

Lemma inode_read_at_correct_witness :
  exists s', inode_read_at (fun _ => true) 100 20 690 demo_fs =
    Ok (take 20 (drop 690 (bytes_of demo_fs (mk_disk 3 700 INODE_MAGIC))), s') /\ heap_eq demo_fs s'.
Proof.
  apply (inode_read_at_correct (fun _ => true) demo_fs 100 (mk_inode 2 1 false 0 (mk_disk 3 700 INODE_MAGIC)) 20 690).
  - done.
  - exact demo_fs_wf.
  - reflexivity.
  - lia.
Defined.

Lemma inode_write_at_correct_witness :
  exists s', inode_write_at (fun _ => true) 100 (replicate 600 1) 600 200 demo_fs = Ok (500, s') /\
    fs_wf s' /\ inodes s' = inodes demo_fs /\
    content s' 100 = Some (splice (bytes_of demo_fs (mk_disk 3 700 INODE_MAGIC)) 200 (take 500 (replicate 600 1))) /\
    (forall j, j ≠ 100 -> content s' j = content demo_fs j).
Proof.
  apply (inode_write_at_correct (fun _ => true) demo_fs 100 (mk_inode 2 1 false 0 (mk_disk 3 700 INODE_MAGIC))
    (replicate 600 1) 600 200).
  - done.
  - exact demo_fs_wf.
  - reflexivity.
  - lia.
  - rewrite length_replicate. lia.
Defined.
