(* ===== verification/Layout.v ===== *)
(** The layout of the file system on its device, over src/filesys/inode.c and
    src/filesys/free-map.c: the invariant that the inodes on the device own
    disjoint sectors, that the free map marks every owned sector and that its
    copy on the device is up to date; and its preservation by the operations
    that allocate, release, create, open and close. *)
From stdpp Require Import base list numbers gmap fin_maps.
From Stdlib Require Import ZArith Lia.
From S2P Require Import Prelude Strings Bitmap Inode.

Open Scope Z_scope.

(** * The invariant *)

(** Sector [k] belongs to the inode [d] that is stored in sector [n]. *)
Definition uses (n : Z) (d : inode_disk) (k : Z) : Prop := k = n \/ in_data d k.

(** The device: [A] maps the sector of each inode on it to the inode. *)
Record core (A : gmap Z inode_disk) (s : fs) : Prop := {
  co_sector : forall n b, disk s !! n = Some b -> length b = 512%nat;
  co_map : bm_wf (free_map s);
  co_disk : forall n, 0 <= n < bit_cnt (free_map s) -> is_Some (disk s !! n);
  co_inode : forall n d, A !! n = Some d -> disk_ok s d /\ exists b, disk s !! n = Some b /\ decode_inode b = d;
  co_self : forall n d, A !! n = Some d -> ~ in_data d n;
  co_apart : forall n d n' d' k, A !! n = Some d -> A !! n' = Some d' -> n ≠ n' -> uses n d k -> ~ uses n' d' k;
  co_used : forall n d k, A !! n = Some d -> uses n d k ->
    0 <= k < bit_cnt (free_map s) /\ bit (free_map s) k = true;
  co_end : forall n d, A !! n = Some d -> start d + nsectors d <= bit_cnt (free_map s)
}.

(** The handles: open inodes by address, each inode opened once; files and
    directories at addresses that the heap gave out. *)
Record handles (A : gmap Z inode_disk) (s : fs) : Prop := {
  ha_open : forall i ino, inodes s !! i = Some ino ->
    A !! sector ino = Some (data ino) /\ 1 <= open_cnt ino /\ 0 < i < next_addr s;
  ha_sect : forall i j x y, inodes s !! i = Some x -> inodes s !! j = Some y -> sector x = sector y -> i = j;
  ha_nodup : NoDup (open_inodes s);
  ha_list : forall i, i ∈ open_inodes s <-> is_Some (inodes s !! i);
  ha_heap : 0 < next_addr s;
  ha_files : forall f, is_Some (files s !! f) -> 0 < f < next_addr s;
  ha_dirs : forall d, is_Some (dirs s !! d) -> 0 < d < next_addr s
}.

(** The free map's file: its inode in sector 0, open, with room for the map. *)
Definition fm_inode (s : fs) (ino : inode) : Prop :=
  free_map_file s ≠ NULL /\ exists x, files s !! free_map_file s = Some x /\ inodes s !! f_inode x = Some ino /\
    sector ino = FREE_MAP_SECTOR /\ deny_write_cnt ino = 0 /\
    length_of (data ino) = byte_cnt (bit_cnt (free_map s)).

(** The bytes [bs] hold the bits of [b]; the unused bits of the last word may differ. *)
Definition saved (b : bitmap) (bs : list Z) : Prop :=
  exists es, bs = words32 es /\ bits_are b (mk_bitmap (bit_cnt b) es) (bit b).

Lemma saved_bits b : bm_wf b -> saved b (words32 (bits b)).
Proof. intros Hb. exists (bits b). split; [done|]. by destruct b. Qed.

(** The device with the free map's file, which is what allocation needs. *)
Record device (A : gmap Z inode_disk) (s : fs) : Prop := {
  dv_core : core A s;
  dv_wf : fs_wf s;
  dv_fm : exists ino, fm_inode s ino /\ A !! FREE_MAP_SECTOR = Some (data ino) /\
    saved (free_map s) (bytes_of s (data ino))
}.

Record layout (A : gmap Z inode_disk) (s : fs) : Prop := {
  ly_device : device A s;
  ly_handles : handles A s
}.

(** The handles of [s] and [s'] are the same. *)
Record same_handles (s s' : fs) : Prop := {
  sh_inodes : inodes s' = inodes s;
  sh_open : open_inodes s' = open_inodes s;
  sh_files : files s' = files s;
  sh_dirs : dirs s' = dirs s;
  sh_fm : free_map_file s' = free_map_file s;
  sh_heap : next_addr s <= next_addr s'
}.

(** The inodes of [A] other than those in the sectors [X] kept their contents. *)
Definition kept (X : list Z) (A : gmap Z inode_disk) (s s' : fs) : Prop :=
  forall n d, A !! n = Some d -> n ∉ X -> bytes_of s' d = bytes_of s d.

Section Core.
Implicit Types (A : gmap Z inode_disk) (s : fs).

Lemma core_wf A s : core A s -> handles A s -> fs_wf s.
Proof.
  intros Hc Hh. split.
  - apply Hc.
  - intros i ino Hi. destruct (ha_open _ _ Hh _ _ Hi) as [HA _]. by destruct (co_inode _ _ Hc _ _ HA).
  - intros i j x y n Hi Hj Hne Hx Hy. destruct (ha_open _ _ Hh _ _ Hi) as [HAi _].
    destruct (ha_open _ _ Hh _ _ Hj) as [HAj _].
    destruct (decide (sector x = sector y)) as [E|E]; [by apply Hne, (ha_sect _ _ Hh i j x y)|].
    apply (co_apart _ _ Hc _ _ _ _ n HAi HAj E); by right.
  - apply Hh.
Qed.

Lemma ly_core A s : layout A s -> core A s.
Proof. by intros [[]]. Qed.

Lemma same_handles_refl s : same_handles s s.
Proof. by split. Qed.

Lemma same_handles_trans s1 s2 s3 : same_handles s1 s2 -> same_handles s2 s3 -> same_handles s1 s3.
Proof. intros [] []. split; (congruence || lia). Qed.

Lemma kept_refl X A s : kept X A s s.
Proof. done. Qed.

Lemma kept_trans X A s1 s2 s3 : kept X A s1 s2 -> kept X A s2 s3 -> kept X A s1 s3.
Proof. intros H1 H2 n d Hn HX. by rewrite (H2 n d), (H1 n d). Qed.

Lemma kept_mono X Y A B s s' : X ⊆ Y -> B ⊆ A -> kept X A s s' -> kept Y B s s'.
Proof. intros HX HA H n d Hn Hni. apply (H n d); [by eapply lookup_weaken|set_solver]. Qed.

Lemma handles_same A s s' : handles A s -> same_handles s s' -> handles A s'.
Proof.
  intros [H1 H2 H3 H4 H5 H6 H7] [Si So Sf Sd Sm Sh].
  split; rewrite ?Si, ?So, ?Sf, ?Sd; [ |done|done|done|lia| |].
  - intros i ino Hi. destruct (H1 i ino Hi) as (? & ? & ?). split_and!; [done|done|lia|lia].
  - intros f Hf. specialize (H6 f Hf). lia.
  - intros d Hd. specialize (H7 d Hd). lia.
Qed.

(** Only the disk and the free map differ. *)
Lemma core_change A s s' :
  core A s -> bit_cnt (free_map s') = bit_cnt (free_map s) -> bm_wf (free_map s') ->
  (forall n b, disk s' !! n = Some b -> length b = 512%nat) ->
  (forall n, is_Some (disk s !! n) -> is_Some (disk s' !! n)) ->
  (forall n d, A !! n = Some d -> disk s' !! n = disk s !! n) ->
  (forall n d k, A !! n = Some d -> uses n d k -> bit (free_map s') k = true) ->
  core A s'.
Proof.
  intros Hc Hcnt Hbm H512 Hdom Hhead Hbits.
  split; rewrite ?Hcnt; [done|done| | |apply (co_self _ _ Hc)|apply (co_apart _ _ Hc)| |apply (co_end _ _ Hc)].
  - intros n Hn. by apply Hdom, (co_disk _ _ Hc).
  - intros n d Hn. destruct (co_inode _ _ Hc n d Hn) as [[D1 D2 D3] Hb]. rewrite (Hhead n d Hn).
    split; [|done]. split; [done|done|]. intros k Hk. by apply Hdom, D3.
  - intros n d k Hn Hk. split; [by eapply (co_used _ _ Hc)|by eapply Hbits].
Qed.

Lemma core_same A s s' : core A s -> disk s' = disk s -> free_map s' = free_map s -> core A s'.
Proof.
  intros Hc Hd Hf. eapply core_change; [done|by rewrite Hf|rewrite Hf; apply Hc|rewrite Hd; apply Hc|by rewrite Hd|by rewrite Hd|].
  intros n d k Hn Hk. rewrite Hf. by eapply (co_used _ _ Hc).
Qed.

Lemma core_delete A s n : core A s -> core (delete n A) s.
Proof.
  intros []. split; try done; intros; repeat match goal with H : delete _ _ !! _ = Some _ |- _ => apply lookup_delete_Some in H as [_ H] end; eauto.
Qed.

Lemma wrote_handles s s' d bs : wrote s s' d bs -> same_handles s s' /\ free_map s' = free_map s.
Proof. intros [(dk & a & c & -> & Ha) _ _ _ _]. by split; [split|]. Qed.

Lemma heap_handles s s' : heap_eq s s' -> same_handles s s' /\ free_map s' = free_map s /\ disk s' = disk s.
Proof. intros (a & c & -> & Ha). by split; [split|]. Qed.

(** A write to the data of one inode. *)
Lemma core_wrote A s s' m d bs :
  core A s -> A !! m = Some d -> wrote s s' d bs -> core A s' /\ kept [m] A s s'.
Proof.
  intros Hc Hm Hw. destruct (wrote_handles _ _ _ _ Hw) as [Hh Hf].
  assert (forall n e, A !! n = Some e -> ~ in_data d n) as Hhead.
  { intros n e Hn Hin. destruct (decide (n = m)) as [->|Hne]; [by apply (co_self _ _ Hc m d Hm)|].
    apply (co_apart _ _ Hc n e m d n Hn Hm Hne); [by left|by right]. }
  split.
  - eapply core_change; [done|by rewrite Hf|rewrite Hf; apply Hc|apply Hw|apply Hw| |].
    + intros n e Hn. apply (wr_same _ _ _ _ Hw). by eapply Hhead.
    + intros n e k Hn Hk. rewrite Hf. by eapply (co_used _ _ Hc).
  - intros n e Hn Hni. apply bytes_of_disk. intros k Hk. apply (wr_same _ _ _ _ Hw). intros Hin.
    apply (co_apart _ _ Hc n e m d k Hn Hm); [set_solver|by right|by right].
Qed.

(** A new free map that still marks the sectors in use. *)
Lemma core_free_map A s b :
  core A s -> bm_wf b -> bit_cnt b = bit_cnt (free_map s) ->
  (forall n d k, A !! n = Some d -> uses n d k -> bit b k = true) ->
  core A (set_free_map b s).
Proof. intros Hc Hb Hcnt Hbits. eapply core_change; [done|done|done|apply Hc|done|done|done]. Qed.

Lemma fm_inode_eq s s' ino :
  fm_inode s ino -> files s' = files s -> free_map_file s' = free_map_file s ->
  bit_cnt (free_map s') = bit_cnt (free_map s) ->
  (forall i, inodes s !! i = Some ino -> inodes s' !! i = Some ino) -> fm_inode s' ino.
Proof.
  intros (F0 & x & F1 & F2 & F3 & F4 & F5) E1 E2 E3 E4. split; [by rewrite E2|].
  exists x. rewrite E1, E2, E3. split_and!; auto.
Qed.

Lemma device_heap A s s' : device A s -> heap_eq s s' -> device A s'.
Proof.
  intros [Hc Hwf (ino & Hi & HA & Hb)] He. destruct (heap_handles _ _ He) as (Hh & Hf & Hd).
  split; [by eapply core_same|by eapply heap_eq_wf|]. exists ino.
  rewrite (bytes_of_heap_eq _ _ _ He), Hf. split; [|done].
  eapply fm_inode_eq; [done|apply Hh|apply Hh|by rewrite Hf|]. intros i. by rewrite (sh_inodes _ _ Hh).
Qed.

Lemma layout_heap A s s' : layout A s -> heap_eq s s' -> layout A s'.
Proof.
  intros [Hd Hh] He. split; [by eapply device_heap|]. eapply handles_same; [done|]. by apply heap_handles.
Qed.

(** A write to the data of an open inode other than the free map's. *)
Lemma layout_wrote A s s' i ino bs :
  layout A s -> inodes s !! i = Some ino -> sector ino ≠ FREE_MAP_SECTOR -> wrote s s' (data ino) bs ->
  layout A s' /\ kept [sector ino] A s s' /\ same_handles s s'.
Proof.
  intros [[Hc Hwf (fi & Hfi & HA & Hb)] Hha] Hi Hm0 Hw. destruct (ha_open _ _ Hha _ _ Hi) as [Hm _].
  destruct (core_wrote _ _ _ _ _ _ Hc Hm Hw) as [Hc' Hk].
  destruct (wrote_handles _ _ _ _ Hw) as [Hh Hf]. split_and!; [|done|done]. split; [|by eapply handles_same].
  split; [done|by eapply wrote_wf|]. exists fi. split_and!; [|done|].
  - eapply fm_inode_eq; [done|apply Hh|apply Hh|by rewrite Hf|]. intros j. by rewrite (sh_inodes _ _ Hh).
  - rewrite Hf, (Hk _ _ HA); [done|]. set_solver.
Qed.
End Core.

Section FreeMap.
Context (mallocs : nat -> bool) (Hmalloc : forall n, mallocs n = true).
Implicit Types (A : gmap Z inode_disk) (s : fs).

Lemma wp_on_free_map {B} (c : M bitmap B) s (Q : B -> fs -> Prop) :
  wp c (free_map s) (fun a b => Q a (set_free_map b s)) -> wp (on_free_map c) s Q.
Proof. unfold wp, on_free_map. by destruct (c (free_map s)) as [[a b]|]. Qed.

Lemma set_free_map_id s : set_free_map (free_map s) s = s.
Proof. by destruct s. Qed.

Lemma wp_bitmap_write A s ino (Q : bool -> fs -> Prop) :
  core A s -> fs_wf s -> fm_inode s ino ->
  (forall s', wrote s s' (data ino) (words32 (bits (free_map s))) -> Q true s') ->
  wp (bitmap_write mallocs (free_map s) (free_map_file s)) s Q.
Proof.
  intros Hc Hwf (_ & x & F1 & F2 & F3 & F4 & F5) HQ. pose proof (co_map _ _ Hc) as [B1 B2 B3].
  assert (Z.of_nat (length (words32 (bits (free_map s)))) = byte_cnt (bit_cnt (free_map s))) as Hlen.
  { rewrite length_words32. unfold byte_cnt, elem_cnt, ELEM_BITS, u32 in *.
    rewrite (Z.mod_small (bit_cnt (free_map s) + 32 - 1)) in B2 |- * by lia. rewrite Z.mod_small.
    - lia.
    - Z.to_euclidean_division_equations. lia. }
  apply wp_bind. unfold file_write_at. apply wp_bind. unfold get_file. apply wp_bind, wp_get. rewrite F1. apply wp_ret.
  eapply wp_inode_write_at; [done|done|done|lia| |done|].
  { rewrite Hlen. split; [|done]. unfold byte_cnt, u32. apply Z.mod_pos_bound. lia. }
  intros k s' Hk Hw. apply wp_ret. rewrite F5, Z.sub_0_r in Hk.
  assert (0 <= byte_cnt (bit_cnt (free_map s))) by lia.
  rewrite (proj2 (Z.eqb_eq _ _)) by lia. apply HQ. rewrite take_ge in Hw by lia.
  rewrite splice_full in Hw; [exact Hw|].
  pose proof (length_bytes_of _ _ Hwf (fw_inode _ Hwf _ _ F2)). lia.
Qed.

(** The free map became [b], in memory and on the device. *)
Definition fm_step A s s' b : Prop :=
  device A s' /\ kept [FREE_MAP_SECTOR] A s s' /\ same_handles s s' /\ free_map s' = b.

Lemma wp_write_map A s b (Q : bool -> fs -> Prop) :
  device A s -> bm_wf b -> bit_cnt b = bit_cnt (free_map s) ->
  (forall n d k, A !! n = Some d -> uses n d k -> bit b k = true) ->
  (forall s', fm_step A s s' b -> Q true s') ->
  wp (bitmap_write mallocs b (free_map_file (set_free_map b s))) (set_free_map b s) Q.
Proof.
  intros [Hc Hwf (ino & Hfi & HA & Hb)] Hbm Hcnt Hbits HQ.
  pose proof (core_free_map A s b Hc Hbm Hcnt Hbits) as Hc1.
  assert (fs_wf (set_free_map b s)) as Hwf1.
  { destruct Hwf as [W1 W2 W3 W4]. split; [done| |done|done]. intros i x Hi. destruct (W2 i x Hi). by split. }
  assert (fm_inode (set_free_map b s) ino) as Hfi1 by (by eapply fm_inode_eq).
  eapply (wp_bitmap_write A (set_free_map b s)); [done|done|done|]. intros s' Hw. apply HQ.
  destruct (core_wrote _ _ _ _ _ _ Hc1 HA Hw) as [Hc' Hk]. destruct (wrote_handles _ _ _ _ Hw) as [Hh Hf].
  assert (same_handles s s') as Hh' by (destruct Hh; by split).
  split_and!; [|done|done|done]. destruct Hfi1 as (F0 & x & F1 & F2 & F3 & F4 & F5).
  split; [done|by eapply (wrote_wf (set_free_map b s))|]. exists ino. split_and!; [|done|rewrite (wr_bytes _ _ _ _ Hw), Hf; by apply saved_bits].
  split; [by rewrite (sh_fm _ _ Hh)|]. exists x.
  by rewrite (sh_files _ _ Hh), (sh_fm _ _ Hh), (sh_inodes _ _ Hh), Hf.
Qed.

Definition flipped (b b' : bitmap) (first cnt : Z) (v : bool) : Prop :=
  bits_are b b' (fun j => if (first <=? j) && (j <? first + cnt) then v else bit b j).

Lemma flipped_bit b b' first cnt v k :
  flipped b b' first cnt v -> 0 <= k < bit_cnt b ->
  (first <= k < first + cnt -> bit b' k = v) /\ (~ first <= k < first + cnt -> bit b' k = bit b k).
Proof.
  intros (_ & _ & H) Hk. rewrite (H k Hk).
  destruct (Z.leb_spec first k), (Z.ltb_spec k (first + cnt)); simpl; split; (done || lia).
Qed.

Lemma wp_free_map_allocate A s cnt (Q : option Z -> fs -> Prop) :
  device A s -> 0 <= cnt ->
  ((forall i, 0 <= i -> i + cnt <= bit_cnt (free_map s) -> ~ group (free_map s) i cnt false) -> Q None s) ->
  (forall first b s', 0 <= first -> first + cnt <= bit_cnt (free_map s) -> group (free_map s) first cnt false ->
     flipped (free_map s) b first cnt true -> fm_step A s s' b -> Q (Some first) s') ->
  wp (free_map_allocate mallocs cnt) s Q.
Proof.
  intros Hly Hn HQ0 HQ1. pose proof (dv_core _ _ Hly) as Hc. pose proof (co_map _ _ Hc) as Hbm.
  pose proof (bw_cnt _ Hbm) as Hcnt. apply wp_bind, wp_on_free_map, wp_scan_and_flip; [done|lia|done|].
  intros r b Hr Herr Hok. apply wp_bind, wp_get. destruct Hr as [(R1 & R2 & R3 & _)|[-> R]].
  - assert (r ≠ BITMAP_ERROR) as Hne by (unfold BITMAP_ERROR; lia).
    specialize (Hok Hne). destruct Hok as (Hb & Hbc & Hbits) eqn:E. clear E.
    rewrite (proj2 (Z.eqb_neq _ _) Hne). cbn [negb andb].
    assert (nonnull (free_map_file (set_free_map b s)) = true) as ->.
    { destruct (dv_fm _ _ Hly) as (ino & (F0 & _) & _). unfold nonnull. simpl. by rewrite (proj2 (Z.eqb_neq _ _) F0). }
    apply wp_bind, wp_bind. change (free_map (set_free_map b s)) with b.
    eapply wp_write_map; [done|done|done| |].
    { intros n d k Hnd Hk. destruct (co_used _ _ Hc n d k Hnd Hk) as [Hk' Hbit]. rewrite Hbits by done.
      destruct ((r <=? k) && (k <? r + cnt)); done. }
    intros s' Hs'. apply wp_ret, wp_ret. rewrite (proj2 (Z.eqb_neq _ _) Hne). cbn [negb].
    eapply HQ1; [done|done|done| |done]. done.
  - rewrite (Herr eq_refl), set_free_map_id. rewrite Z.eqb_refl. cbn [negb andb].
    apply wp_bind, wp_ret, wp_ret. rewrite Z.eqb_refl. by apply HQ0.
Qed.

Lemma wp_free_map_release A s first cnt (Q : unit -> fs -> Prop) :
  device A s -> 0 <= first -> 0 <= cnt -> first + cnt <= bit_cnt (free_map s) ->
  group (free_map s) first cnt true ->
  (forall n d k, A !! n = Some d -> uses n d k -> ~ first <= k < first + cnt) ->
  (forall b s', flipped (free_map s) b first cnt false -> fm_step A s s' b -> Q tt s') ->
  wp (free_map_release mallocs first cnt) s Q.
Proof.
  intros Hly H0 Hn Hle Hg Hfree HQ. pose proof (dv_core _ _ Hly) as Hc. pose proof (co_map _ _ Hc) as Hbm.
  apply wp_bind, wp_on_free_map, wp_bitmap_all; [done..|]. intros r Hr. rewrite set_free_map_id.
  apply wp_bind, wp_assert; [by apply Hr|]. apply wp_bind, wp_on_free_map, wp_set_multiple; [done..|].
  intros b Hb. apply wp_bind, wp_get. apply wp_bind. change (free_map (set_free_map b s)) with b.
  pose proof Hb as (Hb1 & Hb2 & Hb3). eapply wp_write_map; [done|done|done| |].
  { intros n d k Hnd Hk. destruct (co_used _ _ Hc n d k Hnd Hk) as [Hk' Hbit].
    destruct (flipped_bit _ _ _ _ _ k Hb Hk') as [_ ->]; [done|by eapply Hfree]. }
  intros s' Hs'. apply wp_ret. by eapply HQ.
Qed.
End FreeMap.

(** * Creating an inode *)

Section Create.
Context (mallocs : nat -> bool) (Hmalloc : forall n, mallocs n = true).
Implicit Types (A : gmap Z inode_disk) (s : fs).

Lemma decode_encode_inode d :
  0 <= start d < 2 ^ 32 -> 0 <= length_of d < 2 ^ 31 -> 0 <= magic d < 2 ^ 32 ->
  decode_inode (encode_inode d) = d /\ length (encode_inode d) = 512%nat.
Proof.
  intros H1 H2 H3. unfold decode_inode, encode_inode.
  pose proof (length_le 4 (start d)) as L1. pose proof (length_le 4 (u32 (length_of d))) as L2.
  pose proof (length_le 4 (magic d)) as L3.
  assert (u32 (length_of d) = length_of d) as Eu by (apply Z.mod_small; lia). split.
  - rewrite take_app_length' by done. rewrite drop_app_length' by done. rewrite take_app_length' by done.
    replace 8%nat with (4 + 4)%nat by done. rewrite <-drop_drop, !drop_app_length' by done.
    rewrite take_app_length' by done. rewrite !unle_le by (change (256 ^ Z.of_nat 4) with (2 ^ 32); rewrite ?Eu; lia).
    rewrite Eu. unfold s32, swrap. rewrite Z.mod_small by lia. destruct d; simpl. f_equal. lia.
  - rewrite !length_app, L1, L2, L3, length_replicate. done.
Qed.

Lemma core_insert A s n d :
  core A s -> A !! n = None -> disk_ok s d -> (exists b, disk s !! n = Some b /\ decode_inode b = d) ->
  ~ in_data d n -> (forall m e k, A !! m = Some e -> uses m e k -> ~ uses n d k) ->
  (forall k, uses n d k -> 0 <= k < bit_cnt (free_map s) /\ bit (free_map s) k = true) ->
  start d + nsectors d <= bit_cnt (free_map s) ->
  core (<[n := d]> A) s.
Proof.
  intros Hc HA Hok Hb Hself Hap Hused Hend. destruct Hc. split; try done.
  - intros m e [[<- <-]|[_ Hm]]%lookup_insert_Some; [done|by apply co_inode0].
  - intros m e [[<- <-]|[_ Hm]]%lookup_insert_Some; [done|by apply co_self0].
  - intros m e m' e' k [[<- <-]|[_ Hm]]%lookup_insert_Some [[<- <-]|[_ Hm']]%lookup_insert_Some Hne; [done| | |by apply co_apart0].
    + intros H1 H2. by apply (Hap m' e' k).
    + by apply Hap.
  - intros m e k [[<- <-]|[_ Hm]]%lookup_insert_Some; [apply Hused|by apply co_used0].
  - intros m e [[<- <-]|[_ Hm]]%lookup_insert_Some; [done|by eapply co_end0].
Qed.

Lemma handles_insert A s n d : handles A s -> A !! n = None -> handles (<[n := d]> A) s.
Proof.
  intros [] Hn. split; try done. intros i ino Hi. destruct (ha_open0 i ino Hi) as (? & ? & ?).
  split_and!; [|done|lia|lia]. rewrite lookup_insert_ne; [done|congruence].
Qed.

Lemma wp_zero_sectors s first cnt (Q : unit -> fs -> Prop) :
  0 <= first -> 0 <= cnt -> first + cnt <= 2 ^ 32 ->
  (forall k, first <= k < first + cnt -> is_Some (disk s !! k)) ->
  (forall dk, (forall k, dk !! k = if decide (first <= k < first + cnt) then Some (replicate 512 0) else disk s !! k) ->
     Q tt (set_disk dk s)) ->
  wp (loop (S (Z.to_nat cnt)) (fun i =>
        if i <? cnt then
          block_write (u32 (first + i)) (replicate (Z.to_nat BLOCK_SECTOR_SIZE) 0);; mret (inl (i + 1))
        else mret (inr tt)) 0) s Q.
Proof.
  intros H0 Hn Hle Hdom HQ.
  eapply (wp_loop (fun n i s' => n = Z.to_nat (cnt - i) /\ 0 <= i <= cnt /\ exists dk, s' = set_disk dk s /\
    forall k, dk !! k = if decide (first <= k < first + i) then Some (replicate 512 0) else disk s !! k)).
  2: { split_and!; [done|lia|lia|]. exists (disk s). split; [by destruct s|]. intros k. rewrite decide_False by lia. done. }
  2: { lia. }
  intros n i s' (-> & Hi & dk & -> & Hdk). destruct (Z.ltb_spec i cnt) as [Hlt|Hge]; cycle 1.
  { apply wp_ret, HQ. intros k. by replace cnt with i by lia. }
  assert (u32 (first + i) = first + i) as -> by (apply Z.mod_small; lia).
  destruct (Hdom (first + i)) as [b Hb]; [lia|].
  apply wp_bind. eapply (wp_block_write _ _ b).
  { simpl. by rewrite Hdk, decide_False by lia. }
  apply wp_ret. exists (Z.to_nat (cnt - (i + 1))). split; [lia|]. split_and!; [done|lia|lia|].
  exists (<[first + i := replicate 512 0]> dk). split; [done|]. intros k.
  destruct (decide (k = first + i)) as [->|Hne]; [by rewrite lookup_insert_eq, decide_True by lia|].
  rewrite lookup_insert_ne, Hdk by done. destruct (decide (first <= k < first + i)), (decide (first <= k < first + (i + 1)));
    (done || lia).
Qed.

Lemma concat_replicate {B} m n (x : B) : concat (replicate m (replicate n x)) = replicate (m * n) x.
Proof. induction m as [|m IH]; [done|]. cbn [replicate concat Nat.mul]. by rewrite IH, replicate_add. Qed.

Lemma bytes_of_zeros s d :
  0 <= length_of d -> (forall k, in_data d k -> disk s !! k = Some (replicate 512 0)) ->
  bytes_of s d = replicate (Z.to_nat (length_of d)) 0.
Proof.
  intros Hl Hz. unfold bytes_of.
  assert (sectors s d = replicate (Z.to_nat (nsectors d)) (replicate 512 0)) as ->.
  { apply list_eq. intros k. unfold sectors. rewrite list_lookup_fmap.
    destruct (decide (Z.of_nat k < nsectors d)) as [Hk|Hk].
    - rewrite lookup_seqZ_lt by lia. rewrite lookup_replicate_2 by lia. cbn [fmap option_fmap option_map].
      rewrite Hz; [done|]. unfold in_data. lia.
    - rewrite lookup_seqZ_ge by lia. symmetry. apply lookup_replicate_None. lia. }
  rewrite concat_replicate, take_replicate. f_equal. pose proof (nsectors_bound d Hl). lia.
Qed.

Lemma bytes_to_sectors_eq len : 0 <= len < 2 ^ 31 - 512 -> bytes_to_sectors len = (len + 511) / 512.
Proof.
  intros H. unfold bytes_to_sectors, BLOCK_SECTOR_SIZE, u32, s32, swrap.
  rewrite (Z.mod_small (len + 512 - 1 + 2 ^ (32 - 1))) by lia.
  rewrite Z.quot_div_nonneg by lia. rewrite Z.mod_small; [f_equal; lia|].
  Z.to_euclidean_division_equations. lia.
Qed.

(** Sector [n] is allocated but belongs to no inode. *)
Definition reserved A s (n : Z) : Prop :=
  0 <= n < bit_cnt (free_map s) /\ bit (free_map s) n = true /\ forall m e, A !! m = Some e -> ~ uses m e n.

Lemma reserved_None A s n : reserved A s n -> A !! n = None.
Proof. intros (_ & _ & H). destruct (A !! n) eqn:E; [|done]. exfalso. eapply H; [done|by left]. Qed.

(** The disk with the new inode and its zeroed data. *)
Lemma core_create A s s' n d dk :
  core A s' -> reserved A s n -> bit_cnt (free_map s') = bit_cnt (free_map s) ->
  (forall k, bit (free_map s) k = true -> 0 <= k < bit_cnt (free_map s) -> bit (free_map s') k = true /\ ~ in_data d k) ->
  (forall k, in_data d k -> 0 <= k < bit_cnt (free_map s) /\ bit (free_map s') k = true) ->
  (forall m e k, A !! m = Some e -> uses m e k -> bit (free_map s) k = true) ->
  0 <= length_of d < 2 ^ 31 - 512 -> 0 <= start d -> start d + nsectors d <= bit_cnt (free_map s) -> magic d = INODE_MAGIC ->
  (forall k, dk !! k = if decide (in_data d k) then Some (replicate 512 0)
                       else if decide (k = n) then Some (encode_inode d) else disk s' !! k) ->
  core (<[n := d]> A) (set_disk dk s') /\ kept [] A s' (set_disk dk s') /\
  bytes_of (set_disk dk s') d = replicate (Z.to_nat (length_of d)) 0.
Proof.
  intros Hc Hr Hcnt Hold Hnew Hmark Hlen Hst Hend Hmag Hdk.
  pose proof Hr as (Hn & Hbit & Hnot).
  pose proof (bw_cnt _ (co_map _ _ Hc)) as Hbc. pose proof (nsectors_bound d) as Hns.
  destruct (decode_encode_inode d) as [Hdec Henc]; [lia|lia|rewrite Hmag; done|].
  assert (forall m e k, A !! m = Some e -> uses m e k -> ~ in_data d k /\ k ≠ n) as Hsep.
  { intros m e k Hm Hk. split; [|intros ->; by eapply Hnot].
    apply Hold; [by eapply Hmark|]. rewrite <-Hcnt. by eapply (co_used _ _ Hc). }
  assert (forall m e k, A !! m = Some e -> uses m e k -> dk !! k = disk s' !! k) as Hsame.
  { intros m e k Hm Hk. destruct (Hsep m e k Hm Hk). by rewrite Hdk, !decide_False. }
  assert (core A (set_disk dk s')) as Hc1.
  { eapply core_change; [done|done|apply Hc| | | |]; cbn [disk set_disk].
    - intros k b. rewrite Hdk. repeat case_decide; [by intros [= <-]..|apply Hc].
    - intros k Hk. rewrite Hdk. repeat case_decide; (done || by eexists).
    - intros m e Hm. apply (Hsame m e m Hm). by left.
    - intros m e k Hm Hk. by eapply (co_used _ _ Hc). }
  assert (~ in_data d n) as Hself by (by apply Hold).
  split_and!.
  - apply core_insert; [done|by eapply reserved_None| | |done| | |by rewrite <-Hcnt in Hend].
    + split; [done|split; [done|lia]|]. intros k Hk. cbn [disk set_disk]. rewrite Hdk, decide_True by done. by eexists.
    + exists (encode_inode d). cbn [disk set_disk]. by rewrite Hdk, decide_False, decide_True.
    + intros m e k Hm Hk [->|Hin]; [by eapply Hnot|].
      destruct (Hsep m e k Hm Hk) as [Hs _]. by apply Hs.
    + cbn [free_map set_disk]. rewrite Hcnt. intros k [->|Hk]; [|by apply Hnew]. split; [done|by apply Hold].
  - intros m e Hm _. apply bytes_of_disk. intros k Hk. apply (Hsame m e k Hm). by right.
  - apply bytes_of_zeros; [lia|]. intros k Hk. cbn [disk set_disk]. by rewrite Hdk, decide_True.
Qed.

Lemma layout_create A s s' n d dk :
  layout A s' -> reserved A s n -> bit_cnt (free_map s') = bit_cnt (free_map s) ->
  (forall k, bit (free_map s) k = true -> 0 <= k < bit_cnt (free_map s) -> bit (free_map s') k = true /\ ~ in_data d k) ->
  (forall k, in_data d k -> 0 <= k < bit_cnt (free_map s) /\ bit (free_map s') k = true) ->
  (forall m e k, A !! m = Some e -> uses m e k -> bit (free_map s) k = true) ->
  0 <= length_of d < 2 ^ 31 - 512 -> 0 <= start d -> start d + nsectors d <= bit_cnt (free_map s) -> magic d = INODE_MAGIC ->
  (forall k, dk !! k = if decide (in_data d k) then Some (replicate 512 0)
                       else if decide (k = n) then Some (encode_inode d) else disk s' !! k) ->
  layout (<[n := d]> A) (set_disk dk s') /\ kept [] A s' (set_disk dk s') /\
  bytes_of (set_disk dk s') d = replicate (Z.to_nat (length_of d)) 0.
Proof.
  intros [[Hc Hwf (ino & Hfi & HA0 & Hb)] Hha] Hr Hcnt Hold Hnew Hmark Hlen Hst Hend Hmag Hdk.
  destruct (core_create A s s' n d dk) as (Hc2 & Hkept & Hz); [done..|].
  assert (A !! n = None) as HnA by (by eapply reserved_None).
  assert (handles (<[n := d]> A) (set_disk dk s')) as Hha1 by (apply handles_insert; [by eapply handles_same|done]).
  split_and!; [|done|done]. split; [|done]. split; [done|by eapply core_wf|]. exists ino. split_and!; [done| |].
  - rewrite lookup_insert_ne; [done|congruence].
  - cbn [free_map set_disk]. rewrite (Hkept _ _ HA0); [done|apply not_elem_of_nil].
Qed.

(** Writing a new inode and clearing its data. *)
Lemma wp_write_inode s n first len cnt (Q : bool -> fs -> Prop) :
  cnt = (len + 511) / 512 -> 0 <= first -> 0 <= cnt -> first + cnt <= 2 ^ 32 -> is_Some (disk s !! n) ->
  (forall k, first <= k < first + cnt -> is_Some (disk s !! k)) ->
  (forall dk, (forall k, dk !! k = if decide (in_data (mk_disk first len INODE_MAGIC) k) then Some (replicate 512 0)
                        else if decide (k = n) then Some (encode_inode (mk_disk first len INODE_MAGIC)) else disk s !! k) ->
     Q true (set_disk dk s)) ->
  wp (block_write n (encode_inode (mk_disk first len INODE_MAGIC));;
      (if 0 <? cnt then
         loop (S (Z.to_nat cnt)) (fun i =>
           if i <? cnt then
             block_write (u32 (first + i)) (replicate (Z.to_nat BLOCK_SECTOR_SIZE) 0);;
             mret (inl (i + 1))
           else mret (inr tt)) 0
       else mret tt);;
      mret true) s Q.
Proof.
  intros Hcnt H0 Hc Hle [bn Hbn] Hdom HQ. set (d := mk_disk first len INODE_MAGIC) in *.
  assert (forall k, in_data d k <-> first <= k < first + cnt) as Hin by (intros k; unfold in_data, nsectors; cbn; by rewrite Hcnt).
  apply wp_bind. eapply wp_block_write; [done|]. set (s2 := set_disk _ s).
  apply wp_bind. destruct (Z.ltb_spec 0 cnt) as [Hpos|Hz].
  - eapply wp_zero_sectors; [done|done|lia| |].
    { intros k Hk. unfold s2. cbn [disk set_disk]. apply lookup_insert_is_Some'. right. by apply Hdom. }
    intros dk Hdk. apply wp_ret, HQ. intros k. rewrite Hdk. unfold s2. cbn [disk set_disk].
    destruct (decide (first <= k < first + cnt)) as [Hk|Hk]; [by rewrite decide_True by (by apply Hin)|].
    rewrite (decide_False (P := in_data d k)) by (by rewrite Hin). destruct (decide (k = n)) as [->|]; [by rewrite lookup_insert_eq|by rewrite lookup_insert_ne].
  - apply wp_ret, wp_ret, HQ. intros k. rewrite decide_False by (rewrite Hin; lia).
    destruct (decide (k = n)) as [->|]; [by rewrite lookup_insert_eq|by rewrite lookup_insert_ne].
Qed.

Lemma wp_inode_create A s n len (Q : bool -> fs -> Prop) :
  layout A s -> reserved A s n -> 0 <= len < 2 ^ 31 - 512 ->
  (forall s', heap_eq s s' ->
     (forall i, 0 <= i -> i + (len + 511) / 512 <= bit_cnt (free_map s) -> ~ group (free_map s) i ((len + 511) / 512) false) ->
     Q false s') ->
  (forall d s', length_of d = len -> layout (<[n := d]> A) s' -> kept [FREE_MAP_SECTOR] A s s' -> same_handles s s' ->
     bytes_of s' d = replicate (Z.to_nat len) 0 -> bit_cnt (free_map s') = bit_cnt (free_map s) ->
     Q true s') ->
  wp (inode_create mallocs n len) s Q.
Proof.
  intros Hly Hr Hlen HQ0 HQ1. pose proof (ha_heap _ _ (ly_handles _ _ Hly)) as Hheap.
  apply wp_bind, wp_assert; [apply Z.leb_le; lia|]. apply wp_bind, wp_malloc; [done..|].
  set (s0 := set_heap _ _ s). assert (heap_eq s s0) as He by (exists (next_addr s + 1), (S (clock s)); split; [done|lia]).
  rewrite nonnull_pos by lia. cbv zeta. rewrite bytes_to_sectors_eq by lia. set (cnt := (len + 511) / 512).
  assert (0 <= cnt) as Hcnt by (apply Z.div_pos; lia).
  pose proof (layout_heap _ _ _ Hly He) as Hly0. pose proof (ly_core _ _ Hly0) as Hc0.
  apply wp_bind. eapply wp_free_map_allocate; [done|apply Hly0|done| |].
  { intros Hfull. by apply wp_ret, HQ0. }
  intros first b s1 H0 Hle Hg Hb (Hdv1 & Hk1 & Hh1 & Hf1).
  assert (layout A s1) as Hly1 by (split; [done|eapply handles_same; [apply Hly0|done]]). change (free_map s0) with (free_map s) in *.
  pose proof (bw_cnt _ (co_map _ _ Hc0)) as Hbc. change (free_map s0) with (free_map s) in *.
  set (d := mk_disk first len INODE_MAGIC). pose proof Hb as (Hbm & Hbcnt & _).
  pose proof (ly_core _ _ Hly1) as Hc1. pose proof Hr as (Hn & Hbn & Hnot).
  assert (forall k, in_data d k <-> first <= k < first + cnt) as Hin by done.
  assert (forall k, 0 <= k < bit_cnt (free_map s) -> is_Some (disk s1 !! k)) as Hdom.
  { intros k Hk. apply (co_disk _ _ Hc1). by rewrite Hf1, Hbcnt. }
  eapply wp_write_inode; [done|done|done|lia|by apply Hdom|intros k Hk; apply Hdom; lia|]. fold d. intros dk Hdk.
  destruct (layout_create A s s1 n d dk) as (L1 & L2 & L3); [done|done|by rewrite Hf1| | | |done|unfold d; cbn; lia|unfold d, nsectors; cbn; fold cnt; lia|done|done|].
  - intros k Hk1' Hk2'. rewrite Hf1. destruct (flipped_bit _ _ _ _ _ k Hb Hk2') as [_ F]. rewrite Hin.
    assert (~ first <= k < first + cnt) as Hni by (intros Hk; specialize (Hg k Hk); congruence).
    by rewrite F.
  - intros k Hk. rewrite Hin in Hk. rewrite Hf1. split; [lia|].
    apply (flipped_bit _ _ _ _ _ k Hb); [lia|done].
  - intros m e k Hm Hk. by eapply (co_used _ _ Hc0).
  - eapply (HQ1 d); [done|done| | |done|cbn; by rewrite Hf1].
    + intros m e Hm Hni. rewrite (L2 m e Hm (not_elem_of_nil _)). by apply (Hk1 m e).
    + destruct Hh1. split; simpl in *; (done || lia).
Qed.
End Create.

(** * Opening and closing inodes *)

Section Handles.
Context (mallocs : nat -> bool) (Hmalloc : forall n, mallocs n = true).
Implicit Types (A : gmap Z inode_disk) (s : fs).

Definition reopened (o : inode) : inode :=
  mk_inode (sector o) (open_cnt o + 1) (removed o) (deny_write_cnt o) (data o).

(** The inode table [t'], [l'] is [t], [l] with one more opener of the inode
    [d] in sector [n], at [i]. *)
Inductive opened (t : gmap Z inode) (l : list Z) (i n : Z) (d : inode_disk) : gmap Z inode -> list Z -> inode -> Prop :=
| opened_again o : t !! i = Some o -> sector o = n -> data o = d -> 1 <= open_cnt o ->
    opened t l i n d (<[i := reopened o]> t) l (reopened o)
| opened_first : t !! i = None -> i ∉ l ->
    opened t l i n d (<[i := mk_inode n 1 false 0 d]> t) (i :: l) (mk_inode n 1 false 0 d).

Lemma opened_facts t l i n d t' l' ino :
  opened t l i n d t' l' ino ->
  t' = <[i := ino]> t /\ sector ino = n /\ data ino = d /\ 1 <= open_cnt ino.
Proof. intros [o H1 H2 H3 H4|H1 H2]; (split_and!; [done..|]); simpl; lia. Qed.

(** States that differ in the handles only. *)
Lemma layout_handles A s s' :
  device A s -> disk s' = disk s -> free_map s' = free_map s -> free_map_file s' = free_map_file s -> files s' = files s ->
  handles A s' ->
  (forall i ino, inodes s !! i = Some ino -> sector ino = FREE_MAP_SECTOR -> inodes s' !! i = Some ino) -> layout A s'.
Proof.
  intros [Hc Hwf (fi & Hfi & HA & Hb)] Hd Hf Hff Hfs Hha' Hsame.
  pose proof (core_same _ _ _ Hc Hd Hf) as Hc'. split; [|done]. split; [done|by eapply core_wf|].
  exists fi. split_and!; [|done|].
  - eapply fm_inode_eq; [done..|by rewrite Hf|]. intros i Hi. destruct Hfi as (_ & x & _ & _ & F3 & _). by apply Hsame.
  - rewrite Hf, (bytes_of_disk s); [done|]. by rewrite Hd.
Qed.

(** One more opener. *)
Lemma layout_opened A s s' i n d t' l' ino :
  layout A s -> A !! n = Some d -> n ≠ FREE_MAP_SECTOR -> 0 < i < next_addr s' ->
  opened (inodes s) (open_inodes s) i n d t' l' ino ->
  (inodes s !! i = None -> forall j x, inodes s !! j = Some x -> sector x ≠ n) ->
  heap_eq (set_inodes t' l' s) s' -> layout A s'.
Proof.
  intros Hly HA Hn0 Hi Hop Hfresh (a & c & -> & Ha). simpl in Hi, Ha. pose proof (ly_handles _ _ Hly) as Hc.
  destruct (opened_facts _ _ _ _ _ _ _ _ Hop) as (-> & Hs & Hd & Hcnt). apply (layout_handles A s); [apply Hly|done..| |].
  - split; cbn [disk free_map inodes open_inodes next_addr files dirs set_heap set_inodes].
    + intros j y [[<- <-]|[_ Hj]]%lookup_insert_Some; [by rewrite Hs, Hd|].
      destruct (ha_open _ _ Hc j y Hj) as (? & ? & ?). split_and!; [done|done|lia|lia].
    + intros j k x y [[<- <-]|[Hj1 Hj]]%lookup_insert_Some [[<- <-]|[Hk1 Hk]]%lookup_insert_Some; [done| | |by apply (ha_sect _ _ Hc)].
      * rewrite Hs. intros E. inversion Hop as [o Ho1 Ho2 Ho3 Ho4|Ho1 Ho2]; subst; [|by destruct (Hfresh Ho1 k y Hk)].
        apply (ha_sect _ _ Hc i k o y Ho1 Hk). by rewrite <-E.
      * rewrite Hs. intros E. inversion Hop as [o Ho1 Ho2 Ho3 Ho4|Ho1 Ho2]; subst; [|by destruct (Hfresh Ho1 j x Hj)].
        apply (ha_sect _ _ Hc j i x o Hj Ho1). by rewrite E.
    + inversion Hop as [o Ho1 Ho2 Ho3 Ho4|Ho1 Ho2]; subst; [apply Hc|]. apply NoDup_cons. split; [done|apply Hc].
    + intros j. rewrite lookup_insert_is_Some'. inversion Hop as [o Ho1 Ho2 Ho3 Ho4|Ho1 Ho2]; subst.
      * rewrite (ha_list _ _ Hc). split; [by right|]. intros [<-|?]; [by eexists|done].
      * rewrite elem_of_cons, (ha_list _ _ Hc). naive_solver.
    + lia.
    + intros f Hf. pose proof (ha_files _ _ Hc f Hf). lia.
    + intros f Hf. pose proof (ha_dirs _ _ Hc f Hf). lia.
  - cbn [inodes set_heap set_inodes]. intros j y Hj Hy. rewrite lookup_insert_ne; [done|]. intros <-.
    inversion Hop as [o Ho1 Ho2 Ho3 Ho4|Ho1 Ho2]; simplify_eq.
Qed.

Lemma wp_find_open n l s (Q : option Z -> fs -> Prop) :
  (forall i, i ∈ l -> is_Some (inodes s !! i)) ->
  (forall i o, i ∈ l -> inodes s !! i = Some o -> sector o = n -> Q (Some i) s) ->
  ((forall i o, i ∈ l -> inodes s !! i = Some o -> sector o ≠ n) -> Q None s) ->
  wp (find_open n l) s Q.
Proof.
  induction l as [|i l IH]; intros Hl H1 H2; [apply wp_ret, H2; set_solver|].
  destruct (Hl i) as [o Ho]; [by left|]. apply wp_bind. eapply wp_get_inode; [done|].
  destruct (Z.eqb_spec (sector o) n) as [E|E]; [apply wp_ret; eapply H1; [by left|done|done]|].
  apply IH; [by intros j Hj; apply Hl; right|intros j x Hj; apply H1; by right|].
  intros Hno. apply H2. intros j x [->|Hj]%elem_of_cons Hx; [congruence|by eapply Hno].
Qed.

Lemma wp_inode_open A s n d (Q : Z -> fs -> Prop) :
  layout A s -> A !! n = Some d -> n ≠ FREE_MAP_SECTOR ->
  (forall i t' l' ino s', 0 < i -> opened (inodes s) (open_inodes s) i n d t' l' ino ->
     heap_eq (set_inodes t' l' s) s' -> layout A s' -> Q i s') ->
  wp (inode_open mallocs n) s Q.
Proof.
  intros Hly HA Hn0 HQ. pose proof (ly_handles _ _ Hly) as Hc. apply wp_bind, wp_get. apply wp_bind.
  apply wp_find_open; [by intros i Hi; apply (ha_list _ _ Hc)| |].
  - intros i o Hi Ho Hs. destruct (ha_open _ _ Hc i o Ho) as (HA' & Hcnt & Hi').
    unfold inode_reopen. rewrite nonnull_pos by lia. apply wp_bind. eapply wp_get_inode; [done|].
    apply wp_bind, wp_bind, wp_get. apply wp_put, wp_ret.
    assert (opened (inodes s) (open_inodes s) i n d (<[i := reopened o]> (inodes s)) (open_inodes s) (reopened o)) as Hop
      by (constructor; [done..|congruence|done]).
    eapply HQ; [lia|done|apply heap_eq_refl|].
    eapply (layout_opened A s _ i n d); [done|done|done|exact Hi'|exact Hop| |apply heap_eq_refl]. intros E; congruence.
  - intros Hno. apply wp_bind, wp_malloc; [done|apply Hc|]. pose proof (ha_heap _ _ Hc) as Hh.
    rewrite (proj2 (Z.eqb_neq _ _)) by (unfold NULL; lia). apply wp_bind, wp_bind, wp_get. apply wp_put.
    destruct (co_inode _ _ (ly_core _ _ Hly) n d HA) as [_ (b & Hb & Hdec)]. apply wp_bind. eapply wp_block_read; [exact Hb|].
    apply wp_bind, wp_bind, wp_get. apply wp_put, wp_ret. rewrite Hdec.
    set (i := next_addr s). assert (inodes s !! i = None) as Hi.
    { destruct (inodes s !! i) as [o|] eqn:E; [|done]. destruct (ha_open _ _ Hc _ _ E) as (_ & _ & ?). unfold i in *. lia. }
    assert (i ∉ open_inodes s) as Hil by (rewrite (ha_list _ _ Hc), Hi; by intros [? ?]).
    pose proof (opened_first (inodes s) (open_inodes s) i n d Hi Hil) as Hop.
    assert (heap_eq (set_inodes (<[i := mk_inode n 1 false 0 d]> (inodes s)) (i :: open_inodes s) s)
      (set_heap (i + 1) (S (clock s)) (set_inodes (<[i := mk_inode n 1 false 0 d]> (inodes s)) (i :: open_inodes s) s))) as He
      by (eexists _, _; split; [done|unfold i; simpl; lia]).
    eapply HQ; [exact Hh|exact Hop|exact He|]. eapply (layout_opened A s _ i n d); [done|done|done| |exact Hop| |exact He].
    + unfold i. simpl. lia.
    + intros _ j x Hj. apply (Hno j x); [|done]. apply (ha_list _ _ Hc). by eexists.
Qed.

Lemma opened_inv t l i n d t' l' ino :
  opened t l i n d t' l' ino ->
  (exists o, t !! i = Some o /\ 1 <= open_cnt o /\ t' = <[i := reopened o]> t /\ l' = l /\ ino = reopened o) \/
  (t !! i = None /\ (i ∉ l) /\ t' = <[i := mk_inode n 1 false 0 d]> t /\ l' = (i :: l) /\ ino = mk_inode n 1 false 0 d).
Proof. intros [o H1 H2 H3 H4|H1 H2]; [left; by exists o|by right]. Qed.

Lemma opened_before t l i n d t' l' ino j x :
  opened t l i n d t' l' ino -> t !! j = Some x ->
  exists x', t' !! j = Some x' /\ sector x' = sector x /\ data x' = data x /\ (1 <= open_cnt x' -> 1 <= open_cnt x).
Proof.
  intros Hop Hj. destruct (opened_facts _ _ _ _ _ _ _ _ Hop) as (-> & _).
  destruct (decide (j = i)) as [->|Hne]; [|exists x; by rewrite lookup_insert_ne].
  rewrite lookup_insert_eq. inversion Hop as [o Ho1 Ho2 Ho3 Ho4|Ho1 Ho2]; simplify_eq. by eexists.
Qed.

(** Forgetting the opener gives the handles back. *)
Lemma layout_closed A s t l i n d ino :
  layout A s -> n ≠ FREE_MAP_SECTOR -> opened t l i n d (inodes s) (open_inodes s) ino ->
  layout A (set_inodes t l s).
Proof.
  intros Hly Hn0 Hop. pose proof (ly_handles _ _ Hly) as Hc.
  pose proof (fun j x => opened_before _ _ _ _ _ _ _ _ j x Hop) as Hbef.
  apply (layout_handles A s); [apply Hly|done..| |]; cbn [inodes set_inodes].
  - split; cbn [disk free_map inodes open_inodes next_addr files dirs set_inodes]; try apply Hc.
    + intros j x Hj. destruct (Hbef j x Hj) as (x' & Hj' & <- & <- & Hcnt).
      destruct (ha_open _ _ Hc j x' Hj') as (? & ? & ?). auto.
    + intros j k x y Hj Hk E. destruct (Hbef j x Hj) as (x' & Hj' & E1 & _), (Hbef k y Hk) as (y' & Hk' & E2 & _).
      apply (ha_sect _ _ Hc j k x' y'); [done..|congruence].
    + pose proof (ha_nodup _ _ Hc) as Hnd.
      destruct (opened_inv _ _ _ _ _ _ _ _ Hop) as [(o & _ & _ & _ & E2 & _)|(_ & _ & _ & E2 & _)];
        rewrite E2 in Hnd; [done|]. by apply NoDup_cons in Hnd as [_ ?].
    + intros j. pose proof (ha_list _ _ Hc j) as Hl.
      destruct (opened_inv _ _ _ _ _ _ _ _ Hop) as [(o & Ho & _ & E1 & E2 & _)|(Ho1 & Ho2 & E1 & E2 & _)].
      * rewrite E1, E2 in Hl. rewrite Hl, lookup_insert_is_Some'. split; [|by right]. intros [<-|?]; [by eexists|done].
      * rewrite E1, E2, elem_of_cons, lookup_insert_is_Some' in Hl.
        destruct (decide (j = i)) as [->|Hne]; [rewrite Ho1; split; [done|by intros [? ?]]|]. naive_solver.
  - intros j y Hj Hy. destruct (opened_facts _ _ _ _ _ _ _ _ Hop) as (E & Hs & _). rewrite E in Hj.
    rewrite lookup_insert_ne in Hj; [done|]. intros <-. rewrite lookup_insert_eq in Hj. by simplify_eq.
Qed.

Definition closed_once (x : inode) : inode :=
  mk_inode (sector x) (open_cnt x - 1) (removed x) (deny_write_cnt x) (data x).

Lemma wp_close_more s i x (Q : unit -> fs -> Prop) :
  0 < i -> inodes s !! i = Some x -> open_cnt x ≠ 1 ->
  Q tt (set_inodes (<[i := closed_once x]> (inodes s)) (open_inodes s) s) -> wp (inode_close mallocs i) s Q.
Proof.
  intros Hi Hx Hcnt HQ. unfold inode_close. rewrite (proj2 (Z.eqb_neq i _)) by (unfold NULL; lia).
  apply wp_bind. eapply wp_get_inode; [done|]. apply wp_bind, wp_bind, wp_get. apply wp_put.
  rewrite (proj2 (Z.eqb_neq _ _)) by lia. by apply wp_ret.
Qed.

Lemma wp_close_last s i x (Q : unit -> fs -> Prop) :
  0 < i -> inodes s !! i = Some x -> open_cnt x = 1 -> removed x = false ->
  Q tt (set_inodes (delete i (inodes s)) (filter (fun j => j ≠ i) (open_inodes s)) s) -> wp (inode_close mallocs i) s Q.
Proof.
  intros Hi Hx Hcnt Hrm HQ. unfold inode_close. rewrite (proj2 (Z.eqb_neq i _)) by (unfold NULL; lia).
  apply wp_bind. eapply wp_get_inode; [done|]. apply wp_bind, wp_bind, wp_get. apply wp_put.
  rewrite Hcnt, Hrm. change (1 - 1 =? 0) with true. apply wp_bind, wp_bind, wp_get. apply wp_put.
  apply wp_bind, wp_ret. apply wp_bind, wp_get. apply wp_put. cbn [set_inodes inodes open_inodes].
  rewrite delete_insert_eq. exact HQ.
Qed.

(** Closing what was just opened restores the table. *)
Lemma wp_close_opened s t l i n d ino (Q : unit -> fs -> Prop) :
  0 < i -> opened t l i n d (inodes s) (open_inodes s) ino ->
  Q tt (set_inodes t l s) -> wp (inode_close mallocs i) s Q.
Proof.
  intros Hi Hop HQ.
  destruct (opened_inv _ _ _ _ _ _ _ _ Hop) as [(o & Ho & Hcnt & E1 & E2 & _)|(Ho1 & Ho2 & E1 & E2 & _)].
  - eapply (wp_close_more _ _ (reopened o)); [done|by rewrite E1, lookup_insert_eq|simpl; lia|].
    rewrite E1, E2, insert_insert_eq.
    replace (closed_once (reopened o)) with o; [by rewrite insert_id|].
    unfold closed_once, reopened. destruct o; simpl. f_equal. lia.
  - eapply wp_close_last; [done|by rewrite E1, lookup_insert_eq|done|done|].
    rewrite E1, E2, delete_insert_id by done. rewrite filter_cons_False by auto.
    rewrite filter_all; [done|]. by intros j Hj ->.
Qed.

(** The last close of a removed inode frees its sectors. *)
Lemma device_forget A s s' i x :
  layout A s -> inodes s !! i = Some x -> sector x ≠ FREE_MAP_SECTOR ->
  disk s' = disk s -> free_map s' = free_map s -> free_map_file s' = free_map_file s -> files s' = files s ->
  next_addr s' = next_addr s -> inodes s' = <[i := closed_once x]> (inodes s) ->
  device (delete (sector x) A) s'.
Proof.
  intros [[Hc Hwf (fi & Hfi & HA & Hb)] Hha] Hi Hn0 Ed Ef Eff Efs Ea Ei.
  split; [by eapply core_delete, core_same| |].
  - assert (forall j y, inodes s' !! j = Some y -> exists z, inodes s !! j = Some z /\ data y = data z) as Hold.
    { rewrite Ei. intros j y [[<- <-]|[_ Hj]]%lookup_insert_Some; [by exists x|by exists y]. }
    destruct Hwf as [W1 W2 W3 W4]. split; [by rewrite Ed| | |by rewrite Ea].
    + intros j y Hj. destruct (Hold j y Hj) as (z & Hz & ->). destruct (W2 j z Hz). split; [done|done|by rewrite Ed].
    + intros j k y z n Hj Hk. destruct (Hold j y Hj) as (y' & Hy & ->), (Hold k z Hk) as (z' & Hz & ->). by apply W3.
  - exists fi. rewrite lookup_delete_ne by done. split_and!; [|done|].
    + eapply fm_inode_eq; [done|done|done|by rewrite Ef|]. intros j Hj. rewrite Ei, lookup_insert_ne; [done|].
      intros <-. destruct Hfi as (_ & y & _ & _ & F3 & _). congruence.
    + rewrite Ef, (bytes_of_disk s); [done|]. by rewrite Ed.
Qed.

Lemma handles_forget A s i x s' :
  handles A s -> inodes s !! i = Some x ->
  inodes s' = delete i (inodes s) -> open_inodes s' = filter (fun j => j ≠ i) (open_inodes s) ->
  files s' = files s -> dirs s' = dirs s -> next_addr s <= next_addr s' ->
  handles (delete (sector x) A) s'.
Proof.
  intros [H1 H2 H3 H4 H5 H6 H7] Hx Ei Eo Ef Ed Ea. split; rewrite ?Ei, ?Eo, ?Ef, ?Ed.
  - intros j y [Hne Hj]%lookup_delete_Some. destruct (H1 j y Hj) as (? & ? & ?). split_and!; [|done|lia|lia].
    rewrite lookup_delete_ne; [done|]. intros E. by apply Hne, (H2 i j x y).
  - intros j k y z [_ Hj]%lookup_delete_Some [_ Hk]%lookup_delete_Some. by apply H2.
  - by apply NoDup_filter.
  - intros j. rewrite list_elem_of_filter, H4, lookup_delete_is_Some. naive_solver.
  - lia.
  - intros f Hf. specialize (H6 f Hf). lia.
  - intros f Hf. specialize (H7 f Hf). lia.
Qed.

Lemma wp_close_removed A s i x (Q : unit -> fs -> Prop) :
  layout A s -> 0 < i -> inodes s !! i = Some x -> open_cnt x = 1 -> removed x = true ->
  sector x ≠ FREE_MAP_SECTOR ->
  (forall s', layout (delete (sector x) A) s' -> kept [FREE_MAP_SECTOR] (delete (sector x) A) s s' ->
     inodes s' = delete i (inodes s) -> open_inodes s' = filter (fun j => j ≠ i) (open_inodes s) ->
     files s' = files s -> dirs s' = dirs s -> free_map_file s' = free_map_file s ->
     bit_cnt (free_map s') = bit_cnt (free_map s) ->
     (forall k, uses (sector x) (data x) k -> bit (free_map s') k = false) -> Q tt s') ->
  wp (inode_close mallocs i) s Q.
Proof.
  intros Hly Hi Hx Hcnt Hrm Hn0 HQ. pose proof (ly_handles _ _ Hly) as Hha. pose proof (ly_core _ _ Hly) as Hc.
  destruct (ha_open _ _ Hha _ _ Hx) as (HA & _ & _). pose proof (proj1 (co_inode _ _ Hc _ _ HA)) as Hok.
  unfold inode_close. rewrite (proj2 (Z.eqb_neq i _)) by (unfold NULL; lia).
  apply wp_bind. eapply wp_get_inode; [done|]. apply wp_bind, wp_bind, wp_get. apply wp_put. rewrite Hcnt, Hrm.
  change (1 - 1 =? 0) with true. apply wp_bind, wp_bind, wp_get. apply wp_put.
  set (s2 := set_inodes _ _ _). set (n := sector x) in *. set (d := data x) in *. set (A' := delete n A).
  assert (device A' s2) as Hd2.
  { apply (device_forget A s s2 i x); try done. unfold s2, closed_once. cbn. by rewrite Hcnt, Hrm. }
  assert (forall m e k, A' !! m = Some e -> uses m e k -> ~ uses n d k) as Hfree.
  { intros m e k [Hne Hm]%lookup_delete_Some Hk. apply (co_apart _ _ Hc m e n d k); auto. }
  assert (forall k, uses n d k -> 0 <= k < bit_cnt (free_map s) /\ bit (free_map s) k = true) as Hused
    by (intros k; by apply (co_used _ _ Hc)).
  apply wp_bind, wp_bind. destruct (Hused n) as [Hn1 Hn2]; [by left|].
  eapply wp_free_map_release; [done|done|lia|lia|change (free_map s2) with (free_map s); lia| | |].
  { intros k Hk. change (free_map s2) with (free_map s). by replace k with n by lia. }
  { intros m e k Hm Hk Hr. apply (Hfree m e k Hm Hk). left. lia. }
  change (free_map s2) with (free_map s). intros b s3 Hb (Hd3 & Hk3 & Hh3 & Hf3). pose proof Hb as (_ & Hbc & _).
  destruct Hok as [Hlen Hst _]. pose proof (nsectors_bound d) as Hns.
  rewrite bytes_to_sectors_eq by done. fold (nsectors d).
  eapply wp_free_map_release; [done|done|lia|lia| | | |].
  { rewrite Hf3, Hbc. apply (co_end _ _ Hc _ _ HA). }
  { intros k Hk. rewrite Hf3. destruct (Hused k) as [Hk1 Hk2]; [by right|].
    destruct (flipped_bit _ _ _ _ _ k Hb Hk1) as [_ F]. rewrite F; [done|]. intros Hkn.
    apply (co_self _ _ Hc n d HA). unfold in_data. lia. }
  { intros m e k Hm Hk Hr. apply (Hfree m e k Hm Hk). by right. }
  intros b' s4 Hb' (Hd4 & Hk4 & Hh4 & Hf4). rewrite Hf3 in Hb'. pose proof Hb' as (_ & Hbc' & _).
  pose proof (same_handles_trans _ _ _ Hh3 Hh4) as [Hi4 Ho4 Hfs4 Hdr4 Hff4 Ha4]. cbn in Hi4, Ho4, Hfs4, Hdr4, Hff4, Ha4.
  apply wp_bind, wp_get. apply wp_put. rewrite Hi4, Ho4, delete_insert_eq.
  apply HQ; cbn [inodes open_inodes files dirs free_map_file free_map set_inodes]; try done.
  - apply (layout_handles A' s4); [done..| |]; cbn [inodes set_inodes].
    + apply (handles_forget A s i x); done.
    + intros j y Hj Hy. rewrite Hi4 in Hj. apply lookup_insert_Some in Hj as [[<- <-]|[Hne Hj]]; [done|].
      by rewrite lookup_delete_ne.
  - intros m e Hm Hni. change (bytes_of s4 e = bytes_of s e).
    rewrite (Hk4 m e Hm Hni), (Hk3 m e Hm Hni). done.
  - by rewrite Hf4, Hbc', Hbc.
  - intros k Hk. destruct (Hused k Hk) as [Hk1 _]. rewrite Hf4.
    destruct (flipped_bit _ _ _ _ _ k Hb Hk1) as [F1 F2].
    destruct (flipped_bit _ _ _ _ _ k Hb') as [G1 G2]; [by rewrite Hbc|].
    destruct Hk as [->|Hk]; [|by apply G1]. rewrite G2; [apply F1; lia|]. by apply (co_self _ _ Hc n d HA).
Qed.

(** An inode whose flags or count changed. *)
Lemma layout_update A s i x x' :
  layout A s -> inodes s !! i = Some x -> sector x ≠ FREE_MAP_SECTOR ->
  sector x' = sector x -> data x' = data x -> 1 <= open_cnt x' ->
  layout A (set_inodes (<[i := x']> (inodes s)) (open_inodes s) s).
Proof.
  intros Hly Hx Hn0 Es Ed Hcnt. pose proof (ly_handles _ _ Hly) as [H1 H2 H3 H4 H5 H6 H7].
  assert (forall j y, <[i := x']> (inodes s) !! j = Some y ->
    exists z, inodes s !! j = Some z /\ sector y = sector z /\ data y = data z /\ 1 <= open_cnt y) as Hold.
  { intros j y [[<- <-]|[_ Hj]]%lookup_insert_Some; [by exists x|exists y; split_and!; try done; by apply (H1 j y)]. }
  apply (layout_handles A s); [apply Hly|done..| |]; cbn [inodes set_inodes].
  - split; cbn [disk free_map inodes open_inodes next_addr files dirs set_inodes]; try done.
    + intros j y Hj. destruct (Hold j y Hj) as (z & Hz & -> & -> & ?). by destruct (H1 j z Hz) as (? & ? & ?).
    + intros j k y z Hj Hk E. destruct (Hold j y Hj) as (y' & Hy & E1 & _), (Hold k z Hk) as (z' & Hz & E2 & _).
      apply (H2 j k y' z'); congruence.
    + intros j. rewrite H4, lookup_insert_is_Some'. split; [by right|]. intros [<-|?]; [by eexists|done].
  - intros j y Hj Hy. rewrite lookup_insert_ne; [done|]. intros <-. simplify_eq.
Qed.

Lemma layout_delete A s i x :
  layout A s -> inodes s !! i = Some x -> sector x ≠ FREE_MAP_SECTOR ->
  layout A (set_inodes (delete i (inodes s)) (filter (fun j => j ≠ i) (open_inodes s)) s).
Proof.
  intros Hly Hx Hn0. pose proof (ly_handles _ _ Hly) as [H1 H2 H3 H4 H5 H6 H7].
  apply (layout_handles A s); [apply Hly|done..| |]; cbn [inodes set_inodes].
  - split; cbn [disk free_map inodes open_inodes next_addr files dirs set_inodes]; try done.
    + intros j y [_ Hj]%lookup_delete_Some. by apply H1.
    + intros j k y z [_ Hj]%lookup_delete_Some [_ Hk]%lookup_delete_Some. by apply H2.
    + by apply NoDup_filter.
    + intros j. rewrite list_elem_of_filter, H4, lookup_delete_is_Some. naive_solver.
  - intros j y Hj Hy. rewrite lookup_delete_ne; [done|]. intros <-. simplify_eq.
Qed.

(** The table after a close that frees no sectors. *)
Definition closed_table (t : gmap Z inode) (i : Z) (x : inode) : gmap Z inode :=
  if open_cnt x =? 1 then delete i t else <[i := closed_once x]> t.
Definition closed_list (l : list Z) (i : Z) (x : inode) : list Z :=
  if open_cnt x =? 1 then filter (fun j => j ≠ i) l else l.

Lemma wp_inode_close A s i x (Q : unit -> fs -> Prop) :
  layout A s -> inodes s !! i = Some x -> sector x ≠ FREE_MAP_SECTOR -> removed x = false \/ open_cnt x ≠ 1 ->
  (forall s', s' = set_inodes (closed_table (inodes s) i x) (closed_list (open_inodes s) i x) s -> layout A s' -> Q tt s') ->
  wp (inode_close mallocs i) s Q.
Proof.
  intros Hly Hx Hn0 Hrm HQ. destruct (ha_open _ _ (ly_handles _ _ Hly) _ _ Hx) as (_ & Hcnt & Hi & _).
  unfold closed_table, closed_list in HQ. destruct (Z.eqb_spec (open_cnt x) 1) as [E|E].
  - eapply wp_close_last; [done|done|done|by destruct Hrm|]. apply HQ; [done|]. by eapply layout_delete.
  - eapply wp_close_more; [done|done|done|]. apply HQ; [done|]. eapply layout_update; [done..|]. cbn. lia.
Qed.

Lemma closed_reopened t l i n d t' l' ino j :
  opened t l i n d t' l' ino -> closed_table t' i ino !! j = t !! j.
Proof.
  intros Hop. unfold closed_table.
  destruct (opened_inv _ _ _ _ _ _ _ _ Hop) as [(o & Ho & Hcnt & -> & _ & ->)|(Ho & _ & -> & _ & ->)].
  - rewrite (proj2 (Z.eqb_neq _ _)) by (cbn; lia). rewrite insert_insert_eq.
    replace (closed_once (reopened o)) with o; [by rewrite insert_id|].
    unfold closed_once, reopened. destruct o; simpl. f_equal. lia.
  - cbn. change (1 =? 1) with true. cbn. by rewrite delete_insert_id.
Qed.
End Handles.
