(* ===== verification/Directory.v ===== *)
(** src/filesys/directory.c: directories as tables of fixed-size entries.

    The searches and updates of a directory are written against [FileIO], what
    they need of an inode: reading and writing at an offset.  [FileLaws] states
    what an implementation promises; the inodes of [Inode] keep the promise
    ([inode_laws]).  A directory's contents are abstracted to the finite map from
    names to sectors ([dir_map]).

    A name is the list of its bytes before the terminator. *)
From stdpp Require Import base list numbers gmap fin_maps.
From Stdlib Require Import ZArith Lia.
From S2P Require Import Prelude Strings Bitmap Inode.

Open Scope Z_scope.

Definition NAME_MAX : Z := 14.

Record dir_entry : Type := mk_entry { inode_sector : Z; name : list Z; in_use : Z }.

(** [sizeof (struct dir_entry)] is 4 + 15 + 1. *)
Definition sizeof_dir_entry : Z := 20.
Definition encode_entry (e : dir_entry) : list Z := le 4 (inode_sector e) ++ name e ++ [in_use e].
Definition decode_entry (b : list Z) : dir_entry :=
  mk_entry (unle (take 4 b)) (take 15 (drop 4 b)) (default 0 (b !! 19%nat)).

(** [!strcmp (s, field)]: a field without a terminator is read past its end. *)
Fixpoint str_eq (s field : list Z) : res bool :=
  match field, s with
  | [], _ => Err Fault
  | c :: field, [] => Ok (c =? 0)
  | c :: field, a :: s => if a =? c then str_eq s field else Ok false
  end.

(** The string that starts a field. *)
Fixpoint c_str (field : list Z) : res (list Z) :=
  match field with
  | [] => Err Fault
  | c :: field => if c =? 0 then Ok [] else l ← c_str field; Ok (c :: l)
  end.

(** [strlcpy (field, s, NAME_MAX + 1)]. *)
Definition copy_name (field s : list Z) : list Z :=
  splice field 0 (take (Z.to_nat NAME_MAX) s ++ [0]).

(** * What a directory needs of its inode *)

Class FileIO (S : Type) : Type := {
  io_read : Z -> Z -> Z -> M S (list Z);
  io_write : Z -> list Z -> Z -> Z -> M S Z;
  io_length : Z -> M S Z
}.

(** [holds i bs s]: [i] is an inode of [s] that can be written and has the
    contents [bs].  [frame i s s']: nothing but the contents of [i] changed. *)
Class FileLaws (S : Type) `{FileIO S} : Type := {
  holds : Z -> list Z -> S -> Prop;
  frame : Z -> S -> S -> Prop;
  frame_refl : forall i bs s, holds i bs s -> frame i s s;
  frame_trans : forall i s1 s2 s3, frame i s1 s2 -> frame i s2 s3 -> frame i s1 s3;
  io_read_law : forall i bs s size off, holds i bs s -> 0 <= off ->
    wp (io_read i size off) s (fun out s' =>
      out = take (Z.to_nat size) (drop (Z.to_nat off) bs) /\ holds i bs s' /\ frame i s s');
  io_write_law : forall i bs s buf off, holds i bs s -> 0 <= off ->
    wp (io_write i buf (Z.of_nat (length buf)) off) s (fun w s' =>
      exists k : nat, w = Z.of_nat k /\ w = Z.min (Z.of_nat (length buf)) (Z.max 0 (Z.of_nat (length bs) - off)) /\
        holds i (splice bs (Z.to_nat off) (take k buf)) s' /\ frame i s s');
  io_length_law : forall i bs s, holds i bs s ->
    wp (io_length i) s (fun n s' => n = Z.of_nat (length bs) /\ s' = s)
}.

(** * Operations *)

Section Table.
Context {S : Type} `{FileIO S}.

(** The loop of [lookup]; a file of [n] bytes has fewer than [n + 1] entries. *)
Definition lookup_in (i : Z) (nm : list Z) : M S (option (dir_entry * Z)) :=
  n ← io_length i;
  loop (Datatypes.S (Z.to_nat n)) (fun ofs =>
    b ← io_read i sizeof_dir_entry ofs;
    if Z.of_nat (length b) =? sizeof_dir_entry then
      let e := decode_entry b in
      eq ← (if negb (in_use e =? 0) then mlift (str_eq nm (name e ++ [in_use e])) else mret false);
      if eq : bool then mret (inr (Some (e, ofs))) else mret (inl (ofs + sizeof_dir_entry))
    else mret (inr None)) 0.

(** The search of [dir_add] for a free slot; [e] is the local entry. *)
Definition free_slot (i : Z) (e : list Z) : M S (Z * list Z) :=
  n ← io_length i;
  loop (Datatypes.S (Z.to_nat n)) (fun '(ofs, e) =>
    b ← io_read i sizeof_dir_entry ofs;
    let e := b ++ drop (length b) e in
    if Z.of_nat (length b) =? sizeof_dir_entry then
      if in_use (decode_entry e) =? 0 then mret (inr (ofs, e)) else mret (inl (ofs + sizeof_dir_entry, e))
    else mret (inr (ofs, e))) (0, e).

(** [stack] is what the uninitialised local entry holds. *)
Definition add_in (i : Z) (nm : list Z) (inode_sector : Z) (stack : list Z) : M S bool :=
  if (Z.of_nat (length nm) =? 0) || (NAME_MAX <? Z.of_nat (length nm)) then mret false
  else
    found ← lookup_in i nm;
    match found with
    | Some _ => mret false
    | None =>
      '(ofs, e) ← free_slot i stack;
      w ← io_write i (encode_entry (mk_entry inode_sector (copy_name (name (decode_entry e)) nm) 1))
            sizeof_dir_entry ofs;
      mret (w =? sizeof_dir_entry)
    end.

(** The loop of [dir_readdir] from position [pos]: the name and the new position. *)
Definition readdir_in (i pos : Z) : M S (option (list Z) * Z) :=
  n ← io_length i;
  loop (Datatypes.S (Z.to_nat n)) (fun pos =>
    b ← io_read i sizeof_dir_entry pos;
    if Z.of_nat (length b) =? sizeof_dir_entry then
      let e := decode_entry b in
      if negb (in_use e =? 0) then
        nm ← mlift (c_str (name e ++ [in_use e]));
        mret (inr (Some (take (Z.to_nat NAME_MAX) nm), pos + sizeof_dir_entry))
      else mret (inl (pos + sizeof_dir_entry))
    else mret (inr (None, pos))) pos.
End Table.

(** On the inodes of the file system. *)
Section Dirs.
Context (mallocs : nat -> bool).

#[local] Instance inode_io : FileIO fs := {|
  io_read := inode_read_at mallocs;
  io_write := inode_write_at mallocs;
  io_length := inode_length
|}.

Definition get_dir (d : Z) : M fs dir :=
  s ← mget; match dirs s !! d with Some x => mret x | None => mfail Fault end.

Definition dir_create (sector entry_cnt : Z) : M fs bool :=
  inode_create mallocs sector (s32 (entry_cnt * sizeof_dir_entry)).

Definition dir_open (i : Z) : M fs Z :=
  d ← malloc mallocs;
  if nonnull i && nonnull d then
    modify (fun s => set_dirs (<[d := mk_dir i 0]> (dirs s)) s);; mret d
  else
    inode_close mallocs i;; mret NULL.

Definition dir_open_root : M fs Z := i ← inode_open mallocs ROOT_DIR_SECTOR; dir_open i.

Definition dir_reopen (d : Z) : M fs Z := x ← get_dir d; i ← inode_reopen (d_inode x); dir_open i.

Definition dir_close (d : Z) : M fs unit :=
  if nonnull d then
    x ← get_dir d;
    inode_close mallocs (d_inode x);;
    modify (fun s => set_dirs (delete d (dirs s)) s)
  else mret tt.

Definition dir_get_inode (d : Z) : M fs Z := x ← get_dir d; mret (d_inode x).

Definition lookup (d : Z) (nm : list Z) : M fs (option (dir_entry * Z)) :=
  ASSERT (nonnull d);; x ← get_dir d; lookup_in (d_inode x) nm.

(** The inode, or [NULL]. *)
Definition dir_lookup (d : Z) (nm : list Z) : M fs Z :=
  ASSERT (nonnull d);;
  found ← lookup d nm;
  match found with Some (e, _) => inode_open mallocs (inode_sector e) | None => mret NULL end.

Definition dir_add (d : Z) (nm : list Z) (inode_sector : Z) (stack : list Z) : M fs bool :=
  ASSERT (nonnull d);; x ← get_dir d; add_in (d_inode x) nm inode_sector stack.

Definition dir_remove (d : Z) (nm : list Z) : M fs bool :=
  ASSERT (nonnull d);;
  found ← lookup d nm;
  match found with
  | None => inode_close mallocs NULL;; mret false
  | Some (e, ofs) =>
    i ← inode_open mallocs (inode_sector e);
    if i =? NULL then inode_close mallocs NULL;; mret false
    else
      x ← get_dir d;
      w ← inode_write_at mallocs (d_inode x) (encode_entry (mk_entry (inode_sector e) (name e) 0)) sizeof_dir_entry ofs;
      if w =? sizeof_dir_entry then
        inode_remove i;; inode_close mallocs i;; mret true
      else inode_close mallocs i;; mret false
  end.

Definition dir_readdir (d : Z) : M fs (option (list Z)) :=
  x ← get_dir d;
  '(nm, p) ← readdir_in (d_inode x) (d_pos x);
  modify (fun s => set_dirs (<[d := mk_dir (d_inode x) p]> (dirs s)) s);;
  mret nm.
End Dirs.

(** * The directory as a finite map *)

Definition nslots (bs : list Z) : nat := length bs / 20.
Definition slot (bs : list Z) (k : nat) : dir_entry := decode_entry (take 20 (drop (20 * k) bs)).
Definition slots (bs : list Z) : list dir_entry := slot bs <$> seq 0 (nslots bs).

Definition used (e : dir_entry) : Prop := in_use e ≠ 0.
#[global] Instance used_dec e : Decision (used e) := ltac:(unfold used; apply _).

Definition cname (e : dir_entry) : list Z := match c_str (name e) with Ok l => l | Err _ => [] end.
Definition bindings (l : list dir_entry) : list (list Z * Z) :=
  (fun e => (cname e, inode_sector e)) <$> filter used l.
Definition dir_map (bs : list Z) : gmap (list Z) Z := list_to_map (bindings (slots bs)).

(** Used entries have terminated names, all different. *)
Record table_ok (l : list dir_entry) : Prop := {
  tb_name : forall e, e ∈ l -> used e -> 0 ∈ name e;
  tb_nodup : NoDup (cname <$> filter used l)
}.
Definition dir_wf (bs : list Z) : Prop := table_ok (slots bs).

(** A name that an entry can hold. *)
Definition name_ok (nm : list Z) : Prop := Forall (fun c => 0 < c < 256) nm.

Section Names.
Implicit Types nm field : list Z.

Lemma c_str_ok field r : 0 ∈ field -> exists l, c_str field = Ok l /\ c_str (field ++ r) = Ok l.
Proof.
  induction field as [|c field IH]; intros Hin; [by apply elem_of_nil in Hin|]. simpl.
  destruct (Z.eqb_spec c 0) as [->|Hc]; [by eexists|].
  apply elem_of_cons in Hin as [?|Hin]; [congruence|]. destruct (IH Hin) as (l & -> & ->). by eexists.
Qed.

Lemma str_eq_ok nm field r l :
  name_ok nm -> c_str field = Ok l -> str_eq nm (field ++ r) = Ok (bool_decide (nm = l)).
Proof.
  revert nm l. induction field as [|c field IH]; intros nm l Hnm; simpl; [done|].
  destruct (Z.eqb_spec c 0) as [->|Hc].
  - intros [= <-]. destruct Hnm as [|a nm Ha Hnm]; [done|]. simpl. rewrite (proj2 (Z.eqb_neq a 0)) by lia. done.
  - unfold mbind, res_bind. destruct (c_str field) as [l'|] eqn:El; intros [= <-].
    destruct Hnm as [|a nm Ha Hnm]; [simpl; by rewrite (proj2 (Z.eqb_neq c 0)) by lia|].
    simpl. destruct (Z.eqb_spec a c) as [->|Hac].
    + rewrite (IH nm l' Hnm eq_refl). f_equal. apply bool_decide_ext. naive_solver.
    + rewrite bool_decide_eq_false_2; [done|naive_solver].
Qed.

Lemma str_eq_entry nm e :
  name_ok nm -> 0 ∈ name e -> str_eq nm (name e ++ [in_use e]) = Ok (bool_decide (nm = cname e)).
Proof.
  intros Hnm H0. destruct (c_str_ok (name e) [] H0) as (l & El & _).
  rewrite (str_eq_ok _ _ _ _ Hnm El). unfold cname. by rewrite El.
Qed.

(** A name that fits survives [strlcpy] into the field. *)
Lemma c_str_name nm r : name_ok nm -> c_str (nm ++ 0 :: r) = Ok nm.
Proof.
  induction 1 as [|a nm Ha _ IH]; [done|]. simpl. rewrite (proj2 (Z.eqb_neq a 0)) by lia. by rewrite IH.
Qed.

Lemma copy_name_ok field nm :
  name_ok nm -> (length nm <= 14)%nat -> length field = 15%nat ->
  length (copy_name field nm) = 15%nat /\ 0 ∈ copy_name field nm /\ c_str (copy_name field nm) = Ok nm.
Proof.
  intros Hnm Hl Hf. unfold copy_name. change (Z.to_nat NAME_MAX) with 14%nat. rewrite take_ge by lia.
  split_and!.
  - rewrite length_splice; [done|]. rewrite length_app. simpl. lia.
  - unfold splice. simpl. set_solver.
  - unfold splice. simpl. rewrite <-app_assoc. by apply c_str_name.
Qed.
End Names.

Section Slots.
Implicit Types (bs : list Z) (e : dir_entry) (l : list dir_entry).

Record entry_wf e : Prop := {
  en_sector : 0 <= inode_sector e < 2 ^ 32;
  en_name : length (name e) = 15%nat
}.

Lemma length_encode e : entry_wf e -> length (encode_entry e) = 20%nat.
Proof. intros [_ H]. unfold encode_entry. rewrite !length_app, length_le, H. done. Qed.

Lemma decode_encode e : entry_wf e -> decode_entry (encode_entry e) = e.
Proof.
  intros [Hs Hn]. unfold decode_entry, encode_entry. pose proof (length_le 4 (inode_sector e)) as Hl.
  rewrite take_app_length' by done. rewrite drop_app_length' by done. rewrite take_app_length' by done.
  rewrite unle_le by (change (256 ^ Z.of_nat 4) with (2 ^ 32); lia).
  rewrite lookup_app_r, Hl by (rewrite Hl; lia). rewrite lookup_app_r, Hn by (rewrite Hn; lia).
  by destruct e.
Qed.

Lemma nslots_bound bs : (20 * nslots bs <= length bs < 20 * nslots bs + 20)%nat.
Proof. unfold nslots. pose proof (Nat.div_mod_eq (length bs) 20). pose proof (Nat.mod_upper_bound (length bs) 20). lia. Qed.

Lemma slots_lookup bs k e : slots bs !! k = Some e <-> (k < nslots bs)%nat /\ e = slot bs k.
Proof.
  unfold slots. rewrite list_lookup_fmap, fmap_Some. setoid_rewrite lookup_seq.
  split; [intros (x & [-> Hx] & ->); done|]. intros [Hk ->]. by exists k.
Qed.

Lemma length_slots bs : length (slots bs) = nslots bs.
Proof. unfold slots. by rewrite length_fmap, length_seq. Qed.

(** Writing an entry over slot [k]. *)
Lemma slots_splice bs k e :
  entry_wf e -> (k < nslots bs)%nat ->
  slots (splice bs (20 * k) (encode_entry e)) = <[k := e]> (slots bs).
Proof.
  intros He Hk. pose proof (nslots_bound bs) as Hb. pose proof (length_encode e He) as Hl.
  assert (length (splice bs (20 * k) (encode_entry e)) = length bs) as Hlen by (apply length_splice; lia).
  apply list_eq. intros j. destruct (decide (j < nslots bs)%nat) as [Hj|Hj]; cycle 1.
  { rewrite !lookup_ge_None_2; [done|rewrite length_insert, length_slots; lia|].
    rewrite length_slots. unfold nslots. rewrite Hlen. fold (nslots bs). lia. }
  rewrite (proj2 (slots_lookup _ j (slot (splice bs (20 * k) (encode_entry e)) j))).
  2: { split; [|done]. unfold nslots. by rewrite Hlen. }
  destruct (decide (j = k)) as [->|Hne].
  - rewrite list_lookup_insert_eq by (by rewrite length_slots). f_equal. unfold slot, splice.
    rewrite drop_app_length' by (rewrite length_take; lia). rewrite take_app_length' by done.
    by apply decode_encode.
  - rewrite list_lookup_insert_ne by done. rewrite (proj2 (slots_lookup bs j (slot bs j))) by done. f_equal.
    unfold slot. f_equal. apply list_eq. intros m. unfold splice.
    destruct (decide (m < 20)%nat) as [Hm|Hm]; [|by rewrite !lookup_take_ge by lia].
    rewrite !lookup_take_lt, !lookup_drop by lia. destruct (decide (j < k)%nat).
    + rewrite lookup_app_l by (rewrite length_take; lia). by rewrite lookup_take_lt by lia.
    + rewrite lookup_app_r; rewrite length_take; [|lia]. rewrite lookup_app_r by lia.
      rewrite lookup_drop, Hl. f_equal. lia.
Qed.
End Slots.

Section Map.
Implicit Types (e : dir_entry) (l : list dir_entry).

Definition match_name (nm : list Z) e : Prop := used e /\ cname e = nm.
#[global] Instance match_name_dec nm e : Decision (match_name nm e) := ltac:(unfold match_name; apply _).

Lemma bindings_app l1 l2 : bindings (l1 ++ l2) = bindings l1 ++ bindings l2.
Proof. unfold bindings. by rewrite filter_app, fmap_app. Qed.

Lemma bindings_fst l : (bindings l).*1 = cname <$> filter used l.
Proof. unfold bindings. by rewrite <-list_fmap_compose. Qed.

Lemma bindings_used l e : used e -> bindings (e :: l) = (cname e, inode_sector e) :: bindings l.
Proof. intros H. unfold bindings. by rewrite filter_cons_True. Qed.

Lemma bindings_unused l e : ~ used e -> bindings (e :: l) = bindings l.
Proof. intros H. unfold bindings. by rewrite filter_cons_False. Qed.

(** The first entry with a name is its binding. *)
Lemma find_map l nm :
  table_ok l ->
  (list_to_map (bindings l) : gmap (list Z) Z) !! nm =
  (fun p => inode_sector p.2) <$> list_find (match_name nm) l.
Proof.
  intros [_ Hnd]. induction l as [|e l IH]; [done|]. simpl.
  destruct (decide (used e)) as [Hu|Hu].
  - rewrite bindings_used by done. rewrite filter_cons_True in Hnd by done. apply NoDup_cons in Hnd as [Hni Hnd].
    simpl. destruct (decide (match_name nm e)) as [[_ <-]|Hm]; [by rewrite lookup_insert_eq|].
    rewrite lookup_insert_ne by (intros Hc; by apply Hm). rewrite IH by done. by destruct (list_find _ l) as [[? ?]|].
  - rewrite bindings_unused by done. rewrite filter_cons_False in Hnd by done.
    destruct (decide (match_name nm e)) as [[? _]|Hm]; [done|].
    rewrite IH by done. by destruct (list_find _ l) as [[? ?]|].
Qed.

Lemma table_middle l1 e l2 :
  table_ok (l1 ++ e :: l2) -> used e ->
  list_to_map (bindings (l1 ++ e :: l2)) =
    <[cname e := inode_sector e]> (list_to_map (bindings (l1 ++ l2)) : gmap (list Z) Z) /\
  (list_to_map (bindings (l1 ++ l2)) : gmap (list Z) Z) !! cname e = None.
Proof.
  intros [_ Hnd] Hu. rewrite <-bindings_fst, bindings_app, bindings_used in Hnd by done.
  rewrite bindings_app, bindings_used, bindings_app by done.
  assert (bindings l1 ++ (cname e, inode_sector e) :: bindings l2 ≡ₚ
          (cname e, inode_sector e) :: bindings l1 ++ bindings l2) as Hp by (by rewrite Permutation_middle).
  split; [by rewrite (list_to_map_proper _ _ Hnd Hp)|].
  apply not_elem_of_list_to_map_1. rewrite Hp in Hnd. by apply NoDup_cons in Hnd as [? _].
Qed.

Lemma table_ok_perm l l' : l ≡ₚ l' -> table_ok l -> table_ok l'.
Proof.
  intros Hp [H1 H2]. split; [intros e He; apply H1; by rewrite Hp|]. by rewrite <-Hp.
Qed.

Lemma table_ok_cons e l :
  table_ok (e :: l) <->
  table_ok l /\ (used e -> 0 ∈ name e /\ (list_to_map (bindings l) : gmap (list Z) Z) !! cname e = None).
Proof.
  rewrite <-not_elem_of_list_to_map, bindings_fst. split.
  - intros [H1 H2]. destruct (decide (used e)) as [Hu|Hu].
    + rewrite filter_cons_True in H2 by done. apply NoDup_cons in H2 as [H2 H3].
      split; [split; [|done]|split; [|done]].
      * intros e' He'. apply H1. by right.
      * apply H1; [by left|done].
    + rewrite filter_cons_False in H2 by done. split; [|done]. split; [|done]. intros e' He'. apply H1. by right.
  - intros [[H1 H2] H3]. split.
    + intros e' [->|He'] %elem_of_cons Hu; [by apply H3|by apply H1].
    + destruct (decide (used e)) as [Hu|Hu]; [|by rewrite filter_cons_False].
      rewrite filter_cons_True by done. apply NoDup_cons. split; [by apply H3|done].
Qed.

(** Filling a free slot, and freeing a used one. *)
Lemma table_fill l k e0 e :
  table_ok l -> l !! k = Some e0 -> ~ used e0 -> used e -> 0 ∈ name e ->
  (list_to_map (bindings l) : gmap (list Z) Z) !! cname e = None ->
  table_ok (<[k := e]> l) /\
  list_to_map (bindings (<[k := e]> l)) = <[cname e := inode_sector e]> (list_to_map (bindings l) : gmap (list Z) Z).
Proof.
  intros Hok Hk Hu0 Hu H0 Hn. apply list_elem_of_split_length in Hk as (l1 & l2 & -> & ->).
  rewrite insert_app_r_alt, Nat.sub_diag by lia. simpl.
  assert (bindings (l1 ++ e0 :: l2) = bindings (l1 ++ l2)) as E
    by (by rewrite !bindings_app, (bindings_unused _ e0)).
  rewrite E in Hn |- *.
  assert (table_ok (l1 ++ l2)) as Hok'.
  { apply (table_ok_perm _ (e0 :: l1 ++ l2)) in Hok; [|by rewrite Permutation_middle].
    by apply table_ok_cons in Hok as [? _]. }
  assert (table_ok (l1 ++ e :: l2)) as Hok2.
  { apply (table_ok_perm (e :: l1 ++ l2)); [by rewrite Permutation_middle|]. by apply table_ok_cons. }
  split; [done|]. by apply table_middle.
Qed.

Lemma table_free l k e0 e :
  table_ok l -> l !! k = Some e0 -> used e0 -> ~ used e ->
  table_ok (<[k := e]> l) /\
  list_to_map (bindings (<[k := e]> l)) = delete (cname e0) (list_to_map (bindings l) : gmap (list Z) Z).
Proof.
  intros Hok Hk Hu0 Hu. apply list_elem_of_split_length in Hk as (l1 & l2 & -> & ->).
  rewrite insert_app_r_alt, Nat.sub_diag by lia. simpl.
  destruct (table_middle l1 e0 l2 Hok Hu0) as [-> Hn].
  apply (table_ok_perm _ (e0 :: l1 ++ l2)) in Hok; [|by rewrite Permutation_middle].
  apply table_ok_cons in Hok as [Hok _]. split.
  - apply (table_ok_perm (e :: l1 ++ l2)); [by rewrite Permutation_middle|]. by apply table_ok_cons.
  - rewrite bindings_app, (bindings_unused _ e), <-bindings_app by done. by rewrite delete_insert_id.
Qed.
End Map.

(** * The table operations against the interface *)

Section TableProofs.
Context {S : Type} `{FileLaws S}.
Implicit Types (s : S) (bs : list Z).

(** What a read of one entry at slot [k] returns. *)
Lemma wp_read_slot i bs s k (Q : list Z -> S -> Prop) :
  holds i bs s ->
  (forall b s', holds i bs s' -> frame i s s' -> (length b <= 20)%nat ->
     (if decide (k < nslots bs)%nat then length b = 20%nat /\ decode_entry b = slot bs k
      else (length b < 20)%nat) -> Q b s') ->
  wp (io_read i sizeof_dir_entry (20 * Z.of_nat k)) s Q.
Proof.
  intros Hh HQ. eapply wp_mono; [apply io_read_law; [done|lia]|]. intros b s' (Hb & Hh' & Hf).
  replace (Z.to_nat (20 * Z.of_nat k)) with (20 * k)%nat in Hb by lia.
  change (Z.to_nat sizeof_dir_entry) with 20%nat in Hb. pose proof (nslots_bound bs) as Hn.
  apply HQ; [done|done|subst b; rewrite length_take; lia|].
  destruct (decide _); subst b; [split; [|done]|]; rewrite length_take, length_drop; lia.
Qed.

Lemma wp_lookup_in i bs s nm (Q : option (dir_entry * Z) -> S -> Prop) :
  holds i bs s -> dir_wf bs -> name_ok nm ->
  (forall s', holds i bs s' -> frame i s s' ->
     Q ((fun p => (p.2, 20 * Z.of_nat p.1)) <$> list_find (match_name nm) (slots bs)) s') ->
  wp (lookup_in i nm) s Q.
Proof.
  intros Hh Hwf Hnm HQ. apply wp_bind. eapply wp_mono; [by apply io_length_law|]. intros n s' [-> ->].
  eapply (wp_loop (fun n ofs s' => exists k, ofs = 20 * Z.of_nat k /\ (k <= nslots bs)%nat /\ n = (nslots bs - k)%nat /\
    holds i bs s' /\ frame i s s' /\ forall j e, slots bs !! j = Some e -> (j < k)%nat -> ~ match_name nm e)).
  2: { exists O. split_and!; [done|lia|done|done|by eapply frame_refl|intros; lia]. }
  2: { pose proof (nslots_bound bs). lia. }
  intros n ofs s' (k & -> & Hk & -> & Hh' & Hf & Hno). apply wp_bind. eapply wp_read_slot; [done|].
  intros b s2 Hh2 Hf2 _ Hb. pose proof (frame_trans _ _ _ _ Hf Hf2) as Hf3. destruct (decide (k < nslots bs)%nat) as [Hlt|Hge]; cycle 1.
  { rewrite (proj2 (Z.eqb_neq _ _)) by (unfold sizeof_dir_entry; lia). apply wp_ret.
    replace (list_find _ _) with (@None (nat * dir_entry)) in HQ; [by apply HQ|]. symmetry.
    apply list_find_None, Forall_lookup. intros j e Hj. eapply Hno; [done|].
    apply slots_lookup in Hj as [? _]. lia. }
  destruct Hb as [Hl Hb]. rewrite Hl. cbn [Z.of_nat]. change (Z.of_nat 20 =? sizeof_dir_entry) with true.
  cbv zeta. rewrite Hb. assert (slots bs !! k = Some (slot bs k)) as Hs by (by apply slots_lookup).
  apply wp_bind. eapply wp_mono with (P := fun eq s3 => eq = bool_decide (match_name nm (slot bs k)) /\ s3 = s2).
  { unfold match_name, used. destruct (Z.eqb_spec (in_use (slot bs k)) 0) as [E0|E0]; cbn [negb].
    - apply wp_ret. rewrite bool_decide_eq_false_2; [done|]. naive_solver.
    - eapply wp_lift; [apply str_eq_entry; [done|]|].
      + eapply tb_name; [exact Hwf|by eapply list_elem_of_lookup_2|done].
      + split; [|done]. apply bool_decide_ext. naive_solver. }
  intros eq s3 [-> ->]. case_bool_decide as Hm; apply wp_ret.
  - rewrite (proj2 (list_find_Some _ _ k (slot bs k))) in HQ; [by apply HQ|]. split_and!; [done|done|].
    intros j y Hj Hlt'. by eapply Hno.
  - exists (nslots bs - Datatypes.S k)%nat. split; [lia|]. exists (Datatypes.S k).
    split_and!; [unfold sizeof_dir_entry; lia|lia|done|done|done|].
    intros j e Hj Hlt'. destruct (decide (j = k)) as [->|]; [by simplify_eq|]. eapply Hno; [done|lia].
Qed.

Lemma wp_free_slot i bs s stack (Q : Z * list Z -> S -> Prop) :
  holds i bs s -> length stack = 20%nat ->
  (forall s' e, holds i bs s' -> frame i s s' -> length e = 20%nat ->
     Q (20 * Z.of_nat (default (nslots bs) (fst <$> list_find (fun e => ~ used e) (slots bs))), e) s') ->
  wp (free_slot i stack) s Q.
Proof.
  intros Hh Hst HQ. apply wp_bind. eapply wp_mono; [by apply io_length_law|]. intros n s' [-> ->].
  eapply (wp_loop (fun n '(ofs, e) s' => exists k, ofs = 20 * Z.of_nat k /\ (k <= nslots bs)%nat /\ n = (nslots bs - k)%nat /\
    length e = 20%nat /\ holds i bs s' /\ frame i s s' /\ forall j e, slots bs !! j = Some e -> (j < k)%nat -> used e)).
  2: { exists O. split_and!; [done|lia|done|done|done|by eapply frame_refl|intros; lia]. }
  2: { pose proof (nslots_bound bs). lia. }
  intros n [ofs e] s' (k & -> & Hk & -> & He & Hh' & Hf & Hno). apply wp_bind. eapply wp_read_slot; [done|].
  intros b s2 Hh2 Hf2 Hb20 Hb. pose proof (frame_trans _ _ _ _ Hf Hf2) as Hf3. cbv zeta.
  assert (length (b ++ drop (length b) e) = 20%nat) as He2 by (rewrite length_app, length_drop; lia).
  destruct (decide (k < nslots bs)%nat) as [Hlt|Hge]; cycle 1.
  { rewrite (proj2 (Z.eqb_neq _ _)) by (unfold sizeof_dir_entry; lia). apply wp_ret.
    replace (list_find _ _) with (@None (nat * dir_entry)) in HQ.
    - replace k with (nslots bs) by lia. by apply HQ.
    - symmetry. apply list_find_None, Forall_lookup. intros j y Hj Hu. apply Hu. eapply Hno; [done|].
      apply slots_lookup in Hj as [? _]. lia. }
  destruct Hb as [Hl Hb]. rewrite Hl at 1. change (Z.of_nat 20 =? sizeof_dir_entry) with true.
  rewrite drop_ge, app_nil_r in He2 |- * by lia. rewrite Hb.
  assert (slots bs !! k = Some (slot bs k)) as Hs by (by apply slots_lookup).
  destruct (Z.eqb_spec (in_use (slot bs k)) 0) as [E0|E0]; apply wp_ret.
  - rewrite (proj2 (list_find_Some _ _ k (slot bs k))) in HQ; [by apply HQ|]. split_and!; [done|by unfold used; auto|].
    intros j y Hj Hlt' Hu. apply Hu. by eapply Hno.
  - exists (nslots bs - Datatypes.S k)%nat. split; [lia|]. exists (Datatypes.S k).
    split_and!; [unfold sizeof_dir_entry; lia|lia|done|done|done|done|].
    intros j y Hj Hlt'. destruct (decide (j = k)) as [->|]; [by simplify_eq|]. eapply Hno; [done|lia].
Qed.

Definition has_free (bs : list Z) : Prop := Exists (fun e => ~ used e) (slots bs).
#[global] Instance has_free_dec bs : Decision (has_free bs) := ltac:(unfold has_free; apply _).

(** When [dir_add] succeeds. *)
Definition can_add (bs nm : list Z) : Prop :=
  nm ≠ [] /\ (length nm <= 14)%nat /\ dir_map bs !! nm = None /\ has_free bs.
#[global] Instance can_add_dec bs nm : Decision (can_add bs nm) := ltac:(unfold can_add; apply _).

Lemma slots_tail bs o c :
  (20 * nslots bs <= o)%nat -> (o + length c <= length bs)%nat -> slots (splice bs o c) = slots bs.
Proof.
  intros Ho Hc. pose proof (length_splice bs o c Hc) as Hl. unfold slots, nslots. rewrite Hl.
  apply list_fmap_ext. intros k x Hx. apply lookup_seq in Hx as [-> Hx]. fold (nslots bs) in Hx. unfold slot. f_equal.
  unfold splice. rewrite drop_app_le by (rewrite length_take; lia).
  rewrite take_app_le by (rewrite length_drop, length_take; lia).
  rewrite !take_drop_commute, take_take. do 2 f_equal. lia.
Qed.

Lemma wp_add_in i bs s nm sec stack (Q : bool -> S -> Prop) :
  holds i bs s -> dir_wf bs -> name_ok nm -> 0 <= sec < 2 ^ 32 -> length stack = 20%nat ->
  (forall bs' s', holds i bs' s' -> frame i s s' -> dir_wf bs' -> length bs' = length bs ->
     dir_map bs' = (if decide (can_add bs nm) then <[nm := sec]> (dir_map bs) else dir_map bs) ->
     Q (bool_decide (can_add bs nm)) s') ->
  wp (add_in i nm sec stack) s Q.
Proof.
  intros Hh Hwf Hnm Hsec Hst HQ. unfold add_in.
  assert (forall s', holds i bs s' -> frame i s s' -> ~ can_add bs nm -> Q false s') as Hfalse.
  { intros s' Hh' Hf Hno. rewrite <-(bool_decide_eq_false_2 (can_add bs nm)) by done.
    eapply HQ; [done..|]. by rewrite decide_False. }
  destruct ((Z.of_nat (length nm) =? 0) || (NAME_MAX <? Z.of_nat (length nm))) eqn:Ebad.
  { apply wp_ret, Hfalse; [done|by eapply frame_refl|]. intros (Hne & Hlen & _).
    apply orb_true_iff in Ebad. rewrite Z.eqb_eq, Z.ltb_lt in Ebad. unfold NAME_MAX in Ebad.
    destruct nm; [done|]. cbn [length] in *. lia. }
  apply orb_false_iff in Ebad as [E1 E2]. unfold NAME_MAX in E2. apply Z.eqb_neq in E1. apply Z.ltb_ge in E2.
  assert (nm ≠ [] /\ length nm <= 14)%nat as [Hne Hlen] by (destruct nm; cbn [length] in *; split; (done || lia)).
  apply wp_bind. eapply wp_lookup_in; [done..|]. intros s1 Hh1 Hf1.
  pose proof (find_map (slots bs) nm Hwf : dir_map bs !! nm = _) as Hfind.
  destruct (list_find (match_name nm) (slots bs)) as [[k e]|]; cbn [fmap option_fmap option_map] in Hfind |- *.
  { apply wp_ret, Hfalse; [done..|]. intros (_ & _ & Hn & _). congruence. }
  apply wp_bind. eapply wp_free_slot; [done..|]. intros s2 e Hh2 Hf2 He.
  pose proof (frame_trans _ _ _ _ Hf1 Hf2) as Hf12.
  destruct (copy_name_ok (name (decode_entry e)) nm Hnm Hlen) as (C1 & C2 & C3).
  { cbn. rewrite length_take, length_drop. lia. }
  set (ne := mk_entry sec _ 1). assert (entry_wf ne) as Hne' by (split; [done|exact C1]).
  pose proof (length_encode ne Hne') as Hle. assert (used ne) as Hune by done.
  assert (cname ne = nm) as Hcn by (unfold cname, ne; cbn [name]; by rewrite C3).
  apply wp_bind. change sizeof_dir_entry with (Z.of_nat 20) at 1. rewrite <-Hle at 1.
  eapply wp_mono; [apply io_write_law; [done|lia]|]. rewrite Hle.
  intros w s3 (k & -> & Hk & Hh3 & Hf3). pose proof (frame_trans _ _ _ _ Hf12 Hf3) as Hf. apply wp_ret.
  pose proof (nslots_bound bs) as Hb. unfold sizeof_dir_entry in *.
  destruct (list_find (fun e => ~ used e) (slots bs)) as [[j e0]|] eqn:Ej; cbn [default id fst fmap option_fmap option_map] in *.
  - apply list_find_Some in Ej as (Hj & Hu0 & _). pose proof Hj as [Hjn _]%slots_lookup.
    replace k with 20%nat in * by lia. rewrite take_ge in Hh3 by lia.
    replace (Z.to_nat (20 * Z.of_nat j)) with (20 * j)%nat in Hh3 by lia.
    assert (can_add bs nm) as Hcan by (split_and!; [done|done|done|by apply Exists_exists; exists e0; eauto using list_elem_of_lookup_2]).
    destruct (table_fill (slots bs) j e0 ne) as [T1 T2]; [done..|by rewrite Hcn|].
    change (Z.of_nat 20 =? 20) with true. rewrite <-(bool_decide_eq_true_2 (can_add bs nm)) by done.
    eapply HQ; [done|done| | |].
    + unfold dir_wf. by rewrite slots_splice.
    + apply length_splice. lia.
    + rewrite decide_True by done. unfold dir_map. rewrite slots_splice by done. by rewrite T2, Hcn.
  - apply list_find_None in Ej. rewrite (proj2 (Z.eqb_neq _ _)) by lia.
    assert (~ can_add bs nm) as Hcan.
    { intros (_ & _ & _ & Hfree). apply Exists_exists in Hfree as (x & Hx & Hux).
      rewrite Forall_forall in Ej. by apply (Ej x). }
    assert (slots (splice bs (Z.to_nat (20 * Z.of_nat (nslots bs))) (take k (encode_entry ne))) = slots bs) as Hsl
      by (apply slots_tail; rewrite ?length_take; lia).
    rewrite <-(bool_decide_eq_false_2 (can_add bs nm)) by done. eapply HQ; [done|done| | |].
    + unfold dir_wf. by rewrite Hsl.
    + apply length_splice. rewrite length_take. lia.
    + rewrite decide_False by done. unfold dir_map. by rewrite Hsl.
Qed.

Lemma c_str_length field l : c_str field = Ok l -> (length l < length field)%nat.
Proof.
  revert l. induction field as [|c field IH]; intros l; simpl; [done|]. destruct (c =? 0); [intros [= <-]; simpl; lia|].
  unfold mbind, res_bind. destruct (c_str field) as [l'|]; intros [= <-]. specialize (IH l' eq_refl). simpl. lia.
Qed.

(** The next used entry from slot [k], with the slot after it. *)
Definition next_entry (bs : list Z) (k : nat) : option (list Z) * nat :=
  match list_find used (drop k (slots bs)) with
  | Some (j, e) => (Some (cname e), Datatypes.S (k + j))
  | None => (None, nslots bs)
  end.

Lemma next_entry_used bs k : (k < nslots bs)%nat -> used (slot bs k) ->
  next_entry bs k = (Some (cname (slot bs k)), Datatypes.S k).
Proof.
  intros Hk Hu. unfold next_entry. rewrite (drop_S _ (slot bs k) k) by (by apply slots_lookup). simpl.
  by rewrite decide_True, Nat.add_0_r.
Qed.

Lemma next_entry_unused bs k : (k < nslots bs)%nat -> ~ used (slot bs k) ->
  next_entry bs k = next_entry bs (Datatypes.S k).
Proof.
  intros Hk Hu. unfold next_entry. rewrite (drop_S _ (slot bs k) k) by (by apply slots_lookup). simpl.
  rewrite decide_False by done. destruct (list_find used _) as [[j e]|]; simpl; [|done]. by rewrite Nat.add_succ_r.
Qed.

Lemma wp_readdir_in i bs s k (Q : option (list Z) * Z -> S -> Prop) :
  holds i bs s -> dir_wf bs -> (k <= nslots bs)%nat ->
  (forall s', holds i bs s' -> frame i s s' -> Q ((next_entry bs k).1, 20 * Z.of_nat (next_entry bs k).2) s') ->
  wp (readdir_in i (20 * Z.of_nat k)) s Q.
Proof.
  intros Hh Hwf Hk HQ. apply wp_bind. eapply wp_mono; [by apply io_length_law|]. intros n s' [-> ->].
  eapply (wp_loop (fun n pos s' => exists k', pos = 20 * Z.of_nat k' /\ (k' <= nslots bs)%nat /\ n = (nslots bs - k')%nat /\
    holds i bs s' /\ frame i s s' /\ next_entry bs k' = next_entry bs k)).
  2: { exists k. split_and!; [done|lia|done|done|by eapply frame_refl|done]. }
  2: { pose proof (nslots_bound bs). lia. }
  clear Hk. intros n pos s' (k' & -> & Hk & -> & Hh' & Hf & Hnext). apply wp_bind. eapply wp_read_slot; [done|].
  intros b s2 Hh2 Hf2 _ Hb. pose proof (frame_trans _ _ _ _ Hf Hf2) as Hf3. rewrite <-Hnext in HQ.
  destruct (decide (k' < nslots bs)%nat) as [Hlt|Hge]; cycle 1.
  { rewrite (proj2 (Z.eqb_neq _ _)) by (unfold sizeof_dir_entry; lia). apply wp_ret.
    replace k' with (nslots bs) in * by lia. unfold next_entry in HQ.
    rewrite drop_ge in HQ by (rewrite length_slots; lia). by apply HQ. }
  destruct Hb as [Hl Hb]. rewrite Hl. change (Z.of_nat 20 =? sizeof_dir_entry) with true. cbv zeta. rewrite Hb.
  destruct (Z.eqb_spec (in_use (slot bs k')) 0) as [E0|E0]; cbn [negb].
  - apply wp_ret. exists (nslots bs - Datatypes.S k')%nat. split; [lia|]. exists (Datatypes.S k').
    split_and!; [unfold sizeof_dir_entry; lia|lia|done|done|done|].
    rewrite <-Hnext. symmetry. apply next_entry_unused; [done|]. unfold used. auto.
  - rewrite next_entry_used in HQ by done.
    assert (0 ∈ name (slot bs k')) as Hz.
    { eapply (tb_name _ Hwf); [|done]. apply (list_elem_of_lookup_2 _ k'). by apply slots_lookup. }
    destruct (c_str_ok _ [in_use (slot bs k')] Hz) as (l & El & El').
    apply wp_bind. eapply wp_lift; [done|]. apply wp_ret. unfold cname in HQ. rewrite El in HQ.
    assert (length l <= 14)%nat as Hlen.
    { apply c_str_length in El. unfold slot in El. cbn in El. rewrite length_take in El. lia. }
    change (Z.to_nat NAME_MAX) with 14%nat. rewrite take_ge by done.
    replace (20 * Z.of_nat k' + sizeof_dir_entry) with (20 * Z.of_nat (Datatypes.S k')) by (unfold sizeof_dir_entry; lia).
    by apply HQ.
Qed.
End TableProofs.

(** * The inodes implement the interface *)

Section InodeLaws.
Context (mallocs : nat -> bool) (Hmalloc : forall n, mallocs n = true).
Implicit Types s : fs.

Definition inode_holds (i : Z) (bs : list Z) s : Prop :=
  fs_wf s /\ exists ino, inodes s !! i = Some ino /\ deny_write_cnt ino = 0 /\ bytes_of s (data ino) = bs.

(** The disk changed in the data of inode [i] only. *)
Definition inode_frame (i : Z) s s' : Prop :=
  exists ino, inodes s !! i = Some ino /\ wrote s s' (data ino) (bytes_of s' (data ino)).

Lemma wrote_inodes s s' d bs : wrote s s' d bs -> inodes s' = inodes s.
Proof. by intros [(dk & a & c & -> & _) _ _ _ _]. Qed.

Lemma inode_frame_refl i bs s : inode_holds i bs s -> inode_frame i s s.
Proof.
  intros (Hwf & ino & Hi & _). exists ino. split; [done|]. by apply wrote_heap, heap_eq_refl.
Qed.

Lemma inode_frame_trans i s1 s2 s3 : inode_frame i s1 s2 -> inode_frame i s2 s3 -> inode_frame i s1 s3.
Proof.
  intros (ino & Hi & H1) (ino' & Hi' & H2). rewrite (wrote_inodes _ _ _ _ H1) in Hi'. simplify_eq.
  exists ino. split; [done|]. by eapply wrote_trans.
Qed.

Lemma inode_step s s' i ino bs :
  fs_wf s -> inodes s !! i = Some ino -> deny_write_cnt ino = 0 -> wrote s s' (data ino) bs ->
  inode_holds i bs s' /\ inode_frame i s s'.
Proof.
  intros Hwf Hi Hd Hw. pose proof (wr_bytes _ _ _ _ Hw) as Hb. split.
  - split; [by eapply wrote_wf|]. exists ino. by rewrite (wrote_inodes _ _ _ _ Hw).
  - exists ino. by rewrite Hb.
Qed.

#[local] Existing Instance inode_io.

#[local] Instance inode_laws : @FileLaws fs (inode_io mallocs).
Proof.
  refine {| holds := inode_holds; frame := inode_frame;
    frame_refl := inode_frame_refl; frame_trans := inode_frame_trans |}.
  - intros i bs s size off (Hwf & ino & Hi & Hd & <-) Ho. eapply wp_inode_read_at; [done..|].
    intros s' He. split; [done|]. by apply inode_step with ino, wrote_heap.
  - intros i bs s buf off (Hwf & ino & Hi & Hd & <-) Ho. eapply wp_inode_write_at; [done..|lia|done|].
    intros k s' Hk Hw. exists k. split; [done|].
    rewrite (length_bytes_of _ _ Hwf (fw_inode _ Hwf _ _ Hi)). split; [done|]. by apply inode_step with ino.
  - intros i bs s (Hwf & ino & Hi & Hd & <-). eapply wp_inode_length; [done|].
    by rewrite (length_bytes_of _ _ Hwf (fw_inode _ Hwf _ _ Hi)).
Defined.
End InodeLaws.
