(* ===== verification/Filesys.v ===== *)
(** src/filesys/filesys.c: creating, opening and removing files by name.

    The file system is abstracted to the finite map from names to contents
    ([fsys]), over the layout of the device ([Layout]) and the root directory
    ([Directory]); the operations are proved to implement insertion, lookup and
    deletion in that map. *)
From stdpp Require Import base list numbers gmap fin_maps.
From Stdlib Require Import ZArith Lia.
From S2P Require Import Prelude Strings Bitmap Inode Layout Directory.

Open Scope Z_scope.

(** * Operations *)

Section Operations.
Context (mallocs : nat -> bool).

(** [stack] is the uninitialised local of [dir_add]. *)
Definition filesys_create (nm : list Z) (initial_size : Z) (stack : list Z) : M fs bool :=
  dir ← dir_open_root mallocs;
  '(success, inode_sector) ←
    (if nonnull dir then
       a ← free_map_allocate mallocs 1;
       match a with
       | None => mret (false, 0)
       | Some inode_sector =>
         c ← inode_create mallocs inode_sector initial_size;
         if c : bool then ok ← dir_add mallocs dir nm inode_sector stack; mret (ok, inode_sector)
         else mret (false, inode_sector)
       end
     else mret (false, 0));
  (if negb success && negb (inode_sector =? 0) then free_map_release mallocs inode_sector 1 else mret tt);;
  dir_close mallocs dir;;
  mret success.

Definition filesys_open (nm : list Z) : M fs Z :=
  dir ← dir_open_root mallocs;
  i ← (if nonnull dir then dir_lookup mallocs dir nm else mret NULL);
  dir_close mallocs dir;;
  file_open mallocs i.

Definition filesys_remove (nm : list Z) : M fs bool :=
  dir ← dir_open_root mallocs;
  success ← (if nonnull dir then dir_remove mallocs dir nm else mret false);
  dir_close mallocs dir;;
  mret success.

Definition do_format : M fs unit :=
  free_map_create mallocs;;
  ok ← dir_create mallocs ROOT_DIR_SECTOR 16;
  if ok : bool then free_map_close mallocs else mfail Panic.

(** [fs_device] is the number of sectors of the file system device, if there is
    one; [malloc_bits] the memory that [bitmap_create] gets. *)
Definition filesys_init (fs_device : option Z) (malloc_bits : option (list Z)) (format : bool) : M fs unit :=
  match fs_device with
  | None => mfail Panic
  | Some size =>
    modify (fun s => set_inodes (inodes s) [] s);;
    free_map_init mallocs size malloc_bits;;
    (if format then do_format else mret tt);;
    free_map_open mallocs
  end.

Definition filesys_done : M fs unit := free_map_close mallocs.
End Operations.

(** * The abstract file system *)

(** [A] are the inodes on the device and [m] the root directory. *)
Record fs_inv (A : gmap Z inode_disk) (m : gmap (list Z) Z) (s : fs) : Prop := {
  fi_layout : layout A s;
  fi_root : exists dr, A !! ROOT_DIR_SECTOR = Some dr /\ dir_wf (bytes_of s dr) /\ dir_map (bytes_of s dr) = m;
  fi_entries : forall nm n, m !! nm = Some n ->
    n ≠ FREE_MAP_SECTOR /\ n ≠ ROOT_DIR_SECTOR /\ is_Some (A !! n);
  fi_inj : forall nm nm' n, m !! nm = Some n -> m !! nm' = Some n -> nm = nm';
  fi_writable : forall i ino, inodes s !! i = Some ino -> sector ino = ROOT_DIR_SECTOR -> deny_write_cnt ino = 0;
  fi_removed : forall i ino nm, inodes s !! i = Some ino -> removed ino = true -> m !! nm ≠ Some (sector ino)
}.

(** The contents of the files by name. *)
Definition files_of (A : gmap Z inode_disk) (m : gmap (list Z) Z) (s : fs) : gmap (list Z) (list Z) :=
  omap (fun n => bytes_of s <$> A !! n) m.

Definition fsys (F : gmap (list Z) (list Z)) (s : fs) : Prop :=
  exists A m, fs_inv A m s /\ files_of A m s = F.

Definition sys_sectors : list Z := [FREE_MAP_SECTOR; ROOT_DIR_SECTOR].

(** The open files, removed ones included, keep their contents from [s] to [s']. *)
Definition open_kept (s s' : fs) : Prop :=
  forall i x, inodes s' !! i = Some x -> sector x ∉ sys_sectors -> bytes_of s' (data x) = bytes_of s (data x).

(** From [s], the file system has got to [F]. *)
Definition fsys_to (s : fs) (F : gmap (list Z) (list Z)) (s' : fs) : Prop := fsys F s' /\ open_kept s s'.

(** The same with the sectors of the named inodes. *)
Definition fsys_at (m : gmap (list Z) Z) (F : gmap (list Z) (list Z)) (s : fs) : Prop :=
  exists A, fs_inv A m s /\ files_of A m s = F.
Definition fsys_step (s : fs) (m : gmap (list Z) Z) (F : gmap (list Z) (list Z)) (s' : fs) : Prop :=
  fsys_at m F s' /\ open_kept s s'.

Lemma fsys_step_to s m F s' : fsys_step s m F s' -> fsys_to s F s'.
Proof. intros [(A & H1 & H2) H3]. split; [|done]. by exists A, m. Qed.

Section Root.
Context (mallocs : nat -> bool) (Hmalloc : forall n, mallocs n = true).
Implicit Types (A : gmap Z inode_disk) (m : gmap (list Z) Z) (s : fs).

(** [s1] is [s] with the root directory opened at [d], its inode at [i]. *)
Record root_open s s1 (d i : Z) (dr : inode_disk) : Prop := {
  ro_inode : exists ino, opened (inodes s) (open_inodes s) i ROOT_DIR_SECTOR dr (inodes s1) (open_inodes s1) ino /\
             deny_write_cnt ino = 0;
  ro_dirs : dirs s1 = <[d := mk_dir i 0]> (dirs s);
  ro_fresh : dirs s !! d = None;
  ro_pos : 0 < i /\ 0 < d;
  ro_files : files s1 = files s;
  ro_fm : free_map_file s1 = free_map_file s;
  ro_heap : next_addr s <= next_addr s1
}.

Lemma ro_lookup s s1 d i dr :
  root_open s s1 d i dr ->
  exists ino, inodes s1 !! i = Some ino /\ sector ino = ROOT_DIR_SECTOR /\ data ino = dr /\ deny_write_cnt ino = 0.
Proof.
  intros [(ino & Hop & Hd) _ _ _ _ _ _]. exists ino.
  destruct (opened_facts _ _ _ _ _ _ _ _ Hop) as (-> & H1 & H2 & _). by rewrite lookup_insert_eq.
Qed.

Lemma ro_same s s1 s2 d i dr : root_open s s1 d i dr -> same_handles s1 s2 -> root_open s s2 d i dr.
Proof. intros [] []. split; rewrite ?sh_inodes, ?sh_open, ?sh_dirs, ?sh_files, ?sh_fm; (done || lia). Qed.

Lemma wp_dir_open_root A m s (Q : Z -> fs -> Prop) :
  fs_inv A m s ->
  (forall d i dr s1, A !! ROOT_DIR_SECTOR = Some dr -> root_open s s1 d i dr -> layout A s1 ->
     disk s1 = disk s -> free_map s1 = free_map s -> Q d s1) ->
  wp (dir_open_root mallocs) s Q.
Proof.
  intros [Hly (dr & Hdr & _) _ _ Hw] HQ. apply wp_bind. eapply (wp_inode_open mallocs Hmalloc A); [done..|].
  intros i t' l' ino s1 Hi Hop (a & c & -> & Ha) Hly1. pose proof (ha_heap _ _ (ly_handles _ _ Hly1)) as Hh.
  apply wp_bind, wp_malloc; [done|done|]. rewrite !nonnull_pos by done. cbn [andb].
  apply wp_bind, wp_bind, wp_get. apply wp_put, wp_ret. cbn in Ha, Hh |- *.
  assert (dirs s !! a = None) as Hfresh.
  { destruct (dirs s !! a) eqn:E; [|done]. pose proof (ha_dirs _ _ (ly_handles _ _ Hly1) a (ltac:(by eexists))). simpl in *. lia. }
  eapply HQ; [done| | |done|done].
  - split; [|done|done|done|done|done|cbn; lia]. exists ino. split; [done|].
    destruct (opened_inv _ _ _ _ _ _ _ _ Hop) as [(o & Ho & _ & _ & _ & ->)|(_ & _ & _ & _ & ->)]; [|done].
    apply (Hw i o Ho). by inversion Hop; simplify_eq.
  - destruct Hly1 as [Hd1 [H1 H2 H3 H4 H5 H6 H7]]. cbn in H1, H2, H3, H4, H5, H6, H7.
    eapply layout_handles; [exact Hd1|done..| |done]. split; cbn; try done; try lia.
    + intros j x Hj. destruct (H1 j x Hj) as (? & ? & ?). split_and!; [done|done|lia|lia].
    + intros f Hf. specialize (H6 f Hf). lia.
    + intros j [->|Hj]%lookup_insert_is_Some'; [lia|]. specialize (H7 j Hj). lia.
Qed.

(** Closing the root directory, whatever entry it has been read up to. *)
Lemma wp_dir_close_at A s s1 d i dr p (Q : unit -> fs -> Prop) :
  root_open s s1 d i dr -> layout A s1 ->
  (forall s2, s2 = set_dirs (dirs s) (set_inodes (inodes s) (open_inodes s) s1) -> layout A s2 -> same_handles s s2 -> Q tt s2) ->
  wp (dir_close mallocs d) (set_dirs (<[d := mk_dir i p]> (dirs s)) s1) Q.
Proof.
  intros Hro Hly HQ. pose proof Hro as [(ino & Hop & _) Hdirs Hfresh [Hi Hd] Hf Hfm Hheap].
  unfold dir_close. rewrite nonnull_pos by done. apply wp_bind, wp_bind, wp_get. cbn [dirs set_dirs]. rewrite lookup_insert_eq.
  apply wp_ret. apply wp_bind. eapply wp_close_opened; [done|exact Hop|].
  apply wp_bind, wp_get. apply wp_put. cbn [dirs set_inodes set_dirs]. rewrite delete_insert_id by done.
  assert (layout A (set_inodes (inodes s) (open_inodes s) s1)) as [Hd2 Hha2].
  { eapply layout_closed; [done| |exact Hop]. done. }
  apply HQ; [done| |by split].
  eapply layout_handles; [exact Hd2|done..| |done].
  destruct Hha2 as [H1 H2 H3 H4 H5 H6 H7]. split; try done. cbn in *. intros j Hj. apply H7.
  rewrite Hdirs. apply lookup_insert_is_Some'. by right.
Qed.

Lemma wp_dir_close_root A s s1 d i dr (Q : unit -> fs -> Prop) :
  root_open s s1 d i dr -> layout A s1 ->
  (forall s2, s2 = set_dirs (dirs s) (set_inodes (inodes s) (open_inodes s) s1) -> layout A s2 -> same_handles s s2 -> Q tt s2) ->
  wp (dir_close mallocs d) s1 Q.
Proof.
  intros Hro Hly HQ. replace s1 with (set_dirs (<[d := mk_dir i 0]> (dirs s)) s1) by (rewrite <-(ro_dirs _ _ _ _ _ Hro); by destruct s1).
  by eapply wp_dir_close_at.
Qed.

Lemma wp_root_dir s s1 d i dr (Q : dir -> fs -> Prop) :
  root_open s s1 d i dr -> Q (mk_dir i 0) s1 -> wp (get_dir d) s1 Q.
Proof. intros Hro HQ. apply wp_bind, wp_get. by rewrite (ro_dirs _ _ _ _ _ Hro), lookup_insert_eq. Qed.

Lemma root_holds A s s1 d i dr :
  root_open s s1 d i dr -> layout A s1 -> inode_holds i (bytes_of s1 dr) s1.
Proof.
  intros Hro [[_ Hwf _] _]. split; [done|]. destruct (ro_lookup _ _ _ _ _ Hro) as (ino & H1 & H2 & <- & H4). by exists ino.
Qed.

(** An access to the contents of the root directory. *)
Lemma root_step A s s1 s2 d i dr bs :
  root_open s s1 d i dr -> layout A s1 -> inode_holds i bs s2 -> inode_frame i s1 s2 ->
  layout A s2 /\ same_handles s1 s2 /\ kept [ROOT_DIR_SECTOR] A s1 s2 /\ bytes_of s2 dr = bs /\
  free_map s2 = free_map s1.
Proof.
  intros Hro Hly (_ & ino' & Hi' & _ & Hb) (ino & Hi & Hw).
  destruct (ro_lookup _ _ _ _ _ Hro) as (ino1 & H1 & H2 & H3 & H4). rewrite H1 in Hi. injection Hi as ->.
  assert (sector ino ≠ FREE_MAP_SECTOR) as Hne by (by rewrite H2).
  destruct (layout_wrote _ _ _ _ _ _ Hly H1 Hne Hw) as (L1 & L2 & L3).
  destruct (wrote_handles _ _ _ _ Hw) as [_ Hf].
  rewrite (sh_inodes _ _ L3) in Hi'. simplify_eq. rewrite H2 in L2. done.
Qed.

Lemma kept_root A s s' dr :
  A !! ROOT_DIR_SECTOR = Some dr -> kept [ROOT_DIR_SECTOR] A s s' -> bytes_of s' dr = bytes_of s dr -> kept [] A s s'.
Proof.
  intros Hdr Hk Hb n e Hn _. destruct (decide (n = ROOT_DIR_SECTOR)) as [->|Hne]; [by simplify_eq|].
  apply (Hk n e Hn). set_solver.
Qed.

Lemma wp_root_lookup A s s1 d i dr nm (Q : option (dir_entry * Z) -> fs -> Prop) :
  root_open s s1 d i dr -> layout A s1 -> A !! ROOT_DIR_SECTOR = Some dr -> dir_wf (bytes_of s1 dr) -> name_ok nm ->
  (forall s2, layout A s2 -> same_handles s1 s2 -> kept [] A s1 s2 -> free_map s2 = free_map s1 ->
     Q ((fun p => (p.2, 20 * Z.of_nat p.1)) <$> list_find (match_name nm) (slots (bytes_of s1 dr))) s2) ->
  wp (lookup mallocs d nm) s1 Q.
Proof.
  intros Hro Hly Hdr Hwf Hnm HQ. destruct (ro_pos _ _ _ _ _ Hro) as [_ Hd].
  apply wp_bind, wp_assert; [by apply nonnull_pos|]. apply wp_bind. eapply wp_root_dir; [done|]. cbn [d_inode].
  eapply (@wp_lookup_in fs (inode_io mallocs) (inode_laws mallocs Hmalloc) i (bytes_of s1 dr)); [by eapply root_holds|done|done|].
  intros s2 Hh Hf. destruct (root_step _ _ _ _ _ _ _ _ Hro Hly Hh Hf) as (H1 & H2 & H3 & H4 & H5).
  apply HQ; [done|done|by eapply kept_root|done].
Qed.

Lemma wp_root_add A s s1 d i dr nm sec stack (Q : bool -> fs -> Prop) :
  root_open s s1 d i dr -> layout A s1 -> A !! ROOT_DIR_SECTOR = Some dr -> dir_wf (bytes_of s1 dr) -> name_ok nm ->
  0 <= sec < 2 ^ 32 -> length stack = 20%nat ->
  (forall s2, layout A s2 -> same_handles s1 s2 -> kept [ROOT_DIR_SECTOR] A s1 s2 -> free_map s2 = free_map s1 ->
     dir_wf (bytes_of s2 dr) ->
     dir_map (bytes_of s2 dr) = (if decide (can_add (bytes_of s1 dr) nm) then <[nm := sec]> (dir_map (bytes_of s1 dr))
                                 else dir_map (bytes_of s1 dr)) ->
     Q (bool_decide (can_add (bytes_of s1 dr) nm)) s2) ->
  wp (dir_add mallocs d nm sec stack) s1 Q.
Proof.
  intros Hro Hly Hdr Hwf Hnm Hsec Hst HQ. destruct (ro_pos _ _ _ _ _ Hro) as [_ Hd].
  apply wp_bind, wp_assert; [by apply nonnull_pos|]. apply wp_bind. eapply wp_root_dir; [done|]. cbn [d_inode].
  eapply (@wp_add_in fs (inode_io mallocs) (inode_laws mallocs Hmalloc) i (bytes_of s1 dr)); [by eapply root_holds|done..|].
  intros bs s2 Hh Hf Hwf2 _ Hm2. destruct (root_step _ _ _ _ _ _ _ _ Hro Hly Hh Hf) as (H1 & H2 & H3 & H4 & H5).
  apply HQ; [done|done|done|done|by rewrite H4|by rewrite H4].
Qed.

Lemma files_of_kept A m s s' :
  fs_inv A m s -> kept sys_sectors A s s' -> files_of A m s' = files_of A m s.
Proof.
  intros Hinv Hk. apply map_eq. intros nm. unfold files_of. rewrite !lookup_omap.
  destruct (m !! nm) as [n|] eqn:E; [|done]. cbn.
  destruct (fi_entries _ _ _ Hinv nm n E) as (H0 & H1 & [e He]). rewrite He. cbn. f_equal.
  apply (Hk n e He). unfold sys_sectors. set_solver.
Qed.

Lemma kept_open A s s' : layout A s' -> kept sys_sectors A s s' -> open_kept s s'.
Proof. intros Hly Hk i x Hi Hx. by apply (Hk _ _ (proj1 (ha_open _ _ (ly_handles _ _ Hly) _ _ Hi))). Qed.

Lemma kept_sys X A s s' : X ⊆ sys_sectors -> kept X A s s' -> kept sys_sectors A s s'.
Proof. intros HX. by apply kept_mono. Qed.

Lemma kept_disk X A s s' : disk s' = disk s -> kept X A s s'.
Proof. intros E n e _ _. apply bytes_of_disk. by rewrite E. Qed.

(** The entries in the root directory [dr] are [m]. *)
Definition root_map m s (dr : inode_disk) : Prop := dir_wf (bytes_of s dr) /\ dir_map (bytes_of s dr) = m.

Lemma fi_root_map A m s dr : fs_inv A m s -> A !! ROOT_DIR_SECTOR = Some dr -> root_map m s dr.
Proof. intros Hinv Hdr. destruct (fi_root _ _ _ Hinv) as (dr' & H1 & H2). by simplify_eq. Qed.

Lemma fs_inv_step A m s s' dr :
  fs_inv A m s -> layout A s' -> same_handles s s' -> A !! ROOT_DIR_SECTOR = Some dr ->
  root_map m s' dr -> fs_inv A m s'.
Proof.
  intros [H1 _ H5 H6 H7 H8] Hly Hh Hdr Hb. split; [done| |done|done| |].
  - by exists dr.
  - intros i ino. rewrite (sh_inodes _ _ Hh). apply H7.
  - intros i ino nm. rewrite (sh_inodes _ _ Hh). apply H8.
Qed.

(** A failed creation leaves the files as they were. *)
Lemma fsys_same A m s s' dr :
  fs_inv A m s -> layout A s' -> same_handles s s' -> A !! ROOT_DIR_SECTOR = Some dr ->
  root_map m s' dr -> kept sys_sectors A s s' -> fsys_step s m (files_of A m s) s'.
Proof.
  intros Hinv Hly Hh Hdr Hb Hk. split; [|by eapply kept_open].
  exists A. split; [by eapply fs_inv_step|by apply files_of_kept].
Qed.

(** A new entry for a new inode. *)
Lemma fsys_insert A m s s' dr nm n d :
  fs_inv A m s -> layout (<[n := d]> A) s' -> same_handles s s' -> A !! ROOT_DIR_SECTOR = Some dr ->
  A !! n = None -> dir_wf (bytes_of s' dr) -> dir_map (bytes_of s' dr) = <[nm := n]> m -> m !! nm = None ->
  kept sys_sectors A s s' -> fsys_step s (<[nm := n]> m) (<[nm := bytes_of s' d]> (files_of A m s)) s'.
Proof.
  intros Hinv Hly Hh Hdr Hn Hwf Hm Hnm Hk.
  assert (forall i x, inodes s' !! i = Some x -> A !! sector x = Some (data x)) as Hold.
  { intros i x. rewrite (sh_inodes _ _ Hh). apply (ha_open _ _ (ly_handles _ _ (fi_layout _ _ _ Hinv))). }
  split; [|intros i x Hi Hx; by apply (Hk _ _ (Hold i x Hi))]. exists (<[n := d]> A).
  assert (exists fi, A !! FREE_MAP_SECTOR = Some fi) as [fi Hfi].
  { destruct (dv_fm _ _ (ly_device _ _ (fi_layout _ _ _ Hinv))) as (ino & _ & HA & _). by eexists. }
  pose proof Hinv as [H1 _ H5 H6 H7 H8]. split.
  - split; [done| | | | |].
    + exists dr. rewrite lookup_insert_ne by congruence. done.
    + intros x k [[<- <-]|[_ Hx]]%lookup_insert_Some.
      * split_and!; [congruence|congruence|by rewrite lookup_insert_eq].
      * destruct (H5 x k Hx) as (? & ? & ?). split_and!; [done|done|]. apply lookup_insert_is_Some'. by right.
    + assert (forall x, m !! x ≠ Some n) as Hnew.
      { intros x Hx. destruct (H5 x n Hx) as (_ & _ & [? ?]). congruence. }
      intros x y k [[<- <-]|[_ Hx]]%lookup_insert_Some [[<- ?]|[_ Hy]]%lookup_insert_Some; simplify_eq;
        [done|by destruct (Hnew y)|by destruct (Hnew x)|by eapply H6].
    + intros i ino. rewrite (sh_inodes _ _ Hh). apply H7.
    + intros i ino x Hi Hr [[<- ?]|[_ Hx]]%lookup_insert_Some; [pose proof (Hold i ino Hi); congruence|].
      rewrite (sh_inodes _ _ Hh) in Hi. by apply (H8 i ino x Hi Hr).
  - rewrite <-(files_of_kept _ _ _ _ Hinv Hk). apply map_eq. intros x. unfold files_of. rewrite lookup_omap.
    destruct (decide (x = nm)) as [->|Hne].
    + rewrite !lookup_insert_eq. cbn. by rewrite lookup_insert_eq.
    + rewrite !lookup_insert_ne, lookup_omap by done. destruct (m !! x) as [k|] eqn:E; [|done]. cbn.
      destruct (H5 x k E) as (_ & _ & [? ?]). by rewrite lookup_insert_ne by congruence.
Qed.

Lemma handles_of_same A s s' : layout A s -> same_handles s s' -> device A s' -> layout A s'.
Proof. intros [_ Hh] Hs Hd. split; [done|by eapply handles_same]. Qed.

(** Without the inode last created. *)
Lemma layout_drop A s s' n e :
  layout (<[n := e]> A) s' -> layout A s -> same_handles s s' -> A !! n = None -> n ≠ 0 -> layout A s'.
Proof.
  intros [[C4 W4 (fi & F1 & F2 & F3)] _] Hly Hh HnA Hn0. apply (handles_of_same A s); [done|done|].
  rewrite lookup_insert_ne in F2; [|unfold FREE_MAP_SECTOR; congruence].
  split; [|done|by exists fi]. apply (core_delete _ _ n) in C4. by rewrite delete_insert_id in C4.
Qed.

(** The device is without room for a file of [len] bytes. *)
Definition no_room (s : fs) (len : Z) : Prop :=
  (forall i, 0 <= i -> i + 1 <= bit_cnt (free_map s) -> ~ group (free_map s) i 1 false) \/
  exists first b, flipped (free_map s) b first 1 true /\ let k := (len + 511) / 512 in
    forall i, 0 <= i -> i + k <= bit_cnt b -> ~ group b i k false.

Lemma kept_dirs X A s s' s2 t l ds : s' = set_dirs ds (set_inodes t l s2) -> kept X A s s2 -> kept X A s s'.
Proof. intros -> H. exact H. Qed.

(** The end of a failed creation. *)
Lemma wp_create_fails A m s s1 d i dr (Q : bool -> fs -> Prop) :
  fs_inv A m s -> A !! ROOT_DIR_SECTOR = Some dr -> root_open s s1 d i dr -> layout A s1 ->
  kept sys_sectors A s s1 -> root_map m s1 dr ->
  (forall s', same_handles s s' -> fsys_step s m (files_of A m s) s' -> Q false s') ->
  wp (dir_close mallocs d;; mret false) s1 Q.
Proof.
  intros Hinv Hdr Hro Hly Hk Hb HQ. apply wp_bind. eapply wp_dir_close_root; [done..|].
  intros s2 E Hly2 Hh2. apply wp_ret, HQ; [done|]. eapply fsys_same; [done|done|done|done| |by eapply kept_dirs].
  by rewrite E.
Qed.

(** The same after giving back the inode's sector. *)
Lemma wp_create_undone A m s s1 d i dr n (Q : bool -> fs -> Prop) :
  fs_inv A m s -> A !! ROOT_DIR_SECTOR = Some dr -> root_open s s1 d i dr -> layout A s1 ->
  kept sys_sectors A s s1 -> root_map m s1 dr -> reserved A s1 n ->
  (forall s', same_handles s s' -> fsys_step s m (files_of A m s) s' -> Q false s') ->
  wp (free_map_release mallocs n 1;; dir_close mallocs d;; mret false) s1 Q.
Proof.
  intros Hinv Hdr Hro Hly Hk Hb (Hn & Hbit & Hnot) HQ. apply wp_bind.
  eapply wp_free_map_release; [done|apply Hly|lia|lia|lia| | |].
  { intros k Hk'. by replace k with n by lia. }
  { intros x e k Hx Hu Hr. apply (Hnot x e Hx). by replace n with k by lia. }
  intros b s2 _ (Hd2 & Hk2 & Hh2 & _). pose proof (handles_of_same _ _ _ Hly Hh2 Hd2) as Hly2.
  eapply (wp_create_fails A m s s2); [done|done|by eapply ro_same|done| | |done].
  - eapply kept_trans; [done|]. eapply kept_sys; [|done]. unfold sys_sectors. set_solver.
  - unfold root_map. rewrite (Hk2 _ _ Hdr); [done|]. unfold ROOT_DIR_SECTOR, FREE_MAP_SECTOR. set_solver.
Qed.

(** From the new inode on. *)
Lemma wp_create_entry A m s s3 d i dr n e nm stack (Q : bool -> fs -> Prop) :
  fs_inv A m s -> A !! ROOT_DIR_SECTOR = Some dr -> root_open s s3 d i dr -> layout (<[n := e]> A) s3 -> layout A s3 ->
  reserved A s3 n -> n ≠ 0 -> kept sys_sectors A s s3 -> bytes_of s3 dr = bytes_of s dr -> name_ok nm ->
  length stack = 20%nat ->
  (forall s', same_handles s s' -> fsys_step s (<[nm := n]> m) (<[nm := bytes_of s3 e]> (files_of A m s)) s' ->
     can_add (bytes_of s dr) nm -> Q true s') ->
  (forall s', same_handles s s' -> fsys_step s m (files_of A m s) s' -> ~ can_add (bytes_of s dr) nm -> Q false s') ->
  wp ('(success, inode_sector) ← (ok ← dir_add mallocs d nm n stack; mret (ok, n));
      (if negb success && negb (inode_sector =? 0) then free_map_release mallocs inode_sector 1 else mret tt);;
      dir_close mallocs d;;
      mret success) s3 Q.
Proof.
  intros Hinv Hdr Hro Hly' Hly Hr Hn0 Hk Hb Hnm Hst HQ1 HQ0. pose proof (reserved_None _ _ _ Hr) as HnA.
  assert (<[n := e]> A !! ROOT_DIR_SECTOR = Some dr) as Hdr' by (by rewrite lookup_insert_ne by congruence).
  destruct (fi_root _ _ _ Hinv) as (dr0 & Hdr0 & Hwf & Hm). rewrite Hdr in Hdr0. injection Hdr0 as <-.
  pose proof Hr as (Hn & _). pose proof (bw_cnt _ (co_map _ _ (ly_core _ _ Hly))) as Hbc.
  apply wp_bind, wp_bind. eapply (wp_root_add (<[n := e]> A) s s3 d i dr); [done..|by rewrite Hb|done|lia|done|].
  rewrite Hb. intros s4 Hly4 Hh4 Hk4 Hf4 Hwf4 Hm4. apply wp_ret.
  pose proof (ro_same _ _ _ _ _ _ Hro Hh4) as Hro4.
  assert (kept sys_sectors A s3 s4) as Hk34.
  { eapply kept_mono; [|by apply insert_subseteq|exact Hk4]. unfold sys_sectors. set_solver. }
  pose proof (kept_trans _ _ _ _ _ Hk Hk34) as Hk4'.
  assert (bytes_of s4 e = bytes_of s3 e) as Hbe.
  { apply (Hk4 n e); [by rewrite lookup_insert_eq|]. rewrite list_elem_of_singleton. congruence. }
  destruct (decide (can_add (bytes_of s dr) nm)) as [Hcan|Hcan].
  - rewrite bool_decide_eq_true_2 by done. cbn [negb andb]. apply wp_bind, wp_ret. apply wp_bind.
    eapply wp_dir_close_root; [done..|]. intros s5 E5 Hly5 Hh5. apply wp_ret, HQ1; [done| |done].
    rewrite <-Hbe. replace (bytes_of s4 e) with (bytes_of s5 e) by (by rewrite E5).
    pose proof Hcan as (_ & _ & Hnone & _). rewrite Hm in Hm4, Hnone.
    eapply fsys_insert; [done..|by rewrite E5|by rewrite E5|done|by eapply kept_dirs].
  - rewrite bool_decide_eq_false_2 by done. rewrite (proj2 (Z.eqb_neq n 0)) by done. cbn [negb andb].
    assert (layout A s4) as Hly4' by (by eapply layout_drop).
    eapply (wp_create_undone A m s s4 d i dr n); [done..| | |].
    + split; [done|by rewrite Hm4].
    + unfold reserved in *. by rewrite Hf4.
    + intros s' H1 H2. by apply HQ0.
Qed.

Lemma alloc_reserved A s s' b n :
  core A s -> 0 <= n -> n + 1 <= bit_cnt (free_map s) -> group (free_map s) n 1 false ->
  flipped (free_map s) b n 1 true -> free_map s' = b -> reserved A s' n.
Proof.
  intros Hc H0 H1 Hg Hb Hf. pose proof Hb as (_ & Hbc & _). split_and!.
  - done.
  - rewrite Hf, Hbc. lia.
  - rewrite Hf. apply (flipped_bit _ _ _ _ _ n Hb); lia.
  - intros x e Hx Hu. destruct (co_used _ _ Hc x e n Hx Hu) as [_ Hbit].
    rewrite (Hg n) in Hbit by lia. done.
Qed.

Lemma wp_filesys_create A m s nm len stack (Q : bool -> fs -> Prop) :
  fs_inv A m s -> name_ok nm -> 0 <= len < 2 ^ 31 - 512 -> length stack = 20%nat ->
  (forall dr n s', A !! ROOT_DIR_SECTOR = Some dr -> A !! n = None -> same_handles s s' ->
     fsys_step s (<[nm := n]> m) (<[nm := replicate (Z.to_nat len) 0]> (files_of A m s)) s' -> can_add (bytes_of s dr) nm -> Q true s') ->
  (forall dr s', A !! ROOT_DIR_SECTOR = Some dr -> same_handles s s' -> fsys_step s m (files_of A m s) s' ->
     no_room s len \/ ~ can_add (bytes_of s dr) nm -> Q false s') ->
  wp (filesys_create mallocs nm len stack) s Q.
Proof.
  intros Hinv Hnm Hlen Hst HQ1 HQ0. apply wp_bind. eapply wp_dir_open_root; [done|].
  intros d i dr s1 Hdr Hro Hly1 Hd1 Hf1. rewrite nonnull_pos by apply Hro.
  pose proof (fi_root_map _ _ _ _ Hinv Hdr) as Hrm. pose proof (ly_core _ _ Hly1) as Hc1.
  assert (forall e, bytes_of s1 e = bytes_of s e) as Hb1 by (intros e; apply bytes_of_disk; by rewrite Hd1).
  assert (kept sys_sectors A s s1) as Hk1 by (by apply kept_disk).
  assert (root_map m s1 dr) as Hrm1 by (unfold root_map; by rewrite Hb1).
  apply wp_bind, wp_bind. eapply wp_free_map_allocate; [done|apply Hly1|lia| |]; rewrite ?Hf1.
  { intros Hfull. apply wp_ret. cbn [negb andb]. change (0 =? 0) with true. cbn [negb]. apply wp_bind, wp_ret.
    eapply (wp_create_fails A m s s1); [done..|]. intros s' H1 H2. eapply HQ0; [done..|]. by left; left. }
  intros n b s2 H0 Hle Hg Hb (Hd2 & Hk2 & Hh2 & Hf2). rewrite <-Hf1 in Hle, Hg, Hb.
  pose proof (handles_of_same _ _ _ Hly1 Hh2 Hd2) as Hly2. pose proof (ro_same _ _ _ _ _ _ Hro Hh2) as Hro2.
  pose proof (alloc_reserved A s1 s2 b n Hc1 H0 Hle Hg Hb Hf2) as Hr2.
  assert (n ≠ 0) as Hn0.
  { intros ->. destruct (dv_fm _ _ Hd2) as (fi & _ & HA & _). destruct Hr2 as (_ & _ & Hno). eapply Hno; [exact HA|by left]. }
  assert (kept [FREE_MAP_SECTOR] A s s2) as Hk12.
  { intros x e Hx Hni. by rewrite (Hk2 x e Hx Hni), Hb1. }
  assert (bytes_of s2 dr = bytes_of s dr) as Hbr2.
  { apply (Hk12 _ _ Hdr). unfold ROOT_DIR_SECTOR, FREE_MAP_SECTOR. set_solver. }
  assert ([FREE_MAP_SECTOR] ⊆ sys_sectors) as Hsub by (unfold sys_sectors; set_solver).
  apply wp_bind. eapply (wp_inode_create mallocs Hmalloc A); [done..| |].
  { intros s3 He Hfull. apply wp_ret. rewrite (proj2 (Z.eqb_neq n 0)) by done. cbn [negb andb].
    destruct (heap_handles _ _ He) as (Hh3 & Hf3 & Hd3).
    eapply (wp_create_undone A m s s3 d i dr n); [done|done|by eapply ro_same|by eapply layout_heap| | | |].
    - eapply kept_trans; [by eapply kept_sys|by apply kept_disk].
    - unfold root_map. rewrite (bytes_of_heap_eq _ _ _ He), Hbr2. done.
    - unfold reserved in *. by rewrite Hf3.
    - intros s' H1 H2. eapply HQ0; [done..|]. left. right. exists n, b. rewrite <-Hf1. rewrite Hf2 in Hfull. done. }
  intros e s3 He Hly3 Hk3 Hh3 Hz Hbc3.
  assert (kept sys_sectors A s s3) as Hk13 by (eapply kept_trans; by eapply kept_sys).
  assert (layout A s3) as Hly3' by (eapply layout_drop; [done..|by eapply reserved_None|done]).
  apply wp_bind_inv. eapply (wp_create_entry A m s s3 d i dr n e); try done.
  - by eapply ro_same.
  - destruct Hr2 as (R1 & R2 & R3). split_and!; [lia|lia| |done].
    by apply (co_used _ _ (ly_core _ _ Hly3) n e n (lookup_insert_eq _ _ _)); left.
  - rewrite (Hk3 _ _ Hdr); [done|]. unfold ROOT_DIR_SECTOR, FREE_MAP_SECTOR. set_solver.
  - intros s' H1 H2 H3. rewrite Hz in H2. eapply HQ1; [done|by eapply reserved_None|done..].
  - intros s' H1 H2 H3. eapply HQ0; [done..|]. by right.
Qed.

(** ** Opening *)

Lemma wp_dir_close A s d i p x (Q : unit -> fs -> Prop) :
  layout A s -> 0 < d -> dirs s !! d = Some (mk_dir i p) -> inodes s !! i = Some x -> sector x ≠ FREE_MAP_SECTOR ->
  removed x = false \/ open_cnt x ≠ 1 ->
  (forall s', s' = set_dirs (delete d (dirs s)) (set_inodes (closed_table (inodes s) i x) (closed_list (open_inodes s) i x) s) ->
     layout A s' -> Q tt s') ->
  wp (dir_close mallocs d) s Q.
Proof.
  intros Hly Hd Hdir Hx Hn0 Hrm HQ. unfold dir_close. rewrite nonnull_pos by done.
  apply wp_bind, wp_bind, wp_get. rewrite Hdir. apply wp_ret. apply wp_bind. cbn [d_inode].
  eapply wp_inode_close; [done..|]. intros s1 -> Hly1. apply wp_bind, wp_get. apply wp_put.
  apply HQ; [done|]. destruct Hly1 as [Hd1 [H1 H2 H3 H4 H5 H6 H7]].
  eapply layout_handles; [exact Hd1|done..| |done]. split; try done. cbn. intros j [_ Hj]%lookup_delete_is_Some. by apply H7.
Qed.

Lemma layout_new_file A s f x :
  layout A s -> 0 < next_addr s -> f = next_addr s ->
  layout A (set_files (<[f := x]> (files s)) (set_heap (next_addr s + 1) (S (clock s)) s)).
Proof.
  intros [[Hc Hwf (fi & Hfi & HA & Hb)] [H1 H2 H3 H4 H5 H6 H7]] Hpos ->.
  assert (handles A (set_files (<[next_addr s := x]> (files s)) (set_heap (next_addr s + 1) (S (clock s)) s))) as Hh.
  { split; cbn; try done; try lia.
    - intros i ino Hi. destruct (H1 i ino Hi) as (? & ? & ?). split_and!; [done|done|lia|lia].
    - intros f [E|Hf]%lookup_insert_is_Some'; [lia|]. specialize (H6 f Hf). lia.
    - intros d Hd. specialize (H7 d Hd). lia. }
  assert (core A (set_files (<[next_addr s := x]> (files s)) (set_heap (next_addr s + 1) (S (clock s)) s))) as Hc'
    by (by eapply core_same).
  split; [|done]. split; [done|by eapply core_wf|]. exists fi. split_and!; [|done|done].
  destruct Hfi as (F0 & y & F1 & F2). split; [done|]. exists y. split; [|done]. cbn.
  rewrite lookup_insert_ne; [done|]. intros E. specialize (H6 (free_map_file s) ltac:(by eexists)). lia.
Qed.

(** The root directory's inode next to another one that is opened. *)
Lemma opened_apart s s1 d i dr i2 n e t' l' ino2 :
  root_open s s1 d i dr -> n ≠ ROOT_DIR_SECTOR -> opened (inodes s1) (open_inodes s1) i2 n e t' l' ino2 -> i2 ≠ i.
Proof.
  intros Hro Hn Hop ->. destruct (ro_lookup _ _ _ _ _ Hro) as (ino & H1 & H2 & _).
  inversion Hop; simplify_eq.
Qed.

Lemma ro_removed s s1 d i dr x :
  root_open s s1 d i dr -> inodes s1 !! i = Some x -> removed x = false \/ open_cnt x ≠ 1.
Proof.
  intros [(ino & Hop & _) _ _ _ _ _ _] Hx.
  destruct (opened_inv _ _ _ _ _ _ _ _ Hop) as [(o & Ho & Hcnt & E & _)|(Ho & _ & E & _)];
    rewrite E, lookup_insert_eq in Hx; injection Hx as <-; [right; cbn; lia|by left].
Qed.

(** The handles after opening [n] at [i2], with the root directory closed again. *)
Lemma root_restored s s1 d i dr i2 n e t' l' ino2 x :
  root_open s s1 d i dr -> n ≠ ROOT_DIR_SECTOR -> opened (inodes s1) (open_inodes s1) i2 n e t' l' ino2 ->
  inodes s1 !! i = Some x ->
  forall j, closed_table t' i x !! j = if decide (j = i2) then Some ino2 else inodes s !! j.
Proof.
  intros Hro Hn Hop Hx j. pose proof (opened_apart _ _ _ _ _ _ _ _ _ _ _ Hro Hn Hop) as Hne.
  destruct (opened_facts _ _ _ _ _ _ _ _ Hop) as (-> & _).
  destruct Hro as [(ino & Hopr & _) _ _ _ _ _ _]. destruct (opened_facts _ _ _ _ _ _ _ _ Hopr) as (E & _).
  assert (x = ino) as -> by (rewrite E, lookup_insert_eq in Hx; congruence).
  rewrite <-(closed_reopened _ _ _ _ _ _ _ _ j Hopr). unfold closed_table.
  destruct (open_cnt ino =? 1).
  - rewrite delete_insert_ne by done. destruct (decide (j = i2)) as [->|]; [by rewrite lookup_insert_eq|by rewrite lookup_insert_ne].
  - rewrite insert_insert_ne by done. destruct (decide (j = i2)) as [->|]; [by rewrite lookup_insert_eq|by rewrite lookup_insert_ne].
Qed.

(** What opening the file in sector [n] does to the handles: [f] is a new file at
    position 0 on the inode at [i2]. *)
Record file_opened s s' (f i2 n : Z) (e : inode_disk) (ino : inode) : Prop := {
  fo_new : files s !! f = None;
  fo_files : files s' = <[f := mk_file i2 0 false]> (files s);
  fo_inode : inodes s' !! i2 = Some ino;
  fo_sector : sector ino = n /\ data ino = e;
  fo_count : ino = match inodes s !! i2 with Some o => reopened o | None => mk_inode n 1 false 0 e end;
  fo_others : forall j, j ≠ i2 -> inodes s' !! j = inodes s !! j;
  fo_dirs : dirs s' = dirs s
}.

Lemma root_find A m s dr nm s1 :
  fs_inv A m s -> A !! ROOT_DIR_SECTOR = Some dr -> bytes_of s1 dr = bytes_of s dr ->
  m !! nm = (fun p => inode_sector p.2) <$> list_find (match_name nm) (slots (bytes_of s1 dr)).
Proof.
  intros Hinv Hdr Hb. destruct (fi_root_map _ _ _ _ Hinv Hdr) as [Hwf <-]. rewrite Hb. by apply find_map.
Qed.

(** The end of [filesys_open] when there is no such file. *)
Lemma wp_open_fails A m s s1 d i dr (Q : Z -> fs -> Prop) :
  fs_inv A m s -> A !! ROOT_DIR_SECTOR = Some dr -> root_open s s1 d i dr -> layout A s1 ->
  (forall n e, A !! n = Some e -> bytes_of s1 e = bytes_of s e) ->
  (forall s', same_handles s s' -> fsys_step s m (files_of A m s) s' -> Q NULL s') ->
  wp (dir_close mallocs d;; file_open mallocs NULL) s1 Q.
Proof.
  intros Hinv Hdr Hro Hly Hb HQ. apply wp_bind. eapply wp_dir_close_root; [done..|]. intros s3 E3 Hly3 Hh3.
  apply wp_bind, wp_malloc; [done|apply (ha_heap _ _ (ly_handles _ _ Hly3))|]. change (nonnull NULL) with false. cbn [andb].
  apply wp_bind. change (wp (mret tt) (set_heap (next_addr s3 + 1) (S (clock s3)) s3) (fun _ s' => wp (mret NULL) s' Q)).
  apply wp_ret, wp_ret. set (s4 := set_heap _ _ s3).
  assert (heap_eq s3 s4) as He by (eexists _, _; split; [done|lia]). destruct (heap_handles _ _ He) as (Hh4 & _ & Hd4).
  assert (forall n e, A !! n = Some e -> bytes_of s4 e = bytes_of s e) as Hb4.
  { intros n e Hn. rewrite <-(Hb n e Hn). unfold s4. by rewrite E3. }
  apply HQ; [by eapply same_handles_trans|].
  eapply fsys_same; [done|by eapply layout_heap|by eapply same_handles_trans|done| |].
  - unfold root_map. rewrite (Hb4 _ _ Hdr). by apply (fi_root_map A).
  - intros n e Hn _. by apply (Hb4 n).
Qed.

(** The end of [filesys_open] with the file's inode opened at [i2]. *)
Lemma wp_open_file A m s s2 s3 d i dr i2 n e t' l' ino2 (Q : Z -> fs -> Prop) :
  fs_inv A m s -> A !! ROOT_DIR_SECTOR = Some dr -> root_open s s2 d i dr -> n ≠ ROOT_DIR_SECTOR -> A !! n = Some e ->
  0 < i2 -> opened (inodes s2) (open_inodes s2) i2 n e t' l' ino2 -> heap_eq (set_inodes t' l' s2) s3 -> layout A s3 ->
  (forall n e, A !! n = Some e -> bytes_of s2 e = bytes_of s e) ->
  (forall f s', 0 < f -> bytes_of s' e = bytes_of s e -> file_opened s s' f i2 n e ino2 -> fsys_step s m (files_of A m s) s' -> Q f s') ->
  wp (dir_close mallocs d;; file_open mallocs i2) s3 Q.
Proof.
  intros Hinv Hdr Hro2 Hn1 HA Hi2 Hop (a & c & -> & Ha) Hly3 Hb2 HQ. destruct (ro_pos _ _ _ _ _ Hro2) as [Hi Hd].
  pose proof (opened_apart _ _ _ _ _ _ _ _ _ _ _ Hro2 Hn1 Hop) as Hne.
  destruct (opened_facts _ _ _ _ _ _ _ _ Hop) as (Et & Hs2 & Hdat & _).
  destruct (ro_lookup _ _ _ _ _ Hro2) as (x & Hx & Hxs & _).
  pose proof (root_restored _ _ _ _ _ _ _ _ _ _ _ _ Hro2 Hn1 Hop Hx) as Htab.
  apply wp_bind. eapply (wp_dir_close A _ d i 0 x); [done|done| | | | |].
  { cbn. by rewrite (ro_dirs _ _ _ _ _ Hro2), lookup_insert_eq. }
  { cbn. by rewrite Et, lookup_insert_ne. }
  { by rewrite Hxs. }
  { by eapply ro_removed. }
  intros s4 E4 Hly4. pose proof (ha_heap _ _ (ly_handles _ _ Hly4)) as Hheap.
  apply wp_bind, wp_malloc; [done|done|]. rewrite !nonnull_pos by done. cbn [andb].
  apply wp_bind, wp_bind, wp_get. apply wp_put, wp_ret. set (f := next_addr s4) in *.
  pose proof (layout_new_file A s4 f (mk_file i2 0 false) Hly4 Hheap eq_refl) as Hly5. set (s5 := set_files _ _) in *.
  assert (forall n e, A !! n = Some e -> bytes_of s5 e = bytes_of s e) as Hb5.
  { intros k y Hk. rewrite <-(Hb2 k y Hk). unfold s5. by rewrite E4. }
  assert (inodes s5 = closed_table t' i x) as Ei5 by (unfold s5; by rewrite E4).
  assert (file_opened s s5 f i2 n e ino2) as Hfo.
  { split; [| | |done| | |].
    - rewrite <-(ro_files _ _ _ _ _ Hro2). destruct (files s2 !! f) eqn:E; [|done].
      assert (is_Some (files s4 !! f)) as Hs by (rewrite E4; by eexists).
      pose proof (ha_files _ _ (ly_handles _ _ Hly4) f Hs). unfold f in *. lia.
    - unfold s5. rewrite E4. cbn. by rewrite (ro_files _ _ _ _ _ Hro2).
    - by rewrite Ei5, Htab, decide_True.
    - destruct (ro_inode _ _ _ _ _ Hro2) as (y & Hopr & _). destruct (opened_facts _ _ _ _ _ _ _ _ Hopr) as (E & _).
      inversion Hop as [o Ho|Ho]; subst; rewrite E, lookup_insert_ne in Ho by done; by rewrite Ho.
    - intros j Hj. by rewrite Ei5, Htab, decide_False.
    - unfold s5. rewrite E4. cbn. rewrite (ro_dirs _ _ _ _ _ Hro2). by rewrite delete_insert_id by apply Hro2. }
  apply HQ; [done|by apply (Hb5 n)|done|].
  split; [|eapply (kept_open A); [done|]; intros k y Hk _; by apply (Hb5 k)]. exists A. split.
  - destruct Hinv as [V1 V2 V3 V4 V5 V6]. split; [done| |done|done| |].
    + exists dr. split; [done|]. rewrite (Hb5 _ _ Hdr). destruct V2 as (dr' & ? & ?). by simplify_eq.
    + intros j y. rewrite Ei5, Htab. case_decide; [|apply V5]. intros [= <-] Hsec. congruence.
    + intros j y nm. rewrite Ei5, Htab. case_decide; [|apply V6]. intros [= <-].
      rewrite (fo_count _ _ _ _ _ _ _ Hfo). destruct (inodes s !! i2) as [o|] eqn:Eo; [|done]. exact (V6 i2 o nm Eo).
  - apply files_of_kept; [done|]. intros k y Hk _. by apply (Hb5 k).
Qed.

Lemma wp_filesys_open A m s nm (Q : Z -> fs -> Prop) :
  fs_inv A m s -> name_ok nm ->
  (forall s', m !! nm = None -> same_handles s s' -> fsys_step s m (files_of A m s) s' -> Q NULL s') ->
  (forall f i2 n e ino s', 0 < f -> m !! nm = Some n -> A !! n = Some e -> bytes_of s' e = bytes_of s e ->
     file_opened s s' f i2 n e ino -> fsys_step s m (files_of A m s) s' -> Q f s') ->
  wp (filesys_open mallocs nm) s Q.
Proof.
  intros Hinv Hnm HQ0 HQ1. apply wp_bind. eapply wp_dir_open_root; [done|].
  intros d i dr s1 Hdr Hro Hly1 Hd1 Hf1. destruct (ro_pos _ _ _ _ _ Hro) as [Hi Hd]. rewrite nonnull_pos by done.
  assert (forall e, bytes_of s1 e = bytes_of s e) as Hb1 by (intros e; apply bytes_of_disk; by rewrite Hd1).
  pose proof (root_find _ _ _ _ nm s1 Hinv Hdr (Hb1 dr)) as Hfind. destruct (fi_root_map _ _ _ _ Hinv Hdr) as [Hwf Hm].
  apply wp_bind. unfold dir_lookup. apply wp_bind, wp_assert; [by apply nonnull_pos|]. apply wp_bind.
  eapply (wp_root_lookup A s s1 d i dr); [done|done|done|by rewrite Hb1|done|].
  intros s2 Hly2 Hh2 Hk2 Hf2. pose proof (ro_same _ _ _ _ _ _ Hro Hh2) as Hro2.
  assert (forall n e, A !! n = Some e -> bytes_of s2 e = bytes_of s e) as Hb2.
  { intros n e He. by rewrite (Hk2 n e He (not_elem_of_nil _)), Hb1. }
  destruct (list_find (match_name nm) (slots (bytes_of s1 dr))) as [[k en]|]; cbn [fmap option_fmap option_map fst snd] in Hfind |- *; cycle 1.
  { apply wp_ret. eapply (wp_open_fails A m s s2); [done..|]. intros s' H1 H2. by apply HQ0. }
  set (n := inode_sector en) in *. destruct (fi_entries _ _ _ Hinv nm n Hfind) as (Hn0 & Hn1 & [e He]).
  eapply (wp_inode_open mallocs Hmalloc A s2 n e); [done..|].
  intros i2 t' l' ino2 s3 Hi2 Hop He3 Hly3.
  eapply (wp_open_file A m s s2 s3 d i dr i2 n e); [done..|]. intros f s' H1 H2 H3 H4. by eapply HQ1.
Qed.

(** Looking up, on its own, a name that the root directory does not have. *)
Lemma wp_lookup_absent {B} A m s nm (k : Z -> M fs B) (Q : B -> fs -> Prop) :
  fs_inv A m s -> name_ok nm -> m !! nm = None ->
  (forall s', same_handles s s' -> fsys_step s m (files_of A m s) s' -> wp (k NULL) s' Q) ->
  wp (dir ← dir_open_root mallocs; i ← (if nonnull dir then dir_lookup mallocs dir nm else mret NULL); dir_close mallocs dir;; k i) s Q.
Proof.
  intros Hinv Hnm Hn HQ. apply wp_bind. eapply wp_dir_open_root; [done|].
  intros d i dr s1 Hdr Hro Hly1 Hd1 Hf1. destruct (ro_pos _ _ _ _ _ Hro) as [Hi Hd]. rewrite nonnull_pos by done.
  assert (forall e, bytes_of s1 e = bytes_of s e) as Hb1 by (intros e; apply bytes_of_disk; by rewrite Hd1).
  pose proof (root_find _ _ _ _ nm s1 Hinv Hdr (Hb1 dr)) as Hfind. destruct (fi_root_map _ _ _ _ Hinv Hdr) as [Hwf Hm].
  apply wp_bind. unfold dir_lookup. apply wp_bind, wp_assert; [by apply nonnull_pos|]. apply wp_bind.
  eapply (wp_root_lookup A s s1 d i dr); [done|done|done|by rewrite Hb1|done|].
  intros s2 Hly2 Hh2 Hk2 Hf2. pose proof (ro_same _ _ _ _ _ _ Hro Hh2) as Hro2.
  destruct (list_find (match_name nm) (slots (bytes_of s1 dr))) as [[j en]|]; cbn [fmap option_fmap option_map fst snd] in Hfind |- *; [congruence|].
  apply wp_ret. apply wp_bind. eapply wp_dir_close_root; [done|done|]. intros s3 E3 Hly3 Hh3.
  assert (forall n e, A !! n = Some e -> bytes_of s3 e = bytes_of s e) as Hb3.
  { intros n e He. rewrite <-Hb1, <-(Hk2 n e He (not_elem_of_nil _)). by rewrite E3. }
  apply HQ; [done|]. eapply fsys_same; [done|done|done|done| |].
  - unfold root_map. rewrite (Hb3 _ _ Hdr). by apply (fi_root_map A).
  - intros n e He _. by apply (Hb3 n).
Qed.

(** ** Removing *)

Definition mark_removed (o : inode) : inode :=
  mk_inode (sector o) (open_cnt o) true (deny_write_cnt o) (data o).

(** The openers of the file in sector [n] see that it is removed. *)
Definition mark_if (n : Z) (o : inode) : inode := if sector o =? n then mark_removed o else o.

Lemma fsys_delete A A' m s s' dr nm n :
  fs_inv A m s -> A !! ROOT_DIR_SECTOR = Some dr -> m !! nm = Some n -> A' = A \/ A' = delete n A ->
  layout A' s' -> root_map (delete nm m) s' dr ->
  (forall j, inodes s' !! j = mark_if n <$> inodes s !! j) -> kept sys_sectors A' s s' -> fsys_step s (delete nm m) (delete nm (files_of A m s)) s'.
Proof.
  intros Hinv Hdr Hnm HA' Hly Hrm Htab Hk. split; [|by eapply kept_open]. exists A'.
  destruct (fi_entries _ _ _ Hinv nm n Hnm) as (Hn0 & Hn1 & _).
  assert (forall k, k ≠ n -> A' !! k = A !! k) as Hsame.
  { intros k Hne. destruct HA' as [->| ->]; [done|]. by rewrite lookup_delete_ne. }
  assert (forall x k, delete nm m !! x = Some k -> m !! x = Some k /\ k ≠ n) as Hold.
  { intros x k [Hne Hx]%lookup_delete_Some. split; [done|]. intros ->. apply Hne. by eapply (fi_inj _ _ _ Hinv). }
  split.
  - split; [done| | | | |].
    + exists dr. by rewrite Hsame by done.
    + intros x k Hx. destruct (Hold x k Hx) as [Hx' Hkn]. destruct (fi_entries _ _ _ Hinv x k Hx') as (? & ? & ?).
      by rewrite Hsame.
    + intros x y k Hx Hy. eapply (fi_inj _ _ _ Hinv); by apply Hold.
    + intros j y. rewrite Htab. destruct (inodes s !! j) as [o|] eqn:Eo; [|done]. intros [= <-].
      unfold mark_if. destruct (sector o =? n); apply (fi_writable _ _ _ Hinv j o Eo).
    + intros j y x. rewrite Htab. destruct (inodes s !! j) as [o|] eqn:Eo; [|done]. intros [= <-].
      unfold mark_if. destruct (Z.eqb_spec (sector o) n) as [E|E]; cbn; intros Hr Hx; destruct (Hold x _ Hx) as [Hx' Hne]; [done|].
      by apply (fi_removed _ _ _ Hinv j o x Eo Hr).
  - apply map_eq. intros x. unfold files_of. rewrite lookup_omap.
    destruct (decide (x = nm)) as [->|Hne]; [by rewrite !lookup_delete_eq|].
    rewrite !lookup_delete_ne, lookup_omap by done. destruct (m !! x) as [k|] eqn:E; [|done]. cbn.
    destruct (Hold x k) as [_ Hkn]; [by rewrite lookup_delete_ne|]. rewrite Hsame by done.
    destruct (fi_entries _ _ _ Hinv x k E) as (K0 & K1 & [e He]). rewrite He. cbn. f_equal.
    apply (Hk k e); [by rewrite Hsame|]. unfold sys_sectors. set_solver.
Qed.

Lemma closed_table_ext t t2 i x j :
  (j ≠ i -> t !! j = t2 !! j) -> closed_table t i x !! j = closed_table t2 i x !! j.
Proof.
  intros H. unfold closed_table. destruct (open_cnt x =? 1), (decide (j = i)) as [->|Hne];
    rewrite ?lookup_delete_eq, ?lookup_insert_eq, ?lookup_delete_ne, ?lookup_insert_ne by done; auto.
Qed.

(** Erasing the entry in slot [k] of the root directory. *)
Lemma wp_root_erase A m s1 d i dr nm k en (Q : Z -> fs -> Prop) :
  layout A s1 -> inodes s1 !! i = Some d -> sector d = ROOT_DIR_SECTOR -> data d = dr -> deny_write_cnt d = 0 ->
  A !! ROOT_DIR_SECTOR = Some dr ->
  root_map m s1 dr -> list_find (match_name nm) (slots (bytes_of s1 dr)) = Some (k, en) -> 0 <= inode_sector en < 2 ^ 32 ->
  (forall s2, layout A s2 -> same_handles s1 s2 -> kept [ROOT_DIR_SECTOR] A s1 s2 -> root_map (delete nm m) s2 dr -> Q 20 s2) ->
  wp (inode_write_at mallocs i (encode_entry (mk_entry (inode_sector en) (name en) 0)) sizeof_dir_entry (20 * Z.of_nat k)) s1 Q.
Proof.
  intros Hly Hi Hs Hd Hdeny Hdr [Hwf Hm] Hfind Hsec HQ.
  apply list_find_Some in Hfind as (Hk & [Hu Hcn] & _). pose proof Hk as [Hlt Hen]%slots_lookup.
  set (e0 := mk_entry (inode_sector en) (name en) 0).
  assert (entry_wf e0) as He0.
  { split; [done|]. cbn. rewrite Hen. unfold slot. cbn. pose proof (nslots_bound (bytes_of s1 dr)).
    rewrite !length_take, length_drop, length_take, length_drop. lia. }
  pose proof (length_encode e0 He0) as Hle. pose proof (nslots_bound (bytes_of s1 dr)) as Hb.
  pose proof (dv_wf _ _ (ly_device _ _ Hly)) as Hwf1.
  pose proof (length_bytes_of _ _ Hwf1 (fw_inode _ Hwf1 _ _ Hi)) as Hlen. rewrite Hd in Hlen.
  eapply wp_inode_write_at; [done|done|done|lia|rewrite Hle; unfold sizeof_dir_entry; lia|done|].
  intros w s2 Hw Hwr. rewrite Hd in Hw, Hwr. unfold sizeof_dir_entry in Hw.
  replace w with 20%nat in * by lia. rewrite take_ge in Hwr by lia.
  replace (Z.to_nat (20 * Z.of_nat k)) with (20 * k)%nat in Hwr by lia. rewrite <-Hd in Hwr.
  destruct (layout_wrote _ _ _ _ _ _ Hly Hi ltac:(by rewrite Hs) Hwr) as (L1 & L2 & L3). rewrite Hs in L2.
  apply HQ; [done|done|done|]. pose proof (wr_bytes _ _ _ _ Hwr) as Hb2. rewrite Hd in Hb2.
  destruct (table_free (slots (bytes_of s1 dr)) k en e0) as [T1 T2]; [done|done|done|intros Hn; by apply Hn|].
  unfold root_map, dir_wf, dir_map. rewrite Hb2, slots_splice by done. split; [done|].
  rewrite T2, Hcn. by rewrite <-Hm.
Qed.

(** What removing the file in sector [n] does to the handles. *)
Record file_removed s s' (n : Z) (e : inode_disk) : Prop := {
  fr_files : files s' = files s;
  fr_dirs : dirs s' = dirs s;
  fr_inodes : forall j, inodes s' !! j = mark_if n <$> inodes s !! j;
  fr_freed : (forall j o, inodes s !! j = Some o -> sector o ≠ n) -> forall k, uses n e k -> bit (free_map s') k = false
}.

(** Closing the root directory when the file's inode has been dealt with. *)
Lemma wp_remove_close A A' m s s2 s6 d i dr i2 nm n e (Q : bool -> fs -> Prop) :
  fs_inv A m s -> A !! ROOT_DIR_SECTOR = Some dr -> m !! nm = Some n -> A !! n = Some e -> A' = A \/ A' = delete n A ->
  root_open s s2 d i dr -> i2 ≠ i -> layout A' s6 -> root_map (delete nm m) s6 dr -> kept sys_sectors A' s s6 ->
  (forall j, j ≠ i2 -> inodes s6 !! j = inodes s2 !! j) ->
  inodes s6 !! i2 = mark_if n <$> inodes s !! i2 ->
  (forall j o, inodes s !! j = Some o -> sector o = n <-> j = i2) ->
  files s6 = files s2 -> dirs s6 = dirs s2 ->
  (inodes s !! i2 = None -> forall k, uses n e k -> bit (free_map s6) k = false) ->
  (forall s', file_removed s s' n e -> fsys_step s (delete nm m) (delete nm (files_of A m s)) s' -> Q true s') ->
  wp (dir_close mallocs d;; mret true) s6 Q.
Proof.
  intros Hinv Hdr Hnm HAn HA' Hro Hne Hly Hrm Hk Hoth Hi2 Huniq Hfs Hds Hfree HQ.
  destruct (fi_entries _ _ _ Hinv nm n Hnm) as (_ & Hn1 & _).
  destruct (ro_pos _ _ _ _ _ Hro) as [Hi Hd]. destruct (ro_lookup _ _ _ _ _ Hro) as (x & Hx & Hxs & _).
  assert (inodes s6 !! i = Some x) as Hx6 by (by rewrite Hoth).
  assert (forall j, closed_table (inodes s6) i x !! j = mark_if n <$> inodes s !! j) as Htab.
  { intros j. destruct (decide (j = i2)) as [->|Hj].
    - rewrite <-Hi2. unfold closed_table. destruct (open_cnt x =? 1); [by rewrite lookup_delete_ne|by rewrite lookup_insert_ne].
    - rewrite (closed_table_ext _ (inodes s2)) by (intros _; by apply Hoth).
      destruct (ro_inode _ _ _ _ _ Hro) as (y & Hopr & _). destruct (opened_facts _ _ _ _ _ _ _ _ Hopr) as (E & _).
      assert (x = y) as -> by (rewrite E, lookup_insert_eq in Hx; congruence).
      rewrite (closed_reopened _ _ _ _ _ _ _ _ j Hopr). destruct (inodes s !! j) as [o|] eqn:Eo; [|done]. cbn.
      unfold mark_if. rewrite (proj2 (Z.eqb_neq _ _)); [done|]. intros Hs. by apply Hj, (Huniq j o Eo). }
  apply wp_bind. eapply (wp_dir_close A' s6 d i 0 x); [done|done| |done|by rewrite Hxs| |].
  { rewrite Hds, (ro_dirs _ _ _ _ _ Hro). by rewrite lookup_insert_eq. }
  { by eapply ro_removed. }
  intros s7 E7 Hly7. assert (inodes s7 = closed_table (inodes s6) i x) as Ei7 by (by rewrite E7).
  apply wp_ret, HQ.
  - split.
    + rewrite E7. cbn. by rewrite Hfs, (ro_files _ _ _ _ _ Hro).
    + rewrite E7. cbn. rewrite Hds, (ro_dirs _ _ _ _ _ Hro). by rewrite delete_insert_id by apply Hro.
    + intros j. by rewrite Ei7.
    + intros Hno k Hu. rewrite E7. apply Hfree; [|done]. destruct (inodes s !! i2) as [o|] eqn:Eo; [|done]. exfalso.
      apply (Hno i2 o Eo). by apply (Huniq i2 o Eo).
  - eapply (fsys_delete A A' m s s7 dr); [done..|by rewrite E7| |by eapply kept_dirs]. intros j. by rewrite Ei7.
Qed.

Lemma wp_inode_remove s i x (Q : unit -> fs -> Prop) :
  inodes s !! i = Some x ->
  Q tt (set_inodes (<[i := mark_removed x]> (inodes s)) (open_inodes s) s) -> wp (inode_remove i) s Q.
Proof. intros Hx HQ. apply wp_bind. eapply wp_get_inode; [done|]. apply wp_bind, wp_get. by apply wp_put. Qed.

(** The inode at [i2] is the only one for sector [n]. *)
Lemma opened_unique A s s2 s3 d i dr i2 n e t' l' ino2 j o :
  root_open s s2 d i dr -> opened (inodes s2) (open_inodes s2) i2 n e t' l' ino2 -> inodes s3 = t' -> layout A s3 ->
  inodes s !! j = Some o -> sector o = n <-> j = i2.
Proof.
  intros Hro Hop Et Hly Hj. destruct (ro_inode _ _ _ _ _ Hro) as (y & Hopr & _).
  destruct (opened_before _ _ _ _ _ _ _ _ j o Hopr Hj) as (o2 & Hj2 & Es & _).
  destruct (opened_before _ _ _ _ _ _ _ _ j o2 Hop Hj2) as (o3 & Hj3 & Es3 & _).
  destruct (opened_facts _ _ _ _ _ _ _ _ Hop) as (Et' & Hs2 & _). split.
  - intros Hs. apply (ha_sect _ _ (ly_handles _ _ Hly) j i2 o3 ino2); rewrite ?Et; [done|by rewrite Et', lookup_insert_eq|congruence].
  - intros ->. rewrite Et', lookup_insert_eq in Hj3. congruence.
Qed.

(** Closing the marked inode and the root directory. *)
Lemma wp_remove_tail A m s s2 s5 d i dr i2 nm n e t' l' ino2 (Q : bool -> fs -> Prop) :
  fs_inv A m s -> A !! ROOT_DIR_SECTOR = Some dr -> m !! nm = Some n -> A !! n = Some e ->
  root_open s s2 d i dr -> 0 < i2 -> i2 ≠ i -> opened (inodes s2) (open_inodes s2) i2 n e t' l' ino2 -> layout A s5 ->
  root_map (delete nm m) s5 dr -> kept sys_sectors A s s5 ->
  inodes s5 = <[i2 := mark_removed ino2]> (inodes s2) -> files s5 = files s2 -> dirs s5 = dirs s2 ->
  (forall j o, inodes s !! j = Some o -> sector o = n <-> j = i2) ->
  (forall s', file_removed s s' n e -> fsys_step s (delete nm m) (delete nm (files_of A m s)) s' -> Q true s') ->
  wp (inode_close mallocs i2;; dir_close mallocs d;; mret true) s5 Q.
Proof.
  intros Hinv Hdr Hnm HAn Hro Hi2 Hne Hop Hly5 Hrm5 Hk5 Ei5 Ef5 Ed5 Huniq HQ.
  destruct (fi_entries _ _ _ Hinv nm n Hnm) as (Hn0 & Hn1 & _).
  destruct (ro_inode _ _ _ _ _ Hro) as (y & Hopr & _). destruct (opened_facts _ _ _ _ _ _ _ _ Hopr) as (E2 & _).
  assert (inodes s2 !! i2 = inodes s !! i2) as Esame by (by rewrite E2, lookup_insert_ne).
  destruct (opened_facts _ _ _ _ _ _ _ _ Hop) as (_ & Hs2 & Hdat & _).
  assert (inodes s5 !! i2 = Some (mark_removed ino2)) as Hx5 by (by rewrite Ei5, lookup_insert_eq).
  apply wp_bind. destruct (opened_inv _ _ _ _ _ _ _ _ Hop) as [(o & Ho & Hcnt & _ & _ & E)|(Ho & _ & _ & _ & E)]; rewrite Esame in Ho.
  - assert (closed_table (inodes s5) i2 (mark_removed ino2) = <[i2 := mark_removed o]> (inodes s2)) as Etab.
    { unfold closed_table. rewrite E. cbn. rewrite (proj2 (Z.eqb_neq _ _)) by lia. rewrite Ei5, insert_insert_eq. f_equal.
      unfold closed_once, mark_removed. cbn. f_equal. lia. }
    eapply (wp_inode_close mallocs A s5 i2); [done|done|by cbn; rewrite Hs2|right; rewrite E; cbn; lia|].
    intros s6 E6 Hly6. rewrite Etab in E6.
    eapply (wp_remove_close A A m s s2 s6 d i dr i2 nm n e); try done.
    + by left.
    + unfold root_map. by rewrite E6.
    + by rewrite E6.
    + intros j Hj. rewrite E6. cbn. by rewrite lookup_insert_ne.
    + rewrite E6, Ho. cbn. rewrite lookup_insert_eq. unfold mark_if. rewrite (proj2 (Z.eqb_eq _ _)); [done|].
      by apply (Huniq i2 o Ho).
    + by rewrite E6.
    + by rewrite E6.
    + by rewrite Ho.
  - eapply (wp_close_removed mallocs Hmalloc A s5 i2 (mark_removed ino2)); [done|done|done|by rewrite E|done|by cbn; rewrite Hs2|].
    cbn [sector data mark_removed]. rewrite Hs2, Hdat. intros s6 Hly6 Hk6 Ei6 Eo6 Ef6 Ed6 Em6 Eb6 Hfree.
    assert (kept sys_sectors (delete n A) s s6) as Hk6'.
    { eapply kept_trans; [|eapply kept_sys; [|done]; unfold sys_sectors; set_solver].
      eapply kept_mono; [done|apply delete_subseteq|done]. }
    eapply (wp_remove_close A (delete n A) m s s2 s6 d i dr i2 nm n e); try done.
    + by right.
    + unfold root_map. rewrite (Hk6 ROOT_DIR_SECTOR dr); [done|by rewrite lookup_delete_ne|]. unfold ROOT_DIR_SECTOR, FREE_MAP_SECTOR. set_solver.
    + intros j Hj. by rewrite Ei6, Ei5, lookup_delete_ne, lookup_insert_ne.
    + by rewrite Ei6, lookup_delete_eq, Ho.
    + by rewrite Ef6.
    + by rewrite Ed6.
Qed.

(** From the opened inode on: erase the entry, mark the inode, close both. *)
Lemma wp_remove_entry A m s s2 s3 d i dr i2 nm n e k en t' l' ino2 (Q : bool -> fs -> Prop) :
  fs_inv A m s -> A !! ROOT_DIR_SECTOR = Some dr -> m !! nm = Some n -> A !! n = Some e ->
  root_open s s2 d i dr -> (forall n e, A !! n = Some e -> bytes_of s2 e = bytes_of s e) ->
  list_find (match_name nm) (slots (bytes_of s dr)) = Some (k, en) -> inode_sector en = n ->
  0 < i2 -> opened (inodes s2) (open_inodes s2) i2 n e t' l' ino2 -> heap_eq (set_inodes t' l' s2) s3 -> layout A s3 ->
  (forall s', file_removed s s' n e -> fsys_step s (delete nm m) (delete nm (files_of A m s)) s' -> Q true s') ->
  wp (success ← (x ← get_dir d;
        w ← inode_write_at mallocs (d_inode x) (encode_entry (mk_entry (inode_sector en) (name en) 0)) sizeof_dir_entry (20 * Z.of_nat k);
        if w =? sizeof_dir_entry then inode_remove i2;; inode_close mallocs i2;; mret true
        else inode_close mallocs i2;; mret false);
      dir_close mallocs d;; mret success) s3 Q.
Proof.
  intros Hinv Hdr Hnm HAn Hro Hb2 Hfind Hen Hi2 Hop (a & c & -> & Ha) Hly3 HQ.
  destruct (fi_entries _ _ _ Hinv nm n Hnm) as (Hn0 & Hn1 & _). destruct (ro_pos _ _ _ _ _ Hro) as [Hi Hd].
  pose proof (opened_apart _ _ _ _ _ _ _ _ _ _ _ Hro Hn1 Hop) as Hne.
  destruct (opened_facts _ _ _ _ _ _ _ _ Hop) as (Et & Hs2 & Hdat & Hcnt2).
  destruct (ro_lookup _ _ _ _ _ Hro) as (x & Hx & Hxs & Hxd & Hxw).
  destruct (fi_root_map _ _ _ _ Hinv Hdr) as [Hwf Hm].
  set (s3 := set_heap a c (set_inodes t' l' s2)) in *.
  assert (forall e, bytes_of s3 e = bytes_of s2 e) as Hb3 by done.
  assert (inodes s3 !! i = Some x) as Hx3 by (cbn; by rewrite Et, lookup_insert_ne).
  assert (0 <= n < bit_cnt (free_map s3)) as Hn by (apply (co_used _ _ (ly_core _ _ Hly3) n e n HAn); by left).
  pose proof (bw_cnt _ (co_map _ _ (ly_core _ _ Hly3))) as Hbc.
  apply wp_bind, wp_bind, wp_bind, wp_get. change (dirs s3) with (dirs s2). rewrite (ro_dirs _ _ _ _ _ Hro), lookup_insert_eq.
  apply wp_ret. apply wp_bind. cbn [d_inode].
  eapply (wp_root_erase A m s3 x i dr nm k en); [done..| | |lia|].
  { unfold root_map. rewrite Hb3, (Hb2 _ _ Hdr). done. }
  { by rewrite Hb3, (Hb2 _ _ Hdr). }
  intros s4 Hly4 Hh4 Hk4 Hrm4. change (20 =? sizeof_dir_entry) with true. cbn iota.
  assert (inodes s4 = <[i2 := ino2]> (inodes s2)) as Ei4 by (by rewrite (sh_inodes _ _ Hh4)).
  assert (kept sys_sectors A s s4) as Hks4.
  { intros y f Hy Hni. rewrite (Hk4 y f Hy), Hb3, (Hb2 y f Hy); [done|]. unfold sys_sectors in Hni. set_solver. }
  apply wp_bind. eapply wp_inode_remove; [by rewrite Ei4, lookup_insert_eq|].
  rewrite Ei4, insert_insert_eq. set (s5 := set_inodes _ _ s4).
  assert (layout A s5) as Hly5.
  { pose proof (layout_update A s4 i2 ino2 (mark_removed ino2) Hly4) as Hup.
    rewrite Ei4, insert_insert_eq, lookup_insert_eq in Hup. apply Hup; [done|by rewrite Hs2|done|done|done]. }
  apply wp_bind_inv, wp_assoc.
  eapply (wp_remove_tail A m s s2 s5 d i dr i2 nm n e t' l' ino2); try done.
  - change (files s4 = files s2). by rewrite (sh_files _ _ Hh4).
  - change (dirs s4 = dirs s2). by rewrite (sh_dirs _ _ Hh4).
  - intros j o Hj. by apply (opened_unique A s s2 s3 d i dr i2 n e t' l' ino2).
Qed.

Lemma wp_filesys_remove A m s nm (Q : bool -> fs -> Prop) :
  fs_inv A m s -> name_ok nm ->
  (forall s', m !! nm = None -> same_handles s s' -> fsys_step s m (files_of A m s) s' -> Q false s') ->
  (forall n e s', m !! nm = Some n -> A !! n = Some e -> file_removed s s' n e ->
     fsys_step s (delete nm m) (delete nm (files_of A m s)) s' -> Q true s') ->
  wp (filesys_remove mallocs nm) s Q.
Proof.
  intros Hinv Hnm HQ0 HQ1. apply wp_bind. eapply wp_dir_open_root; [done|].
  intros d i dr s1 Hdr Hro Hly1 Hd1 Hf1. destruct (ro_pos _ _ _ _ _ Hro) as [Hi Hd]. rewrite nonnull_pos by done.
  assert (forall e, bytes_of s1 e = bytes_of s e) as Hb1 by (intros e; apply bytes_of_disk; by rewrite Hd1).
  pose proof (root_find _ _ _ _ nm s1 Hinv Hdr (Hb1 dr)) as Hfind.
  pose proof (fi_root_map _ _ _ _ Hinv Hdr) as Hrm. pose proof Hrm as [Hwf Hm].
  apply wp_bind. unfold dir_remove. apply wp_bind, wp_assert; [by apply nonnull_pos|]. apply wp_bind.
  eapply (wp_root_lookup A s s1 d i dr); [done|done|done|by rewrite Hb1|done|].
  intros s2 Hly2 Hh2 Hk2 Hf2. pose proof (ro_same _ _ _ _ _ _ Hro Hh2) as Hro2. rewrite Hb1 in Hfind |- *.
  assert (forall n e, A !! n = Some e -> bytes_of s2 e = bytes_of s e) as Hb2.
  { intros n e He. by rewrite (Hk2 n e He (not_elem_of_nil _)), Hb1. }
  destruct (list_find (match_name nm) (slots (bytes_of s dr))) as [[k en]|] eqn:Efind;
    cbn [fmap option_fmap option_map fst snd] in Hfind |- *; cycle 1.
  { change (wp (mret false) s2 (fun a s' => wp (dir_close mallocs d;; mret a) s' Q)). apply wp_ret.
    eapply (wp_create_fails A m s s2); [done|done|done|done| | |].
    - intros n e Hn _. by apply (Hb2 n).
    - unfold root_map. by rewrite (Hb2 _ _ Hdr).
    - intros s' H1 H2. by apply HQ0. }
  set (n := inode_sector en) in *. destruct (fi_entries _ _ _ Hinv nm n Hfind) as (Hn0 & Hn1 & [e He]).
  apply wp_bind. eapply (wp_inode_open mallocs Hmalloc A s2 n e); [done..|].
  intros i2 t' l' ino2 s3 Hi2 Hop He3 Hly3. rewrite (proj2 (Z.eqb_neq i2 _)) by (unfold NULL; lia).
  apply wp_bind_inv.
  eapply (wp_remove_entry A m s s2 s3 d i dr i2 nm n e k en); [done..|]. intros s' H1 H2. by eapply HQ1.
Qed.
End Root.

(** * Claims *)

(** The root directory, as stored on the device, has no free entry. *)
Definition root_full (s : fs) : Prop :=
  exists b, disk s !! ROOT_DIR_SECTOR = Some b /\ ~ has_free (bytes_of s (decode_inode b)).

Lemma files_of_None A m s nm : fs_inv A m s -> files_of A m s !! nm = None <-> m !! nm = None.
Proof.
  intros Hinv. unfold files_of. rewrite lookup_omap. destruct (m !! nm) as [n|] eqn:E; [|done]. cbn.
  destruct (fi_entries _ _ _ Hinv nm n E) as (_ & _ & [e ->]). done.
Qed.

Lemma create_reason A m s dr nm len :
  fs_inv A m s -> A !! ROOT_DIR_SECTOR = Some dr -> no_room s len \/ ~ can_add (bytes_of s dr) nm ->
  nm = [] \/ (14 < length nm)%nat \/ is_Some (files_of A m s !! nm) \/ root_full s \/ no_room s len.
Proof.
  intros Hinv Hdr [?|Hno]; [by do 4 right|]. destruct (fi_root_map _ _ _ _ Hinv Hdr) as [_ Hm].
  destruct (decide (nm = [])) as [|Hne]; [by left|]. right.
  destruct (decide (length nm <= 14)%nat) as [Hl|Hl]; [|left; lia]. right.
  destruct (m !! nm) as [n|] eqn:E.
  - left. apply not_eq_None_Some. rewrite (files_of_None _ _ _ _ Hinv). by rewrite E.
  - right; left. destruct (co_inode _ _ (ly_core _ _ (fi_layout _ _ _ Hinv)) _ _ Hdr) as [_ (b & Hb & Hd)].
    exists b. split; [done|]. rewrite Hd. intros Hfree. apply Hno. unfold can_add. by rewrite Hm.
Qed.

(** C8: [filesys_create] implements insertion: when it succeeds, the name was free
    and valid and now names a file of the given size that is all zeros, every
    other file, open removed ones included, is as it was and all handles stay
    valid; when it fails, no file changed, and the reason is a bad or used name, a full root directory or a
    device without room. *)
Theorem filesys_create_correct mallocs F s nm len stack :
  (forall n, mallocs n = true) -> fsys F s -> name_ok nm -> 0 <= len < 2 ^ 31 - 512 -> length stack = 20%nat ->
  wp (filesys_create mallocs nm len stack) s (fun r s' =>
    same_handles s s' /\
    if r then F !! nm = None /\ nm ≠ [] /\ (length nm <= 14)%nat /\
              fsys_to s (<[nm := replicate (Z.to_nat len) 0]> F) s'
    else fsys_to s F s' /\
         (nm = [] \/ (14 < length nm)%nat \/ is_Some (F !! nm) \/ root_full s \/ no_room s len)).
Proof.
  intros Hmalloc (A & m & Hinv & <-) Hnm Hlen Hst. eapply wp_filesys_create; [done..| |].
  - intros dr n s' Hdr _ Hh Hs%fsys_step_to (H1 & H2 & H3 & H4). split; [done|]. split_and!; [|done|done|done].
    apply (files_of_None _ _ _ _ Hinv). destruct (fi_root_map _ _ _ _ Hinv Hdr) as [_ <-]. done.
  - intros dr s' Hdr Hh Hs%fsys_step_to Hwhy. split; [done|]. split; [done|]. by eapply create_reason.
Qed.

(** C9: [filesys_open] implements lookup: it returns a new file handle at position 0
    whose inode has the contents stored under the name, or [NULL] exactly when
    the name has no file.  No file changes and the other handles stay valid. *)
Theorem filesys_open_correct mallocs F s nm :
  (forall n, mallocs n = true) -> fsys F s -> name_ok nm ->
  wp (filesys_open mallocs nm) s (fun f s' =>
    fsys_to s F s' /\
    match F !! nm with
    | None => f = NULL /\ same_handles s s'
    | Some bs => 0 < f /\ exists i n e ino, file_opened s s' f i n e ino /\ bytes_of s' (data ino) = bs
    end).
Proof.
  intros Hmalloc (A & m & Hinv & <-) Hnm. eapply wp_filesys_open; [done..| |].
  - intros s' Hn Hh Hs%fsys_step_to. split; [done|]. apply (files_of_None _ _ _ _ Hinv) in Hn. by rewrite Hn.
  - intros f i2 n e ino s' Hf Hn He Hb Hfo Hs%fsys_step_to. split; [done|].
    assert (files_of A m s !! nm = Some (bytes_of s e)) as ->.
    { unfold files_of. rewrite lookup_omap, Hn. cbn. by rewrite He. }
    split; [done|]. exists i2, n, e, ino. split; [done|]. destruct (fo_sector _ _ _ _ _ _ _ Hfo) as [_ ->]. done.
Qed.


(** ** A formatted device of 16 sectors *)

Definition demo_fm : inode_disk := mk_disk 2 4 INODE_MAGIC.
Definition demo_root : inode_disk := mk_disk 3 320 INODE_MAGIC.
Definition demo_disk16 : gmap Z (list Z) :=
  list_to_map (zip (seqZ 0 16) ([encode_inode demo_fm; encode_inode demo_root; [15; 0; 0; 0] ++ replicate 508 0] ++
    replicate 13 (replicate 512 0))).
Definition demo_system : fs :=
  mk_fs demo_disk16 {[ 100 := mk_inode 0 1 false 0 demo_fm ]} [100] {[ 101 := mk_file 100 0 false ]} ∅
    (mk_bitmap 16 [15]) 101 200 0.
Definition demo_A : gmap Z inode_disk := {[ 0 := demo_fm; 1 := demo_root ]}.

Lemma demo_A_inv n d : demo_A !! n = Some d -> n = 0 /\ d = demo_fm \/ n = 1 /\ d = demo_root.
Proof. unfold demo_A. rewrite lookup_insert_Some, lookup_singleton_Some. naive_solver. Qed.

Lemma demo_uses n d k : demo_A !! n = Some d -> uses n d k -> n = 0 /\ (k = 0 \/ k = 2) \/ n = 1 /\ (k = 1 \/ k = 3).
Proof.
  intros [[-> ->]|[-> ->]]%demo_A_inv; unfold uses, in_data, nsectors; cbn [start length_of demo_fm demo_root];
    change ((4 + 511) / 512) with 1; change ((320 + 511) / 512) with 1; lia.
Qed.

Lemma demo_bit k : k = 0 \/ k = 1 \/ k = 2 \/ k = 3 -> bit (mk_bitmap 16 [15]) k = true.
Proof. by intros [->|[->|[->| ->]]]. Qed.

Lemma demo_on_disk n : 0 <= n < 16 -> is_Some (demo_disk16 !! n).
Proof.
  intros Hn. assert (forallb (fun n => bool_decide (is_Some (demo_disk16 !! n))) (seqZ 0 16) = true) as H by (by vm_compute).
  rewrite forallb_forall in H. apply (bool_decide_unpack _), Is_true_eq_left, H, list_elem_of_In, elem_of_seqZ. lia.
Qed.

Lemma demo_512 n b : demo_disk16 !! n = Some b -> length b = 512%nat.
Proof.
  assert (map_Forall (fun _ b => length b = 512%nat) demo_disk16) as H by (apply (bool_decide_unpack _); by vm_compute).
  apply H.
Qed.

Lemma demo_core : core demo_A demo_system.
Proof.
  split.
  - apply demo_512.
  - by split; [|vm_compute|repeat constructor; lia].
  - apply demo_on_disk.
  - intros n d [[-> ->]|[-> ->]]%demo_A_inv; (split; [split; [done|done|]|]).
    + intros k Hk. apply demo_on_disk. revert Hk. unfold in_data, nsectors. cbn [start length_of demo_fm].
      change ((4 + 511) / 512) with 1. lia.
    + exists (encode_inode demo_fm). split; [by vm_compute|]. by apply decode_encode_inode.
    + intros k Hk. apply demo_on_disk. revert Hk. unfold in_data, nsectors. cbn [start length_of demo_root].
      change ((320 + 511) / 512) with 1. lia.
    + exists (encode_inode demo_root). split; [by vm_compute|]. by apply decode_encode_inode.
  - intros n d [[-> ->]|[-> ->]]%demo_A_inv; unfold in_data; cbn; lia.
  - intros n d n' d' k Hn Hn' Hne Hu Hu'. pose proof (demo_uses _ _ _ Hn Hu). pose proof (demo_uses _ _ _ Hn' Hu'). lia.
  - intros n d k Hn Hu. pose proof (demo_uses _ _ _ Hn Hu) as Hk. cbn [free_map demo_system bit_cnt].
    split; [lia|]. apply demo_bit. lia.
  - intros n d [[-> ->]|[-> ->]]%demo_A_inv; by vm_compute.
Qed.

Lemma demo_inode i x : inodes demo_system !! i = Some x -> i = 100 /\ x = mk_inode 0 1 false 0 demo_fm.
Proof. unfold demo_system. cbn [inodes]. rewrite lookup_singleton_Some. naive_solver. Qed.

Lemma demo_handles : handles demo_A demo_system.
Proof.
  split.
  - intros i x [-> ->]%demo_inode. split_and!; [by vm_compute|cbn; lia|cbn; lia|cbn; lia].
  - intros i j x y [-> _]%demo_inode [-> _]%demo_inode. done.
  - cbn. apply NoDup_singleton.
  - intros i. cbn. rewrite list_elem_of_singleton. split; [intros ->; by eexists|].
    intros [x Hx]. by apply demo_inode in Hx as [-> _].
  - done.
  - cbn. intros f [x Hx]. apply lookup_singleton_Some in Hx as [<- _]. lia.
  - cbn. intros d [x Hx]. by rewrite lookup_empty in Hx.
Qed.

Lemma demo_fsys : fsys ∅ demo_system.
Proof.
  exists demo_A, ∅. split; [|done]. split; [|exists demo_root; split_and!|done|done| |].
  - split; [|exact demo_handles]. split; [exact demo_core|exact (core_wf _ _ demo_core demo_handles)|].
    exists (mk_inode 0 1 false 0 demo_fm). split_and!; [|by vm_compute|].
    2: { assert (bytes_of demo_system demo_fm = words32 (bits (free_map demo_system))) as E by (by vm_compute).
         cbn [data]. rewrite E. apply saved_bits, demo_core. }
    split; [done|]. exists (mk_file 100 0 false). split_and!; by vm_compute.
  - by vm_compute.
  - assert (slots (bytes_of demo_system demo_root) = replicate 16 (mk_entry 0 (replicate 15 0) 0)) as E by (by vm_compute).
    unfold dir_wf. rewrite E. split; [|by apply NoDup_nil].
    intros e He Hu. apply elem_of_replicate in He as [-> _]. exfalso. by apply Hu.
  - by vm_compute.
  - intros i x [-> ->]%demo_inode. done.
  - intros i x nm [-> ->]%demo_inode. done.
Qed.

(** The name [a]. *)
Definition demo_name : list Z := [97].

Lemma demo_name_ok : name_ok demo_name.
Proof. repeat constructor; lia. Qed.

Lemma filesys_create_correct_witness :
  wp (filesys_create (fun _ => true) demo_name 600 (replicate 20 0)) demo_system (fun r s' =>
    same_handles demo_system s' /\
    if r then (∅ : gmap (list Z) (list Z)) !! demo_name = None /\ demo_name ≠ [] /\ (length demo_name <= 14)%nat /\
              fsys_to demo_system (<[demo_name := replicate (Z.to_nat 600) 0]> ∅) s'
    else fsys_to demo_system ∅ s' /\
         (demo_name = [] \/ (14 < length demo_name)%nat \/ is_Some ((∅ : gmap (list Z) (list Z)) !! demo_name) \/
          root_full demo_system \/ no_room demo_system 600)).
Proof.
  apply (filesys_create_correct (fun _ => true) ∅ demo_system demo_name 600 (replicate 20 0)).
  - done.
  - exact demo_fsys.
  - exact demo_name_ok.
  - lia.
  - reflexivity.
Defined.

(** The device after that creation. *)
Definition demo_run : res (bool * fs) := filesys_create (fun _ => true) demo_name 600 (replicate 20 0) demo_system.
Definition demo_created : fs := match demo_run with Ok (_, s) => s | Err _ => demo_system end.
Definition demo_files : gmap (list Z) (list Z) := {[ demo_name := replicate 600 0 ]}.

Lemma demo_created_fsys : fsys demo_files demo_created.
Proof.
  assert (match demo_run with Ok (r, _) => r | Err _ => false end = true) as Hr by (by vm_compute).
  destruct demo_fsys as (A & m & Hinv & HF).
  assert (wp (filesys_create (fun _ => true) demo_name 600 (replicate 20 0)) demo_system
    (fun r s' => if r then fsys (<[demo_name := replicate (Z.to_nat 600) 0]> (files_of A m demo_system)) s' else True)) as Hwp.
  { eapply wp_filesys_create; [done|exact Hinv|exact demo_name_ok|lia|done| |done]. intros dr n s' _ _ _ Hs%fsys_step_to _. apply Hs. }
  unfold demo_created, wp in *. change (filesys_create _ _ _ _ _) with demo_run in Hwp.
  destruct demo_run as [[r s']|]; [|done]. subst r. by rewrite HF in Hwp.
Qed.

Lemma filesys_open_correct_witness :
  wp (filesys_open (fun _ => true) demo_name) demo_created (fun f s' =>
    fsys_to demo_created demo_files s' /\
    match demo_files !! demo_name with
    | None => f = NULL /\ same_handles demo_created s'
    | Some bs => 0 < f /\ exists i n e ino, file_opened demo_created s' f i n e ino /\ bytes_of s' (data ino) = bs
    end).
Proof.
  apply (filesys_open_correct (fun _ => true) demo_files demo_created demo_name).
  - done.
  - exact demo_created_fsys.
  - exact demo_name_ok.
Defined.

