(* ===== verification/Files.v ===== *)
(** src/filesys/file.c over the whole file system: the table of open files.

    An open file is a handle on an inode, with a position.  The inode counts its
    handles and those that deny writes; the invariant [counts_ok] says that the
    counts are exact, which is what makes the assertions of inode.c hold and
    keeps an inode in memory, and its sectors allocated, for as long as a handle
    needs it.  [view] is what the user of a handle sees: the inode's number, the
    contents of the file and the position. *)
From stdpp Require Import base numbers gmap fin_maps list.
From Stdlib Require Import ZArith Lia.
From S2P Require Import Prelude Strings Bitmap Inode Layout Directory Filesys.

Open Scope Z_scope.

(** * The invariant *)

Definition on (i : Z) (x : file) : Z := if f_inode x =? i then 1 else 0.
Definition denies (i : Z) (x : file) : Z := if (f_inode x =? i) && deny_write x then 1 else 0.

Record counts_ok (s : fs) : Prop := {
  ta_file : forall f x, files s !! f = Some x -> is_Some (inodes s !! f_inode x) /\ 0 <= pos x < 2 ^ 31;
  ta_count : forall i ino, inodes s !! i = Some ino -> open_cnt ino = msum (on i) (files s);
  ta_deny : forall i ino, inodes s !! i = Some ino -> deny_write_cnt ino = msum (denies i) (files s)
}.

(** What the user of [f] sees; the files of the file system itself are not seen. *)
Definition view (s : fs) (f : Z) : option (Z * list Z * Z) :=
  x ← files s !! f;
  ino ← inodes s !! f_inode x;
  if decide (sector ino ∈ sys_sectors) then None else Some (sector ino, bytes_of s (data ino), pos x).

(** The handles other than [X] are seen as before. *)
Definition views_kept (X : list Z) (s s' : fs) : Prop :=
  forall g v, g ∉ X -> view s g = Some v -> view s' g = Some v.

Lemma msum_le {K A} `{Countable K} (f g : A -> Z) (m : gmap K A) : (forall x, f x <= g x) -> msum f m <= msum g m.
Proof.
  intros Hf. induction m as [|i x m Hi IH] using map_ind; [by rewrite !msum_empty|].
  rewrite !msum_insert by done. specialize (Hf x). lia.
Qed.
Lemma msum_zero {K A} `{Countable K} (f : A -> Z) (m : gmap K A) : (forall i x, m !! i = Some x -> f x = 0) -> msum f m = 0.
Proof.
  induction m as [|i x m Hi IH] using map_ind; intros Hf; [by rewrite msum_empty|].
  rewrite msum_insert by done. rewrite (Hf i x), IH; [done| |by rewrite lookup_insert_eq].
  intros j y Hj. apply (Hf j y). rewrite lookup_insert_ne; [done|]. by intros <-; rewrite Hi in Hj.
Qed.

(** The same handles are open, on the same inodes. *)
Definition handle_of (x : file) : Z * bool := (f_inode x, deny_write x).
Definition same_open (s s' : fs) : Prop := forall g, handle_of <$> files s' !! g = handle_of <$> files s !! g.

Lemma same_open_is_Some s s' g : same_open s s' -> is_Some (files s' !! g) <-> is_Some (files s !! g).
Proof. intros H. by rewrite <-(fmap_is_Some handle_of (files s' !! g)), (H g), fmap_is_Some. Qed.

Section Table.
Implicit Types (s : fs) (f g i n p : Z).

Lemma view_Some s f n bs p :
  view s f = Some (n, bs, p) <->
  exists x ino, files s !! f = Some x /\ inodes s !! f_inode x = Some ino /\ sector ino = n /\ (n ∉ sys_sectors) /\
    bytes_of s (data ino) = bs /\ pos x = p.
Proof.
  unfold view. destruct (files s !! f) as [x|] eqn:Ex; cbn; [|naive_solver].
  destruct (inodes s !! f_inode x) as [ino|] eqn:Ei; cbn; [|naive_solver].
  case_decide as Hd; [naive_solver|]. split; [|naive_solver].
  intros [= <- <- <-]. by exists x, ino.
Qed.

Lemma on_bound i x : 0 <= on i x <= 1.
Proof. unfold on. destruct (_ =? _); lia. Qed.
Lemma denies_on i x : 0 <= denies i x <= on i x.
Proof. unfold denies, on. destruct (_ =? _), (deny_write x); simpl; lia. Qed.

Lemma table_same s s' : counts_ok s -> same_handles s s' -> counts_ok s'.
Proof. intros [H1 H2 H3] [E1 _ E2 _ _ _]. split; rewrite E1, E2; done. Qed.

Lemma views_same s s' : same_handles s s' -> open_kept s s' -> views_kept [] s s'.
Proof.
  intros [E1 _ E2 _ _ _] Hk g [[n bs] p] _ (x & ino & H1 & H2 & H3 & H4 & H5 & H6)%view_Some.
  apply view_Some. exists x, ino. rewrite E1, E2. split_and!; try done.
  rewrite <-H5. apply (Hk (f_inode x)); [by rewrite E1|by subst].
Qed.

(** ** Opening *)

Lemma table_opened s s' f i n e ino : counts_ok s -> file_opened s s' f i n e ino -> counts_ok s'.
Proof.
  intros [H1 H2 H3] [F1 F2 F3 F4 F5 F6 F7]. split.
  - intros g x. rewrite F2. intros [[<- <-]|[_ Hg]]%lookup_insert_Some; [cbn; split; [by eexists|lia]|].
    destruct (H1 g x Hg) as [Hx ?]. split; [|done]. destruct (decide (f_inode x = i)) as [->|]; [by eexists|by rewrite F6].
  - intros j y Hj. rewrite F2, msum_insert by done. unfold on at 1. cbn. destruct (Z.eqb_spec i j) as [<-|Hne].
    + rewrite F3 in Hj. injection Hj as <-. rewrite F5. destruct (inodes s !! i) as [o|] eqn:E; cbn; [rewrite (H2 i o E); lia|].
      rewrite msum_zero; [lia|]. intros g x Hg. unfold on. destruct (Z.eqb_spec (f_inode x) i) as [Ex|]; [|done].
      destruct (H1 g x Hg) as [[? ?] _]. congruence.
    + rewrite F6 in Hj by done. rewrite (H2 j y Hj). lia.
  - intros j y Hj. rewrite F2, msum_insert by done. unfold denies at 1. cbn. rewrite andb_false_r. destruct (decide (j = i)) as [->|Hne].
    + rewrite F3 in Hj. injection Hj as <-. rewrite F5. destruct (inodes s !! i) as [o|] eqn:E; cbn; [rewrite (H3 i o E); lia|].
      rewrite msum_zero; [lia|]. intros g x Hg. unfold denies. destruct (Z.eqb_spec (f_inode x) i) as [Ex|]; [|done].
      destruct (H1 g x Hg) as [[? ?] _]. congruence.
    + rewrite F6 in Hj by done. rewrite (H3 j y Hj). lia.
Qed.

Lemma views_opened s s' f i n e ino :
  file_opened s s' f i n e ino -> open_kept s s' -> n ∉ sys_sectors ->
  view s' f = Some (n, bytes_of s e, 0) /\ views_kept [] s s'.
Proof.
  intros [F1 F2 F3 [F4 F4'] F5 F6 F7] Hk Hn. assert (bytes_of s' e = bytes_of s e) as Hb.
  { rewrite <-F4'. apply (Hk i ino F3). by rewrite F4. }
  split.
  - apply view_Some. exists (mk_file i 0 false), ino. rewrite F2, lookup_insert_eq. cbn. rewrite F3. split_and!; try done; congruence.
  - intros g [[k bs] p] _ (x & y & H1 & H2 & H3 & H4 & H5 & H6)%view_Some. apply view_Some.
    assert (exists y', inodes s' !! f_inode x = Some y' /\ sector y' = sector y /\ data y' = data y) as (y' & Hy' & E1 & E2).
    { destruct (decide (f_inode x = i)) as [E|E]; [|exists y; rewrite F6; done].
      rewrite E in *. exists ino. rewrite H2 in F5. subst ino. done. }
    exists x, y'. rewrite F2, lookup_insert_ne by congruence. split_and!; try done; [congruence|].
    rewrite E2, <-H5, <-E2. apply (Hk _ _ Hy'). congruence.
Qed.

(** ** Removing *)

Lemma table_removed s s' n e : counts_ok s -> file_removed s s' n e -> counts_ok s'.
Proof.
  intros [H1 H2 H3] [F1 F2 F3 F4]. split; rewrite F1.
  - intros f x Hf. destruct (H1 f x Hf) as [[y Hy] ?]. split; [|done]. rewrite F3, Hy. by eexists.
  - intros i x. rewrite F3, fmap_Some. intros (o & Ho & ->). rewrite <-(H2 i o Ho). unfold mark_if. by destruct (_ =? _).
  - intros i x. rewrite F3, fmap_Some. intros (o & Ho & ->). rewrite <-(H3 i o Ho). unfold mark_if. by destruct (_ =? _).
Qed.

Lemma views_removed s s' n e : file_removed s s' n e -> open_kept s s' -> views_kept [] s s'.
Proof.
  intros [F1 F2 F3 F4] Hk g [[k bs] p] _ (x & y & H1 & H2 & H3 & H4 & H5 & H6)%view_Some. apply view_Some.
  assert (sector (mark_if n y) = sector y /\ data (mark_if n y) = data y) as [E1 E2] by (unfold mark_if; by destruct (_ =? _)).
  exists x, (mark_if n y). rewrite F1, F3, H2. split_and!; try done; [congruence|].
  rewrite <-H5, <-E2. apply (Hk (f_inode x)); [by rewrite F3, H2|congruence].
Qed.
End Table.

(** * Operations on one handle *)

Section Handle.
Implicit Types (A : gmap Z inode_disk) (m : gmap (list Z) Z) (s : fs) (f g i n p : Z) (ino : inode).

Lemma layout_files A s F :
  layout A s -> F !! free_map_file s = files s !! free_map_file s ->
  (forall f, is_Some (F !! f) -> is_Some (files s !! f)) -> layout A (set_files F s).
Proof.
  intros [[Hc Hwf (fi & (F0 & x & F1 & F2) & HA & Hb)] [H1 H2 H3 H4 H5 H6 H7]] Hfm Hdom.
  assert (handles A (set_files F s)) as Hh by (split; try done; cbn; intros f Hf; by apply H6, Hdom).
  assert (core A (set_files F s)) as Hc' by (by apply (core_same A s)).
  split; [|done]. split; [done|by eapply core_wf|]. exists fi. split; [|done]. split; [done|]. exists x. split; [|done].
  cbn. by rewrite Hfm.
Qed.

(** [x'] is [x] but for its counts. *)
Definition recounted (x x' : inode) : Prop :=
  sector x' = sector x /\ data x' = data x /\ removed x' = removed x /\
  (deny_write_cnt x' = deny_write_cnt x \/ sector x ≠ ROOT_DIR_SECTOR).

Lemma fs_inv_change A A' m s s' :
  fs_inv A m s -> layout A' s' -> (forall nm k, m !! nm = Some k -> A' !! k = A !! k) ->
  A' !! ROOT_DIR_SECTOR = A !! ROOT_DIR_SECTOR -> kept [FREE_MAP_SECTOR] A' s s' ->
  (forall i y, inodes s' !! i = Some y -> exists x, inodes s !! i = Some x /\ recounted x y) ->
  fs_inv A' m s' /\ files_of A' m s' = files_of A m s.
Proof.
  intros [H1 (dr & Hdr & Hrm) H3 H4 H5 H6] Hly Hsame Hroot Hk Hin. split; [split|].
  - done.
  - exists dr. rewrite Hroot, (Hk ROOT_DIR_SECTOR dr); [done|by rewrite Hroot|]. unfold FREE_MAP_SECTOR, ROOT_DIR_SECTOR. set_solver.
  - intros nm k Hnm. destruct (H3 nm k Hnm) as (? & ? & ?). by rewrite (Hsame nm k Hnm).
  - done.
  - intros i y Hi Hs. destruct (Hin i y Hi) as (x & Hx & E & _ & _ & [E'|Hne]); [rewrite E'; apply (H5 i x Hx)|]; congruence.
  - intros i y nm Hi Hr. destruct (Hin i y Hi) as (x & Hx & E & _ & Er & _). rewrite E. apply (H6 i x nm Hx). congruence.
  - apply map_eq. intros nm. unfold files_of. rewrite !lookup_omap. destruct (m !! nm) as [k|] eqn:E; [|done]. cbn.
    destruct (H3 nm k E) as (Hk0 & _ & [d Hd]). rewrite (Hsame nm k E), Hd. cbn. f_equal.
    apply (Hk k d); [by rewrite (Hsame nm k E)|]. set_solver.
Qed.

Lemma recounted_refl (x : inode) : recounted x x.
Proof. split_and!; auto. Qed.

(** The same on an unchanged device. *)
Lemma fs_inv_handles A m s s' :
  fs_inv A m s -> layout A s' -> disk s' = disk s ->
  (forall i y, inodes s' !! i = Some y -> exists x, inodes s !! i = Some x /\ recounted x y) ->
  fs_inv A m s' /\ files_of A m s' = files_of A m s.
Proof. intros Hinv Hly Hd Hin. eapply fs_inv_change; [done..|by apply kept_disk|done]. Qed.

(** A handle with the address of its inode. *)
Record handle s f (x : file) ino : Prop := {
  hn_file : files s !! f = Some x;
  hn_inode : inodes s !! f_inode x = Some ino;
  hn_user : sector ino ∉ sys_sectors
}.

Lemma view_handle s f n bs p :
  view s f = Some (n, bs, p) -> exists x ino, handle s f x ino /\ sector ino = n /\ bytes_of s (data ino) = bs /\ pos x = p.
Proof. intros (x & ino & H1 & H2 & H3 & H4 & H5 & H6)%view_Some. exists x, ino. split_and!; try done. split; [done..|congruence]. Qed.
Lemma handle_view s f x ino : handle s f x ino -> view s f = Some (sector ino, bytes_of s (data ino), pos x).
Proof. intros [H1 H2 H3]. apply view_Some. by exists x, ino. Qed.

Lemma handle_not_fm A s f x ino : layout A s -> handle s f x ino -> f ≠ free_map_file s /\ 0 < f /\ sector ino ≠ FREE_MAP_SECTOR.
Proof.
  intros Hly [H1 H2 H3]. split_and!.
  - intros ->. destruct (dv_fm _ _ (ly_device _ _ Hly)) as (fi & (_ & y & Hy & Hfi & Hs & _) & _).
    rewrite H1 in Hy. injection Hy as <-. rewrite H2 in Hfi. injection Hfi as <-. apply H3. rewrite Hs. unfold sys_sectors. set_solver.
  - apply (ha_files _ _ (ly_handles _ _ Hly)). by eexists.
  - intros E. apply H3. rewrite E. unfold sys_sectors. set_solver.
Qed.

Lemma wp_get_file s f x (Q : file -> fs -> Prop) : files s !! f = Some x -> Q x s -> wp (get_file f) s Q.
Proof. intros H HQ. apply wp_bind, wp_get. by rewrite H. Qed.
Lemma wp_put_file s f x (Q : unit -> fs -> Prop) : Q tt (set_files (<[f := x]> (files s)) s) -> wp (put_file f x) s Q.
Proof. intros HQ. apply wp_bind, wp_get. by apply wp_put. Qed.

Lemma same_open_put s s1 f (x : file) p :
  files s1 = files s -> files s !! f = Some x -> same_open s (set_files (<[f := mk_file (f_inode x) p (deny_write x)]> (files s1)) s1).
Proof.
  intros E Hx g. cbn. rewrite E. destruct (decide (g = f)) as [->|Hne]; [by rewrite lookup_insert_eq, Hx|by rewrite lookup_insert_ne].
Qed.

(** ** Moving the position *)

Definition at_pos (x : file) p : file := mk_file (f_inode x) p (deny_write x).

Lemma moved A m s f x ino p :
  fs_inv A m s -> counts_ok s -> handle s f x ino -> 0 <= p < 2 ^ 31 ->
  let s' := set_files (<[f := at_pos x p]> (files s)) s in
  fs_inv A m s' /\ files_of A m s' = files_of A m s /\ counts_ok s' /\ handle s' f (at_pos x p) ino /\
  views_kept [f] s s'.
Proof.
  intros Hinv [T1 T2 T3] Hh Hp s'. destruct (handle_not_fm A s f x ino) as (Hfm & _ & _); [apply Hinv|done|].
  pose proof Hh as [H1 H2 H3]. apply and_assoc. split; [|split_and!].
  - eapply fs_inv_handles; [done| |done|].
    + apply layout_files; [apply Hinv|by rewrite lookup_insert_ne|]. intros g [->|?]%lookup_insert_is_Some'; [by eexists|done].
    + intros i y Hi. exists y. split; [done|apply recounted_refl].
  - split; cbn.
    + intros g y [[<- <-]|[_ Hg]]%lookup_insert_Some; [split; [apply (T1 _ _ H1)|done]|by apply (T1 g)].
    + intros i y Hi. rewrite (msum_update _ _ _ x) by done. change (on i (at_pos x p)) with (on i x). rewrite (T2 i y Hi). lia.
    + intros i y Hi. rewrite (msum_update _ _ _ x) by done. change (denies i (at_pos x p)) with (denies i x). rewrite (T3 i y Hi). lia.
  - split; [cbn; by rewrite lookup_insert_eq|done|done].
  - intros g [[k bs] q] Hg (y & o & G1 & G2 & G)%view_Some. apply view_Some. exists y, o.
    cbn. rewrite lookup_insert_ne by set_solver. done.
Qed.

Lemma wp_file_seek A m s f x ino p (Q : unit -> fs -> Prop) :
  fs_inv A m s -> counts_ok s -> handle s f x ino -> 0 <= p < 2 ^ 31 ->
  (forall s', s' = set_files (<[f := at_pos x p]> (files s)) s -> Q tt s') -> wp (file_seek f p) s Q.
Proof.
  intros Hinv Ht Hh Hp HQ. destruct (handle_not_fm A s f x ino) as (_ & Hf & _); [apply Hinv|done|].
  apply wp_bind, wp_assert; [by apply nonnull_pos|]. apply wp_bind, wp_assert; [apply Z.leb_le; lia|].
  apply wp_bind. eapply wp_get_file; [apply Hh|]. by apply wp_put_file, HQ.
Qed.

Lemma wp_file_length s f x ino (Q : Z -> fs -> Prop) :
  0 < f -> handle s f x ino -> Q (length_of (data ino)) s -> wp (file_length f) s Q.
Proof.
  intros Hf [H1 H2 _] HQ. apply wp_bind, wp_assert; [by apply nonnull_pos|]. apply wp_bind. eapply wp_get_file; [done|].
  apply wp_bind. eapply wp_get_inode; [done|]. by apply wp_ret.
Qed.
End Handle.

(** ** Closing *)

Section Access.
Context (mallocs : nat -> bool) (Hmalloc : forall n, mallocs n = true).
Implicit Types (A : gmap Z inode_disk) (m : gmap (list Z) Z) (s : fs) (f g i n p : Z) (ino : inode).

Definition less_denied (x : file) ino : inode :=
  mk_inode (sector ino) (open_cnt ino) (removed ino) (deny_write_cnt ino - denies (f_inode x) x) (data ino).
Definition allowing (x : file) : file := mk_file (f_inode x) (pos x) false.

Lemma counts s f x ino :
  counts_ok s -> handle s f x ino ->
  denies (f_inode x) x <= deny_write_cnt ino <= open_cnt ino /\ 1 <= open_cnt ino.
Proof.
  intros [T1 T2 T3] [H1 H2 _]. rewrite (T2 _ _ H2), (T3 _ _ H2).
  assert (on (f_inode x) x = 1) as E by (unfold on; by rewrite Z.eqb_refl).
  split_and!.
  - apply (msum_ge (denies (f_inode x)) _ f); [|done]. intros y. apply denies_on.
  - apply msum_le. intros y. apply denies_on.
  - rewrite <-E. apply (msum_ge (on (f_inode x)) _ f); [|done]. intros y. apply on_bound.
Qed.

Lemma wp_file_allow_write A s f x ino (Q : unit -> fs -> Prop) :
  layout A s -> counts_ok s -> handle s f x ino ->
  (forall s', files s' = <[f := allowing x]> (files s) -> inodes s' = <[f_inode x := less_denied x ino]> (inodes s) ->
     dirs s' = dirs s -> disk s' = disk s -> free_map s' = free_map s -> layout A s' -> Q tt s') ->
  wp (file_allow_write f) s Q.
Proof.
  intros Hly Ht Hh HQ. destruct (counts _ _ _ _ Ht Hh) as [Hc Ho]. destruct (handle_not_fm A s f x ino) as (Hfm & Hf & Hn0); [done..|].
  pose proof Hh as [H1 H2 H3]. unfold denies in Hc. rewrite Z.eqb_refl in Hc.
  apply wp_bind, wp_assert; [by apply nonnull_pos|]. apply wp_bind. eapply wp_get_file; [done|].
  destruct (deny_write x) eqn:Ed; cbn [andb] in Hc.
  - apply wp_bind, wp_put_file. apply wp_bind. eapply wp_get_inode; [done|].
    apply wp_bind, wp_assert; [apply Z.ltb_lt; lia|]. apply wp_bind, wp_assert; [apply Z.leb_le; lia|].
    apply wp_bind, wp_get. apply wp_put. apply HQ; try done.
    + cbn. do 2 f_equal. unfold less_denied, denies. by rewrite Z.eqb_refl, Ed.
    + apply (layout_update A (set_files (<[f := allowing x]> (files s)) s) (f_inode x) ino); try done.
      apply layout_files; [done|by rewrite lookup_insert_ne|]. intros g [->|?]%lookup_insert_is_Some'; [by eexists|done].
  - apply wp_ret, HQ; try done.
    + rewrite insert_id; [done|]. rewrite H1. destruct x; cbn in *. by subst.
    + rewrite insert_id; [done|]. rewrite H2. unfold less_denied, denies. rewrite Ed, andb_false_r. destruct ino; cbn. do 2 f_equal. lia.
Qed.

(** What closing does to the handles and, for a removed file, to its sectors. *)
Record file_closed s s' f (x : file) ino : Prop := {
  fc_files : files s' = delete f (files s);
  fc_inode : inodes s' !! f_inode x = if open_cnt ino =? 1 then None else Some (closed_once (less_denied x ino));
  fc_others : forall j, j ≠ f_inode x -> inodes s' !! j = inodes s !! j;
  fc_dirs : dirs s' = dirs s;
  fc_freed : removed ino = true -> open_cnt ino = 1 ->
             forall k, uses (sector ino) (data ino) k -> bit (free_map s') k = false
}.

Lemma wp_close_handle A m s f x ino (Q : unit -> fs -> Prop) :
  fs_inv A m s -> counts_ok s -> handle s f x ino ->
  (forall A' s', A' = A \/ removed ino = true /\ open_cnt ino = 1 /\ A' = delete (sector ino) A ->
     layout A' s' -> kept [FREE_MAP_SECTOR] A' s s' -> file_closed s s' f x ino -> Q tt s') ->
  wp (file_close mallocs f) s Q.
Proof.
  intros Hinv Ht Hh HQ. pose proof (fi_layout _ _ _ Hinv) as Hly. destruct (handle_not_fm A s f x ino) as (Hfm & Hf & Hn0); [done..|].
  destruct (counts _ _ _ _ Ht Hh) as [_ Ho]. pose proof Hh as [H1 H2 H3].
  unfold file_close. rewrite nonnull_pos by done. apply wp_bind. eapply wp_file_allow_write; [done..|].
  intros s1 Ef Ei Ed Edk Eb Hly1. apply wp_bind. eapply wp_get_file; [by rewrite Ef, lookup_insert_eq|]. cbn [f_inode allowing].
  assert (inodes s1 !! f_inode x = Some (less_denied x ino)) as Hi1 by (by rewrite Ei, lookup_insert_eq).
  assert (forall A' s2, layout A' s2 -> files s2 = files s1 -> free_map_file s2 = free_map_file s1 ->
    layout A' (set_files (delete f (files s2)) s2)) as Hdel.
  { intros A' s2 Hly2 E2 E3. apply layout_files; [done| |intros g [_ Hg]%lookup_delete_is_Some; done].
    rewrite lookup_delete_ne; [done|]. rewrite E3. apply (handle_not_fm A s1 f (allowing x) (less_denied x ino)); [done|].
    split; [by rewrite Ef, lookup_insert_eq|done|done]. }
  assert (forall s2, files s2 = files s1 -> delete f (files s2) = delete f (files s)) as Efs.
  { intros s2 ->. by rewrite Ef, delete_insert_eq. }
  apply wp_bind. destruct (decide (removed ino = true /\ open_cnt ino = 1)) as [[Hr Hc]|Hno].
  - eapply (wp_close_removed mallocs Hmalloc A s1); [done|apply (ha_open _ _ (ly_handles _ _ Hly1) _ _ Hi1)|done..|].
    cbn [sector data less_denied]. intros s2 Hly2 Hk2 Ei2 _ Ef2 Ed2 Em2 _ Hfree.
    apply wp_bind, wp_get. apply wp_put. apply (HQ (delete (sector ino) A)); [by right|by apply Hdel| |].
    + intros k d Hk Hni. rewrite <-(bytes_of_disk s s1 d) by (intros; by rewrite Edk). by apply (Hk2 k).
    + split; cbn; [by apply Efs| | |by rewrite Ed2|done].
      * by rewrite Ei2, lookup_delete_eq, Hc.
      * intros j Hj. by rewrite Ei2, lookup_delete_ne, Ei, lookup_insert_ne.
  - eapply (wp_inode_close mallocs A s1); [done|done|done| |].
    { cbn. destruct (removed ino); [right|by left]. naive_solver. }
    intros s2 E2 Hly2. apply wp_bind, wp_get. apply wp_put.
    apply (HQ A); [by left|apply Hdel; [done|by rewrite E2..]|apply kept_disk; cbn; by rewrite E2|].
    assert (inodes s2 = closed_table (inodes s1) (f_inode x) (less_denied x ino)) as Ei2 by (by rewrite E2).
    unfold closed_table in Ei2. cbn [open_cnt less_denied] in Ei2.
    split; cbn; [by apply Efs; rewrite E2| | |by rewrite E2|naive_solver]; rewrite Ei2.
    + destruct (open_cnt ino =? 1); [by rewrite lookup_delete_eq|by rewrite lookup_insert_eq].
    + intros j Hj. destruct (open_cnt ino =? 1); [rewrite lookup_delete_ne by done|rewrite lookup_insert_ne by done]; by rewrite Ei, lookup_insert_ne.
Qed.

Lemma table_closed s s' f x ino : counts_ok s -> handle s f x ino -> file_closed s s' f x ino -> counts_ok s'.
Proof.
  intros [T1 T2 T3] [H1 H2 H3] [F1 F2 F3 F4 _].
  assert (on (f_inode x) x = 1) as E by (unfold on; by rewrite Z.eqb_refl).
  assert (forall i, msum (on i) (files s') = msum (on i) (files s) - on i x) as Hon by (intros i; rewrite F1; by apply msum_delete).
  assert (forall i, msum (denies i) (files s') = msum (denies i) (files s) - denies i x) as Hde by (intros i; rewrite F1; by apply msum_delete).
  assert (forall i y, inodes s' !! i = Some y -> i ≠ f_inode x -> on i x = 0 /\ denies i x = 0) as Hz.
  { intros i y _ Hne. unfold on, denies. destruct (Z.eqb_spec (f_inode x) i); [congruence|done]. }
  split.
  - intros g y Hg. assert (files s !! g = Some y) as Hg' by (rewrite F1 in Hg; by apply lookup_delete_Some in Hg as [_ ?]).
    destruct (T1 g y Hg') as [Hi ?]. split; [|done]. destruct (decide (f_inode y = f_inode x)) as [Ex|Ex]; [|by rewrite F3].
    rewrite Ex, F2. destruct (Z.eqb_spec (open_cnt ino) 1) as [Hc|]; [|by eexists]. exfalso.
    pose proof (Hon (f_inode x)) as Hs. rewrite <-(T2 _ _ H2), E in Hs.
    pose proof (msum_ge (on (f_inode x)) (files s') g y) as Hge. unfold on at 2 in Hge. rewrite Ex, Z.eqb_refl in Hge.
    specialize (Hge (fun z => proj1 (on_bound _ z)) Hg). lia.
  - intros i y Hi. rewrite Hon. destruct (decide (i = f_inode x)) as [->|Hne].
    + rewrite F2 in Hi. destruct (open_cnt ino =? 1); [done|]. injection Hi as <-. cbn. rewrite (T2 _ _ H2). lia.
    + destruct (Hz i y Hi Hne) as [-> _]. rewrite F3 in Hi by done. rewrite (T2 i y Hi). lia.
  - intros i y Hi. rewrite Hde. destruct (decide (i = f_inode x)) as [->|Hne].
    + rewrite F2 in Hi. destruct (open_cnt ino =? 1); [done|]. injection Hi as <-. cbn. by rewrite (T3 _ _ H2).
    + destruct (Hz i y Hi Hne) as [_ ->]. rewrite F3 in Hi by done. rewrite (T3 i y Hi). lia.
Qed.

Lemma closed_survives s s' f x ino g y o :
  counts_ok s -> handle s f x ino -> file_closed s s' f x ino -> g ≠ f -> files s !! g = Some y -> inodes s !! f_inode y = Some o ->
  files s' !! g = Some y /\ exists o', inodes s' !! f_inode y = Some o' /\ sector o' = sector o /\ data o' = data o.
Proof.
  intros Ht Hh Hcl Hgf Hg Ho. pose proof (table_closed _ _ _ _ _ Ht Hh Hcl) as [T1 _ _]. destruct Hcl as [F1 F2 F3 _ _].
  assert (files s' !! g = Some y) as Hg' by (by rewrite F1, lookup_delete_ne). split; [done|].
  destruct (T1 g y Hg') as [[o' Ho'] _]. exists o'. split; [done|].
  destruct (decide (f_inode y = f_inode x)) as [E|E]; [|rewrite F3 in Ho' by done; by simplify_eq].
  rewrite E in *. rewrite F2 in Ho'. destruct (open_cnt ino =? 1); [done|]. destruct Hh as [_ Hi _]. by simplify_eq.
Qed.

Lemma wp_file_close A m s f x ino (Q : unit -> fs -> Prop) :
  fs_inv A m s -> counts_ok s -> handle s f x ino ->
  (forall s', fsys_at m (files_of A m s) s' -> counts_ok s' -> views_kept [f] s s' -> file_closed s s' f x ino -> Q tt s') ->
  wp (file_close mallocs f) s Q.
Proof.
  intros Hinv Ht Hh HQ. eapply wp_close_handle; [done..|]. intros A' s' HA' Hly' Hk Hcl. pose proof Hh as [H1 H2 H3].
  assert (sector ino ≠ ROOT_DIR_SECTOR) as Hroot by (intros E; apply H3; rewrite E; unfold sys_sectors; set_solver).
  assert (A' !! ROOT_DIR_SECTOR = A !! ROOT_DIR_SECTOR) as HA'r.
  { destruct HA' as [->|(_ & _ & ->)]; [done|]. by rewrite lookup_delete_ne. }
  assert (forall nm k, m !! nm = Some k -> A' !! k = A !! k) as HA'm.
  { intros nm k Hnm. destruct HA' as [->|(Hr & _ & ->)]; [done|]. rewrite lookup_delete_ne; [done|]. intros <-.
    by apply (fi_removed _ _ _ Hinv (f_inode x) ino nm H2 Hr). }
  destruct (fs_inv_change A A' m s s') as [Hinv' HF]; try done.
  { intros i y Hi. destruct (decide (i = f_inode x)) as [->|Hne].
    - rewrite (fc_inode _ _ _ _ _ Hcl) in Hi. destruct (open_cnt ino =? 1); [done|]. injection Hi as <-. exists ino. split; [done|]. unfold recounted. auto.
    - rewrite (fc_others _ _ _ _ _ Hcl) in Hi by done. exists y. split; [done|apply recounted_refl]. }
  apply HQ; [exists A'; split; [done|by rewrite HF]|by eapply table_closed| |done].
  intros g [[n bs] p] Hg (y & o & G1 & G2 & G3 & G4 & G5 & G6)%view_Some.
  destruct (closed_survives s s' f x ino g y o) as (E1 & o' & E2 & E3 & E4); try done; [set_solver|].
  apply view_Some. exists y, o'. split_and!; try done; [congruence|]. rewrite E4, <-G5.
  apply (Hk (sector o')); [rewrite <-E4; by apply (ha_open _ _ (ly_handles _ _ Hly') _ _ E2)|].
  intros Ein%list_elem_of_singleton. apply G4. rewrite <-G3, <-E3, Ein. unfold sys_sectors. set_solver.
Qed.

(** ** Reading *)

Lemma fs_inv_heap A m s s' :
  fs_inv A m s -> counts_ok s -> heap_eq s s' ->
  fs_inv A m s' /\ files_of A m s' = files_of A m s /\ counts_ok s' /\ (forall f, view s' f = view s f).
Proof.
  intros Hinv Ht He. destruct (heap_handles _ _ He) as (Hh & _ & Hd). apply and_assoc. split.
  - eapply fs_inv_handles; [done|eapply layout_heap; [apply Hinv|done]|done|]. intros i y. rewrite (sh_inodes _ _ Hh).
    intros Hi. exists y. split; [done|apply recounted_refl].
  - split; [by eapply table_same|]. intros f. by destruct He as (a & c & -> & _).
Qed.

Lemma wp_file_read A m s f n bs p size (Q : list Z -> fs -> Prop) :
  fs_inv A m s -> counts_ok s -> view s f = Some (n, bs, p) ->
  (forall s', let out := take (Z.to_nat size) (drop (Z.to_nat p) bs) in
     fsys_at m (files_of A m s) s' -> counts_ok s' -> views_kept [f] s s' ->
     view s' f = Some (n, bs, p + Z.of_nat (length out)) -> same_open s s' -> Q out s') ->
  wp (file_read mallocs f size) s Q.
Proof.
  intros Hinv Ht Hv HQ. destruct (view_handle _ _ _ _ _ Hv) as (x & ino & Hh & <- & <- & <-). pose proof Hh as [H1 H2 H3].
  pose proof (dv_wf _ _ (ly_device _ _ (fi_layout _ _ _ Hinv))) as Hwf. destruct (ta_file _ Ht _ _ H1) as [_ Hp].
  apply wp_bind. eapply wp_get_file; [done|]. apply wp_bind. eapply wp_inode_read_at; [done|done|done|lia|].
  intros s1 He. destruct (fs_inv_heap _ _ _ _ Hinv Ht He) as (Hinv1 & HF1 & Ht1 & Hv1).
  set (out := take _ _) in *. assert (handle s1 f x ino) as Hh1.
  { destruct He as (a & c & -> & _). by split. }
  apply wp_bind. eapply wp_get_file; [apply Hh1|]. apply wp_bind, wp_put_file, wp_ret.
  assert (0 <= pos x + Z.of_nat (length out) < 2 ^ 31) as Hb.
  { pose proof (length_bytes_of _ _ Hwf (fw_inode _ Hwf _ _ H2)) as Hl. pose proof (dk_len _ _ (fw_inode _ Hwf _ _ H2)).
    subst out. rewrite length_take, length_drop. lia. }
  rewrite s32_small by lia.
  destruct (moved A m s1 f x ino (pos x + Z.of_nat (length out))) as (M1 & M2 & M3 & M4 & M5); try done.
  apply HQ; [exists A; split; [done|exact (eq_trans M2 HF1)]|done| | |].
  - intros g v Hg Hgv. apply M5; [done|by rewrite Hv1].
  - rewrite <-(bytes_of_heap_eq s s1 (data ino) He). exact (handle_view _ _ _ _ M4).
  - apply (same_open_put s s1 f x); [apply (heap_handles _ _ He)|done].
Qed.

(** ** Writing *)

(** The named files with the contents of inode [n] replaced. *)
Definition rewritten m n (bs : list Z) (F : gmap (list Z) (list Z)) : gmap (list Z) (list Z) :=
  map_imap (fun nm c => Some (if decide (m !! nm = Some n) then bs else c)) F.

(** The contents of inode [n] are seen to be [bs]. *)
Definition views_written (X : list Z) n (bs : list Z) s s' : Prop :=
  forall g j cs q, g ∉ X -> view s g = Some (j, cs, q) -> view s' g = Some (j, if decide (j = n) then bs else cs, q).

Lemma wrote_all A m s s' f x ino bs :
  fs_inv A m s -> counts_ok s -> handle s f x ino -> wrote s s' (data ino) bs ->
  fs_inv A m s' /\ files_of A m s' = rewritten m (sector ino) bs (files_of A m s) /\ counts_ok s' /\ handle s' f x ino /\
  views_written [] (sector ino) bs s s'.
Proof.
  intros Hinv Ht Hh Hw. pose proof Hh as [H1 H2 H3]. destruct (handle_not_fm A s f x ino) as (_ & _ & Hn0); [apply Hinv|done|].
  destruct (layout_wrote _ _ _ _ _ _ (fi_layout _ _ _ Hinv) H2 Hn0 Hw) as (L1 & L2 & L3).
  assert (forall j y, inodes s !! j = Some y -> sector y = sector ino -> y = ino) as Huniq.
  { intros j y Hj E. rewrite (ha_sect _ _ (ly_handles _ _ (fi_layout _ _ _ Hinv)) _ _ _ _ Hj H2 E) in Hj. congruence. }
  assert (forall n e, A !! n = Some e -> n ≠ sector ino -> bytes_of s' e = bytes_of s e) as Hk.
  { intros n e He Hne. apply (L2 n e He). set_solver. }
  destruct (ha_open _ _ (ly_handles _ _ (fi_layout _ _ _ Hinv)) _ _ H2) as [HA _].
  split_and!.
  - destruct Hinv as [V1 (dr & Hdr & Hrm) V3 V4 V5 V6]. destruct L3 as [E1 E2 E3 E4 E5 E6]. split; rewrite ?E1; try done.
    exists dr. rewrite (Hk ROOT_DIR_SECTOR dr Hdr); [done|]. intros E. apply H3. rewrite <-E. unfold sys_sectors. set_solver.
  - apply map_eq. intros nm. unfold files_of, rewritten. rewrite map_lookup_imap, !lookup_omap.
    destruct (m !! nm) as [k|] eqn:E; [|done]. cbn. destruct (A !! k) as [e|] eqn:Ek; [|done]. cbn. f_equal.
    case_decide as Hd; [|apply (Hk k e Ek); congruence]. injection Hd as ->. rewrite HA in Ek. injection Ek as <-. apply Hw.
  - by eapply table_same.
  - destruct L3 as [E1 E2 E3 E4 E5 E6]. split; rewrite ?E1, ?E3; done.
  - intros g j cs q _ (y & o & G1 & G2 & G3 & G4 & G5 & G6)%view_Some. apply view_Some. exists y, o.
    rewrite (sh_files _ _ L3), (sh_inodes _ _ L3). split_and!; try done. case_decide as Hd.
    + rewrite (Huniq _ _ G2) by congruence. apply Hw.
    + rewrite <-G5. apply (Hk (sector o)); [apply (ha_open _ _ (ly_handles _ _ (fi_layout _ _ _ Hinv)) _ _ G2)|congruence].
Qed.

Definition denied s f : bool :=
  match x ← files s !! f; inodes s !! f_inode x with Some ino => negb (deny_write_cnt ino =? 0) | None => false end.

(** How many of [size] bytes go into a file of [len] bytes at [p]. *)
Definition room (deny : bool) (size len p : Z) : Z := if deny then 0 else Z.min size (Z.max 0 (len - p)).

Lemma wp_write_handle s f x ino buffer size p (Q : Z -> fs -> Prop) :
  fs_wf s -> handle s f x ino -> 0 <= p -> 0 <= size <= Z.of_nat (length buffer) ->
  (forall k s', Z.of_nat k = room (denied s f) size (Z.of_nat (length (bytes_of s (data ino)))) p ->
     wrote s s' (data ino) (splice (bytes_of s (data ino)) (Z.to_nat p) (take k buffer)) -> Q (Z.of_nat k) s') ->
  wp (inode_write_at mallocs (f_inode x) buffer size p) s Q.
Proof.
  intros Hwf [H1 H2 H3] Hp Hs HQ. rewrite (length_bytes_of _ _ Hwf (fw_inode _ Hwf _ _ H2)) in HQ.
  assert (denied s f = negb (deny_write_cnt ino =? 0)) as Hd.
  { unfold denied. rewrite H1. cbn. by rewrite H2. }
  rewrite Hd in HQ. destruct (Z.eqb_spec (deny_write_cnt ino) 0) as [E|E]; cbn [negb room] in HQ.
  - eapply wp_inode_write_at; done.
  - eapply wp_inode_write_denied; [done|done|]. apply (HQ O); [done|]. rewrite take_0, splice_nil. by apply wrote_heap, heap_eq_refl.
Qed.

Lemma wp_file_write A m s f n bs p buffer size (Q : Z -> fs -> Prop) :
  fs_inv A m s -> counts_ok s -> view s f = Some (n, bs, p) -> 0 <= size <= Z.of_nat (length buffer) ->
  (forall k s', Z.of_nat k = room (denied s f) size (Z.of_nat (length bs)) p ->
     let bs' := splice bs (Z.to_nat p) (take k buffer) in
     fsys_at m (rewritten m n bs' (files_of A m s)) s' -> counts_ok s' -> views_written [f] n bs' s s' ->
     view s' f = Some (n, bs', p + Z.of_nat k) -> same_open s s' -> Q (Z.of_nat k) s') ->
  wp (file_write mallocs f buffer size) s Q.
Proof.
  intros Hinv Ht Hv Hsz HQ. destruct (view_handle _ _ _ _ _ Hv) as (x & ino & Hh & <- & <- & <-).
  pose proof (dv_wf _ _ (ly_device _ _ (fi_layout _ _ _ Hinv))) as Hwf. pose proof Hh as [H1 H2 H3].
  destruct (ta_file _ Ht _ _ H1) as [_ Hp]. apply wp_bind. eapply wp_get_file; [done|]. apply wp_bind.
  eapply wp_write_handle; [done|done|lia|done|]. intros k s1 Hk Hw. specialize (HQ k). cbv zeta in HQ. set (bs' := splice _ _ _) in *.
  destruct (wrote_all _ _ _ _ _ _ _ _ Hinv Ht Hh Hw) as (Hinv1 & HF1 & Ht1 & Hh1 & Hv1).
  apply wp_bind. eapply wp_get_file; [apply Hh1|]. apply wp_bind, wp_put_file, wp_ret.
  assert (0 <= pos x + Z.of_nat k < 2 ^ 31) as Hb.
  { pose proof (length_bytes_of _ _ Hwf (fw_inode _ Hwf _ _ H2)) as Hl. pose proof (dk_len _ _ (fw_inode _ Hwf _ _ H2)).
    unfold room in Hk. destruct (denied s f); lia. }
  rewrite s32_small by lia.
  destruct (moved A m s1 f x ino (pos x + Z.of_nat k)) as (M1 & M2 & M3 & M4 & M5); try done.
  apply HQ; [done|exists A; split; [done|exact (eq_trans M2 HF1)]|done| | |].
  - intros g j cs q Hg Hgv. apply M5; [done|]. apply Hv1; [set_solver|done].
  - rewrite <-(wr_bytes _ _ _ _ Hw). exact (handle_view _ _ _ _ M4).
  - apply (same_open_put s s1 f x); [apply (wrote_handles _ _ _ _ Hw)|done].
Qed.

(** ** Opening, creating and removing by name *)

Lemma wp_open_view A m s nm (Q : Z -> fs -> Prop) :
  fs_inv A m s -> counts_ok s -> name_ok nm ->
  (forall s', files_of A m s !! nm = None -> fsys_at m (files_of A m s) s' -> counts_ok s' -> views_kept [] s s' -> Q NULL s') ->
  (forall f n bs s', 0 < f -> m !! nm = Some n -> files_of A m s !! nm = Some bs -> fsys_at m (files_of A m s) s' -> counts_ok s' ->
     views_kept [] s s' -> view s' f = Some (n, bs, 0) -> files s !! f = None -> (exists i, files s' !! f = Some (mk_file i 0 false)) -> Q f s') ->
  wp (filesys_open mallocs nm) s Q.
Proof.
  intros Hinv Ht Hnm HQ0 HQ1. eapply wp_filesys_open; [done..| |].
  - intros s' Hn Hh [Hs Hk]. apply HQ0; [by apply files_of_None|done|by eapply table_same|by apply views_same].
  - intros f i n e ino s' Hf Hn He Hb Hfo [Hs Hk]. destruct (fi_entries _ _ _ Hinv _ _ Hn) as (Hn0 & Hn1 & _).
    destruct (views_opened s s' f i n e ino) as [Hv Hvs]; [done|done|unfold sys_sectors; set_solver|].
    eapply HQ1; [done|done| |done|by eapply table_opened|done|done|apply Hfo|exists i; by rewrite (fo_files _ _ _ _ _ _ _ Hfo), lookup_insert_eq].
    unfold files_of. rewrite lookup_omap, Hn. cbn. by rewrite He.
Qed.

Lemma wp_remove_view A m s nm (Q : bool -> fs -> Prop) :
  fs_inv A m s -> counts_ok s -> name_ok nm ->
  (forall s', fsys_at (delete nm m) (delete nm (files_of A m s)) s' -> counts_ok s' -> views_kept [] s s' ->
     files s' = files s -> Q (bool_decide (is_Some (files_of A m s !! nm))) s') ->
  wp (filesys_remove mallocs nm) s Q.
Proof.
  intros Hinv Ht Hnm HQ. eapply wp_filesys_remove; [done..| |].
  - intros s' Hn Hh [Hs Hk]. assert (files_of A m s !! nm = None) as Hno by (by apply files_of_None).
    rewrite bool_decide_eq_false_2 in HQ by (rewrite Hno; by intros [? ?]).
    apply HQ; [by rewrite !delete_id|by eapply table_same|by apply views_same|apply Hh].
  - intros n e s' Hn He Hfr [Hs Hk].
    rewrite bool_decide_eq_true_2 in HQ by (apply not_eq_None_Some; rewrite (files_of_None _ _ _ _ Hinv); by rewrite Hn).
    apply HQ; [done|by eapply table_removed|by eapply views_removed|apply Hfr].
Qed.

Lemma wp_create_view A m s nm len stack (Q : bool -> fs -> Prop) :
  fs_inv A m s -> counts_ok s -> name_ok nm -> 0 <= len < 2 ^ 31 - 512 -> length stack = 20%nat ->
  (forall r m' s', fsys_at m' (if r : bool then <[nm := replicate (Z.to_nat len) 0]> (files_of A m s) else files_of A m s) s' ->
     (r = true -> files_of A m s !! nm = None /\ exists n, m' !! nm = Some n /\ forall i ino, inodes s !! i = Some ino -> sector ino ≠ n) ->
     (r = false -> nm = [] \/ (14 < length nm)%nat \/ is_Some (files_of A m s !! nm) \/ root_full s \/ no_room s len) ->
     counts_ok s' -> views_kept [] s s' -> same_handles s s' -> Q r s') ->
  wp (filesys_create mallocs nm len stack) s Q.
Proof.
  intros Hinv Ht Hnm Hl Hst HQ. eapply wp_filesys_create; [done..| |].
  - intros dr n s' Hdr Hn Hh [Hs Hk] (_ & _ & Hno & _).
    apply (HQ true (<[nm := n]> m)); [done| |done|by eapply table_same|by apply views_same|done]. intros _. split.
    + apply files_of_None; [done|]. destruct (fi_root_map _ _ _ _ Hinv Hdr) as [_ <-]. done.
    + exists n. split; [apply lookup_insert_eq|]. intros i ino Hi <-. destruct (ha_open _ _ (ly_handles _ _ (fi_layout _ _ _ Hinv)) _ _ Hi) as [E _]. congruence.
  - intros dr s' Hdr Hh [Hs Hk] Hwhy. apply (HQ false m); [done|done| |by eapply table_same|by apply views_same|done]. intros _. by eapply create_reason.
Qed.
End Access.

(** ** Denying writes *)

Section Deny.
Context (mallocs : nat -> bool) (Hmalloc : forall n, mallocs n = true).

Definition more_denied (ino : inode) : inode :=
  mk_inode (sector ino) (open_cnt ino) (removed ino) (deny_write_cnt ino + 1) (data ino).
Definition denying (x : file) : file := mk_file (f_inode x) (pos x) true.

(** One opener does not deny writes yet, so there is room for it to do so. *)
Lemma deny_room s f x ino :
  counts_ok s -> handle s f x ino -> deny_write x = false -> deny_write_cnt ino + 1 <= open_cnt ino.
Proof.
  intros [T1 T2 T3] [H1 H2 _] Hd. rewrite (T2 _ _ H2), (T3 _ _ H2).
  assert (msum (denies (f_inode x)) (delete f (files s)) <= msum (on (f_inode x)) (delete f (files s))) as Hle.
  { apply msum_le. intros y. apply denies_on. }
  rewrite !(msum_delete _ _ _ x) in Hle by done. unfold denies at 2, on at 2 in Hle. rewrite Hd, Z.eqb_refl in Hle. cbn in Hle. lia.
Qed.

Lemma wp_file_deny_write A m s f x ino (Q : unit -> fs -> Prop) :
  fs_inv A m s -> counts_ok s -> handle s f x ino -> deny_write x = false ->
  (forall s', fs_inv A m s' -> files_of A m s' = files_of A m s -> counts_ok s' -> views_kept [] s s' ->
     inodes s' !! f_inode x = Some (more_denied ino) ->
     (forall g y, files s !! g = Some y -> exists y', files s' !! g = Some y' /\ f_inode y' = f_inode y) -> Q tt s') ->
  wp (file_deny_write f) s Q.
Proof.
  intros Hinv Ht Hh Hd HQ. pose proof (deny_room _ _ _ _ Ht Hh Hd) as Hroom. pose proof (counts _ _ _ _ Ht Hh) as [_ Hcnt].
  destruct (handle_not_fm A s f x ino) as (Hfm & Hf & Hn0); [apply Hinv|done|]. pose proof Hh as [H1 H2 H3]. destruct Ht as [T1 T2 T3].
  apply wp_bind, wp_assert; [by apply nonnull_pos|]. apply wp_bind. eapply wp_get_file; [done|]. rewrite Hd. cbn [negb].
  apply wp_bind, wp_put_file. apply wp_bind. eapply wp_get_inode; [done|]. apply wp_bind, wp_bind, wp_get. apply wp_put.
  apply wp_assert; [apply Z.leb_le; lia|]. fold (more_denied ino). fold (denying x).
  set (s' := set_inodes _ _ _). assert (layout A s') as Hly.
  { apply (layout_update A (set_files (<[f := denying x]> (files s)) s) (f_inode x) ino); try done.
    apply layout_files; [apply Hinv|by rewrite lookup_insert_ne|]. intros g [->|?]%lookup_insert_is_Some'; [by eexists|done]. }
  assert (sector ino ≠ ROOT_DIR_SECTOR) as Hroot by (intros E; apply H3; rewrite E; unfold sys_sectors; set_solver).
  destruct (fs_inv_handles A m s s') as [Hinv' HF]; [done|done|done| |].
  { intros i y. cbn. intros [[<- <-]|[_ Hi]]%lookup_insert_Some; [exists ino; split; [done|]; unfold recounted; auto|].
    exists y. split; [done|apply recounted_refl]. }
  assert (forall i y, inodes s' !! i = Some y -> exists o, inodes s !! i = Some o /\ sector y = sector o /\ data y = data o /\
    open_cnt y = open_cnt o /\ deny_write_cnt y = deny_write_cnt o + (if decide (i = f_inode x) then 1 else 0)) as Hold.
  { intros i y. cbn. intros [[<- <-]|[Hne Hi]]%lookup_insert_Some; [exists ino; by rewrite decide_True|].
    exists y. rewrite decide_False by done. split_and!; try done. lia. }
  apply HQ; [done|done| | |cbn; by rewrite lookup_insert_eq|].
  - split; cbn [files s' set_inodes set_files].
    + intros g y [[<- <-]|[_ Hg]]%lookup_insert_Some; cbn; (split; [apply lookup_insert_is_Some'|]).
      * by left.
      * apply (T1 _ _ H1).
      * right. apply (T1 _ _ Hg).
      * apply (T1 _ _ Hg).
    + intros i y Hi. destruct (Hold i y Hi) as (o & Ho & _ & _ & -> & _). rewrite (msum_update _ _ _ x) by done.
      change (on i (denying x)) with (on i x). rewrite (T2 i o Ho). lia.
    + intros i y Hi. destruct (Hold i y Hi) as (o & Ho & _ & _ & _ & ->). rewrite (msum_update _ _ _ x) by done.
      rewrite (T3 i o Ho). unfold denies at 3 4. cbn. rewrite Hd, andb_false_r, andb_true_r.
      destruct (Z.eqb_spec (f_inode x) i), (decide (i = f_inode x)); try congruence; lia.
  - intros g [[n bs] p] _ (y & o & G1 & G2 & G3 & G4 & G5 & G6)%view_Some. apply view_Some.
    assert (exists y', files s' !! g = Some y' /\ f_inode y' = f_inode y /\ pos y' = pos y) as (y' & E1 & E2 & E3).
    { cbn. destruct (decide (g = f)) as [->|Hne]; [rewrite lookup_insert_eq|rewrite lookup_insert_ne by done; by exists y].
      exists (denying x). by simplify_eq. }
    assert (exists o', inodes s' !! f_inode y = Some o' /\ sector o' = sector o /\ data o' = data o) as (o' & E4 & E5 & E6).
    { cbn. destruct (decide (f_inode y = f_inode x)) as [E|E]; [rewrite E, lookup_insert_eq|rewrite lookup_insert_ne by done; by exists o].
      exists (more_denied ino). rewrite E in G2. by simplify_eq. }
    exists y', o'. rewrite E2. split_and!; try done; [congruence|by rewrite E6|congruence].
  - intros g y Hg. cbn. destruct (decide (g = f)) as [->|Hne]; [rewrite lookup_insert_eq|rewrite lookup_insert_ne by done; by exists y].
    exists (denying x). by simplify_eq.
Qed.
End Deny.

(** * Claims *)


(** Removing a file that is open takes its name away and leaves the file: a
    later read through the handle returns the bytes it would have returned. *)
Theorem removed_file_readable mallocs F s nm f n bs p size :
  (forall k, mallocs k = true) -> fsys F s -> counts_ok s -> name_ok nm -> view s f = Some (n, bs, p) ->
  wp (filesys_remove mallocs nm;; file_read mallocs f size) s (fun out s' =>
    out = take (Z.to_nat size) (drop (Z.to_nat p) bs) /\ fsys (delete nm F) s' /\ counts_ok s').
Proof.
  intros Hmalloc (A & m & Hinv & <-) Ht Hnm Hv. apply wp_bind. eapply (wp_remove_view mallocs Hmalloc A m); [done..|].
  intros s1 (B & Hinv1 & HB) Ht1 Hv1 _. eapply (wp_file_read mallocs Hmalloc B); [done|done|apply Hv1; [apply not_elem_of_nil|exact Hv]|].
  cbv zeta. intros s2 (C & Hinv2 & HC) Ht2 _ _ _. split_and!; [done| |done]. exists C, (delete nm m). split; [done|congruence].
Qed.

(** Closing the last handle of a removed file makes all of its sectors, data
    and inode, available again; the named files are as before. *)
Theorem last_close_frees mallocs F s f x ino :
  (forall k, mallocs k = true) -> fsys F s -> counts_ok s -> handle s f x ino -> removed ino = true -> open_cnt ino = 1 ->
  wp (file_close mallocs f) s (fun _ s' =>
    fsys F s' /\ counts_ok s' /\ files s' !! f = None /\ inodes s' !! f_inode x = None /\
    forall k, uses (sector ino) (data ino) k -> bit (free_map s') k = false).
Proof.
  intros Hmalloc (A & m & Hinv & <-) Ht Hh Hr Hc. eapply (wp_file_close mallocs Hmalloc A m); [done..|].
  intros s' (B & Hinv' & HB) Ht' _ [F1 F2 F3 F4 F5]. split_and!; [by exists B, m|done| | |by apply F5].
  - by rewrite F1, lookup_delete_eq.
  - by rewrite F2, Hc.
Qed.

(** ** The device of [Filesys] with its file open twice, and then removed *)

Definition plenty : nat -> bool := fun _ => true.
Definition final {A} (c : M fs A) (s : fs) : fs := match c s with Ok (_, s') => s' | Err _ => s end.

Lemma final_wp {A} (c : M fs A) s (P : fs -> Prop) : wp c s (fun _ s' => P s') -> P (final c s).
Proof. unfold wp, final. by destruct (c s) as [[a s']|]. Qed.

Lemma demo_table_ok : counts_ok demo_created.
Proof.
  split.
  - assert (map_Forall (fun f x => is_Some (inodes demo_created !! f_inode x) /\ 0 <= pos x < 2 ^ 31) (files demo_created)) as H
      by (apply (bool_decide_unpack _); by vm_compute). exact H.
  - assert (map_Forall (fun i ino => open_cnt ino = msum (on i) (files demo_created)) (inodes demo_created)) as H
      by (apply (bool_decide_unpack _); by vm_compute). exact H.
  - assert (map_Forall (fun i ino => deny_write_cnt ino = msum (denies i) (files demo_created)) (inodes demo_created)) as H
      by (apply (bool_decide_unpack _); by vm_compute). exact H.
Qed.

Definition demo_once : fs := final (filesys_open plenty demo_name) demo_created.
Definition demo_twice : fs := final (filesys_open plenty demo_name) demo_once.
Definition demo_gone : fs := final (filesys_remove plenty demo_name) demo_once.

Lemma open_keeps F s : fsys F s -> counts_ok s -> fsys F (final (filesys_open plenty demo_name) s) /\ counts_ok (final (filesys_open plenty demo_name) s).
Proof.
  intros (A & m & Hinv & <-) Ht. apply (final_wp _ _ (fun s' => fsys _ s' /\ counts_ok s')).
  eapply (wp_open_view plenty (fun _ => eq_refl) A m); [done|done|exact demo_name_ok| |].
  - intros s' _ (B & H1 & H2) H3 _. split; [by exists B, m|done].
  - intros f n bs s' _ _ _ (B & H1 & H2) H3 _ _ _ _. split; [by exists B, m|done].
Qed.

Lemma demo_once_ok : fsys demo_files demo_once /\ counts_ok demo_once.
Proof. apply open_keeps; [exact demo_created_fsys|exact demo_table_ok]. Qed.
Lemma demo_twice_ok : fsys demo_files demo_twice /\ counts_ok demo_twice.
Proof. destruct demo_once_ok. by apply open_keeps. Qed.

Lemma demo_gone_ok : fsys (delete demo_name demo_files) demo_gone /\ counts_ok demo_gone.
Proof.
  destruct demo_once_ok as [(A & m & Hinv & HF) Ht]. apply (final_wp _ _ (fun s' => fsys _ s' /\ counts_ok s')).
  eapply (wp_remove_view plenty (fun _ => eq_refl) A m); [done|done|exact demo_name_ok|].
  intros s' (B & H1 & H2) H3 _ _. split; [|done]. exists B, (delete demo_name m). split; [done|congruence].
Qed.


Lemma removed_file_readable_witness :
  wp (filesys_remove plenty demo_name;; file_read plenty 227 20) demo_once (fun out s' =>
    out = take (Z.to_nat 20) (drop (Z.to_nat 0) (replicate 600 0)) /\ fsys (delete demo_name demo_files) s' /\ counts_ok s').
Proof.
  apply (removed_file_readable plenty demo_files demo_once demo_name 227 4 (replicate 600 0) 0 20).
  - reflexivity.
  - exact (proj1 demo_once_ok).
  - exact (proj2 demo_once_ok).
  - exact demo_name_ok.
  - by vm_compute.
Defined.

Definition demo_inode_gone : inode := mk_inode 4 1 true 0 (mk_disk 5 600 INODE_MAGIC).

Lemma last_close_frees_witness :
  wp (file_close plenty 227) demo_gone (fun _ s' =>
    fsys (delete demo_name demo_files) s' /\ counts_ok s' /\ files s' !! 227 = None /\ inodes s' !! 226 = None /\
    forall k, uses 4 (mk_disk 5 600 INODE_MAGIC) k -> bit (free_map s') k = false).
Proof.
  apply (last_close_frees plenty (delete demo_name demo_files) demo_gone 227 (mk_file 226 0 false) demo_inode_gone).
  - reflexivity.
  - exact (proj1 demo_gone_ok).
  - exact (proj2 demo_gone_ok).
  - split; [by vm_compute|by vm_compute|]. cbn. unfold sys_sectors, FREE_MAP_SECTOR, ROOT_DIR_SECTOR. set_solver.
  - reflexivity.
  - reflexivity.
Defined.
