(* ===== verification/Syscall.v ===== *)
(** src/userprog/syscall.c: system calls on files, with the process's table of file
    descriptors and its memory.

    A system call runs for one process, on top of the file system of [Filesys].
    The memory of the process is a partial map from addresses to bytes, with the
    kernel's part above [PHYS_BASE].  An access to an unmapped address is a page
    fault, and src/userprog/exception.c ends the process with status -1: this is how
    [get_user] and the other accesses fail.  [exec], [wait] and [halt] leave the
    file descriptors alone and are returned to the caller; [Process] models the
    first two. *)
From stdpp Require Import base numbers gmap fin_maps list.
From Stdlib Require Import ZArith Lia.
From S2P Require Import Prelude Vaddr Strings Bitmap Inode Directory Filesys.

Open Scope Z_scope.

(** * State *)

(** One entry of [fd_table]. *)
Record fd_list_element : Type := mk_fd { fd : Z; fp : Z }.

(** A byte of memory and whether the processor lets the kernel write it. *)
Record cell : Type := mk_cell { byte : Z; writable : bool }.

Record sys : Type := mk_sys {
  fsystem : fs;
  mem : gmap Z cell;
  fd_table : list fd_list_element;
  fd_table_counter : Z;
  exec_fp : Z;
  read_write_lock : bool;
  console : list Z;
  keys_read : nat
}.

Definition set_fsystem x s := mk_sys x (mem s) (fd_table s) (fd_table_counter s) (exec_fp s) (read_write_lock s) (console s) (keys_read s).
Definition set_mem x s := mk_sys (fsystem s) x (fd_table s) (fd_table_counter s) (exec_fp s) (read_write_lock s) (console s) (keys_read s).
Definition set_fds t n s := mk_sys (fsystem s) (mem s) t n (exec_fp s) (read_write_lock s) (console s) (keys_read s).
Definition set_exec x s := mk_sys (fsystem s) (mem s) (fd_table s) (fd_table_counter s) x (read_write_lock s) (console s) (keys_read s).
Definition set_rw x s := mk_sys (fsystem s) (mem s) (fd_table s) (fd_table_counter s) (exec_fp s) x (console s) (keys_read s).
Definition set_console x s := mk_sys (fsystem s) (mem s) (fd_table s) (fd_table_counter s) (exec_fp s) (read_write_lock s) x (keys_read s).
Definition set_keys x s := mk_sys (fsystem s) (mem s) (fd_table s) (fd_table_counter s) (exec_fp s) (read_write_lock s) (console s) x.

(** System calls return a value or end the process with a status. *)
Inductive ending (A : Type) : Type := Died (status : Z) | Returns (a : A).
Arguments Died {A} _.
Arguments Returns {A} _.

Definition P (A : Type) : Type := sys -> res (ending A * sys).

#[global] Instance P_ret : MRet P := fun A a s => Ok (Returns a, s).
#[global] Instance P_bind : MBind P := fun A B f m s =>
  match m s with
  | Ok (Returns a, s') => f a s'
  | Ok (Died st, s') => Ok (Died st, s')
  | Err e => Err e
  end.

Definition pget : P sys := fun s => Ok (Returns s, s).
Definition pset (f : sys -> sys) : P unit := fun s => Ok (Returns tt, f s).
Definition pfail {A} (e : fail) : P A := fun _ => Err e.
Definition die {A} (status : Z) : P A := fun s => Ok (Died status, s).

(** An operation of the file system. *)
Definition on_fs {A} (m : M fs A) : P A := fun s =>
  match m (fsystem s) with Ok (a, x) => Ok (Returns a, set_fsystem x s) | Err e => Err e end.

Section Calls.
Context (mallocs : nat -> bool) (keys : nat -> Z).

(** ** Exit *)

(** [process_exit]: the files of the process are closed. *)
Fixpoint close_all (fuel : nat) : P unit :=
  match fuel with
  | O => pfail Exhausted
  | S n =>
    s ← pget;
    match fd_table s with
    | [] => mret tt
    | e :: es =>
      pset (set_fds es (fd_table_counter s));;
      on_fs (file_close mallocs (fp e));;
      close_all n
    end
  end.

(** [exit], up to the report to the parent: see [Process.process_exit]. *)
Definition exit {A} (status : Z) : P A :=
  s ← pget;
  close_all (S (length (fd_table s)));;
  (if nonnull (exec_fp s) then on_fs (file_close mallocs (exec_fp s)) else mret tt);;
  die status.

(** exception.c: [page_fault]. *)
Definition page_fault {A} : P A := exit (-1).

(** ** Memory *)

Definition get_user (a : Z) : P Z :=
  s ← pget; match mem s !! a with Some c => mret (byte c) | None => page_fault end.
Definition put_byte (a v : Z) : P unit :=
  s ← pget;
  match mem s !! a with
  | Some c => if writable c then pset (set_mem (<[a := mk_cell (u8 v) true]> (mem s))) else page_fault
  | None => page_fault
  end.

(** A word of four bytes. *)
Definition get_word (a : Z) : P Z :=
  b0 ← get_user a; b1 ← get_user (u32 (a + 1)); b2 ← get_user (u32 (a + 2)); b3 ← get_user (u32 (a + 3));
  mret (b0 + 256 * b1 + 65536 * b2 + 16777216 * b3).

(** The bytes at [a] up to the null byte. *)
Fixpoint get_string (fuel : nat) (a : Z) : P (list Z) :=
  match fuel with
  | O => pfail Exhausted
  | S n => b ← get_user a; if b =? 0 then mret [] else r ← get_string n (u32 (a + 1)); mret (b :: r)
  end.

(** The first [n] bytes at [a], or as many as are mapped. *)
Fixpoint user_bytes (m : gmap Z cell) (n : nat) (a : Z) : list Z :=
  match n with
  | O => []
  | S n => match m !! a with Some c => byte c :: user_bytes m n (u32 (a + 1)) | None => [] end
  end.
Fixpoint put_bytes (bs : list Z) (a : Z) : P unit :=
  match bs with
  | [] => mret tt
  | b :: bs => put_byte a b;; put_bytes bs (u32 (a + 1))
  end.

(** ** File descriptors *)

Fixpoint find_fd (n : Z) (t : list fd_list_element) : option fd_list_element :=
  match t with [] => None | e :: t => if fd e =? n then Some e else find_fd n t end.
Definition find_fd_element (n : Z) : P (option fd_list_element) :=
  s ← pget; mret (find_fd n (fd_table s)).

(** [list_remove] of the element that [find_fd_element] returned. *)
Fixpoint remove_fd (n : Z) (t : list fd_list_element) : list fd_list_element :=
  match t with [] => [] | e :: t => if fd e =? n then t else e :: remove_fd n t end.

(** A null element is written through when there is no memory. *)
Definition add_file_to_fd_table (f : Z) (memory : bool) : P Z :=
  if memory then
    s ← pget;
    let n := fd_table_counter s in
    pset (set_fds (fd_table s ++ [mk_fd n f]) (s32 (n + 1)));;
    mret n
  else page_fault.

(** [lock_acquire (&read_write_lock)]: a process that ended with it never lets go. *)
Definition rw_acquire : P unit :=
  s ← pget; if read_write_lock s then pfail Exhausted else pset (set_rw true).
Definition rw_release : P unit := pset (set_rw false).

Definition open (name : list Z) (memory : bool) : P Z :=
  rw_acquire;;
  f ← on_fs (filesys_open mallocs name);
  rw_release;;
  if nonnull f then add_file_to_fd_table f memory else mret (-1).

Definition filesize_get (n : Z) : P Z :=
  e ← find_fd_element n;
  match e with Some e => on_fs (file_length (fp e)) | None => mret (-1) end.

(** [input_getc] in a loop. *)
Fixpoint read_keys (n : nat) (a : Z) : P unit :=
  match n with
  | O => mret tt
  | S n =>
    s ← pget;
    pset (set_keys (S (keys_read s)));;
    put_byte a (keys (keys_read s));;
    read_keys n (u32 (a + 1))
  end.

Definition read (n buffer size : Z) : P Z :=
  if n =? 0 then read_keys (Z.to_nat size) buffer;; mret (s32 size)
  else if negb (n =? 1) then
    e ← find_fd_element n;
    match e with
    | None => mret (-1)
    | Some e =>
      rw_acquire;;
      bs ← on_fs (file_read mallocs (fp e) (s32 size));
      put_bytes bs buffer;;
      rw_release;;
      mret (Z.of_nat (length bs))
    end
  else mret (-1).

(** [putbuf]. *)
Fixpoint putbuf (n : nat) (a : Z) : P unit :=
  match n with
  | O => mret tt
  | S n =>
    b ← get_user a;
    s ← pget;
    pset (set_console (console s ++ [b]));;
    putbuf n (u32 (a + 1))
  end.

(** How many bytes of its buffer [file_write] reads, and the position it starts at. *)
Definition write_extent (f size : Z) : M fs (Z * Z) :=
  x ← get_file f;
  ino ← get_inode (f_inode x);
  mret (if deny_write_cnt ino =? 0 then Z.max 0 (Z.min size (length_of (data ino) - pos x)) else 0, pos x).

(** The bytes in the sectors that are complete when the buffer ends after [j] bytes. *)
Definition complete (p j : Z) : Z :=
  let first := BLOCK_SECTOR_SIZE - p mod BLOCK_SECTOR_SIZE in
  if j <? first then 0 else first + (j - first) / BLOCK_SECTOR_SIZE * BLOCK_SECTOR_SIZE.

(** [file_write] from user memory: a page fault in the buffer ends the process, with
    the sectors before it written. *)
Definition write_file (f buffer size : Z) : P Z :=
  '(n, p) ← on_fs (write_extent f size);
  s ← pget;
  let bs := user_bytes (mem s) (Z.to_nat n) buffer in
  if Z.of_nat (length bs) =? n then on_fs (file_write mallocs f bs n)
  else on_fs (file_write_at mallocs f bs (complete p (Z.of_nat (length bs))) p);; page_fault.

Definition write (n buffer size : Z) : P Z :=
  if n =? 1 then putbuf (Z.to_nat size) buffer;; mret (s32 size)
  else if negb (n =? 0) && negb (n =? 1) then
    e ← find_fd_element n;
    match e with
    | None => mret (-1)
    | Some e =>
      rw_acquire;;
      k ← write_file (fp e) buffer (s32 size);
      rw_release;;
      mret k
    end
  else mret (-1).

Definition seek (n position : Z) : P Z :=
  e ← find_fd_element n;
  match e with
  | None => mret 0
  | Some e => on_fs (file_seek (fp e) (s32 position));; mret 1
  end.

(** [file_seek] is called with one argument, so the new position is what the stack
    holds, and its result, which it does not have, is what the register holds.
    With no element the file is read through a null pointer, at the offset of [fp]. *)
Definition tell (n stack register : Z) : P Z :=
  e ← find_fd_element n;
  match e with
  | None => get_word 12;; pfail Fault
  | Some e => on_fs (file_seek (fp e) (s32 stack));; mret register
  end.

Definition close (n : Z) : P Z :=
  e ← find_fd_element n;
  match e with
  | None => mret 0
  | Some e =>
    s ← pget;
    pset (set_fds (remove_fd n (fd_table s)) (fd_table_counter s));;
    rw_acquire;;
    on_fs (file_close mallocs (fp e));;
    rw_release;;
    mret 1
  end.

Definition create (name : list Z) (initial_size : Z) (stack : list Z) : P Z :=
  ok ← on_fs (filesys_create mallocs name (s32 initial_size) stack);
  mret (if ok : bool then 1 else 0).

Definition remove (name : list Z) : P Z :=
  ok ← on_fs (filesys_remove mallocs name);
  mret (if ok : bool then 1 else 0).

(** ** The handler *)

(** What the handler leaves in the register, or hands over. *)
Inductive result : Set := Eax (v : Z) | CallExec (name : Z) | CallWait (pid : Z) | PowerOff | NotImplemented (n : Z).

(** What the program and the machine leave to chance: memory for a table entry, the
    uninitialised locals of [dir_add], the missing argument of [tell] and its result. *)
Record chance : Type := mk_chance { memory : bool; stack_entry : list Z; junk : Z; register : Z }.

Definition arg (esp i : Z) : P Z := get_word (u32 (esp + 4 * i)).
Definition int_arg (esp i : Z) : P Z := w ← arg esp i; mret (s32 w).

(** A name: the file system reads it byte by byte, and a byte that is not mapped ends
    the process as the check of the first byte does. *)
Definition name_arg (esp : Z) : P (list Z) :=
  name ← arg esp 1;
  s ← pget;
  if name =? 0 then exit (-1) else get_string (S (size (mem s))) name.

Definition buffer_arg (esp : Z) : P Z :=
  buffer ← arg esp 2;
  if negb (is_user_vaddr buffer) then exit (-1) else get_user buffer;; mret buffer.

Definition SYS_HALT : Z := 0.
Definition SYS_EXIT : Z := 1.
Definition SYS_EXEC : Z := 2.
Definition SYS_WAIT : Z := 3.
Definition SYS_CREATE : Z := 4.
Definition SYS_REMOVE : Z := 5.
Definition SYS_OPEN : Z := 6.
Definition SYS_FILESIZE : Z := 7.
Definition SYS_READ : Z := 8.
Definition SYS_WRITE : Z := 9.
Definition SYS_SEEK : Z := 10.
Definition SYS_TELL : Z := 11.
Definition SYS_CLOSE : Z := 12.

Definition eax (m : P Z) : P result := v ← m; mret (Eax v).

(** The switch of [syscall_handler]. *)
Definition dispatch (esp number : Z) (ch : chance) : P result :=
  if number =? SYS_CREATE then
    name ← name_arg esp; size ← arg esp 2; eax (create name size (stack_entry ch))
  else if number =? SYS_OPEN then name ← name_arg esp; eax (open name (memory ch))
  else if number =? SYS_SEEK then
    n ← int_arg esp 1;
    if n <=? 0 then exit (-1) else position ← arg esp 2; eax (seek n position)
  else if number =? SYS_TELL then
    n ← int_arg esp 1;
    if n <=? 0 then exit (-1) else eax (tell n (junk ch) (register ch))
  else if number =? SYS_CLOSE then
    n ← int_arg esp 1;
    if n <=? 0 then exit (-1) else
      arg esp 2;;
      ok ← close n;
      if ok =? 0 then exit (-1) else mret (Eax ok)
  else if number =? SYS_READ then
    n ← int_arg esp 1;
    buffer ← buffer_arg esp;
    size ← arg esp 3;
    k ← read n buffer size;
    if k =? -1 then exit (-1) else mret (Eax k)
  else if number =? SYS_WRITE then
    n ← int_arg esp 1;
    buffer ← buffer_arg esp;
    size ← arg esp 3;
    k ← write n buffer size;
    if k =? -1 then exit (-1) else mret (Eax k)
  else if number =? SYS_FILESIZE then n ← int_arg esp 1; eax (filesize_get n)
  else if number =? SYS_REMOVE then name ← name_arg esp; eax (remove name)
  else if number =? SYS_EXIT then n ← int_arg esp 1; exit n
  else if number =? SYS_EXEC then name ← arg esp 1; mret (CallExec name)
  else if number =? SYS_WAIT then n ← int_arg esp 1; mret (CallWait n)
  else if number =? SYS_HALT then mret PowerOff
  else mret (NotImplemented number).

Definition syscall_handler (esp : Z) (ch : chance) : P result :=
  if negb (is_user_vaddr esp) then exit (-1)
  else
    get_user esp;;
    number ← get_word esp;
    if negb (is_user_vaddr (u32 (esp + 4)) && is_user_vaddr (u32 (esp + 8)) && is_user_vaddr (u32 (esp + 12)))
    then exit (-1)
    else dispatch esp number ch.
End Calls.
