(* ===== verification/SyscallInv.v ===== *)
(** The system calls of [Syscall]: what they do on every branch.

    The invariant [sys_ok] relates the descriptor table to the open files of
    [Files].  Each call has a rule in the style of [wp]; the claims say that no
    system call fails in the kernel, whatever pointers it is given, that ending a
    process closes exactly its files, and what opening, reading, writing and
    closing do to the files and the memory of the process. *)
From stdpp Require Import base numbers gmap fin_maps list.
From Stdlib Require Import ZArith Lia.
From S2P Require Import Prelude Vaddr Strings Bitmap Inode Layout Directory Filesys Files Syscall.

Open Scope Z_scope.

(** * Reasoning *)

(** [pwp m s Q]: running [m] from [s] ends with no failure of the kernel, in an ending
    and a state that satisfy [Q]. *)
Definition pwp {A} (m : P A) (s : sys) (Q : ending A -> sys -> Prop) : Prop :=
  match m s with Ok (r, s') => Q r s' | Err _ => False end.

(** The postcondition of the first part of a sequence. *)
Definition continue {A B} (Q : ending B -> sys -> Prop) (f : A -> P B) (r : ending A) (s : sys) : Prop :=
  match r with Returns a => pwp (f a) s Q | Died st => Q (Died st) s end.

Section Rules.
Implicit Types s : sys.

Lemma pwp_unfold {A} (m : P A) s Q : pwp m s Q <-> exists r s', m s = Ok (r, s') /\ Q r s'.
Proof.
  unfold pwp. destruct (m s) as [[r s']|e]; [|naive_solver]. split; [eauto|]. by intros (? & ? & [= <- <-] & ?).
Qed.

Lemma pwp_ret {A} (a : A) s Q : Q (Returns a) s -> pwp (mret a) s Q.
Proof. done. Qed.

Lemma pwp_bind {A B} (m : P A) (f : A -> P B) s Q : pwp m s (continue Q f) -> pwp (m ≫= f) s Q.
Proof. unfold pwp, mbind, P_bind, continue. by destruct (m s) as [[[st|a] s']|e]. Qed.

Lemma pwp_get s (Q : ending sys -> sys -> Prop) : Q (Returns s) s -> pwp pget s Q.
Proof. done. Qed.
Lemma pwp_set f s (Q : ending unit -> sys -> Prop) : Q (Returns tt) (f s) -> pwp (pset f) s Q.
Proof. done. Qed.

Lemma pwp_mono {A} (m : P A) s (Q R : ending A -> sys -> Prop) :
  pwp m s Q -> (forall r s', Q r s' -> R r s') -> pwp m s R.
Proof. unfold pwp. destruct (m s) as [[r s']|]; eauto. Qed.

Lemma pwp_fs {A} (m : M fs A) s (Q : ending A -> sys -> Prop) :
  wp m (fsystem s) (fun a x => Q (Returns a) (set_fsystem x s)) -> pwp (on_fs m) s Q.
Proof. unfold pwp, on_fs, wp. by destruct (m (fsystem s)) as [[a x]|]. Qed.
End Rules.

(** * The invariant *)

(** The open files of the process: those in its table and its executable. *)
Definition open_files (s : sys) : list Z :=
  (fp <$> fd_table s) ++ (if nonnull (exec_fp s) then [exec_fp s] else []).

(** The files [X] are open in the file system [x], each once. *)
Record files_ok (X : list Z) (x : fs) : Prop := {
  fo_table : counts_ok x;
  fo_nodup : NoDup X;
  fo_view : forall f, f ∈ X -> is_Some (view x f)
}.

(** The memory has bytes, and the first page is not mapped. *)
Definition mem_ok (m : gmap Z cell) : Prop :=
  forall a c, m !! a = Some c -> 0 <= byte c < 256 /\ PGSIZE <= a < 2 ^ 32.

Record sys_ok (s : sys) : Prop := {
  so_fs : exists m F, fsys_at m F (fsystem s);
  so_files : files_ok (open_files s) (fsystem s);
  so_fds : NoDup (fd <$> fd_table s);
  so_range : forall e, e ∈ fd_table s -> 2 <= fd e < fd_table_counter s;
  so_counter : 2 <= fd_table_counter s < 2 ^ 31;
  so_mem : mem_ok (mem s);
  so_lock : read_write_lock s = false
}.

(** From [x] to [x'] the files [X] were closed. *)
Record closed (X : list Z) (x x' : fs) : Prop := {
  cl_table : counts_ok x';
  cl_views : views_kept X x x';
  cl_files : forall g, files x' !! g = if decide (g ∈ X) then None else files x !! g
}.

(** The process that had the files [X] open in [x] has ended in [s']. *)
Record buried m F (X : list Z) (x : fs) (s' : sys) : Prop := {
  bu_fs : fsys_at m F (fsystem s');
  bu_closed : closed X x (fsystem s');
  bu_fds : fd_table s' = []
}.

Section Table.
Implicit Types (s : sys) (m : gmap (list Z) Z) (F : gmap (list Z) (list Z)) (f : Z).

Lemma closed_trans X Y x x1 x2 : closed X x x1 -> closed Y x1 x2 -> closed (X ++ Y) x x2.
Proof.
  intros [A1 A2 A3] [B1 B2 B3]. split; [done| |].
  - intros g v Hg Hv. apply B2; [set_solver|]. apply A2; [set_solver|done].
  - intros g. rewrite B3, A3. repeat case_decide; set_solver.
Qed.

(** The word at [a]. *)
Definition peek (mm : gmap Z cell) (a : Z) : option Z :=
  c0 ← mm !! a; c1 ← mm !! u32 (a + 1); c2 ← mm !! u32 (a + 2); c3 ← mm !! u32 (a + 3);
  Some (byte c0 + 256 * byte c1 + 65536 * byte c2 + 16777216 * byte c3).

Lemma peek_range mm a w : mem_ok mm -> peek mm a = Some w -> 0 <= w < 2 ^ 32.
Proof.
  intros Hm Hp. unfold peek in Hp. destruct (mm !! a) as [c0|] eqn:E0; [|done]. cbn in Hp.
  destruct (mm !! u32 (a + 1)) as [c1|] eqn:E1; [|done]. cbn in Hp. destruct (mm !! u32 (a + 2)) as [c2|] eqn:E2; [|done]. cbn in Hp.
  destruct (mm !! u32 (a + 3)) as [c3|] eqn:E3; [|done]. injection Hp as <-.
  pose proof (Hm _ _ E0). pose proof (Hm _ _ E1). pose proof (Hm _ _ E2). pose proof (Hm _ _ E3). lia.
Qed.

(** The null-terminated string at [a]. *)
Fixpoint string_at (mm : gmap Z cell) (a : Z) (str : list Z) : Prop :=
  match str with
  | [] => byte <$> mm !! a = Some 0
  | b :: r => byte <$> mm !! a = Some b /\ b ≠ 0 /\ string_at mm (u32 (a + 1)) r
  end.

Lemma string_at_fun mm a str str' : string_at mm a str -> string_at mm a str' -> str = str'.
Proof.
  revert a str'. induction str as [|b r IH]; intros a [|b' r']; simpl; [done|naive_solver congruence..|].
  intros (H1 & H2 & H3) (H1' & H2' & H3'). f_equal; [congruence|eauto].
Qed.

Lemma string_at_ok mm a str : mem_ok mm -> string_at mm a str -> name_ok str.
Proof.
  intros Hm. revert a. induction str as [|b r IH]; intros a; simpl; [constructor|].
  intros (H1 & H2 & H3). constructor; [|by eapply IH]. apply fmap_Some in H1 as (c & Hc & ->). destruct (Hm _ _ Hc). lia.
Qed.

(** The memory after [bs] is stored at [a]. *)
Fixpoint poked (bs : list Z) (a : Z) (mm : gmap Z cell) : gmap Z cell :=
  match bs with [] => mm | b :: bs => poked bs (u32 (a + 1)) (<[a := mk_cell (u8 b) true]> mm) end.

(** The [n] bytes at [a] can be written. *)
Fixpoint writable_at (mm : gmap Z cell) (n : nat) (a : Z) : bool :=
  match n with
  | O => true
  | S n => match mm !! a with Some c => writable c && writable_at mm n (u32 (a + 1)) | None => false end
  end.

Definition is_byte (b : Z) : Prop := 0 <= b < 256.

Lemma mem_ok_insert mm a c b : mem_ok mm -> mm !! a = Some c -> mem_ok (<[a := mk_cell (u8 b) true]> mm).
Proof.
  intros Hm Ha a' c' [[<- <-]|[_ Hc]]%lookup_insert_Some; [|by apply Hm]. split; [|apply (Hm _ _ Ha)].
  cbn. unfold u8. apply Z.mod_pos_bound. lia.
Qed.

Lemma writable_insert mm a c b n a' :
  mm !! a = Some c -> writable c = true -> writable_at (<[a := mk_cell (u8 b) true]> mm) n a' = writable_at mm n a'.
Proof.
  intros Ha Hw. revert a'. induction n as [|n IH]; intros a'; simpl; [done|]. rewrite IH.
  destruct (decide (a' = a)) as [->|Hne]; [by rewrite lookup_insert_eq, Ha, Hw|by rewrite lookup_insert_ne].
Qed.

(** ** Descriptors *)

Lemma find_fd_Some n t e : find_fd n t = Some e -> e ∈ t /\ fd e = n.
Proof.
  induction t as [|x t IH]; simpl; [done|]. destruct (Z.eqb_spec (fd x) n) as [E|E]; [intros [= <-]; set_solver|set_solver].
Qed.

Lemma find_fd_None n t : find_fd n t = None -> n ∉ fd <$> t.
Proof.
  induction t as [|x t IH]; simpl; [set_solver|]. destruct (Z.eqb_spec (fd x) n) as [E|E]; [done|set_solver].
Qed.

Lemma find_fd_elem t e : NoDup (fd <$> t) -> e ∈ t -> find_fd (fd e) t = Some e.
Proof.
  induction t as [|x t IH]; simpl; [set_solver|]. intros [Hx Hnd]%NoDup_cons [->|He]%elem_of_cons; [by rewrite Z.eqb_refl|].
  destruct (Z.eqb_spec (fd x) (fd e)) as [E|E]; [|by apply IH]. exfalso. apply Hx. rewrite E. by apply list_elem_of_fmap_2.
Qed.

Lemma remove_fd_perm n t e : find_fd n t = Some e -> t ≡ₚ e :: remove_fd n t.
Proof.
  induction t as [|x t IH]; simpl; [done|]. destruct (Z.eqb_spec (fd x) n) as [E|E]; [by intros [= <-]|].
  intros H. rewrite (IH H) at 1. apply Permutation_swap.
Qed.

Lemma find_fd_remove n t k : NoDup (fd <$> t) -> find_fd k (remove_fd n t) = if k =? n then None else find_fd k t.
Proof.
  intros Hnd. induction t as [|x t IH]; simpl; [by destruct (k =? n)|]. apply NoDup_cons in Hnd as [Hx Hnd].
  destruct (Z.eqb_spec (fd x) n) as [En|E].
  - rewrite En in *. destruct (Z.eqb_spec k n) as [->|Hk].
    + destruct (find_fd n t) as [e|] eqn:Ee; [|done]. apply find_fd_Some in Ee as [He <-]. exfalso. by apply Hx, list_elem_of_fmap_2.
    + by rewrite (proj2 (Z.eqb_neq n k)) by done.
  - simpl. rewrite (IH Hnd). destruct (Z.eqb_spec (fd x) k) as [<-|Hk]; [|done]. by rewrite (proj2 (Z.eqb_neq _ _)).
Qed.

(** What the process sees of the file with descriptor [n]. *)
Definition fd_view (s : sys) (n : Z) : option (Z * list Z * Z) :=
  e ← find_fd n (fd_table s); view (fsystem s) (fp e).

Lemma sys_ok_fs m F s s' :
  sys_ok s -> fsys_at m F (fsystem s') -> counts_ok (fsystem s') ->
  (forall f, f ∈ open_files s -> is_Some (view (fsystem s') f)) ->
  fd_table s' = fd_table s -> fd_table_counter s' = fd_table_counter s -> exec_fp s' = exec_fp s ->
  mem_ok (mem s') -> read_write_lock s' = false -> sys_ok s'.
Proof.
  intros [S1 [S2 S3 S4] S5 S6 S7 S8 S9] H1 H2 H3 H4 H5 H6 H7 H8.
  assert (open_files s' = open_files s) as E by (unfold open_files; by rewrite H4, H6).
  split; rewrite ?E, ?H4, ?H5; try done. by exists m, F.
Qed.

Lemma views_some (X Y : list Z) x x' :
  views_kept X x x' -> (forall f, f ∈ X -> is_Some (view x' f)) -> (forall f, f ∈ Y -> is_Some (view x f)) ->
  forall f, f ∈ Y -> is_Some (view x' f).
Proof.
  intros Hk HX HY f Hf. destruct (decide (f ∈ X)) as [?|Hn]; [by apply HX|]. destruct (HY f Hf) as [v Hv]. exists v. by apply Hk.
Qed.

Lemma fd_open s n e : find_fd n (fd_table s) = Some e -> fp e ∈ open_files s.
Proof. intros [He _]%find_fd_Some. apply elem_of_app. left. by apply list_elem_of_fmap_2. Qed.

(** Descriptors with different files, or with files that are kept, are seen as before. *)
Lemma fd_view_kept X s s' k :
  sys_ok s -> views_kept X (fsystem s) (fsystem s') -> fd_table s' = fd_table s ->
  (forall e, find_fd k (fd_table s) = Some e -> fp e ∉ X) -> fd_view s' k = fd_view s k.
Proof.
  intros Hok Hk Et Hn. unfold fd_view. rewrite Et. destruct (find_fd k (fd_table s)) as [e|] eqn:E; [|done]. cbn.
  destruct (fo_view _ _ (so_files _ Hok) (fp e)) as [v Hv]; [by eapply fd_open|]. rewrite Hv. apply Hk; [by apply Hn|done].
Qed.

Lemma fp_inj s k n e e' :
  sys_ok s -> find_fd k (fd_table s) = Some e -> find_fd n (fd_table s) = Some e' -> fp e = fp e' -> k = n.
Proof.
  intros Hok [He <-]%find_fd_Some [He' <-]%find_fd_Some E.
  pose proof (fo_nodup _ _ (so_files _ Hok)) as (Hnd & _ & _)%NoDup_app.
  apply list_elem_of_lookup in He as [i Hi], He' as [j Hj].
  assert (i = j) as ->; [|by simplify_eq]. eapply (NoDup_lookup (fp <$> fd_table s)); [done|by rewrite list_lookup_fmap, Hi|].
  by rewrite list_lookup_fmap, Hj, E.
Qed.

Lemma find_fd_app n t e : find_fd n (t ++ [e]) = match find_fd n t with Some x => Some x | None => if fd e =? n then Some e else None end.
Proof. induction t as [|x t IH]; simpl; [done|]. by destruct (fd x =? n). Qed.

(** A new entry at the end of the table. *)
Lemma sys_ok_push m F s s' f :
  sys_ok s -> fsys_at m F (fsystem s') -> counts_ok (fsystem s') -> views_kept [] (fsystem s) (fsystem s') ->
  is_Some (view (fsystem s') f) -> f ∉ open_files s -> fd_table_counter s < 2 ^ 31 - 1 ->
  fd_table s' = fd_table s ++ [mk_fd (fd_table_counter s) f] -> fd_table_counter s' = fd_table_counter s + 1 ->
  exec_fp s' = exec_fp s -> mem s' = mem s -> read_write_lock s' = false -> sys_ok s'.
Proof.
  intros [S1 [S2 S3 S4] S5 S6 S7 S8 S9] H1 H2 H3 H4 Hf Hc H5 H6 H7 H8 H9.
  assert (open_files s' ≡ₚ f :: open_files s) as E.
  { unfold open_files. rewrite H5, H7, fmap_app. cbn. rewrite <-app_assoc. symmetry. apply Permutation_middle. }
  split; rewrite ?H5, ?H6, ?H8; try done; [by exists m, F| | | |lia].
  - split; [done|rewrite E; by apply NoDup_cons|]. intros g. rewrite E. intros [->|Hg]%elem_of_cons; [done|].
    eapply views_some; [done| |done|done]. intros ? []%not_elem_of_nil.
  - rewrite fmap_app. cbn. apply NoDup_app. split_and!; [done| |apply NoDup_singleton].
    intros n (e & -> & He)%list_elem_of_fmap ?%list_elem_of_singleton. pose proof (S6 e He). lia.
  - intros e [He| ->%list_elem_of_singleton]%elem_of_app; [pose proof (S6 e He)|cbn]; lia.
Qed.

(** The process of [s] has ended: its files, and no others, are closed. *)
Definition gone (s s' : sys) : Prop :=
  (exists m F, fsys_at m F (fsystem s')) /\ counts_ok (fsystem s') /\ fd_table s' = [] /\
  forall g, is_Some (files (fsystem s') !! g) <-> is_Some (files (fsystem s) !! g) /\ g ∉ open_files s.

Lemma buried_gone m F s x s' : same_open (fsystem s) x -> buried m F (open_files s) x s' -> gone s s'.
Proof.
  intros Hsame [H1 [H2 H3 H4] H5]. split_and!; [by exists m, F|done|done|]. intros g. rewrite H4, <-(same_open_is_Some _ _ g Hsame). case_decide; [|naive_solver].
  split; [by intros [? ?]|naive_solver].
Qed.

Lemma same_open_refl x : same_open x x.
Proof. done. Qed.

Lemma fd_view_Some s n i bs p :
  fd_view s n = Some (i, bs, p) <-> exists e, find_fd n (fd_table s) = Some e /\ view (fsystem s) (fp e) = Some (i, bs, p).
Proof. unfold fd_view. destruct (find_fd n (fd_table s)) as [e|]; cbn; naive_solver. Qed.

Lemma fd_view_None s n : sys_ok s -> fd_view s n = None -> find_fd n (fd_table s) = None.
Proof.
  intros Hok. unfold fd_view. destruct (find_fd n (fd_table s)) as [e|] eqn:E; [|done]. cbn.
  destruct (fo_view _ _ (so_files _ Hok) (fp e)) as [v Hv]; [by eapply fd_open|congruence].
Qed.

(** Only the file of descriptor [n] was used. *)
Lemma sys_ok_used m F s s' n e :
  sys_ok s -> find_fd n (fd_table s) = Some e -> fsys_at m F (fsystem s') -> counts_ok (fsystem s') ->
  views_kept [fp e] (fsystem s) (fsystem s') -> is_Some (view (fsystem s') (fp e)) ->
  fd_table s' = fd_table s -> fd_table_counter s' = fd_table_counter s -> exec_fp s' = exec_fp s ->
  mem_ok (mem s') -> read_write_lock s' = false ->
  sys_ok s' /\ fd_view s' n = view (fsystem s') (fp e) /\ forall k, k ≠ n -> fd_view s' k = fd_view s k.
Proof.
  intros Hok He H1 H2 H3 H4 H5 H6 H7 H8 H9. split_and!.
  - eapply (sys_ok_fs m F s); try done. eapply views_some; [done| |apply (so_files _ Hok)]. by intros f ->%list_elem_of_singleton.
  - unfold fd_view. by rewrite H5, He.
  - intros k Hk. apply (fd_view_kept [fp e]); [done..|]. intros e' He' E%list_elem_of_singleton. by apply Hk, (fp_inj s k n e' e).
Qed.

(** ** write *)

Lemma complete_bound p j : 0 <= p -> 0 <= j -> 0 <= complete p j <= j.
Proof.
  intros Hp Hj. unfold complete, BLOCK_SECTOR_SIZE. pose proof (Z.mod_pos_bound p 512). set (first := 512 - p mod 512) in *.
  destruct (Z.ltb_spec j first) as [?|Hle]; [lia|]. pose proof (Z.div_mod (j - first) 512) as E.
  pose proof (Z.mod_pos_bound (j - first) 512). lia.
Qed.

(** The bytes of the buffer that [file_write] reads. *)
Definition extent (deny : bool) (size len p : Z) : Z := if deny then 0 else Z.max 0 (Z.min size (len - p)).

Lemma user_bytes_length mm n a : (length (user_bytes mm n a) <= n)%nat.
Proof. revert a. induction n as [|n IH]; intros a; simpl; [lia|]. destruct (mm !! a); simpl; [specialize (IH (u32 (a + 1))); lia|lia]. Qed.

(** The view of a descriptor when the contents of inode [i] become [bs]. *)
Definition rewrite_view (i : Z) (bs : list Z) (v : Z * list Z * Z) : Z * list Z * Z :=
  let '(j, cs, q) := v in (j, if decide (j = i) then bs else cs, q).

Lemma sys_ok_written m F s s' n e i bs' p' :
  sys_ok s -> find_fd n (fd_table s) = Some e -> fsys_at m F (fsystem s') -> counts_ok (fsystem s') ->
  views_written [fp e] i bs' (fsystem s) (fsystem s') -> view (fsystem s') (fp e) = Some (i, bs', p') ->
  fd_table s' = fd_table s -> fd_table_counter s' = fd_table_counter s -> exec_fp s' = exec_fp s ->
  mem s' = mem s -> read_write_lock s' = false ->
  sys_ok s' /\ fd_view s' n = Some (i, bs', p') /\ forall k, k ≠ n -> fd_view s' k = rewrite_view i bs' <$> fd_view s k.
Proof.
  intros Hok He H1 H2 H3 H4 H5 H6 H7 H8 H9. pose proof Hok as [_ [_ _ S4] _ _ _ S8 _]. split_and!.
  - eapply (sys_ok_fs m F s); try done; [|by rewrite H8]. intros f Hf. destruct (decide (f = fp e)) as [->|Hne]; [by eexists|].
    destruct (S4 f Hf) as [[[j cs] q] Hv]. eexists. apply H3; [set_solver|done].
  - unfold fd_view. by rewrite H5, He.
  - intros k Hk. unfold fd_view. rewrite H5. destruct (find_fd k (fd_table s)) as [e'|] eqn:E; [|done]. cbn.
    destruct (S4 (fp e')) as [[[j cs] q] Hv]; [by eapply fd_open|]. rewrite Hv. cbn. apply H3; [|done].
    intros Eq%list_elem_of_singleton. by apply Hk, (fp_inj s k n e' e).
Qed.

(** ** close *)

Lemma sys_ok_pop m F s s' n e :
  sys_ok s -> find_fd n (fd_table s) = Some e -> fsys_at m F (fsystem s') -> closed [fp e] (fsystem s) (fsystem s') ->
  fd_table s' = remove_fd n (fd_table s) -> fd_table_counter s' = fd_table_counter s -> exec_fp s' = exec_fp s ->
  mem s' = mem s -> read_write_lock s' = false ->
  sys_ok s' /\ fd_view s' n = None /\ forall k, k ≠ n -> fd_view s' k = fd_view s k.
Proof.
  intros Hok He H1 [C1 C2 C3] H5 H6 H7 H8 H9. pose proof Hok as [S1 [S2 S3 S4] S5 S6 S7 S8 S9].
  pose proof (remove_fd_perm _ _ _ He) as Hp. rewrite <-H5 in Hp.
  assert (open_files s ≡ₚ fp e :: open_files s') as E by (unfold open_files; by rewrite H7, Hp).
  rewrite E in S3. apply NoDup_cons in S3 as [Hne Hnd].
  split_and!; [split; try done| |].
  - by exists m, F.
  - split; [done..|]. intros f Hf. destruct (S4 f) as [v Hv]; [rewrite E; by right|]. exists v. apply C2; [|done].
    intros ->%list_elem_of_singleton. done.
  - rewrite Hp in S5. by apply NoDup_cons in S5 as [_ ?].
  - rewrite H6. intros e' He'. apply S6. rewrite Hp. by right.
  - by rewrite H6.
  - by rewrite H8.
  - unfold fd_view. by rewrite H5, find_fd_remove, Z.eqb_refl.
  - intros k Hk. unfold fd_view. rewrite H5, find_fd_remove by done. rewrite (proj2 (Z.eqb_neq k n)) by done.
    destruct (find_fd k (fd_table s)) as [e'|] eqn:E'; [|done]. cbn. destruct (S4 (fp e')) as [v Hv]; [by eapply fd_open|].
    rewrite Hv. apply C2; [|done]. intros Eq%list_elem_of_singleton. by apply Hk, (fp_inj s k n e' e).
Qed.
End Table.

Section Exit.
Context (mallocs : nat -> bool) (Hmalloc : forall n, mallocs n = true).
Implicit Types (s : sys) (m : gmap (list Z) Z) (F : gmap (list Z) (list Z)) (f : Z).

Lemma pwp_file_close m F s f (Q : ending unit -> sys -> Prop) :
  fsys_at m F (fsystem s) -> counts_ok (fsystem s) -> is_Some (view (fsystem s) f) ->
  (forall x, fsys_at m F x -> closed [f] (fsystem s) x -> Q (Returns tt) (set_fsystem x s)) ->
  pwp (on_fs (file_close mallocs f)) s Q.
Proof.
  intros (A & Hinv & <-) Ht [[[n bs] p] Hv] HQ. destruct (view_handle _ _ _ _ _ Hv) as (x & ino & Hh & _).
  apply pwp_fs. eapply wp_file_close; [done..|]. intros s' Hs Ht' Hvs Hcl. apply HQ; [done|]. split; [done..|].
  intros g. rewrite (fc_files _ _ _ _ _ Hcl). case_decide as Hg.
  - apply list_elem_of_singleton in Hg as ->. by rewrite lookup_delete_eq.
  - rewrite lookup_delete_ne; [done|]. intros ->. set_solver.
Qed.

Lemma pwp_close_all m F es : forall s fuel (Q : ending unit -> sys -> Prop),
  fd_table s = es -> (length es < fuel)%nat ->
  fsys_at m F (fsystem s) -> counts_ok (fsystem s) -> NoDup (fp <$> es) ->
  (forall e, e ∈ es -> is_Some (view (fsystem s) (fp e))) ->
  (forall s', fsys_at m F (fsystem s') -> closed (fp <$> es) (fsystem s) (fsystem s') -> fd_table s' = [] -> Q (Returns tt) s') ->
  pwp (close_all mallocs fuel) s Q.
Proof.
  induction es as [|e es IH]; intros s [|fuel] Q Hes Hf Hs Ht Hnd Hv HQ; simpl in Hf; try lia.
  - apply pwp_bind, pwp_get. cbn. rewrite Hes. apply pwp_ret, HQ; [done| |done]. split; [done| |done]. by intros g v _.
  - apply pwp_bind, pwp_get. cbn. rewrite Hes. apply pwp_bind, pwp_set. cbn [continue]. apply pwp_bind.
    apply NoDup_cons in Hnd as [Hne Hnd].
    eapply (pwp_file_close m F); [done|done|apply Hv; set_solver|]. cbn [continue].
    intros x Hx Hcl. apply (IH _ fuel Q); [done|lia|done|apply Hcl|done| |].
    + intros e' He'. destruct (Hv e') as [v Hv']; [set_solver|]. exists v. apply (cl_views _ _ _ Hcl); [|done].
      intros E%list_elem_of_singleton. apply Hne. rewrite <-E. by apply list_elem_of_fmap_2.
    + intros s2 Hs2 Hcl2 Ht2. apply HQ; [done| |done].
      exact (closed_trans [fp e] (fp <$> es) (fsystem s) x (fsystem s2) Hcl Hcl2).
Qed.

Lemma pwp_exit {A} m F s st (Q : ending A -> sys -> Prop) :
  fsys_at m F (fsystem s) -> files_ok (open_files s) (fsystem s) ->
  (forall s', buried m F (open_files s) (fsystem s) s' -> Q (Died st) s') ->
  pwp (exit mallocs st) s Q.
Proof.
  intros Hs [Ht Hnd Hv] HQ. unfold open_files in *. apply NoDup_app in Hnd as (Hnd1 & Hdisj & Hnd2).
  apply pwp_bind, pwp_get. cbn [continue]. apply pwp_bind.
  eapply (pwp_close_all m F (fd_table s)); [done|lia|done|done|done| |].
  { intros e He. apply Hv, elem_of_app. left. by apply list_elem_of_fmap_2. }
  intros s1 Hs1 Hcl1 Ht1. cbn [continue]. apply pwp_bind. destruct (nonnull (exec_fp s)) eqn:En.
  - eapply (pwp_file_close m F); [done|apply Hcl1| |].
    { destruct (Hv (exec_fp s)) as [v Hv']; [set_solver|]. exists v. apply (cl_views _ _ _ Hcl1); [|done]. intros Hin. apply (Hdisj _ Hin). set_solver. }
    cbn [continue]. intros x Hx Hcl2. apply HQ. split; [done|by eapply closed_trans|done].
  - apply pwp_ret, HQ. split; [done|by rewrite app_nil_r|done].
Qed.

(** ** Memory accesses *)

Section Access.
Context (m : gmap (list Z) Z) (F : gmap (list Z) (list Z)).
Context (s : sys) (Hs : fsys_at m F (fsystem s)) (Hf : files_ok (open_files s) (fsystem s)).

Lemma pwp_get_user a (Q : ending Z -> sys -> Prop) :
  (forall c, mem s !! a = Some c -> Q (Returns (byte c)) s) ->
  (forall s', buried m F (open_files s) (fsystem s) s' -> Q (Died (-1)) s') -> pwp (get_user mallocs a) s Q.
Proof.
  intros HQ HD. apply pwp_bind, pwp_get. cbn. destruct (mem s !! a) as [c|] eqn:E; [by apply pwp_ret, HQ|].
  by eapply pwp_exit.
Qed.

Lemma pwp_get_word a (Q : ending Z -> sys -> Prop) :
  (forall w, peek (mem s) a = Some w -> Q (Returns w) s) ->
  (forall s', buried m F (open_files s) (fsystem s) s' -> Q (Died (-1)) s') -> pwp (get_word mallocs a) s Q.
Proof.
  intros HQ HD. unfold peek in HQ.
  apply pwp_bind, pwp_get_user; [|exact HD]. intros c0 E0. rewrite E0 in HQ.
  apply pwp_bind, pwp_get_user; [|exact HD]. intros c1 E1. cbn in HQ. rewrite E1 in HQ.
  apply pwp_bind, pwp_get_user; [|exact HD]. intros c2 E2. cbn in HQ. rewrite E2 in HQ.
  apply pwp_bind, pwp_get_user; [|exact HD]. intros c3 E3. cbn in HQ. rewrite E3 in HQ.
  by apply pwp_ret, HQ.
Qed.

(** [mm] is the part of the memory from [a] on. *)
Lemma pwp_get_string fuel : forall (mm : gmap Z cell) a (Q : ending (list Z) -> sys -> Prop),
  mem_ok (mem s) -> (0 < fuel)%nat ->
  mem s !! a = None \/ ((size mm < fuel)%nat /\ forall b, a <= b -> mm !! b = mem s !! b) ->
  (forall str, string_at (mem s) a str -> Q (Returns str) s) ->
  (forall s', buried m F (open_files s) (fsystem s) s' -> Q (Died (-1)) s') -> pwp (get_string mallocs fuel a) s Q.
Proof.
  induction fuel as [|fuel IH]; intros mm a Q Hm Hpos Hmm HQ HD; [lia|].
  apply pwp_bind, pwp_get_user; [|exact HD]. intros c Hc. destruct Hmm as [?|[Hsz Hmm]]; [congruence|]. cbn [continue].
  destruct (Z.eqb_spec (byte c) 0) as [E|E].
  { apply pwp_ret, HQ. simpl. by rewrite Hc, <-E. }
  assert (mm !! a = Some c) as Ha by (rewrite Hmm by lia; done). destruct (Hm a c Hc) as [_ Hab].
  assert (size (delete a mm) < fuel)%nat as Hsz' by (rewrite map_size_delete_Some by (by eexists); 
    assert (size mm ≠ 0)%nat by (intros E0; apply map_size_empty_inv in E0; by rewrite E0 in Ha); lia).
  apply pwp_bind. apply (IH (delete a mm)); [done|lia| | |exact HD].
  - destruct (decide (a + 1 = 2 ^ 32)) as [Ea|Ea].
    + left. rewrite Ea. change (u32 (2 ^ 32)) with 0. destruct (mem s !! 0) as [c0|] eqn:E0; [|done].
      destruct (Hm _ _ E0). change PGSIZE with 4096 in *. lia.
    + right. unfold u32. change PGSIZE with 4096 in *. rewrite Z.mod_small by lia. split; [done|]. intros b Hb. rewrite lookup_delete_ne by lia. apply Hmm. lia.
  - intros str Hstr. apply pwp_ret, HQ. simpl. rewrite Hc. done.
Qed.
End Access.

Lemma pwp_put_byte m F s a b (Q : ending unit -> sys -> Prop) :
  fsys_at m F (fsystem s) -> files_ok (open_files s) (fsystem s) ->
  (forall c, mem s !! a = Some c -> writable c = true -> Q (Returns tt) (set_mem (<[a := mk_cell (u8 b) true]> (mem s)) s)) ->
  (writable_at (mem s) 1 a = false -> forall s', buried m F (open_files s) (fsystem s) s' -> Q (Died (-1)) s') ->
  pwp (put_byte mallocs a b) s Q.
Proof.
  intros Hs Hf HQ HD. simpl in HD. apply pwp_bind, pwp_get. cbn. destruct (mem s !! a) as [c|] eqn:E; [|by eapply pwp_exit; [..|apply HD]].
  destruct (writable c) eqn:Ew; [apply pwp_set; by apply (HQ c)|]. by eapply pwp_exit; [..|apply HD].
Qed.

Lemma pwp_put_bytes m F bs : forall s a (Q : ending unit -> sys -> Prop),
  fsys_at m F (fsystem s) -> files_ok (open_files s) (fsystem s) -> mem_ok (mem s) ->
  (writable_at (mem s) (length bs) a = true -> mem_ok (poked bs a (mem s)) -> Q (Returns tt) (set_mem (poked bs a (mem s)) s)) ->
  (writable_at (mem s) (length bs) a = false -> forall s', buried m F (open_files s) (fsystem s) s' -> Q (Died (-1)) s') ->
  pwp (put_bytes mallocs bs a) s Q.
Proof.
  induction bs as [|b bs IH]; intros s a Q Hs Hf Hm HQ HD; simpl in HQ, HD.
  { apply pwp_ret. specialize (HQ eq_refl Hm). by destruct s. }
  apply pwp_bind. eapply pwp_put_byte; [done|done| |].
  - intros c Hc Hw. rewrite Hc, Hw in HQ, HD. cbn [continue].
    eapply IH; [done|done|by eapply mem_ok_insert| |]; cbn [mem set_mem]; rewrite (writable_insert _ _ c) by done.
    + exact HQ.
    + exact HD.
  - simpl. intros Hw. cbn [continue]. apply HD. destruct (mem s !! a) as [c|]; [|done]. by destruct (writable c).
Qed.

Lemma pwp_read_keys m F keys n : forall s a (Q : ending unit -> sys -> Prop),
  fsys_at m F (fsystem s) -> files_ok (open_files s) (fsystem s) -> mem_ok (mem s) ->
  (forall mm, mem_ok mm -> Q (Returns tt) (set_keys (keys_read s + n)%nat (set_mem mm s))) ->
  (forall s', buried m F (open_files s) (fsystem s) s' -> Q (Died (-1)) s') ->
  pwp (read_keys mallocs keys n a) s Q.
Proof.
  induction n as [|n IH]; intros s a Q Hs Hf Hm HQ HD.
  { apply pwp_ret. specialize (HQ (mem s) Hm). rewrite Nat.add_0_r in HQ. by destruct s. }
  apply pwp_bind, pwp_get. cbn [continue]. apply pwp_bind, pwp_set. cbn [continue]. apply pwp_bind.
  eapply pwp_put_byte; [done|done| |intros _; exact HD]. intros c Hc Hw. cbn [continue].
  eapply IH; [done|done|by eapply mem_ok_insert| |exact HD].
  intros mm Hmm. specialize (HQ mm Hmm). rewrite Nat.add_succ_r in HQ. exact HQ.
Qed.

Lemma pwp_putbuf m F n : forall s a (Q : ending unit -> sys -> Prop),
  fsys_at m F (fsystem s) -> files_ok (open_files s) (fsystem s) ->
  (length (user_bytes (mem s) n a) = n -> Q (Returns tt) (set_console (console s ++ user_bytes (mem s) n a) s)) ->
  (forall s', buried m F (open_files s) (fsystem s) s' -> Q (Died (-1)) s') ->
  pwp (putbuf mallocs n a) s Q.
Proof.
  induction n as [|n IH]; intros s a Q Hs Hf HQ HD; simpl in HQ.
  { apply pwp_ret. specialize (HQ eq_refl). rewrite app_nil_r in HQ. by destruct s. }
  apply pwp_bind. eapply pwp_get_user; [done|done| |exact HD]. intros c Hc. rewrite Hc in HQ. cbn [continue].
  apply pwp_bind, pwp_get. cbn [continue]. apply pwp_bind, pwp_set. cbn [continue].
  eapply IH; [done|done| |exact HD]. intros Hl. simpl in HQ. specialize (HQ (f_equal S Hl)).
  cbn [console set_console mem]. by rewrite <-app_assoc.
Qed.

Lemma pwp_acquire s (Q : ending unit -> sys -> Prop) :
  read_write_lock s = false -> Q (Returns tt) (set_rw true s) -> pwp rw_acquire s Q.
Proof. intros Hl HQ. apply pwp_bind, pwp_get. cbn. by rewrite Hl. Qed.

Lemma pwp_find s n (Q : ending (option fd_list_element) -> sys -> Prop) :
  Q (Returns (find_fd n (fd_table s))) s -> pwp (find_fd_element n) s Q.
Proof. done. Qed.

(** ** open *)

Lemma pwp_open m F s name (Q : ending Z -> sys -> Prop) :
  sys_ok s -> fsys_at m F (fsystem s) -> fd_table_counter s < 2 ^ 31 - 1 -> name_ok name ->
  (forall s', F !! name = None -> sys_ok s' -> fsys_at m F (fsystem s') -> (forall k, fd_view s' k = fd_view s k) ->
     mem s' = mem s -> Q (Returns (-1)) s') ->
  (forall s' i bs, F !! name = Some bs -> m !! name = Some i -> sys_ok s' -> fsys_at m F (fsystem s') ->
     fd_view s' (fd_table_counter s) = Some (i, bs, 0) -> (forall k, k ≠ fd_table_counter s -> fd_view s' k = fd_view s k) ->
     fd_table_counter s' = fd_table_counter s + 1 -> mem s' = mem s -> Q (Returns (fd_table_counter s)) s') ->
  pwp (open mallocs name true) s Q.
Proof.
  intros Hok (A & Hinv & <-) Hc Hnm HQ0 HQ1. pose proof Hok as [_ [S2 S3 S4] S5 S6 S7 S8 S9].
  apply pwp_bind, pwp_acquire; [done|]. cbn [continue]. apply pwp_bind, pwp_fs. eapply wp_open_view; [done..| |].
  - intros x Hno Hx Ht Hv. cbn [continue]. apply pwp_bind, pwp_set. cbn [continue]. change (nonnull NULL) with false. cbv iota.
    apply pwp_ret, HQ0; try done; [eapply (sys_ok_fs m _ s); try done|].
    + eapply views_some; [done| |done]. intros ? []%not_elem_of_nil.
    + intros k. apply (fd_view_kept []); [done..|]. intros e _. apply not_elem_of_nil.
  - intros f i bs x Hf Hi Hbs Hx Ht Hv Hvf Hnew _. cbn [continue]. apply pwp_bind, pwp_set. cbn [continue].
    rewrite nonnull_pos by done. apply pwp_bind, pwp_get. cbn [continue]. apply pwp_bind, pwp_set. cbn [continue fd_table_counter set_rw set_fsystem].
    rewrite s32_small by lia. apply pwp_ret.
    assert (f ∉ open_files s) as Hfn.
    { intros Hin. destruct (S4 f Hin) as [[[? ?] ?] (y & ? & Hy & _)%view_Some]. change (files (fsystem s) !! f = None) in Hnew. congruence. }
    assert (find_fd (fd_table_counter s) (fd_table s) = None) as Hno.
    { destruct (find_fd _ _) as [e|] eqn:E; [|done]. apply find_fd_Some in E as [He E]. pose proof (S6 e He). lia. }
    eapply HQ1; try done.
    + eapply (sys_ok_push m _ s _ f); try done.
    + unfold fd_view. cbn. by rewrite find_fd_app, Hno, Z.eqb_refl.
    + intros k Hk. unfold fd_view. cbn. rewrite find_fd_app. cbn. rewrite (proj2 (Z.eqb_neq _ k)) by done.
      destruct (find_fd k (fd_table s)) as [e|] eqn:E; [|done]. cbn.
      destruct (S4 (fp e)) as [v Hv']; [by eapply fd_open|]. rewrite Hv'. apply Hv; [apply not_elem_of_nil|done].
Qed.

(** ** Calls on an open file *)

Lemma pwp_read m F s keys n buffer size i bs p (Q : ending Z -> sys -> Prop) :
  sys_ok s -> fsys_at m F (fsystem s) -> 2 <= n -> fd_view s n = Some (i, bs, p) ->
  (forall s', let out := take (Z.to_nat (s32 size)) (drop (Z.to_nat p) bs) in
     writable_at (mem s) (length out) buffer = true -> sys_ok s' -> fsys_at m F (fsystem s') ->
     fd_view s' n = Some (i, bs, p + Z.of_nat (length out)) -> (forall k, k ≠ n -> fd_view s' k = fd_view s k) ->
     mem s' = poked out buffer (mem s) -> fd_table_counter s' = fd_table_counter s -> Q (Returns (Z.of_nat (length out))) s') ->
  (writable_at (mem s) (length (take (Z.to_nat (s32 size)) (drop (Z.to_nat p) bs))) buffer = false ->
     forall s', gone s s' -> Q (Died (-1)) s') ->
  pwp (read mallocs keys n buffer size) s Q.
Proof.
  intros Hok (A & Hinv & <-) Hn (e & He & Hv)%fd_view_Some HQ HD. pose proof Hok as [_ [S2 S3 S4] S5 S6 S7 S8 S9].
  unfold read. rewrite (proj2 (Z.eqb_neq n 0)), (proj2 (Z.eqb_neq n 1)) by lia. cbn [negb].
  apply pwp_bind, pwp_find. rewrite He. cbn [continue]. apply pwp_bind, pwp_acquire; [done|]. cbn [continue].
  apply pwp_bind, pwp_fs. eapply wp_file_read; [done..|]. set (out := take _ _) in *. cbv zeta.
  intros x Hx Ht Hvs Hv' Ho. cbn [continue]. apply pwp_bind. eapply (pwp_put_bytes m (files_of A m (fsystem s))); [done| |done| |].
  - split; [done|done|]. eapply views_some; [done| |done]. intros f ->%list_elem_of_singleton. by eexists.
  - cbn [mem set_rw set_fsystem set_mem continue]. intros Hw Hm. apply pwp_bind, pwp_set, pwp_ret.
    match goal with |- Q _ ?s' => destruct (sys_ok_used m (files_of A m (fsystem s)) s s' n e) as (O1 & O2 & O3) end; try done.
    apply HQ; try done. exact (eq_trans O2 Hv').
  - cbn [continue]. intros Hw s' Hb. apply HD; [done|]. eapply (buried_gone m _ s x); [done|exact Hb].
Qed.

Lemma pwp_file_seek m F s n e new_pos i bs p (Q : ending unit -> sys -> Prop) :
  sys_ok s -> fsys_at m F (fsystem s) -> find_fd n (fd_table s) = Some e -> view (fsystem s) (fp e) = Some (i, bs, p) ->
  0 <= new_pos < 2 ^ 31 ->
  (forall s', sys_ok s' -> fsys_at m F (fsystem s') -> fd_view s' n = Some (i, bs, new_pos) ->
     (forall k, k ≠ n -> fd_view s' k = fd_view s k) -> mem s' = mem s -> fd_table_counter s' = fd_table_counter s ->
     Q (Returns tt) s') ->
  pwp (on_fs (file_seek (fp e) new_pos)) s Q.
Proof.
  intros Hok (A & Hinv & <-) He Hv Hp HQ.
  destruct (view_handle _ _ _ _ _ Hv) as (x & ino & Hh & <- & <- & <-). pose proof (fo_table _ _ (so_files _ Hok)) as Ht.
  destruct (moved A m (fsystem s) (fp e) x ino new_pos) as (M1 & M2 & M3 & M4 & M5); [done..|].
  apply pwp_fs. eapply (wp_file_seek A m); [done..|]. intros x' ->.
  match goal with |- Q _ ?s' => destruct (sys_ok_used m (files_of A m (fsystem s)) s s' n e) as (O1 & O2 & O3) end; try done.
  - by exists A.
  - eexists. exact (handle_view _ _ _ _ M4).
  - apply Hok.
  - apply Hok.
  - apply HQ; try done; [by exists A|]. exact (eq_trans O2 (handle_view _ _ _ _ M4)).
Qed.

Lemma pwp_seek m F s n position i bs p (Q : ending Z -> sys -> Prop) :
  sys_ok s -> fsys_at m F (fsystem s) -> fd_view s n = Some (i, bs, p) -> 0 <= s32 position ->
  (forall s', sys_ok s' -> fsys_at m F (fsystem s') -> fd_view s' n = Some (i, bs, s32 position) ->
     (forall k, k ≠ n -> fd_view s' k = fd_view s k) -> mem s' = mem s -> fd_table_counter s' = fd_table_counter s ->
     Q (Returns 1) s') ->
  pwp (seek n position) s Q.
Proof.
  intros Hok Hs (e & He & Hv)%fd_view_Some Hp HQ. pose proof (s32_range position) as Hr.
  apply pwp_bind, pwp_find. rewrite He. cbn [continue]. apply pwp_bind. eapply pwp_file_seek; [done..|lia|].
  intros s' H1 H2 H3 H4 H5 H6. apply pwp_ret. by apply HQ.
Qed.

Lemma pwp_filesize s n i bs p (Q : ending Z -> sys -> Prop) :
  sys_ok s -> fd_view s n = Some (i, bs, p) -> Q (Returns (Z.of_nat (length bs))) s -> pwp (filesize_get n) s Q.
Proof.
  intros Hok (e & He & Hv)%fd_view_Some HQ. destruct (so_fs _ Hok) as (m & F & A & Hinv & _).
  destruct (view_handle _ _ _ _ _ Hv) as (x & ino & Hh & <- & <- & <-).
  pose proof (dv_wf _ _ (ly_device _ _ (fi_layout _ _ _ Hinv))) as Hwf.
  rewrite (length_bytes_of _ _ Hwf (fw_inode _ Hwf _ _ (hn_inode _ _ _ _ Hh))) in HQ.
  destruct (handle_not_fm A (fsystem s) (fp e) x ino) as (_ & Hf & _); [apply Hinv|done|].
  apply pwp_bind, pwp_find. rewrite He. cbn [continue]. apply pwp_fs. eapply wp_file_length; [done..|]. by destruct s.
Qed.

Lemma pwp_write_extent s f x ino size (Q : ending (Z * Z) -> sys -> Prop) :
  fs_wf (fsystem s) -> handle (fsystem s) f x ino ->
  Q (Returns (extent (denied (fsystem s) f) size (Z.of_nat (length (bytes_of (fsystem s) (data ino)))) (pos x), pos x)) s ->
  pwp (on_fs (write_extent f size)) s Q.
Proof.
  intros Hwf [H1 H2 H3] HQ. rewrite (length_bytes_of _ _ Hwf (fw_inode _ Hwf _ _ H2)) in HQ.
  apply pwp_fs, wp_bind. eapply wp_get_file; [done|]. apply wp_bind. eapply wp_get_inode; [done|]. apply wp_ret.
  unfold denied in HQ. rewrite H1 in HQ. cbn in HQ. rewrite H2 in HQ. unfold extent in HQ.
  destruct (deny_write_cnt ino =? 0); cbn [negb] in HQ; by destruct s.
Qed.

(** The fault in the middle of a write. *)
Lemma pwp_write_fault A m s f x ino bs (Q : ending Z -> sys -> Prop) :
  fs_inv A m (fsystem s) -> files_ok (open_files s) (fsystem s) -> handle (fsystem s) f x ino ->
  (forall s', gone s s' -> Q (Died (-1)) s') ->
  pwp (on_fs (file_write_at mallocs f bs (complete (pos x) (Z.of_nat (length bs))) (pos x));; page_fault mallocs) s Q.
Proof.
  intros Hinv [S2 S3 S4] Hh HD. destruct (ta_file _ S2 _ _ (hn_file _ _ _ _ Hh)) as [_ Hp].
  apply pwp_bind, pwp_fs, wp_bind. eapply wp_get_file; [apply Hh|].
  eapply (wp_write_handle mallocs Hmalloc); [apply (dv_wf _ _ (ly_device _ _ (fi_layout _ _ _ Hinv)))|done|lia|apply complete_bound; lia|].
  intros k x' _ Hw. destruct (wrote_all mallocs Hmalloc A m (fsystem s) x' f x ino _ Hinv S2 Hh Hw) as (W1 & W2 & W3 & W4 & W5).
  cbn [continue]. eapply (pwp_exit m (files_of A m x')); [by exists A| |].
  - split; [done|done|]. intros g Hg. destruct (S4 g Hg) as [[[j cs] q] Hv]. eexists. apply (W5 g j cs q); [apply not_elem_of_nil|done].
  - intros s' Hb. apply HD. eapply buried_gone; [|exact Hb]. intros g. cbn. by rewrite (sh_files _ _ (proj1 (wrote_handles _ _ _ _ Hw))).
Qed.

Lemma pwp_write m F s n buffer size i bs p (Q : ending Z -> sys -> Prop) :
  sys_ok s -> fsys_at m F (fsystem s) -> 2 <= n -> fd_view s n = Some (i, bs, p) ->
  (forall s' deny, let k := extent deny (s32 size) (Z.of_nat (length bs)) p in
     let chunk := user_bytes (mem s) (Z.to_nat k) buffer in
     let bs' := splice bs (Z.to_nat p) chunk in
     (forall e, find_fd n (fd_table s) = Some e -> deny = denied (fsystem s) (fp e)) ->
     Z.of_nat (length chunk) = k -> sys_ok s' -> fsys_at m (rewritten m i bs' F) (fsystem s') -> fd_view s' n = Some (i, bs', p + k) ->
     (forall j, j ≠ n -> fd_view s' j = rewrite_view i bs' <$> fd_view s j) -> mem s' = mem s ->
     fd_table_counter s' = fd_table_counter s -> Q (Returns k) s') ->
  (forall s' deny, let k := extent deny (s32 size) (Z.of_nat (length bs)) p in
     (forall e, find_fd n (fd_table s) = Some e -> deny = denied (fsystem s) (fp e)) ->
     Z.of_nat (length (user_bytes (mem s) (Z.to_nat k) buffer)) ≠ k -> gone s s' -> Q (Died (-1)) s') ->
  pwp (write mallocs n buffer size) s Q.
Proof.
  intros Hok (A & Hinv & <-) Hn (e & He & Hv)%fd_view_Some HQ HD. pose proof Hok as [_ Hfo S5 S6 S7 S8 S9].
  destruct (view_handle _ _ _ _ _ Hv) as (x & ino & Hh & <- & <- & <-).
  pose proof (dv_wf _ _ (ly_device _ _ (fi_layout _ _ _ Hinv))) as Hwf.
  unfold write. rewrite (proj2 (Z.eqb_neq n 0)), (proj2 (Z.eqb_neq n 1)) by lia. cbn [negb andb].
  apply pwp_bind, pwp_find. rewrite He. cbn [continue]. apply pwp_bind, pwp_acquire; [done|]. cbn [continue].
  apply pwp_bind, pwp_bind. eapply (pwp_write_extent _ (fp e) x ino); [done..|]. cbn [continue fsystem set_rw].
  apply pwp_bind, pwp_get. cbn [continue mem set_rw].
  set (bs := bytes_of (fsystem s) (data ino)) in *. set (deny := denied (fsystem s) (fp e)) in *.
  assert (forall e', find_fd n (fd_table s) = Some e' -> deny = denied (fsystem s) (fp e')) as Hdeny.
  { intros e' He'. rewrite He in He'. by injection He' as <-. }
  specialize (fun s' => HQ s' deny). specialize (fun s' => HD s' deny). cbv zeta in HQ, HD. set (k := extent deny (s32 size) _ _) in *. set (chunk := user_bytes _ _ _) in *.
  assert (0 <= k /\ (deny = true -> k = 0) /\ (deny = false -> k <= Z.max 0 (Z.of_nat (length bs) - pos x))) as (Hk & Hk1 & Hk2).
  { unfold k, extent. destruct deny; split_and!; try done; lia. }
  destruct (Z.eqb_spec (Z.of_nat (length chunk)) k) as [El|El].
  - apply pwp_fs. eapply (wp_file_write mallocs Hmalloc A m); [done|apply Hfo|done|lia|].
    fold deny bs. intros j x' Hj. assert (Z.of_nat j = k) as Hjk.
    { change (Z.of_nat j = room deny k (Z.of_nat (length bs)) (pos x)) in Hj. rewrite Hj. unfold room. destruct deny; [specialize (Hk1 eq_refl); lia|]. specialize (Hk2 eq_refl). lia. }
    rewrite take_ge by lia. cbv zeta. intros Hx Ht Hvw Hv' _. cbn [continue]. apply pwp_bind, pwp_set, pwp_ret. rewrite Hjk in *.
    match goal with |- Q _ ?s' => destruct (sys_ok_written m (rewritten m (sector ino) (splice bs (Z.to_nat (pos x)) chunk) (files_of A m (fsystem s))) s s' n e (sector ino) (splice bs (Z.to_nat (pos x)) chunk) (pos x + k)) as (O1 & O2 & O3) end; try done.
    by apply HQ.
  - cbn [continue]. eapply (pwp_write_fault A m _ (fp e) x ino chunk); [done|done|done|]. intros s' Hg. by apply HD.
Qed.

Lemma pwp_close m F s n i bs p (Q : ending Z -> sys -> Prop) :
  sys_ok s -> fsys_at m F (fsystem s) -> fd_view s n = Some (i, bs, p) ->
  (forall s', sys_ok s' -> fsys_at m F (fsystem s') -> fd_view s' n = None -> (forall k, k ≠ n -> fd_view s' k = fd_view s k) ->
     mem s' = mem s -> fd_table_counter s' = fd_table_counter s -> Q (Returns 1) s') ->
  pwp (close mallocs n) s Q.
Proof.
  intros Hok Hs (e & He & Hv)%fd_view_Some HQ. pose proof Hok as [_ [S2 S3 S4] S5 S6 S7 S8 S9].
  apply pwp_bind, pwp_find. rewrite He. cbn [continue]. apply pwp_bind, pwp_get. cbn [continue]. apply pwp_bind, pwp_set. cbn [continue].
  apply pwp_bind, pwp_acquire; [done|]. cbn [continue]. apply pwp_bind.
  eapply (pwp_file_close m F); [done|done|by eexists|]. intros x Hx Hcl. cbn [continue]. apply pwp_bind, pwp_set, pwp_ret.
  match goal with |- Q _ ?s' => destruct (sys_ok_pop m F s s' n e) as (O1 & O2 & O3) end; try done. by apply HQ.
Qed.

Lemma pwp_tell m F s n stack register (Q : ending Z -> sys -> Prop) :
  sys_ok s -> fsys_at m F (fsystem s) -> 0 <= s32 stack -> (forall s', sys_ok s' -> Q (Returns register) s') ->
  (forall s', gone s s' -> Q (Died (-1)) s') -> pwp (tell mallocs n stack register) s Q.
Proof.
  intros Hok Hs Hp HQ HD. destruct (fd_view s n) as [[[i bs] p]|] eqn:Ev.
  - apply fd_view_Some in Ev as (e & He & Hv). pose proof (s32_range stack) as Hr.
    apply pwp_bind, pwp_find. rewrite He. cbn [continue]. apply pwp_bind. eapply pwp_file_seek; [done..|lia|].
    intros s' Hs' _ _ _ _ _. by apply pwp_ret, HQ.
  - apply fd_view_None in Ev; [|done]. apply pwp_bind, pwp_find. rewrite Ev. cbn [continue].
    apply pwp_bind. eapply (pwp_get_word m F); [done|apply Hok| |].
    + intros w Hw. exfalso. unfold peek in Hw. destruct (mem s !! 12) as [c|] eqn:E; [|done]. destruct (so_mem _ Hok _ _ E) as [_ ?].
      change PGSIZE with 4096 in *. lia.
    + intros s' Hb. apply HD. eapply buried_gone; [apply same_open_refl|exact Hb].
Qed.

Lemma pwp_create m F s name size stack (Q : ending Z -> sys -> Prop) :
  sys_ok s -> fsys_at m F (fsystem s) -> name_ok name -> 0 <= size < 2 ^ 31 - 512 -> length stack = 20%nat ->
  (forall (r : bool) m' s', sys_ok s' ->
     fsys_at m' (if r then <[name := replicate (Z.to_nat size) 0]> F else F) (fsystem s') ->
     (r = true -> F !! name = None) -> (forall k, fd_view s' k = fd_view s k) -> mem s' = mem s ->
     Q (Returns (if r then 1 else 0)) s') ->
  pwp (create mallocs name size stack) s Q.
Proof.
  intros Hok (A & Hinv & <-) Hnm Hsz Hst HQ. unfold create. rewrite s32_small by lia. pose proof (so_files _ Hok) as [S2 S3 S4].
  apply pwp_bind, pwp_fs. eapply wp_create_view; [done..|]. intros r m' x Hx Hr _ Ht Hv _. cbn [continue]. apply pwp_ret.
  eapply (HQ r m'); try done; [|by intros [? _]%Hr|].
  - eapply (sys_ok_fs m' _ s); try done; [|apply Hok..]. eapply views_some; [done| |done]. intros ? []%not_elem_of_nil.
  - intros k. apply (fd_view_kept []); [done..|]. intros e _. apply not_elem_of_nil.
Qed.

Lemma pwp_remove m F s name (Q : ending Z -> sys -> Prop) :
  sys_ok s -> fsys_at m F (fsystem s) -> name_ok name ->
  (forall s', sys_ok s' -> fsys_at (delete name m) (delete name F) (fsystem s') -> (forall k, fd_view s' k = fd_view s k) -> mem s' = mem s ->
     Q (Returns (if bool_decide (is_Some (F !! name)) then 1 else 0)) s') ->
  pwp (remove mallocs name) s Q.
Proof.
  intros Hok (A & Hinv & <-) Hnm HQ. pose proof (so_files _ Hok) as [S2 S3 S4].
  apply pwp_bind, pwp_fs. eapply wp_remove_view; [done..|]. intros x Hx Ht Hv _. cbn [continue]. apply pwp_ret.
  eapply HQ; try done.
  - eapply (sys_ok_fs (delete name m) _ s); try done; [|apply Hok..]. eapply views_some; [done| |done]. intros ? []%not_elem_of_nil.
  - intros k. apply (fd_view_kept []); [done..|]. intros e _. apply not_elem_of_nil.
Qed.

(** ** The handler *)

Section Handler.
Context (keys : nat -> Z) (s : sys) (Hok : sys_ok s).

Lemma pwp_exit_ok {A} st (Q : ending A -> sys -> Prop) :
  (forall s', gone s s' -> Q (Died st) s') -> pwp (exit mallocs st) s Q.
Proof.
  intros HD. destruct (so_fs _ Hok) as (m & F & Hs). eapply pwp_exit; [done|apply Hok|].
  intros s' Hb. apply HD. eapply buried_gone; [apply same_open_refl|exact Hb].
Qed.

Lemma pwp_user_ok a (Q : ending Z -> sys -> Prop) :
  (forall c, mem s !! a = Some c -> Q (Returns (byte c)) s) -> (forall s', gone s s' -> Q (Died (-1)) s') -> pwp (get_user mallocs a) s Q.
Proof.
  intros HQ HD. destruct (so_fs _ Hok) as (m & F & Hs). eapply pwp_get_user; [done|apply Hok|done|].
  intros s' Hb. apply HD. eapply buried_gone; [apply same_open_refl|exact Hb].
Qed.

Lemma pwp_word_ok a (Q : ending Z -> sys -> Prop) :
  (forall w, peek (mem s) a = Some w -> 0 <= w < 2 ^ 32 -> Q (Returns w) s) -> (forall s', gone s s' -> Q (Died (-1)) s') ->
  pwp (get_word mallocs a) s Q.
Proof.
  intros HQ HD. destruct (so_fs _ Hok) as (m & F & Hs). eapply pwp_get_word; [done|apply Hok| |].
  - intros w Hw. apply HQ; [done|]. eapply peek_range; [apply Hok|done].
  - intros s' Hb. apply HD. eapply buried_gone; [apply same_open_refl|exact Hb].
Qed.

Lemma pwp_int_arg esp i (Q : ending Z -> sys -> Prop) :
  (forall w, peek (mem s) (u32 (esp + 4 * i)) = Some w -> Q (Returns (s32 w)) s) -> (forall s', gone s s' -> Q (Died (-1)) s') ->
  pwp (int_arg mallocs esp i) s Q.
Proof. intros HQ HD. apply pwp_bind, pwp_word_ok; [|exact HD]. intros w Hw _. by apply pwp_ret, HQ. Qed.

Lemma pwp_name_arg esp (Q : ending (list Z) -> sys -> Prop) :
  (forall a str, peek (mem s) (u32 (esp + 4 * 1)) = Some a -> string_at (mem s) a str -> name_ok str -> Q (Returns str) s) ->
  (forall s', gone s s' -> Q (Died (-1)) s') -> pwp (name_arg mallocs esp) s Q.
Proof.
  intros HQ HD. apply pwp_bind, pwp_word_ok; [|exact HD]. intros w Hw Hr. cbn [continue]. apply pwp_bind, pwp_get. cbn [continue].
  destruct (w =? 0); [by apply pwp_exit_ok|]. destruct (so_fs _ Hok) as (m & F & Hs).
  eapply (pwp_get_string m F s Hs (so_files _ Hok) _ (mem s)); [apply Hok|lia|right; split; [lia|done]| |].
  - intros str Hstr. eapply HQ; [done|done|]. eapply string_at_ok; [apply Hok|done].
  - intros s' Hb. apply HD. eapply buried_gone; [apply same_open_refl|exact Hb].
Qed.

Lemma pwp_buffer_arg esp (Q : ending Z -> sys -> Prop) :
  (forall a, peek (mem s) (u32 (esp + 4 * 2)) = Some a -> is_user_vaddr a = true -> Q (Returns a) s) ->
  (forall s', gone s s' -> Q (Died (-1)) s') -> pwp (buffer_arg mallocs esp) s Q.
Proof.
  intros HQ HD. apply pwp_bind, pwp_word_ok; [|exact HD]. intros w Hw Hr. cbn [continue].
  destruct (is_user_vaddr w) eqn:E; cbn [negb]; [|by apply pwp_exit_ok].
  apply pwp_bind, pwp_user_ok; [|exact HD]. intros c _. by apply pwp_ret, HQ.
Qed.

(** No system call fails in the kernel: the process goes on with the invariant or is gone. *)
Definition safe {A} (r : ending A) (s' : sys) : Prop := match r with Returns _ => sys_ok s' | Died _ => gone s s' end.

Lemma low_fd n : n < 2 -> find_fd n (fd_table s) = None.
Proof.
  intros Hn. destruct (find_fd n (fd_table s)) as [e|] eqn:E; [|done]. apply find_fd_Some in E as [He <-].
  pose proof (so_range _ Hok e He). lia.
Qed.
Lemma fd_view_low n v : fd_view s n = Some v -> 2 <= n.
Proof. intros Hv. destruct (Z.lt_ge_cases n 2) as [Hn|]; [|done]. unfold fd_view in Hv. by rewrite low_fd in Hv. Qed.

(** The same for a call that has left the files alone when it returns [bad]. *)
Definition safe_unless (bad : Z) (r : ending Z) (s' : sys) : Prop :=
  match r with
  | Returns k => sys_ok s' /\ (k = bad -> fsystem s' = fsystem s /\ open_files s' = open_files s)
  | Died _ => gone s s'
  end.

Lemma safe_read n buffer size : pwp (read mallocs keys n buffer size) s (safe_unless (-1)).
Proof.
  destruct (so_fs _ Hok) as (m & F & Hs). destruct (fd_view s n) as [[[i bs] p]|] eqn:Ev.
  - eapply pwp_read; [done|done|by eapply fd_view_low|done| |done]. intros s'. cbv zeta. intros. split; [done|lia].
  - apply fd_view_None in Ev; [|done]. unfold read. destruct (n =? 0).
    + apply pwp_bind. eapply pwp_read_keys; [done|apply Hok|apply Hok| |].
      * intros mm Hmm. apply pwp_ret. split; [|done]. eapply (sys_ok_fs m F s); try done; apply Hok.
      * intros s' Hb. eapply buried_gone; [apply same_open_refl|exact Hb].
    + destruct (negb (n =? 1)); [|done]. apply pwp_bind, pwp_find. by rewrite Ev.
Qed.

Lemma safe_write n buffer size : pwp (write mallocs n buffer size) s (safe_unless (-1)).
Proof.
  destruct (so_fs _ Hok) as (m & F & Hs). destruct (fd_view s n) as [[[i bs] p]|] eqn:Ev.
  - eapply pwp_write; [done|done|by eapply fd_view_low|done| |done]. intros s' deny. cbv zeta. intros. split; [done|].
    unfold extent. destruct deny; lia.
  - apply fd_view_None in Ev; [|done]. unfold write. destruct (n =? 1).
    + apply pwp_bind. eapply pwp_putbuf; [done|apply Hok| |].
      * intros _. apply pwp_ret. split; [|done]. eapply (sys_ok_fs m F s); try done; apply Hok.
      * intros s' Hb. eapply buried_gone; [apply same_open_refl|exact Hb].
    + destruct (_ && _); [|done]. apply pwp_bind, pwp_find. by rewrite Ev.
Qed.

Lemma safe_close n : pwp (close mallocs n) s (safe_unless 0).
Proof.
  destruct (so_fs _ Hok) as (m & F & Hs). destruct (fd_view s n) as [[[i bs] p]|] eqn:Ev.
  - by eapply pwp_close.
  - apply fd_view_None in Ev; [|done]. apply pwp_bind, pwp_find. by rewrite Ev.
Qed.

Lemma safe_seek n position : 0 <= s32 position -> pwp (seek n position) s safe.
Proof.
  intros Hp. destruct (so_fs _ Hok) as (m & F & Hs). destruct (fd_view s n) as [[[i bs] p]|] eqn:Ev.
  - by eapply pwp_seek.
  - apply fd_view_None in Ev; [|done]. apply pwp_bind, pwp_find. by rewrite Ev.
Qed.

Lemma safe_filesize n : pwp (filesize_get n) s safe.
Proof.
  destruct (fd_view s n) as [[[i bs] p]|] eqn:Ev; [by eapply pwp_filesize|].
  apply fd_view_None in Ev; [|done]. apply pwp_bind, pwp_find. by rewrite Ev.
Qed.

Lemma safe_eax (c : P Z) : pwp c s safe -> pwp (eax c) s safe.
Proof. intros Hc. apply pwp_bind. eapply pwp_mono; [exact Hc|]. by intros [st|v] s' H. Qed.
End Handler.

(** A call whose result is passed on unless it is [bad], which ends the process. *)
Lemma safe_or_exit s (c : P Z) bad :
  sys_ok s -> pwp c s (safe_unless s bad) ->
  pwp (k ← c; if k =? bad then exit mallocs (-1) else mret (Eax k)) s (safe s).
Proof.
  intros Hok Hc. apply pwp_bind. eapply pwp_mono; [exact Hc|]. intros [st|k] s' H; [done|]. destruct H as [Hok' Hbad]. cbn [continue].
  destruct (Z.eqb_spec k bad) as [E|E]; [|by apply pwp_ret]. destruct (Hbad E) as [E1 E2].
  apply pwp_exit_ok; [done|]. intros s2. unfold safe, gone. by rewrite E1, E2.
Qed.

(** What a system call needs beyond the invariant: memory for a table entry, a
    descriptor to give out, and no size or position that is negative as an [off_t]. *)
Definition request_ok (s : sys) (esp : Z) (ch : chance) : Prop :=
  memory ch = true /\ length (stack_entry ch) = 20%nat /\ 0 <= s32 (junk ch) /\ fd_table_counter s < 2 ^ 31 - 1 /\
  forall n w, peek (mem s) esp = Some n -> peek (mem s) (u32 (esp + 8)) = Some w ->
    (n = SYS_CREATE -> w < 2 ^ 31 - 512) /\ (n = SYS_SEEK -> w < 2 ^ 31).

Lemma safe_dispatch_file keys s esp n ch :
  sys_ok s -> request_ok s esp ch -> peek (mem s) esp = Some n ->
  n = SYS_CREATE \/ n = SYS_OPEN \/ n = SYS_SEEK \/ n = SYS_TELL \/ n = SYS_REMOVE ->
  pwp (dispatch mallocs keys esp n ch) s (safe s).
Proof.
  intros Hok (Hmem & Hst & Hj & Hc & Hw) Hn Hcase. destruct (so_fs _ Hok) as (m & F & Hs).
  destruct Hcase as [->|[->|[->|[->| ->]]]]; unfold dispatch; cbn -[continue].
  - apply pwp_bind, pwp_name_arg; [done| |done]. intros a nm _ _ Hnm. cbn [continue].
    apply pwp_bind, pwp_word_ok; [done| |done]. intros w Hpw Hr. cbn [continue]. destruct (Hw _ _ Hn Hpw) as [Hlt _].
    apply safe_eax. eapply (pwp_create m F); [done|done|done|specialize (Hlt eq_refl); lia|done|done].
  - apply pwp_bind, pwp_name_arg; [done| |done]. intros a nm _ _ Hnm. cbn [continue]. apply safe_eax. rewrite Hmem.
    by eapply (pwp_open m F).
  - apply pwp_bind, pwp_int_arg; [done| |done]. intros w1 _. cbn [continue]. destruct (_ <=? 0); [by apply pwp_exit_ok|].
    apply pwp_bind, pwp_word_ok; [done| |done]. intros w Hpw Hr. cbn [continue]. destruct (Hw _ _ Hn Hpw) as [_ Hlt].
    specialize (Hlt eq_refl). apply safe_eax, safe_seek; [done|]. rewrite s32_small; lia.
  - apply pwp_bind, pwp_int_arg; [done| |done]. intros w1 _. cbn [continue]. destruct (_ <=? 0); [by apply pwp_exit_ok|].
    apply safe_eax. by eapply (pwp_tell m F).
  - apply pwp_bind, pwp_name_arg; [done| |done]. intros a nm _ _ Hnm. cbn [continue]. apply safe_eax. by eapply (pwp_remove m F).
Qed.

Lemma safe_dispatch keys s esp n ch :
  sys_ok s -> request_ok s esp ch -> peek (mem s) esp = Some n -> pwp (dispatch mallocs keys esp n ch) s (safe s).
Proof.
  intros Hok Hreq Hn.
  destruct (decide (n = SYS_CREATE \/ n = SYS_OPEN \/ n = SYS_SEEK \/ n = SYS_TELL \/ n = SYS_REMOVE)) as [Hc|Hc];
    [by apply safe_dispatch_file|].
  unfold dispatch. rewrite (proj2 (Z.eqb_neq n SYS_CREATE)), (proj2 (Z.eqb_neq n SYS_OPEN)), (proj2 (Z.eqb_neq n SYS_SEEK)),
    (proj2 (Z.eqb_neq n SYS_TELL)), (proj2 (Z.eqb_neq n SYS_REMOVE)) by tauto.
  destruct (n =? SYS_CLOSE).
  { apply pwp_bind, pwp_int_arg; [done| |done]. intros w1 _. cbn [continue]. destruct (_ <=? 0); [by apply pwp_exit_ok|].
    apply pwp_bind, pwp_word_ok; [done| |done]. intros w Hw Hr. cbn [continue]. apply safe_or_exit; [done|by apply safe_close]. }
  destruct (n =? SYS_READ).
  { apply pwp_bind, pwp_int_arg; [done| |done]. intros w1 _. cbn [continue]. apply pwp_bind, pwp_buffer_arg; [done| |done].
    intros a _ _. cbn [continue]. apply pwp_bind, pwp_word_ok; [done| |done]. intros w Hw Hr. apply safe_or_exit; [done|by apply safe_read]. }
  destruct (n =? SYS_WRITE).
  { apply pwp_bind, pwp_int_arg; [done| |done]. intros w1 _. cbn [continue]. apply pwp_bind, pwp_buffer_arg; [done| |done].
    intros a _ _. cbn [continue]. apply pwp_bind, pwp_word_ok; [done| |done]. intros w Hw Hr. apply safe_or_exit; [done|by apply safe_write]. }
  destruct (n =? SYS_FILESIZE).
  { apply pwp_bind, pwp_int_arg; [done| |done]. intros w1 _. cbn [continue]. by apply safe_eax, safe_filesize. }
  destruct (n =? SYS_EXIT).
  { apply pwp_bind, pwp_int_arg; [done| |done]. intros w1 _. cbn [continue]. by apply pwp_exit_ok. }
  destruct (n =? SYS_EXEC); [apply pwp_bind, pwp_word_ok; done|]. destruct (n =? SYS_WAIT); [apply pwp_bind, pwp_int_arg; done|].
  by destruct (n =? SYS_HALT).
Qed.
End Exit.

Lemma poked_below bs a mm b : 0 <= b < a -> a + Z.of_nat (length bs) <= 2 ^ 32 -> poked bs a mm !! b = mm !! b.
Proof.
  revert a mm. induction bs as [|x bs IH]; intros a mm Hb Hl; simpl; [done|]. simpl in Hl.
  destruct bs as [|y bs]; [simpl; by rewrite lookup_insert_ne by lia|].
  unfold u32. rewrite Z.mod_small by (simpl in Hl; lia). rewrite IH by lia. by rewrite lookup_insert_ne by lia.
Qed.

(** A range that can be written does not wrap around: the first page is not mapped. *)
Lemma writable_no_wrap mm n a : mem_ok mm -> writable_at mm (S n) a = true -> PGSIZE <= a /\ a + Z.of_nat (S n) <= 2 ^ 32.
Proof.
  intros Hm. revert a. induction n as [|n IH]; intros a Hw; cbn [writable_at] in Hw; fold writable_at in Hw.
  - destruct (mm !! a) as [c|] eqn:E; [|done]. destruct (Hm a c E). lia.
  - destruct (mm !! a) as [c|] eqn:E; [|done]. destruct (Hm a c E) as [_ Ha]. apply andb_true_iff in Hw as [_ Hw].
    destruct (IH (u32 (a + 1)) Hw) as [Hlo Hhi]. change PGSIZE with 4096 in *. split; [lia|].
    destruct (decide (a + 1 = 2 ^ 32)) as [Ea|Ea]; [rewrite Ea in Hlo; change (u32 (2 ^ 32)) with 0 in Hlo; lia|].
    unfold u32 in Hhi. rewrite Z.mod_small in Hhi; lia.
Qed.

Lemma user_bytes_poked bs a mm :
  Forall is_byte bs -> 0 <= a -> a + Z.of_nat (length bs) <= 2 ^ 32 -> user_bytes (poked bs a mm) (length bs) a = bs.
Proof.
  revert a mm. induction bs as [|x bs IH]; intros a mm [Hx Hb]%Forall_cons_1 Ha Hl || intros a mm _ Ha Hl; [done|]. simpl in Hl |- *.
  assert (poked bs (u32 (a + 1)) (<[a:=mk_cell (u8 x) true]> mm) !! a = Some (mk_cell (u8 x) true)) as ->.
  { destruct bs as [|y bs]; [simpl; by rewrite lookup_insert_eq|]. unfold u32. rewrite Z.mod_small by (simpl in Hl; lia).
    rewrite poked_below by lia. by rewrite lookup_insert_eq. }
  cbn. unfold u8 at 1. rewrite Z.mod_small by (unfold is_byte in Hx; lia). f_equal. destruct bs as [|y bs]; [done|].
  apply IH; [done|unfold u32; apply Z.mod_pos_bound; lia|]. unfold u32. rewrite Z.mod_small; simpl in Hl |- *; lia.
Qed.

Lemma user_bytes_range mm n a : mem_ok mm -> Forall is_byte (user_bytes mm n a).
Proof.
  intros Hm. revert a. induction n as [|n IH]; intros a; simpl; [constructor|]. destruct (mm !! a) as [c|] eqn:E; [|constructor].
  constructor; [apply (Hm _ _ E)|apply IH].
Qed.

Lemma take_drop_splice bs o c : (o + length c <= length bs)%nat -> take (length c) (drop o (splice bs o c)) = c.
Proof.
  intros Hl. unfold splice. rewrite drop_app_length' by (rewrite length_take; lia). by rewrite take_app_length.
Qed.

Lemma fd_view_bound s n i bs p : sys_ok s -> fd_view s n = Some (i, bs, p) -> Z.of_nat (length bs) < 2 ^ 31 - 512 /\ 0 <= p.
Proof.
  intros Hok (e & He & Hv)%fd_view_Some. destruct (so_fs _ Hok) as (m & F & A & Hinv & _).
  destruct (view_handle _ _ _ _ _ Hv) as (x & ino & [H1 H2 H3] & _ & <- & <-).
  pose proof (dv_wf _ _ (ly_device _ _ (fi_layout _ _ _ Hinv))) as Hwf. pose proof (fw_inode _ Hwf _ _ H2) as Hd.
  rewrite (length_bytes_of _ _ Hwf Hd). split; [apply (dk_len _ _ Hd)|]. apply (ta_file _ (fo_table _ _ (so_files _ Hok)) _ _ H1).
Qed.

(** * Claims *)


(** The file of descriptor [n] is open to writes. *)
Definition may_write (s : sys) (n : Z) : Prop :=
  forall e, find_fd n (fd_table s) = Some e -> denied (fsystem s) (fp e) = false.

Lemma pwp_write_all mallocs s n buffer size i bs p m F (Q : ending Z -> sys -> Prop) :
  (forall k, mallocs k = true) -> sys_ok s -> fsys_at m F (fsystem s) -> fd_view s n = Some (i, bs, p) -> may_write s n ->
  0 <= size -> p + size <= Z.of_nat (length bs) -> length (user_bytes (mem s) (Z.to_nat size) buffer) = Z.to_nat size ->
  (forall s', let bs' := splice bs (Z.to_nat p) (user_bytes (mem s) (Z.to_nat size) buffer) in
     sys_ok s' -> fsys_at m (rewritten m i bs' F) (fsystem s') -> fd_view s' n = Some (i, bs', p + size) -> mem s' = mem s ->
     fd_table_counter s' = fd_table_counter s -> Q (Returns size) s') ->
  pwp (write mallocs n buffer size) s Q.
Proof.
  intros Hmalloc Hok Hs Hv Hw Hsz Hroom Hmap HQ. destruct (fd_view_bound _ _ _ _ _ Hok Hv) as [Hb Hp].
  eapply (pwp_write mallocs Hmalloc m F); [done|done|by eapply fd_view_low|done| |].
  - intros s' deny. cbv zeta. intros Hdeny. assert (deny = false) as ->.
    { apply fd_view_Some in Hv as (e & He & _). rewrite (Hdeny e He). by apply Hw. }
    unfold extent. rewrite s32_small by lia. replace (Z.max 0 _) with size by lia. intros _ H1 H2 H3 _ H4 H5. by apply HQ.
  - intros s' deny. cbv zeta. intros Hdeny. assert (deny = false) as ->.
    { apply fd_view_Some in Hv as (e & He & _). rewrite (Hdeny e He). by apply Hw. }
    unfold extent. rewrite s32_small by lia. replace (Z.max 0 _) with size by lia. lia.
Qed.

Lemma pwp_bind_Returns {A B} (c : P A) (f : A -> P B) s Q :
  pwp c s (fun r s' => exists a, r = Returns a /\ pwp (f a) s' Q) -> pwp (c ≫= f) s Q.
Proof. intros H. apply pwp_bind. eapply pwp_mono; [exact H|]. by intros r s' (a & -> & Ha). Qed.

(** What is written to a file is read back: writing [size] bytes inside the file
    through a descriptor, seeking back and reading into another buffer returns
    [size] with the same bytes in that buffer, and leaves the rest of the file
    as it was. *)
Theorem write_seek_read mallocs keys s n buffer buffer' size i bs p :
  (forall k, mallocs k = true) -> sys_ok s -> fd_view s n = Some (i, bs, p) -> may_write s n ->
  0 <= size -> p + size <= Z.of_nat (length bs) ->
  length (user_bytes (mem s) (Z.to_nat size) buffer) = Z.to_nat size -> writable_at (mem s) (Z.to_nat size) buffer' = true ->
  pwp (write mallocs n buffer size;; seek n p;; read mallocs keys n buffer' size) s (fun r s' =>
    let chunk := user_bytes (mem s) (Z.to_nat size) buffer in
    r = Returns size /\ sys_ok s' /\ user_bytes (mem s') (Z.to_nat size) buffer' = chunk /\
    fd_view s' n = Some (i, splice bs (Z.to_nat p) chunk, p + size)).
Proof.
  intros Hmalloc Hok Hv Hw Hsz Hroom Hmap Hwr. destruct (so_fs _ Hok) as (m & F & Hs). destruct (fd_view_bound _ _ _ _ _ Hok Hv) as [Hb Hp].
  apply pwp_bind_Returns. eapply pwp_write_all; [done..|]. cbv zeta. set (chunk := user_bytes _ _ _) in *. set (bs' := splice _ _ _).
  intros s1 Hok1 Hs1 Hv1 Em1 _. eexists. split; [done|].
  apply pwp_bind_Returns. eapply (pwp_seek _ _ s1); [done..|by rewrite s32_small by lia|].
  rewrite s32_small by lia. intros s2 Hok2 Hs2 Hv2 _ Em2 _. eexists. split; [done|].
  assert (take (Z.to_nat (s32 size)) (drop (Z.to_nat p) bs') = chunk) as Et.
  { rewrite s32_small by lia. rewrite <-Hmap. apply take_drop_splice. lia. }
  assert (mem s2 = mem s) as Em by congruence.
  eapply (pwp_read mallocs Hmalloc _ _ s2); [done|done|by eapply (fd_view_low s)|done|..]; cbv zeta; rewrite Et, Hmap, Em, ?Hwr; [|done].
  intros s3 _ Hok3 _ Hv3 _ Em3 _. replace (Z.of_nat (Z.to_nat size)) with size in * by lia. split_and!; [done|done| |done].
  rewrite Em3. destruct (decide (size = 0)) as [->|Hne]; [by destruct chunk|].
  replace (Z.to_nat size) with (S (Z.to_nat size - 1)) in Hwr by lia.
  destruct (writable_no_wrap _ _ _ (so_mem _ Hok) Hwr) as [Hlo Hhi]. change PGSIZE with 4096 in *.
  rewrite <-Hmap. apply user_bytes_poked; [apply user_bytes_range, Hok|lia|lia].
Qed.

(** Opening a name returns a descriptor that was not in use, at least 2, on
    the contents stored under the name and at position 0, or -1 exactly when
    there is no such file.  No file and no other descriptor changes. *)
Theorem open_by_name mallocs F s name :
  (forall k, mallocs k = true) -> sys_ok s -> fsys F (fsystem s) -> fd_table_counter s < 2 ^ 31 - 1 -> name_ok name ->
  pwp (open mallocs name true) s (fun r s' =>
    let n := fd_table_counter s in
    sys_ok s' /\ fsys F (fsystem s') /\ (forall k, k ≠ n -> fd_view s' k = fd_view s k) /\
    match F !! name with
    | Some bs => r = Returns n /\ 2 <= n /\ fd_view s n = None /\ exists i, fd_view s' n = Some (i, bs, 0)
    | None => r = Returns (-1)
    end).
Proof.
  intros Hmalloc Hok (A & m & Hinv & HF) Hc Hnm. assert (fsys_at m F (fsystem s)) as Hs by (by exists A).
  assert (forall x, fsys_at m F x -> fsys F x) as Hfs by (intros x (B & ? & ?); by exists B, m).
  eapply (pwp_open mallocs Hmalloc m F); [done..| |]; cbv zeta.
  - intros s' Hno Hok' Hs' Hv _. rewrite Hno. split_and!; auto.
  - intros s' i bs Hbs _ Hok' Hs' Hv Ho _ _. rewrite Hbs. split_and!; [done|auto|done|done|apply Hok| |by exists i].
    unfold fd_view. destruct (find_fd _ _) as [e|] eqn:E; [|done]. apply find_fd_Some in E as [He E].
    pose proof (so_range _ Hok e He). lia.
Qed.

(** C11: Data outlives the descriptor it was written through: after a write inside a
    file, a close and an open of the file's name, the new descriptor shows the
    file with the bytes written. *)
Theorem written_data_persists mallocs m F s n buffer size i bs p name :
  (forall k, mallocs k = true) -> sys_ok s -> fsys_at m F (fsystem s) -> fd_table_counter s < 2 ^ 31 - 1 ->
  fd_view s n = Some (i, bs, p) -> may_write s n -> m !! name = Some i -> F !! name = Some bs -> name_ok name ->
  0 <= size -> p + size <= Z.of_nat (length bs) -> length (user_bytes (mem s) (Z.to_nat size) buffer) = Z.to_nat size ->
  pwp (write mallocs n buffer size;; close mallocs n;; open mallocs name true) s (fun r s' =>
    exists n', r = Returns n' /\ sys_ok s' /\ fd_view s' n = None /\
      fd_view s' n' = Some (i, splice bs (Z.to_nat p) (user_bytes (mem s) (Z.to_nat size) buffer), 0)).
Proof.
  intros Hmalloc Hok Hs Hc Hv Hw Hm HF Hnm Hsz Hroom Hmap.
  apply pwp_bind_Returns. eapply pwp_write_all; [done..|]. cbv zeta. set (bs' := splice _ _ _).
  intros s1 Hok1 Hs1 Hv1 Em1 Ec1. eexists. split; [done|].
  apply pwp_bind_Returns. eapply (pwp_close mallocs Hmalloc); [done|exact Hs1|done|].
  intros s2 Hok2 Hs2 Hv2 _ _ Ec2. eexists. split; [done|].
  assert (rewritten m i bs' F !! name = Some bs') as Hnew.
  { unfold rewritten. rewrite map_lookup_imap, HF. cbn. by rewrite decide_True. }
  eapply (pwp_open mallocs Hmalloc); [done|exact Hs2|congruence|done|congruence|].
  intros s3 j cs Hcs Hj Hok3 _ Hv3 Ho _ _. rewrite Hnew in Hcs. injection Hcs as <-. rewrite Hm in Hj. injection Hj as <-.
  eexists. split_and!; [done|done| |done]. rewrite Ho; [done|]. rewrite Ec2, Ec1.
  apply fd_view_Some in Hv as (e & [He <-]%find_fd_Some & _). pose proof (so_range _ Hok e He). lia.
Qed.

(** Ending a process closes the files in its table and its executable, each
    exactly once, and nothing else: the named files keep their contents and the
    handles of other processes see what they saw. *)
Theorem exit_closes_files mallocs F s st :
  (forall k, mallocs k = true) -> sys_ok s -> fsys F (fsystem s) ->
  pwp (exit mallocs st : P unit) s (fun r s' =>
    r = Died st /\ fsys F (fsystem s') /\ counts_ok (fsystem s') /\ fd_table s' = [] /\
    (forall g, files (fsystem s') !! g = if decide (g ∈ open_files s) then None else files (fsystem s) !! g) /\
    views_kept (open_files s) (fsystem s) (fsystem s')).
Proof.
  intros Hmalloc Hok (A & m & Hinv & HF). eapply (pwp_exit mallocs Hmalloc m F); [by exists A|apply Hok|].
  intros s' [(B & H1 & H2) [C1 C2 C3] H3]. split_and!; try done. by exists B, m.
Qed.

(** A system call with a stack pointer in kernel space or at an address that is
    not mapped ends the process with status -1. *)
Theorem bad_stack_pointer mallocs keys s esp ch :
  (forall k, mallocs k = true) -> sys_ok s -> is_user_vaddr esp = false \/ mem s !! esp = None ->
  pwp (syscall_handler mallocs keys esp ch) s (fun r s' => r = Died (-1) /\ gone s s').
Proof.
  intros Hmalloc Hok Hbad. unfold syscall_handler. destruct (is_user_vaddr esp) eqn:E; cbn [negb]; [|by apply pwp_exit_ok].
  destruct Hbad as [?|Hno]; [done|]. apply pwp_bind, pwp_user_ok; [done|done| |done]. intros c Hc. congruence.
Qed.

(** ** A process on the device of [Filesys] *)

(** A page at 0x8048000 with the name [a] and a buffer, and a read-only byte. *)
Definition demo_mem : gmap Z cell :=
  list_to_map (zip (seqZ 0x8048000 12) ((fun b => mk_cell b true) <$> [97; 0; 10; 20; 30; 40; 0; 0; 0; 0; 0; 0])) ∪
  {[ 0x8050000 := mk_cell 7 false ]}.
Definition demo_process : sys := mk_sys demo_created demo_mem [] 2 0 false [] 0.
Definition demo_keys (i : nat) : Z := 65.
Definition demo_opened : sys :=
  match open (fun _ => true) demo_name true demo_process with Ok (_, s) => s | Err _ => demo_process end.

Lemma demo_mem_ok : mem_ok demo_mem.
Proof.
  assert (map_Forall (fun a c => 0 <= byte c < 256 /\ PGSIZE <= a < 2 ^ 32) demo_mem) as H by (apply (bool_decide_unpack _); by vm_compute).
  exact H.
Qed.

Lemma demo_process_ok : sys_ok demo_process.
Proof.
  split; cbn [fsystem fd_table fd_table_counter mem read_write_lock demo_process].
  - destruct demo_created_fsys as (A & m & H1 & H2). exists m, demo_files, A. split; [exact H1|exact H2].
  - split; [exact demo_table_ok|apply NoDup_nil_2|]. intros f []%not_elem_of_nil.
  - apply NoDup_nil_2.
  - intros e []%not_elem_of_nil.
  - lia.
  - exact demo_mem_ok.
  - reflexivity.
Qed.

Lemma demo_opened_ok : sys_ok demo_opened /\ exists m, fsys_at m demo_files (fsystem demo_opened) /\ exists i,
  m !! demo_name = Some i /\ fd_view demo_opened 2 = Some (i, replicate 600 0, 0).
Proof.
  destruct demo_created_fsys as (A & m & H1 & H2).
  assert (pwp (open (fun _ => true) demo_name true) demo_process (fun _ s' =>
    sys_ok s' /\ exists m, fsys_at m demo_files (fsystem s') /\ exists i,
      m !! demo_name = Some i /\ fd_view s' 2 = Some (i, replicate 600 0, 0))) as H.
  { eapply (pwp_open _ (fun _ => eq_refl) m demo_files); [exact demo_process_ok|by exists A|cbn; lia|exact demo_name_ok| |].
    - intros s' Hno. unfold demo_files in Hno. by rewrite lookup_singleton_eq in Hno.
    - intros s' i bs Hbs Hi Hok Hs Hv _ _ _. split; [done|]. exists m. split; [done|]. exists i. split; [done|].
      unfold demo_files in Hbs. rewrite lookup_singleton_eq in Hbs. injection Hbs as <-. done. }
  unfold pwp, demo_opened in *. destruct (open _ _ _ demo_process) as [[r s']|]; [exact H|done].
Qed.

Lemma demo_view : fd_view demo_opened 2 = Some (4, replicate 600 0, 0).
Proof. by vm_compute. Qed.

Lemma demo_may_write : may_write demo_opened 2.
Proof. intros e He. vm_compute in He. injection He as <-. by vm_compute. Qed.

Lemma demo_opened_mem : mem demo_opened = demo_mem /\ fd_table_counter demo_opened = 3.
Proof. split; by vm_compute. Qed.

(** The stack of a call [write (2, 0x8048002, 4)]. *)
Definition demo_stack : gmap Z cell :=
  list_to_map (zip (seqZ 0x8049000 16) ((fun b => mk_cell b true) <$> [9; 0; 0; 0; 2; 0; 0; 0; 2; 0x80; 4; 8; 4; 0; 0; 0])).
Definition demo_call : sys := set_mem (demo_mem ∪ demo_stack) demo_opened.
Definition demo_chance : chance := mk_chance true (replicate 20 0) 0 0.

Lemma sys_ok_mem s mm : sys_ok s -> mem_ok mm -> sys_ok (set_mem mm s).
Proof. intros [H1 H2 H3 H4 H5 H6 H7] Hm. by split. Qed.

Lemma demo_call_ok : sys_ok demo_call.
Proof.
  apply sys_ok_mem; [exact (proj1 demo_opened_ok)|].
  assert (map_Forall (fun a c => 0 <= byte c < 256 /\ PGSIZE <= a < 2 ^ 32) (demo_mem ∪ demo_stack)) as H by (apply (bool_decide_unpack _); by vm_compute).
  exact H.
Qed.

Lemma demo_request_ok : request_ok demo_call 0x8049000 demo_chance.
Proof.
  split_and!; [reflexivity|reflexivity|vm_compute; discriminate|by vm_compute|].
  intros n w Hn Hw. vm_compute in Hn, Hw. injection Hn as <-. injection Hw as <-. split; discriminate.
Qed.


Lemma write_seek_read_witness :
  pwp (write (fun _ => true) 2 0x8048002 4;; seek 2 0;; read (fun _ => true) demo_keys 2 0x8048006 4) demo_opened (fun r s' =>
    let chunk := user_bytes (mem demo_opened) (Z.to_nat 4) 0x8048002 in
    r = Returns 4 /\ sys_ok s' /\ user_bytes (mem s') (Z.to_nat 4) 0x8048006 = chunk /\
    fd_view s' 2 = Some (4, splice (replicate 600 0) (Z.to_nat 0) chunk, 0 + 4)).
Proof.
  apply (write_seek_read (fun _ => true) demo_keys demo_opened 2 0x8048002 0x8048006 4 4 (replicate 600 0) 0).
  - reflexivity.
  - exact (proj1 demo_opened_ok).
  - exact demo_view.
  - exact demo_may_write.
  - lia.
  - rewrite length_replicate. lia.
  - by vm_compute.
  - by vm_compute.
Defined.

Lemma open_by_name_witness :
  pwp (open (fun _ => true) demo_name true) demo_process (fun r s' =>
    let n := fd_table_counter demo_process in
    sys_ok s' /\ fsys demo_files (fsystem s') /\ (forall k, k ≠ n -> fd_view s' k = fd_view demo_process k) /\
    match demo_files !! demo_name with
    | Some bs => r = Returns n /\ 2 <= n /\ fd_view demo_process n = None /\ exists i, fd_view s' n = Some (i, bs, 0)
    | None => r = Returns (-1)
    end).
Proof.
  apply (open_by_name (fun _ => true) demo_files demo_process demo_name).
  - reflexivity.
  - exact demo_process_ok.
  - exact demo_created_fsys.
  - cbn. lia.
  - exact demo_name_ok.
Defined.

Lemma written_data_persists_witness :
  pwp (write (fun _ => true) 2 0x8048002 4;; close (fun _ => true) 2;; open (fun _ => true) demo_name true) demo_opened (fun r s' =>
    exists n', r = Returns n' /\ sys_ok s' /\ fd_view s' 2 = None /\
      fd_view s' n' = Some (4, splice (replicate 600 0) (Z.to_nat 0) (user_bytes (mem demo_opened) (Z.to_nat 4) 0x8048002), 0)).
Proof.
  destruct demo_opened_ok as [Hok (m & Hs & i & Hi & Hv)].
  assert (i = 4) as -> by (rewrite demo_view in Hv; congruence).
  apply (written_data_persists (fun _ => true) m demo_files demo_opened 2 0x8048002 4 4 (replicate 600 0) 0 demo_name).
  - reflexivity.
  - exact Hok.
  - exact Hs.
  - rewrite (proj2 demo_opened_mem). lia.
  - exact demo_view.
  - exact demo_may_write.
  - exact Hi.
  - by vm_compute.
  - exact demo_name_ok.
  - lia.
  - rewrite length_replicate. lia.
  - by vm_compute.
Defined.

Lemma exit_closes_files_witness :
  pwp (exit (fun _ => true) 5 : P unit) demo_process (fun r s' =>
    r = Died 5 /\ fsys demo_files (fsystem s') /\ counts_ok (fsystem s') /\ fd_table s' = [] /\
    (forall g, files (fsystem s') !! g = if decide (g ∈ open_files demo_process) then None else files (fsystem demo_process) !! g) /\
    views_kept (open_files demo_process) (fsystem demo_process) (fsystem s')).
Proof.
  apply (exit_closes_files (fun _ => true) demo_files demo_process 5).
  - reflexivity.
  - exact demo_process_ok.
  - exact demo_created_fsys.
Defined.

Lemma bad_stack_pointer_witness :
  pwp (syscall_handler (fun _ => true) demo_keys 0x8051000 demo_chance) demo_process (fun r s' => r = Died (-1) /\ gone demo_process s').
Proof.
  apply (bad_stack_pointer (fun _ => true) demo_keys demo_process 0x8051000 demo_chance).
  - reflexivity.
  - exact demo_process_ok.
  - right. by vm_compute.
Defined.

(** ** A lock that is lost *)

