(* ===== verification/Load.v ===== *)
(** src/userprog/process.c: loading an ELF executable.

    [load] reads the headers of the executable, maps its segments into a new page
    directory and leaves the entry point.  It works on the machine of [Palloc] and
    [Pagedir] and on the file system of [Filesys]; what it shares with other
    processes, the lock and the report to the parent, is in [Process].

    [setup_stack] is that of [Args], on the page that it installs.  What the second
    [filesys_open] reads when it is handed the address of an inode instead of a
    name is an argument. *)
From stdpp Require Import base numbers gmap fin_maps list.
From Stdlib Require Import ZArith Lia.
From S2P Require Import Prelude Strings Vaddr Args Bitmap Palloc Pagedir Inode Layout Directory Filesys Files.

Open Scope Z_scope.

(** * ELF headers *)

Record Elf32_Ehdr : Type := mk_ehdr {
  e_ident : list Z; e_type : Z; e_machine : Z; e_version : Z; e_entry : Z; e_phoff : Z; e_shoff : Z;
  e_flags : Z; e_ehsize : Z; e_phentsize : Z; e_phnum : Z; e_shentsize : Z; e_shnum : Z; e_shstrndx : Z
}.
Record Elf32_Phdr : Type := mk_phdr {
  p_type : Z; p_offset : Z; p_vaddr : Z; p_paddr : Z; p_filesz : Z; p_memsz : Z; p_flags : Z; p_align : Z
}.

Definition sizeof_Ehdr : Z := 52.
Definition sizeof_Phdr : Z := 32.

(** The field of [n] bytes at offset [o]. *)
Definition field (n o : nat) (bs : list Z) : Z := unle (take n (drop o bs)).
Definition decode_Ehdr (bs : list Z) : Elf32_Ehdr :=
  mk_ehdr (take 16 bs) (field 2 16 bs) (field 2 18 bs) (field 4 20 bs) (field 4 24 bs) (field 4 28 bs) (field 4 32 bs)
    (field 4 36 bs) (field 2 40 bs) (field 2 42 bs) (field 2 44 bs) (field 2 46 bs) (field 2 48 bs) (field 2 50 bs).
Definition decode_Phdr (bs : list Z) : Elf32_Phdr :=
  mk_phdr (field 4 0 bs) (field 4 4 bs) (field 4 8 bs) (field 4 12 bs) (field 4 16 bs) (field 4 20 bs) (field 4 24 bs) (field 4 28 bs).

Definition PT_NULL : Z := 0.
Definition PT_LOAD : Z := 1.
Definition PT_DYNAMIC : Z := 2.
Definition PT_INTERP : Z := 3.
Definition PT_NOTE : Z := 4.
Definition PT_SHLIB : Z := 5.
Definition PT_PHDR : Z := 6.
Definition PT_STACK : Z := 0x6474e551.
Definition PF_W : Z := 2.

(** The first seven bytes of an ELF file. *)
Definition elf_ident : list Z := [127; 69; 76; 70; 1; 1; 1].

(** * State *)

Record loader : Type := mk_loader { mach : machine; lfs : fs }.

Definition on_mach {A} (c : M machine A) : M loader A := fun s =>
  match c (mach s) with Ok (a, x) => Ok (a, mk_loader x (lfs s)) | Err e => Err e end.
Definition on_lfs {A} (c : M fs A) : M loader A := fun s =>
  match c (lfs s) with Ok (a, x) => Ok (a, mk_loader (mach s) x) | Err e => Err e end.

(** The bytes that [file_read] delivers into kernel memory at [a]. *)
Fixpoint deliver (a : Z) (bs : list Z) : M mem unit :=
  match bs with [] => mret tt | b :: bs => store8 a b;; deliver (a + 1) bs end.

(** The page at [a]. *)
Definition page_bytes (mm : mem) (a : Z) : list Z := (fun i => u8 (default 0 (mm !! (a + Z.of_nat i)))) <$> seq 0 4096.

(** [c] on the memory that [setup_stack] works on: its local variables and the
    arrays and strings they point to, and the page [kpage], which has just been
    installed at the top of user memory. *)
Definition on_stack (locals : mem) (kpage : Z) (c : M mem Z) : M loader Z := fun l =>
  let upage := PHYS_BASE - PGSIZE in
  match c (put locals upage (page_bytes (ram (mach l)) kpage)) with
  | Ok (a, mm) => Ok (a, mk_loader (set_ram (put (ram (mach l)) kpage (page_bytes mm upage)) (mach l)) (lfs l))
  | Err e => Err e
  end.

(** * Operations *)

Section Operations.
Context (mallocs : nat -> bool) (init_page_dir init_ram_pages : Z).
(** The local variables of [setup_stack]: its arrays, and the command. *)
Context (locals : mem) (sp argv esp_arg_ptrs file_name : Z).

(** The TSS, which [tss_update] points to the stack of the thread, is not modelled. *)
Definition process_activate (pagedir : Z) : M machine unit := pagedir_activate init_page_dir pagedir.

Definition validate_segment (phdr : Elf32_Phdr) (file : Z) : M fs bool :=
  if negb (Z.land (p_offset phdr) PGMASK =? Z.land (p_vaddr phdr) PGMASK) then mret false
  else
    len ← file_length file;
    let last := u32 (p_vaddr phdr + p_memsz phdr) in
    mret (negb (u32 len <? p_offset phdr) && negb (p_memsz phdr <? p_filesz phdr) && negb (p_memsz phdr =? 0) &&
          is_user_vaddr (p_vaddr phdr) && is_user_vaddr last && negb (last <? p_vaddr phdr) &&
          negb (p_vaddr phdr <? PGSIZE)).

(** One page of a segment: [page_read_bytes] bytes from the file, then zeros. *)
Definition load_page (pagedir file upage page_read_bytes : Z) (writable : bool) : M loader bool :=
  kpage ← on_mach (palloc_get_page PAL_USER);
  if kpage =? NULL then mret false
  else
    out ← on_lfs (file_read mallocs file (s32 page_read_bytes));
    on_mach (on_ram (deliver kpage out));;
    if negb (Z.of_nat (length out) =? s32 page_read_bytes) then on_mach (palloc_free_page kpage);; mret false
    else
      on_mach (on_ram (memset (u32 (kpage + page_read_bytes)) 0 (Z.to_nat (PGSIZE - page_read_bytes))));;
      ok ← on_mach (install_page init_page_dir init_ram_pages pagedir upage kpage writable);
      if ok : bool then mret true else on_mach (palloc_free_page kpage);; mret false.

Definition load_segment (pagedir file ofs upage read_bytes zero_bytes : Z) (writable : bool) : M loader bool :=
  ASSERT (u32 (read_bytes + zero_bytes) mod PGSIZE =? 0);;
  ASSERT (pg_ofs upage =? 0);;
  ASSERT (Z.rem ofs PGSIZE =? 0);;
  on_lfs (file_seek file ofs);;
  loop (S (Z.to_nat ((read_bytes + zero_bytes) / PGSIZE))) (fun '(read_bytes, zero_bytes, upage) =>
    if (0 <? read_bytes) || (0 <? zero_bytes) then
      let page_read_bytes := if read_bytes <? PGSIZE then read_bytes else PGSIZE in
      let page_zero_bytes := PGSIZE - page_read_bytes in
      ok ← load_page pagedir file upage page_read_bytes writable;
      if ok : bool then mret (inl (u32 (read_bytes - page_read_bytes), u32 (zero_bytes - page_zero_bytes), u32 (upage + PGSIZE)))
      else mret (inr false)
    else mret (inr true)) (read_bytes, zero_bytes, upage).

(** The case [PT_LOAD] of [load]. *)
Definition load_phdr (pagedir file : Z) (phdr : Elf32_Phdr) : M loader bool :=
  ok ← on_lfs (validate_segment phdr file);
  if ok : bool then
    let writable := negb (Z.land (p_flags phdr) PF_W =? 0) in
    let file_page := Z.land (p_offset phdr) (u32 (Z.lnot PGMASK)) in
    let mem_page := Z.land (p_vaddr phdr) (u32 (Z.lnot PGMASK)) in
    let page_offset := Z.land (p_vaddr phdr) PGMASK in
    let total := u32 (u32 (page_offset + p_memsz phdr + PGSIZE - 1) / PGSIZE * PGSIZE) in
    let read_bytes := if 0 <? p_filesz phdr then u32 (page_offset + p_filesz phdr) else 0 in
    let zero_bytes := if 0 <? p_filesz phdr then u32 (total - read_bytes) else total in
    load_segment pagedir file (s32 file_page) mem_page read_bytes zero_bytes writable
  else mret false.

(** The loop over the program headers. *)
Fixpoint load_phdrs (n : nat) (pagedir file file_ofs : Z) : M loader bool :=
  match n with
  | O => mret true
  | S n =>
    len ← on_lfs (file_length file);
    if (file_ofs <? 0) || (len <? file_ofs) then mret false
    else
      on_lfs (file_seek file file_ofs);;
      bs ← on_lfs (file_read mallocs file sizeof_Phdr);
      if negb (Z.of_nat (length bs) =? sizeof_Phdr) then mret false
      else
        let phdr := decode_Phdr (u8 <$> bs) in
        let t := p_type phdr in
        ok ← (if (t =? PT_DYNAMIC) || (t =? PT_INTERP) || (t =? PT_SHLIB) then mret false
              else if t =? PT_LOAD then load_phdr pagedir file phdr
              else mret true);
        if ok : bool then load_phdrs n pagedir file (s32 (file_ofs + sizeof_Phdr)) else mret false
  end.

(** Opening the executable: when it fails, the name is looked up once more, and if
    it is found the inode, not the name, is opened. *)
Definition open_executable (inode_name : Z -> list Z) (argv0 : list Z) : M fs Z :=
  file ← filesys_open mallocs argv0;
  if file =? NULL then
    dir ← dir_open_root mallocs;
    inode ← (if nonnull dir then dir_lookup mallocs dir argv0 else mret NULL);
    dir_close mallocs dir;;
    if nonnull inode then filesys_open mallocs (inode_name inode) else mret NULL
  else mret file.

(** The checks of the executable header. *)
Definition ehdr_ok (ehdr : Elf32_Ehdr) : bool :=
  bool_decide (take 7 (e_ident ehdr) = elf_ident) && (e_type ehdr =? 2) && (e_machine ehdr =? 3) && (e_version ehdr =? 1) &&
  (e_phentsize ehdr =? sizeof_Phdr) && negb (1024 <? e_phnum ehdr).

(** What [load] leaves in the thread and in the frame of the new process. *)
Record loaded : Type := mk_loaded { success : bool; eip : Z; esp : Z; exec_fp : Z; pagedir : Z }.

(** [load] after the executable is open: the headers, the segments and the stack. *)
Definition load_image (pd file : Z) : M loader loaded :=
  let done := mk_loaded false 0 0 file pd in
  bs ← on_lfs (file_read mallocs file sizeof_Ehdr);
  let ehdr := decode_Ehdr (u8 <$> bs) in
  if negb (Z.of_nat (length bs) =? sizeof_Ehdr) || negb (ehdr_ok ehdr) then mret done
  else
    ok ← load_phdrs (Z.to_nat (e_phnum ehdr)) pd file (s32 (e_phoff ehdr));
    if negb ok then mret done
    else
      stack ← setup_stack sp (on_mach (palloc_get_page (Z.lor PAL_USER PAL_ZERO)))
        (fun upage kpage w => on_mach (install_page init_page_dir init_ram_pages pd upage kpage w))
        (fun kpage => on_mach (palloc_free_page kpage)) (on_stack locals) argv esp_arg_ptrs file_name;
      match stack with
      | (true, Some esp) => on_lfs (file_deny_write file);; mret (mk_loaded true (e_entry ehdr) esp file pd)
      | _ => mret done
      end.

Definition load (inode_name : Z -> list Z) (argv0 : list Z) : M loader loaded :=
  pd ← on_mach (pagedir_create init_page_dir);
  if pd =? NULL then mret (mk_loaded false 0 0 NULL NULL)
  else
    on_mach (process_activate pd);;
    file ← on_lfs (open_executable inode_name argv0);
    if file =? NULL then mret (mk_loaded false 0 0 NULL pd)
    else load_image pd file.
End Operations.

(** * Address spaces *)

(** The page directory [pd] with the page tables [pts]; the frames it maps are
    allocated pages of the user pool. *)
Record space (s : machine) (pd : Z) (pts : gmap Z Z) : Prop := {
  sp_pd : pd_wf s pd pts;
  sp_frames : forall va e, 0 <= va < PHYS_BASE -> mapping s pts va = Some e -> owned s true (frame_of e)
}.

(** The byte at a user address. *)
Definition user_byte (s : machine) (pts : gmap Z Z) (va : Z) : option Z :=
  e ← mapping s pts va; ram s !! (frame_of e + va mod 4096).

(** The address at [va] is mapped and has the same byte. *)
Definition same_at s pts s' pts' (va : Z) : Prop :=
  mapping s' pts' va = mapping s pts va /\ user_byte s' pts' va = user_byte s pts va.
Definition same_space s pts s' pts' : Prop := forall va, 0 <= va < PHYS_BASE -> same_at s pts s' pts' va.

(** The allocated pages of the user pool keep their contents. *)
Definition frames_kept (s s' : machine) : Prop :=
  forall page, owned s true page -> owned s' true page /\ forall i, 0 <= i < 4096 -> ram s' !! (page + i) = ram s !! (page + i).

Section Spaces.
Implicit Types (s : machine) (pts : gmap Z Z).

Lemma space_user s s' pd pts :
  space s pd pts -> user_only s s' -> frames_kept s s' -> space s' pd pts /\ same_space s pts s' pts.
Proof.
  intros [Hpd Hfr] Hu Hk. destruct (pd_wf_user _ _ _ _ Hpd Hu) as [Hpd' Hmap]. split.
  - split; [done|]. intros va e Hva He. rewrite Hmap in He by done. apply Hk. by apply (Hfr va).
  - intros va Hva. split; [by apply Hmap|]. unfold user_byte. rewrite Hmap by done.
    destruct (mapping s pts va) as [e|] eqn:E; [|done]. cbn. apply (Hk _ (Hfr va e Hva E)). apply Z.mod_pos_bound. lia.
Qed.

Lemma wp_deliver m a bs (Q : unit -> mem -> Prop) :
  mapped m a (length bs) -> Q tt (put m a (u8 <$> bs)) -> wp (deliver a bs) m Q.
Proof.
  revert m a. induction bs as [|b bs IH]; intros m a Hm HQ; simpl in *; [by apply wp_ret|].
  apply wp_bind, wp_store8.
  - apply (Hm a). lia.
  - apply IH; [|done]. apply mapped_insert. intros i Hi. apply Hm. lia.
Qed.

(** Two addresses of one page have the same entry. *)
Lemma mapping_page s pts va vb : pg_no va = pg_no vb -> mapping s pts va = mapping s pts vb.
Proof.
  intros E. unfold mapping. assert (pd_no va = pd_no vb /\ pt_no va = pt_no vb) as [-> ->]; [|done].
  rewrite !pg_no_div in E. rewrite !pd_no_div, !pt_no_div. Z.to_euclidean_division_equations. lia.
Qed.

(** ** A new page *)

Lemma put_page_apart m kpage c page i :
  page mod 4096 = 0 -> kpage mod 4096 = 0 -> page ≠ kpage -> (length c <= 4096)%nat -> 0 <= i < 4096 ->
  put m kpage c !! (page + i) = m !! (page + i).
Proof. intros. rewrite lookup_put, decide_False; [done|]. Z.to_euclidean_division_equations. lia. Qed.

Lemma got_fresh s s1 zero kpage page : got s s1 true 1 zero kpage -> owned s true page -> page ≠ kpage.
Proof.
  intros G Ho ->. destruct (got_owned_kept _ _ _ _ _ _ _ _ G Ho) as [_ Hn]. apply Hn; [done|]. split; [apply G|lia].
Qed.

(** The new page [kpage] with [c] in its first bytes. *)
Lemma filled s s1 zero kpage c :
  machine_wf s -> bytes_ok (ram s) -> got s s1 true 1 zero kpage -> (length c <= 4096)%nat -> Forall byte c ->
  let s2 := set_ram (put (ram s1) kpage c) s1 in
  user_only s s2 /\ frames_kept s s2 /\ owned s2 true kpage.
Proof.
  intros Hwf Hb G Hl Hc s2.
  assert (bytes_ok (ram s1) /\ forall a, a < kpage \/ kpage + 4096 <= a -> ram s1 !! a = ram s !! a) as [Hb1 Er].
  { rewrite (got_ram _ _ _ _ _ _ G). destruct zero; [|done]. split; [apply bytes_ok_put; [done|apply Forall_replicate; unfold byte; lia]|].
    intros a Ha. rewrite lookup_put, length_replicate, decide_False by lia. done. }
  assert (in_group kpage 1 kpage) as Hg by (split; [apply G|lia]).
  pose proof (got_owned _ _ _ _ _ _ G _ Hg) as Ho. pose proof (got_range _ _ _ _ _ _ G) as Hrg. simpl in Hrg.
  split_and!.
  - split; cbn [ram s2 set_ram].
    + apply machine_wf_set_ram; [apply G|]. apply dom_put. pose proof (pw_mapped _ _ (mw_user _ (got_wf _ _ _ _ _ _ G))) as Hm.
      intros i Hi. apply Hm. destruct (got_pools _ _ _ _ _ _ G true) as [E1 E2]. simpl in E1, E2. rewrite E1, E2. lia.
    + by apply bytes_ok_put.
    + apply G.
    + intros page Hp. apply (got_other _ _ _ _ _ _ G false); [done|by left].
    + intros a Ha. rewrite lookup_put, decide_False by lia. apply Er. lia.
  - intros page Hp. pose proof (got_fresh _ _ _ _ _ G Hp) as Hne. destruct (got_owned_kept _ _ _ _ _ _ _ _ G Hp) as [Hp' _].
    split; [by apply owned_set_ram|]. intros i Hi. cbn [ram s2 set_ram]. destruct Hp as [[Hal _] _].
    rewrite put_page_apart by (done || apply G). apply Er. pose proof (got_aligned _ _ _ _ _ _ G). Z.to_euclidean_division_equations. lia.
  - by apply owned_set_ram.
Qed.

Lemma freed_back s s2 s3 kpage :
  user_only s s2 -> frames_kept s s2 -> owned s2 true kpage -> (forall page, owned s true page -> page ≠ kpage) ->
  freed s2 s3 true 1 kpage -> user_only s s3 /\ frames_kept s s3.
Proof.
  intros [U1 U2 U3 U4 U5] Hk [[Ha Hr] _] Hne [F1 F2 F3 F4 F5 F6]. destruct (U3 true) as [E1 E2], (U3 false) as [E3 E4]. cbn [the_pool] in *.
  split.
  - split; [done| | | |].
    + rewrite F3. apply bytes_ok_put; [done|]. apply Forall_replicate. unfold byte. lia.
    + intros u. destruct (F5 u), (U3 u). split; congruence.
    + intros page Hp. rewrite (F2 false); [by apply U4| |by left]. unfold in_pool in *. cbn [the_pool]. by rewrite E3, E4.
    + intros a Hlo. rewrite F3, lookup_put, decide_False; [by apply U5|]. lia.
  - intros page Hp. destruct (Hk page Hp) as [[Hi Hu] Hram]. pose proof (Hne page Hp) as Hn. split.
    + destruct (F5 true) as [E5 E6]. cbn [the_pool] in *. split; [unfold in_pool in *; cbn [the_pool] in *; by rewrite E5, E6|]. cbn [the_pool].
      rewrite (F2 true); [done|done|right]. intros [Hpa Hpr]. Z.to_euclidean_division_equations. lia.
    + intros i Hi'. rewrite F3. destruct Hi as [Hal _].
      rewrite put_page_apart; [by apply Hram|done|done|done|rewrite length_replicate; lia|done].
Qed.

(** [s'] has a new page at [upage], with [c] in it, and is [s] elsewhere. *)
Record paged s pts s' pts' (upage : Z) (w : bool) (c : list Z) : Prop := {
  pg_none : mapping s pts upage = None;
  pg_here : forall va, 0 <= va < PHYS_BASE -> pg_no va = pg_no upage ->
    (exists e, mapping s' pts' va = Some e /\ flag e PTE_W = w /\ flag e PTE_U = true) /\
    user_byte s' pts' va = c !! Z.to_nat (va mod 4096);
  pg_other : forall va, 0 <= va < PHYS_BASE -> pg_no va ≠ pg_no upage -> same_at s pts s' pts' va
}.

Lemma installed s s2 s3 pd pts pts' kpage upage w c :
  space s2 pd pts -> same_space s pts s2 pts -> owned s2 true kpage -> kernel_page kpage ->
  (forall i, 0 <= i < 4096 -> ram s2 !! (kpage + i) = c !! Z.to_nat i) -> 0 <= upage < PHYS_BASE ->
  mapping s2 pts upage = None -> pd_wf s3 pd pts' -> remapped s2 pts s3 pts' upage (Some (pte_of kpage w)) ->
  kernel_only s2 s3 -> space s3 pd pts' /\ paged s pts s3 pts' upage w c.
Proof.
  intros [Hpd Hfr] Hsame Hown Hkp Hc Hu Hnone Hpd' Hr (K1 & K2 & K3).
  destruct (pte_of_ok kpage w Hkp) as (_ & _ & Eframe & Ew & Eu). destruct (K1 true) as [E1 E2]. simpl in E1, E2.
  assert (forall page, owned s2 true page -> owned s3 true page /\ forall i, 0 <= i < 4096 -> ram s3 !! (page + i) = ram s2 !! (page + i)) as Hpg.
  { intros page [[Ha Hb] Hus]. cbn [the_pool] in *. split; [split; [split; simpl; [done|by rewrite E1, E2]|simpl; by rewrite K2]|].
    intros i Hi. apply K3. lia. }
  split.
  - split; [done|]. intros va e Hva He. rewrite Hr in He by done. destruct (pg_no va =? pg_no upage).
    + injection He as <-. rewrite Eframe. by apply Hpg.
    + apply Hpg. by apply (Hfr va).
  - split.
    + by rewrite <-(proj1 (Hsame upage Hu)).
    + intros va Hva Hno. assert (mapping s3 pts' va = Some (pte_of kpage w)) as Em by (by rewrite Hr, Hno, Z.eqb_refl).
      split; [by exists (pte_of kpage w)|]. unfold user_byte. rewrite Em. cbn. rewrite Eframe.
      pose proof (Z.mod_pos_bound va 4096 eq_refl). rewrite (proj2 (Hpg _ Hown)) by done. by apply Hc.
    + intros va Hva Hno. destruct (Hsame va Hva) as [S1 S2].
      assert (mapping s3 pts' va = mapping s2 pts va) as Em by (rewrite Hr by done; by rewrite (proj2 (Z.eqb_neq _ _))).
      split; [congruence|]. rewrite <-S2. unfold user_byte. rewrite Em. destruct (mapping s2 pts va) as [e|] eqn:E; [|done]. cbn.
      apply (Hpg _ (Hfr va e Hva E)). apply Z.mod_pos_bound. lia.
Qed.
End Spaces.

(** * Loading one page *)

(** The user pool is within the memory that the kernel maps. *)
Definition pool_mapped (init_ram_pages : Z) (s : machine) : Prop :=
  base (user_pool s) + 4096 * bit_cnt (used_map (user_pool s)) <= PHYS_BASE + 4096 * init_ram_pages.

(** [x] is [x0] but for the position of the file [f], at [p] now, and its contents
    are [bs]. *)
Record reading (x0 : fs) (m : gmap (list Z) Z) (F : gmap (list Z) (list Z)) (f n : Z) (bs : list Z) (p : Z) (x : fs) : Prop := {
  re_fs : fsys_at m F x;
  re_counts : counts_ok x;
  re_view : view x f = Some (n, bs, p);
  re_others : views_kept [f] x0 x;
  re_deny : snd ∘ handle_of <$> files x !! f = Some false
}.

(** A program header whose fields are 32-bit words. *)
Definition phdr_range (h : Elf32_Phdr) : Prop :=
  0 <= p_offset h < 2 ^ 32 /\ 0 <= p_vaddr h < 2 ^ 32 /\ 0 <= p_filesz h < 2 ^ 32 /\ 0 <= p_memsz h < 2 ^ 32.

(** A segment of a file of [len] bytes that fits into user memory. *)
Definition segment_ok (h : Elf32_Phdr) (len : Z) : Prop :=
  p_offset h mod 4096 = p_vaddr h mod 4096 /\ p_offset h <= len /\ p_filesz h <= p_memsz h /\ 0 < p_memsz h /\
  4096 <= p_vaddr h /\ p_vaddr h + p_memsz h < PHYS_BASE.

Lemma pgmask_mod v : Z.land v PGMASK = v mod 4096.
Proof. apply pg_ofs_mod. Qed.

Lemma bytes_u8 (c : list Z) : Forall byte (u8 <$> c).
Proof. apply Forall_fmap, Forall_true. intros b. unfold byte, u8. cbn. apply Z.mod_pos_bound. lia. Qed.

Lemma field_range k o c : (o + k <= length c)%nat -> 0 <= field k o (u8 <$> c) < 256 ^ Z.of_nat k.
Proof.
  intros H. unfold field. rewrite <-fmap_drop, <-fmap_take. pose proof (unle_range _ (bytes_u8 (take k (drop o c)))) as Hr.
  rewrite length_fmap, length_take, length_drop in Hr. by replace (k `min` (length c - o))%nat with k in Hr by lia.
Qed.

Lemma decode_Phdr_range c : length c = 32%nat -> phdr_range (decode_Phdr (u8 <$> c)).
Proof. intros H. unfold phdr_range. cbn [decode_Phdr p_offset p_vaddr p_filesz p_memsz]. split_and!; apply field_range; lia. Qed.

Lemma loader_eta l : mk_loader (mach l) (lfs l) = l.
Proof. by destruct l. Qed.
Lemma wp_on_mach {A} (c : M machine A) l (Q : A -> loader -> Prop) :
  wp c (mach l) (fun a x => Q a (mk_loader x (lfs l))) -> wp (on_mach c) l Q.
Proof. unfold wp, on_mach. by destruct (c (mach l)) as [[a x]|]. Qed.
Lemma wp_on_lfs {A} (c : M fs A) l (Q : A -> loader -> Prop) :
  wp c (lfs l) (fun a x => Q a (mk_loader (mach l) x)) -> wp (on_lfs c) l Q.
Proof. unfold wp, on_lfs. by destruct (c (lfs l)) as [[a x]|]. Qed.

Lemma wp_view_length A m x f n bs p (Q : Z -> fs -> Prop) :
  fs_inv A m x -> view x f = Some (n, bs, p) -> (Z.of_nat (length bs) < 2 ^ 31 -> Q (Z.of_nat (length bs)) x) -> wp (file_length f) x Q.
Proof.
  intros Hinv H3 HQ. destruct (view_handle _ _ _ _ _ H3) as (y & ino & Hh & _ & E & _). revert HQ. rewrite <-E. intros HQ.
  destruct (handle_not_fm A x f y ino) as (_ & Hf & _); [apply Hinv|done|]. pose proof Hh as [_ Hi _].
  pose proof (dv_wf _ _ (ly_device _ _ (fi_layout _ _ _ Hinv))) as Hwf. pose proof (fw_inode _ Hwf _ _ Hi) as Hd.
  pose proof (dk_len _ _ Hd). rewrite (length_bytes_of _ _ Hwf Hd) in HQ. eapply wp_file_length; [done|done|]. apply HQ. lia.
Qed.

Lemma wp_validate_segment A m x f n bs p phdr (Q : bool -> fs -> Prop) :
  fs_inv A m x -> view x f = Some (n, bs, p) -> phdr_range phdr ->
  (forall b, (b = true -> Z.of_nat (length bs) < 2 ^ 31) -> b = true <-> segment_ok phdr (Z.of_nat (length bs)) -> Q b x) ->
  wp (validate_segment phdr f) x Q.
Proof.
  intros Hinv Hv (R1 & R2 & R3 & R4) HQ. unfold validate_segment. rewrite !pgmask_mod.
  destruct (Z.eqb_spec (p_offset phdr mod 4096) (p_vaddr phdr mod 4096)) as [E|E]; cbn [negb]; cycle 1.
  { apply wp_ret, HQ; [done|]. unfold segment_ok. split; [done|]. by intros [? _]. }
  apply wp_bind. eapply wp_view_length; [done|done|]. intros Hl. apply wp_ret, HQ; [done|].
  assert (u32 (Z.of_nat (length bs)) = Z.of_nat (length bs)) as -> by (unfold u32; apply Z.mod_small; lia).
  rewrite !andb_true_iff, !negb_true_iff, !Z.ltb_ge, Z.eqb_neq. unfold is_user_vaddr. rewrite !Z.ltb_lt. unfold segment_ok, u32. change PGSIZE with 4096.
  assert (PHYS_BASE = 0xc0000000) as -> by done. Z.to_euclidean_division_equations. lia.
Qed.

Section Pages.
Context (mallocs : nat -> bool) (Hmalloc : forall n, mallocs n = true) (init_page_dir init_ram_pages : Z).
Context (x0 : fs) (m : gmap (list Z) Z) (F : gmap (list Z) (list Z)) (f n : Z) (bs : list Z).
Implicit Types (s : machine) (pts : gmap Z Z) (l : loader).

Lemma wp_read_file p size x (Q : list Z -> fs -> Prop) :
  reading x0 m F f n bs p x ->
  (forall x', let out := take (Z.to_nat size) (drop (Z.to_nat p) bs) in
     reading x0 m F f n bs (p + Z.of_nat (length out)) x' -> Q out x') ->
  wp (file_read mallocs f size) x Q.
Proof.
  intros [(A & Hinv & <-) H2 H3 H4 H5] HQ. eapply (wp_file_read mallocs Hmalloc A m); [done..|]. cbv zeta. intros x' R1 R2 R3 R4 R5.
  apply HQ. split; try done; [intros g v Hg Hv; apply R3; [done|]; by apply H4|].
  by rewrite option_fmap_compose, (R5 f), <-option_fmap_compose.
Qed.

(** Giving back the page that was just taken. *)
Lemma wp_give_back s s2 kpage (Q : unit -> machine -> Prop) pd pts :
  space s pd pts -> user_only s s2 -> frames_kept s s2 -> owned s2 true kpage -> (forall page, owned s true page -> page ≠ kpage) ->
  (forall s3, space s3 pd pts -> same_space s pts s3 pts -> same_pools s s3 -> Q tt s3) ->
  wp (palloc_free_page kpage) s2 Q.
Proof.
  intros Hsp Hu Hk Ho Hne HQ. pose proof Ho as [[Ha _] _]. eapply (wp_palloc_free_multiple s2 true); [apply Hu|lia|done| |].
  - intros page [Hpa Hpr]. replace page with kpage; [done|]. Z.to_euclidean_division_equations. lia.
  - intros s3 Hfr. destruct (freed_back _ _ _ _ Hu Hk Ho Hne Hfr) as [Hu3 Hk3].
    destruct (space_user _ _ _ _ Hsp Hu3 Hk3) as [Hsp3 Hs3]. apply HQ; [done|done|apply Hu3].
Qed.

Lemma put_put mm a c d : put (put mm a c) (a + Z.of_nat (length c)) d = put mm a (c ++ d).
Proof. by rewrite put_app. Qed.

Lemma wp_load_page pd upage r w l pts p (Q : bool -> loader -> Prop) :
  space (mach l) pd pts -> pool_mapped init_ram_pages (mach l) -> reading x0 m F f n bs p (lfs l) -> 0 <= r <= 4096 ->
  0 <= upage < PHYS_BASE -> upage mod 4096 = 0 -> pd ≠ init_page_dir ->
  (forall l' pts', let out := take (Z.to_nat r) (drop (Z.to_nat p) bs) in
     length out = Z.to_nat r -> space (mach l') pd pts' ->
     paged (mach l) pts (mach l') pts' upage w ((u8 <$> out) ++ replicate (Z.to_nat (4096 - r)) 0) ->
     same_pools (mach l) (mach l') -> reading x0 m F f n bs (p + r) (lfs l') -> Q true l') ->
  (forall l' p', space (mach l') pd pts -> same_space (mach l) pts (mach l') pts -> same_pools (mach l) (mach l') ->
     reading x0 m F f n bs p' (lfs l') -> Q false l') ->
  wp (load_page mallocs init_page_dir init_ram_pages pd f upage r w) l Q.
Proof.
  intros Hsp Hlim Hre Hr Hu Hua Hpd HQ1 HQ0. pose proof (sp_pd _ _ _ Hsp) as Hwf. pose proof (pd_machine _ _ _ Hwf) as Hm.
  apply wp_bind, wp_on_mach. apply wp_palloc_get_multiple; [done|lia| |]; cycle 1.
  { intros _. split; [done|]. rewrite Z.eqb_refl. apply wp_ret. eapply HQ0; [done| | |done]; [|by intros u]. by intros va Hva. }
  change (flag PAL_USER PAL_USER) with true. change (flag PAL_USER PAL_ZERO) with false. intros kpage s1 G Hkp.
  pose proof (got_range _ _ _ _ _ _ G) as Hrg. cbn [the_pool] in Hrg. pose proof Hkp as [Hk1 Hk2].
  rewrite (proj2 (Z.eqb_neq kpage NULL)) by (unfold NULL; unpage; lia).
  assert (forall page, owned (mach l) true page -> page ≠ kpage) as Hne by (intros page; by apply (got_fresh _ _ _ _ _ G)).
  apply wp_bind, wp_on_lfs. rewrite s32_small by lia. eapply wp_read_file; [done|]. cbv zeta. set (out := take _ _) in *. intros x1 Hre1. cbn [lfs mach].
  assert (length out <= Z.to_nat r)%nat as Hlo by (subst out; rewrite length_take; lia).
  pose proof (bytes_u8 out) as Hby.
  assert (mapped (ram s1) kpage 4096) as Hmap.
  { intros i Hi. apply (pw_mapped _ _ (mw_user _ (got_wf _ _ _ _ _ _ G))). destruct (got_pools _ _ _ _ _ _ G true) as [E1 E2]. cbn [the_pool] in E1, E2.
    rewrite E1, E2. lia. }
  apply wp_bind, wp_on_mach, wp_on_ram. apply wp_deliver; [apply (mapped_le _ _ 4096); [done|lia]|].
  destruct (Z.eqb_spec (Z.of_nat (length out)) r) as [El|El]; cbn [negb mach lfs].
  - apply wp_bind, wp_on_mach, wp_on_ram. cbn [ram set_ram].
    assert (u32 (kpage + r) = kpage + r) as -> by (unfold u32; apply Z.mod_small; pose proof (pw_high _ _ (mw_user _ Hm)); unpage; lia).
    change PGSIZE with 4096. apply wp_memset; [unfold NULL; unpage; lia| |].
    { apply mapped_put. intros i Hi. apply Hmap. lia. }
    change (u8 0) with 0. replace (kpage + r) with (kpage + Z.of_nat (length (u8 <$> out))) by (rewrite length_fmap; lia).
    cbn [mach lfs ram set_ram kernel_pool user_pool cr3]. rewrite put_put. unfold set_ram at 1. cbn [kernel_pool user_pool cr3 set_ram]. fold (set_ram (put (ram s1) kpage ((u8 <$> out) ++ replicate (Z.to_nat (4096 - r)) 0)) s1). set (c := (u8 <$> out) ++ _).
    assert (length c = 4096%nat) as Hlc by (unfold c; rewrite length_app, length_fmap, length_replicate; lia).
    destruct (filled (mach l) s1 false kpage c Hm (pd_bytes _ _ _ Hwf) G) as (U & K & O); [lia|apply Forall_app; split; [done|apply Forall_replicate; unfold byte; lia]|].
    set (s2 := set_ram (put (ram s1) kpage c) s1) in *. destruct (space_user _ _ _ _ Hsp U K) as [Hsp2 Hs2].
    apply wp_bind, wp_on_mach. cbn [mach lfs]. eapply (wp_install_page init_page_dir init_ram_pages s2 pd pts); [apply Hsp2|done|done|done| |done| |].
    + unfold pool_mapped in Hlim. unpage. Z.to_euclidean_division_equations. lia.
    + intros s3 pts' Hnone Hpd3 Hrm Hko. apply wp_ret. destruct (installed (mach l) s2 s3 pd pts pts' kpage upage w c) as [Hsp3 Hpg]; try done.
      { intros i Hi. cbn [ram s2 set_ram]. rewrite lookup_put, decide_True by lia. f_equal. lia. }
      apply (HQ1 _ pts'); cbn [mach lfs]; [lia|done|done| |by rewrite El in Hre1].
      intros u. destruct (uo_pools _ _ U u), (proj1 Hko u). split; congruence.
    + intros _. apply wp_bind, wp_on_mach. cbn [mach lfs]. eapply wp_give_back; [exact Hsp|done|done|done|done|].
      intros s3 H1 H2 H3. apply wp_ret. by eapply HQ0.
  - destruct (filled (mach l) s1 false kpage (u8 <$> out) Hm (pd_bytes _ _ _ Hwf) G) as (U & K & O); [rewrite length_fmap; lia|done|].
    apply wp_bind, wp_on_mach. cbn [mach lfs]. eapply wp_give_back; [exact Hsp|done|done|done|done|].
    intros s3 H1 H2 H3. apply wp_ret. by eapply HQ0.
Qed.

(** ** Segments *)

(** The byte that belongs at offset [d] of a segment. *)
Definition segment_byte (ofs read d : Z) : option Z :=
  if d <? read then u8 <$> bs !! Z.to_nat (ofs + d) else Some 0.

(** The [len] bytes from [upage] on are those of the segment, accessible to the
    user and writable or not as [w] says. *)
Definition segment_at s pts (upage ofs read len : Z) (w : bool) : Prop :=
  forall va, upage <= va < upage + len ->
    (exists e, mapping s pts va = Some e /\ flag e PTE_W = w /\ flag e PTE_U = true) /\
    user_byte s pts va = segment_byte ofs read (va - upage).

(** Everything but the [len] bytes from [upage] on is as it was. *)
Definition outside_same s pts s' pts' (upage len : Z) : Prop :=
  forall va, 0 <= va < PHYS_BASE -> va < upage \/ upage + len <= va -> same_at s pts s' pts' va.

(** The [len] bytes from [upage] on are not mapped. *)
Definition unmapped s pts (upage len : Z) : Prop := forall va, upage <= va < upage + len -> mapping s pts va = None.

Lemma page_content ofs read k r i :
  0 <= k -> 0 <= ofs -> 0 <= i < 4096 -> r = Z.min (Z.max 0 (read - 4096 * k)) 4096 ->
  let out := take (Z.to_nat r) (drop (Z.to_nat (ofs + Z.min (4096 * k) read)) bs) in
  length out = Z.to_nat r -> 0 <= read ->
  ((u8 <$> out) ++ replicate (Z.to_nat (4096 - r)) 0) !! Z.to_nat i = segment_byte ofs read (4096 * k + i).
Proof.
  intros Hk Ho Hi Hr out Hl Hrd. unfold segment_byte. destruct (Z.ltb_spec (4096 * k + i) read) as [Hlt|Hge].
  - rewrite lookup_app_l by (rewrite length_fmap; lia). rewrite list_lookup_fmap. f_equal. unfold out.
    rewrite lookup_take_lt by lia. rewrite lookup_drop. f_equal. lia.
  - rewrite lookup_app_r by (rewrite length_fmap; lia). rewrite length_fmap, Hl. apply lookup_replicate_2. lia.
Qed.

(** One more page of a segment. *)
Lemma segment_grow s0 pts0 s pts s' pts' upage ofs read k w c :
  0 <= upage -> upage mod 4096 = 0 -> 0 <= k -> upage + 4096 * (k + 1) <= PHYS_BASE ->
  segment_at s pts upage ofs read (4096 * k) w -> outside_same s0 pts0 s pts upage (4096 * k) ->
  unmapped s0 pts0 upage (4096 * k) -> paged s pts s' pts' (upage + 4096 * k) w c ->
  (forall i, 0 <= i < 4096 -> c !! Z.to_nat i = segment_byte ofs read (4096 * k + i)) ->
  segment_at s' pts' upage ofs read (4096 * (k + 1)) w /\ outside_same s0 pts0 s' pts' upage (4096 * (k + 1)) /\
  unmapped s0 pts0 upage (4096 * (k + 1)).
Proof.
  intros Hu Hua Hk Hle Hseg Hout Hfr [P1 P2 P3] Hc.
  assert (forall va, pg_no va = pg_no (upage + 4096 * k) <-> upage + 4096 * k <= va < upage + 4096 * k + 4096) as Hpage.
  { intros va. rewrite !pg_no_div. Z.to_euclidean_division_equations. lia. }
  split_and!.
  - intros va Hva. destruct (decide (pg_no va = pg_no (upage + 4096 * k))) as [E|E].
    + destruct (P2 va) as [H1 H2]; [lia|done|]. split; [done|]. apply Hpage in E. rewrite H2, Hc by (apply Z.mod_pos_bound; lia).
      f_equal. Z.to_euclidean_division_equations. lia.
    + assert (upage <= va < upage + 4096 * k) as Hv by (rewrite Hpage in E; lia). destruct (P3 va) as [H1 H2]; [lia|done|].
      rewrite H1, H2. by apply Hseg.
  - intros va Hva Hv. assert (pg_no va ≠ pg_no (upage + 4096 * k)) as E by (rewrite Hpage; lia).
    destruct (P3 va Hva E) as [H1 H2], (Hout va Hva) as [H3 H4]; [lia|]. split; congruence.
  - intros va Hva. destruct (decide (va < upage + 4096 * k)) as [Hlt|Hge]; [apply Hfr; lia|].
    destruct (Hout va) as [<- _]; [lia|lia|]. by rewrite (mapping_page s pts va (upage + 4096 * k)) by (apply Hpage; lia).
Qed.

Lemma outside_trans s0 pts0 s pts s' pts' upage len len' :
  outside_same s0 pts0 s pts upage len -> same_space s pts s' pts' -> len <= len' -> outside_same s0 pts0 s' pts' upage len'.
Proof. intros H1 H2 Hl va Hva Hv. destruct (H1 va Hva) as [A1 A2], (H2 va Hva) as [B1 B2]; [lia|]. split; congruence. Qed.

(** What the loop of [load_segment] has done after [k] of [N] pages. *)
Record loading l0 pd pts0 (upage ofs read N : Z) (w : bool) (j : nat) (st : Z * Z * Z) l : Prop := {
  lo_k : exists k, j = Z.to_nat (N - k) /\ 0 <= k <= N /\
    st = (Z.max 0 (read - 4096 * k), 4096 * (N - k) - Z.max 0 (read - 4096 * k), upage + 4096 * k) /\
    ofs + Z.min (4096 * k) read <= Z.max ofs (Z.of_nat (length bs)) /\
    reading x0 m F f n bs (ofs + Z.min (4096 * k) read) (lfs l) /\
    exists pts, space (mach l) pd pts /\ segment_at (mach l) pts upage ofs read (4096 * k) w /\
      outside_same (mach l0) pts0 (mach l) pts upage (4096 * k) /\ unmapped (mach l0) pts0 upage (4096 * k);
  lo_pools : same_pools (mach l0) (mach l)
}.

Lemma wp_seek_file p q x (Q : unit -> fs -> Prop) :
  reading x0 m F f n bs p x -> 0 <= q < 2 ^ 31 -> (forall x', reading x0 m F f n bs q x' -> Q tt x') -> wp (file_seek f q) x Q.
Proof.
  intros [(A & Hinv & HF) H2 H3 H4 H5] Hq HQ. destruct (view_handle _ _ _ _ _ H3) as (y & ino & Hh & <- & <- & <-).
  destruct (moved A m x f y ino q) as (M1 & M2 & M3 & M4 & M5); [done..|].
  eapply (wp_file_seek A m); [done..|]. intros x' ->. apply HQ. split; [exists A; split; [done|congruence]|done|exact (handle_view _ _ _ _ M4)| |].
  - intros g v Hg Hv. apply M5; [done|]. by apply H4.
  - cbn. rewrite lookup_insert_eq. by rewrite (hn_file _ _ _ _ Hh) in H5.
Qed.

Lemma pool_mapped_same s s' : pool_mapped init_ram_pages s -> same_pools s s' -> pool_mapped init_ram_pages s'.
Proof. intros Hp Hs. destruct (Hs true) as [E1 E2]. cbn [the_pool] in *. unfold pool_mapped in *. by rewrite E1, E2. Qed.

Lemma same_pools_trans s s1 s2 : same_pools s s1 -> same_pools s1 s2 -> same_pools s s2.
Proof. intros H1 H2 u. destruct (H1 u), (H2 u). split; congruence. Qed.

Lemma wp_load_segment pd l pts p upage ofs read zero N w (Q : bool -> loader -> Prop) :
  space (mach l) pd pts -> pool_mapped init_ram_pages (mach l) -> reading x0 m F f n bs p (lfs l) ->
  0 <= read -> 0 <= zero -> read + zero = 4096 * N -> 0 <= upage -> upage mod 4096 = 0 -> upage + 4096 * N <= PHYS_BASE ->
  0 <= ofs < 2 ^ 31 -> ofs mod 4096 = 0 -> pd ≠ init_page_dir ->
  (forall l' pts', space (mach l') pd pts' -> segment_at (mach l') pts' upage ofs read (4096 * N) w ->
     outside_same (mach l) pts (mach l') pts' upage (4096 * N) -> unmapped (mach l) pts upage (4096 * N) ->
     reading x0 m F f n bs (ofs + read) (lfs l') -> ofs + read <= Z.max ofs (Z.of_nat (length bs)) -> same_pools (mach l) (mach l') -> Q true l') ->
  (forall l' pts' q, space (mach l') pd pts' -> outside_same (mach l) pts (mach l') pts' upage (4096 * N) ->
     reading x0 m F f n bs q (lfs l') -> same_pools (mach l) (mach l') -> Q false l') ->
  wp (load_segment mallocs init_page_dir init_ram_pages pd f ofs upage read zero w) l Q.
Proof.
  intros Hsp Hlim Hre Hr Hz HN Hu Hua Hend Hofs Hoa Hpd HQ1 HQ0. unfold load_segment.
  change PGSIZE with 4096. assert (0 <= N) by lia.
  assert (PHYS_BASE = 0xc0000000) as Epb by done.
  rewrite HN. assert (u32 (4096 * N) = 4096 * N) as -> by (unfold u32; apply Z.mod_small; lia).
  apply wp_bind, wp_assert; [apply Z.eqb_eq; Z.to_euclidean_division_equations; lia|].
  apply wp_bind, wp_assert; [apply Z.eqb_eq; by rewrite pg_ofs_mod|].
  apply wp_bind, wp_assert; [apply Z.eqb_eq; rewrite Z.rem_mod_nonneg; lia|].
  apply wp_bind, wp_on_lfs. eapply wp_seek_file; [done|done|]. intros x1 Hre1.
  replace (4096 * N / 4096) with N by (Z.to_euclidean_division_equations; lia).
  eapply (wp_loop (loading l pd pts upage ofs read N w)) with (n := Z.to_nat N); [| |lia].
  - intros j st l1 [(k & -> & Hk & -> & Hlen & Hre2 & pts2 & Hsp2 & Hseg & Hout & Hfree) Hpools].
    destruct (decide (k = N)) as [->|Hne].
    + replace (_ || _) with false; [|symmetry; apply orb_false_iff; split; apply Z.ltb_ge; lia]. apply wp_ret.
      replace (Z.min (4096 * N) read) with read in * by lia. by eapply HQ1.
    + replace (_ || _) with true; [|symmetry; apply orb_true_iff; rewrite !Z.ltb_lt; lia].
      replace (if _ <? _ then _ else _) with (Z.min (Z.max 0 (read - 4096 * k)) 4096)
        by (destruct (Z.ltb_spec (Z.max 0 (read - 4096 * k)) 4096); lia).
      set (r := Z.min _ 4096). apply wp_bind.
      eapply (wp_load_page pd (upage + 4096 * k) r w l1 pts2); [done|by eapply pool_mapped_same|done|lia|lia| |done| |].
      { Z.to_euclidean_division_equations. lia. }
      * cbv zeta. intros l2 pts3 Hl Hsp3 Hpg Hp3 Hre3. apply wp_ret. exists (Z.to_nat (N - (k + 1))). split; [lia|].
        destruct (segment_grow (mach l) pts (mach l1) pts2 (mach l2) pts3 upage ofs read k w _ Hu Hua (proj1 Hk) ltac:(lia) Hseg Hout Hfree Hpg) as (Hseg' & Hout' & Hfree').
        { intros i Hi. apply page_content; [lia|lia|done|done|done|done]. }
        split; [|by eapply same_pools_trans]. exists (k + 1). split_and!; [done|lia|lia| | | |by exists pts3].
        -- unfold u32. rewrite !Z.mod_small by lia. f_equal; [f_equal|]; lia.
        -- rewrite length_take, length_drop in Hl. lia.
        -- replace (ofs + Z.min (4096 * (k + 1)) read) with (ofs + Z.min (4096 * k) read + r) by lia. done.
      * intros l2 q Hsp3 Hs3 Hp3 Hre3. apply wp_ret. eapply HQ0; [done| |done|by eapply same_pools_trans].
        eapply outside_trans; [done|done|lia].
  - split; [|by intros u]. exists 0. rewrite Z.mul_0_r, Z.add_0_r, Z.sub_0_r. split_and!; [done|lia|lia| |lia| |].
    + f_equal. f_equal; lia.
    + rewrite Z.min_l by lia. by rewrite Z.add_0_r.
    + exists pts. split_and!; [done| | |]; cbn [mach]; [intros va Hva; lia|by intros va|intros va Hva; lia].
Qed.
(** ** Program headers *)

Lemma wp_length_file p x (Q : Z -> fs -> Prop) :
  reading x0 m F f n bs p x -> (Z.of_nat (length bs) < 2 ^ 31 -> Q (Z.of_nat (length bs)) x) -> wp (file_length f) x Q.
Proof. intros [(A & Hinv & _) H2 H3 _ _] HQ. by eapply wp_view_length. Qed.

(** The pages of a segment. *)
Definition seg_start (h : Elf32_Phdr) : Z := p_vaddr h / 4096 * 4096.
Definition seg_pages (h : Elf32_Phdr) : Z := (p_vaddr h mod 4096 + p_memsz h + 4095) / 4096.

(** The segment [h] of the file is in memory: its bytes from the file, then zeros,
    writable if the header says so. *)
Definition phdr_mapped s pts (h : Elf32_Phdr) : Prop :=
  forall va, p_vaddr h <= va < p_vaddr h + p_memsz h ->
    (exists e, mapping s pts va = Some e /\ flag e PTE_W = flag (p_flags h) PF_W /\ flag e PTE_U = true) /\
    user_byte s pts va =
      (if va <? p_vaddr h + p_filesz h then u8 <$> bs !! Z.to_nat (p_offset h + (va - p_vaddr h)) else Some 0).

(** What was mapped is as it was, and the first page is not mapped if it was not. *)
Definition extends s pts s' pts' : Prop :=
  (forall va, 0 <= va < PHYS_BASE -> is_Some (mapping s pts va) -> same_at s pts s' pts' va) /\
  (forall va, 0 <= va < 4096 -> mapping s' pts' va = mapping s pts va).

Lemma extends_refl s pts : extends s pts s pts.
Proof. by split. Qed.
Lemma extends_trans s pts s1 pts1 s2 pts2 : extends s pts s1 pts1 -> extends s1 pts1 s2 pts2 -> extends s pts s2 pts2.
Proof.
  intros [A1 A2] [B1 B2]. split; [|intros va Hva; by rewrite B2, A2]. intros va Hva Hs.
  destruct (A1 va Hva Hs) as [E1 E2]. destruct (B1 va Hva) as [E3 E4]; [by rewrite E1|]. split; congruence.
Qed.

Lemma phdr_mapped_extends s pts s' pts' h :
  0 <= p_vaddr h -> p_vaddr h + p_memsz h <= PHYS_BASE -> extends s pts s' pts' -> phdr_mapped s pts h -> phdr_mapped s' pts' h.
Proof.
  intros H0 H1 [He _] Hm va Hva. destruct (Hm va Hva) as [(e & E & Hf) Hb]. destruct (He va) as [-> ->]; [lia|by rewrite E|]. split; [by exists e|done].
Qed.

Lemma seg_bounds h len : phdr_range h -> segment_ok h len ->
  4096 <= seg_start h /\ seg_start h mod 4096 = 0 /\ seg_start h <= p_vaddr h /\ 0 < seg_pages h /\
  p_vaddr h + p_memsz h <= seg_start h + 4096 * seg_pages h <= PHYS_BASE.
Proof.
  intros (R1 & R2 & R3 & R4) (S1 & S2 & S3 & S4 & S5 & S6). unfold seg_start, seg_pages.
  assert (PHYS_BASE = 0xc0000000) as Epb by done. rewrite Epb in *. Z.to_euclidean_division_equations. lia.
Qed.

Lemma segment_mapped s pts h len :
  phdr_range h -> segment_ok h len ->
  segment_at s pts (seg_start h) (p_offset h / 4096 * 4096) (if 0 <? p_filesz h then p_vaddr h mod 4096 + p_filesz h else 0)
    (4096 * seg_pages h) (flag (p_flags h) PF_W) -> phdr_mapped s pts h.
Proof.
  intros Hr Hok Hs va Hva. pose proof (seg_bounds h len Hr Hok) as Hb. destruct Hr as (R1 & R2 & R3 & R4), Hok as (S1 & S2 & S3 & S4 & S5 & S6).
  destruct (Hs va) as [He ->]; [lia|]. split; [done|]. unfold segment_byte, seg_start.
  assert (p_vaddr h = p_vaddr h / 4096 * 4096 + p_vaddr h mod 4096) as Ev by (Z.to_euclidean_division_equations; lia).
  assert (p_offset h = p_offset h / 4096 * 4096 + p_offset h mod 4096) as Eo by (Z.to_euclidean_division_equations; lia).
  set (v := p_vaddr h / 4096 * 4096) in *. set (o := p_offset h / 4096 * 4096) in *.
  assert (0 <= p_vaddr h mod 4096) by (apply Z.mod_pos_bound; lia).
  destruct (Z.ltb_spec 0 (p_filesz h)); destruct (Z.ltb_spec va (p_vaddr h + p_filesz h)); try lia.
  - rewrite (proj2 (Z.ltb_lt _ _)) by lia. do 3 f_equal. lia.
  - rewrite (proj2 (Z.ltb_ge _ _)) by lia. done.
  - rewrite (proj2 (Z.ltb_ge _ _)) by lia. done.
Qed.

Lemma outside_extends s pts s' pts' h len :
  phdr_range h -> segment_ok h len -> outside_same s pts s' pts' (seg_start h) (4096 * seg_pages h) ->
  unmapped s pts (seg_start h) (4096 * seg_pages h) -> extends s pts s' pts'.
Proof.
  intros Hr Hok Ho Hu. pose proof (seg_bounds h len Hr Hok) as Hb. split.
  - intros va Hva [e He]. apply Ho; [done|]. destruct (decide (va < seg_start h)) as [|Hge]; [by left|].
    destruct (decide (seg_start h + 4096 * seg_pages h <= va)) as [|Hlt]; [by right|]. rewrite Hu in He by lia. done.
  - intros va Hva. assert (0 <= va < PHYS_BASE) as Hva' by (change PHYS_BASE with 0xc0000000; lia). destruct (Ho va Hva'); [lia|done].
Qed.
Lemma wp_load_phdr pd l pts p h (Q : bool -> loader -> Prop) :
  space (mach l) pd pts -> pool_mapped init_ram_pages (mach l) -> reading x0 m F f n bs p (lfs l) -> phdr_range h -> pd ≠ init_page_dir ->
  (forall l' pts' q, space (mach l') pd pts' -> segment_ok h (Z.of_nat (length bs)) -> phdr_mapped (mach l') pts' h ->
     extends (mach l) pts (mach l') pts' -> reading x0 m F f n bs q (lfs l') -> same_pools (mach l) (mach l') -> Q true l') ->
  (forall l' pts' q, space (mach l') pd pts' -> (forall va, 0 <= va < 4096 -> mapping (mach l') pts' va = mapping (mach l) pts va) ->
     reading x0 m F f n bs q (lfs l') -> same_pools (mach l) (mach l') -> Q false l') ->
  wp (load_phdr mallocs init_page_dir init_ram_pages pd f h) l Q.
Proof.
  intros Hsp Hlim Hre Hr Hpd HQ1 HQ0. apply wp_bind, wp_on_lfs. destruct (re_fs _ _ _ _ _ _ _ _ Hre) as (A & Hinv & _).
  eapply (wp_validate_segment A); [done|apply Hre|done|]. intros b Hl Hb. rewrite loader_eta. cbv zeta.
  destruct b; cycle 1. { apply wp_ret. by eapply HQ0. }
  pose proof (proj1 Hb eq_refl) as Hok. specialize (Hl eq_refl). pose proof (seg_bounds h _ Hr Hok) as (B1 & B2 & B3 & B4 & B5).
  pose proof Hr as (R1 & R2 & R3 & R4). pose proof Hok as (S1 & S2 & S3 & S4 & S5 & S6).
  assert (PHYS_BASE = 0xc0000000) as Epb by done. rewrite pgmask_mod. fold (pg_round_down (p_offset h)) (pg_round_down (p_vaddr h)).
  rewrite !pg_round_down_div by done. fold (seg_start h) (flag (p_flags h) PF_W). change PGSIZE with 4096.
  pose proof (Z.mod_pos_bound (p_vaddr h) 4096 eq_refl) as Hm.
  assert (seg_start h = p_vaddr h - p_vaddr h mod 4096) as Es by (unfold seg_start; Z.to_euclidean_division_equations; lia).
  assert (u32 (u32 (p_vaddr h mod 4096 + p_memsz h + 4096 - 1) / 4096 * 4096) = 4096 * seg_pages h) as ->.
  { unfold u32. rewrite (Z.mod_small (_ - 1)) by lia. replace (_ - 1) with (p_vaddr h mod 4096 + p_memsz h + 4095) by lia.
    fold (seg_pages h). rewrite Z.mod_small by lia. lia. }
  set (read := if 0 <? p_filesz h then p_vaddr h mod 4096 + p_filesz h else 0).
  assert ((if 0 <? p_filesz h then u32 (p_vaddr h mod 4096 + p_filesz h) else 0) = read) as ->.
  { unfold read, u32. destruct (0 <? p_filesz h); [apply Z.mod_small; lia|done]. }
  assert (0 <= read <= 4096 * seg_pages h) as Hrd by (unfold read; destruct (0 <? p_filesz h); lia).
  assert ((if 0 <? p_filesz h then u32 (4096 * seg_pages h - read) else 4096 * seg_pages h) = 4096 * seg_pages h - read) as ->.
  { unfold u32. unfold read in *. destruct (0 <? p_filesz h); [rewrite Z.mod_small; lia|lia]. }
  assert (0 <= p_offset h / 4096 * 4096 < 2 ^ 31 /\ (p_offset h / 4096 * 4096) mod 4096 = 0) as [Ho1 Ho2] by (Z.to_euclidean_division_equations; lia).
  rewrite s32_small by lia. eapply (wp_load_segment pd l pts) with (N := seg_pages h); try (done || lia).
  - intros l' pts' H1 H2 H3 H4 H5 H6 H7. eapply HQ1; [done|done| | |done|done]; [by eapply segment_mapped|by eapply outside_extends].
  - intros l' pts' q H1 H2 H3 H4. eapply HQ0; [done| |done|done]. intros va Hva. destruct (H2 va) as [E _]; [lia|lia|done].
Qed.

(** The program header at offset [o] of the file. *)
Definition phdr_at (o : Z) : Elf32_Phdr := decode_Phdr (u8 <$> take 32 (drop (Z.to_nat o) bs)).

(** The first [cnt] program headers from offset [o] on are within the file, none
    of them asks for dynamic linking, and those to load are in memory. *)
Definition phdrs_loaded s pts (o : Z) (cnt : nat) : Prop :=
  forall i, (i < cnt)%nat -> let h := phdr_at (o + 32 * Z.of_nat i) in
    0 <= o /\ o + 32 * Z.of_nat i + 32 <= Z.of_nat (length bs) /\ (p_type h ∉ [PT_DYNAMIC; PT_INTERP; PT_SHLIB]) /\
    (p_type h = PT_LOAD -> segment_ok h (Z.of_nat (length bs)) /\ phdr_mapped s pts h).

Lemma phdr_at_range o : 0 <= o -> o + 32 <= Z.of_nat (length bs) -> phdr_range (phdr_at o).
Proof. intros. apply decode_Phdr_range. rewrite length_take, length_drop. lia. Qed.

Lemma phdrs_loaded_extends s pts s' pts' o cnt :
  extends s pts s' pts' -> phdrs_loaded s pts o cnt -> phdrs_loaded s' pts' o cnt.
Proof.
  intros He Hl i Hi h. destruct (Hl i Hi) as (H0 & H1 & H2 & H3). fold h in H1, H2, H3. clearbody h. split_and!; [done..|].
  intros Ht. destruct (H3 Ht) as [Hok Hm]. split; [done|]. pose proof Hok as (S1 & S2 & S3 & S4 & S5 & S6).
  eapply phdr_mapped_extends; [..|exact He|exact Hm]; lia.
Qed.

Lemma phdrs_loaded_S s pts o cnt :
  0 <= o -> o + 32 <= Z.of_nat (length bs) -> p_type (phdr_at o) ∉ [PT_DYNAMIC; PT_INTERP; PT_SHLIB] ->
  (p_type (phdr_at o) = PT_LOAD -> segment_ok (phdr_at o) (Z.of_nat (length bs)) /\ phdr_mapped s pts (phdr_at o)) ->
  phdrs_loaded s pts (o + 32) cnt -> phdrs_loaded s pts o (S cnt).
Proof.
  intros H1 H2 H3 H4 Hl. intros [|i] Hi; cbv zeta; [by rewrite Z.mul_0_r, Z.add_0_r|].
  destruct (Hl i ltac:(lia)) as [_ Hi']. split; [done|]. by replace (o + 32 * Z.of_nat (S i)) with (o + 32 + 32 * Z.of_nat i) by lia.
Qed.
Lemma wp_load_phdrs cnt pd l pts p o (Q : bool -> loader -> Prop) :
  space (mach l) pd pts -> pool_mapped init_ram_pages (mach l) -> reading x0 m F f n bs p (lfs l) -> pd ≠ init_page_dir ->
  (forall l' pts' q, space (mach l') pd pts' -> phdrs_loaded (mach l') pts' o cnt -> extends (mach l) pts (mach l') pts' ->
     reading x0 m F f n bs q (lfs l') -> same_pools (mach l) (mach l') -> Q true l') ->
  (forall l' pts' q, space (mach l') pd pts' -> (forall va, 0 <= va < 4096 -> mapping (mach l') pts' va = mapping (mach l) pts va) ->
     reading x0 m F f n bs q (lfs l') -> same_pools (mach l) (mach l') -> Q false l') ->
  wp (load_phdrs mallocs init_page_dir init_ram_pages cnt pd f o) l Q.
Proof.
  revert l pts p o. induction cnt as [|cnt IH]; intros l pts p o Hsp Hlim Hre Hpd HQ1 HQ0; cbn [load_phdrs].
  { apply wp_ret. eapply HQ1; [done| |apply extends_refl|done|done]. intros i Hi. lia. }
  apply wp_bind, wp_on_lfs. eapply wp_length_file; [done|]. intros Hlen. rewrite loader_eta.
  destruct ((o <? 0) || (Z.of_nat (length bs) <? o)) eqn:E; [apply wp_ret; by eapply HQ0|].
  apply orb_false_iff in E as [Ho1%Z.ltb_ge Ho2%Z.ltb_ge].
  apply wp_bind, wp_on_lfs. eapply wp_seek_file; [done|lia|]. intros x1 Hre1.
  apply wp_bind, wp_on_lfs. eapply wp_read_file; [done|]. cbv zeta. intros x2 Hre2. cbn [mach lfs].
  change (Z.to_nat sizeof_Phdr) with 32%nat in *. set (out := take 32 _) in *. change sizeof_Phdr with 32.
  destruct (Z.eqb_spec (Z.of_nat (length out)) 32) as [El|El]; cbn [negb]; [|apply wp_ret; by eapply HQ0].
  assert (o + 32 <= Z.of_nat (length bs)) as Hin by (subst out; rewrite length_take, length_drop in El; lia).
  cbv zeta. change (decode_Phdr (u8 <$> out)) with (phdr_at o). set (t := p_type (phdr_at o)). apply wp_bind.
  destruct ((t =? PT_DYNAMIC) || (t =? PT_INTERP) || (t =? PT_SHLIB)) eqn:Et; [do 2 apply wp_ret; by eapply HQ0|].
  apply orb_false_iff in Et as [[E1%Z.eqb_neq E2%Z.eqb_neq]%orb_false_iff E3%Z.eqb_neq].
  assert (t ∉ [PT_DYNAMIC; PT_INTERP; PT_SHLIB]) as Hbad by (rewrite !not_elem_of_cons; by split_and!; [..|apply not_elem_of_nil]).
  rewrite s32_small by lia. change sizeof_Phdr with 32.
  destruct (Z.eqb_spec t PT_LOAD) as [Et|Et].
  - eapply (wp_load_phdr pd _ pts); [done|done|done|by apply phdr_at_range|done| |].
    + intros l1 pts1 q1 Hsp1 Hok Hmap Hex Hre3 Hp1. cbn [mach] in *. eapply IH; [done|by eapply pool_mapped_same|done|done| |].
      * intros l2 pts2 q2 Hsp2 Hl Hex2 Hre4 Hp2. eapply HQ1; [done| |by eapply extends_trans|done|by eapply same_pools_trans].
        apply phdrs_loaded_S; [done|done|done| |done]. intros _. split; [done|]. pose proof Hok as (S1 & S2 & S3 & S4 & S5 & S6).
        eapply phdr_mapped_extends; [..|exact Hex2|exact Hmap]; lia.
      * intros l2 pts2 q2 Hsp2 Hlow Hre4 Hp2. eapply HQ0; [done| |done|by eapply same_pools_trans].
        intros va Hva. rewrite Hlow by done. by apply Hex.
    + intros l1 pts1 q1 H1 H2 H3 H4. apply wp_ret. by eapply HQ0.
  - apply wp_ret. eapply IH; [done|done|done|done| |].
    + intros l2 pts2 q2 Hsp2 Hl Hex2 Hre4 Hp2. eapply HQ1; [done| |done|done|done]. by apply phdrs_loaded_S.
    + intros l2 pts2 q2 H1 H2 H3 H4. by eapply HQ0.
Qed.
(** ** The stack *)

Lemma lookup_page_bytes mm a i : (i < 4096)%nat -> page_bytes mm a !! i = Some (u8 (default 0 (mm !! (a + Z.of_nat i)))).
Proof. intros Hi. unfold page_bytes. by rewrite list_lookup_fmap, lookup_seq_lt. Qed.
Lemma length_page_bytes mm a : length (page_bytes mm a) = 4096%nat.
Proof. unfold page_bytes. by rewrite length_fmap, length_seq. Qed.
Lemma page_bytes_ok mm a : Forall byte (page_bytes mm a).
Proof. apply Forall_fmap, Forall_true. intros i. unfold byte, u8. cbn. apply Z.mod_pos_bound. lia. Qed.

Lemma page_bytes_zero mm a : (forall i, 0 <= i < 4096 -> mm !! (a + i) = Some 0) -> page_bytes mm a = replicate 4096 0.
Proof.
  intros H. apply (list_eq_same_length _ _ 4096); [by rewrite length_replicate|apply length_page_bytes|].
  intros i x y Hi Hx Hy. rewrite lookup_page_bytes, H in Hx by lia. apply lookup_replicate in Hy as [-> _]. by simplify_eq.
Qed.

(** The stack page holds what [mm] has there, and the user may write to it. *)
Definition stack_holds s pts (mm : mem) : Prop :=
  forall va, PHYS_BASE - 4096 <= va < PHYS_BASE ->
    (exists e, mapping s pts va = Some e /\ flag e PTE_W = true /\ flag e PTE_U = true) /\ user_byte s pts va = mm !! va.

(** New contents for a frame that only the page [upage] is mapped to. *)
Lemma frame_rewritten s pd pts kpage upage e c :
  space s pd pts -> owned s true kpage -> length c = 4096%nat -> Forall byte c ->
  (forall va, 0 <= va < PHYS_BASE -> pg_no va = pg_no upage -> mapping s pts va = Some e) -> frame_of e = kpage ->
  (forall va e', 0 <= va < PHYS_BASE -> pg_no va ≠ pg_no upage -> mapping s pts va = Some e' -> frame_of e' ≠ kpage) ->
  let s' := set_ram (put (ram s) kpage c) s in
  space s' pd pts /\ (forall va, 0 <= va < PHYS_BASE -> mapping s' pts va = mapping s pts va) /\
  (forall va, 0 <= va < PHYS_BASE -> pg_no va = pg_no upage -> user_byte s' pts va = c !! Z.to_nat (va mod 4096)) /\
  (forall va, 0 <= va < PHYS_BASE -> pg_no va ≠ pg_no upage -> user_byte s' pts va = user_byte s pts va).
Proof.
  intros [Hpd Hfr] Ho Hl Hc Hhere Hfe Hother s'. pose proof (pd_machine _ _ _ Hpd) as Hm. pose proof Ho as [[Ha Hr] _]. cbn [the_pool] in Hr.
  assert (user_only s s') as Hu.
  { split; cbn [ram s' set_ram].
    - apply machine_wf_set_ram; [done|]. apply dom_put. pose proof (pw_mapped _ _ (mw_user _ Hm)) as Hmap.
      intros i Hi. apply Hmap. pose proof (pw_align _ _ (mw_user _ Hm)). Z.to_euclidean_division_equations. lia.
    - apply bytes_ok_put; [apply Hpd|done].
    - by intros u.
    - done.
    - intros a Hlo. rewrite lookup_put, decide_False by lia. done. }
  destruct (pd_wf_user _ _ _ _ Hpd Hu) as [Hpd' Hmap]. split_and!; [|done| |].
  - split; [done|]. intros va e' Hva He'. rewrite Hmap in He' by done. apply owned_set_ram. by apply (Hfr va).
  - intros va Hva Hno. unfold user_byte. rewrite Hmap, (Hhere va Hva Hno) by done. cbn. rewrite Hfe.
    pose proof (Z.mod_pos_bound va 4096 eq_refl). rewrite lookup_put, decide_True by lia. f_equal. lia.
  - intros va Hva Hno. unfold user_byte. rewrite Hmap by done. destruct (mapping s pts va) as [e'|] eqn:E; [|done]. cbn.
    pose proof (Hother va e' Hva Hno E) as Hne. destruct (Hfr va e' Hva E) as [[Ha' _] _].
    apply put_page_apart; [done|done|done|lia|]. apply Z.mod_pos_bound. lia.
Qed.
Lemma top_page va : 0 <= va < PHYS_BASE -> pg_no va = pg_no (PHYS_BASE - 4096) <-> PHYS_BASE - 4096 <= va.
Proof. intros Hva. rewrite !pg_no_div. change PHYS_BASE with 0xc0000000 in *. Z.to_euclidean_division_equations. lia. Qed.

Lemma same_extends s pts s' pts' : same_space s pts s' pts' -> extends s pts s' pts'.
Proof. intros H. split; [intros va Hva _; by apply H|]. intros va Hva. apply H. change PHYS_BASE with 0xc0000000. lia. Qed.

(** A new top page leaves everything else as it was. *)
Lemma stack_extends s pts s3 pts' s4 c :
  paged s pts s3 pts' (PHYS_BASE - 4096) true c ->
  (forall va, 0 <= va < PHYS_BASE -> mapping s4 pts' va = mapping s3 pts' va) ->
  (forall va, 0 <= va < PHYS_BASE -> pg_no va ≠ pg_no (PHYS_BASE - 4096) -> user_byte s4 pts' va = user_byte s3 pts' va) ->
  extends s pts s4 pts'.
Proof.
  intros [P1 P2 P3] Hm Hb. split.
  - intros va Hva [e He]. assert (pg_no va ≠ pg_no (PHYS_BASE - 4096)) as Hno.
    { intros E. rewrite (mapping_page _ _ _ _ E), P1 in He. done. }
    destruct (P3 va Hva Hno) as [E1 E2]. split; [by rewrite Hm|by rewrite Hb].
  - intros va Hva. assert (0 <= va < PHYS_BASE) as Hva' by (change PHYS_BASE with 0xc0000000; lia). rewrite Hm by done.
    apply P3; [done|]. rewrite top_page by done. change PHYS_BASE with 0xc0000000. lia.
Qed.

Lemma wp_on_stack locals kpage c l (Q : Z -> loader -> Prop) :
  wp c (put locals (PHYS_BASE - PGSIZE) (page_bytes (ram (mach l)) kpage))
    (fun a mm => Q a (mk_loader (set_ram (put (ram (mach l)) kpage (page_bytes mm (PHYS_BASE - PGSIZE))) (mach l)) (lfs l))) ->
  wp (on_stack locals kpage c) l Q.
Proof. unfold wp, on_stack. by destruct (c _) as [[a mm]|]. Qed.

Lemma wp_setup_stack pd l pts p (locals : mem) sp argv eap file_name cmd (Q : bool * option Z -> loader -> Prop) :
  space (mach l) pd pts -> pool_mapped init_ram_pages (mach l) -> reading x0 m F f n bs p (lfs l) -> pd ≠ init_page_dir ->
  stack_pre sp (put locals (PHYS_BASE - PGSIZE) (replicate (Z.to_nat PGSIZE) 0)) file_name argv eap cmd ->
  (forall l' pts' esp mm, space (mach l') pd pts' -> extends (mach l) pts (mach l') pts' -> args_layout cmd esp mm ->
     stack_holds (mach l') pts' mm -> reading x0 m F f n bs p (lfs l') -> same_pools (mach l) (mach l') -> Q (true, Some esp) l') ->
  (forall l' pts', space (mach l') pd pts' -> extends (mach l) pts (mach l') pts' -> reading x0 m F f n bs p (lfs l') ->
     same_pools (mach l) (mach l') -> Q (false, None) l') ->
  wp (setup_stack sp (on_mach (palloc_get_page (Z.lor PAL_USER PAL_ZERO)))
        (fun upage kpage w => on_mach (install_page init_page_dir init_ram_pages pd upage kpage w))
        (fun kpage => on_mach (palloc_free_page kpage)) (on_stack locals) argv eap file_name) l Q.
Proof.
  intros Hsp Hlim Hre Hpd Hpre HQ1 HQ0. pose proof (sp_pd _ _ _ Hsp) as Hwf. pose proof (pd_machine _ _ _ Hwf) as Hm.
  apply wp_bind, wp_on_mach. apply wp_palloc_get_multiple; [done|lia| |]; cycle 1.
  { intros _. split; [done|]. apply wp_ret. rewrite loader_eta. eapply HQ0; [done|apply extends_refl|done|by intros u]. }
  change (flag (Z.lor PAL_USER PAL_ZERO) PAL_USER) with true. change (flag (Z.lor PAL_USER PAL_ZERO) PAL_ZERO) with true. intros kpage s1 G Hkp.
  pose proof (got_range _ _ _ _ _ _ G) as Hrg. cbn [the_pool] in Hrg. pose proof Hkp as [Hk1 Hk2].
  rewrite nonnull_true by (unfold NULL; unpage; lia).
  assert (forall page, owned (mach l) true page -> page ≠ kpage) as Hne by (intros page; by apply (got_fresh _ _ _ _ _ G)).
  destruct (filled (mach l) s1 true kpage [] Hm (pd_bytes _ _ _ Hwf) G) as (U & K & O); [cbn; lia|constructor|].
  replace (set_ram (put (ram s1) kpage []) s1) with s1 in * by (by destruct s1).
  destruct (space_user _ _ _ _ Hsp U K) as [Hsp1 Hs1]. change PGSIZE with 4096 in *.
  apply wp_bind, wp_on_mach. cbn [mach lfs].
  eapply (wp_install_page init_page_dir init_ram_pages s1 pd pts); [apply Hsp1|done|done|done| |done| |].
  { unfold pool_mapped in Hlim. unpage. Z.to_euclidean_division_equations. lia. }
  - intros s3 pts' Hnone Hpd3 Hrm Hko.
    assert (forall i, 0 <= i < 4096 -> ram s1 !! (kpage + i) = Some 0) as Hz.
    { intros i Hi. rewrite (got_ram _ _ _ _ _ _ G), lookup_put, length_replicate, decide_True by lia. apply lookup_replicate_2. lia. }
    destruct (installed (mach l) s1 s3 pd pts pts' kpage (PHYS_BASE - 4096) true (replicate 4096 0)) as [Hsp3 Hpg]; try done.
    { intros i Hi. rewrite Hz by done. symmetry. apply lookup_replicate_2. lia. }
    assert (owned s3 true kpage /\ page_bytes (ram s3) kpage = replicate 4096 0) as [O3 Ez].
    { destruct Hko as (K1 & K2 & K3). destruct (K1 true) as [E1 E2]. destruct O as [[Oa Ob] Oc]. cbn [the_pool] in *. split.
      - split; [split; cbn [the_pool]; [done|by rewrite E1, E2]|]. cbn [the_pool]. by rewrite K2.
      - apply page_bytes_zero. intros i Hi. rewrite K3 by lia. by apply Hz. }
    apply wp_bind, wp_on_stack. cbn [mach lfs]. rewrite Ez. change PGSIZE with 4096 in *. change (Z.to_nat 4096) with 4096%nat in Hpre.
    eapply wp_push_args; [exact Hpre|]. intros esp mm Hlay Hdom. apply wp_ret. set (s4 := set_ram _ s3).
    destruct (pte_of_ok kpage true Hkp) as (_ & _ & Eframe & _ & _).
    destruct (frame_rewritten s3 pd pts' kpage (PHYS_BASE - 4096) (pte_of kpage true) (page_bytes mm (PHYS_BASE - 4096)))
      as (Hsp4 & Hm4 & Hh4 & Ho4); [done|done|apply length_page_bytes|apply page_bytes_ok| |done| |].
    { intros va Hva Hno. by rewrite Hrm, Hno, Z.eqb_refl. }
    { intros va e Hva Hno He. rewrite (proj1 (pg_other _ _ _ _ _ _ _ Hpg va Hva Hno)) in He. apply Hne. by eapply (sp_frames _ _ _ Hsp va). }
    fold s4 in Hsp4, Hm4, Hh4, Ho4. eapply (HQ1 (mk_loader s4 (lfs l)) pts' esp (put ∅ (PHYS_BASE - 4096) (page_bytes mm (PHYS_BASE - 4096)))).
    + done.
    + by eapply stack_extends.
    + eapply args_layout_view; [exact Hpre|done|]. intros a Ha. change PGSIZE with 4096 in Ha.
      rewrite lookup_put, length_page_bytes, decide_True by lia. rewrite lookup_page_bytes by lia.
      replace (PHYS_BASE - 4096 + Z.of_nat (Z.to_nat (a - (PHYS_BASE - 4096)))) with a by lia.
      destruct (mapped_dom _ mm _ _ Hdom (sk_page _ _ _ _ _ _ Hpre) a) as [b Hb]; [change PGSIZE with 4096; lia|]. by rewrite Hb.
    + intros va Hva. assert (0 <= va < PHYS_BASE) as Hva' by (change PHYS_BASE with 0xc0000000 in *; lia).
      assert (pg_no va = pg_no (PHYS_BASE - 4096)) as Hno by (apply (proj2 (top_page va Hva')); lia). cbn [mach].
      rewrite (Hm4 va Hva'). split; [exact (proj1 (pg_here _ _ _ _ _ _ _ Hpg va Hva' Hno))|].
      rewrite (Hh4 va Hva' Hno), lookup_put, length_page_bytes, decide_True by lia. f_equal.
      change PHYS_BASE with 0xc0000000 in *. Z.to_euclidean_division_equations. lia.
    + done.
    + apply (same_pools_trans _ _ _ (uo_pools _ _ U)). intros u. destruct (proj1 Hko u), u; by split.
  - intros _. apply wp_bind, wp_on_mach. cbn [mach lfs]. eapply wp_give_back; [exact Hsp|done|done|done|done|].
    intros s3 H1 H2 H3. apply wp_ret. eapply HQ0; [done|by apply same_extends|done|done].
Qed.
(** ** The image *)

Definition ehdr_of : Elf32_Ehdr := decode_Ehdr (u8 <$> take 52 bs).

(** The file [f] cannot be written. *)
Definition write_denied (x : fs) (g : Z) : Prop :=
  exists y ino, files x !! g = Some y /\ inodes x !! f_inode y = Some ino /\ 0 < deny_write_cnt ino.

(** The process [r] is ready to run the program in the file: its header is that of
    an executable for this machine, its segments are in memory, its stack holds the
    words of [cmd], and the file cannot be written. *)
Record image (cmd : list Z) (r : loaded) s pts (x : fs) : Prop := {
  im_header : (52 <= length bs)%nat /\ ehdr_ok ehdr_of = true;
  im_entry : eip r = e_entry ehdr_of;
  im_segments : phdrs_loaded s pts (s32 (e_phoff ehdr_of)) (Z.to_nat (e_phnum ehdr_of));
  im_stack : exists mm, args_layout cmd (esp r) mm /\ stack_holds s pts mm;
  im_denied : write_denied x (exec_fp r)
}.

(** What [load] leaves in any case. *)
Record left_ok (r : loaded) l0 l' pts : Prop := {
  lf_space : space (mach l') (pagedir r) pts;
  lf_null : forall va, 0 <= va < 4096 -> mapping (mach l') pts va = None;
  lf_fs : fsys_at m F (lfs l') /\ counts_ok (lfs l') /\ views_kept [f] x0 (lfs l');
  lf_view : exists p, view (lfs l') f = Some (n, bs, p);
  lf_pools : same_pools (mach l0) (mach l')
}.

Lemma wp_deny_file p x (Q : unit -> fs -> Prop) :
  reading x0 m F f n bs p x ->
  (forall x', fsys_at m F x' -> counts_ok x' -> views_kept [f] x0 x' -> view x' f = Some (n, bs, p) -> write_denied x' f -> Q tt x') ->
  wp (file_deny_write f) x Q.
Proof.
  intros [(A & Hinv & HF) H2 H3 H4 H5] HQ. destruct (view_handle _ _ _ _ _ H3) as (y & ino & Hh & <- & <- & <-).
  pose proof (hn_file _ _ _ _ Hh) as Hy. rewrite Hy in H5. cbn in H5. injection H5 as Hd.
  pose proof (counts _ _ _ _ H2 Hh) as [[Hc _] _]. assert (0 <= denies (f_inode y) y) by (unfold denies; destruct (_ && _); lia).
  eapply (wp_file_deny_write mallocs Hmalloc A m); [done..|]. intros x' Hinv' HF' Ht' Hv' Hi' Hf'. destruct (Hf' _ _ Hy) as (y' & Hy' & Ei).
  apply HQ; [exists A; split; [done|congruence]|done| |apply Hv'; [apply not_elem_of_nil|done]|].
  - intros g v Hg Hv. apply Hv'; [apply not_elem_of_nil|]. by apply H4.
  - exists y', (more_denied ino). rewrite Ei. split_and!; [done|done|]. cbn. lia.
Qed.

Lemma wp_load_image pd l pts (locals : mem) sp argv eap file_name cmd (Q : loaded -> loader -> Prop) :
  space (mach l) pd pts -> (forall va, 0 <= va < 4096 -> mapping (mach l) pts va = None) -> pool_mapped init_ram_pages (mach l) ->
  reading x0 m F f n bs 0 (lfs l) -> pd ≠ init_page_dir ->
  stack_pre sp (put locals (PHYS_BASE - PGSIZE) (replicate (Z.to_nat PGSIZE) 0)) file_name argv eap cmd ->
  (forall r l' pts', left_ok r l l' pts' -> pagedir r = pd -> exec_fp r = f -> (success r = true -> image cmd r (mach l') pts' (lfs l')) -> Q r l') ->
  wp (load_image mallocs init_page_dir init_ram_pages locals sp argv eap file_name pd f) l Q.
Proof.
  intros Hsp Hnull Hlim Hre Hpd Hpre HQ. set (fail := mk_loaded false 0 0 f pd).
  assert (forall l' pts' q, space (mach l') pd pts' -> (forall va, 0 <= va < 4096 -> mapping (mach l') pts' va = mapping (mach l) pts va) ->
     reading x0 m F f n bs q (lfs l') -> same_pools (mach l) (mach l') -> Q fail l') as HQ0.
  { intros l' pts' q H1 H2 [R1 R2 R3 R4 _] H4. apply (HQ _ _ pts'); [|done|done|done]. split; [done| |done|by exists q|done].
    intros va Hva. by rewrite H2, Hnull. }
  apply wp_bind, wp_on_lfs. eapply wp_read_file; [done|]. cbv zeta. intros x1 Hre1. cbn [mach lfs].
  change (Z.to_nat sizeof_Ehdr) with 52%nat in *. rewrite Z2Nat.inj_0, drop_0 in *. fold ehdr_of.
  destruct (_ || _) eqn:E; [apply wp_ret; by eapply HQ0|].
  apply orb_false_iff in E as [El%negb_false_iff%Z.eqb_eq Eh%negb_false_iff]. rewrite length_take in El. change sizeof_Ehdr with 52 in El.
  apply wp_bind. eapply (wp_load_phdrs _ pd (mk_loader (mach l) x1) pts); [done|done|done|done| |]; cbn [mach lfs].
  - intros l2 pts2 q2 Hsp2 Hseg Hex Hre2 Hp2. cbn [negb]. apply wp_bind.
    eapply (wp_setup_stack pd l2 pts2); [done|by eapply pool_mapped_same|done|done|exact Hpre| |].
    + intros l3 pts3 sp3 mm Hsp3 Hex3 Hlay Hst Hre3 Hp3. cbv iota beta. apply wp_bind, wp_on_lfs. eapply wp_deny_file; [exact Hre3|].
      intros x4 F1 F2 F3 F4 F5. apply wp_ret. apply (HQ _ _ pts3); [|done|done|].
      * split; cbn [mach lfs pagedir]; [done| |done|by eexists|by eapply same_pools_trans].
        intros va Hva. by rewrite (proj2 Hex3), (proj2 Hex), Hnull.
      * intros _. split; cbn [mach lfs eip esp exec_fp]; [split; [lia|done]|done|by eapply phdrs_loaded_extends|by exists mm|done].
    + intros l3 pts3 Hsp3 Hex3 Hre3 Hp3. cbv iota beta. apply wp_ret. eapply HQ0; [done| |done|by eapply same_pools_trans].
      intros va Hva. by rewrite (proj2 Hex3), (proj2 Hex).
  - intros l2 pts2 q2 H1 H2 H3 H4. cbn [negb]. apply wp_ret. by eapply HQ0.
Qed.
End Pages.

(** * Loading a program *)

(** What a process finds after [load]: the files are as they were, and so is what
    the other open files show; the first page is not mapped; and if [load]
    succeeded, the program in the file [nm] is ready to run. *)
Definition load_post (cmd nm : list Z) (F : gmap (list Z) (list Z)) (l : loader) (r : loaded) (l' : loader) : Prop :=
  fsys F (lfs l') /\ counts_ok (lfs l') /\ views_kept [exec_fp r] (lfs l) (lfs l') /\
  ((success r = false /\ pagedir r = NULL) \/
   exists pts, space (mach l') (pagedir r) pts /\ (forall va, 0 <= va < 4096 -> mapping (mach l') pts va = None) /\
     (success r = true -> exists n bs, F !! nm = Some bs /\ image bs cmd r (mach l') pts (lfs l') /\
        exists p, view (lfs l') (exec_fp r) = Some (n, bs, p))).

Section Programs.
Context (mallocs : nat -> bool) (Hmalloc : forall n, mallocs n = true) (init_page_dir init_ram_pages : Z).
Implicit Types (s : machine) (x : fs) (l : loader).

Lemma absent_name A m x nm : fs_inv A m x -> files_of A m x !! nm = None -> m !! nm = None.
Proof.
  intros Hinv HF. destruct (m !! nm) as [n|] eqn:E; [|done]. destruct (fi_entries _ _ _ Hinv _ _ E) as (_ & _ & [e He]).
  unfold files_of in HF. rewrite lookup_omap, E in HF. cbn in HF. by rewrite He in HF.
Qed.

Lemma wp_open_executable m F x nm inode_name (Q : Z -> fs -> Prop) :
  fsys_at m F x -> counts_ok x -> name_ok nm ->
  (forall x', fsys_at m F x' -> counts_ok x' -> views_kept [] x x' -> Q NULL x') ->
  (forall f n bs x', 0 < f -> F !! nm = Some bs -> reading x m F f n bs 0 x' -> Q f x') ->
  wp (open_executable mallocs inode_name nm) x Q.
Proof.
  intros (A & Hinv & <-) Ht Hnm HQ0 HQ1. apply wp_bind. eapply (wp_open_view mallocs Hmalloc A m); [done..| |].
  - intros x1 HF (A1 & Hinv1 & HF1) Ht1 Hv1. change (NULL =? NULL) with true. cbv iota.
    eapply (wp_lookup_absent mallocs Hmalloc A1 m x1 nm (fun i => if nonnull i then filesys_open mallocs (inode_name i) else mret NULL)); [done|done| |].
    { eapply (absent_name A1); [done|]. by rewrite HF1. }
    intros x2 Hh2 [Hat2 Hk2]. change (nonnull NULL) with false. cbv iota. apply wp_ret. rewrite HF1 in Hat2.
    apply HQ0; [done|by eapply table_same|]. intros g v Hg Hv. apply (views_same _ _ Hh2 Hk2 g v Hg). by apply Hv1.
  - intros f n bs x1 Hf Hn HF Hat Ht1 Hv1 Hvf Hfresh (i & Hi). rewrite (proj2 (Z.eqb_neq f NULL)) by (unfold NULL; lia).
    apply wp_ret. eapply HQ1; [done|done|]. split; [done|done|done| |by rewrite Hi].
    intros g v Hg Hv. apply Hv1; [apply not_elem_of_nil|done].
Qed.

(** Nothing is mapped in a page directory without page tables. *)
Lemma space_empty s pd : pd_wf s pd ∅ -> space s pd ∅.
Proof. intros H. split; [done|]. intros va e _ He. unfold mapping in He. by rewrite lookup_empty in He. Qed.

Lemma space_cr3 s pd pts c : space s pd pts -> space (mk_machine (kernel_pool s) (user_pool s) (ram s) c) pd pts.
Proof.
  intros [[H1 H2 H3 H4 H5 H6 H7] Hf]. split.
  - split; try done. destruct H1 as [K1 K2 K3]. by split.
  - exact Hf.
Qed.

Lemma fsys_at_fsys m F x : fsys_at m F x -> fsys F x.
Proof. intros (A & H1 & H2). by exists A, m. Qed.

Lemma wp_load m F l cmd nm inode_name (locals : mem) sp argv eap file_name :
  machine_wf (mach l) -> bytes_ok (ram (mach l)) -> kernel_dir init_page_dir (mach l) -> pool_mapped init_ram_pages (mach l) ->
  fsys_at m F (lfs l) -> counts_ok (lfs l) -> name_ok nm ->
  stack_pre sp (put locals (PHYS_BASE - PGSIZE) (replicate (Z.to_nat PGSIZE) 0)) file_name argv eap cmd ->
  wp (load mallocs init_page_dir init_ram_pages locals sp argv eap file_name inode_name nm) l (load_post cmd nm F l).
Proof.
  intros Hwf Hb Hk Hlim Hat Ht Hnm Hpre. apply wp_bind, wp_on_mach. eapply wp_pagedir_create; [done|done|done| |]; cycle 1.
  { change (NULL =? NULL) with true. apply wp_ret. split_and!; [by eapply fsys_at_fsys|done|by intros g v _|by left]. }
  intros pd s1 Hpd Hne [Hk1 Hk2] Hko. rewrite (proj2 (Z.eqb_neq pd NULL)) by (unfold NULL; unpage; lia).
  apply wp_bind, wp_on_mach. cbn [mach lfs]. unfold process_activate, pagedir_activate.
  rewrite (proj2 (Z.eqb_neq pd NULL)) by (unfold NULL; unpage; lia).
  apply wp_bind, wp_bind, wp_assert; [apply Z.leb_le; lia|]. apply wp_ret. apply wp_bind, wp_get. apply wp_put. cbn [mach lfs]. set (s2 := mk_machine _ _ _ _).
  assert (space s2 pd ∅) as Hsp by (by apply space_cr3, space_empty).
  assert (forall va, mapping s2 ∅ va = None) as Hnull by (intros va; unfold mapping; by rewrite lookup_empty).
  assert (pool_mapped init_ram_pages s2) as Hlim2 by exact (pool_mapped_same init_ram_pages _ s1 Hlim (proj1 Hko)).
  apply wp_bind, wp_on_lfs. cbn [lfs mach]. eapply (wp_open_executable m F); [done..| |].
  - intros x1 H1 H2 H3. change (NULL =? NULL) with true. apply wp_ret. split_and!; [by eapply fsys_at_fsys|done| |].
    + intros g v _ Hv. apply H3; [apply not_elem_of_nil|done].
    + right. exists ∅. cbn. by split_and!.
  - intros f n bs x1 Hf HF Hre. rewrite (proj2 (Z.eqb_neq f NULL)) by (unfold NULL; lia).
    eapply (wp_load_image mallocs Hmalloc _ _ (lfs l) m F f n bs pd (mk_loader s2 x1) ∅); [done|done|done|done|done|exact Hpre|].
    intros r l' pts' [L1 L2 (L3 & L4 & L5) L6 L7] Er Ef Him. split_and!; [by eapply fsys_at_fsys|done|by rewrite Ef|right].
    exists pts'. split_and!; [done|done|]. intros Hs. exists n, bs. rewrite Ef. split_and!; [done|by apply Him|done].
Qed.
End Programs.

(** [validate_segment] accepts exactly the program headers of segments that lie
    within user memory above the first page, without wrapping around, that start
    within the file and whose file and memory addresses agree in their page offset. *)
Theorem validate_segment_correct F x f n bs p h :
  fsys F x -> view x f = Some (n, bs, p) -> phdr_range h ->
  wp (validate_segment h f) x (fun b x' => x' = x /\ (b = true <-> segment_ok h (Z.of_nat (length bs)))).
Proof.
  intros (A & m & Hinv & _) Hv Hr. eapply (wp_validate_segment A m); [done..|]. intros b _ Hb. by split.
Qed.

(** [load_segment] either maps [zero + read] bytes from [upage] on, the first
    [read] of them from offset [ofs] of the file and zeros after them, writable or
    not as it is told, or reports failure.  In both cases the address space is well
    formed, everything outside the segment is as it was, and so are the file system
    and the other open files. *)
Theorem load_segment_correct mallocs init_page_dir init_ram_pages F pd l pts f n bs p upage ofs read zero w :
  (forall k, mallocs k = true) -> space (mach l) pd pts -> pool_mapped init_ram_pages (mach l) -> pd ≠ init_page_dir ->
  fsys F (lfs l) -> counts_ok (lfs l) -> view (lfs l) f = Some (n, bs, p) -> snd ∘ handle_of <$> files (lfs l) !! f = Some false ->
  0 <= read -> 0 <= zero -> (read + zero) mod 4096 = 0 -> 0 <= upage -> upage mod 4096 = 0 -> upage + read + zero <= PHYS_BASE ->
  0 <= ofs < 2 ^ 31 -> ofs mod 4096 = 0 ->
  wp (load_segment mallocs init_page_dir init_ram_pages pd f ofs upage read zero w) l (fun ok l' =>
    exists pts' q, space (mach l') pd pts' /\ outside_same (mach l) pts (mach l') pts' upage (read + zero) /\
      (ok = true -> segment_at bs (mach l') pts' upage ofs read (read + zero) w) /\
      fsys F (lfs l') /\ counts_ok (lfs l') /\ views_kept [f] (lfs l) (lfs l') /\ view (lfs l') f = Some (n, bs, q)).
Proof.
  intros Hmalloc Hsp Hlim Hpd (A & m & Hinv & HF) Ht Hv Hd Hr Hz Hal Hu Hua Hend Ho Hoa.
  assert (reading (lfs l) m F f n bs p (lfs l)) as Hre by (split; [by exists A|done|done|by intros g v _|done]).
  assert (read + zero = 4096 * ((read + zero) / 4096)) as EN by (Z.to_euclidean_division_equations; lia).
  eapply (wp_load_segment mallocs Hmalloc init_page_dir init_ram_pages (lfs l) m F f n bs) with (N := (read + zero) / 4096); try (done || lia);
    rewrite <-EN.
  - intros l' pts' H1 H2 H3 _ [R1 R2 R3 R4 _] _ _. exists pts', (ofs + read). split_and!; try done. by eapply fsys_at_fsys.
  - intros l' pts' q H1 H2 [R1 R2 R3 R4 _] _. exists pts', q. split_and!; try done. by eapply fsys_at_fsys.
Qed.


(** A file of 100 bytes: an executable with one segment, the whole file at 0x8048000. *)
Definition demo_elf : list Z :=
  elf_ident ++ replicate 9 0 ++ le 2 2 ++ le 2 3 ++ le 4 1 ++ le 4 0x8048054 ++ le 4 52 ++ le 4 0 ++ le 4 0 ++ le 2 52 ++ le 2 32 ++ le 2 1 ++
  replicate 6 0 ++ le 4 PT_LOAD ++ le 4 0 ++ le 4 0x8048000 ++ le 4 0 ++ le 4 100 ++ le 4 200 ++ le 4 5 ++ le 4 4096 ++ replicate 16 144.

Definition demo_loader : loader :=
  mk_loader demo_machine (final (f ← filesys_open plenty demo_name; file_write plenty f demo_elf 100;; file_close plenty f) demo_created).
Definition demo_load : M loader loaded :=
  load plenty demo_base 1024 ls_mem (PHYS_BASE + 8) (PHYS_BASE + 64) (PHYS_BASE + 128) (PHYS_BASE + 16) (fun _ => []) demo_name.

Example demo_load_succeeds :
  match demo_load demo_loader with Ok (r, _) => success r && (eip r =? 0x8048054) | Err _ => false end = true.
Proof. vm_compute. reflexivity. Qed.

Lemma demo_loader_fs : exists F, fsys F (lfs demo_loader) /\ counts_ok (lfs demo_loader).
Proof.
  destruct demo_created_fsys as (A & m & Hinv & HF). pose proof demo_table_ok as Ht.
  apply (final_wp _ _ (fun s' => exists F, fsys F s' /\ counts_ok s')).
  apply wp_bind. eapply (wp_open_view plenty (fun _ => eq_refl) A m); [exact Hinv|exact Ht|exact demo_name_ok| |].
  { intros s' Hno. rewrite HF in Hno. unfold demo_files in Hno. by rewrite lookup_singleton_eq in Hno. }
  intros f n bs s1 Hf _ _ (A1 & Hinv1 & _) Ht1 _ Hv1 _ _. apply wp_bind.
  eapply (wp_file_write plenty (fun _ => eq_refl) A1 m); [done|done|done|vm_compute; split; discriminate|].
  intros k s2 _. cbv zeta. intros (A2 & Hinv2 & _) Ht2 _ Hv2 _. destruct (view_handle _ _ _ _ _ Hv2) as (x & ino & Hh & _).
  eapply (wp_file_close plenty (fun _ => eq_refl) A2 m); [done|done|done|]. intros s3 Hat3 Ht3 _ _. eexists. split; [by eapply fsys_at_fsys|done].
Qed.

Lemma demo_space : space demo_machine demo_base ∅.
Proof. apply space_empty. exact demo_pd_wf. Qed.
Lemma demo_bytes : bytes_ok (ram demo_machine).
Proof. exact (pd_bytes _ _ _ demo_pd_wf). Qed.
Lemma demo_kernel_dir : kernel_dir demo_base demo_machine.
Proof.
  split; [exact (pd_owned _ _ _ demo_pd_wf)|]. intros i Hi. pose proof (pd_pdes _ _ _ demo_pd_wf i Hi) as H. by rewrite lookup_empty in H.
Qed.
Lemma demo_pool_mapped : pool_mapped 1024 demo_machine.
Proof. unfold pool_mapped. vm_compute. discriminate. Qed.


Definition demo_phdr : Elf32_Phdr := mk_phdr PT_LOAD 0 0x8048000 0 100 200 5 4096.

Lemma validate_segment_correct_witness :
  wp (validate_segment demo_phdr 227) demo_once (fun b x' => x' = demo_once /\ (b = true <-> segment_ok demo_phdr (Z.of_nat (length (replicate 600 0))))).
Proof.
  apply (validate_segment_correct demo_files demo_once 227 4 (replicate 600 0) 0 demo_phdr).
  - exact (proj1 demo_once_ok).
  - by vm_compute.
  - unfold phdr_range. cbn. lia.
Defined.

Lemma load_segment_correct_witness :
  wp (load_segment plenty 0 1024 demo_base 227 0 0x8048000 600 3496 false) (mk_loader demo_machine demo_once) (fun ok l' =>
    exists pts' q, space (mach l') demo_base pts' /\ outside_same demo_machine ∅ (mach l') pts' 0x8048000 (600 + 3496) /\
      (ok = true -> segment_at (replicate 600 0) (mach l') pts' 0x8048000 0 600 (600 + 3496) false) /\
      fsys demo_files (lfs l') /\ counts_ok (lfs l') /\ views_kept [227] demo_once (lfs l') /\ view (lfs l') 227 = Some (4, replicate 600 0, q)).
Proof.
  apply (load_segment_correct plenty 0 1024 demo_files demo_base (mk_loader demo_machine demo_once) ∅ 227 4 (replicate 600 0) 0 0x8048000 0 600 3496 false).
  - reflexivity.
  - exact demo_space.
  - exact demo_pool_mapped.
  - discriminate.
  - exact (proj1 demo_once_ok).
  - exact (proj2 demo_once_ok).
  - by vm_compute.
  - by vm_compute.
  - lia.
  - lia.
  - reflexivity.
  - lia.
  - reflexivity.
  - by vm_compute.
  - lia.
  - reflexivity.
Defined.
