(* ===== verification/Boot.v ===== *)
(** Starting the file system: [filesys_init] of src/filesys/filesys.c.

    Formatting gives a file system with no files whatever the device held, and starting
    from a device that was in use gives the files it had, at whatever point between two
    operations the machine stopped. *)
From stdpp Require Import base list numbers gmap fin_maps.
From Stdlib Require Import ZArith Lia.
From S2P Require Import Prelude Strings Bitmap Inode Layout Directory Filesys Files.

Open Scope Z_scope.

(** The state before [filesys_init]: nothing is open. *)
Record fresh (s : fs) : Prop := {
  fr_inodes : inodes s = ∅;
  fr_files : files s = ∅;
  fr_dirs : dirs s = ∅;
  fr_map : free_map_file s = NULL;
  fr_heap : 0 < next_addr s
}.

(** Only the free map's file is open, at [f], its inode [d] at [i]. *)
Record up (s : fs) (i f : Z) (d : inode_disk) : Prop := {
  up_inodes : inodes s = {[ i := mk_inode FREE_MAP_SECTOR 1 false 0 d ]};
  up_open : open_inodes s = [i];
  up_files : files s = {[ f := mk_file i 0 false ]};
  up_dirs : dirs s = ∅;
  up_map : free_map_file s = f;
  up_heap : 0 < i < next_addr s /\ 0 < f < next_addr s
}.

Section Up.
Implicit Types (A : gmap Z inode_disk) (s : fs).

Lemma up_handles A s i f d : up s i f d -> A !! FREE_MAP_SECTOR = Some d -> handles A s.
Proof.
  intros [Hi Ho Hf Hd Hm Hh] HA. split; rewrite ?Hi, ?Ho, ?Hf, ?Hd.
  - intros j x [<- <-]%lookup_singleton_Some. split_and!; [done|done|lia|lia].
  - intros j k x y [<- <-]%lookup_singleton_Some [<- <-]%lookup_singleton_Some. done.
  - apply NoDup_singleton.
  - intros j. rewrite list_elem_of_singleton, lookup_singleton_is_Some. done.
  - lia.
  - intros g Hg%lookup_singleton_is_Some. lia.
  - intros g [x Hx]. by rewrite lookup_empty in Hx.
Qed.

Lemma up_fm_inode s i f d : up s i f d -> length_of d = byte_cnt (bit_cnt (free_map s)) -> fm_inode s (mk_inode FREE_MAP_SECTOR 1 false 0 d).
Proof.
  intros [Hi Ho Hf Hd Hm Hh] Hl. split; [unfold NULL; lia|]. exists (mk_file i 0 false). rewrite Hf, Hm, Hi, !lookup_singleton_eq. done.
Qed.

Lemma up_layout A s i f d :
  up s i f d -> core A s -> A !! FREE_MAP_SECTOR = Some d -> length_of d = byte_cnt (bit_cnt (free_map s)) ->
  saved (free_map s) (bytes_of s d) -> layout A s.
Proof.
  intros Hu Hc HA Hl Hb. pose proof (up_handles A s i f d Hu HA) as Hh. split; [|done].
  split; [done|by eapply core_wf|]. eexists. split_and!; [by eapply up_fm_inode|done|done].
Qed.

Lemma up_same s s' i f d : up s i f d -> same_handles s s' -> up s' i f d.
Proof. intros [] []. split; [congruence..|lia]. Qed.

Lemma up_counts s i f d : up s i f d -> counts_ok s.
Proof.
  intros [Hi Ho Hf Hd Hm Hh]. split; rewrite Hf, Hi.
  - intros g x [<- <-]%lookup_singleton_Some. cbn. by rewrite lookup_singleton_eq.
  - intros j x [<- <-]%lookup_singleton_Some. rewrite <-insert_empty, msum_insert, msum_empty by done. unfold on. cbn. by rewrite Z.eqb_refl.
  - intros j x [<- <-]%lookup_singleton_Some. rewrite <-insert_empty, msum_insert, msum_empty by done. unfold denies. cbn. by rewrite andb_false_r.
Qed.
End Up.

(** * Words and bits *)

Lemma unwords32_words es : Forall (fun e => 0 <= e < 2 ^ 32) es -> unwords32 (length es) (words32 es) = es.
Proof.
  induction 1 as [|e es He _ IH]; [done|]. cbn [length unwords32 words32 flat_map]. fold (words32 es).
  rewrite take_app_length' by (symmetry; apply length_le). rewrite drop_app_length' by (symmetry; apply length_le).
  rewrite IH, unle_le by (change (256 ^ Z.of_nat 4) with (2 ^ 32); done). done.
Qed.

Lemma elem_cnt_eq n : 0 <= n < 2 ^ 32 - 32 -> elem_cnt n = (n + 31) / 32 /\ byte_cnt n = 4 * ((n + 31) / 32).
Proof.
  intros Hn. assert (elem_cnt n = (n + 31) / 32) as E.
  { unfold elem_cnt, ELEM_BITS, u32. rewrite Z.mod_small by lia. f_equal. lia. }
  split; [done|]. unfold byte_cnt. rewrite E. unfold u32. apply Z.mod_small. Z.to_euclidean_division_equations. lia.
Qed.

Lemma last_mask_bits b : 0 <= last_mask b < 2 ^ 32 /\
  forall j, 0 <= j < bit_cnt b -> elem_idx j = elem_cnt (bit_cnt b) - 1 -> bit_cnt b < 2 ^ 32 - 32 -> Z.testbit (last_mask b) (j mod 32) = true.
Proof.
  unfold last_mask, ELEM_BITS. pose proof (Z.mod_pos_bound (bit_cnt b) 32 eq_refl) as Hr. set (r := bit_cnt b mod 32) in *.
  assert (forall k, 0 <= k <= 32 -> Z.shiftl 1 k - 1 = Z.ones k /\ 0 <= Z.ones k < 2 ^ 32) as Ho.
  { intros k Hk. rewrite Z.shiftl_1_l, Z.ones_equiv. pose proof (Z.pow_pos_nonneg 2 k). pose proof (Z.pow_le_mono_r 2 k 32). lia. }
  destruct (Z.eqb_spec r 0) as [E|E]; cbn [negb].
  - split; [done|]. intros j Hj _ _. change (2 ^ 32 - 1) with (Z.ones 32). apply Z.ones_spec_low. apply Z.mod_pos_bound. lia.
  - destruct (Ho r) as [-> Hb]; [lia|]. unfold u32. rewrite Z.mod_small by done. split; [done|]. intros j Hj Hidx Hle. apply Z.ones_spec_low.
    rewrite (proj1 (elem_cnt_eq (bit_cnt b) ltac:(lia))) in Hidx. unfold elem_idx, ELEM_BITS in Hidx. unfold r in *. clear Ho Hb. Z.to_euclidean_division_equations. lia.
Qed.

(** Clearing the unused bits of the last word. *)
Lemma bits_masked b es e :
  bits_are b (mk_bitmap (bit_cnt b) es) (bit b) -> 0 <= bit_cnt b < 2 ^ 32 - 32 -> es !! Z.to_nat (elem_cnt (bit_cnt b) - 1) = Some e ->
  forall b0, bit_cnt b0 = bit_cnt b ->
  bits_are b (mk_bitmap (bit_cnt b) (<[Z.to_nat (elem_cnt (bit_cnt b) - 1) := Z.land e (last_mask b0)]> es)) (bit b).
Proof.
  intros ([W1 W2 W3] & _ & Hbits) Hn He b0 E0. cbn [bit_cnt bits] in *. set (n := bit_cnt b) in *.
  assert (last_mask b0 = last_mask b) as -> by (unfold last_mask; by rewrite E0). destruct (last_mask_bits b) as [M1 M2]. fold n in M2.
  assert (0 <= e < 2 ^ 32) as Hee by (exact (Forall_lookup_1 _ _ _ _ W3 He)).
  assert (forall k, Z.testbit (Z.land e (last_mask b)) k = Z.testbit e k && Z.testbit (last_mask b) k) as Ht by (intros; apply Z.land_spec).
  split_and!; [split; cbn [bit_cnt bits]; [done|by rewrite length_insert|]|done|].
  - apply Forall_insert; [done|]. apply fits_u32. split; [apply Z.land_nonneg; lia|]. intros k Hk. rewrite Ht. apply fits_u32 in Hee as [_ ->]; done.
  - intros j Hj. rewrite <-Hbits by done. unfold bit. cbn [bits].
    destruct (decide (elem_idx j = elem_cnt n - 1)) as [Ej|Ej].
    + rewrite Ej, list_lookup_insert_eq, He by (by eapply lookup_lt_Some). rewrite Ht. change ELEM_BITS with 32. rewrite M2, andb_true_r by (done || lia). done.
    + rewrite list_lookup_insert_ne; [done|]. intros E. apply Ej. pose proof (proj1 (elem_cnt_eq n Hn)) as Ec. unfold elem_idx, ELEM_BITS in *.
      apply lookup_lt_Some in He. assert (0 < elem_cnt n) by lia. apply Z2Nat.inj in E; [lia|lia|apply Z.div_pos; lia].
Qed.

Lemma saved_sym b b' bs : saved b bs -> bits_are b b' (bit b) -> saved b' bs.
Proof.
  intros (es & -> & W & _ & He) (Hw' & Hc' & Hb'). exists es. split; [done|]. rewrite Hc'. split_and!; [done|done|].
  rewrite Hc'. intros j Hj. by rewrite He, Hb'.
Qed.

(** * Opening the free map *)

Section Open.
Context (mallocs : nat -> bool) (Hmalloc : forall n, mallocs n = true).
Implicit Types (A : gmap Z inode_disk) (s : fs).

Lemma wp_open_map s d b (k : Z -> M fs unit) (Q : unit -> fs -> Prop) :
  inodes s = ∅ -> open_inodes s = [] -> files s = ∅ -> dirs s = ∅ -> 0 < next_addr s ->
  disk s !! FREE_MAP_SECTOR = Some b -> decode_inode b = d ->
  (forall i f s', up s' i f d -> disk s' = disk s -> free_map s' = free_map s -> f ≠ NULL -> wp (k f) s' Q) ->
  wp (i ← inode_open mallocs FREE_MAP_SECTOR; f ← file_open mallocs i; modify (set_free_map_file f);; k f) s Q.
Proof.
  intros Hi Ho Hf Hd Hn Hb Hdec HQ. apply wp_bind. unfold inode_open. apply wp_bind, wp_get. rewrite Ho. apply wp_bind, wp_ret.
  apply wp_bind, wp_malloc; [done|done|]. rewrite (proj2 (Z.eqb_neq _ _)) by (unfold NULL; lia). apply wp_bind, wp_bind, wp_get, wp_put.
  apply wp_bind. eapply wp_block_read; [exact Hb|]. apply wp_bind, wp_bind, wp_get, wp_put, wp_ret.
  apply wp_bind. unfold file_open. apply wp_bind, wp_malloc; [done|cbn; lia|]. rewrite !nonnull_pos by (cbn; lia). cbn [andb].
  apply wp_bind, wp_bind, wp_get, wp_put, wp_ret. apply wp_bind, wp_bind, wp_get, wp_put.
  eapply (HQ (next_addr s) (next_addr s + 1)); [|done|done|unfold NULL; lia].
  split; cbn; rewrite ?Hi, ?Ho, ?Hf, ?Hdec; [by rewrite insert_empty|done|by rewrite insert_empty|done|done|lia].
Qed.

(** What [free_map_open] needs on the device. *)
Record stored A (b : bitmap) (d : inode_disk) s : Prop := {
  st_core : core A (set_free_map b s);
  st_inode : A !! FREE_MAP_SECTOR = Some d;
  st_length : length_of d = byte_cnt (bit_cnt b);
  st_saved : saved b (bytes_of s d);
  st_size : 0 < bit_cnt b
}.

Lemma wp_free_map_open A b d s (Q : unit -> fs -> Prop) :
  inodes s = ∅ -> open_inodes s = [] -> files s = ∅ -> dirs s = ∅ -> 0 < next_addr s ->
  stored A b d s -> bm_wf (free_map s) -> bit_cnt (free_map s) = bit_cnt b ->
  (forall i f s', up s' i f d -> layout A s' -> disk s' = disk s -> bits_are b (free_map s') (bit b) -> Q tt s') ->
  wp (free_map_open mallocs) s Q.
Proof.
  intros Hi Ho Hf Hd Hn [Hc HA Hl Hsv Hpos] Hwf0 Hcnt HQ. destruct (co_inode _ _ Hc _ _ HA) as [_ (blk & Hblk & Hdec)].
  apply (wp_open_map s d blk); [done..|]. intros i f s1 Hu Ed Ef Hf0. rewrite (proj2 (Z.eqb_neq _ _) Hf0).
  assert (core A (set_free_map b s1)) as Hc1 by (apply (core_same _ _ _ Hc); [exact Ed|done]).
  assert (fs_wf s1) as Hwf1.
  { destruct (core_wf A (set_free_map b s1) Hc1) as [W1 W2 W3 W4]; [eapply (up_handles A _ i f d); [by destruct Hu|done]|].
    split; [done| |done|done]. intros j x Hj. destruct (W2 j x Hj). by split. }
  apply wp_bind. unfold bitmap_read. apply wp_bind, wp_get. rewrite Ef, Hcnt, (proj2 (Z.ltb_lt _ _) Hpos).
  apply wp_bind. unfold file_read_at. apply wp_bind. unfold get_file. apply wp_bind, wp_get. rewrite (up_files _ _ _ _ Hu), lookup_singleton_eq. apply wp_ret.
  eapply (wp_inode_read_at); [done|done|rewrite (up_inodes _ _ _ _ Hu); apply lookup_singleton_eq|done|].
  intros s2 (a & c & -> & Ha). cbn [data]. rewrite (bytes_of_disk s s1) by (by intros; rewrite Ed). destruct Hsv as (es & Hes & Hae). rewrite Hes.
  pose proof Hae as ([W1 W2 W3] & _ & _). cbn [bits bit_cnt] in *. destruct (elem_cnt_eq (bit_cnt b)) as [Eec Ebc]; [done|].
  assert (length (words32 es) = Z.to_nat (byte_cnt (bit_cnt b))) as Hlw by (rewrite length_words32, Ebc; lia).
  change (drop (Z.to_nat 0) (words32 es)) with (words32 es). rewrite take_ge by lia.
  rewrite Hlw, (drop_ge (words32 (bits (free_map s)))), app_nil_r by (rewrite length_words32; pose proof (bw_len _ Hwf0) as E; rewrite Hcnt in E; lia).
  assert (length (bits (free_map s)) = length es) as -> by (pose proof (bw_len _ Hwf0) as E; rewrite Hcnt in E; lia).
  rewrite unwords32_words by done.
  destruct (lookup_lt_is_Some_2 es (Z.to_nat (elem_cnt (bit_cnt b) - 1))) as [e He]; [rewrite Eec in *; Z.to_euclidean_division_equations; lia|].
  rewrite He. apply wp_bind, wp_bind, wp_get, wp_put, wp_ret. rewrite Z2Nat.id, Z.eqb_refl by (rewrite Ebc; apply Z.mul_nonneg_nonneg; [done|apply Z.div_pos; lia]). apply wp_ret.
  pose proof (bits_masked b es e Hae ltac:(lia) He (free_map s) Hcnt) as Hb3. set (b3 := mk_bitmap _ (<[_ := _]> _)) in *. pose proof Hb3 as (B1 & B2 & B3).
  assert (up (set_free_map b3 (set_heap a c s1)) i f d) as Hu3.
  { destruct Hu as [? ? ? ? ? ?]. split; try done. cbn. lia. }
  apply (HQ i f); [done| |cbn; by rewrite Ed|done]. eapply up_layout; [exact Hu3| |exact HA|exact Hl|].
  - apply (core_same _ (set_free_map b3 (set_free_map b s1))); [|done|done]. apply core_free_map; [done|done|done|].
    intros n x k Hnx Hk. destruct (co_used _ _ Hc1 n x k Hnx Hk) as [Hr Hbit]. by rewrite B3.
  - cbn [free_map set_free_map]. apply (saved_sym b); [|done]. exists es. split; [|done]. rewrite <-Hes. apply bytes_of_disk. intros k _. cbn. by rewrite Ed.
Qed.
End Open.

(** * Formatting *)

Section Format.
Context (mallocs : nat -> bool) (Hmalloc : forall n, mallocs n = true).
Implicit Types (A : gmap Z inode_disk) (s : fs).

(** [free_map_init]: the sectors of the free map's inode and of the root directory's are in use. *)
Definition first_map (n : Z) (b : bitmap) : Prop := bm_wf b /\ bit_cnt b = n /\ forall k, 0 <= k < n -> bit b k = (k <? 2).

Lemma wp_free_map_init s n old (Q : unit -> fs -> Prop) :
  2 <= n < 2 ^ 32 - 32 -> Z.of_nat (length old) = elem_cnt n -> Forall (fun e => 0 <= e < 2 ^ 32) old ->
  (forall b, first_map n b -> Q tt (set_free_map b s)) -> wp (free_map_init mallocs n (Some old)) s Q.
Proof.
  intros Hn Hl Hf HQ. apply wp_bind, wp_get. rewrite Hmalloc.
  assert (exists b, bitmap_create n true (Some old) = Ok (Some b) /\ bits_are (mk_bitmap n old) b (fun _ => false)) as (b0 & E0 & B1 & B2 & B3).
  { assert (wp (bitmap_set_all false) (mk_bitmap n old) (fun _ b => bits_are (mk_bitmap n old) b (fun _ => false))) as Hw
      by (apply wp_set_all; [split; [cbn; lia|done|done]|auto]).
    unfold wp in Hw. unfold bitmap_create. rewrite bool_decide_eq_false_2 by done. cbn [negb orb default]. unfold id.
    destruct (bitmap_set_all false (mk_bitmap n old)) as [[[] b]|]; [|done]. by exists b. }
  cbn [bit_cnt] in *. apply wp_bind. eapply wp_lift; [exact E0|]. apply wp_bind, wp_bind, wp_get, wp_put.
  apply wp_bind, wp_on_free_map, wp_bitmap_mark; [done|cbn; unfold FREE_MAP_SECTOR; lia|]. cbn [free_map set_free_map].
  intros b1 (C1 & C2 & C3). apply wp_on_free_map, wp_bitmap_mark; [done|cbn; unfold ROOT_DIR_SECTOR; lia|]. cbn [free_map set_free_map].
  intros b2 (D1 & D2 & D3). apply HQ. split_and!; [done|congruence|].
  intros k Hk. rewrite D3, C3, B3 by lia. unfold FREE_MAP_SECTOR, ROOT_DIR_SECTOR. destruct (Z.eqb_spec k 1), (Z.eqb_spec k 0), (Z.ltb_spec k 2); (done || lia).
Qed.

(** A device of [n] sectors. *)
Definition medium (n : Z) s : Prop :=
  (forall k b, disk s !! k = Some b -> length b = 512%nat) /\ (forall k, 0 <= k < n -> is_Some (disk s !! k)).

Lemma core_empty n s : medium n s -> bm_wf (free_map s) -> bit_cnt (free_map s) = n -> core ∅ s.
Proof.
  intros [H1 H2] Hb Hn. split; try done; try (intros m d H; by rewrite lookup_empty in H).
  - by rewrite Hn.
Qed.

(** [inode_create] of the free map's inode, before there is a file to keep the map in. *)
Lemma wp_create_map n s (Q : bool -> fs -> Prop) :
  4 <= n < 2 ^ 32 - 32 -> medium n s -> first_map n (free_map s) -> fresh s ->
  (forall d s', length_of d = byte_cnt n -> core {[ FREE_MAP_SECTOR := d ]} s' -> fresh s' -> open_inodes s' = open_inodes s -> bit_cnt (free_map s') = n ->
     2 <= start d -> (forall k, 0 <= k < n -> bit (free_map s') k = true <-> k < 2 \/ in_data d k) -> Q true s') ->
  wp (inode_create mallocs FREE_MAP_SECTOR (byte_cnt n)) s Q.
Proof.
  intros Hn Hm (Hb & Hbn & Hbits) [F1 F2 F3 F4 F5] HQ. destruct (elem_cnt_eq n) as [Ee Eb]; [lia|].
  assert (0 <= byte_cnt n < 2 ^ 31 - 512) as Hlen by (rewrite Eb; Z.to_euclidean_division_equations; lia).
  set (cnt := (byte_cnt n + 511) / 512). assert (0 < cnt /\ 3 + cnt <= n) as [Hc0 Hc1] by (unfold cnt; rewrite Eb; Z.to_euclidean_division_equations; lia).
  unfold inode_create. apply wp_bind, wp_assert; [apply Z.leb_le; lia|]. apply wp_bind, wp_malloc; [done..|]. rewrite nonnull_pos by lia. cbv zeta.
  rewrite bytes_to_sectors_eq by lia. fold cnt. set (s0 := set_heap _ _ s). assert (core ∅ s0) as Hc by (by apply (core_empty n)).
  apply wp_bind. unfold free_map_allocate. apply wp_bind, wp_on_free_map. change (free_map s0) with (free_map s). apply wp_scan_and_flip; [done|lia|lia|].
  intros r b Hr Herr Hok. apply wp_bind, wp_get. cbn [free_map_file set_free_map set_heap s0]. rewrite F4, andb_false_r. apply wp_bind, wp_ret, wp_ret.
  assert (r ≠ BITMAP_ERROR /\ 0 <= r /\ r + cnt <= n /\ group (free_map s) r cnt false) as (Hne & Hr0 & Hrn & Hg).
  { destruct Hr as [(R1 & R2 & R3 & _)|[-> R]]; [split_and!; [unfold BITMAP_ERROR; lia|lia|lia|done]|exfalso].
    apply (R 2); [lia|lia|]. intros j Hj. rewrite Hbits by lia. apply Z.ltb_ge. lia. }
  rewrite (proj2 (Z.eqb_neq _ _) Hne). cbn [negb]. specialize (Hok Hne). destruct Hok as (B1 & B2 & B3). cbn [negb] in B3.
  set (s1 := set_free_map b s0). assert (2 <= r) as Hr2.
  { destruct (Z.le_gt_cases 2 r) as [|Hlt]; [done|]. exfalso. specialize (Hg r ltac:(lia)). rewrite Hbits in Hg by lia. apply Z.ltb_ge in Hg. lia. }
  assert (core ∅ s1) as Hc' by (apply (core_empty n); [done|done|cbn; congruence]).
  assert (forall k, 0 <= k < n -> is_Some (disk s1 !! k)) as Hdom by apply Hm.
  eapply wp_write_inode; [done|lia|lia|lia|apply Hdom; unfold FREE_MAP_SECTOR; lia|intros k Hk; apply Hdom; lia|]. set (d := mk_disk r (byte_cnt n) INODE_MAGIC). intros dk Hdk.
  assert (forall k, in_data d k <-> r <= k < r + cnt) as Hin by done.
  assert (forall k, 0 <= k < n -> bit b k = if decide (k < 2 \/ in_data d k) then true else false) as Hbit.
  { intros k Hk. rewrite B3, Hbits by lia. case_decide as Hd; rewrite Hin in Hd; destruct (Z.leb_spec r k), (Z.ltb_spec k (r + cnt)), (Z.ltb_spec k 2); (done || lia). }
  destruct (core_create ∅ s s1 FREE_MAP_SECTOR d dk) as (Hcore & _ & _); [done| |cbn; congruence| | | |done|cbn; lia|unfold nsectors; cbn; fold cnt; lia|done|done|].
  - split_and!; [unfold FREE_MAP_SECTOR; lia|unfold FREE_MAP_SECTOR; lia|by rewrite Hbits by (unfold FREE_MAP_SECTOR; lia)|].
    intros m e H. by rewrite lookup_empty in H.
  - rewrite Hbn. intros k Hk1 Hk2. cbn [free_map s1 set_free_map]. rewrite Hbits in Hk1 by done. apply Z.ltb_lt in Hk1. rewrite Hbit, decide_True by (auto || lia).
    split; [done|]. rewrite Hin. lia.
  - rewrite Hbn. intros k Hk. rewrite Hin in Hk. cbn [free_map s1 set_free_map]. rewrite Hbit, decide_True by (rewrite ?Hin; lia). split; [lia|done].
  - intros m e k H. by rewrite lookup_empty in H.
  - apply (HQ d); [done|by rewrite insert_empty in Hcore| |done|cbn; congruence|done|].
    + split; try done. cbn. lia.
    + intros k Hk. cbn [free_map s1 set_free_map set_disk]. rewrite Hbit by done. case_decide; [tauto|]. split; [done|intros ?; contradiction].
Qed.

(** The device with the free map alone. *)
Lemma wp_free_map_create n s (Q : unit -> fs -> Prop) :
  4 <= n < 2 ^ 32 - 32 -> medium n s -> first_map n (free_map s) -> fresh s -> open_inodes s = [] ->
  (forall i f d s', up s' i f d -> layout {[ FREE_MAP_SECTOR := d ]} s' -> bit_cnt (free_map s') = n -> length_of d = byte_cnt n -> 2 <= start d ->
     (forall k, 0 <= k < n -> bit (free_map s') k = true <-> k < 2 \/ in_data d k) -> Q tt s') ->
  wp (free_map_create mallocs) s Q.
Proof.
  intros Hn Hm Hfm Hfr Ho HQ. unfold free_map_create. apply wp_bind, wp_get, wp_bind. unfold bitmap_file_size. pose proof Hfm as (_ & -> & _).
  apply (wp_create_map n s); [done..|]. intros d s1 Hl Hc [F1 F2 F3 F4 F5] Ho1 Hn1 Hst Hbits. cbn iota.
  set (A := {[ FREE_MAP_SECTOR := d ]}) in *. assert (A !! FREE_MAP_SECTOR = Some d) as HA by apply lookup_singleton_eq.
  destruct (co_inode _ _ Hc _ _ HA) as [_ (blk & Hblk & Hdec)].
  apply (wp_open_map mallocs Hmalloc s1 d blk); [done|congruence|done..|]. intros i f s2 Hu Ed Ef Hf0.
  rewrite (proj2 (Z.eqb_neq _ _) Hf0). pose proof (core_same _ _ _ Hc Ed Ef) as Hc2.
  apply wp_bind, wp_get, wp_bind. rewrite <-(up_map _ _ _ _ Hu).
  pose proof (core_wf _ _ Hc2 (up_handles _ _ _ _ _ Hu HA)) as Hwf2.
  eapply (wp_bitmap_write mallocs Hmalloc A s2); [done|done|eapply up_fm_inode; [done|by rewrite Ef, Hn1]|].
  intros s3 Hw. cbn [data] in Hw. apply wp_ret. destruct (core_wrote _ _ _ _ _ _ Hc2 HA Hw) as [Hc3 _], (wrote_handles _ _ _ _ Hw) as [Hh Hf3].
  pose proof (up_same _ _ _ _ _ Hu Hh) as Hu3. apply (HQ i f d); [done| |by rewrite Hf3, Ef|done|done|by rewrite Hf3, Ef].
  eapply up_layout; [done|done|done|by rewrite Hf3, Ef, Hn1|]. rewrite (wr_bytes _ _ _ _ Hw), Hf3. apply saved_bits, Hc2.
Qed.

(** Closing the free map leaves nothing open. *)
Lemma wp_free_map_close s i f d (Q : unit -> fs -> Prop) :
  up s i f d -> Q tt (set_files ∅ (set_inodes ∅ [] s)) -> wp (free_map_close mallocs) s Q.
Proof.
  intros [Hi Ho Hf Hd Hm Hh] HQ. unfold free_map_close. apply wp_bind, wp_get. rewrite Hm. unfold file_close. rewrite nonnull_pos by lia.
  assert (forall (Q : file -> fs -> Prop), Q (mk_file i 0 false) s -> wp (get_file f) s Q) as Hg.
  { intros Q' H. unfold get_file. apply wp_bind, wp_get. by rewrite Hf, lookup_singleton_eq. }
  apply wp_bind. unfold file_allow_write. apply wp_bind, wp_assert; [apply nonnull_pos; lia|]. apply wp_bind, Hg. apply wp_ret.
  apply wp_bind, Hg, wp_bind. eapply (wp_close_last mallocs s i); [lia|rewrite Hi; apply lookup_singleton_eq|done|done|].
  apply wp_bind, wp_get, wp_put. cbn [set_inodes files inodes open_inodes]. rewrite Hf, Hi, Ho, !delete_singleton_eq, filter_cons_False by auto. exact HQ.
Qed.

(** A directory of zero bytes has no entries. *)
Lemma zero_dir n : dir_wf (replicate n 0) /\ dir_map (replicate n 0) = ∅.
Proof.
  assert (filter used (slots (replicate n 0)) = []) as E.
  { apply filter_none. intros e (k & -> & _)%list_elem_of_fmap. unfold used. intros H. apply H.
    unfold slot, decode_entry. cbn [in_use]. rewrite drop_replicate, take_replicate. destruct (_ !! 19%nat) as [x|] eqn:Ex; [|done].
    by apply lookup_replicate in Ex as [-> _]. }
  split; [|unfold dir_map, bindings; by rewrite E]. split; [|rewrite E; constructor].
  intros e He Hu. assert (e ∈ filter used (slots (replicate n 0))) as H by (by apply list_elem_of_filter). rewrite E in H. by apply not_elem_of_nil in H.
Qed.

(** The file system at the end of [filesys_init]. *)
Lemma up_fs_inv A m s i f d dr :
  up s i f d -> layout A s -> A !! ROOT_DIR_SECTOR = Some dr -> dir_wf (bytes_of s dr) -> dir_map (bytes_of s dr) = m ->
  (forall nm n, m !! nm = Some n -> n ≠ FREE_MAP_SECTOR /\ n ≠ ROOT_DIR_SECTOR /\ is_Some (A !! n)) ->
  (forall nm nm' n, m !! nm = Some n -> m !! nm' = Some n -> nm = nm') -> fs_inv A m s.
Proof.
  intros Hu Hly HA Hwf Hm He Hj. split; [done|by exists dr|done|done|..]; rewrite (up_inodes _ _ _ _ Hu).
  - intros j x [<- <-]%lookup_singleton_Some. done.
  - intros j x nm [<- <-]%lookup_singleton_Some. done.
Qed.

Lemma wp_do_format n s (Q : unit -> fs -> Prop) :
  4 <= n < 2 ^ 32 - 32 -> medium n s -> first_map n (free_map s) -> fresh s -> open_inodes s = [] ->
  (forall A b d dr s', stored A b d s' -> A !! ROOT_DIR_SECTOR = Some dr -> bytes_of s' dr = replicate 320 0 -> free_map s' = b -> bit_cnt b = n ->
     inodes s' = ∅ -> open_inodes s' = [] -> files s' = ∅ -> dirs s' = ∅ -> 0 < next_addr s' -> Q tt s') ->
  wp (do_format mallocs) s Q.
Proof.
  intros Hn Hm Hfm Hfr Ho HQ. unfold do_format. apply wp_bind, (wp_free_map_create n s); [done..|].
  intros i f d s1 Hu Hly Hn1 Hl Hst Hbits. set (A := {[ FREE_MAP_SECTOR := d ]}) in *.
  destruct (elem_cnt_eq n) as [_ Eb]; [lia|]. assert (0 < nsectors d <= n - 3) as Hns by (unfold nsectors; rewrite Hl, Eb; Z.to_euclidean_division_equations; lia).
  apply wp_bind. unfold dir_create. change (s32 (16 * sizeof_dir_entry)) with 320. eapply (wp_inode_create mallocs Hmalloc A s1); [done| |done| |].
  - split_and!; [unfold ROOT_DIR_SECTOR; lia|unfold ROOT_DIR_SECTOR; lia|apply Hbits; unfold ROOT_DIR_SECTOR; lia|].
    intros m e [<- <-]%lookup_singleton_Some [E|[H1 H2]]; [done|unfold ROOT_DIR_SECTOR in *; lia].
  - intros s2 _ Hno. exfalso. change ((320 + 511) / 512) with 1 in Hno.
    assert (forall k, 2 <= k < n -> bit (free_map s1) k = true) as Hall.
    { intros k Hk. destruct (bit (free_map s1) k) eqn:E; [done|]. exfalso. apply (Hno k); [lia|lia|]. intros j Hj. assert (j = k) as -> by lia. done. }
    pose proof (proj1 (Hbits 2 ltac:(lia)) (Hall 2 ltac:(lia))) as [?|[H1 H2]]; [lia|].
    pose proof (proj1 (Hbits (n - 1) ltac:(lia)) (Hall (n - 1) ltac:(lia))) as [?|[H3 H4]]; lia.
  - intros dr s2 Hlr Hly2 Hk Hh Hz Hn2. cbn iota. pose proof (up_same _ _ _ _ _ Hu Hh) as Hu2.
    eapply wp_free_map_close; [exact Hu2|]. destruct Hly2 as [[Hc Hwf (ino & (F0 & x & F1 & F2 & F3 & F4 & F5) & HA & Hb)] _].
    rewrite (up_files _ _ _ _ Hu2), (up_map _ _ _ _ Hu2), lookup_singleton_eq in F1. injection F1 as <-.
    rewrite (up_inodes _ _ _ _ Hu2), lookup_singleton_eq in F2. injection F2 as <-. cbn [data] in *.
    eapply (HQ (<[ROOT_DIR_SECTOR := dr]> A) (free_map s2) d dr); [|apply lookup_insert_eq|exact Hz|done|congruence|done|done|done|apply Hu2|cbn; pose proof (up_heap _ _ _ _ Hu2); lia].
    split; [by eapply core_same|done|done|done|lia].
Qed.

(** What the start of the file system is given: the device, and the memory for the map. *)
Record boot (n : Z) (old : list Z) s : Prop := {
  bo_size : 4 <= n < 2 ^ 32 - 32;
  bo_medium : medium n s;
  bo_memory : Z.of_nat (length old) = elem_cnt n /\ Forall (fun e => 0 <= e < 2 ^ 32) old;
  bo_fresh : fresh s
}.

Lemma wp_filesys_init n old s format (Q : unit -> fs -> Prop) :
  boot n old s ->
  (forall b, first_map n b -> wp ((if format : bool then do_format mallocs else mret tt);; free_map_open mallocs) (set_free_map b (set_inodes (inodes s) [] s)) Q) ->
  wp (filesys_init mallocs (Some n) (Some old) format) s Q.
Proof.
  intros [Hn Hm [Hl Hf] Hfr] HQ. unfold filesys_init. apply wp_bind, wp_bind, wp_get, wp_put. apply wp_bind.
  apply wp_free_map_init; [lia|done|done|]. intros b Hb. by apply HQ.
Qed.

Lemma wp_format n old s (Q : unit -> fs -> Prop) :
  boot n old s -> (forall s', fsys ∅ s' -> counts_ok s' -> Q tt s') -> wp (filesys_init mallocs (Some n) (Some old) true) s Q.
Proof.
  intros Hbo HQ. apply (wp_filesys_init n old s); [done|]. intros b Hb. apply wp_bind. destruct Hbo as [Hn Hm _ [F1 F2 F3 F4 F5]].
  apply (wp_do_format n); [done|done|done|by split|done|]. intros A b2 d dr s2 Hst HAr Hz Eb En Hi Ho Hf Hd Hh.
  pose proof (co_map _ _ (st_core _ _ _ _ Hst)) as Hwf. cbn [free_map set_free_map] in Hwf.
  eapply (wp_free_map_open mallocs Hmalloc A b2 d); [done..|by rewrite Eb|by rewrite Eb|]. intros i f s3 Hu Hly Ed _.
  apply HQ; [|by eapply up_counts]. exists A, ∅. split; [|unfold files_of; apply omap_empty].
  assert (bytes_of s3 dr = replicate 320 0) as Hz3 by (rewrite <-Hz; apply bytes_of_disk; intros; by rewrite Ed). destruct (zero_dir 320) as [Z1 Z2].
  eapply (up_fs_inv A ∅ s3 i f d dr); [done|done|done|by rewrite Hz3|by rewrite Hz3|..]; intros nm ?; [intros H; by rewrite lookup_empty in H|].
  intros n' H. by rewrite lookup_empty in H.
Qed.

(** Starting from the device of a system [s0]. *)
Lemma wp_reboot n old s s0 F (Q : unit -> fs -> Prop) :
  boot n old s -> fsys F s0 -> disk s = disk s0 -> bit_cnt (free_map s0) = n ->
  (forall s', fsys F s' -> counts_ok s' -> Q tt s') -> wp (filesys_init mallocs (Some n) (Some old) false) s Q.
Proof.
  intros Hbo (A & m & Hinv & Hfs) Ed En HQ. apply (wp_filesys_init n old s); [done|]. intros b (Hb1 & Hb2 & _). apply wp_bind, wp_ret.
  destruct Hbo as [Hn Hm _ [F1 F2 F3 F4 F5]], Hinv as [Hly (dr & HAr & Hdw & Hdm) He Hj _ _]. pose proof Hly as [[Hc Hwf (ino & Hfi & HA & Hsv)] Hh].
  set (s1 := set_free_map b _). assert (forall e, bytes_of s1 e = bytes_of s0 e) as Hby by (intros e; apply bytes_of_disk; intros; cbn; by rewrite Ed).
  eapply (wp_free_map_open mallocs Hmalloc A (free_map s0) (data ino)); [done..| |done|cbn; congruence|].
  - split; [eapply core_same; [exact Hc|exact Ed|done]|done|destruct Hfi as (_ & x & _ & _ & _ & _ & Hl); exact Hl|by rewrite Hby|lia].
  - intros i f s2 Hu Hly2 Ed2 _. apply HQ; [|by eapply up_counts].
    assert (forall e, bytes_of s2 e = bytes_of s0 e) as Hby2 by (intros e; rewrite <-Hby; apply bytes_of_disk; intros; by rewrite Ed2).
    exists A, m. split; [|rewrite <-Hfs; unfold files_of; apply omap_ext; intros nm x Hx; destruct (A !! x); cbn; [by rewrite Hby2|done]].
    eapply (up_fs_inv A m s2 i f _ dr); [done|done|done|by rewrite Hby2|by rewrite Hby2|done|done].
Qed.
End Format.

(** * Results *)

(** [filesys_init] with [format] set gives a file system without files, whatever the
    device, of at least four sectors, held before. *)
Theorem format_correct mallocs n old s :
  (forall k, mallocs k = true) -> boot n old s ->
  wp (filesys_init mallocs (Some n) (Some old) true) s (fun _ s' => fsys ∅ s' /\ counts_ok s').
Proof. intros Hm Hb. by apply (wp_format mallocs Hm n old s). Qed.

(** C12: files survive a restart: if the machine stops between two operations of a file
    system with files [F], with files open or removed while open, then [filesys_init]
    without [format] on the same device gives a file system with the files [F]. *)
Theorem reboot_keeps_files mallocs n old s s0 F :
  (forall k, mallocs k = true) -> boot n old s -> fsys F s0 -> disk s = disk s0 -> bit_cnt (free_map s0) = n ->
  wp (filesys_init mallocs (Some n) (Some old) false) s (fun _ s' => fsys F s' /\ counts_ok s').
Proof. intros Hm Hb HF Hd Hn. by apply (wp_reboot mallocs Hm n old s s0 F). Qed.

(** ** Witnesses *)

(** A machine started on the device of the system [s0]. *)
Definition started (s0 : fs) : fs := mk_fs (disk s0) ∅ [] ∅ ∅ (mk_bitmap 0 []) NULL 64 0.

Lemma started_boot F s0 : fsys F s0 -> bit_cnt (free_map s0) = 16 -> boot 16 [0xffffffff] (started s0).
Proof.
  intros (A & m & Hinv & _) Hn. pose proof (ly_core _ _ (fi_layout _ _ _ Hinv)) as Hc. split; [lia| |split; [done|repeat constructor; lia]|by split].
  split; [apply Hc|]. rewrite <-Hn. apply Hc.
Qed.

Lemma format_correct_witness :
  wp (filesys_init plenty (Some 16) (Some [0xffffffff]) true) (started demo_created) (fun _ s' => fsys ∅ s' /\ counts_ok s').
Proof. apply (format_correct plenty 16); [done|]. apply (started_boot _ demo_created demo_created_fsys). by vm_compute. Defined.

Lemma reboot_keeps_files_witness :
  wp (filesys_init plenty (Some 16) (Some [0xffffffff]) false) (started demo_created) (fun _ s' => fsys demo_files s' /\ counts_ok s').
Proof.
  apply (reboot_keeps_files plenty 16 [0xffffffff] (started demo_created) demo_created demo_files); [done| |exact demo_created_fsys|done|by vm_compute].
  apply (started_boot _ demo_created demo_created_fsys). by vm_compute.
Defined.
