(* ===== verification/Malloc.v ===== *)
(** src/threads/malloc.c: blocks of memory from arenas of the page allocator.

    The state is the machine of [Palloc], the header of every arena, which is at the
    start of its page, and the descriptors.  A free list is the list of its blocks,
    as [Klist] shows the lists of the kernel to be.  The lock of a descriptor is held
    around each change of it, so that a call is one step. *)
From stdpp Require Import base list numbers gmap fin_maps.
From Stdlib Require Import ZArith Lia.
From S2P Require Import Prelude Strings Vaddr Bitmap Palloc.

Open Scope Z_scope.

(** * State *)

Record desc : Type := mk_desc { block_size : Z; blocks_per_arena : Z; free_list : list Z }.
(** [a_desc] is the index of the descriptor, or nothing for a big block. *)
Record arena : Type := mk_arena { a_magic : Z; a_desc : option nat; free_cnt : Z }.
Record heap : Type := mk_heap { hm : machine; arenas : gmap Z arena; descs : list desc }.

Definition ARENA_MAGIC : Z := 0x9a548eed.
Definition sizeof_arena : Z := 12.

Definition on_hm {A} (c : M machine A) : M heap A := fun h =>
  match c (hm h) with Ok (a, x) => Ok (a, mk_heap x (arenas h) (descs h)) | Err e => Err e end.

Definition get_arena (a : Z) : M heap arena :=
  h ← mget; match arenas h !! a with Some ar => mret ar | None => mfail Fault end.
Definition put_arena (a : Z) (ar : arena) : M heap unit :=
  h ← mget; mput (mk_heap (hm h) (<[a := ar]> (arenas h)) (descs h)).
Definition get_desc (k : nat) : M heap desc :=
  h ← mget; match descs h !! k with Some d => mret d | None => mfail Fault end.
Definition put_desc (k : nat) (d : desc) : M heap unit :=
  h ← mget; mput (mk_heap (hm h) (arenas h) (<[k := d]> (descs h))).
Definition set_free (k : nat) (l : list Z) : M heap unit :=
  d ← get_desc k; put_desc k (mk_desc (block_size d) (blocks_per_arena d) l).
(** The descriptor that an arena points to. *)
Definition deref_desc (k : option nat) : M heap desc :=
  match k with Some k => get_desc k | None => mfail Fault end.

(** * Operations *)

(** [descs] is an array of ten. *)
Definition malloc_init : M heap unit :=
  loop 10 (fun block_size =>
    if block_size <? PGSIZE / 2 then
      h ← mget;
      let d := mk_desc block_size ((PGSIZE - sizeof_arena) / block_size) [] in
      ASSERT (Z.of_nat (length (descs h)) + 1 <=? 10);;
      mput (mk_heap (hm h) (arenas h) (descs h ++ [d]));;
      mret (inl (u32 (block_size * 2)))
    else mret (inr tt)) 16.

Definition arena_to_block (a idx : Z) : M heap Z :=
  ASSERT (nonnull a);;
  ar ← get_arena a;
  ASSERT (a_magic ar =? ARENA_MAGIC);;
  d ← deref_desc (a_desc ar);
  ASSERT (idx <? blocks_per_arena d);;
  mret (u32 (a + sizeof_arena + idx * block_size d)).

Definition block_to_arena (b : Z) : M heap Z :=
  let a := pg_round_down b in
  ASSERT (nonnull a);;
  ar ← get_arena a;
  ASSERT (a_magic ar =? ARENA_MAGIC);;
  (match a_desc ar with
   | None => mret tt
   | Some k => d ← get_desc k; ASSERT ((u32 (pg_ofs b - sizeof_arena)) mod block_size d =? 0)
   end);;
  ASSERT (match a_desc ar with None => pg_ofs b =? sizeof_arena | Some _ => true end);;
  mret a.

(** A new arena for descriptor [k], with its blocks on the free list. *)
Definition new_arena (k : nat) (a : Z) : M heap unit :=
  d ← get_desc k;
  put_arena a (mk_arena ARENA_MAGIC (Some k) (blocks_per_arena d));;
  loop (S (Z.to_nat (blocks_per_arena d))) (fun i =>
    if i <? blocks_per_arena d then
      b ← arena_to_block a i;
      d ← get_desc k;
      set_free k (free_list d ++ [b]);;
      mret (inl (i + 1))
    else mret (inr tt)) 0.

Definition malloc (size : Z) : M heap Z :=
  if size =? 0 then mret NULL
  else
    h ← mget;
    match list_find (fun d => size <= block_size d) (descs h) with
    | None =>
      let page_cnt := u32 (u32 (size + sizeof_arena) + PGSIZE - 1) / PGSIZE in
      a ← on_hm (palloc_get_multiple 0 page_cnt);
      if a =? NULL then mret NULL
      else put_arena a (mk_arena ARENA_MAGIC None page_cnt);; mret (u32 (a + sizeof_arena))
    | Some (k, d) =>
      ok ← (match free_list d with
            | [] => a ← on_hm (palloc_get_page 0);
                    if a =? NULL then mret false else new_arena k a;; mret true
            | _ => mret true
            end);
      if ok : bool then
        d ← get_desc k;
        match free_list d with
        | [] => mfail Panic
        | b :: bs =>
          set_free k bs;;
          a ← block_to_arena b;
          ar ← get_arena a;
          put_arena a (mk_arena (a_magic ar) (a_desc ar) (u32 (free_cnt ar - 1)));;
          mret b
        end
      else mret NULL
    end.

Definition calloc (a b : Z) : M heap Z :=
  let size := u32 (a * b) in
  if (size <? a) || (size <? b) then mret NULL
  else
    p ← malloc size;
    (if nonnull p then on_hm (on_ram (memset p 0 (Z.to_nat size)));; mret tt else mret tt);;
    mret p.

(** [block_size] of a block. *)
Definition size_of_block (block : Z) : M heap Z :=
  a ← block_to_arena block;
  ar ← get_arena a;
  match a_desc ar with
  | Some k => d ← get_desc k; mret (block_size d)
  | None => mret (u32 (PGSIZE * free_cnt ar - pg_ofs block))
  end.

(** [list_remove]: the block must be on the list. *)
Definition take_off (k : nat) (b : Z) : M heap unit :=
  d ← get_desc k;
  if bool_decide (b ∈ free_list d) then set_free k (filter (fun x => x ≠ b) (free_list d)) else mfail Fault.

Definition free_block (p : Z) : M heap unit :=
  if nonnull p then
    a ← block_to_arena p;
    ar ← get_arena a;
    match a_desc ar with
    | Some k =>
      d ← get_desc k;
      on_hm (on_ram (memset p 0xcc (Z.to_nat (block_size d))));;
      set_free k (p :: free_list d);;
      let cnt := u32 (free_cnt ar + 1) in
      put_arena a (mk_arena (a_magic ar) (a_desc ar) cnt);;
      if blocks_per_arena d <=? cnt then
        ASSERT (cnt =? blocks_per_arena d);;
        loop (S (Z.to_nat (blocks_per_arena d))) (fun i =>
          if i <? blocks_per_arena d then
            b ← arena_to_block a i;
            take_off k b;;
            mret (inl (i + 1))
          else mret (inr tt)) 0;;
        h ← mget;
        mput (mk_heap (hm h) (delete a (arenas h)) (descs h));;
        on_hm (palloc_free_page a)
      else mret tt
    | None =>
      h ← mget;
      mput (mk_heap (hm h) (delete a (arenas h)) (descs h));;
      on_hm (palloc_free_multiple a (free_cnt ar))
    end
  else mret tt.

Definition realloc (old_block new_size : Z) : M heap Z :=
  if new_size =? 0 then free_block old_block;; mret NULL
  else
    new_block ← malloc new_size;
    (if nonnull old_block && nonnull new_block then
       old_size ← size_of_block old_block;
       let min_size := if new_size <? old_size then new_size else old_size in
       on_hm (on_ram (memcpy new_block old_block (Z.to_nat min_size)));;
       free_block old_block
     else mret tt);;
    mret new_block.

(** * The invariant *)

(** Block [i] of the arena at [a], for blocks of [bs] bytes. *)
Definition blk (a bs i : Z) : Z := a + 12 + i * bs.
(** The blocks of an arena. *)
Definition blks (a : Z) (d : desc) : list Z := (fun i => blk a (block_size d) (Z.of_nat i)) <$> seq 0 (Z.to_nat (blocks_per_arena d)).

(** The descriptors that [malloc_init] sets up. *)
Definition sizes : list (Z * Z) := [(16, 255); (32, 127); (64, 63); (128, 31); (256, 15); (512, 7); (1024, 3)].
Definition shape (d : desc) : Z * Z := (block_size d, blocks_per_arena d).

(** The pages of an arena. *)
Definition span (ar : arena) : Z := match a_desc ar with Some _ => 1 | None => free_cnt ar end.
Definition in_page (a b : Z) : Prop := a <= b < a + 4096.
#[global] Instance in_page_dec a b : Decision (in_page a b).
Proof. unfold in_page. apply _. Defined.

(** [b] is a block in use, of [n] bytes, of the arena at [a]. *)
Definition used_in (h : heap) (a : Z) (ar : arena) (b n : Z) : Prop :=
  match a_desc ar with
  | Some k => exists d, descs h !! k = Some d /\ b ∈ blks a d /\ (b ∉ free_list d) /\ n = block_size d
  | None => b = a + 12 /\ n = 4096 * free_cnt ar - 12
  end.
Definition live (h : heap) (b n : Z) : Prop := exists a ar, arenas h !! a = Some ar /\ used_in h a ar b n.

(** [L] gives the size of every block in use. *)
Record heap_inv (h : heap) (L : gmap Z Z) : Prop := {
  hi_machine : machine_wf (hm h);
  hi_shape : shape <$> descs h = sizes;
  hi_arena : forall a ar, arenas h !! a = Some ar -> a_magic ar = ARENA_MAGIC /\ a mod 4096 = 0 /\ 0 < span ar /\
             forall page, in_group a (span ar) page -> owned (hm h) false page;
  hi_apart : forall a a' ar ar' page, arenas h !! a = Some ar -> arenas h !! a' = Some ar' ->
             in_group a (span ar) page -> in_group a' (span ar') page -> a = a';
  hi_small : forall a ar k, arenas h !! a = Some ar -> a_desc ar = Some k ->
             exists d, descs h !! k = Some d /\ free_cnt ar = Z.of_nat (length (filter (in_page a) (free_list d)));
  hi_free : forall k d, descs h !! k = Some d -> NoDup (free_list d) /\
            forall b, b ∈ free_list d -> exists a ar, arenas h !! a = Some ar /\ a_desc ar = Some k /\ b ∈ blks a d;
  hi_live : forall b n, L !! b = Some n <-> live h b n
}.

(** Every arena has a block in use. *)
Definition tight (h : heap) : Prop :=
  forall a ar k d, arenas h !! a = Some ar -> a_desc ar = Some k -> descs h !! k = Some d -> free_cnt ar < blocks_per_arena d.

Definition heap_ok (h : heap) (L : gmap Z Z) : Prop := heap_inv h L /\ tight h.

(** The pages that an arena holds, and those that are allocated for other uses. *)
Definition held (h : heap) (page : Z) : Prop := exists a ar, arenas h !! a = Some ar /\ in_group a (span ar) page.
Definition outside (h : heap) (page : Z) : Prop := owned (hm h) false page /\ ~ held h page.
Definition same_outside (h h' : heap) : Prop := forall page, outside h' page <-> outside h page.

(** What the blocks in [L] hold is the same. *)
Definition contents_kept (L : gmap Z Z) (h h' : heap) : Prop :=
  forall b n a, L !! b = Some n -> b <= a < b + n -> ram (hm h') !! a = ram (hm h) !! a.

Section Shapes.
Implicit Types (h : heap) (L : gmap Z Z) (d : desc).

Lemma desc_shape h L k d : heap_inv h L -> descs h !! k = Some d -> 16 <= block_size d <= 1024 /\ 3 <= blocks_per_arena d <= 255 /\
  12 + blocks_per_arena d * block_size d <= 4096.
Proof.
  intros Hi Hd. assert (sizes !! k = Some (shape d)) as Hs by (by rewrite <-(hi_shape _ _ Hi), list_lookup_fmap, Hd).
  apply list_elem_of_lookup_2 in Hs. unfold sizes, shape in Hs.
  repeat (apply elem_of_cons in Hs as [[= -> ->]|Hs]; [lia|]). by apply not_elem_of_nil in Hs.
Qed.

Lemma blks_spec a d b : b ∈ blks a d <-> exists i, 0 <= i < blocks_per_arena d /\ b = blk a (block_size d) i.
Proof.
  unfold blks. rewrite list_elem_of_fmap. split.
  - intros (i & -> & [_ Hi]%elem_of_seq). exists (Z.of_nat i). split; [lia|done].
  - intros (i & Hi & ->). exists (Z.to_nat i). rewrite Z2Nat.id by lia. split; [done|]. apply elem_of_seq. lia.
Qed.

Lemma blks_NoDup a d : 0 < block_size d -> NoDup (blks a d).
Proof.
  intros Hp. apply NoDup_fmap; [|apply NoDup_seq]. intros i j. unfold blk. nia.
Qed.

(** A block lies in the page of its arena, after the header. *)
Lemma blk_range h L k d a b : heap_inv h L -> descs h !! k = Some d -> b ∈ blks a d -> a + 12 <= b /\ b + block_size d <= a + 4096.
Proof.
  intros Hi Hd (i & Hb & ->)%blks_spec. destruct (desc_shape _ _ _ _ Hi Hd) as (H1 & H2 & H3). unfold blk. nia.
Qed.

Lemma blk_round a b : a mod 4096 = 0 -> 0 <= a -> a + 4096 <= 2 ^ 32 -> in_page a b -> pg_round_down b = a.
Proof. unfold in_page. intros H1 H2 H3 H4. rewrite pg_round_down_div by lia. Z.to_euclidean_division_equations. lia. Qed.

Lemma length_blks a d : length (blks a d) = Z.to_nat (blocks_per_arena d).
Proof. unfold blks. by rewrite length_fmap, length_seq. Qed.
End Shapes.

Ltac desc_lia Hi Hd := let H1 := fresh in let H2 := fresh in let H3 := fresh in
  destruct (desc_shape _ _ _ _ Hi Hd) as (H1 & H2 & H3); lia.

Section Invariant.
Implicit Types (h : heap) (L : gmap Z Z) (d : desc) (a b n : Z) (k : nat).

Lemma arena_page h L a ar : heap_inv h L -> arenas h !! a = Some ar ->
  PHYS_BASE <= a /\ a mod 4096 = 0 /\ a + 4096 * span ar <= 2 ^ 32 - 4096 /\ in_group a (span ar) a.
Proof.
  intros Hi Ha. destruct (hi_arena _ _ Hi _ _ Ha) as (_ & Hal & Hsp & Hown). pose proof (mw_kernel _ (hi_machine _ _ Hi)) as [_ P2 P3 P4 _].
  assert (in_group a (span ar) a) as Hg by (split; [done|lia]).
  destruct (Hown a Hg) as [[_ Hr] _]. destruct (Hown (a + 4096 * (span ar - 1))) as [[_ Hr'] _].
  { split; [|lia]. rewrite Z.mul_comm, Z.mod_add by done. done. }
  cbn [the_pool] in *. split_and!; [lia|done| |done]. Z.to_euclidean_division_equations. lia.
Qed.

(** Two arenas have no address in common. *)
Lemma arenas_apart h L a a' ar ar' x : heap_inv h L -> arenas h !! a = Some ar -> arenas h !! a' = Some ar' ->
  a <= x < a + 4096 * span ar -> a' <= x < a' + 4096 * span ar' -> a = a'.
Proof.
  intros Hi Ha Ha' H1 H2. destruct (arena_page _ _ _ _ Hi Ha) as (_ & A1 & _), (arena_page _ _ _ _ Hi Ha') as (_ & A2 & _).
  apply (hi_apart _ _ Hi a a' ar ar' (x / 4096 * 4096)); [done..| |]; split; Z.to_euclidean_division_equations; lia.
Qed.

Lemma page_arena_apart h L a a' ar ar' k x : heap_inv h L -> arenas h !! a = Some ar -> arenas h !! a' = Some ar' -> a_desc ar = Some k ->
  in_page a x -> a' <= x < a' + 4096 * span ar' -> a = a'.
Proof. intros Hi Ha Ha' Hk Hx. apply (arenas_apart h L a a' ar ar' x); [done..|]. unfold span. rewrite Hk. unfold in_page in Hx. lia. Qed.

Lemma block_page h L k d a b : heap_inv h L -> descs h !! k = Some d -> b ∈ blks a d -> in_page a b.
Proof. intros Hi Hd Hb. pose proof (blk_range _ _ _ _ _ _ Hi Hd Hb). destruct (desc_shape _ _ _ _ Hi Hd) as (? & _). unfold in_page. lia. Qed.

(** A block in use lies inside its arena, after the header. *)
Lemma used_range h L a ar b n : heap_inv h L -> arenas h !! a = Some ar -> used_in h a ar b n ->
  a + 12 <= b /\ b + n <= a + 4096 * span ar /\ 0 < n.
Proof.
  intros Hi Ha Hl. destruct (hi_arena _ _ Hi _ _ Ha) as (_ & _ & Hsp & _). unfold span, used_in in *.
  destruct (a_desc ar) as [k|].
  - destruct Hl as (d & Hd & Hb & _ & ->). pose proof (blk_range _ _ _ _ _ _ Hi Hd Hb). desc_lia Hi Hd.
  - destruct Hl as [-> ->]. lia.
Qed.

(** Blocks in use do not overlap. *)
Lemma live_apart h L b b' n n' : heap_inv h L -> live h b n -> live h b' n' -> b ≠ b' -> b + n <= b' \/ b' + n' <= b.
Proof.
  intros Hi (a & ar & Ha & Hl) (a' & ar' & Ha' & Hl') Hne. destruct (decide (b + n <= b' \/ b' + n' <= b)) as [|Hov]; [done|exfalso].
  destruct (used_range _ _ _ _ _ _ Hi Ha Hl) as (R1 & R2 & R3), (used_range _ _ _ _ _ _ Hi Ha' Hl') as (R1' & R2' & R3').
  assert (a = a') as <- by (apply (arenas_apart h L a a' ar ar' (Z.max b b')); [done..|lia|lia]).
  rewrite Ha in Ha'. injection Ha' as <-. unfold used_in in *. destruct (a_desc ar) as [k|]; [|lia].
  destruct Hl as (d & Hd & (i & Hbi & ->)%blks_spec & _ & ->), Hl' as (d' & Hd' & (i' & Hbi' & ->)%blks_spec & _ & ->).
  rewrite Hd in Hd'. injection Hd' as <-. unfold blk in *. destruct (desc_shape _ _ _ _ Hi Hd) as (? & _).
  assert (i ≠ i') by (intros ->; done). nia.
Qed.

(** The free blocks of an arena are among its blocks. *)
Lemma free_in_page h L a ar k d b : heap_inv h L -> arenas h !! a = Some ar -> a_desc ar = Some k -> descs h !! k = Some d ->
  b ∈ free_list d -> in_page a b -> b ∈ blks a d.
Proof.
  intros Hi Ha Hk Hd Hb Hp. destruct (hi_free _ _ Hi _ _ Hd) as [_ Hf]. destruct (Hf b Hb) as (a' & ar' & Ha' & Hk' & Hb').
  pose proof (block_page _ _ _ _ _ _ Hi Hd Hb') as Hp'.
  assert (a = a') as <-; [|done]. apply (page_arena_apart h L a a' ar ar' k b); [done..|]. unfold span. rewrite Hk'. unfold in_page in Hp'. lia.
Qed.

Lemma free_count h L a ar k d : heap_inv h L -> arenas h !! a = Some ar -> a_desc ar = Some k -> descs h !! k = Some d ->
  filter (in_page a) (free_list d) ⊆+ blks a d.
Proof.
  intros Hi Ha Hk Hd. apply NoDup_submseteq.
  - apply NoDup_filter. by apply (hi_free _ _ Hi _ _ Hd).
  - intros b [Hp Hb]%list_elem_of_filter. by eapply free_in_page.
Qed.
(** The machine has the same pools, and what the kernel owned it owns. *)
Definition keeps_pages (m m' : machine) : Prop := machine_wf m' /\ forall page, owned m false page -> owned m' false page.

Lemma filter_outside a a' (l l' : list Z) :
  (forall x, in_page a x -> in_page a' x -> False) -> filter (fun x => ~ in_page a x) l' = filter (fun x => ~ in_page a x) l ->
  filter (in_page a') l' = filter (in_page a') l.
Proof.
  intros Hd E. assert (forall l0 : list Z, filter (in_page a') l0 = filter (in_page a') (filter (fun x => ~ in_page a x) l0)) as Hf.
  { intros l0. rewrite list_filter_filter. apply list_filter_iff. intros x. split; [intros Hx; split; [done|intros Hx'; by eapply Hd]|by intros [? _]]. }
  by rewrite Hf, E, <-Hf.
Qed.

Definition with_free d (l : list Z) : desc := mk_desc (block_size d) (blocks_per_arena d) l.

Lemma blks_with_free a d l : blks a (with_free d l) = blks a d.
Proof. done. Qed.

Lemma elem_outside a (l l' : list Z) x :
  ~ in_page a x -> filter (fun x => ~ in_page a x) l' = filter (fun x => ~ in_page a x) l -> x ∈ l' <-> x ∈ l.
Proof.
  intros Hx E. assert (forall l0 : list Z, x ∈ l0 <-> x ∈ filter (fun x => ~ in_page a x) l0) as Hf by (intros l0; rewrite list_elem_of_filter; tauto).
  by rewrite Hf, E, <-Hf.
Qed.

(** The blocks in use after a change of the free blocks of one arena. *)
Lemma restock_live h L a ar ar' k d fl m' b n :
  heap_inv h L -> arenas h !! a = Some ar -> a_desc ar = Some k -> descs h !! k = Some d -> a_desc ar' = Some k ->
  filter (fun x => ~ in_page a x) fl = filter (fun x => ~ in_page a x) (free_list d) ->
  live (mk_heap m' (<[a := ar']> (arenas h)) (<[k := with_free d fl]> (descs h))) b n <->
  (b ∈ blks a d /\ (b ∉ fl) /\ n = block_size d) \/ ((b ∉ blks a d) /\ live h b n).
Proof.
  intros Hi Ha Hk Hd Hk' Hout. set (h' := mk_heap _ _ _).
  assert (descs h' !! k = Some (with_free d fl)) as Hdk by (cbn; apply list_lookup_insert_eq; by eapply lookup_lt_Some).
  assert (forall x y, x ≠ a -> arenas h !! x = Some y -> used_in h' x y b n -> ~ in_page a b /\ used_in h x y b n) as H1.
  { intros x y Hne Hx Hu. unfold used_in in *. destruct (a_desc y) as [j|] eqn:Ej.
    - destruct Hu as (e & He & Hb & Hf & ->). destruct (decide (j = k)) as [->|Hjk].
      + assert (e = with_free d fl) as -> by congruence. change (blks x (with_free d fl)) with (blks x d) in Hb.
        assert (~ in_page a b) as Hp.
        { intros Hp. apply Hne. symmetry. apply (page_arena_apart h L a x ar y k b); [done..|]. unfold span. rewrite Ej. by apply (block_page h L k d). }
        split; [done|]. exists d. split_and!; [done|done| |done]. intros Hf'. apply Hf. cbn. by apply (elem_outside a (free_list d)).
      + cbn in He. rewrite list_lookup_insert_ne in He by done. split; [|by exists e]. intros Hp. apply Hne. symmetry.
        apply (page_arena_apart h L a x ar y k b); [done..|]. unfold span. rewrite Ej. by apply (block_page h L j e).
    - split; [|done]. intros Hp. apply Hne. symmetry. destruct (hi_arena _ _ Hi _ _ Hx) as (_ & _ & Hs & _).
      unfold span in Hs. rewrite Ej in Hs. apply (page_arena_apart h L a x ar y k b); [done..|]. unfold span. rewrite Ej. lia. }
  assert (forall x y, x ≠ a -> arenas h !! x = Some y -> used_in h x y b n -> ~ in_page a b -> used_in h' x y b n) as H2.
  { intros x y Hne Hx Hu Hp. unfold used_in in *. destruct (a_desc y) as [j|] eqn:Ej; [|done]. destruct Hu as (e & He & Hb & Hf & ->).
    destruct (decide (j = k)) as [->|Hjk]; [|exists e; split; [cbn; by rewrite list_lookup_insert_ne|done]].
    assert (e = d) as -> by congruence. exists (with_free d fl). split_and!; [done|done| |done]. cbn. by rewrite (elem_outside a (free_list d)). }
  assert (b ∈ blks a d -> in_page a b) as Hbp by (by apply block_page with h L k).
  split.
  - intros (x & y & Hx & Hu). destruct (decide (x = a)) as [->|Hne]; cbn in Hx.
    + rewrite lookup_insert_eq in Hx. injection Hx as <-. unfold used_in in Hu. rewrite Hk' in Hu. destruct Hu as (e & He & Hb & Hf & ->).
      assert (e = with_free d fl) as -> by congruence. by left.
    + rewrite lookup_insert_ne in Hx by done. destruct (H1 x y Hne Hx Hu) as [Hp Hu']. right. split; [tauto|]. by exists x, y.
  - intros [(Hb & Hf & ->)|[Hb (x & y & Hx & Hu)]].
    + exists a, ar'. cbn. rewrite lookup_insert_eq. split; [done|]. unfold used_in. rewrite Hk'. by exists (with_free d fl).
    + assert (x ≠ a) as Hne.
      { intros ->. assert (y = ar) as -> by congruence. unfold used_in in Hu. rewrite Hk in Hu. destruct Hu as (e & He & Hb' & _). assert (e = d) as -> by congruence. done. }
      exists x, y. cbn. rewrite lookup_insert_ne by done. split; [done|]. apply H2; [done..|]. intros Hp. apply Hne. symmetry.
      destruct (used_range _ _ _ _ _ _ Hi Hx Hu) as (? & ? & ?). apply (page_arena_apart h L a x ar y k b); [done..|lia].
Qed.

(** The free blocks of the arena at [a] change, and nothing else. *)
Lemma restock h L L' a ar k d fl c m' :
  heap_inv h L -> arenas h !! a = Some ar -> a_desc ar = Some k -> descs h !! k = Some d -> keeps_pages (hm h) m' ->
  NoDup fl -> (forall x, x ∈ fl -> x ∈ free_list d \/ x ∈ blks a d) ->
  filter (fun x => ~ in_page a x) fl = filter (fun x => ~ in_page a x) (free_list d) -> c = Z.of_nat (length (filter (in_page a) fl)) ->
  (forall b n, L' !! b = Some n <-> (b ∈ blks a d /\ (b ∉ fl) /\ n = block_size d) \/ ((b ∉ blks a d) /\ L !! b = Some n)) ->
  heap_inv (mk_heap m' (<[a := mk_arena (a_magic ar) (Some k) c]> (arenas h)) (<[k := with_free d fl]> (descs h))) L'.
Proof.
  intros Hi Ha Hk Hd [Hm' Hown] Hnd Hin Hout Hc HL. set (ar' := mk_arena _ _ _). set (h' := mk_heap _ _ _).
  assert (forall x y, arenas h' !! x = Some y -> exists y0, arenas h !! x = Some y0 /\ a_magic y = a_magic y0 /\ a_desc y = a_desc y0 /\ span y = span y0 /\
    (x ≠ a -> y = y0)) as Har.
  { intros x y. cbn. intros [[<- <-]|[Hne Hx]]%lookup_insert_Some; [|by exists y]. exists ar. unfold span, ar'. cbn. by rewrite Hk. }
  assert (forall j e, descs h' !! j = Some e -> exists e0, descs h !! j = Some e0 /\ shape e = shape e0 /\ (j ≠ k -> e = e0) /\ (j = k -> e = with_free d fl)) as Hde.
  { intros j e. cbn. intros [(<- & <- & _)|[Hne He]]%list_lookup_insert_Some; [by exists d|]. by exists e. }
  assert (descs h' !! k = Some (with_free d fl)) as Hdk by (cbn; apply list_lookup_insert_eq; by eapply lookup_lt_Some).
  split.
  - done.
  - cbn. rewrite list_fmap_insert, <-(hi_shape _ _ Hi). apply list_insert_id. by rewrite list_lookup_fmap, Hd.
  - intros x y Hx. destruct (Har x y Hx) as (y0 & Hy0 & -> & _ & -> & _). destruct (hi_arena _ _ Hi _ _ Hy0) as (? & ? & ? & H4).
    split_and!; [done..|]. intros page Hp. by apply Hown, H4.
  - intros x x' y y' page Hx Hx'. destruct (Har x y Hx) as (y0 & Hy0 & _ & _ & -> & _), (Har x' y' Hx') as (y0' & Hy0' & _ & _ & -> & _).
    by apply (hi_apart _ _ Hi).
  - intros x y j Hx Hj. destruct (decide (x = a)) as [->|Hne].
    + cbn in Hx. rewrite lookup_insert_eq in Hx. injection Hx as <-. cbn in Hj. injection Hj as <-. exists (with_free d fl). split; [done|]. cbn. done.
    + destruct (Har x y Hx) as (y0 & Hy0 & _ & E & _ & Ey). rewrite (Ey Hne) in *. destruct (hi_small _ _ Hi _ _ _ Hy0 Hj) as (e & He & Hcnt).
      destruct (decide (j = k)) as [->|Hjk]; [|exists e; split; [cbn; by rewrite list_lookup_insert_ne|done]].
      exists (with_free d fl). split; [done|]. rewrite Hcnt. assert (e = d) as -> by congruence. cbn. do 2 f_equal. symmetry.
      apply (filter_outside a); [|done]. intros z Hz Hz'. apply Hne. symmetry. apply (page_arena_apart h L a x ar y0 k z); [done..|].
      unfold span. rewrite Hj. unfold in_page in Hz'. lia.
  - intros j e He. destruct (Hde j e He) as (e0 & He0 & Hsh & Eo & Ek). destruct (decide (j = k)) as [->|Hjk].
    + rewrite (Ek eq_refl) in *. split; [done|]. cbn. intros b Hb. destruct (Hin b Hb) as [Hf|Hf].
      * destruct (hi_free _ _ Hi _ _ Hd) as [_ HF]. destruct (HF b Hf) as (x & y & Hx & Hy & Hbx).
        destruct (decide (x = a)) as [->|Hne]; [exists a, ar'; by rewrite lookup_insert_eq|exists x, y; by rewrite lookup_insert_ne].
      * exists a, ar'. by rewrite lookup_insert_eq.
    + rewrite (Eo Hjk) in *. destruct (hi_free _ _ Hi _ _ He0) as [H1 HF]. split; [done|]. intros b Hb. destruct (HF b Hb) as (x & y & Hx & Hy & Hbx).
      exists x, y. cbn. rewrite lookup_insert_ne; [done|]. intros <-. congruence.
  - intros b n. rewrite HL, (hi_live _ _ Hi b n). symmetry. by apply (restock_live h L a ar).
Qed.
(** A block of an arena is in use if it is not free. *)
Lemma block_live h L a ar k d b n : heap_inv h L -> arenas h !! a = Some ar -> a_desc ar = Some k -> descs h !! k = Some d -> b ∈ blks a d ->
  L !! b = Some n <-> (b ∉ free_list d) /\ n = block_size d.
Proof.
  intros Hi Ha Hk Hd Hb. rewrite (hi_live _ _ Hi). split.
  - intros (x & y & Hx & Hu). destruct (used_range _ _ _ _ _ _ Hi Hx Hu) as (? & ? & ?).
    assert (a = x) as <- by (apply (page_arena_apart h L a x ar y k b); [done..|by eapply block_page|lia]).
    rewrite Ha in Hx. injection Hx as <-. unfold used_in in Hu. rewrite Hk in Hu. destruct Hu as (e & He & _ & Hf & ->). assert (e = d) as -> by congruence. done.
  - intros [Hf ->]. exists a, ar. split; [done|]. unfold used_in. rewrite Hk. by exists d.
Qed.

(** The arena and the count of a free block. *)
Lemma free_block_arena h L k d b : heap_inv h L -> descs h !! k = Some d -> b ∈ free_list d ->
  exists a ar, arenas h !! a = Some ar /\ a_desc ar = Some k /\ b ∈ blks a d /\ in_page a b /\ 0 < free_cnt ar <= blocks_per_arena d.
Proof.
  intros Hi Hd Hb. destruct (hi_free _ _ Hi _ _ Hd) as [_ Hf]. destruct (Hf b Hb) as (a & ar & Ha & Hk & Hbk). exists a, ar.
  pose proof (block_page _ _ _ _ _ _ Hi Hd Hbk) as Hp. destruct (hi_small _ _ Hi _ _ _ Ha Hk) as (e & He & Hc). assert (e = d) as -> by congruence.
  split_and!; try done; rewrite Hc.
  - assert (b ∈ filter (in_page a) (free_list d)) as Hin by (by apply list_elem_of_filter). destruct (filter _ _); [by apply not_elem_of_nil in Hin|]. cbn. lia.
  - pose proof (submseteq_length _ _ (free_count _ _ _ _ _ _ Hi Ha Hk Hd)) as Hl. rewrite length_blks in Hl. desc_lia Hi Hd.
Qed.

(** Taking the first free block. *)
Lemma pop_inv h L a ar k d b bs :
  heap_inv h L -> arenas h !! a = Some ar -> a_desc ar = Some k -> descs h !! k = Some d -> free_list d = b :: bs -> b ∈ blks a d ->
  heap_inv (mk_heap (hm h) (<[a := mk_arena (a_magic ar) (Some k) (free_cnt ar - 1)]> (arenas h)) (<[k := with_free d bs]> (descs h)))
    (<[b := block_size d]> L) /\ L !! b = None.
Proof.
  intros Hi Ha Hk Hd Hfl Hb. pose proof (block_page _ _ _ _ _ _ Hi Hd Hb) as Hp.
  destruct (hi_free _ _ Hi _ _ Hd) as [Hnd _]. rewrite Hfl in Hnd. apply NoDup_cons in Hnd as [Hnb Hnd].
  assert (L !! b = None) as Hnone.
  { destruct (L !! b) as [n|] eqn:E; [|done]. apply (block_live h L a ar k d b n Hi Ha Hk Hd Hb) in E as [Hf _]. exfalso. apply Hf. rewrite Hfl. by left. }
  split; [|done]. apply (restock h L); [done..| |done| | | |].
  - split; [apply Hi|done].
  - intros x Hx. left. rewrite Hfl. by right.
  - rewrite Hfl, filter_cons_False by tauto. done.
  - destruct (hi_small _ _ Hi _ _ _ Ha Hk) as (e & He & ->). assert (e = d) as -> by congruence. rewrite Hfl, filter_cons_True by done. cbn [length]. lia.
  - intros x n. pose proof (block_live h L a ar k d x n Hi Ha Hk Hd) as Hbl. rewrite lookup_insert_Some, Hfl, elem_of_cons in *. split.
    + intros [[<- <-]|[Hne HL]]; [by left|]. destruct (decide (x ∈ blks a d)) as [Hx|Hx]; [left|by right].
      apply (Hbl Hx) in HL as [Hf ->]. tauto.
    + intros [(Hx & Hf & ->)|[Hx HL]].
      * destruct (decide (x = b)) as [->|Hne]; [by left|right]. split; [done|]. apply Hbl; [done|]. tauto.
      * right. split; [by intros ->|done].
Qed.

(** Giving a block back. *)
Lemma push_inv h L a ar k d b m' :
  heap_inv h L -> arenas h !! a = Some ar -> a_desc ar = Some k -> descs h !! k = Some d -> b ∈ blks a d -> (b ∉ free_list d) -> keeps_pages (hm h) m' ->
  heap_inv (mk_heap m' (<[a := mk_arena (a_magic ar) (Some k) (free_cnt ar + 1)]> (arenas h)) (<[k := with_free d (b :: free_list d)]> (descs h))) (delete b L).
Proof.
  intros Hi Ha Hk Hd Hb Hnf Hm. pose proof (block_page _ _ _ _ _ _ Hi Hd Hb) as Hp. destruct (hi_free _ _ Hi _ _ Hd) as [Hnd _].
  apply (restock h L); [done..| | | | |].
  - by constructor.
  - intros x [->|Hx]%elem_of_cons; [by right|by left].
  - rewrite filter_cons_False by tauto. done.
  - destruct (hi_small _ _ Hi _ _ _ Ha Hk) as (e & He & ->). assert (e = d) as -> by congruence. rewrite filter_cons_True by done. cbn [length]. lia.
  - intros x n. pose proof (block_live h L a ar k d x n Hi Ha Hk Hd) as Hbl. rewrite lookup_delete_Some, elem_of_cons. split.
    + intros [Hne HL]. destruct (decide (x ∈ blks a d)) as [Hx|Hx]; [left|by right]. apply (Hbl Hx) in HL as [Hf ->]. split_and!; [done| |done]. intros [->|?]; done.
    + intros [(Hx & Hf & ->)|[Hx HL]]; [|split; [by intros <-|done]]. split; [intros ->; tauto|]. apply Hbl; [done|]. tauto.
Qed.
(** ** New arenas *)

(** The pages [page], of [cnt], are new: owned now, and of no arena. *)
Definition new_pages h m' a cnt : Prop :=
  a mod 4096 = 0 /\ 0 < cnt /\ (forall page, in_group a cnt page -> owned m' false page) /\
  (forall x y page, arenas h !! x = Some y -> in_group x (span y) page -> in_group a cnt page -> False).

Lemma new_pages_None h L m' a cnt : heap_inv h L -> new_pages h m' a cnt -> arenas h !! a = None.
Proof.
  intros Hi (H1 & H2 & _ & H4). destruct (arenas h !! a) as [y|] eqn:E; [|done]. exfalso.
  destruct (arena_page _ _ _ _ Hi E) as (_ & _ & _ & Hg). apply (H4 a y a E Hg). split; [done|lia].
Qed.

(** What a new arena has to do with the old ones. *)
Lemma new_arena_facts h L m' a cnt ar ds :
  heap_inv h L -> keeps_pages (hm h) m' -> new_pages h m' a cnt -> a_magic ar = ARENA_MAGIC -> span ar = cnt ->
  let h' := mk_heap m' (<[a := ar]> (arenas h)) ds in
  (forall x y, arenas h' !! x = Some y -> a_magic y = ARENA_MAGIC /\ x mod 4096 = 0 /\ 0 < span y /\
             forall page, in_group x (span y) page -> owned m' false page) /\
  (forall x x' y y' page, arenas h' !! x = Some y -> arenas h' !! x' = Some y' ->
             in_group x (span y) page -> in_group x' (span y') page -> x = x').
Proof.
  intros Hi [_ Hown] (H1 & H2 & H3 & H4) Hmg Hsp h'. split.
  - intros x y. cbn. intros [[<- <-]|[_ Hx]]%lookup_insert_Some; [rewrite Hsp; by split_and!|].
    destruct (hi_arena _ _ Hi _ _ Hx) as (? & ? & ? & Ho). split_and!; [done..|]. intros page Hp. by apply Hown, Ho.
  - intros x x' y y' page. cbn. intros [[<- <-]|[_ Hx]]%lookup_insert_Some [[<- <-]|[_ Hx']]%lookup_insert_Some Hp Hp'; [done| | |].
    + rewrite Hsp in Hp. exfalso. by eapply H4.
    + rewrite Hsp in Hp'. exfalso. by eapply H4.
    + by eapply (hi_apart _ _ Hi).
Qed.

(** A new arena of free blocks. *)
Lemma add_small h L k d a m' :
  heap_inv h L -> descs h !! k = Some d -> free_list d = [] -> keeps_pages (hm h) m' -> new_pages h m' a 1 ->
  heap_inv (mk_heap m' (<[a := mk_arena ARENA_MAGIC (Some k) (blocks_per_arena d)]> (arenas h)) (<[k := with_free d (blks a d)]> (descs h))) L.
Proof.
  intros Hi Hd Hfl Hm Hn. pose proof (new_pages_None _ _ _ _ _ Hi Hn) as Hnone. set (ar := mk_arena _ _ _). set (h' := mk_heap _ _ _).
  destruct (new_arena_facts h L m' a 1 ar (descs h') Hi Hm Hn eq_refl eq_refl) as [F1 F2].
  assert (descs h' !! k = Some (with_free d (blks a d))) as Hdk by (cbn; apply list_lookup_insert_eq; by eapply lookup_lt_Some).
  assert (forall x y, arenas h !! x = Some y -> x ≠ a) as Hxa by (intros x y Hx ->; congruence).
  assert (forall x y, arenas h !! x = Some y -> a_desc y = Some k -> filter (in_page x) (blks a d) = []) as Hoth.
  { intros x y Hx Hy. apply filter_none. intros b Hb Hp. pose proof (block_page _ _ _ _ _ _ Hi Hd Hb) as Hpa.
    destruct Hn as (N1 & _ & _ & N4), (arena_page _ _ _ _ Hi Hx) as (_ & X1 & _ & _). apply (N4 x y a Hx); [|split; [done|lia]].
    split; [done|]. unfold span. rewrite Hy. unfold in_page in *. Z.to_euclidean_division_equations. lia. }
  split.
  - apply Hm.
  - cbn. rewrite list_fmap_insert, <-(hi_shape _ _ Hi). apply list_insert_id. by rewrite list_lookup_fmap, Hd.
  - exact F1.
  - exact F2.
  - intros x y j. cbn. intros [[<- <-]|[_ Hx]]%lookup_insert_Some.
    + intros [= <-]. eexists. split; [done|]. cbn [free_list with_free]. rewrite filter_all by (intros b Hb; by eapply block_page).
      rewrite length_blks. cbn. desc_lia Hi Hd.
    + intros Hj. destruct (hi_small _ _ Hi _ _ _ Hx Hj) as (e & He & Hc). destruct (decide (j = k)) as [->|Hjk].
      * assert (e = d) as -> by congruence. eexists. split; [done|]. cbn [free_list with_free]. by rewrite (Hoth x y), Hc, Hfl.
      * exists e. by rewrite list_lookup_insert_ne.
  - intros j e. cbn. intros [(<- & <- & _)|[Hne He]]%list_lookup_insert_Some.
    + split; [apply blks_NoDup; desc_lia Hi Hd|]. cbn. intros b Hb. exists a, ar. by rewrite lookup_insert_eq.
    + destruct (hi_free _ _ Hi _ _ He) as [H1 H2]. split; [done|]. intros b Hb. destruct (H2 b Hb) as (x & y & Hx & Hy & Hbx).
      exists x, y. rewrite lookup_insert_ne; [done|]. symmetry. by eapply Hxa.
  - intros b n. rewrite (hi_live _ _ Hi). split; intros (x & y & Hx & Hu).
    + exists x, y. cbn. rewrite lookup_insert_ne by (symmetry; by eapply Hxa). split; [done|]. unfold used_in in *. destruct (a_desc y) as [j|] eqn:Ej; [|done].
      destruct Hu as (e & He & Hb & Hf & ->). destruct (decide (j = k)) as [->|Hjk]; [|exists e; cbn; by rewrite list_lookup_insert_ne].
      assert (e = d) as -> by congruence. eexists. split_and!; [exact Hdk|done| |done]. cbn. intros Hb'.
      assert (b ∈ filter (in_page x) (blks a d)) as Hin by (apply list_elem_of_filter; split; [by eapply block_page|done]).
      rewrite (Hoth x y Hx Ej) in Hin. by apply not_elem_of_nil in Hin.
    + cbn in Hx. apply lookup_insert_Some in Hx as [[<- <-]|[_ Hx]].
      * unfold used_in in Hu. cbn [a_desc ar] in Hu. destruct Hu as (e & He & Hb & Hf & _). rewrite Hdk in He. injection He as <-. done.
      * exists x, y. split; [done|]. unfold used_in in *. destruct (a_desc y) as [j|]; [|done]. destruct Hu as (e & He & Hb & Hf & ->).
        destruct (decide (j = k)) as [->|Hjk]; [|exists e; cbn in He; by rewrite list_lookup_insert_ne in He].
        rewrite Hdk in He. injection He as <-. exists d. split_and!; [done|done| |done]. rewrite Hfl. apply not_elem_of_nil.
Qed.
(** An arena of free blocks goes. *)
Lemma drop_small h L k d a ar m' :
  heap_inv h L -> arenas h !! a = Some ar -> a_desc ar = Some k -> descs h !! k = Some d -> (forall b, b ∈ blks a d -> b ∈ free_list d) ->
  machine_wf m' -> (forall page, owned (hm h) false page -> page ≠ a -> owned m' false page) ->
  heap_inv (mk_heap m' (delete a (arenas h)) (<[k := with_free d (filter (fun x => ~ in_page a x) (free_list d))]> (descs h))) L.
Proof.
  intros Hi Ha Hk Hd Hall Hwf Hown. set (fl := filter _ _). set (h' := mk_heap _ _ _).
  assert (forall x y, arenas h' !! x = Some y -> a ≠ x /\ arenas h !! x = Some y) as Hdel by (intros x y; cbn; by rewrite lookup_delete_Some).
  assert (descs h' !! k = Some (with_free d fl)) as Hdk by (cbn; apply list_lookup_insert_eq; by eapply lookup_lt_Some).
  assert (forall x y z, arenas h !! x = Some y -> x ≠ a -> x <= z < x + 4096 * span y -> ~ in_page a z) as Hfar.
  { intros x y z Hx Hne Hz Hp. apply Hne. symmetry. by apply (page_arena_apart h L a x ar y k z). }
  assert (forall x y z, arenas h !! x = Some y -> a_desc y = Some k -> x ≠ a -> in_page x z -> ~ in_page a z) as Hsep.
  { intros x y z Hx Hy Hne Hz. apply (Hfar x y z); [done..|]. unfold span. rewrite Hy. unfold in_page in Hz. lia. }
  split.
  - done.
  - cbn. rewrite list_fmap_insert, <-(hi_shape _ _ Hi). apply list_insert_id. by rewrite list_lookup_fmap, Hd.
  - intros x y [Hne Hx]%Hdel. destruct (hi_arena _ _ Hi _ _ Hx) as (? & ? & ? & Ho). split_and!; [done..|].
    intros page Hp. apply Hown; [by apply Ho|]. intros ->. destruct (arena_page _ _ _ _ Hi Ha) as (_ & _ & _ & Hg).
    apply Hne. by apply (hi_apart _ _ Hi a x ar y a).
  - intros x x' y y' page [_ Hx]%Hdel [_ Hx']%Hdel. by apply (hi_apart _ _ Hi).
  - intros x y j [Hne Hx]%Hdel Hj. destruct (hi_small _ _ Hi _ _ _ Hx Hj) as (e & He & Hc). destruct (decide (j = k)) as [->|Hjk].
    + assert (e = d) as -> by congruence. eexists. split; [exact Hdk|]. rewrite Hc. cbn [free_list with_free]. unfold fl. rewrite list_filter_filter.
      do 2 f_equal. apply list_filter_iff. intros z. split; [|by intros [? _]]. intros Hz. split; [done|]. by apply (Hsep x y).
    + exists e. cbn. by rewrite list_lookup_insert_ne.
  - intros j e. cbn. intros [(<- & <- & _)|[Hne He]]%list_lookup_insert_Some.
    + destruct (hi_free _ _ Hi _ _ Hd) as [H1 H2]. split; [by apply NoDup_filter|]. cbn. intros b [Hp Hb]%list_elem_of_filter.
      destruct (H2 b Hb) as (x & y & Hx & Hy & Hbx). exists x, y. rewrite lookup_delete_ne; [done|]. intros <-. apply Hp. by eapply block_page.
    + destruct (hi_free _ _ Hi _ _ He) as [H1 H2]. split; [done|]. intros b Hb. destruct (H2 b Hb) as (x & y & Hx & Hy & Hbx).
      exists x, y. rewrite lookup_delete_ne; [done|]. intros <-. congruence.
  - intros b n. rewrite (hi_live _ _ Hi). split; intros (x & y & Hx & Hu).
    + assert (x ≠ a) as Hne.
      { intros ->. assert (y = ar) as -> by congruence. unfold used_in in Hu. rewrite Hk in Hu. destruct Hu as (e & He & Hb & Hf & _).
        assert (e = d) as -> by congruence. by apply Hf, Hall. }
      exists x, y. cbn. rewrite lookup_delete_ne by done. split; [done|]. unfold used_in in *. destruct (a_desc y) as [j|] eqn:Ej; [|done].
      destruct Hu as (e & He & Hb & Hf & ->). destruct (decide (j = k)) as [->|Hjk]; [|exists e; cbn; by rewrite list_lookup_insert_ne].
      assert (e = d) as -> by congruence. eexists. split_and!; [exact Hdk|done| |done]. cbn. intros [_ Hb']%list_elem_of_filter. done.
    + apply Hdel in Hx as [Hne Hx]. exists x, y. split; [done|]. unfold used_in in *. destruct (a_desc y) as [j|] eqn:Ej; [|done].
      destruct Hu as (e & He & Hb & Hf & ->). destruct (decide (j = k)) as [->|Hjk]; [|exists e; cbn in He; by rewrite list_lookup_insert_ne in He].
      rewrite Hdk in He. injection He as <-. exists d. split_and!; [done|done| |done]. intros Hb'. apply Hf. cbn. apply list_elem_of_filter. split; [|done].
      apply (Hsep x y); [done..|]. by eapply block_page.
Qed.

(** ** Big blocks *)

Lemma used_in_descs h m' ars a ar b n : used_in (mk_heap m' ars (descs h)) a ar b n <-> used_in h a ar b n.
Proof. done. Qed.

Lemma add_big h L a cnt m' :
  heap_inv h L -> keeps_pages (hm h) m' -> new_pages h m' a cnt ->
  heap_inv (mk_heap m' (<[a := mk_arena ARENA_MAGIC None cnt]> (arenas h)) (descs h)) (<[a + 12 := 4096 * cnt - 12]> L) /\ L !! (a + 12) = None.
Proof.
  intros Hi Hm Hn. pose proof (new_pages_None _ _ _ _ _ Hi Hn) as Hnone. set (ar := mk_arena _ _ _).
  destruct (new_arena_facts h L m' a cnt ar (descs h) Hi Hm Hn eq_refl eq_refl) as [F1 F2].
  assert (forall x y, arenas h !! x = Some y -> x ≠ a) as Hxa by (intros x y Hx ->; congruence).
  assert (forall n, ~ live h (a + 12) n) as Hfree.
  { intros n (x & y & Hx & Hu). destruct (used_range _ _ _ _ _ _ Hi Hx Hu) as (U1 & U2 & U3). destruct Hn as (N1 & N2 & _ & N4), (arena_page _ _ _ _ Hi Hx) as (_ & X1 & _ & _).
    apply (N4 x y a Hx); [|split; [done|lia]]. split; [done|]. Z.to_euclidean_division_equations. lia. }
  split; [|destruct (L !! (a + 12)) as [n|] eqn:E; [apply (hi_live _ _ Hi) in E; by apply Hfree in E|done]]. split.
  - apply Hm.
  - apply Hi.
  - exact F1.
  - exact F2.
  - intros x y j. cbn. intros [[<- <-]|[_ Hx]]%lookup_insert_Some; [done|]. by apply (hi_small _ _ Hi).
  - intros j e He. destruct (hi_free _ _ Hi _ _ He) as [H1 H2]. split; [done|]. intros b Hb. destruct (H2 b Hb) as (x & y & Hx & Hy & Hbx).
    exists x, y. cbn. rewrite lookup_insert_ne; [done|]. symmetry. by eapply Hxa.
  - intros b n. rewrite lookup_insert_Some, (hi_live _ _ Hi). split.
    + intros [[<- <-]|[Hne (x & y & Hx & Hu)]]; [exists a, ar; cbn; by rewrite lookup_insert_eq|].
      exists x, y. cbn. rewrite lookup_insert_ne by (symmetry; by eapply Hxa). done.
    + intros (x & y & Hx & Hu). cbn in Hx. apply lookup_insert_Some in Hx as [[<- <-]|[_ Hx]].
      * left. destruct Hu as [-> ->]. done.
      * right. assert (live h b n) as Hl by (by exists x, y). split; [intros <-; by apply Hfree in Hl|done].
Qed.

Lemma drop_big h L a ar m' :
  heap_inv h L -> arenas h !! a = Some ar -> a_desc ar = None -> machine_wf m' ->
  (forall page, owned (hm h) false page -> ~ in_group a (free_cnt ar) page -> owned m' false page) ->
  heap_inv (mk_heap m' (delete a (arenas h)) (descs h)) (delete (a + 12) L).
Proof.
  intros Hi Ha Hk Hwf Hown. assert (span ar = free_cnt ar) as Hsp by (unfold span; by rewrite Hk). set (h' := mk_heap _ _ _).
  assert (forall x y, arenas h' !! x = Some y -> a ≠ x /\ arenas h !! x = Some y) as Hdel by (intros x y; cbn; by rewrite lookup_delete_Some). split.
  - done.
  - apply Hi.
  - intros x y [Hne Hx]%Hdel. destruct (hi_arena _ _ Hi _ _ Hx) as (? & ? & ? & Ho). split_and!; [done..|].
    intros page Hp. apply Hown; [by apply Ho|]. intros Hg. apply Hne. apply (hi_apart _ _ Hi a x ar y page); [done..|by rewrite Hsp|done].
  - intros x x' y y' page [_ Hx]%Hdel [_ Hx']%Hdel. by apply (hi_apart _ _ Hi).
  - intros x y j [_ Hx]%Hdel. by apply (hi_small _ _ Hi).
  - intros j e He. destruct (hi_free _ _ Hi _ _ He) as [H1 H2]. split; [done|]. intros b Hb. destruct (H2 b Hb) as (x & y & Hx & Hy & Hbx).
    exists x, y. cbn. rewrite lookup_delete_ne; [done|]. intros <-. congruence.
  - intros b n. rewrite lookup_delete_Some, (hi_live _ _ Hi). split.
    + intros [Hne (x & y & Hx & Hu)]. exists x, y. cbn. rewrite lookup_delete_ne; [done|]. intros <-. assert (y = ar) as -> by congruence.
      unfold used_in in Hu. rewrite Hk in Hu. destruct Hu as [-> _]. done.
    + intros (x & y & [Hne Hx]%Hdel & Hu). split; [|by exists x, y]. intros <-.
      destruct (used_range h L x y (a + 12) n Hi Hx Hu) as (U1 & U2 & U3). destruct (hi_arena _ _ Hi _ _ Ha) as (_ & _ & Hpos & _).
      apply Hne. apply (arenas_apart h L a x ar y (a + 12)); [done..|lia|lia].
Qed.
End Invariant.

(** * Correctness of the operations *)

Section Operations.
Implicit Types (h : heap) (L : gmap Z Z) (d : desc) (a b n : Z) (k : nat).

Lemma wp_on_hm {A} (c : M machine A) h (Q : A -> heap -> Prop) :
  wp c (hm h) (fun x m => Q x (mk_heap m (arenas h) (descs h))) -> wp (on_hm c) h Q.
Proof. unfold wp, on_hm. by destruct (c (hm h)) as [[x m]|]. Qed.
Lemma wp_get_arena h a ar (Q : arena -> heap -> Prop) : arenas h !! a = Some ar -> Q ar h -> wp (get_arena a) h Q.
Proof. intros Ha HQ. unfold get_arena. apply wp_bind, wp_get. by rewrite Ha. Qed.
Lemma wp_put_arena h a ar (Q : unit -> heap -> Prop) : Q tt (mk_heap (hm h) (<[a := ar]> (arenas h)) (descs h)) -> wp (put_arena a ar) h Q.
Proof. intros HQ. unfold put_arena. by apply wp_bind, wp_get, wp_put. Qed.
Lemma wp_get_desc h k d (Q : desc -> heap -> Prop) : descs h !! k = Some d -> Q d h -> wp (get_desc k) h Q.
Proof. intros Hd HQ. unfold get_desc. apply wp_bind, wp_get. by rewrite Hd. Qed.
Lemma wp_set_free h k d l (Q : unit -> heap -> Prop) :
  descs h !! k = Some d -> Q tt (mk_heap (hm h) (arenas h) (<[k := with_free d l]> (descs h))) -> wp (set_free k l) h Q.
Proof. intros Hd HQ. unfold set_free. apply wp_bind. eapply wp_get_desc; [done|]. unfold put_desc. by apply wp_bind, wp_get, wp_put. Qed.

Lemma wp_arena_to_block h a ar k d i (Q : Z -> heap -> Prop) :
  arenas h !! a = Some ar -> a_magic ar = ARENA_MAGIC -> a_desc ar = Some k -> descs h !! k = Some d ->
  PHYS_BASE <= a -> a + 4096 <= 2 ^ 32 -> 0 <= i < blocks_per_arena d -> 0 < block_size d -> 12 + blocks_per_arena d * block_size d <= 4096 ->
  Q (blk a (block_size d) i) h -> wp (arena_to_block a i) h Q.
Proof.
  intros Ha Hm Hk Hd Hlo Hhi Hi Hb Hfit HQ. unfold arena_to_block.
  apply wp_bind, wp_assert; [apply nonnull_pos; unfold PHYS_BASE, LOADER_PHYS_BASE in *; lia|].
  apply wp_bind. eapply wp_get_arena; [done|]. apply wp_bind, wp_assert; [by rewrite Hm|]. apply wp_bind. rewrite Hk. eapply wp_get_desc; [done|].
  apply wp_bind, wp_assert; [apply Z.ltb_lt; lia|]. apply wp_ret. unfold blk in HQ. change sizeof_arena with 12.
  unfold u32. rewrite Z.mod_small; [done|]. unfold PHYS_BASE, LOADER_PHYS_BASE in *. nia.
Qed.

Lemma wp_block_to_arena h a ar b n (Q : Z -> heap -> Prop) :
  arenas h !! a = Some ar -> a_magic ar = ARENA_MAGIC -> a mod 4096 = 0 -> PHYS_BASE <= a -> a + 4096 <= 2 ^ 32 -> in_page a b ->
  match a_desc ar with Some k => exists d, descs h !! k = Some d /\ b ∈ blks a d /\ 0 < block_size d | None => b = a + 12 end ->
  Q a h -> wp (block_to_arena b) h Q.
Proof.
  intros Ha Hm Hal Hlo Hhi Hp Hb HQ. unfold block_to_arena. unfold PHYS_BASE, LOADER_PHYS_BASE in Hlo. rewrite (blk_round a b) by (done || lia).
  apply wp_bind, wp_assert; [apply nonnull_pos; lia|]. apply wp_bind. eapply wp_get_arena; [done|]. apply wp_bind, wp_assert; [by rewrite Hm|].
  unfold in_page in Hp. assert (pg_ofs b = b - a) as Hofs by (rewrite pg_ofs_mod; Z.to_euclidean_division_equations; lia).
  apply wp_bind. rewrite Hofs. change sizeof_arena with 12. destruct (a_desc ar) as [k|].
  - destruct Hb as (d & Hd & (i & Hi & ->)%blks_spec & Hpos). apply wp_bind. eapply wp_get_desc; [done|]. unfold blk in *.
    apply wp_assert; [|apply wp_bind, wp_assert; [done|by apply wp_ret]].
    apply Z.eqb_eq. replace (a + 12 + i * block_size d - a - 12) with (i * block_size d) by lia.
    assert (0 <= i * block_size d) by nia. unfold u32. rewrite (Z.mod_small (i * block_size d)) by lia. apply Z.mod_mul. lia.
  - subst b. apply wp_ret. apply wp_bind, wp_assert; [apply Z.eqb_eq; lia|by apply wp_ret].
Qed.

(** [palloc_get_multiple] gives new pages. *)
Lemma got_new h L m' cnt a : heap_inv h L -> got (hm h) m' false cnt false a -> 0 < cnt -> keeps_pages (hm h) m' /\ new_pages h m' a cnt.
Proof.
  intros Hi G Hc. split.
  - split; [apply G|]. intros page Hp. by apply (got_owned_kept _ _ _ _ _ _ _ _ G Hp).
  - split_and!; [apply G|done|apply G|]. intros x y page Hx Hp Hg. destruct (hi_arena _ _ Hi _ _ Hx) as (_ & _ & _ & Ho).
    destruct (Ho page Hp) as [_ H1], (got_free _ _ _ _ _ _ G page Hg) as [_ H2]. congruence.
Qed.

Lemma lookup_blks a d i : 0 <= i < blocks_per_arena d -> blks a d !! Z.to_nat i = Some (blk a (block_size d) i).
Proof.
  intros Hi. unfold blks. rewrite list_lookup_fmap, lookup_seq_lt by lia. cbn. do 2 f_equal. lia.
Qed.

(** The loop that puts the blocks of a new arena on the free list. *)
Lemma wp_new_arena h L k d a (Q : unit -> heap -> Prop) :
  heap_inv h L -> descs h !! k = Some d -> free_list d = [] -> PHYS_BASE <= a -> a + 4096 <= 2 ^ 32 ->
  Q tt (mk_heap (hm h) (<[a := mk_arena ARENA_MAGIC (Some k) (blocks_per_arena d)]> (arenas h)) (<[k := with_free d (blks a d)]> (descs h))) ->
  wp (new_arena k a) h Q.
Proof.
  intros Hi Hd Hfl Hlo Hhi HQ. destruct (desc_shape _ _ _ _ Hi Hd) as (D1 & D2 & D3). unfold new_arena.
  apply wp_bind. eapply wp_get_desc; [done|]. apply wp_bind, wp_put_arena. set (ar := mk_arena _ _ _) in *.
  set (st := fun i => mk_heap (hm h) (<[a := ar]> (arenas h)) (<[k := with_free d (take (Z.to_nat i) (blks a d))]> (descs h))).
  eapply (wp_loop (fun j i h' => 0 <= i <= blocks_per_arena d /\ j = Z.to_nat (blocks_per_arena d - i) /\ h' = st i)) with (n := Z.to_nat (blocks_per_arena d)); [| |lia].
  - intros j i h' (Hr & -> & ->). destruct (Z.ltb_spec i (blocks_per_arena d)) as [Hlt|Hge].
    + assert (descs (st i) !! k = Some (with_free d (take (Z.to_nat i) (blks a d)))) as Hdk by (cbn; apply list_lookup_insert_eq; by eapply lookup_lt_Some).
      apply wp_bind. eapply (wp_arena_to_block (st i) a ar k); [cbn; by rewrite lookup_insert_eq|done|done|exact Hdk|done|done|cbn; lia|cbn; lia|done|].
      apply wp_bind. eapply wp_get_desc; [exact Hdk|]. apply wp_bind. eapply wp_set_free; [exact Hdk|]. apply wp_ret.
      exists (Z.to_nat (blocks_per_arena d - (i + 1))). split; [lia|]. split_and!; [lia|lia|done|]. unfold st. cbn [hm arenas descs free_list block_size with_free].
      rewrite list_insert_insert_eq. do 2 f_equal. unfold with_free. cbn. f_equal. replace (Z.to_nat (i + 1)) with (S (Z.to_nat i)) by lia.
      symmetry. apply take_S_r, lookup_blks. lia.
    + apply wp_ret. unfold st. rewrite take_ge by (rewrite length_blks; lia). exact HQ.
  - split_and!; [lia|lia|lia|]. unfold st. cbn [Z.to_nat take]. f_equal. rewrite list_insert_id; [done|]. rewrite Hd. f_equal. destruct d; cbn in *. by subst.
Qed.

(** Taking the first block of a free list that is not empty. *)
Lemma wp_take_block h L k d b bs (Q : Z -> heap -> Prop) :
  heap_inv h L -> descs h !! k = Some d -> free_list d = b :: bs ->
  (forall a ar h', arenas h !! a = Some ar -> a_desc ar = Some k -> 0 < free_cnt ar <= blocks_per_arena d -> PHYS_BASE <= a -> in_page a b -> a + 12 <= b ->
     h' = mk_heap (hm h) (<[a := mk_arena (a_magic ar) (Some k) (free_cnt ar - 1)]> (arenas h)) (<[k := with_free d bs]> (descs h)) ->
     heap_inv h' (<[b := block_size d]> L) -> L !! b = None -> Q b h') ->
  wp (d ← get_desc k;
      match free_list d with
      | [] => mfail Panic
      | b :: bs =>
        set_free k bs;;
        a ← block_to_arena b;
        ar ← get_arena a;
        put_arena a (mk_arena (a_magic ar) (a_desc ar) (u32 (free_cnt ar - 1)));;
        mret b
      end) h Q.
Proof.
  intros Hi Hd Hfl HQ. destruct (free_block_arena h L k d b) as (a & ar & Ha & Hk & Hb & Hp & Hc); [done|done|rewrite Hfl; by left|].
  destruct (arena_page _ _ _ _ Hi Ha) as (Hlo & Hal & Hhi & _), (hi_arena _ _ Hi _ _ Ha) as (Hm & _ & Hsp & _).
  destruct (desc_shape _ _ _ _ Hi Hd) as (D1 & D2 & D3). destruct (pop_inv h L a ar k d b bs) as [Hi' Hnone]; [done..|].
  apply wp_bind. eapply wp_get_desc; [done|]. rewrite Hfl. apply wp_bind. eapply wp_set_free; [done|].
  apply wp_bind. eapply (wp_block_to_arena _ a ar b (block_size d)); [done|done|done|done|lia|done| |].
  { rewrite Hk. exists (with_free d bs). cbn. split_and!; [apply list_lookup_insert_eq; by eapply lookup_lt_Some|done|lia]. }
  apply wp_bind. eapply wp_get_arena; [done|]. apply wp_bind, wp_put_arena, wp_ret. cbn [hm arenas descs]. rewrite Hk.
  assert (u32 (free_cnt ar - 1) = free_cnt ar - 1) as -> by (unfold u32; apply Z.mod_small; lia).
  pose proof (blk_range _ _ _ _ _ _ Hi Hd Hb). eapply HQ; try done. lia.
Qed.
(** Every arena but the one at [a] has a block in use. *)
Definition tight_but h a : Prop :=
  forall x y k d, arenas h !! x = Some y -> x ≠ a -> a_desc y = Some k -> descs h !! k = Some d -> free_cnt y < blocks_per_arena d.

Lemma tight_but_all h a : tight h -> tight_but h a.
Proof. intros Ht x y k d Hx _. by apply (Ht x y k d). Qed.

Lemma tight_restock h k d a ar fl m' :
  tight_but h a -> descs h !! k = Some d -> a_desc ar = Some k -> free_cnt ar < blocks_per_arena d ->
  tight (mk_heap m' (<[a := ar]> (arenas h)) (<[k := with_free d fl]> (descs h))).
Proof.
  intros Ht Hd Hk Hc x y j e. cbn. intros [[<- <-]|[Hne Hx]]%lookup_insert_Some Hj He.
  - assert (j = k) as -> by congruence. rewrite list_lookup_insert_eq in He by (by eapply lookup_lt_Some). by injection He as <-.
  - destruct (decide (j = k)) as [->|Hjk].
    + rewrite list_lookup_insert_eq in He by (by eapply lookup_lt_Some). injection He as <-. by apply (Ht x y k d).
    + rewrite list_lookup_insert_ne in He by done. by apply (Ht x y j e).
Qed.

Lemma outside_restock h a ar ar' m' ds :
  arenas h !! a = Some ar -> span ar' = span ar -> (forall page, owned m' false page <-> owned (hm h) false page) ->
  same_outside h (mk_heap m' (<[a := ar']> (arenas h)) ds).
Proof.
  intros Ha Hs Ho page. unfold outside, held. cbn [hm arenas]. rewrite Ho.
  assert ((exists x y, <[a := ar']> (arenas h) !! x = Some y /\ in_group x (span y) page) <-> (exists x y, arenas h !! x = Some y /\ in_group x (span y) page)) as E; [|tauto].
  split; intros (x & y & Hx & Hg).
  - apply lookup_insert_Some in Hx as [[<- <-]|[_ Hx]]; [exists a, ar; by rewrite <-Hs|by exists x, y].
  - destruct (decide (x = a)) as [->|Hne]; [|exists x, y; by rewrite lookup_insert_ne].
    exists a, ar'. rewrite lookup_insert_eq, Hs. assert (y = ar) as -> by congruence. done.
Qed.

Lemma outside_new h L m' a cnt ar ds :
  heap_inv h L -> got (hm h) m' false cnt false a -> 0 < cnt -> span ar = cnt -> same_outside h (mk_heap m' (<[a := ar]> (arenas h)) ds).
Proof.
  intros Hi G Hc Hs page. destruct (got_new _ _ _ _ _ Hi G Hc) as [_ Hn]. pose proof (new_pages_None _ _ _ _ _ Hi Hn) as Hnone.
  unfold outside, held. cbn [hm arenas]. split.
  - intros [[Hin Hu] Hnh]. assert (~ in_group a cnt page) as Hng by (intros Hg; apply Hnh; exists a, ar; by rewrite lookup_insert_eq, Hs).
    destruct (got_pools _ _ _ _ _ _ G false) as [Eb Ep]. unfold in_pool in Hin. rewrite Eb, Ep in Hin. split.
    + split; [exact Hin|]. rewrite <-Hu. symmetry. apply (got_other _ _ _ _ _ _ G); [exact Hin|by right].
    + intros (x & y & Hx & Hg). apply Hnh. exists x, y. rewrite lookup_insert_ne; [done|]. intros ->. congruence.
  - intros [Ho Hnh]. destruct (got_owned_kept _ _ _ _ _ _ _ _ G Ho) as [Ho' Hng]. split; [done|].
    intros (x & y & [[<- <-]|[_ Hx]]%lookup_insert_Some & Hg); [apply (Hng eq_refl); by rewrite <-Hs|]. apply Hnh. by exists x, y.
Qed.

Lemma same_outside_trans h h1 h2 : same_outside h h1 -> same_outside h1 h2 -> same_outside h h2.
Proof. intros H1 H2 page. rewrite (H2 page). apply H1. Qed.

(** The number of pages that a request needs when nothing is free. *)
Definition need (size : Z) : Z := if size <=? 1024 then 1 else (size + 12 + 4095) / 4096.

(** The bytes in the block that a request gets: the smallest size of a descriptor that is
    enough, or whole pages but for the header. *)
Definition granted (size : Z) : Z :=
  match list_find (fun p => size <= p.1) sizes with Some (_, p) => p.1 | None => 4096 * need size - 12 end.

(** What [malloc] promises: a null pointer and nothing changed when no memory is left,
    and otherwise a block which was not in use. *)
Definition malloced h L (size r : Z) h' : Prop :=
  (r = NULL /\ h' = h /\ (size = 0 \/ no_run (kernel_pool (hm h)) (need size))) \/
  PHYS_BASE <= r /\ L !! r = None /\ heap_ok h' (<[r := granted size]> L) /\ ram (hm h') = ram (hm h) /\ same_outside h h'.

Lemma small_desc h L size : heap_inv h L ->
  match list_find (fun d => size <= block_size d) (descs h) with
  | Some (k, d) => descs h !! k = Some d /\ granted size = block_size d /\ size <= 1024
  | None => 1024 < size
  end.
Proof.
  intros Hi. assert (list_find (fun p => size <= p.1) sizes = prod_map id shape <$> list_find (fun d => size <= block_size d) (descs h)) as Ef.
  { rewrite <-(hi_shape _ _ Hi). exact (list_find_fmap shape (fun p => size <= p.1) (descs h)). }
  destruct (list_find _ (descs h)) as [[k d]|] eqn:E.
  - apply list_find_Some in E as (Hd & Hs & _). unfold granted. rewrite Ef. split_and!; [done..|]. desc_lia Hi Hd.
  - apply list_find_None in E. assert (exists d, descs h !! 6%nat = Some d /\ shape d = (1024, 3)) as (d & Hd & [= Hb _]).
    { assert ((shape <$> descs h) !! 6%nat = Some (1024, 3)) as H6 by (by rewrite (hi_shape _ _ Hi)).
      rewrite list_lookup_fmap in H6. destruct (descs h !! 6%nat) as [d|]; [|done]. exists d. split; [done|]. apply (inj Some). exact H6. }
    rewrite Forall_lookup in E. specialize (E _ _ Hd). cbn in E. lia.
Qed.

Lemma malloced_small h L k d size (Q : Z -> heap -> Prop) h0 a0 :
  heap_inv h L -> tight_but h a0 -> descs h !! k = Some d -> (exists b bs, free_list d = b :: bs /\ (tight h \/ in_page a0 b /\ is_Some (arenas h !! a0))) ->
  granted size = block_size d -> ram (hm h) = ram (hm h0) -> same_outside h0 h -> (forall r h', malloced h0 L size r h' -> Q r h') ->
  wp (d ← get_desc k;
      match free_list d with
      | [] => mfail Panic
      | b :: bs =>
        set_free k bs;;
        a ← block_to_arena b;
        ar ← get_arena a;
        put_arena a (mk_arena (a_magic ar) (a_desc ar) (u32 (free_cnt ar - 1)));;
        mret b
      end) h Q.
Proof.
  intros Hi Ht Hd (b & bs & Hfl & Hor) Hs Hram Ho HQ. eapply (wp_take_block h L); [done..|].
  intros a ar h' Ha Hk Hc Hlo Hp Hge -> Hi' Hnone. apply HQ. right. rewrite Hs. split_and!; [unfold in_page in Hp; lia|done| |done|].
  2: { eapply same_outside_trans; [exact Ho|]. apply (outside_restock h a ar); [done|by unfold span; rewrite Hk|done]. }
  split; [done|]. apply tight_restock; [|done|done|cbn; lia].
  destruct Hor as [Ht'|[Hp0 [ar0 Ha0]]]; [by apply tight_but_all|].
  assert (a = a0) as ->; [|done]. apply (page_arena_apart h L a a0 ar ar0 k b); [done..|].
  destruct (hi_arena _ _ Hi _ _ Ha0) as (_ & _ & Hsp & _). unfold in_page in Hp0. lia.
Qed.

(** A block of whole pages. *)
Lemma wp_big_block h L cnt (Q : Z -> heap -> Prop) :
  heap_inv h L -> tight h -> 0 < cnt -> (no_run (kernel_pool (hm h)) cnt -> Q NULL h) ->
  (forall r h', PHYS_BASE <= r -> L !! r = None -> heap_ok h' (<[r := 4096 * cnt - 12]> L) -> ram (hm h') = ram (hm h) -> same_outside h h' -> Q r h') ->
  wp (a ← on_hm (palloc_get_multiple 0 cnt);
      if a =? NULL then mret NULL
      else put_arena a (mk_arena ARENA_MAGIC None cnt);; mret (u32 (a + 12))) h Q.
Proof.
  intros Hi Ht Hc HN HQ. pose proof (mw_kernel _ (hi_machine _ _ Hi)) as [_ P2 P3 P4 _]. assert (0 < PHYS_BASE) as P0 by done.
  apply wp_bind, wp_on_hm, wp_palloc_get_multiple; [apply Hi|done| |].
  - intros a m' G Hkp. change (flag 0 PAL_USER) with false in G. change (flag 0 PAL_ZERO) with false in G.
    destruct (got_new _ _ _ _ _ Hi G) as [Hk Hn]; [done|]. pose proof (got_range _ _ _ _ _ _ G) as [Hg1 Hg2]. cbn [the_pool] in Hg1, Hg2.
    rewrite (proj2 (Z.eqb_neq a NULL)) by (unfold NULL; lia). apply wp_bind, wp_put_arena, wp_ret. cbn [hm arenas descs].
    unfold u32. rewrite Z.mod_small by lia. destruct (add_big h L a cnt m' Hi Hk Hn) as [Hi' Hnone].
    apply HQ; [lia|done| |cbn; apply G|by apply (outside_new h L m' a cnt)].
    split; [done|]. intros x y j e. cbn. intros [[<- <-]|[Hne Hx]]%lookup_insert_Some Hj He; [done|]. by apply (Ht x y j e).
  - intros Hno. split; [done|]. cbn [Z.eqb NULL]. apply wp_ret. destruct h. by apply HN.
Qed.

Lemma wp_heap_malloc h L size (Q : Z -> heap -> Prop) :
  heap_ok h L -> 0 <= size <= 2 ^ 32 - 4108 -> (forall r h', malloced h L size r h' -> Q r h') -> wp (malloc size) h Q.
Proof.
  intros [Hi Ht] Hs HQ. unfold malloc. destruct (Z.eqb_spec size 0) as [->|Hz]; [apply wp_ret, HQ; left; auto|].
  apply wp_bind, wp_get. pose proof (small_desc h L size Hi) as Hsm. pose proof (mw_kernel _ (hi_machine _ _ Hi)) as [_ P2 P3 P4 _]. assert (0 < PHYS_BASE) as P0 by done.
  destruct (list_find _ _) as [[k d]|].
  - destruct Hsm as (Hd & Hsd & H1k). destruct (desc_shape _ _ _ _ Hi Hd) as (D1 & D2 & D3).
    apply wp_bind. destruct (free_list d) as [|b bs] eqn:Hfl.
    + unfold palloc_get_page. apply wp_bind, wp_on_hm, wp_palloc_get_multiple; [apply Hi|done| |].
      * intros a m' G Hkp. change (flag 0 PAL_USER) with false in G. change (flag 0 PAL_ZERO) with false in G.
        destruct (got_new _ _ _ _ _ Hi G) as [Hk Hn]; [done|]. pose proof (got_range _ _ _ _ _ _ G) as [Hg1 Hg2]. cbn [the_pool] in Hg1, Hg2.
        rewrite (proj2 (Z.eqb_neq a NULL)) by (unfold NULL; lia). apply wp_bind.
        assert (heap_inv (mk_heap m' (arenas h) (descs h)) L) as Hi1.
        { destruct Hi, Hk as [Hk1 Hk2]. split; try done. intros x y Hx. destruct (hi_arena0 _ _ Hx) as (? & ? & ? & Ho). split_and!; try done. auto. }
        apply (wp_new_arena _ L k d); [done|done|done|lia|lia|]. apply wp_ret. cbn [hm arenas descs].
        apply (malloced_small _ L k (with_free d (blks a d)) size Q h a); [by apply add_small| | | |done|apply G|by apply (outside_new h L m' a 1)|done].
        -- intros x y j e. cbn. intros [[<- _]|[_ Hx]]%lookup_insert_Some Hne Hj He; [done|]. destruct (decide (j = k)) as [->|Hjk].
           ++ rewrite list_lookup_insert_eq in He by (by eapply lookup_lt_Some). injection He as <-. by apply (Ht x y k d).
           ++ rewrite list_lookup_insert_ne in He by done. by apply (Ht x y j e).
        -- cbn. apply list_lookup_insert_eq. by eapply lookup_lt_Some.
        -- pose proof (lookup_blks a d 0 ltac:(lia)) as Hb. destruct (blks a d) as [|b bs] eqn:E; [done|]. exists b, bs. split; [done|].
           right. cbn. rewrite lookup_insert_eq. split; [|done]. injection Hb as ->. unfold in_page, blk. lia.
      * intros Hno. split; [done|]. cbn [Z.eqb NULL]. apply wp_ret, wp_ret, HQ. left. split_and!; [done|by destruct h|].
        right. unfold need. by rewrite (proj2 (Z.leb_le _ _) H1k).
    + apply wp_ret. eapply (malloced_small h L k d size Q h 0); try done; [by apply tight_but_all|]. exists b, bs. auto.
  - change sizeof_arena with 12. change PGSIZE with 4096. unfold u32. rewrite (Z.mod_small (size + 12)) by lia. rewrite (Z.mod_small (_ - 1)) by lia.
    replace (size + 12 + 4096 - 1) with (size + 12 + 4095) by lia. set (cnt := (size + 12 + 4095) / 4096).
    assert (0 < cnt /\ size + 12 <= 4096 * cnt) as [Hc Hcs] by (unfold cnt; Z.to_euclidean_division_equations; lia).
    assert (granted size = 4096 * cnt - 12 /\ need size = cnt) as [Eg En].
    { assert (need size = cnt) as En by (unfold need; by rewrite (proj2 (Z.leb_gt _ _)) by lia). split; [|done]. unfold granted.
      assert (list_find (fun p => size <= p.1) sizes = None) as -> by (apply list_find_None; unfold sizes; repeat constructor; cbn; lia). by rewrite En. }
    apply (wp_big_block h L); [done|done|done| |].
    + intros Hno. apply HQ. left. rewrite En. auto.
    + intros a h' Ha Hnone Hok Hr Ho. apply HQ. right. rewrite Eg. done.
Qed.

(** ** Freeing *)

(** The arena of a block in use. *)
Lemma live_arena h L b n : heap_inv h L -> L !! b = Some n ->
  exists a ar, arenas h !! a = Some ar /\ used_in h a ar b n /\ PHYS_BASE <= a /\ a + 12 <= b /\ b + n <= a + 4096 * span ar /\ 0 < n /\
    b + n <= 2 ^ 32 - 4096 /\ in_page a b /\ mapped (ram (hm h)) b (Z.to_nat n).
Proof.
  intros Hi Hb. apply (hi_live _ _ Hi) in Hb as (a & ar & Ha & Hu). destruct (used_range _ _ _ _ _ _ Hi Ha Hu) as (U1 & U2 & U3).
  destruct (arena_page _ _ _ _ Hi Ha) as (A1 & A2 & A3 & A4). exists a, ar. split_and!; try done; try lia.
  - unfold used_in in Hu. destruct (a_desc ar) as [k|]; [|unfold in_page; lia]. destruct Hu as (d & Hd & Hbk & _). by eapply block_page.
  - intros i Hr. pose proof (mw_kernel _ (hi_machine _ _ Hi)) as [_ P2 P3 P4 P5]. destruct (hi_arena _ _ Hi _ _ Ha) as (_ & _ & _ & Ho).
    destruct (Ho (i / 4096 * 4096)) as [[_ Hp] _]; [split; Z.to_euclidean_division_equations; lia|]. cbn [the_pool] in Hp.
    apply P5. Z.to_euclidean_division_equations; lia.
Qed.

Lemma wp_live_arena h L b n a ar (Q : Z -> heap -> Prop) :
  heap_inv h L -> arenas h !! a = Some ar -> used_in h a ar b n -> Q a h -> wp (block_to_arena b) h Q.
Proof.
  intros Hi Ha Hu HQ. destruct (arena_page _ _ _ _ Hi Ha) as (A1 & A2 & A3 & _), (hi_arena _ _ Hi _ _ Ha) as (Hm & _ & Hsp & _).
  apply (wp_block_to_arena h a ar b n); try done; [lia| |].
  - unfold used_in in Hu. destruct (a_desc ar) as [k|]; [|unfold in_page; lia]. destruct Hu as (d & Hd & Hbk & _). by eapply block_page.
  - unfold used_in in Hu. destruct (a_desc ar) as [k|]; [|tauto]. destruct Hu as (d & Hd & Hbk & _). exists d. split_and!; [done..|]. desc_lia Hi Hd.
Qed.

Lemma wp_take_off h k d b (Q : unit -> heap -> Prop) :
  descs h !! k = Some d -> b ∈ free_list d ->
  Q tt (mk_heap (hm h) (arenas h) (<[k := with_free d (filter (fun x => x ≠ b) (free_list d))]> (descs h))) -> wp (take_off k b) h Q.
Proof.
  intros Hd Hb HQ. unfold take_off. apply wp_bind. eapply wp_get_desc; [done|]. rewrite bool_decide_eq_true_2 by done. by eapply wp_set_free.
Qed.

(** The loop that takes the blocks of an unused arena off the free list. *)
Lemma wp_take_all h L k d a ar (Q : unit -> heap -> Prop) :
  heap_inv h L -> arenas h !! a = Some ar -> a_desc ar = Some k -> descs h !! k = Some d -> (forall b, b ∈ blks a d -> b ∈ free_list d) ->
  Q tt (mk_heap (hm h) (arenas h) (<[k := with_free d (filter (fun x => ~ in_page a x) (free_list d))]> (descs h))) ->
  wp (loop (S (Z.to_nat (blocks_per_arena d))) (fun i =>
        if i <? blocks_per_arena d then
          b ← arena_to_block a i;
          take_off k b;;
          mret (inl (i + 1))
        else mret (inr tt)) 0) h Q.
Proof.
  intros Hi Ha Hk Hd Hall HQ. destruct (desc_shape _ _ _ _ Hi Hd) as (D1 & D2 & D3).
  destruct (arena_page _ _ _ _ Hi Ha) as (A1 & A2 & A3 & _), (hi_arena _ _ Hi _ _ Ha) as (Hm & _ & Hsp & _).
  set (rest := fun i => filter (fun x => x ∉ take (Z.to_nat i) (blks a d)) (free_list d)).
  set (st := fun i => mk_heap (hm h) (arenas h) (<[k := with_free d (rest i)]> (descs h))).
  eapply (wp_loop (fun j i h' => 0 <= i <= blocks_per_arena d /\ j = Z.to_nat (blocks_per_arena d - i) /\ h' = st i)) with (n := Z.to_nat (blocks_per_arena d)); [| |lia].
  - intros j i h' (Hr & -> & ->). destruct (Z.ltb_spec i (blocks_per_arena d)) as [Hlt|Hge].
    + assert (descs (st i) !! k = Some (with_free d (rest i))) as Hdk by (cbn; apply list_lookup_insert_eq; by eapply lookup_lt_Some).
      pose proof (lookup_blks a d i ltac:(lia)) as Hb. pose proof (take_S_r _ _ _ Hb) as Ht.
      apply wp_bind. eapply (wp_arena_to_block (st i) a ar k); [done|done|done|exact Hdk|done|lia|cbn; lia|cbn; lia|done|]. cbn [block_size with_free].
      apply wp_bind. eapply wp_take_off; [exact Hdk| |].
      * cbn [free_list with_free]. apply list_elem_of_filter. split; [|by eapply Hall, list_elem_of_lookup_2].
        assert (NoDup (take (S (Z.to_nat i)) (blks a d))) as Hnd by (eapply sublist_NoDup; [apply (blks_NoDup a d); lia|apply sublist_take]).
        rewrite Ht in Hnd. apply NoDup_app in Hnd as (_ & Hnd & _). intros Hin. apply (Hnd _ Hin). by left.
      * apply wp_ret. exists (Z.to_nat (blocks_per_arena d - (i + 1))). split; [lia|]. split_and!; [lia|lia|done|]. unfold st. cbn [hm arenas descs free_list with_free].
        rewrite list_insert_insert_eq. do 2 f_equal. unfold with_free. cbn [block_size blocks_per_arena]. f_equal. unfold rest.
        replace (Z.to_nat (i + 1)) with (S (Z.to_nat i)) by lia. rewrite Ht, list_filter_filter. apply list_filter_iff. intros x. rewrite elem_of_app, list_elem_of_singleton. tauto.
    + apply wp_ret. unfold st, rest. rewrite take_ge by (rewrite length_blks; lia).
      rewrite (filter_same (fun x => x ∉ blks a d) (fun x => ~ in_page a x)); [exact HQ|]. intros x Hx. split; intros Hn Hp; apply Hn.
      * by eapply free_in_page.
      * by eapply block_page.
  - split_and!; [lia|lia|lia|]. unfold st, rest. rewrite (filter_all (fun x => x ∉ take (Z.to_nat 0) (blks a d))) by (intros x _; apply not_elem_of_nil).
    rewrite list_insert_id; [by destruct h|]. rewrite Hd. by destruct d.
Qed.

(** Clearing a block in use. *)
Lemma wp_clear h L b n v (Q : Z -> heap -> Prop) :
  heap_inv h L -> L !! b = Some n ->
  (forall m', m' = set_ram (put (ram (hm h)) b (replicate (Z.to_nat n) (u8 v))) (hm h) -> keeps_pages (hm h) m' ->
     (forall page, owned m' false page <-> owned (hm h) false page) -> Q b (mk_heap m' (arenas h) (descs h))) ->
  wp (on_hm (on_ram (memset b v (Z.to_nat n)))) h Q.
Proof.
  intros Hi Hb HQ. destruct (live_arena _ _ _ _ Hi Hb) as (a & ar & _ & _ & H1 & H2 & _ & _ & _ & _ & Hmap). unfold PHYS_BASE, LOADER_PHYS_BASE in *.
  apply wp_on_hm, wp_on_ram, wp_memset; [unfold NULL; lia|done|]. apply HQ; [done| |intros page; apply owned_set_ram].
  split; [|by intros page; rewrite owned_set_ram]. apply machine_wf_set_ram; [apply Hi|]. apply dom_put. by rewrite length_replicate.
Qed.

Lemma kept_put h h' L b n bs : heap_inv h L -> L !! b = Some n -> Z.of_nat (length bs) <= n -> ram (hm h') = put (ram (hm h)) b bs -> contents_kept (delete b L) h h'.
Proof.
  intros Hi Hb Hl Hr b' n' x [Hne Hb']%lookup_delete_Some Hx. rewrite Hr, lookup_put. apply decide_False. intros Hin.
  destruct (live_apart h L b b' n n'); [done|by apply Hi|by apply Hi|done|lia|lia].
Qed.

(** The pages of an arena that has no block in use hold no block. *)
Lemma kept_free h L L' h' a ar bs : heap_inv h L -> L' ⊆ L -> arenas h !! a = Some ar -> (forall b n, L' !! b = Some n -> ~ used_in h a ar b n) ->
  Z.of_nat (length bs) <= 4096 * span ar -> ram (hm h') = put (ram (hm h)) a bs -> contents_kept L' h h'.
Proof.
  intros Hi Hsub Ha Hno Hl Hr b n x Hb Hx. rewrite Hr, lookup_put. apply decide_False. intros Hin.
  destruct (proj1 (hi_live _ _ Hi _ _) (lookup_weaken _ _ _ _ Hb Hsub)) as (a' & ar' & Ha' & Hu). destruct (used_range _ _ _ _ _ _ Hi Ha' Hu) as (? & ? & ?).
  assert (a = a') as <- by (apply (arenas_apart h L a a' ar ar' x); [done..|lia|lia]). assert (ar' = ar) as -> by congruence. by eapply Hno.
Qed.

Lemma outside_drop h L a ar m' ds :
  heap_inv h L -> arenas h !! a = Some ar -> freed (hm h) m' false (span ar) a -> same_outside h (mk_heap m' (delete a (arenas h)) ds).
Proof.
  intros Hi Ha F page. destruct (fr_pools _ _ _ _ _ F false) as [Eb Ep]. unfold outside, held, owned, in_pool. cbn [hm arenas]. rewrite Eb, Ep. split.
  - intros [[Hin Hu] Hnh]. assert (~ in_group a (span ar) page) as Hng.
    { intros Hg. destruct (fr_free _ _ _ _ _ F page Hg) as [_ Hf]. congruence. }
    split; [split; [done|]|].
    + rewrite <-Hu. symmetry. apply (fr_other _ _ _ _ _ F); [exact Hin|by right].
    + intros (x & y & Hx & Hg). apply Hnh. exists x, y. rewrite lookup_delete_ne; [done|]. intros <-. assert (y = ar) as -> by congruence. done.
  - intros [[Hin Hu] Hnh]. split; [split; [done|]|].
    + rewrite <-Hu. apply (fr_other _ _ _ _ _ F); [exact Hin|]. right. intros Hg. apply Hnh. by exists a, ar.
    + intros (x & y & [_ Hx]%lookup_delete_Some & Hg). apply Hnh. by exists x, y.
Qed.

Lemma freed_kept m m' cnt a page : freed m m' false cnt a -> owned m false page -> ~ in_group a cnt page -> owned m' false page.
Proof.
  intros F [Hin Hu] Hng. destruct (fr_pools _ _ _ _ _ F false) as [Eb Ep]. unfold owned, in_pool. rewrite Eb, Ep. split; [done|].
  rewrite <-Hu. apply (fr_other _ _ _ _ _ F); [done|by right].
Qed.

Definition bytes_kept h h' : Prop := bytes_ok (ram (hm h)) -> bytes_ok (ram (hm h')).
Lemma bytes_kept_put h h' a bs : ram (hm h') = put (ram (hm h)) a bs -> Forall byte bs -> bytes_kept h h'.
Proof. intros E Hb Hm. rewrite E. by apply bytes_ok_put. Qed.

Definition dropped h L (p : Z) h' : Prop :=
  heap_ok h' (delete p L) /\ contents_kept (delete p L) h h' /\ same_outside h h' /\ bytes_kept h h'.

Lemma contents_trans L h h1 h2 : contents_kept L h h1 -> contents_kept L h1 h2 -> contents_kept L h h2.
Proof. intros H1 H2 b n a Hb Ha. by rewrite (H2 b n a), (H1 b n a). Qed.

Lemma full_arena h L a ar k d : heap_inv h L -> arenas h !! a = Some ar -> a_desc ar = Some k -> descs h !! k = Some d ->
  free_cnt ar <= blocks_per_arena d /\ (free_cnt ar = blocks_per_arena d -> forall b, b ∈ blks a d -> b ∈ free_list d).
Proof.
  intros Hi Ha Hk Hd. pose proof (free_count _ _ _ _ _ _ Hi Ha Hk Hd) as Hs. destruct (desc_shape _ _ _ _ Hi Hd) as (D1 & D2 & D3).
  destruct (hi_small _ _ Hi _ _ _ Ha Hk) as (e & He & Hc). assert (e = d) as -> by congruence. split.
  - apply submseteq_length in Hs. rewrite length_blks in Hs. lia.
  - intros Hf b Hb. rewrite <-(submseteq_length_Permutation _ _ Hs) in Hb by (rewrite length_blks; lia).
    by apply list_elem_of_filter in Hb as [_ ?].
Qed.

(** Giving an unused arena back. *)
Lemma wp_drop_arena h L a ar k d (Q : unit -> heap -> Prop) :
  heap_inv h L -> tight_but h a -> arenas h !! a = Some ar -> a_desc ar = Some k -> descs h !! k = Some d -> free_cnt ar = blocks_per_arena d ->
  (forall h', heap_ok h' L -> contents_kept L h h' -> same_outside h h' -> bytes_kept h h' -> Q tt h') ->
  wp (loop (S (Z.to_nat (blocks_per_arena d))) (fun i =>
        if i <? blocks_per_arena d then
          b ← arena_to_block a i;
          take_off k b;;
          mret (inl (i + 1))
        else mret (inr tt)) 0;;
      h ← mget;
      mput (mk_heap (hm h) (delete a (arenas h)) (descs h));;
      on_hm (palloc_free_page a)) h Q.
Proof.
  intros Hi Ht Ha Hk Hd Hf HQ. destruct (full_arena h L a ar k d) as [_ Hall]; [done..|]. specialize (Hall Hf).
  destruct (hi_arena _ _ Hi _ _ Ha) as (Hm & Hal & Hsp & Ho). assert (span ar = 1) as Hs1 by (unfold span; by rewrite Hk). rewrite Hs1 in Ho.
  apply wp_bind, (wp_take_all h L k d a ar); [done..|]. apply wp_bind, wp_get, wp_bind, wp_put, wp_on_hm. cbn [hm arenas descs].
  apply (wp_palloc_free_multiple (hm h) false); [apply Hi|done|done|done|]. intros m' F. apply HQ.
  - split.
    + apply (drop_small h L k d a ar); [done..|apply F|]. intros page Hp Hne. apply (freed_kept _ _ _ _ _ F Hp). intros [? ?]. apply Hne. Z.to_euclidean_division_equations; lia.
    + intros x y j e. cbn. intros [Hne Hx]%lookup_delete_Some Hj He. destruct (decide (j = k)) as [->|Hjk].
      * rewrite list_lookup_insert_eq in He by (by eapply lookup_lt_Some). injection He as <-. by apply (Ht x y k d).
      * rewrite list_lookup_insert_ne in He by done. by apply (Ht x y j e).
  - eapply (kept_free h L L _ a ar); [done|done|done| | |cbn; exact (fr_ram _ _ _ _ _ F)].
    + intros b n _. unfold used_in. rewrite Hk. intros (e & He & Hb & Hnf & _). assert (e = d) as -> by congruence. by apply Hnf, Hall.
    + rewrite length_replicate, Hs1. done.
  - apply (outside_drop h L a ar); [done|done|]. by rewrite Hs1.
  - eapply bytes_kept_put; [cbn; exact (fr_ram _ _ _ _ _ F)|]. apply Forall_replicate. unfold byte. lia.
Qed.

Lemma wp_free_small h L p n a ar k d (Q : unit -> heap -> Prop) :
  heap_ok h L -> L !! p = Some n -> arenas h !! a = Some ar -> a_desc ar = Some k -> descs h !! k = Some d -> p ∈ blks a d -> (p ∉ free_list d) ->
  (forall h', dropped h L p h' -> Q tt h') ->
  wp (on_hm (on_ram (memset p 0xcc (Z.to_nat (block_size d))));;
      set_free k (p :: free_list d);;
      let cnt := u32 (free_cnt ar + 1) in
      put_arena a (mk_arena (a_magic ar) (a_desc ar) cnt);;
      if blocks_per_arena d <=? cnt then
        ASSERT (cnt =? blocks_per_arena d);;
        loop (S (Z.to_nat (blocks_per_arena d))) (fun i =>
          if i <? blocks_per_arena d then
            b ← arena_to_block a i;
            take_off k b;;
            mret (inl (i + 1))
          else mret (inr tt)) 0;;
        h ← mget;
        mput (mk_heap (hm h) (delete a (arenas h)) (descs h));;
        on_hm (palloc_free_page a)
      else mret tt) h Q.
Proof.
  intros [Hi Ht] Hp Ha Hk Hd Hb Hnf HQ. destruct (desc_shape _ _ _ _ Hi Hd) as (D1 & D2 & D3).
  assert (n = block_size d) as -> by (by apply (block_live h L a ar k d p n Hi Ha Hk Hd Hb) in Hp as [_ ?]).
  apply wp_bind, (wp_clear h L); [done..|]. intros m' Em Hm' Ho. apply wp_bind. eapply wp_set_free; [done|]. cbv zeta. apply wp_bind, wp_put_arena. cbn [hm arenas descs].
  pose proof (push_inv h L a ar k d p m' Hi Ha Hk Hd Hb Hnf Hm') as Hi'. set (ar' := mk_arena (a_magic ar) (Some k) (free_cnt ar + 1)) in *. set (h1 := mk_heap _ _ _) in Hi'.
  assert (descs h1 !! k = Some (with_free d (p :: free_list d))) as Hdk by (cbn; apply list_lookup_insert_eq; by eapply lookup_lt_Some).
  assert (arenas h1 !! a = Some ar') as Hak by (cbn; by rewrite lookup_insert_eq).
  destruct (full_arena h1 _ a ar' k _ Hi' Hak eq_refl Hdk) as [Hle _]. cbn in Hle. destruct (hi_small _ _ Hi _ _ _ Ha Hk) as (e & _ & Hc).
  assert (u32 (free_cnt ar + 1) = free_cnt ar + 1) as -> by (unfold u32; apply Z.mod_small; lia). rewrite Hk. change (mk_heap m' _ _) with h1.
  assert (contents_kept (delete p L) h h1) as Hck by (eapply (kept_put h h1 L p); [done|exact Hp| |cbn; by rewrite Em]; rewrite length_replicate; lia).
  assert (same_outside h h1) as Hso by (apply (outside_restock h a ar); [done|by unfold span; rewrite Hk|done]).
  assert (bytes_kept h h1) as Hbk by (eapply (bytes_kept_put h h1 p); [cbn; by rewrite Em|]; apply Forall_replicate; unfold byte; by vm_compute).
  destruct (Z.leb_spec (blocks_per_arena d) (free_cnt ar + 1)) as [Hge|Hlt].
  - apply wp_bind, wp_assert; [apply Z.eqb_eq; lia|].
    apply (wp_drop_arena h1 (delete p L) a ar' k (with_free d (p :: free_list d))); [done| |done|done|done|cbn; lia|].
    + intros x y j e0 Hx Hne Hj He. cbn in Hx, He. rewrite lookup_insert_ne in Hx by done. destruct (decide (j = k)) as [->|Hjk].
      * rewrite list_lookup_insert_eq in He by (by eapply lookup_lt_Some). injection He as <-. by apply (Ht x y k d).
      * rewrite list_lookup_insert_ne in He by done. by apply (Ht x y j e0).
    + intros h' Hok Hc' Ho' Hb'. apply HQ. split_and!; [done|by eapply contents_trans|by eapply same_outside_trans|intros ?; by apply Hb', Hbk].
  - apply wp_ret, HQ. split_and!; [split; [done|]|done|done|done]. apply tight_restock; [by apply tight_but_all|done|done|done].
Qed.

Lemma wp_free_block h L p n (Q : unit -> heap -> Prop) :
  heap_ok h L -> L !! p = Some n -> (forall h', dropped h L p h' -> Q tt h') -> wp (free_block p) h Q.
Proof.
  intros Hok Hp HQ. pose proof Hok as [Hi Ht]. destruct (live_arena _ _ _ _ Hi Hp) as (a & ar & Ha & Hu & A1 & A2 & A3 & _).
  unfold free_block. rewrite nonnull_pos by (unfold PHYS_BASE, LOADER_PHYS_BASE in *; lia).
  apply wp_bind. eapply (wp_live_arena h L p n); [done..|]. apply wp_bind. eapply wp_get_arena; [done|].
  pose proof Hu as Hu'. unfold used_in in Hu. destruct (a_desc ar) as [k|] eqn:Hk.
  - destruct Hu as (d & Hd & Hb & Hnf & _). apply wp_bind. eapply wp_get_desc; [done|].
    pose proof (wp_free_small h L p n a ar k d Q Hok Hp Ha Hk Hd Hb Hnf HQ) as Hw. rewrite Hk in Hw. exact Hw.
  - destruct Hu as [-> ->]. destruct (hi_arena _ _ Hi _ _ Ha) as (_ & Hal & Hsp & Ho). assert (span ar = free_cnt ar) as Hs by (unfold span; by rewrite Hk). rewrite Hs in *.
    apply wp_bind, wp_get, wp_bind, wp_put, wp_on_hm. cbn [hm arenas descs].
    apply (wp_palloc_free_multiple (hm h) false); [apply Hi|done|done|done|]. intros m' F. apply HQ. split_and!; [split|..].
    + apply (drop_big h L a ar); [done..|apply F|]. intros page Hpg Hng. by apply (freed_kept _ _ _ _ _ F).
    + intros x y j e. cbn. intros [Hne Hx]%lookup_delete_Some. by apply (Ht x y j e).
    + eapply (kept_free h L _ _ a ar); [done|apply delete_subseteq|done| | |cbn; exact (fr_ram _ _ _ _ _ F)].
      * intros b n [Hne _]%lookup_delete_Some. unfold used_in. rewrite Hk. by intros [-> _].
      * rewrite length_replicate, Hs. lia.
    + apply (outside_drop h L a ar); [done|done|]. by rewrite Hs.
    + eapply bytes_kept_put; [cbn; exact (fr_ram _ _ _ _ _ F)|]. apply Forall_replicate. unfold byte. lia.
Qed.

(** ** calloc and realloc *)

Lemma granted_enough size : size <= granted size.
Proof.
  unfold granted. destruct (list_find _ _) as [[i p]|] eqn:E; [by apply list_find_Some in E as (_ & ? & _)|].
  apply list_find_None in E. unfold sizes in E. rewrite !Forall_cons in E. cbn in E. unfold need. destruct (Z.leb_spec size 1024); [lia|]. Z.to_euclidean_division_equations. lia.
Qed.

(** Writing to a block in use. *)
Lemma heap_ok_write h L b n bs : heap_ok h L -> L !! b = Some n -> Z.of_nat (length bs) <= n ->
  let h' := mk_heap (set_ram (put (ram (hm h)) b bs) (hm h)) (arenas h) (descs h) in
  heap_ok h' L /\ contents_kept (delete b L) h h' /\ same_outside h h'.
Proof.
  intros [Hi Ht] Hb Hl h'. destruct (live_arena _ _ _ _ Hi Hb) as (a & ar & _ & _ & _ & _ & _ & _ & _ & _ & Hmap). split_and!.
  - split; [|done]. pose proof Hi as []. split; try done.
    apply machine_wf_set_ram; [done|]. apply dom_put. eapply mapped_le; [done|lia].
  - by eapply (kept_put h h' L b n bs).
  - intros page. unfold outside. cbn [hm h']. by rewrite owned_set_ram.
Qed.

Lemma malloced_write h L size r h1 bs : malloced h L size r h1 -> r ≠ NULL -> Z.of_nat (length bs) <= size ->
  let h' := mk_heap (set_ram (put (ram (hm h)) r bs) (hm h1)) (arenas h1) (descs h1) in
  heap_ok h' (<[r := granted size]> L) /\ contents_kept L h h' /\ same_outside h h' /\ L !! r = None /\ PHYS_BASE <= r.
Proof.
  intros [(-> & _)|(Hr & Hnone & Hok & Hram & Ho)] Hnn Hl; [done|]. pose proof (granted_enough size).
  destruct (heap_ok_write h1 _ r (granted size) bs Hok) as (H1 & H2 & H3); [by rewrite lookup_insert_eq|lia|].
  rewrite Hram in *. cbv zeta. split_and!; [done| |by eapply same_outside_trans|done|done].
  rewrite delete_insert_id in H2 by done. intros b n x Hb Hx. rewrite (H2 b n x Hb Hx). by rewrite Hram.
Qed.

(** What [calloc] promises. *)
Definition calloced h L size r h' : Prop :=
  (r = NULL /\ h' = h /\ (size = 0 \/ no_run (kernel_pool (hm h)) (need size))) \/
  (PHYS_BASE <= r /\ L !! r = None /\ heap_ok h' (<[r := granted size]> L) /\ bytes_at (ram (hm h')) r (replicate (Z.to_nat size) 0) /\
   contents_kept L h h' /\ same_outside h h' /\ bytes_kept h h').

Lemma wp_calloc h L a b (Q : Z -> heap -> Prop) :
  heap_ok h L -> 0 <= a -> 0 <= b -> u32 (a * b) <= 2 ^ 32 - 4108 -> a <= u32 (a * b) -> b <= u32 (a * b) -> (forall r h', calloced h L (u32 (a * b)) r h' -> Q r h') -> wp (calloc a b) h Q.
Proof.
  intros Hok Ha Hb Hs Hsa Hsb HQ. unfold calloc. rewrite (proj2 (Z.ltb_ge _ _) Hsa), (proj2 (Z.ltb_ge _ _) Hsb). cbn [orb].
  set (size := u32 (a * b)) in *. apply wp_bind, (wp_heap_malloc h L); [done|lia|]. intros r h1 Hm. apply wp_bind. pose proof Hm as [(-> & -> & Hno)|(Hr & _ & [Hi1 _] & Hram & _)].
  - cbn [nonnull NULL Z.eqb negb]. apply wp_ret, wp_ret, HQ. by left.
  - assert (r ≠ NULL) as Hnn by (unfold NULL, PHYS_BASE, LOADER_PHYS_BASE in *; lia). rewrite nonnull_true by done.
    destruct (live_arena _ _ r (granted size) Hi1) as (x & y & _ & _ & _ & _ & _ & _ & _ & _ & Hmap); [by rewrite lookup_insert_eq|]. pose proof (granted_enough size).
    apply wp_bind, wp_on_hm, wp_on_ram, wp_memset; [done|eapply mapped_le; [done|lia]|]. apply wp_ret, wp_ret, HQ. right. change (u8 0) with 0.
    destruct (malloced_write _ _ _ _ _ (replicate (Z.to_nat size) 0) Hm Hnn) as (H1 & H2 & H3 & H4 & H5); [rewrite length_replicate; lia|].
    rewrite Hram. split_and!; [done|done|done| |done|done|]; [apply put_bytes|].
    apply (bytes_kept_put h _ r (replicate (Z.to_nat size) 0)); [done|]. apply Forall_replicate. unfold byte. lia.
Qed.

Lemma wp_size_of_block h L b n (Q : Z -> heap -> Prop) : heap_inv h L -> L !! b = Some n -> Q n h -> wp (size_of_block b) h Q.
Proof.
  intros Hi Hb HQ. destruct (live_arena _ _ _ _ Hi Hb) as (a & ar & Ha & Hu & A1 & A2 & A3 & A4 & A5 & A6 & _). destruct (arena_page _ _ _ _ Hi Ha) as (_ & Hal & _).
  unfold size_of_block. apply wp_bind. eapply (wp_live_arena h L b n); [done..|]. apply wp_bind. eapply wp_get_arena; [done|].
  unfold used_in in Hu. destruct (a_desc ar) as [k|].
  - destruct Hu as (d & Hd & _ & _ & ->). apply wp_bind. eapply wp_get_desc; [done|]. by apply wp_ret.
  - destruct Hu as [-> ->]. apply wp_ret. assert (pg_ofs (a + 12) = 12) as -> by (rewrite pg_ofs_mod; Z.to_euclidean_division_equations; lia).
    change PGSIZE with 4096. unfold u32. rewrite Z.mod_small; [done|]. unfold PHYS_BASE, LOADER_PHYS_BASE in *. lia.
Qed.

(** What [realloc] promises: the block has moved, with as much of its contents as fits. *)
Definition moved h L old n size r h' : Prop :=
  (r = NULL /\ h' = h /\ no_run (kernel_pool (hm h)) (need size)) \/
  (PHYS_BASE <= r /\ L !! r = None /\ heap_ok h' (<[r := granted size]> (delete old L)) /\
   (forall i, 0 <= i < Z.min size n -> ram (hm h') !! (r + i) = ram (hm h) !! (old + i)) /\
   contents_kept (delete old L) h h' /\ same_outside h h' /\ bytes_kept h h').

Lemma moved_intro h L old n size r h1 bs h' :
  L !! old = Some n -> malloced h L size r h1 -> r ≠ NULL -> bytes_at (ram (hm h)) old bs -> Z.of_nat (length bs) = Z.min size n -> 0 < n -> Forall byte bs ->
  dropped (mk_heap (set_ram (put (ram (hm h)) r bs) (hm h1)) (arenas h1) (descs h1)) (<[r := granted size]> L) old h' -> moved h L old n size r h'.
Proof.
  intros Ho Hm Hnn Hb Hl Hn Hbb (D1 & D2 & D3 & D4). destruct (malloced_write _ _ _ _ _ bs Hm Hnn) as (H1 & H2 & H3 & H4 & H5); [lia|]. pose proof (granted_enough size).
  assert (r ≠ old) as Hne by congruence. rewrite delete_insert_ne in D1, D2 by done. right. split_and!; [done|done|done| | |by eapply same_outside_trans|].
  - intros i Hi. rewrite (D2 r (granted size) (r + i)); [|by rewrite lookup_insert_eq|lia]. cbn [hm ram set_ram]. rewrite lookup_put, decide_True by lia.
    replace (Z.to_nat (r + i - r)) with (Z.to_nat i) by lia. rewrite bytes_at_lookup in Hb. destruct (lookup_lt_is_Some_2 bs (Z.to_nat i)) as [v Hv]; [lia|].
    rewrite Hv, <-(Hb _ _ Hv). f_equal. lia.
  - intros b m x Hbm Hx. rewrite (D2 b m x); [|rewrite lookup_insert_ne; [done|]|done].
    + apply (H2 b m x); [|done]. by apply lookup_delete_Some in Hbm as [_ ?].
    + intros ->. apply lookup_delete_Some in Hbm as [_ ?]. congruence.
  - intros Hok. apply D4. cbn [hm ram set_ram]. by apply bytes_ok_put.
Qed.

Lemma wp_realloc h L old n size (Q : Z -> heap -> Prop) :
  heap_ok h L -> bytes_ok (ram (hm h)) -> L !! old = Some n -> 0 < size <= 2 ^ 32 - 4108 -> (forall r h', moved h L old n size r h' -> Q r h') -> wp (realloc old size) h Q.
Proof.
  intros Hok Hbo Ho Hs HQ. unfold realloc. rewrite (proj2 (Z.eqb_neq _ _)) by lia. apply wp_bind, (wp_heap_malloc h L); [done|lia|].
  destruct (live_arena _ _ _ _ (proj1 Hok) Ho) as (a & ar & _ & _ & A1 & A2 & _ & A4 & _ & _ & Hmap).
  assert (0 < PHYS_BASE) as P0 by done. assert (old ≠ NULL) as Hon by (unfold NULL; lia).
  intros r h1 Hm. apply wp_bind. pose proof Hm as [(-> & -> & Hno)|(Hr & Hnone & Hok1 & Hram & _)].
  - rewrite andb_false_r. apply wp_ret, wp_ret, HQ. left. destruct Hno; [lia|done].
  - assert (r ≠ NULL) as Hnn by (unfold NULL; lia). rewrite !nonnull_true by done. cbn [andb]. assert (r ≠ old) as Hne by congruence.
    assert (<[r := granted size]> L !! old = Some n) as Ho1 by (by rewrite lookup_insert_ne). pose proof Hok1 as [Hi1 _]. pose proof (granted_enough size).
    apply wp_bind. eapply (wp_size_of_block h1); [done|exact Ho1|]. set (ms := if size <? n then size else n).
    assert (ms = Z.min size n) as Hms by (unfold ms; destruct (Z.ltb_spec size n); lia).
    destruct (mapped_bytes (ram (hm h)) old (Z.to_nat ms) Hbo) as (bs & Hlen & Hb & Hbb); [eapply mapped_le; [done|lia]|].
    assert (live h1 old n /\ live h1 r (granted size)) as [L1 L2] by (split; apply (hi_live _ _ Hi1); [done|by rewrite lookup_insert_eq]).
    pose proof (live_apart h1 _ old r n (granted size) Hi1 L1 L2 (not_eq_sym Hne)) as Hap.
    destruct (live_arena _ _ r (granted size) Hi1) as (x & y & _ & _ & _ & _ & _ & _ & _ & _ & Hmr); [by rewrite lookup_insert_eq|].
    apply wp_bind, wp_on_hm, wp_on_ram. rewrite <-Hlen. apply (wp_memcpy _ r old bs); [done|done|by rewrite Hram|done|eapply mapped_le; [done|lia]|lia|].
    destruct (malloced_write _ _ _ _ _ bs Hm Hnn) as (H1 & _); [lia|]. rewrite Hram. eapply wp_free_block; [exact H1|exact Ho1|].
    intros h' Hd. apply wp_ret, HQ. eapply moved_intro; try done. lia.
Qed.

(** ** Start *)

Lemma wp_malloc_init (m : machine) (Q : unit -> heap -> Prop) :
  machine_wf m -> (forall h, hm h = m -> heap_ok h ∅ -> Q tt h) -> wp malloc_init (mk_heap m ∅ []) Q.
Proof.
  intros Hm HQ. unfold malloc_init, wp. cbn. apply HQ; [done|]. split; [|by intros a ar k d Ha]. split; cbn; try done.
  - intros k d Hd. assert (free_list d = []) as ->.
    { apply list_elem_of_lookup_2 in Hd. repeat (apply elem_of_cons in Hd as [->|Hd]; [done|]). by apply not_elem_of_nil in Hd. }
    split; [constructor|]. intros b Hb. by apply not_elem_of_nil in Hb.
  - intros b n. rewrite lookup_empty. split; [done|]. intros (a & ar & Ha & _). change ((∅ : gmap Z arena) !! a = Some ar) in Ha. by rewrite lookup_empty in Ha.
Qed.

(** With no block in use there is no arena. *)
Lemma idle_empty h : heap_ok h ∅ -> arenas h = ∅.
Proof.
  intros [Hi Ht]. apply map_empty. intros a. destruct (arenas h !! a) as [ar|] eqn:Ha; [exfalso|done].
  assert (exists b n, used_in h a ar b n) as (b & n & Hu).
  { unfold used_in. destruct (a_desc ar) as [k|] eqn:Hk; [|by eexists _, _].
    destruct (hi_small _ _ Hi _ _ _ Ha Hk) as (d & Hd & Hc). pose proof (Ht _ _ _ _ Ha Hk Hd) as Hlt. destruct (desc_shape _ _ _ _ Hi Hd) as (D1 & D2 & D3).
    destruct (decide (Forall (fun b => b ∈ free_list d) (blks a d))) as [Hall|Hn].
    - exfalso. assert (blks a d ⊆+ filter (in_page a) (free_list d)) as Hs%submseteq_length; [|rewrite length_blks in Hs; lia].
      apply NoDup_submseteq; [apply blks_NoDup; lia|]. intros b Hb. apply list_elem_of_filter. rewrite Forall_forall in Hall. split; [by eapply block_page|auto].
    - apply not_Forall_Exists, Exists_exists in Hn as (b & Hb & Hf); [|apply _]. exists b, (block_size d), d. done. }
  assert ((∅ : gmap Z Z) !! b = Some n) as Hx by (apply (hi_live _ _ Hi); by exists a, ar). by rewrite lookup_empty in Hx.
Qed.
End Operations.

(** * Clients *)

(** What a client may ask for: sizes that do not wrap around, and blocks it was given. *)
Inductive request : Type :=
| RMalloc (size : Z)
| RCalloc (a b : Z)
| RRealloc (p size : Z)
| RFree (p : Z).

Definition allowed (L : gmap Z Z) (r : request) : Prop :=
  match r with
  | RMalloc size => 0 <= size <= 2 ^ 32 - 4108
  | RCalloc a b => 0 <= a /\ 0 <= b /\ a * b <= 2 ^ 32 - 4108
  | RRealloc p size => (p = NULL \/ is_Some (L !! p)) /\ 0 <= size <= 2 ^ 32 - 4108
  | RFree p => p = NULL \/ is_Some (L !! p)
  end.
#[global] Instance allowed_dec L r : Decision (allowed L r).
Proof. destruct r; unfold allowed; apply _. Defined.

(** A request, and the blocks in use after it. *)
Definition serve (L : gmap Z Z) (r : request) : M heap (gmap Z Z) :=
  match r with
  | RMalloc size => p ← malloc size; mret (if p =? NULL then L else <[p := granted size]> L)
  | RCalloc a b => p ← calloc a b; mret (if p =? NULL then L else <[p := granted (a * b)]> L)
  | RRealloc p size => q ← realloc p size;
    mret (if size =? 0 then delete p L else if q =? NULL then L else <[q := granted size]> (delete p L))
  | RFree p => free_block p;; mret (delete p L)
  end.

Fixpoint serve_all (L : gmap Z Z) (rs : list request) : M heap (gmap Z Z) :=
  match rs with
  | [] => mret L
  | r :: rs => if decide (allowed L r) then L' ← serve L r; serve_all L' rs else serve_all L rs
  end.

Section Clients.
Implicit Types (h : heap) (L : gmap Z Z).

Lemma null_not_live h L n : heap_inv h L -> L !! NULL = Some n -> False.
Proof.
  intros Hi Hl. destruct (live_arena _ _ _ _ Hi Hl) as (a & ar & _ & _ & H1 & H2 & _). unfold PHYS_BASE, LOADER_PHYS_BASE, NULL in *. lia.
Qed.

Lemma null_delete h L : heap_inv h L -> delete NULL L = L.
Proof. intros Hi. apply delete_id. destruct (L !! NULL) eqn:E; [|done]. exfalso. by eapply null_not_live. Qed.

(** What every call keeps. *)
Definition steady h h' L' : Prop := heap_ok h' L' /\ same_outside h h' /\ (bytes_ok (ram (hm h)) -> bytes_ok (ram (hm h'))).

Lemma steady_refl h L : heap_ok h L -> steady h h L.
Proof. intros H. by split_and!. Qed.

Lemma wp_free_steady h L p (Q : unit -> heap -> Prop) :
  heap_ok h L -> p = NULL \/ is_Some (L !! p) -> (forall h', steady h h' (delete p L) -> Q tt h') -> wp (free_block p) h Q.
Proof.
  intros Hok [->|[n Hp]] HQ.
  - apply wp_ret, HQ. rewrite (null_delete h L) by apply Hok. by apply steady_refl.
  - eapply wp_free_block; [done..|]. intros h' (D1 & _ & D3 & D4). by apply HQ.
Qed.

Lemma not_null r : PHYS_BASE <= r -> (r =? NULL) = false.
Proof. intros H. apply Z.eqb_neq. unfold NULL, PHYS_BASE, LOADER_PHYS_BASE in *. lia. Qed.

Lemma wp_malloc_steady h L size (Q : Z -> heap -> Prop) :
  heap_ok h L -> 0 <= size <= 2 ^ 32 - 4108 -> (forall p h', steady h h' (if p =? NULL then L else <[p := granted size]> L) -> Q p h') -> wp (malloc size) h Q.
Proof.
  intros Hok Hs HQ. eapply wp_heap_malloc; [done..|]. intros p h' [(-> & -> & _)|(Hp & _ & H1 & H2 & H3)]; apply HQ; [by apply steady_refl|].
  rewrite not_null by done. split_and!; [done|done|by rewrite H2].
Qed.

Lemma wp_serve h L r (Q : gmap Z Z -> heap -> Prop) :
  heap_ok h L -> bytes_ok (ram (hm h)) -> allowed L r -> (forall L' h', steady h h' L' -> Q L' h') -> wp (serve L r) h Q.
Proof.
  intros Hok Hb Ha HQ. destruct r as [size|a b|p size|p]; cbn in Ha |- *; apply wp_bind.
  - apply (wp_malloc_steady h L); [done..|]. intros p h' Hs. by apply wp_ret, HQ.
  - destruct Ha as (H1 & H2 & H3). assert (u32 (a * b) = a * b) as Eu by (unfold u32; apply Z.mod_small; nia).
    destruct (decide (a * b < a \/ a * b < b)) as [Hz|Hz].
    + assert (((u32 (a * b) <? a) || (u32 (a * b) <? b)) = true) as Hlt by (rewrite Eu, orb_true_iff, !Z.ltb_lt; done).
      unfold calloc. rewrite Hlt. apply wp_ret, wp_ret, HQ. by apply steady_refl.
    + apply (wp_calloc h L); [done|done|done|lia|lia|lia|]. rewrite Eu. intros p h' [(-> & -> & _)|(Hp & _ & C1 & _ & _ & C3 & C4)]; apply wp_ret, HQ; [by apply steady_refl|].
      rewrite not_null by done. by split_and!.
  - destruct Ha as [Hp Hs]. destruct (Z.eqb_spec size 0) as [->|Hz].
    + unfold realloc. cbn [Z.eqb]. apply wp_bind, (wp_free_steady h L); [done..|]. intros h' Hst. by apply wp_ret, wp_ret, HQ.
    + destruct Hp as [->|[n Hp]].
      * unfold realloc. rewrite (proj2 (Z.eqb_neq _ _) Hz). apply wp_bind, (wp_malloc_steady h L); [done..|]. intros q h' Hst.
        cbn [nonnull NULL Z.eqb negb andb]. rewrite (null_delete h L) by apply Hok. by apply wp_bind, wp_ret, wp_ret, wp_ret, HQ.
      * apply (wp_realloc h L p n); [done|done|done|lia|]. intros q h' [(-> & -> & _)|(Hq & _ & M1 & _ & _ & M3 & M4)]; apply wp_ret, HQ; [by apply steady_refl|].
        rewrite not_null by done. by split_and!.
  - apply (wp_free_steady h L); [done..|]. intros h' Hst. by apply wp_ret, HQ.
Qed.

Lemma wp_serve_all rs : forall h L (Q : gmap Z Z -> heap -> Prop),
  heap_ok h L -> bytes_ok (ram (hm h)) -> (forall L' h', steady h h' L' -> Q L' h') -> wp (serve_all L rs) h Q.
Proof.
  induction rs as [|r rs IH]; intros h L Q Hok Hb HQ; cbn [serve_all]; [by apply wp_ret, HQ, steady_refl|].
  destruct (decide (allowed L r)) as [Ha|_]; [|by apply IH]. apply wp_bind, (wp_serve h L); [done..|].
  intros L1 h1 (S1 & S2 & S3). apply IH; [done|auto|]. intros L' h' (T1 & T2 & T3). apply HQ. split_and!; [done|by eapply same_outside_trans|auto].
Qed.
End Clients.

(** * Results *)


(** [malloc] gives a null pointer, and changes nothing, only for a request of no bytes
    or when the kernel pool has no run of enough free pages; otherwise the block is at
    least as large as asked for, overlaps no other block in use, and no byte changes. *)
Theorem malloc_correct h L size :
  heap_ok h L -> 0 <= size <= 2 ^ 32 - 4108 ->
  wp (malloc size) h (fun r h' =>
    (r = NULL /\ h' = h /\ (size = 0 \/ no_run (kernel_pool (hm h)) (need size))) \/
    (size <= granted size /\ PHYS_BASE <= r /\ heap_ok h' (<[r := granted size]> L) /\ ram (hm h') = ram (hm h) /\
     forall b n, L !! b = Some n -> b + n <= r \/ r + granted size <= b)).
Proof.
  intros Hok Hs. eapply wp_heap_malloc; [done..|]. intros r h' [H|(Hr & Hn & Hok' & Hram & _)]; [by left|right].
  split_and!; [apply granted_enough|done|done|done|]. intros b n Hb. pose proof (proj1 Hok') as Hi. apply (live_apart h' (<[r := granted size]> L)); [done|..].
  - apply (hi_live _ _ Hi). rewrite lookup_insert_ne; [done|congruence].
  - apply (hi_live _ _ Hi). by rewrite lookup_insert_eq.
  - congruence.
Qed.

(** [free] of a block in use succeeds; the other blocks stay in use with what they
    hold, and the pages allocated for other purposes stay allocated. *)
Theorem free_correct h L p n :
  heap_ok h L -> L !! p = Some n ->
  wp (free_block p) h (fun _ h' => heap_ok h' (delete p L) /\ contents_kept (delete p L) h h' /\ same_outside h h').
Proof. intros Hok Hp. eapply wp_free_block; [done..|]. intros h' (H1 & H2 & H3 & _). done. Qed.

(** [realloc] of a block in use to a positive size either fails for lack of memory and
    changes nothing, or gives a block of at least that size that was not in use and
    starts with what the old one held; the old one is free and every other is kept. *)
Theorem realloc_correct h L old n size :
  heap_ok h L -> bytes_ok (ram (hm h)) -> L !! old = Some n -> 0 < size <= 2 ^ 32 - 4108 ->
  wp (realloc old size) h (fun r h' =>
    (r = NULL /\ h' = h /\ no_run (kernel_pool (hm h)) (need size)) \/
    (size <= granted size /\ L !! r = None /\ heap_ok h' (<[r := granted size]> (delete old L)) /\
     (forall i, 0 <= i < Z.min size n -> ram (hm h') !! (r + i) = ram (hm h) !! (old + i)) /\
     contents_kept (delete old L) h h')).
Proof.
  intros Hok Hb Ho Hs. eapply (wp_realloc h L old n); [done..|]. intros r h' [H|(H1 & H2 & H3 & H4 & H5 & _)]; [by left|right].
  split_and!; try done. apply granted_enough.
Qed.

(** a request of nearly 4 GB is granted: the number of bytes with the header wraps
    around to less than a page, and the block that [malloc] returns has 4084 bytes. *)
Theorem malloc_wraps h L size :
  heap_ok h L -> 2 ^ 32 - 12 < size < 2 ^ 32 ->
  wp (malloc size) h (fun r h' =>
    (r = NULL /\ no_run (kernel_pool (hm h)) 1) \/ (PHYS_BASE <= r /\ heap_ok h' (<[r := 4084]> L))).
Proof.
  intros [Hi Ht] Hs. unfold malloc. rewrite (proj2 (Z.eqb_neq _ _)) by lia. apply wp_bind, wp_get.
  pose proof (small_desc h L size Hi) as Hsm. destruct (list_find _ _) as [[k d]|]; [lia|].
  change sizeof_arena with 12. change PGSIZE with 4096.
  assert (u32 (u32 (size + 12) + 4096 - 1) / 4096 = 1) as -> by (unfold u32; Z.to_euclidean_division_equations; lia).
  apply (wp_big_block h L); [done|done|done|auto|]. intros r h' H1 H2 H3 H4 H5. by right.
Qed.

(** ** Witnesses *)

(** The heap at start-up. *)
Definition demo_heap : heap :=
  mk_heap demo_machine ∅ ((fun p : Z * Z => mk_desc p.1 p.2 []) <$> sizes).
(** The heap after a request of 100 bytes, and the block. *)
Definition demo_block : Z := match malloc 100 demo_heap with Ok (r, _) => r | Err _ => 0 end.
Definition demo_heap1 : heap := match malloc 100 demo_heap with Ok (_, h) => h | Err _ => demo_heap end.

Lemma demo_heap_ok : heap_ok demo_heap ∅.
Proof.
  pose proof (wp_malloc_init demo_machine (fun _ h => heap_ok h ∅) demo_machine_wf (fun h _ H => H)) as H.
  exact H.
Qed.

Lemma demo_block_eq : demo_block = 0xc010100c.
Proof. vm_compute. reflexivity. Qed.

Lemma demo_heap1_ok : heap_ok demo_heap1 (<[demo_block := 128]> ∅) /\ ram (hm demo_heap1) = ram demo_machine.
Proof.
  pose proof (wp_heap_malloc demo_heap ∅ 100 (malloced demo_heap ∅ 100) demo_heap_ok ltac:(lia) (fun r h H => H)) as H.
  pose proof demo_block_eq as E. unfold demo_heap1, demo_block, wp in *. destruct (malloc 100 demo_heap) as [[r h]|]; [|done].
  destruct H as [(-> & _)|(_ & _ & H & Hr & _)]; [discriminate E|]. split; [exact H|exact Hr].
Qed.

Lemma demo_bytes_ok : bytes_ok (ram demo_machine).
Proof. apply bytes_ok_put; [apply map_Forall_empty|]. apply Forall_replicate. unfold byte. lia. Qed.


Lemma malloc_correct_witness :
  wp (malloc 5000) demo_heap (fun r h' =>
    (r = NULL /\ h' = demo_heap /\ (5000 = 0 \/ no_run (kernel_pool (hm demo_heap)) (need 5000))) \/
    (5000 <= granted 5000 /\ PHYS_BASE <= r /\ heap_ok h' (<[r := granted 5000]> ∅) /\ ram (hm h') = ram (hm demo_heap) /\
     forall b n, (∅ : gmap Z Z) !! b = Some n -> b + n <= r \/ r + granted 5000 <= b)).
Proof. apply (malloc_correct demo_heap ∅ 5000); [exact demo_heap_ok|lia]. Defined.

Lemma free_correct_witness :
  wp (free_block demo_block) demo_heap1 (fun _ h' =>
    heap_ok h' (delete demo_block (<[demo_block := 128]> ∅)) /\ contents_kept (delete demo_block (<[demo_block := 128]> ∅)) demo_heap1 h' /\ same_outside demo_heap1 h').
Proof. apply (free_correct demo_heap1 _ demo_block 128); [exact (proj1 demo_heap1_ok)|by rewrite lookup_insert_eq]. Defined.

Lemma realloc_correct_witness :
  wp (realloc demo_block 200) demo_heap1 (fun r h' =>
    (r = NULL /\ h' = demo_heap1 /\ no_run (kernel_pool (hm demo_heap1)) (need 200)) \/
    (200 <= granted 200 /\ (<[demo_block := 128]> ∅ : gmap Z Z) !! r = None /\ heap_ok h' (<[r := granted 200]> (delete demo_block (<[demo_block := 128]> ∅))) /\
     (forall i, 0 <= i < Z.min 200 128 -> ram (hm h') !! (r + i) = ram (hm demo_heap1) !! (demo_block + i)) /\
     contents_kept (delete demo_block (<[demo_block := 128]> ∅)) demo_heap1 h')).
Proof.
  apply (realloc_correct demo_heap1 _ demo_block 128 200);
    [exact (proj1 demo_heap1_ok)|rewrite (proj2 demo_heap1_ok); exact demo_bytes_ok|by rewrite lookup_insert_eq|lia].
Defined.

Lemma malloc_wraps_witness :
  wp (malloc 0xfffffff5) demo_heap (fun r h' =>
    (r = NULL /\ no_run (kernel_pool (hm demo_heap)) 1) \/ (PHYS_BASE <= r /\ heap_ok h' (<[r := 4084]> ∅))).
Proof. apply (malloc_wraps demo_heap ∅ 0xfffffff5); [exact demo_heap_ok|lia]. Defined.
