(* ===== verification/Hash.v ===== *)
(** src/lib/kernel/hash.c: hash tables.

    A table is an array of lists of elements, by address; the functions that hash and
    compare elements are the client's.  Over any such functions that agree on when two
    elements are equal, a table implements a finite map from keys to elements, through
    every change of the number of buckets, whether or not memory is available. *)
From stdpp Require Import base list numbers gmap fin_maps.
From Stdlib Require Import ZArith Lia.
From S2P Require Import Prelude Strings.

Open Scope Z_scope.

(** * State *)

(** [arrays] counts the bucket arrays that are allocated, [calls] the calls of [malloc]. *)
Record hash : Type := mk_hash { elem_cnt : Z; bucket_cnt : Z; buckets : list (list Z); arrays : nat; calls : nat }.

Definition set_cnt (n : Z) (h : hash) : hash := mk_hash n (bucket_cnt h) (buckets h) (arrays h) (calls h).
Definition set_buckets (b : list (list Z)) (h : hash) : hash := mk_hash (elem_cnt h) (bucket_cnt h) b (arrays h) (calls h).

(** The element that an iterator is at: before the first one of its bucket, one of
    them, or none. *)
Inductive cursor : Type := AtHead | At (e : Z) | AtNull.
Record hash_iterator : Type := mk_it { it_bucket : nat; it_elem : cursor }.

Definition BEST_ELEMS_PER_BUCKET : Z := 2.

(** * Sample hash functions *)

Definition FNV_32_PRIME : Z := 16777619.
Definition FNV_32_BASIS : Z := 2166136261.

Fixpoint fnv_up (hash : Z) (size : nat) (buf : Z) : M mem Z :=
  match size with
  | O => mret hash
  | S size => c ← load8 buf; fnv_up (Z.lxor (u32 (hash * FNV_32_PRIME)) c) size (buf + 1)
  end.
Definition hash_bytes (buf : Z) (size : nat) : M mem Z :=
  ASSERT (nonnull buf);; fnv_up FNV_32_BASIS size buf.

Definition hash_string (s_ : Z) : M mem Z :=
  ASSERT (nonnull s_);;
  fuel ← mem_fuel;
  loop fuel (fun '(s, hash) =>
    c ← load8 s;
    mret (if negb (c =? 0) then inl (s + 1, Z.lxor (u32 (hash * FNV_32_PRIME)) c) else inr hash)) (s_, FNV_32_BASIS).

(** The bytes of [i] are at [p]. *)
Definition hash_int (p : Z) (i : Z) : M mem Z :=
  store32 p (u32 i);; hash_bytes p 4.

(** * Operations *)

Definition turn_off_least_1bit (x : Z) : Z := Z.land x (u32 (x - 1)).
Definition is_power_of_2 (x : Z) : bool := negb (x =? 0) && (turn_off_least_1bit x =? 0).

Section Operations.
Context (hashf : Z -> Z) (less : Z -> Z -> bool) (mallocs : nat -> bool).

Definition modify_hash (f : hash -> hash) : M hash unit := h ← mget; mput (f h).
Definition get_bucket (i : nat) : M hash (list Z) :=
  h ← mget; match buckets h !! i with Some l => mret l | None => mfail Fault end.
Definition put_bucket (i : nat) (l : list Z) : M hash unit :=
  get_bucket i;; modify_hash (fun h => set_buckets (<[i := l]> (buckets h)) h).

Definition alloc_array : M hash bool :=
  h ← mget;
  let ok := mallocs (calls h) in
  mput (mk_hash (elem_cnt h) (bucket_cnt h) (buckets h) (if ok then S (arrays h) else arrays h) (S (calls h)));;
  mret ok.
Definition free_array : M hash unit :=
  h ← mget; mput (mk_hash (elem_cnt h) (bucket_cnt h) (buckets h) (pred (arrays h)) (calls h)).

Definition find_bucket (e : Z) : M hash nat :=
  h ← mget; mret (Z.to_nat (Z.land (hashf e) (u32 (bucket_cnt h - 1)))).

Fixpoint search (l : list Z) (e : Z) : Z :=
  match l with
  | [] => NULL
  | hi :: l => if negb (less hi e) && negb (less e hi) then hi else search l e
  end.
Definition find_elem (bucket : nat) (e : Z) : M hash Z := l ← get_bucket bucket; mret (search l e).

Definition push_front (bucket : nat) (e : Z) : M hash unit := l ← get_bucket bucket; put_bucket bucket (e :: l).

(** [list_remove]: the element must be on one of the lists. *)
Definition unlink (e : Z) : M hash unit :=
  h ← mget;
  if bool_decide (e ∈ concat (buckets h)) then mput (set_buckets (filter (fun x => x ≠ e) <$> buckets h) h) else mfail Fault.

Definition insert_elem (bucket : nat) (e : Z) : M hash unit :=
  modify_hash (fun h => set_cnt (u32 (elem_cnt h + 1)) h);; push_front bucket e.
Definition remove_elem (e : Z) : M hash unit :=
  modify_hash (fun h => set_cnt (u32 (elem_cnt h - 1)) h);; unlink e.

(** The loop over an old bucket: each element is taken off and pushed on its new bucket. *)
Fixpoint move_all (l : list Z) : M hash unit :=
  match l with
  | [] => mret tt
  | e :: l => b ← find_bucket e; push_front b e;; move_all l
  end.

Definition rehash : M hash unit :=
  h ← mget;
  let old_buckets := buckets h in
  let old_bucket_cnt := bucket_cnt h in
  let n := elem_cnt h / BEST_ELEMS_PER_BUCKET in
  let n := if n <? 4 then 4 else n in
  new_bucket_cnt ← loop 33 (fun n =>
    mret (if negb (is_power_of_2 n) then inl (turn_off_least_1bit n) else inr n)) n;
  if new_bucket_cnt =? old_bucket_cnt then mret tt
  else
    ok ← alloc_array;
    if ok : bool then
      modify_hash (fun h => mk_hash (elem_cnt h) new_bucket_cnt (replicate (Z.to_nat new_bucket_cnt) []) (arrays h) (calls h));;
      loop (S (Z.to_nat old_bucket_cnt)) (fun i =>
        if Z.of_nat i <? old_bucket_cnt then
          match old_buckets !! i with
          | Some l => move_all l;; mret (inl (S i))
          | None => mfail Fault
          end
        else mret (inr tt)) O;;
      free_array
    else mret tt.

Definition hash_insert (new : Z) : M hash Z :=
  bucket ← find_bucket new;
  old ← find_elem bucket new;
  (if old =? NULL then insert_elem bucket new else mret tt);;
  rehash;;
  mret old.

Definition hash_replace (new : Z) : M hash Z :=
  bucket ← find_bucket new;
  old ← find_elem bucket new;
  (if negb (old =? NULL) then remove_elem old else mret tt);;
  insert_elem bucket new;;
  rehash;;
  mret old.

Definition hash_find (e : Z) : M hash Z := bucket ← find_bucket e; find_elem bucket e.

Definition hash_delete (e : Z) : M hash Z :=
  bucket ← find_bucket e;
  found ← find_elem bucket e;
  (if negb (found =? NULL) then remove_elem found;; rehash else mret tt);;
  mret found.

Definition hash_size : M hash Z := h ← mget; mret (elem_cnt h).
Definition hash_empty : M hash bool := h ← mget; mret (elem_cnt h =? 0).

(** ** Iteration *)

Definition hash_first : hash_iterator := mk_it 0 AtHead.
Definition hash_cur (i : hash_iterator) : Z := match it_elem i with At e => e | _ => NULL end.

(** [list_next] in the list [l], or nothing at its end. *)
Fixpoint after (e : Z) (l : list Z) : option (option Z) :=
  match l with [] => None | x :: l => if x =? e then Some (head l) else after e l end.
Definition next_in (l : list Z) (c : cursor) : M hash (option Z) :=
  match c with
  | AtHead => mret (head l)
  | At e => match after e l with Some r => mret r | None => mfail Fault end
  | AtNull => mfail Fault
  end.

Definition hash_next (i : hash_iterator) : M hash hash_iterator :=
  l ← get_bucket (it_bucket i);
  elem ← next_in l (it_elem i);
  h ← mget;
  loop (S (length (buckets h))) (fun '(bucket, elem) =>
    match elem with
    | Some e => mret (inr (mk_it bucket (At e)))
    | None =>
      let bucket := S bucket in
      if bucket_cnt h <=? Z.of_nat bucket then mret (inr (mk_it bucket AtNull))
      else l ← get_bucket bucket; mret (inl (bucket, head l))
    end) (it_bucket i, elem).

(** The idiom for iteration: the elements in the order [hash_next] gives them. *)
Definition iterate : M hash (list Z) :=
  h ← mget;
  loop (S (length (concat (buckets h)))) (fun '(i, seen) =>
    i ← hash_next i;
    mret (if nonnull (hash_cur i) then inl (i, seen ++ [hash_cur i]) else inr seen)) (hash_first, []).

(** ** Life cycle and actions

    A client's function works on a state [C] of the client. *)

Section Actions.
Context {C : Type}.

Fixpoint act_all (action : Z -> M C unit) (l : list Z) : M C unit :=
  match l with [] => mret tt | e :: l => action e;; act_all action l end.
Fixpoint act_buckets (action : Z -> M C unit) (bs : list (list Z)) : M C unit :=
  match bs with [] => mret tt | l :: bs => act_all action l;; act_buckets action bs end.

Definition on_client {A} (c : M C A) : M (hash * C) A := fun '(h, x) =>
  match c x with Ok (a, x) => Ok (a, (h, x)) | Err e => Err e end.
Definition on_hash {A} (c : M hash A) : M (hash * C) A := fun '(h, x) =>
  match c h with Ok (a, h) => Ok (a, (h, x)) | Err e => Err e end.

Definition hash_apply (action : option (Z -> M C unit)) : M (hash * C) unit :=
  match action with
  | None => mfail Panic
  | Some action => s ← mget; on_client (act_buckets action (take (Z.to_nat (bucket_cnt s.1)) (buckets s.1)))
  end.

(** A bucket is emptied one element at a time, each before its destructor is called. *)
Fixpoint drain (i : nat) (destructor : Z -> M C unit) (l : list Z) : M (hash * C) unit :=
  match l with
  | [] => mret tt
  | e :: l => on_hash (put_bucket i l);; on_client (destructor e);; drain i destructor l
  end.

Definition hash_clear (destructor : option (Z -> M C unit)) : M (hash * C) unit :=
  s ← mget;
  loop (S (Z.to_nat (bucket_cnt s.1))) (fun i =>
    if Z.of_nat i <? bucket_cnt s.1 then
      (match destructor with Some d => l ← on_hash (get_bucket i); drain i d l | None => mret tt end);;
      on_hash (put_bucket i []);;
      mret (inl (S i))
    else mret (inr tt)) O;;
  on_hash (modify_hash (set_cnt 0)).

Definition hash_destroy (destructor : option (Z -> M C unit)) : M (hash * C) unit :=
  (match destructor with Some _ => hash_clear destructor | None => mret tt end);;
  on_hash free_array.

(** [junk] is what the memory for the buckets holds. *)
Definition hash_init (junk : list (list Z)) : M (hash * C) bool :=
  on_hash (modify_hash (fun h => mk_hash 0 4 (buckets h) (arrays h) (calls h)));;
  ok ← on_hash alloc_array;
  if ok : bool then
    on_hash (modify_hash (set_buckets junk));;
    hash_clear None;;
    mret true
  else mret false.
End Actions.
End Operations.

(** * Powers of two *)

Section Powers.
Implicit Types (x n k : Z).

Lemma land_le_l x y : 0 <= x -> 0 <= y -> Z.land x y <= x.
Proof. intros Hx Hy. rewrite <-(Z2N.id x), <-(Z2N.id y), <-N2Z.inj_land by done. apply N2Z.inj_le, N.land_le_l. Qed.

(** The top bit survives unless it is the only one; the lowest one does not. *)
Lemma turn_off_spec x : 0 < x < 2 ^ 32 ->
  (x = 2 ^ Z.log2 x -> turn_off_least_1bit x = 0) /\
  (x ≠ 2 ^ Z.log2 x -> 0 < turn_off_least_1bit x < 2 ^ 32 /\ Z.log2 (turn_off_least_1bit x) = Z.log2 x).
Proof.
  intros Hx. unfold turn_off_least_1bit, u32. rewrite Z.mod_small by lia. pose proof (Z.log2_spec x ltac:(lia)) as Hl. pose proof (Z.log2_nonneg x) as Hn.
  set (L := Z.log2 x) in *. split; intros Hp.
  - rewrite Hp, Z.sub_1_r, <-Z.ones_equiv, Z.land_ones, Z.mod_same by (try apply Z.pow_nonzero; lia). done.
  - assert (Z.testbit (Z.land x (x - 1)) L = true) as Ht.
    { rewrite Z.land_spec. assert (Z.log2 (x - 1) = L) as E by (apply Z.log2_unique; lia). rewrite <-E at 2. unfold L. by rewrite !Z.bit_log2 by lia. }
    assert (0 <= Z.land x (x - 1)) as H0 by (apply Z.land_nonneg; lia).
    assert (Z.land x (x - 1) <= x) as H1 by (apply land_le_l; lia).
    assert (2 ^ L <= Z.land x (x - 1)) as H2.
    { apply Z.nlt_ge. intros Hlt. rewrite Z.bits_above_log2 in Ht; [done|done|]. destruct (decide (Z.land x (x - 1) = 0)) as [E|]; [rewrite E in Ht; by rewrite Z.testbit_0_l in Ht|]. apply Z.log2_lt_pow2; lia. }
    split; [lia|]. apply Z.log2_unique; lia.
Qed.

Lemma is_power_of_2_spec x : 0 < x < 2 ^ 32 -> is_power_of_2 x = true <-> x = 2 ^ Z.log2 x.
Proof.
  intros Hx. destruct (turn_off_spec x Hx) as [H1 H2]. unfold is_power_of_2. rewrite (proj2 (Z.eqb_neq x 0)) by lia. cbn [negb andb].
  rewrite Z.eqb_eq. split; [|done]. intros E. destruct (decide (x = 2 ^ Z.log2 x)) as [|Hn]; [done|]. destruct (H2 Hn). lia.
Qed.

(** Each step clears one more of the low bits. *)
Lemma turn_off_divide x k : 0 < x < 2 ^ 32 -> 0 <= k -> (2 ^ k | x) -> (2 ^ (k + 1) | turn_off_least_1bit x).
Proof.
  intros Hx Hk Hd. unfold turn_off_least_1bit, u32. rewrite Z.mod_small by lia.
  apply Z.mod_divide; [apply Z.pow_nonzero; lia|]. apply Z.bits_inj'. intros i Hi. rewrite Z.testbit_0_l.
  destruct (Z.lt_ge_cases i (k + 1)) as [Hlt|Hge]; [|by rewrite Z.mod_pow2_bits_high by lia]. rewrite Z.mod_pow2_bits_low, Z.land_spec by lia.
  destruct Hd as [y ->]. rewrite Z.mul_comm in *. destruct (decide (i < k)) as [Hik|Hik].
  - rewrite Z.mul_comm, Z.mul_pow2_bits_low by lia. done.
  - assert (i = k) as -> by lia. rewrite Z.mul_comm, Z.mul_pow2_bits, Z.sub_diag by lia. destruct (Z.testbit y 0) eqn:E; [|done]. cbn [andb].
    rewrite Z.bit0_odd in E. apply Z.odd_spec in E as [z ->]. rewrite Z.testbit_false by lia.
    pose proof (Z.pow_pos_nonneg 2 k ltac:(lia) Hk). replace ((2 * z + 1) * 2 ^ k - 1) with ((2 ^ k - 1) + (2 * z) * 2 ^ k) by lia.
    rewrite Z.div_add, Z.div_small by lia. rewrite Z.add_0_l, Z.mul_comm, Z.mod_mul by lia. done.
Qed.

(** The largest power of two that is at most [n]. *)
Definition floor2 n : Z := 2 ^ Z.log2 n.

Lemma wp_floor2 {T : Type} (s : T) n (Q : Z -> T -> Prop) :
  0 < n < 2 ^ 32 -> Q (floor2 n) s ->
  wp (loop 33 (fun n => mret (if negb (is_power_of_2 n) then inl (turn_off_least_1bit n) else inr n)) n) s Q.
Proof.
  intros Hn HQ.
  eapply (wp_loop (fun j x s' => s' = s /\ (j <= 32)%nat /\ 0 < x < 2 ^ 32 /\ Z.log2 x = Z.log2 n /\ (2 ^ (32 - Z.of_nat j) | x))) with (n := 32%nat).
  - intros j x s' (-> & Hj & Hx & Hlog & Hd). destruct (is_power_of_2 x) eqn:E; cbn [negb]; apply wp_ret.
    + apply is_power_of_2_spec in E; [|done]. rewrite E, Hlog. exact HQ.
    + assert (x ≠ 2 ^ Z.log2 x) as Hnp by (intros H; apply is_power_of_2_spec in H; [congruence|done]).
      destruct (turn_off_spec x Hx) as [_ H2]. destruct (H2 Hnp) as [H3 H4].
      destruct j as [|j]; [exfalso; apply Z.divide_pos_le in Hd; [|lia]; cbn in Hd; lia|].
      exists j. split; [lia|]. split_and!; [done|lia|lia|lia|congruence|].
      replace (32 - Z.of_nat j) with (32 - Z.of_nat (S j) + 1) by lia. apply turn_off_divide; [done|lia|done].
  - split_and!; [done|lia|lia|lia|done|]. apply Z.divide_1_l.
  - lia.
Qed.
End Powers.

(** * The invariant *)

(** What the functions of a client have to satisfy: elements that compare equal have the
    same key, and the same hash. *)
Class Hashing (hashf : Z -> Z) (less : Z -> Z -> bool) {K : Type} (key : Z -> K) : Prop := {
  hg_range : forall e, 0 <= hashf e < 2 ^ 32;
  hg_equal : forall a b, (less a b = false /\ less b a = false) <-> key a = key b;
  hg_hash : forall a b, key a = key b -> hashf a = hashf b
}.

(** The number of buckets that a table of [n] elements should have. *)
Definition best n : Z := floor2 (Z.max 4 (n / 2)).

Section Table.
Context (hashf : Z -> Z) (less : Z -> Z -> bool) (mallocs : nat -> bool).
Context {K : Type} `{Countable K} (key : Z -> K) `{!Hashing hashf less key}.
Implicit Types (h : hash) (bs : list (list Z)) (e : Z).

Definition home (cnt e : Z) : nat := Z.to_nat (hashf e mod cnt).

Record placed (cnt : Z) bs : Prop := {
  pl_len : Z.of_nat (length bs) = cnt;
  pl_home : forall i l e, bs !! i = Some l -> e ∈ l -> i = home cnt e
}.

Record hash_ok h : Prop := {
  ho_pow : exists p, 2 <= p < 32 /\ bucket_cnt h = 2 ^ p;
  ho_placed : placed (bucket_cnt h) (buckets h);
  ho_null : forall e, e ∈ concat (buckets h) -> e ≠ NULL;
  ho_keys : NoDup (key <$> concat (buckets h));
  ho_cnt : elem_cnt h = Z.of_nat (length (concat (buckets h)));
  ho_max : elem_cnt h < 2 ^ 32;
  ho_arrays : arrays h = 1%nat
}.

(** The elements by key. *)
Definition by_key (l : list Z) : gmap K Z := list_to_map ((fun e => (key e, e)) <$> l).
Definition contents h : gmap K Z := by_key (concat (buckets h)).

Lemma fst_by_key l : ((fun e => (key e, e)) <$> l).*1 = key <$> l.
Proof. rewrite <-list_fmap_compose. done. Qed.

Lemma by_key_Some l k e : NoDup (key <$> l) -> by_key l !! k = Some e <-> e ∈ l /\ key e = k.
Proof.
  intros Hnd. unfold by_key. rewrite <-elem_of_list_to_map by (by rewrite fst_by_key). rewrite list_elem_of_fmap. naive_solver.
Qed.

Lemma by_key_None l k : by_key l !! k = None <-> forall e, e ∈ l -> key e ≠ k.
Proof.
  unfold by_key. rewrite <-not_elem_of_list_to_map, fst_by_key, list_elem_of_fmap. naive_solver.
Qed.

Lemma by_key_perm l l' : NoDup (key <$> l) -> l ≡ₚ l' -> by_key l = by_key l'.
Proof. intros Hnd Hp. apply list_to_map_proper; [by rewrite fst_by_key|by rewrite Hp]. Qed.

(** ** Lists of buckets *)

Lemma concat_insert_perm bs i l l' : bs !! i = Some l -> exists rest, concat bs ≡ₚ l ++ rest /\ concat (<[i := l']> bs) ≡ₚ l' ++ rest.
Proof.
  intros Hi. exists (concat (take i bs) ++ concat (drop (S i) bs)). pose proof (lookup_lt_Some _ _ _ Hi).
  rewrite <-(take_drop_middle bs i l Hi) at 1. rewrite insert_take_drop by done. rewrite !concat_app. cbn [concat]. split; apply Permutation_app_swap_app.
Qed.

Lemma elem_of_concat bs e : e ∈ concat bs <-> exists i l, bs !! i = Some l /\ e ∈ l.
Proof.
  rewrite list_elem_of_In, in_concat. split.
  - intros (l & Hl & He). apply list_elem_of_In, list_elem_of_lookup in Hl as [i Hi]. exists i, l. by rewrite list_elem_of_In.
  - intros (i & l & Hi & He). exists l. rewrite <-!list_elem_of_In. split; [by eapply list_elem_of_lookup_2|done].
Qed.

Lemma filter_concat e bs : concat (filter (fun x => x ≠ e) <$> bs) = filter (fun x => x ≠ e) (concat bs).
Proof. induction bs as [|l bs IH]; [done|]. cbn [fmap list_fmap concat]. by rewrite filter_app, <-IH. Qed.

Lemma filter_out e l : NoDup l -> e ∈ l -> l ≡ₚ e :: filter (fun x => x ≠ e) l.
Proof.
  induction 1 as [|x l Hx _ IH]; [by intros ?%not_elem_of_nil|]. intros [->|He]%elem_of_cons.
  - rewrite filter_cons_False by auto. rewrite filter_all; [done|]. by intros y Hy ->.
  - rewrite filter_cons_True by (by intros ->). rewrite (IH He) at 1. apply perm_swap.
Qed.

Lemma home_bound p e : 0 <= p -> (home (2 ^ p) e < Z.to_nat (2 ^ p))%nat.
Proof. intros Hp. unfold home. pose proof (Z.mod_pos_bound (hashf e) (2 ^ p)). pose proof (Z.pow_pos_nonneg 2 p). lia. Qed.

(** The mask selects the home of an element. *)
Lemma mask_home p e : 0 <= p < 32 -> Z.to_nat (Z.land (hashf e) (u32 (2 ^ p - 1))) = home (2 ^ p) e.
Proof.
  intros Hp. pose proof (Z.pow_pos_nonneg 2 p ltac:(lia) ltac:(lia)). pose proof (Z.pow_lt_mono_r 2 p 32 ltac:(lia) ltac:(lia) ltac:(lia)).
  unfold home, u32. rewrite Z.mod_small by lia. by rewrite Z.sub_1_r, <-Z.ones_equiv, Z.land_ones by lia.
Qed.

Lemma placed_bucket p bs e : 0 <= p -> placed (2 ^ p) bs -> exists l, bs !! home (2 ^ p) e = Some l.
Proof. intros Hp [Hl _]. pose proof (home_bound p e Hp). apply lookup_lt_is_Some. lia. Qed.

Lemma placed_insert cnt bs l e : placed cnt bs -> bs !! home cnt e = Some l -> placed cnt (<[home cnt e := e :: l]> bs).
Proof.
  intros [Hl Hh] Hb. split; [by rewrite length_insert|]. intros i l' x. destruct (decide (i = home cnt e)) as [->|Hne].
  - rewrite list_lookup_insert_eq by (by eapply lookup_lt_Some). intros [= <-] [->|Hx]%elem_of_cons; [done|by eapply Hh].
  - rewrite list_lookup_insert_ne by done. apply Hh.
Qed.

Lemma placed_filter cnt bs e : placed cnt bs -> placed cnt (filter (fun x => x ≠ e) <$> bs).
Proof.
  intros [Hl Hh]. split; [by rewrite length_fmap|]. intros i l x. rewrite list_lookup_fmap. destruct (bs !! i) as [l0|] eqn:E; [|done].
  intros [= <-] [_ Hx]%list_elem_of_filter. by eapply Hh.
Qed.

(** An element equal to [e] can only be in its home. *)
Lemma search_home h l e : hash_ok h -> buckets h !! home (bucket_cnt h) e = Some l -> search less l e = default NULL (contents h !! key e).
Proof.
  intros Ho Hl. assert (forall x, x ∈ l -> x ∈ concat (buckets h)) as Hin by (intros x Hx; apply elem_of_concat; by eexists _, _).
  assert (search less l e = NULL /\ (forall x, x ∈ l -> key x ≠ key e) \/ search less l e ∈ l /\ key (search less l e) = key e) as [[-> Hno]|[Hs Hk]].
  { clear Hl Hin. induction l as [|x l IH]; [left; split; [done|intros x Hx; by apply not_elem_of_nil in Hx]|]. cbn [search].
    destruct (negb (less x e) && negb (less e x)) eqn:E.
    - right. split; [by left|]. apply (hg_equal (hashf := hashf)). apply andb_true_iff in E. by rewrite !negb_true_iff in E.
    - destruct IH as [[-> Hno]|[Hs Hk]]; [left|right; split; [by right|done]]. split; [done|]. intros y [->|Hy]%elem_of_cons; [|by apply Hno].
      intros Hk%(hg_equal (hashf := hashf) (less := less)). destruct Hk as [E1 E2]. by rewrite E1, E2 in E. }
  - unfold contents. assert (by_key (concat (buckets h)) !! key e = None) as ->; [|done]. apply by_key_None.
    intros x (i & l' & Hi & Hx)%elem_of_concat Hk. apply (Hno x); [|done]. pose proof (pl_home _ _ (ho_placed _ Ho) i l' x Hi Hx) as E.
    unfold home in E, Hl. rewrite (hg_hash (less := less) _ _ Hk), <-E in *. congruence.
  - unfold contents. assert (by_key (concat (buckets h)) !! key e = Some (search less l e)) as ->; [|done].
    apply by_key_Some; [apply Ho|]. split; [by apply Hin|done].
Qed.

(** ** The operations *)

Lemma wp_find_bucket h e (Q : nat -> hash -> Prop) :
  (exists p, 2 <= p < 32 /\ bucket_cnt h = 2 ^ p) -> Q (home (bucket_cnt h) e) h -> wp (find_bucket hashf e) h Q.
Proof. intros (p & Hp & E) HQ. unfold find_bucket. apply wp_bind, wp_get, wp_ret. rewrite E in *. rewrite mask_home by lia. exact HQ. Qed.

Lemma wp_get_bucket h i l (Q : list Z -> hash -> Prop) : buckets h !! i = Some l -> Q l h -> wp (get_bucket i) h Q.
Proof. intros Hi HQ. unfold get_bucket. apply wp_bind, wp_get. by rewrite Hi. Qed.

Lemma wp_put_bucket h i l l' (Q : unit -> hash -> Prop) :
  buckets h !! i = Some l -> Q tt (set_buckets (<[i := l']> (buckets h)) h) -> wp (put_bucket i l') h Q.
Proof. intros Hi HQ. apply wp_bind. eapply wp_get_bucket; [done|]. by apply wp_bind, wp_get, wp_put. Qed.

Lemma wp_push_front h i l e (Q : unit -> hash -> Prop) :
  buckets h !! i = Some l -> Q tt (set_buckets (<[i := e :: l]> (buckets h)) h) -> wp (push_front i e) h Q.
Proof. intros Hi HQ. apply wp_bind. eapply wp_get_bucket; [done|]. by eapply wp_put_bucket. Qed.

Lemma ok_bucket h e : hash_ok h -> exists l, buckets h !! home (bucket_cnt h) e = Some l.
Proof. intros Ho. destruct (ho_pow _ Ho) as (p & Hp & E). pose proof (ho_placed _ Ho) as Hpl. rewrite E in *. apply placed_bucket; [lia|done]. Qed.

Lemma wp_locate h e (k : nat -> Z -> M hash Z) (Q : Z -> hash -> Prop) :
  hash_ok h -> wp (k (home (bucket_cnt h) e) (default NULL (contents h !! key e))) h Q ->
  wp (bucket ← find_bucket hashf e; old ← find_elem less bucket e; k bucket old) h Q.
Proof.
  intros Ho HQ. apply wp_bind, wp_find_bucket; [apply Ho|]. destruct (ok_bucket h e Ho) as [l Hl].
  apply wp_bind, wp_bind. eapply wp_get_bucket; [done|]. apply wp_ret. by rewrite (search_home h).
Qed.

Lemma contents_nonnull h k e : hash_ok h -> contents h !! k = Some e -> (e =? NULL) = false.
Proof. intros Ho [He _]%by_key_Some; [|apply Ho]. apply Z.eqb_neq. by apply (ho_null _ Ho). Qed.

Lemma wp_insert_elem h e (Q : unit -> hash -> Prop) :
  hash_ok h -> e ≠ NULL -> contents h !! key e = None -> elem_cnt h + 1 < 2 ^ 32 ->
  (forall h', hash_ok h' -> contents h' = <[key e := e]> (contents h) -> elem_cnt h' = elem_cnt h + 1 -> calls h' = calls h -> Q tt h') ->
  wp (insert_elem (home (bucket_cnt h) e) e) h Q.
Proof.
  intros Ho He Hn Hmax HQ. destruct (ok_bucket h e Ho) as [l Hl]. unfold insert_elem. apply wp_bind, wp_bind, wp_get, wp_put.
  eapply wp_push_front; [exact Hl|]. cbn [buckets set_cnt]. pose proof (ho_cnt _ Ho) as Hc.
  assert (u32 (elem_cnt h + 1) = elem_cnt h + 1) as -> by (unfold u32; apply Z.mod_small; lia).
  destruct (concat_insert_perm (buckets h) (home (bucket_cnt h) e) l (e :: l) Hl) as (rest & P1 & P2).
  assert (concat (<[home (bucket_cnt h) e := e :: l]> (buckets h)) ≡ₚ e :: concat (buckets h)) as P3 by (rewrite P2, P1; done).
  assert (NoDup (key <$> e :: concat (buckets h))) as Hnd.
  { cbn. constructor; [|apply Ho]. intros (x & Hk & Hx)%list_elem_of_fmap. apply (proj1 (by_key_None _ _) Hn x Hx). done. }
  set (h' := set_buckets _ _). assert (concat (buckets h') ≡ₚ e :: concat (buckets h)) as P by done.
  assert (NoDup (key <$> concat (buckets h'))) as Hnd' by (by rewrite P).
  apply HQ; [|exact (by_key_perm _ _ Hnd' P)|done|done].
  split; try apply Ho; cbn [h' bucket_cnt buckets elem_cnt set_buckets set_cnt].
  - apply placed_insert; [apply Ho|done].
  - intros x. rewrite P3. intros [->|Hx]%elem_of_cons; [done|by apply (ho_null _ Ho)].
  - by rewrite P3.
  - rewrite P3. cbn. lia.
  - done.
Qed.

Lemma wp_remove_elem h e (Q : unit -> hash -> Prop) :
  hash_ok h -> contents h !! key e = Some e ->
  (forall h', hash_ok h' -> contents h' = delete (key e) (contents h) -> elem_cnt h' = elem_cnt h - 1 -> bucket_cnt h' = bucket_cnt h -> calls h' = calls h -> Q tt h') ->
  wp (remove_elem e) h Q.
Proof.
  intros Ho He HQ. pose proof He as [Hin _]%by_key_Some; [|apply Ho]. unfold remove_elem. apply wp_bind, wp_bind, wp_get, wp_put.
  apply wp_bind, wp_get. cbn [buckets set_cnt]. rewrite bool_decide_eq_true_2 by done. apply wp_put. pose proof (ho_cnt _ Ho) as Hc. pose proof (ho_max _ Ho).
  assert (NoDup (concat (buckets h))) as Hnd0 by (eapply NoDup_fmap_1, Ho). pose proof (filter_out e _ Hnd0 Hin) as P. pose proof (Permutation_length P) as Hlen. cbn in Hlen.
  assert (u32 (elem_cnt h - 1) = elem_cnt h - 1) as -> by (unfold u32; apply Z.mod_small; lia). set (rest := filter _ (concat (buckets h))) in *.
  assert (NoDup (key <$> e :: rest)) as Hnd by (rewrite <-P; apply Ho).
  pose proof Hnd as [Hk Hnd']%NoDup_cons. apply HQ; try done.
  - split; try apply Ho; cbn [bucket_cnt buckets elem_cnt set_buckets set_cnt]; rewrite ?filter_concat; fold rest.
    + apply placed_filter, Ho.
    + intros x [_ Hx]%list_elem_of_filter. by apply (ho_null _ Ho).
    + done.
    + lia.
    + lia.
  - unfold contents at 1. cbn [buckets set_buckets]. rewrite filter_concat. fold rest. unfold contents. rewrite (by_key_perm _ _ (ho_keys _ Ho) P).
    unfold by_key at 2. cbn [fmap list_fmap list_to_map foldr]. cbn. rewrite delete_insert_id; [done|].
    apply by_key_None. intros x Hx Hkx. apply Hk. apply list_elem_of_fmap. by exists x.
Qed.

(** ** Changing the number of buckets *)

Lemma wp_move_all p l h (Q : unit -> hash -> Prop) :
  2 <= p < 32 -> bucket_cnt h = 2 ^ p -> placed (2 ^ p) (buckets h) ->
  (forall bs, placed (2 ^ p) bs -> concat bs ≡ₚ l ++ concat (buckets h) -> Q tt (set_buckets bs h)) -> wp (move_all hashf l) h Q.
Proof.
  revert h. induction l as [|e l IH]; intros h Hp E Hpl HQ; cbn [move_all].
  - apply wp_ret. specialize (HQ (buckets h) Hpl ltac:(done)). by destruct h.
  - apply wp_bind, wp_find_bucket; [by exists p|]. rewrite E. destruct (placed_bucket p (buckets h) e ltac:(lia) Hpl) as [l0 Hl].
    apply wp_bind. eapply wp_push_front; [exact Hl|]. destruct (concat_insert_perm (buckets h) (home (2 ^ p) e) l0 (e :: l0) Hl) as (rest & P1 & P2).
    apply IH; [done|done|by apply placed_insert|]. cbn [buckets set_buckets]. intros bs Hbs P. apply (HQ bs Hbs). rewrite P, P2, P1.
    cbn [app]. rewrite <-Permutation_middle. done.
Qed.

Lemma best_pow n : 0 <= n < 2 ^ 32 -> exists p, 2 <= p < 32 /\ best n = 2 ^ p.
Proof.
  intros Hn. exists (Z.log2 (Z.max 4 (n / 2))). split; [|done]. pose proof (Z.log2_le_mono 4 (Z.max 4 (n / 2)) ltac:(lia)). change (Z.log2 4) with 2 in *.
  split; [done|]. apply Z.log2_lt_pow2; [lia|]. Z.to_euclidean_division_equations. lia.
Qed.

Lemma best_load n : 0 <= n -> n < 4 * best n.
Proof.
  intros Hn. unfold best, floor2. pose proof (Z.log2_spec (Z.max 4 (n / 2)) ltac:(lia)) as [_ Hl]. rewrite Z.pow_succ_r in Hl by apply Z.log2_nonneg.
  Z.to_euclidean_division_equations. lia.
Qed.

(** The table is in the size it should have, or memory ran out. *)
Definition sized h : Prop := (forall n, mallocs n = true) -> bucket_cnt h = best (elem_cnt h).

Lemma wp_rehash h (Q : unit -> hash -> Prop) :
  hash_ok h -> (forall h', hash_ok h' -> contents h' = contents h -> elem_cnt h' = elem_cnt h -> sized h' -> Q tt h') -> wp (rehash hashf mallocs) h Q.
Proof.
  intros Ho HQ. pose proof (ho_cnt _ Ho) as Hc. pose proof (ho_max _ Ho) as Hmax. unfold rehash. apply wp_bind, wp_get. cbv zeta.
  assert ((if elem_cnt h / BEST_ELEMS_PER_BUCKET <? 4 then 4 else elem_cnt h / BEST_ELEMS_PER_BUCKET) = Z.max 4 (elem_cnt h / 2)) as ->.
  { change BEST_ELEMS_PER_BUCKET with 2. destruct (Z.ltb_spec (elem_cnt h / 2) 4); lia. }
  apply wp_bind, wp_floor2; [Z.to_euclidean_division_equations; lia|]. fold (best (elem_cnt h)). set (b := best (elem_cnt h)).
  destruct (Z.eqb_spec b (bucket_cnt h)) as [E|E]; [apply wp_ret, HQ; [done|done|done|by intros _]|].
  destruct (best_pow (elem_cnt h)) as (p & Hp & Eb); [lia|]. fold b in Eb.
  apply wp_bind. unfold alloc_array. apply wp_bind, wp_get. cbv zeta. apply wp_bind, wp_put, wp_ret. destruct (mallocs (calls h)) eqn:Em.
  2: { apply wp_ret, HQ; [|done|done|intros Ht; congruence]. destruct Ho. by split. }
  apply wp_bind, wp_bind, wp_get, wp_put. cbn [elem_cnt arrays calls].
  set (st := fun bs => mk_hash (elem_cnt h) b bs (S (arrays h)) (S (calls h))). change (mk_hash _ b _ _ _) with (st (replicate (Z.to_nat b) [])).
  pose proof (ho_placed _ Ho) as [Hlen Hhome]. apply wp_bind.
  eapply (wp_loop (fun j i h' => (i <= length (buckets h))%nat /\ j = (length (buckets h) - i)%nat /\
    exists bs, h' = st bs /\ placed b bs /\ concat bs ≡ₚ concat (take i (buckets h)))) with (n := length (buckets h)); [| |lia].
  - intros j i h' (Hi & -> & bs & -> & Hpl & P). destruct (Z.ltb_spec (Z.of_nat i) (bucket_cnt h)) as [Hlt|Hge].
    + destruct (lookup_lt_is_Some_2 (buckets h) i) as [l Hl]; [lia|]. rewrite Hl. rewrite Eb in Hpl. apply wp_bind, (wp_move_all p); [done|done|done|].
      intros bs' Hpl' P'. apply wp_ret. exists (length (buckets h) - S i)%nat. split; [lia|]. split_and!; [lia|done|]. exists bs'. rewrite Eb.
      split_and!; [done|done|]. rewrite P', (take_S_r _ _ _ Hl), concat_app. cbn [buckets st concat]. rewrite P, app_nil_r. apply Permutation_app_comm.
    + apply wp_ret. assert (i = length (buckets h)) as -> by lia. rewrite take_ge in P by done. apply wp_bind, wp_get, wp_put. cbn [st elem_cnt bucket_cnt buckets arrays calls pred].
      assert (NoDup (key <$> concat bs)) as Hnd by (rewrite P; apply Ho). apply HQ; [|unfold contents; cbn [buckets]; by apply by_key_perm|done|by intros _].
      split; cbn [elem_cnt bucket_cnt buckets arrays]; [by exists p|done| |done|by rewrite P|done|apply Ho]. intros x. rewrite P. apply (ho_null _ Ho).
  - split_and!; [lia|lia|]. eexists. split; [reflexivity|]. split; [split|].
    + rewrite length_replicate, Eb. pose proof (Z.pow_pos_nonneg 2 p). lia.
    + intros i l x Hi Hx. apply lookup_replicate in Hi as [-> _]. by apply not_elem_of_nil in Hx.
    + cbn [take concat]. clear. induction (Z.to_nat b) as [|n IH]; [done|]. done.
Qed.

(** ** Requests, and what they do to a map *)

Lemma insert_hash_ok h e (Q : Z -> hash -> Prop) :
  hash_ok h -> e ≠ NULL -> elem_cnt h + 1 < 2 ^ 32 ->
  (forall h', hash_ok h' -> sized h' -> elem_cnt h' <= elem_cnt h + 1 ->
     contents h' = (if contents h !! key e is Some _ then contents h else <[key e := e]> (contents h)) -> Q (default NULL (contents h !! key e)) h') ->
  wp (hash_insert hashf less mallocs e) h Q.
Proof.
  intros Ho He Hm HQ. unfold hash_insert. apply wp_locate; [done|]. destruct (contents h !! key e) as [x|] eqn:Ex; cbn [default].
  - unfold id. rewrite (contents_nonnull h _ _ Ho Ex). apply wp_bind, wp_ret, wp_bind, wp_rehash; [done|]. intros h' H1 H2 H3 H4. apply wp_ret, HQ; [done|done|lia|done].
  - cbn [NULL Z.eqb]. apply wp_bind, wp_insert_elem; [done..|]. intros h1 H1 H2 H3 _. apply wp_bind, wp_rehash; [done|]. intros h' H4 H5 H6 H7.
    apply wp_ret, HQ; [done|done|lia|congruence].
Qed.

Lemma replace_hash_ok h e (Q : Z -> hash -> Prop) :
  hash_ok h -> e ≠ NULL -> elem_cnt h + 1 < 2 ^ 32 ->
  (forall h', hash_ok h' -> sized h' -> elem_cnt h' <= elem_cnt h + 1 -> contents h' = <[key e := e]> (contents h) -> Q (default NULL (contents h !! key e)) h') ->
  wp (hash_replace hashf less mallocs e) h Q.
Proof.
  intros Ho He Hm HQ. unfold hash_replace. apply wp_locate; [done|]. destruct (contents h !! key e) as [x|] eqn:Ex; cbn [default].
  - unfold id. rewrite (contents_nonnull h _ _ Ho Ex). cbn [negb]. pose proof Ex as [_ Hkx]%by_key_Some; [|apply Ho].
    apply wp_bind, wp_remove_elem; [done|by rewrite Hkx|]. intros h1 H1 H2 H3 H3' _. rewrite <-H3'. rewrite Hkx in H2.
    apply wp_bind, wp_insert_elem; [done|done|by rewrite H2, lookup_delete_eq|lia|]. intros h2 H4 H5 H6 _.
    apply wp_bind, wp_rehash; [done|]. intros h' H7 H8 H9 H10. apply wp_ret, HQ; [done|done|lia|]. rewrite H8, H5, H2. apply insert_delete_eq.
  - cbn [NULL Z.eqb negb]. apply wp_bind, wp_ret, wp_bind, wp_insert_elem; [done..|]. intros h1 H1 H2 H3 _. apply wp_bind, wp_rehash; [done|]. intros h' H4 H5 H6 H7.
    apply wp_ret, HQ; [done|done|lia|congruence].
Qed.

Lemma find_hash_ok h e (Q : Z -> hash -> Prop) :
  hash_ok h -> Q (default NULL (contents h !! key e)) h -> wp (hash_find hashf less e) h Q.
Proof.
  intros Ho HQ. pose proof (wp_locate h e (fun _ r => mret r) Q Ho HQ) as Hw. unfold hash_find. apply wp_bind_inv in Hw. apply wp_bind.
  eapply wp_mono; [exact Hw|]. intros b h' H'. apply wp_bind_inv in H'. eapply wp_mono; [exact H'|]. done.
Qed.

Lemma delete_hash_ok h e (Q : Z -> hash -> Prop) :
  hash_ok h -> sized h ->
  (forall h', hash_ok h' -> sized h' -> elem_cnt h' <= elem_cnt h -> contents h' = delete (key e) (contents h) -> Q (default NULL (contents h !! key e)) h') ->
  wp (hash_delete hashf less mallocs e) h Q.
Proof.
  intros Ho Hs HQ. unfold hash_delete. apply wp_locate; [done|]. destruct (contents h !! key e) as [x|] eqn:Ex; cbn [default].
  - unfold id. rewrite (contents_nonnull h _ _ Ho Ex). cbn [negb]. pose proof Ex as [_ Hkx]%by_key_Some; [|apply Ho].
    apply wp_bind, wp_bind, wp_remove_elem; [done|by rewrite Hkx|]. intros h1 H1 H2 H3 _ _. apply wp_rehash; [done|]. intros h' H4 H5 H6 H7.
    apply wp_ret, HQ; [done|done|lia|by rewrite H5, H2, Hkx].
  - cbn [NULL Z.eqb negb]. apply wp_bind, wp_ret, wp_ret, HQ; [done|done|lia|]. by rewrite delete_id.
Qed.

Lemma ok_size h : hash_ok h -> elem_cnt h = Z.of_nat (size (contents h)).
Proof.
  intros Ho. rewrite (ho_cnt _ Ho). f_equal. unfold contents, by_key. rewrite map_size_list_to_map by (rewrite fst_by_key; apply Ho). by rewrite length_fmap.
Qed.
End Table.

(** A request to a table, and the same request to a map. *)
Inductive request : Type := HInsert (e : Z) | HReplace (e : Z) | HFind (e : Z) | HDelete (e : Z) | HSize.
Definition request_ok (r : request) : Prop := match r with HInsert e | HReplace e => e ≠ NULL | _ => True end.

Section Requests.
Context (hashf : Z -> Z) (less : Z -> Z -> bool) (mallocs : nat -> bool).

Definition perform (r : request) : M hash Z :=
  match r with
  | HInsert e => hash_insert hashf less mallocs e
  | HReplace e => hash_replace hashf less mallocs e
  | HFind e => hash_find hashf less e
  | HDelete e => hash_delete hashf less mallocs e
  | HSize => hash_size
  end.
Fixpoint perform_all (rs : list request) : M hash (list Z) :=
  match rs with [] => mret [] | r :: rs => a ← perform r; l ← perform_all rs; mret (a :: l) end.

(** The life of a table: it is set up, used, walked through and destroyed; the client's
    state is the list of the elements its destructor was called for. *)
Definition record_elem (e : Z) : M (list Z) unit := l ← mget; mput (l ++ [e]).
Definition session (junk : list (list Z)) (rs : list request) : M (hash * list Z) (option (list Z * list Z)) :=
  ok ← hash_init mallocs junk;
  if ok : bool then
    answers ← on_hash (perform_all rs);
    elems ← on_hash iterate;
    hash_destroy (Some record_elem);;
    mret (Some (answers, elems))
  else mret None.
End Requests.

Section Maps.
Context {K : Type} `{Countable K} (key : Z -> K).

Definition on_map (r : request) (m : gmap K Z) : Z * gmap K Z :=
  match r with
  | HInsert e => (default NULL (m !! key e), if m !! key e is Some _ then m else <[key e := e]> m)
  | HReplace e => (default NULL (m !! key e), <[key e := e]> m)
  | HFind e => (default NULL (m !! key e), m)
  | HDelete e => (default NULL (m !! key e), delete (key e) m)
  | HSize => (Z.of_nat (size m), m)
  end.
Fixpoint on_map_all (rs : list request) (m : gmap K Z) : list Z * gmap K Z :=
  match rs with
  | [] => ([], m)
  | r :: rs => let '(a, m) := on_map r m in let '(l, m) := on_map_all rs m in (a :: l, m)
  end.
End Maps.

Section Refinement.
Context (hashf : Z -> Z) (less : Z -> Z -> bool) (mallocs : nat -> bool).
Context {K : Type} `{Countable K} (key : Z -> K) `{!Hashing hashf less key}.
Implicit Types (h : hash).

Definition good h : Prop := hash_ok hashf key h /\ sized mallocs h.

Lemma wp_perform h r (Q : Z -> hash -> Prop) :
  good h -> request_ok r -> elem_cnt h + 1 < 2 ^ 32 ->
  (forall h', good h' -> elem_cnt h' <= elem_cnt h + 1 -> contents key h' = (on_map key r (contents key h)).2 -> Q (on_map key r (contents key h)).1 h') ->
  wp (perform hashf less mallocs r) h Q.
Proof.
  intros [Ho Hs] Hr Hm HQ. destruct r as [e|e|e|e|]; cbn in Hr |- *.
  - apply (insert_hash_ok hashf less mallocs key); [done..|]. intros h' H1 H2 H3 H4. by apply HQ.
  - apply (replace_hash_ok hashf less mallocs key); [done..|]. intros h' H1 H2 H3 H4. by apply HQ.
  - apply (find_hash_ok hashf less key); [done|]. apply HQ; [done|lia|done].
  - apply (delete_hash_ok hashf less mallocs key); [done..|]. intros h' H1 H2 H3 H4. apply HQ; [done|lia|done].
  - apply wp_bind, wp_get, wp_ret. rewrite (ok_size hashf key h Ho). apply HQ; [done|lia|done].
Qed.

Lemma wp_perform_all rs : forall h (Q : list Z -> hash -> Prop),
  good h -> Forall request_ok rs -> elem_cnt h + Z.of_nat (length rs) < 2 ^ 32 ->
  (forall h', good h' -> contents key h' = (on_map_all key rs (contents key h)).2 -> Q (on_map_all key rs (contents key h)).1 h') ->
  wp (perform_all hashf less mallocs rs) h Q.
Proof.
  induction rs as [|r rs IH]; intros h Q Hg Hr Hm HQ; cbn [perform_all length on_map_all] in *; [by apply wp_ret, HQ|].
  apply Forall_cons in Hr as [Hr Hrs]. apply wp_bind, wp_perform; [done|done|lia|]. intros h1 H1 H2 H3.
  destruct (on_map key r (contents key h)) as [a m] eqn:E. cbn [fst snd] in *. apply wp_bind, IH; [done|done|lia|]. intros h' H4 H5. rewrite H3 in *.
  destruct (on_map_all key rs m) as [l m'] eqn:E'. cbn [fst snd] in *. by apply wp_ret, HQ.
Qed.
End Refinement.

(** * Life cycle *)

Section Cycle.
Context {C : Type}.
Implicit Types (h : hash) (x : C) (bs : list (list Z)) (d : Z -> M C unit).

Lemma wp_on_hash {A} (c : M hash A) h x (Q : A -> hash * C -> Prop) : wp c h (fun a h' => Q a (h', x)) -> wp (on_hash c) (h, x) Q.
Proof. unfold wp, on_hash. by destruct (c h) as [[a h']|]. Qed.
Lemma wp_on_client {A} (c : M C A) h x (Q : A -> hash * C -> Prop) : wp c x (fun a x' => Q a (h, x')) -> wp (on_client c) (h, x) Q.
Proof. unfold wp, on_client. by destruct (c x) as [[a x']|]. Qed.

Lemma wp_act_all_app d l l' x (Q : unit -> C -> Prop) :
  wp (act_all d l) x (fun _ x' => wp (act_all d l') x' Q) <-> wp (act_all d (l ++ l')) x Q.
Proof.
  revert x. induction l as [|e l IH]; intros x; [done|]. cbn [act_all app]. split; intros Hw.
  - apply wp_bind_inv in Hw. apply wp_bind. eapply wp_mono; [exact Hw|]. intros ? x' Hw'. by apply IH.
  - apply wp_bind_inv in Hw. apply wp_bind. eapply wp_mono; [exact Hw|]. intros ? x' Hw'. by apply IH.
Qed.

Lemma wp_act_buckets d bs x (Q : unit -> C -> Prop) : wp (act_all d (concat bs)) x Q -> wp (act_buckets d bs) x Q.
Proof.
  revert x. induction bs as [|l bs IH]; intros x Hw; [done|]. cbn [act_buckets concat] in *. apply wp_act_all_app in Hw.
  apply wp_bind. eapply wp_mono; [exact Hw|]. intros ? x'. apply IH.
Qed.

Lemma wp_drain i d l h x (Q : unit -> hash * C -> Prop) :
  buckets h !! i = Some l -> wp (act_all d l) x (fun _ x' => Q tt (set_buckets (<[i := []]> (buckets h)) h, x')) -> wp (drain i d l) (h, x) Q.
Proof.
  revert h x. induction l as [|e l IH]; intros h x Hi Hw; cbn [drain act_all] in *.
  - apply wp_ret. unfold wp in Hw. cbn in Hw. rewrite list_insert_id in Hw by done. by destruct h.
  - apply wp_bind, wp_on_hash. eapply wp_put_bucket; [done|]. apply wp_bind, wp_on_client. apply wp_bind_inv in Hw. eapply wp_mono; [exact Hw|].
    intros ? x' Hw'. apply IH; [cbn; apply list_lookup_insert_eq; by eapply lookup_lt_Some|]. cbn [buckets set_buckets]. by rewrite list_insert_insert_eq.
Qed.

(** What an empty table is. *)
Definition emptied h : hash := mk_hash 0 (bucket_cnt h) (replicate (length (buckets h)) []) (arrays h) (calls h).

Lemma wp_hash_clear (dest : option (Z -> M C unit)) h x (Q : unit -> hash * C -> Prop) :
  Z.of_nat (length (buckets h)) = bucket_cnt h ->
  match dest with Some d => wp (act_all d (concat (buckets h))) x (fun _ x' => Q tt (emptied h, x')) | None => Q tt (emptied h, x) end ->
  wp (hash_clear dest) (h, x) Q.
Proof.
  intros Hlen Hw. unfold hash_clear. apply wp_bind, wp_get. cbn [fst]. apply wp_bind.
  set (bs := buckets h) in *. set (st := fun i => set_buckets (replicate i [] ++ drop i bs) h).
  set (post := fun x' => Q tt (emptied h, x')).
  eapply (wp_loop (fun j i s => (i <= length bs)%nat /\ j = (length bs - i)%nat /\ exists x', s = (st i, x') /\
    match dest with Some d => wp (act_all d (concat (drop i bs))) x' (fun _ x'' => post x'') | None => post x' end)) with (n := length bs); [| |lia].
  - intros j i s (Hi & -> & x' & -> & Hx). destruct (Z.ltb_spec (Z.of_nat i) (bucket_cnt h)) as [Hlt|Hge].
    + destruct (lookup_lt_is_Some_2 bs i) as [l Hl]; [lia|]. pose proof (drop_S _ _ _ Hl) as Hd.
      assert (buckets (st i) = replicate i [] ++ l :: drop (S i) bs) as Ebs by (unfold st; cbn; by rewrite Hd).
      assert (buckets (st i) !! i = Some l) as Hl' by (rewrite Ebs; by rewrite list_lookup_middle by (by rewrite length_replicate)).
      assert (forall v, <[i := v]> (buckets (st i)) = replicate i [] ++ v :: drop (S i) bs) as Hins.
      { intros v. rewrite Ebs. rewrite insert_app_r_alt by (by rewrite length_replicate). by rewrite length_replicate, Nat.sub_diag. }
      assert (st (S i) = set_buckets (replicate i [] ++ [] :: drop (S i) bs) h) as Hst by (unfold st; by rewrite replicate_S_end, <-app_assoc).
      assert (forall x2, wp (on_hash (put_bucket i []);; mret (inl (S i))) (set_buckets (<[i := []]> (buckets (st i))) (st i), x2)
        (fun (r : nat + unit) s' => r = inl (S i) /\ s' = (st (S i), x2))) as Hput.
      { intros x2. apply wp_bind, wp_on_hash. eapply wp_put_bucket; [cbn [buckets set_buckets]; rewrite Hins; apply list_lookup_middle; by rewrite length_replicate|].
        apply wp_ret. split; [done|]. cbn [buckets set_buckets]. by rewrite list_insert_insert_eq, Hins, Hst. }
      apply wp_bind. destruct dest as [d|].
      * rewrite Hd in Hx. cbn [concat] in Hx. apply wp_act_all_app in Hx. apply wp_bind, wp_on_hash. eapply wp_get_bucket; [exact Hl'|].
        eapply wp_drain; [exact Hl'|]. eapply wp_mono; [exact Hx|]. intros ? x2 Hx2. eapply wp_mono; [apply Hput|].
        intros r s' [-> ->]. exists (length bs - S i)%nat. split; [lia|]. split_and!; [lia|done|]. by exists x2.
      * apply wp_ret. apply wp_bind, wp_on_hash. eapply wp_put_bucket; [exact Hl'|]. apply wp_ret.
        exists (length bs - S i)%nat. split; [lia|]. split_and!; [lia|done|]. exists x'. split; [|done]. by rewrite Hins, Hst.
    + apply wp_ret. assert (i = length bs) as -> by lia. apply wp_on_hash, wp_bind, wp_get, wp_put. unfold st. rewrite drop_all, app_nil_r in *.
      destruct dest; exact Hx.
  - split_and!; [lia|lia|]. exists x. split; [by unfold st; destruct h|]. exact Hw.
Qed.

Lemma wp_hash_apply d h x (Q : unit -> hash * C -> Prop) :
  Z.of_nat (length (buckets h)) = bucket_cnt h -> wp (act_all d (concat (buckets h))) x (fun _ x' => Q tt (h, x')) -> wp (hash_apply (Some d)) (h, x) Q.
Proof.
  intros Hl Hw. apply wp_bind, wp_get. cbn [fst]. apply wp_on_client, wp_act_buckets. rewrite take_ge by lia. eapply wp_mono; [exact Hw|]. by intros [] ?.
Qed.

Lemma wp_hash_destroy d h x (Q : unit -> hash * C -> Prop) :
  Z.of_nat (length (buckets h)) = bucket_cnt h -> arrays h = 1%nat ->
  wp (act_all d (concat (buckets h))) x (fun _ x' => forall h', arrays h' = 0%nat -> Q tt (h', x')) -> wp (hash_destroy (Some d)) (h, x) Q.
Proof.
  intros Hl Ha Hw. apply wp_bind, wp_hash_clear; [done|]. eapply wp_mono; [exact Hw|]. intros ? x' HQ. apply wp_on_hash, wp_bind, wp_get, wp_put, HQ. cbn. by rewrite Ha.
Qed.
End Cycle.

Section Init.
Context {C : Type} (hashf : Z -> Z) (mallocs : nat -> bool) {K : Type} `{Countable K} (key : Z -> K).
Implicit Types (h : hash) (x : C).

Lemma concat_nils n : concat (replicate n ([] : list Z)) = [].
Proof. induction n as [|n IH]; [done|]. exact IH. Qed.

Lemma wp_hash_init junk h x (Q : bool -> hash * C -> Prop) :
  length junk = 4%nat -> arrays h = 0%nat ->
  (mallocs (calls h) = false -> forall h', arrays h' = 0%nat -> Q false (h', x)) ->
  (forall h', good hashf mallocs key h' -> contents key h' = ∅ -> elem_cnt h' = 0 -> Q true (h', x)) ->
  wp (hash_init mallocs junk) (h, x) Q.
Proof.
  intros Hj Ha HF HQ. apply wp_bind, wp_on_hash, wp_bind, wp_get, wp_put. apply wp_bind, wp_on_hash. unfold alloc_array. apply wp_bind, wp_get. cbv zeta.
  apply wp_bind, wp_put, wp_ret. cbn [elem_cnt bucket_cnt buckets arrays calls]. destruct (mallocs (calls h)) eqn:Em.
  - apply wp_bind, wp_on_hash, wp_bind, wp_get, wp_put. apply wp_bind, (wp_hash_clear None); [cbn; by rewrite Hj|]. apply wp_ret, HQ.
    + split; [|by intros _]. split; cbn [emptied elem_cnt bucket_cnt buckets arrays set_buckets]; rewrite ?concat_nils; try done.
      * by exists 2.
      * split; [by rewrite length_replicate, Hj|]. intros i l e Hi He. apply lookup_replicate in Hi as [-> _]. by apply not_elem_of_nil in He.
      * intros e He. by apply not_elem_of_nil in He.
      * constructor.
      * by rewrite Ha.
    + unfold contents. cbn [emptied buckets]. by rewrite concat_nils.
    + done.
  - by apply wp_ret, HF.
Qed.
End Init.

(** * Iteration *)

Section Iteration.
Implicit Types (h : hash) (i : hash_iterator).

(** What is left of the table for an iterator. *)
Inductive at_rest h : hash_iterator -> list Z -> Prop :=
| rest_head b l : buckets h !! b = Some l -> at_rest h (mk_it b AtHead) (l ++ concat (drop (S b) (buckets h)))
| rest_elem b l1 e l2 : buckets h !! b = Some (l1 ++ e :: l2) -> at_rest h (mk_it b (At e)) (l2 ++ concat (drop (S b) (buckets h))).

(** The loop over the buckets. *)
Lemma wp_next_bucket h b elem rest (Q : hash_iterator -> hash -> Prop) :
  Z.of_nat (length (buckets h)) = bucket_cnt h -> (b < length (buckets h))%nat ->
  (exists l1 l2, buckets h !! b = Some (l1 ++ l2) /\ elem = head l2 /\ rest = l2 ++ concat (drop (S b) (buckets h))) ->
  (forall i, match rest with [] => it_elem i = AtNull | e :: rest' => it_elem i = At e /\ at_rest h i rest' end -> Q i h) ->
  wp (loop (S (length (buckets h))) (fun '(bucket, elem) =>
    match elem with
    | Some e => mret (inr (mk_it bucket (At e)))
    | None =>
      let bucket := S bucket in
      if bucket_cnt h <=? Z.of_nat bucket then mret (inr (mk_it bucket AtNull))
      else l ← get_bucket bucket; mret (inl (bucket, head l))
    end) (b, elem)) h Q.
Proof.
  intros Hlen Hb Hst HQ.
  eapply (wp_loop (fun j '(b, elem) h' => h' = h /\ (b < length (buckets h))%nat /\ j = (length (buckets h) - S b)%nat /\
    exists l1 l2, buckets h !! b = Some (l1 ++ l2) /\ elem = head l2 /\ rest = l2 ++ concat (drop (S b) (buckets h)))) with (n := (length (buckets h) - S b)%nat); [|done|lia].
  intros j [b' elem'] h' (-> & Hb' & -> & l1 & l2 & Hl & -> & Hr). destruct l2 as [|e l2]; cbn [head].
  - cbv zeta. destruct (Z.leb_spec (bucket_cnt h) (Z.of_nat (S b'))) as [Hge|Hlt].
    + apply wp_ret, HQ. rewrite Hr, drop_ge by lia. done.
    + destruct (lookup_lt_is_Some_2 (buckets h) (S b')) as [l Hl']; [lia|]. apply wp_bind. eapply wp_get_bucket; [exact Hl'|]. apply wp_ret.
      exists (length (buckets h) - S (S b'))%nat. split; [lia|]. split_and!; [done|lia|done|]. exists [], l. split_and!; [done|done|].
      rewrite Hr, (drop_S _ _ _ Hl'). done.
  - apply wp_ret, HQ. rewrite Hr. cbn [app it_elem]. split; [done|]. by econstructor.
Qed.

Lemma after_spec e l1 l2 : e ∉ l1 -> after e (l1 ++ e :: l2) = Some (head l2).
Proof.
  induction l1 as [|x l1 IH]; intros Hn; cbn [after app]; [by rewrite Z.eqb_refl|]. apply not_elem_of_cons in Hn as [Hne Hn].
  rewrite (proj2 (Z.eqb_neq x e)) by done. by apply IH.
Qed.

Lemma wp_hash_next h i rest (Q : hash_iterator -> hash -> Prop) :
  Z.of_nat (length (buckets h)) = bucket_cnt h -> NoDup (concat (buckets h)) -> at_rest h i rest ->
  (forall i, match rest with [] => it_elem i = AtNull | e :: rest' => it_elem i = At e /\ at_rest h i rest' end -> Q i h) ->
  wp (hash_next i) h Q.
Proof.
  intros Hlen Hnd Hr HQ. unfold hash_next. destruct Hr as [b l Hl|b l1 e l2 Hl]; cbn [it_bucket it_elem]; apply wp_bind; (eapply wp_get_bucket; [exact Hl|]); apply wp_bind; cbn [next_in].
  - apply wp_ret, wp_bind, wp_get. eapply wp_next_bucket; [done|by eapply lookup_lt_Some| |exact HQ]. by exists [], l.
  - assert (e ∉ l1) as Hne.
    { destruct (concat_insert_perm (buckets h) b _ [] Hl) as (r & P & _). rewrite P in Hnd. apply NoDup_app in Hnd as (Hnd & _ & _).
      apply NoDup_app in Hnd as (_ & Hd & _). intros He. apply (Hd e He). by left. }
    rewrite after_spec by done. apply wp_ret, wp_bind, wp_get. eapply wp_next_bucket; [done|by eapply lookup_lt_Some| |exact HQ].
    exists (l1 ++ [e]), l2. by rewrite <-app_assoc.
Qed.

Lemma wp_iterate h (Q : list Z -> hash -> Prop) :
  Z.of_nat (length (buckets h)) = bucket_cnt h -> 0 < bucket_cnt h -> NoDup (concat (buckets h)) -> (forall e, e ∈ concat (buckets h) -> e ≠ NULL) ->
  Q (concat (buckets h)) h -> wp iterate h Q.
Proof.
  intros Hlen Hpos Hnd Hnn HQ. unfold iterate. apply wp_bind, wp_get.
  eapply (wp_loop (fun j '(i, seen) h' => h' = h /\ exists rest, at_rest h i rest /\ concat (buckets h) = seen ++ rest /\ j = length rest)) with (n := length (concat (buckets h))); [| |lia].
  - intros j [i seen] h' (-> & rest & Hr & E & ->). apply wp_bind. eapply wp_hash_next; [done|done|exact Hr|]. intros i' Hi'. apply wp_ret. unfold hash_cur.
    destruct rest as [|e rest]; [rewrite Hi'; cbn; by rewrite E, app_nil_r in HQ|]. destruct Hi' as [-> Hr'].
    assert (nonnull e = true) as -> by (apply nonnull_true, Hnn; rewrite E; apply elem_of_app; right; by left).
    exists (length rest). split; [cbn; lia|]. split; [done|]. exists rest. rewrite <-app_assoc. done.
  - split; [done|]. destruct (lookup_lt_is_Some_2 (buckets h) 0) as [l Hl]; [lia|]. exists (concat (buckets h)). split_and!; [|done|done].
    pose proof (rest_head h 0 l Hl) as Hr. assert (concat (buckets h) = l ++ concat (drop 1 (buckets h))) as ->; [|done].
    rewrite <-(drop_0 (buckets h)) at 1. by rewrite (drop_S _ _ _ Hl).
Qed.
End Iteration.

(** * Sample hash functions *)

Definition fnv (hash : Z) (bs : list Z) : Z := foldl (fun hash c => Z.lxor (u32 (hash * FNV_32_PRIME)) c) hash bs.

Lemma wp_fnv_up m bs : forall hash a (Q : Z -> mem -> Prop), bytes_at m a bs -> Q (fnv hash bs) m -> wp (fnv_up hash (length bs) a) m Q.
Proof.
  induction bs as [|c bs IH]; intros hash a Q Hb HQ; cbn [length fnv_up]; [by apply wp_ret|]. destruct Hb as [Hc Hb].
  apply wp_bind. eapply wp_load8; [exact Hc|]. by apply IH.
Qed.

Lemma wp_hash_bytes m a bs (Q : Z -> mem -> Prop) :
  a ≠ NULL -> bytes_at m a bs -> Q (fnv FNV_32_BASIS bs) m -> wp (hash_bytes a (length bs)) m Q.
Proof. intros Ha Hb HQ. apply wp_bind, wp_assert; [by apply nonnull_true|]. by apply wp_fnv_up. Qed.

Lemma wp_hash_string m a s (Q : Z -> mem -> Prop) : cstr m a s -> Q (fnv FNV_32_BASIS s) m -> wp (hash_string a) m Q.
Proof.
  intros Hs HQ. apply wp_bind, wp_assert; [apply nonnull_pos; by eapply cstr_pos|]. apply wp_bind, wp_mem_fuel.
  pose proof (cstr_size _ _ _ Hs) as Hf. revert Hf HQ. generalize (size m) as fuel, FNV_32_BASIS as hash. revert a Hs.
  induction s as [|c s IH]; intros a Hs fuel hash Hf HQ; apply wp_loop_S, wp_bind; (eapply wp_load8; [by apply cstr_hd|]); apply wp_ret; cbn [hd].
  - exact HQ.
  - rewrite (cstr_char _ _ _ _ Hs). cbn [negb]. apply cstr_cons in Hs as (_ & _ & _ & _ & Hs). destruct fuel as [|fuel]; [cbn in Hf; lia|].
    apply IH; [done|cbn in Hf; lia|exact HQ].
Qed.

Lemma fnv_range bs : Forall byte bs -> forall r, 0 <= r < 2 ^ 32 -> 0 <= fnv r bs < 2 ^ 32.
Proof.
  induction 1 as [|c bs Hb _ IH]; intros r Hr; [exact Hr|].
  cbn [fnv foldl]. apply IH. assert (0 <= u32 (r * FNV_32_PRIME) < 2 ^ 32) as Hu by (unfold u32; apply Z.mod_pos_bound; lia).
  set (x := u32 _) in *. unfold byte in Hb. pose proof (proj2 (Z.lxor_nonneg x c) ltac:(lia)). split; [done|]. destruct (decide (Z.lxor x c = 0)) as [->|Hn]; [lia|].
  apply Z.log2_lt_pow2; [lia|]. pose proof (Z.log2_lxor x c ltac:(lia) ltac:(lia)).
  pose proof (Z.log2_le_mono x (2 ^ 32 - 1) ltac:(lia)). pose proof (Z.log2_le_mono c (2 ^ 32 - 1) ltac:(lia)). change (Z.log2 (2 ^ 32 - 1)) with 31 in *. lia.
Qed.

(** [hash_string] of a string is [hash_bytes] of its characters, and fits 32 bits. *)
Lemma hash_string_bytes m a s :
  cstr m a s ->
  exists r, hash_string a m = Ok (r, m) /\ hash_bytes a (length s) m = Ok (r, m) /\ 0 <= r < 2 ^ 32.
Proof.
  intros Hs. exists (fnv FNV_32_BASIS s). pose proof Hs as (Hp & Hb & Hc). split_and!.
  - assert (wp (hash_string a) m (fun r m' => r = fnv FNV_32_BASIS s /\ m' = m)) as H by (by eapply wp_hash_string).
    apply wp_unfold in H as (r & m' & -> & -> & ->). done.
  - apply bytes_at_app in Hb as [Hb _].
    assert (wp (hash_bytes a (length s)) m (fun r m' => r = fnv FNV_32_BASIS s /\ m' = m)) as H by (eapply wp_hash_bytes; [unfold NULL; lia|done|done]).
    apply wp_unfold in H as (r & m' & -> & -> & ->). done.
  - apply fnv_range; [|done]. eapply Forall_impl; [exact Hc|]. by intros ? [].
  - apply fnv_range; [|done]. eapply Forall_impl; [exact Hc|]. by intros ? [].
Qed.

(** * Results *)

Lemma wp_record l : forall x (Q : unit -> list Z -> Prop), Q tt (x ++ l) -> wp (act_all record_elem l) x Q.
Proof.
  induction l as [|e l IH]; intros x Q HQ; cbn [act_all]; [apply wp_ret; by rewrite app_nil_r in HQ|].
  apply wp_bind, wp_bind, wp_get, wp_put, IH. by rewrite <-app_assoc.
Qed.

(** C15: with any functions of the client that agree on equality, a hash table is a finite
    map: whatever sequence of insertions, replacements, searches, deletions and size
    queries it gets, and whether or not memory for larger tables is available, the
    answers are those of the map.  An iterator then gives every element once,
    [hash_destroy] calls the destructor once for every element, and the buckets are freed. *)
Theorem hash_implements_map hashf less mallocs {K : Type} `{Countable K} (key : Z -> K) junk rs h0 :
  Hashing hashf less key -> length junk = 4%nat -> arrays h0 = 0%nat -> Forall request_ok rs -> Z.of_nat (length rs) < 2 ^ 32 ->
  wp (session hashf less mallocs junk rs) (h0, []) (fun r s' =>
    let '(answers, m) := on_map_all key rs ∅ in
    arrays s'.1 = 0%nat /\
    match r with
    | None => mallocs (calls h0) = false
    | Some (a, elems) => a = answers /\ elems ≡ₚ (map_to_list m).*2 /\ s'.2 = elems
    end).
Proof.
  intros Hg Hj Ha Hr Hn. unfold session. destruct (on_map_all key rs ∅) as [answers m] eqn:E. apply wp_bind, (wp_hash_init hashf mallocs key); [done|done| |].
  { intros Hm h' Ha'. by apply wp_ret. }
  intros h1 Hg1 Hc1 Hn1. apply wp_bind, wp_on_hash, (wp_perform_all hashf less mallocs key); [done|done|lia|]. rewrite Hc1, E. cbn [fst snd].
  intros h2 [Ho _] Hc2. pose proof (pl_len _ _ _ (ho_placed _ _ _ Ho)) as Hl. destruct (ho_pow _ _ _ Ho) as (p & Hp & Ep).
  apply wp_bind, wp_on_hash, wp_iterate; [done|rewrite Ep; apply Z.pow_pos_nonneg; lia|eapply NoDup_fmap_1, Ho|apply Ho|].
  apply wp_bind, wp_hash_destroy; [done|apply Ho|]. apply wp_record. intros h' Ha'. apply wp_ret. cbn [fst snd app]. split_and!; try done.
  rewrite <-Hc2. unfold contents, by_key. rewrite map_to_list_to_map by (rewrite fst_by_key; apply Ho). rewrite <-list_fmap_compose. by rewrite list_fmap_id.
Qed.

(** the table stays within four elements for each bucket on average, as long as memory
    is available. *)
Theorem hash_load_bounded hashf less mallocs {K : Type} `{Countable K} (key : Z -> K) h r :
  Hashing hashf less key -> (forall n, mallocs n = true) -> good hashf mallocs key h -> request_ok r -> elem_cnt h + 1 < 2 ^ 32 ->
  wp (perform hashf less mallocs r) h (fun _ h' => good hashf mallocs key h' /\ elem_cnt h' < 4 * bucket_cnt h').
Proof.
  intros Hg Hm Ho Hr Hn. apply (wp_perform hashf less mallocs key); [done..|]. intros h' [Ho' Hs'] _ _. split; [done|]. rewrite (Hs' Hm).
  apply best_load. rewrite (ho_cnt _ _ _ Ho'). lia.
Qed.

(** ** Witnesses *)

(** Elements by their address, one key for every eight addresses. *)
Definition demo_key (e : Z) : Z := e / 8.
Definition demo_hash (e : Z) : Z := u32 (demo_key e).
Definition demo_less (a b : Z) : bool := demo_key a <? demo_key b.

Lemma demo_hashing : Hashing demo_hash demo_less demo_key.
Proof.
  split.
  - intros e. unfold demo_hash, u32. apply Z.mod_pos_bound. lia.
  - intros a b. unfold demo_less. rewrite !Z.ltb_ge. lia.
  - intros a b E. unfold demo_hash. by rewrite E.
Qed.

Definition demo_requests : list request := [HInsert 64; HInsert 65; HFind 70; HReplace 66; HInsert 200; HDelete 64; HSize].

Lemma hash_implements_map_witness :
  wp (session demo_hash demo_less (fun _ => true) (replicate 4 [1]) demo_requests) (mk_hash 0 0 [] 0 0, []) (fun r s' =>
    let '(answers, m) := on_map_all demo_key demo_requests ∅ in
    arrays s'.1 = 0%nat /\
    match r with
    | None => true = false
    | Some (a, elems) => a = answers /\ elems ≡ₚ (map_to_list m).*2 /\ s'.2 = elems
    end).
Proof.
  apply (hash_implements_map demo_hash demo_less (fun _ => true) demo_key (replicate 4 [1]) demo_requests (mk_hash 0 0 [] 0 0));
    [exact demo_hashing|done|done|repeat constructor; done|done].
Defined.

Definition demo_table : hash := mk_hash 0 4 [[]; []; []; []] 1 0.

Lemma demo_table_good : good demo_hash (fun _ => true) demo_key demo_table.
Proof.
  split; [|by intros _]. split; try done; cbn [demo_table bucket_cnt buckets].
  - by exists 2.
  - split; [done|]. intros i l e Hi He. change (replicate 4 [] !! i = Some l) in Hi. apply lookup_replicate in Hi as [-> _]. by apply not_elem_of_nil in He.
  - intros e He. by apply not_elem_of_nil in He.
  - constructor.
Qed.

Lemma hash_load_bounded_witness :
  wp (perform demo_hash demo_less (fun _ => true) (HInsert 64)) demo_table (fun _ h' => good demo_hash (fun _ => true) demo_key h' /\ elem_cnt h' < 4 * bucket_cnt h').
Proof. apply (hash_load_bounded demo_hash demo_less (fun _ => true) demo_key demo_table (HInsert 64)); [exact demo_hashing|done|exact demo_table_good|done|done]. Defined.
