(* ===== verification/Arith64.v ===== *)
(** src/lib/arithmetic.c: 64-bit division from 32-bit instructions.

    The quotients are those of the integers for all arguments that fit their types; the
    remainders are cut to 32 bits. *)
From stdpp Require Import base numbers.
From Stdlib Require Import ZArith Lia.
From S2P Require Import Prelude.

Open Scope Z_scope.

(** * Operations *)

(** The instruction traps when the quotient does not fit. *)
Definition divl (n d : Z) : res Z :=
  if (d =? 0) || (2 ^ 32 <=? n / d) then Err Fault else Ok (n / d).

Definition nlz (x : Z) : Z :=
  let '(n, x) := (0, x) in
  let '(n, x) := if x <=? 0x0000FFFF then (n + 16, u32 (Z.shiftl x 16)) else (n, x) in
  let '(n, x) := if x <=? 0x00FFFFFF then (n + 8, u32 (Z.shiftl x 8)) else (n, x) in
  let '(n, x) := if x <=? 0x0FFFFFFF then (n + 4, u32 (Z.shiftl x 4)) else (n, x) in
  let '(n, x) := if x <=? 0x3FFFFFFF then (n + 2, u32 (Z.shiftl x 2)) else (n, x) in
  if x <=? 0x7FFFFFFF then n + 1 else n.

Definition udiv64 (n d : Z) : res Z :=
  if Z.shiftr d 32 =? 0 then
    let b := 2 ^ 32 in
    let n1 := u32 (Z.shiftr n 32) in
    let n0 := u32 n in
    let d0 := u32 d in
    if d0 =? 0 then Err Fault
    else q ← divl (u64 (b * (n1 mod d0) + n0)) d0; Ok (u64 (q + b * (n1 / d0)))
  else if n <? d then Ok 0
  else
    let d1 := u32 (Z.shiftr d 32) in
    let s := nlz d1 in
    q ← divl (Z.shiftr n 1) (u32 (Z.shiftr (u64 (Z.shiftl d s)) 32));
    let q := Z.shiftr q (31 - s) in
    Ok (if u64 (n - (q - 1) * d) <? d then u64 (q - 1) else q).

Definition umod64 (n d : Z) : res Z := q ← udiv64 n d; Ok (u32 (u64 (n - d * q))).

Definition sdiv64 (n d : Z) : res Z :=
  let n_abs := if 0 <=? n then n else u64 (- n) in
  let d_abs := if 0 <=? d then d else u64 (- d) in
  q_abs ← udiv64 n_abs d_abs;
  Ok (if eqb (n <? 0) (d <? 0) then s64 q_abs else s64 (- s64 q_abs)).

Definition smod64 (n d : Z) : res Z := q ← sdiv64 n d; Ok (s32 (s64 (n - d * q))).

(** The routines that the compiler calls. *)
Definition divdi3 (n d : Z) : res Z := sdiv64 n d.
Definition moddi3 (n d : Z) : res Z := smod64 n d.
Definition udivdi3 (n d : Z) : res Z := udiv64 n d.
Definition umoddi3 (n d : Z) : res Z := umod64 n d.

(** * Correctness *)

Lemma nlz_spec x : 0 < x < 2 ^ 32 -> 0 <= nlz x <= 31 /\ 2 ^ 31 <= x * 2 ^ nlz x < 2 ^ 32.
Proof.
  intros Hx. unfold nlz, u32.
  repeat match goal with
  | |- context [?y <=? ?c] =>
    lazymatch y with context [if _ then _ else _] => fail | _ => idtac end;
    destruct (Z.leb_spec y c); cbn [fst snd]; rewrite ?Z.shiftl_mul_pow2 in * by lia; rewrite ?Z.mod_small in * by lia
  end; lia.
Qed.

Lemma divl_ok n d : 0 < d -> 0 <= n -> n < 2 ^ 32 * d -> divl n d = Ok (n / d).
Proof.
  intros Hd Hn Hq. unfold divl. rewrite (proj2 (Z.eqb_neq d 0)) by lia. rewrite (proj2 (Z.leb_gt _ _)); [done|]. apply Z.div_lt_upper_bound; lia.
Qed.

(** The quotient by a divisor of at most 32 bits. *)
Lemma udiv64_short n d : 0 <= n < 2 ^ 64 -> 0 < d < 2 ^ 32 -> udiv64 n d = Ok (n / d).
Proof.
  intros Hn Hd. unfold udiv64, u32, u64. rewrite (Z.shiftr_div_pow2 d) by lia. rewrite Z.div_small, Z.eqb_refl by lia.
  rewrite Z.shiftr_div_pow2 by lia. rewrite (Z.mod_small (n / 2 ^ 32)) by (Z.to_euclidean_division_equations; lia). rewrite (Z.mod_small d) by lia.
  rewrite (proj2 (Z.eqb_neq d 0)) by lia. set (n1 := n / 2 ^ 32). set (n0 := n mod 2 ^ 32).
  assert (n = 2 ^ 32 * n1 + n0) as En by (apply Z.div_mod; lia). assert (0 <= n0 < 2 ^ 32) as H0 by (apply Z.mod_pos_bound; lia).
  pose proof (Z.div_mod n1 d ltac:(lia)) as E1. pose proof (Z.mod_pos_bound n1 d ltac:(lia)) as H1. set (r := n1 mod d) in *. set (t := n1 / d) in *.
  assert (0 <= n1 < 2 ^ 32) as Hn1 by (unfold n1; Z.to_euclidean_division_equations; lia).
  assert (0 <= 2 ^ 32 * r + n0 < 2 ^ 32 * d) as Hr by nia. rewrite (Z.mod_small (2 ^ 32 * r + n0)) by nia.
  rewrite divl_ok by lia. cbn [mbind res_bind]. f_equal.
  assert (n / d = (2 ^ 32 * r + n0) / d + 2 ^ 32 * t) as Eq by (rewrite <-Z.div_add by lia; f_equal; lia).
  rewrite <-Eq. apply Z.mod_small. split; [apply Z.div_pos; lia|]. apply Z.div_lt_upper_bound; nia.
Qed.

(** The quotient by a larger divisor, from the leading 32 bits of it. *)
Lemma estimate n d v t x :
  0 <= n < 2 ^ 64 -> 1 <= x <= 32 -> d = v * 2 ^ x + t -> 0 <= t < 2 ^ x -> 2 ^ 31 <= v < 2 ^ 32 -> d <= n ->
  n / d <= n / (v * 2 ^ x) <= n / d + 1.
Proof.
  intros Hn Hx -> Ht Hv Hle. set (D := v * 2 ^ x). set (d := D + t) in *. pose proof (Z.pow_pos_nonneg 2 x ltac:(lia) ltac:(lia)) as Hp.
  assert (2 ^ 31 * 2 ^ x <= D) as HD by (unfold D; nia).
  assert (0 < d) as Hd by (unfold d; lia). pose proof (Z.div_mod n d ltac:(lia)) as E. pose proof (Z.mod_pos_bound n d Hd) as Hm. set (Q := n / d) in *.
  assert (1 <= Q) as HQ1 by (apply Z.div_le_lower_bound; lia). split; [apply Z.div_le_compat_l; lia|].
  assert ((Q + 1) * t <= D) as Hkey; [|apply Z.lt_succ_r, Z.div_lt_upper_bound; unfold d in *; nia].
  assert (Q * (2 ^ 31 * 2 ^ x) < 2 ^ 64) as HQ by nia.
  destruct (decide (x = 1)) as [->|Hx1]; [change (2 ^ 1) with 2 in *; nia|].
  assert (4 <= 2 ^ x) as H4 by (change 4 with (2 ^ 2); apply Z.pow_le_mono_r; lia).
  assert (Q * 2 ^ x < 2 ^ 33) as HQ2 by nia. assert (Q + 1 <= 2 ^ (33 - x)) as HQ3.
  { assert (2 ^ 33 = 2 ^ (33 - x) * 2 ^ x) as E33 by (rewrite <-Z.pow_add_r by lia; f_equal; lia). rewrite E33 in HQ2. nia. }
  assert (2 ^ (33 - x) * 2 ^ x = 2 ^ 33) as E33 by (rewrite <-Z.pow_add_r by lia; f_equal; lia). nia.
Qed.

Lemma udiv64_long n d : 0 <= n < 2 ^ 64 -> 2 ^ 32 <= d < 2 ^ 64 -> udiv64 n d = Ok (n / d).
Proof.
  intros Hn Hd. unfold udiv64. rewrite !(Z.shiftr_div_pow2 d) by lia. assert (0 < d / 2 ^ 32 < 2 ^ 32) as Hd1 by (Z.to_euclidean_division_equations; lia).
  rewrite (proj2 (Z.eqb_neq _ _)) by lia. destruct (Z.ltb_spec n d) as [Hlt|Hge]; [by rewrite Z.div_small by lia|].
  assert (u32 (d / 2 ^ 32) = d / 2 ^ 32) as -> by (apply Z.mod_small; lia). destruct (nlz_spec (d / 2 ^ 32) Hd1) as [Hs Hb]. set (s := nlz _) in *. cbv zeta.
  pose proof (Z.pow_pos_nonneg 2 s ltac:(lia) ltac:(lia)) as Hps. pose proof (Z.div_mod d (2 ^ 32) ltac:(lia)) as Ed. pose proof (Z.mod_pos_bound d (2 ^ 32) ltac:(lia)) as Hr.
  assert (2 ^ 63 <= d * 2 ^ s < 2 ^ 64) as Hds.
  { set (d1 := d / 2 ^ 32) in *. assert (2 ^ (32 - s) * 2 ^ s = 2 ^ 32) as E32 by (rewrite <-Z.pow_add_r by lia; f_equal; lia).
    assert (d1 + 1 <= 2 ^ (32 - s)) as H1 by nia. clearbody d1. split; [nia|]. assert ((d1 + 1) * 2 ^ s <= 2 ^ 32) by nia. nia. }
  rewrite (Z.shiftl_mul_pow2 d), (Z.shiftr_div_pow2 n), (Z.shiftr_div_pow2 (u64 _)) by lia. unfold u64, u32. rewrite (Z.mod_small (d * 2 ^ s)) by lia.
  assert (2 ^ 31 <= d * 2 ^ s / 2 ^ 32 < 2 ^ 32) as Hv by (split; [apply Z.div_le_lower_bound|apply Z.div_lt_upper_bound]; lia). rewrite (Z.mod_small (_ / 2 ^ 32)) by lia.
  set (v := d * 2 ^ s / 2 ^ 32) in *. rewrite divl_ok by (Z.to_euclidean_division_equations; nia). cbn [mbind res_bind]. rewrite Z.shiftr_div_pow2 by lia.
  assert (d * 2 ^ s / 2 ^ 32 = d / 2 ^ (32 - s)) as Ev.
  { replace (2 ^ 32) with (2 ^ (32 - s) * 2 ^ s) by (rewrite <-Z.pow_add_r by lia; f_equal; lia). apply Z.div_mul_cancel_r; [apply Z.pow_nonzero; lia|lia]. }
  fold v in Ev. pose proof (Z.pow_pos_nonneg 2 (32 - s) ltac:(lia) ltac:(lia)) as Hpx.
  assert (n / 2 ^ 1 / v / 2 ^ (31 - s) = n / (v * 2 ^ (32 - s))) as ->.
  { rewrite !Z.div_div by (try apply Z.pow_nonzero; lia). f_equal. replace (32 - s) with (1 + (31 - s)) by lia. rewrite Z.pow_add_r by lia. ring. }
  pose proof (estimate n d v (d mod 2 ^ (32 - s)) (32 - s) Hn ltac:(lia)) as He. rewrite Ev in He at 1.
  specialize (He ltac:(rewrite Z.mul_comm; apply Z.div_mod; lia) ltac:(apply Z.mod_pos_bound; lia) Hv Hge).
  set (q := n / (v * 2 ^ (32 - s))) in *. pose proof (Z.div_mod n d ltac:(lia)) as E. pose proof (Z.mod_pos_bound n d ltac:(lia)) as Hm.
  assert (1 <= n / d) as HQ1 by (apply Z.div_le_lower_bound; lia). assert (n / d < 2 ^ 33) as HQ2 by (apply Z.div_lt_upper_bound; lia). set (Q := n / d) in *.
  assert (q = Q \/ q = Q + 1) as [Eq|Eq] by lia; rewrite Eq.
  - assert (n - (Q - 1) * d = n mod d + d) as -> by lia. f_equal. destruct (Z.ltb_spec ((n mod d + d) mod 2 ^ 64) d) as [Hl|Hl]; [|done]. exfalso.
    rewrite Z.mod_small in Hl by nia. lia.
  - assert (n - (Q + 1 - 1) * d = n mod d) as -> by lia. rewrite (Z.mod_small (n mod d)) by lia. rewrite (proj2 (Z.ltb_lt _ _)) by lia. f_equal.
    rewrite Z.mod_small by lia. lia.
Qed.

Lemma udiv64_eq n d : 0 <= n < 2 ^ 64 -> 0 < d < 2 ^ 64 -> udiv64 n d = Ok (n / d).
Proof. intros Hn Hd. destruct (Z.lt_ge_cases d (2 ^ 32)); [apply udiv64_short|apply udiv64_long]; lia. Qed.

Lemma abs64 z : - 2 ^ 63 <= z < 2 ^ 63 -> (if 0 <=? z then z else u64 (- z)) = Z.abs z /\ 0 <= Z.abs z < 2 ^ 64.
Proof. intros Hz. destruct (Z.leb_spec 0 z); [lia|]. unfold u64. rewrite Z.mod_small by lia. lia. Qed.

(** The quotient of the signed integers, rounded towards zero; only that of -2{^63} by -1
    does not fit. *)
Theorem sdiv64_correct n d :
  - 2 ^ 63 <= n < 2 ^ 63 -> - 2 ^ 63 <= d < 2 ^ 63 -> d ≠ 0 -> divdi3 n d = Ok (s64 (Z.quot n d)).
Proof.
  intros Hn Hd Hz. unfold divdi3, sdiv64. destruct (abs64 n Hn) as [-> Hna], (abs64 d Hd) as [-> Hda].
  rewrite udiv64_eq by lia. cbn [mbind res_bind]. f_equal. assert (0 <= Z.abs n / Z.abs d <= 2 ^ 63) as Hq.
  { split; [apply Z.div_pos; lia|]. apply Z.div_le_upper_bound; nia. }
  assert (Z.quot n d = Z.sgn n * Z.sgn d * (Z.abs n / Z.abs d)) as -> by (rewrite Z.quot_div by done; ring).
  set (q := Z.abs n / Z.abs d) in *. destruct (decide (n = 0)) as [->|Hn0]; [assert (q = 0) as -> by (apply Z.div_0_l; lia); by destruct (eqb _ _)|].
  destruct (Z.ltb_spec n 0), (Z.ltb_spec d 0); cbn [eqb];
    rewrite ?(Z.sgn_neg n), ?(Z.sgn_pos n), ?(Z.sgn_neg d), ?(Z.sgn_pos d) by lia.
  - f_equal. lia.
  - destruct (decide (q = 2 ^ 63)) as [->|]; [done|]. rewrite (s64_small q) by lia. by f_equal; lia.
  - destruct (decide (q = 2 ^ 63)) as [->|]; [done|]. rewrite (s64_small q) by lia. by f_equal; lia.
  - f_equal. lia.
Qed.

(** the quotient of two unsigned 64-bit integers, computed with 32-bit divisions, is
    exact for all of them, and none of the divisions traps. *)
Theorem udiv64_correct n d : 0 <= n < 2 ^ 64 -> 0 < d < 2 ^ 64 -> udivdi3 n d = Ok (n / d).
Proof. exact (udiv64_eq n d). Qed.

(** the remainder of two unsigned 64-bit integers is right exactly when it fits 32 bits. *)
Theorem umod64_truncates n d :
  0 <= n < 2 ^ 64 -> 0 < d < 2 ^ 64 -> umoddi3 n d = Ok (n mod d mod 2 ^ 32) /\ (umoddi3 n d = Ok (n mod d) <-> n mod d < 2 ^ 32).
Proof.
  intros Hn Hd. pose proof (Z.mod_pos_bound n d ltac:(lia)) as Hm. assert (umoddi3 n d = Ok (n mod d mod 2 ^ 32)) as E.
  { unfold umoddi3, umod64. rewrite udiv64_eq by done. cbn [mbind res_bind]. f_equal.
    rewrite <-Z.mod_eq by lia. unfold u64. rewrite (Z.mod_small (n mod d) (2 ^ 64)) by lia. done. }
  split; [done|]. rewrite E. split; [intros [= H]|intros H; by rewrite Z.mod_small by lia].
  rewrite <-H. apply Z.mod_pos_bound. lia.
Qed.

Lemma udiv64_correct_witness : udivdi3 0xfffffffffffffffe 0x123456789 = Ok (0xfffffffffffffffe / 0x123456789).
Proof. apply (udiv64_correct 0xfffffffffffffffe 0x123456789); lia. Defined.

Lemma umod64_truncates_witness :
  umoddi3 0x100000000 0x200000000 = Ok (0x100000000 mod 0x200000000 mod 2 ^ 32) /\
  (umoddi3 0x100000000 0x200000000 = Ok (0x100000000 mod 0x200000000) <-> 0x100000000 mod 0x200000000 < 2 ^ 32).
Proof. apply (umod64_truncates 0x100000000 0x200000000); lia. Defined.
