(* ===== verification/CStdlib.v ===== *)
(** src/lib/stdlib.c: numbers from text, heap sort and binary search.

    [sort] works on any array in memory with any function of the client that orders the
    elements: it terminates with a sorted permutation and touches nothing else.
    [binary_search] finds an element equal to the key exactly if there is one. *)
From stdpp Require Import base list numbers gmap fin_maps.
From Stdlib Require Import ZArith Lia.
From S2P Require Import Prelude Strings.

Open Scope Z_scope.

(** * Characters (lib/ctype.h) *)

Definition islower (c : Z) : bool := (97 <=? c) && (c <=? 122).
Definition isupper (c : Z) : bool := (65 <=? c) && (c <=? 90).
Definition isalpha (c : Z) : bool := islower c || isupper c.
Definition isdigit (c : Z) : bool := (48 <=? c) && (c <=? 57).
Definition isspace (c : Z) : bool := (c =? 32) || (c =? 12) || (c =? 10) || (c =? 13) || (c =? 9) || (c =? 11).
Definition isprint (c : Z) : bool := (32 <=? c) && (c <? 127).

(** A byte as a [char], which is signed. *)
Definition schar (c : Z) : Z := if c <? 128 then c else c - 256.

(** * Operations *)

Definition atoi (s : Z) : M mem Z :=
  ASSERT (nonnull s);;
  fuel ← mem_fuel;
  s ← loop fuel (fun s => c ← load8 s; mret (if isspace c then inl (s + 1) else inr s)) s;
  c ← load8 s;
  let '(negative, s) := if c =? 43 then (false, s + 1) else if c =? 45 then (true, s + 1) else (false, s) in
  value ← loop fuel (fun '(s, value) =>
    c ← load8 s;
    mret (if isdigit (schar c) then inl (s + 1, s32 (value * 10 - (c - 48))) else inr value)) (s, 0);
  mret (if negative then value else s32 (- value)).

Definition do_swap (array a_idx b_idx size : Z) : M mem unit :=
  let a := array + (a_idx - 1) * size in
  let b := array + (b_idx - 1) * size in
  loop (S (Z.to_nat size)) (fun i =>
    if i <? size then
      t ← load8 (a + i);
      x ← load8 (b + i);
      store8 (a + i) x;;
      store8 (b + i) t;;
      mret (inl (i + 1))
    else mret (inr tt)) 0.

Section Compare.
(** The function of the client, on addresses; its auxiliary data is part of it. *)
Context (compare : Z -> Z -> M mem Z).

Definition do_compare (array a_idx b_idx size : Z) : M mem Z :=
  compare (array + (a_idx - 1) * size) (array + (b_idx - 1) * size).

Definition heapify (array i cnt size : Z) : M mem unit :=
  loop (S (Z.to_nat cnt)) (fun i =>
    let left := u32 (2 * i) in
    let right := u32 (2 * i + 1) in
    let max := i in
    max ← (if left <=? cnt then c ← do_compare array left max size; mret (if 0 <? c then left else max) else mret max);
    max ← (if right <=? cnt then c ← do_compare array right max size; mret (if 0 <? c then right else max) else mret max);
    if max =? i then mret (inr tt)
    else do_swap array i max size;; mret (inl max)) i.

Definition binary_search (key array cnt size : Z) : M mem Z :=
  loop (S (Z.to_nat cnt)) (fun '(first, last) =>
    if first <? last then
      let range := (last - first) / size in
      let middle := first + range / 2 * size in
      cmp ← compare key middle;
      mret (if cmp <? 0 then inl (first, middle)
            else if 0 <? cmp then inl (middle + size, last)
            else inr middle)
    else mret (inr NULL)) (array, array + size * cnt).
End Compare.

Definition sort (array cnt size : Z) (compare : option (Z -> Z -> M mem Z)) : M mem unit :=
  ASSERT (nonnull array || (cnt =? 0));;
  match compare with
  | None => mfail Panic
  | Some compare =>
    ASSERT (0 <? size);;
    loop (S (Z.to_nat (cnt / 2))) (fun i =>
      if 0 <? i then heapify compare array i cnt size;; mret (inl (i - 1)) else mret (inr tt)) (cnt / 2);;
    loop (S (Z.to_nat cnt)) (fun i =>
      if 1 <? i then
        do_swap array 1 i size;;
        heapify compare array 1 (i - 1) size;;
        mret (inl (i - 1))
      else mret (inr tt)) cnt
  end.

(** The standard functions, whose comparison has no auxiliary data. *)
Definition qsort (array cnt size : Z) (compare : Z -> Z -> M mem Z) : M mem unit := sort array cnt size (Some compare).
Definition bsearch (key array cnt size : Z) (compare : Z -> Z -> M mem Z) : M mem Z := binary_search compare key array cnt size.

(** * Arrays *)

Section Arrays.
Context (size : Z).
Implicit Types (m : mem) (l : list (list Z)).

Record arr m (a : Z) l : Prop := {
  ar_size : 0 < size;
  ar_rows : Forall (fun x => Z.of_nat (length x) = size /\ Forall byte x) l;
  ar_bytes : forall k x, l !! k = Some x -> bytes_at m (a + Z.of_nat k * size) x
}.

(** The element with 1-based index [k]. *)
Definition el l (k : Z) : list Z := l !!! Z.to_nat (k - 1).

Lemma el_lookup l k : 1 <= k <= Z.of_nat (length l) -> l !! Z.to_nat (k - 1) = Some (el l k).
Proof. intros Hk. unfold el. apply list_lookup_lookup_total_lt. lia. Qed.

Lemma arr_el m a l k : arr m a l -> 1 <= k <= Z.of_nat (length l) ->
  bytes_at m (a + (k - 1) * size) (el l k) /\ Z.of_nat (length (el l k)) = size /\ Forall byte (el l k).
Proof.
  intros H Hk. pose proof (el_lookup l k Hk) as E. split.
  - pose proof (ar_bytes _ _ _ H _ _ E) as Hb. by rewrite Z2Nat.id in Hb by lia.
  - exact (Forall_lookup_1 _ _ _ _ (ar_rows _ _ _ H) E).
Qed.

(** Two elements exchanged. *)
Definition swp l (i j : Z) : list (list Z) := <[Z.to_nat (i - 1) := el l j]> (<[Z.to_nat (j - 1) := el l i]> l).

Lemma length_swp l i j : length (swp l i j) = length l.
Proof. unfold swp. by rewrite !length_insert. Qed.

Lemma el_swp l i j k : 1 <= i <= Z.of_nat (length l) -> 1 <= j <= Z.of_nat (length l) -> 1 <= k ->
  el (swp l i j) k = if decide (k = i) then el l j else if decide (k = j) then el l i else el l k.
Proof.
  intros Hi Hj Hk. unfold el at 1, swp. destruct (decide (k = i)) as [->|Hki].
  - rewrite list_lookup_total_insert_eq; [done|]. rewrite length_insert. lia.
  - rewrite list_lookup_total_insert_ne by lia. destruct (decide (k = j)) as [->|Hkj].
    + rewrite list_lookup_total_insert_eq; [done|]. lia.
    + rewrite list_lookup_total_insert_ne by lia. done.
Qed.

Lemma swp_perm l i j : 1 <= i <= Z.of_nat (length l) -> 1 <= j <= Z.of_nat (length l) -> swp l i j ≡ₚ l.
Proof.
  intros Hi Hj. assert (forall (l : list (list Z)) p x, (p < length l)%nat -> x :: l ≡ₚ (l !!! p) :: <[p := x]> l) as Hx.
  { clear. intros l p x Hp. rewrite <-(take_drop_middle l p (l !!! p)) at 1 by (by apply list_lookup_lookup_total_lt).
    rewrite insert_take_drop by done. rewrite <-!Permutation_middle. apply perm_swap. }
  unfold swp. set (x := el l i). set (y := el l j). set (l1 := <[Z.to_nat (j - 1) := x]> l).
  apply (Permutation_cons_inv (a := y)). symmetry. pose proof (Hx l (Z.to_nat (j - 1)) x ltac:(lia)) as P1. fold l1 in P1. change (l !!! Z.to_nat (j - 1)) with y in P1.
  pose proof (Hx l1 (Z.to_nat (i - 1)) y ltac:(unfold l1; rewrite length_insert; lia)) as P2.
  assert (l1 !!! Z.to_nat (i - 1) = x) as Ex.
  { unfold l1. destruct (decide (i = j)) as [->|Hne]; [rewrite list_lookup_total_insert_eq; [done|lia]|by rewrite list_lookup_total_insert_ne by lia]. }
  rewrite Ex in P2. apply (Permutation_cons_inv (a := x)). rewrite perm_swap. rewrite P1. rewrite P2. apply perm_swap.
Qed.

(** Rows do not overlap. *)
Lemma rows_apart i j : 0 < size -> i ≠ j -> i * size + size <= j * size \/ j * size + size <= i * size.
Proof. nia. Qed.

Lemma arr_swap m a l i j : arr m a l -> 1 <= i <= Z.of_nat (length l) -> 1 <= j <= Z.of_nat (length l) -> i ≠ j ->
  arr (put (put m (a + (i - 1) * size) (el l j)) (a + (j - 1) * size) (el l i)) a (swp l i j).
Proof.
  intros Ha Hi Hj Hne. destruct (arr_el _ _ _ _ Ha Hi) as (Bi & Li & _), (arr_el _ _ _ _ Ha Hj) as (Bj & Lj & _). pose proof (ar_size _ _ _ Ha) as Hs. split; [done| |].
  - rewrite swp_perm by done. apply Ha.
  - intros k x Hk. pose proof (lookup_lt_Some _ _ _ Hk) as Hlt. rewrite length_swp in Hlt.
    assert (x = el (swp l i j) (Z.of_nat k + 1)) as -> by (unfold el; replace (Z.to_nat (Z.of_nat k + 1 - 1)) with k by lia; by apply list_lookup_total_correct in Hk).
    rewrite el_swp by lia. destruct (decide (Z.of_nat k + 1 = i)) as [E|Hki]; [|destruct (decide (Z.of_nat k + 1 = j)) as [E|Hkj]].
    + replace (Z.of_nat k) with (i - 1) by lia. apply put_frame; [apply put_bytes|]. pose proof (rows_apart (i - 1) (j - 1) Hs). lia.
    + replace (Z.of_nat k) with (j - 1) by lia. apply put_bytes.
    + destruct (arr_el _ _ _ (Z.of_nat k + 1) Ha) as (Bk & Lk & _); [lia|]. replace (Z.of_nat k + 1 - 1) with (Z.of_nat k) in Bk by lia.
      pose proof (rows_apart (Z.of_nat k) (i - 1) Hs ltac:(lia)). pose proof (rows_apart (Z.of_nat k) (j - 1) Hs ltac:(lia)).
      apply put_frame; [apply put_frame; [done|]|]; lia.
Qed.

(** The swap of two blocks that do not overlap. *)
Lemma wp_swap_bytes m a b xs ys (Q : unit -> mem -> Prop) :
  bytes_at m a xs -> bytes_at m b ys -> Z.of_nat (length xs) = size -> length ys = length xs -> Forall byte xs -> Forall byte ys ->
  a + size <= b \/ b + size <= a -> Q tt (put (put m a ys) b xs) ->
  wp (loop (S (Z.to_nat size)) (fun i =>
    if i <? size then
      t ← load8 (a + i);
      x ← load8 (b + i);
      store8 (a + i) x;;
      store8 (b + i) t;;
      mret (inl (i + 1))
    else mret (inr tt)) 0) m Q.
Proof.
  intros Ha Hb Hl Hl' Bx By Hap HQ. set (st := fun i => put (put m a (take (Z.to_nat i) ys)) b (take (Z.to_nat i) xs)).
  eapply (wp_loop (fun n i m' => 0 <= i <= size /\ n = Z.to_nat (size - i) /\ m' = st i)) with (n := Z.to_nat size); [| |lia].
  - intros n i m' (Hi & -> & ->). destruct (Z.ltb_spec i size) as [Hlt|Hge].
    + destruct (lookup_lt_is_Some_2 xs (Z.to_nat i)) as [x Hx]; [lia|]. destruct (lookup_lt_is_Some_2 ys (Z.to_nat i)) as [y Hy]; [lia|].
      pose proof (proj1 (bytes_at_lookup _ _ _) Ha _ _ Hx) as Mx. pose proof (proj1 (bytes_at_lookup _ _ _) Hb _ _ Hy) as My. rewrite Z2Nat.id in Mx, My by lia.
      assert (forall c, c = a + i \/ c = b + i -> st i !! c = m !! c) as Hout.
      { intros c Hc. unfold st. rewrite !lookup_put, !length_take. rewrite !decide_False by lia. done. }
      apply wp_bind. eapply wp_load8; [rewrite Hout by auto; exact Mx|]. apply wp_bind. eapply wp_load8; [rewrite Hout by auto; exact My|].
      apply wp_bind, wp_store8; [rewrite Hout by auto; by rewrite Mx|]. apply wp_bind, wp_store8.
      { rewrite lookup_insert_ne by lia. rewrite Hout by auto. by rewrite My. }
      apply wp_ret. exists (Z.to_nat (size - (i + 1))). split; [lia|]. split_and!; [lia|lia|done|].
      rewrite (u8_byte x) by exact (Forall_lookup_1 _ _ _ _ Bx Hx). rewrite (u8_byte y) by exact (Forall_lookup_1 _ _ _ _ By Hy). unfold st. replace (Z.to_nat (i + 1)) with (S (Z.to_nat i)) by lia.
      rewrite (take_S_r _ _ _ Hx), (take_S_r _ _ _ Hy), !put_app. cbn [put]. rewrite !length_take, !Nat.min_l by lia. rewrite Z2Nat.id by lia.
      rewrite put_insert_comm; [done|]. rewrite length_take. lia.
    + apply wp_ret. unfold st. rewrite !take_ge by lia. exact HQ.
  - split_and!; [lia|lia|lia|]. done.
Qed.

(** What sorting may change: the array, in its first [n] elements, by a permutation. *)
Record moves m (a : Z) l (n : Z) m' l' : Prop := {
  mv_arr : arr m' a l';
  mv_perm : l' ≡ₚ l;
  mv_above : forall k, n < k <= Z.of_nat (length l) -> el l' k = el l k;
  mv_all : forall P : list Z -> Prop, (forall k, 1 <= k <= n -> P (el l k)) -> forall k, 1 <= k <= n -> P (el l' k);
  mv_frame : forall x, ~ a <= x < a + size * Z.of_nat (length l) -> m' !! x = m !! x
}.

Lemma moves_refl m a l n : arr m a l -> moves m a l n m l.
Proof. intros H. by split. Qed.

Lemma moves_length m a l n m' l' : moves m a l n m' l' -> length l' = length l.
Proof. intros H. apply Permutation_length, H. Qed.

Lemma moves_trans m a l n m1 l1 m2 l2 : moves m a l n m1 l1 -> moves m1 a l1 n m2 l2 -> moves m a l n m2 l2.
Proof.
  intros H1 H2. pose proof (moves_length _ _ _ _ _ _ H1) as E. split.
  - apply H2.
  - by rewrite (mv_perm _ _ _ _ _ _ H2), (mv_perm _ _ _ _ _ _ H1).
  - intros k Hk. rewrite (mv_above _ _ _ _ _ _ H2), (mv_above _ _ _ _ _ _ H1); [done|done|by rewrite E].
  - intros P HP. apply (mv_all _ _ _ _ _ _ H2), (mv_all _ _ _ _ _ _ H1), HP.
  - intros x Hx. rewrite (mv_frame _ _ _ _ _ _ H2), (mv_frame _ _ _ _ _ _ H1); [done|done|by rewrite E].
Qed.

Lemma moves_mono m a l n n' m' l' : moves m a l n m' l' -> n <= n' <= Z.of_nat (length l) -> moves m a l n' m' l'.
Proof.
  intros [H1 H2 H3 H4 H5] Hn. split; [done|done|intros k Hk; apply H3; lia| |done].
  intros P HP k Hk. destruct (decide (k <= n)); [apply (H4 P); [intros; apply HP; lia|lia]|]. rewrite H3 by lia. by apply HP.
Qed.

Lemma wp_do_swap m a l i j n (Q : unit -> mem -> Prop) :
  arr m a l -> 1 <= i <= n -> 1 <= j <= n -> i ≠ j -> n <= Z.of_nat (length l) ->
  (forall m', moves m a l n m' (swp l i j) -> Q tt m') -> wp (do_swap a i j size) m Q.
Proof.
  intros Ha Hi Hj Hne Hn HQ. destruct (arr_el _ _ _ i Ha) as (Bi & Li & Fi); [lia|]. destruct (arr_el _ _ _ j Ha) as (Bj & Lj & Fj); [lia|].
  pose proof (ar_size _ _ _ Ha) as Hs. pose proof (rows_apart (i - 1) (j - 1) Hs ltac:(lia)).
  unfold do_swap. cbv zeta. apply (wp_swap_bytes m _ _ (el l i) (el l j)); [done|done|done|lia|done|done|lia|]. apply HQ. split.
  - apply arr_swap; (done || lia).
  - apply swp_perm; lia.
  - intros k Hk. rewrite el_swp by lia. by rewrite !decide_False by lia.
  - intros P HP k Hk. rewrite el_swp by lia. repeat case_decide; apply HP; lia.
  - intros x Hx. rewrite !lookup_put. rewrite !decide_False; [done|nia|nia].
Qed.
End Arrays.

(** * Sorting *)

(** What a client's comparison has to be: it depends on the two elements only, changes
    nothing, and orders them. *)
Class Comparator (size : Z) (compare : Z -> Z -> M mem Z) (cmp : list Z -> list Z -> Z) : Prop := {
  cp_runs : forall m p q x y, Z.of_nat (length x) = size -> Z.of_nat (length y) = size -> bytes_at m p x -> bytes_at m q y ->
            compare p q m = Ok (cmp x y, m);
  cp_anti : forall x y, 0 < cmp x y <-> cmp y x < 0;
  cp_trans : forall x y z, cmp x y <= 0 -> cmp y z <= 0 -> cmp x z <= 0
}.

Section Sorting.
Context (size : Z) (compare : Z -> Z -> M mem Z) (cmp : list Z -> list Z -> Z) `{HC : !Comparator size compare cmp}.
Implicit Types (m : mem) (l : list (list Z)) (i k n : Z).

Definition le_el (x y : list Z) : Prop := cmp x y <= 0.

Lemma le_refl x : le_el x x.
Proof. unfold le_el. destruct (Z.le_gt_cases (cmp x x) 0) as [|H]; [done|]. pose proof (proj1 (@cp_anti _ _ _ HC x x) ltac:(lia)). lia. Qed.
Lemma le_total x y : cmp x y <= 0 \/ 0 < cmp x y /\ le_el y x.
Proof.
  unfold le_el. destruct (Z.le_gt_cases (cmp x y) 0) as [|Hgt]; [by left|right]. split; [lia|]. pose proof (proj1 (@cp_anti _ _ _ HC x y) ltac:(lia)). lia.
Qed.
Lemma le_trans x y z : le_el x y -> le_el y z -> le_el x z.
Proof. apply (@cp_trans _ _ _ HC). Qed.

(** Every element of the heap up to [n] is at most its parent, where the parent is at
    least [lo] and not [hole]; the children of [hole] are at most its parent. *)
Record heap_but l (lo n hole : Z) : Prop := {
  hb_le : forall k, 2 <= k <= n -> lo <= k / 2 -> k / 2 ≠ hole -> le_el (el l k) (el l (k / 2));
  hb_hole : forall k, 2 <= k <= n -> k / 2 = hole -> lo <= hole / 2 -> 1 <= hole / 2 -> le_el (el l k) (el l (hole / 2))
}.
Definition heap l (lo n : Z) : Prop := forall k, 2 <= k <= n -> lo <= k / 2 -> le_el (el l k) (el l (k / 2)).

(** The element in the hole moves down to a child [c] that is at least the other one. *)
Lemma heap_down l lo n i c :
  heap_but l lo n i -> 1 <= lo <= i -> n <= Z.of_nat (length l) -> 2 <= c <= n -> c / 2 = i ->
  le_el (el l i) (el l c) -> (forall k, 2 <= k <= n -> k / 2 = i -> le_el (el l k) (el l c)) ->
  heap_but (swp l i c) lo n c.
Proof.
  intros [H1 H2] Hlo Hn Hc Hci Hic Hmax. assert (i < c) as Hlt by (Z.to_euclidean_division_equations; lia). split.
  - intros k Hk Hklo Hkc. assert (1 <= k / 2 < k) as Hk2 by (Z.to_euclidean_division_equations; lia). rewrite !el_swp by lia.
    destruct (decide (k = i)) as [->|Hki].
    + rewrite (decide_False (P := i / 2 = i)), (decide_False (P := i / 2 = c)) by lia. apply H2; lia.
    + destruct (decide (k = c)) as [->|Hkc']; [rewrite decide_True by done; done|].
      destruct (decide (k / 2 = i)) as [E|E]; [by apply Hmax|]. rewrite decide_False by done. by apply H1.
  - intros k Hk E Hlo' _. assert (c < k) as Hck by (Z.to_euclidean_division_equations; lia). rewrite Hci in *. rewrite !el_swp by lia.
    rewrite !(decide_False (P := k = _)) by lia. rewrite (decide_True (P := i = i)) by done. rewrite <-E. apply H1; lia.
Qed.

Lemma wp_do_compare m a l i j (Q : Z -> mem -> Prop) :
  arr size m a l -> 1 <= i <= Z.of_nat (length l) -> 1 <= j <= Z.of_nat (length l) -> Q (cmp (el l i) (el l j)) m -> wp (do_compare compare a i j size) m Q.
Proof.
  intros Ha Hi Hj HQ. destruct (arr_el _ _ _ _ i Ha) as (Bi & Li & _), (arr_el _ _ _ _ j Ha) as (Bj & Lj & _); try done.
  unfold do_compare. eapply wp_ok; [|exact HQ]. by apply (@cp_runs _ _ _ HC).
Qed.

(** The larger of [b] and [k], if [k] is in the heap. *)
Lemma wp_pick m a l n k b (Q : Z -> mem -> Prop) :
  arr size m a l -> n <= Z.of_nat (length l) -> 1 <= b <= n -> 1 <= k ->
  (forall r, (r = b /\ (k <= n -> le_el (el l k) (el l b))) \/ (r = k /\ k <= n /\ le_el (el l b) (el l k)) -> Q r m) ->
  wp (if k <=? n then c ← do_compare compare a k b size; mret (if 0 <? c then k else b) else mret b) m Q.
Proof.
  intros Ha Hn Hb Hk HQ. destruct (Z.leb_spec k n) as [Hle|Hgt]; [|apply wp_ret, HQ; left; split; [done|lia]].
  apply wp_bind. eapply wp_do_compare; [done|lia|lia|]. apply wp_ret. destruct (le_total (el l k) (el l b)) as [Hc|[Hc Hc']].
  - rewrite (proj2 (Z.ltb_ge _ _)) by done. apply HQ. left. done.
  - rewrite (proj2 (Z.ltb_lt _ _)) by done. apply HQ. right. done.
Qed.

Lemma wp_heapify m a l lo i n (Q : unit -> mem -> Prop) :
  arr size m a l -> 1 <= lo <= i -> i <= n -> n <= Z.of_nat (length l) -> n < 2 ^ 31 -> heap_but l lo n i ->
  (forall m' l', moves size m a l n m' l' -> heap l' lo n -> Q tt m') -> wp (heapify compare a i n size) m Q.
Proof.
  intros Ha [Hlo Hli] Hi Hn Hmax Hh HQ. unfold heapify.
  eapply (wp_loop (fun j i m' => exists l', moves size m a l n m' l' /\ heap_but l' lo n i /\ lo <= i <= n /\ j = Z.to_nat (n - i))) with (n := Z.to_nat (n - i)); [| |lia].
  2: { exists l. split_and!; [by apply moves_refl|done|lia|lia|done]. }
  clear i Hli Hi Hh. rename Ha into Ha0. intros j i m1 (l1 & Hmv & Hh & Hi & ->). pose proof (mv_arr _ _ _ _ _ _ _ Hmv) as Ha. pose proof (moves_length _ _ _ _ _ _ _ Hmv) as Hlen.
  cbv zeta. assert (u32 (2 * i) = 2 * i) as -> by (apply Z.mod_small; lia). assert (u32 (2 * i + 1) = 2 * i + 1) as -> by (apply Z.mod_small; lia).
  apply wp_bind. eapply wp_pick; [done|lia|lia|lia|]. intros b Hb. assert (1 <= b <= n) as Hbn by lia.
  apply wp_bind. eapply wp_pick; [done|lia|done|lia|]. intros c Hc.
  assert (c = i /\ heap l1 lo n \/ c ≠ i /\ 2 <= c <= n /\ c / 2 = i /\ le_el (el l1 i) (el l1 c) /\ forall k, 2 <= k <= n -> k / 2 = i -> le_el (el l1 k) (el l1 c)) as [[-> Hheap]|(Hne & Hcn & Hci & Hic & Hall)].
  { assert (forall k, k / 2 = i -> k = 2 * i \/ k = 2 * i + 1) as Hch by (intros k Hk; Z.to_euclidean_division_equations; lia).
    assert (2 * i / 2 = i /\ (2 * i + 1) / 2 = i) as [D1 D2] by (split; Z.to_euclidean_division_equations; lia).
    destruct Hb as [[-> Hb]|(-> & Hb1 & Hb2)], Hc as [[-> Hc]|(-> & Hc1 & Hc2)].
    - left. split; [done|]. intros k Hk Hk2. destruct (decide (k / 2 = i)) as [E|E]; [|by apply Hh]. destruct (Hch k E) as [->| ->]; rewrite E; auto with lia.
    - right. split_and!; [lia|lia|lia|done|done|]. intros k Hk E. destruct (Hch k E) as [->| ->]; [|apply le_refl]. eapply le_trans; [apply Hb; lia|done].
    - right. split_and!; [lia|lia|lia|done|done|]. intros k Hk E. destruct (Hch k E) as [->| ->]; [apply le_refl|]. apply Hc. lia.
    - right. split_and!; [lia|lia|lia|done|by eapply le_trans|]. intros k Hk E. destruct (Hch k E) as [->| ->]; [done|apply le_refl]. }
  - rewrite Z.eqb_refl. apply wp_ret. by eapply HQ.
  - rewrite (proj2 (Z.eqb_neq c i)) by done. apply wp_bind. assert (i < c) as Hlt by (Z.to_euclidean_division_equations; lia).
    apply (wp_do_swap size m1 a l1 i c n); [done|lia|lia|lia|lia|]. intros m2 Hmv2. apply wp_ret. exists (Z.to_nat (n - c)). split; [lia|].
    exists (swp l1 i c). split_and!; [by eapply moves_trans| |lia|lia|done]. apply heap_down; [done|lia|lia|lia|done|done|done].
Qed.

(** The root of a heap is the largest. *)
Lemma heap_root l n k : heap l 1 n -> 1 <= k <= n -> le_el (el l k) (el l 1).
Proof.
  intros Hh Hk. assert (exists j, (Z.to_nat k < j)%nat) as [j Hj] by (exists (S (Z.to_nat k)); lia). revert k Hk Hj.
  induction j as [|j IH]; intros k Hk Hj; [lia|]. destruct (decide (k = 1)) as [->|Hne]; [apply le_refl|].
  assert (1 <= k / 2 < k) as Hk2 by (Z.to_euclidean_division_equations; lia). eapply le_trans; [apply Hh; lia|]. apply IH; lia.
Qed.

Definition sorted l : Prop := forall j k, 1 <= j <= k -> k <= Z.of_nat (length l) -> le_el (el l j) (el l k).

Lemma wp_build_heap m a l (Q : unit -> mem -> Prop) :
  arr size m a l -> Z.of_nat (length l) < 2 ^ 31 ->
  (forall m' l', moves size m a l (Z.of_nat (length l)) m' l' -> heap l' 1 (Z.of_nat (length l)) -> Q tt m') ->
  wp (loop (S (Z.to_nat (Z.of_nat (length l) / 2))) (fun i =>
      if 0 <? i then heapify compare a i (Z.of_nat (length l)) size;; mret (inl (i - 1)) else mret (inr tt)) (Z.of_nat (length l) / 2)) m Q.
Proof.
  intros Ha Hmax HQ. set (n := Z.of_nat (length l)) in *.
  eapply (wp_loop (fun j i m' => exists l', moves size m a l n m' l' /\ heap l' (i + 1) n /\ 0 <= i <= n / 2 /\ j = Z.to_nat i)) with (n := Z.to_nat (n / 2)); [| |lia].
  - intros j i m1 (l1 & Hmv & Hh & Hi & ->). destruct (Z.ltb_spec 0 i) as [Hpos|Hz].
    + pose proof (moves_length _ _ _ _ _ _ _ Hmv) as Hlen. apply wp_bind.
      apply (wp_heapify m1 a l1 i i n); [apply Hmv|lia|Z.to_euclidean_division_equations; lia|lia|done| |].
      * split; [intros k Hk Hk2 Hne; apply Hh; lia|]. intros k Hk E Hlo. Z.to_euclidean_division_equations. lia.
      * intros m2 l2 Hmv2 Hh2. apply wp_ret. exists (Z.to_nat (i - 1)). split; [lia|]. exists l2. split_and!; [by eapply moves_trans| |lia|lia|done].
        replace (i - 1 + 1) with i by lia. done.
    + apply wp_ret. eapply HQ; [done|]. by replace (i + 1) with 1 in Hh by lia.
  - exists l. split_and!; [by apply moves_refl| |Z.to_euclidean_division_equations; lia|lia|done]. intros k Hk Hk2. Z.to_euclidean_division_equations. lia.
Qed.

Lemma wp_sort m a l (Q : unit -> mem -> Prop) :
  arr size m a l -> a ≠ NULL -> Z.of_nat (length l) < 2 ^ 31 ->
  (forall m' l', moves size m a l (Z.of_nat (length l)) m' l' -> sorted l' -> Q tt m') ->
  wp (sort a (Z.of_nat (length l)) size (Some compare)) m Q.
Proof.
  intros Ha Hnn Hmax HQ. pose proof (ar_size _ _ _ _ Ha) as Hs. unfold sort. apply wp_bind, wp_assert; [by rewrite nonnull_true|].
  apply wp_bind, wp_assert; [by apply Z.ltb_lt|]. apply wp_bind, wp_build_heap; [done..|]. intros m0 l0 Hmv0 Hh0. set (n := Z.of_nat (length l)) in *.
  eapply (wp_loop (fun j i m' => exists l', moves size m a l n m' l' /\ 0 <= i <= n /\ j = Z.to_nat i /\ heap l' 1 i /\
    (forall j k, i < j -> j <= k <= n -> le_el (el l' j) (el l' k)) /\ (forall j k, 1 <= j <= i -> i < k <= n -> le_el (el l' j) (el l' k)))) with (n := Z.to_nat n); [| |lia].
  - intros j i m1 (l1 & Hmv & Hi & -> & Hh & Hs1 & Hs2). pose proof (moves_length _ _ _ _ _ _ _ Hmv) as Hlen. destruct (Z.ltb_spec 1 i) as [Hgt|Hle].
    + apply wp_bind, (wp_do_swap size m1 a l1 1 i n); [apply Hmv|lia|lia|lia|lia|]. intros m2 Hmv2. set (l2 := swp l1 1 i) in *.
      assert (forall k, 1 <= k -> el l2 k = if decide (k = 1) then el l1 i else if decide (k = i) then el l1 1 else el l1 k) as Hel by (intros k Hk; apply el_swp; lia).
      pose proof (moves_length _ _ _ _ _ _ _ Hmv2) as Hlen2. apply wp_bind, (wp_heapify m2 a l2 1 1 (i - 1)); [apply Hmv2|lia|lia|lia|lia| |].
      { split; [|intros k Hk E Hlo H1; change (1 / 2) with 0 in *; lia]. intros k Hk Hk1 Hk2. assert (1 <= k / 2 < k) by (Z.to_euclidean_division_equations; lia).
        rewrite !Hel by lia. rewrite !decide_False by lia. apply Hh; lia. }
      intros m3 l3 Hmv3 Hh3. apply wp_ret. exists (Z.to_nat (i - 1)). split; [lia|]. exists l3.
      assert (forall k, i - 1 < k <= n -> el l3 k = if decide (k = i) then el l1 1 else el l1 k) as Hup.
      { intros k Hk. rewrite (mv_above _ _ _ _ _ _ _ Hmv3) by lia. rewrite Hel by lia. by rewrite decide_False by lia. }
      split_and!; [eapply moves_trans; [exact Hmv|]; eapply moves_trans; [exact Hmv2|]; eapply moves_mono; [exact Hmv3|lia]|lia|lia|done|done| |].
      * intros j k Hj Hk. rewrite !Hup by lia. destruct (decide (j = i)) as [->|Hji].
        -- destruct (decide (k = i)) as [->|Hki]; [apply le_refl|]. apply Hs2; lia.
        -- rewrite decide_False by lia. apply Hs1; lia.
      * intros j k Hj Hk. revert j Hj. apply (mv_all _ _ _ _ _ _ _ Hmv3 (fun x => le_el x (el l3 k))). intros j Hj. rewrite Hup by lia. rewrite Hel by lia.
        assert (forall j, 1 <= j <= i -> le_el (el l1 j) (if decide (k = i) then el l1 1 else el l1 k)) as Hbig.
        { intros j' Hj'. destruct (decide (k = i)) as [->|Hki]; [by eapply heap_root|]. apply Hs2; lia. }
        destruct (decide (j = 1)); [apply Hbig; lia|]. rewrite decide_False by lia. apply Hbig. lia.
    + apply wp_ret. eapply HQ; [done|]. intros j k Hj Hk. fold n in Hlen. destruct (decide (i < j)) as [Hij|Hij]; [apply Hs1; lia|].
      destruct (decide (k <= i)) as [Hki|Hki]; [|apply Hs2; lia]. assert (j = k) as -> by lia. apply le_refl.
  - exists l0. split_and!; [done|lia|lia|done|done|intros j k; lia|intros j k; lia].
Qed.

(** ** Searching *)

Lemma lt_le_trans x y z : cmp x y < 0 -> le_el y z -> cmp x z < 0.
Proof.
  intros Hxy Hyz. destruct (Z.lt_ge_cases (cmp x z) 0) as [|Hge]; [done|]. exfalso.
  assert (le_el z x) as Hzx by (unfold le_el; destruct (Z.le_gt_cases (cmp z x) 0) as [|H]; [done|]; apply Z.lt_gt, Z.gt_lt, (@cp_anti _ _ _ HC) in H; lia).
  pose proof (le_trans _ _ _ Hyz Hzx) as H. unfold le_el in H. apply (@cp_anti _ _ _ HC) in Hxy. lia.
Qed.

Lemma wp_binary_search m a l key kx (Q : Z -> mem -> Prop) :
  arr size m a l -> a ≠ NULL -> 0 < a -> sorted l -> bytes_at m key kx -> Z.of_nat (length kx) = size ->
  ((forall k, 1 <= k <= Z.of_nat (length l) -> cmp kx (el l k) ≠ 0) -> Q NULL m) ->
  (forall k, 1 <= k <= Z.of_nat (length l) -> cmp kx (el l k) = 0 -> Q (a + (k - 1) * size) m) ->
  wp (binary_search compare key a (Z.of_nat (length l)) size) m Q.
Proof.
  intros Ha Hnn Hpos Hsort Hkx Hlk HQ0 HQ1. pose proof (ar_size _ _ _ _ Ha) as Hs. set (n := Z.of_nat (length l)) in *. unfold binary_search.
  eapply (wp_loop (fun j '(f, t) m' => m' = m /\ exists i k, f = a + i * size /\ t = a + k * size /\ 0 <= i <= k /\ k <= n /\ j = Z.to_nat (k - i) /\
    (forall x, 1 <= x <= i -> 0 < cmp kx (el l x)) /\ (forall x, k < x <= n -> cmp kx (el l x) < 0))) with (n := Z.to_nat n); [| |lia].
  - intros j [f t] m' (-> & i & k & -> & -> & Hi & Hk & -> & Hlo & Hhi). destruct (Z.ltb_spec (a + i * size) (a + k * size)) as [Hlt|Hge].
    + assert (i < k) as Hik by nia. cbv zeta. replace (a + k * size - (a + i * size)) with ((k - i) * size) by lia. rewrite Z.div_mul by lia.
      set (h := (k - i) / 2). assert (0 <= h < k - i) as Hh by (unfold h; Z.to_euclidean_division_equations; lia).
      replace (a + i * size + h * size) with (a + (i + h) * size) by lia. set (q := i + h) in *.
      destruct (arr_el _ _ _ _ (q + 1) Ha) as (Bq & Lq & _); [lia|]. replace (q + 1 - 1) with q in Bq by lia.
      apply wp_bind. eapply wp_ok; [by apply (@cp_runs _ _ _ HC _ _ _ kx (el l (q + 1)))|]. apply wp_ret. set (c := cmp kx (el l (q + 1))).
      destruct (Z.ltb_spec c 0) as [Hc|Hc]; [|destruct (Z.ltb_spec 0 c) as [Hc'|Hc']].
      * exists (Z.to_nat (q - i)). split; [lia|]. split; [done|]. exists i, q. split_and!; [done|done|lia|lia|lia|done|done|].
        intros x Hx. destruct (decide (k < x)) as [Hkx'|Hkx']; [by apply Hhi; lia|].
        pose proof (Hsort (q + 1) x ltac:(lia) ltac:(lia)) as Hle. by eapply lt_le_trans.
      * exists (Z.to_nat (k - (q + 1))). split; [lia|]. split; [done|]. exists (q + 1), k. split_and!; [lia|done|lia|lia|lia|done| |done].
        intros x Hx. destruct (decide (x <= i)) as [Hxi|Hxi]; [by apply Hlo; lia|].
        pose proof (Hsort x (q + 1) ltac:(lia) ltac:(lia)) as Hle.
        destruct (Z.le_gt_cases (cmp kx (el l x)) 0) as [Hn|]; [|lia]. pose proof (le_trans _ _ _ Hn Hle) as Hn'. unfold le_el in Hn'. fold c in Hn'. lia.
      * replace (a + q * size) with (a + (q + 1 - 1) * size) by lia. apply HQ1; [lia|]. fold c. lia.
    + apply wp_ret, HQ0. assert (i = k) as <- by nia. intros x Hx. destruct (decide (x <= i)); [specialize (Hlo x); lia|specialize (Hhi x); lia].
  - split; [done|]. exists 0, n. split_and!; [lia|lia|lia|lia|lia|lia|lia|lia].
Qed.
End Sorting.


(** * Numbers *)

(** The value of a string of digits. *)
Definition digits_value (ds : list Z) : Z := foldl (fun v d => v * 10 + (d - 48)) 0 ds.

Lemma wp_skip_spaces m a sp t (Q : Z -> mem -> Prop) :
  cstr m a (sp ++ t) -> Forall (fun c => isspace c = true) sp -> isspace (hd 0 t) = false -> Q (a + Z.of_nat (length sp)) m ->
  forall fuel, (length sp < fuel)%nat -> wp (loop fuel (fun s => c ← load8 s; mret (if isspace c then inl (s + 1) else inr s)) a) m Q.
Proof.
  intros Hs Hsp Ht. revert a Hs. induction Hsp as [|c sp Hc _ IH]; intros a Hs HQ fuel Hf; (destruct fuel as [|fuel]; [cbn in Hf; lia|]); apply wp_loop_S, wp_bind; (eapply wp_load8; [exact (cstr_hd _ _ _ Hs)|]); apply wp_ret; cbn [app hd].
  - rewrite Ht. by rewrite Z.add_0_r in HQ.
  - rewrite Hc. apply cstr_cons in Hs as (_ & _ & _ & _ & Hs). apply IH; [done| |cbn in Hf; lia]. cbn [length] in HQ.
    by replace (a + 1 + Z.of_nat (length sp)) with (a + Z.of_nat (S (length sp))) by lia.
Qed.

Lemma isdigit_schar c : isdigit c = true -> isdigit (schar c) = true.
Proof. unfold isdigit, schar. rewrite !andb_true_iff, !Z.leb_le. intros [H1 H2]. destruct (Z.ltb_spec c 128); lia. Qed.

Lemma isdigit_stop c : byte c -> isdigit c = false -> isdigit (schar c) = false.
Proof.
  unfold isdigit, schar, byte. rewrite !andb_false_iff, !Z.leb_gt. intros Hb H. destruct (Z.ltb_spec c 128); lia.
Qed.

Lemma wp_digits m ds t : Forall (fun c => isdigit c = true) ds -> isdigit (hd 0 t) = false ->
  forall a v fuel (Q : Z -> mem -> Prop), cstr m a (ds ++ t) -> (length ds < fuel)%nat ->
  Q (s32 (- foldl (fun v d => v * 10 + (d - 48)) v ds)) m ->
  wp (loop fuel (fun '(s, value) => c ← load8 s; mret (if isdigit (schar c) then inl (s + 1, s32 (value * 10 - (c - 48))) else inr value)) (a, s32 (- v))) m Q.
Proof.
  intros Hds Ht. induction Hds as [|c ds Hc _ IH]; intros a v fuel Q Hs Hf HQ; (destruct fuel as [|fuel]; [cbn in Hf; lia|]); apply wp_loop_S, wp_bind; (eapply wp_load8; [exact (cstr_hd _ _ _ Hs)|]); apply wp_ret; cbn [app hd].
  - rewrite isdigit_stop; [exact HQ| |done]. cbn [app] in Hs. destruct t as [|x t]; [unfold byte; cbn; lia|]. cbn [hd]. apply cstr_cons in Hs. tauto.
  - rewrite isdigit_schar by done. apply cstr_cons in Hs as (_ & _ & _ & _ & Hs).
    assert (s32 (s32 (- v) * 10 - (c - 48)) = s32 (- (v * 10 + (c - 48)))) as ->.
    { apply s32_eq. rewrite <-Zminus_mod_idemp_l, <-Zmult_mod_idemp_l, s32_mod, Zmult_mod_idemp_l, Zminus_mod_idemp_l. f_equal. lia. }
    apply IH; [done|cbn in Hf; lia|exact HQ].
Qed.

(** What [atoi] reads: white space, a sign, and digits up to another character. *)
Inductive sign : Type := SNone | SPlus | SMinus.
Definition sign_text (g : sign) : list Z := match g with SNone => [] | SPlus => [43] | SMinus => [45] end.
Definition sign_value (g : sign) (v : Z) : Z := match g with SMinus => - v | _ => v end.

Lemma wp_atoi m a sp g ds t (Q : Z -> mem -> Prop) :
  cstr m a (sp ++ sign_text g ++ ds ++ t) -> Forall (fun c => isspace c = true) sp -> Forall (fun c => isdigit c = true) ds ->
  isdigit (hd 0 t) = false -> (g = SNone -> ds = [] -> isspace (hd 0 t) = false /\ hd 0 t ≠ 43 /\ hd 0 t ≠ 45) ->
  Q (s32 (sign_value g (digits_value ds))) m -> wp (atoi a) m Q.
Proof.
  intros Hs Hsp Hds Ht Hg HQ. unfold atoi. apply wp_bind, wp_assert; [apply nonnull_pos; by eapply cstr_pos|]. apply wp_bind, wp_mem_fuel.
  pose proof (cstr_size _ _ _ Hs) as Hsz. rewrite !length_app in Hsz.
  assert (isspace (hd 0 (sign_text g ++ ds ++ t)) = false /\ (g = SNone -> hd 0 (ds ++ t) ≠ 43 /\ hd 0 (ds ++ t) ≠ 45)) as [Hns Hnsg].
  { assert (forall c, isdigit c = true -> isspace c = false /\ c ≠ 43 /\ c ≠ 45) as Hd.
    { intros c. unfold isdigit, isspace. rewrite andb_true_iff, !orb_false_iff, !Z.leb_le, !Z.eqb_neq. lia. }
    destruct g; [|split; [done|by intros ?]..]. cbn [sign_text app]. destruct Hds as [|d ds Hd0 _]; [naive_solver|]. destruct (Hd d Hd0) as (? & ? & ?). done. }
  apply wp_bind. eapply wp_skip_spaces; [exact Hs|done|done| |lia]. pose proof (cstr_app _ _ _ _ Hs) as Hs1. set (a1 := a + Z.of_nat (length sp)) in *.
  apply wp_bind. eapply wp_load8; [exact (cstr_hd _ _ _ Hs1)|].
  assert (forall a2 (neg : bool), cstr m a2 (ds ++ t) -> (neg = true <-> g = SMinus) ->
    wp (value ← loop (S (size m)) (fun '(s, value) => c ← load8 s; mret (if isdigit (schar c) then inl (s + 1, s32 (value * 10 - (c - 48))) else inr value)) (a2, 0);
        mret (if neg then value else s32 (- value))) m Q) as Hrest.
  { intros a2 neg Hs2 Hneg. apply wp_bind. change 0 with (s32 (- 0)) at 1. eapply wp_digits; [done|done|done|lia|]. apply wp_ret. fold (digits_value ds).
    destruct neg; [rewrite (proj1 Hneg eq_refl) in HQ; exact HQ|]. assert (s32 (- s32 (- digits_value ds)) = s32 (digits_value ds)) as ->.
    { apply s32_eq. rewrite <-(Z.sub_0_l (s32 _)), <-Zminus_mod_idemp_r, s32_mod, Zminus_mod_idemp_r. f_equal. lia. }
    destruct g; [done|done|]. naive_solver. }
  destruct g; cbn [sign_text app hd] in *.
  - destruct (Hnsg eq_refl) as [N1 N2]. rewrite (proj2 (Z.eqb_neq _ _) N1), (proj2 (Z.eqb_neq _ _) N2). exact (Hrest a1 false Hs1 ltac:(done)).
  - apply cstr_cons in Hs1 as (_ & _ & _ & _ & Hs1). exact (Hrest (a1 + 1) false Hs1 ltac:(done)).
  - apply cstr_cons in Hs1 as (_ & _ & _ & _ & Hs1). exact (Hrest (a1 + 1) true Hs1 ltac:(done)).
Qed.

(** * Results *)

(** C30: [qsort] terminates with the elements of the array in order, whatever their size and
    whatever the client's ordering, and changes no other memory. *)
Theorem qsort_correct size compare cmp m a l :
  Comparator size compare cmp -> arr size m a l -> a ≠ NULL -> Z.of_nat (length l) < 2 ^ 31 ->
  wp (qsort a (Z.of_nat (length l)) size compare) m (fun _ m' => exists l',
    arr size m' a l' /\ l' ≡ₚ l /\ (forall j k, 1 <= j <= k -> k <= Z.of_nat (length l) -> cmp (el l' j) (el l' k) <= 0) /\
    forall x, ~ a <= x < a + size * Z.of_nat (length l) -> m' !! x = m !! x).
Proof.
  intros Hc Ha Hnn Hn. apply (wp_sort size compare cmp); [done..|]. intros m' l' Hmv Hs. exists l'. pose proof (moves_length _ _ _ _ _ _ _ Hmv) as Hl.
  split_and!; [apply Hmv|apply Hmv| |apply Hmv]. intros j k Hj Hk. apply Hs; [done|by rewrite Hl].
Qed.

(** [bsearch] in a sorted array returns the address of an element equal to the key, and
    a null pointer exactly if there is none. *)
Theorem bsearch_correct size compare cmp m a l key kx :
  Comparator size compare cmp -> arr size m a l -> 0 < a -> (forall j k, 1 <= j <= k -> k <= Z.of_nat (length l) -> cmp (el l j) (el l k) <= 0) ->
  bytes_at m key kx -> Z.of_nat (length kx) = size ->
  wp (bsearch key a (Z.of_nat (length l)) size compare) m (fun r m' => m' = m /\
    ((r = NULL /\ forall k, 1 <= k <= Z.of_nat (length l) -> cmp kx (el l k) ≠ 0) \/
     exists k, 1 <= k <= Z.of_nat (length l) /\ cmp kx (el l k) = 0 /\ r = a + (k - 1) * size)).
Proof.
  intros Hc Ha Hp Hs Hk Hl. apply (wp_binary_search size compare cmp m a l key kx); [done|unfold NULL; lia|done..| |].
  - intros Hno. auto.
  - intros k H1 H2. split; [done|]. right. by exists k.
Qed.

(** ** Witnesses *)

Definition demo_compare (p q : Z) : M mem Z := x ← load8 p; y ← load8 q; mret (x - y).
Definition demo_cmp (x y : list Z) : Z := hd 0 x - hd 0 y.
Definition demo_rows : list (list Z) := [[3]; [1]; [2]].
Definition demo_array : mem := put ∅ 16 [3; 1; 2].
Definition demo_sorted : mem := put ∅ 16 [1; 2; 3].

Lemma demo_comparator : Comparator 1 demo_compare demo_cmp.
Proof.
  split.
  - intros m p q [|x [|]] [|y [|]] Hx Hy; try (cbn in *; lia). intros [Bx _] [By _]. unfold demo_compare, load8, mbind, M_bind. by rewrite Bx, By.
  - unfold demo_cmp. lia.
  - unfold demo_cmp. lia.
Qed.

Lemma demo_rows_at bs : Forall byte bs -> arr 1 (put ∅ 16 bs) 16 ((fun b => [b]) <$> bs).
Proof.
  intros Hb. split; [done| |].
  - apply Forall_fmap. eapply Forall_impl; [exact Hb|]. intros b Hx. split; [done|by constructor].
  - intros k x Hk. rewrite list_lookup_fmap in Hk. destruct (bs !! k) as [b|] eqn:E; [|done]. injection Hk as <-. split; [|done].
    rewrite Z.mul_1_r. by apply (proj1 (bytes_at_lookup _ _ _) (put_bytes ∅ 16 bs)).
Qed.

Lemma qsort_correct_witness :
  wp (qsort 16 (Z.of_nat (length demo_rows)) 1 demo_compare) demo_array (fun _ m' => exists l',
    arr 1 m' 16 l' /\ l' ≡ₚ demo_rows /\ (forall j k, 1 <= j <= k -> k <= Z.of_nat (length demo_rows) -> demo_cmp (el l' j) (el l' k) <= 0) /\
    forall x, ~ 16 <= x < 16 + 1 * Z.of_nat (length demo_rows) -> m' !! x = demo_array !! x).
Proof.
  apply (qsort_correct 1 demo_compare demo_cmp demo_array 16 demo_rows); [exact demo_comparator| |discriminate|reflexivity].
  apply (demo_rows_at [3; 1; 2]). repeat constructor; lia.
Defined.

Lemma bsearch_correct_witness :
  wp (bsearch 17 16 (Z.of_nat (length ((fun b => [b]) <$> [1; 2; 3]))) 1 demo_compare) demo_sorted (fun r m' => m' = demo_sorted /\
    ((r = NULL /\ forall k, 1 <= k <= Z.of_nat (length ((fun b => [b]) <$> [1; 2; 3])) -> demo_cmp [2] (el ((fun b => [b]) <$> [1; 2; 3]) k) ≠ 0) \/
     exists k, 1 <= k <= Z.of_nat (length ((fun b => [b]) <$> [1; 2; 3])) /\ demo_cmp [2] (el ((fun b => [b]) <$> [1; 2; 3]) k) = 0 /\ r = 16 + (k - 1) * 1)).
Proof.
  apply (bsearch_correct 1 demo_compare demo_cmp demo_sorted 16 ((fun b => [b]) <$> [1; 2; 3]) 17 [2]);
    [exact demo_comparator|apply (demo_rows_at [1; 2; 3]); repeat constructor; lia|lia| |split; [reflexivity|done]|reflexivity].
  intros j k Hj Hk. cbn in Hk. assert (j = 1 \/ j = 2 \/ j = 3) as Hj' by lia. assert (k = 1 \/ k = 2 \/ k = 3) as Hk' by lia.
  destruct Hj' as [->|[->| ->]], Hk' as [->|[->| ->]]; try lia; vm_compute; discriminate.
Defined.
