(* ===== verification/Stdio.v ===== *)
(** src/lib/stdio.c: formatted output.

    [vprintf_] is [__vprintf]: it reads a format from memory, takes arguments from a list of
    the words that the caller pushed, and passes every character to the function [output] of
    its client.  [Sink] is what the clients promise; under it, the output of a format is the
    text that its directives stand for.  [vsnprintf] is one client, the consoles are others.
    An int printed in decimal is read back by [atoi]. *)
From Stdlib Require Import String Ascii.
From stdpp Require Import base list numbers gmap fin_maps.
From Stdlib Require Import ZArith Lia.
From S2P Require Import Prelude Strings CStdlib.

Open Scope Z_scope.

(** Character constants and string literals. *)
Definition ch (c : ascii) : Z := Z.of_N (N_of_ascii c).
Arguments ch _%_char_scope.
Definition str (s : string) : list Z := ch <$> list_ascii_of_string s.
Arguments str _%_string_scope.

(** * Data *)

Definition MINUS : Z := Z.shiftl 1 0.
Definition PLUS : Z := Z.shiftl 1 1.
Definition SPACE : Z := Z.shiftl 1 2.
Definition POUND : Z := Z.shiftl 1 3.
Definition ZERO : Z := Z.shiftl 1 4.
Definition GROUP : Z := Z.shiftl 1 5.

Inductive arg_type : Set := CHAR | SHORT | INT | INTMAX | LONG | LONGLONG | PTRDIFFT | SIZET.

Record printf_conversion : Type := mk_conversion { flags : Z; width : Z; precision : Z; type : arg_type }.

Record integer_base : Type := mk_base { base : Z; digits : list Z; x_char : Z; group : Z }.

Definition base_d : integer_base := mk_base 10 (str "0123456789") 0 3.
Definition base_o : integer_base := mk_base 8 (str "01234567") 0 3.
Definition base_x : integer_base := mk_base 16 (str "0123456789abcdef") (ch "x") 4.
Definition base_X : integer_base := mk_base 16 (str "0123456789ABCDEF") (ch "X") 4.

Definition flag (fl bit : Z) : bool := negb (Z.land fl bit =? 0).

(** Arguments: the 32-bit words on the stack; an argument of 64 bits is two words, the lower
    half first. *)
Definition va_word (args : list Z) : res (Z * list Z) :=
  match args with w :: args => Ok (w, args) | [] => Err Fault end.
Definition va_quad (args : list Z) : res (Z * list Z) :=
  match args with lo :: hi :: args => Ok (lo + hi * 2 ^ 32, args) | _ => Err Fault end.

(** * Operations *)

Section Printf.
(** The function that receives the characters, with its data [aux : A]; the address at which
    the linker put a literal. *)
Context {A : Type} (output : Z -> M (mem * A) unit) (lit : string -> Z).

Definition on_mem {B} (c : M mem B) : M (mem * A) B :=
  fun '(m, a) => match c m with Ok (b, m') => Ok (b, (m', a)) | Err e => Err e end.

Definition rd (p : Z) : M (mem * A) Z := on_mem (load8 p).

Definition flag_of (c : Z) : option Z :=
  if c =? ch "-" then Some MINUS else if c =? ch "+" then Some PLUS else if c =? ch " " then Some SPACE
  else if c =? ch "#" then Some POUND else if c =? ch "0" then Some ZERO else if c =? ch "'" then Some GROUP
  else None.

Definition parse_flags (format : Z) : M (mem * A) (Z * Z) :=
  fuel ← on_mem mem_fuel;
  loop fuel (fun '(format, fl) =>
    c ← rd format;
    mret (match flag_of c with Some f => inl (format + 1, Z.lor fl f) | None => inr (format, fl) end)) (format, 0).

Definition parse_digits (format : Z) : M (mem * A) (Z * Z) :=
  fuel ← on_mem mem_fuel;
  loop fuel (fun '(format, n) =>
    c ← rd format;
    mret (if isdigit (schar c) then inl (format + 1, s32 (n * 10 + schar c - 48)) else inr (format, n))) (format, 0).

(** A number in the format or, for [*], among the arguments. *)
Definition parse_number (format : Z) (args : list Z) : M (mem * A) (Z * Z * list Z) :=
  c ← rd format;
  if c =? ch "*" then
    '(w, args) ← mlift (va_word args);
    mret (format + 1, s32 w, args)
  else
    '(format, n) ← parse_digits format;
    mret (format, n, args).

Definition parse_precision (format : Z) (args : list Z) : M (mem * A) (Z * Z * list Z) :=
  c ← rd format;
  if c =? ch "." then
    '(format, p, args) ← parse_number (format + 1) args;
    mret (format, if p <? 0 then -1 else p, args)
  else mret (format, -1, args).

Definition parse_type (format : Z) : M (mem * A) (Z * arg_type) :=
  c ← rd format;
  if c =? ch "h" then
    c ← rd (format + 1);
    mret (if c =? ch "h" then (format + 2, CHAR) else (format + 1, SHORT))
  else if c =? ch "j" then mret (format + 1, INTMAX)
  else if c =? ch "l" then
    c ← rd (format + 1);
    mret (if c =? ch "l" then (format + 2, LONGLONG) else (format + 1, LONG))
  else if c =? ch "t" then mret (format + 1, PTRDIFFT)
  else if c =? ch "z" then mret (format + 1, SIZET)
  else mret (format, INT).

Definition parse_conversion (format : Z) (args : list Z) : M (mem * A) (Z * printf_conversion * list Z) :=
  '(format, fl) ← parse_flags format;
  let fl := if flag fl MINUS then Z.ldiff fl ZERO else fl in
  let fl := if flag fl PLUS then Z.ldiff fl SPACE else fl in
  '(format, w, args) ← parse_number format args;
  let '(w, fl) := if w <? 0 then (s32 (- w), Z.lor fl MINUS) else (w, fl) in
  '(format, p, args) ← parse_precision format args;
  let fl := if 0 <=? p then Z.ldiff fl ZERO else fl in
  '(format, t) ← parse_type format;
  mret (format, mk_conversion fl w p t, args).

Fixpoint output_n (c : Z) (cnt : nat) : M (mem * A) unit :=
  match cnt with O => mret tt | S cnt => output c;; output_n c cnt end.
Definition output_dup (c cnt : Z) : M (mem * A) unit := output_n c (Z.to_nat (u32 cnt)).

(** [*cp++ = c] in the buffer [buf] of 64 characters, kept with the last one first. *)
Definition push (c : Z) (buf : list Z) : res (list Z) :=
  if Z.of_nat (length buf) <? 64 then Ok (c :: buf) else Err Fault.

Fixpoint output_all (buf : list Z) : M (mem * A) unit :=
  match buf with [] => mret tt | c :: buf => output c;; output_all buf end.

Definition format_integer (value : Z) (is_signed negative : bool) (b : integer_base) (c : printf_conversion) : M (mem * A) unit :=
  let sign :=
    if is_signed then
      if flag (flags c) PLUS then (if negative then ch "-" else ch "+")
      else if flag (flags c) SPACE then (if negative then ch "-" else ch " ")
      else if negative then ch "-" else 0
    else 0 in
  let x := if flag (flags c) POUND && negb (value =? 0) then x_char b else 0 in
  buf ← loop 65 (fun '(value, buf, digit_cnt) =>
    if 0 <? value then
      buf ← (if flag (flags c) GROUP && (0 <? digit_cnt) && (digit_cnt mod group b =? 0) then mlift (push (ch ",") buf) else mret buf);
      d ← mlift (match digits b !! Z.to_nat (value mod base b) with Some d => Ok d | None => Err Fault end);
      buf ← mlift (push d buf);
      mret (inl (value / base b, buf, digit_cnt + 1))
    else mret (inr buf)) (value, [], 0);
  let prec := if precision c <? 0 then 1 else precision c in
  buf ← loop 65 (fun buf =>
    if (Z.of_nat (length buf) <? prec) && (Z.of_nat (length buf) <? 64 - 1) then
      buf ← mlift (push (ch "0") buf);
      mret (inl buf)
    else mret (inr buf)) buf;
  buf ← (if flag (flags c) POUND && (base b =? 8) && (match buf with [] => true | d :: _ => negb (d =? ch "0") end)
         then mlift (push (ch "0") buf) else mret buf);
  let pad_cnt := s32 (width c - Z.of_nat (length buf) - (if x =? 0 then 0 else 2) - (if sign =? 0 then 0 else 1)) in
  let pad_cnt := if pad_cnt <? 0 then 0 else pad_cnt in
  (if Z.land (flags c) (Z.lor MINUS ZERO) =? 0 then output_dup (ch " ") pad_cnt else mret tt);;
  (if negb (sign =? 0) then output sign else mret tt);;
  (if negb (x =? 0) then output (ch "0");; output x else mret tt);;
  (if flag (flags c) ZERO then output_dup (ch "0") pad_cnt else mret tt);;
  output_all buf;;
  (if flag (flags c) MINUS then output_dup (ch " ") pad_cnt else mret tt).

(** The string is given by the reading of its [i]-th character. *)
Fixpoint output_chars (string : Z -> M (mem * A) Z) (i : Z) (n : nat) : M (mem * A) unit :=
  match n with O => mret tt | S n => c ← string i; output c;; output_chars string (i + 1) n end.

Definition format_string (string : Z -> M (mem * A) Z) (len : Z) (c : printf_conversion) : M (mem * A) unit :=
  (if (len <? width c) && negb (flag (flags c) MINUS) then output_dup (ch " ") (width c - len) else mret tt);;
  output_chars string 0 (Z.to_nat len);;
  (if (len <? width c) && flag (flags c) MINUS then output_dup (ch " ") (width c - len) else mret tt).

Definition va_signed (t : arg_type) (args : list Z) : res (Z * list Z) :=
  match t with
  | CHAR => '(w, args) ← va_word args; Ok (swrap 8 w, args)
  | SHORT => '(w, args) ← va_word args; Ok (swrap 16 w, args)
  | INT | LONG | PTRDIFFT => '(w, args) ← va_word args; Ok (s32 w, args)
  | INTMAX | LONGLONG => '(w, args) ← va_quad args; Ok (s64 w, args)
  | SIZET => '(w, args) ← va_word args; Ok (if (2 ^ 32 - 1) / 2 <? w then w - (2 ^ 32 - 1) - 1 else w, args)
  end.

Definition va_unsigned (t : arg_type) (args : list Z) : res (Z * list Z) :=
  match t with
  | CHAR => '(w, args) ← va_word args; Ok (w mod 2 ^ 8, args)
  | SHORT => '(w, args) ← va_word args; Ok (w mod 2 ^ 16, args)
  | INT | LONG | SIZET => '(w, args) ← va_word args; Ok (w, args)
  | INTMAX | LONGLONG => va_quad args
  | PTRDIFFT => '(w, args) ← va_word args; Ok (Z.land (u64 (s32 w)) (Z.lor (Z.shiftl (2 ^ 31 - 1) 1) 1), args)
  end.

(** The conversion that the character [letter] names; [printf_] is [__printf] for the
    messages. *)
Definition convert (printf_ : Z -> list Z -> M (mem * A) unit) (letter : Z) (c : printf_conversion) (args : list Z) : M (mem * A) (list Z) :=
  if (letter =? ch "d") || (letter =? ch "i") then
    '(value, args) ← mlift (va_signed (type c) args);
    format_integer (u64 (if value <? 0 then - value else value)) true (value <? 0) base_d c;;
    mret args
  else if (letter =? ch "o") || (letter =? ch "u") || (letter =? ch "x") || (letter =? ch "X") then
    '(value, args) ← mlift (va_unsigned (type c) args);
    let b := if letter =? ch "o" then base_o else if letter =? ch "u" then base_d else if letter =? ch "x" then base_x else base_X in
    format_integer value false false b c;;
    mret args
  else if letter =? ch "c" then
    '(w, args) ← mlift (va_word args);
    format_string (fun _ => mret (u8 w)) 1 c;;
    mret args
  else if letter =? ch "s" then
    '(s, args) ← mlift (va_word args);
    let s := if s =? NULL then lit "(null)" else s in
    len ← on_mem (strnlen s (u32 (precision c)));
    format_string (fun i => rd (s + i)) (s32 len) c;;
    mret args
  else if letter =? ch "p" then
    '(p, args) ← mlift (va_word args);
    format_integer p false false base_x (mk_conversion POUND (width c) (precision c) (type c));;
    mret args
  else if (letter =? ch "f") || (letter =? ch "e") || (letter =? ch "E") || (letter =? ch "g") || (letter =? ch "G") || (letter =? ch "n") then
    printf_ (lit "<<no %%%c in kernel>>") [u32 (schar letter)];;
    mret args
  else
    printf_ (lit "<<no %%%c conversion>>") [u32 (schar letter)];;
    mret args.

(** One character or conversion of the format. *)
Definition vprintf_step (printf_ : Z -> list Z -> M (mem * A) unit) '((format, args) : Z * list Z) : M (mem * A) (Z * list Z + unit) :=
  c ← rd format;
  if c =? 0 then mret (inr tt)
  else if negb (c =? ch "%") then output c;; mret (inl (format + 1, args))
  else
    c ← rd (format + 1);
    if c =? ch "%" then output (ch "%");; mret (inl (format + 2, args))
    else
      '(format, conv, args) ← parse_conversion (format + 1) args;
      letter ← rd format;
      args ← convert printf_ letter conv args;
      mret (inl (format + 1, args)).

(** The messages are formats without a message of their own, so [__vprintf] calls itself only
    once; [depth] bounds the calls. *)
Fixpoint vprintf_at (depth : nat) (format : Z) (args : list Z) : M (mem * A) unit :=
  match depth with
  | O => mfail Exhausted
  | S depth =>
    fuel ← on_mem mem_fuel;
    loop fuel (vprintf_step (vprintf_at depth)) (format, args)
  end.

Definition vprintf_ (format : Z) (args : list Z) : M (mem * A) unit := vprintf_at 2 format args.
End Printf.

(** ** Output to a buffer *)

Record vsnprintf_aux : Type := mk_aux { aux_p : Z; aux_length : Z; aux_max : Z }.

Definition vsnprintf_helper (c : Z) : M (mem * vsnprintf_aux) unit :=
  fun '(m, a) =>
    let a1 := mk_aux (aux_p a) (s32 (aux_length a + 1)) (aux_max a) in
    if aux_length a <? aux_max a then
      match store8 (aux_p a) c m with
      | Ok (_, m) => Ok (tt, (m, mk_aux (aux_p a + 1) (aux_length a1) (aux_max a)))
      | Err e => Err e
      end
    else Ok (tt, (m, a1)).

Definition vsnprintf (lit : string -> Z) (buffer buf_size format : Z) (args : list Z) : M mem Z :=
  m ← mget;
  '(_, (m, a)) ← mlift (vprintf_ vsnprintf_helper lit format args (m, mk_aux buffer 0 (s32 (if 0 <? buf_size then buf_size - 1 else 0))));
  mput m;;
  (if 0 <? buf_size then store8 (aux_p a) 0 else mret tt);;
  mret (aux_length a).

Definition snprintf (lit : string -> Z) (buffer buf_size format : Z) (args : list Z) : M mem Z :=
  vsnprintf lit buffer buf_size format args.

(** * What a format stands for *)

(** A conversion as the C standard reads it: alignment, signs, prefix, padding with zeros,
    groups of digits, minimum field width, precision if there is one. *)
Record style : Type := mk_style { s_left : bool; s_plus : bool; s_space : bool; s_pound : bool; s_zero : bool; s_group : bool;
  s_width : Z; s_prec : option Z }.

(** A number of 64 bits has at most 22 digits, in octal. *)
Fixpoint digits_of (b : integer_base) (fuel : nat) (v : Z) : list Z :=
  match fuel with
  | O => []
  | S fuel => if 0 <? v then digits_of b fuel (v / base b) ++ [digits b !!! Z.to_nat (v mod base b)] else []
  end.

(** A separator before every [g]-th digit, counted from the right. *)
Fixpoint commas (g i : Z) (rds : list Z) : list Z :=
  match rds with
  | [] => []
  | d :: rds => (if (0 <? i) && (i mod g =? 0) then [ch ","; d] else [d]) ++ commas g (i + 1) rds
  end.

Definition separate (s : style) (g i : Z) (rds : list Z) : list Z := if s_group s then commas g i rds else rds.

(** The digits of [v], in groups if requested, with zeros up to the precision (of which the
    code honours 63) and, for [#] in octal, at least one zero in front. *)
Definition number_text (b : integer_base) (s : style) (v : Z) : list Z :=
  let ds := reverse (separate s (group b) 0 (reverse (digits_of b 22 v))) in
  let ds := replicate (Z.to_nat (Z.min (default 1 (s_prec s)) 63) - length ds) (ch "0") ++ ds in
  if s_pound s && (base b =? 8) && negb (bool_decide (head ds = Some (ch "0"))) then ch "0" :: ds else ds.

Definition sign_chars (s : style) (v : Z) : list Z :=
  if v <? 0 then [ch "-"] else if s_plus s then [ch "+"] else if s_space s then [ch " "] else [].

Definition x_chars (b : integer_base) (s : style) (v : Z) : list Z :=
  if s_pound s && negb (v =? 0) && negb (x_char b =? 0) then [ch "0"; x_char b] else [].

(** A field: [pre] stays in front of zeros that fill the width. *)
Definition field (s : style) (pre body : list Z) : list Z :=
  let pad := (Z.to_nat (s_width s) - length (pre ++ body))%nat in
  if s_left s then pre ++ body ++ replicate pad (ch " ")
  else if s_zero s then pre ++ replicate pad (ch "0") ++ body
  else replicate pad (ch " ") ++ pre ++ body.

Definition signed_text (s : style) (v : Z) : list Z := field s (sign_chars s v) (number_text base_d s (Z.abs v)).
Definition unsigned_text (b : integer_base) (s : style) (v : Z) : list Z := field s (x_chars b s v) (number_text b s v).
Definition string_text (s : style) (l : list Z) : list Z :=
  let pad := replicate (Z.to_nat (s_width s) - length l) (ch " ") in
  if s_left s then l ++ pad else pad ++ l.

(** ** The syntax of formats *)

Inductive flag_name : Set := FMinus | FPlus | FSpace | FPound | FZero | FGroup.
#[global] Instance flag_name_eq : EqDecision flag_name.
Proof. solve_decision. Defined.

Definition flag_bit (f : flag_name) : Z :=
  match f with FMinus => MINUS | FPlus => PLUS | FSpace => SPACE | FPound => POUND | FZero => ZERO | FGroup => GROUP end.
Definition flag_text (f : flag_name) : Z :=
  match f with FMinus => ch "-" | FPlus => ch "+" | FSpace => ch " " | FPound => ch "#" | FZero => ch "0" | FGroup => ch "'" end.

Inductive number : Type := Digits (ds : list Z) | Star (n : Z).
Definition number_value (n : number) : Z := match n with Digits ds => digits_value ds | Star n => n end.
Definition number_format (n : number) : list Z := match n with Digits ds => ds | Star _ => [ch "*"] end.
Definition number_args (n : number) : list Z := match n with Digits _ => [] | Star n => [u32 n] end.

Definition type_format (t : arg_type) : list Z :=
  str (match t with CHAR => "hh" | SHORT => "h" | INT => "" | INTMAX => "j" | LONG => "l" | LONGLONG => "ll" | PTRDIFFT => "t" | SIZET => "z" end)%string.

(** What is between the percent sign and the letter of a conversion. *)
Record options : Type := mk_options { o_flags : list flag_name; o_width : number; o_prec : option number; o_type : arg_type }.

Definition options_format (o : options) : list Z :=
  (flag_text <$> o_flags o) ++ number_format (o_width o) ++
  match o_prec o with Some n => ch "." :: number_format n | None => [] end ++ type_format (o_type o).
Definition options_args (o : options) : list Z :=
  number_args (o_width o) ++ match o_prec o with Some n => number_args n | None => [] end.

Definition options_left (o : options) : bool := bool_decide (FMinus ∈ o_flags o) || (number_value (o_width o) <? 0).
Definition options_prec (o : options) : option Z :=
  n ← o_prec o; if 0 <=? number_value n then Some (number_value n) else None.
Definition options_style (o : options) : style :=
  mk_style (options_left o) (bool_decide (FPlus ∈ o_flags o))
    (bool_decide (FSpace ∈ o_flags o)) (bool_decide (FPound ∈ o_flags o))
    (bool_decide (FZero ∈ o_flags o) && negb (options_left o) && negb (bool_decide (is_Some (options_prec o))))
    (bool_decide (FGroup ∈ o_flags o)) (Z.abs (number_value (o_width o))) (options_prec o).

Inductive directive : Type :=
| Plain (c : Z)
| Percent
| Signed (o : options) (letter v : Z)
| Unsigned (o : options) (letter v : Z)
| Character (o : options) (v : Z)
| Text (o : options) (p : Z) (s : list Z)
| Pointer (o : options) (p : Z)
| Unknown (o : options) (letter : Z).

Definition is_wide (t : arg_type) : bool := match t with INTMAX | LONGLONG => true | _ => false end.
Definition type_bits (t : arg_type) : Z :=
  match t with CHAR => 8 | SHORT => 16 | INTMAX | LONGLONG => 64 | _ => 32 end.
Definition int_args (t : arg_type) (v : Z) : list Z := if is_wide t then [u32 v; u32 (v / 2 ^ 32)] else [u32 v].

Definition base_of (letter : Z) : integer_base :=
  if letter =? ch "o" then base_o else if letter =? ch "u" then base_d else if letter =? ch "x" then base_x else base_X.

(** Pointers are printed like [%#x]: the other flags are dropped. *)
Definition pointer_style (o : options) : style :=
  mk_style false false false true false false (Z.abs (number_value (o_width o))) (options_prec o).

Definition kernel_letters : list Z := str "feEgGn".

(** The text of a directive in the format, its arguments, and its output. *)
Definition dir_format (d : directive) : list Z :=
  match d with
  | Plain c => [c]
  | Percent => str "%%"
  | Signed o l _ | Unsigned o l _ | Unknown o l => ch "%" :: options_format o ++ [l]
  | Character o _ => ch "%" :: options_format o ++ [ch "c"]
  | Text o _ _ => ch "%" :: options_format o ++ [ch "s"]
  | Pointer o _ => ch "%" :: options_format o ++ [ch "p"]
  end.
Definition dir_args (d : directive) : list Z :=
  match d with
  | Plain _ | Percent => []
  | Signed o _ v | Unsigned o _ v => options_args o ++ int_args (o_type o) v
  | Character o v => options_args o ++ [u32 v]
  | Text o p _ | Pointer o p => options_args o ++ [p]
  | Unknown o _ => options_args o
  end.
Definition dir_output (d : directive) : list Z :=
  match d with
  | Plain c => [c]
  | Percent => [ch "%"]
  | Signed o _ v => signed_text (options_style o) (swrap (type_bits (o_type o)) v)
  | Unsigned o l v => unsigned_text (base_of l) (options_style o) (v mod 2 ^ type_bits (o_type o))
  | Character o v => string_text (options_style o) [u8 v]
  | Text o _ s => string_text (options_style o) (match options_prec o with Some p => take (Z.to_nat p) s | None => s end)
  | Pointer o p => unsigned_text base_x (pointer_style o) p
  | Unknown _ l => str "<<no %" ++ [l] ++ str (if bool_decide (l ∈ kernel_letters) then " in kernel>>" else " conversion>>")%string
  end.

(** ** Well-formed directives *)

(** Widths and precisions are ints.  A width in digits starts with a digit that is not zero,
    which would be a flag.  The flag [0] does not go with a negative width: see
    [zero_flag_pads_twice]. *)
Definition number_ok (n : number) : Prop :=
  match n with Digits ds => Forall (fun c => isdigit c = true) ds /\ digits_value ds < 2 ^ 31 | Star n => - 2 ^ 31 < n < 2 ^ 31 end.
Record options_ok (o : options) : Prop := {
  ok_width : number_ok (o_width o);
  ok_first : match o_width o with Digits ds => hd 0 ds ≠ ch "0" | Star n => FZero ∈ o_flags o -> 0 <= n end;
  ok_prec : forall n, o_prec o = Some n -> number_ok n }.

(** A character that ends the options of a conversion. *)
Definition letter_ok (l : Z) : Prop := byte l /\ l ≠ 0 /\ l ∉ str "-+ #0'*.123456789hjltz%".

(** The string at [p], of which a client of [__vprintf] leaves all characters alone. *)
Definition kept (R : Z -> Prop) (m : mem) (p : Z) (s : list Z) : Prop :=
  cstr m p s /\ forall i, p <= i <= p + Z.of_nat (length s) -> R i.

Definition literals : list string := ["(null)"; "<<no %%%c in kernel>>"; "<<no %%%c conversion>>"]%string.

Definition dir_ok (R : Z -> Prop) (m : mem) (d : directive) : Prop :=
  match d with
  | Plain c => byte c /\ c ≠ 0 /\ c ≠ ch "%"
  | Percent => True
  | Signed o l _ => options_ok o /\ l ∈ str "di"
  | Unsigned o l _ => options_ok o /\ l ∈ str "ouxX"
  | Character o _ => options_ok o
  | Text o p s => options_ok o /\ ((p = NULL /\ s = str "(null)") \/ (kept R m p s /\ p < 2 ^ 32))
  | Pointer o p => options_ok o /\ 0 <= p < 2 ^ 32
  | Unknown o l => options_ok o /\ letter_ok l /\ l ∉ str "diouxXcsp"
  end.

(** What a client of [__vprintf] promises: [I l s] says that it has received [l].  It takes
    up to [lim] characters and leaves the memory [R] alone. *)
Class Sink {A} (output : Z -> M (mem * A) unit) (R : Z -> Prop) (m0 : mem) (lim : Z) (I : list Z -> mem * A -> Prop) : Prop := {
  sink_output l c s : I l s -> byte c -> Z.of_nat (length l) < lim -> wp (output c) s (fun _ s' => I (l ++ [c]) s');
  sink_reads l m a x : I l (m, a) -> R x -> m !! x = m0 !! x;
  sink_lim : lim < 2 ^ 31 }.

(** * Parsing *)

Section Parse.
Context {A : Type}.
Implicit Types (m : mem) (a : A).

Lemma wp_on_mem {B} (c : M mem B) m a (Q : B -> mem * A -> Prop) : wp c m (fun b m' => Q b (m', a)) -> wp (on_mem c) (m, a) Q.
Proof. unfold wp, on_mem. by destruct (c m) as [[b m']|e]. Qed.

Lemma wp_rd m a p t (Q : Z -> mem * A -> Prop) : cstr m p t -> Q (hd 0 t) (m, a) -> wp (rd p) (m, a) Q.
Proof. intros Hs HQ. apply wp_on_mem. eapply wp_load8; [exact (cstr_hd _ _ _ Hs)|exact HQ]. Qed.

Lemma wp_fuel m a (Q : nat -> mem * A -> Prop) : Q (S (size m)) (m, a) -> wp (on_mem mem_fuel) (m, a) Q.
Proof. intros HQ. by apply wp_on_mem, wp_mem_fuel. Qed.

(** A loop over the characters [p] of a string, up to one at which it stops. *)
Lemma wp_scan_text {X B} m a (f : X -> Z -> X) (body : Z * X -> M (mem * A) (Z * X + B)) (r : Z * X -> B) t (Q : B -> mem * A -> Prop) :
  forall cs p x fuel,
  (forall c q y, c ∈ cs -> m !! q = Some c -> wp (body (q, y)) (m, a) (fun z s => z = inl (q + 1, f y c) /\ s = (m, a))) ->
  (forall q y, m !! q = Some (hd 0 t) -> wp (body (q, y)) (m, a) (fun z s => z = inr (r (q, y)) /\ s = (m, a))) ->
  cstr m p (cs ++ t) -> (length cs < fuel)%nat -> Q (r (p + Z.of_nat (length cs), foldl f x cs)) (m, a) ->
  wp (loop fuel body (p, x)) (m, a) Q.
Proof.
  induction cs as [|c cs IH]; intros p x fuel Hb He Hs Hf HQ; (destruct fuel as [|fuel]; [cbn in Hf; lia|]); apply wp_loop_S.
  - eapply wp_mono; [apply He; exact (cstr_hd _ _ _ Hs)|]. intros z s [-> ->]. by rewrite Z.add_0_r in HQ.
  - pose proof (cstr_hd _ _ _ Hs) as Hc. cbn [app hd] in Hc. eapply wp_mono; [apply Hb; [by left|exact Hc]|]. intros z s [-> ->].
    apply cstr_cons in Hs as (_ & _ & _ & _ & Hs). apply IH; [intros; apply Hb; [by right|done]|done|done|cbn in Hf; lia|].
    cbn [length foldl] in HQ. by replace (p + 1 + Z.of_nat (length cs)) with (p + Z.of_nat (S (length cs))) by lia.
Qed.

Definition flag_bits (fs : list flag_name) : Z := foldl (fun x f => Z.lor x (flag_bit f)) 0 fs.

Lemma flag_of_text f : flag_of (flag_text f) = Some (flag_bit f).
Proof. by destruct f. Qed.

Lemma flag_bits_chars fs x : foldl (fun x c => Z.lor x (default 0 (flag_of c))) x (flag_text <$> fs) = foldl (fun x f => Z.lor x (flag_bit f)) x fs.
Proof. revert x. induction fs as [|f fs IH]; intros x; [done|]. rewrite fmap_cons. cbn [foldl]. by rewrite IH, flag_of_text. Qed.

Lemma wp_parse_flags m a p fs t (Q : Z * Z -> mem * A -> Prop) :
  cstr m p ((flag_text <$> fs) ++ t) -> flag_of (hd 0 t) = None -> Q (p + Z.of_nat (length fs), flag_bits fs) (m, a) -> wp (parse_flags p) (m, a) Q.
Proof.
  intros Hs Ht HQ. unfold parse_flags. apply wp_bind, wp_fuel. pose proof (cstr_size _ _ _ Hs) as Hl. rewrite length_app in Hl.
  apply (wp_scan_text m a (fun x c => Z.lor x (default 0 (flag_of c))) _ id t Q (flag_text <$> fs)); [| |done|lia|].
  - intros c q y Hc Hq. apply wp_bind, wp_on_mem. eapply wp_load8; [exact Hq|]. apply wp_ret. apply list_elem_of_fmap in Hc as (f & -> & _). by rewrite flag_of_text.
  - intros q y Hq. apply wp_bind, wp_on_mem. eapply wp_load8; [exact Hq|]. apply wp_ret. by rewrite Ht.
  - unfold id. by rewrite flag_bits_chars, length_fmap.
Qed.

Lemma foldl_s32 ds x : Forall (fun c => isdigit c = true) ds ->
  s32 (foldl (fun n c => s32 (n * 10 + schar c - 48)) x ds) = s32 (foldl (fun v d => v * 10 + (d - 48)) x ds).
Proof.
  intros Hd. revert x. induction Hd as [|d ds Hd _ IH]; intros x; [done|]. cbn [foldl]. rewrite IH. clear IH.
  assert (forall y z, y mod 2 ^ 32 = z mod 2 ^ 32 -> forall l, (foldl (fun v d => v * 10 + (d - 48)) y l) mod 2 ^ 32 = (foldl (fun v d => v * 10 + (d - 48)) z l) mod 2 ^ 32) as Hcong.
  { intros y z E l. revert y z E. induction l as [|e l IHl]; intros y z E; [done|]. cbn [foldl]. apply IHl.
    rewrite <-Zplus_mod_idemp_l, <-Zmult_mod_idemp_l, E, Zmult_mod_idemp_l, Zplus_mod_idemp_l. done. }
  apply s32_eq, Hcong. rewrite s32_mod. f_equal. unfold isdigit in Hd. apply andb_true_iff in Hd as [_ Hd%Z.leb_le]. unfold schar. destruct (Z.ltb_spec d 128); lia.
Qed.

Lemma foldl_digits ds : Forall (fun c => isdigit c = true) ds -> digits_value ds < 2 ^ 31 ->
  foldl (fun n c => s32 (n * 10 + schar c - 48)) 0 ds = digits_value ds /\ 0 <= digits_value ds.
Proof.
  intros Hd Hv. assert (forall x, 0 <= x -> 0 <= foldl (fun v d => v * 10 + (d - 48)) x ds) as H0.
  { clear Hv. induction Hd as [|d ds Hd _ IH]; intros x Hx; [done|]. cbn [foldl]. apply IH. unfold isdigit in Hd. apply andb_true_iff in Hd as [Hd%Z.leb_le _]. lia. }
  specialize (H0 0 ltac:(lia)). split; [|exact H0].
  assert (forall l x, - 2 ^ 31 <= x < 2 ^ 31 -> - 2 ^ 31 <= foldl (fun n c => s32 (n * 10 + schar c - 48)) x l < 2 ^ 31) as Hr.
  { induction l as [|c l IH]; intros x Hx; [done|]. cbn [foldl]. apply IH, s32_range. }
  rewrite <-(s32_small (foldl _ 0 ds)) by (apply Hr; lia). rewrite foldl_s32 by done. apply s32_small. unfold digits_value in *. lia.
Qed.

Lemma wp_parse_digits m a p ds t (Q : Z * Z -> mem * A -> Prop) :
  cstr m p (ds ++ t) -> Forall (fun c => isdigit c = true) ds -> digits_value ds < 2 ^ 31 -> isdigit (hd 0 t) = false ->
  Q (p + Z.of_nat (length ds), digits_value ds) (m, a) -> wp (parse_digits p) (m, a) Q.
Proof.
  intros Hs Hd Hv Ht HQ. unfold parse_digits. apply wp_bind, wp_fuel. pose proof (cstr_size _ _ _ Hs) as Hl. rewrite length_app in Hl.
  apply (wp_scan_text m a (fun n c => s32 (n * 10 + schar c - 48)) _ id t Q ds); [| |done|lia|].
  - intros c q y Hc Hq. apply wp_bind, wp_on_mem. eapply wp_load8; [exact Hq|]. apply wp_ret. rewrite isdigit_schar; [done|]. rewrite Forall_forall in Hd. by apply Hd.
  - intros q y Hq. apply wp_bind, wp_on_mem. eapply wp_load8; [exact Hq|]. apply wp_ret. rewrite isdigit_stop; [done| |done].
    destruct t as [|c t]; [unfold byte; cbn; lia|]. apply cstr_app, cstr_cons in Hs. tauto.
  - unfold id. by rewrite (proj1 (foldl_digits ds Hd Hv)).
Qed.

Lemma isdigit_not_star c : isdigit c = true -> (c =? ch "*") = false /\ (c =? ch ".") = false.
Proof. unfold isdigit. rewrite andb_true_iff, !Z.leb_le, !Z.eqb_neq. unfold ch. cbn. lia. Qed.

Lemma wp_parse_number m a p n t args (Q : Z * Z * list Z -> mem * A -> Prop) :
  cstr m p (number_format n ++ t) -> number_ok n -> isdigit (hd 0 t) = false -> hd 0 t ≠ ch "*" ->
  Q (p + Z.of_nat (length (number_format n)), number_value n, args) (m, a) -> wp (parse_number p (number_args n ++ args)) (m, a) Q.
Proof.
  intros Hs Hn Ht1 Ht2 HQ. unfold parse_number. apply wp_bind. eapply wp_rd; [exact Hs|]. destruct n as [ds|n]; cbn [number_format number_args number_value app hd] in *.
  - destruct Hn as [Hd Hv]. assert ((hd 0 (ds ++ t) =? ch "*") = false) as ->.
    { destruct Hd as [|d ds Hd _]; [by apply Z.eqb_neq|]. apply (isdigit_not_star _ Hd). }
    apply wp_bind. eapply wp_parse_digits; [exact Hs|done..|]. by apply wp_ret.
  - cbn in Hn. rewrite Z.eqb_refl. apply wp_bind. eapply wp_lift; [reflexivity|]. apply wp_ret.
    rewrite (s32_eq (u32 n) n), s32_small by (unfold u32; rewrite ?Zmod_mod; lia). exact HQ.
Qed.

(** What may follow the options in a format. *)
Record stops (c : Z) : Prop := {
  st_flag : flag_of c = None; st_digit : isdigit c = false; st_star : c ≠ ch "*"; st_dot : c ≠ ch "." }.

Definition not_type (c : Z) : Prop := c ∉ str "hjltz".

Lemma wp_parse_type m a p ty l t (Q : Z * arg_type -> mem * A -> Prop) :
  cstr m p (type_format ty ++ l :: t) -> not_type l -> Q (p + Z.of_nat (length (type_format ty)), ty) (m, a) -> wp (parse_type p) (m, a) Q.
Proof.
  intros Hs Hl HQ. unfold parse_type. apply wp_bind. eapply wp_rd; [exact Hs|].
  assert (forall c, c ∈ str "hjltz" -> (l =? c) = false) as Hne. { intros c Hc. apply Z.eqb_neq. intros ->. by apply Hl. }
  assert (forall c s, type_format ty = c :: s -> cstr m (p + 1) (s ++ l :: t)) as Hnext.
  { intros c s E. rewrite E in Hs. cbn [app] in Hs. apply cstr_cons in Hs. tauto. }
  destruct ty; cbn in *; rewrite ?Hne by set_solver;
    try (apply wp_bind; eapply wp_rd; [exact (Hnext _ _ eq_refl)|]; cbn; rewrite ?Hne by set_solver); apply wp_ret; try exact HQ.
  by rewrite Z.add_0_r in HQ.
Qed.

Lemma type_stops ty l t : stops l -> not_type l -> stops (hd 0 (type_format ty ++ l :: t)).
Proof. intros Hl Hn. destruct ty; [by split|by split|exact Hl|by split..]. Qed.

(** ** Flags *)

Definition flag_ix (f : flag_name) : Z := match f with FMinus => 0 | FPlus => 1 | FSpace => 2 | FPound => 3 | FZero => 4 | FGroup => 5 end.

Lemma flag_test fl f : flag fl (flag_bit f) = Z.testbit fl (flag_ix f).
Proof.
  assert (flag_bit f = 2 ^ flag_ix f) as -> by (by destruct f). assert (0 <= flag_ix f) as Hk by (destruct f; cbn; lia). unfold flag.
  destruct (Z.testbit fl (flag_ix f)) eqn:E.
  - apply negb_true_iff, Z.eqb_neq. intros H0. assert (Z.testbit (Z.land fl (2 ^ flag_ix f)) (flag_ix f) = true) as H1.
    { by rewrite Z.land_spec, E, Z.pow2_bits_true. }
    by rewrite H0, Z.bits_0 in H1.
  - apply negb_false_iff, Z.eqb_eq. apply Z.bits_inj'. intros n Hn. rewrite Z.land_spec, Z.bits_0, Z.pow2_bits_eqb by done.
    destruct (Z.eqb_spec (flag_ix f) n) as [<-|]; [by rewrite E|apply andb_false_r].
Qed.

Lemma flag_bit_test f f' : Z.testbit (flag_bit f) (flag_ix f') = bool_decide (f = f').
Proof. by destruct f, f'. Qed.

Lemma flag_bits_test fs f : Z.testbit (flag_bits fs) (flag_ix f) = bool_decide (f ∈ fs).
Proof.
  unfold flag_bits. assert (forall x, Z.testbit (foldl (fun x f => Z.lor x (flag_bit f)) x fs) (flag_ix f) = Z.testbit x (flag_ix f) || bool_decide (f ∈ fs)) as ->.
  { induction fs as [|g fs IH]; intros x; cbn [foldl].
    - rewrite bool_decide_eq_false_2 by set_solver. by rewrite orb_false_r.
    - rewrite IH, Z.lor_spec, flag_bit_test, <-orb_assoc. f_equal. apply eq_bool_prop_intro. rewrite orb_True, !bool_decide_spec. set_solver. }
  by rewrite Z.bits_0.
Qed.

(** The conversion [c] stands for the style [s]. *)
Record conv_style (c : printf_conversion) (s : style) : Prop := {
  cs_width : width c = s_width s;
  cs_width_ok : 0 <= s_width s < 2 ^ 31;
  cs_prec : precision c = default (-1) (s_prec s);
  cs_prec_ok : forall n, s_prec s = Some n -> 0 <= n < 2 ^ 31;
  cs_minus : flag (flags c) MINUS = s_left s;
  cs_plus : flag (flags c) PLUS = s_plus s;
  cs_space : s_plus s = false -> flag (flags c) SPACE = s_space s;
  cs_pound : flag (flags c) POUND = s_pound s;
  cs_zero : flag (flags c) ZERO = s_zero s;
  cs_group : flag (flags c) GROUP = s_group s;
  cs_excl : s_left s = true -> s_zero s = false }.

(** The flags as [parse_conversion] leaves them, for a width [w] and a precision [p]. *)
Definition conv_flags (fs : list flag_name) (w p : Z) : Z :=
  let fl := flag_bits fs in
  let fl := if flag fl MINUS then Z.ldiff fl ZERO else fl in
  let fl := if flag fl PLUS then Z.ldiff fl SPACE else fl in
  let fl := if w <? 0 then Z.lor fl MINUS else fl in
  if 0 <=? p then Z.ldiff fl ZERO else fl.

Lemma flag_if (b : bool) x y bit : flag (if b then x else y) bit = if b then flag x bit else flag y bit.
Proof. by destruct b. Qed.
Lemma flag_ldiff fl f f' : flag (Z.ldiff fl (flag_bit f)) (flag_bit f') = flag fl (flag_bit f') && negb (bool_decide (f = f')).
Proof. by rewrite !flag_test, Z.ldiff_spec, flag_bit_test. Qed.
Lemma flag_lor fl f f' : flag (Z.lor fl (flag_bit f)) (flag_bit f') = flag fl (flag_bit f') || bool_decide (f = f').
Proof. by rewrite !flag_test, Z.lor_spec, flag_bit_test. Qed.

Lemma conv_flags_test fs w p f : flag (conv_flags fs w p) (flag_bit f) =
  match f with
  | FMinus => bool_decide (FMinus ∈ fs) || (w <? 0)
  | FSpace => bool_decide (FSpace ∈ fs) && negb (bool_decide (FPlus ∈ fs))
  | FZero => bool_decide (FZero ∈ fs) && negb (bool_decide (FMinus ∈ fs)) && negb (0 <=? p)
  | f => bool_decide (f ∈ fs)
  end.
Proof.
  unfold conv_flags. change MINUS with (flag_bit FMinus). change PLUS with (flag_bit FPlus). change SPACE with (flag_bit FSpace). change ZERO with (flag_bit FZero).
  repeat first [rewrite flag_if | rewrite flag_ldiff | rewrite flag_lor]. rewrite !flag_test, !flag_bits_test.
  destruct (w <? 0), (0 <=? p), f;
    repeat match goal with |- context [bool_decide (?x = ?y)] => let b := eval vm_compute in (bool_decide (x = y)) in change (bool_decide (x = y)) with b end;
    destruct (bool_decide (FMinus ∈ fs)), (bool_decide (FPlus ∈ fs)), (bool_decide (FSpace ∈ fs)), (bool_decide (FZero ∈ fs)); cbn; rewrite ?andb_true_r, ?orb_false_r; done.
Qed.

Lemma conv_flags_style o c : options_ok o ->
  flags c = conv_flags (o_flags o) (number_value (o_width o)) (default (-1) (options_prec o)) ->
  width c = Z.abs (number_value (o_width o)) -> precision c = default (-1) (options_prec o) -> conv_style c (options_style o).
Proof.
  intros [Hw Hf Hp] Ef Ew Ep. assert (forall n, options_prec o = Some n -> 0 <= n < 2 ^ 31) as Hpn.
  { intros n. unfold options_prec. destruct (o_prec o) as [k|]; [|done]. cbn. destruct (Z.leb_spec 0 (number_value k)); [|done]. intros [= <-].
    specialize (Hp k eq_refl). destruct k as [ds|k]; cbn in *; lia. }
  assert ((0 <=? default (-1) (options_prec o)) = bool_decide (is_Some (options_prec o))) as E0.
  { destruct (options_prec o) as [n|]; cbn; [|done]. apply Z.leb_le. by apply Hpn. }
  pose proof (conv_flags_test (o_flags o) (number_value (o_width o)) (default (-1) (options_prec o))) as Ht. rewrite <-Ef in Ht.
  split; cbn; [done| |done|done|exact (Ht FMinus)|exact (Ht FPlus)| |exact (Ht FPound)| |exact (Ht FGroup)|].
  - destruct (o_width o) as [ds|n]; cbn in *; [destruct Hw as [Hd Hv]; pose proof (foldl_digits ds Hd Hv)|]; lia.
  - intros Hpl. change SPACE with (flag_bit FSpace). rewrite (Ht FSpace), Hpl. apply andb_true_r.
  - change ZERO with (flag_bit FZero). rewrite (Ht FZero), E0. f_equal. destruct (bool_decide (FZero ∈ o_flags o)) eqn:Ez; [|done]. cbn. f_equal. unfold options_left.
    destruct (Z.ltb_spec (number_value (o_width o)) 0) as [Hneg|]; [|by rewrite orb_false_r]. apply bool_decide_eq_true in Ez.
    destruct (o_width o) as [ds|n]; cbn in *; [destruct Hw as [Hd Hv]; pose proof (foldl_digits ds Hd Hv); lia|specialize (Hf Ez); lia].
  - intros ->. by rewrite andb_false_r.
Qed.

Definition prec_format (o : options) : list Z := match o_prec o with Some n => ch "." :: number_format n | None => [] end.

Lemma isdigit_flag c : isdigit c = true -> c ≠ ch "0" -> flag_of c = None.
Proof.
  unfold isdigit, flag_of. rewrite andb_true_iff, !Z.leb_le. intros [H1 H2] H3. repeat (rewrite (proj2 (Z.eqb_neq _ _)); [|unfold ch in *; cbn in *; lia]). done.
Qed.

(** What follows the flags, and what follows the width, cannot be taken for a part of it. *)
Lemma options_heads o l t : options_ok o -> stops l -> not_type l ->
  let rest := prec_format o ++ type_format (o_type o) ++ l :: t in
  flag_of (hd 0 (number_format (o_width o) ++ rest)) = None /\ isdigit (hd 0 rest) = false /\ hd 0 rest ≠ ch "*".
Proof.
  intros [Hw Hf _] Hl Hn rest. assert (flag_of (hd 0 rest) = None /\ isdigit (hd 0 rest) = false /\ hd 0 rest ≠ ch "*") as (H1 & H2 & H3).
  { unfold rest, prec_format. destruct (o_prec o); [done|]. cbn [app]. destruct (type_stops (o_type o) l t Hl Hn). done. }
  split; [|done]. destruct (o_width o) as [[|d ds]|n]; cbn in *; [done| |done]. destruct Hw as [Hd _]. inversion_clear Hd. by apply isdigit_flag.
Qed.

Lemma wp_parse_precision m a p o l t args (Q : Z * Z * list Z -> mem * A -> Prop) :
  cstr m p (prec_format o ++ type_format (o_type o) ++ l :: t) -> options_ok o -> stops l -> not_type l ->
  Q (p + Z.of_nat (length (prec_format o)), default (-1) (options_prec o), args) (m, a) ->
  wp (parse_precision p (match o_prec o with Some n => number_args n | None => [] end ++ args)) (m, a) Q.
Proof.
  intros Hs Ho Hl Hn HQ. unfold parse_precision. apply wp_bind. eapply wp_rd; [exact Hs|]. unfold prec_format, options_prec in *. destruct (o_prec o) as [n|] eqn:Ep; cbn [app hd] in *.
  - rewrite Z.eqb_refl. apply cstr_cons in Hs as (_ & _ & _ & _ & Hs). apply wp_bind. destruct (type_stops (o_type o) l t Hl Hn).
    eapply wp_parse_number; [exact Hs|by apply Ho|done|done|]. apply wp_ret. cbn [length] in HQ.
    replace (p + 1 + Z.of_nat (length (number_format n))) with (p + Z.of_nat (S (length (number_format n)))) by lia.
    cbn in HQ. destruct (Z.ltb_spec (number_value n) 0), (Z.leb_spec 0 (number_value n)); try lia; exact HQ.
  - destruct (type_stops (o_type o) l t Hl Hn) as [_ _ _ Hd]. rewrite (proj2 (Z.eqb_neq _ _) Hd). apply wp_ret. by rewrite Z.add_0_r in HQ.
Qed.

Lemma wp_parse_conversion m a p o l t args (Q : Z * printf_conversion * list Z -> mem * A -> Prop) :
  cstr m p (options_format o ++ l :: t) -> options_ok o -> stops l -> not_type l ->
  (forall c, conv_style c (options_style o) -> type c = o_type o -> Q (p + Z.of_nat (length (options_format o)), c, args) (m, a)) ->
  wp (parse_conversion p (options_args o ++ args)) (m, a) Q.
Proof.
  intros Hs Ho Hl Hn HQ. destruct (options_heads o l t Ho Hl Hn) as (H1 & H2 & H3). set (w := number_value (o_width o)).
  assert (options_format o ++ l :: t = (flag_text <$> o_flags o) ++ number_format (o_width o) ++ prec_format o ++ type_format (o_type o) ++ l :: t) as E.
  { unfold options_format, prec_format. by rewrite <-!app_assoc. }
  assert (length (options_format o) = (length (o_flags o) + length (number_format (o_width o)) + length (prec_format o) + length (type_format (o_type o)))%nat) as El.
  { unfold options_format, prec_format. rewrite !length_app, length_fmap. lia. }
  rewrite E in Hs. unfold parse_conversion, options_args. rewrite <-app_assoc. apply wp_bind. eapply wp_parse_flags; [exact Hs|exact H1|].
  apply cstr_app in Hs. rewrite length_fmap in Hs. apply wp_bind. eapply wp_parse_number; [exact Hs|apply Ho|exact H2|exact H3|]. fold w.
  apply cstr_app in Hs. destruct (if w <? 0 then _ else _) as [w' fl] eqn:Ew.
  assert (w' = Z.abs w) as ->.
  { pose proof (ok_width _ Ho) as Hw. destruct (Z.ltb_spec w 0); injection Ew as <- <-; [|lia]. rewrite s32_small; [lia|]. subst w.
    destruct (o_width o) as [ds|n]; cbn in *; [destruct Hw as [Hd Hv]; pose proof (foldl_digits ds Hd Hv)|]; lia. }
  apply wp_bind. eapply wp_parse_precision; [exact Hs|done..|]. apply cstr_app in Hs. apply wp_bind. eapply wp_parse_type; [exact Hs|done|]. apply wp_ret.
  rewrite El in HQ. replace (p + Z.of_nat (length (o_flags o)) + _ + _ + _) with
    (p + Z.of_nat (length (o_flags o) + length (number_format (o_width o)) + length (prec_format o) + length (type_format (o_type o)))) by lia.
  apply HQ; [|done]. apply conv_flags_style; [done| |done|done]. cbn. unfold conv_flags. fold w. by destruct (w <? 0); injection Ew as _ <-.
Qed.
End Parse.

(** * Output *)

Section Output.
Context {A : Type} (output : Z -> M (mem * A) unit) (R : Z -> Prop) (m0 : mem) (lim : Z) (I : list Z -> mem * A -> Prop).
Context `{HS : !Sink output R m0 lim I}.

Lemma output_n_all c n : output_n output c n = output_all output (replicate n c).
Proof. induction n as [|n IH]; [done|]. cbn. by rewrite IH. Qed.

(** Sending the characters [t]. *)
Lemma wp_output_all t l s (Q : unit -> mem * A -> Prop) :
  I l s -> Forall byte t -> Z.of_nat (length (l ++ t)) <= lim -> (forall s', I (l ++ t) s' -> Q tt s') -> wp (output_all output t) s Q.
Proof.
  intros HI Ht. revert l s HI. induction Ht as [|c t Hc _ IH]; intros l s HI Hl HQ; cbn [output_all].
  - apply wp_ret. apply HQ. by rewrite app_nil_r.
  - apply wp_bind. rewrite length_app in Hl. cbn in Hl. eapply wp_mono; [apply (sink_output l c s HI Hc); lia|]. intros [] s' HI'.
    apply (IH _ _ HI'); rewrite <-app_assoc; [|exact HQ]. rewrite length_app. cbn. lia.
Qed.

Lemma output_if (b : bool) c n : (if b then output_dup output c n else mret tt) = output_all output (if b then replicate (Z.to_nat (u32 n)) c else []).
Proof. destruct b; [apply output_n_all|done]. Qed.

(** The same before other output; texts of one byte need no [output_all]. *)
Lemma wp_output_then {B} t (k : unit -> M (mem * A) B) l s (Q : B -> mem * A -> Prop) :
  I l s -> Forall byte t -> Z.of_nat (length (l ++ t)) <= lim -> (forall s', I (l ++ t) s' -> wp (k tt) s' Q) -> wp (output_all output t ≫= k) s Q.
Proof. intros. apply wp_bind. by eapply wp_output_all. Qed.

(** ** Integers *)

Record base_ok (b : integer_base) : Prop := {
  bo_base : 8 <= base b;
  bo_digits : Z.of_nat (length (digits b)) = base b;
  bo_bytes : Forall byte (digits b);
  bo_x : byte (x_char b);
  bo_group : 0 < group b }.

Lemma push_ok c buf : Z.of_nat (length buf) < 64 -> push c buf = Ok (c :: buf).
Proof. intros H. unfold push. by rewrite (proj2 (Z.ltb_lt _ _) H). Qed.

Lemma base_digit b v : base_ok b -> 0 < v -> digits b !! Z.to_nat (v mod base b) = Some (digits b !!! Z.to_nat (v mod base b)).
Proof.
  intros [Hb Hd _ _ _] Hv. apply list_lookup_lookup_total_lt. pose proof (Z.mod_pos_bound v (base b)). lia.
Qed.

Section Integer.
Context (b : integer_base) (c : printf_conversion) (st : style).
Hypothesis Hb : base_ok b.
Hypothesis Hc : conv_style c st.

Lemma wp_digit_loop n : forall v buf i fuel s (Q : list Z -> mem * A -> Prop),
  0 <= v < base b ^ Z.of_nat n -> 0 <= i -> Z.of_nat (length buf) + 2 * Z.of_nat n <= 64 -> (n < fuel)%nat ->
  Q (reverse (separate st (group b) i (reverse (digits_of b n v))) ++ buf) s ->
  wp (loop fuel (fun '(value, buf, digit_cnt) =>
    if 0 <? value then
      buf ← (if flag (flags c) GROUP && (0 <? digit_cnt) && (digit_cnt mod group b =? 0) then mlift (push (ch ",") buf) else mret buf);
      d ← mlift (match digits b !! Z.to_nat (value mod base b) with Some d => Ok d | None => Err Fault end);
      buf ← mlift (push d buf);
      mret (inl (value / base b, buf, digit_cnt + 1))
    else mret (inr buf)) (v, buf, i)) s Q.
Proof.
  induction n as [|n IH]; intros v buf i fuel s Q Hv Hi Hl Hf HQ; (destruct fuel as [|fuel]; [lia|]); apply wp_loop_S.
  - assert (v = 0) as -> by (cbn in Hv; lia). apply wp_ret. cbn in HQ. unfold separate in HQ. by destruct (s_group st).
  - cbn [digits_of] in HQ. destruct (Z.ltb_spec 0 v) as [Hp|Hp].
    2:{ apply wp_ret. unfold separate in HQ. by destruct (s_group st). }
    pose proof (bo_base _ Hb) as Hb8. assert (0 <= v / base b < base b ^ Z.of_nat n) as Hv'.
    { split; [apply Z.div_pos; lia|]. apply Z.div_lt_upper_bound; [lia|]. rewrite Nat2Z.inj_succ, Z.pow_succ_r in Hv by lia. lia. }
    set (d := digits b !!! Z.to_nat (v mod base b)) in *. rewrite reverse_app, reverse_singleton in HQ. cbn [app] in HQ.
    apply wp_bind. destruct (flag (flags c) GROUP && (0 <? i) && (i mod group b =? 0)) eqn:Eg; rewrite (cs_group _ _ Hc) in Eg.
    + eapply wp_lift; [apply push_ok; lia|]. apply wp_bind. eapply wp_lift; [by rewrite base_digit by done|]. apply wp_bind.
      eapply wp_lift; [apply push_ok; cbn; lia|]. apply wp_ret. apply (IH (v / base b) _ (i + 1) fuel s Q); [done|lia|cbn; lia|lia|].
      apply andb_true_iff in Eg as [[Eg Ei]%andb_true_iff Em]. unfold separate in *. rewrite Eg in *. cbn [commas] in HQ. rewrite Ei, Em in HQ. cbn [andb app] in HQ.
      by rewrite !reverse_cons, <-!app_assoc in HQ.
    + apply wp_ret. apply wp_bind. eapply wp_lift; [by rewrite base_digit by done|]. apply wp_bind.
      eapply wp_lift; [apply push_ok; lia|]. apply wp_ret. apply (IH (v / base b) _ (i + 1) fuel s Q); [done|lia|cbn; lia|lia|].
      unfold separate in *. destruct (s_group st); cbn [commas andb] in HQ, Eg; rewrite ?Eg in HQ; cbn [app] in HQ; by rewrite !reverse_cons, <-!app_assoc in HQ.
Qed.

Lemma wp_zero_loop prec : forall n buf fuel s (Q : list Z -> mem * A -> Prop),
  (n = Z.to_nat (Z.min prec 63) - length buf)%nat -> (n < fuel)%nat -> Q (replicate n (ch "0") ++ buf) s ->
  wp (loop fuel (fun buf =>
    if (Z.of_nat (length buf) <? prec) && (Z.of_nat (length buf) <? 64 - 1) then
      buf ← mlift (push (ch "0") buf);
      mret (inl buf)
    else mret (inr buf)) buf) s Q.
Proof.
  induction n as [|n IH]; intros buf fuel s Q En Hf HQ; (destruct fuel as [|fuel]; [lia|]); apply wp_loop_S.
  - destruct (Z.ltb_spec (Z.of_nat (length buf)) prec), (Z.ltb_spec (Z.of_nat (length buf)) (64 - 1)); try lia; by apply wp_ret.
  - destruct (Z.ltb_spec (Z.of_nat (length buf)) prec), (Z.ltb_spec (Z.of_nat (length buf)) (64 - 1)); try lia. cbn [andb].
    apply wp_bind. eapply wp_lift; [apply push_ok; lia|]. apply wp_ret. apply IH; [cbn; lia|lia|].
    change (ch "0" :: buf) with ([ch "0"] ++ buf). rewrite app_assoc. by rewrite <-replicate_S_end.
Qed.

Lemma wp_output_one {B} z (k : unit -> M (mem * A) B) l s (Q : B -> mem * A -> Prop) :
  I l s -> byte z -> Z.of_nat (length l) < lim -> (forall s', I (l ++ [z]) s' -> wp (k tt) s' Q) -> wp (output z ≫= k) s Q.
Proof. intros HI Hz Hl HQ. apply wp_bind. eapply wp_mono; [by apply (sink_output l z s HI Hz)|]. intros [] s' HI'. by apply HQ. Qed.

(** A sign, if it is not 0. *)
Definition opt_char (z : Z) : list Z := if z =? 0 then [] else [z].

Lemma wp_output_sign {B} z (k : unit -> M (mem * A) B) l s (Q : B -> mem * A -> Prop) :
  I l s -> byte z -> Z.of_nat (length (l ++ opt_char z)) <= lim -> (forall s', I (l ++ opt_char z) s' -> wp (k tt) s' Q) ->
  wp ((if negb (z =? 0) then output z else mret tt) ≫= k) s Q.
Proof.
  intros HI Hz Hl HQ. unfold opt_char in *. destruct (z =? 0); cbn [negb].
  - apply wp_bind, wp_ret. apply HQ. by rewrite app_nil_r.
  - rewrite length_app in Hl. cbn in Hl. eapply wp_output_one; [done|done|lia|done].
Qed.

Definition x_prefix (z : Z) : list Z := if z =? 0 then [] else [ch "0"; z].

Lemma wp_output_x {B} z (k : unit -> M (mem * A) B) l s (Q : B -> mem * A -> Prop) :
  I l s -> byte z -> Z.of_nat (length (l ++ x_prefix z)) <= lim -> (forall s', I (l ++ x_prefix z) s' -> wp (k tt) s' Q) ->
  wp ((if negb (z =? 0) then output (ch "0");; output z else mret tt) ≫= k) s Q.
Proof.
  intros HI Hz Hl HQ. unfold x_prefix in *. destruct (z =? 0); cbn [negb].
  - apply wp_bind, wp_ret. apply HQ. by rewrite app_nil_r.
  - rewrite length_app in Hl. cbn in Hl. apply wp_assoc. eapply wp_output_one; [done|unfold byte, ch; cbn; lia|lia|]. intros s' HI'.
    eapply wp_output_one; [done|done|rewrite length_app; cbn; lia|]. intros s2 HI2. apply HQ. by rewrite <-app_assoc in HI2.
Qed.

(** The digits fill at most 44 characters of the buffer, and all of them at most 64. *)
Lemma digits_of_length n v : (length (digits_of b n v) <= n)%nat.
Proof. revert v. induction n as [|n IH]; intros v; [done|]. cbn. destruct (0 <? v); [|cbn; lia]. rewrite length_app. cbn. specialize (IH (v / base b)). lia. Qed.

Lemma commas_length g i rds : (length (commas g i rds) <= 2 * length rds)%nat.
Proof. revert i. induction rds as [|d rds IH]; intros i; [done|]. cbn [commas]. rewrite length_app. specialize (IH (i + 1)). destruct (_ && _); cbn; lia. Qed.

Lemma separate_length g i rds : (length (separate st g i rds) <= 2 * length rds)%nat.
Proof. unfold separate. destruct (s_group st); [apply commas_length|lia]. Qed.

Lemma number_text_length v : (length (number_text b st v) <= 64)%nat.
Proof.
  unfold number_text. pose proof (separate_length (group b) 0 (reverse (digits_of b 22 v))) as H1. rewrite length_reverse in H1. pose proof (digits_of_length 22 v).
  set (ds := reverse (separate _ _ _ _)). assert (length ds <= 44)%nat by (unfold ds; rewrite length_reverse; lia).
  destruct (_ && _); cbn [length]; rewrite length_app, length_replicate; lia.
Qed.

Lemma digits_of_bytes n v : Forall byte (digits_of b n v).
Proof.
  revert v. induction n as [|n IH]; intros v; [done|]. cbn. destruct (Z.ltb_spec 0 v); [|done]. apply Forall_app. split; [done|]. apply Forall_singleton.
  pose proof (base_digit b v Hb ltac:(lia)) as E. exact (Forall_lookup_1 _ _ _ _ (bo_bytes _ Hb) E).
Qed.

Lemma commas_bytes g i rds : Forall byte rds -> Forall byte (commas g i rds).
Proof.
  intros H. revert i. induction H as [|d rds Hd _ IH]; intros i; [done|]. cbn [commas]. apply Forall_app. split; [|apply IH].
  destruct (_ && _); [apply Forall_cons; split; [done|]|]; by apply Forall_singleton.
Qed.

Lemma number_text_bytes v : Forall byte (number_text b st v).
Proof.
  unfold number_text. assert (Forall byte (reverse (separate st (group b) 0 (reverse (digits_of b 22 v))))) as H.
  { apply Forall_reverse. unfold separate. pose proof (Forall_reverse byte (digits_of b 22 v)) as Hr. destruct (s_group st); [apply commas_bytes|]; apply Hr, digits_of_bytes. }
  set (ds := reverse _) in *. assert (Forall byte (replicate (Z.to_nat (Z.min (default 1 (s_prec st)) 63) - length ds) (ch "0") ++ ds)) as H2.
  { apply Forall_app. split; [by apply Forall_replicate|done]. }
  destruct (_ && _); [by constructor|done].
Qed.

Lemma style_prec : (if precision c <? 0 then 1 else precision c) = default 1 (s_prec st).
Proof.
  rewrite (cs_prec _ _ Hc). pose proof (cs_prec_ok _ _ Hc) as H. destruct (s_prec st) as [n|]; cbn; [|done]. specialize (H n eq_refl).
  destruct (Z.ltb_spec n 0); [lia|done].
Qed.

Lemma head_test (ds : list Z) : (match ds with [] => true | d :: _ => negb (d =? ch "0") end) = negb (bool_decide (head ds = Some (ch "0"))).
Proof. destruct ds as [|d ds]; cbn; [done|]. f_equal. destruct (Z.eqb_spec d (ch "0")) as [->|Hn]; [by rewrite bool_decide_true|]. rewrite bool_decide_false; [done|]. by intros [= ->]. Qed.

(** The sign and the [x] of [format_integer], as texts. *)
Definition sign_of (is_signed negative : bool) : list Z := if is_signed then sign_chars st (if negative then -1 else 0) else [].

Lemma sign_code (is_signed negative : bool) :
  let sign := if is_signed then
      if flag (flags c) PLUS then (if negative then ch "-" else ch "+")
      else if flag (flags c) SPACE then (if negative then ch "-" else ch " ")
      else if negative then ch "-" else 0
    else 0 in opt_char sign = sign_of is_signed negative /\ byte sign.
Proof.
  pose proof (cs_space _ _ Hc) as Hsp. rewrite (cs_plus _ _ Hc). unfold sign_of, sign_chars.
  destruct is_signed, (s_plus st), negative; cbn zeta; try done; rewrite (Hsp eq_refl); by destruct (s_space st).
Qed.

Lemma x_code v : let x := if flag (flags c) POUND && negb (v =? 0) then x_char b else 0 in x_prefix x = x_chars b st v /\ byte x.
Proof.
  rewrite (cs_pound _ _ Hc). unfold x_prefix, x_chars. pose proof (bo_x _ Hb). destruct (s_pound st && negb (v =? 0)); cbn zeta; [|done].
  split; [|done]. by destruct (x_char b =? 0).
Qed.

(** The number of characters that fill the field. *)
Lemma pad_code (sign x : Z) (body : list Z) : (length body <= 64)%nat ->
  Z.to_nat (u32 (let pad_cnt := s32 (width c - Z.of_nat (length body) - (if x =? 0 then 0 else 2) - (if sign =? 0 then 0 else 1)) in
    if pad_cnt <? 0 then 0 else pad_cnt)) = (Z.to_nat (s_width st) - length ((opt_char sign ++ x_prefix x) ++ body))%nat.
Proof.
  intros Hl. rewrite (cs_width _ _ Hc). pose proof (cs_width_ok _ _ Hc). rewrite s32_small by (destruct (x =? 0), (sign =? 0); lia).
  rewrite !length_app. unfold opt_char, x_prefix. cbn zeta. set (k := s_width st - _ - _ - _). assert (k < 2 ^ 31) by (subst k; destruct (x =? 0), (sign =? 0); lia).
  unfold u32. rewrite Z.mod_small by (destruct (Z.ltb_spec k 0); lia). destruct (Z.ltb_spec k 0); subst k; destruct (x =? 0), (sign =? 0); cbn [length]; lia.
Qed.

Lemma no_pad_flags : (Z.land (flags c) (Z.lor MINUS ZERO) =? 0) = negb (s_left st) && negb (s_zero st).
Proof.
  rewrite <-(cs_minus _ _ Hc), <-(cs_zero _ _ Hc). rewrite Z.land_lor_distr_r. unfold flag. rewrite !negb_involutive.
  destruct (Z.eqb_spec (Z.lor (Z.land (flags c) MINUS) (Z.land (flags c) ZERO)) 0) as [E|E].
  - apply Z.lor_eq_0_iff in E as [-> ->]. done.
  - symmetry. apply andb_false_iff. rewrite !Z.eqb_neq. destruct (decide (Z.land (flags c) MINUS = 0)) as [E1|]; [|by left]. right. intros E2. by rewrite E1, E2 in E.
Qed.

Lemma wp_format_integer value is_signed negative l s (Q : unit -> mem * A -> Prop) :
  let text := field st (sign_of is_signed negative ++ x_chars b st value) (number_text b st value) in
  I l s -> 0 <= value < 2 ^ 64 -> Z.of_nat (length (l ++ text)) <= lim -> (forall s', I (l ++ text) s' -> Q tt s') ->
  wp (format_integer output value is_signed negative b c) s Q.
Proof.
  intros text HI Hv Hl HQ. unfold format_integer. destruct (sign_code is_signed negative) as [Es Bs]. destruct (x_code value) as [Ex Bx].
  set (sign := if is_signed then _ else _) in *. set (x := if flag (flags c) POUND && negb (value =? 0) then _ else _) in *. cbn zeta.
  apply wp_bind. eapply (wp_digit_loop 22); [|lia|cbn; lia|lia|].
  { split; [lia|]. eapply Z.lt_le_trans; [apply Hv|]. etransitivity; [|apply (Z.pow_le_mono_l 8); split; [lia|apply (bo_base _ Hb)]]. done. }
  rewrite app_nil_r. set (ds := reverse _). assert (length ds <= 44)%nat as Hds.
  { unfold ds. rewrite length_reverse. pose proof (separate_length (group b) 0 (reverse (digits_of b 22 value))) as H1. rewrite length_reverse in H1.
    pose proof (digits_of_length 22 value). lia. }
  rewrite style_prec. apply wp_bind. eapply wp_zero_loop; [reflexivity|lia|]. set (zs := replicate _ _ ++ ds).
  assert (length zs <= 63)%nat as Hzs by (unfold zs; rewrite length_app, length_replicate; lia).
  apply wp_bind. rewrite head_test, (cs_pound _ _ Hc). assert (number_text b st value = if s_pound st && (base b =? 8) && negb (bool_decide (head zs = Some (ch "0"))) then ch "0" :: zs else zs) as En by done.
  pose proof (number_text_length value) as Hnl. pose proof (number_text_bytes value) as Hnb. set (body := number_text b st value) in *.
  eapply (wp_mono _ _ (fun buf s' => buf = body /\ s' = s)).
  { revert En. generalize (s_pound st && (base b =? 8) && negb (bool_decide (head zs = Some (ch "0")))). intros [] ->; [eapply wp_lift; [apply push_ok; lia|done]|by apply wp_ret]. }
  intros ? ? [-> ->]. rewrite no_pad_flags, (cs_minus _ _ Hc), (cs_zero _ _ Hc), !output_if. 
  pose proof (pad_code sign x body Hnl) as Hp. cbn zeta in Hp. rewrite Hp. clear Hp. set (pad := (Z.to_nat (s_width st) - _)%nat).
  assert (text = (if negb (s_left st) && negb (s_zero st) then replicate pad (ch " ") else []) ++ opt_char sign ++ x_prefix x ++
    (if s_zero st then replicate pad (ch "0") else []) ++ body ++ (if s_left st then replicate pad (ch " ") else [])) as Et.
  { unfold text, field. rewrite <-Es, <-Ex. fold body. fold pad. pose proof (cs_excl _ _ Hc) as Hx.
    destruct (s_left st), (s_zero st); cbn [negb andb app]; rewrite ?app_nil_r, <-?app_assoc; try done. discriminate (Hx eq_refl). }
  rewrite Et in Hl, HQ. rewrite !length_app in Hl.
  assert (forall (q : bool) z, byte z -> Forall byte (if q then replicate pad z else [])) as Hrep by (intros [] z Hz; [by apply Forall_replicate|done]).
  eapply wp_output_then; [done|by apply Hrep|rewrite length_app; lia|]. intros s1 I1.
  eapply wp_output_sign; [done|done|rewrite !length_app; lia|]. intros s2 I2.
  eapply wp_output_x; [done|done|rewrite !length_app; lia|]. intros s3 I3.
  eapply wp_output_then; [done|by apply Hrep|rewrite !length_app; lia|]. intros s4 I4.
  eapply wp_output_then; [done|done|rewrite !length_app; lia|]. intros s5 I5.
  eapply wp_output_all; [done|by apply Hrep|rewrite !length_app; lia|]. intros s6 I6. apply HQ. by rewrite <-!app_assoc in I6.
Qed.
End Integer.

(** ** Strings *)

Lemma wp_output_chars (string : Z -> M (mem * A) Z) cs l s i (Q : unit -> mem * A -> Prop) :
  (forall k c l s, cs !! k = Some c -> I l s -> wp (string (i + Z.of_nat k)) s (fun x s' => x = c /\ s' = s)) ->
  I l s -> Forall byte cs -> Z.of_nat (length (l ++ cs)) <= lim -> (forall s', I (l ++ cs) s' -> Q tt s') ->
  wp (output_chars output string i (length cs)) s Q.
Proof.
  revert l s i. induction cs as [|c cs IH]; intros l s i Hr HI Hb Hl HQ; cbn [output_chars length].
  - apply wp_ret. apply HQ. by rewrite app_nil_r.
  - rewrite length_app in Hl. cbn in Hl. inversion_clear Hb as [|? ? Hc Hb']. apply wp_bind. pose proof (Hr O c l s eq_refl HI) as H0. rewrite Z.add_0_r in H0.
    eapply wp_mono; [exact H0|]. intros x s' [-> ->].
    eapply wp_output_one; [done|done|lia|]. intros s' HI'. eapply IH; [|exact HI'|done|rewrite !length_app; cbn; lia|].
    + intros k d l2 s2 Hk HI2. replace (i + 1 + Z.of_nat k) with (i + Z.of_nat (S k)) by lia. by eapply Hr.
    + intros s2. rewrite <-app_assoc. apply HQ.
Qed.

Lemma wp_format_string (string : Z -> M (mem * A) Z) c st cs l s (Q : unit -> mem * A -> Prop) :
  conv_style c st -> (forall k x l s, cs !! k = Some x -> I l s -> wp (string (Z.of_nat k)) s (fun y s' => y = x /\ s' = s)) ->
  I l s -> Forall byte cs -> Z.of_nat (length (l ++ string_text st cs)) <= lim -> (forall s', I (l ++ string_text st cs) s' -> Q tt s') ->
  wp (format_string output string (Z.of_nat (length cs)) c) s Q.
Proof.
  intros Hc Hr HI Hb Hl HQ. unfold format_string. rewrite (cs_minus _ _ Hc), (cs_width _ _ Hc), !output_if. pose proof (cs_width_ok _ _ Hc) as Hw.
  assert (forall q : bool, (if (Z.of_nat (length cs) <? s_width st) && q then replicate (Z.to_nat (u32 (s_width st - Z.of_nat (length cs)))) (ch " ") else []) =
    if q then replicate (Z.to_nat (s_width st) - length cs) (ch " ") else []) as E.
  { intros []; [|by rewrite andb_false_r]. rewrite andb_true_r. destruct (Z.ltb_spec (Z.of_nat (length cs)) (s_width st)).
    - unfold u32. rewrite Z.mod_small by lia. f_equal. lia.
    - by replace (Z.to_nat (s_width st) - length cs)%nat with O by lia. }
  rewrite !E, Nat2Z.id. set (pad := replicate _ _). assert (Forall byte pad) by (by apply Forall_replicate).
  assert (string_text st cs = (if negb (s_left st) then pad else []) ++ cs ++ (if s_left st then pad else [])) as Et.
  { unfold string_text. fold pad. destruct (s_left st); cbn [negb]; by rewrite ?app_nil_r. }
  rewrite Et in Hl, HQ. rewrite !length_app in Hl.
  assert (forall q : bool, Forall byte (if q then pad else [])) as Hpad by (by intros []).
  eapply wp_output_then; [done|apply Hpad|rewrite length_app; lia|]. intros s1 I1. apply wp_bind.
  eapply wp_output_chars; [|exact I1|done|rewrite !length_app; lia|]. { intros k x l2 s2 Hk I2. by eapply Hr. }
  intros s2 I2. eapply wp_output_all; [done|apply Hpad|rewrite !length_app; lia|]. intros s3 I3. apply HQ. by rewrite <-!app_assoc in I3.
Qed.

(** ** Arguments *)

Lemma mod_mod_pow v i j : 0 <= i <= j -> (v mod 2 ^ j) mod 2 ^ i = v mod 2 ^ i.
Proof. intros H. apply Z.mod_mod_divide. exists (2 ^ (j - i)). rewrite <-Z.pow_add_r by lia. f_equal. lia. Qed.

Lemma quad_words v : u32 v + u32 (v / 2 ^ 32) * 2 ^ 32 = v mod 2 ^ 64.
Proof. unfold u32. change (2 ^ 64) with (2 ^ 32 * 2 ^ 32). rewrite Z.rem_mul_r by lia. lia. Qed.

Lemma va_signed_args t v args : va_signed t (int_args t v ++ args) = Ok (swrap (type_bits t) v, args).
Proof.
  assert (forall w, 0 <= w <= 32 -> swrap w (u32 v) = swrap w v) as H. { intros w Hw. apply swrap_eq. unfold u32. by rewrite mod_mod_pow. }
  destruct t; cbn [va_signed int_args is_wide app va_word va_quad mbind res_bind type_bits]; rewrite ?quad_words; unfold s32, s64; rewrite ?H by lia; try done.
  - do 2 f_equal. apply swrap_eq. by rewrite Zmod_mod.
  - do 2 f_equal. apply swrap_eq. by rewrite Zmod_mod.
  - do 2 f_equal. rewrite <-H by lia. unfold swrap. pose proof (Z.mod_pos_bound v (2 ^ 32) ltac:(lia)) as Hr. fold (u32 v) in Hr.
    destruct (Z.ltb_spec ((2 ^ 32 - 1) / 2) (u32 v)) as [Hg|Hg]; change ((2 ^ 32 - 1) / 2) with (2 ^ 31 - 1) in Hg.
    + replace (u32 v + 2 ^ (32 - 1)) with (u32 v - 2 ^ 31 + 1 * 2 ^ 32) by lia. rewrite Z.mod_add, Z.mod_small by lia. lia.
    + rewrite Z.mod_small; lia.
Qed.

Lemma va_unsigned_args t v args : va_unsigned t (int_args t v ++ args) = Ok (v mod 2 ^ type_bits t, args).
Proof.
  destruct t; cbn [va_unsigned int_args is_wide app va_word va_quad mbind res_bind type_bits]; rewrite ?quad_words; unfold u32; rewrite ?mod_mod_pow by lia; try done.
  do 2 f_equal. change (Z.lor (Z.shiftl (2 ^ 31 - 1) 1) 1) with (Z.ones 32). rewrite Z.land_ones by lia. unfold u64. rewrite mod_mod_pow, s32_mod by lia. apply Zmod_mod.
Qed.

Lemma char_arg v : u8 (u32 v) = u8 v.
Proof. unfold u8, u32. by apply mod_mod_pow. Qed.

(** ** Conversions *)

Context (lit : string -> Z).
Hypothesis Hlit : forall k, k ∈ literals -> kept R m0 (lit k) (str k).

Definition conv_of (d : directive) : option (options * Z * list Z) :=
  match d with
  | Plain _ | Percent => None
  | Signed o l v | Unsigned o l v => Some (o, l, int_args (o_type o) v)
  | Character o v => Some (o, ch "c", [u32 v])
  | Text o p _ => Some (o, ch "s", [p])
  | Pointer o p => Some (o, ch "p", [p])
  | Unknown o l => Some (o, l, [])
  end.

Definition message (letter : Z) (k : string) : list Z := str "<<no %" ++ [letter] ++ str k.

(** [printf_] prints the messages. *)
Definition messages (printf_ : Z -> list Z -> M (mem * A) unit) : Prop := forall l s letter k,
  k ∈ [" in kernel>>"; " conversion>>"]%string -> byte letter -> I l s -> Z.of_nat (length (l ++ message letter k)) <= lim ->
  wp (printf_ (lit (String.append "<<no %%%c" k)) [u32 (schar letter)]) s (fun _ s' => I (l ++ message letter k) s').

Lemma base_d_ok : base_ok base_d.
Proof. split; [done|done| |done|done]. repeat (constructor; [done|]). constructor. Qed.
Lemma base_of_ok letter : base_ok (base_of letter).
Proof. unfold base_of. repeat case_match; (split; [done|done| |done|done]; repeat (constructor; [done|]); constructor). Qed.

Lemma pointer_conv c o : conv_style c (options_style o) -> conv_style (mk_conversion POUND (width c) (precision c) (type c)) (pointer_style o).
Proof. intros Hc. split; try done; apply Hc. Qed.

Lemma kept_cstr l m a p t : I l (m, a) -> kept R m0 p t -> cstr m p t.
Proof. intros HI [Hs Hr]. eapply cstr_frame; [exact Hs|]. intros i Hi. eapply sink_reads; [exact HI|]. by apply Hr. Qed.

(** Evaluates comparisons of known characters. *)
Ltac chars := repeat match goal with |- context [?x =? ch ?y] => let r := eval vm_compute in (x =? ch y) in change (x =? ch y) with r end; cbn [orb].

Section Convert.
Context (printf_ : Z -> list Z -> M (mem * A) unit) (c : printf_conversion) (o : options) (args l : list Z) (s : mem * A) (Q : list Z -> mem * A -> Prop).
Hypothesis Hc : conv_style c (options_style o).
Hypothesis Ht : type c = o_type o.
Hypothesis HI : I l s.

Lemma wp_convert_signed letter v (out := dir_output (Signed o letter v)) : letter ∈ str "di" ->
  Z.of_nat (length (l ++ out)) <= lim -> (forall s', I (l ++ out) s' -> Q args s') ->
  wp (convert output lit printf_ letter c (int_args (o_type o) v ++ args)) s Q.
Proof.
  intros Hin Hl HQ. assert (wp ('(value, args) ← mlift (va_signed (type c) (int_args (o_type o) v ++ args));
    format_integer output (u64 (if value <? 0 then - value else value)) true (value <? 0) base_d c;; mret args) s Q) as H.
  { rewrite Ht. apply wp_bind. eapply wp_lift; [apply va_signed_args|]. cbn [dir_output] in out. set (w := swrap _ v) in *. cbn beta iota.
    assert (- 2 ^ 63 <= w < 2 ^ 63) as Hw. { pose proof (swrap_range (type_bits (o_type o)) v) as Hr. fold w in Hr. destruct (o_type o); cbn in Hr; lia. }
    assert (u64 (if w <? 0 then - w else w) = Z.abs w) as ->. { unfold u64. destruct (Z.ltb_spec w 0); rewrite Z.mod_small; lia. }
    apply wp_bind. assert (out = field (options_style o) (sign_of (options_style o) true (w <? 0) ++ x_chars base_d (options_style o) (Z.abs w)) (number_text base_d (options_style o) (Z.abs w))) as Eo.
    { subst out. unfold signed_text, sign_of, x_chars. f_equal. cbn [x_char base_d]. rewrite andb_false_r, app_nil_r. unfold sign_chars. by destruct (w <? 0). }
    eapply (wp_format_integer base_d c (options_style o)); [apply base_d_ok|exact Hc|exact HI|lia|by rewrite <-Eo|]. intros s' HI'. apply wp_ret, HQ. by rewrite Eo. }
  assert (letter = ch "d" \/ letter = ch "i") as [-> | ->] by (unfold str in Hin; cbn in Hin; set_solver); unfold convert; chars; exact H.
Qed.

Lemma wp_convert_unsigned letter v (out := dir_output (Unsigned o letter v)) : letter ∈ str "ouxX" ->
  Z.of_nat (length (l ++ out)) <= lim -> (forall s', I (l ++ out) s' -> Q args s') ->
  wp (convert output lit printf_ letter c (int_args (o_type o) v ++ args)) s Q.
Proof.
  intros Hin Hl HQ. assert (wp ('(value, args) ← mlift (va_unsigned (type c) (int_args (o_type o) v ++ args));
    format_integer output value false false (base_of letter) c;; mret args) s Q) as H.
  { rewrite Ht. apply wp_bind. eapply wp_lift; [apply va_unsigned_args|]. apply wp_bind.
    eapply (wp_format_integer (base_of letter) c (options_style o)); [apply base_of_ok|exact Hc|exact HI| |exact Hl|].
    - pose proof (Z.mod_pos_bound v (2 ^ type_bits (o_type o))) as Hr. destruct (o_type o); cbn in *; lia.
    - intros s' HI'. by apply wp_ret, HQ. }
  assert (letter = ch "o" \/ letter = ch "u" \/ letter = ch "x" \/ letter = ch "X") as [-> |[-> |[-> | ->]]] by (unfold str in Hin; cbn in Hin; set_solver);
    unfold convert; chars; exact H.
Qed.

Lemma wp_convert_pointer p (out := dir_output (Pointer o p)) : 0 <= p < 2 ^ 32 ->
  Z.of_nat (length (l ++ out)) <= lim -> (forall s', I (l ++ out) s' -> Q args s') -> wp (convert output lit printf_ (ch "p") c ([p] ++ args)) s Q.
Proof.
  intros Hp Hl HQ. unfold convert. chars. apply wp_bind. eapply wp_lift; [reflexivity|]. apply wp_bind.
  eapply (wp_format_integer base_x _ (pointer_style o)); [apply (base_of_ok (ch "x"))|by apply pointer_conv|exact HI|lia|exact Hl|].
  intros s' HI'. by apply wp_ret, HQ.
Qed.

Lemma wp_convert_character v (out := dir_output (Character o v)) :
  Z.of_nat (length (l ++ out)) <= lim -> (forall s', I (l ++ out) s' -> Q args s') -> wp (convert output lit printf_ (ch "c") c ([u32 v] ++ args)) s Q.
Proof.
  intros Hl HQ. unfold convert. chars. apply wp_bind. eapply wp_lift; [reflexivity|]. apply wp_bind.
  apply (wp_format_string _ c (options_style o) [u8 v] l); [exact Hc| |exact HI|apply Forall_singleton, byte_u8|exact Hl|].
  - intros k x l2 s2 Hk I2. apply wp_ret. rewrite char_arg. destruct k; [|done]. by injection Hk as ->.
  - intros s' HI'. by apply wp_ret, HQ.
Qed.

Definition shown (t : list Z) : list Z := match options_prec o with Some p => take (Z.to_nat p) t | None => t end.

Lemma shown_sub t k x : shown t !! k = Some x -> t !! k = Some x.
Proof. unfold shown. destruct (options_prec o); [|done]. rewrite lookup_take_Some. tauto. Qed.

Lemma string_text_length st t : (length t <= length (string_text st t))%nat.
Proof. unfold string_text. destruct (s_left st); rewrite length_app; lia. Qed.

Lemma wp_convert_text p t (out := dir_output (Text o p t)) : (p = NULL /\ t = str "(null)") \/ (kept R m0 p t /\ p < 2 ^ 32) ->
  Z.of_nat (length (l ++ out)) <= lim -> (forall s', I (l ++ out) s' -> Q args s') -> wp (convert output lit printf_ (ch "s") c ([p] ++ args)) s Q.
Proof.
  intros Hp Hl HQ. unfold convert. chars. apply wp_bind. eapply wp_lift; [reflexivity|]. cbn beta iota. set (q := if p =? NULL then _ else _).
  assert (kept R m0 q t) as Hk.
  { unfold q. destruct Hp as [[-> ->]|[Hk _]]; [apply Hlit; left|]. destruct (Z.eqb_spec p NULL) as [->|]; [|done]. destruct Hk as [Hs _]. apply cstr_pos in Hs. done. }
  assert (out = string_text (options_style o) (shown t)) as Eo by done. rewrite Eo in Hl, HQ.
  pose proof (string_text_length (options_style o) (shown t)) as Hlt. rewrite length_app in Hl. pose proof sink_lim as Hlim.
  assert (Z.min (Z.of_nat (length t)) (u32 (precision c)) = Z.of_nat (length (shown t))) as El.
  { rewrite (cs_prec _ _ Hc). pose proof (cs_prec_ok _ _ Hc) as Hpr. cbn [s_prec options_style] in *. unfold shown in *. destruct (options_prec o) as [n|]; cbn [default].
    - specialize (Hpr n eq_refl). rewrite length_take. unfold u32, id. rewrite Z.mod_small; lia.
    - change (u32 (-1)) with (2 ^ 32 - 1). lia. }
  destruct s as [m a] eqn:Es. rewrite <-Es in *. apply wp_bind. rewrite Es. apply wp_on_mem. eapply wp_strnlen; [eapply kept_cstr; [rewrite <-Es; exact HI|exact Hk]|unfold u32; apply Z.mod_pos_bound; lia|].
  rewrite El, <-Es, s32_small by lia. apply wp_bind. destruct Hk as [Hk HR].
  apply (wp_format_string _ c (options_style o) (shown t) l); [exact Hc| |exact HI| |rewrite length_app; lia|intros s' HI'; by apply wp_ret, HQ].
  - intros k x l2 [m2 a2] Hx I2. apply shown_sub in Hx. apply wp_on_mem. eapply wp_load8; [|done].
    rewrite (sink_reads l2 m2 a2 _ I2); [|apply HR; apply lookup_lt_Some in Hx; lia]. destruct Hk as (_ & Hk & _). apply bytes_at_app in Hk as [Hk _]. by apply (proj1 (bytes_at_lookup _ _ _) Hk).
  - apply Forall_forall. intros x Hx. apply list_elem_of_lookup in Hx as [k Hx]. apply shown_sub in Hx. destruct Hk as (_ & _ & Hb). apply (Forall_lookup_1 _ _ _ _ Hb Hx).
Qed.

Lemma wp_convert_unknown letter (out := dir_output (Unknown o letter)) : messages printf_ -> letter_ok letter -> letter ∉ str "diouxXcsp" ->
  Z.of_nat (length (l ++ out)) <= lim -> (forall s', I (l ++ out) s' -> Q args s') -> wp (convert output lit printf_ letter c args) s Q.
Proof.
  intros Hmsg [Hb _] Hn Hl HQ. unfold convert.
  assert (forall y, bool_decide (ch y ∈ str "diouxXcsp") = true -> (letter =? ch y) = false) as Hne.
  { intros y Hy%bool_decide_eq_true. apply Z.eqb_neq. intros ->. by apply Hn. }
  rewrite (Hne "d"%char), (Hne "i"%char), (Hne "o"%char), (Hne "u"%char), (Hne "x"%char), (Hne "X"%char), (Hne "c"%char), (Hne "s"%char), (Hne "p"%char) by reflexivity. cbn [orb].
  assert (((letter =? ch "f") || (letter =? ch "e") || (letter =? ch "E") || (letter =? ch "g") || (letter =? ch "G") || (letter =? ch "n")) = bool_decide (letter ∈ kernel_letters)) as ->.
  { apply eq_bool_prop_intro. rewrite bool_decide_spec, !orb_True, !Is_true_true, !Z.eqb_eq. 
    change kernel_letters with [ch "f"; ch "e"; ch "E"; ch "g"; ch "G"; ch "n"]. rewrite !elem_of_cons. pose proof (not_elem_of_nil letter). tauto. }
  cbn [dir_output] in out. destruct (bool_decide (letter ∈ kernel_letters)); apply wp_bind.
  - eapply wp_mono; [apply (Hmsg l s letter " in kernel>>"%string ltac:(set_solver) Hb HI Hl)|]. intros [] s' HI'. by apply wp_ret, HQ.
  - eapply wp_mono; [apply (Hmsg l s letter " conversion>>"%string ltac:(set_solver) Hb HI Hl)|]. intros [] s' HI'. by apply wp_ret, HQ.
Qed.
End Convert.

Lemma wp_convert printf_ d o letter w c args l s (Q : list Z -> mem * A -> Prop) :
  (forall o l, d = Unknown o l -> messages printf_) -> conv_of d = Some (o, letter, w) -> dir_ok R m0 d ->
  conv_style c (options_style o) -> type c = o_type o -> I l s -> Z.of_nat (length (l ++ dir_output d)) <= lim ->
  (forall s', I (l ++ dir_output d) s' -> Q args s') -> wp (convert output lit printf_ letter c (w ++ args)) s Q.
Proof.
  intros Hm Ho Hd Hc Ht HI Hl HQ. destruct d; try discriminate; injection Ho as -> <- <-; cbn [dir_ok] in Hd.
  - destruct Hd. eapply wp_convert_signed; [exact Hc|exact Ht|exact HI|done|exact Hl|exact HQ].
  - destruct Hd. eapply wp_convert_unsigned; eauto.
  - eapply wp_convert_character; eauto.
  - destruct Hd. eapply wp_convert_text; eauto.
  - destruct Hd. eapply wp_convert_pointer; eauto.
  - destruct Hd as (_ & ? & ?). eapply wp_convert_unknown; eauto.
Qed.

(** ** Formats *)

Lemma letter_stops l : letter_ok l -> stops l /\ not_type l /\ l ≠ ch "%".
Proof.
  intros (_ & _ & Hn). assert (forall y, bool_decide (ch y ∈ str "-+ #0'*.123456789hjltz%") = true -> l ≠ ch y) as Hne.
  { intros y Hy%bool_decide_eq_true. intros ->. by apply Hn. }
  assert (forall t, bool_decide (t ⊆ str "-+ #0'*.123456789hjltz%") = true -> l ∉ t) as Hsub.
  { intros t Ht%bool_decide_eq_true Hl. by apply Hn, Ht. }
  split_and!; [split| |]; try (by apply Hne).
  - unfold flag_of. by repeat (rewrite (proj2 (Z.eqb_neq _ _)); [|by apply Hne]).
  - destruct (isdigit l) eqn:E; [|done]. exfalso. apply (Hsub (str "0123456789") eq_refl). apply andb_true_iff in E as [E1%Z.leb_le E2%Z.leb_le].
    change (str "0123456789") with (Z.of_nat <$> seq 48 10). apply list_elem_of_fmap. exists (Z.to_nat l). split; [lia|]. apply elem_of_seq. lia.
  - by apply Hsub.
Qed.

Lemma conv_letter d o l w : conv_of d = Some (o, l, w) -> dir_ok R m0 d -> options_ok o /\ letter_ok l.
Proof.
  assert (forall t z, z ∈ t -> forallb (fun z => bool_decide (byte z /\ z ≠ 0 /\ z ∉ str "-+ #0'*.123456789hjltz%")) t = true -> letter_ok z) as H.
  { intros t z Hz Ht. rewrite forallb_forall in Ht. apply list_elem_of_In in Hz. by apply Ht, bool_decide_eq_true in Hz. }
  intros Ho Hd. destruct d; try discriminate; injection Ho as -> <- <-; cbn [dir_ok] in Hd.
  - destruct Hd as [? Hl]. split; [done|]. by apply (H _ _ Hl).
  - destruct Hd as [? Hl]. split; [done|]. by apply (H _ _ Hl).
  - split; [done|]. by apply (H [ch "c"]); [left|].
  - split; [apply Hd|]. by apply (H [ch "s"]); [left|].
  - split; [apply Hd|]. by apply (H [ch "p"]); [left|].
  - tauto.
Qed.

Lemma kept_app m p u v : kept R m p (u ++ v) -> kept R m (p + Z.of_nat (length u)) v.
Proof. intros [Hs Hr]. split; [by eapply cstr_app|]. intros i Hi. apply Hr. rewrite length_app. lia. Qed.

Lemma options_head_percent o l : options_ok o -> letter_ok l -> forall t, hd 0 (options_format o ++ l :: t) ≠ ch "%".
Proof.
  intros Ho Hl t. destruct (letter_stops l Hl) as (Hs & Hn & Hp). unfold options_format. destruct (o_flags o) as [|f fs]; [|by destruct f]. cbn [fmap list_fmap app].
  destruct Ho as [Hw _ _]. destruct (o_width o) as [[|d ds]|n]; [| |done].
  - cbn [number_format app]. destruct (o_prec o); [done|]. by destruct (o_type o).
  - cbn. destruct Hw as [Hd _]. inversion_clear Hd as [|? ? Hd1 _]. intros ->. done.
Qed.

Definition formats (ds : list directive) : list Z := mjoin (dir_format <$> ds).
Definition arguments (ds : list directive) : list Z := mjoin (dir_args <$> ds).
Definition outputs (ds : list directive) : list Z := mjoin (dir_output <$> ds).

Lemma conv_of_text d o l w : conv_of d = Some (o, l, w) -> dir_format d = ch "%" :: options_format o ++ [l] /\ dir_args d = options_args o ++ w.
Proof. destruct d; try discriminate; intros [= -> <- <-]; cbn; by rewrite ?app_nil_r. Qed.

Lemma wp_vprintf_step printf_ d t args p l s (Q : Z * list Z + unit -> mem * A -> Prop) :
  (forall o l, d = Unknown o l -> messages printf_) -> dir_ok R m0 d -> kept R m0 p (dir_format d ++ t) -> I l s ->
  Z.of_nat (length (l ++ dir_output d)) <= lim ->
  (forall s', I (l ++ dir_output d) s' -> Q (inl (p + Z.of_nat (length (dir_format d)), args)) s') ->
  wp (vprintf_step output lit printf_ (p, dir_args d ++ args)) s Q.
Proof.
  intros Hm Hd Hk HI Hl HQ. destruct s as [m a]. pose proof (kept_cstr _ _ _ _ _ HI Hk) as Hs. unfold vprintf_step.
  apply wp_bind. eapply wp_rd; [exact Hs|]. rewrite length_app in Hl. destruct (conv_of d) as [[[o letter] w]|] eqn:Ed.
  - destruct (conv_of_text d o letter w Ed) as [Ef Ea]. rewrite Ef in Hs, HQ. rewrite Ea, <-app_assoc. destruct (conv_letter d o letter w Ed Hd) as [Hok Hlet].
    rewrite Ef. change (_ =? 0) with false. change (negb _) with false. cbn [app] in Hs. rewrite <-app_assoc in Hs. apply cstr_cons in Hs as (_ & _ & _ & _ & Hs).
    apply wp_bind. eapply wp_rd; [exact Hs|]. rewrite (proj2 (Z.eqb_neq _ _)) by (apply (options_head_percent o letter Hok Hlet)).
    destruct (letter_stops letter Hlet) as (H1 & H2 & _). apply wp_bind. eapply wp_parse_conversion; [exact Hs|done..|]. intros c Hc Ht.
    apply cstr_app in Hs. apply wp_bind. eapply wp_rd; [exact Hs|]. apply wp_bind. eapply wp_convert; [exact Hm|exact Ed|exact Hd|exact Hc|exact Ht|exact HI|rewrite length_app; lia|].
    intros s' HI'. apply wp_ret. cbn [length] in HQ. rewrite length_app in HQ. cbn [length] in HQ.
    replace (p + 1 + Z.of_nat (length (options_format o)) + 1) with (p + Z.of_nat (S (length (options_format o) + 1))) by lia. by apply HQ.
  - destruct d; try discriminate; cbn [dir_format app hd length dir_output dir_args] in *.
    + destruct Hd as (H1 & H2 & H3). rewrite (proj2 (Z.eqb_neq _ _) H2), (proj2 (Z.eqb_neq _ _) H3). cbn [negb]. eapply wp_output_one; [exact HI|done|lia|].
      intros s' HI'. by apply wp_ret, HQ.
    + change (_ =? 0) with false. change (negb _) with false. change (str "%%") with [ch "%"; ch "%"] in *. cbn [app] in Hs. apply cstr_cons in Hs as (_ & _ & _ & _ & Hs).
      apply wp_bind. eapply wp_rd; [exact Hs|]. cbn [hd]. rewrite Z.eqb_refl. eapply wp_output_one; [exact HI|done|lia|]. intros s' HI'. by apply wp_ret, HQ.
Qed.

Lemma dir_format_length d : (1 <= length (dir_format d))%nat.
Proof. destruct d; cbn; lia. Qed.

Lemma wp_vprintf_loop printf_ ds : (forall o l, Unknown o l ∈ ds -> messages printf_) -> Forall (dir_ok R m0) ds ->
  forall p args l s fuel (Q : unit -> mem * A -> Prop), (length ds < fuel)%nat -> kept R m0 p (formats ds) -> I l s ->
  Z.of_nat (length (l ++ outputs ds)) <= lim -> (forall s', I (l ++ outputs ds) s' -> Q tt s') ->
  wp (loop fuel (vprintf_step output lit printf_) (p, arguments ds ++ args)) s Q.
Proof.
  intros Hm Hd. induction Hd as [|d ds Hd _ IH]; intros p args l s fuel Q Hf Hk HI Hl HQ; (destruct fuel as [|fuel]; [cbn in Hf; lia|]); apply wp_loop_S.
  - destruct s as [m a]. unfold vprintf_step. apply wp_bind. eapply wp_rd; [exact (kept_cstr _ _ _ _ _ HI Hk)|]. apply wp_ret. apply HQ. by rewrite app_nil_r.
  - change (formats (d :: ds)) with (dir_format d ++ formats ds) in Hk. change (outputs (d :: ds)) with (dir_output d ++ outputs ds) in *.
    change (arguments (d :: ds)) with (dir_args d ++ arguments ds). rewrite <-app_assoc. rewrite !length_app in Hl. eapply wp_vprintf_step; [intros o k ->; apply (Hm o k); left|done|exact Hk|exact HI|rewrite length_app; lia|].
    intros s' HI'. apply kept_app in Hk. apply IH with (l := l ++ dir_output d); [|cbn in Hf; lia|done|done|rewrite !length_app; lia|].
    + intros o k Hin. apply (Hm o k). by right.
    + intros s2. rewrite <-app_assoc. apply HQ.
Qed.

Lemma formats_length ds : (length ds <= length (formats ds))%nat.
Proof.
  induction ds as [|d ds IH]; [done|]. change (formats (d :: ds)) with (dir_format d ++ formats ds). rewrite length_app. pose proof (dir_format_length d). cbn. lia.
Qed.

Lemma wp_vprintf_at depth ds p args l s (Q : unit -> mem * A -> Prop) :
  (forall o l, Unknown o l ∈ ds -> messages (vprintf_at output lit depth)) -> Forall (dir_ok R m0) ds -> kept R m0 p (formats ds) -> I l s ->
  Z.of_nat (length (l ++ outputs ds)) <= lim -> (forall s', I (l ++ outputs ds) s' -> Q tt s') ->
  wp (vprintf_at output lit (S depth) p (arguments ds ++ args)) s Q.
Proof.
  intros Hm Hd Hk HI Hl HQ. destruct s as [m a]. cbn [vprintf_at]. apply wp_bind, wp_fuel. pose proof (cstr_size _ _ _ (kept_cstr _ _ _ _ _ HI Hk)). pose proof (formats_length ds).
  eapply wp_vprintf_loop; [exact Hm|exact Hd|lia|exact Hk|exact HI|exact Hl|exact HQ].
Qed.

(** The messages are formats. *)
Definition no_options : options := mk_options [] (Digits []) None INT.
Definition message_format (letter : Z) (k : string) : list directive :=
  (Plain <$> str "<<no ") ++ [Percent; Character no_options (schar letter)] ++ (Plain <$> str k).

Lemma no_options_ok : options_ok no_options.
Proof. split; [by split|done|done]. Qed.

Lemma plains_format t : formats (Plain <$> t) = t /\ outputs (Plain <$> t) = t /\ arguments (Plain <$> t) = [].
Proof.
  induction t as [|c t (IH1 & IH2 & IH3)]; [done|]. rewrite fmap_cons. unfold formats, outputs, arguments in *. cbn [fmap list_fmap mjoin list_join dir_format dir_output dir_args app].
  split_and!; [exact (f_equal (cons c) IH1)|exact (f_equal (cons c) IH2)|exact IH3].
Qed.

Lemma formats_app ds ds' : formats (ds ++ ds') = formats ds ++ formats ds' /\ outputs (ds ++ ds') = outputs ds ++ outputs ds' /\ arguments (ds ++ ds') = arguments ds ++ arguments ds'.
Proof. unfold formats, outputs, arguments. by rewrite !fmap_app, !join_app. Qed.

Lemma u8_schar c : byte c -> u8 (schar c) = c.
Proof. unfold byte, schar, u8. intros Hc. destruct (Z.ltb_spec c 128); [apply Z.mod_small; lia|]. replace (c - 256) with (c + (-1) * 2 ^ 8) by lia. rewrite Z.mod_add by lia. apply Z.mod_small. lia. Qed.

Lemma message_text letter k : byte letter -> k ∈ [" in kernel>>"; " conversion>>"]%string -> let ds := message_format letter k in
  formats ds = str (String.append "<<no %%%c" k) /\ outputs ds = message letter k /\ arguments ds = [u32 (schar letter)] /\ Forall (dir_ok R m0) ds /\
  String.append "<<no %%%c" k ∈ literals.
Proof.
  intros Hb Hk ds. subst ds. unfold message_format. destruct (formats_app (Plain <$> str "<<no ") ([Percent; Character no_options (schar letter)] ++ (Plain <$> str k))) as (-> & -> & ->).
  destruct (formats_app [Percent; Character no_options (schar letter)] (Plain <$> str k)) as (-> & -> & ->).
  destruct (plains_format (str "<<no ")) as (-> & -> & ->). destruct (plains_format (str k)) as (-> & -> & ->).
  assert (outputs [Percent; Character no_options (schar letter)] = [ch "%"; letter]) as ->. { cbn. by rewrite u8_schar. }
  assert (forall t, Forall (fun c => byte c /\ c ≠ 0 /\ c ≠ ch "%") t -> Forall (dir_ok R m0) (Plain <$> t)) as Hplain.
  { intros t Ht. apply Forall_fmap. eapply Forall_impl; [exact Ht|]. done. }
  assert (forall t, forallb (fun c => bool_decide (byte c /\ c ≠ 0 /\ c ≠ ch "%")) t = true -> Forall (fun c => byte c /\ c ≠ 0 /\ c ≠ ch "%") t) as Hdec.
  { intros t Ht. apply Forall_forall. intros c Hc. rewrite forallb_forall in Ht. by apply list_elem_of_In, Ht, bool_decide_eq_true in Hc. }
  split_and!; [|done..| |].
  - apply elem_of_cons in Hk as [->|Hk]; [done|]. apply elem_of_cons in Hk as [->|Hk]; [done|]. by apply not_elem_of_nil in Hk.
  - repeat (apply Forall_app; split); [by apply Hplain, Hdec| |].
    + repeat constructor. all: apply no_options_ok.
    + apply Hplain, Hdec. apply elem_of_cons in Hk as [->|Hk]; [done|]. apply elem_of_cons in Hk as [->|Hk]; [done|]. by apply not_elem_of_nil in Hk.
  - apply elem_of_cons in Hk as [->|Hk]; [right; left|]. apply elem_of_cons in Hk as [->|Hk]; [right; right; left|]. by apply not_elem_of_nil in Hk.
Qed.

Lemma messages_printed : messages (vprintf_at output lit 1).
Proof.
  intros l s letter k Hk Hb HI Hl. destruct (message_text letter k Hb Hk) as (Ef & Eo & Ea & Hd & Hin). pose proof (Hlit _ Hin) as Hkept. rewrite <-Ef in Hkept.
  rewrite <-Eo in Hl |- *. rewrite <-Ea, <-(app_nil_r (arguments _)). eapply wp_vprintf_at; [|exact Hd|exact Hkept|exact HI|exact Hl|done].
  intros o l2 Hu. exfalso. unfold message_format in Hu. rewrite !elem_of_app, !list_elem_of_fmap, !elem_of_cons in Hu. pose proof (not_elem_of_nil (Unknown o l2)). naive_solver.
Qed.

Lemma wp_vprintf ds p args l s (Q : unit -> mem * A -> Prop) :
  Forall (dir_ok R m0) ds -> kept R m0 p (formats ds) -> I l s -> Z.of_nat (length (l ++ outputs ds)) <= lim ->
  (forall s', I (l ++ outputs ds) s' -> Q tt s') -> wp (vprintf_ output lit p (arguments ds ++ args)) s Q.
Proof. intros Hd Hk HI Hl HQ. eapply wp_vprintf_at; [intros ? ? _; apply messages_printed|exact Hd|exact Hk|exact HI|exact Hl|exact HQ]. Qed.
End Output.

(** * Output to a buffer *)

Section Snprintf.
Context (m0 : mem) (buf : Z) (n : nat).
Hypothesis Hbuf : mapped m0 buf n.
Hypothesis Hn : Z.of_nat n <= 2 ^ 31.

Definition outside_buf (x : Z) : Prop := ~ buf <= x < buf + Z.of_nat n.

(** The characters received are in the buffer, as far as there is room. *)
Definition sn_inv (l : list Z) (s : mem * vsnprintf_aux) : Prop :=
  s = (put m0 buf (take (pred n) l), mk_aux (buf + Z.of_nat (length (take (pred n) l))) (Z.of_nat (length l)) (Z.of_nat (pred n))).

Lemma snprintf_sink : Sink vsnprintf_helper outside_buf m0 (2 ^ 31 - 1) sn_inv.
Proof.
  split; [| |done].
  - intros l c s -> Hc Hl. unfold vsnprintf_helper, wp. cbn [aux_length aux_max aux_p]. rewrite s32_small by lia. destruct (Z.ltb_spec (Z.of_nat (length l)) (Z.of_nat (pred n))) as [Hlt|Hge].
    + rewrite !take_ge by (rewrite ?length_app; cbn; lia). unfold store8. destruct (mapped_put m0 buf n buf l Hbuf (buf + Z.of_nat (length l)) ltac:(lia)) as [x ->].
      unfold sn_inv. rewrite take_ge by (rewrite length_app; cbn; lia). rewrite put_app, length_app, u8_byte by done. cbn [put length]. by replace (Z.of_nat (length l + 1)) with (Z.of_nat (length l) + 1) by lia; rewrite Z.add_assoc.
    + unfold sn_inv. rewrite take_app_le by lia. rewrite length_app. cbn [length]. by replace (Z.of_nat (length l + 1)) with (Z.of_nat (length l) + 1) by lia.
  - intros l m a x [= -> ->] Hx. rewrite lookup_put, decide_False; [done|]. pose proof (length_take l (pred n)). unfold outside_buf in Hx. lia.
Qed.

(** The bytes that [vsnprintf] leaves in the buffer: as much of the output as there is room
    for, and a terminator. *)
Definition buffer_text (out : list Z) : list Z := match n with O => [] | S k => take k out ++ [0] end.

Lemma wp_vsnprintf lit ds fmt (Q : Z -> mem -> Prop) :
  (forall k, k ∈ literals -> kept outside_buf m0 (lit k) (str k)) -> Forall (dir_ok outside_buf m0) ds -> kept outside_buf m0 fmt (formats ds) ->
  Z.of_nat (length (outputs ds)) < 2 ^ 31 ->
  Q (Z.of_nat (length (outputs ds))) (put m0 buf (buffer_text (outputs ds))) ->
  wp (vsnprintf lit buf (Z.of_nat n) fmt (arguments ds)) m0 Q.
Proof.
  intros Hlit Hd Hk Hl HQ. unfold vsnprintf. apply wp_bind, wp_get. apply wp_bind.
  assert (s32 (if 0 <? Z.of_nat n then Z.of_nat n - 1 else 0) = Z.of_nat (pred n)) as ->.
  { destruct (Z.ltb_spec 0 (Z.of_nat n)); rewrite s32_small; lia. }
  pose proof (wp_vprintf vsnprintf_helper outside_buf m0 (2 ^ 31 - 1) sn_inv (HS := snprintf_sink) lit Hlit ds fmt [] [] (m0, mk_aux buf 0 (Z.of_nat (pred n))) (fun _ s => sn_inv (outputs ds) s) Hd Hk) as W.
  rewrite app_nil_r in W. specialize (W ltac:(unfold sn_inv; rewrite take_nil; cbn; by rewrite Z.add_0_r) ltac:(cbn; lia) ltac:(done)).
  apply wp_unfold in W as (u & s & E & ->). eapply wp_lift; [exact E|]. cbn beta iota. apply wp_bind, wp_put. cbn [aux_p aux_length].
  unfold buffer_text in HQ. destruct n as [|k] eqn:En; cbn [pred] in *.
  - change (0 <? Z.of_nat 0) with false. apply wp_bind, wp_ret, wp_ret. by rewrite take_0.
  - rewrite (proj2 (Z.ltb_lt 0 (Z.of_nat (S k)))) by lia. apply wp_bind. pose proof (length_take (outputs ds) k).
    eapply wp_store8; [apply (mapped_put _ _ _ _ _ Hbuf); lia|]. apply wp_ret. rewrite put_app in HQ. exact HQ.
Qed.
End Snprintf.

(** * Numbers and their decimal representation *)

Lemma decimal_digit v : 0 < v -> let d := digits base_d !!! Z.to_nat (v mod 10) in d = 48 + v mod 10 /\ isdigit d = true.
Proof.
  intros Hv d. pose proof (Z.mod_pos_bound v 10 ltac:(lia)) as Hm. subst d. assert (forall k, 0 <= k < 10 -> digits base_d !!! Z.to_nat k = 48 + k /\ isdigit (48 + k) = true) as H.
  { intros k Hk. assert (k = 0 \/ k = 1 \/ k = 2 \/ k = 3 \/ k = 4 \/ k = 5 \/ k = 6 \/ k = 7 \/ k = 8 \/ k = 9) as Hc by lia.
    destruct_or! Hc; subst k; done. }
  destruct (H (v mod 10) Hm) as [-> ?]. done.
Qed.

Lemma digits_of_value n v : 0 <= v < 10 ^ Z.of_nat n ->
  digits_value (digits_of base_d n v) = v /\ Forall (fun c => isdigit c = true) (digits_of base_d n v).
Proof.
  revert v. induction n as [|n IH]; intros v Hv; [by replace v with 0 by (cbn in Hv; lia)|]. cbn [digits_of]. destruct (Z.ltb_spec 0 v) as [Hp|Hp]; [|by replace v with 0 by lia].
  change (base base_d) with 10. destruct (IH (v / 10)) as [E1 E2].
  { split; [apply Z.div_pos; lia|]. apply Z.div_lt_upper_bound; [lia|]. rewrite Nat2Z.inj_succ, Z.pow_succ_r in Hv by lia. lia. }
  destruct (decimal_digit v Hp) as [Ed Hd]. split; [|by apply Forall_app; split; [|apply Forall_singleton]].
  unfold digits_value in *. rewrite foldl_app, E1. cbn [foldl]. rewrite Ed. pose proof (Z.div_mod v 10). lia.
Qed.

Lemma digits_of_short b n k v : 8 <= base b -> 0 <= v < base b ^ Z.of_nat k -> (length (digits_of b n v) <= k)%nat.
Proof.
  intros Hb. revert v k. induction n as [|n IH]; intros v k Hv; [cbn; lia|]. cbn [digits_of]. destruct (Z.ltb_spec 0 v); [|cbn; lia]. rewrite length_app. cbn [length].
  destruct k as [|k]; [cbn in Hv; lia|]. assert (length (digits_of b n (v / base b)) <= k)%nat; [|lia]. apply IH.
  split; [apply Z.div_pos; lia|]. apply Z.div_lt_upper_bound; [lia|]. rewrite Nat2Z.inj_succ, Z.pow_succ_r in Hv by lia. lia.
Qed.

(** An int in decimal, as [%d] prints it. *)
Definition decimal (v : Z) : list Z := dir_output (Signed no_options (ch "d") v).

Lemma decimal_text v : - 2 ^ 31 <= v < 2 ^ 31 -> exists ds,
  decimal v = sign_text (if v <? 0 then SMinus else SNone) ++ ds /\ ds ≠ [] /\ Forall (fun c => isdigit c = true) ds /\ digits_value ds = Z.abs v /\ (length ds <= 10)%nat.
Proof.
  intros Hv. unfold decimal. cbn [dir_output o_type no_options type_bits]. rewrite (swrap_small 32) by (cbn; lia).
  set (st := options_style no_options). assert (number_text base_d st (Z.abs v) = let ds := digits_of base_d 22 (Z.abs v) in replicate (1 - length ds) (ch "0") ++ ds) as En.
  { unfold number_text, separate. change (s_pound st) with false. change (s_group st) with false. change (s_prec st) with (@None Z). cbn [andb]. by rewrite reverse_involutive. }
  set (ds := number_text base_d st (Z.abs v)) in *. exists ds. destruct (digits_of_value 22 (Z.abs v) ltac:(cbn; lia)) as [Ev Hd].
  pose proof (digits_of_short base_d 22 10 (Z.abs v) ltac:(done) ltac:(cbn; lia)) as Hl. cbn zeta in En. set (d0 := digits_of base_d 22 (Z.abs v)) in *.
  assert (ds = d0 /\ d0 ≠ [] \/ ds = [ch "0"] /\ Z.abs v = 0) as H.
  { destruct d0 as [|d d1] eqn:Ed; [right|left]; rewrite En; [|done]. split; [done|]. by rewrite <-Ev. }
  split_and!.
  - unfold signed_text, field, sign_chars. fold ds. change (s_left st) with false. change (s_zero st) with false. change (s_width st) with 0. change (s_plus st) with false. change (s_space st) with false.
    by destruct (v <? 0).
  - destruct H as [[-> ?]|[-> _]]; done.
  - destruct H as [[-> ?]|[-> _]]; [done|]. by apply Forall_singleton.
  - destruct H as [[-> ?]|[-> H0]]; [done|]. by rewrite H0.
  - destruct H as [[-> ?]|[-> H0]]; [exact Hl|cbn; lia].
Qed.

Lemma wp_decimal_atoi m a v (Q : Z -> mem -> Prop) : - 2 ^ 31 <= v < 2 ^ 31 -> 0 < a -> bytes_at m a (decimal v ++ [0]) -> Q v m -> wp (atoi a) m Q.
Proof.
  intros Hv Ha Hb HQ. destruct (decimal_text v Hv) as (ds & E & Hne & Hd & Ev & _). rewrite E in Hb.
  assert (Forall (fun c => byte c /\ c ≠ 0) ds) as Hd0.
  { eapply Forall_impl; [exact Hd|]. unfold isdigit, byte. intros c Hc. apply andb_true_iff in Hc as [?%Z.leb_le ?%Z.leb_le]. lia. }
  apply (wp_atoi m a [] (if v <? 0 then SMinus else SNone) ds []); [|done|done|done|done|].
  - cbn [app]. rewrite app_nil_r. split_and!; [done|done|]. apply Forall_app. split; [|done]. destruct (v <? 0); cbn; [|done]. by apply Forall_singleton.
  - assert (sign_value (if v <? 0 then SMinus else SNone) (digits_value ds) = v) as ->; [|by rewrite s32_small]. rewrite Ev. destruct (Z.ltb_spec v 0); cbn; lia.
Qed.

(** * Results *)


(** An int printed with [%d] in a buffer of at least 12 bytes is read back by [atoi]. *)
Theorem print_then_atoi (m : mem) lit buf (n : nat) fmt v :
  mapped m buf n -> 12 <= Z.of_nat n <= 2 ^ 31 -> (forall k, k ∈ literals -> kept (outside_buf buf n) m (lit k) (str k)) ->
  kept (outside_buf buf n) m fmt (str "%d") -> 0 < buf -> - 2 ^ 31 <= v < 2 ^ 31 ->
  wp (snprintf lit buf (Z.of_nat n) fmt [u32 v];; atoi buf) m (fun r _ => r = v).
Proof.
  intros Hb Hn Hlit Hk Hp Hv. set (d := Signed no_options (ch "d") v). apply wp_bind. destruct (decimal_text v Hv) as (ds & E & _ & _ & _ & Hl).
  assert (length (decimal v) <= 11)%nat as Hlen. { rewrite E, length_app. destruct (v <? 0); cbn; lia. }
  assert (outputs [d] = decimal v) as Eo by (unfold outputs; cbn [fmap list_fmap mjoin list_join]; apply app_nil_r).
  apply (wp_vsnprintf m buf n Hb ltac:(lia) lit [d] fmt); [done| |exact Hk|rewrite Eo; lia|].
  - apply Forall_singleton. split; [apply no_options_ok|left].
  - rewrite Eo. unfold buffer_text. destruct n as [|k]; [lia|]. rewrite take_ge by lia. eapply wp_decimal_atoi; [exact Hv|exact Hp|apply put_bytes|done].
Qed.

(** ** Witnesses *)

Definition demo_lit (s : string) : Z :=
  if String.eqb s "(null)" then 1000 else if String.eqb s "<<no %%%c in kernel>>" then 1100 else 1200.
Definition demo_mem (format : string) : mem :=
  put (put (put (put (put ∅ 1000 (str "(null)" ++ [0])) 1100 (str "<<no %%%c in kernel>>" ++ [0])) 1200 (str "<<no %%%c conversion>>" ++ [0]))
    16 (str format ++ [0])) 200 (replicate 12 0).

(** With the flag [0], a width that is negative and given as [*] is padded twice: zeros on
    the left and as many spaces on the right, where C asks for spaces only. *)
Theorem zero_flag_pads_twice :
  wp (snprintf demo_lit 200 12 16 [u32 (-5); 42]) (demo_mem "%0*d") (fun r m' => r = 8 /\ bytes_at m' 200 (str "00042   " ++ [0])).
Proof. vm_compute. done. Qed.

Definition kept_b (buf : Z) (n : nat) (m : mem) (p : Z) (s : list Z) : bool :=
  (0 <? p) && forallb (fun i => bool_decide (m !! (p + Z.of_nat i) = (s ++ [0]) !! i)) (seq 0 (S (length s))) &&
  forallb (fun c => (0 <? c) && (c <? 256)) s && ((p + Z.of_nat (length s) <? buf) || (buf + Z.of_nat n <=? p)).

Lemma demo_kept buf n m p s : kept_b buf n m p s = true -> kept (outside_buf buf n) m p s.
Proof.
  unfold kept_b. rewrite !andb_true_iff, orb_true_iff, !Z.ltb_lt, Z.leb_le, !forallb_forall. intros [[[Hp Hb] Hs] Hd]. split; [split_and!; [done| |]|].
  - apply bytes_at_lookup. intros i b Hi. assert (i < S (length s))%nat as Hlt by (apply lookup_lt_Some in Hi; rewrite length_app in Hi; cbn in Hi; lia).
    specialize (Hb i ltac:(apply in_seq; lia)). apply bool_decide_eq_true in Hb. by rewrite Hb.
  - apply Forall_forall. intros c Hc. apply list_elem_of_In, Hs in Hc. unfold byte. lia.
  - intros i Hi. unfold outside_buf. lia.
Qed.

Lemma demo_literals ls buf n m lit : forallb (fun k => kept_b buf n m (lit k) (str k)) ls = true ->
  forall k, k ∈ ls -> kept (outside_buf buf n) m (lit k) (str k).
Proof. intros H k Hk. rewrite forallb_forall in H. by apply demo_kept, H, list_elem_of_In. Qed.


Lemma print_then_atoi_witness : wp (snprintf demo_lit 200 12 16 [u32 (-2147483648)];; atoi 200) (demo_mem "%d") (fun r _ => r = -2147483648).
Proof.
  apply (print_then_atoi (demo_mem "%d") demo_lit 200 12 16); [| | | |lia|lia].
  - apply demo_mapped. vm_compute. reflexivity.
  - lia.
  - apply demo_literals. vm_compute. reflexivity.
  - apply demo_kept. vm_compute. reflexivity.
Defined.
