(* ===== verification/Intq.v ===== *)
(** src/devices/intq.c: the queue of bytes between an interrupt handler and threads.

    The code runs with interrupts off, so each stretch between two points where a thread may
    lose the processor is one step: a call, and the resumption of a call that waited for the
    lock or for a byte.  In every interleaving of threads and interrupts the queue is first in,
    first out and no wake-up is lost.  With one thread at a time no assertion fails; two
    threads that wait for bytes can make [wait] fail its assertion. *)
From stdpp Require Import base list numbers gmap fin_maps.
From Stdlib Require Import ZArith Lia.
From S2P Require Import Prelude.

Open Scope Z_scope.

(** * Data *)

Definition INTQ_BUFSIZE : Z := 64.

Record intq : Type := mk_intq { not_full : option Z; not_empty : option Z; buf : list Z; head : Z; tail : Z }.

(** What a thread calls: [intq_getc], or [intq_putc] of a byte. *)
Inductive request : Set := Get | Put (byte : Z).

(** Where a thread is: running outside of the lock, in [lock_acquire], blocked in [wait], or woken in it. *)
Inductive place : Set := Outside | InLock (r : request) | Waiting (r : request) | Woken (r : request).

(** The queue, the holder of its lock, the threads; the bytes that have gone in and out. *)
Record qstate : Type := mk_qstate { queue : intq; holder : option Z; places : gmap Z place; ins : list Z; outs : list Z }.

(** * Operations *)

Definition next (pos : Z) : Z := (pos + 1) mod INTQ_BUFSIZE.

Definition intq_init : intq := mk_intq None None (replicate 64 0) 0 0.
Definition intq_empty (q : intq) : bool := head q =? tail q.
Definition intq_full (q : intq) : bool := next (head q) =? tail q.

Definition set_queue (q : intq) : M qstate unit := fun s => Ok (tt, mk_qstate q (holder s) (places s) (ins s) (outs s)).
Definition set_holder (h : option Z) : M qstate unit := fun s => Ok (tt, mk_qstate (queue s) h (places s) (ins s) (outs s)).
Definition set_place (t : Z) (p : place) : M qstate unit := fun s => Ok (tt, mk_qstate (queue s) (holder s) (<[t := p]> (places s)) (ins s) (outs s)).
Definition log_in (b : Z) : M qstate unit := fun s => Ok (tt, mk_qstate (queue s) (holder s) (places s) (ins s ++ [b]) (outs s)).
Definition log_out (b : Z) : M qstate unit := fun s => Ok (tt, mk_qstate (queue s) (holder s) (places s) (ins s) (outs s ++ [b])).

(** The member of the queue that a request waits in, and the condition for waiting. *)
Definition waiter (r : request) (q : intq) : option Z := match r with Get => not_empty q | Put _ => not_full q end.
Definition set_waiter (r : request) (w : option Z) (q : intq) : intq :=
  match r with Get => mk_intq (not_full q) w (buf q) (head q) (tail q) | Put _ => mk_intq w (not_empty q) (buf q) (head q) (tail q) end.
Definition blocked (r : request) (q : intq) : bool := match r with Get => intq_empty q | Put _ => intq_full q end.

(** [wait] up to [thread_block]. *)
Definition wait (t : Z) (r : request) : M qstate unit :=
  s ← mget;
  ASSERT (blocked r (queue s));;
  set_queue (set_waiter r (Some t) (queue s));;
  set_place t (Waiting r).

(** [thread_unblock] asserts that the thread is blocked. *)
Definition signal (r : request) : M qstate unit :=
  s ← mget;
  ASSERT (negb (blocked r (queue s)));;
  match waiter r (queue s) with
  | None => mret tt
  | Some t =>
    match places s !! t with
    | Some (Waiting r') => set_place t (Woken r');; set_queue (set_waiter r None (queue s))
    | _ => mfail Panic
    end
  end.

(** The part of [intq_getc] and [intq_putc] after the loop. *)
Definition finish (r : request) : M qstate unit :=
  s ← mget;
  let q := queue s in
  match r with
  | Get =>
    byte ← mlift (match buf q !! Z.to_nat (tail q) with Some b => Ok b | None => Err Fault end);
    set_queue (mk_intq (not_full q) (not_empty q) (buf q) (head q) (next (tail q)));;
    log_out byte;;
    signal (Put 0)
  | Put byte =>
    set_queue (mk_intq (not_full q) (not_empty q) (<[Z.to_nat (head q) := byte]> (buf q)) (next (head q)) (tail q));;
    log_in byte;;
    signal Get
  end.

Definition lock_acquire_wait (t : Z) (r : request) : M qstate unit := set_holder (Some t);; wait t r.

(** [intq_getc] and [intq_putc] of a thread, up to where it loses the processor. *)
Definition call (t : Z) (r : request) : M qstate unit :=
  s ← mget;
  if blocked r (queue s) then
    match holder s with
    | Some _ => set_place t (InLock r)
    | None => lock_acquire_wait t r
    end
  else finish r;; set_place t Outside.

(** A thread runs again: in [lock_acquire] it goes on if the lock is free, after [wait] it
    releases the lock and tests the condition once more. *)
Definition resume (t : Z) : M qstate unit :=
  s ← mget;
  match places s !! t with
  | Some (InLock r) => match holder s with Some _ => mret tt | None => lock_acquire_wait t r end
  | Some (Woken r) =>
    ASSERT (bool_decide (holder s = Some t));;
    set_holder None;;
    set_place t Outside;;
    call t r
  | _ => mret tt
  end.

(** In an interrupt handler or with interrupts off for its caller, a request must not wait. *)
Definition intr (r : request) : M qstate unit :=
  s ← mget;
  ASSERT (negb (blocked r (queue s)));;
  finish r.

(** Steps.  Interrupt handlers test the queue first ([input_full] in kbd.c and serial.c,
    [intq_empty] in serial.c). *)
Inductive event : Set := Call (t : Z) (r : request) | Resume (t : Z) | Intr (r : request).

Definition step (e : event) : M qstate unit :=
  s ← mget;
  match e with
  | Call t r => match places s !! t with Some Outside | None => call t r | _ => mret tt end
  | Resume t => resume t
  | Intr r => if blocked r (queue s) then mret tt else intr r
  end.

Fixpoint run (es : list event) : M qstate unit :=
  match es with [] => mret tt | e :: es => step e;; run es end.

Definition initial : qstate := mk_qstate intq_init None ∅ [] [].

(** * The invariant *)

(** The bytes in the queue, from the tail to the head. *)
Definition count (q : intq) : Z := (head q - tail q) mod 64.
Definition contents (q : intq) : list Z := (fun i : nat => buf q !!! Z.to_nat ((tail q + Z.of_nat i) mod 64)) <$> seq 0 (Z.to_nat (count q)).

Record q_ok (q : intq) : Prop := {
  qo_buf : length (buf q) = 64%nat;
  qo_head : 0 <= head q < 64;
  qo_tail : 0 <= tail q < 64 }.

Definition same_kind (r r' : request) : bool := match r, r' with Get, Get | Put _, Put _ => true | _, _ => false end.

(** A thread that waits is recorded in the member for its request and holds the lock, and the
    condition that it waits for is false. *)
Record qs_ok (s : qstate) : Prop := {
  qs_queue : q_ok (queue s);
  qs_fifo : ins s = outs s ++ contents (queue s);
  qs_waiting t r : places s !! t = Some (Waiting r) -> waiter r (queue s) = Some t;
  qs_waiter t r : waiter r (queue s) = Some t -> exists r', places s !! t = Some (Waiting r') /\ same_kind r r' = true;
  qs_blocked t r : places s !! t = Some (Waiting r) -> blocked r (queue s) = true;
  qs_holder t : holder s = Some t <-> exists r, places s !! t = Some (Waiting r) \/ places s !! t = Some (Woken r) }.

Ltac ring_lia := unfold count, intq_empty, intq_full, next, INTQ_BUFSIZE in *; cbn [buf head tail not_full not_empty] in *; Z.to_euclidean_division_equations; lia.

Lemma next_range p : 0 <= next p < 64.
Proof. unfold next, INTQ_BUFSIZE. apply Z.mod_pos_bound. lia. Qed.

Lemma count_range q : 0 <= count q < 64.
Proof. apply Z.mod_pos_bound. lia. Qed.

Lemma empty_count q : q_ok q -> intq_empty q = (count q =? 0).
Proof.
  intros [_ Hh Ht]. unfold intq_empty, count. destruct (Z.eqb_spec (head q) (tail q)) as [->|Hn]; [by rewrite Z.sub_diag|].
  symmetry. apply Z.eqb_neq. Z.to_euclidean_division_equations. lia.
Qed.

Lemma full_count q : q_ok q -> intq_full q = (count q =? 63).
Proof.
  intros [_ Hh Ht]. unfold intq_full, count, next, INTQ_BUFSIZE. destruct (Z.eqb_spec ((head q + 1) mod 64) (tail q)) as [E|E]; symmetry; [apply Z.eqb_eq|apply Z.eqb_neq]; Z.to_euclidean_division_equations; lia.
Qed.

Definition taken (q : intq) : intq := mk_intq (not_full q) (not_empty q) (buf q) (head q) (next (tail q)).
Definition added (b : Z) (q : intq) : intq := mk_intq (not_full q) (not_empty q) (<[Z.to_nat (head q) := b]> (buf q)) (next (head q)) (tail q).

Lemma taken_count q : q_ok q -> 0 < count q -> count (taken q) = count q - 1.
Proof. intros [_ Hh Ht] Hc. unfold taken. ring_lia. Qed.
Lemma added_count b q : q_ok q -> count q < 63 -> count (added b q) = count q + 1.
Proof. intros [_ Hh Ht] Hc. unfold added. ring_lia. Qed.

Lemma taken_ok q : q_ok q -> q_ok (taken q).
Proof. intros [Hb Hh Ht]. split; [done|done|apply next_range]. Qed.
Lemma added_ok b q : q_ok q -> q_ok (added b q).
Proof. intros [Hb Hh Ht]. split; cbn; [by rewrite length_insert|apply next_range|done]. Qed.

Lemma taken_contents q : q_ok q -> 0 < count q -> contents q = buf q !!! Z.to_nat (tail q) :: contents (taken q).
Proof.
  intros Hq Hc. unfold contents. rewrite taken_count by done. replace (Z.to_nat (count q)) with (S (Z.to_nat (count q - 1))) by lia. cbn [seq fmap list_fmap]. f_equal.
  - destruct Hq as [_ _ Ht]. f_equal. rewrite Z.add_0_r, Z.mod_small by lia. done.
  - rewrite <-fmap_S_seq, <-list_fmap_compose. apply list_fmap_ext. intros _ i _. cbn. do 2 f_equal. unfold next, INTQ_BUFSIZE. rewrite Zplus_mod_idemp_l. f_equal. lia.
Qed.

Lemma added_contents b q : q_ok q -> count q < 63 -> contents (added b q) = contents q ++ [b].
Proof.
  intros Hq Hc. pose proof (count_range q) as Hr. pose proof Hq as [Hb Hh Ht]. unfold contents. rewrite added_count by done. replace (Z.to_nat (count q + 1)) with (Z.to_nat (count q) + 1)%nat by lia.
  rewrite seq_app, fmap_app. cbn [buf head tail added seq fmap list_fmap Nat.add]. f_equal.
  - apply list_fmap_ext. intros i x Hi. apply lookup_seq in Hi as [-> Hi]. cbn [Nat.add]. apply list_lookup_total_insert_ne. intros E.
    assert (head q = (tail q + Z.of_nat i) mod 64) as E' by (pose proof (Z.mod_pos_bound (tail q + Z.of_nat i) 64); lia). clear E.
    assert (Z.of_nat i < count q) as Hi' by lia. pose proof (Nat2Z.is_nonneg i) as Hi0. clear Hi. unfold count in *. Z.to_euclidean_division_equations; lia.
  - f_equal. rewrite Z2Nat.id by lia. assert ((tail q + count q) mod 64 = head q) as -> by (unfold count in *; Z.to_euclidean_division_equations; lia).
    apply list_lookup_total_insert_eq. lia.
Qed.

Lemma blocked_count r q : q_ok q -> blocked r q = (count q =? match r with Get => 0 | Put _ => 63 end).
Proof. intros Hq. destruct r; [by apply empty_count|by apply full_count]. Qed.

Lemma contents_waiter r w q : contents (set_waiter r w q) = contents q.
Proof. by destruct r. Qed.
Lemma blocked_waiter r r' w q : blocked r (set_waiter r' w q) = blocked r q.
Proof. by destruct r, r'. Qed.
Lemma q_ok_waiter r w q : q_ok q -> q_ok (set_waiter r w q).
Proof. intros [? ? ?]. by destruct r. Qed.
Lemma waiter_set r r' w q : waiter r (set_waiter r' w q) = if same_kind r r' then w else waiter r q.
Proof. by destruct r, r'. Qed.
Lemma waiter_kind r r' q : same_kind r r' = true -> waiter r q = waiter r' q.
Proof. by destruct r, r'. Qed.
Lemma blocked_kind r r' q : same_kind r r' = true -> blocked r q = blocked r' q.
Proof. by destruct r, r'. Qed.
Lemma kind_refl r : same_kind r r = true.
Proof. by destruct r. Qed.
Lemma kind_sym r r' : same_kind r r' = same_kind r' r.
Proof. by destruct r, r'. Qed.

Section Invariant.
Implicit Types (s : qstate) (t : Z) (r : request).

(** A running thread enters or leaves the code. *)
Definition running s t : Prop := places s !! t = None \/ places s !! t = Some Outside.
Definition is_free (p : place) : Prop := match p with Outside | InLock _ => True | _ => False end.

Lemma place_ok s t p : qs_ok s -> (running s t \/ exists r, places s !! t = Some (InLock r)) -> is_free p ->
  qs_ok (mk_qstate (queue s) (holder s) (<[t := p]> (places s)) (ins s) (outs s)).
Proof.
  intros [Hq Hf Hw Hwt Hb Hh] Hr Hp. assert (forall r, places s !! t ≠ Some (Waiting r) /\ places s !! t ≠ Some (Woken r)) as Hnt.
  { intros r. destruct Hr as [[E|E]|[r' E]]; rewrite E; by split. }
  assert (forall u r, <[t := p]> (places s) !! u = Some (Waiting r) <-> places s !! u = Some (Waiting r)) as Ew.
  { intros u r. destruct (decide (u = t)) as [->|Hn]; [|by rewrite lookup_insert_ne]. rewrite lookup_insert_eq. split; [intros [= ->]; done|intros E; by apply Hnt in E]. }
  assert (forall u r, <[t := p]> (places s) !! u = Some (Woken r) <-> places s !! u = Some (Woken r)) as Ek.
  { intros u r. destruct (decide (u = t)) as [->|Hn]; [|by rewrite lookup_insert_ne]. rewrite lookup_insert_eq. split; [intros [= ->]; done|intros E; by apply Hnt in E]. }
  split; cbn; [done|done| | | |].
  - intros u r. rewrite Ew. apply Hw.
  - intros u r Hu. destruct (Hwt u r Hu) as (r' & E & K). exists r'. by rewrite Ew.
  - intros u r. rewrite Ew. apply Hb.
  - intros u. rewrite Hh. split; intros [r H]; exists r; rewrite ?Ew, ?Ek in *; done.
Qed.

(** [wait] by a thread that has just taken the lock. *)
Lemma wp_lock_acquire_wait s t r (Q : unit -> qstate -> Prop) :
  qs_ok s -> holder s = None -> blocked r (queue s) = true ->
  (forall s', qs_ok s' -> ins s' = ins s -> outs s' = outs s -> places s' = <[t := Waiting r]> (places s) -> Q tt s') -> wp (lock_acquire_wait t r) s Q.
Proof.
  intros [Hq Hf Hw Hwt Hb Hh] Hn Hbl HQ. unfold lock_acquire_wait, wait, set_holder, set_queue, set_place. apply wp_bind, wp_unfold. do 2 eexists. split; [reflexivity|].
  apply wp_bind, wp_get, wp_bind, wp_assert; [done|]. unfold wp, mbind, M_bind. cbn [queue holder places ins outs].
  assert (forall u r', places s !! u ≠ Some (Waiting r') /\ places s !! u ≠ Some (Woken r')) as Hnone.
  { intros u r'. split; intros E; assert (holder s = Some u) by (apply Hh; eauto); congruence. }
  apply HQ; cbn; [|done..]. split; cbn.
  - by apply q_ok_waiter.
  - by rewrite contents_waiter.
  - intros u r' E. destruct (decide (u = t)) as [->|Hu]; [|rewrite lookup_insert_ne in E by done; by apply Hnone in E].
    rewrite lookup_insert_eq in E. injection E as <-. by rewrite waiter_set, kind_refl.
  - intros u r'. rewrite waiter_set. destruct (same_kind r' r) eqn:K.
    + intros [= <-]. exists r. by rewrite lookup_insert_eq.
    + intros E. destruct (Hwt u r' E) as (r2 & E2 & _). by apply Hnone in E2.
  - intros u r' E. destruct (decide (u = t)) as [->|Hu]; [|rewrite lookup_insert_ne in E by done; by apply Hnone in E].
    rewrite lookup_insert_eq in E. injection E as <-. by rewrite blocked_waiter.
  - intros u. split.
    + intros [= <-]. exists r. left. by rewrite lookup_insert_eq.
    + intros [r' E]. destruct (decide (u = t)) as [->|Hu]; [done|]. rewrite lookup_insert_ne in E by done. by destruct E as [E|E]; apply Hnone in E.
Qed.

(** Other threads stay where they are, or are woken. *)
Definition moved s s' t : Prop := places s' !! t = places s !! t \/ exists r, places s !! t = Some (Waiting r) /\ places s' !! t = Some (Woken r).

Lemma moved_running s s' t : moved s s' t -> running s t -> running s' t.
Proof. unfold running. intros [->|(r & E & _)]; [done|]. rewrite E. by intros [?|?]. Qed.

(** Between a change of the queue and [signal]: the threads that wait for it may go on. *)
Record qs_mid r s : Prop := {
  qm_queue : q_ok (queue s);
  qm_fifo : ins s = outs s ++ contents (queue s);
  qm_waiting t r' : places s !! t = Some (Waiting r') -> waiter r' (queue s) = Some t;
  qm_waiter t r' : waiter r' (queue s) = Some t -> exists r2, places s !! t = Some (Waiting r2) /\ same_kind r' r2 = true;
  qm_blocked t r' : places s !! t = Some (Waiting r') -> same_kind r r' = false -> blocked r' (queue s) = true;
  qm_holder t : holder s = Some t <-> exists r', places s !! t = Some (Waiting r') \/ places s !! t = Some (Woken r');
  qm_free : blocked r (queue s) = false }.

Lemma wp_signal s r (Q : unit -> qstate -> Prop) : qs_mid r s ->
  (forall s', qs_ok s' -> ins s' = ins s -> outs s' = outs s -> (forall t, moved s s' t) -> Q tt s') -> wp (signal r) s Q.
Proof.
  intros [Hq Hf Hw Hwt Hb Hh Hfr] HQ. unfold signal. apply wp_bind, wp_get, wp_bind, wp_assert; [by rewrite Hfr|]. destruct (waiter r (queue s)) as [t|] eqn:Ew.
  - destruct (Hwt t r Ew) as (r' & E & K). rewrite E. unfold wp, mbind, M_bind, set_place, set_queue. cbn [queue holder places ins outs].
    assert (forall u r2, places s !! u = Some (Waiting r2) -> same_kind r2 r = true -> u = t) as Huniq.
    { intros u r2 E2 K2. apply Hw in E2. rewrite (waiter_kind r2 r) in E2 by done. congruence. }
    apply HQ; cbn; [|done|done|].
    2:{ intros u. unfold moved. cbn. destruct (decide (u = t)) as [->|]; [right; exists r'; by rewrite lookup_insert_eq|left; by rewrite lookup_insert_ne]. }
    split; cbn; [by apply q_ok_waiter|by rewrite contents_waiter| | | |].
    + intros u r2 E2. destruct (decide (u = t)) as [->|Hu]; [by rewrite lookup_insert_eq in E2|]. rewrite lookup_insert_ne in E2 by done.
      rewrite waiter_set. destruct (same_kind r2 r) eqn:K2; [by destruct (Hu (Huniq u r2 E2 K2))|]. by apply Hw.
    + intros u r2. rewrite waiter_set. destruct (same_kind r2 r) eqn:K2; [done|]. intros E2. destruct (Hwt u r2 E2) as (r3 & E3 & K3). exists r3.
      rewrite lookup_insert_ne; [done|]. intros <-. assert (r' = r3) by congruence. subst r3. destruct r, r', r2; done.
    + intros u r2 E2. destruct (decide (u = t)) as [->|Hu]; [by rewrite lookup_insert_eq in E2|]. rewrite lookup_insert_ne in E2 by done. rewrite blocked_waiter.
      apply (Hb u); [done|]. destruct (same_kind r r2) eqn:K2; [|done]. rewrite kind_sym in K2. by destruct (Hu (Huniq u r2 E2 K2)).
    + intros u. rewrite Hh. destruct (decide (u = t)) as [->|Hu].
      * rewrite lookup_insert_eq. split; [intros _; eauto|]. intros _. eauto.
      * by rewrite lookup_insert_ne by done.
  - apply HQ; [|done|done|by left]. split; [done..| |done]. intros u r2 E2. apply (Hb u); [done|]. destruct (same_kind r r2) eqn:K2; [|done].
    apply Hw in E2. rewrite (waiter_kind r2 r) in E2 by (by rewrite kind_sym). congruence.
Qed.

Lemma wp_finish s r (Q : unit -> qstate -> Prop) : qs_ok s -> blocked r (queue s) = false ->
  (forall s', qs_ok s' -> (forall t, moved s s' t) ->
     match r with Get => ins s' = ins s /\ exists b, outs s' = outs s ++ [b] | Put b => ins s' = ins s ++ [b] /\ outs s' = outs s end -> Q tt s') ->
  wp (finish r) s Q.
Proof.
  intros [Hq Hf Hw Hwt Hb Hh] Hbl HQ. pose proof (blocked_count r (queue s) Hq) as Hc. rewrite Hbl in Hc. symmetry in Hc. apply Z.eqb_neq in Hc. pose proof (count_range (queue s)) as Hr.
  assert (forall u, places s !! u ≠ Some (Waiting r)) as Hno. { intros u E. apply Hb in E. congruence. }
  unfold finish. apply wp_bind, wp_get. destruct r as [|b].
  - pose proof Hq as [Hlen _ Ht]. destruct (lookup_lt_is_Some_2 (buf (queue s)) (Z.to_nat (tail (queue s)))) as [b Eb]; [lia|]. apply wp_bind. eapply wp_lift; [by rewrite Eb|].
    apply wp_bind, wp_unfold. do 2 eexists. split; [reflexivity|]. apply wp_bind, wp_unfold. do 2 eexists. split; [reflexivity|]. cbn [queue holder places ins outs].
    pose proof (taken_count (queue s) Hq ltac:(lia)) as Ec. pose proof (taken_contents (queue s) Hq ltac:(lia)) as Et. apply wp_signal; cbn; [|intros s' H1 H2 H3 H4; apply HQ; [done|done|eauto]].
    split; cbn; [by apply taken_ok| |done|done| |done|].
    + rewrite Hf, Et, (list_lookup_total_correct _ _ _ Eb), <-app_assoc. done.
    + intros u [|c] E K; [by apply Hno in E|done].
    + change (intq_full (taken (queue s)) = false). rewrite full_count by (by apply taken_ok). apply Z.eqb_neq. lia.
  - apply wp_bind, wp_unfold. do 2 eexists. split; [reflexivity|]. apply wp_bind, wp_unfold. do 2 eexists. split; [reflexivity|]. cbn [queue holder places ins outs].
    pose proof (added_count b (queue s) Hq ltac:(lia)) as Ec. pose proof (added_contents b (queue s) Hq ltac:(lia)) as Et. apply wp_signal; cbn; [|intros s' H1 H2 H3 H4; apply HQ; done].
    split; cbn; [by apply added_ok| |done|done| |done|].
    + rewrite Hf. change (mk_intq _ _ _ _ _) with (added b (queue s)). by rewrite Et, <-app_assoc.
    + intros u [|c] E K; [done|]. apply Hb in E. cbn in E, Hbl. congruence.
    + change (intq_empty (added b (queue s)) = false). rewrite empty_count by (by apply added_ok). apply Z.eqb_neq. lia.
Qed.

Lemma wp_call s t r (Q : unit -> qstate -> Prop) : qs_ok s -> running s t ->
  (forall s', qs_ok s' -> (forall u, u ≠ t -> moved s s' u) ->
     places s' !! t = Some Outside \/ places s' !! t = Some (Waiting r) \/ (places s' !! t = Some (InLock r) /\ holder s ≠ None) -> Q tt s') -> wp (call t r) s Q.
Proof.
  intros Hs Ht HQ. unfold call. apply wp_bind, wp_get. destruct (blocked r (queue s)) eqn:Hb.
  - destruct (holder s) as [h|] eqn:Eh.
    + apply wp_unfold. do 2 eexists. split; [reflexivity|]. apply HQ; [apply place_ok; [done|by left|done]| |].
      * intros u Hu. left. cbn. by rewrite lookup_insert_ne.
      * right. right. cbn. by rewrite lookup_insert_eq.
    + apply wp_lock_acquire_wait; [done..|]. intros s' Hs' _ _ Ep. apply HQ; [done| |].
      * intros u Hu. left. rewrite Ep. by rewrite lookup_insert_ne.
      * right. left. by rewrite Ep, lookup_insert_eq.
  - apply wp_bind, wp_finish; [done..|]. intros s' Hs' Hr _. apply wp_unfold. do 2 eexists. split; [reflexivity|]. apply HQ.
    + apply place_ok; [done|left; by apply (moved_running s)|done].
    + intros u Hu. unfold moved. cbn. rewrite lookup_insert_ne by done. apply Hr.
    + left. cbn. by rewrite lookup_insert_eq.
Qed.

(** The step that may fail: a thread gets the lock after the condition has changed. *)
Definition late s (e : event) : Prop :=
  exists t r, e = Resume t /\ places s !! t = Some (InLock r) /\ holder s = None /\ blocked r (queue s) = false.

Lemma release_ok s t r : qs_ok s -> places s !! t = Some (Woken r) ->
  qs_ok (mk_qstate (queue s) None (<[t := Outside]> (places s)) (ins s) (outs s)) /\ holder s = Some t.
Proof.
  intros [Hq Hf Hw Hwt Hb Hh] E. assert (holder s = Some t) as Eh by (apply Hh; eauto). split; [|done].
  assert (forall u r', places s !! u = Some (Waiting r') \/ places s !! u = Some (Woken r') -> u = t) as Hone.
  { intros u r' H. assert (holder s = Some u) by (apply Hh; eauto). congruence. }
  assert (forall u r', places s !! u ≠ Some (Waiting r')) as Hnw. { intros u r' H. pose proof (Hone u r' (or_introl H)). congruence. }
  assert (forall u r', <[t := Outside]> (places s) !! u ≠ Some (Waiting r')) as Hnw'.
  { intros u r'. destruct (decide (u = t)) as [->|Hu]; [by rewrite lookup_insert_eq|]. rewrite lookup_insert_ne by done. apply Hnw. }
  split; cbn; [done|done| | | |].
  - intros u r' H. by apply Hnw' in H.
  - intros u r' H. destruct (Hwt u r' H) as (r2 & H2 & _). by apply Hnw in H2.
  - intros u r' H. by apply Hnw' in H.
  - intros u. split; [done|]. intros [r' [H|H]]; [by apply Hnw' in H|]. destruct (decide (u = t)) as [->|Hu]; [by rewrite lookup_insert_eq in H|].
    rewrite lookup_insert_ne in H by done. by destruct (Hu (Hone u r' (or_intror H))).
Qed.

Lemma wp_step s e (Q : unit -> qstate -> Prop) : qs_ok s -> ~ late s e -> (forall s', qs_ok s' -> Q tt s') -> wp (step e) s Q.
Proof.
  intros Hs Hl HQ. unfold step. apply wp_bind, wp_get. destruct e as [t r|t|r].
  - destruct (places s !! t) as [[]|] eqn:E; [|by apply wp_ret, HQ..|].
    + apply wp_call; [done|by right|]. intros. by apply HQ.
    + apply wp_call; [done|by left|]. intros. by apply HQ.
  - unfold resume. apply wp_bind, wp_get. destruct (places s !! t) as [[|r|r|r]|] eqn:E; try (by apply wp_ret, HQ).
    + destruct (holder s) as [h|] eqn:Eh; [by apply wp_ret, HQ|]. destruct (blocked r (queue s)) eqn:Hb.
      * apply wp_lock_acquire_wait; [done..|]. intros. by apply HQ.
      * destruct Hl. by exists t, r.
    + destruct (release_ok s t r Hs E) as [Hs' Eh]. apply wp_bind, wp_assert; [by apply bool_decide_eq_true|]. apply wp_bind, wp_unfold. do 2 eexists. split; [reflexivity|].
      apply wp_bind, wp_unfold. do 2 eexists. split; [reflexivity|]. apply wp_call; [exact Hs'|right; cbn; by rewrite lookup_insert_eq|]. intros. by apply HQ.
  - destruct (blocked r (queue s)) eqn:Hb; [by apply wp_ret, HQ|]. unfold intr. apply wp_bind, wp_get, wp_bind, wp_assert; [by rewrite Hb|]. apply wp_finish; [done..|]. intros. by apply HQ.
Qed.

Lemma late_panics s e : late s e -> step e s = Err Panic.
Proof.
  intros (t & r & -> & E & Eh & Hb). unfold step, resume. cbv [mget mbind M_bind]. rewrite E, Eh.
  cbv [lock_acquire_wait set_holder wait mbind M_bind mget queue ASSERT]. fold (queue s). rewrite Hb. done.
Qed.

Lemma event_ok s e s' : qs_ok s -> step e s = Ok (tt, s') -> qs_ok s'.
Proof.
  intros Hs E. assert (wp (step e) s (fun _ s' => qs_ok s')) as H.
  { apply wp_step; [done| |done]. intros Hl. apply late_panics in Hl. congruence. }
  unfold wp in H. by rewrite E in H.
Qed.

Lemma run_ok es s s' : qs_ok s -> run es s = Ok (tt, s') -> qs_ok s'.
Proof.
  revert s. induction es as [|e es IH]; intros s Hs; cbn; [intros [= <-]; done|]. unfold mbind, M_bind. destruct (step e s) as [[[] s1]|x] eqn:E; [|done].
  intros Er. eapply IH; [by eapply event_ok|exact Er].
Qed.

Lemma initial_ok : qs_ok initial.
Proof.
  split; cbn; [by split|done| | | |]; try done. all: intros t; try (intros r; rewrite lookup_empty; done).
  - intros []; done.
  - split; [done|]. intros [r []]; by rewrite lookup_empty in *.
Qed.

(** ** One thread *)

Definition of_thread t (e : event) : Prop := match e with Call u _ | Resume u => u = t | Intr _ => True end.

(** Only [t] has used the queue, and it is not in [lock_acquire]. *)
Definition alone t s : Prop := qs_ok s /\ forall u p, places s !! u = Some p -> u = t /\ forall r, p ≠ InLock r.

Lemma alone_moved t s s' : qs_ok s' -> alone t s -> (forall u, u ≠ t -> moved s s' u) -> (forall r, places s' !! t ≠ Some (InLock r)) -> alone t s'.
Proof.
  intros Hs' [Hs Ha] Hm Ht. split; [done|]. intros u p E. destruct (decide (u = t)) as [->|Hu]; [split; [done|]; intros r ->; by apply Ht in E|].
  destruct (Hm u Hu) as [Em|(r & Em & _)]; [rewrite Em in E; by apply Ha|]. by destruct (Ha u _ Em).
Qed.

Lemma wp_call_alone s t r : alone t s -> running s t -> wp (call t r) s (fun _ s' => alone t s').
Proof.
  intros Ha Ht. pose proof Ha as [Hs Hp]. assert (holder s = None) as Eh.
  { destruct (holder s) as [h|] eqn:Eh; [|done]. apply (qs_holder _ Hs) in Eh as (r' & [E|E]); destruct (Hp _ _ E) as [-> _]; destruct Ht; congruence. }
  apply wp_call; [done|done|]. intros s' Hs' Hm Hpl. apply (alone_moved t s); [done..|]. intros r' E. destruct Hpl as [E'|[E'|[E' Hh]]]; congruence.
Qed.

Lemma wp_step_alone s t e : alone t s -> of_thread t e -> wp (step e) s (fun _ s' => alone t s').
Proof.
  intros Ha He. pose proof Ha as [Hs Hp]. unfold step. apply wp_bind, wp_get. destruct e as [u r|u|r]; cbn in He; subst.
  - destruct (places s !! t) as [[]|] eqn:E; [|by apply wp_ret..|].
    + apply wp_call_alone; [done|by right].
    + apply wp_call_alone; [done|by left].
  - unfold resume. apply wp_bind, wp_get. destruct (places s !! t) as [[|r|r|r]|] eqn:E; try (by apply wp_ret).
    + destruct (Hp _ _ E) as [_ Hn]. by destruct (Hn r).
    + destruct (release_ok s t r Hs E) as [Hs' Eh]. apply wp_bind, wp_assert; [by apply bool_decide_eq_true|]. apply wp_bind, wp_unfold. do 2 eexists. split; [reflexivity|].
      apply wp_bind, wp_unfold. do 2 eexists. split; [reflexivity|]. apply wp_call_alone; [|right; cbn; by rewrite lookup_insert_eq].
      split; [exact Hs'|]. cbn. intros u p Eu. destruct (decide (u = t)) as [->|Hu]; [|rewrite lookup_insert_ne in Eu by done; by apply Hp].
      rewrite lookup_insert_eq in Eu. by injection Eu as <-.
  - destruct (blocked r (queue s)) eqn:Hb; [by apply wp_ret|]. unfold intr. apply wp_bind, wp_get, wp_bind, wp_assert; [by rewrite Hb|]. apply wp_finish; [done..|].
    intros s' Hs' Hm _. apply (alone_moved t s); [done|done|by intros|]. intros r' E. destruct (Hm t) as [Em|(r2 & Em & E2)]; [|congruence].
    rewrite Em in E. destruct (Hp _ _ E) as [_ Hn]. by destruct (Hn r').
Qed.
End Invariant.

Lemma contents_length q : Z.of_nat (length (contents q)) = count q.
Proof. unfold contents. rewrite length_fmap, length_seq. pose proof (count_range q). lia. Qed.

(** A reader that waits is woken by the next byte, and takes it. *)
Lemma wp_wake s t b : qs_ok s -> places s !! t = Some (Waiting Get) ->
  wp (run [Intr (Put b); Resume t]) s (fun _ s' => outs s' = outs s ++ [b] /\ places s' !! t = Some Outside).
Proof.
  intros Hs E. pose proof (qs_blocked _ Hs _ _ E) as Hb. pose proof (qs_queue _ Hs) as Hq. rewrite blocked_count in Hb by done. apply Z.eqb_eq in Hb.
  assert (contents (queue s) = []) as Hc by (apply length_zero_iff_nil; pose proof (contents_length (queue s)); lia). pose proof (qs_fifo _ Hs) as Hf. rewrite Hc, app_nil_r in Hf.
  assert (blocked (Put b) (queue s) = false) as Hnf by (rewrite blocked_count by done; apply Z.eqb_neq; lia).
  cbn [run]. apply wp_bind. unfold step at 1. apply wp_bind, wp_get. rewrite Hnf. unfold intr. apply wp_bind, wp_get, wp_bind, wp_assert; [by rewrite Hnf|]. apply wp_finish; [done..|].
  intros s1 Hs1 Hm [Hi Ho]. pose proof (qs_fifo _ Hs1) as Hf1. rewrite Hi, Ho, Hf in Hf1. apply app_inv_head in Hf1.
  assert (blocked Get (queue s1) = false) as Hb1. { pose proof (contents_length (queue s1)) as Hl. rewrite <-Hf1 in Hl. cbn in Hl. rewrite blocked_count by apply Hs1. apply Z.eqb_neq. lia. }
  assert (places s1 !! t = Some (Woken Get)) as E1.
  { destruct (Hm t) as [Em|(r & Er & Em)]; [|congruence]. rewrite E in Em. pose proof (qs_blocked _ Hs1 _ _ Em). congruence. }
  apply wp_bind. unfold step, resume. apply wp_bind, wp_get, wp_bind, wp_get. rewrite E1. destruct (release_ok s1 t Get Hs1 E1) as [Hs2 Eh]. apply wp_bind, wp_assert; [by apply bool_decide_eq_true|].
  apply wp_bind, wp_unfold. do 2 eexists. split; [reflexivity|]. apply wp_bind, wp_unfold. do 2 eexists. split; [reflexivity|]. unfold call. apply wp_bind, wp_get. cbn [queue].
  rewrite Hb1. apply wp_bind, wp_finish; [exact Hs2|done|]. intros s3 Hs3 _ [Hi3 [x Ho3]]. cbn [ins outs] in *. apply wp_unfold. do 2 eexists. split; [reflexivity|]. apply wp_ret. cbn [outs places].
  split; [|by rewrite lookup_insert_eq]. pose proof (qs_fifo _ Hs3) as Hf3. rewrite Hi3, Hi, Hf, Ho3, Ho, <-app_assoc in Hf3. apply app_inv_head in Hf3. cbn in Hf3. injection Hf3 as <- _. by rewrite Ho3, Ho.
Qed.

(** * Results *)

(** C29: In every interleaving of threads and interrupts, the bytes come out of the queue in the
    order in which they went in, none twice and none lost, at most 63 are in it, and a thread
    sleeps only while its request cannot be served and is recorded to be woken. *)
Theorem intq_fifo es s : run es initial = Ok (tt, s) ->
  ins s = outs s ++ contents (queue s) /\ (length (contents (queue s)) <= 63)%nat /\
  (forall t r, places s !! t = Some (Waiting r) -> blocked r (queue s) = true /\ waiter r (queue s) = Some t /\ holder s = Some t).
Proof.
  intros E. pose proof (run_ok _ _ _ initial_ok E) as Hs. split_and!; [apply Hs| |].
  - pose proof (contents_length (queue s)). pose proof (count_range (queue s)). lia.
  - intros t r Et. split_and!; [by eapply qs_blocked|by apply qs_waiting|apply (qs_holder _ Hs); eauto].
Qed.

(** A thread that waits for a byte gets the next byte that an interrupt handler stores, as
    soon as it runs. *)
Theorem intq_wakes es s t b : run es initial = Ok (tt, s) -> places s !! t = Some (Waiting Get) ->
  wp (run [Intr (Put b); Resume t]) s (fun _ s' => outs s' = outs s ++ [b] /\ places s' !! t = Some Outside).
Proof. intros E Et. apply wp_wake; [|done]. by eapply run_ok; [apply initial_ok|]. Qed.

(** If a single thread uses the queue besides interrupt handlers, no assertion fails. *)
Theorem intq_one_thread_safe es t : Forall (of_thread t) es -> exists s, run es initial = Ok (tt, s).
Proof.
  intros He. assert (forall s, alone t s -> wp (run es) s (fun _ _ => True)) as H.
  { induction He as [|e es He _ IH]; intros s Ha; [done|]. cbn [run]. apply wp_bind. eapply wp_mono; [by apply wp_step_alone|]. intros [] s'. apply IH. }
  specialize (H initial). apply wp_unfold in H as ([] & s & E & _); [eauto|]. split; [apply initial_ok|]. intros u p. cbn. by rewrite lookup_empty.
Qed.


(** ** Witnesses *)

Definition demo_events : list event := [Intr (Put 97); Call 1 Get; Call 1 Get].

Lemma intq_fifo_witness : exists s, run demo_events initial = Ok (tt, s) /\ ins s = outs s ++ contents (queue s) /\ (length (contents (queue s)) <= 63)%nat /\
  (forall t r, places s !! t = Some (Waiting r) -> blocked r (queue s) = true /\ waiter r (queue s) = Some t /\ holder s = Some t).
Proof. eexists. split; [vm_compute; reflexivity|]. apply (intq_fifo demo_events). vm_compute. reflexivity. Defined.

Lemma intq_wakes_witness : exists s, run demo_events initial = Ok (tt, s) /\
  wp (run [Intr (Put 98); Resume 1]) s (fun _ s' => outs s' = outs s ++ [98] /\ places s' !! 1 = Some Outside).
Proof. eexists. split; [vm_compute; reflexivity|]. apply (intq_wakes demo_events); vm_compute; reflexivity. Defined.

Lemma intq_one_thread_safe_witness : exists s, run demo_events initial = Ok (tt, s).
Proof. apply (intq_one_thread_safe demo_events 1). repeat constructor. Defined.
