(* ===== verification/Kbd.v ===== *)
(** src/devices/kbd.c and src/devices/input.c: from the scan codes of a keyboard to the
    characters in the input buffer.

    [keyboard_interrupt] follows the shift keys and Caps Lock, maps a key to a character and
    stores it in the queue of [Intq].  The state of the shift keys is that of the last time each
    was pressed or released, and every printable character can be typed. *)
From Stdlib Require Import String Ascii.
From stdpp Require Import base list numbers gmap fin_maps.
From Stdlib Require Import ZArith Lia.
From S2P Require Import Prelude Strings CStdlib Stdio Intq.

Open Scope Z_scope.

(** * Data *)

Record kbd : Type := mk_kbd { left_shift : bool; right_shift : bool; left_alt : bool; right_alt : bool; left_ctrl : bool; right_ctrl : bool;
  caps_lock : bool; key_cnt : Z }.

(** [first_scancode] and [chars]; the table ends with an entry of scan code 0. *)
Definition keymap : Type := list (Z * list Z).

Definition invariant_keymap : keymap :=
  [(0x01, [27]); (0x0e, [8]); (0x0f, 9 :: str "QWERTYUIOP"); (0x1c, [13]); (0x1e, str "ASDFGHJKL"); (0x2c, str "ZXCVBNM"); (0x37, str "*"); (0x39, str " "); (0x53, [127])].
Definition unshifted_keymap : keymap :=
  [(0x02, str "1234567890-="); (0x1a, str "[]"); (0x27, str ";'`"); (0x2b, [92]); (0x33, str ",./")].
Definition shifted_keymap : keymap :=
  [(0x02, str "!@#$%^&*()_+"); (0x1a, str "{}"); (0x27, [58; 34; 126]); (0x2b, str "|"); (0x33, str "<>?")].

(** * Operations *)

Definition tolower (c : Z) : Z := if isupper c then c - 65 + 97 else c.
Definition toupper (c : Z) : Z := if islower c then c - 97 + 65 else c.

Fixpoint map_key (k : keymap) (scancode : Z) : option Z :=
  match k with
  | [] => None
  | (first, chars) :: k =>
    if (first <=? scancode) && (scancode <? first + Z.of_nat (length chars)) then chars !! Z.to_nat (scancode - first) else map_key k scancode
  end.

Definition set_shift_key (k : kbd) (code : Z) (b : bool) : kbd :=
  let 'mk_kbd ls rs la ra lc rc caps cnt := k in
  if code =? 0x2a then mk_kbd b rs la ra lc rc caps cnt
  else if code =? 0x36 then mk_kbd ls b la ra lc rc caps cnt
  else if code =? 0x38 then mk_kbd ls rs b ra lc rc caps cnt
  else if code =? 0xe038 then mk_kbd ls rs la b lc rc caps cnt
  else if code =? 0x1d then mk_kbd ls rs la ra b rc caps cnt
  else if code =? 0xe01d then mk_kbd ls rs la ra lc b caps cnt
  else k.

Definition set_caps_lock (k : kbd) (b : bool) : kbd :=
  mk_kbd (left_shift k) (right_shift k) (left_alt k) (right_alt k) (left_ctrl k) (right_ctrl k) b (key_cnt k).
Definition count_key (k : kbd) : kbd :=
  mk_kbd (left_shift k) (right_shift k) (left_alt k) (right_alt k) (left_ctrl k) (right_ctrl k) (caps_lock k) (key_cnt k + 1).

(** What a key does: nothing but a change of the shift keys, a character, or a reboot. *)
Inductive key_effect : Set := Quiet | Char (c : Z) | Reboot.

(** The character of a key, from its keymap character [c]. *)
Definition modified (k : kbd) (c : Z) : Z :=
  let shift := left_shift k || right_shift k in
  let alt := left_alt k || right_alt k in
  let ctrl := left_ctrl k || right_ctrl k in
  let c := if ctrl && (0x40 <=? c) && (c <? 0x60) then c - 0x40 else if eqb shift (caps_lock k) then tolower c else c in
  if alt then u8 (c + 0x80) else c.

(** [keyboard_interrupt] on the bytes that the data register holds, up to the input buffer. *)
Definition decode (k : kbd) (b1 b2 : Z) : kbd * key_effect :=
  let shift := left_shift k || right_shift k in
  let alt := left_alt k || right_alt k in
  let ctrl := left_ctrl k || right_ctrl k in
  let code := if b1 =? 0xe0 then Z.lor (Z.shiftl b1 8) b2 else b1 in
  let release := negb (Z.land code 0x80 =? 0) in
  let code := Z.ldiff code 0x80 in
  if code =? 0x3a then ((if release then k else set_caps_lock k (negb (caps_lock k))), Quiet)
  else
    match
      match map_key invariant_keymap code with
      | Some c => Some c
      | None => if shift then map_key shifted_keymap code else map_key unshifted_keymap code
      end
    with
    | Some c =>
      if release then (k, Quiet)
      else if (c =? 127) && ctrl && alt then (k, Reboot)
      else (k, Char (modified k c))
    | None => (set_shift_key k code (negb release), Quiet)
    end.

Definition input_init : qstate := initial.
Definition input_full (s : qstate) : bool := intq_full (queue s).
Definition input_putc (key : Z) : M qstate unit :=
  s ← mget;
  ASSERT (negb (intq_full (queue s)));;
  intr (Put key).

Definition keyboard_interrupt (b1 b2 : Z) : M (kbd * qstate) bool :=
  fun '(k, s) =>
    match decode k b1 b2 with
    | (k, Quiet) => Ok (true, (k, s))
    | (k, Reboot) => Ok (false, (k, s))
    | (k, Char c) =>
      if input_full s then Ok (true, (k, s))
      else match input_putc c s with Ok (_, s) => Ok (true, (count_key k, s)) | Err e => Err e end
    end.

Definition initial_kbd : kbd := mk_kbd false false false false false false false 0.

(** * Keys *)

(** A key goes down or up; an extended key sends the byte 0xe0 first. *)
Record stroke : Set := mk_stroke { extended : bool; key : Z; up : bool }.

Definition scan (x : stroke) : Z * Z :=
  let b := key x + (if up x then 0x80 else 0) in if extended x then (0xe0, b) else (b, 0).

Definition strike (k : kbd) (x : stroke) : kbd * key_effect := decode k (fst (scan x)) (snd (scan x)).

Fixpoint strikes (k : kbd) (xs : list stroke) : kbd :=
  match xs with [] => k | x :: xs => strikes (fst (strike k x)) xs end.

Definition stroke_ok (x : stroke) : Prop := 0 < key x < 128 /\ (extended x = false -> key x ≠ 0x60).

Inductive modifier : Set := LShift | RShift | LAlt | RAlt | LCtrl | RCtrl.
Definition mod_key (m : modifier) : bool * Z :=
  match m with LShift => (false, 0x2a) | RShift => (false, 0x36) | LAlt => (false, 0x38) | RAlt => (true, 0x38) | LCtrl => (false, 0x1d) | RCtrl => (true, 0x1d) end.
Definition mod_state (m : modifier) (k : kbd) : bool :=
  match m with LShift => left_shift k | RShift => right_shift k | LAlt => left_alt k | RAlt => right_alt k | LCtrl => left_ctrl k | RCtrl => right_ctrl k end.
Definition hits (m : modifier) (x : stroke) : bool := eqb (extended x) (fst (mod_key m)) && (key x =? snd (mod_key m)).

(** Whether [m] is held after the strokes [xs]. *)
Definition held (m : modifier) (b : bool) (xs : list stroke) : bool := foldl (fun b x => if hits m x then negb (up x) else b) b xs.

(** ** Scan codes *)

Definition bools : list bool := [false; true].
Definition all_strokes : list stroke :=
  filter (fun x => extended x = true \/ key x ≠ 0x60) (e ← bools; u ← bools; k ← seq 1 127; [mk_stroke e (Z.of_nat k) u]).

Lemma all_strokes_complete x : stroke_ok x -> x ∈ all_strokes.
Proof.
  intros [Hk He]. destruct x as [e k u]. cbn [key extended] in Hk, He. unfold all_strokes. apply list_elem_of_filter. split; [destruct e; [by left|right; by apply He]|].
  assert (forall b : bool, b ∈ bools) as Hb by (intros []; [right; left|left]).
  apply list_elem_of_bind. exists e. split; [|apply Hb]. apply list_elem_of_bind. exists u. split; [|apply Hb]. apply list_elem_of_bind. exists (Z.to_nat k).
  split; [rewrite Z2Nat.id by lia; left|apply elem_of_seq; lia].
Qed.

(** The code that [keyboard_interrupt] reads for a stroke. *)
Definition read_code (b1 b2 : Z) : Z := if b1 =? 0xe0 then Z.lor (Z.shiftl b1 8) b2 else b1.
Definition code_of (e : bool) (k : Z) : Z := (if e then 0xe000 else 0) + k.

Lemma scan_code x : stroke_ok x -> let c := read_code (fst (scan x)) (snd (scan x)) in
  Z.ldiff c 0x80 = code_of (extended x) (key x) /\ negb (Z.land c 0x80 =? 0) = up x.
Proof.
  intros Hx c. assert (forallb (fun x => let c := read_code (fst (scan x)) (snd (scan x)) in (Z.ldiff c 0x80 =? code_of (extended x) (key x)) && eqb (negb (Z.land c 0x80 =? 0)) (up x)) all_strokes = true) as H by (vm_compute; reflexivity).
  rewrite forallb_forall in H. specialize (H x (proj1 (list_elem_of_In _ _) (all_strokes_complete x Hx))). apply andb_true_iff in H as [H1%Z.eqb_eq H2%eqb_prop]. done.
Qed.

Definition mod_code (m : modifier) : Z := code_of (fst (mod_key m)) (snd (mod_key m)).

Lemma hits_code m x : stroke_ok x -> hits m x = (code_of (extended x) (key x) =? mod_code m).
Proof.
  intros [Hk _]. unfold hits, mod_code, code_of. destruct (extended x), m; cbn [mod_key fst snd eqb andb]; try (symmetry; apply Z.eqb_neq; lia); apply eq_true_iff_eq; rewrite !Z.eqb_eq; lia.
Qed.

Lemma mod_unmapped m : mod_code m ≠ 0x3a /\ map_key invariant_keymap (mod_code m) = None /\ map_key shifted_keymap (mod_code m) = None /\ map_key unshifted_keymap (mod_code m) = None.
Proof. by destruct m. Qed.

Lemma mod_set_shift m k code b : mod_state m (set_shift_key k code b) = if code =? mod_code m then b else mod_state m k.
Proof.
  destruct k. unfold set_shift_key. destruct m; cbn [mod_state mod_code mod_key fst snd code_of];
    repeat match goal with |- context [code =? ?z] => destruct (Z.eqb_spec code z); try (subst; done) end; done.
Qed.

(** The keymap character of a code. *)
Definition mapped_char (k : kbd) (code : Z) : option Z :=
  match map_key invariant_keymap code with
  | Some c => Some c
  | None => if left_shift k || right_shift k then map_key shifted_keymap code else map_key unshifted_keymap code
  end.

Lemma strike_cases k x : stroke_ok x -> let code := code_of (extended x) (key x) in
  strike k x =
    if code =? 0x3a then ((if up x then k else set_caps_lock k (negb (caps_lock k))), Quiet)
    else match mapped_char k code with
         | Some c => (k, if up x then Quiet else if (c =? 127) && (left_ctrl k || right_ctrl k) && (left_alt k || right_alt k) then Reboot else Char (modified k c))
         | None => (set_shift_key k code (negb (up x)), Quiet)
         end.
Proof.
  intros Hx code. destruct (scan_code x Hx) as [E1 E2]. unfold strike, decode. fold (read_code (fst (scan x)) (snd (scan x))). rewrite E1, E2. fold code. fold (mapped_char k code).
  destruct (code =? 0x3a); [done|]. destruct (mapped_char k code); [|done]. destruct (up x); [done|]. by destruct (_ && _).
Qed.

Lemma strike_modifiers k x m : stroke_ok x -> mod_state m (fst (strike k x)) = if hits m x then negb (up x) else mod_state m k.
Proof.
  intros Hx. rewrite strike_cases, hits_code by done. set (code := code_of _ _). destruct (mod_unmapped m) as (H1 & H2 & H3 & H4). destruct (Z.eqb_spec code (mod_code m)) as [E|E].
  - rewrite E, (proj2 (Z.eqb_neq _ _) H1). unfold mapped_char. rewrite H2, H3, H4. destruct (left_shift k || right_shift k); cbn [fst]; by rewrite mod_set_shift, Z.eqb_refl.
  - destruct (code =? 0x3a); [by destruct (up x), m|]. destruct (mapped_char k code); [done|]. cbn [fst]. by rewrite mod_set_shift, (proj2 (Z.eqb_neq _ _) E).
Qed.

(** The stroke that types a character: whether with Shift, and the key. *)
Definition shifted (b : bool) : kbd := mk_kbd b false false false false false false 0.
Definition types (b : bool) (n : Z) (c : Z) : bool := match strike (shifted b) (mk_stroke false n false) with (_, Char d) => d =? c | _ => false end.

(** * Results *)

(** The state of each shift key is that of the last stroke of it, whatever else is typed. *)
Theorem kbd_tracks_modifiers k xs m : Forall stroke_ok xs -> mod_state m (strikes k xs) = held m (mod_state m k) xs.
Proof.
  intros H. revert k. induction H as [|x xs Hx _ IH]; intros k; [done|]. cbn [strikes]. rewrite IH. unfold held. cbn [foldl]. by rewrite strike_modifiers.
Qed.

(** Every printable character is typed by some key, with or without Shift. *)
Theorem kbd_types_printable c : isprint c = true -> exists b n, 0 < n < 128 /\ snd (strike (shifted b) (mk_stroke false n false)) = Char c.
Proof.
  intros Hc. assert (forallb (fun c => existsb (fun b => existsb (fun n => types b (Z.of_nat n) (Z.of_nat c)) (seq 1 127)) bools) (seq 32 95) = true) as H by (vm_compute; reflexivity).
  unfold isprint in Hc. apply andb_true_iff in Hc as [H1%Z.leb_le H2%Z.ltb_lt]. rewrite forallb_forall in H. specialize (H (Z.to_nat c) ltac:(apply in_seq; lia)).
  apply existsb_exists in H as (b & _ & H). apply existsb_exists in H as (n & Hn%in_seq & H). rewrite Z2Nat.id in H by lia. exists b, (Z.of_nat n). split; [lia|].
  unfold types in H. destruct (strike _ _) as [k []]; try done. by apply Z.eqb_eq in H as ->.
Qed.

(** A character that is typed goes into the input buffer if there is room, and is dropped if
    there is none; the interrupt handler never fails an assertion. *)
Theorem keyboard_interrupt_safe k s x : qs_ok s -> stroke_ok x ->
  wp (keyboard_interrupt (fst (scan x)) (snd (scan x))) (k, s) (fun running '(k', s') => qs_ok s' /\
    match snd (strike k x) with
    | Char c => running = true /\ if input_full s then s' = s /\ key_cnt k' = key_cnt k else ins s' = ins s ++ [c] /\ outs s' = outs s /\ key_cnt k' = key_cnt k + 1
    | Quiet => running = true /\ s' = s
    | Reboot => running = false /\ s' = s
    end).
Proof.
  intros Hs Hx. unfold wp, keyboard_interrupt. fold (strike k x). destruct (strike k x) as [k' []] eqn:E; cbn [snd]; [done| |done].
  assert (key_cnt k' = key_cnt k) as Ek. { rewrite strike_cases in E by done. destruct (_ =? 0x3a); [by destruct (up x)|]. destruct (mapped_char _ _); [by injection E as <-|done]. }
  destruct (input_full s) eqn:Ef; [done|]. assert (wp (input_putc c) s (fun _ s' => qs_ok s' /\ ins s' = ins s ++ [c] /\ outs s' = outs s)) as H.
  { unfold input_putc, intr. apply wp_bind, wp_get, wp_bind, wp_assert; [by apply negb_true_iff|]. apply wp_bind, wp_get, wp_bind, wp_assert; [by apply negb_true_iff|].
    apply wp_finish; [done|done|]. intros s' Hs' _ [? ?]. done. }
  apply wp_unfold in H as (u & s' & -> & Hs' & Hi & Ho). split_and!; [done..|]. cbn. by rewrite Ek.
Qed.

(** ** Witnesses *)

Definition demo_strokes : list stroke := [mk_stroke false 0x2a false; mk_stroke false 0x1e false; mk_stroke false 0x2a true; mk_stroke true 0x38 false].

Lemma demo_strokes_ok : Forall stroke_ok demo_strokes.
Proof. repeat (apply Forall_cons; split; [split; cbn; [lia|lia]|]). done. Qed.

Lemma kbd_tracks_modifiers_witness : mod_state RAlt (strikes initial_kbd demo_strokes) = held RAlt (mod_state RAlt initial_kbd) demo_strokes.
Proof. apply (kbd_tracks_modifiers initial_kbd demo_strokes RAlt). exact demo_strokes_ok. Defined.

Lemma kbd_types_printable_witness : exists b n, 0 < n < 128 /\ snd (strike (shifted b) (mk_stroke false n false)) = Char 126.
Proof. apply (kbd_types_printable 126). reflexivity. Defined.

Lemma keyboard_interrupt_safe_witness :
  wp (keyboard_interrupt 0x1e 0) (initial_kbd, input_init) (fun running '(k', s') => qs_ok s' /\ running = true /\ ins s' = ins input_init ++ [97] /\ outs s' = outs input_init /\ key_cnt k' = key_cnt initial_kbd + 1).
Proof.
  apply (keyboard_interrupt_safe initial_kbd input_init (mk_stroke false 0x1e false)); [exact initial_ok|split; cbn; lia].
Defined.
