(* ===== verification/Vga.v ===== *)
(** src/devices/vga.c: the text screen.

    The screen is 25 rows of 80 cells in memory.  Against a page that never scrolls, the screen
    always shows the last 25 rows; the cursor stays on it, and the hardware cursor is where the
    driver thinks it is. *)
From stdpp Require Import base list numbers sets.
From Stdlib Require Import ZArith Lia.
From S2P Require Import Prelude.

Open Scope Z_scope.

(** * Data *)

Definition COL_CNT : Z := 80.
Definition ROW_CNT : Z := 25.
Definition GRAY_ON_BLACK : Z := 0x07.

(** A cell holds a character and an attribute; [fb !! y !! x] is the cell at column [x] of row [y]. *)
Definition cell : Type := (Z * Z)%type.

Section Vga.
(** The ports of the display: [outw] and [outb] to a port, [inb] from one. *)
Context {dev : Type} (outw outb : Z -> Z -> dev -> dev) (inb : Z -> dev -> Z).

Record vga : Type := mk_vga { fb : list (list cell); cx : Z; cy : Z; hw : dev; inited : bool }.

Definition set_fb (f : list (list cell)) (v : vga) : vga := mk_vga f (cx v) (cy v) (hw v) (inited v).
Definition set_cursor (x y : Z) (v : vga) : vga := mk_vga (fb v) x y (hw v) (inited v).

(** * Operations *)

(** A store outside of the screen is a fault. *)
Definition put_cell (y x : Z) (c : cell) : M vga unit :=
  v ← mget;
  match fb v !! Z.to_nat y with
  | Some row => if bool_decide (Z.to_nat x < length row)%nat then mput (set_fb (<[Z.to_nat y := <[Z.to_nat x := c]> row]> (fb v)) v) else mfail Fault
  | None => mfail Fault
  end.

Fixpoint clear_from (y : Z) (x : nat) (n : nat) : M vga unit :=
  match n with O => mret tt | S n => put_cell y (Z.of_nat x) (32, GRAY_ON_BLACK);; clear_from y (S x) n end.
Definition clear_row (y : Z) : M vga unit := clear_from y 0 (Z.to_nat COL_CNT).

Definition move_cursor : M vga unit :=
  v ← mget;
  let cp := (cx v + COL_CNT * cy v) mod 2 ^ 16 in
  mput (mk_vga (fb v) (cx v) (cy v)
    (outw 0x3d4 (Z.lor 0x0f (Z.shiftl cp 8 mod 2 ^ 16)) (outw 0x3d4 (Z.lor 0x0e (Z.land cp 0xff00)) (hw v))) (inited v)).

(** Reads the position of the hardware cursor. *)
Definition find_cursor (d : dev) : (Z * Z) * dev :=
  let d := outb 0x3d4 0x0e d in
  let cp := Z.shiftl (inb 0x3d5 d) 8 mod 2 ^ 16 in
  let d := outb 0x3d4 0x0f d in
  let cp := Z.lor cp (inb 0x3d5 d) in
  ((cp mod COL_CNT, cp / COL_CNT), d).

(** The first call finds the cursor where the hardware has it. *)
Definition init : M vga unit :=
  v ← mget;
  if inited v then mret tt
  else let '((x, y), d) := find_cursor (hw v) in mput (mk_vga (fb v) x y d true).

Fixpoint clear_rows (y : nat) (n : nat) : M vga unit :=
  match n with O => mret tt | S n => clear_row (Z.of_nat y);; clear_rows (S y) n end.
Definition cls : M vga unit :=
  clear_rows 0 (Z.to_nat ROW_CNT);;
  v ← mget;
  mput (set_cursor 0 0 v);;
  move_cursor.

(** [memmove] of rows 1 to 24 to rows 0 to 23. *)
Definition scroll (f : list (list cell)) : list (list cell) := drop 1 f ++ drop (Z.to_nat (ROW_CNT - 1)) f.

Definition newline : M vga unit :=
  v ← mget;
  mput (set_cursor 0 (cy v + 1) v);;
  if ROW_CNT <=? cy v + 1 then
    mput (set_fb (scroll (fb v)) (set_cursor 0 (ROW_CNT - 1) v));;
    clear_row (ROW_CNT - 1)
  else mret tt.

(** Interrupts are off during the call; the bell only makes a sound. *)
Definition vga_putc (c : Z) : M vga unit :=
  init;;
  v ← mget;
  (if c =? 10 then newline
   else if c =? 12 then cls
   else if c =? 8 then (if 0 <? cx v then mput (set_cursor (cx v - 1) (cy v) v) else mret tt)
   else if c =? 13 then mput (set_cursor 0 (cy v) v)
   else if c =? 9 then
     mput (set_cursor (ROUND_UP (cx v + 1) 8) (cy v) v);;
     (if COL_CNT <=? ROUND_UP (cx v + 1) 8 then newline else mret tt)
   else if c =? 7 then mret tt
   else
     put_cell (cy v) (cx v) (c, GRAY_ON_BLACK);;
     v ← mget;
     mput (set_cursor (cx v + 1) (cy v) v);;
     (if COL_CNT <=? cx v + 1 then newline else mret tt));;
  move_cursor.

Fixpoint vga_puts (cs : list Z) : M vga unit :=
  match cs with [] => mret tt | c :: cs => vga_putc c;; vga_puts cs end.
End Vga.
Arguments vga : clear implicits.
Arguments mk_vga {dev}.

(** * A page that never scrolls *)

Record page : Type := mk_page { rows : list (list cell); row : nat; col : Z }.

Definition blank : cell := (32, GRAY_ON_BLACK).
Definition blank_row : list cell := replicate 80 blank.

Definition page_newline (p : page) : page :=
  mk_page (if bool_decide (S (row p) = length (rows p)) then rows p ++ [blank_row] else rows p) (S (row p)) 0.

Definition page_advance (x : Z) (p : page) : page :=
  if 80 <=? x then page_newline p else mk_page (rows p) (row p) x.

Definition page_putc (c : Z) (p : page) : page :=
  if c =? 10 then page_newline p
  else if c =? 12 then mk_page (replicate 25 blank_row) 0 0
  else if c =? 8 then mk_page (rows p) (row p) (Z.max 0 (col p - 1))
  else if c =? 13 then mk_page (rows p) (row p) 0
  else if c =? 9 then page_advance ((col p / 8 + 1) * 8) p
  else if c =? 7 then p
  else page_advance (col p + 1) (mk_page (alter (fun r => <[Z.to_nat (col p) := (c, GRAY_ON_BLACK)]> r) (row p) (rows p)) (row p) (col p)).

Definition page_puts (cs : list Z) (p : page) : page := foldl (fun p c => page_putc c p) p cs.

(** The rows of the page that the screen shows. *)
Definition window (p : page) : list (list cell) := drop (length (rows p) - 25) (rows p).

Record page_ok (p : page) : Prop := {
  po_rows : Forall (fun r => length r = 80%nat) (rows p);
  po_many : (25 <= length (rows p))%nat;
  po_row : (length (rows p) - 25 <= row p < length (rows p))%nat;
  po_col : 0 <= col p < 80 }.

Lemma newline_ok p : page_ok p -> page_ok (page_newline p).
Proof.
  intros [Hr Hm Hrow Hc]. unfold page_newline. case_bool_decide as E.
  - split; cbn; [apply Forall_app; split; [done|by apply Forall_singleton]|..]; rewrite ?length_app; cbn; lia.
  - split; cbn; [done|done|lia|lia].
Qed.

Lemma advance_ok x p : page_ok p -> 0 <= x -> page_ok (page_advance x p).
Proof.
  intros Hp Hx. unfold page_advance. destruct (Z.leb_spec 80 x); [by apply newline_ok|]. destruct Hp. by split.
Qed.

Lemma alter_ok c p : page_ok p -> page_ok (mk_page (alter (fun r => <[Z.to_nat (col p) := c]> r) (row p) (rows p)) (row p) (col p)).
Proof.
  intros [Hr Hm Hrow Hc]. split; cbn; rewrite ?length_alter; [|done..]. apply Forall_alter; [done|]. intros r Hl. by rewrite length_insert.
Qed.

Lemma page_putc_ok c p : page_ok p -> page_ok (page_putc c p).
Proof.
  intros Hp. pose proof Hp as [Hr Hm Hrow Hc]. unfold page_putc. destruct (c =? 10); [by apply newline_ok|]. destruct (c =? 12).
  { split; cbn [rows row col]; rewrite ?length_replicate; [by apply Forall_replicate|lia|lia|lia]. }
  destruct (c =? 8); [split; cbn; try done; lia|]. destruct (c =? 13); [split; cbn; try done; lia|].
  destruct (c =? 9); [apply advance_ok; [done|]; pose proof (Z.div_pos (col p) 8); lia|]. destruct (c =? 7); [done|]. apply advance_ok; [by apply alter_ok|cbn; lia].
Qed.

(** * The screen shows the end of the page *)

Lemma alter_insert_list {A} (f : A -> A) i (l : list A) x : l !! i = Some x -> alter f i l = <[i := f x]> l.
Proof. revert i. induction l as [|y l IH]; intros [|i] E; [done|done|by injection E as ->|]. cbn. f_equal. by apply IH. Qed.

Section Shows.
Context {dev : Type} (outw outb : Z -> Z -> dev -> dev) (inb : Z -> dev -> Z).
Implicit Types (v : vga dev) (p : page).

Record shows v p : Prop := {
  sh_page : page_ok p;
  sh_fb : fb v = window p;
  sh_cx : cx v = col p;
  sh_cy : cy v = Z.of_nat (row p - (length (rows p) - 25));
  sh_init : inited v = true }.

Lemma window_length p : page_ok p -> length (window p) = 25%nat.
Proof. intros [_ Hm _ _]. unfold window. rewrite length_drop. lia. Qed.

Lemma window_rows p : page_ok p -> Forall (fun r => length r = 80%nat) (window p).
Proof. intros [Hr _ _ _]. by apply Forall_drop. Qed.

Lemma wp_put_cell y x c v r (Q : unit -> vga dev -> Prop) : fb v !! Z.to_nat y = Some r -> (Z.to_nat x < length r)%nat ->
  Q tt (set_fb (<[Z.to_nat y := <[Z.to_nat x := c]> r]> (fb v)) v) -> wp (put_cell y x c) v Q.
Proof. intros E Hx HQ. unfold put_cell. apply wp_bind, wp_get. rewrite E, bool_decide_true by done. by apply wp_put. Qed.

Lemma wp_clear_from y n : forall x v r (Q : unit -> vga dev -> Prop), fb v !! Z.to_nat y = Some r -> (x + n <= length r)%nat ->
  Q tt (set_fb (<[Z.to_nat y := take x r ++ replicate n blank ++ drop (x + n) r]> (fb v)) v) -> wp (clear_from y x n) v Q.
Proof.
  induction n as [|n IH]; intros x v r Q E Hl HQ; cbn [clear_from].
  - apply wp_ret. rewrite Nat.add_0_r in HQ. cbn [replicate app] in HQ. rewrite take_drop, list_insert_id in HQ by done. by destruct v.
  - apply wp_bind. eapply wp_put_cell; [exact E|lia|]. rewrite Nat2Z.id. eapply IH; [cbn; by rewrite list_lookup_insert_eq by (by eapply lookup_lt_Some)|rewrite length_insert; lia|].
    cbn. rewrite list_insert_insert_eq. unfold set_fb in HQ |- *. cbn [cx cy hw inited]. revert HQ. rewrite take_S_r with (x := blank) by (rewrite list_lookup_insert_eq; [done|lia]).
    rewrite take_insert_ge, drop_insert_lt by lia. rewrite <-app_assoc. cbn [app]. change (blank :: replicate n blank) with (replicate (S n) blank).
    by replace (S (x + n)) with (x + S n)%nat by lia.
Qed.

Lemma wp_clear_row y v r (Q : unit -> vga dev -> Prop) : fb v !! Z.to_nat y = Some r -> length r = 80%nat ->
  Q tt (set_fb (<[Z.to_nat y := blank_row]> (fb v)) v) -> wp (clear_row y) v Q.
Proof.
  intros E Hl HQ. unfold clear_row. change (Z.to_nat COL_CNT) with 80%nat. eapply wp_clear_from; [exact E|lia|]. cbn [Nat.add]. rewrite take_0, drop_ge by lia.
  cbn [app]. by rewrite app_nil_r.
Qed.

Lemma window_scroll p : page_ok p -> S (row p) = length (rows p) -> window (page_newline p) = drop 1 (window p) ++ [blank_row].
Proof.
  intros [_ Hm _ _] E. unfold page_newline, window. rewrite bool_decide_true by done. cbn [rows]. rewrite length_app. cbn [length]. rewrite drop_app_le by lia.
  rewrite drop_drop. do 2 f_equal. lia.
Qed.

Lemma wp_newline v p (Q : unit -> vga dev -> Prop) : shows v p -> (forall v', shows v' (page_newline p) -> Q tt v') -> wp newline v Q.
Proof.
  intros [Hp Hf Hx Hy Hi] HQ. pose proof Hp as [Hr Hm Hrow Hc]. pose proof (newline_ok p Hp) as Hp'. unfold newline. apply wp_bind, wp_get, wp_bind, wp_put. rewrite Hy. unfold ROW_CNT.
  pose proof (window_length p Hp) as Hwl. pose proof (window_rows p Hp) as Hwr. destruct (Z.leb_spec 25 (Z.of_nat (row p - (length (rows p) - 25)) + 1)) as [Hb|Hb].
  - apply wp_bind, wp_put. change (Z.to_nat (25 - 1)) with 24%nat. assert (exists r, scroll (fb v) !! 24%nat = Some r /\ length r = 80%nat) as (r & Er & Hrl).
    { rewrite Hf. unfold scroll, ROW_CNT. change (Z.to_nat (25 - 1)) with 24%nat. rewrite lookup_app_r by (rewrite length_drop; lia). rewrite length_drop, lookup_drop, Hwl. cbn.
      destruct (lookup_lt_is_Some_2 (window p) 24) as [r Er]; [lia|]. exists r. split; [done|]. by apply (Forall_lookup_1 _ _ _ _ Hwr Er). }
    eapply wp_clear_row; [exact Er|done|]. apply HQ. assert (S (row p) = length (rows p)) as E by lia. split; cbn [fb cx cy inited set_fb set_cursor]; [done| |done| |done].
    + rewrite window_scroll by done. rewrite Hf. unfold scroll, ROW_CNT. change (Z.to_nat (25 - 1)) with 24%nat. rewrite insert_app_r_alt by (rewrite length_drop; lia). rewrite length_drop, Hwl. f_equal.
      assert (length (drop 24 (window p)) = 1%nat) as Hl by (rewrite length_drop; lia). destruct (drop 24 (window p)) as [|x [|]]; [done|done|done].
    + unfold page_newline. rewrite bool_decide_true by done. cbn. rewrite length_app. cbn. lia.
  - apply wp_ret, HQ. split; cbn [fb cx cy inited set_fb set_cursor]; [done| |done| |done].
    + unfold page_newline, window. rewrite bool_decide_false by lia. by rewrite Hf.
    + unfold page_newline. rewrite bool_decide_false by lia. cbn. lia.
Qed.

(** Moving the cursor within a row. *)
Lemma shows_col v p x : shows v p -> 0 <= x < 80 -> shows (set_cursor x (cy v) v) (mk_page (rows p) (row p) x).
Proof. intros [[Hr Hm Hrow Hc] Hf Hx Hy Hi] Hxx. split; [by split|done..]. Qed.

Lemma wp_move_cursor v p (Q : unit -> vga dev -> Prop) : shows v p -> (forall v', shows v' p -> Q tt v') -> wp (move_cursor outw) v Q.
Proof. intros [Hp Hf Hx Hy Hi] HQ. unfold move_cursor. apply wp_bind, wp_get, wp_put. by apply HQ. Qed.

Lemma wp_advance v p x (Q : unit -> vga dev -> Prop) : shows v p -> 0 <= x -> (forall v', shows v' (page_advance x p) -> Q tt v') ->
  wp (mput (set_cursor x (cy v) v);; if COL_CNT <=? x then newline else mret tt) v Q.
Proof.
  intros Hs Hx HQ. apply wp_bind, wp_put. unfold page_advance, COL_CNT in *. destruct (Z.leb_spec 80 x).
  - pose proof Hs as [Hp Hf Hcx Hy Hi]. (* only the row of the cursor matters *)
    assert (wp newline v Q) as H1 by (by eapply wp_newline). unfold newline in H1 |- *. apply wp_bind_inv in H1. cbn in H1. apply wp_bind, wp_get. cbn [cy set_cursor]. exact H1.
  - apply wp_ret, HQ. apply shows_col; [done|lia].
Qed.

Lemma shows_put v p c : shows v p -> exists r, fb v !! Z.to_nat (cy v) = Some r /\ (Z.to_nat (cx v) < length r)%nat /\
  shows (set_fb (<[Z.to_nat (cy v) := <[Z.to_nat (cx v) := c]> r]> (fb v)) v) (mk_page (alter (fun r => <[Z.to_nat (col p) := c]> r) (row p) (rows p)) (row p) (col p)).
Proof.
  intros [Hp Hf Hx Hy Hi]. pose proof Hp as [Hr Hm Hrow Hc]. pose proof (window_length p Hp) as Hwl. pose proof (window_rows p Hp) as Hwr.
  destruct (lookup_lt_is_Some_2 (fb v) (Z.to_nat (cy v))) as [r Er]; [rewrite Hf; lia|]. exists r. split; [done|].
  assert (length r = 80%nat) as Hl by (rewrite Hf in Er; by apply (Forall_lookup_1 _ _ _ _ Hwr Er)). split; [lia|]. split; cbn; [by apply alter_ok| |done|by rewrite length_alter|done].
  unfold window in *. cbn [rows]. rewrite length_alter. set (k := (length (rows p) - 25)%nat) in *. rewrite Hf in Er |- *. rewrite Hy, Hx, Nat2Z.id in *.
  rewrite lookup_drop in Er. replace (k + (row p - k))%nat with (row p) in Er by lia. rewrite drop_alter_ge by lia.
  symmetry. apply (alter_insert_list (fun r => <[Z.to_nat (col p) := c]> r)). rewrite lookup_drop. by replace (k + (row p - k))%nat with (row p) by lia.
Qed.

Lemma wp_clear_rows n : forall y v (Q : unit -> vga dev -> Prop), (y + n <= length (fb v))%nat -> Forall (fun r => length r = 80%nat) (fb v) ->
  Q tt (set_fb (take y (fb v) ++ replicate n blank_row ++ drop (y + n) (fb v)) v) -> wp (clear_rows y n) v Q.
Proof.
  induction n as [|n IH]; intros y v Q Hl Hr HQ; cbn [clear_rows].
  - apply wp_ret. rewrite Nat.add_0_r in HQ. cbn [replicate app] in HQ. rewrite take_drop in HQ. by destruct v.
  - destruct (lookup_lt_is_Some_2 (fb v) y) as [r Er]; [lia|]. apply wp_bind. eapply wp_clear_row; [by rewrite Nat2Z.id|by apply (Forall_lookup_1 _ _ _ _ Hr Er)|].
    rewrite Nat2Z.id. apply IH; cbn [fb set_fb]; [rewrite length_insert; lia|by apply Forall_insert|]. unfold set_fb in HQ |- *. cbn [fb cx cy hw inited].
    rewrite take_S_r with (x := blank_row) by (rewrite list_lookup_insert_eq; [done|lia]). rewrite take_insert_ge, drop_insert_lt by lia. rewrite <-app_assoc. cbn [app].
    replace (S y + n)%nat with (y + S n)%nat by lia. exact HQ.
Qed.

Lemma wp_cls v p (Q : unit -> vga dev -> Prop) : shows v p -> (forall v', shows v' (mk_page (replicate 25 blank_row) 0 0) -> Q tt v') -> wp (cls outw) v Q.
Proof.
  intros [Hp Hf Hx Hy Hi] HQ. pose proof (window_length p Hp) as Hwl. unfold cls. change (Z.to_nat ROW_CNT) with 25%nat. apply wp_bind.
  apply wp_clear_rows; [rewrite Hf; lia|rewrite Hf; by apply window_rows|]. apply wp_bind, wp_get, wp_bind, wp_put. apply (wp_move_cursor _ (mk_page (replicate 25 blank_row) 0 0)); [|done].
  rewrite Hf. cbn [Nat.add]. rewrite take_0, drop_ge by lia. cbn [app]. rewrite app_nil_r. split; [|done..]. apply (page_putc_ok 12 p Hp).
Qed.

(** Before the first character the screen is ready if the hardware cursor is on it. *)
Definition ready v p : Prop := shows v p \/ (inited v = false /\ page_ok p /\ fb v = rows p /\ length (rows p) = 25%nat /\ fst (find_cursor outb inb (hw v)) = (col p, Z.of_nat (row p))).

Lemma wp_init v p (Q : unit -> vga dev -> Prop) : ready v p -> (forall v', shows v' p -> Q tt v') -> wp (init outb inb) v Q.
Proof.
  intros Hr HQ. unfold init. apply wp_bind, wp_get. destruct Hr as [Hs|(Hi & Hp & Hf & Hl & Hc)].
  - rewrite (sh_init _ _ Hs). by apply wp_ret, HQ.
  - rewrite Hi. destruct (find_cursor outb inb (hw v)) as [[x y] d]. injection Hc as -> ->. apply wp_put, HQ. split; cbn; [done| |done| |done].
    + unfold window. by rewrite Hl.
    + rewrite Hl. f_equal. lia.
Qed.

Lemma wp_vga_char v p c (Q : unit -> vga dev -> Prop) : ready v p -> (forall v', shows v' (page_putc c p) -> wp (move_cursor outw) v' Q) -> wp (vga_putc outw outb inb c) v Q.
Proof.
  intros Hr HQ. unfold vga_putc. apply wp_bind. apply (wp_init v p); [done|]. clear v Hr. intros v Hs. pose proof Hs as [Hp Hf Hx Hy Hi]. pose proof (po_col _ Hp) as Hc.
  apply wp_bind, wp_get, wp_bind. unfold page_putc in HQ. destruct (c =? 10); [by apply (wp_newline v p)|]. destruct (c =? 12); [by apply (wp_cls v p)|].
  destruct (c =? 8).
  { destruct (Z.ltb_spec 0 (cx v)); [apply wp_put, HQ; rewrite Z.max_r, <-Hx by lia; apply shows_col; [done|lia]|].
    apply wp_ret, HQ. rewrite Z.max_l by lia. replace 0 with (col p) by lia. by destruct p. }
  destruct (c =? 13); [apply wp_put, HQ, shows_col; [done|lia]|].
  destruct (c =? 9).
  { assert (ROUND_UP (cx v + 1) 8 = (col p / 8 + 1) * 8) as ->. { unfold ROUND_UP. rewrite Hx. replace (col p + 1 + 8 - 1) with (col p + 1 * 8) by lia. by rewrite Z.div_add by lia. }
    apply wp_advance with (p := p); [done| |done]. pose proof (Z.div_pos (col p) 8). lia. }
  destruct (c =? 7); [by apply wp_ret, HQ|]. destruct (shows_put v p (c, GRAY_ON_BLACK) Hs) as (r & Er & Hl & Hs'). apply wp_bind. eapply wp_put_cell; [exact Er|done|].
  apply wp_bind, wp_get. set (v1 := set_fb _ v) in *. assert (cx v1 = col p) as E1 by exact Hx. rewrite E1. eapply wp_advance; [exact Hs'|lia|exact HQ].
Qed.

(** ** The hardware cursor *)

Definition reg (d : dev) (i : Z) : Z := inb 0x3d5 (outb 0x3d4 i d).

(** The registers of the display behind the two ports: a word to 0x3d4 selects a register and
    writes it, a byte selects one, and 0x3d5 reads the one selected. *)
Hypothesis outw_reg : forall d i x j, i ∈ [0x0e; 0x0f] -> j ∈ [0x0e; 0x0f] -> 0 <= x < 256 -> reg (outw 0x3d4 (i + 256 * x) d) j = if i =? j then x else reg d j.
Hypothesis outb_reg : forall d i j, i ∈ [0x0e; 0x0f] -> j ∈ [0x0e; 0x0f] -> reg (outb 0x3d4 i d) j = reg d j.

Lemma cursor_words cp : 0 <= cp < 2000 ->
  Z.lor 0x0e (Z.land cp 0xff00) = 0x0e + 256 * (cp / 256) /\ Z.lor 0x0f (Z.shiftl cp 8 mod 2 ^ 16) = 0x0f + 256 * (cp mod 256) /\
  Z.lor (Z.shiftl (cp / 256) 8 mod 2 ^ 16) (cp mod 256) = cp.
Proof.
  intros Hc. assert (forallb (fun n => let cp := Z.of_nat n in (Z.lor 0x0e (Z.land cp 0xff00) =? 0x0e + 256 * (cp / 256)) && (Z.lor 0x0f (Z.shiftl cp 8 mod 2 ^ 16) =? 0x0f + 256 * (cp mod 256)) &&
    (Z.lor (Z.shiftl (cp / 256) 8 mod 2 ^ 16) (cp mod 256) =? cp)) (seq 0 2000) = true) as H by (vm_compute; reflexivity).
  rewrite forallb_forall in H. specialize (H (Z.to_nat cp) ltac:(apply in_seq; lia)). cbn zeta in H. rewrite Z2Nat.id in H by lia.
  apply andb_true_iff in H as [[H1%Z.eqb_eq H2%Z.eqb_eq]%andb_true_iff H3%Z.eqb_eq]. done.
Qed.

Lemma wp_move_cursor_found v p (Q : unit -> vga dev -> Prop) : shows v p ->
  (forall v', shows v' p -> fst (find_cursor outb inb (hw v')) = (cx v', cy v') -> Q tt v') -> wp (move_cursor outw) v Q.
Proof.
  intros Hs HQ. pose proof Hs as [Hp Hf Hx Hy Hi]. pose proof Hp as [_ Hm Hrow Hc]. unfold move_cursor. apply wp_bind, wp_get, wp_put. apply HQ; [done|]. cbn [cx cy hw]. unfold COL_CNT.
  set (cp := cx v + 80 * cy v). assert (0 <= cp < 2000) as Hcp by lia. rewrite (Z.mod_small cp) by lia. destruct (cursor_words cp Hcp) as (-> & -> & E3).
  assert (0 <= cp / 256 < 256 /\ 0 <= cp mod 256 < 256) as [B1 B2]. { split; [split; [apply Z.div_pos; lia|apply Z.div_lt_upper_bound; lia]|apply Z.mod_pos_bound; lia]. }
  assert (0x0e ∈ [0x0e; 0x0f]) as I1 by left. assert (0x0f ∈ [0x0e; 0x0f]) as I2 by (right; left).
  unfold find_cursor. set (d := outw 0x3d4 _ _). assert (inb 0x3d5 (outb 0x3d4 0x0e d) = cp / 256) as ->.
  { change (reg d 0x0e = cp / 256). unfold d. rewrite !outw_reg by done. done. }
  assert (inb 0x3d5 (outb 0x3d4 0x0f (outb 0x3d4 0x0e d)) = cp mod 256) as ->.
  { change (reg (outb 0x3d4 0x0e d) 0x0f = cp mod 256). rewrite outb_reg by done. unfold d. rewrite outw_reg by done. done. }
  cbn [fst]. rewrite E3. unfold cp, COL_CNT. f_equal; [rewrite Z.mul_comm, Z.mod_add, Z.mod_small by lia; done|rewrite Z.mul_comm, Z.div_add, Z.div_small by lia; lia].
Qed.

Lemma wp_vga_putc v p c (Q : unit -> vga dev -> Prop) : ready v p ->
  (forall v', shows v' (page_putc c p) -> fst (find_cursor outb inb (hw v')) = (cx v', cy v') -> Q tt v') -> wp (vga_putc outw outb inb c) v Q.
Proof. intros Hr HQ. eapply wp_vga_char; [exact Hr|]. intros v' Hs. by eapply wp_move_cursor_found. Qed.
End Shows.

(** * Results *)

(** After any text, with new lines, tabs, backspaces and form feeds in any order, the screen
    shows the last 25 rows of the page on which the text is written without scrolling; no store
    is outside of the screen, and the hardware cursor is at the next cell. *)
Theorem vga_shows_page {dev} (outw outb : Z -> Z -> dev -> dev) (inb : Z -> dev -> Z) v p cs :
  (forall d i x j, i ∈ [0x0e; 0x0f] -> j ∈ [0x0e; 0x0f] -> 0 <= x < 256 -> reg outb inb (outw 0x3d4 (i + 256 * x) d) j = if i =? j then x else reg outb inb d j) ->
  (forall d i j, i ∈ [0x0e; 0x0f] -> j ∈ [0x0e; 0x0f] -> reg outb inb (outb 0x3d4 i d) j = reg outb inb d j) ->
  ready outb inb v p -> cs ≠ [] ->
  wp (vga_puts outw outb inb cs) v (fun _ v' => fb v' = window (page_puts cs p) /\ length (fb v') = 25%nat /\ cx v' = col (page_puts cs p) /\ 0 <= cx v' < 80 /\ 0 <= cy v' < 25 /\
    fst (find_cursor outb inb (hw v')) = (cx v', cy v')).
Proof.
  intros Hw Hb Hr Hne. assert (forall cs v p, ready outb inb v p -> (cs = [] -> shows v p /\ fst (find_cursor outb inb (hw v)) = (cx v, cy v)) ->
    wp (vga_puts outw outb inb cs) v (fun _ v' => shows v' (page_puts cs p) /\ fst (find_cursor outb inb (hw v')) = (cx v', cy v'))) as H.
  { clear v p cs Hr Hne. induction cs as [|c cs IH]; intros v p Hr Hn; [by apply wp_ret, Hn|]. cbn [vga_puts]. apply wp_bind. eapply wp_vga_putc; [exact Hw|exact Hb|exact Hr|].
    intros v' Hs Hf. apply (IH v' (page_putc c p)); [by left|done]. }
  eapply wp_mono; [apply (H cs v p Hr); done|]. intros [] v' [[Hp Hf Hx Hy Hi] Hc]. pose proof (window_length _ Hp) as Hwl. pose proof Hp as [_ Hm Hrow Hcol]. rewrite Hf, Hx, Hy. split_and!; try done; try lia.
  by rewrite Hc, Hx, Hy.
Qed.

(** ** Witness: two registers and the one selected *)

Definition demo_dev : Type := (Z * (Z * Z))%type.
Definition demo_outb (port b : Z) (d : demo_dev) : demo_dev := (b, snd d).
Definition demo_outw (port w : Z) (d : demo_dev) : demo_dev :=
  let i := w mod 256 in let b := w / 256 in (i, if i =? 0x0e then (b, snd (snd d)) else (fst (snd d), b)).
Definition demo_inb (port : Z) (d : demo_dev) : Z := if fst d =? 0x0e then fst (snd d) else snd (snd d).
Definition demo_screen : vga demo_dev := mk_vga (replicate 25 blank_row) 0 0 (0, (7, 0xcf)) false.

Lemma vga_shows_page_witness : wp (vga_puts demo_outw demo_outb demo_inb [72; 105; 10]) demo_screen (fun _ v' =>
  fb v' = window (page_puts [72; 105; 10] (mk_page (replicate 25 blank_row) 24 79)) /\ length (fb v') = 25%nat /\ cx v' = col (page_puts [72; 105; 10] (mk_page (replicate 25 blank_row) 24 79)) /\
  0 <= cx v' < 80 /\ 0 <= cy v' < 25 /\ fst (find_cursor demo_outb demo_inb (hw v')) = (cx v', cy v')).
Proof.
  apply (vga_shows_page demo_outw demo_outb demo_inb demo_screen (mk_page (replicate 25 blank_row) 24 79)); [| | |discriminate].
  - intros [s [a b]] i x j Hi Hj Hx. assert ((i = 0x0e \/ i = 0x0f) /\ (j = 0x0e \/ j = 0x0f)) as [Hi' Hj'] by set_solver. unfold reg, demo_inb, demo_outb, demo_outw. cbn [fst snd].
    assert ((i + 256 * x) mod 256 = i) as -> by (rewrite Z.mul_comm, Z.mod_add, Z.mod_small by lia; done). assert ((i + 256 * x) / 256 = x) as -> by (rewrite Z.mul_comm, Z.div_add, Z.div_small by lia; lia).
    destruct Hi' as [->| ->], Hj' as [->| ->]; done.
  - intros [s [a b]] i j _ _. done.
  - right. split_and!; [done| |done|done|vm_compute; reflexivity]. split; [by apply Forall_replicate|cbn; lia|cbn; lia|cbn; lia].
Defined.
