(* ===== verification/Console.v ===== *)
(** src/lib/kernel/console.c, src/lib/user/console.c and the functions of src/lib/stdio.c that
    print to the console.

    Both consoles are clients of [__vprintf]: the kernel sends each character to the serial line
    and the screen under a lock that a thread may take again, a process collects characters in a
    buffer of 64 bytes that it writes with a system call.  Both print the text of the format and
    return its length. *)
From Stdlib Require Import String Ascii.
From stdpp Require Import base list numbers gmap fin_maps.
From Stdlib Require Import ZArith Lia.
From S2P Require Import Prelude Strings CStdlib Stdio.

Open Scope Z_scope.

(** * The console of the kernel *)

Section Kernel.
(** The thread that prints; whether it runs in an interrupt handler; what other threads print
    while it waits for the lock. *)
Context (current : Z) (intr_context : bool) (waited : list Z).

Record console : Type := mk_console { use_console_lock : bool; lock_holder : option Z; console_lock_depth : Z; write_cnt : Z; shown_text : list Z }.

(** The same with the count of [vprintf], in the memory of the kernel. *)
Definition cstate : Type := (mem * (console * Z))%type.

Definition on_console {A} (f : M console A) : M cstate A :=
  fun '(m, (c, n)) => match f c with Ok (x, c) => Ok (x, (m, (c, n))) | Err e => Err e end.

Definition console_init : M console unit :=
  c ← mget; mput (mk_console true None (console_lock_depth c) (write_cnt c) (shown_text c)).
Definition console_panic : M console unit :=
  c ← mget; mput (mk_console false (lock_holder c) (console_lock_depth c) (write_cnt c) (shown_text c)).

Definition held (c : console) : bool := bool_decide (lock_holder c = Some current).

(** [lock_acquire] and [lock_release] of threads/synch.c, as this thread sees them: if another
    thread has the lock, it prints [waited] and releases the lock first. *)
Definition console_lock_acquire : M console unit :=
  c ← mget;
  ASSERT (negb (held c));;
  mput (match lock_holder c with
        | None => mk_console (use_console_lock c) (Some current) (console_lock_depth c) (write_cnt c) (shown_text c)
        | Some _ => mk_console (use_console_lock c) (Some current) 0 (write_cnt c + Z.of_nat (length waited)) (shown_text c ++ waited)
        end).
Definition console_lock_release : M console unit :=
  c ← mget;
  ASSERT (held c);;
  mput (mk_console (use_console_lock c) None (console_lock_depth c) (write_cnt c) (shown_text c)).

Definition set_depth (d : Z) : M console unit :=
  c ← mget; mput (mk_console (use_console_lock c) (lock_holder c) d (write_cnt c) (shown_text c)).

Definition acquire_console : M console unit :=
  c ← mget;
  if negb intr_context && use_console_lock c then
    if held c then set_depth (console_lock_depth c + 1) else console_lock_acquire
  else mret tt.

Definition release_console : M console unit :=
  c ← mget;
  if negb intr_context && use_console_lock c then
    if 0 <? console_lock_depth c then set_depth (console_lock_depth c - 1) else console_lock_release
  else mret tt.

Definition console_locked_by_current_thread (c : console) : bool := intr_context || negb (use_console_lock c) || held c.

(** Writes a byte to the serial line and to the screen. *)
Definition putchar_have_lock (b : Z) : M console unit :=
  c ← mget;
  ASSERT (console_locked_by_current_thread c);;
  mput (mk_console (use_console_lock c) (lock_holder c) (console_lock_depth c) (write_cnt c + 1) (shown_text c ++ [u8 b])).

Definition vprintf_helper (b : Z) : M cstate unit :=
  '(m, (c, n)) ← mget;
  mput (m, (c, s32 (n + 1)));;
  on_console (putchar_have_lock b).

Definition vprintf (lit : string -> Z) (format : Z) (args : list Z) : M cstate Z :=
  '(m, (c, _)) ← mget;
  mput (m, (c, 0));;
  on_console acquire_console;;
  vprintf_ vprintf_helper lit format args;;
  on_console release_console;;
  '(m, (c, n)) ← mget;
  mret n.

Definition printf (lit : string -> Z) (format : Z) (args : list Z) : M cstate Z := vprintf lit format args.

Definition puts (s : Z) : M cstate Z :=
  on_console acquire_console;;
  fuel ← on_mem mem_fuel;
  loop fuel (fun s => c ← rd s; if c =? 0 then mret (inr tt) else on_console (putchar_have_lock c);; mret (inl (s + 1))) s;;
  on_console (putchar_have_lock 10);;
  on_console release_console;;
  mret 0.

Fixpoint putbuf_loop (buffer : Z) (n : nat) : M cstate unit :=
  match n with O => mret tt | S n => c ← rd buffer; on_console (putchar_have_lock c);; putbuf_loop (buffer + 1) n end.
Definition putbuf (buffer n : Z) : M cstate unit :=
  on_console acquire_console;;
  putbuf_loop buffer (Z.to_nat n);;
  on_console release_console.

Definition putchar (c : Z) : M cstate Z :=
  on_console acquire_console;;
  on_console (putchar_have_lock c);;
  on_console release_console;;
  mret c.

(** ** Human-readable sizes (lib/stdio.c) *)

Definition factors : list string := ["bytes"; "kB"; "MB"; "GB"; "TB"]%string.

(** The loop over [factors]: the size and the unit. *)
Fixpoint scale_size (size : Z) (fp : list string) : Z * string :=
  match fp with
  | [] => (size, EmptyString)
  | [f] => (size, f)
  | f :: fs => if 1024 <=? size then scale_size (size / 1024) fs else (size, f)
  end.

Definition print_human_readable_size (lit : string -> Z) (size : Z) : M cstate unit :=
  if size =? 1 then printf lit (lit "1 byte"%string) [];; mret tt
  else
    let '(size, f) := scale_size size factors in
    printf lit (lit "%llu %s"%string) [u32 size; u32 (size / 2 ^ 32); lit f];; mret tt.
End Kernel.

(** * The console of a process *)

Section User.
(** [write] is a system call; the model keeps the handles and bytes it is given. *)
Record vhprintf_aux : Type := mk_vh { vh_buf : list Z; char_cnt : Z; handle : Z; writes : list (Z * list Z) }.

Definition ustate : Type := (mem * vhprintf_aux)%type.

Definition flush : M ustate unit :=
  '(m, a) ← mget;
  mput (m, mk_vh [] (char_cnt a) (handle a) (if 0 <? Z.of_nat (length (vh_buf a)) then writes a ++ [(handle a, vh_buf a)] else writes a)).

(** A store past the end of the buffer is a fault. *)
Definition add_char (c : Z) : M ustate unit :=
  '(m, a) ← mget;
  (if Z.of_nat (length (vh_buf a)) <? 64 then mret tt else mfail Fault);;
  let buf := vh_buf a ++ [u8 c] in
  mput (m, mk_vh buf (char_cnt a) (handle a) (writes a));;
  (if 64 <=? Z.of_nat (length buf) then flush else mret tt);;
  '(m, a) ← mget;
  mput (m, mk_vh (vh_buf a) (s32 (char_cnt a + 1)) (handle a) (writes a)).

Definition vhprintf (lit : string -> Z) (hd format : Z) (args : list Z) : M ustate Z :=
  '(m, a) ← mget;
  mput (m, mk_vh [] 0 hd (writes a));;
  vprintf_ add_char lit format args;;
  flush;;
  '(m, a) ← mget;
  mret (char_cnt a).

Definition STDOUT_FILENO : Z := 1.
Definition hprintf (lit : string -> Z) (hd format : Z) (args : list Z) : M ustate Z := vhprintf lit hd format args.
Definition user_vprintf (lit : string -> Z) (format : Z) (args : list Z) : M ustate Z := vhprintf lit STDOUT_FILENO format args.
End User.

(** * The kernel prints the text of a format *)

Section KernelPrints.
Context (current : Z) (intr_context : bool) (waited : list Z) (m0 : mem).

Abbreviation locked := (console_locked_by_current_thread current intr_context).

(** [c] after the text [l]. *)
Definition after (c : console) (l : list Z) : console :=
  mk_console (use_console_lock c) (lock_holder c) (console_lock_depth c) (write_cnt c + Z.of_nat (length l)) (shown_text c ++ l).

Definition k_inv (c : console) (l : list Z) (s : cstate) : Prop := s = (m0, (after c l, Z.of_nat (length l))).

Lemma after_app c l l' : after (after c l) l' = after c (l ++ l').
Proof. unfold after. cbn. rewrite length_app, <-app_assoc. f_equal. lia. Qed.

Lemma wp_putchar_have_lock c b (Q : unit -> console -> Prop) : locked c = true -> byte b -> Q tt (after c [b]) -> wp (putchar_have_lock current intr_context b) c Q.
Proof. intros Hl Hb HQ. unfold putchar_have_lock. apply wp_bind, wp_get, wp_bind, wp_assert; [done|]. apply wp_put. by rewrite u8_byte. Qed.

Lemma wp_on_console {B} (f : M console B) m c n (Q : B -> cstate -> Prop) : wp f c (fun b c' => Q b (m, (c', n))) -> wp (on_console f) (m, (c, n)) Q.
Proof. unfold wp, on_console. by destruct (f c) as [[b c']|e]. Qed.

Lemma kernel_sink c : locked c = true -> Sink (vprintf_helper current intr_context) (fun _ => True) m0 (2 ^ 31 - 1) (k_inv c).
Proof.
  intros Hc. split; [| |done].
  - intros l b s -> Hb Hl. unfold vprintf_helper. apply wp_bind, wp_get. apply wp_bind, wp_put. apply wp_on_console, wp_putchar_have_lock; [done|done|].
    unfold k_inv. rewrite after_app, length_app, s32_small by lia. cbn [length]. by replace (Z.of_nat (length l + 1)) with (Z.of_nat (length l) + 1) by lia.
  - by intros l m a x [= -> ->].
Qed.

(** The depth counts the times that the holder of the lock has taken it again. *)
Definition balanced (c : console) : Prop := 0 <= console_lock_depth c /\ (lock_holder c = None -> console_lock_depth c = 0).

Definition uses_lock (c : console) : bool := negb intr_context && use_console_lock c.

(** What is printed between taking and releasing the lock. *)
Definition before (c : console) : list Z := if uses_lock c && negb (held current c) && bool_decide (is_Some (lock_holder c)) then waited else [].
Definition printed (c : console) (l : list Z) (c' : console) : Prop :=
  shown_text c' = shown_text c ++ before c ++ l /\ write_cnt c' = write_cnt c + Z.of_nat (length (before c ++ l)) /\ use_console_lock c' = use_console_lock c /\ balanced c' /\
  (if uses_lock c && negb (held current c) then lock_holder c' = None else lock_holder c' = lock_holder c /\ console_lock_depth c' = console_lock_depth c).

(** Taking the lock, printing [l] and releasing it. *)
Lemma wp_console {B} c n n' l (body : M cstate unit) (k : unit -> M cstate B) (Q : B -> cstate -> Prop) : balanced c ->
  (forall c1, locked c1 = true -> wp body (m0, (c1, n)) (fun _ s => s = (m0, (after c1 l, n')))) -> (forall c', printed c l c' -> wp (k tt) (m0, (c', n')) Q) ->
  wp (on_console (acquire_console current intr_context waited) ≫= fun _ => body ≫= fun _ => on_console (release_console current intr_context) ≫= k) (m0, (c, n)) Q.
Proof.
  intros [Hd Hn] Hbody HQ. unfold acquire_console, release_console, printed, before, uses_lock in *. apply wp_bind, wp_on_console, wp_bind, wp_get.
  destruct (negb intr_context && use_console_lock c) eqn:Eu; cbn [andb] in *.
  2:{ apply wp_ret, wp_bind. eapply wp_mono; [apply Hbody; unfold console_locked_by_current_thread; by destruct intr_context, (use_console_lock c)|]. intros [] s ->. apply wp_bind, wp_on_console, wp_bind, wp_get. cbn [use_console_lock after]. rewrite Eu.
      apply wp_ret, HQ. by split_and!. }
  unfold held in *. destruct (bool_decide (lock_holder c = Some current)) eqn:Eh; cbn [negb andb] in *.
  - unfold set_depth. apply wp_bind, wp_get, wp_put, wp_bind. eapply wp_mono; [apply Hbody; unfold console_locked_by_current_thread, held; cbn; by rewrite Eh, orb_true_r|].
    intros [] s ->. apply wp_bind, wp_on_console, wp_bind, wp_get. cbn [use_console_lock after console_lock_depth]. rewrite Eu. rewrite (proj2 (Z.ltb_lt 0 (console_lock_depth c + 1))) by lia.
    apply wp_bind, wp_get, wp_put, HQ. cbn. apply bool_decide_eq_true in Eh. split_and!; try done; try lia. split; cbn; [lia|]. by rewrite Eh.
  - unfold console_lock_acquire. apply wp_bind, wp_get, wp_bind, wp_assert; [unfold held; by rewrite Eh|]. apply wp_put, wp_bind.
    set (c1 := match lock_holder c with None => _ | Some _ => _ end). assert (lock_holder c1 = Some current /\ console_lock_depth c1 = 0 /\ use_console_lock c1 = use_console_lock c /\
      shown_text c1 = shown_text c ++ (if bool_decide (is_Some (lock_holder c)) then waited else []) /\ write_cnt c1 = write_cnt c + Z.of_nat (length (if bool_decide (is_Some (lock_holder c)) then waited else []))) as (E1 & E2 & E3 & E4 & E5).
    { subst c1. destruct (lock_holder c) as [h|]; [rewrite bool_decide_true by eauto; by split_and!|]. rewrite bool_decide_false by (by intros []). cbn. rewrite app_nil_r. split_and!; [done|by apply Hn|done|done|lia]. }
    eapply wp_mono; [apply Hbody; unfold console_locked_by_current_thread, held; by rewrite bool_decide_true, orb_true_r|]. intros [] s ->. apply wp_bind, wp_on_console, wp_bind, wp_get. cbn [use_console_lock after console_lock_depth].
    rewrite E3, Eu, E2. change (0 <? 0) with false. unfold console_lock_release. apply wp_bind, wp_get, wp_bind, wp_assert; [unfold held; cbn; by apply bool_decide_eq_true|]. apply wp_put, HQ. cbn.
    rewrite E4, E5, length_app, <-app_assoc. split_and!; [done|lia|done| |done]. split; cbn; [by rewrite E2|by rewrite E2].
Qed.

Definition anywhere (x : Z) : Prop := True.

Lemma wp_printf lit ds fmt c n (Q : Z -> cstate -> Prop) : balanced c ->
  (forall k, k ∈ literals -> kept anywhere m0 (lit k) (str k)) -> Forall (dir_ok anywhere m0) ds -> kept anywhere m0 fmt (formats ds) -> Z.of_nat (length (outputs ds)) < 2 ^ 31 ->
  (forall c', printed c (outputs ds) c' -> Q (Z.of_nat (length (outputs ds))) (m0, (c', Z.of_nat (length (outputs ds))))) ->
  wp (printf current intr_context waited lit fmt (arguments ds)) (m0, (c, n)) Q.
Proof.
  intros Hc Hlit Hd Hk Hl HQ. unfold printf, vprintf. apply wp_bind, wp_get, wp_bind, wp_put.
  eapply wp_console; [exact Hc| |].
  - intros c1 Hc1. pose proof (kernel_sink c1 Hc1) as HS. rewrite <-(app_nil_r (arguments ds)).
    eapply (wp_vprintf _ anywhere m0 (2 ^ 31 - 1) (k_inv c1) (HS := HS) lit Hlit ds fmt [] []); [exact Hd|exact Hk| |cbn; lia|].
    + unfold k_inv, after. cbn. rewrite app_nil_r, Z.add_0_r. by destruct c1.
    + intros s' Hs'. exact Hs'.
  - intros c' Hc'. apply wp_bind, wp_get, wp_ret. by apply HQ.
Qed.

Lemma wp_putbuf_loop c n bs : locked c = true -> Forall byte bs -> forall l buffer, bytes_at m0 buffer bs ->
  wp (putbuf_loop current intr_context buffer (length bs)) (m0, (after c l, n)) (fun _ s => s = (m0, (after c (l ++ bs), n))).
Proof.
  intros Hc Hb. induction Hb as [|b bs Hb _ IH]; intros l buffer Ha; cbn [putbuf_loop length]; [apply wp_ret; by rewrite app_nil_r|].
  destruct Ha as [Ha1 Ha2]. apply wp_bind, wp_on_mem. eapply wp_load8; [exact Ha1|]. apply wp_bind, wp_on_console, wp_putchar_have_lock; [done|done|]. rewrite after_app.
  replace (l ++ b :: bs) with ((l ++ [b]) ++ bs) by (by rewrite <-app_assoc). by apply IH.
Qed.

Lemma after_nil c : after c [] = c.
Proof. unfold after. cbn. rewrite app_nil_r, Z.add_0_r. by destruct c. Qed.

Lemma wp_putbuf c n buffer bs (Q : unit -> cstate -> Prop) : balanced c -> bytes_at m0 buffer bs -> Forall byte bs ->
  (forall c', printed c bs c' -> Q tt (m0, (c', n))) -> wp (putbuf current intr_context waited buffer (Z.of_nat (length bs))) (m0, (c, n)) Q.
Proof.
  intros Hc Ha Hb HQ. unfold putbuf. rewrite Nat2Z.id.
  pose proof (wp_console c n n bs (putbuf_loop current intr_context buffer (length bs)) (fun u => mret u) Q Hc) as W.
  assert (wp (on_console (acquire_console current intr_context waited) ≫= fun _ => putbuf_loop current intr_context buffer (length bs) ≫= fun _ => on_console (release_console current intr_context) ≫= fun u => mret u) (m0, (c, n)) Q) as H.
  { apply W; [|intros c' Hc'; by apply wp_ret, HQ]. intros c1 Hc1. pose proof (wp_putbuf_loop c1 n bs Hc1 Hb [] buffer Ha) as H. by rewrite after_nil in H. }
  apply wp_bind_inv in H. apply wp_bind. eapply wp_mono; [exact H|]. intros u s H1. apply wp_bind_inv in H1. apply wp_bind. eapply wp_mono; [exact H1|]. intros u2 s2 H2.
  apply wp_bind_inv in H2. eapply wp_mono; [exact H2|]. done.
Qed.

Lemma wp_puts c n a t (Q : Z -> cstate -> Prop) : balanced c -> cstr m0 a t -> (forall c', printed c (t ++ [10]) c' -> Q 0 (m0, (c', n))) ->
  wp (puts current intr_context waited a) (m0, (c, n)) Q.
Proof.
  intros Hc Hs HQ. unfold puts. set (body := fun s => c ← rd s; if c =? 0 then mret (inr tt) else on_console (putchar_have_lock current intr_context c);; mret (inl (s + 1))).
  assert (forall c1, locked c1 = true -> forall t a l fuel, cstr m0 a t -> (length t < fuel)%nat -> wp (loop fuel body a) (m0, (after c1 l, n)) (fun _ s => s = (m0, (after c1 (l ++ t), n)))) as Hloop.
  { clear a t Hs HQ. intros c1 Hc1. induction t as [|x t IH]; intros a l fuel Hs Hf; (destruct fuel as [|fuel]; [cbn in Hf; lia|]); apply wp_loop_S; unfold body; apply wp_bind; (eapply wp_rd; [exact Hs|]); cbn [hd].
    - apply wp_ret. by rewrite app_nil_r.
    - rewrite (cstr_char _ _ _ _ Hs). apply cstr_cons in Hs as (_ & _ & Hb & _ & Hs). apply wp_bind, wp_on_console, wp_putchar_have_lock; [done|done|]. rewrite after_app. apply wp_ret.
      replace (l ++ x :: t) with ((l ++ [x]) ++ t) by (by rewrite <-app_assoc). apply IH; [done|cbn in Hf; lia]. }
  pose proof (wp_console c n n (t ++ [10]) (fuel ← on_mem mem_fuel; loop fuel body a;; on_console (putchar_have_lock current intr_context 10)) (fun _ => mret 0) Q Hc) as W.
  apply wp_unfold in W.
  - apply wp_unfold. destruct W as (r & s & E & H). exists r, s. split; [|done]. rewrite <-E. unfold mbind, M_bind. destruct (on_console _ _) as [[u s1]|]; [|done].
    destruct (on_mem mem_fuel s1) as [[f s2]|]; [|done]. by destruct (loop f body a s2) as [[u2 s3]|].
  - intros c1 Hc1. apply wp_bind, wp_fuel, wp_bind. pose proof (cstr_size _ _ _ Hs). pose proof (Hloop c1 Hc1 t a [] (S (size m0)) Hs ltac:(lia)) as HL. rewrite after_nil in HL. eapply wp_mono; [exact HL|].
    intros [] s ->. apply wp_on_console, wp_putchar_have_lock; [done|done|]. by rewrite after_app.
  - intros c' Hc'. by apply wp_ret, HQ.
Qed.

(** ** Human-readable sizes *)

(** The unit [k] of a size: the last one, or one in which the size is less than 1024. *)
Lemma scale_size_spec fp : forall size f fs, fp = f :: fs -> 0 <= size -> exists k, scale_size size fp = (size / 1024 ^ Z.of_nat k, default f (fp !! k)) /\ (k < length fp)%nat /\
  (size / 1024 ^ Z.of_nat k < 1024 \/ S k = length fp) /\ (k = O \/ 1 <= size / 1024 ^ Z.of_nat k).
Proof.
  induction fp as [|g fp IH]; intros size f fs E Hs; [done|]. injection E as <- <-. destruct fp as [|f' fp].
  - exists O. cbn. rewrite Z.div_1_r. split_and!; [done|lia|by right|by left].
  - cbn [scale_size]. destruct (Z.leb_spec 1024 size) as [Hb|Hb].
    + destruct (IH (size / 1024) f' fp eq_refl ltac:(apply Z.div_pos; lia)) as (k & Ek & Hk & Hlt & Hge). exists (S k).
      assert (size / 1024 ^ Z.of_nat (S k) = size / 1024 / 1024 ^ Z.of_nat k) as E1 by (rewrite Nat2Z.inj_succ, Z.pow_succ_r, Z.div_div by lia; done).
      rewrite E1. split_and!; [|cbn in *; lia|destruct Hlt; [by left|right; cbn in *; lia]|right; destruct Hge as [->|]; [|done]].
      * change (scale_size (size / 1024) (f' :: fp) = (size / 1024 / 1024 ^ Z.of_nat k, default g ((f' :: fp) !! k))). rewrite Ek. f_equal.
        destruct (lookup_lt_is_Some_2 (f' :: fp) k Hk) as [x Hx]. by rewrite Hx.
      * cbn. rewrite Z.div_1_r. apply Z.div_le_lower_bound; lia.
    + exists O. cbn. rewrite Z.div_1_r. split_and!; [done|lia|by left|by left].
Qed.

Definition long_options : options := mk_options [] (Digits []) None LONGLONG.

(** The text for a size: the number of units, rounded down, and the unit. *)
Definition size_text (size : Z) : list Z :=
  if size =? 1 then str "1 byte" else let '(v, f) := scale_size size factors in unsigned_text base_d (options_style long_options) v ++ str " " ++ str f.

Lemma string_text_plain t : string_text (options_style no_options) t = t.
Proof. done. Qed.

Lemma wp_print_size lit c n size (Q : unit -> cstate -> Prop) : balanced c -> 0 <= size < 2 ^ 64 ->
  (forall k, k ∈ literals ++ ["1 byte"; "%llu %s"]%string ++ factors -> kept anywhere m0 (lit k) (str k) /\ lit k < 2 ^ 32) ->
  (forall c', printed c (size_text size) c' -> Q tt (m0, (c', Z.of_nat (length (size_text size))))) ->
  wp (print_human_readable_size current intr_context waited lit size) (m0, (c, n)) Q.
Proof.
  intros Hc Hs Hlit HQ. unfold print_human_readable_size, size_text in *. assert (forall k, k ∈ literals -> kept anywhere m0 (lit k) (str k)) as Hl0 by (intros k Hk; apply Hlit, elem_of_app; by left).
  destruct (size =? 1).
  - destruct (plains_format (str "1 byte")) as (Ef & Eo & Ea). apply wp_bind. rewrite <-Ea. apply (wp_printf lit (Plain <$> str "1 byte")); [done|done| | |rewrite Eo; cbn; lia|].
    + apply Forall_fmap. repeat (apply Forall_cons; split; [done|]). done.
    + rewrite Ef. apply Hlit, elem_of_app. right. left.
    + rewrite Eo. intros c' Hp. by apply wp_ret, HQ.
  - destruct (scale_size_spec factors size "bytes" _ eq_refl ltac:(lia)) as (k & Ek & Hk & _). rewrite Ek in *. set (f := default "bytes"%string (factors !! k)) in *. set (v := size / 1024 ^ Z.of_nat k) in *.
    assert (f ∈ factors) as Hf. { unfold f. destruct (lookup_lt_is_Some_2 factors k Hk) as [x Hx]. rewrite Hx. by eapply list_elem_of_lookup_2. }
    assert (0 <= v < 2 ^ 64) as Hv. { unfold v. split; [apply Z.div_pos; lia|]. eapply Z.le_lt_trans; [|apply Hs]. apply Z.div_le_upper_bound; [lia|]. nia. }
    set (ds := [Unsigned long_options (ch "u") v; Plain (ch " "); Text no_options (lit f) (str f)]). destruct (Hlit f ltac:(rewrite !elem_of_app; tauto)) as [Hkf Hrf].
    assert (outputs ds = unsigned_text base_d (options_style long_options) v ++ str " " ++ str f) as Eo.
    { unfold outputs, ds. cbn [fmap list_fmap mjoin list_join dir_output]. cbn [o_type long_options type_bits]. rewrite Z.mod_small by lia. by rewrite app_nil_r. }
    apply wp_bind. change [u32 v; u32 (v / 2 ^ 32); lit f] with (arguments ds). apply (wp_printf lit ds); [done|done| | | |].
    + apply Forall_cons. split; [split; [split; [by split|done|done]|right; left]|]. apply Forall_cons. split; [done|]. apply Forall_singleton. split; [apply no_options_ok|]. by right.
    + change (formats ds) with (str "%llu %s"). apply Hlit. rewrite !elem_of_app. right. left. right. left.
    + rewrite Eo. unfold unsigned_text, field. change (s_left _) with false. change (s_zero _) with false. change (s_width _) with 0. cbn [Nat.sub Z.to_nat replicate app]. rewrite !length_app. change (length (x_chars _ _ _)) with O.
      pose proof (number_text_length base_d (options_style long_options) v). rewrite length_replicate. change (length (str " ")) with 1%nat. assert (length (str f) <= 5)%nat; [|lia].
      assert (Forall (fun g => length (str g) <= 5)%nat factors) as H5 by (repeat (apply Forall_cons; split; [cbn; lia|]); done). rewrite Forall_forall in H5. by apply H5.
    + rewrite Eo. intros c' Hp. by apply wp_ret, HQ.
Qed.
End KernelPrints.

(** * A process writes the text of a format *)

Section UserPrints.
Context (m0 : mem) (hd : Z) (w0 : list (Z * list Z)).

(** The characters received are in the writes made since, and in the buffer. *)
Definition u_inv (l : list Z) (s : ustate) : Prop := exists ws b, s = (m0, mk_vh b (Z.of_nat (length l)) hd (w0 ++ ws)) /\ l = mjoin (snd <$> ws) ++ b /\ (length b < 64)%nat /\
  Forall (fun w => fst w = hd /\ (0 < length (snd w) <= 64)%nat) ws.

Lemma user_sink : Sink add_char (fun _ => True) m0 (2 ^ 31 - 1) u_inv.
Proof.
  split; [| |done].
  - intros l c s (ws & b & -> & -> & Hb & Hws) Hc Hl. unfold add_char. apply wp_bind, wp_get. cbn [vh_buf char_cnt handle writes]. rewrite (proj2 (Z.ltb_lt (Z.of_nat (length b)) 64)) by lia.
    apply wp_bind, wp_ret, wp_bind, wp_put, wp_bind. rewrite length_app, u8_byte by done. cbn [length].
    set (l := mjoin (snd <$> ws) ++ b) in *. assert (Z.of_nat (length l) + 1 = Z.of_nat (length (l ++ [c]))) as El by (rewrite length_app; cbn; lia).
    destruct (Z.leb_spec 64 (Z.of_nat (length b + 1))) as [Hfull|Hroom].
    + unfold flush. apply wp_bind, wp_get, wp_put. cbn [vh_buf char_cnt handle writes]. rewrite (proj2 (Z.ltb_lt 0 (Z.of_nat (length (b ++ [c]))))) by (rewrite length_app; cbn; lia).
      apply wp_bind, wp_get, wp_put. cbn [vh_buf char_cnt handle writes]. exists (ws ++ [(hd, b ++ [c])]), []. rewrite s32_small, El, <-app_assoc by lia. split_and!; [done| |cbn; lia|].
      * rewrite fmap_app, join_app. cbn. rewrite !app_nil_r. unfold l. by rewrite <-app_assoc.
      * apply Forall_app. split; [done|]. apply Forall_singleton. cbn. rewrite length_app. cbn. lia.
    + apply wp_ret, wp_bind, wp_get, wp_put. cbn [vh_buf char_cnt handle writes]. exists ws, (b ++ [c]). rewrite s32_small, El by lia. split_and!; [done|unfold l; by rewrite <-app_assoc|rewrite length_app; cbn; lia|done].
  - by intros l m a x (ws & b & [= -> _] & _) _.
Qed.

Lemma wp_vhprintf lit ds fmt a (Q : Z -> ustate -> Prop) : writes a = w0 ->
  (forall k, k ∈ literals -> kept (fun _ => True) m0 (lit k) (str k)) -> Forall (dir_ok (fun _ => True) m0) ds -> kept (fun _ => True) m0 fmt (formats ds) -> Z.of_nat (length (outputs ds)) < 2 ^ 31 ->
  (forall a' ws, writes a' = w0 ++ ws -> mjoin (snd <$> ws) = outputs ds -> Forall (fun w => fst w = hd /\ (0 < length (snd w) <= 64)%nat) ws -> Q (Z.of_nat (length (outputs ds))) (m0, a')) ->
  wp (vhprintf lit hd fmt (arguments ds)) (m0, a) Q.
Proof.
  intros Hw Hlit Hd Hk Hl HQ. unfold vhprintf. apply wp_bind, wp_get, wp_bind, wp_put, wp_bind. rewrite <-(app_nil_r (arguments ds)).
  eapply (wp_vprintf _ (fun _ => True) m0 (2 ^ 31 - 1) u_inv (HS := user_sink) lit Hlit ds fmt [] []); [exact Hd|exact Hk| |cbn; lia|].
  - exists [], []. rewrite app_nil_r, Hw. split_and!; [done|done|cbn; lia|done].
  - intros s (ws & b & -> & Eo & Hb & Hws). cbn [app] in Eo. unfold flush. apply wp_bind, wp_bind, wp_get, wp_put, wp_bind, wp_get, wp_ret. cbn [vh_buf char_cnt handle writes app].
    destruct b as [|c b].
    + change (0 <? Z.of_nat (@length Z [])) with false. rewrite app_nil_r in Eo. by eapply HQ.
    + rewrite (proj2 (Z.ltb_lt 0 (Z.of_nat (length (c :: b))))) by (cbn; lia). eapply (HQ _ (ws ++ [(hd, c :: b)])); cbn [writes]; [by rewrite <-app_assoc| |].
      * rewrite fmap_app, join_app. cbn [fmap list_fmap mjoin list_join snd]. by rewrite app_nil_r, Eo.
      * apply Forall_app. split; [done|]. apply Forall_singleton. cbn in *. lia.
Qed.
End UserPrints.

(** * Results *)

(** [printf] in the kernel shows the text of its format and returns its length, whether the
    console is free, held by another thread or held by this one.  It fails no assertion and leaves
    the lock as it found it, or free. *)
Theorem kernel_printf_correct current intr_context waited lit (m : mem) c n fmt ds :
  balanced c -> (forall k, k ∈ literals -> kept anywhere m (lit k) (str k)) -> Forall (dir_ok anywhere m) ds -> kept anywhere m fmt (mjoin (dir_format <$> ds)) ->
  Z.of_nat (length (mjoin (dir_output <$> ds))) < 2 ^ 31 ->
  wp (printf current intr_context waited lit fmt (mjoin (dir_args <$> ds))) (m, (c, n)) (fun r '(m', (c', _)) => r = Z.of_nat (length (mjoin (dir_output <$> ds))) /\ m' = m /\
    printed current intr_context waited c (mjoin (dir_output <$> ds)) c').
Proof. intros Hc Hlit Hd Hk Hl. apply (wp_printf current intr_context waited m lit ds fmt c n); [done..|]. intros c' Hc'. done. Qed.

(** [hprintf] in a process writes the text of its format to the handle, in pieces of at most
    64 bytes, and returns its length. *)
Theorem user_printf_correct lit (m : mem) a hd fmt ds :
  (forall k, k ∈ literals -> kept anywhere m (lit k) (str k)) -> Forall (dir_ok anywhere m) ds -> kept anywhere m fmt (mjoin (dir_format <$> ds)) ->
  Z.of_nat (length (mjoin (dir_output <$> ds))) < 2 ^ 31 ->
  wp (hprintf lit hd fmt (mjoin (dir_args <$> ds))) (m, a) (fun r '(m', a') => r = Z.of_nat (length (mjoin (dir_output <$> ds))) /\ m' = m /\
    exists ws, writes a' = writes a ++ ws /\ mjoin (snd <$> ws) = mjoin (dir_output <$> ds) /\ Forall (fun w => fst w = hd /\ (0 < length (snd w) <= 64)%nat) ws).
Proof. intros Hlit Hd Hk Hl. apply (wp_vhprintf m hd (writes a) lit ds fmt a); [done..|]. intros a' ws E1 E2 E3. split_and!; [done|done|]. by exists ws. Qed.

(** [print_human_readable_size] shows the size in the largest unit up to TB in which it is at
    least 1, rounded down. *)
Theorem print_size_correct current intr_context waited lit (m : mem) c n size :
  balanced c -> 0 <= size < 2 ^ 64 -> (forall k, k ∈ literals ++ ["1 byte"; "%llu %s"]%string ++ factors -> kept anywhere m (lit k) (str k) /\ lit k < 2 ^ 32) ->
  wp (print_human_readable_size current intr_context waited lit size) (m, (c, n)) (fun _ '(m', (c', _)) => m' = m /\ printed current intr_context waited c (size_text size) c') /\
  (size ≠ 1 -> exists k f, factors !! k = Some f /\ size_text size = unsigned_text base_d (options_style long_options) (size / 1024 ^ Z.of_nat k) ++ str " " ++ str f /\
     (size / 1024 ^ Z.of_nat k < 1024 \/ k = 4%nat) /\ (k = O \/ 1 <= size / 1024 ^ Z.of_nat k)).
Proof.
  intros Hc Hs Hlit. split; [by apply (wp_print_size current intr_context waited m)|]. intros Hn. unfold size_text. rewrite (proj2 (Z.eqb_neq _ _) Hn).
  destruct (scale_size_spec factors size "bytes" _ eq_refl ltac:(lia)) as (k & -> & Hk & H1 & H2). destruct (lookup_lt_is_Some_2 factors k Hk) as [f Hf]. exists k, f. rewrite Hf. cbn in H1. split_and!; [done|done| |done].
  destruct H1; [by left|right; lia].
Qed.

(** ** Witnesses *)

Definition demo_lit (s : string) : Z := match list_find (fun k => k = s) (literals ++ ["1 byte"; "%llu %s"]%string ++ factors ++ ["%d%%"]%string) with Some (i, _) => 1000 + 50 * Z.of_nat i | None => 900 end.
Definition demo_mem : mem := foldl (fun m s => put m (demo_lit s) (str s ++ [0])) ∅ (literals ++ ["1 byte"; "%llu %s"]%string ++ factors ++ ["%d%%"]%string).
Definition demo_console : console := mk_console true (Some 1) 0 0 [].

Lemma demo_console_kept p s : kept_b 0 0 demo_mem p s = true -> kept anywhere demo_mem p s.
Proof. intros H. apply demo_kept in H as [H _]. by split. Qed.

Lemma demo_console_literals : forall k, k ∈ literals -> kept anywhere demo_mem (demo_lit k) (str k).
Proof.
  assert (forallb (fun k => kept_b 0 0 demo_mem (demo_lit k) (str k)) literals = true) as H by (vm_compute; reflexivity). intros k Hk. rewrite forallb_forall in H.
  by apply demo_console_kept, H, list_elem_of_In.
Qed.

Definition demo_directives : list directive := [Signed no_options (ch "d") 42; Percent].

Lemma demo_directives_ok : Forall (dir_ok anywhere demo_mem) demo_directives.
Proof. apply Forall_cons. split; [split; [apply no_options_ok|left]|]. by apply Forall_singleton. Qed.

Lemma kernel_printf_correct_witness :
  wp (printf 2 false [97] demo_lit (demo_lit "%d%%") [42]) (demo_mem, (demo_console, 0)) (fun r '(m', (c', _)) => r = 3 /\ m' = demo_mem /\ printed 2 false [97] demo_console (str "42%") c').
Proof.
  apply (kernel_printf_correct 2 false [97] demo_lit demo_mem demo_console 0 (demo_lit "%d%%") demo_directives);
    [by split|exact demo_console_literals|exact demo_directives_ok|apply demo_console_kept; vm_compute; reflexivity|vm_compute; reflexivity].
Defined.

Lemma user_printf_correct_witness :
  wp (hprintf demo_lit 1 (demo_lit "%d%%") [42]) (demo_mem, mk_vh [] 0 0 []) (fun r '(m', a') => r = 3 /\ m' = demo_mem /\
    exists ws, writes a' = [] ++ ws /\ mjoin (snd <$> ws) = str "42%" /\ Forall (fun w => fst w = 1 /\ (0 < length (snd w) <= 64)%nat) ws).
Proof.
  apply (user_printf_correct demo_lit demo_mem (mk_vh [] 0 0 []) 1 (demo_lit "%d%%") demo_directives);
    [exact demo_console_literals|exact demo_directives_ok|apply demo_console_kept; vm_compute; reflexivity|vm_compute; reflexivity].
Defined.

Lemma print_size_correct_witness :
  wp (print_human_readable_size 2 false [97] demo_lit 4096) (demo_mem, (demo_console, 0)) (fun _ '(m', (c', _)) => m' = demo_mem /\ printed 2 false [97] demo_console (str "4 kB") c').
Proof.
  apply (print_size_correct 2 false [97] demo_lit demo_mem demo_console 0 4096); [by split|lia|].
  assert (forallb (fun k => kept_b 0 0 demo_mem (demo_lit k) (str k) && (demo_lit k <? 2 ^ 32)) (literals ++ ["1 byte"; "%llu %s"]%string ++ factors) = true) as H by (vm_compute; reflexivity).
  intros k Hk. rewrite forallb_forall in H. apply list_elem_of_In, H, andb_true_iff in Hk as [H1 H2%Z.ltb_lt]. by split; [apply demo_console_kept|].
Defined.
