(* ===== verification/Ustar.v ===== *)
(** src/lib/ustar.c: headers of tar archives.

    [ustar_make_header] writes a header of 512 bytes to memory and [ustar_parse_header] reads
    one.  Parsing any 512 bytes returns what the pure [parse_header] says, without a fault; a
    header that was made is parsed to the same name, type and size, and names never start with
    [/], [./] or [../]. *)
From Stdlib Require Import String Ascii.
From stdpp Require Import base list numbers gmap fin_maps.
From Stdlib Require Import ZArith Lia.
From S2P Require Import Prelude Strings CStdlib Stdio.

Open Scope Z_scope.

(** * Data *)

Definition USTAR_HEADER_SIZE : Z := 512.
Definition USTAR_REGULAR : Z := ch "0".
Definition USTAR_DIRECTORY : Z := ch "5".
Definition USTAR_EOF : Z := -1.

(** Offsets and sizes of the fields of [struct ustar_header] that the code uses. *)
Definition h_name : Z := 0.
Definition h_mode : Z := 100.
Definition h_uid : Z := 108.
Definition h_gid : Z := 116.
Definition h_size : Z := 124.
Definition h_mtime : Z := 136.
Definition h_chksum : Z := 148.
Definition h_typeflag : Z := 156.
Definition h_magic : Z := 257.
Definition h_version : Z := 263.
Definition h_uname : Z := 265.
Definition h_gname : Z := 297.
Definition h_prefix : Z := 345.

(** * Operations *)

Section Ustar.
(** The address at which the linker put a literal. *)
Context (lit : string -> Z).

Definition calculate_chksum (h : Z) : M mem Z :=
  loop 513 (fun '(i, chksum) =>
    if i <? USTAR_HEADER_SIZE then
      b ← (if (h_chksum <=? i) && (i <? h_chksum + 8) then mret 32 else load8 (h + i));
      mret (inl (i + 1, u32 (chksum + b)))
    else mret (inr chksum)) (0, 0).

Definition strip_antisocial_prefixes (file_name : Z) : M mem Z :=
  fuel ← mem_fuel;
  f ← loop fuel (fun f =>
    c ← load8 f;
    antisocial ← (if c =? ch "/" then mret true
      else x ← memcmp f (lit "./") 2; if x =? 0 then mret true
      else x ← memcmp f (lit "../") 3; mret (x =? 0));
    if antisocial : bool then p ← strchr f (ch "/"); mret (inl (p + 1)) else mret (inr f)) file_name;
  c ← load8 f;
  if c =? 0 then mret (lit ".")
  else x ← strcmp f (lit ".."); mret (if x =? 0 then lit "." else f).

Definition ustar_make_header (file_name type size header : Z) : M mem bool :=
  ASSERT ((type =? USTAR_REGULAR) || (type =? USTAR_DIRECTORY));;
  file_name ← strip_antisocial_prefixes file_name;
  n ← strlen file_name;
  if 99 <? n then mret false
  else
    memset header 0 512;;
    strlcpy (header + h_name) file_name 100;;
    snprintf lit (header + h_mode) 8 (lit "%07o") [if type =? USTAR_REGULAR then 420 else 493];;
    strlcpy (header + h_uid) (lit "0000000") 8;;
    strlcpy (header + h_gid) (lit "0000000") 8;;
    snprintf lit (header + h_size) 12 (lit "%011o") [u32 size];;
    snprintf lit (header + h_mtime) 12 (lit "%011o") [1136102400];;
    store8 (header + h_typeflag) type;;
    strlcpy (header + h_magic) (lit "ustar") 6;;
    store8 (header + h_version + 1) (ch "0");;
    store8 (header + h_version) (ch "0");;
    strlcpy (header + h_gname) (lit "root") 32;;
    strlcpy (header + h_uname) (lit "root") 32;;
    c ← calculate_chksum header;
    snprintf lit (header + h_chksum) 8 (lit "%07o") [c];;
    mret true.

(** The value of the field, or [None] for [false]. *)
Definition parse_octal_field (s size : Z) : M mem (option Z) :=
  loop (S (Z.to_nat size)) (fun '(ofs, value) =>
    if ofs <? size then
      c ← load8 (s + ofs);
      mret (if (ch "0" <=? schar c) && (schar c <=? ch "7") then
              if (2 ^ 32 - 1) / 8 <? value then inr None else inl (ofs + 1, u32 (schar c - ch "0" + value * 8))
            else if (c =? 32) || (c =? 0) then inr (if 0 <? ofs then Some value else None)
            else inr None)
    else mret (inr None)) (0, 0).

Fixpoint is_all_zeros (block : Z) (cnt : nat) : M mem bool :=
  match cnt with
  | O => mret true
  | S cnt => c ← load8 block; if negb (c =? 0) then mret false else is_all_zeros (block + 1) cnt
  end.

(** The error message, or the address of the name, the type and the size. *)
Definition ustar_parse_header (header : Z) : M mem (string + Z * Z * Z) :=
  zeros ← is_all_zeros header 512;
  if zeros : bool then mret (inr (NULL, USTAR_EOF, 0))
  else
    x ← memcmp (header + h_magic) (lit "ustar") 6;
    if negb (x =? 0) then mret (inl "not a ustar archive"%string)
    else
      v0 ← load8 (header + h_version);
      v1 ← load8 (header + h_version + 1);
      if negb (v0 =? ch "0") || negb (v1 =? ch "0") then mret (inl "invalid ustar version"%string)
      else
        chksum ← parse_octal_field (header + h_chksum) 8;
        match chksum with
        | None => mret (inl "corrupt chksum field"%string)
        | Some chksum =>
          c ← calculate_chksum header;
          if negb (chksum =? c) then mret (inl "checksum mismatch"%string)
          else
            n ← load8 (header + h_name + 99);
            p ← load8 (header + h_prefix);
            if negb (n =? 0) || negb (p =? 0) then mret (inl "file name too long"%string)
            else
              typeflag ← load8 (header + h_typeflag);
              if negb (typeflag =? USTAR_REGULAR) && negb (typeflag =? USTAR_DIRECTORY) then mret (inl "unimplemented file type"%string)
              else
                size ← (if typeflag =? USTAR_REGULAR then
                    f ← parse_octal_field (header + h_size) 12;
                    mret (match f with
                          | None => inl "corrupt file size field"%string
                          | Some v => if 2 ^ 31 - 1 <? v then inl "file too large"%string else inr v
                          end)
                  else mret (inr 0));
                match size with
                | inl e => mret (inl e)
                | inr size =>
                  file_name ← strip_antisocial_prefixes (header + h_name);
                  mret (inr (file_name, typeflag, size))
                end
        end.
End Ustar.

(** * The same on lists of bytes *)

(** A name without the prefixes that lead out of a directory. *)
Fixpoint strip_prefixes (fuel : nat) (s : list Z) : list Z :=
  match fuel with
  | O => s
  | S fuel =>
    if bool_decide (str "/" `prefix_of` s) then strip_prefixes fuel (drop 1 s)
    else if bool_decide (str "./" `prefix_of` s) then strip_prefixes fuel (drop 2 s)
    else if bool_decide (str "../" `prefix_of` s) then strip_prefixes fuel (drop 3 s)
    else s
  end.
Definition strip (s : list Z) : list Z :=
  let s := strip_prefixes (length s) s in
  if bool_decide (s = []) || bool_decide (s = str "..") then str "." else s.

(** [w] octal digits. *)
Fixpoint octal (w : nat) (v : Z) : list Z :=
  match w with O => [] | S w => octal w (v / 8) ++ [48 + v mod 8] end.

Fixpoint octal_value (ofs value : Z) (bs : list Z) : option Z :=
  match bs with
  | [] => None
  | c :: bs =>
    if (48 <=? c) && (c <=? 55) then if (2 ^ 32 - 1) / 8 <? value then None else octal_value (ofs + 1) (c - 48 + value * 8) bs
    else if (c =? 32) || (c =? 0) then (if 0 <? ofs then Some value else None)
    else None
  end.

Definition chksum_of (bs : list Z) : Z :=
  foldr Z.add 0 (imap (fun i b => if (148 <=? Z.of_nat i) && (Z.of_nat i <? 156) then 32 else b) bs).

(** The bytes of a field. *)
Definition sub (ofs n : nat) (bs : list Z) : list Z := take n (drop ofs bs).

(** A string up to its terminator. *)
Fixpoint until_nul (bs : list Z) : list Z := match bs with [] => [] | c :: bs => if c =? 0 then [] else c :: until_nul bs end.

Definition parse_header (bs : list Z) : string + option (list Z) * Z * Z :=
  if bool_decide (Forall (fun b => b = 0) bs) then inr (None, USTAR_EOF, 0)
  else if negb (bool_decide (sub 257 6 bs = str "ustar" ++ [0])) then inl "not a ustar archive"%string
  else if negb (bool_decide (sub 263 2 bs = str "00")) then inl "invalid ustar version"%string
  else
    match octal_value 0 0 (sub 148 8 bs) with
    | None => inl "corrupt chksum field"%string
    | Some chksum =>
      if negb (chksum =? chksum_of bs) then inl "checksum mismatch"%string
      else if negb (bs !!! 99%nat =? 0) || negb (bs !!! 345%nat =? 0) then inl "file name too long"%string
      else
        let typeflag := bs !!! 156%nat in
        if negb (typeflag =? USTAR_REGULAR) && negb (typeflag =? USTAR_DIRECTORY) then inl "unimplemented file type"%string
        else
          match
            if typeflag =? USTAR_REGULAR then
              match octal_value 0 0 (sub 124 12 bs) with
              | None => inl "corrupt file size field"%string
              | Some v => if 2 ^ 31 - 1 <? v then inl "file too large"%string else inr v
              end
            else inr 0
          with
          | inl e => inl e
          | inr size => inr (Some (strip (until_nul bs)), typeflag, size)
          end
    end.

Definition pad (n : nat) (bs : list Z) : list Z := bs ++ replicate (n - length bs) 0.

(** A header; [sum] is its checksum field. *)
Definition header_with (name : list Z) (type size : Z) (sum : list Z) : list Z :=
  pad 100 name ++ (octal 7 (if type =? USTAR_REGULAR then 420 else 493) ++ [0]) ++ (str "0000000" ++ [0]) ++ (str "0000000" ++ [0]) ++ (octal 11 size ++ [0]) ++
  (octal 11 1136102400 ++ [0]) ++ sum ++ [type] ++ replicate 100 0 ++ (str "ustar" ++ [0]) ++ str "00" ++ pad 32 (str "root") ++ pad 32 (str "root") ++ replicate 183 0.
Definition make_header (name : list Z) (type size : Z) : list Z :=
  header_with name type size (octal 7 (chksum_of (header_with name type size (replicate 8 0))) ++ [0]).

Definition ustar_literals : list string := literals ++ ["./"; "../"; "."; ".."; "%07o"; "%011o"; "0000000"; "ustar"; "root"]%string.

#[local] Instance string_eq_decision : EqDecision string := String.string_dec.

(** Membership in a list of known literals. *)
Ltac known := match goal with |- ?P => apply (bool_decide_eq_true_1 P); vm_compute; reflexivity end.

(** Strings are equal if they compare equal with their terminators. *)
Lemma cmp_terminated s t : Forall (fun c => byte c /\ c ≠ 0) s -> Forall (fun c => byte c /\ c ≠ 0) t -> cmp_bytes (s ++ [0]) (t ++ [0]) = 0 -> s = t.
Proof.
  intros Hs. revert t. induction Hs as [|c s [Hb Hc] _ IH]; intros [|d t] Ht; cbn; [done| | |].
  - inversion_clear Ht as [|? ? [Hd1 Hd2] _]. unfold byte in *. destruct (Z.ltb_spec 0 d), (Z.ltb_spec d 0); lia.
  - unfold byte in *. destruct (Z.ltb_spec c 0), (Z.ltb_spec 0 c); lia.
  - inversion_clear Ht. destruct (Z.ltb_spec c d), (Z.ltb_spec d c); try lia. intros E. f_equal; [lia|]. by apply IH.
Qed.

(** * Parsing *)

Section Parse.
Context (lit : string -> Z) (m : mem).
Hypothesis Hlit : forall k, k ∈ ustar_literals -> cstr m (lit k) (str k).

(** [memcmp] of a string with the beginning of a literal stops at the terminator. *)
Lemma wp_memcmp_prefix f s b t (Q : Z -> mem -> Prop) : cstr m f s -> bytes_at m b t -> b ≠ NULL -> Forall (fun c => c ≠ 0) t ->
  (forall r, (r =? 0) = bool_decide (t `prefix_of` s) -> Q r m) -> wp (memcmp f b (length t)) m Q.
Proof.
  intros Hs Hb Hbn Ht HQ. unfold memcmp. rewrite (nonnull_pos f) by (by eapply cstr_pos). rewrite nonnull_true by done. do 2 (apply wp_bind, wp_assert; [done|]).
  clear Hbn. revert f b s Hs Hb HQ. induction Ht as [|y t Hy _ IH]; intros f b s Hs Hb HQ; cbn [compare_up length].
  - apply wp_ret, HQ. symmetry. apply bool_decide_eq_true. apply prefix_nil.
  - destruct Hb as [Hb1 Hb2]. apply wp_bind. eapply wp_load8; [exact (cstr_hd _ _ _ Hs)|]. apply wp_bind. eapply wp_load8; [exact Hb1|].
    destruct (Z.eqb_spec (hd 0 s) y) as [E|E]; cbn [negb].
    + destruct s as [|x s]; [by destruct Hy|]. cbn in E. subst x. apply cstr_cons in Hs as (_ & _ & _ & _ & Hs).
      eapply IH with (s := s); [done|exact Hb2|]. intros r Hr. apply HQ. rewrite Hr. apply bool_decide_ext. split; [apply prefix_cons|apply prefix_cons_inv_2].
    + apply wp_ret, HQ. rewrite bool_decide_false; [by destruct (y <? hd 0 s)|]. intros Hp. destruct s as [|x s]; [by apply prefix_nil_not in Hp|]. cbn in E. apply prefix_cons_inv_1 in Hp. congruence.
Qed.

Lemma lit_bytes k n : k ∈ ustar_literals -> (n <= length (str k))%nat -> bytes_at m (lit k) (take n (str k)) /\ Forall (fun c => c ≠ 0) (take n (str k)) /\ lit k ≠ NULL.
Proof.
  intros Hk Hn. destruct (Hlit k Hk) as (Hp & Hb & Hc). split_and!.
  - rewrite <-(take_drop n (str k ++ [0])) in Hb. destruct (proj1 (bytes_at_app _ _ _ _) Hb) as [Hx _]. by rewrite take_app_le in Hx.
  - apply Forall_take. eapply Forall_impl; [exact Hc|]. by intros c [_ ?].
  - unfold NULL. lia.
Qed.

(** [*f == '/'], ["./"] or ["../"] at the beginning. *)
Definition antisocial (s : list Z) : bool := bool_decide (str "/" `prefix_of` s) || bool_decide (str "./" `prefix_of` s) || bool_decide (str "../" `prefix_of` s).

Lemma slash_prefix s : (hd 0 s =? ch "/") = bool_decide (str "/" `prefix_of` s).
Proof.
  destruct (Z.eqb_spec (hd 0 s) (ch "/")) as [E|E]; symmetry; [apply bool_decide_eq_true|apply bool_decide_eq_false].
  - destruct s as [|c s]; [done|]. cbn in E. subst c. by exists s.
  - intros [k ->]. by apply E.
Qed.

Lemma wp_antisocial {B} f s (k : bool -> M mem B) (Q : B -> mem -> Prop) : cstr m f s -> wp (k (antisocial s)) m Q ->
  wp (c ← load8 f;
      b ← (if c =? ch "/" then mret true
        else x ← memcmp f (lit "./") 2; if x =? 0 then mret true
        else x ← memcmp f (lit "../") 3; mret (x =? 0));
      k b) m Q.
Proof.
  intros Hs HQ. apply wp_bind. eapply wp_load8; [exact (cstr_hd _ _ _ Hs)|]. rewrite slash_prefix. unfold antisocial in HQ. apply wp_bind.
  destruct (bool_decide (str "/" `prefix_of` s)); cbn [orb] in HQ; [by apply wp_ret|].
  destruct (lit_bytes "./" 2) as (B1 & B2 & B3); [known|done|]. destruct (lit_bytes "../" 3) as (C1 & C2 & C3); [known|done|].
  apply wp_bind. apply (wp_memcmp_prefix f s (lit "./") (take 2 (str "./"))); [done..|]. intros r Er. rewrite Er. change (take 2 (str "./")) with (str "./").
  destruct (bool_decide (str "./" `prefix_of` s)); cbn [orb] in HQ; [by apply wp_ret|].
  apply wp_bind. apply (wp_memcmp_prefix f s (lit "../") (take 3 (str "../"))); [done..|]. intros r' Er'. apply wp_ret. rewrite Er'. exact HQ.
Qed.

(** What is dropped at a prefix, up to the first slash. *)
Definition strip_one (s : list Z) : list Z :=
  if bool_decide (str "/" `prefix_of` s) then drop 1 s else if bool_decide (str "./" `prefix_of` s) then drop 2 s else drop 3 s.

Lemma wp_next_slash f s (Q : Z -> mem -> Prop) : cstr m f s -> antisocial s = true ->
  (forall f', cstr m (f' + 1) (strip_one s) -> (length (strip_one s) < length s)%nat -> f <= f' /\ f' + 1 + Z.of_nat (length (strip_one s)) = f + Z.of_nat (length s) -> Q f' m) -> wp (strchr f (ch "/")) m Q.
Proof.
  intros Hs Ha HQ. eapply wp_strchr; [exact Hs|]. unfold antisocial, strip_one in *.
  assert (forall t k, s = t ++ k -> index_of (u8 (ch "/")) (s ++ [0]) = Some (length t - 1)%nat -> (1 <= length t)%nat -> let f' := ptr_at f (index_of (u8 (ch "/")) (s ++ [0])) in
    cstr m (f' + 1) (drop (length t) s) /\ (length (drop (length t) s) < length s)%nat /\ f <= f' /\ f' + 1 + Z.of_nat (length (drop (length t) s)) = f + Z.of_nat (length s)) as H.
  { intros t k -> -> Hl. cbn zeta. rewrite drop_app_length, length_app. cbn [ptr_at]. split; [|lia]. apply cstr_app in Hs. by replace (f + Z.of_nat (length t - 1) + 1) with (f + Z.of_nat (length t)) by lia. }
  case_bool_decide as E1; [|case_bool_decide as E2; [|case_bool_decide as E3; [|done]]]; cbn [orb] in Ha.
  - destruct E1 as [k Ek]. destruct (H (str "/") k Ek) as (H1 & H2 & H3); [by rewrite Ek|done|]. by apply HQ.
  - destruct E2 as [k Ek]. destruct (H (str "./") k Ek) as (H1 & H2 & H3); [by rewrite Ek|cbn; lia|]. by apply HQ.
  - destruct E3 as [k Ek]. destruct (H (str "../") k Ek) as (H1 & H2 & H3); [by rewrite Ek|cbn; lia|]. by apply HQ.
Qed.

Lemma strip_prefixes_step n s : strip_prefixes (S n) s = if antisocial s then strip_prefixes n (strip_one s) else s.
Proof. unfold antisocial, strip_one. cbn [strip_prefixes]. by repeat case_bool_decide. Qed.

Lemma wp_strip_loop n : forall s f fuel (Q : Z -> mem -> Prop), (length s <= n)%nat -> cstr m f s -> (length s < fuel)%nat ->
  (forall f', cstr m f' (strip_prefixes n s) -> f <= f' /\ f' + Z.of_nat (length (strip_prefixes n s)) = f + Z.of_nat (length s) -> Q f' m) ->
  wp (loop fuel (fun f =>
    c ← load8 f;
    antisocial ← (if c =? ch "/" then mret true
      else x ← memcmp f (lit "./") 2; if x =? 0 then mret true
      else x ← memcmp f (lit "../") 3; mret (x =? 0));
    if antisocial : bool then p ← strchr f (ch "/"); mret (inl (p + 1)) else mret (inr f)) f) m Q.
Proof.
  induction n as [|n IH]; intros s f fuel Q Hn Hs Hf HQ; (destruct fuel as [|fuel]; [lia|]); apply wp_loop_S; (eapply wp_antisocial; [exact Hs|]).
  - destruct s; [|cbn in Hn; lia]. by apply wp_ret, HQ.
  - rewrite strip_prefixes_step in HQ. destruct (antisocial s) eqn:E; [|apply wp_ret, HQ; [done|lia]]. apply wp_bind. eapply wp_next_slash; [exact Hs|exact E|].
    intros f' Hf' Hl He. apply wp_ret. apply (IH (strip_one s)); [lia|done|lia|]. intros f2 Hf2 He2. apply HQ; [done|lia].
Qed.

Lemma wp_strip f s (Q : Z -> mem -> Prop) : cstr m f s ->
  (forall f', cstr m f' (strip s) -> (strip s = str "." /\ f' = lit ".") \/ (f <= f' /\ f' + Z.of_nat (length (strip s)) = f + Z.of_nat (length s)) -> Q f' m) -> wp (strip_antisocial_prefixes lit f) m Q.
Proof.
  intros Hs HQ. unfold strip_antisocial_prefixes. apply wp_bind, wp_mem_fuel, wp_bind. pose proof (cstr_size _ _ _ Hs) as Hsz. eapply (wp_strip_loop (length s) s); [done|done|lia|]. intros f' Hf' He.
  unfold strip in HQ. set (t := strip_prefixes (length s) s) in *. apply wp_bind. eapply wp_load8; [exact (cstr_hd _ _ _ Hf')|].
  assert (cstr m (lit ".") (str ".")) as Hdot by (apply Hlit; known). assert (cstr m (lit "..") (str "..")) as Hdots by (apply Hlit; known).
  assert ((hd 0 t =? 0) = bool_decide (t = [])) as ->.
  { destruct t as [|c t]; [done|]. rewrite bool_decide_false by done. exact (cstr_char _ _ _ _ Hf'). }
  destruct (bool_decide (t = [])); cbn [orb] in HQ; [apply wp_ret, HQ; [done|by left]|]. apply wp_bind. eapply wp_strcmp; [exact Hf'|exact Hdots|]. apply wp_ret.
  destruct (Z.eqb_spec (cmp_bytes (t ++ [0]) (str ".." ++ [0])) 0) as [E|E]; case_bool_decide as Et; try (by apply HQ; [|by left]); try (by apply HQ; [|by right]).
  - exfalso. apply Et. destruct Hf' as (_ & _ & Hc), Hdots as (_ & _ & Hc2). by apply cmp_terminated.
  - exfalso. apply E. by rewrite Et.
Qed.

(** ** Fields *)

Definition chk_bytes (bs : list Z) : list Z := imap (fun i b => if (148 <=? Z.of_nat i) && (Z.of_nat i <? 156) then 32 else b) bs.
Definition zsum (l : list Z) : Z := foldr Z.add 0 l.

Lemma zsum_app l l' : zsum (l ++ l') = zsum l + zsum l'.
Proof. unfold zsum. induction l as [|x l IH]; cbn; [done|]. rewrite IH. lia. Qed.
Lemma zsum_bound l : Forall byte l -> 0 <= zsum l <= 255 * Z.of_nat (length l).
Proof. induction 1 as [|x l Hx _ IH]; [cbn; lia|]. unfold zsum, byte in *. cbn [foldr length]. lia. Qed.
Lemma chk_bytes_ok bs : Forall byte bs -> Forall byte (chk_bytes bs).
Proof.
  intros H. apply Forall_lookup. intros i x. unfold chk_bytes. rewrite list_lookup_imap. destruct (bs !! i) as [b|] eqn:E; [|done]. intros [= <-].
  destruct (_ && _); [unfold byte; lia|]. by apply (Forall_lookup_1 _ _ _ _ H E).
Qed.

Lemma wp_chksum h bs (Q : Z -> mem -> Prop) : bytes_at m h bs -> length bs = 512%nat -> Forall byte bs -> Q (chksum_of bs) m -> wp (calculate_chksum h) m Q.
Proof.
  intros Hb Hl Hby HQ. unfold calculate_chksum. pose proof (chk_bytes_ok bs Hby) as Hc. assert (length (chk_bytes bs) = 512%nat) as Hcl by (unfold chk_bytes; by rewrite length_imap).
  eapply (wp_loop (fun n '(i, s) m' => m' = m /\ exists k, i = Z.of_nat k /\ (k + n = 512)%nat /\ s = zsum (take k (chk_bytes bs)))) with (n := 512%nat); [|split; [done|]; by exists O|lia].
  intros n [i s] m' (-> & k & -> & Hk & ->). unfold USTAR_HEADER_SIZE, h_chksum. destruct (Z.ltb_spec (Z.of_nat k) 512) as [Hlt|Hge].
  - destruct (lookup_lt_is_Some_2 bs k) as [b Eb]; [lia|]. pose proof (proj1 (bytes_at_lookup _ _ _) Hb k b Eb) as Em.
    assert (chk_bytes bs !! k = Some (if (148 <=? Z.of_nat k) && (Z.of_nat k <? 156) then 32 else b)) as Ec by (unfold chk_bytes; by rewrite list_lookup_imap, Eb).
    apply wp_bind. eapply (wp_mono _ _ (fun x m' => x = (if (148 <=? Z.of_nat k) && (Z.of_nat k <? 156) then 32 else b) /\ m' = m)).
    { change (148 + 8) with 156. destruct (_ && _); [by apply wp_ret|]. by eapply wp_load8. }
    intros x m' [-> ->]. apply wp_ret. exists (n - 1)%nat. split; [lia|]. split; [done|]. exists (S k). split_and!; [lia|lia|].
    rewrite (take_S_r _ _ _ Ec), zsum_app. pose proof (zsum_bound _ (Forall_take _ k _ Hc)) as Hz. rewrite length_take in Hz.
    pose proof (Forall_lookup_1 _ _ _ _ Hc Ec) as Hx. unfold byte in Hx. unfold u32. rewrite Z.mod_small by lia. cbn. lia.
  - apply wp_ret. rewrite take_ge by lia. exact HQ.
Qed.

Lemma wp_zeros bs : forall h (Q : bool -> mem -> Prop), bytes_at m h bs -> Q (bool_decide (Forall (fun b => b = 0) bs)) m -> wp (is_all_zeros h (length bs)) m Q.
Proof.
  induction bs as [|b bs IH]; intros h Q Hb HQ; cbn [is_all_zeros length]; [by apply wp_ret|]. destruct Hb as [Hb1 Hb2]. apply wp_bind. eapply wp_load8; [exact Hb1|].
  destruct (Z.eqb_spec b 0) as [->|Hne]; cbn [negb].
  - apply IH; [done|]. erewrite bool_decide_ext; [exact HQ|]. rewrite Forall_cons. tauto.
  - apply wp_ret. rewrite bool_decide_false in HQ; [done|]. rewrite Forall_cons. tauto.
Qed.

Lemma schar_octal c : byte c -> ((ch "0" <=? schar c) && (schar c <=? ch "7")) = ((48 <=? c) && (c <=? 55)) /\ (48 <= c <= 55 -> schar c = c).
Proof.
  unfold byte, schar. change (ch "0") with 48. change (ch "7") with 55. intros Hc. destruct (Z.ltb_spec c 128); [done|].
  split; [|lia]. apply eq_true_iff_eq. rewrite !andb_true_iff, !Z.leb_le. lia.
Qed.

Lemma wp_octal bs : Forall byte bs -> forall a ofs value (Q : option Z -> mem -> Prop) fuel size, bytes_at m (a + ofs) bs -> size = ofs + Z.of_nat (length bs) -> (length bs < fuel)%nat -> 0 <= value < 2 ^ 32 ->
  Q (octal_value ofs value bs) m ->
  wp (loop fuel (fun '(ofs, value) =>
    if ofs <? size then
      c ← load8 (a + ofs);
      mret (if (ch "0" <=? schar c) && (schar c <=? ch "7") then
              if (2 ^ 32 - 1) / 8 <? value then inr None else inl (ofs + 1, u32 (schar c - ch "0" + value * 8))
            else if (c =? 32) || (c =? 0) then inr (if 0 <? ofs then Some value else None)
            else inr None)
    else mret (inr None)) (ofs, value)) m Q.
Proof.
  induction 1 as [|c bs Hc _ IH]; intros a ofs value Q fuel size Hb Hsz Hf Hv HQ; (destruct fuel as [|fuel]; [cbn in Hf; lia|]); apply wp_loop_S.
  - destruct (Z.ltb_spec ofs size); [cbn in Hsz; lia|]. by apply wp_ret.
  - destruct (Z.ltb_spec ofs size); [|cbn in Hsz; lia]. destruct Hb as [Hb1 Hb2]. apply wp_bind. eapply wp_load8; [exact Hb1|]. apply wp_ret. destruct (schar_octal c Hc) as [-> Ec].
    cbn [octal_value] in HQ. destruct ((48 <=? c) && (c <=? 55)) eqn:E.
    + apply andb_true_iff in E as [E1%Z.leb_le E2%Z.leb_le]. destruct (Z.ltb_spec ((2 ^ 32 - 1) / 8) value) as [Hov|Hov]; [done|]. change ((2 ^ 32 - 1) / 8) with 536870911 in Hov.
      rewrite Ec by lia. change (ch "0") with 48. assert (u32 (c - 48 + value * 8) = c - 48 + value * 8) as Eu by (unfold u32; apply Z.mod_small; lia).
      rewrite Eu. apply IH; [by replace (a + (ofs + 1)) with (a + ofs + 1) by lia|cbn in Hsz; lia|cbn in Hf; lia|lia|done].
    + destruct ((c =? 32) || (c =? 0)); done.
Qed.

Lemma wp_octal_field a bs (Q : option Z -> mem -> Prop) : bytes_at m a bs -> Forall byte bs -> Q (octal_value 0 0 bs) m -> wp (parse_octal_field a (Z.of_nat (length bs))) m Q.
Proof. intros Hb Hby HQ. unfold parse_octal_field. rewrite Nat2Z.id. apply (wp_octal bs Hby); [by rewrite Z.add_0_r|lia|lia|lia|done]. Qed.

(** ** Headers *)

Lemma sub_at h ofs n bs : bytes_at m h bs -> (ofs + n <= length bs)%nat -> bytes_at m (h + Z.of_nat ofs) (sub ofs n bs) /\ length (sub ofs n bs) = n.
Proof.
  intros Hb Hl. unfold sub. split; [|rewrite length_take, length_drop; lia]. rewrite <-(take_drop ofs bs) in Hb. apply bytes_at_app in Hb as [_ Hb]. rewrite length_take, Nat.min_l in Hb by lia.
  rewrite <-(take_drop n (drop ofs bs)) in Hb. by apply bytes_at_app in Hb as [Hb _].
Qed.

Lemma byte_at h ofs bs : bytes_at m h bs -> (ofs < length bs)%nat -> m !! (h + Z.of_nat ofs) = Some (bs !!! ofs).
Proof. intros Hb Hl. apply (proj1 (bytes_at_lookup _ _ _) Hb). by apply list_lookup_lookup_total_lt. Qed.

Lemma sub_pair ofs bs : (ofs + 2 <= length bs)%nat -> sub ofs 2 bs = [bs !!! ofs; bs !!! S ofs].
Proof.
  intros Hl. unfold sub. rewrite (drop_S bs (bs !!! ofs) ofs) by (apply list_lookup_lookup_total_lt; lia). rewrite (drop_S bs (bs !!! S ofs) (S ofs)) by (apply list_lookup_lookup_total_lt; lia). done.
Qed.

Lemma until_nul_str bs : Forall byte bs -> forall a, 0 < a -> bytes_at m a bs -> 0 ∈ bs -> cstr m a (until_nul bs).
Proof.
  induction 1 as [|c bs Hc _ IH]; intros a Ha Hb Hin; [by apply not_elem_of_nil in Hin|]. destruct Hb as [Hb1 Hb2]. cbn [until_nul]. destruct (Z.eqb_spec c 0) as [->|Hn].
  - split_and!; [done|cbn; done|done].
  - apply cstr_cons. split_and!; [done..|]. apply IH; [lia|done|]. apply elem_of_cons in Hin as [|]; [congruence|done].
Qed.

Definition parsed (r : string + Z * Z * Z) (p : string + option (list Z) * Z * Z) : Prop :=
  match r, p with
  | inl e, inl e' => e = e'
  | inr (f, t, s), inr (name, t', s') => match name with Some name => cstr m f name | None => f = NULL end /\ t = t' /\ s = s'
  | _, _ => False
  end.

Lemma wp_parse_header h bs (Q : string + Z * Z * Z -> mem -> Prop) : 0 < h -> bytes_at m h bs -> length bs = 512%nat -> Forall byte bs ->
  (forall r, parsed r (parse_header bs) -> Q r m) -> wp (ustar_parse_header lit h) m Q.
Proof.
  intros Hh Hb Hl Hby HQ. unfold ustar_parse_header, parse_header in *. unfold h_magic, h_version, h_chksum, h_name, h_prefix, h_typeflag, h_size.
  assert (forall ofs n, (ofs + n <= 512)%nat -> bytes_at m (h + Z.of_nat ofs) (sub ofs n bs) /\ length (sub ofs n bs) = n /\ Forall byte (sub ofs n bs)) as Hsub.
  { intros ofs n Hn. destruct (sub_at h ofs n bs Hb) as [H1 H2]; [lia|]. split_and!; [done|done|]. by apply Forall_take, Forall_drop. }
  assert (forall ofs, (ofs < 512)%nat -> m !! (h + Z.of_nat ofs) = Some (bs !!! ofs)) as Hat by (intros ofs Ho; apply byte_at; [done|lia]).
  apply wp_bind. rewrite <-Hl. apply wp_zeros; [done|]. case_bool_decide; [by apply wp_ret, HQ|].
  destruct (Hsub 257%nat 6%nat ltac:(lia)) as (M1 & M2 & _). destruct (Hlit "ustar" ltac:(known)) as (L1 & L2 & _).
  apply wp_bind. eapply wp_memcmp; [unfold NULL; lia|unfold NULL; lia|exact M1|exact L2|exact M2|done|].
  assert ((cmp_bytes (sub 257 6 bs) (str "ustar" ++ [0]) =? 0) = bool_decide (sub 257 6 bs = str "ustar" ++ [0])) as ->.
  { pose proof (cmp_bytes_eq (sub 257 6 bs) (str "ustar" ++ [0]) ltac:(by rewrite M2)) as Hc. case_bool_decide as E; [apply Z.eqb_eq; by apply Hc|apply Z.eqb_neq; by rewrite Hc]. }
  destruct (bool_decide (sub 257 6 bs = _)); cbn [negb] in *; [|by apply wp_ret, HQ].
  apply wp_bind. eapply wp_load8; [apply (Hat 263%nat); lia|]. apply wp_bind. eapply wp_load8; [replace (h + 263 + 1) with (h + Z.of_nat 264) by lia; apply Hat; lia|].
  assert ((negb (bs !!! 263%nat =? ch "0") || negb (bs !!! 264%nat =? ch "0")) = negb (bool_decide (sub 263 2 bs = str "00"))) as ->.
  { rewrite sub_pair by lia. rewrite <-negb_andb. f_equal. apply eq_true_iff_eq. rewrite andb_true_iff, !Z.eqb_eq, bool_decide_eq_true. split; [by intros [-> ->]|by intros [= -> ->]]. }
  destruct (bool_decide (sub 263 2 bs = _)); cbn [negb] in *; [|by apply wp_ret, HQ].
  destruct (Hsub 148%nat 8%nat ltac:(lia)) as (K1 & K2 & K3). apply wp_bind. change 8 with (Z.of_nat 8). rewrite <-K2. apply wp_octal_field; [exact K1|done|].
  destruct (octal_value 0 0 (sub 148 8 bs)) as [sum|]; [|by apply wp_ret, HQ]. apply wp_bind. eapply wp_chksum; [exact Hb|done|done|].
  destruct (sum =? chksum_of bs); cbn [negb] in *; [|by apply wp_ret, HQ].
  apply wp_bind. eapply wp_load8; [replace (h + 0 + 99) with (h + Z.of_nat 99) by lia; apply Hat; lia|]. apply wp_bind. eapply wp_load8; [apply (Hat 345%nat); lia|].
  destruct (Z.eqb_spec (bs !!! 99%nat) 0) as [E99|]; cbn [negb orb] in *; [|by apply wp_ret, HQ]. destruct (bs !!! 345%nat =? 0); cbn [negb] in *; [|by apply wp_ret, HQ].
  apply wp_bind. eapply wp_load8; [apply (Hat 156%nat); lia|]. destruct (negb (bs !!! 156%nat =? USTAR_REGULAR) && negb (bs !!! 156%nat =? USTAR_DIRECTORY)); [by apply wp_ret, HQ|].
  assert (cstr m h (until_nul bs)) as Hname. { apply until_nul_str; [done..|]. rewrite <-E99. apply list_elem_of_lookup_2 with 99%nat, list_lookup_lookup_total_lt. lia. }
  apply wp_bind. eapply (wp_mono _ _ (fun x m' => m' = m /\ x = if bs !!! 156%nat =? USTAR_REGULAR then _ else inr 0)).
  { destruct (bs !!! 156%nat =? USTAR_REGULAR); [|by apply wp_ret]. destruct (Hsub 124%nat 12%nat ltac:(lia)) as (S1 & S2 & S3). apply wp_bind. change 12 with (Z.of_nat 12). rewrite <-S2 at 1.
    apply wp_octal_field; [exact S1|done|]. by apply wp_ret. }
  intros x m' [-> ->]. set (sz := if _ =? USTAR_REGULAR then _ else _) in *. destruct sz as [e|size]; [by apply wp_ret, HQ|].
  apply wp_bind. rewrite Z.add_0_r. eapply wp_strip; [exact Hname|]. intros f' Hf' _. apply wp_ret, HQ. done.
Qed.
End Parse.

(** * Headers as lists of fields *)

Definition lens : list nat := [100; 8; 8; 8; 12; 12; 8; 1; 100; 6; 2; 32; 32; 8; 8; 155; 12]%nat.
Definition shape (fs : list (list Z)) : Prop := length <$> fs = lens.
Definition off (i : nat) : nat := sum_list (take i lens).

(** Writes [ws] at the beginning of field [i]. *)
Definition set_field (i : nat) (ws : list Z) (fs : list (list Z)) : list (list Z) := alter (fun f => ws ++ drop (length ws) f) i fs.

Lemma shape_off (fs : list (list Z)) i : shape fs -> length (mjoin (take i fs)) = off i.
Proof. intros Hs. unfold off, shape in *. rewrite <-Hs, <-fmap_take. rewrite length_join. done. Qed.

Lemma shape_length (fs : list (list Z)) : shape fs -> length (mjoin fs) = 512%nat.
Proof. intros Hs. rewrite length_join. unfold shape in Hs. by rewrite Hs. Qed.

Lemma shape_lookup (fs : list (list Z)) i n : shape fs -> lens !! i = Some n -> exists f, fs !! i = Some f /\ length f = n.
Proof. intros Hs Hn. unfold shape in Hs. rewrite <-Hs, list_lookup_fmap in Hn. destruct (fs !! i) as [f|]; [|done]. injection Hn as <-. eauto. Qed.

Lemma shape_split (fs : list (list Z)) i f : fs !! i = Some f -> mjoin fs = mjoin (take i fs) ++ f ++ mjoin (drop (S i) fs).
Proof. intros E. rewrite <-(take_drop_middle fs i f E) at 1. by rewrite join_app. Qed.

Lemma sub_field (fs : list (list Z)) i n f : shape fs -> lens !! i = Some n -> fs !! i = Some f -> sub (off i) n (mjoin fs) = f.
Proof.
  intros Hs Hn Hf. unfold sub. rewrite (shape_split fs i f Hf). rewrite drop_app_length' by (by rewrite shape_off). apply take_app_length'.
  destruct (shape_lookup fs i n Hs Hn) as (f' & E & <-). congruence.
Qed.

Lemma set_field_shape i n ws fs : shape fs -> lens !! i = Some n -> (length ws <= n)%nat -> shape (set_field i ws fs).
Proof.
  intros Hs Hn Hw. destruct (shape_lookup fs i n Hs Hn) as (f & E & Hf). unfold shape, set_field in *. rewrite <-Hs. apply list_eq. intros j. rewrite !list_lookup_fmap. destruct (decide (i = j)) as [<-|Hne].
  - rewrite list_lookup_alter_eq, E. cbn. f_equal. rewrite length_app, length_drop. lia.
  - by rewrite list_lookup_alter_ne.
Qed.

Lemma put_over (m : mem) h (u w v k : list Z) : length w = length v -> put (put m h (u ++ v ++ k)) (h + Z.of_nat (length u)) w = put m h (u ++ w ++ k).
Proof.
  intros Hl. apply map_eq. intros i. rewrite !lookup_put, !length_app, Hl. set (j := Z.to_nat (i - h)).
  destruct (decide (h + Z.of_nat (length u) <= i < h + Z.of_nat (length u) + Z.of_nat (length v))) as [H1|H1].
  - rewrite decide_True by lia. rewrite lookup_app_r by lia. rewrite lookup_app_l by lia. f_equal. lia.
  - destruct (decide (h <= i < h + Z.of_nat (length u + (length v + length k)))) as [H2|H2]; [|done]. destruct (decide (j < length u)%nat).
    + by rewrite !lookup_app_l by done.
    + rewrite !(lookup_app_r u) by lia. rewrite !lookup_app_r by lia. by rewrite Hl.
Qed.

Lemma put_field (m : mem) h i n ws (fs : list (list Z)) : shape fs -> lens !! i = Some n -> (length ws <= n)%nat ->
  put (put m h (mjoin fs)) (h + Z.of_nat (off i)) ws = put m h (mjoin (set_field i ws fs)).
Proof.
  intros Hs Hn Hw. destruct (shape_lookup fs i n Hs Hn) as (f & E & Hf). pose proof (shape_off fs i Hs) as Ho.
  assert (mjoin (set_field i ws fs) = mjoin (take i fs) ++ ws ++ drop (length ws) f ++ mjoin (drop (S i) fs)) as ->.
  { rewrite (shape_split (set_field i ws fs) i (ws ++ drop (length ws) f)) by (unfold set_field; by rewrite list_lookup_alter_eq, E). unfold set_field. rewrite take_alter_ge by lia. rewrite drop_alter_lt by lia. by rewrite <-app_assoc. }
  rewrite (shape_split fs i f E), <-Ho. rewrite <-(take_drop (length ws) f) at 1. rewrite <-app_assoc. apply put_over. rewrite length_take. lia.
Qed.

(** ** Octal numbers *)

Lemma octal_length w v : length (octal w v) = w.
Proof. revert v. induction w as [|w IH]; intros v; [done|]. cbn. rewrite length_app, IH. cbn. lia. Qed.

Lemma octal_zero w : octal w 0 = replicate w 48.
Proof. induction w as [|w IH]; [done|]. cbn [octal]. change (0 / 8) with 0. rewrite IH. change (48 + 0 mod 8) with 48. by rewrite <-replicate_S_end. Qed.

Lemma octal_bytes w v : Forall (fun c => 48 <= c <= 55) (octal w v).
Proof. revert v. induction w as [|w IH]; intros v; [done|]. cbn. apply Forall_app. split; [done|]. apply Forall_singleton. pose proof (Z.mod_pos_bound v 8). lia. Qed.

Lemma octal_digits w : forall n v, (w <= n)%nat -> 0 <= v < 8 ^ Z.of_nat w -> replicate (w - length (digits_of base_o n v)) 48 ++ digits_of base_o n v = octal w v.
Proof.
  induction w as [|w IH]; intros n v Hn Hv.
  - assert (v = 0) as -> by (cbn in Hv; lia). by destruct n.
  - destruct n as [|n]; [lia|]. cbn [digits_of octal]. destruct (Z.ltb_spec 0 v) as [Hp|Hp].
    + change (base base_o) with 8. rewrite length_app. cbn [length]. assert (digits base_o !!! Z.to_nat (v mod 8) = 48 + v mod 8) as ->.
      { pose proof (Z.mod_pos_bound v 8 ltac:(lia)) as Hm. assert (forall k, 0 <= k < 8 -> digits base_o !!! Z.to_nat k = 48 + k) as H; [|by apply H]. intros k Hk.
        assert (k = 0 \/ k = 1 \/ k = 2 \/ k = 3 \/ k = 4 \/ k = 5 \/ k = 6 \/ k = 7) as Hc by lia. destruct_or! Hc; by subst k. }
      replace (S w - (length (digits_of base_o n (v / 8)) + 1))%nat with (w - length (digits_of base_o n (v / 8)))%nat by lia. rewrite app_assoc, IH; [done|lia|].
      split; [apply Z.div_pos; lia|]. apply Z.div_lt_upper_bound; [lia|]. rewrite Nat2Z.inj_succ, Z.pow_succ_r in Hv by lia. lia.
    + assert (v = 0) as -> by lia. rewrite app_nil_r. change (octal w (0 / 8) ++ [48 + 0 mod 8]) with (octal (S w) 0). by rewrite octal_zero.
Qed.

(** The output of [%0<w>o]. *)
Definition octal_style (w : nat) : style := mk_style false false false false true false (Z.of_nat w) None.

Lemma octal_text w v : (1 <= w <= 22)%nat -> 0 <= v < 8 ^ Z.of_nat w -> unsigned_text base_o (octal_style w) v = octal w v.
Proof.
  intros Hw Hv. unfold unsigned_text, field, number_text, separate. cbn [s_left s_zero s_pound s_group s_width s_prec octal_style andb x_chars default]. rewrite reverse_involutive. cbn [app].
  rewrite Nat2Z.id, length_app, length_replicate, <-(octal_digits w 22 v) by lia. change (Z.to_nat (Z.min (id 1) 63)) with 1%nat. change (ch "0") with 48. set (d := digits_of base_o 22 v).
  pose proof (digits_of_short base_o 22 w v ltac:(done) Hv) as Hd. fold d in Hd. rewrite app_assoc, <-replicate_add. do 2 f_equal. lia.
Qed.

Lemma octal_value_digits ds : Forall (fun c => 48 <= c <= 55) ds -> forall ofs value bs, 0 < ofs + Z.of_nat (length ds) -> 0 <= value ->
  foldl (fun v d => d - 48 + v * 8) value ds < 2 ^ 32 -> octal_value ofs value (ds ++ 0 :: bs) = Some (foldl (fun v d => d - 48 + v * 8) value ds).
Proof.
  induction 1 as [|c ds Hc Hds IH]; intros ofs value bs Ho Hv Hb; cbn [octal_value foldl app].
  - cbn in Ho. by rewrite (proj2 (Z.ltb_lt 0 ofs)) by lia.
  - rewrite (proj2 (Z.leb_le 48 c)), (proj2 (Z.leb_le c 55)) by lia. cbn [andb]. cbn [foldl] in Hb.
    assert (forall l v, Forall (fun c => 48 <= c <= 55) l -> 0 <= v -> v <= foldl (fun v d => d - 48 + v * 8) v l) as Hmono.
    { clear. induction l as [|d l IH]; intros v Hl Hv; cbn; [lia|]. inversion_clear Hl. etransitivity; [|apply IH; [done|lia]]. lia. }
    destruct (Z.ltb_spec ((2 ^ 32 - 1) / 8) value) as [Hov|Hov]; change ((2 ^ 32 - 1) / 8) with 536870911 in Hov.
    + exfalso. pose proof (Hmono ds (c - 48 + value * 8) ltac:(done) ltac:(lia)). lia.
    + apply IH; [cbn in Ho; lia|lia|done].
Qed.

Lemma octal_fold w : forall v, 0 <= v < 8 ^ Z.of_nat w -> foldl (fun v d => d - 48 + v * 8) 0 (octal w v) = v.
Proof.
  induction w as [|w IH]; intros v Hv; [cbn in *; lia|]. cbn [octal]. rewrite foldl_app, IH.
  - cbn. pose proof (Z.div_mod v 8). lia.
  - split; [apply Z.div_pos; lia|]. apply Z.div_lt_upper_bound; [lia|]. rewrite Nat2Z.inj_succ, Z.pow_succ_r in Hv by lia. lia.
Qed.

Lemma octal_value_octal w v bs : (1 <= w)%nat -> 0 <= v < 8 ^ Z.of_nat w -> v < 2 ^ 32 -> octal_value 0 0 (octal w v ++ 0 :: bs) = Some v.
Proof.
  intros Hw Hv H32. rewrite octal_value_digits; [by rewrite octal_fold|apply octal_bytes|rewrite octal_length; lia|lia|by rewrite octal_fold].
Qed.

(** * Making headers *)

Section Make.
Context (lit : string -> Z) (m : mem) (h : Z).
Hypothesis Hh : 0 < h.
Hypothesis Hmap : mapped m h 512.
Hypothesis Hlit : forall k, k ∈ ustar_literals -> kept (outside_buf h 512) m (lit k) (str k).

Abbreviation hdr := (fun fs : list (list Z) => put m h (mjoin fs)).

(** A string outside of the header, while the header is written. *)
Lemma hdr_str a t fs : shape fs -> kept (outside_buf h 512) m a t -> cstr (hdr fs) a t.
Proof.
  intros Hs [Hc Hr]. eapply cstr_frame; [exact Hc|]. intros i Hi. rewrite lookup_put, shape_length by done. rewrite decide_False; [done|]. apply (Hr i Hi).
Qed.

Lemma off_bound i n : lens !! i = Some n -> (off i + n <= 512)%nat.
Proof. intros Hn. do 17 (destruct i as [|i]; [injection Hn as <-; vm_compute; lia|]). done. Qed.

Lemma hdr_mapped i n fs : lens !! i = Some n -> mapped (hdr fs) (h + Z.of_nat (off i)) n.
Proof. intros Hn j Hj. pose proof (off_bound i n Hn). apply (mapped_put m h 512 h (mjoin fs) Hmap). lia. Qed.

Lemma wp_strlcpy_field {B} i n src t fs (k : Z -> M mem B) (Q : B -> mem -> Prop) : shape fs -> lens !! i = Some n -> kept (outside_buf h 512) m src t -> (0 < n)%nat ->
  (forall r, shape (set_field i (take (n - 1) t ++ [0]) fs) -> wp (k r) (hdr (set_field i (take (n - 1) t ++ [0]) fs)) Q) ->
  wp (strlcpy (h + Z.of_nat (off i)) src (Z.of_nat n) ≫= k) (hdr fs) Q.
Proof.
  intros Hs Hn Hk Hp HQ. pose proof (off_bound i n Hn) as Hob. assert (length (take (n - 1) t ++ [0%Z]) <= n)%nat as Hl by (rewrite length_app, length_take; cbn; lia).
  apply wp_bind. eapply wp_strlcpy; [lia|by apply hdr_str|lia|rewrite Nat2Z.id; by apply hdr_mapped| |].
  - destruct Hk as [Hc Hr]. destruct (decide (src < h)) as [Hlt|Hge]; [right|left].
    + destruct (decide (src + Z.of_nat (length t) < h)); [lia|]. destruct (Hr h ltac:(lia)). lia.
    + destruct (decide (h + 512 <= src)); [lia|]. destruct (Hr src ltac:(lia)). lia.
  - rewrite (proj2 (Z.ltb_lt 0 (Z.of_nat n))) by lia. replace (Z.to_nat (Z.of_nat n - 1)) with (n - 1)%nat by lia. rewrite (put_field m h i n) by done. apply HQ. by eapply set_field_shape.
Qed.

(** [snprintf] of an octal number of [w] digits in a field of [w + 1] bytes. *)
Lemma wp_octal_write {B} i w fmt ds v fs (k : Z -> M mem B) (Q : B -> mem -> Prop) : shape fs -> lens !! i = Some (S w) -> (1 <= w <= 22)%nat -> fmt ∈ ustar_literals ->
  Forall (fun c => isdigit c = true) ds -> digits_value ds = Z.of_nat w -> hd 0 ds ≠ ch "0" -> str fmt = ch "%" :: ch "0" :: ds ++ [ch "o"] -> 0 <= v < 8 ^ Z.of_nat w -> v < 2 ^ 32 ->
  (forall r, shape (set_field i (octal w v ++ [0]) fs) -> wp (k r) (hdr (set_field i (octal w v ++ [0]) fs)) Q) ->
  wp (snprintf lit (h + Z.of_nat (off i)) (Z.of_nat (S w)) (lit fmt) [v] ≫= k) (hdr fs) Q.
Proof.
  intros Hs Hn Hw Hfmt Hds Ew Hhd Efmt Hv H32 HQ. pose proof (off_bound i (S w) Hn) as Hob. set (o := mk_options [FZero] (Digits ds) None INT). set (d := Unsigned o (ch "o") v).
  assert (options_style o = octal_style w) as Est. { unfold options_style, octal_style, options_left, options_prec. cbn [o_width o_flags o_prec o number_value]. rewrite Ew.
    rewrite (proj2 (Z.ltb_ge (Z.of_nat w) 0)) by lia. by rewrite Z.abs_eq by lia. }
  assert (outputs [d] = octal w v) as Eo. { unfold outputs. cbn [fmap list_fmap mjoin list_join]. rewrite app_nil_r. cbn [dir_output d]. rewrite Est. cbn [o_type o type_bits]. rewrite Z.mod_small by lia. by apply octal_text. }
  assert (forall a t, kept (outside_buf h 512) m a t -> kept (outside_buf (h + Z.of_nat (off i)) (S w)) (hdr fs) a t) as Hkept.
  { intros a t Hk. split; [by apply hdr_str|]. destruct Hk as [_ Hr]. intros j Hj. specialize (Hr j Hj). unfold outside_buf in *. lia. }
  apply wp_bind. replace [v] with (arguments [d]) by (unfold arguments, d, o; cbn; unfold u32; rewrite Z.mod_small by lia; done).
  apply (wp_vsnprintf (hdr fs) (h + Z.of_nat (off i)) (S w) (hdr_mapped i (S w) fs Hn) ltac:(lia) lit [d] (lit fmt)).
  - intros k' Hk'. apply Hkept, Hlit. apply elem_of_app. by left.
  - apply Forall_singleton. split; [|left]. split; cbn; [split; [done|rewrite Ew; lia]|done|done].
  - apply Hkept. assert (formats [d] = str fmt) as ->; [|by apply Hlit]. unfold formats, d, o. cbn [fmap list_fmap mjoin list_join dir_format options_format o_flags o_width o_prec o_type number_format type_format]. rewrite Efmt, !app_nil_r. cbn. by rewrite app_nil_r.
  - rewrite Eo, octal_length. lia.
  - rewrite Eo. unfold buffer_text. rewrite take_ge by (rewrite octal_length; lia). assert (length (octal w v ++ [0%Z]) <= S w)%nat as Hlw by (rewrite length_app, octal_length; cbn; lia).
    rewrite (put_field m h i (S w)) by done. apply HQ. by eapply set_field_shape.
Qed.

(** ** The fields in the order of the code *)

Definition zero_fields : list (list Z) :=
  [replicate 100 0; replicate 8 0; replicate 8 0; replicate 8 0; replicate 12 0; replicate 12 0; replicate 8 0; replicate 1 0; replicate 100 0; replicate 6 0; replicate 2 0;
   replicate 32 0; replicate 32 0; replicate 8 0; replicate 8 0; replicate 155 0; replicate 12 0].

Definition fields_with (name : list Z) (type size : Z) (sum : list Z) : list (list Z) :=
  [pad 100 name; octal 7 (if type =? USTAR_REGULAR then 420 else 493) ++ [0]; str "0000000" ++ [0]; str "0000000" ++ [0]; octal 11 size ++ [0]; octal 11 1136102400 ++ [0]; sum; [type];
   replicate 100 0; str "ustar" ++ [0]; str "00"; pad 32 (str "root"); pad 32 (str "root"); replicate 8 0; replicate 8 0; replicate 155 0; replicate 12 0].

Lemma fields_header name type size sum : mjoin (fields_with name type size sum) = header_with name type size sum.
Proof.
  unfold fields_with, header_with. cbn [mjoin list_join]. by do 13 f_equal.
Qed.

Lemma pad_length n t : (length t <= n)%nat -> length (pad n t) = n.
Proof. intros H. unfold pad. rewrite length_app, length_replicate. lia. Qed.

Lemma fields_shape name type size sum : (length name <= 100)%nat -> length sum = 8%nat -> shape (fields_with name type size sum).
Proof.
  intros Hn Hs. unfold shape, fields_with. cbn [fmap list_fmap]. rewrite !pad_length by (done || (cbn; lia)). rewrite !length_app, !octal_length, Hs, !length_replicate. done.
Qed.

Lemma field_full n ws : length ws = n -> ws ++ drop (length ws) (replicate n 0) = ws.
Proof. intros <-. by rewrite drop_replicate, Nat.sub_diag, app_nil_r. Qed.

Lemma field_pad n t : (length t < n)%nat -> (take (n - 1) t ++ [0]) ++ drop (length (take (n - 1) t ++ [0])) (replicate n 0) = pad n t.
Proof.
  intros H. rewrite take_ge by lia. rewrite length_app, drop_replicate. cbn [length]. unfold pad. rewrite <-app_assoc. f_equal.
  replace (n - length t)%nat with (S (n - (length t + 1))) by lia. done.
Qed.

Definition made_fields (name : list Z) (type size : Z) : list (list Z) :=
  set_field 11 (take 31 (str "root") ++ [0]) (set_field 12 (take 31 (str "root") ++ [0]) (set_field 10 (str "00") (set_field 9 (take 5 (str "ustar") ++ [0]) (set_field 7 [type]
    (set_field 5 (octal 11 1136102400 ++ [0]) (set_field 4 (octal 11 size ++ [0]) (set_field 3 (take 7 (str "0000000") ++ [0]) (set_field 2 (take 7 (str "0000000") ++ [0])
      (set_field 1 (octal 7 (if type =? USTAR_REGULAR then 420 else 493) ++ [0]) (set_field 0 (take 99 name ++ [0]) zero_fields)))))))))).

Lemma made_fields_eq name type size : (length name <= 99)%nat -> made_fields name type size = fields_with name type size (replicate 8 0).
Proof.
  intros Hn. unfold made_fields, zero_fields, set_field, alter. cbn [list_alter]. unfold fields_with.
  pose proof (field_pad 100 name ltac:(lia)) as E. change (100 - 1)%nat with 99%nat in E. rewrite E. rewrite !(field_full 8) by (by rewrite ?length_app, ?octal_length). rewrite !(field_full 12) by (by rewrite ?length_app, ?octal_length). done.
Qed.

Lemma set_sum name type size sum : length sum = 8%nat -> set_field 6 sum (fields_with name type size (replicate 8 0)) = fields_with name type size sum.
Proof. intros Hs. unfold fields_with, set_field, alter. cbn [list_alter]. by rewrite field_full. Qed.

Lemma wp_set_type {B} type fs (k : unit -> M mem B) (Q : B -> mem -> Prop) : shape fs -> byte type ->
  (shape (set_field 7 [type] fs) -> wp (k tt) (hdr (set_field 7 [type] fs)) Q) -> wp (store8 (h + h_typeflag) type ≫= k) (hdr fs) Q.
Proof.
  intros Hs Hb HQ. apply wp_bind, wp_store8; [apply (hdr_mapped 7 1 fs eq_refl); cbn; unfold h_typeflag; lia|]. rewrite u8_byte by done.
  pose proof (put_field m h 7 1 [type] fs Hs eq_refl ltac:(cbn; lia)) as E. cbn [put] in E. change (h + Z.of_nat (off 7)) with (h + h_typeflag) in E. rewrite E. apply HQ. by eapply set_field_shape.
Qed.

Lemma wp_set_version {B} fs (k : unit -> M mem B) (Q : B -> mem -> Prop) : shape fs ->
  (shape (set_field 10 (str "00") fs) -> wp (k tt) (hdr (set_field 10 (str "00") fs)) Q) ->
  wp (store8 (h + h_version + 1) (ch "0") ≫= fun _ => store8 (h + h_version) (ch "0") ≫= k) (hdr fs) Q.
Proof.
  intros Hs HQ. unfold h_version. apply wp_bind, wp_store8; [apply (hdr_mapped 10 2 fs eq_refl); cbn; lia|]. apply wp_bind, wp_store8; [apply mapped_insert with (n := 2%nat) (a := h + 263); [|lia]; apply (hdr_mapped 10 2 fs eq_refl)|].
  rewrite insert_insert_ne by lia. pose proof (put_field m h 10 2 (str "00") fs Hs eq_refl ltac:(cbn; lia)) as E. change (str "00") with [ch "0"; ch "0"] in E at 1. cbn [put] in E.
  change (h + Z.of_nat (off 10)) with (h + 263) in E. change (u8 (ch "0")) with (ch "0"). rewrite E. apply HQ. by eapply set_field_shape.
Qed.

Lemma header_bytes name type size sum : Forall byte name -> byte type -> Forall byte sum -> Forall byte (header_with name type size sum).
Proof.
  intros Hn Ht Hs. unfold header_with. assert (forall w v, Forall byte (octal w v)) as Ho.
  { intros w v. eapply Forall_impl; [apply octal_bytes|]. unfold byte. cbn. lia. }
  assert (forall n, Forall byte (replicate n 0)) as Hz by (intros n; by apply Forall_replicate). assert (forall n t, Forall byte t -> Forall byte (pad n t)) as Hp by (intros n t Htt; apply Forall_app; by split).
  assert (forall t, forallb (fun c => (0 <=? c) && (c <? 256)) t = true -> Forall byte t) as Hd.
  { intros t H. apply Forall_forall. intros c Hc. rewrite forallb_forall in H. apply list_elem_of_In, H, andb_true_iff in Hc as [?%Z.leb_le ?%Z.ltb_lt]. by split. }
  repeat match goal with |- Forall byte (_ ++ _) => apply Forall_app; split end; first [apply Ho|done|apply Hz|apply Hd; reflexivity|apply Hp; first [done|apply Hd; reflexivity]|by apply Forall_singleton].
Qed.

Lemma chksum_small bs : Forall byte bs -> length bs = 512%nat -> 0 <= chksum_of bs < 8 ^ 7.
Proof.
  intros Hb Hl. pose proof (zsum_bound _ (chk_bytes_ok bs Hb)) as Hz. unfold chk_bytes in Hz. rewrite length_imap, Hl in Hz. unfold chksum_of. unfold zsum in Hz. lia.
Qed.

Lemma wp_make_header f s type size (Q : bool -> mem -> Prop) : kept (outside_buf h 512) m f s -> type = USTAR_REGULAR \/ type = USTAR_DIRECTORY -> 0 <= size < 2 ^ 31 ->
  ((99 < length (strip s))%nat -> Q false m) -> ((length (strip s) <= 99)%nat -> Q true (put m h (make_header (strip s) type size))) ->
  wp (ustar_make_header lit f type size h) m Q.
Proof.
  intros Hk Ht Hsz Hlong HQ. assert (byte type) as Hbt by (destruct Ht as [->| ->]; done). unfold ustar_make_header. apply wp_bind, wp_assert; [by destruct Ht as [->| ->]|].
  apply wp_bind. eapply wp_strip; [intros k Hkl; by apply Hlit|apply Hk|]. intros f' Hf' Hpos. set (name := strip s) in *.
  assert (kept (outside_buf h 512) m f' name) as Hkn.
  { destruct Hpos as [[-> ->]|[H1 H2]]; [apply Hlit; known|]. split; [done|]. intros i Hi. apply (proj2 Hk). lia. }
  apply wp_bind. eapply wp_strlen; [exact Hf'|]. destruct (Z.ltb_spec 99 (Z.of_nat (length name))) as [Hl|Hl]; [apply wp_ret, Hlong; lia|]. specialize (HQ ltac:(lia)).
  apply wp_bind. apply wp_memset; [unfold NULL; lia|exact Hmap|]. assert (put m h (replicate 512 (u8 0)) = hdr zero_fields) as -> by (f_equal; by rewrite <-!replicate_add).
  assert (shape zero_fields) as Hs0 by done.
  change (h + h_name) with (h + Z.of_nat (off 0)). eapply (wp_strlcpy_field 0 100); [done|done|exact Hkn|lia|]. intros _ Hs1.
  change (h + h_mode) with (h + Z.of_nat (off 1)). eapply (wp_octal_write 1 7 _ (str "7")); [done|done|lia|known|by repeat constructor|done|done|done|by destruct (type =? USTAR_REGULAR)|by destruct (type =? USTAR_REGULAR)|]. intros _ Hs2.
  change (h + h_uid) with (h + Z.of_nat (off 2)). eapply (wp_strlcpy_field 2 8); [done|done|apply Hlit; known|lia|]. intros _ Hs3.
  change (h + h_gid) with (h + Z.of_nat (off 3)). eapply (wp_strlcpy_field 3 8); [done|done|apply Hlit; known|lia|]. intros _ Hs4.
  replace (u32 size) with size by (unfold u32; rewrite Z.mod_small; lia).
  change (h + h_size) with (h + Z.of_nat (off 4)). eapply (wp_octal_write 4 11 _ (str "11")); [done|done|lia|known|by repeat constructor|done|done|done|lia|lia|]. intros _ Hs5.
  change (h + h_mtime) with (h + Z.of_nat (off 5)). eapply (wp_octal_write 5 11 _ (str "11")); [done|done|lia|known|by repeat constructor|done|done|done|lia|lia|]. intros _ Hs6.
  eapply wp_set_type; [done|done|]. intros Hs7.
  change (h + h_magic) with (h + Z.of_nat (off 9)). eapply (wp_strlcpy_field 9 6); [done|done|apply Hlit; known|lia|]. intros _ Hs8.
  eapply wp_set_version; [done|]. intros Hs9.
  change (h + h_gname) with (h + Z.of_nat (off 12)). eapply (wp_strlcpy_field 12 32); [done|done|apply Hlit; known|lia|]. intros _ Hs10.
  change (h + h_uname) with (h + Z.of_nat (off 11)). eapply (wp_strlcpy_field 11 32); [done|done|apply Hlit; known|lia|]. intros _ Hs11.
  pose proof (made_fields_eq name type size ltac:(lia)) as Em. unfold made_fields in Em. cbn [Nat.sub] in *. rewrite Em in *. clear Em.
  set (fs := fields_with name type size (replicate 8 0)) in *. assert (Forall byte name) as Hbn by (destruct Hkn as [(_ & _ & Hn) _]; eapply Forall_impl; [exact Hn|]; by intros c [? _]).
  assert (Forall byte (mjoin fs)) as Hbf by (unfold fs; rewrite fields_header; apply header_bytes; [done|done|by apply Forall_replicate]). pose proof (shape_length fs Hs11) as Hlf. pose proof (chksum_small _ Hbf Hlf) as Hck.
  apply wp_bind. eapply wp_chksum; [apply put_bytes|done|done|]. change (h + h_chksum) with (h + Z.of_nat (off 6)). eapply (wp_octal_write 6 7 _ (str "7")); [done|done|lia|known|by repeat constructor|done|done|done|done|lia|]. intros _ Hs12.
  apply wp_ret. unfold fs in *. rewrite set_sum in * by (rewrite length_app, octal_length; done). rewrite !fields_header in *. exact HQ.
Qed.
End Make.

(** * Round trip *)

Lemma field_byte (fs : list (list Z)) i f p : shape fs -> fs !! i = Some f -> (p < length f)%nat -> mjoin fs !!! (off i + p)%nat = f !!! p.
Proof.
  intros Hs Hf Hp. rewrite (shape_split fs i f Hf), list_lookup_total_alt, lookup_app_r by (rewrite shape_off by done; lia). rewrite shape_off by done. replace (off i + p - off i)%nat with p by lia.
  by rewrite lookup_app_l, <-list_lookup_total_alt.
Qed.

(** The checksum does not depend on its own field. *)
Lemma chksum_field name type size sum sum' : (length name <= 100)%nat -> length sum = 8%nat -> length sum' = 8%nat -> chksum_of (header_with name type size sum) = chksum_of (header_with name type size sum').
Proof.
  intros Hn Hs Hs'. rewrite <-!fields_header. pose proof (fields_shape name type size sum Hn Hs) as H1. pose proof (fields_shape name type size sum' Hn Hs') as H2. unfold chksum_of. f_equal.
  apply list_eq. intros i. rewrite !list_lookup_imap. destruct ((148 <=? Z.of_nat i) && (Z.of_nat i <? 156)) eqn:E.
  - apply andb_true_iff in E as [E1%Z.leb_le E2%Z.ltb_lt]. destruct (lookup_lt_is_Some_2 (mjoin (fields_with name type size sum)) i) as [x ->]; [rewrite shape_length by done; lia|].
    by destruct (lookup_lt_is_Some_2 (mjoin (fields_with name type size sum')) i) as [y ->]; [rewrite shape_length by done; lia|].
  - f_equal. rewrite (shape_split (fields_with name type size sum) 6 sum eq_refl), (shape_split (fields_with name type size sum') 6 sum' eq_refl).
    change (take 6 (fields_with name type size sum')) with (take 6 (fields_with name type size sum)). change (drop 7 (fields_with name type size sum')) with (drop 7 (fields_with name type size sum)).
    pose proof (shape_off _ 6 H1) as Ho. change (off 6) with 148%nat in Ho. apply andb_false_iff in E. destruct (decide (i < 148)%nat).
    + by rewrite !lookup_app_l by lia.
    + rewrite !(lookup_app_r (mjoin (take 6 _))) by lia. rewrite !lookup_app_r by (destruct E as [E%Z.leb_gt|E%Z.ltb_ge]; lia). by rewrite Hs, Hs'.
Qed.

Lemma until_nul_app s t : Forall (fun c => c ≠ 0) s -> until_nul (s ++ 0 :: t) = s.
Proof. induction 1 as [|c s Hc _ IH]; cbn; [done|]. rewrite (proj2 (Z.eqb_neq c 0)) by done. by rewrite IH. Qed.

Lemma antisocial_strip n : forall s, (length s <= n)%nat -> antisocial (strip_prefixes n s) = false.
Proof.
  induction n as [|n IH]; intros s Hs; [destruct s; [done|cbn in Hs; lia]|]. rewrite strip_prefixes_step. destruct (antisocial s) eqn:E; [|done]. apply IH.
  unfold strip_one, antisocial in *. destruct (bool_decide (str "/" `prefix_of` s)) eqn:E1; [|destruct (bool_decide (str "./" `prefix_of` s)) eqn:E2]; rewrite ?length_drop; lia.
Qed.

(** Stripped names: what extracting an archive can create. *)
Lemma strip_sound s : antisocial (strip s) = false /\ strip s ≠ [] /\ strip s ≠ str "..".
Proof.
  unfold strip. set (t := strip_prefixes (length s) s). pose proof (antisocial_strip (length s) s ltac:(lia)) as Ha. fold t in Ha.
  destruct (bool_decide (t = [])) eqn:E1; cbn [orb]; [done|]. destruct (bool_decide (t = str "..")) eqn:E2; [done|]. apply bool_decide_eq_false in E1, E2. done.
Qed.

Lemma strip_stable t : antisocial t = false -> t ≠ [] -> t ≠ str ".." -> strip t = t.
Proof.
  intros Ha H1 H2. unfold strip. assert (strip_prefixes (length t) t = t) as -> by (destruct (length t) eqn:E; [done|]; by rewrite strip_prefixes_step, Ha).
  by rewrite !bool_decide_false.
Qed.

Lemma strip_idem s : strip (strip s) = strip s.
Proof. destruct (strip_sound s) as (H1 & H2 & H3). by apply strip_stable. Qed.

Lemma parse_made name type size : (length name <= 99)%nat -> Forall (fun c => byte c /\ c ≠ 0) name -> type = USTAR_REGULAR \/ type = USTAR_DIRECTORY -> 0 <= size < 2 ^ 31 ->
  parse_header (make_header name type size) = inr (Some (strip name), type, if type =? USTAR_REGULAR then size else 0).
Proof.
  intros Hn Hname Ht Hsz. assert (byte type) as Hbt by (destruct Ht as [->| ->]; done). unfold make_header. set (sum := octal 7 _ ++ [0]). assert (length sum = 8%nat) as Hsum by (unfold sum; rewrite length_app, octal_length; done).
  pose proof (fields_shape name type size sum ltac:(lia) Hsum) as Hs. set (fs := fields_with name type size sum) in *. assert (header_with name type size sum = mjoin fs) as E by (by rewrite <-fields_header).
  assert (Forall byte name) as Hbn by (eapply Forall_impl; [exact Hname|]; by intros c [? _]).
  assert (chksum_of (mjoin fs) = chksum_of (header_with name type size (replicate 8 0))) as Ec by (rewrite <-E; apply chksum_field; [lia|done|done]).
  pose proof (shape_length _ (fields_shape name type size (replicate 8 0) ltac:(lia) eq_refl)) as Hl0. rewrite fields_header in Hl0.
  pose proof (chksum_small _ (header_bytes name type size (replicate 8 0) Hbn Hbt ltac:(by apply Forall_replicate)) Hl0) as Hck.
  assert (mjoin fs !!! 156%nat = type) as E156 by (apply (field_byte fs 7 [type] 0 Hs eq_refl); cbn; lia).
  assert (mjoin fs !!! 345%nat = 0) as E345 by (apply (field_byte fs 15 (replicate 155 0) 0 Hs eq_refl); rewrite length_replicate; lia).
  assert (mjoin fs !!! 99%nat = 0) as E99.
  { change 99%nat with (off 0 + 99)%nat. rewrite (field_byte fs 0 (pad 100 name) 99 Hs eq_refl) by (rewrite pad_length; lia). unfold pad. rewrite list_lookup_total_alt, lookup_app_r, lookup_replicate_2 by lia. done. }
  rewrite E. unfold parse_header. rewrite bool_decide_false.
  2:{ intros Hz. rewrite Forall_lookup in Hz. specialize (Hz 156%nat (mjoin fs !!! 156%nat) ltac:(apply list_lookup_lookup_total_lt; rewrite shape_length by done; lia)). rewrite E156 in Hz. by destruct Ht; subst. }
  assert (sub 257 6 (mjoin fs) = str "ustar" ++ [0]) as -> by exact (sub_field fs 9 6 _ Hs eq_refl eq_refl). assert (sub 263 2 (mjoin fs) = str "00") as -> by exact (sub_field fs 10 2 _ Hs eq_refl eq_refl).
  assert (sub 148 8 (mjoin fs) = sum) as -> by exact (sub_field fs 6 8 sum Hs eq_refl eq_refl). assert (sub 124 12 (mjoin fs) = octal 11 size ++ [0]) as -> by exact (sub_field fs 4 12 _ Hs eq_refl eq_refl).
  rewrite !bool_decide_true by done. cbn [negb]. unfold sum. rewrite octal_value_octal by (done || lia). rewrite Ec, Z.eqb_refl. cbn [negb]. rewrite E99, E345, E156. cbn [orb negb].
  rewrite octal_value_octal by (done || lia). rewrite (proj2 (Z.ltb_ge (2 ^ 31 - 1) size)) by lia.
  assert (until_nul (mjoin fs) = name) as ->.
  { unfold fs, fields_with. cbn [mjoin list_join]. unfold pad. replace (100 - length name)%nat with (S (99 - length name)) by lia. cbn [replicate]. rewrite <-app_assoc. cbn [app]. apply until_nul_app.
    eapply Forall_impl; [exact Hname|]. by intros c [_ ?]. }
  by destruct Ht as [->| ->].
Qed.

(** * Results *)

(** A header that [ustar_make_header] composes is read back by [ustar_parse_header]: the name
    without leading [/], [./] and [../], the type, and the size of a regular file. *)
Theorem ustar_roundtrip (m : mem) lit h f s type size :
  0 < h -> mapped m h 512 -> (forall k, k ∈ ustar_literals -> kept (outside_buf h 512) m (lit k) (str k)) -> kept (outside_buf h 512) m f s ->
  type = USTAR_REGULAR \/ type = USTAR_DIRECTORY -> 0 <= size < 2 ^ 31 -> (length (strip s) <= 99)%nat ->
  wp (b ← ustar_make_header lit f type size h; r ← ustar_parse_header lit h; mret (b, r)) m (fun '(b, r) m' => b = true /\ (forall x, outside_buf h 512 x -> m' !! x = m !! x) /\
    exists a, r = inr (a, type, if type =? USTAR_REGULAR then size else 0) /\ cstr m' a (strip s)).
Proof.
  intros Hh Hm Hlit Hk Ht Hsz Hl. apply wp_bind. apply (wp_make_header lit m h Hh Hm Hlit f s); [done|done|done|lia|]. intros _.
  assert (Forall (fun c => byte c /\ c ≠ 0) (strip s)) as Hname.
  { assert (wp (strip_antisocial_prefixes lit f) m (fun a _ => cstr m a (strip s))) as W; [eapply wp_strip; [intros k Hkl; by apply Hlit|apply Hk|]; by intros|]. apply wp_unfold in W as (a & m' & _ & (_ & _ & H)). done. }
  pose proof (parse_made (strip s) type size Hl Hname Ht Hsz) as Hp. rewrite strip_idem in Hp. set (bs := make_header (strip s) type size) in *.
  assert (byte type) as Hbt by (destruct Ht as [->| ->]; done). assert (Forall byte (strip s)) as Hbn by (eapply Forall_impl; [exact Hname|]; by intros c [? _]).
  assert (length bs = 512%nat) as Hbl by (unfold bs, make_header; rewrite <-fields_header; apply shape_length, fields_shape; [lia|by rewrite length_app, octal_length]).
  apply wp_bind. eapply (wp_parse_header lit); [|exact Hh|apply put_bytes|done| |].
  - intros k Hkl. destruct (Hlit k Hkl) as [Hc Hr]. eapply cstr_frame; [exact Hc|]. intros i Hi. rewrite lookup_put, Hbl, decide_False; [done|]. by apply Hr.
  - unfold bs, make_header. apply header_bytes; [done|done|]. apply Forall_app. split; [|by apply Forall_singleton]. eapply Forall_impl; [apply octal_bytes|]. unfold byte. cbn. lia.
  - intros r Hr. apply wp_ret. split; [done|]. split. { intros x Hx. rewrite lookup_put, Hbl, decide_False; [done|]. exact Hx. }
    rewrite Hp in Hr. destruct r as [e|[[a t] sz]]; [done|]. destruct Hr as (Hc & -> & ->). by exists a.
Qed.

(** Parsing any 512 bytes neither faults nor changes memory, and a name that it accepts does
    not start with [/], [./] or [../], is not empty and is not [..]. *)
Theorem ustar_parse_safe (m : mem) lit h bs :
  0 < h -> bytes_at m h bs -> length bs = 512%nat -> Forall byte bs -> (forall k, k ∈ ustar_literals -> cstr m (lit k) (str k)) ->
  wp (ustar_parse_header lit h) m (fun r m' => m' = m /\ parsed m r (parse_header bs) /\
    forall a t sz, r = inr (a, t, sz) -> t ≠ USTAR_EOF -> 0 <= sz < 2 ^ 31 /\ exists name, cstr m a name /\ antisocial name = false /\ name ≠ [] /\ name ≠ str "..").
Proof.
  intros Hh Hb Hl Hby Hlit. eapply (wp_parse_header lit m Hlit h bs); [done..|]. intros r Hr. split; [done|]. split; [done|]. intros a t sz -> Ht.
  assert (forall x, parse_header bs = inr x -> x = (None, USTAR_EOF, 0) \/ exists ty v, x = (Some (strip (until_nul bs)), ty, v) /\ 0 <= v < 2 ^ 31) as H.
  { assert (forall l ofs v w, 0 <= v -> Forall byte l -> octal_value ofs v l = Some w -> 0 <= w) as Hov.
    { induction l as [|c l IH]; intros ofs v w Hv Hc; [done|]. inversion_clear Hc. cbn. destruct ((48 <=? c) && (c <=? 55)) eqn:E; [|destruct (_ || _); [|done]; destruct (0 <? ofs); [intros [= <-]|]; done].
      destruct (_ <? v); [done|]. apply IH; [|done]. apply andb_true_iff in E as [?%Z.leb_le _]. lia. }
    intros x. unfold parse_header. case_bool_decide; [intros [= <-]; by left|]. case_bool_decide; [|done]. case_bool_decide; [|done]. cbn [negb]. destruct (octal_value 0 0 (sub 148 8 bs)); [|done].
    destruct (negb (z =? _)); [done|]. destruct (_ || _); [done|]. destruct (_ && _); [done|]. destruct (bs !!! 156%nat =? USTAR_REGULAR).
    - destruct (octal_value 0 0 (sub 124 12 bs)) as [v|] eqn:Ev; [|done]. destruct (Z.ltb_spec (2 ^ 31 - 1) v); [done|]. intros [= <-]. right. do 2 eexists. split; [done|].
      assert (0 <= v) by (eapply Hov; [reflexivity| |exact Ev]; by apply Forall_take, Forall_drop). lia.
    - intros [= <-]. right. do 2 eexists. split; [done|lia]. }
  destruct (parse_header bs) as [e|[[name ty] v]] eqn:Ep; [done|]. destruct Hr as (Hc & -> & ->). destruct (H _ eq_refl) as [[= -> -> ->]|(ty' & v' & [= -> -> ->] & Hv)]; [done|].
  split; [done|]. exists (strip (until_nul bs)). split; [done|]. apply strip_sound.
Qed.

(** ** Witnesses *)

Definition archive_strings : list string := ustar_literals ++ ["../a/b"; "echo"]%string.
Definition archive_lit (s : string) : Z := match list_find (fun k => k = s) archive_strings with Some (i, _) => 1000 + 50 * Z.of_nat i | None => 900 end.
Definition archive_mem : mem := put (foldl (fun m s => put m (archive_lit s) (str s ++ [0])) ∅ archive_strings) 200 (replicate 512 7).

Lemma ustar_roundtrip_witness :
  wp (b ← ustar_make_header archive_lit (archive_lit "../a/b") USTAR_REGULAR 1234 200; r ← ustar_parse_header archive_lit 200; mret (b, r)) archive_mem
    (fun '(b, r) m' => b = true /\ exists a, r = inr (a, USTAR_REGULAR, 1234) /\ cstr m' a (str "a/b")).
Proof.
  eapply wp_mono.
  - apply (ustar_roundtrip archive_mem archive_lit 200 (archive_lit "../a/b") (str "../a/b") USTAR_REGULAR 1234).
    + lia.
    + apply demo_mapped. vm_compute. reflexivity.
    + apply demo_literals. vm_compute. reflexivity.
    + apply demo_kept. vm_compute. reflexivity.
    + by left.
    + lia.
    + vm_compute. lia.
  - intros [b r] m' (Hb & _ & a & Hr & Ha). split; [done|]. by exists a.
Defined.

Lemma ustar_parse_safe_witness :
  wp (ustar_parse_header archive_lit 200) archive_mem (fun r m' => m' = archive_mem /\ parsed archive_mem r (inl "not a ustar archive"%string)).
Proof.
  eapply wp_mono.
  - apply (ustar_parse_safe archive_mem archive_lit 200 (replicate 512 7)).
    + lia.
    + apply put_bytes.
    + reflexivity.
    + apply Forall_replicate. done.
    + intros k Hk. apply (demo_literals ustar_literals 200 512 archive_mem archive_lit); [vm_compute; reflexivity|exact Hk].
  - intros r m' (H1 & H2 & _). by split.
Defined.
