(* ===== verification/Fsutil.v ===== *)
(** src/filesys/fsutil.c: the commands of the kernel command line on the file system.

    The state is the file system, the scratch device (a list of sectors, if there is one), the
    static variables that keep the position on it, and what was printed of names and contents.
    Headers are made and parsed by the functions [make_header] and [parse_header] that
    [Ustar] proves equal to the code of lib/ustar.c.  A [PANIC] is a failure of the model, so
    that the theorems say when it occurs ([wpe]). *)
From Stdlib Require Import String Ascii.
From stdpp Require Import base list numbers gmap fin_maps.
From Stdlib Require Import ZArith Lia.
From S2P Require Import Prelude Strings Vaddr Inode Layout Directory Filesys Files Stdio Ustar.

Open Scope Z_scope.

(** * State *)

Inductive message : Type := Name (nm : list Z) | Dump (ofs : Z) (bs : list Z).

Record util : Type := mk_util {
  u_fs : fs;
  scratch : option (list (list Z));
  extract_sector : Z;
  append_sector : Z;
  said : list message
}.

Definition on_fs {A} (c : M fs A) : M util A := fun u =>
  match c (u_fs u) with
  | Ok (a, s) => Ok (a, mk_util s (scratch u) (extract_sector u) (append_sector u) (said u))
  | Err e => Err e
  end.
Definition set_scratch (dev : list (list Z)) : M util unit :=
  u ← mget; mput (mk_util (u_fs u) (Some dev) (extract_sector u) (append_sector u) (said u)).
Definition say (m : message) : M util unit :=
  u ← mget; mput (mk_util (u_fs u) (scratch u) (extract_sector u) (append_sector u) (said u ++ [m])).

(** [block_read] and [block_write] on the scratch device. *)
Definition scratch_read (sector : Z) : M util (list Z) :=
  u ← mget;
  match scratch u with
  | Some dev => match dev !! Z.to_nat sector with Some b => mret b | None => mfail Panic end
  | None => mfail Fault
  end.
Definition scratch_write (sector : Z) (b : list Z) : M util unit :=
  u ← mget;
  match scratch u with
  | Some dev => match dev !! Z.to_nat sector with Some _ => set_scratch (<[Z.to_nat sector := b]> dev) | None => mfail Panic end
  | None => mfail Fault
  end.

(** [block_get_role (BLOCK_SCRATCH)]. *)
Definition get_scratch : M util (list (list Z)) :=
  u ← mget; match scratch u with Some dev => mret dev | None => mfail Panic end.

Definition zero_sector : list Z := replicate (Z.to_nat BLOCK_SECTOR_SIZE) 0.

(** * Operations *)

Section Commands.
(** [stack] is what the stack holds where [dir_add] has an uninitialised entry, for the file
    whose data starts at a sector. *)
Context (mallocs : nat -> bool) (stack : Z -> list Z).

(** The number of entries of an open directory. *)
Definition dir_slots (s : fs) (d : Z) : nat :=
  match dirs s !! d with
  | Some x => match inodes s !! d_inode x with Some ino => Z.to_nat (length_of (data ino) / 20) | None => O end
  | None => O
  end.

Definition fsutil_ls : M util unit :=
  dir ← on_fs (dir_open_root mallocs);
  if dir =? NULL then mfail Panic
  else
    u ← mget;
    loop (S (dir_slots (u_fs u) dir)) (fun _ =>
      name ← on_fs (dir_readdir mallocs dir);
      match name with Some nm => say (Name nm);; mret (inl tt) | None => mret (inr tt) end) tt;;
    on_fs (dir_close mallocs dir).

(** [page] says whether the kernel has a page for the buffer. *)
Definition fsutil_cat (page : bool) (file_name : list Z) : M util unit :=
  file ← on_fs (filesys_open mallocs file_name);
  if file =? NULL then mfail Panic
  else if negb page then mfail Panic
  else
    size ← on_fs (file_length file);
    loop (S (S (Z.to_nat size))) (fun _ =>
      pos ← on_fs (file_tell file);
      bs ← on_fs (file_read mallocs file PGSIZE);
      if Z.of_nat (length bs) =? 0 then mret (inr tt) else say (Dump pos bs);; mret (inl tt)) tt;;
    on_fs (file_close mallocs file).

Definition fsutil_rm (file_name : list Z) : M util unit :=
  ok ← on_fs (filesys_remove mallocs file_name);
  if negb ok then mfail Panic else mret tt.

(** [block_read (src, sector++, ...)]. *)
Definition next_sector : M util (list Z) :=
  u ← mget;
  mput (mk_util (u_fs u) (scratch u) (u32 (extract_sector u + 1)) (append_sector u) (said u));;
  scratch_read (extract_sector u).

Definition copy_in (dst size : Z) : M util unit :=
  loop (S (Z.to_nat size)) (fun size =>
    if 0 <? size then
      let chunk_size := if BLOCK_SECTOR_SIZE <? size then BLOCK_SECTOR_SIZE else size in
      data ← next_sector;
      n ← on_fs (file_write mallocs dst data chunk_size);
      if negb (n =? chunk_size) then mfail Panic else mret (inl (size - chunk_size))
    else mret (inr tt)) size.

(** One round of the loop of [fsutil_extract]; true at the end of the archive. *)
Definition extract_entry : M util bool :=
  header ← next_sector;
  match parse_header header with
  | inl error => mfail Panic
  | inr (name, type, size) =>
    let file_name := default [] name in
    if type =? USTAR_EOF then mret true
    else if type =? USTAR_DIRECTORY then mret false
    else if type =? USTAR_REGULAR then
      u ← mget;
      ok ← on_fs (filesys_create mallocs file_name size (stack (extract_sector u)));
      if negb ok then mfail Panic
      else
        dst ← on_fs (filesys_open mallocs file_name);
        if dst =? NULL then mfail Panic
        else copy_in dst size;; on_fs (file_close mallocs dst);; mret false
    else mret false
  end.

Definition fsutil_extract : M util unit :=
  header ← on_fs (malloc mallocs);
  data ← on_fs (malloc mallocs);
  if (header =? NULL) || (data =? NULL) then mfail Panic
  else
    src ← get_scratch;
    loop (S (length src)) (fun _ => eof ← extract_entry; mret (if eof : bool then inr tt else inl tt)) tt;;
    scratch_write 0 zero_sector;;
    scratch_write 1 zero_sector.

(** [block_write (dst, sector++, ...)]. *)
Definition append_write (b : list Z) : M util unit :=
  u ← mget;
  mput (mk_util (u_fs u) (scratch u) (extract_sector u) (u32 (append_sector u + 1)) (said u));;
  scratch_write (append_sector u) b.

Definition copy_out (src size : Z) : M util unit :=
  loop (S (Z.to_nat size)) (fun size =>
    if 0 <? size then
      let chunk_size := if BLOCK_SECTOR_SIZE <? size then BLOCK_SECTOR_SIZE else size in
      u ← mget;
      dst ← get_scratch;
      if Z.of_nat (length dst) <=? append_sector u then mfail Panic
      else
        bs ← on_fs (file_read mallocs src chunk_size);
        if negb (Z.of_nat (length bs) =? chunk_size) then mfail Panic
        else
          append_write (bs ++ replicate (Z.to_nat (BLOCK_SECTOR_SIZE - chunk_size)) 0);;
          mret (inl (size - chunk_size))
    else mret (inr tt)) size.

(** [beyond] is the byte of the heap after the buffer: the second sector of the end of the
    archive is written to the place of the first, from one byte into the buffer. *)
Definition fsutil_append (beyond : Z) (file_name : list Z) : M util unit :=
  buffer ← on_fs (malloc mallocs);
  if buffer =? NULL then mfail Panic
  else
    src ← on_fs (filesys_open mallocs file_name);
    if src =? NULL then mfail Panic
    else
      size ← on_fs (file_length src);
      get_scratch;;
      if (99 <? length (strip file_name))%nat then mfail Panic
      else
        append_write (make_header (strip file_name) USTAR_REGULAR size);;
        copy_out src size;;
        u ← mget;
        scratch_write (append_sector u) zero_sector;;
        scratch_write (append_sector u) (drop 1 zero_sector ++ [beyond]);;
        on_fs (file_close mallocs src).
End Commands.

(** * Rules *)

Definition with_fs (u : util) (s : fs) : util := mk_util s (scratch u) (extract_sector u) (append_sector u) (said u).

Lemma wp_on_fs {A} (c : M fs A) u (Q : A -> util -> Prop) : wp c (u_fs u) (fun a s => Q a (with_fs u s)) -> wp (on_fs c) u Q.
Proof. unfold wp, on_fs. by destruct (c (u_fs u)) as [[a s]|e]. Qed.

Lemma wp_scratch_read u dev sector b (Q : list Z -> util -> Prop) : scratch u = Some dev -> dev !! Z.to_nat sector = Some b -> Q b u -> wp (scratch_read sector) u Q.
Proof. intros E Hb HQ. unfold scratch_read. apply wp_bind, wp_get. by rewrite E, Hb. Qed.

Lemma wp_scratch_write u dev sector b b' (Q : unit -> util -> Prop) : scratch u = Some dev -> dev !! Z.to_nat sector = Some b' ->
  Q tt (mk_util (u_fs u) (Some (<[Z.to_nat sector := b]> dev)) (extract_sector u) (append_sector u) (said u)) -> wp (scratch_write sector b) u Q.
Proof. intros E Hb HQ. unfold scratch_write. apply wp_bind, wp_get. rewrite E, Hb. by apply wp_bind, wp_get, wp_put. Qed.

(** ** Open files *)

(** Writes change nothing of which files are denied. *)
Lemma denied_same s s' f : counts_ok s -> counts_ok s' -> same_open s s' -> is_Some (files s !! f) -> denied s' f = denied s f.
Proof.
  intros Hc Hc' Ho [x Hx]. pose proof (Ho f) as Hf. rewrite Hx in Hf. cbn in Hf. destruct (files s' !! f) as [x'|] eqn:Hx'; [|done]. injection Hf as E1 E2.
  destruct (ta_file _ Hc _ _ Hx) as [[ino Hi] _]. destruct (ta_file _ Hc' _ _ Hx') as [[ino' Hi'] _]. unfold denied. rewrite Hx, Hx'. cbn. rewrite Hi, Hi'.
  rewrite (ta_deny _ Hc _ _ Hi), (ta_deny _ Hc' _ _ Hi'), E1. do 2 f_equal.
  assert (forall X : gmap Z file, msum (denies (f_inode x)) X = msum (fun '(i, d) => if (i =? f_inode x) && d then 1 else 0) (handle_of <$> X)) as Hm.
  { intros X. induction X as [|g y X Hg IH] using map_ind; [by rewrite fmap_empty, !msum_empty|]. rewrite fmap_insert, !msum_insert by (done || by rewrite lookup_fmap, Hg). by rewrite IH. }
  rewrite !Hm. f_equal. apply map_eq. intros g. rewrite !lookup_fmap. apply Ho.
Qed.

(** Rewriting the only name of an inode. *)
Lemma rewritten_insert A m s nm n cur bs F : fs_inv A m s -> files_of A m s = <[nm := cur]> F -> m !! nm = Some n -> rewritten m n bs (files_of A m s) = <[nm := bs]> F.
Proof.
  intros Hinv HF Hn. apply map_eq. intros x. unfold rewritten. rewrite map_lookup_imap. destruct (decide (x = nm)) as [->|Hne].
  - rewrite HF, !lookup_insert_eq. cbn. by rewrite decide_True.
  - rewrite lookup_insert_ne by done. rewrite HF, lookup_insert_ne by done. destruct (F !! x) as [c|] eqn:Ex; [|done]. cbn. rewrite decide_False; [done|].
    intros Hx. apply Hne. by eapply (fi_inj _ _ _ Hinv).
Qed.

Section Results.
Context (mallocs : nat -> bool) (Hmalloc : forall n, mallocs n = true) (stack : Z -> list Z) (Hstack : forall k, length (stack k) = 20%nat).
Implicit Types (F : gmap (list Z) (list Z)) (u : util) (s : fs).

(** The file [nm] of contents [cur] is open as [f] for writing at [p]; the others are [F]. *)
Definition writing m F nm f (cur : list Z) (p : Z) s : Prop :=
  fsys_at m (<[nm := cur]> F) s /\ counts_ok s /\ denied s f = false /\ exists n, m !! nm = Some n /\ view s f = Some (n, cur, p).

Lemma wp_write_chunk m F nm f cur p b size s (Q : Z -> fs -> Prop) :
  writing m F nm f cur p s -> 0 <= p -> 0 <= size <= Z.of_nat (length b) -> p + size <= Z.of_nat (length cur) ->
  (forall s', writing m F nm f (splice cur (Z.to_nat p) (take (Z.to_nat size) b)) (p + size) s' -> Q size s') -> wp (file_write mallocs f b size) s Q.
Proof.
  intros ((A & Hinv & HF) & Hc & Hd & n & Hn & Hv) Hp Hs Hr HQ. eapply (wp_file_write mallocs Hmalloc A m); [done|done|done|done|]. intros k s' Hk bs' Hf Hc' _ Hv' Ho.
  rewrite Hd in Hk. unfold room in Hk. assert (Z.of_nat k = size) as Ek by lia. assert (k = Z.to_nat size) as Ek' by lia.
  rewrite Ek in Hv' |- *. unfold bs' in *. rewrite Ek' in *. apply HQ. split_and!; [|done| |].
  - rewrite <-(rewritten_insert A m s nm n cur _ F) by done. done.
  - rewrite (denied_same s); [done..|]. apply view_Some in Hv as (x & ino & Hx & _). by exists x.
  - by exists n.
Qed.
(** ** Extracting *)

(** The sectors that [size] bytes take. *)
Definition sectors (size : nat) : nat := (size + 511) / 512.

Lemma sectors_0 : sectors 0 = O.
Proof. done. Qed.
Lemma sectors_S size : (0 < size)%nat -> sectors size = S (sectors (size - 512)).
Proof.
  intros H. unfold sectors. destruct (decide (size <= 512)%nat).
  - replace (size - 512)%nat with O by lia. change ((0 + 511) / 512)%nat with O. symmetry. apply (Nat.div_unique _ _ _ (size - 1)); lia.
  - replace (size + 511)%nat with (size - 512 + 511 + 1 * 512)%nat by lia. rewrite Nat.div_add by lia. lia.
Qed.
Lemma sectors_bound size : (size <= 512 * sectors size)%nat.
Proof. unfold sectors. pose proof (Nat.div_mod (size + 511) 512 ltac:(lia)). pose proof (Nat.mod_upper_bound (size + 511) 512 ltac:(lia)). lia. Qed.

Lemma drop_head {X} k (dev : list X) b rest : drop k dev = b :: rest -> dev !! k = Some b.
Proof. intros E. by rewrite <-(Nat.add_0_r k), <-lookup_drop, E. Qed.

Lemma wp_next_sector u dev b rest (Q : list Z -> util -> Prop) : scratch u = Some dev -> 0 <= extract_sector u -> drop (Z.to_nat (extract_sector u)) dev = b :: rest -> Z.of_nat (length dev) < 2 ^ 32 ->
  Q b (mk_util (u_fs u) (Some dev) (extract_sector u + 1) (append_sector u) (said u)) -> wp (next_sector) u Q.
Proof.
  intros E H0 Hd Hl HQ. unfold next_sector. pose proof (drop_head _ _ _ _ Hd) as Hb.
  pose proof (lookup_lt_Some _ _ _ Hb). apply wp_bind, wp_get, wp_bind, wp_put. rewrite E. eapply wp_scratch_read; [done|done|]. unfold u32. by rewrite Z.mod_small by lia.
Qed.

Lemma drop_next {X} k (dev : list X) b rest : 0 <= k -> drop (Z.to_nat k) dev = b :: rest -> drop (Z.to_nat (k + 1)) dev = rest.
Proof. intros Hk E. replace (Z.to_nat (k + 1)) with (Z.to_nat k + 1)%nat by lia. by rewrite <-drop_drop, E. Qed.

Lemma splice_zeros (l c : list Z) n : (length c <= n)%nat -> splice (l ++ replicate n 0) (length l) c = (l ++ c) ++ replicate (n - length c) 0.
Proof.
  intros H. unfold splice. rewrite take_app_length, drop_app, drop_ge by lia. rewrite drop_replicate. replace (n - (length l + length c - length l))%nat with (n - length c)%nat by lia.
  by rewrite <-app_assoc.
Qed.

Lemma wp_copy_in m F nm f dev : Z.of_nat (length dev) < 2 ^ 32 -> Forall (fun b => length b = 512%nat) dev ->
  forall size fuel l bss post u (Q : unit -> util -> Prop), (Z.to_nat size < fuel)%nat -> 0 <= size -> scratch u = Some dev -> 0 <= extract_sector u ->
  drop (Z.to_nat (extract_sector u)) dev = bss ++ post -> length bss = sectors (Z.to_nat size) -> writing m F nm f (l ++ replicate (Z.to_nat size) 0) (Z.of_nat (length l)) (u_fs u) ->
  (forall s', writing m F nm f (l ++ take (Z.to_nat size) (mjoin bss)) (Z.of_nat (length l) + size) s' ->
     Q tt (mk_util s' (Some dev) (extract_sector u + Z.of_nat (length bss)) (append_sector u) (said u))) ->
  wp (loop fuel (fun size =>
    if 0 <? size then
      let chunk_size := if BLOCK_SECTOR_SIZE <? size then BLOCK_SECTOR_SIZE else size in
      data ← next_sector;
      n ← on_fs (file_write mallocs f data chunk_size);
      if negb (n =? chunk_size) then mfail Panic else mret (inl (size - chunk_size))
    else mret (inr tt)) size) u Q.
Proof.
  intros Hdev Hall size fuel. revert size. induction fuel as [|fuel IH]; intros size l bss post u Q Hf H0 Eu Hp Hd Hb Hw HQ; [lia|]. apply wp_loop_S.
  destruct (Z.ltb_spec 0 size) as [Hpos|Hz].
  - rewrite sectors_S in Hb by lia. destruct bss as [|b bss]; [done|]. injection Hb as Hb. cbn [app] in Hd. cbv zeta.
    set (chunk := if BLOCK_SECTOR_SIZE <? size then BLOCK_SECTOR_SIZE else size).
    assert (chunk = Z.min 512 size) as Ec by (unfold chunk, BLOCK_SECTOR_SIZE; destruct (Z.ltb_spec 512 size); lia). clearbody chunk.
    assert (length b = 512%nat) as Hlb by exact (Forall_lookup_1 _ _ _ _ Hall (drop_head _ _ _ _ Hd)).
    apply wp_bind. eapply wp_next_sector; [done|done|exact Hd|done|]. apply wp_bind, wp_on_fs. cbn [u_fs].
    eapply wp_write_chunk; [exact Hw|lia|lia|rewrite length_app, length_replicate; lia|]. intros s' Hw'. rewrite Z.eqb_refl. cbn [negb]. apply wp_ret.
    rewrite Nat2Z.id in Hw'. set (c := take (Z.to_nat chunk) b) in *. assert (length c = Z.to_nat chunk) as Hlc by (unfold c; rewrite length_take; lia).
    rewrite splice_zeros in Hw' by lia. rewrite Hlc in Hw'.
    eapply (IH _ (l ++ c) bss post (mk_util s' (Some dev) (extract_sector u + 1) (append_sector u) (said u))); [lia|lia|done|cbn; lia|by eapply drop_next| | |].
    + rewrite Hb. f_equal. lia.
    + rewrite length_app, Hlc. cbn [u_fs]. replace (Z.to_nat (size - chunk)) with (Z.to_nat size - Z.to_nat chunk)%nat by lia.
      replace (Z.of_nat (length l + Z.to_nat chunk)) with (Z.of_nat (length l) + chunk) by lia. exact Hw'.
    + intros s2 Hw2. cbn [extract_sector append_sector said u_fs]. rewrite length_app, Hlc, <-app_assoc in Hw2.
      replace (extract_sector u + 1 + Z.of_nat (length bss)) with (extract_sector u + Z.of_nat (length (b :: bss))) by (cbn; lia). apply HQ.
      replace (Z.of_nat (length l) + size) with (Z.of_nat (length l + Z.to_nat chunk) + (size - chunk)) by lia.
      replace (take (Z.to_nat size) (mjoin (b :: bss))) with (c ++ take (Z.to_nat (size - chunk)) (mjoin bss)); [done|].
      cbn [mjoin list_join]. rewrite take_app, Hlb. unfold c. f_equal; [|f_equal; lia].
      destruct (decide (size <= 512)); [f_equal; lia|]. rewrite !take_ge by lia. done.
  - assert (size = 0) as -> by lia. apply wp_ret. change (length bss = O) in Hb. destruct bss; [|done]. cbn [Z.to_nat replicate mjoin list_join take length] in *. rewrite app_nil_r, ?Z.add_0_r in *.
    destruct u as [s sc ex ap sa]. cbn in *. subst sc. change (Z.of_nat 0) with 0 in HQ. rewrite ?Z.add_0_r in HQ. by apply HQ.
Qed.

(** What an archive holds. *)
Inductive entry : Type := Directory | Regular (nm contents : list Z).

(** The sectors [ss] start with an archive of [es], up to its end or to a bad header. *)
Fixpoint archive_at (ended : bool) (ss : list (list Z)) (es : list entry) : Prop :=
  match es with
  | [] => exists b rest, ss = b :: rest /\ if ended then parse_header b = inr (None, USTAR_EOF, 0) else exists error, parse_header b = inl error
  | Directory :: es => exists b rest nm, ss = b :: rest /\ parse_header b = inr (nm, USTAR_DIRECTORY, 0) /\ archive_at ended rest es
  | Regular nm c :: es => exists b bss rest, ss = b :: bss ++ rest /\ parse_header b = inr (Some nm, USTAR_REGULAR, Z.of_nat (length c)) /\
      length bss = sectors (length c) /\ c = take (length c) (mjoin bss) /\ archive_at ended rest es
  end.

Fixpoint add_all (es : list entry) F : gmap (list Z) (list Z) :=
  match es with [] => F | Directory :: es => add_all es F | Regular nm c :: es => add_all es (<[nm := c]> F) end.

(** Why a file cannot be created. *)
Definition cannot_create F s nm len : Prop := (14 < length nm)%nat \/ is_Some (F !! nm) \/ root_full s \/ no_room s len.

(** Why extracting [es] stops: one of the files cannot be created after those before it. *)
Definition stops es F : Prop := exists es1 nm c es2 s, es = es1 ++ Regular nm c :: es2 /\ fsys (add_all es1 F) s /\ cannot_create (add_all es1 F) s nm (Z.of_nat (length c)).

Lemma strip_names (s : list Z) : name_ok s -> name_ok (strip s).
Proof.
  intros Hs. assert (forall n t, name_ok t -> name_ok (strip_prefixes n t)) as H.
  { induction n as [|n IH]; intros t Ht; [done|]. rewrite strip_prefixes_step. destruct (antisocial t); [|done]. apply IH. unfold strip_one. repeat case_match; by apply Forall_drop. }
  unfold strip. destruct (_ || _); [|by apply H]. apply Forall_singleton. done.
Qed.

Lemma until_nul_names b : Forall byte b -> name_ok (until_nul b).
Proof. induction 1 as [|c b Hc _ IH]; cbn; [constructor|]. destruct (Z.eqb_spec c 0); [constructor|]. constructor; [unfold byte in Hc; lia|done]. Qed.

Lemma parse_name b nm t sz : Forall byte b -> parse_header b = inr (Some nm, t, sz) -> name_ok nm /\ nm ≠ [].
Proof.
  intros Hb. unfold parse_header. repeat case_match; intros E; simplify_eq; (split; [by apply strip_names, until_nul_names|apply strip_sound]).
Qed.

(** A new file is open for writing. *)
Lemma wp_open_new A m F nm n cur s (Q : Z -> fs -> Prop) : fs_inv A m s -> files_of A m s = <[nm := cur]> F -> counts_ok s -> name_ok nm -> m !! nm = Some n ->
  (forall i ino, inodes s !! i = Some ino -> sector ino ≠ n) -> (forall f s', 0 < f -> writing m F nm f cur 0 s' -> Q f s') -> wp (filesys_open mallocs nm) s Q.
Proof.
  intros Hinv HF Hc Hnm Hn Hfresh HQ. eapply (wp_filesys_open mallocs Hmalloc A m); [done|done| |].
  - intros s' Hm. congruence.
  - intros f i k e ino s' Hf Hk He Hb Hfo [Hs Hok]. rewrite Hn in Hk. injection Hk as <-. destruct (fi_entries _ _ _ Hinv _ _ Hn) as (Hn0 & Hn1 & _).
    destruct (views_opened s s' f i n e ino) as [Hv _]; [done|done|unfold sys_sectors; set_solver|]. apply HQ; [done|].
    assert (bytes_of s' e = cur) as Eb.
    { assert (files_of A m s !! nm = Some (bytes_of s e)) as E by (unfold files_of; rewrite lookup_omap, Hn; cbn; by rewrite He). rewrite HF, lookup_insert_eq in E. congruence. }
    split_and!; [by rewrite <-HF|by eapply table_opened| |exists n; by rewrite Hv, <-Hb, Eb].
    unfold denied. rewrite (fo_files _ _ _ _ _ _ _ Hfo), lookup_insert_eq. cbn. rewrite (fo_inode _ _ _ _ _ _ _ Hfo).
    pose proof (fo_count _ _ _ _ _ _ _ Hfo) as Ec. destruct (fo_sector _ _ _ _ _ _ _ Hfo) as [Es _]. destruct (inodes s !! i) as [o|] eqn:Ei; [|by rewrite Ec].
    exfalso. apply (Hfresh i o Ei). rewrite <-Es, Ec. done.
Qed.

(** The files of the file system, with the handles counted right. *)
Definition holds F s : Prop := fsys F s /\ counts_ok s.

(** A file of the archive: created, opened, filled and closed. *)
Lemma wpe_extract_file F u dev nm c bss post (Q : bool -> util -> Prop) (E : fail -> Prop) :
  holds F (u_fs u) -> scratch u = Some dev -> 1 <= extract_sector u -> Z.of_nat (length dev) < 2 ^ 22 -> Forall (fun b => length b = 512%nat) dev ->
  drop (Z.to_nat (extract_sector u)) dev = bss ++ post -> length bss = sectors (length c) -> c = take (length c) (mjoin bss) -> name_ok nm -> nm ≠ [] ->
  (forall s', holds (<[nm := c]> F) s' -> Q false (mk_util s' (Some dev) (extract_sector u + Z.of_nat (length bss)) (append_sector u) (said u))) ->
  (cannot_create F (u_fs u) nm (Z.of_nat (length c)) -> E Panic) ->
  wpe (u ← mget;
      ok ← on_fs (filesys_create mallocs nm (Z.of_nat (length c)) (stack (extract_sector u)));
      if negb ok then mfail Panic
      else
        dst ← on_fs (filesys_open mallocs nm);
        if dst =? NULL then mfail Panic
        else copy_in mallocs dst (Z.of_nat (length c));; on_fs (file_close mallocs dst);; mret false) u Q E.
Proof.
  intros [(A & m & Hinv & HF) Hc] Eu H0 Hl Hall Hd Hb Ec Hnm Hne HQ HE. pose proof (sectors_bound (length c)) as Hsb.
  assert (length bss <= length dev - 1)%nat as Hbl by (apply (f_equal length) in Hd; rewrite length_drop, length_app in Hd; lia).
  apply wpe_step, wp_get. apply wpe_step, wp_on_fs. eapply (wp_create_view mallocs Hmalloc A m); [done|done|done|lia|apply Hstack|]. rewrite HF.
  intros r m' s1 (A1 & Hinv1 & HF1) Hyes Hno Hc1 _ Hsh. destruct r; cbn [negb].
  2:{ apply wpe_fail, HE. destruct (Hno eq_refl) as [|[|[|[|]]]]; [done|by left|by right; left|by right; right; left|by right; right; right]. }
  destruct (Hyes eq_refl) as (_ & n & Hn & Hfresh). apply wpe_step, wp_on_fs. cbn [u_fs with_fs].
  eapply (wp_open_new A1 m' F nm n); [done|done|done|done|done|by intros i ino; rewrite (sh_inodes _ _ Hsh); apply Hfresh|]. intros f s2 Hf Hw.
  rewrite (proj2 (Z.eqb_neq f NULL)) by (unfold NULL; lia). apply wpe_step. unfold copy_in. rewrite Nat2Z.id in Hw.
  eapply (wp_copy_in m' F nm f dev ltac:(lia) Hall (Z.of_nat (length c)) _ [] bss post); [lia|lia|done|cbn; lia|done|by rewrite Nat2Z.id|cbn; by rewrite Nat2Z.id|].
  intros s3 ((A3 & Hinv3 & HF3) & Hc3 & _ & k & Hk & Hv). rewrite Nat2Z.id, <-Ec in *. cbn [app length] in *. apply wpe_step, wp_on_fs.
  apply view_handle in Hv as (x & ino & Hh & _). eapply (wp_file_close mallocs Hmalloc A3 m'); [done|done|exact Hh|].
  intros s4 (A4 & Hinv4 & HF4) Hc4 _ _. apply wpe_wp, wp_ret, HQ. split; [|done]. exists A4, m'. split; [done|]. cbn [u_fs] in HF4. congruence.
Qed.

Lemma stops_later e es F F' : (forall es1, add_all (e :: es1) F = add_all es1 F') -> stops es F' -> stops (e :: es) F.
Proof. intros Ha (es1 & nm & c & es2 & s & -> & Hs & Hc). exists (e :: es1), nm, c, es2, s. by rewrite Ha. Qed.

Lemma wpe_extract_loop ended dev : Z.of_nat (length dev) < 2 ^ 22 -> Forall (fun b => length b = 512%nat /\ Forall byte b) dev ->
  forall es fuel F u (Q : unit -> util -> Prop), scratch u = Some dev -> 0 <= extract_sector u -> holds F (u_fs u) ->
  archive_at ended (drop (Z.to_nat (extract_sector u)) dev) es -> (length dev - Z.to_nat (extract_sector u) < fuel)%nat ->
  (ended = true -> forall s' k, holds (add_all es F) s' -> Q tt (mk_util s' (Some dev) k (append_sector u) (said u))) ->
  wpe (loop fuel (fun _ => eof ← extract_entry mallocs stack; mret (if eof : bool then inr tt else inl tt)) tt) u Q (fun e => e = Panic /\ (ended = false \/ stops es F)).
Proof.
  intros Hl Hall. assert (Forall (fun b => length b = 512%nat) dev) as Hall' by (eapply Forall_impl; [exact Hall|]; by intros b [? _]).
  assert (forall u b rest, drop (Z.to_nat (extract_sector u)) dev = b :: rest -> Forall byte b) as Hbytes.
  { intros u b rest Hd%drop_head. by apply (Forall_lookup_1 _ _ _ _ Hall Hd). }
  induction es as [|e es IH]; intros fuel F u Q Eu H0 HF Ha Hf HQ; (destruct fuel as [|fuel]; [lia|]); apply wpe_loop_S; apply wpe_bind; unfold extract_entry.
  - destruct Ha as (b & rest & Hd & Hp). apply wpe_step. eapply wp_next_sector; [done|done|exact Hd|lia|]. destruct ended; [|destruct Hp as [error ->]; apply wpe_fail; by auto].
    rewrite Hp. change (USTAR_EOF =? USTAR_EOF) with true. cbn [default]. apply wpe_wp, wp_ret, wpe_wp, wp_ret. by apply HQ.
  - assert (forall k s' F', extract_sector u < k -> holds F' s' -> archive_at ended (drop (Z.to_nat k) dev) es -> (extract_sector u < Z.of_nat (length dev)) -> (forall es1, add_all (e :: es1) F = add_all es1 F') ->
      wpe (mret (inl tt)) (mk_util s' (Some dev) k (append_sector u) (said u)) (fun r u' => match r with inl a => wpe (loop fuel (fun _ => eof ← extract_entry mallocs stack; mret (if eof : bool then inr tt else inl tt)) a) u' Q (fun e0 => e0 = Panic /\ (ended = false \/ stops (e :: es) F)) | inr b => Q b u' end)
        (fun e0 => e0 = Panic /\ (ended = false \/ stops (e :: es) F))) as Hnext.
    { intros k s' F' Hk HF' Ha' Hlt Hadd. apply wpe_wp, wp_ret. eapply wpe_mono; [eapply (IH fuel F')| |]; [done|cbn; lia|done|done|cbn; lia| | |].
      - intros He s2 k2 Hs2. cbn [append_sector said]. apply HQ; [done|]. by rewrite Hadd.
      - by intros [] s2.
      - intros e0 [-> [Hst|Hst]]; (split; [done|]); [by left|right]. by eapply stops_later. }
    destruct e as [|nm c]; [destruct Ha as (b & rest & nm & Hd & Hp & Ha)|destruct Ha as (b & bss & rest & Hd & Hp & Hlb & Ec & Ha)].
    + pose proof (lookup_lt_Some _ _ _ (drop_head _ _ _ _ Hd)). apply wpe_step. eapply wp_next_sector; [done|done|exact Hd|lia|]. rewrite Hp. change (USTAR_DIRECTORY =? USTAR_EOF) with false. change (USTAR_DIRECTORY =? USTAR_DIRECTORY) with true. cbv iota.
      apply wpe_wp, wp_ret. apply (Hnext _ _ F); [lia|done| |lia|done]. by erewrite drop_next.
    + pose proof (lookup_lt_Some _ _ _ (drop_head _ _ _ _ Hd)). apply wpe_step. eapply wp_next_sector; [done|done|exact Hd|lia|]. rewrite Hp. destruct (parse_name _ _ _ _ (Hbytes _ _ _ Hd) Hp) as [Hnm Hne]. cbn [default id].
      change (USTAR_REGULAR =? USTAR_EOF) with false. change (USTAR_REGULAR =? USTAR_DIRECTORY) with false. change (USTAR_REGULAR =? USTAR_REGULAR) with true. cbv iota.
      pose proof (drop_next _ _ _ _ H0 Hd) as Hd'. eapply (wpe_extract_file F _ dev nm c bss rest); [done|done|cbn; lia|done|done|exact Hd'|done|done|done|done| |].
      * intros s' Hs'. cbn [extract_sector append_sector said]. apply (Hnext _ _ (<[nm := c]> F)); [lia|done| |lia|done].
        replace (Z.to_nat (extract_sector u + 1 + Z.of_nat (length bss))) with (Z.to_nat (extract_sector u + 1) + length bss)%nat by lia. by rewrite <-drop_drop, Hd', drop_app_length.
      * intros Hcan. split; [done|]. right. exists [], nm, c, es, (u_fs u). split; [done|]. split; [apply HF|exact Hcan].
Qed.

Lemma holds_heap F s s' : holds F s -> heap_eq s s' -> holds F s'.
Proof. intros [(A & m & Hinv & HF) Hc] He. destruct (fs_inv_heap A m s s' Hinv Hc He) as (H1 & H2 & H3 & _). split; [|done]. exists A, m. split; [done|congruence]. Qed.

Lemma holds_heap_pos F s : holds F s -> 0 < next_addr s.
Proof. intros [(A & m & Hinv & _) _]. exact (ha_heap _ _ (ly_handles _ _ (fi_layout _ _ _ Hinv))). Qed.

Lemma wp_buffer F u (Q : Z -> util -> Prop) : holds F (u_fs u) -> (forall p s', 0 < p -> holds F s' -> Q p (with_fs u s')) -> wp (on_fs (malloc mallocs)) u Q.
Proof.
  intros HF HQ. pose proof (holds_heap_pos _ _ HF). apply wp_on_fs, wp_malloc; [done|done|]. apply HQ; [done|]. eapply holds_heap; [exact HF|]. eexists _, _. split; [done|lia].
Qed.

Lemma wpe_fsutil_extract ended dev es F u (Q : unit -> util -> Prop) : Z.of_nat (length dev) < 2 ^ 22 -> (2 <= length dev)%nat -> Forall (fun b => length b = 512%nat /\ Forall byte b) dev ->
  scratch u = Some dev -> 0 <= extract_sector u -> holds F (u_fs u) -> archive_at ended (drop (Z.to_nat (extract_sector u)) dev) es ->
  (ended = true -> forall s' k, holds (add_all es F) s' -> Q tt (mk_util s' (Some (<[1%nat := zero_sector]> (<[0%nat := zero_sector]> dev))) k (append_sector u) (said u))) ->
  wpe (fsutil_extract mallocs stack) u Q (fun e => e = Panic /\ (ended = false \/ stops es F)).
Proof.
  intros Hl H2 Hall Eu H0 HF Ha HQ. unfold fsutil_extract. apply wpe_step, (wp_buffer F); [done|]. intros p1 s1 Hp1 HF1. apply wpe_step, (wp_buffer F); [done|]. intros p2 s2 Hp2 HF2.
  rewrite !(proj2 (Z.eqb_neq _ NULL)) by (unfold NULL; lia). cbn [orb]. apply wpe_step. unfold get_scratch. apply wp_bind, wp_get. cbn [scratch with_fs]. rewrite Eu. apply wp_ret.
  apply wpe_bind. eapply (wpe_extract_loop ended dev Hl Hall es _ F); [done|done|done|done|lia|]. intros He s3 k HF3. destruct (lookup_lt_is_Some_2 dev 0) as [b0 Hb0]; [lia|]. destruct (lookup_lt_is_Some_2 dev 1) as [b1 Hb1]; [lia|].
  apply wpe_step. eapply wp_scratch_write; [done|exact Hb0|]. apply wpe_wp. eapply wp_scratch_write; [done|cbn; rewrite list_lookup_insert_ne by done; exact Hb1|]. by apply HQ.
Qed.

(** ** Appending *)

Definition overwrite (dev : list (list Z)) (k : nat) (new : list (list Z)) : list (list Z) := take k dev ++ new ++ drop (k + length new) dev.

Lemma overwrite_length dev k new : (k + length new <= length dev)%nat -> length (overwrite dev k new) = length dev.
Proof. intros H. unfold overwrite. rewrite !length_app, length_take, length_drop. lia. Qed.

Lemma overwrite_nil dev k : overwrite dev k [] = dev.
Proof. unfold overwrite. cbn. by rewrite Nat.add_0_r, take_drop. Qed.

Lemma overwrite_one dev k b : (k < length dev)%nat -> <[k := b]> dev = overwrite dev k [b].
Proof. intros H. unfold overwrite. rewrite insert_take_drop by done. cbn. do 3 f_equal. lia. Qed.

Lemma overwrite_app dev k a mk b : (k + length a + length b <= length dev)%nat -> (length mk <= length b)%nat -> overwrite (overwrite dev k (a ++ mk)) (k + length a) b = overwrite dev k (a ++ b).
Proof.
  intros H Hm. unfold overwrite. rewrite length_app. assert (length (take k dev) = k) as Hk by (rewrite length_take; lia).
  rewrite <-(app_assoc a mk). rewrite (app_assoc (take k dev) a). assert (length (take k dev ++ a) = (k + length a)%nat) as Hka by (rewrite length_app, Hk; done).
  rewrite take_app_length' by done. rewrite length_app, <-(app_assoc a b), (app_assoc (take k dev) a). do 2 f_equal.
  rewrite drop_app, Hka, drop_ge by lia. cbn [app]. rewrite drop_app, drop_ge by lia. cbn [app]. rewrite drop_drop. f_equal. lia.
Qed.

Lemma overwrite_step dev k b bs : (k + S (length bs) <= length dev)%nat -> overwrite (<[k := b]> dev) (S k) bs = overwrite dev k (b :: bs).
Proof.
  intros H. rewrite overwrite_one by lia. destruct bs as [|b' bs].
  - by rewrite overwrite_nil.
  - replace (S k) with (k + length [b])%nat by (cbn; lia). rewrite <-(app_nil_r [b]) at 1. by rewrite overwrite_app by (cbn in *; lia).
Qed.

(** The contents [c] in [n] sectors, the last one filled up with zeros. *)
Fixpoint blocks (n : nat) (c : list Z) : list (list Z) :=
  match n with O => [] | S n => (take 512 c ++ replicate (512 - length (take 512 c)) 0) :: blocks n (drop 512 c) end.

Lemma blocks_length n c : length (blocks n c) = n.
Proof. revert c. induction n as [|n IH]; intros c; cbn; [done|]. by rewrite IH. Qed.

Lemma blocks_join n : forall c, (length c <= 512 * n)%nat -> take (length c) (mjoin (blocks n c)) = c.
Proof.
  induction n as [|n IH]; intros c Hc; [by destruct c; [|cbn in Hc; lia]|]. cbn [blocks mjoin list_join]. destruct (decide (length c <= 512)%nat) as [Hs|Hs].
  - rewrite (take_ge c) by done. rewrite <-app_assoc. by rewrite take_app_length.
  - rewrite length_take_le by lia. replace (512 - 512)%nat with O by lia. cbn [replicate]. rewrite app_nil_r, take_app, length_take_le by lia. rewrite (take_ge (take 512 c)) by (rewrite length_take; lia).
    replace (length c - 512)%nat with (length (drop 512 c)) by (rewrite length_drop; lia). rewrite IH by (rewrite length_drop; lia). apply take_drop.
Qed.

(** A file of contents [c] is open as [f] at [p]. *)
Definition reading F f (c : list Z) (p : Z) s : Prop := holds F s /\ exists n, view s f = Some (n, c, p).

Lemma wp_read_chunk F f c p size s (Q : list Z -> fs -> Prop) : reading F f c p s ->
  (forall s', let out := take (Z.to_nat size) (drop (Z.to_nat p) c) in reading F f c (p + Z.of_nat (length out)) s' -> Q out s') -> wp (file_read mallocs f size) s Q.
Proof.
  intros [[(A & m & Hinv & HF) Hc] [n Hv]] HQ. eapply (wp_file_read mallocs Hmalloc A m); [done|done|done|]. intros s' out (A' & Hinv' & HF') Hc' _ Hv' _.
  apply HQ. split; [|by exists n]. split; [|done]. exists A', m. split; [done|congruence].
Qed.

Lemma wp_append_write u dev b (Q : unit -> util -> Prop) : scratch u = Some dev -> 0 <= append_sector u < Z.of_nat (length dev) -> Z.of_nat (length dev) < 2 ^ 32 ->
  Q tt (mk_util (u_fs u) (Some (<[Z.to_nat (append_sector u) := b]> dev)) (extract_sector u) (append_sector u + 1) (said u)) -> wp (append_write b) u Q.
Proof.
  intros Eu Hk Hl HQ. unfold append_write. apply wp_bind, wp_get, wp_bind, wp_put. destruct (lookup_lt_is_Some_2 dev (Z.to_nat (append_sector u))) as [b' Hb']; [lia|].
  eapply wp_scratch_write; [done|exact Hb'|]. cbn [u_fs extract_sector append_sector said]. unfold u32. by rewrite Z.mod_small by lia.
Qed.

Lemma wp_copy_out F f c : forall size fuel dev p u (Q : unit -> util -> Prop), (Z.to_nat size < fuel)%nat -> 0 <= p -> size = Z.of_nat (length c) - p -> 0 <= size ->
  scratch u = Some dev -> 0 <= append_sector u -> append_sector u + Z.of_nat (sectors (Z.to_nat size)) <= Z.of_nat (length dev) -> Z.of_nat (length dev) < 2 ^ 32 -> reading F f c p (u_fs u) ->
  (forall s', reading F f c (Z.of_nat (length c)) s' -> let new := blocks (sectors (Z.to_nat size)) (drop (Z.to_nat p) c) in
     Q tt (mk_util s' (Some (overwrite dev (Z.to_nat (append_sector u)) new)) (extract_sector u) (append_sector u + Z.of_nat (length new)) (said u))) ->
  wp (loop fuel (fun size =>
    if 0 <? size then
      let chunk_size := if BLOCK_SECTOR_SIZE <? size then BLOCK_SECTOR_SIZE else size in
      u ← mget;
      dst ← get_scratch;
      if Z.of_nat (length dst) <=? append_sector u then mfail Panic
      else
        bs ← on_fs (file_read mallocs f chunk_size);
        if negb (Z.of_nat (length bs) =? chunk_size) then mfail Panic
        else
          append_write (bs ++ replicate (Z.to_nat (BLOCK_SECTOR_SIZE - chunk_size)) 0);;
          mret (inl (size - chunk_size))
    else mret (inr tt)) size) u Q.
Proof.
  intros size fuel. revert size. induction fuel as [|fuel IH]; intros size dev p u Q Hf Hp Es H0 Eu Hk Hroom Hl Hr HQ; [lia|]. apply wp_loop_S.
  destruct (Z.ltb_spec 0 size) as [Hpos|Hz].
  - rewrite sectors_S in Hroom by lia. cbv zeta. set (chunk := if BLOCK_SECTOR_SIZE <? size then BLOCK_SECTOR_SIZE else size).
    assert (chunk = Z.min 512 size) as Ec by (unfold chunk, BLOCK_SECTOR_SIZE; destruct (Z.ltb_spec 512 size); lia). clearbody chunk.
    apply wp_bind, wp_get, wp_bind. unfold get_scratch. apply wp_bind, wp_get. rewrite Eu. apply wp_ret. rewrite (proj2 (Z.leb_gt _ _)) by lia.
    apply wp_bind, wp_on_fs. eapply wp_read_chunk; [exact Hr|]. intros s' out Hr'. assert (Z.of_nat (length out) = chunk) as Ho by (unfold out; rewrite length_take, length_drop; lia).
    rewrite Ho in Hr' |- *. rewrite Z.eqb_refl. cbn [negb]. set (b := out ++ replicate (Z.to_nat (BLOCK_SECTOR_SIZE - chunk)) 0).
    apply wp_bind. eapply wp_append_write; [done|cbn; lia|done|]. apply wp_ret. cbn [u_fs with_fs extract_sector append_sector said].
    eapply (IH _ (<[Z.to_nat (append_sector u) := b]> dev) (p + chunk)); [lia|lia|lia|lia|done|cbn; lia| | |done|]; rewrite ?length_insert; cbn [append_sector]; [|done|].
    { replace (Z.to_nat (size - chunk)) with (Z.to_nat size - 512)%nat by lia. lia. }
    intros s2 Hr2. set (new := blocks (sectors (Z.to_nat (size - chunk))) _). cbn [extract_sector append_sector said u_fs]. specialize (HQ s2 Hr2). cbv zeta in HQ. rewrite sectors_S in HQ by lia. cbn [blocks] in HQ.
    assert (take 512 (drop (Z.to_nat p) c) = out) as Eout.
    { unfold out. destruct (decide (512 <= size)); [f_equal; lia|]. rewrite !take_ge by (rewrite length_drop; lia). done. }
    replace (blocks (sectors (Z.to_nat size - 512)) (drop 512 (drop (Z.to_nat p) c))) with new in HQ.
    2:{ unfold new. replace (Z.to_nat (size - chunk)) with (Z.to_nat size - 512)%nat by lia. destruct (decide (512 <= size)); [rewrite drop_drop; do 2 f_equal; lia|].
        replace (Z.to_nat size - 512)%nat with O by lia. done. }
    rewrite Eout in HQ. replace (512 - length out)%nat with (Z.to_nat (BLOCK_SECTOR_SIZE - chunk)) in HQ by (unfold BLOCK_SECTOR_SIZE; lia). fold b in HQ.
    assert (length new = sectors (Z.to_nat size - 512)) as Hln by (unfold new; rewrite blocks_length; f_equal; lia).
    replace (Z.to_nat (append_sector u + 1)) with (S (Z.to_nat (append_sector u))) by lia. rewrite overwrite_step by (rewrite Hln; lia).
    replace (append_sector u + 1 + Z.of_nat (length new)) with (append_sector u + Z.of_nat (length (b :: new))) by (cbn; lia). exact HQ.
  - assert (size = 0) as E0 by lia. rewrite E0 in HQ. apply wp_ret. specialize (HQ (u_fs u)). cbn [Z.to_nat] in HQ. change (sectors 0) with O in HQ. cbn [blocks length] in HQ. cbv zeta in HQ. change (Z.of_nat 0) with 0 in HQ.
    rewrite overwrite_nil, Z.add_0_r, <-Eu in HQ. destruct u. apply HQ. by replace (Z.of_nat (length c)) with p by lia.
Qed.

(** The sectors of one file of an archive, and what is written after them. *)
Definition packed_file (nm c : list Z) : list (list Z) := make_header (strip nm) USTAR_REGULAR (Z.of_nat (length c)) :: blocks (sectors (length c)) c.
Definition marker (beyond : Z) : list Z := drop 1 zero_sector ++ [beyond].

Lemma wp_open_reading F nm c s (Q : Z -> fs -> Prop) : holds F s -> name_ok nm -> F !! nm = Some c ->
  (forall f s', 0 < f -> reading F f c 0 s' -> Q f s') -> wp (filesys_open mallocs nm) s Q.
Proof.
  intros [(A & m & Hinv & HF) Hc] Hnm HFn HQ. eapply (wp_open_view mallocs Hmalloc A m); [done|done|done| |]; rewrite HF.
  - congruence.
  - intros f n bs s' Hf _ Hbs (A' & Hinv' & HF') Hc' _ Hv _ _. rewrite HFn in Hbs. injection Hbs as <-. apply HQ; [done|]. split; [|by exists n]. split; [|done]. exists A', m. done.
Qed.

Lemma wp_length_reading F f c p s (Q : Z -> fs -> Prop) : 0 < f -> reading F f c p s -> (Z.of_nat (length c) < 2 ^ 31 -> Q (Z.of_nat (length c)) s) -> wp (file_length f) s Q.
Proof.
  intros Hf [[(A & m & Hinv & HF) Hc] [n Hv]] HQ. destruct (view_handle _ _ _ _ _ Hv) as (x & ino & Hh & _ & Eb & _). eapply wp_file_length; [done|done|].
  pose proof (dv_wf _ _ (ly_device _ _ (fi_layout _ _ _ Hinv))) as Hwf. pose proof (fw_inode _ Hwf _ _ (hn_inode _ _ _ _ Hh)) as Hd.
  rewrite <-(length_bytes_of _ _ Hwf Hd), Eb in *. pose proof (dk_len _ _ Hd). rewrite <-(length_bytes_of _ _ Hwf Hd), Eb in *. apply HQ. lia.
Qed.

Lemma wp_close_reading F f c p s (Q : unit -> fs -> Prop) : reading F f c p s -> (forall s', holds F s' -> Q tt s') -> wp (file_close mallocs f) s Q.
Proof.
  intros [[(A & m & Hinv & HF) Hc] [n Hv]] HQ. destruct (view_handle _ _ _ _ _ Hv) as (x & ino & Hh & _). eapply (wp_file_close mallocs Hmalloc A m); [done|done|exact Hh|].
  intros s' (A' & Hinv' & HF') Hc' _ _. apply HQ. split; [|done]. exists A', m. split; [done|congruence].
Qed.

Lemma wp_fsutil_append F nm c beyond dev u (Q : unit -> util -> Prop) :
  holds F (u_fs u) -> name_ok nm -> F !! nm = Some c -> (length (strip nm) <= 99)%nat -> scratch u = Some dev -> 0 <= append_sector u -> Z.of_nat (length dev) < 2 ^ 32 ->
  append_sector u + 2 + Z.of_nat (sectors (length c)) <= Z.of_nat (length dev) ->
  (forall s', holds F s' -> Z.of_nat (length c) < 2 ^ 31 ->
     Q tt (mk_util s' (Some (overwrite dev (Z.to_nat (append_sector u)) (packed_file nm c ++ [marker beyond]))) (extract_sector u) (append_sector u + Z.of_nat (length (packed_file nm c))) (said u))) ->
  wp (fsutil_append mallocs beyond nm) u Q.
Proof.
  intros HF Hnm Hc Hs Eu Hk Hl Hroom HQ. unfold fsutil_append. apply wp_bind, (wp_buffer F); [done|]. intros b s1 Hb HF1. rewrite (proj2 (Z.eqb_neq _ NULL)) by (unfold NULL; lia).
  apply wp_bind, wp_on_fs. eapply wp_open_reading; [exact HF1|done|exact Hc|]. intros f s2 Hf Hr. rewrite (proj2 (Z.eqb_neq _ NULL)) by (unfold NULL; lia).
  apply wp_bind, wp_on_fs. eapply wp_length_reading; [done|exact Hr|]. intros Hlc. apply wp_bind. unfold get_scratch at 1. apply wp_bind, wp_get. cbn [scratch with_fs]. rewrite Eu. apply wp_ret.
  rewrite (proj2 (Nat.ltb_ge 99 (length (strip nm)))) by lia. set (k := Z.to_nat (append_sector u)). set (hd := make_header _ _ _). apply wp_bind. eapply wp_append_write; [done|cbn; lia|done|]. cbn [u_fs with_fs extract_sector append_sector said].
  fold k. apply wp_bind. unfold copy_out. eapply (wp_copy_out F f c (Z.of_nat (length c)) _ (<[k := hd]> dev) 0); [lia|lia|lia|lia|done|cbn; lia|cbn [append_sector]; rewrite length_insert, Nat2Z.id; lia|by rewrite length_insert|exact Hr|].
  intros s3 Hr3. rewrite Nat2Z.id. change (drop (Z.to_nat 0) c) with c. cbn [extract_sector append_sector said u_fs]. set (new := blocks (sectors (length c)) c).
  assert (length new = sectors (length c)) as Hln by apply blocks_length. replace (Z.to_nat (append_sector u + 1)) with (S k) by lia. rewrite overwrite_step by lia. change (hd :: new) with (packed_file nm c). set (P := packed_file nm c) in *.
  assert (length P = S (length new)) as HlP by done. set (dev1 := overwrite dev k P). assert (length dev1 = length dev) as Hl1 by (apply overwrite_length; lia).
  assert (Z.to_nat (append_sector u + 1 + Z.of_nat (length new)) = k + length P)%nat as Ek by lia.
  assert (k + length P < length dev1)%nat as Hlt by lia. destruct (lookup_lt_is_Some_2 dev1 _ Hlt) as [b0 Hb0].
  apply wp_bind, wp_get. cbn [append_sector]. apply wp_bind. eapply wp_scratch_write; [done|by rewrite Ek|]. apply wp_bind. eapply wp_scratch_write; [done|rewrite Ek; apply list_lookup_insert_eq; lia|].
  cbn [u_fs extract_sector append_sector said]. rewrite Ek, list_insert_insert_eq. apply wp_on_fs. eapply wp_close_reading; [exact Hr3|]. intros s4 HF4. specialize (HQ s4 HF4 Hlc).
  replace (append_sector u + 1 + Z.of_nat (length new)) with (append_sector u + Z.of_nat (length P)) by lia.
  change (drop 1 zero_sector ++ [beyond]) with (marker beyond).
  assert (<[(k + length P)%nat := marker beyond]> dev1 = overwrite dev k (P ++ [marker beyond])) as ->; [|exact HQ].
  unfold dev1. rewrite overwrite_one by (fold dev1; lia). rewrite <-(overwrite_app dev k P [] [marker beyond]) by (cbn [length]; lia). by rewrite app_nil_r.
Qed.

(** ** Appending several files *)

Fixpoint append_files (beyond : Z) (nms : list (list Z)) : M util unit :=
  match nms with [] => mret tt | nm :: nms => fsutil_append mallocs beyond nm;; append_files beyond nms end.

Definition packed (fs : list (list Z * list Z)) : list (list Z) := mjoin ((fun f => packed_file f.1 f.2) <$> fs).
Definition entries (fs : list (list Z * list Z)) : list entry := (fun f => Regular (strip f.1) f.2) <$> fs.

(** The files [fs] are in [F], with names that fit a header. *)
Definition files_in F (fs : list (list Z * list Z)) : Prop := Forall (fun f => F !! f.1 = Some f.2 /\ name_ok f.1 /\ (length (strip f.1) <= 99)%nat /\ Forall byte f.2) fs.

Lemma packed_cons f fs : packed (f :: fs) = packed_file f.1 f.2 ++ packed fs.
Proof. done. Qed.
Lemma packed_file_length nm c : length (packed_file nm c) = S (sectors (length c)).
Proof. unfold packed_file. cbn [length]. by rewrite blocks_length. Qed.

Lemma wp_append_files F beyond fs : fs ≠ [] -> forall dev u (Q : unit -> util -> Prop),
  files_in F fs -> holds F (u_fs u) -> scratch u = Some dev -> 0 <= append_sector u -> Z.of_nat (length dev) < 2 ^ 32 -> append_sector u + Z.of_nat (length (packed fs)) < Z.of_nat (length dev) ->
  (forall s', holds F s' -> Forall (fun f => Z.of_nat (length f.2) < 2 ^ 31) fs ->
     Q tt (mk_util s' (Some (overwrite dev (Z.to_nat (append_sector u)) (packed fs ++ [marker beyond]))) (extract_sector u) (append_sector u + Z.of_nat (length (packed fs))) (said u))) ->
  wp (append_files beyond (fst <$> fs)) u Q.
Proof.
  induction fs as [|[nm c] fs IH]; [done|]. intros _ dev u Q Hin HF Eu Hk Hl Hroom HQ. apply Forall_cons in Hin as [(Hc & Hnm & Hs & Hby) Hin']. cbn [fst snd] in *.
  rewrite packed_cons in *. cbn [fst snd] in *. rewrite length_app, packed_file_length in *. cbn [fmap list_fmap append_files fst]. apply wp_bind.
  eapply (wp_fsutil_append F nm c beyond dev); [done|done|done|done|done|done|done|lia|]. intros s1 HF1 Hlc. rewrite packed_file_length. set (P := packed_file nm c) in *.
  assert (length P = S (sectors (length c))) as HP by apply packed_file_length. destruct fs as [|f fs].
  - apply wp_ret. specialize (HQ s1 HF1). cbn [packed fmap list_fmap mjoin list_join length] in HQ. rewrite app_nil_r in HQ. rewrite Nat.add_0_r in HQ. apply HQ. by apply Forall_singleton.
  - eapply IH; [done|done|done|done|cbn; lia| | |]; cbn [append_sector]; rewrite ?overwrite_length by (rewrite length_app; cbn [length]; lia); [done|lia|].
    intros s2 HF2 Hl2. cbn [extract_sector append_sector said]. specialize (HQ s2 HF2). set (R := packed (f :: fs)) in *.
    assert (0 < length R)%nat as HR by (unfold R; rewrite packed_cons, length_app, packed_file_length; lia).
    replace (Z.to_nat (append_sector u + Z.of_nat (S (sectors (length c))))) with (Z.to_nat (append_sector u) + length P)%nat by lia.
    rewrite overwrite_app by (rewrite length_app; cbn [length]; lia). rewrite app_assoc. rewrite <-Z.add_assoc, <-Nat2Z.inj_add. apply HQ. by constructor.
Qed.

Lemma packed_archive ended b rest fs : (if ended : bool then parse_header b = inr (None, USTAR_EOF, 0) else exists error, parse_header b = inl error) ->
  Forall (fun f => name_ok f.1 /\ (length (strip f.1) <= 99)%nat) fs -> Forall (fun f => Z.of_nat (length f.2) < 2 ^ 31) fs -> archive_at ended (packed fs ++ b :: rest) (entries fs).
Proof.
  intros Hb Hn Hl. induction fs as [|[nm c] fs IH]; [by exists b, rest|]. apply Forall_cons in Hn as [[Hnm Hs] Hn']. apply Forall_cons in Hl as [Hlc Hl']. cbn [fst snd] in *.
  cbn [entries fmap list_fmap fst snd]. fold (entries fs). rewrite packed_cons. unfold packed_file. cbn [fst snd archive_at app].
  eexists _, (blocks (sectors (length c)) c), (packed fs ++ b :: rest). split; [by rewrite app_assoc|]. split_and!; [|apply blocks_length|symmetry; apply blocks_join, sectors_bound|by apply IH].
  assert (Forall (fun x => byte x /\ x ≠ 0) (strip nm)) as Hb' by (eapply Forall_impl; [by apply strip_names|]; unfold byte; cbn; intros; lia).
  rewrite parse_made by (done || lia || by left). by rewrite strip_idem.
Qed.

Lemma packed_sectors fs : Forall (fun f => name_ok f.1 /\ (length (strip f.1) <= 99)%nat) fs -> Forall (fun f => Forall byte f.2) fs -> Forall (fun b => length b = 512%nat /\ Forall byte b) (packed fs).
Proof.
  intros Hn Hb. induction fs as [|[nm c] fs IH]; [constructor|]. apply Forall_cons in Hn as [[Hnm Hs] Hn']. apply Forall_cons in Hb as [Hc Hb']. cbn [fst snd] in *. rewrite packed_cons. apply Forall_app. split; [|by apply IH].
  assert (Forall byte (strip nm)) as Hb2 by (eapply Forall_impl; [by apply strip_names|]; unfold byte; cbn; intros; lia). constructor; cbn [fst snd].
  - split; [unfold make_header; rewrite <-fields_header; apply shape_length, fields_shape; [lia|by rewrite length_app, octal_length]|]. apply header_bytes; [done|done|].
    apply Forall_app. split; [|by apply Forall_singleton]. eapply Forall_impl; [apply octal_bytes|]. unfold byte. cbn. lia.
  - generalize (sectors (length c)). intros n. clear IH. revert c Hc. induction n as [|n IH]; intros c Hc; cbn [blocks]; constructor; [|by apply IH, Forall_drop].
    split; [rewrite length_app, length_replicate, length_take; lia|]. apply Forall_app. split; [by apply Forall_take|by apply Forall_replicate].
Qed.

Lemma marker_parse beyond : if beyond =? 0 then parse_header (marker beyond) = inr (None, USTAR_EOF, 0) else exists error, parse_header (marker beyond) = inl error.
Proof.
  destruct (Z.eqb_spec beyond 0) as [->|Hb]; [vm_compute; done|]. exists "not a ustar archive"%string. unfold parse_header. rewrite bool_decide_false.
  - assert (sub 257 6 (marker beyond) = replicate 6 0) as -> by (vm_compute; reflexivity). done.
  - unfold marker. rewrite Forall_app. intros [_ H]. apply Forall_cons in H as [H _]. by apply Hb.
Qed.

(** Appending leaves an archive on the device. *)
Lemma wp_append_archive F beyond fs dev u (Q : unit -> util -> Prop) : fs ≠ [] -> files_in F fs -> holds F (u_fs u) -> scratch u = Some dev -> 0 <= append_sector u -> Z.of_nat (length dev) < 2 ^ 32 ->
  append_sector u + Z.of_nat (length (packed fs)) < Z.of_nat (length dev) -> Forall (fun b => length b = 512%nat /\ Forall byte b) dev -> byte beyond ->
  (forall u' dev', holds F (u_fs u') -> scratch u' = Some dev' -> length dev' = length dev -> Forall (fun b => length b = 512%nat /\ Forall byte b) dev' ->
     archive_at (beyond =? 0) (drop (Z.to_nat (append_sector u)) dev') (entries fs) -> Q tt u') ->
  wp (append_files beyond (fst <$> fs)) u Q.
Proof.
  intros Hne Hin HF Eu Hk Hl Hroom Hall Hby HQ. assert (Forall (fun f => name_ok f.1 /\ (length (strip f.1) <= 99)%nat) fs) as Hn by (eapply Forall_impl; [exact Hin|]; by intros f (_ & ? & ? & _)).
  assert (Forall (fun f => Forall byte f.2) fs) as Hb by (eapply Forall_impl; [exact Hin|]; by intros f (_ & _ & _ & ?)).
  eapply (wp_append_files F beyond fs Hne dev); [done..|]. intros s' HF' Hlen. set (dev' := overwrite _ _ _). eapply (HQ _ dev'); [done|done| | |].
  - apply overwrite_length. rewrite length_app. cbn [length]. lia.
  - unfold dev', overwrite. apply Forall_app. split; [by apply Forall_take|]. apply Forall_app. split; [|by apply Forall_drop]. apply Forall_app. split; [by apply packed_sectors|].
    apply Forall_singleton. split; [done|]. unfold marker. apply Forall_app. split; [by apply Forall_drop, Forall_replicate|by apply Forall_singleton].
  - unfold dev', overwrite. rewrite drop_app_length' by (rewrite length_take; lia). rewrite <-app_assoc. cbn [app]. apply packed_archive; [apply marker_parse|done|done].
Qed.

(** ** Listing *)

(** The root directory, open as [d], is read up to entry [k]. *)
Definition at_slot s (d i : Z) (k : nat) (s1 : fs) : fs := set_dirs (<[d := mk_dir i (20 * Z.of_nat k)]> (dirs s)) s1.

Lemma disk_ok_same s s' e : disk_ok s e -> disk s' = disk s -> disk_ok s' e.
Proof. intros [H1 H2 H3] E. split; rewrite ?E; done. Qed.

Lemma wf_same s s' : fs_wf s -> disk s' = disk s -> inodes s' = inodes s -> next_addr s' = next_addr s -> fs_wf s'.
Proof. intros [H1 H2 H3 H4] Ed Ei En. split; rewrite ?Ed, ?Ei, ?En; [done| |done|done]. intros j o Hj. eapply disk_ok_same; [by eapply H2|done]. Qed.

Lemma wp_readdir A s s1 d i dr k (Q : option (list Z) -> fs -> Prop) :
  root_open s s1 d i dr -> layout A s1 -> A !! ROOT_DIR_SECTOR = Some dr -> dir_wf (bytes_of s1 dr) -> (k <= nslots (bytes_of s1 dr))%nat ->
  (forall s2, layout A s2 -> root_open s s2 d i dr -> Layout.kept [] A s1 s2 -> let ne := next_entry (bytes_of s1 dr) k in Q ne.1 (at_slot s d i ne.2 s2)) ->
  wp (dir_readdir mallocs d) (at_slot s d i k s1) Q.
Proof.
  intros Hro Hly Hdr Hwf Hk HQ. set (bs := bytes_of s1 dr) in *. destruct (root_holds _ _ _ _ _ _ Hro Hly) as (W & ino & Hi & Hd & Eb). unfold dir_readdir.
  apply wp_bind, wp_bind, wp_get. cbn [dirs at_slot set_dirs]. rewrite lookup_insert_eq. apply wp_ret. apply wp_bind. cbn [d_inode d_pos].
  eapply (@wp_readdir_in fs (inode_io mallocs) (inode_laws mallocs Hmalloc) i bs); [|done|done|].
  { split; [by eapply wf_same|]. by exists ino. }
  intros s' (W' & ino' & Hi' & Hd' & Eb') (ino0 & Hi0 & Hw). cbn [inodes at_slot set_dirs] in Hi0. rewrite Hi in Hi0. injection Hi0 as <-.
  destruct Hw as [(dk & a & c & -> & Ha) Hw2 Hw3 Hw4 Hw5]. set (s2 := set_heap a c (set_disk dk s1)). cbn in Hi'. rewrite Hi in Hi'. injection Hi' as <-.
  assert (inode_frame i s1 s2) as Hfr by (exists ino; split; [done|]; split; [by exists dk, a, c|exact Hw2|exact Hw3|exact Hw4|done]).
  assert (inode_holds i bs s2) as Hho by (split; [by eapply wf_same|exists ino; by split_and!]).
  destruct (root_step _ _ _ _ _ _ _ _ Hro Hly Hho Hfr) as (Hly2 & Hh2 & Hk2 & Hb2 & _).
  apply wp_bind, wp_bind, wp_get, wp_put, wp_ret. cbn [dirs set_heap set_disk at_slot set_dirs]. rewrite insert_insert_eq.
  apply (HQ s2); [done|by eapply ro_same|by eapply kept_root].
Qed.

(** The names from slot [k] on. *)
Definition names_from (bs : list Z) (k : nat) : list (list Z) := cname <$> filter used (drop k (slots bs)).

Lemma names_next bs k : (k <= nslots bs)%nat ->
  let ne := next_entry bs k in (ne.2 <= nslots bs)%nat /\ match ne.1 with Some nm => names_from bs k = nm :: names_from bs ne.2 /\ (k < ne.2)%nat | None => names_from bs k = [] end.
Proof.
  intros Hk. unfold next_entry. destruct (list_find used (drop k (slots bs))) as [[j e]|] eqn:E; cbn [fst snd].
  - apply list_find_Some in E as (Hj & Hu & Hbefore). rewrite lookup_drop in Hj. pose proof Hj as [Hlt _]%slots_lookup. split; [lia|]. split; [|lia]. unfold names_from.
    rewrite <-(take_drop j (drop k (slots bs))), filter_app. assert (filter used (take j (drop k (slots bs))) = []) as ->.
    { apply filter_none. intros x (n & Hn)%list_elem_of_lookup_1. apply lookup_take_Some in Hn as [Hn Hnj]. by eapply Hbefore. }
    rewrite drop_drop, (drop_S _ e (k + j)) by done. cbn [app]. by rewrite filter_cons_True.
  - split; [lia|]. apply list_find_None in E. unfold names_from. rewrite filter_none; [done|]. by apply Forall_forall.
Qed.

Lemma wp_ls_loop A s d i dr bs : A !! ROOT_DIR_SECTOR = Some dr -> dir_wf bs -> forall fuel k u s1 (Q : unit -> util -> Prop),
  (nslots bs - k < fuel)%nat -> (k <= nslots bs)%nat -> root_open s s1 d i dr -> layout A s1 -> Layout.kept [] A s s1 -> bytes_of s1 dr = bs -> u_fs u = at_slot s d i k s1 ->
  (forall s2 k2, root_open s s2 d i dr -> layout A s2 -> Layout.kept [] A s s2 -> Q tt (mk_util (at_slot s d i k2 s2) (scratch u) (extract_sector u) (append_sector u) (said u ++ (Name <$> names_from bs k)))) ->
  wp (loop fuel (fun _ => name ← on_fs (dir_readdir mallocs d); match name with Some nm => say (Name nm);; mret (inl tt) | None => mret (inr tt) end) tt) u Q.
Proof.
  intros Hdr Hwf. induction fuel as [|fuel IH]; intros k u s1 Q Hf Hk Hro Hly Hkept Hb Eu HQ; [lia|]. apply wp_loop_S, wp_bind, wp_on_fs. rewrite Eu.
  eapply wp_readdir; [done|done|done|by rewrite Hb|by rewrite Hb|]. rewrite Hb. intros s2 Hly2 Hro2 Hk2. destruct (names_next bs k Hk) as [Hle Hn]. set (ne := next_entry bs k) in *. cbv zeta.
  assert (Layout.kept [] A s s2) as Hk02 by (by eapply kept_trans). destruct ne as [[nm|] k']; cbn [fst snd] in *.
  - destruct Hn as [En Hlt]. apply wp_bind. unfold say. apply wp_bind, wp_get, wp_put, wp_ret. eapply (IH k' _ s2); [lia|done|done|done|done| |done|].
    + rewrite <-Hb. apply (Hk2 ROOT_DIR_SECTOR); [done|set_solver].
    + intros s3 k3 H1 H2 H3. cbn [scratch extract_sector append_sector said with_fs]. rewrite <-app_assoc. cbn [app]. specialize (HQ s3 k3 H1 H2 H3). by rewrite En in HQ.
  - apply wp_ret. specialize (HQ s2 k' Hro2 Hly2 Hk02). rewrite Hn in HQ. cbn [fmap list_fmap] in HQ. by rewrite app_nil_r in HQ.
Qed.

Lemma names_map bs nm : nm ∈ names_from bs 0 <-> is_Some (dir_map bs !! nm).
Proof.
  unfold names_from, dir_map. change (drop 0 (slots bs)) with (slots bs). rewrite <-not_eq_None_Some, <-not_elem_of_list_to_map. unfold bindings. rewrite <-list_fmap_compose. cbn.
  split; [intros H Hn; by apply Hn|]. intros H. destruct (decide (nm ∈ cname <$> filter used (slots bs))); [done|]. by destruct H.
Qed.

Lemma wp_fsutil_ls F u : holds F (u_fs u) ->
  wp (fsutil_ls mallocs) u (fun _ u' => holds F (u_fs u') /\ scratch u' = scratch u /\ exists nms, said u' = said u ++ (Name <$> nms) /\ NoDup nms /\ forall nm, nm ∈ nms <-> is_Some (F !! nm)).
Proof.
  intros [(A & m & Hinv & HF) Hc]. unfold fsutil_ls. apply wp_bind, wp_on_fs. eapply (wp_dir_open_root mallocs Hmalloc); [done|]. intros d i dr s1 Hdr Hro Hly1 Hd1 Hf1. destruct (ro_pos _ _ _ _ _ Hro) as [_ Hd].
  rewrite (proj2 (Z.eqb_neq d NULL)) by (unfold NULL; lia). apply wp_bind, wp_get. destruct (fi_root_map _ _ _ _ Hinv Hdr) as [Hwf Hm]. set (s := u_fs u) in *. set (bs := bytes_of s dr) in *.
  assert (bytes_of s1 dr = bs) as Hb1 by (apply bytes_of_disk; by rewrite Hd1). destruct (ro_lookup _ _ _ _ _ Hro) as (ino & Hi & Hsec & Hdat & _).
  assert (dir_slots s1 d = nslots bs) as Hfuel.
  { unfold dir_slots. rewrite (ro_dirs _ _ _ _ _ Hro), lookup_insert_eq. cbn [d_inode]. rewrite Hi, Hdat, <-Hb1. pose proof (dv_wf _ _ (ly_device _ _ Hly1)) as W. pose proof (fw_inode _ W _ _ Hi) as Hok. rewrite Hdat in Hok.
    rewrite <-(length_bytes_of _ _ W Hok). unfold nslots. rewrite <-(Nat2Z.inj_div _ 20). by rewrite Nat2Z.id. }
  cbn [u_fs with_fs]. rewrite Hfuel. apply wp_bind. eapply (wp_ls_loop A s d i dr bs Hdr Hwf _ 0 (with_fs u s1) s1); [lia|lia|done|done|by apply kept_disk|done| |].
  { cbn [u_fs with_fs]. unfold at_slot. change (20 * Z.of_nat 0) with 0. rewrite <-(ro_dirs _ _ _ _ _ Hro). by destruct s1. }
  intros s2 k2 Hro2 Hly2 Hk2. apply wp_on_fs. cbn [u_fs]. eapply (wp_dir_close_at mallocs A); [done|done|]. intros s3 E3 Hly3 Hh3. cbn [u_fs with_fs scratch said].
  assert (fsys_step s m (files_of A m s) s3) as [(A' & Hinv' & HF') _].
  { apply (fsys_same mallocs Hmalloc A m s s3 dr); [done|done|done|done| |].
    - unfold root_map. assert (bytes_of s3 dr = bs) as ->; [|done]. transitivity (bytes_of s2 dr); [by rewrite E3|]. apply (Hk2 _ _ Hdr). set_solver.
    - intros n e Hn _. transitivity (bytes_of s2 e); [by rewrite E3|]. apply (Hk2 n e Hn). set_solver. }
  split_and!; [|done|exists (names_from bs 0); split_and!].
  - split; [|by eapply table_same]. exists A', m. split; [done|congruence].
  - done.
  - unfold names_from. change (drop 0 (slots bs)) with (slots bs). apply Hwf.
  - intros nm. rewrite names_map, Hm, <-HF, <-!not_eq_None_Some. by rewrite (files_of_None _ _ _ _ Hinv).
Qed.

(** ** Printing *)

(** [ds] print [c], from offset [p] on, in pieces of at most a page. *)
Fixpoint dumped (p : Z) (ds : list message) (c : list Z) : Prop :=
  match ds with
  | [] => c = []
  | Dump o bs :: ds => o = p /\ 0 < Z.of_nat (length bs) <= PGSIZE /\ exists c', c = bs ++ c' /\ dumped (p + Z.of_nat (length bs)) ds c'
  | Name _ :: _ => False
  end.

Lemma wp_cat_loop F f c : 0 < f -> forall fuel u p (Q : unit -> util -> Prop), (length c - Z.to_nat p < fuel)%nat -> 0 <= p -> reading F f c p (u_fs u) ->
  (forall s' p' ds, reading F f c p' s' -> dumped p ds (drop (Z.to_nat p) c) -> Q tt (mk_util s' (scratch u) (extract_sector u) (append_sector u) (said u ++ ds))) ->
  wp (loop fuel (fun _ =>
      pos ← on_fs (file_tell f);
      bs ← on_fs (file_read mallocs f PGSIZE);
      if Z.of_nat (length bs) =? 0 then mret (inr tt) else say (Dump pos bs);; mret (inl tt)) tt) u Q.
Proof.
  intros Hf0. induction fuel as [|fuel IH]; intros u p Q Hf Hp Hr HQ; [lia|]. apply wp_loop_S, wp_bind, wp_on_fs. pose proof Hr as [[(A & m & Hinv & HF) Hc] [n Hv]].
  destruct (view_handle _ _ _ _ _ Hv) as (x & ino & Hh & _ & _ & Hpx). unfold file_tell. apply wp_bind, wp_assert; [by apply nonnull_pos|]. apply wp_bind. eapply wp_get_file; [apply Hh|]. apply wp_ret. rewrite Hpx.
  apply wp_bind, wp_on_fs. cbn [u_fs with_fs]. eapply wp_read_chunk; [exact Hr|]. intros s' out Hr'. assert (0 < PGSIZE) as Hpg by done. set (pg := Z.to_nat PGSIZE) in *. destruct (Z.eqb_spec (Z.of_nat (length out)) 0) as [E|E].
  - apply wp_ret. specialize (HQ s' _ [] Hr'). rewrite app_nil_r in HQ. apply HQ. cbn. unfold out in E. rewrite length_take in E. apply length_zero_iff_nil. lia.
  - apply wp_bind. unfold say. apply wp_bind, wp_get, wp_put, wp_ret. assert (length out <= pg)%nat as Hlo by (unfold out; rewrite length_take; lia). assert (length out <= length c - Z.to_nat p)%nat as Hlo2 by (unfold out; rewrite length_take, length_drop; lia).
    eapply (IH _ (p + Z.of_nat (length out))); [lia|lia|exact Hr'|]. intros s2 p2 ds Hr2 Hd. cbn [scratch extract_sector append_sector said with_fs]. rewrite <-app_assoc. eapply HQ; [exact Hr2|]. cbn [app dumped].
    split_and!; [done|lia|lia|]. exists (drop (length out) (drop (Z.to_nat p) c)). split; [|rewrite drop_drop; by replace (Z.to_nat p + length out)%nat with (Z.to_nat (p + Z.of_nat (length out))) by lia].
    unfold out at 1. rewrite <-(take_drop pg (drop (Z.to_nat p) c)) at 1. f_equal. unfold out. rewrite length_take. destruct (decide (pg <= length (drop (Z.to_nat p) c))%nat); [f_equal; lia|]. rewrite !drop_ge by lia. done.
Qed.

Lemma wp_fsutil_cat F u nm c : holds F (u_fs u) -> name_ok nm -> F !! nm = Some c ->
  wp (fsutil_cat mallocs true nm) u (fun _ u' => holds F (u_fs u') /\ exists ds, said u' = said u ++ ds /\ dumped 0 ds c).
Proof.
  intros HF Hnm Hc. unfold fsutil_cat. apply wp_bind, wp_on_fs. eapply wp_open_reading; [exact HF|done|exact Hc|]. intros f s1 Hf Hr. rewrite (proj2 (Z.eqb_neq f NULL)) by (unfold NULL; lia). cbn [negb].
  apply wp_bind, wp_on_fs. eapply wp_length_reading; [done|exact Hr|]. intros Hl. rewrite Nat2Z.id. apply wp_bind. eapply (wp_cat_loop F f c Hf _ _ 0); [lia|lia|exact Hr|].
  intros s2 p2 ds Hr2 Hd. apply wp_on_fs. eapply wp_close_reading; [exact Hr2|]. intros s3 HF3. split; [done|]. by exists ds.
Qed.
End Results.

(** * Claims *)

(** The root directory is listed completely: every name once. *)
Theorem fsutil_ls_correct mallocs F u : (forall n, mallocs n = true) -> holds F (u_fs u) ->
  wp (fsutil_ls mallocs) u (fun _ u' => holds F (u_fs u') /\ scratch u' = scratch u /\ exists nms, said u' = said u ++ (Name <$> nms) /\ NoDup nms /\ forall nm, nm ∈ nms <-> is_Some (F !! nm)).
Proof. intros Hm HF. by apply (wp_fsutil_ls mallocs Hm (fun _ => replicate 20 0)). Qed.

(** All of a file is printed, with the right offsets, in pieces of at most a page. *)
Theorem fsutil_cat_correct mallocs F u nm c : (forall n, mallocs n = true) -> holds F (u_fs u) -> name_ok nm -> F !! nm = Some c ->
  wp (fsutil_cat mallocs true nm) u (fun _ u' => holds F (u_fs u') /\ exists ds, said u' = said u ++ ds /\ dumped 0 ds c).
Proof. intros Hm HF Hnm Hc. by apply (wp_fsutil_cat mallocs Hm). Qed.


(** If the byte of the heap after the buffer of [append] is not zero, it ends up in the last
    byte of the sector that should end the archive: extracting the archive then stops the
    kernel, also when every file of it can be created. *)
Theorem append_bad_end mallocs stack F1 F2 fs dev u1 beyond :
  (forall n, mallocs n = true) -> (forall k, length (stack k) = 20%nat) -> fs ≠ [] -> files_in F1 fs -> holds F1 (u_fs u1) -> scratch u1 = Some dev ->
  Forall (fun b => length b = 512%nat /\ Forall byte b) dev -> 2 <= Z.of_nat (length dev) < 2 ^ 22 -> 0 <= append_sector u1 -> append_sector u1 + Z.of_nat (length (packed fs)) < Z.of_nat (length dev) ->
  0 < beyond < 256 ->
  wp (append_files mallocs beyond (fst <$> fs)) u1 (fun _ u1' =>
    forall u2, holds F2 (u_fs u2) -> scratch u2 = scratch u1' -> extract_sector u2 = append_sector u1 -> fsutil_extract mallocs stack u2 = Err Panic).
Proof.
  intros Hm Hst Hne Hin HF Eu Hall Hl Hk Hroom Hb. eapply (wp_append_archive mallocs Hm F1 beyond fs dev); [done|done|done|done|done|lia|done|done|unfold byte; lia|].
  intros u1' dev' HF' Eu' Hl' Hall' Ha u2 HF2 E1 E2. rewrite (proj2 (Z.eqb_neq beyond 0)) in Ha by lia.
  assert (wpe (fsutil_extract mallocs stack) u2 (fun _ _ => False) (fun e => e = Panic)) as W.
  - eapply wpe_mono; [eapply (wpe_fsutil_extract mallocs Hm stack Hst false dev' (entries fs) F2 u2 (fun _ _ => False))| |]; [lia|lia|done|by rewrite E1|lia|done|by rewrite E2|done|done|]. by intros e [-> _].
  - unfold wpe in W. destruct (fsutil_extract mallocs stack u2) as [[? ?]|e]; [done|]. by rewrite W.
Qed.

(** ** Witnesses *)

Definition demo_scratch : list (list Z) := replicate 5 zero_sector.
Definition demo_util : util := mk_util demo_created (Some demo_scratch) 0 0 [].
Definition demo_archive : list (list Z * list Z) := [(demo_name, replicate 600 0)].

Lemma demo_util_ok : holds demo_files (u_fs demo_util).
Proof. split; [exact demo_created_fsys|exact demo_table_ok]. Qed.

Lemma demo_files_in : files_in demo_files demo_archive.
Proof. apply Forall_singleton. split_and!; [done|exact demo_name_ok|vm_compute; lia|by apply Forall_replicate]. Qed.

Lemma demo_scratch_ok : Forall (fun b => length b = 512%nat /\ Forall byte b) demo_scratch.
Proof. apply Forall_replicate. split; [done|by apply Forall_replicate]. Qed.


Lemma append_bad_end_witness : wp (append_files plenty 7 (fst <$> demo_archive)) demo_util (fun _ u1' =>
  forall u2, holds ∅ (u_fs u2) -> scratch u2 = scratch u1' -> extract_sector u2 = 0 -> fsutil_extract plenty (fun _ => replicate 20 0) u2 = Err Panic).
Proof.
  apply (append_bad_end plenty (fun _ => replicate 20 0) demo_files ∅ demo_archive demo_scratch demo_util 7);
    [done|done|done|exact demo_files_in|exact demo_util_ok|done|exact demo_scratch_ok|done|done|vm_compute; reflexivity|lia].
Defined.

Lemma fsutil_ls_correct_witness : wp (fsutil_ls plenty) demo_util (fun _ u' => exists nms, said u' = (Name <$> nms) /\ NoDup nms /\ forall nm, nm ∈ nms <-> is_Some (demo_files !! nm)).
Proof. eapply wp_mono; [apply (fsutil_ls_correct plenty demo_files demo_util); [done|exact demo_util_ok]|]. intros [] u' (_ & _ & H). exact H. Defined.

Lemma fsutil_cat_correct_witness : wp (fsutil_cat plenty true demo_name) demo_util (fun _ u' => exists ds, said u' = ds /\ dumped 0 ds (replicate 600 0)).
Proof. eapply wp_mono; [apply (fsutil_cat_correct plenty demo_files demo_util demo_name); [done|exact demo_util_ok|exact demo_name_ok|done]|]. intros [] u' (_ & H). exact H. Defined.
