(* ===== verification/Block.v ===== *)
(** src/devices/block.c and src/devices/partition.c: block devices and their partitions.

    A disk is a list of sectors behind a driver (devices/ide.c); a partition is a range of the
    sectors of another block device.  The registered devices are kept by address, in the order
    of the list [all_blocks].  Every partition that a scan registers lies within its device, and
    reads and writes through it stay there; a table with an extended partition is scanned for
    ever, because the same sector is read at every level. *)
From Stdlib Require Import String Ascii.
From stdpp Require Import base list numbers gmap fin_maps.
From Stdlib Require Import ZArith Lia.
From S2P Require Import Prelude Strings CStdlib Stdio.

Open Scope Z_scope.

(** * State *)

Inductive block_type : Set := BLOCK_KERNEL | BLOCK_FILESYS | BLOCK_SCRATCH | BLOCK_SWAP | BLOCK_RAW | BLOCK_FOREIGN.
#[global] Instance block_type_eq_dec : EqDecision block_type.
Proof. solve_decision. Defined.

Definition block_type_no (t : block_type) : nat :=
  match t with BLOCK_KERNEL => 0 | BLOCK_FILESYS => 1 | BLOCK_SCRATCH => 2 | BLOCK_SWAP => 3 | BLOCK_RAW => 4 | BLOCK_FOREIGN => 5 end.
Definition BLOCK_ROLE_CNT : nat := 4.

(** The operations of a device with their auxiliary data: a disk of the driver, or a partition
    that starts at a sector of another device. *)
Inductive driver : Set := Disk (d : Z) | Partition (under start : Z).

Record block : Type := mk_block { b_name : list Z; b_type : block_type; b_size : Z; b_ops : driver; read_cnt : Z; write_cnt : Z }.

Record devs : Type := mk_devs {
  all_blocks : list Z;
  block_at : gmap Z block;
  block_by_role : list Z;
  disks : gmap Z (list (list Z));
  next_block : Z;
  tries : nat;
  announced : list (list Z * option (list Z))
}.

Definition set_block_at m s := mk_devs (all_blocks s) m (block_by_role s) (disks s) (next_block s) (tries s) (announced s).
Definition set_disks d s := mk_devs (all_blocks s) (block_at s) (block_by_role s) d (next_block s) (tries s) (announced s).

Definition modify_devs (f : devs -> devs) : M devs unit := s ← mget; mput (f s).
Definition get_block (b : Z) : M devs block := s ← mget; match block_at s !! b with Some x => mret x | None => mfail Fault end.
Definition put_block (b : Z) (x : block) : M devs unit := modify_devs (fun s => set_block_at (<[b := x]> (block_at s)) s).

(** * block.c *)

Definition block_type_names : list string := ["kernel"; "filesys"; "scratch"; "swap"; "raw"; "foreign"]%string.
Definition block_type_name (t : block_type) : string := default ""%string (block_type_names !! block_type_no t).

Definition block_get_role (role : block_type) : M devs Z :=
  ASSERT (block_type_no role <? BLOCK_ROLE_CNT)%nat;; s ← mget; mret (block_by_role s !!! block_type_no role).
Definition block_set_role (role : block_type) (b : Z) : M devs unit :=
  ASSERT (block_type_no role <? BLOCK_ROLE_CNT)%nat;;
  modify_devs (fun s => mk_devs (all_blocks s) (block_at s) (<[block_type_no role := b]> (block_by_role s)) (disks s) (next_block s) (tries s) (announced s)).

Definition block_first : M devs Z := s ← mget; mret (default NULL (head (all_blocks s))).
Definition block_next (b : Z) : M devs Z :=
  s ← mget;
  match list_find (eq b) (all_blocks s) with
  | Some (i, _) => mret (default NULL (all_blocks s !! S i))
  | None => mfail Fault
  end.

Fixpoint find_by_name (nm : list Z) (bs : list Z) : M devs Z :=
  match bs with
  | [] => mret NULL
  | b :: bs => x ← get_block b; if bool_decide (nm = b_name x) then mret b else find_by_name nm bs
  end.
Definition block_get_by_name (nm : list Z) : M devs Z := s ← mget; find_by_name nm (all_blocks s).

Definition check_sector (x : block) (sector : Z) : M devs unit := if b_size x <=? sector then mfail Panic else mret tt.

(** The driver of a disk. *)
Definition disk_read (d sector : Z) : M devs (list Z) :=
  s ← mget; match disks s !! d ≫= (fun ss => ss !! Z.to_nat sector) with Some b => mret b | None => mfail Fault end.
Definition disk_write (d sector : Z) (b : list Z) : M devs unit :=
  s ← mget;
  match disks s !! d with
  | Some ss => if (Z.to_nat sector <? length ss)%nat then mput (set_disks (<[d := <[Z.to_nat sector := b]> ss]> (disks s)) s) else mfail Fault
  | None => mfail Fault
  end.

(** [block_read] with [partition_read], which calls it on the device below; a partition of a
    partition would go down further. *)
Fixpoint read_at (fuel : nat) (b sector : Z) : M devs (list Z) :=
  match fuel with
  | O => mfail Exhausted
  | S fuel =>
    x ← get_block b;
    check_sector x sector;;
    bs ← match b_ops x with
         | Disk d => disk_read d sector
         | Partition under start => read_at fuel under (u32 (start + sector))
         end;
    x ← get_block b;
    put_block b (mk_block (b_name x) (b_type x) (b_size x) (b_ops x) (u64 (read_cnt x + 1)) (write_cnt x));;
    mret bs
  end.
Definition block_read (b sector : Z) : M devs (list Z) := s ← mget; read_at (S (length (all_blocks s))) b sector.

Fixpoint write_at (fuel : nat) (b sector : Z) (bs : list Z) : M devs unit :=
  match fuel with
  | O => mfail Exhausted
  | S fuel =>
    x ← get_block b;
    check_sector x sector;;
    ASSERT (negb (bool_decide (b_type x = BLOCK_FOREIGN)));;
    match b_ops x with
    | Disk d => disk_write d sector bs
    | Partition under start => write_at fuel under (u32 (start + sector)) bs
    end;;
    x ← get_block b;
    put_block b (mk_block (b_name x) (b_type x) (b_size x) (b_ops x) (read_cnt x) (u64 (write_cnt x + 1)))
  end.
Definition block_write (b sector : Z) (bs : list Z) : M devs unit := s ← mget; write_at (S (length (all_blocks s))) b sector bs.

Definition block_size (b : Z) : M devs Z := x ← get_block b; mret (b_size x).
Definition block_name (b : Z) : M devs (list Z) := x ← get_block b; mret (b_name x).

Section Register.
(** [mallocs n]: the [n]-th call of [malloc] succeeds. *)
Context (mallocs : nat -> bool).

Definition malloc : M devs Z :=
  s ← mget;
  mput (mk_devs (all_blocks s) (block_at s) (block_by_role s) (disks s) (next_block s + 1) (S (tries s)) (announced s));;
  mret (if mallocs (tries s) then next_block s else NULL).

(** The name is cut to the 15 bytes that fit; of the message, the name and [extra_info]. *)
Definition block_register (nm : list Z) (t : block_type) (extra_info : option (list Z)) (size : Z) (ops : driver) : M devs Z :=
  b ← malloc;
  if b =? NULL then mfail Panic
  else
    let nm := take 15 nm in
    s ← mget;
    mput (mk_devs (all_blocks s ++ [b]) (<[b := mk_block nm t size ops 0 0]> (block_at s)) (block_by_role s) (disks s) (next_block s) (tries s) (announced s ++ [(nm, extra_info)]));;
    mret b.

(** * partition.c *)

Record partition_table_entry : Type := mk_entry { e_type : Z; e_offset : Z; e_size : Z }.

(** The [i]-th entry of a partition table sector, and the signature of the sector. *)
Definition table_entry (pt : list Z) (i : nat) : partition_table_entry :=
  let e := drop (446 + 16 * i) pt in
  mk_entry (unle (take 1 (drop 4 e))) (unle (take 4 (drop 8 e))) (unle (take 4 (drop 12 e))).
Definition table_signature (pt : list Z) : Z := unle (take 2 (drop 510 pt)).

Definition type_names : list (Z * string) := [
    (0x00, "Empty"); (0x01, "FAT12"); (0x02, "XENIX root"); (0x03, "XENIX usr"); (0x04, "FAT16 <32M");
    (0x05, "Extended"); (0x06, "FAT16"); (0x07, "HPFS/NTFS"); (0x08, "AIX"); (0x09, "AIX bootable");
    (0x0a, "OS/2 Boot Manager"); (0x0b, "W95 FAT32"); (0x0c, "W95 FAT32 (LBA)"); (0x0e, "W95 FAT16 (LBA)");
    (0x0f, "W95 Ext'd (LBA)"); (0x10, "OPUS"); (0x11, "Hidden FAT12"); (0x12, "Compaq diagnostics");
    (0x14, "Hidden FAT16 <32M"); (0x16, "Hidden FAT16"); (0x17, "Hidden HPFS/NTFS"); (0x18, "AST SmartSleep");
    (0x1b, "Hidden W95 FAT32"); (0x1c, "Hidden W95 FAT32 (LBA)"); (0x1e, "Hidden W95 FAT16 (LBA)");
    (0x20, "Pintos OS kernel"); (0x21, "Pintos file system"); (0x22, "Pintos scratch"); (0x23, "Pintos swap");
    (0x24, "NEC DOS"); (0x39, "Plan 9"); (0x3c, "PartitionMagic recovery"); (0x40, "Venix 80286");
    (0x41, "PPC PReP Boot"); (0x42, "SFS"); (0x4d, "QNX4.x"); (0x4e, "QNX4.x 2nd part");
    (0x4f, "QNX4.x 3rd part"); (0x50, "OnTrack DM"); (0x51, "OnTrack DM6 Aux1"); (0x52, "CP/M");
    (0x53, "OnTrack DM6 Aux3"); (0x54, "OnTrackDM6"); (0x55, "EZ-Drive"); (0x56, "Golden Bow");
    (0x5c, "Priam Edisk"); (0x61, "SpeedStor"); (0x63, "GNU HURD or SysV"); (0x64, "Novell Netware 286");
    (0x65, "Novell Netware 386"); (0x70, "DiskSecure Multi-Boot"); (0x75, "PC/IX"); (0x80, "Old Minix");
    (0x81, "Minix / old Linux"); (0x82, "Linux swap / Solaris"); (0x83, "Linux");
    (0x84, "OS/2 hidden C: drive"); (0x85, "Linux extended"); (0x86, "NTFS volume set");
    (0x87, "NTFS volume set"); (0x88, "Linux plaintext"); (0x8e, "Linux LVM"); (0x93, "Amoeba");
    (0x94, "Amoeba BBT"); (0x9f, "BSD/OS"); (0xa0, "IBM Thinkpad hibernation"); (0xa5, "FreeBSD");
    (0xa6, "OpenBSD"); (0xa7, "NeXTSTEP"); (0xa8, "Darwin UFS"); (0xa9, "NetBSD"); (0xab, "Darwin boot");
    (0xb7, "BSDI fs"); (0xb8, "BSDI swap"); (0xbb, "Boot Wizard hidden"); (0xbe, "Solaris boot");
    (0xbf, "Solaris"); (0xc1, "DRDOS/sec (FAT-12)"); (0xc4, "DRDOS/sec (FAT-16 < 32M)");
    (0xc6, "DRDOS/sec (FAT-16)"); (0xc7, "Syrinx"); (0xda, "Non-FS data"); (0xdb, "CP/M / CTOS / ...");
    (0xde, "Dell Utility"); (0xdf, "BootIt"); (0xe1, "DOS access"); (0xe3, "DOS R/O"); (0xe4, "SpeedStor");
    (0xeb, "BeOS fs"); (0xee, "EFI GPT"); (0xef, "EFI (FAT-12/16/32)"); (0xf0, "Linux/PA-RISC boot");
    (0xf1, "SpeedStor"); (0xf4, "SpeedStor"); (0xf2, "DOS secondary"); (0xfd, "Linux raid autodetect");
    (0xfe, "LANstep"); (0xff, "BBT")
  ]%string.
Definition partition_type_name (t : Z) : string :=
  match list_find (fun e => e.1 = t) type_names with Some (_, (_, nm)) => nm | None => "Unknown"%string end.

Definition partition_block_type (part_type : Z) : block_type :=
  if part_type =? 0x20 then BLOCK_KERNEL else if part_type =? 0x21 then BLOCK_FILESYS else if part_type =? 0x22 then BLOCK_SCRATCH
  else if part_type =? 0x23 then BLOCK_SWAP else BLOCK_FOREIGN.

(** The text of [%02x]. *)
Definition hex2 (v : Z) : list Z := dir_output (Unsigned (mk_options [FZero] (Digits (str "2")) None INT) (ch "x") v).

Definition found_partition (b part_type start size part_nr : Z) : M devs unit :=
  bsize ← block_size b;
  if bsize <=? start then mret tt
  else if (u32 (start + size) <? start) || (bsize <? u32 (start + size)) then mret tt
  else
    p ← malloc;
    if p =? NULL then mfail Panic
    else
      bname ← block_name b;
      let nm := take 15 (bname ++ decimal part_nr) in
      let extra_info := take 127 (str (partition_type_name part_type) ++ str " (" ++ hex2 part_type ++ str ")") in
      block_register nm (partition_block_type part_type) (Some extra_info) size (Partition b start);;
      mret tt.

(** A loop over a list that carries a value. *)
Fixpoint mfold {S A B} (f : A -> B -> M S A) (a : A) (l : list B) : M S A :=
  match l with [] => mret a | x :: l => a ← f a x; mfold f a l end.

Definition extended (t : Z) : bool := (t =? 0x05) || (t =? 0x0f) || (t =? 0x85) || (t =? 0xc5).

(** The fuel bounds the depth of the recursion; the number of partitions found is returned. *)
Fixpoint read_partition_table (fuel : nat) (b sector primary_extended_sector part_nr : Z) : M devs Z :=
  match fuel with
  | O => mfail Exhausted
  | S fuel =>
    bsize ← block_size b;
    if bsize <=? sector then mret part_nr
    else
      p ← malloc;
      if p =? NULL then mfail Panic
      else
        pt ← block_read b 0;
        if negb (table_signature pt =? 0xaa55) then mret part_nr
        else
          mfold (fun part_nr i =>
            let e := table_entry pt i in
            if (e_size e =? 0) || (e_type e =? 0) then mret part_nr
            else if extended (e_type e) then
              if sector =? 0 then read_partition_table fuel b (e_offset e) (e_offset e) part_nr
              else read_partition_table fuel b (u32 (e_offset e + primary_extended_sector)) primary_extended_sector part_nr
            else
              let part_nr := s32 (part_nr + 1) in
              found_partition b (e_type e) (u32 (e_offset e + sector)) (e_size e) part_nr;;
              mret part_nr) part_nr (seq 0 4)
  end.

Definition partition_scan (fuel : nat) (b : Z) : M devs unit := read_partition_table fuel b 0 0 0;; mret tt.
End Register.

(** * Registered devices *)

Record devs_ok (s : devs) : Prop := {
  do_list : forall b, b ∈ all_blocks s <-> is_Some (block_at s !! b);
  do_nodup : NoDup (all_blocks s);
  do_addr : forall b, is_Some (block_at s !! b) -> 0 < b < next_block s;
  do_size : forall b x, block_at s !! b = Some x -> 0 <= b_size x < 2 ^ 32;
  do_disk : forall b x d, block_at s !! b = Some x -> b_ops x = Disk d -> exists ss, disks s !! d = Some ss /\ Z.of_nat (length ss) = b_size x;
  do_part : forall b x under start, block_at s !! b = Some x -> b_ops x = Partition under start ->
    exists y d, block_at s !! under = Some y /\ b_ops y = Disk d /\ 0 <= start /\ start + b_size x <= b_size y;
  do_heap : 0 < next_block s
}.

(** What stays the same of a device when it is read and written. *)
Definition fixed (x : block) : list Z * block_type * Z * driver := (b_name x, b_type x, b_size x, b_ops x).
Definition same_blocks (s s' : devs) : Prop :=
  all_blocks s' = all_blocks s /\ (forall b, fixed <$> block_at s' !! b = fixed <$> block_at s !! b) /\ block_by_role s' = block_by_role s /\ next_block s' = next_block s /\ announced s' = announced s.

Lemma same_refl s : same_blocks s s.
Proof. done. Qed.
Lemma same_trans s s1 s2 : same_blocks s s1 -> same_blocks s1 s2 -> same_blocks s s2.
Proof. intros (A1 & A2 & A3 & A4 & A5) (B1 & B2 & B3 & B4 & B5). split_and!; congruence. Qed.

Lemma same_lookup s s' b x' : same_blocks s s' -> block_at s' !! b = Some x' -> exists x, block_at s !! b = Some x /\ fixed x' = fixed x.
Proof. intros (_ & H & _) E. specialize (H b). rewrite E in H. destruct (block_at s !! b) as [x|]; [|done]. exists x. split; [done|]. by apply (inj Some). Qed.
Lemma same_lookup' s s' b x : same_blocks s s' -> block_at s !! b = Some x -> exists x', block_at s' !! b = Some x' /\ fixed x' = fixed x.
Proof. intros (_ & H & _) E. specialize (H b). rewrite E in H. destruct (block_at s' !! b) as [x'|]; [|done]. exists x'. split; [done|]. by apply (inj Some). Qed.

Lemma same_put s b x x' : block_at s !! b = Some x -> fixed x' = fixed x -> same_blocks s (set_block_at (<[b := x']> (block_at s)) s).
Proof. intros E Ef. split_and!; try done. intros b'. cbn. destruct (decide (b' = b)) as [->|Hne]; [rewrite lookup_insert_eq, E; cbn; by rewrite Ef|by rewrite lookup_insert_ne]. Qed.

(** Devices whose contents may have changed, in size not. *)
Definition same_sizes (s s' : devs) : Prop := forall d, length <$> disks s' !! d = length <$> disks s !! d.

Lemma devs_ok_same s s' : devs_ok s -> same_blocks s s' -> same_sizes s s' -> devs_ok s'.
Proof.
  intros [H1 H2 H3 H4 H5 H6 H7] Hs Hz. pose proof Hs as (A1 & A2 & A3 & A4 & A5).
  assert (forall b, is_Some (block_at s' !! b) <-> is_Some (block_at s !! b)) as Hd.
  { intros b. rewrite <-(fmap_is_Some fixed), A2, fmap_is_Some. done. }
  split; rewrite ?A1, ?A4; [intros b; by rewrite Hd|done|intros b Hb; by apply H3, Hd| | | |done].
  - intros b x' E. destruct (same_lookup _ _ _ _ Hs E) as (x & Ex & [= _ _ -> _]). by eapply H4.
  - intros b x' d E Eo. destruct (same_lookup _ _ _ _ Hs E) as (x & Ex & [= _ _ Es Eo']). destruct (H5 b x d Ex) as (ss & Hss & Hl); [congruence|].
    specialize (Hz d). rewrite Hss in Hz. destruct (disks s' !! d) as [ss'|] eqn:E'; [|done]. injection Hz as Hz. exists ss'. split; [done|]. lia.
  - intros b x' under start E Eo. destruct (same_lookup _ _ _ _ Hs E) as (x & Ex & [= _ _ Es Eo']). destruct (H6 b x under start Ex) as (y & d & Ey & Ed & Hst & Hsum); [congruence|].
    destruct (same_lookup' _ _ _ _ Hs Ey) as (y' & Ey' & [= _ _ Ys Yo]). exists y', d. split_and!; [done|congruence|done|]. rewrite Es, Ys. done.
Qed.

(** Where a sector of a device is: a disk and a sector of it. *)
Definition place (s : devs) (b sector : Z) : option (Z * Z) :=
  x ← block_at s !! b;
  match b_ops x with
  | Disk d => Some (d, sector)
  | Partition under start => y ← block_at s !! under; match b_ops y with Disk d => Some (d, start + sector) | Partition _ _ => None end
  end.

Lemma wp_get_block s b x (Q : block -> devs -> Prop) : block_at s !! b = Some x -> Q x s -> wp (get_block b) s Q.
Proof. intros E HQ. unfold get_block. apply wp_bind, wp_get. by rewrite E. Qed.

Lemma wp_put_block s b x (Q : unit -> devs -> Prop) : Q tt (set_block_at (<[b := x]> (block_at s)) s) -> wp (put_block b x) s Q.
Proof. intros HQ. unfold put_block, modify_devs. by apply wp_bind, wp_get, wp_put. Qed.

Lemma place_same s s' b sector : same_blocks s s' -> place s' b sector = place s b sector.
Proof.
  intros Hs. unfold place. destruct (block_at s !! b) as [x|] eqn:E.
  - destruct (same_lookup' _ _ _ _ Hs E) as (x' & -> & [= _ _ _ Eo]). cbn. rewrite Eo. destruct (b_ops x) as [d|under start]; [done|]. destruct (block_at s !! under) as [y|] eqn:Ey.
    + destruct (same_lookup' _ _ _ _ Hs Ey) as (y' & -> & [= _ _ _ Eo']). cbn. by rewrite Eo'.
    + destruct (block_at s' !! under) as [y'|] eqn:Ey'; [|done]. destruct (same_lookup _ _ _ _ Hs Ey') as (y & ? & _). congruence.
  - destruct (block_at s' !! b) as [x'|] eqn:E'; [|done]. destruct (same_lookup _ _ _ _ Hs E') as (x & ? & _). congruence.
Qed.

Definition contents (s : devs) (p : Z * Z) : option (list Z) := disks s !! p.1 ≫= (fun ss => ss !! Z.to_nat p.2).
Definition write_contents (p : Z * Z) (bs : list Z) (s : devs) : gmap Z (list (list Z)) := alter (<[Z.to_nat p.2 := bs]>) p.1 (disks s).

Lemma place_some s b x sector : devs_ok s -> block_at s !! b = Some x -> 0 <= sector < b_size x -> exists p bs, place s b sector = Some p /\ contents s p = Some bs /\ 0 <= p.2.
Proof.
  intros Hok Hb Hs. assert (forall c y d k, block_at s !! c = Some y -> b_ops y = Disk d -> 0 <= k < b_size y -> exists bs, contents s (d, k) = Some bs) as Hdisk.
  { intros c y d k Hc Hd Hk. destruct (do_disk _ Hok _ _ _ Hc Hd) as (ss & Hss & Hl). unfold contents. cbn. rewrite Hss. cbn. apply lookup_lt_is_Some_2. lia. }
  unfold place. rewrite Hb. cbn. destruct (b_ops x) as [d|under start] eqn:Eo.
  - destruct (Hdisk b x d sector) as [bs Hbs]; [done..|]. exists (d, sector), bs. cbn. by split_and!; [..|lia].
  - destruct (do_part _ Hok _ _ _ _ Hb Eo) as (y & d & Hy & Hd & H0 & Hsum). rewrite Hy. cbn. rewrite Hd. destruct (Hdisk under y d (start + sector)) as [bs Hbs]; [done|done|lia|]. exists (d, start + sector), bs. cbn. by split_and!; [..|lia].
Qed.

Lemma ok_nonempty s b x : devs_ok s -> block_at s !! b = Some x -> (0 < length (all_blocks s))%nat.
Proof.
  intros Hok Hb. destruct (all_blocks s) as [|? ?] eqn:E; [|cbn; lia]. assert (b ∈ all_blocks s) as Hin by (apply (do_list _ Hok); by exists x). rewrite E in Hin. by apply elem_of_nil in Hin.
Qed.

(** Reading from a device with the driver's part done. *)
Lemma wp_read_at fuel s b x sector bs (Q : list Z -> devs -> Prop) : devs_ok s -> block_at s !! b = Some x -> 0 <= sector < b_size x ->
  wp (match b_ops x with Disk d => disk_read d sector | Partition under start => read_at fuel under (u32 (start + sector)) end) s
    (fun r s' => r = bs /\ same_blocks s s' /\ disks s' = disks s) ->
  (forall s', same_blocks s s' -> disks s' = disks s -> Q bs s') -> wp (read_at (S fuel) b sector) s Q.
Proof.
  intros Hok Hb Hs Hr HQ. cbn [read_at]. apply wp_bind. eapply wp_get_block; [done|]. unfold check_sector. rewrite (proj2 (Z.leb_gt _ _)) by lia. apply wp_bind, wp_ret, wp_bind.
  eapply wp_mono; [exact Hr|]. intros r s' (-> & Hsame & Hd). destruct (same_lookup' _ _ _ _ Hsame Hb) as (x' & Hx' & Ef). apply wp_bind. eapply wp_get_block; [done|]. apply wp_bind, wp_put_block, wp_ret.
  apply HQ; [|done]. eapply same_trans; [done|]. by eapply same_put.
Qed.

Lemma wp_disk_read s d k bs (Q : list Z -> devs -> Prop) : contents s (d, k) = Some bs -> Q bs s -> wp (disk_read d k) s Q.
Proof. intros E HQ. unfold disk_read. apply wp_bind, wp_get. unfold contents in E. cbn in E. by rewrite E. Qed.

Lemma wp_dev_read s b x sector p bs (Q : list Z -> devs -> Prop) : devs_ok s -> block_at s !! b = Some x -> 0 <= sector < b_size x -> place s b sector = Some p -> contents s p = Some bs ->
  (forall s', same_blocks s s' -> disks s' = disks s -> Q bs s') -> wp (block_read b sector) s Q.
Proof.
  intros Hok Hb Hs Hp Hc HQ. unfold block_read. apply wp_bind, wp_get. eapply wp_read_at; [done|done|done| |exact HQ]. unfold place in Hp. rewrite Hb in Hp. cbn in Hp.
  destruct (b_ops x) as [d|under start] eqn:Eo; [injection Hp as <-; by eapply wp_disk_read|]. destruct (do_part _ Hok _ _ _ _ Hb Eo) as (y & d & Hy & Hd & H0 & Hsum). rewrite Hy in Hp. cbn in Hp. rewrite Hd in Hp. injection Hp as <-.
  pose proof (ok_nonempty _ _ _ Hok Hb) as Hl.
  destruct (length (all_blocks s)) as [|n]; [lia|]. pose proof (do_size _ Hok _ _ Hy). unfold u32. rewrite Z.mod_small by lia. eapply wp_read_at; [done|done|lia| |done]. rewrite Hd. by eapply wp_disk_read.
Qed.

Lemma sizes_write s p bs : same_sizes s (set_disks (write_contents p bs s) s).
Proof. intros d. cbn. unfold write_contents. destruct (decide (d = p.1)) as [->|Hne]; [|by rewrite lookup_alter_ne]. rewrite lookup_alter_eq. destruct (disks s !! p.1); cbn; [|done]. by rewrite length_insert. Qed.

Lemma wp_disk_write s d k bs b0 (Q : unit -> devs -> Prop) : contents s (d, k) = Some b0 -> Q tt (set_disks (write_contents (d, k) bs s) s) -> wp (disk_write d k bs) s Q.
Proof.
  intros E HQ. unfold disk_write. apply wp_bind, wp_get. unfold contents in E. cbn in E. destruct (disks s !! d) as [ss|] eqn:Ed; [|done]. cbn in E. rewrite (proj2 (Nat.ltb_lt _ _)) by (by eapply lookup_lt_Some).
  apply wp_put. replace (<[d := <[Z.to_nat k := bs]> ss]> (disks s)) with (write_contents (d, k) bs s); [done|]. apply map_eq. intros j. unfold write_contents. cbn.
  destruct (decide (j = d)) as [->|Hne]; [by rewrite lookup_alter_eq, lookup_insert_eq, Ed|by rewrite lookup_alter_ne, lookup_insert_ne].
Qed.

Lemma wp_write_at fuel s b x sector bs p (Q : unit -> devs -> Prop) : devs_ok s -> block_at s !! b = Some x -> 0 <= sector < b_size x -> b_type x ≠ BLOCK_FOREIGN ->
  wp (match b_ops x with Disk d => disk_write d sector bs | Partition under start => write_at fuel under (u32 (start + sector)) bs end) s
    (fun _ s' => same_blocks s s' /\ disks s' = write_contents p bs s) ->
  (forall s', same_blocks s s' -> disks s' = write_contents p bs s -> Q tt s') -> wp (write_at (S fuel) b sector bs) s Q.
Proof.
  intros Hok Hb Hs Ht Hr HQ. cbn [write_at]. apply wp_bind. eapply wp_get_block; [done|]. unfold check_sector. rewrite (proj2 (Z.leb_gt _ _)) by lia. apply wp_bind, wp_ret, wp_bind, wp_assert; [by rewrite bool_decide_false|]. apply wp_bind.
  eapply wp_mono; [exact Hr|]. intros [] s' (Hsame & Hd). destruct (same_lookup' _ _ _ _ Hsame Hb) as (x' & Hx' & Ef). apply wp_bind. eapply wp_get_block; [done|]. apply wp_put_block.
  apply HQ; [|done]. eapply same_trans; [done|]. by eapply same_put.
Qed.

Lemma wp_dev_write s b x sector p bs b0 (Q : unit -> devs -> Prop) : devs_ok s -> block_at s !! b = Some x -> 0 <= sector < b_size x -> b_type x ≠ BLOCK_FOREIGN ->
  (forall under start y, b_ops x = Partition under start -> block_at s !! under = Some y -> b_type y ≠ BLOCK_FOREIGN) -> place s b sector = Some p -> contents s p = Some b0 ->
  (forall s', same_blocks s s' -> disks s' = write_contents p bs s -> Q tt s') -> wp (block_write b sector bs) s Q.
Proof.
  intros Hok Hb Hs Ht Hut Hp Hc HQ. unfold block_write. apply wp_bind, wp_get. eapply (wp_write_at _ _ _ _ _ _ p); [done|done|done|done| |exact HQ]. unfold place in Hp. rewrite Hb in Hp. cbn in Hp.
  destruct (b_ops x) as [d|under start] eqn:Eo; [injection Hp as <-; by eapply wp_disk_write|]. destruct (do_part _ Hok _ _ _ _ Hb Eo) as (y & d & Hy & Hd & H0 & Hsum). rewrite Hy in Hp. cbn in Hp. rewrite Hd in Hp. injection Hp as <-.
  pose proof (ok_nonempty _ _ _ Hok Hb) as Hl.
  destruct (length (all_blocks s)) as [|n]; [lia|]. pose proof (do_size _ Hok _ _ Hy). unfold u32. rewrite Z.mod_small by lia. eapply (wp_write_at _ _ _ _ _ _ (d, start + sector)); [done|done|lia|by eapply Hut| |done]. rewrite Hd. by eapply wp_disk_write.
Qed.

(** ** Registering *)

(** From [s] to [s'], devices described by [new] have been added. *)
Definition grown (s s' : devs) (new : list (list Z * block_type * Z * driver)) : Prop :=
  devs_ok s' /\ disks s' = disks s /\ block_by_role s' = block_by_role s /\
  (forall b, is_Some (block_at s !! b) -> fixed <$> block_at s' !! b = fixed <$> block_at s !! b) /\
  exists addrs, all_blocks s' = all_blocks s ++ addrs /\ Forall2 (fun a t => fixed <$> block_at s' !! a = Some t) addrs new.

Lemma grown_same s s' : devs_ok s -> same_blocks s s' -> disks s' = disks s -> grown s s' [].
Proof.
  intros Hok Hs Hd. split_and!; [|done|apply Hs|intros b _; apply Hs|].
  - eapply devs_ok_same; [done|done|]. intros d. by rewrite Hd.
  - exists []. rewrite app_nil_r. split; [apply Hs|constructor].
Qed.

Lemma grown_trans s s1 s2 l1 l2 : grown s s1 l1 -> grown s1 s2 l2 -> grown s s2 (l1 ++ l2).
Proof.
  intros (H1 & H2 & H3 & H4 & a1 & H5 & H6) (K1 & K2 & K3 & K4 & a2 & K5 & K6).
  assert (forall b, is_Some (block_at s !! b) -> is_Some (block_at s1 !! b)) as Hold by (intros b Hb; rewrite <-(fmap_is_Some fixed), H4, fmap_is_Some by done; done).
  split_and!; [done|congruence|congruence|intros b Hb; rewrite K4 by auto; auto|]. exists (a1 ++ a2). split; [by rewrite app_assoc, <-H5|]. apply Forall2_app; [|done].
  eapply Forall2_impl; [exact H6|]. cbn. intros a t Ha. rewrite K4; [done|]. rewrite <-(fmap_is_Some fixed), Ha. done.
Qed.

Lemma grown_lookup s s' new b x : grown s s' new -> block_at s !! b = Some x -> exists x', block_at s' !! b = Some x' /\ fixed x' = fixed x.
Proof.
  intros (_ & _ & _ & H & _) Hb. specialize (H b ltac:(by exists x)). rewrite Hb in H. destruct (block_at s' !! b) as [x'|]; [|done]. exists x'. split; [done|]. by apply (inj Some).
Qed.

Section Scan.
Context (mallocs : nat -> bool) (Hmalloc : forall n, mallocs n = true).

Lemma wp_malloc_block s (Q : Z -> devs -> Prop) : devs_ok s -> (forall p s', 0 < p -> p = next_block s -> next_block s' = p + 1 -> all_blocks s' = all_blocks s -> block_at s' = block_at s -> block_by_role s' = block_by_role s -> disks s' = disks s -> devs_ok s' -> Q p s') -> wp (malloc mallocs) s Q.
Proof.
  intros [H1 H2 H3 H4 H5 H6 H7] HQ. unfold malloc. apply wp_bind, wp_get, wp_bind, wp_put, wp_ret. rewrite Hmalloc. apply HQ; [done..|]. split; cbn; try done; [|lia]. intros b Hb. specialize (H3 b Hb). lia.
Qed.

(** A device that [block_register] may be given. *)
Definition device_ok (s : devs) (size : Z) (ops : driver) : Prop := 0 <= size < 2 ^ 32 /\
  match ops with
  | Disk d => exists ss, disks s !! d = Some ss /\ Z.of_nat (length ss) = size
  | Partition under start => exists y d, block_at s !! under = Some y /\ b_ops y = Disk d /\ 0 <= start /\ start + size <= b_size y
  end.

Lemma wp_block_register s nm t info size ops (Q : Z -> devs -> Prop) : devs_ok s -> device_ok s size ops ->
  (forall b s', grown s s' [(take 15 nm, t, size, ops)] -> Q b s') -> wp (block_register mallocs nm t info size ops) s Q.
Proof.
  intros Hok [Hsz Hops] HQ. unfold block_register. apply wp_bind, wp_malloc_block; [done|]. intros b s1 Hb Eb En E1 E2 E3 E4 Hok1. rewrite (proj2 (Z.eqb_neq b NULL)) by (unfold NULL; lia). apply wp_bind, wp_get, wp_bind, wp_put, wp_ret.
  set (x := mk_block (take 15 nm) t size ops 0 0). assert (block_at s1 !! b = None) as Hfresh.
  { destruct (block_at s1 !! b) as [y|] eqn:Ey; [|done]. rewrite E2 in Ey. pose proof (do_addr _ Hok b ltac:(by exists y)). lia. }
  apply HQ. destruct Hok1 as [H1 H2 H3 H4 H5 H6 H7]. split_and!; cbn; [split; cbn|done|done| |].
  - intros c. rewrite elem_of_app, list_elem_of_singleton, H1. destruct (decide (c = b)) as [->|Hne]; [rewrite lookup_insert_eq; split; [by eexists|by right]|]. rewrite lookup_insert_ne by done. split; [by intros [|]|by left].
  - apply NoDup_app. split_and!; [done| |apply NoDup_singleton]. intros c Hc Hcb%list_elem_of_singleton. subst c. apply H1 in Hc. rewrite Hfresh in Hc. by destruct Hc.
  - intros c Hc. destruct (decide (c = b)) as [->|Hne]; [lia|]. rewrite lookup_insert_ne in Hc by done. specialize (H3 c Hc). lia.
  - intros c y. rewrite lookup_insert_Some. intros [[<- <-]|[_ Hc]]; [done|by eapply H4].
  - intros c y d. rewrite lookup_insert_Some. intros [[<- <-]|[_ Hc]]; [|by eapply H5]. cbn. intros ->. rewrite E4. done.
  - intros c y under start. rewrite lookup_insert_Some. intros [[<- <-]|[_ Hc]] Eo.
    + cbn in Eo. subst ops. destruct Hops as (y & d & Hy & Hd & Hr). rewrite <-E2 in Hy. exists y, d. rewrite lookup_insert_ne by congruence. done.
    + destruct (H6 c y under start Hc Eo) as (z & d & Hz & Hd & Hr). exists z, d. rewrite lookup_insert_ne by congruence. done.
  - done.
  - intros c [y Hc]. rewrite <-E2 in *. rewrite lookup_insert_ne by congruence. done.
  - exists [b]. rewrite E1. split; [done|]. constructor; [|constructor]. cbn. by rewrite lookup_insert_eq.
Qed.

(** ** Scanning *)

Definition fits (bsize start size : Z) : bool := negb (bsize <=? start) && negb ((u32 (start + size) <? start) || (bsize <? u32 (start + size))).

Lemma fits_spec bsize start size : 0 <= bsize < 2 ^ 32 -> 0 <= start < 2 ^ 32 -> 0 <= size < 2 ^ 32 -> fits bsize start size = bool_decide (start < bsize /\ start + size <= bsize).
Proof.
  intros Hb Hs Hz. unfold fits. assert (u32 (start + size) = start + size \/ u32 (start + size) = start + size - 2 ^ 32) as Hu.
  { unfold u32. destruct (decide (start + size < 2 ^ 32)); [left; by rewrite Z.mod_small by lia|right]. symmetry. apply (Z.mod_unique _ _ 1); lia. }
  symmetry. case_bool_decide as Hd.
  - assert (u32 (start + size) = start + size) as -> by (unfold u32; by rewrite Z.mod_small by lia). rewrite (proj2 (Z.leb_gt _ _)), (proj2 (Z.ltb_ge _ _)), (proj2 (Z.ltb_ge _ _)) by lia. done.
  - destruct (Z.leb_spec bsize start); [done|]. destruct (Z.ltb_spec (u32 (start + size)) start); [done|]. destruct (Z.ltb_spec bsize (u32 (start + size))); [done|]. lia.
Qed.

Lemma wp_found_partition s b x d pt_type start size nr (Q : unit -> devs -> Prop) : devs_ok s -> block_at s !! b = Some x -> b_ops x = Disk d -> 0 <= start < 2 ^ 32 -> 0 <= size < 2 ^ 32 ->
  (forall s', grown s s' (if fits (b_size x) start size then [(take 15 (b_name x ++ decimal nr), partition_block_type pt_type, size, Partition b start)] else []) -> Q tt s') ->
  wp (found_partition mallocs b pt_type start size nr) s Q.
Proof.
  intros Hok Hb Hd Hs Hz HQ. pose proof (do_size _ Hok _ _ Hb) as Hbs. pose proof (fits_spec (b_size x) start size Hbs Hs Hz) as Hfit. unfold fits in Hfit, HQ. unfold found_partition, block_size. apply wp_bind, wp_bind. eapply wp_get_block; [done|]. apply wp_ret.
  destruct (b_size x <=? start); cbn [negb andb] in *; [apply wp_ret, HQ, grown_same; done|]. destruct (_ || _); cbn [negb] in *; [apply wp_ret, HQ, grown_same; done|].
  symmetry in Hfit. apply bool_decide_eq_true in Hfit. apply wp_bind, wp_malloc_block; [done|]. intros p s1 Hp _ _ E1 E2 E3 E4 Hok1. rewrite (proj2 (Z.eqb_neq p NULL)) by (unfold NULL; lia). unfold block_name. apply wp_bind, wp_bind. eapply wp_get_block; [by rewrite E2|]. apply wp_ret.
  apply wp_bind. apply wp_block_register; [done| |].
  - split; [done|]. exists x, d. rewrite E2. split_and!; [done|done|lia|lia].
  - intros c s2 (K1 & K2 & K3 & K4 & K5). rewrite take_take in K5. change (15 `min` 15)%nat with 15%nat in K5. apply wp_ret, HQ. rewrite E1, E2, E3, E4 in *. done.
Qed.

Lemma table_field_range (pt : list Z) ofs n : Forall byte pt -> 0 <= unle (take n (drop ofs pt)) < 256 ^ Z.of_nat n.
Proof.
  intros Hb. pose proof (unle_range (take n (drop ofs pt)) ltac:(by apply Forall_take, Forall_drop)) as H.
  split; [apply H|]. eapply Z.lt_le_trans; [apply H|]. apply Z.pow_le_mono_r; [lia|]. rewrite length_take. lia.
Qed.

Lemma entry_range (pt : list Z) i : Forall byte pt -> 0 <= e_offset (table_entry pt i) < 2 ^ 32 /\ 0 <= e_size (table_entry pt i) < 2 ^ 32.
Proof. intros Hb. unfold table_entry. cbn [e_offset e_size]. rewrite !drop_drop. split; [exact (table_field_range pt _ 4 Hb)|exact (table_field_range pt _ 4 Hb)]. Qed.

Lemma grown_nil_ok s s' new : grown s s' new -> devs_ok s'.
Proof. by intros [? _]. Qed.

(** The device [b] is as [x] describes it, and its first sector is [pt]. *)
Definition scanned (b : Z) (x : block) (d : Z) (pt : list Z) (s : devs) : Prop :=
  devs_ok s /\ b_ops x = Disk d /\ contents s (d, 0) = Some pt /\ exists x', block_at s !! b = Some x' /\ fixed x' = fixed x.

Lemma scanned_grown b x d pt s s' new : scanned b x d pt s -> grown s s' new -> scanned b x d pt s'.
Proof.
  intros (H1 & H2 & H3 & x' & H4 & H5) Hg. pose proof Hg as (K1 & K2 & _). destruct (grown_lookup _ _ _ _ _ Hg H4) as (y & Hy & Ey). split_and!; [done|done|unfold contents in *; by rewrite K2|]. exists y. split; [done|congruence].
Qed.

(** Entering a level of the table. *)
Lemma wp_read_table b x d pt s (Q : list Z -> devs -> Prop) : scanned b x d pt s -> 0 < b_size x ->
  (forall s', grown s s' [] -> Q pt s') -> wp (p ← malloc mallocs; if p =? NULL then mfail Panic else block_read b 0) s Q.
Proof.
  intros (Hok & Hd & Hc & x' & Hb & [= _ _ Es Eo]) Hs HQ. apply wp_bind, wp_malloc_block; [done|]. intros p s1 Hp _ _ E1 E2 E3 E4 Hok1. rewrite (proj2 (Z.eqb_neq p NULL)) by (unfold NULL; lia).
  eapply (wp_dev_read s1 b x' 0 (d, 0) pt); [done|by rewrite E2|lia|unfold place; rewrite E2, Hb; cbn; by rewrite Eo, Hd|unfold contents in *; by rewrite E4|].
  intros s2 Hs2 Hd2. apply HQ. rewrite <-(app_nil_r []). eapply grown_trans; [|by apply grown_same]. split_and!; [done|done|done|by rewrite E2|]. exists []. rewrite app_nil_r, E1. by split.
Qed.

(** The entries of a table without extended partitions. *)
Fixpoint partitions (b : Z) (x : block) (pt : list Z) (nr : Z) (js : list nat) : list (list Z * block_type * Z * driver) :=
  match js with
  | [] => []
  | i :: js =>
    let e := table_entry pt i in
    if (e_size e =? 0) || (e_type e =? 0) then partitions b x pt nr js
    else (if fits (b_size x) (e_offset e) (e_size e) then [(take 15 (b_name x ++ decimal (nr + 1)), partition_block_type (e_type e), e_size e, Partition b (e_offset e))] else []) ++
         partitions b x pt (nr + 1) js
  end.

(** The step that the loop over the entries takes. *)
Definition scan_entry (fuel : nat) (b sector primary_extended_sector : Z) (pt : list Z) (part_nr : Z) (i : nat) : M devs Z :=
  let e := table_entry pt i in
  if (e_size e =? 0) || (e_type e =? 0) then mret part_nr
  else if extended (e_type e) then
    if sector =? 0 then read_partition_table mallocs fuel b (e_offset e) (e_offset e) part_nr
    else read_partition_table mallocs fuel b (u32 (e_offset e + primary_extended_sector)) primary_extended_sector part_nr
  else
    let part_nr := s32 (part_nr + 1) in
    found_partition mallocs b (e_type e) (u32 (e_offset e + sector)) (e_size e) part_nr;;
    mret part_nr.

Lemma read_table_step fuel b sector prim nr s : read_partition_table mallocs (S fuel) b sector prim nr s =
  (bsize ← block_size b;
   if bsize <=? sector then mret nr
   else
     pt ← (p ← malloc mallocs; if p =? NULL then mfail Panic else block_read b 0);
     if negb (table_signature pt =? 0xaa55) then mret nr else mfold (scan_entry fuel b sector prim pt) nr (seq 0 4)) s.
Proof.
  cbn [read_partition_table]. unfold mbind, M_bind. destruct (block_size b s) as [[bsize s1]|]; [|done]. destruct (bsize <=? sector); [done|].
  destruct (malloc mallocs s1) as [[p s2]|]; [|done]. by destruct (p =? NULL).
Qed.

Lemma wp_scan_entries b x d pt fuel : Forall byte pt -> forall js nr s (Q : Z -> devs -> Prop), scanned b x d pt s -> 0 <= nr -> nr + Z.of_nat (length js) < 2 ^ 31 ->
  Forall (fun i => e_size (table_entry pt i) = 0 \/ e_type (table_entry pt i) = 0 \/ extended (e_type (table_entry pt i)) = false) js ->
  (forall nr' s', grown s s' (partitions b x pt nr js) -> Q nr' s') -> wp (mfold (scan_entry fuel b 0 0 pt) nr js) s Q.
Proof.
  intros Hpt. induction js as [|i js IH]; intros nr s Q Hsc Hnr Hlen Hext HQ; [apply wp_ret, HQ, grown_same; [apply Hsc|done|done]|]. apply Forall_cons in Hext as [Hi Hext]. cbn [length] in Hlen. cbn [partitions] in HQ. cbn [mfold].
  destruct (entry_range pt i Hpt) as [Ho Hz]. set (e := table_entry pt i) in *. cbv zeta in HQ. apply wp_bind. unfold scan_entry. fold e. cbv zeta. destruct ((e_size e =? 0) || (e_type e =? 0)) eqn:Ee.
  { apply wp_ret, IH; [done|done|lia|done|done]. }
  apply orb_false_iff in Ee as [E1%Z.eqb_neq E2%Z.eqb_neq]. destruct Hi as [|[|Hi]]; [done|done|]. rewrite Hi. pose proof Hsc as (Hok & Hd & Hc & x' & Hb & [= En _ Es Eo]). apply wp_bind. unfold u32. rewrite Z.add_0_r, Z.mod_small by lia.
  rewrite s32_small by lia. eapply (wp_found_partition s b x' d); [done|done|congruence|done|done|]. rewrite Es, En. intros s1 Hg. apply wp_ret. eapply IH; [by eapply scanned_grown|lia|lia|done|]. intros nr' s' Hg'. eapply HQ. by eapply grown_trans.
Qed.

Lemma wpe_mfold {S A B} (f : A -> B -> M S A) (I : S -> Prop) (E : fail -> Prop) (l : list B) : (forall a y s, I s -> wpe (f a y) s (fun _ s' => I s') E) ->
  forall a s, I s -> wpe (mfold f a l) s (fun _ s' => I s') E.
Proof.
  intros Hf. induction l as [|y l IH]; intros a s HI; [done|]. cbn [mfold]. apply wpe_bind. eapply wpe_mono; [by apply Hf| |done]. intros a' s' HI'. by apply IH.
Qed.

Lemma mfold_app {S A B} (f : A -> B -> M S A) l1 l2 a (s : S) : mfold f a (l1 ++ l2) s = (a ← mfold f a l1; mfold f a l2) s.
Proof.
  revert a s. induction l1 as [|y l1 IH]; intros a s; [done|]. cbn [mfold app]. unfold mbind, M_bind in *. destruct (f a y s) as [[a' s']|]; [apply IH|done].
Qed.

Lemma wp_scan_size b x d pt s (Q : Z -> devs -> Prop) : scanned b x d pt s -> Q (b_size x) s -> wp (block_size b) s Q.
Proof. intros (_ & _ & _ & x' & Hb & [= _ _ Es _]) HQ. unfold block_size. apply wp_bind. eapply wp_get_block; [done|]. apply wp_ret. by rewrite Es. Qed.

(** One entry, for any way in which the recursion ends. *)
Lemma wpe_scan_entry b x d pt fuel sector prim nr i s s2 : Forall byte pt -> scanned b x d pt s -> (exists new, grown s s2 new) ->
  (forall sec pr nr s3, scanned b x d pt s3 -> wpe (read_partition_table mallocs fuel b sec pr nr) s3 (fun _ s' => exists new, grown s3 s' new) (fun e => e = Exhausted)) ->
  wpe (scan_entry fuel b sector prim pt nr i) s2 (fun _ s' => exists new, grown s s' new) (fun e => e = Exhausted).
Proof.
  intros Hpt Hsc [new Hg] IH. pose proof (scanned_grown _ _ _ _ _ _ _ Hsc Hg) as Hsc2.
  assert (forall sec pr, wpe (read_partition_table mallocs fuel b sec pr nr) s2 (fun _ s' => exists new, grown s s' new) (fun e => e = Exhausted)) as Hrec.
  { intros sec pr. eapply wpe_mono; [by apply IH| |done]. intros _ s3 [new3 Hg3]. exists (new ++ new3). by eapply grown_trans. }
  unfold scan_entry. cbv zeta. destruct (_ || _); [by exists new|]. destruct (extended _); [destruct (sector =? 0); apply Hrec|].
  destruct (entry_range pt i Hpt) as [Ho Hz]. pose proof Hsc2 as (Hok & Hd & Hc & x' & Hb & [= En _ Es Eo]). apply wpe_step. eapply (wp_found_partition s2 b x' d); [done|done|congruence|apply Z.mod_pos_bound; lia|done|].
  intros s3 Hg3. eexists. by eapply grown_trans.
Qed.

(** Scanning any table, the recursion apart. *)
Lemma wpe_read_table b x d pt : Forall byte pt -> 0 < b_size x -> forall fuel sector prim nr s, scanned b x d pt s ->
  wpe (read_partition_table mallocs fuel b sector prim nr) s (fun _ s' => exists new, grown s s' new) (fun e => e = Exhausted).
Proof.
  intros Hpt Hsz fuel. induction fuel as [|fuel IH]; intros sector prim nr s Hsc; [done|]. unfold wpe. rewrite read_table_step. apply wpe_step. eapply wp_scan_size; [done|].
  assert (exists new, grown s s new) as Hself by (exists []; apply grown_same; [apply Hsc|done|done]). destruct (b_size x <=? sector); [done|]. apply wpe_step. eapply wp_read_table; [done|done|]. intros s1 Hg1.
  destruct (negb _); [by exists []|]. eapply (wpe_mfold _ (fun s' => exists new, grown s s' new)); [|by exists []]. intros a i s2 Hg. by eapply wpe_scan_entry.
Qed.

(** A table with an extended partition is read again at every level. *)
Lemma wpe_extended b x d pt i : Forall byte pt -> table_signature pt = 0xaa55 -> (i < 4)%nat -> let e := table_entry pt i in
  e_size e ≠ 0 -> extended (e_type e) = true -> 2 * e_offset e < b_size x ->
  forall fuel sector prim nr s, scanned b x d pt s -> sector < b_size x -> sector = 0 \/ prim = e_offset e ->
  wpe (read_partition_table mallocs fuel b sector prim nr) s (fun _ _ => False) (fun e => e = Exhausted).
Proof.
  intros Hpt Hsig Hi e Hes Hext Ho fuel. destruct (entry_range pt i Hpt) as [Hor _]. fold e in Hor. assert (0 < b_size x) as Hsz by lia. induction fuel as [|fuel IH]; intros sector prim nr s Hsc Hs Hp; [done|].
  assert (b_size x < 2 ^ 32) as Hb32. { destruct Hsc as (Hok & _ & _ & x' & Hb & [= _ _ <- _]). by apply (do_size _ Hok _ _ Hb). }
  unfold wpe. rewrite read_table_step. apply wpe_step. eapply wp_scan_size; [done|]. rewrite (proj2 (Z.leb_gt _ _)) by lia. apply wpe_step. eapply wp_read_table; [done|done|]. intros s1 Hg1. rewrite Hsig. change (negb (0xaa55 =? 0xaa55)) with false. cbv iota.
  assert (seq 0 4 = seq 0 i ++ i :: seq (S i) (4 - S i)) as Eseq by (replace 4%nat with (i + S (4 - S i))%nat at 1 by lia; by rewrite seq_app).
  unfold wpe. rewrite Eseq, mfold_app. apply wpe_bind. eapply (wpe_mono _ _ (fun _ s' => exists new, grown s s' new) _ (fun e => e = Exhausted)); [| |done].
  - eapply (wpe_mfold _ (fun s' => exists new, grown s s' new)); [|by exists []]. intros a j s2 Hg. eapply wpe_scan_entry; [done|done|done|]. intros. by eapply wpe_read_table.
  - intros a s2 [new Hg]. pose proof (scanned_grown _ _ _ _ _ _ _ Hsc Hg) as Hsc2. cbn [mfold]. apply wpe_bind. unfold scan_entry. fold e. cbv zeta. rewrite (proj2 (Z.eqb_neq _ _) Hes). assert ((e_type e =? 0) = false) as -> by (apply Z.eqb_neq; by intros E; rewrite E in Hext). cbn [orb]. rewrite Hext.
    apply (wpe_mono _ _ (fun _ _ => False) _ (fun e => e = Exhausted)); [|done|done]. destruct (Z.eqb_spec sector 0) as [->|Hne].
    + apply IH; [done|lia|by right].
    + destruct Hp as [| ->]; [done|]. unfold u32. rewrite Z.mod_small by lia. apply IH; [done|lia|by right].
Qed.
End Scan.

(** * Claims *)

(** Scanning a disk without extended partitions registers exactly the partitions of its table
    that lie within the disk, numbered as in the table, without reading or writing outside of
    the disk; a sector without the signature has no partitions. *)
Theorem partition_scan_correct mallocs s b x d pt fuel :
  (forall n, mallocs n = true) -> scanned b x d pt s -> Forall byte pt -> 0 < b_size x ->
  Forall (fun i => let e := table_entry pt i in e_size e = 0 \/ e_type e = 0 \/ extended (e_type e) = false) (seq 0 4) ->
  wp (partition_scan mallocs (S fuel) b) s (fun _ s' => grown s s' (if table_signature pt =? 0xaa55 then partitions b x pt 0 (seq 0 4) else [])).
Proof.
  intros Hm Hsc Hpt Hsz Hext. unfold partition_scan. apply wp_bind. unfold wp. rewrite read_table_step. apply wp_bind. eapply wp_scan_size; [done|]. rewrite (proj2 (Z.leb_gt _ _)) by lia.
  apply wp_bind. eapply wp_read_table; [done|done|done|]. intros s1 Hg1. destruct (Z.eqb_spec (table_signature pt) 0xaa55) as [E|E]; cbn [negb]; [|by apply wp_ret, wp_ret].
  eapply (wp_scan_entries mallocs Hm b x d pt fuel Hpt); [by eapply scanned_grown|lia|done|done|]. intros nr s2 Hg2. apply wp_ret. exact (grown_trans _ _ _ _ _ Hg1 Hg2).
Qed.


(** C36: If the table has an extended partition that starts in the first half of the disk, the scan
    never returns: the table of the extended partition is read from sector 0 instead of from
    its own sector, so that it is the same table at every level. *)
Theorem extended_partition_loops mallocs s b x d pt i :
  (forall n, mallocs n = true) -> scanned b x d pt s -> Forall byte pt -> table_signature pt = 0xaa55 -> (i < 4)%nat ->
  e_size (table_entry pt i) ≠ 0 -> extended (e_type (table_entry pt i)) = true -> 2 * e_offset (table_entry pt i) < b_size x ->
  forall fuel, partition_scan mallocs fuel b s = Err Exhausted.
Proof.
  intros Hm Hsc Hpt Hsig Hi Hsz Hext Ho fuel. destruct (entry_range pt i Hpt) as [Hor _].
  pose proof (wpe_extended mallocs Hm b x d pt i Hpt Hsig Hi Hsz Hext Ho fuel 0 0 0 s Hsc ltac:(lia) ltac:(by left)) as W. unfold partition_scan, wpe, mbind, M_bind in *. destruct (read_partition_table mallocs fuel b 0 0 0 s) as [[? ?]|e]; [done|]. by rewrite W.
Qed.

(** Block devices keep what is written to them apart: a sector written to one device is read
    back from it, and a device that has other sectors of the disk reads as before. *)
Theorem block_write_then_read s b x c y k j bs :
  devs_ok s -> block_at s !! b = Some x -> block_at s !! c = Some y -> 0 <= k < b_size x -> 0 <= j < b_size y -> b_type x ≠ BLOCK_FOREIGN ->
  (forall under start z, b_ops x = Partition under start -> block_at s !! under = Some z -> b_type z ≠ BLOCK_FOREIGN) ->
  exists p q old, place s b k = Some p /\ place s c j = Some q /\ contents s q = Some old /\
  wp (block_write b k bs;; block_read c j) s (fun r s' => devs_ok s' /\ same_blocks s s' /\ r = if decide (p = q) then bs else old).
Proof.
  intros Hok Hb Hc Hk Hj Ht Hut. destruct (place_some _ _ _ _ Hok Hb Hk) as (p & b0 & Hp & Hcp & Hp0). destruct (place_some _ _ _ _ Hok Hc Hj) as (q & old & Hq & Hcq & Hq0). exists p, q, old. split_and!; [done..|].
  apply wp_bind. eapply (wp_dev_write s b x k p bs b0); [done..|]. intros s1 Hs1 Hd1. assert (same_sizes s s1) as Hz1 by (intros d; rewrite Hd1; apply (sizes_write s p bs)). pose proof (devs_ok_same _ _ Hok Hs1 Hz1) as Hok1.
  destruct (same_lookup' _ _ _ _ Hs1 Hc) as (y' & Hy' & [= _ _ Ey _]).
  assert (contents s1 q = Some (if decide (p = q) then bs else old)) as Hq1.
  { unfold contents in *. rewrite Hd1. unfold write_contents. destruct (decide (q.1 = p.1)) as [E|E].
    - rewrite E, lookup_alter_eq. rewrite E in Hcq. destruct (disks s !! p.1) as [ss|]; [|done]. cbn in Hcq, Hcp |- *. case_decide as Hpq.
      + subst q. rewrite list_lookup_insert_eq; [done|]. by eapply lookup_lt_Some.
      + rewrite list_lookup_insert_ne; [done|]. intros En. apply Hpq. destruct p, q. cbn in *. f_equal; [done|lia].
    - rewrite lookup_alter_ne by done. rewrite decide_False; [done|]. congruence. }
  eapply (wp_dev_read s1 c y' j q); [done|done|lia|by rewrite (place_same _ _ _ _ Hs1)|exact Hq1|]. intros s2 Hs2 Hd2. split_and!; [|by eapply same_trans|done]. eapply devs_ok_same; [exact Hok1|done|]. intros d. by rewrite Hd2.
Qed.

(** ** Witnesses *)

Definition entry_bytes (t o n : Z) : list Z := [0; 0; 0; 0; t; 0; 0; 0] ++ le 4 o ++ le 4 n.
Definition demo_table (t o n : Z) : list Z := replicate 446 0 ++ entry_bytes t o n ++ replicate 48 0 ++ [0x55; 0xaa].
Definition demo_block : block := mk_block (str "hda") BLOCK_RAW 10 (Disk 7) 0 0.
Definition demo_devs (pt : list Z) : devs := mk_devs [1] {[ 1 := demo_block ]} (replicate 4 0) {[ 7 := pt :: replicate 9 (replicate 512 0) ]} 2 0 [].

Lemma demo_devs_ok pt : devs_ok (demo_devs pt).
Proof.
  split; cbn.
  - intros b. rewrite list_elem_of_singleton. destruct (decide (b = 1)) as [->|Hne]; [by rewrite lookup_singleton_eq|]. rewrite lookup_singleton_ne by done. split; [done|]. by intros [].
  - apply NoDup_singleton.
  - intros b [x Hb]. apply lookup_singleton_Some in Hb as [<- _]. lia.
  - intros b x Hb. apply lookup_singleton_Some in Hb as [_ <-]. cbn. lia.
  - intros b x d Hb. apply lookup_singleton_Some in Hb as [_ <-]. cbn. intros [= <-]. rewrite lookup_singleton_eq. by eexists.
  - intros b x under start Hb. apply lookup_singleton_Some in Hb as [_ <-]. done.
  - lia.
Qed.

Lemma demo_scanned pt : scanned 1 demo_block 7 pt (demo_devs pt).
Proof. split_and!; [apply demo_devs_ok|done|done|]. exists demo_block. done. Qed.

Lemma partition_bytes (bs : list Z) : forallb (fun c => (0 <=? c) && (c <? 256)) bs = true -> Forall byte bs.
Proof. rewrite forallb_forall. intros H. apply Forall_forall. intros c Hc%list_elem_of_In%H. unfold byte. lia. Qed.

Lemma partition_scan_correct_witness :
  wp (partition_scan (fun _ => true) 1 1) (demo_devs (demo_table 0x21 2 4)) (fun _ s' => grown (demo_devs (demo_table 0x21 2 4)) s' [(str "hda1", BLOCK_FILESYS, 4, Partition 1 2)]).
Proof.
  apply (partition_scan_correct (fun _ => true) (demo_devs (demo_table 0x21 2 4)) 1 demo_block 7 (demo_table 0x21 2 4) 0); [done|apply demo_scanned|apply partition_bytes; vm_compute; reflexivity|done|].
  cbn [seq]. do 4 (apply Forall_cons; split; [vm_compute; auto|]). by apply Forall_nil.
Defined.


Lemma extended_partition_loops_witness : extended 0x05 = true /\ (forall fuel, partition_scan (fun _ => true) fuel 1 (demo_devs (demo_table 0x05 2 4)) = Err Exhausted).
Proof.
  split; [done|]. apply (extended_partition_loops (fun _ => true) (demo_devs (demo_table 0x05 2 4)) 1 demo_block 7 (demo_table 0x05 2 4) 0); [done|apply demo_scanned|apply partition_bytes; vm_compute; reflexivity|vm_compute; reflexivity|lia|vm_compute; discriminate|vm_compute; reflexivity|vm_compute; reflexivity].
Defined.

Lemma block_write_then_read_witness : exists p q old, place (demo_devs []) 1 3 = Some p /\ place (demo_devs []) 1 4 = Some q /\ contents (demo_devs []) q = Some old /\
  wp (block_write 1 3 [5];; block_read 1 4) (demo_devs []) (fun r s' => devs_ok s' /\ same_blocks (demo_devs []) s' /\ r = if decide (p = q) then [5] else old).
Proof.
  apply (block_write_then_read (demo_devs []) 1 demo_block 1 demo_block 3 4 [5]); [apply demo_devs_ok|done|done|done|done|done|done].
Defined.
