(* ===== verification/Interrupt.v ===== *)
(** src/threads/interrupt.c with the handlers that src/userprog/exception.c, src/userprog/syscall.c
    and the devices register, src/devices/pit.c, and the timer interrupt of src/devices/timer.c and
    src/threads/thread.c.

    The interrupt descriptor table holds the 64-bit gates that the processor reads, the bytes
    written to ports are recorded in order, and the scheduler is the one of Sched.v.  [irq] and
    [int_n] are what the processor does with a gate.  The table that start-up leaves lets user
    programs raise four interrupts on purpose; every device interrupt is taken with interrupts
    off, acknowledged once, and the timer interrupt is the step [Tick] of the scheduler. *)
From Stdlib Require Import String Ascii.
From stdpp Require Import base list numbers gmap fin_maps.
From Stdlib Require Import ZArith Lia.
From S2P Require Import Prelude Sched SchedInv SchedStep.

Open Scope Z_scope.

(** * State *)

Inductive intr_level : Set := INTR_OFF | INTR_ON.
#[global] Instance intr_level_eq_dec : EqDecision intr_level.
Proof. solve_decision. Defined.

(** The functions that the kernel registers. *)
Inductive handler : Set := Kill | PageFault | SyscallHandler | TimerInterrupt | KeyboardInterrupt | SerialInterrupt | IdeInterrupt.
#[global] Instance handler_eq_dec : EqDecision handler.
Proof. solve_decision. Defined.

(** The members of the frame that code outside the assembly looks at. *)
Record intr_frame : Type := mk_frame { vec_no : Z; error_code : Z; eip : Z; cs : Z; f_eflags : Z; f_esp : Z }.

Record intrs : Type := mk_intrs {
  idt : list Z;
  intr_handlers : list (option handler);
  intr_names : list string;
  unexpected_cnt : list Z;
  in_external_intr : bool;
  yield_on_return : bool;
  eflags : Z;
  idtr : Z;
  outs : list (Z * Z);
  reported : list (Z * string);
  sched : kstate;
  ticks : Z;
  idle_ticks : Z;
  user_ticks : Z;
  kernel_ticks : Z
}.

Definition set_tables t h n s := mk_intrs t h n (unexpected_cnt s) (in_external_intr s) (yield_on_return s) (eflags s) (idtr s) (outs s) (reported s) (sched s) (ticks s) (idle_ticks s) (user_ticks s) (kernel_ticks s).
Definition set_unexpected c r s := mk_intrs (idt s) (intr_handlers s) (intr_names s) c (in_external_intr s) (yield_on_return s) (eflags s) (idtr s) (outs s) r (sched s) (ticks s) (idle_ticks s) (user_ticks s) (kernel_ticks s).
Definition set_context e y s := mk_intrs (idt s) (intr_handlers s) (intr_names s) (unexpected_cnt s) e y (eflags s) (idtr s) (outs s) (reported s) (sched s) (ticks s) (idle_ticks s) (user_ticks s) (kernel_ticks s).
Definition set_eflags x s := mk_intrs (idt s) (intr_handlers s) (intr_names s) (unexpected_cnt s) (in_external_intr s) (yield_on_return s) x (idtr s) (outs s) (reported s) (sched s) (ticks s) (idle_ticks s) (user_ticks s) (kernel_ticks s).
Definition set_idtr x s := mk_intrs (idt s) (intr_handlers s) (intr_names s) (unexpected_cnt s) (in_external_intr s) (yield_on_return s) (eflags s) x (outs s) (reported s) (sched s) (ticks s) (idle_ticks s) (user_ticks s) (kernel_ticks s).
Definition set_outs x s := mk_intrs (idt s) (intr_handlers s) (intr_names s) (unexpected_cnt s) (in_external_intr s) (yield_on_return s) (eflags s) (idtr s) x (reported s) (sched s) (ticks s) (idle_ticks s) (user_ticks s) (kernel_ticks s).
Definition set_sched x s := mk_intrs (idt s) (intr_handlers s) (intr_names s) (unexpected_cnt s) (in_external_intr s) (yield_on_return s) (eflags s) (idtr s) (outs s) (reported s) x (ticks s) (idle_ticks s) (user_ticks s) (kernel_ticks s).
Definition set_clock t i u k s := mk_intrs (idt s) (intr_handlers s) (intr_names s) (unexpected_cnt s) (in_external_intr s) (yield_on_return s) (eflags s) (idtr s) (outs s) (reported s) (sched s) t i u k.

Definition change (f : intrs -> intrs) : M intrs unit := s ← mget; mput (f s).
Definition outb (port v : Z) : M intrs unit := change (fun s => set_outs (outs s ++ [(port, u8 v)]) s).
Definition on_sched {A} (c : M kstate A) : M intrs A := fun s =>
  match c (sched s) with Ok (a, k) => Ok (a, set_sched k s) | Err e => Err e end.

(** * Interrupt level *)

Definition FLAG_IF : Z := 0x200.

Definition intr_get_level : M intrs intr_level :=
  s ← mget; mret (if Z.land (eflags s) FLAG_IF =? 0 then INTR_OFF else INTR_ON).

Definition intr_context : M intrs bool := s ← mget; mret (in_external_intr s).

Definition intr_enable : M intrs intr_level :=
  old_level ← intr_get_level;
  c ← intr_context;
  ASSERT (negb c);;
  change (fun s => set_eflags (Z.lor (eflags s) FLAG_IF) s);;
  mret old_level.

Definition intr_disable : M intrs intr_level :=
  old_level ← intr_get_level;
  change (fun s => set_eflags (Z.ldiff (eflags s) FLAG_IF) s);;
  mret old_level.

Definition intr_set_level (level : intr_level) : M intrs intr_level :=
  if bool_decide (level = INTR_ON) then intr_enable else intr_disable.

Definition intr_yield_on_return : M intrs unit :=
  c ← intr_context;
  ASSERT c;;
  change (fun s => set_context (in_external_intr s) true s).

(** * Gates *)

Definition INTR_CNT : nat := 256.
Definition SEL_KCSEG : Z := 0x08.

Definition make_gate (function dpl type : Z) : M intrs Z :=
  ASSERT (negb (function =? NULL));;
  ASSERT ((0 <=? dpl) && (dpl <=? 3));;
  ASSERT ((0 <=? type) && (type <=? 15));;
  let e0 := u32 (Z.lor (Z.land function 0xffff) (Z.shiftl SEL_KCSEG 16)) in
  let e1 := u32 (Z.lor (Z.lor (Z.lor (Z.lor (Z.land function 0xffff0000) (Z.shiftl 1 15)) (Z.shiftl dpl 13)) (Z.shiftl 0 12)) (Z.shiftl type 8)) in
  mret (Z.lor e0 (u64 (Z.shiftl e1 32))).
Definition make_intr_gate (function dpl : Z) : M intrs Z := make_gate function dpl 14.
Definition make_trap_gate (function dpl : Z) : M intrs Z := make_gate function dpl 15.
Definition make_idtr_operand (limit base : Z) : Z := Z.lor limit (u64 (Z.shiftl (u32 base) 16)).

(** * Interrupt controller *)

Definition PIC0_CTRL : Z := 0x20.
Definition PIC0_DATA : Z := 0x21.
Definition PIC1_CTRL : Z := 0xa0.
Definition PIC1_DATA : Z := 0xa1.

Definition pic_init : M intrs unit :=
  outb PIC0_DATA 0xff;; outb PIC1_DATA 0xff;;
  outb PIC0_CTRL 0x11;; outb PIC0_DATA 0x20;; outb PIC0_DATA 0x04;; outb PIC0_DATA 0x01;;
  outb PIC1_CTRL 0x11;; outb PIC1_DATA 0x28;; outb PIC1_DATA 0x02;; outb PIC1_DATA 0x01;;
  outb PIC0_DATA 0x00;; outb PIC1_DATA 0x00.

Definition pic_end_of_interrupt (irq : Z) : M intrs unit :=
  ASSERT ((0x20 <=? irq) && (irq <? 0x30));;
  outb 0x20 0x20;;
  if 0x28 <=? irq then outb 0xa0 0x20 else mret tt.

(** * Timer chip *)

Definition PIT_HZ : Z := 1193180.
Definition PIT_PORT_CONTROL : Z := 0x43.
Definition PIT_PORT_COUNTER (channel : Z) : Z := 0x40 + channel.

Definition pit_count (frequency : Z) : Z :=
  if frequency <? 19 then 0 else if PIT_HZ <? frequency then 2 else (PIT_HZ + frequency / 2) / frequency mod 2 ^ 16.

Definition pit_configure_channel (channel mode frequency : Z) : M intrs unit :=
  ASSERT ((channel =? 0) || (channel =? 2));;
  ASSERT ((mode =? 2) || (mode =? 3));;
  let count := pit_count frequency in
  old_level ← intr_disable;
  outb PIT_PORT_CONTROL (Z.lor (Z.lor (Z.shiftl channel 6) 0x30) (Z.shiftl mode 1));;
  outb (PIT_PORT_COUNTER channel) count;;
  outb (PIT_PORT_COUNTER channel) (Z.shiftr count 8);;
  intr_set_level old_level;; mret tt.

(** * Registering handlers *)

Section Machine.
(** The addresses of the stubs and of the table, which the linker chooses; whether a thread has
    a page directory; and the handlers of the other files. *)
Context (intr_stubs : nat -> Z) (idt_addr : Z) (has_pagedir : Z -> bool) (others : handler -> intr_frame -> M intrs unit).

(** One iteration of the loop of [intr_init] over the table. *)
Definition init_gate (i : nat) : M intrs unit :=
  g ← make_intr_gate (intr_stubs i) 0;
  change (fun s => set_tables (<[i := g]> (idt s)) (intr_handlers s) (intr_names s) s).

Definition exception_names : list (nat * string) := [
    (0%nat, "#DE Divide Error"); (1%nat, "#DB Debug Exception"); (2%nat, "NMI Interrupt");
    (3%nat, "#BP Breakpoint Exception"); (4%nat, "#OF Overflow Exception");
    (5%nat, "#BR BOUND Range Exceeded Exception"); (6%nat, "#UD Invalid Opcode Exception");
    (7%nat, "#NM Device Not Available Exception"); (8%nat, "#DF Double Fault Exception");
    (9%nat, "Coprocessor Segment Overrun"); (10%nat, "#TS Invalid TSS Exception");
    (11%nat, "#NP Segment Not Present"); (12%nat, "#SS Stack Fault Exception");
    (13%nat, "#GP General Protection Exception"); (14%nat, "#PF Page-Fault Exception");
    (16%nat, "#MF x87 FPU Floating-Point Error"); (17%nat, "#AC Alignment Check Exception");
    (18%nat, "#MC Machine-Check Exception"); (19%nat, "#XF SIMD Floating-Point Exception")
  ]%string.

Definition intr_init : M intrs unit :=
  pic_init;;
  for_each init_gate (seq 0 INTR_CNT);;
  change (set_idtr (make_idtr_operand (8 * Z.of_nat INTR_CNT - 1) idt_addr));;
  change (fun s => set_tables (idt s) (intr_handlers s) (foldl (fun l p => <[p.1 := p.2]> l) (replicate INTR_CNT "unknown"%string) exception_names) s).

Definition register_handler (vec_no : nat) (dpl : Z) (level : intr_level) (h : handler) (name : string) : M intrs unit :=
  s ← mget;
  ASSERT (bool_decide (intr_handlers s !!! vec_no = None));;
  g ← (if bool_decide (level = INTR_ON) then make_trap_gate (intr_stubs vec_no) dpl else make_intr_gate (intr_stubs vec_no) dpl);
  change (fun s => set_tables (<[vec_no := g]> (idt s)) (<[vec_no := Some h]> (intr_handlers s)) (<[vec_no := name]> (intr_names s)) s).

Definition intr_register_ext (vec_no : nat) (h : handler) (name : string) : M intrs unit :=
  ASSERT ((32 <=? vec_no) && (vec_no <=? 47))%nat;;
  register_handler vec_no 0 INTR_OFF h name.

Definition intr_register_int (vec_no : nat) (dpl : Z) (level : intr_level) (h : handler) (name : string) : M intrs unit :=
  ASSERT ((vec_no <? 32) || (47 <? vec_no))%nat;;
  register_handler vec_no dpl level h name.

Definition exception_init : M intrs unit :=
  intr_register_int 3 3 INTR_ON Kill "#BP Breakpoint Exception";;
  intr_register_int 4 3 INTR_ON Kill "#OF Overflow Exception";;
  intr_register_int 5 3 INTR_ON Kill "#BR BOUND Range Exceeded Exception";;
  intr_register_int 0 0 INTR_ON Kill "#DE Divide Error";;
  intr_register_int 1 0 INTR_ON Kill "#DB Debug Exception";;
  intr_register_int 6 0 INTR_ON Kill "#UD Invalid Opcode Exception";;
  intr_register_int 7 0 INTR_ON Kill "#NM Device Not Available Exception";;
  intr_register_int 11 0 INTR_ON Kill "#NP Segment Not Present";;
  intr_register_int 12 0 INTR_ON Kill "#SS Stack Fault Exception";;
  intr_register_int 13 0 INTR_ON Kill "#GP General Protection Exception";;
  intr_register_int 16 0 INTR_ON Kill "#MF x87 FPU Floating-Point Error";;
  intr_register_int 19 0 INTR_ON Kill "#XF SIMD Floating-Point Exception";;
  intr_register_int 14 0 INTR_OFF PageFault "#PF Page-Fault Exception".

Definition TIMER_FREQ : Z := 100.
Definition timer_init : M intrs unit :=
  pit_configure_channel 0 2 TIMER_FREQ;;
  intr_register_ext 32 TimerInterrupt "8254 Timer".
Definition kbd_init : M intrs unit := intr_register_ext 33 KeyboardInterrupt "8042 Keyboard".

(** The registrations of [main], in its order: of [syscall_init], [serial_init_queue] and [ide_init],
    which do more, the part that concerns the table. *)
Definition main_interrupts : M intrs unit :=
  intr_init;;
  timer_init;;
  kbd_init;;
  exception_init;;
  intr_register_int 48 3 INTR_ON SyscallHandler "syscall";;
  intr_register_ext 36 SerialInterrupt "serial";;
  intr_register_ext 46 IdeInterrupt "ide0";;
  intr_register_ext 47 IdeInterrupt "ide1".

(** * Handling interrupts *)

Definition thread_tick : M intrs unit :=
  t ← on_sched thread_current;
  s ← mget;
  (if t =? idle_thread (sched s) then change (set_clock (ticks s) (s64 (idle_ticks s + 1)) (user_ticks s) (kernel_ticks s))
   else if has_pagedir t then change (set_clock (ticks s) (idle_ticks s) (s64 (user_ticks s + 1)) (kernel_ticks s))
   else change (set_clock (ticks s) (idle_ticks s) (user_ticks s) (s64 (kernel_ticks s + 1))));;
  on_sched (update (fun k => set_ticks (thread_ticks k + 1) k));;
  s ← mget;
  if TIME_SLICE <=? thread_ticks (sched s) then intr_yield_on_return else mret tt.

Definition timer_interrupt : M intrs unit :=
  change (fun s => set_clock (s64 (ticks s + 1)) (idle_ticks s) (user_ticks s) (kernel_ticks s) s);;
  thread_tick.

(** [thread_yield] up to the switch to the next thread. *)
Definition thread_yield : M intrs unit :=
  on_sched thread_current;;
  c ← intr_context;
  ASSERT (negb c);;
  intr_disable;;
  on_sched Sched.thread_yield.

Definition invoke (h : handler) (f : intr_frame) : M intrs unit :=
  match h with TimerInterrupt => timer_interrupt | _ => others h f end.

Definition unexpected_interrupt (f : intr_frame) : M intrs unit :=
  s ← mget;
  let i := Z.to_nat (vec_no f) in
  let n := u32 (unexpected_cnt s !!! i + 1) in
  mput (set_unexpected (<[i := n]> (unexpected_cnt s))
    (if Z.land n (u32 (n - 1)) =? 0 then reported s ++ [(vec_no f, intr_names s !!! i)] else reported s) s).

Definition intr_handler (f : intr_frame) : M intrs unit :=
  let external := (0x20 <=? vec_no f) && (vec_no f <? 0x30) in
  (if external then
     level ← intr_get_level;
     ASSERT (bool_decide (level = INTR_OFF));;
     c ← intr_context;
     ASSERT (negb c);;
     change (set_context true false)
   else mret tt);;
  s ← mget;
  (match intr_handlers s !!! Z.to_nat (vec_no f) with
   | Some h => invoke h f
   | None => if (vec_no f =? 0x27) || (vec_no f =? 0x2f) then mret tt else unexpected_interrupt f
   end);;
  if external then
    level ← intr_get_level;
    ASSERT (bool_decide (level = INTR_OFF));;
    c ← intr_context;
    ASSERT c;;
    change (fun s => set_context false (yield_on_return s) s);;
    pic_end_of_interrupt (vec_no f);;
    s ← mget;
    if yield_on_return s then thread_yield else mret tt
  else mret tt.

(** * The processor *)

(** What the processor reads from a gate. *)
Definition gate_offset (g : Z) : Z := Z.land g 0xffff + Z.shiftl (Z.shiftr g 48) 16.
Definition gate_selector (g : Z) : Z := Z.land (Z.shiftr g 16) 0xffff.
Definition gate_type (g : Z) : Z := Z.land (Z.shiftr g 40) 0x1f.
Definition gate_dpl (g : Z) : Z := Z.land (Z.shiftr g 45) 3.
Definition gate_present (g : Z) : bool := Z.testbit g 47.

(** The stub at an address of code. *)
Definition stub_at (a : Z) : option nat := snd <$> list_find (fun i => intr_stubs i = a) (seq 0 INTR_CNT).

(** Interrupt [vec] goes through its gate, which turns interrupts off if it is an interrupt gate;
    the stub that it leads to calls [intr_handler] with its own number in the frame. *)
Definition enter (vec : nat) (f : intr_frame) : M intrs unit :=
  s ← mget;
  let g := idt s !!! vec in
  if gate_present g && (gate_selector g =? SEL_KCSEG) then
    (if gate_type g =? 14 then change (fun s => set_eflags (Z.ldiff (eflags s) FLAG_IF) s) else mret tt);;
    match stub_at (gate_offset g) with
    | Some v => intr_handler (mk_frame (Z.of_nat v) (error_code f) (eip f) (cs f) (f_eflags f) (f_esp f))
    | None => mfail Fault
    end
  else mfail Fault.

(** [INT vec] in a user program: a general protection exception unless the gate lets ring 3 in. *)
Definition user_int (vec : nat) (f : intr_frame) : M intrs unit :=
  s ← mget;
  if gate_dpl (idt s !!! vec) <? 3 then enter 13 (mk_frame 13 (8 * Z.of_nat vec + 2) (eip f) (cs f) (f_eflags f) (f_esp f))
  else enter vec f.
End Machine.

(** * Gates that the processor reads back *)

Record gate_is (g function dpl type : Z) : Prop := {
  gi_offset : gate_offset g = function;
  gi_selector : gate_selector g = SEL_KCSEG;
  gi_type : gate_type g = type;
  gi_dpl : gate_dpl g = dpl;
  gi_present : gate_present g = true
}.

#[local] Ltac divlia := Z.to_euclidean_division_equations; lia.

Lemma gate_value f dpl type : 0 <= f < 2 ^ 32 -> 0 <= dpl <= 3 -> 0 <= type <= 15 ->
  let e0 := u32 (Z.lor (Z.land f 0xffff) (Z.shiftl SEL_KCSEG 16)) in
  let e1 := u32 (Z.lor (Z.lor (Z.lor (Z.lor (Z.land f 0xffff0000) (Z.shiftl 1 15)) (Z.shiftl dpl 13)) (Z.shiftl 0 12)) (Z.shiftl type 8)) in
  Z.lor e0 (u64 (Z.shiftl e1 32)) = f mod 65536 + 65536 * 8 + 2 ^ 32 * (256 * type + 8192 * dpl + 32768 + 65536 * (f / 65536)).
Proof.
  intros Hf Hd Ht. cbn zeta. change 0xffff with (Z.ones 16) at 1. rewrite Z.land_ones by lia.
  change 0xffff0000 with (Z.shiftl (Z.ones 16) 16). rewrite (land_high 16 16) by divlia.
  change (Z.shiftl SEL_KCSEG 16) with 524288. change (Z.shiftl 1 15) with 32768. change (Z.shiftl 0 12) with 0. rewrite Z.lor_0_r.
  rewrite !Z.shiftl_mul_pow2 by divlia. change (2 ^ 16) with 65536. change (2 ^ 13) with 8192. change (2 ^ 8) with 256.
  rewrite (Z.lor_comm (f mod 65536)). rewrite (lor_add 16 (f mod 65536)) by divlia.
  rewrite (lor_add 16 32768) by divlia. rewrite (lor_add 15 (dpl * 8192)) by divlia. rewrite (lor_add 13 (type * 256)) by divlia.
  unfold u32, u64. rewrite (Z.mod_small (524288 + _)) by divlia.
  rewrite (Z.mod_small (f / 65536 * 65536 + _ + _ + _)) by divlia.
  rewrite (Z.mod_small (_ * 2 ^ 32)) by divlia. rewrite Z.lor_comm, (lor_add 32) by divlia. divlia.
Qed.

Lemma wp_make_gate f dpl type s (Q : Z -> intrs -> Prop) : 0 < f < 2 ^ 32 -> 0 <= dpl <= 3 -> 0 <= type <= 15 ->
  (forall g, gate_is g f dpl type -> Q g s) -> wp (make_gate f dpl type) s Q.
Proof.
  intros Hf Hd Ht HQ. unfold make_gate. apply wp_bind, wp_assert; [unfold NULL; lia|]. apply wp_bind, wp_assert; [lia|].
  apply wp_bind, wp_assert; [lia|]. apply wp_ret, HQ. rewrite gate_value by divlia. split.
  - unfold gate_offset. change 0xffff with (Z.ones 16). rewrite Z.land_ones, Z.shiftr_div_pow2, Z.shiftl_mul_pow2 by divlia. divlia.
  - unfold gate_selector, SEL_KCSEG. change 0xffff with (Z.ones 16). rewrite Z.shiftr_div_pow2, Z.land_ones by divlia. divlia.
  - unfold gate_type. change 0x1f with (Z.ones 5). rewrite Z.shiftr_div_pow2, Z.land_ones by divlia. divlia.
  - unfold gate_dpl. change 3 with (Z.ones 2) at 1. rewrite Z.shiftr_div_pow2, Z.land_ones by divlia. divlia.
  - unfold gate_present. rewrite Z.testbit_true by divlia. divlia.
Qed.

Lemma wp_change_intr f s (Q : unit -> intrs -> Prop) : Q tt (f s) -> wp (change f) s Q.
Proof. intros HQ. by apply wp_bind, wp_get, wp_put. Qed.

Lemma wp_on_sched {A} (c : M kstate A) s (Q : A -> intrs -> Prop) : wp c (sched s) (fun a k => Q a (set_sched k s)) -> wp (on_sched c) s Q.
Proof. unfold wp, on_sched. destruct (c (sched s)) as [[a k]|e]; auto. Qed.

(** * The tables *)

Definition type_of (level : intr_level) : Z := if bool_decide (level = INTR_ON) then 15 else 14.

Section Tables.
Context (intr_stubs : nat -> Z) (idt_addr : Z).
Hypothesis stubs_range : forall i, (i < INTR_CNT)%nat -> 0 < intr_stubs i < 2 ^ 32.

(** The rows registered so far; the other vectors have an interrupt gate for ring 0. *)
Record tables_ok (R : gmap nat (handler * Z * intr_level)) (s : intrs) : Prop := {
  to_idt : length (idt s) = INTR_CNT;
  to_handlers : length (intr_handlers s) = INTR_CNT;
  to_rows : forall i, (i < INTR_CNT)%nat ->
    match R !! i with
    | Some (h, dpl, level) => intr_handlers s !!! i = Some h /\ gate_is (idt s !!! i) (intr_stubs i) dpl (type_of level)
    | None => intr_handlers s !!! i = None /\ gate_is (idt s !!! i) (intr_stubs i) 0 14
    end
}.

Lemma tables_same R s s' : tables_ok R s -> idt s' = idt s -> intr_handlers s' = intr_handlers s -> tables_ok R s'.
Proof. intros [H1 H2 H3] E1 E2. by split; rewrite ?E1, ?E2. Qed.

Lemma wp_register_handler R v dpl level h name s (Q : unit -> intrs -> Prop) :
  tables_ok R s -> (v < INTR_CNT)%nat -> R !! v = None -> 0 <= dpl <= 3 ->
  (forall t hs n, let s' := set_tables t hs n s in tables_ok (<[v := (h, dpl, level)]> R) s' -> Q tt s') ->
  wp (register_handler intr_stubs v dpl level h name) s Q.
Proof.
  intros [H1 H2 H3] Hv HR Hd HQ. unfold register_handler. apply wp_bind, wp_get. pose proof (H3 v Hv) as Hrow. rewrite HR in Hrow. destruct Hrow as [Hh _].
  apply wp_bind, wp_assert; [by rewrite bool_decide_true|]. apply wp_bind.
  assert (forall g, gate_is g (intr_stubs v) dpl (type_of level) ->
    wp (change (fun s => set_tables (<[v := g]> (idt s)) (<[v := Some h]> (intr_handlers s)) (<[v := name]> (intr_names s)) s)) s Q) as Hend.
  { intros g Hg. apply wp_change_intr, HQ. split; cbn; rewrite ?length_insert; [done..|]. intros i Hi. destruct (decide (i = v)) as [->|Hne].
    - rewrite lookup_insert_eq, !list_lookup_total_insert_eq by lia. done.
    - rewrite lookup_insert_ne, !list_lookup_total_insert_ne by done. by apply H3. }
  unfold type_of in Hend. case_bool_decide; (apply wp_make_gate; [by apply stubs_range|lia|lia|exact Hend]).
Qed.

Lemma wp_register_ext R v h name s (Q : unit -> intrs -> Prop) : tables_ok R s -> (32 <= v <= 47)%nat -> R !! v = None ->
  (forall t hs n, let s' := set_tables t hs n s in tables_ok (<[v := (h, 0, INTR_OFF)]> R) s' -> Q tt s') -> wp (intr_register_ext intr_stubs v h name) s Q.
Proof. intros Ht Hv HR HQ. unfold intr_register_ext. apply wp_bind, wp_assert; [rewrite andb_true_iff, !Nat.leb_le; lia|]. apply (wp_register_handler R); [done|unfold INTR_CNT; lia|done|lia|done]. Qed.

Lemma wp_register_int R v dpl level h name s (Q : unit -> intrs -> Prop) : tables_ok R s -> (v < 256)%nat -> (v < 32 \/ 47 < v)%nat -> R !! v = None -> 0 <= dpl <= 3 ->
  (forall t hs n, let s' := set_tables t hs n s in tables_ok (<[v := (h, dpl, level)]> R) s' -> Q tt s') -> wp (intr_register_int intr_stubs v dpl level h name) s Q.
Proof. intros Ht H256 Hv HR Hd HQ. unfold intr_register_int. apply wp_bind, wp_assert; [rewrite orb_true_iff, !Nat.ltb_lt; lia|]. by apply (wp_register_handler R). Qed.

Lemma wp_intr_init s (Q : unit -> intrs -> Prop) : idt s = replicate INTR_CNT 0 -> intr_handlers s = replicate INTR_CNT None ->
  (forall t n o, let s' := set_tables t (intr_handlers s) n (set_idtr (make_idtr_operand 2047 idt_addr) (set_outs (outs s ++ o) s)) in tables_ok ∅ s' -> Q tt s') ->
  wp (intr_init intr_stubs idt_addr) s Q.
Proof.
  intros Hi Hh HQ. unfold intr_init, pic_init, outb. apply wp_bind. do 11 (apply wp_bind, wp_change_intr). apply wp_change_intr. cbn [outs set_outs]. rewrite <-!app_assoc.
  set (s1 := set_outs _ _). assert (exists o, s1 = set_outs (outs s ++ o) s) as [o Eo] by (eexists; reflexivity). clearbody s1. subst s1. apply wp_bind.
  apply (wp_for_each (fun k s' => exists t, s' = set_tables t (intr_handlers s) (intr_names s) (set_outs (outs s ++ o) s) /\ length t = INTR_CNT /\
    forall i, (i < k)%nat -> gate_is (t !!! i) (intr_stubs i) 0 14)).
  - exists (idt s). split; [by destruct s|]. split; [by rewrite Hi|lia].
  - intros k x s' Hx (t & -> & Hl & Hg). apply lookup_seq in Hx as [-> Hk]. apply wp_bind, wp_make_gate; [by apply stubs_range|lia|lia|]. intros g Hg'. apply wp_change_intr.
    exists (<[(0 + k)%nat := g]> t). split; [done|]. split; [by rewrite length_insert|]. intros i Hik. destruct (decide (i = k)) as [->|Hne]; [by rewrite list_lookup_total_insert_eq by lia|].
    rewrite list_lookup_total_insert_ne by (cbn; lia). apply Hg. lia.
  - intros s' (t & -> & Hl & Hg). rewrite length_seq in Hg. apply wp_bind, wp_change_intr, wp_change_intr. apply HQ. split; cbn; [done|by rewrite Hh|].
    intros i Hi'. rewrite lookup_empty, Hh. split; [by apply lookup_total_replicate_2|by apply Hg].
Qed.
End Tables.

(** * Levels *)

Definition level_of (s : intrs) : intr_level := if Z.land (eflags s) FLAG_IF =? 0 then INTR_OFF else INTR_ON.

Lemma if_flag x : Z.land x FLAG_IF = (if Z.testbit x 9 then FLAG_IF else 0).
Proof.
  change FLAG_IF with (2 ^ 9). apply Z.bits_inj'. intros n Hn. rewrite Z.land_spec, Z.pow2_bits_eqb by lia.
  destruct (Z.eqb_spec 9 n) as [<-|Hne]; [|rewrite andb_false_r; destruct (Z.testbit x 9); [by rewrite Z.pow2_bits_false|by rewrite Z.testbit_0_l]].
  rewrite andb_true_r. destruct (Z.testbit x 9) eqn:E; [by rewrite Z.pow2_bits_true|by rewrite Z.testbit_0_l].
Qed.

Lemma level_bit s : level_of s = if Z.testbit (eflags s) 9 then INTR_ON else INTR_OFF.
Proof. unfold level_of. rewrite if_flag. by destruct (Z.testbit (eflags s) 9). Qed.

Lemma level_cli s x : level_of (set_eflags (Z.ldiff x FLAG_IF) s) = INTR_OFF.
Proof. rewrite level_bit. cbn [eflags set_eflags]. rewrite Z.ldiff_spec. change (Z.testbit FLAG_IF 9) with true. by rewrite andb_false_r. Qed.
Lemma level_sti s x : level_of (set_eflags (Z.lor x FLAG_IF) s) = INTR_ON.
Proof. rewrite level_bit. cbn [eflags set_eflags]. rewrite Z.lor_spec. change (Z.testbit FLAG_IF 9) with true. by rewrite orb_true_r. Qed.

Lemma wp_intr_disable s (Q : intr_level -> intrs -> Prop) :
  (forall x, let s' := set_eflags x s in level_of s' = INTR_OFF -> Q (level_of s) s') -> wp intr_disable s Q.
Proof. intros HQ. apply wp_bind. unfold intr_get_level. apply wp_bind, wp_get, wp_ret, wp_bind, wp_change_intr, wp_ret, HQ, level_cli. Qed.

Lemma wp_intr_enable s (Q : intr_level -> intrs -> Prop) : in_external_intr s = false ->
  (forall x, let s' := set_eflags x s in level_of s' = INTR_ON -> Q (level_of s) s') -> wp intr_enable s Q.
Proof.
  intros Hc HQ. apply wp_bind. unfold intr_get_level, intr_context. apply wp_bind, wp_get, wp_ret, wp_bind, wp_bind, wp_get, wp_ret, wp_bind, wp_assert; [by rewrite Hc|].
  apply wp_bind, wp_change_intr, wp_ret, HQ, level_sti.
Qed.

Lemma wp_intr_set_level l s (Q : intr_level -> intrs -> Prop) : in_external_intr s = false ->
  (forall x, let s' := set_eflags x s in level_of s' = l -> Q (level_of s) s') -> wp (intr_set_level l) s Q.
Proof. intros Hc HQ. unfold intr_set_level. case_bool_decide as E; [subst l; by apply wp_intr_enable|]. apply wp_intr_disable. intros x s' Hl. apply HQ. destruct l; [done|by destruct E]. Qed.

Lemma wp_pit s channel mode frequency (Q : unit -> intrs -> Prop) : (channel = 0 \/ channel = 2) -> (mode = 2 \/ mode = 3) -> in_external_intr s = false ->
  (forall x, let s' := set_eflags x (set_outs (outs s ++ [(0x43, u8 (64 * channel + 48 + 2 * mode)); (0x40 + channel, pit_count frequency mod 256); (0x40 + channel, pit_count frequency / 256)]) s) in
    level_of s' = level_of s -> Q tt s') -> wp (pit_configure_channel channel mode frequency) s Q.
Proof.
  intros Hch Hm Hc HQ. unfold pit_configure_channel. apply wp_bind, wp_assert; [lia|]. apply wp_bind, wp_assert; [lia|].
  apply wp_bind, wp_intr_disable. intros x1 s1 Hl1. do 3 (apply wp_bind, wp_change_intr). apply wp_bind, wp_intr_set_level; [done|].
  intros x s' Hl. apply wp_ret. subst s1 s'. cbn [outs set_eflags set_outs] in *. rewrite <-!app_assoc in *. cbn [app] in *.
  assert (0 <= pit_count frequency < 65536) as Hp.
  { unfold pit_count. destruct (Z.ltb_spec frequency 19); [lia|]. destruct (Z.ltb_spec PIT_HZ frequency); [lia|]. apply Z.mod_pos_bound. lia. }
  replace (u8 (Z.shiftr (pit_count frequency) 8)) with (pit_count frequency / 256) in * by (unfold u8; rewrite Z.shiftr_div_pow2 by lia; symmetry; apply Z.mod_small; divlia).
  replace (Z.lor (Z.lor (Z.shiftl channel 6) 48) (Z.shiftl mode 1)) with (64 * channel + 48 + 2 * mode) in * by (destruct Hch as [-> | ->], Hm as [-> | ->]; done).
  by apply HQ.
Qed.

(** * The interrupts of the kernel *)

Definition kernel_rows : list (nat * (handler * Z * intr_level)) := [
    (32%nat, (TimerInterrupt, 0, INTR_OFF)); (33%nat, (KeyboardInterrupt, 0, INTR_OFF));
    (3%nat, (Kill, 3, INTR_ON)); (4%nat, (Kill, 3, INTR_ON)); (5%nat, (Kill, 3, INTR_ON));
    (0%nat, (Kill, 0, INTR_ON)); (1%nat, (Kill, 0, INTR_ON)); (6%nat, (Kill, 0, INTR_ON)); (7%nat, (Kill, 0, INTR_ON));
    (11%nat, (Kill, 0, INTR_ON)); (12%nat, (Kill, 0, INTR_ON)); (13%nat, (Kill, 0, INTR_ON)); (16%nat, (Kill, 0, INTR_ON));
    (19%nat, (Kill, 0, INTR_ON)); (14%nat, (PageFault, 0, INTR_OFF)); (48%nat, (SyscallHandler, 3, INTR_ON));
    (36%nat, (SerialInterrupt, 0, INTR_OFF)); (46%nat, (IdeInterrupt, 0, INTR_OFF)); (47%nat, (IdeInterrupt, 0, INTR_OFF))
  ].
Definition kernel_table : gmap nat (handler * Z * intr_level) := foldl (fun R p => <[p.1 := p.2]> R) ∅ kernel_rows.

Section Boot.
Context (intr_stubs : nat -> Z) (idt_addr : Z).
Hypothesis stubs_range : forall i, (i < INTR_CNT)%nat -> 0 < intr_stubs i < 2 ^ 32.

#[local] Ltac register :=
  let t := fresh "t" in let hs := fresh "hs" in let n := fresh "n" in let s := fresh "s" in let H := fresh "Ht" in
  (eapply wp_register_int; [done|eassumption|lia|lia|done|lia|]) || (eapply wp_register_ext; [done|eassumption|lia|done|]);
  intros t hs n s H; subst s.

Lemma wp_main_interrupts s (Q : unit -> intrs -> Prop) : idt s = replicate INTR_CNT 0 -> intr_handlers s = replicate INTR_CNT None -> in_external_intr s = false ->
  (forall t hs n o x, let s' := set_tables t hs n (set_eflags x (set_idtr (make_idtr_operand 2047 idt_addr) (set_outs (outs s ++ o) s))) in
    tables_ok intr_stubs kernel_table s' -> level_of s' = level_of s -> Q tt s') ->
  wp (main_interrupts intr_stubs idt_addr) s Q.
Proof.
  intros Hi Hh Hc HQ. unfold main_interrupts, timer_init, kbd_init, exception_init. apply wp_bind, wp_intr_init; [done..|]. intros t n o s1 Ht. subst s1.
  apply wp_bind, wp_bind, wp_pit; [lia|lia|done|]. intros x s1 Hl. assert (tables_ok intr_stubs ∅ s1) as Ht1 by (by apply (tables_same _ _ _ _ Ht)). clear Ht. subst s1.
  register. apply wp_bind. register. apply wp_bind. do 12 (apply wp_bind; register). register. do 3 (apply wp_bind; register). register.
  cbn [outs set_tables set_idtr set_outs] in *. rewrite <-app_assoc in *. lazymatch goal with H : tables_ok _ _ (set_tables ?t ?hs ?n _) |- Q tt (set_tables ?t ?hs ?n _) => exact (HQ t hs n _ x H Hl) end.
Qed.
End Boot.

(** * Device interrupts *)

(** What is written to the interrupt controllers for an interrupt. *)
Definition eoi (v : nat) : list (Z * Z) := (0x20, 0x20) :: if (40 <=? v)%nat then [(0xa0, 0x20)] else [].

Lemma current_inv k t k' : thread_current k = Ok (t, k') -> t = current k /\ k' = k.
Proof.
  unfold thread_current, get_thread, ASSERT, mget, mret, mbind, M_bind, M_ret. destruct (threads k !! current k) as [th|]; [|done]. cbn.
  case_bool_decide; [|done]. by intros [= <- <-].
Qed.

Lemma yield_current k k' : Sched.thread_yield k = Ok (tt, k') -> thread_current k = Ok (current k, k).
Proof.
  unfold Sched.thread_yield, mbind at 1, M_bind at 1. destruct (thread_current k) as [[t k1]|] eqn:E; [|done]. intros _. by destruct (current_inv _ _ _ E) as [-> ->].
Qed.

Lemma tick_inv k k' : Sched.thread_tick k = Ok (tt, k') -> thread_current k = Ok (current k, k) /\
  let k1 := set_ticks (thread_ticks k + 1) k in if TIME_SLICE <=? thread_ticks k + 1 then Sched.thread_yield k1 = Ok (tt, k') else k' = k1.
Proof.
  unfold Sched.thread_tick, mbind at 1, M_bind at 1. destruct (thread_current k) as [[t k1]|] eqn:E; [|done]. destruct (current_inv _ _ _ E) as [-> ->]. intros H. split; [done|].
  unfold mbind, M_bind, mget, update, mput, mret, M_ret in H. cbn in H. cbn zeta. destruct (TIME_SLICE <=? thread_ticks k + 1); [done|by injection H].
Qed.

Section Handling.
Context (intr_stubs : nat -> Z) (has_pagedir : Z -> bool) (others : handler -> intr_frame -> M intrs unit).
Hypothesis stubs_inj : forall i j, (i < INTR_CNT)%nat -> (j < INTR_CNT)%nat -> intr_stubs i = intr_stubs j -> i = j.

Lemma stub_at_ok i : (i < INTR_CNT)%nat -> stub_at intr_stubs (intr_stubs i) = Some i.
Proof.
  intros Hi. unfold stub_at. replace (list_find _ _) with (Some (i, i)); [done|]. symmetry. apply list_find_Some. split_and!; [by apply lookup_seq|done|].
  intros j y Hj Hlt Heq. apply lookup_seq in Hj as [-> Hj]. cbn in Heq. apply stubs_inj in Heq; lia.
Qed.

(** Entering through a gate of the table. *)
Lemma wp_enter R v f s (Q : unit -> intrs -> Prop) : tables_ok intr_stubs R s -> (v < INTR_CNT)%nat ->
  wp (intr_handler has_pagedir others (mk_frame (Z.of_nat v) (error_code f) (eip f) (cs f) (f_eflags f) (f_esp f)))
    (match R !! v with Some (_, _, INTR_ON) => s | _ => set_eflags (Z.ldiff (eflags s) FLAG_IF) s end) Q ->
  wp (enter intr_stubs has_pagedir others v f) s Q.
Proof.
  intros Ht Hv H. pose proof (to_rows _ _ _ Ht v Hv) as Hrow. unfold enter. apply wp_bind, wp_get. cbv zeta.
  assert (exists dpl type, gate_is (idt s !!! v) (intr_stubs v) dpl type /\ (type = 14 <-> match R !! v with Some (_, _, INTR_ON) => False | _ => True end)) as (dpl & type & [G1 G2 G3 G4 G5] & Hty).
  { destruct (R !! v) as [[[h d] []]|]; destruct Hrow as [_ Hg]; eexists _, _; (split; [exact Hg|]); done. }
  rewrite G5, G2, G3, G1, stub_at_ok by done. cbn [andb]. rewrite Z.eqb_refl. apply wp_bind. destruct (Z.eqb_spec type 14) as [E|E].
  - apply wp_change_intr. destruct (R !! v) as [[[h d] []]|]; [done|by destruct (proj1 Hty E)|done].
  - apply wp_ret. destruct (R !! v) as [[[h d] []]|]; [by destruct E; apply Hty|done|by destruct E; apply Hty].
Qed.

Definition frame_no (f : intr_frame) (v : nat) : Prop := vec_no f = Z.of_nat v.

(** The work between the two parts of [intr_handler] that only external interrupts have. *)
Definition handler_body (f : intr_frame) : M intrs unit :=
  s ← mget;
  match intr_handlers s !!! Z.to_nat (vec_no f) with
  | Some h => invoke has_pagedir others h f
  | None => if (vec_no f =? 0x27) || (vec_no f =? 0x2f) then mret tt else unexpected_interrupt f
  end.

Lemma wp_intr_handler_ext v f s (Q : unit -> intrs -> Prop) : frame_no f v -> (32 <= v < 48)%nat -> level_of s = INTR_OFF -> in_external_intr s = false ->
  wp (handler_body f) (set_context true false s) (fun _ s1 => level_of s1 = INTR_OFF /\ in_external_intr s1 = true /\
    let s2 := set_outs (outs s1 ++ eoi v) (set_context false (yield_on_return s1) s1) in
    if yield_on_return s1 then wp thread_yield s2 Q else Q tt s2) ->
  wp (intr_handler has_pagedir others f) s Q.
Proof.
  intros Hf Hv Hl Hc H. unfold intr_handler. unfold frame_no in Hf. replace ((0x20 <=? vec_no f) && (vec_no f <? 0x30)) with true by lia.
  apply wp_bind. apply wp_bind. unfold intr_get_level at 1. apply wp_bind, wp_get, wp_ret. fold (level_of s). rewrite Hl. apply wp_bind, wp_assert; [done|].
  apply wp_bind, wp_bind, wp_get, wp_ret, wp_bind, wp_assert; [by rewrite Hc|]. apply wp_change_intr, wp_bind, wp_get, wp_bind.
  eapply wp_mono; [exact (wp_bind_inv _ _ _ _ H)|]. intros [] s1 (Hl1 & Hc1 & Hend). apply wp_bind. unfold intr_get_level. apply wp_bind, wp_get, wp_ret. fold (level_of s1). rewrite Hl1.
  apply wp_bind, wp_assert; [done|]. apply wp_bind, wp_bind, wp_get, wp_ret, wp_bind, wp_assert; [done|]. apply wp_bind, wp_change_intr, wp_bind.
  assert (forall s3, s3 = set_outs (outs s1 ++ eoi v) (set_context false (yield_on_return s1) s1) -> wp (s ← mget; if yield_on_return s then thread_yield else mret tt) s3 Q) as Hy.
  { intros s3 ->. apply wp_bind, wp_get. cbn [yield_on_return set_outs set_context]. by destruct (yield_on_return s1). }
  unfold pic_end_of_interrupt. apply wp_bind, wp_assert; [lia|]. apply wp_bind, wp_change_intr. unfold eoi in Hy. destruct (Z.leb_spec 0x28 (vec_no f)), (Nat.leb_spec 40 v); try lia.
  - apply wp_change_intr, Hy. cbn [outs set_outs set_context]. by rewrite <-app_assoc.
  - by apply wp_ret, Hy.
Qed.

(** What the handlers of devices promise, of the files that have them: they neither turn
    interrupts on nor change the tables, and leave threads in a state that steps lead to. *)
Definition device_ok (h : handler) : Prop := forall f s, in_external_intr s = true -> level_of s = INTR_OFF -> reachable (sched s) ->
  wp (others h f) s (fun _ s' => in_external_intr s' = true /\ level_of s' = INTR_OFF /\ reachable (sched s') /\
    idt s' = idt s /\ intr_handlers s' = intr_handlers s /\ yield_on_return s' = yield_on_return s).

Lemma wp_timer_interrupt s (Q : unit -> intrs -> Prop) : in_external_intr s = true -> yield_on_return s = false -> reachable (sched s) ->
  (forall k' i u n, Sched.thread_tick (sched s) = Ok (tt, k') -> let k1 := set_ticks (thread_ticks (sched s) + 1) (sched s) in
    Q tt (set_context true (TIME_SLICE <=? thread_ticks (sched s) + 1) (set_sched k1 (set_clock (s64 (ticks s + 1)) i u n s)))) ->
  wp (timer_interrupt has_pagedir) s Q.
Proof.
  intros Hc Hy Hr HQ. pose proof (step_ok Tick (sched s) (reachable_inv _ Hr) I) as Hstep. apply wp_unfold in Hstep as ([] & k' & Hk & _). cbn [run] in Hk.
  destruct (tick_inv _ _ Hk) as [Hcur _]. unfold timer_interrupt. apply wp_bind, wp_change_intr. unfold thread_tick. apply wp_bind, wp_on_sched. eapply wp_ok; [exact Hcur|].
  apply wp_bind, wp_get, wp_bind.
  assert (forall i u n, wp (on_sched (update (fun k => set_ticks (thread_ticks k + 1) k));; s ← mget; if TIME_SLICE <=? thread_ticks (sched s) then intr_yield_on_return else mret tt)
    (set_clock (s64 (ticks s + 1)) i u n s) Q) as Hend.
  { intros i u n. specialize (HQ k' i u n Hk). apply wp_bind, wp_on_sched. apply wp_bind, wp_get, wp_put, wp_bind, wp_get. cbn [sched set_sched set_clock thread_ticks set_ticks] in *.
    destruct (TIME_SLICE <=? thread_ticks (sched s) + 1).
    - apply wp_bind, wp_bind, wp_get, wp_ret, wp_bind, wp_assert; [done|]. apply wp_change_intr. cbn [in_external_intr set_sched set_clock]. by rewrite Hc.
    - apply wp_ret. replace (set_sched _ _) with (set_context true false (set_sched (set_ticks (thread_ticks (sched s) + 1) (sched s)) (set_clock (s64 (ticks s + 1)) i u n s))); [done|].
      unfold set_context, set_sched, set_clock. cbn. by rewrite <-Hc, <-Hy. }
  destruct (_ =? _); [apply wp_change_intr, Hend|]. destruct (has_pagedir _); apply wp_change_intr, Hend.
Qed.
End Handling.

(** * The kernel under interrupts *)

Section Kernel.
Context (intr_stubs : nat -> Z) (has_pagedir : Z -> bool) (others : handler -> intr_frame -> M intrs unit).

(** Between interrupts. *)
Record mach_ok (s : intrs) : Prop := {
  mo_tables : tables_ok intr_stubs kernel_table s;
  mo_context : in_external_intr s = false;
  mo_sched : reachable (sched s)
}.

(** A device raises its line: the interrupt waits while interrupts are off.  Afterwards they are
    on again, by the return of the interrupted thread or of the one that was switched to. *)
Definition irq (p : nat * intr_frame) : M intrs unit :=
  s ← mget;
  match level_of s with
  | INTR_ON => enter intr_stubs has_pagedir others p.1 p.2;; change (fun s' => set_eflags (Z.lor (eflags s') FLAG_IF) s')
  | INTR_OFF => mret tt
  end.

Hypothesis stubs_inj : forall i j, (i < INTR_CNT)%nat -> (j < INTR_CNT)%nat -> intr_stubs i = intr_stubs j -> i = j.

Lemma ext_row v : (32 <= v < 48)%nat -> kernel_table !! v = None \/ exists h, kernel_table !! v = Some (h, 0, INTR_OFF) /\ (v = 32%nat \/ h ∈ [KeyboardInterrupt; SerialInterrupt; IdeInterrupt]).
Proof.
  intros Hv. assert (v ∈ seq 32 16) as Hin by (apply elem_of_seq; lia). revert Hin. clear Hv.
  apply (proj1 (Forall_forall (fun v => kernel_table !! v = None \/ exists h, kernel_table !! v = Some (h, 0, INTR_OFF) /\ (v = 32%nat \/ h ∈ [KeyboardInterrupt; SerialInterrupt; IdeInterrupt])) (seq 32 16))).
  repeat (apply Forall_cons; split; [first [left; reflexivity|right; eexists; split; [reflexivity|first [by left|right; set_solver]]]|]). apply Forall_nil. done.
Qed.

(** A device interrupt enters [intr_handler] with interrupts off. *)
Lemma wp_enter_ext v f s (Q : unit -> intrs -> Prop) : mach_ok s -> (32 <= v < 48)%nat ->
  (forall f' x, frame_no f' v -> let s0 := set_eflags x s in level_of s0 = INTR_OFF -> mach_ok s0 ->
    wp (handler_body has_pagedir others f') (set_context true false s0) (fun _ s1 => level_of s1 = INTR_OFF /\ in_external_intr s1 = true /\
      let s2 := set_outs (outs s1 ++ eoi v) (set_context false (yield_on_return s1) s1) in
      if yield_on_return s1 then wp thread_yield s2 Q else Q tt s2)) ->
  wp (enter intr_stubs has_pagedir others v f) s Q.
Proof.
  intros [Ht Hc Hr] Hv H. apply (wp_enter _ _ _ stubs_inj kernel_table); [done|unfold INTR_CNT; lia|].
  assert (match kernel_table !! v with Some (_, _, INTR_ON) => s | _ => set_eflags (Z.ldiff (eflags s) FLAG_IF) s end = set_eflags (Z.ldiff (eflags s) FLAG_IF) s) as ->.
  { destruct (ext_row v Hv) as [->|(h & -> & _)]; done. }
  apply (wp_intr_handler_ext _ _ v); [done|done|apply level_cli|done|]. apply H; [done|apply level_cli|]. split; [|done..]. by eapply tables_same.
Qed.

(** The timer: a step of the scheduler. *)
Lemma wp_enter_timer f s (Q : unit -> intrs -> Prop) : mach_ok s ->
  (forall s', mach_ok s' -> level_of s' = INTR_OFF -> Sched.run Tick (sched s) = Ok (tt, sched s') -> ticks s' = s64 (ticks s + 1) -> outs s' = outs s ++ [(0x20, 0x20)] -> Q tt s') ->
  wp (enter intr_stubs has_pagedir others 32 f) s Q.
Proof.
  intros Hok HQ. apply wp_enter_ext; [done|lia|]. intros f' x Hf s0 Hl Hok0. unfold handler_body. apply wp_bind, wp_get. unfold frame_no in Hf. rewrite Hf.
  pose proof (to_rows _ _ _ (mo_tables _ Hok0) 32 ltac:(unfold INTR_CNT; lia)) as Hrow. change (kernel_table !! 32%nat) with (Some (TimerInterrupt, 0, INTR_OFF)) in Hrow. destruct Hrow as [Hh _].
  rewrite Nat2Z.id. cbn [intr_handlers set_context]. rewrite Hh. cbn [invoke]. apply wp_timer_interrupt; [done|done|apply (mo_sched _ Hok0)|]. intros k' i u n Hk k1. split; [exact Hl|]. split; [done|].
  cbn zeta. cbn [yield_on_return set_context]. destruct (tick_inv _ _ Hk) as [_ Hy]. cbn zeta in Hy. change (sched (set_context true false s0)) with (sched s) in *.
  assert (reachable k') as Hr' by (eapply (reach_step Tick); [apply (mo_sched _ Hok)|exact I|exact Hk]).
  destruct (TIME_SLICE <=? thread_ticks (sched s) + 1).
  - unfold thread_yield. apply wp_bind, wp_on_sched. eapply wp_ok; [exact (yield_current _ _ Hy)|]. apply wp_bind, wp_bind, wp_get, wp_ret, wp_bind, wp_assert; [done|].
    apply wp_bind, wp_intr_disable. intros y s2 Hl2. apply wp_on_sched. eapply wp_ok; [exact Hy|]. apply HQ; [|exact Hl2|exact Hk|done|done]. split; [|done|done]. by apply (tables_same _ _ s0); [apply Hok0|..].
  - subst k'. apply HQ; [|exact Hl|exact Hk|done|done]. split; [|done|done]. by apply (tables_same _ _ s0); [apply Hok0|..].
Qed.

Lemma wp_irq p s : (forall h, h ∈ [KeyboardInterrupt; SerialInterrupt; IdeInterrupt] -> device_ok others h) -> (32 <= p.1 < 48)%nat -> mach_ok s ->
  wp (irq p) s (fun _ s' => mach_ok s' /\ level_of s' = level_of s).
Proof.
  intros Hdev Hv Hok. unfold irq. apply wp_bind, wp_get. destruct (level_of s) eqn:Hl; [by apply wp_ret|]. apply wp_bind.
  apply (wp_mono _ _ (fun _ s' => mach_ok s')); [|intros [] s' [H1 H2 H3]; apply wp_change_intr; split; [split; [by eapply tables_same|done|done]|apply level_sti]].
  destruct p as [v f]. cbn [fst snd] in *. destruct (decide (v = 32%nat)) as [->|Hne]; [by apply wp_enter_timer|]. apply wp_enter_ext; [done|done|]. intros f' x Hf s0 Hl0 Hok0. clear Hok.
  pose proof (to_rows _ _ _ (mo_tables _ Hok0) v ltac:(unfold INTR_CNT; lia)) as Hrow. unfold handler_body. apply wp_bind, wp_get. unfold frame_no in Hf. rewrite Hf, Nat2Z.id. cbn [intr_handlers set_context].
  assert (forall s1 y, idt s1 = idt s0 -> intr_handlers s1 = intr_handlers s0 -> reachable (sched s1) -> mach_ok (set_outs (outs s1 ++ eoi v) (set_context false y s1))) as Hend.
  { intros s1 y E1 E2 Hr. split; [|done|done]. by apply (tables_same _ _ s0); [apply Hok0|..]. }
  destruct (ext_row v Hv) as [Hn|(h & Hs & Hin)].
  - rewrite Hn in Hrow. destruct Hrow as [-> _]. destruct (_ || _); [apply wp_ret|unfold unexpected_interrupt; apply wp_bind, wp_get, wp_put]; (split; [exact Hl0|split; [reflexivity|apply Hend; [reflexivity|reflexivity|exact (mo_sched _ Hok0)]]]).
  - rewrite Hs in Hrow. destruct Hrow as [-> _]. destruct Hin as [->|Hin]; [done|]. replace (invoke has_pagedir others h f') with (others h f') by (destruct h; [done..| |done|done|done]; set_solver).
    apply (wp_mono _ _ _ _ (Hdev h Hin f' (set_context true false s0) eq_refl Hl0 (mo_sched _ Hok0))). intros [] s1 (E1 & E2 & E3 & E4 & E5 & E6). split; [done|]. split; [done|]. cbn zeta. rewrite E6. by apply Hend.
Qed.
End Kernel.

(** * Unexpected interrupts *)

Lemma land_pred_pow2 n : 0 < n -> Z.land n (n - 1) = 0 <-> n = 2 ^ Z.log2 n.
Proof.
  intros Hn. pose proof (Z.log2_nonneg n) as Hl. pose proof (Z.log2_spec n Hn) as [H1 H2]. split.
  - intros H. destruct (decide (n = 2 ^ Z.log2 n)) as [|Hne]; [done|exfalso]. assert (Z.log2 (n - 1) = Z.log2 n) as E.
    { apply Z.log2_unique; lia. }
    assert (Z.testbit (Z.land n (n - 1)) (Z.log2 n) = true) as Hb; [|by rewrite H, Z.testbit_0_l in Hb].
    rewrite Z.land_spec, Z.bit_log2 by lia. rewrite <-E at 1. apply Z.bit_log2. pose proof (Z.pow_pos_nonneg 2 (Z.log2 n)). lia.
  - intros E. rewrite E at 1 2. replace (2 ^ Z.log2 n - 1) with (Z.ones (Z.log2 n)) by (rewrite Z.ones_equiv; lia). rewrite Z.land_ones by lia. apply Z.mod_same. pose proof (Z.pow_pos_nonneg 2 (Z.log2 n)). lia.
Qed.

Lemma log2_step n : 0 < n -> Z.log2 (n + 1) = Z.log2 n + (if Z.land (n + 1) n =? 0 then 1 else 0).
Proof.
  intros Hn. pose proof (land_pred_pow2 (n + 1) ltac:(lia)) as H. replace (n + 1 - 1) with n in H by lia. change (n + 1) with (Z.succ n) in *.
  destruct (Z.eqb_spec (Z.land (Z.succ n) n) 0) as [E|E].
  - apply Z.log2_eq_succ_iff_pow2; [done|]. eexists. by apply H.
  - destruct (Z.log2_succ_or n) as [E'|E']; [|lia]. apply Z.log2_eq_succ_iff_pow2 in E' as [b Hb]; [|done]. destruct E. apply H. rewrite Hb. destruct (Z.lt_ge_cases b 0); [rewrite Z.pow_neg_r in Hb by done; lia|]. by rewrite Z.log2_pow2.
Qed.

Definition log_reports (n : Z) : Z := if n =? 0 then 0 else Z.log2 n + 1.

(** Of [n] unexpected interrupts with one vector, as many are reported as there are powers of two
    up to [n]. *)
Lemma unexpected_reports f s n : Z.of_nat n < 2 ^ 32 -> 0 <= vec_no f -> (Z.to_nat (vec_no f) < length (unexpected_cnt s))%nat -> unexpected_cnt s !!! Z.to_nat (vec_no f) = 0 ->
  wp (for_each (fun _ => unexpected_interrupt f) (seq 0 n)) s (fun _ s' => exists r, reported s' = reported s ++ r /\ Z.of_nat (length r) = log_reports (Z.of_nat n) /\ Forall (fun x => x = (vec_no f, intr_names s !!! Z.to_nat (vec_no f))) r).
Proof.
  intros Hn Hv Hlen H0. set (v := Z.to_nat (vec_no f)) in *.
  apply (wp_for_each (fun k s' => (k <= n)%nat -> length (unexpected_cnt s') = length (unexpected_cnt s) /\ intr_names s' = intr_names s /\ unexpected_cnt s' !!! v = Z.of_nat k /\
    exists r, reported s' = reported s ++ r /\ Z.of_nat (length r) = log_reports (Z.of_nat k) /\ Forall (fun x => x = (vec_no f, intr_names s !!! v)) r)).
  - intros _. split_and!; [done..|]. exists []. rewrite app_nil_r. split_and!; [done..|constructor].
  - intros k x s1 Hx IH. apply lookup_seq in Hx as [_ Hk]. destruct IH as (E1 & E2 & E3 & r & Er & Hr & Hall); [lia|]. apply wp_bind, wp_get, wp_put. intros _. fold v. cbn [unexpected_cnt intr_names set_unexpected reported].
    rewrite E3, E2. unfold u32. rewrite !Z.mod_small by lia. rewrite length_insert, list_lookup_total_insert_eq by lia. split_and!; [done|done|lia|]. replace (Z.of_nat k + 1 - 1) with (Z.of_nat k) by lia.
    assert (log_reports (Z.of_nat k + 1) = log_reports (Z.of_nat k) + (if Z.land (Z.of_nat k + 1) (Z.of_nat k) =? 0 then 1 else 0)) as Elog.
    { unfold log_reports. destruct (Z.eqb_spec (Z.of_nat k) 0) as [->|Hk0]; [done|]. destruct (Z.eqb_spec (Z.of_nat k + 1) 0); [lia|]. rewrite log2_step by lia. lia. }
    replace (Z.of_nat (k + 1)) with (Z.of_nat k + 1) by lia. rewrite Elog. destruct (Z.land (Z.of_nat k + 1) (Z.of_nat k) =? 0).
    + exists (r ++ [(vec_no f, intr_names s !!! v)]). rewrite Er, app_assoc, length_app. split_and!; [done|cbn; lia|]. apply Forall_app. by repeat constructor.
    + exists r. split_and!; [done|lia|done].
  - intros s' H. rewrite length_seq in H. destruct H as (_ & _ & _ & H); [done|exact H].
Qed.

(** * Interrupts by instruction *)

Lemma row_dpl n : (n < INTR_CNT)%nat -> match kernel_table !! n with Some (_, d, _) => d = if decide (n ∈ [3; 4; 5; 48]%nat) then 3 else 0 | None => n ∉ [3; 4; 5; 48]%nat end.
Proof.
  intros Hn. assert (forallb (fun n => match kernel_table !! n with Some (_, d, _) => d =? (if decide (n ∈ [3; 4; 5; 48]%nat) then 3 else 0) | None => bool_decide (n ∉ [3; 4; 5; 48]%nat) end) (seq 0 INTR_CNT) = true) as H by (vm_compute; reflexivity).
  rewrite forallb_forall in H. specialize (H n). assert (In n (seq 0 INTR_CNT)) as Hin by (apply in_seq; lia). specialize (H Hin).
  destruct (kernel_table !! n) as [[[h d] l]|]; [by apply Z.eqb_eq|by apply bool_decide_eq_true in H].
Qed.

Lemma enter_trap intr_stubs has_pagedir others :
  (forall i j, (i < INTR_CNT)%nat -> (j < INTR_CNT)%nat -> intr_stubs i = intr_stubs j -> i = j) ->
  forall v h dpl f s, tables_ok intr_stubs kernel_table s -> kernel_table !! v = Some (h, dpl, INTR_ON) -> (v < INTR_CNT)%nat -> (v < 32 \/ 47 < v)%nat -> h ≠ TimerInterrupt ->
  enter intr_stubs has_pagedir others v f s = others h (mk_frame (Z.of_nat v) (error_code f) (eip f) (cs f) (f_eflags f) (f_esp f)) s.
Proof.
  intros Hinj v h dpl f s Ht Hk Hv Hext Hne. pose proof (to_rows _ _ _ Ht v Hv) as Hrow. rewrite Hk in Hrow. destruct Hrow as [Hh [G1 G2 G3 G4 G5]].
  unfold enter, mbind, M_bind, mget. rewrite G5, G2, G3, G1, (stub_at_ok _ Hinj) by done. cbn [andb]. rewrite Z.eqb_refl. change (type_of INTR_ON =? 14) with false. cbv iota.
  unfold mret, M_ret, intr_handler, mbind, M_bind, mget. cbn [vec_no]. replace ((0x20 <=? Z.of_nat v) && (Z.of_nat v <? 0x30)) with false by lia. cbv iota. unfold mret, M_ret. rewrite Nat2Z.id, Hh.
  replace (invoke has_pagedir others h) with (others h) by (by destruct h). by destruct (others h _ s) as [[[] s']|].
Qed.

(** * Theorems *)

(** After the registrations of [main], with any addresses of the stubs, no assertion has failed,
    and the processor reads from the table a present gate of the kernel's code segment to its stub
    for each of the 256 vectors: for the nineteen interrupts that have a handler with the privilege and kind that
    the handler asks for, for every other one an interrupt gate that user programs may not use. *)
Theorem main_interrupts_correct intr_stubs idt_addr s :
  (forall i, (i < INTR_CNT)%nat -> 0 < intr_stubs i < 2 ^ 32) -> idt s = replicate INTR_CNT 0 -> intr_handlers s = replicate INTR_CNT None -> in_external_intr s = false ->
  wp (main_interrupts intr_stubs idt_addr) s (fun _ s' => tables_ok intr_stubs kernel_table s' /\ in_external_intr s' = false /\ sched s' = sched s /\ level_of s' = level_of s /\
    idtr s' = make_idtr_operand 2047 idt_addr).
Proof. intros Hs Hi Hh Hc. apply wp_main_interrupts; [done..|]. intros t hs n o x s' Ht Hl. done. Qed.



(** C21: The timer interrupt, from the gate of vector 0x20 through [intr_handler] and [timer_interrupt]
    to the yield on return, is the step [Tick] of the scheduler, which thread switches included
    always succeeds; it counts one tick and is acknowledged once, to the master controller. *)
Theorem timer_interrupt_ticks intr_stubs has_pagedir others s f :
  (forall i j, (i < INTR_CNT)%nat -> (j < INTR_CNT)%nat -> intr_stubs i = intr_stubs j -> i = j) -> mach_ok intr_stubs s ->
  wp (enter intr_stubs has_pagedir others 32 f) s (fun _ s' => run Tick (sched s) = Ok (tt, sched s') /\ mach_ok intr_stubs s' /\
    ticks s' = s64 (ticks s + 1) /\ outs s' = outs s ++ [(0x20, 0x20)]).
Proof. intros Hinj Hok. by apply wp_enter_timer. Qed.

(** * Witnesses *)

Definition demo_stubs (i : nat) : Z := 0xc0020000 + Z.of_nat i.
Definition demo_off : intrs := mk_intrs (replicate INTR_CNT 0) (replicate INTR_CNT None) (replicate INTR_CNT ""%string) (replicate INTR_CNT 0) false false 2 0 [] [] booted 0 0 0 0.
Definition demo_on : intrs := match main_interrupts demo_stubs 0xc0030000 demo_off with Ok (_, s) => set_eflags 0x202 s | Err _ => demo_off end.
Definition demo_others (h : handler) (f : intr_frame) : M intrs unit := mret tt.

Lemma demo_stubs_inj i j : (i < INTR_CNT)%nat -> (j < INTR_CNT)%nat -> demo_stubs i = demo_stubs j -> i = j.
Proof. unfold demo_stubs. lia. Qed.

Lemma demo_stubs_range i : (i < INTR_CNT)%nat -> 0 < demo_stubs i < 2 ^ 32.
Proof. unfold demo_stubs, INTR_CNT. lia. Qed.

Lemma demo_on_ok : mach_ok demo_stubs demo_on.
Proof.
  assert (wp (main_interrupts demo_stubs 0xc0030000) demo_off (fun _ s' => mach_ok demo_stubs (set_eflags 0x202 s'))) as Hw.
  { apply wp_main_interrupts; [exact demo_stubs_range|done..|]. intros t hs n o x s' Ht Hl. split; [by eapply tables_same|done|apply reach_boot]. }
  unfold demo_on. by apply wp_unfold in Hw as (? & s' & -> & Hs).
Qed.

Lemma main_interrupts_correct_witness : in_external_intr demo_off = false /\
  wp (main_interrupts demo_stubs 0xc0030000) demo_off (fun _ s' => tables_ok demo_stubs kernel_table s' /\ in_external_intr s' = false /\ sched s' = sched demo_off /\ level_of s' = level_of demo_off /\
    idtr s' = make_idtr_operand 2047 0xc0030000).
Proof. split; [reflexivity|]. apply (main_interrupts_correct demo_stubs 0xc0030000 demo_off); [exact demo_stubs_range|reflexivity..]. Defined.



Lemma timer_interrupt_ticks_witness :
  wp (enter demo_stubs (fun _ => false) demo_others 32 (mk_frame 0 0 0 0 0 0)) demo_on (fun _ s' => run Tick (sched demo_on) = Ok (tt, sched s') /\ mach_ok demo_stubs s' /\
    ticks s' = s64 (ticks demo_on + 1) /\ outs s' = outs demo_on ++ [(0x20, 0x20)]).
Proof. apply (timer_interrupt_ticks demo_stubs (fun _ => false) demo_others demo_on); [exact demo_stubs_inj|exact demo_on_ok]. Defined.
