(* ===== verification/Switch.v ===== *)
(** src/threads/intr-stubs.S, src/threads/switch.S and the stacks that src/threads/thread.c builds:
    how control enters and leaves the kernel and moves between threads.

    The registers are a function from their names, memory is a byte memory.  The assembly is modelled instruction by instruction; [eip]
    changes only where the processor loads it from the stack.  An interrupt of a user program leaves a
    frame that agrees with [struct intr_frame] and restores every register; a thread that is
    switched away from continues where it was; a new thread starts in [kernel_thread]. *)
From stdpp Require Import base list numbers gmap fin_maps.
From Stdlib Require Import ZArith Lia.
From S2P Require Import Prelude Strings Vaddr.

Open Scope Z_scope.

(** * State *)

Inductive reg : Set := EAX | ECX | EDX | EBX | ESP | EBP | ESI | EDI | GS | FS | ES | DS | SS | CS | EFLAGS | EIP.
Definition reg_no (r : reg) : nat :=
  match r with EAX => 0 | ECX => 1 | EDX => 2 | EBX => 3 | ESP => 4 | EBP => 5 | ESI => 6 | EDI => 7
  | GS => 8 | FS => 9 | ES => 10 | DS => 11 | SS => 12 | CS => 13 | EFLAGS => 14 | EIP => 15 end.

Record cpu : Type := mk_cpu { regs : reg -> Z; ram : mem }.

Definition upd (r : reg) (v : Z) (f : reg -> Z) : reg -> Z := fun r' => if (reg_no r =? reg_no r')%nat then v else f r'.

Definition getr (r : reg) : M cpu Z := s ← mget; mret (regs s r).
Definition setr (r : reg) (v : Z) : M cpu unit := s ← mget; mput (mk_cpu (upd r v (regs s)) (ram s)).
Definition on_ram {A} (c : M mem A) : M cpu A := fun s =>
  match c (ram s) with Ok (a, m) => Ok (a, mk_cpu (regs s) m) | Err e => Err e end.
Definition load (a : Z) : M cpu Z := on_ram (load32 (u32 a)).
Definition store (a v : Z) : M cpu unit := on_ram (store32 (u32 a) v).

Definition pushl (v : Z) : M cpu unit :=
  sp ← getr ESP; setr ESP (u32 (sp - 4));; store (sp - 4) v.
Definition popl : M cpu Z :=
  sp ← getr ESP; v ← load sp; setr ESP (u32 (sp + 4));; mret v.
Definition push_reg (r : reg) : M cpu unit := v ← getr r; pushl v.
Definition pop_reg (r : reg) : M cpu unit := v ← popl; setr r v.
Definition add_esp (n : Z) : M cpu unit := sp ← getr ESP; setr ESP (u32 (sp + n)).

Definition pushal : M cpu unit :=
  sp ← getr ESP;
  push_reg EAX;; push_reg ECX;; push_reg EDX;; push_reg EBX;; pushl sp;; push_reg EBP;; push_reg ESI;; push_reg EDI.
(** The saved stack pointer is skipped. *)
Definition popal : M cpu unit :=
  pop_reg EDI;; pop_reg ESI;; pop_reg EBP;; add_esp 4;; pop_reg EBX;; pop_reg EDX;; pop_reg ECX;; pop_reg EAX.

(** * Interrupts *)

Definition SEL_KCSEG : Z := 0x08.
Definition SEL_KDSEG : Z := 0x10.
Definition SEL_UCSEG : Z := 0x1b.
Definition SEL_UDSEG : Z := 0x23.

(** An interrupt in user mode: the processor takes the stack of the TSS and saves on it what
    [IRET] needs, and an error code for some vectors. *)
Definition raise (esp0 : Z) (error : option Z) : M cpu unit :=
  ss ← getr SS; sp ← getr ESP;
  setr SS SEL_KDSEG;; setr ESP esp0;;
  pushl ss;; pushl sp;; push_reg EFLAGS;; push_reg CS;; push_reg EIP;;
  match error with Some e => pushl e | None => mret tt end;;
  setr CS SEL_KCSEG.

Definition iret : M cpu unit :=
  pop_reg EIP;; pop_reg CS;; pop_reg EFLAGS;;
  c ← getr CS;
  if Z.land c 3 =? 0 then mret tt
  else sp ← popl; ss ← popl; setr ESP sp;; setr SS ss.

(** The stubs of type [REAL]. *)
Definition stub_real (vec : nat) : bool := bool_decide (vec ∈ [8; 10; 11; 13; 14; 17; 24; 26; 27; 29; 30]%nat).

Definition stub (vec : nat) : M cpu unit :=
  (if stub_real vec then
     sp ← getr ESP; e ← load sp; pushl e;;
     sp ← getr ESP; bp ← getr EBP; store (sp + 4) bp
   else push_reg EBP;; pushl 0);;
  pushl (Z.of_nat vec).

(** [intr_entry] up to the call of [intr_handler], whose argument is the frame. *)
Definition intr_entry : M cpu Z :=
  push_reg DS;; push_reg ES;; push_reg FS;; push_reg GS;; pushal;;
  setr EAX SEL_KDSEG;; setr DS SEL_KDSEG;; setr ES SEL_KDSEG;;
  sp ← getr ESP; setr EBP (u32 (sp + 56));;
  pushl sp;;
  mret sp.

Definition intr_exit : M cpu unit :=
  popal;; pop_reg GS;; pop_reg FS;; pop_reg ES;; pop_reg DS;;
  add_esp 12;;
  iret.

(** An interrupt from entry to return; [handler] is [intr_handler]. *)
Definition interrupt (handler : Z -> M cpu unit) (esp0 : Z) (vec : nat) (error : option Z) : M cpu unit :=
  f ← (raise esp0 error;; stub vec;; intr_entry);
  handler f;;
  add_esp 4;;
  intr_exit.

(** The members of [struct intr_frame], by offset. *)
Definition o_edi : Z := 0.
Definition o_eax : Z := 28.
Definition o_vec_no : Z := 48.
Definition o_error_code : Z := 52.
Definition o_eip : Z := 60.
Definition o_cs : Z := 64.

(** exception.c: what [kill] does with the code segment of the frame, a member of 16 bits. *)
Definition kill {A} (thread_exit : M cpu A) (f : Z) : M cpu A :=
  cs ← on_ram (load_le 2 (f + o_cs));
  if cs =? SEL_UCSEG then thread_exit
  else if cs =? SEL_KCSEG then mfail Panic
  else thread_exit.

(** * Thread switches *)

Definition thread_stack_ofs : Z := 48.

(** [switch_threads (cur, next)], called with its arguments and the return address on the stack;
    [ret] is the last instruction. *)
Definition switch_threads : M cpu unit :=
  push_reg EBX;; push_reg EBP;; push_reg ESI;; push_reg EDI;;
  setr EDX thread_stack_ofs;;
  sp ← getr ESP; cur ← load (sp + 20); setr EAX cur;;
  sp ← getr ESP; dx ← getr EDX; store (cur + dx) sp;;
  next ← load (sp + 24); setr ECX next;;
  sp ← load (next + dx); setr ESP sp;;
  pop_reg EDI;; pop_reg ESI;; pop_reg EBP;; pop_reg EBX;;
  pop_reg EIP.

(** [switch_entry]; the call of [thread_schedule_tail] is a parameter. *)
Definition switch_entry (thread_schedule_tail : Z -> M cpu unit) : M cpu unit :=
  add_esp 8;;
  prev ← getr EAX;
  pushl prev;;
  thread_schedule_tail prev;;
  add_esp 4;;
  pop_reg EIP.

(** * Stacks in memory *)

Lemma wp_getr r s (Q : Z -> cpu -> Prop) : Q (regs s r) s -> wp (getr r) s Q.
Proof. intros HQ. by apply wp_bind, wp_get, wp_ret. Qed.
Lemma wp_setr r v s (Q : unit -> cpu -> Prop) : Q tt (mk_cpu (upd r v (regs s)) (ram s)) -> wp (setr r v) s Q.
Proof. intros HQ. by apply wp_bind, wp_get, wp_put. Qed.
Lemma wp_cpu_ram {A} (c : M mem A) s (Q : A -> cpu -> Prop) : wp c (ram s) (fun a m => Q a (mk_cpu (regs s) m)) -> wp (on_ram c) s Q.
Proof. unfold wp, on_ram. destruct (c (ram s)) as [[a m]|e]; auto. Qed.

Definition word (v : Z) : Prop := 0 <= v < 2 ^ 32.

(** [l] on the stack that ends at [hi] and has room down to [lo]; outside memory is [m0]. *)
Record stack (m0 : mem) (lo hi : Z) (l : list Z) (m : mem) : Prop := {
  sk_range : 0 <= lo /\ lo <= hi - 4 * Z.of_nat (length l) /\ hi <= 2 ^ 32;
  sk_room : mapped m lo (Z.to_nat (hi - lo));
  sk_words : bytes_at m (hi - 4 * Z.of_nat (length l)) (words32 l);
  sk_word : Forall word l;
  sk_same : forall i, ~ (lo <= i < hi) -> m !! i = m0 !! i
}.

Definition top (hi : Z) (l : list Z) : Z := hi - 4 * Z.of_nat (length l).

Section Stack.
Context (m0 : mem) (lo hi : Z).

Lemma wp_pushl v l R m (Q : unit -> cpu -> Prop) : stack m0 lo hi l m -> R ESP = top hi l -> lo + 4 <= top hi l -> word v ->
  (forall m', stack m0 lo hi (v :: l) m' -> Q tt (mk_cpu (upd ESP (top hi (v :: l)) R) m')) -> wp (pushl v) (mk_cpu R m) Q.
Proof.
  intros [(H1 & H2 & H3) Hm Hw Hf Hs] Hsp Hroom Hv HQ. unfold pushl. apply wp_bind, wp_getr, wp_bind, wp_setr. cbn [regs]. rewrite Hsp. unfold store. unfold top in *. cbn [length] in HQ.
  replace (u32 (hi - 4 * Z.of_nat (length l) - 4)) with (hi - 4 * Z.of_nat (S (length l))) by (unfold u32; rewrite Z.mod_small; lia).
  set (a := hi - 4 * Z.of_nat (S (length l))) in *. apply wp_cpu_ram, wp_store32; [intros i Hi; apply Hm; lia|]. apply HQ. split.
  - cbn [length]. lia.
  - by apply mapped_put.
  - cbn [length]. fold a. change (words32 (v :: l)) with (le 4 v ++ words32 l). apply bytes_at_app. split; [apply put_bytes|]. apply put_frame; [|rewrite length_le; lia].
    rewrite length_le. by replace (a + Z.of_nat 4) with (hi - 4 * Z.of_nat (length l)) by lia.
  - by constructor.
  - intros i Hi. rewrite lookup_put, decide_False; [by apply Hs|]. rewrite length_le. lia.
Qed.

Lemma stack_pop v l m : stack m0 lo hi (v :: l) m -> stack m0 lo hi l m.
Proof.
  intros [(H1 & H2 & H3) Hm Hw Hf Hs]. cbn [length] in *. split; [lia|done| |by inversion Hf|done].
  change (words32 (v :: l)) with (le 4 v ++ words32 l) in Hw. apply bytes_at_app in Hw as [_ Hw]. rewrite length_le in Hw.
  by replace (hi - 4 * Z.of_nat (S (length l)) + Z.of_nat 4) with (hi - 4 * Z.of_nat (length l)) in Hw by lia.
Qed.

(** Reading the [i]-th word from the top. *)
Lemma wp_load_stack (i : nat) l v a s (Q : Z -> cpu -> Prop) : stack m0 lo hi l (ram s) -> l !! i = Some v -> a = top hi l + 4 * Z.of_nat i -> Q v s -> wp (load a) s Q.
Proof.
  intros [(H1 & H2 & H3) Hm Hw Hf Hs] Hi -> HQ. pose proof (lookup_lt_Some _ _ _ Hi) as Hlt. unfold top. unfold load.
  replace (u32 _) with (hi - 4 * Z.of_nat (length l) + 4 * Z.of_nat i) by (unfold u32; rewrite Z.mod_small; lia).
  apply wp_cpu_ram, (wp_load32 _ _ v); [|by apply (Forall_lookup_1 _ _ _ _ Hf Hi)|by destruct s]. rewrite <-(take_drop_middle l i v Hi) in Hw. apply words32_lookup in Hw.
  rewrite length_take_le in Hw by lia. rewrite length_app, length_take_le in Hw by lia. cbn [length] in Hw. rewrite length_drop in Hw.
  by replace (hi - 4 * Z.of_nat (length l)) with (hi - 4 * Z.of_nat (i + S (length l - S i))) by lia.
Qed.

Lemma wp_popl v l R m (Q : Z -> cpu -> Prop) : stack m0 lo hi (v :: l) m -> R ESP = top hi (v :: l) -> hi < 2 ^ 32 ->
  (stack m0 lo hi l m -> Q v (mk_cpu (upd ESP (top hi l) R) m)) -> wp popl (mk_cpu R m) Q.
Proof.
  intros Hst Hsp Hhi HQ. unfold popl. apply wp_bind, wp_getr, wp_bind. cbn [regs]. apply (wp_load_stack 0 (v :: l) v); [done|done|rewrite Hsp; lia|].
  apply wp_bind, wp_setr, wp_ret. cbn [regs ram]. rewrite Hsp. pose proof (sk_range _ _ _ _ _ Hst) as (H1 & H2 & H3). unfold top in *. cbn [length] in *.
  replace (u32 (hi - 4 * Z.of_nat (S (length l)) + 4)) with (hi - 4 * Z.of_nat (length l)) by (unfold u32; rewrite Z.mod_small; lia). by apply HQ, (stack_pop v).
Qed.
End Stack.

#[local] Ltac regs_simpl := cbn [upd reg_no Nat.eqb regs ram].
#[local] Ltac word_solve := regs_simpl; first [done | unfold word, SEL_KDSEG, SEL_KCSEG; lia | unfold word, top; cbn [length]; lia | auto].

Section Regs.
Context (m0 : mem) (lo hi : Z).

Lemma wp_push_reg r l R m (Q : unit -> cpu -> Prop) : stack m0 lo hi l m -> R ESP = top hi l -> lo + 4 <= top hi l -> word (R r) ->
  (forall m', stack m0 lo hi (R r :: l) m' -> Q tt (mk_cpu (upd ESP (top hi (R r :: l)) R) m')) -> wp (push_reg r) (mk_cpu R m) Q.
Proof. intros H1 H2 H3 H4 HQ. apply wp_bind, wp_getr. cbn [regs]. by eapply wp_pushl. Qed.

Lemma wp_pop_reg r v l R m (Q : unit -> cpu -> Prop) : stack m0 lo hi (v :: l) m -> R ESP = top hi (v :: l) -> hi < 2 ^ 32 ->
  (stack m0 lo hi l m -> Q tt (mk_cpu (upd r v (upd ESP (top hi l) R)) m)) -> wp (pop_reg r) (mk_cpu R m) Q.
Proof. intros H1 H2 H3 HQ. apply wp_bind. eapply wp_popl; [done..|]. intros H. by apply wp_setr, HQ. Qed.

(** Taking [k] words off. *)
Lemma stack_drop k l m : stack m0 lo hi l m -> (k <= length l)%nat -> stack m0 lo hi (drop k l) m.
Proof. revert l. induction k as [|k IH]; intros [|v l] H Hk; cbn in *; try done. apply IH; [by eapply stack_pop|lia]. Qed.

Lemma wp_add_esp k n l R m (Q : unit -> cpu -> Prop) : stack m0 lo hi l m -> R ESP = top hi l -> hi < 2 ^ 32 -> (k <= length l)%nat -> n = 4 * Z.of_nat k ->
  (stack m0 lo hi (drop k l) m -> Q tt (mk_cpu (upd ESP (top hi (drop k l)) R) m)) -> wp (add_esp n) (mk_cpu R m) Q.
Proof.
  intros Hst Hsp Hhi Hk -> HQ. apply wp_bind, wp_getr. apply wp_setr. cbn [regs ram]. rewrite Hsp. pose proof (sk_range _ _ _ _ _ Hst) as (H1 & H2 & H3).
  replace (u32 (top hi l + 4 * Z.of_nat k)) with (top hi (drop k l)); [by apply HQ, stack_drop|]. unfold top. rewrite length_drop. unfold u32. rewrite Z.mod_small; lia.
Qed.
End Regs.

#[local] Ltac stack_side := regs_simpl; unfold top; cbn [length app]; lia.
#[local] Ltac push1 :=
  lazymatch goal with |- wp (push_reg _) _ _ => eapply wp_push_reg | |- wp (pushl _) _ _ => eapply wp_pushl end;
  [eassumption|stack_side|stack_side|word_solve|regs_simpl; let m := fresh "m" in let H := fresh "H" in intros m H].
#[local] Ltac push := apply wp_bind; push1.
#[local] Ltac pop1 :=
  lazymatch goal with |- wp (pop_reg _) _ _ => eapply wp_pop_reg | |- wp popl _ _ => eapply wp_popl end;
  [eassumption|stack_side|lia|regs_simpl; let H := fresh "H" in intros H].
#[local] Ltac pop := apply wp_bind; pop1.

(** * Interrupts from user mode *)

(** The frame at [f], on top of what the processor saved. *)
Definition entry_words (f : Z) (R : reg -> Z) (vec : nat) (code : Z) (tl : list Z) : list Z :=
  [R EDI; R ESI; R EBP; f + 32; R EBX; R EDX; R ECX; R EAX; R GS; R FS; R ES; R DS; Z.of_nat vec; code; R EBP] ++ tl.
(** [struct intr_frame]. *)
Definition frame_words (f : Z) (R : reg -> Z) (vec : nat) (code : Z) : list Z := entry_words f R vec code [R EIP; R CS; R EFLAGS; R ESP; R SS].

Section User.
Context (m0 : mem) (lo hi : Z) (R : reg -> Z).
Hypothesis HR : forall r, word (R r).
Hypothesis Hroom : lo + 128 <= hi.
Hypothesis Hhi : hi < 2 ^ 32.

Lemma stack_empty m : 0 <= lo -> (forall i, ~ (lo <= i < hi) -> m !! i = m0 !! i) -> mapped m lo (Z.to_nat (hi - lo)) -> stack m0 lo hi [] m.
Proof. intros Hlo Hs Hm. split; [cbn; lia|done|cbn; done|constructor|done]. Qed.

(** Overwriting the word under the top. *)
Lemma wp_store_second x y v l a m Rx (Q : unit -> cpu -> Prop) : stack m0 lo hi (x :: y :: l) m -> word v -> a = top hi (y :: l) ->
  (forall m', stack m0 lo hi (x :: v :: l) m' -> Q tt (mk_cpu Rx m')) -> wp (store a v) (mk_cpu Rx m) Q.
Proof.
  intros [(H1 & H2 & H3) Hm Hw Hf Hs] Hv -> HQ. unfold store. cbn [length] in *. unfold top. cbn [length].
  replace (u32 _) with (hi - 4 * Z.of_nat (S (length l))) by (unfold u32; rewrite Z.mod_small; lia).
  set (b := hi - 4 * Z.of_nat (S (length l))) in *. apply wp_cpu_ram, wp_store32; [intros i Hi; apply Hm; lia|]. apply HQ.
  change (words32 (x :: y :: l)) with (le 4 x ++ (le 4 y ++ words32 l)) in Hw. apply bytes_at_app in Hw as [Hx Hw]. apply bytes_at_app in Hw as [_ Hl]. rewrite length_le in *.
  split; cbn [length]; [lia|by apply mapped_put| |apply Forall_cons in Hf as [? [? ?]%Forall_cons]; by repeat (apply Forall_cons; split)|].
  - change (words32 (x :: v :: l)) with (le 4 x ++ (le 4 v ++ words32 l)). apply bytes_at_app. rewrite length_le. split; [apply put_frame; [done|rewrite !length_le; lia]|].
    replace (hi - 4 * Z.of_nat (S (S (length l))) + Z.of_nat 4) with b in * by lia. apply bytes_at_app. rewrite length_le. split; [apply put_bytes|]. apply put_frame; [done|rewrite length_le; lia].
  - intros i Hi. rewrite lookup_put, decide_False; [by apply Hs|]. rewrite length_le. lia.
Qed.

(** The code that all stubs share. *)
Lemma wp_saved vec code tl f m1 R1 (Q : Z -> cpu -> Prop) : (vec < 256)%nat -> (length tl <= 8)%nat -> stack m0 lo hi (code :: R EBP :: tl) m1 -> R1 ESP = top hi (code :: R EBP :: tl) ->
  f = top hi tl - 60 -> (forall r, word (R1 r)) -> (forall r, match r with ESP | SS | CS => True | _ => R1 r = R r end) ->
  (forall m' R', stack m0 lo hi (f :: entry_words f R vec code tl) m' -> R' ESP = f - 4 -> Q f (mk_cpu R' m')) ->
  wp (pushl (Z.of_nat vec);; intr_entry) (mk_cpu R1 m1) Q.
Proof.
  intros Hvec Htl Hst Hsp Hf Hword Hsame HQ. pose proof (sk_range _ _ _ _ _ Hst) as (Hlo & _ & _). unfold top in Hsp, Hf. cbn [length] in Hsp. push. unfold intr_entry. do 4 push.
  unfold pushal. apply wp_assoc, wp_bind, wp_getr. regs_simpl. do 7 (apply wp_assoc; push). push.
  do 3 (apply wp_bind, wp_setr). apply wp_bind, wp_getr, wp_bind, wp_setr. regs_simpl. push. apply wp_ret.
  lazymatch goal with |- Q ?a _ => replace a with f by (unfold top; cbn [length]; lia) end. apply HQ; [|stack_side].
  lazymatch goal with H : stack _ _ _ ?l ?m |- stack _ _ _ ?l' ?m => replace l' with l; [exact H|] end.
  pose proof (Hsame EAX); pose proof (Hsame ECX); pose proof (Hsame EDX); pose proof (Hsame EBX); pose proof (Hsame EBP); pose proof (Hsame ESI); pose proof (Hsame EDI);
    pose proof (Hsame GS); pose proof (Hsame FS); pose proof (Hsame ES); pose proof (Hsame DS).
  unfold entry_words. cbn [app]. repeat (apply (f_equal2 cons); [first [reflexivity|assumption|unfold top; cbn [length]; lia]|]). reflexivity.
Qed.

(** What the processor saves, with the error code on top. *)
Definition cpu_words (error : option Z) : list Z := match error with Some e => [e] | None => [] end ++ [R EIP; R CS; R EFLAGS; R ESP; R SS].

(** From the interrupted program to the call of [intr_handler]: the stub finds the error code where
    it expects it, or takes a word of what the processor saved for it. *)
Lemma wp_entry vec error m (Q : Z -> cpu -> Prop) : (vec < 256)%nat -> stack m0 lo hi [] m -> (match error with Some e => word e | None => True end) ->
  let code := if stub_real vec then default (R EIP) error else 0 in
  let tl := if stub_real vec then drop 1 (cpu_words error) else cpu_words error in
  let f := top hi tl - 60 in
  (forall m' R', stack m0 lo hi (f :: entry_words f R vec code tl) m' -> R' ESP = f - 4 -> Q f (mk_cpu R' m')) ->
  wp (raise hi error;; stub vec;; intr_entry) (mk_cpu R m) Q.
Proof.
  intros Hvec Hst He code tl f HQ. unfold raise. pose proof (sk_range _ _ _ _ _ Hst) as (Hlo & _ & _). apply wp_assoc, wp_bind, wp_getr, wp_assoc, wp_bind, wp_getr, wp_assoc, wp_bind, wp_setr, wp_assoc, wp_bind, wp_setr. regs_simpl.
  do 5 (apply wp_assoc; push). apply wp_assoc.
  assert (forall R1 m1, stack m0 lo hi (cpu_words error) m1 -> R1 ESP = top hi (cpu_words error) -> (forall r, word (R1 r)) -> (forall r, match r with ESP | SS | CS => True | _ => R1 r = R r end) ->
    wp (stub vec;; intr_entry) (mk_cpu R1 m1) Q) as Hstub.
  { intros R1 mx Hx1 Hsp1 Hw1 Hs1. unfold stub. assert (length (cpu_words error) <= 6)%nat as Hlen by (by destruct error; cbn; lia). assert (exists x l, cpu_words error = x :: l /\ x = default (R EIP) error) as (x & l & El & Ex) by (destruct error; eexists _, _; done).
    pose proof (Hs1 EBP) as Ebp. cbn in Ebp. destruct (stub_real vec).
    - subst tl code. rewrite El in *. cbn [length drop] in *. rewrite <-Ex in *. apply wp_assoc, wp_assoc, wp_bind, wp_getr. regs_simpl. apply wp_assoc, wp_bind. eapply (wp_load_stack m0 lo hi 0); [eassumption|reflexivity|cbn [regs]; lia|].
      assert (word x) as Hx by (pose proof (sk_word _ _ _ _ _ Hx1) as Hf; by apply Forall_cons in Hf as [? _]). apply wp_assoc. unfold top in Hsp1. cbn [length] in Hsp1. push. apply wp_assoc, wp_bind, wp_getr, wp_bind, wp_bind, wp_getr. regs_simpl.
      eapply wp_store_second; [eassumption|by rewrite Ebp|stack_side|]. intros mz Hz. rewrite Ebp in Hz. apply (wp_saved vec x l f); [done|lia|exact Hz|stack_side|unfold f; rewrite ?El; reflexivity|intros []; word_solve|intros r; specialize (Hs1 r); by destruct r|exact HQ].
    - subst tl code. apply wp_assoc, wp_assoc. unfold top in Hsp1. push. apply wp_bind. eapply wp_pushl; [eassumption|stack_side|stack_side|unfold word; lia|]. intros mz Hz. rewrite Ebp in Hz.
      apply (wp_saved vec 0 (cpu_words error) f); [done|lia|exact Hz|stack_side|done|intros []; word_solve|intros r; specialize (Hs1 r); by destruct r|exact HQ]. }
  apply wp_bind. destruct error as [e|].
  - push1. apply wp_bind, wp_setr. eapply Hstub; [eassumption|reflexivity|intros []; word_solve|intros []; done].
  - apply wp_ret, wp_bind, wp_setr. eapply Hstub; [eassumption|reflexivity|intros []; word_solve|intros []; done].
Qed.
End User.

(** * Return to user mode *)

Lemma wp_exit m0 lo hi f vec code R1 R2 m (Q : unit -> cpu -> Prop) : hi < 2 ^ 32 -> stack m0 lo hi (frame_words f R2 vec code) m -> R1 ESP = hi - 80 -> Z.land (R2 CS) 3 ≠ 0 ->
  (forall R', (forall r, R' r = R2 r) -> Q tt (mk_cpu R' m)) -> wp intr_exit (mk_cpu R1 m) Q.
Proof.
  intros Hhi Hst Hsp Hcs HQ. unfold intr_exit, popal, frame_words, entry_words in *. cbn [app] in Hst.
  do 3 (apply wp_assoc; pop). apply wp_assoc, wp_bind. eapply (wp_add_esp m0 lo hi 1); [eassumption|stack_side|done|cbn; lia|done|]. cbn [drop]. intros H4.
  do 3 (apply wp_assoc; pop). pop. do 4 pop. apply wp_bind. eapply (wp_add_esp m0 lo hi 3); [eassumption|stack_side|done|cbn; lia|done|]. cbn [drop]. intros H13.
  unfold iret. do 3 pop. apply wp_bind, wp_getr. regs_simpl. rewrite (proj2 (Z.eqb_neq _ _) Hcs). pop. pop. apply wp_bind, wp_setr, wp_setr. apply HQ. intros []; reflexivity.
Qed.

(** What a call of [intr_handler] does to the stack: it may use the part below the frame, change
    memory elsewhere, and set the saved value of [eax], which a system call returns its result in. *)
Definition handler_ok (handler : Z -> M cpu unit) (hi : Z) (result : option Z) : Prop := forall s, let f := hi - 80 in
  regs s ESP = f - 4 -> mapped (ram s) f 80 -> wp (handler f) s (fun _ s' => regs s' ESP = regs s ESP /\
    forall i, f <= i < hi -> ram s' !! i = match result with Some v => put (ram s) (f + o_eax) (le 4 v) | None => ram s end !! i).

Definition with_result (result : option Z) (R : reg -> Z) : reg -> Z := match result with Some v => upd EAX v R | None => R end.

(** The frame after the handler. *)
Lemma frame_result m0 lo hi f R vec code result m m' : stack m0 lo hi (f :: frame_words f R vec code) m -> f = hi - 80 -> (match result with Some v => word v | None => True end) ->
  (forall i, f <= i < hi -> m' !! i = match result with Some v => put m (f + o_eax) (le 4 v) | None => m end !! i) ->
  stack m' f hi (frame_words f (with_result result R) vec code) m'.
Proof.
  intros Hst Hf Hres Hm. pose proof (stack_pop _ _ _ _ _ _ Hst) as [(H1 & H2 & H3) Hmap Hw Hwd _]. change (length (frame_words f R vec code)) with 20%nat in *. replace (hi - 4 * Z.of_nat 20) with f in * by lia.
  assert (mapped m' f (Z.to_nat (hi - f))) as Hmap'.
  { intros i Hi. rewrite Hm by lia. assert (is_Some (m !! i)) as His by (apply Hmap; lia). destruct result as [v|]; [|done]. rewrite lookup_put. destruct (decide _); [|done].
    apply lookup_lt_is_Some_2. rewrite length_le in *. lia. }
  split; [change (length (frame_words f (with_result result R) vec code)) with 20%nat; lia|done| | |done].
  - change (length (frame_words f (with_result result R) vec code)) with 20%nat. replace (hi - 4 * Z.of_nat 20) with f by lia. destruct result as [v|].
    + cbn [with_result]. set (pre := [R EDI; R ESI; R EBP; f + 32; R EBX; R EDX; R ECX]). set (post := [R GS; R FS; R ES; R DS; Z.of_nat vec; code; R EBP; R EIP; R CS; R EFLAGS; R ESP; R SS]).
      change (frame_words f (upd EAX v R) vec code) with (pre ++ v :: post). change (frame_words f R vec code) with (pre ++ R EAX :: post) in Hw.
      assert (bytes_at (put m (f + o_eax) (le 4 v)) f (words32 (pre ++ v :: post))) as Hb.
      { rewrite words32_app in *. change (words32 (R EAX :: post)) with (le 4 (R EAX) ++ words32 post) in Hw. change (words32 (v :: post)) with (le 4 v ++ words32 post).
        apply bytes_at_app in Hw as [Hw1 Hw]. apply bytes_at_app in Hw as [_ Hw2]. rewrite length_words32, length_le in *. change (length pre) with 7%nat in *.
        apply bytes_at_app. rewrite length_words32. change (length pre) with 7%nat. split; [apply put_frame; [done|rewrite length_words32; unfold o_eax; cbn; lia]|].
        apply bytes_at_app. rewrite length_le. split; [apply put_bytes|]. apply put_frame; [done|rewrite length_le; unfold o_eax; lia]. }
      apply (bytes_at_eq _ _ _ _ Hb). intros i Hi. rewrite length_words32 in Hi. change (length (pre ++ v :: post)) with 20%nat in Hi. apply Hm. lia.
    + cbn [with_result]. apply (bytes_at_eq _ _ _ _ Hw). intros i Hi. rewrite length_words32 in Hi. change (length (frame_words f R vec code)) with 20%nat in Hi. apply Hm. lia.
  - destruct result as [v|]; [|done]. unfold frame_words, entry_words in *. cbn [app with_result] in *. repeat (apply Forall_cons in Hwd as [? Hwd]). repeat (apply Forall_cons; split; [first [done|word_solve]|]). done.
Qed.

(** A processor in user mode, with the kernel stack of the thread at [lo .. hi - 1]. *)
Record user_mode (lo hi : Z) (s : cpu) : Prop := {
  um_regs : forall r, word (regs s r);
  um_cs : Z.land (regs s CS) 3 ≠ 0;
  um_stack : 0 <= lo /\ lo + 128 <= hi < 2 ^ 32;
  um_room : mapped (ram s) lo (Z.to_nat (hi - lo))
}.

Definition word_opt (o : option Z) : Prop := match o with Some v => word v | None => True end.

Lemma user_stack lo hi s : user_mode lo hi s -> stack (ram s) lo hi [] (ram s).
Proof. intros [_ _ Hst Hm]. apply stack_empty; (done || lia). Qed.

(** Entry with a stub that agrees with the processor. *)
Lemma wp_entry_user lo hi vec error R m (Q : Z -> cpu -> Prop) : user_mode lo hi (mk_cpu R m) -> (vec < 256)%nat -> word_opt error -> (is_Some error <-> stub_real vec = true) ->
  (forall m1 R1, stack m lo hi (hi - 80 :: frame_words (hi - 80) R vec (default 0 error)) m1 -> R1 ESP = hi - 84 -> Q (hi - 80) (mk_cpu R1 m1)) ->
  wp (raise hi error;; stub vec;; intr_entry) (mk_cpu R m) Q.
Proof.
  intros Hum Hvec Hew Hreal HQ. pose proof (user_stack _ _ _ Hum) as Hst. destruct Hum as [U1 U2 U3 U4]. cbn [regs ram] in *. eapply (wp_entry m lo hi R); [done|lia|lia|done|exact Hst|done|]. cbv zeta.
  assert ((if stub_real vec then default (R EIP) error else 0) = default 0 error /\ (if stub_real vec then drop 1 (cpu_words R error) else cpu_words R error) = [R EIP; R CS; R EFLAGS; R ESP; R SS]) as [-> ->].
  { destruct (stub_real vec), error as [e|]; try done; exfalso; [by apply (is_Some_None (A := Z)), Hreal|by assert (false = true) by (by apply Hreal)]. }
  intros m1 R1 Hst1 Hsp1. change (top hi [R EIP; R CS; R EFLAGS; R ESP; R SS] - 60) with (hi - 20 - 60) in *. replace (hi - 20 - 60) with (hi - 80) in * by lia. apply HQ; [done|lia].
Qed.

(** * Thread switches *)

(** What a call of [switch_threads] from thread [t] leaves on the stack of [t] at [sp]: the registers
    that the caller expects back, the return address and the arguments. *)
Definition switch_frame (R : reg -> Z) (cur next : Z) : list Z := [R EDI; R ESI; R EBP; R EBX; R EIP; cur; next].

(** Thread [t] waits in [switch_threads], with [l] on the stack at its saved stack pointer. *)
Definition parked (m : mem) (t sp : Z) (l : list Z) : Prop :=
  0 <= t /\ t + 52 < 2 ^ 32 /\ 0 <= sp /\ sp + 4 * Z.of_nat (length l) < 2 ^ 32 /\ Forall word l /\
  bytes_at m (t + thread_stack_ofs) (le 4 sp) /\ bytes_at m sp (words32 l).

Lemma parked_eq m m' t sp l : parked m t sp l -> (forall i, t <= i < t + 52 -> m' !! i = m !! i) -> (forall i, sp <= i < sp + 4 * Z.of_nat (length l) -> m' !! i = m !! i) -> parked m' t sp l.
Proof.
  intros (H1 & H2 & H3 & H4 & H5 & H6 & H7) E1 E2. split_and!; try done.
  - apply (bytes_at_eq _ _ _ _ H6). intros i Hi. rewrite length_le in Hi. apply E1. unfold thread_stack_ofs in Hi. lia.
  - apply (bytes_at_eq _ _ _ _ H7). intros i Hi. rewrite length_words32 in Hi. apply E2. lia.
Qed.

Lemma parked_stack m t sp l : parked m t sp l -> stack m sp (sp + 4 * Z.of_nat (length l)) l m.
Proof.
  intros (H1 & H2 & H3 & H4 & H5 & H6 & H7). split; [lia| |by replace (sp + 4 * Z.of_nat (length l) - 4 * Z.of_nat (length l)) with sp by lia|done|done].
  intros i Hi. apply bytes_at_mapped in H7. apply H7. rewrite length_words32. lia.
Qed.

Lemma wp_load_parked m t sp l R (Q : Z -> cpu -> Prop) : parked m t sp l -> Q sp (mk_cpu R m) -> wp (load (t + thread_stack_ofs)) (mk_cpu R m) Q.
Proof.
  intros (H1 & H2 & H3 & H4 & H5 & H6 & H7) HQ. unfold load. replace (u32 (t + thread_stack_ofs)) with (t + thread_stack_ofs) by (unfold u32, thread_stack_ofs; rewrite Z.mod_small; lia).
  apply wp_cpu_ram. eapply wp_load32; [exact H6|lia|done].
Qed.

(** Writing outside the stack. *)
Lemma stack_outside m0 lo hi l m a bs : stack m0 lo hi l m -> a + Z.of_nat (length bs) <= lo \/ hi <= a -> stack (put m a bs) lo hi l (put m a bs).
Proof. intros [(H1 & H2 & H3) Hm Hw Hf Hs] Ha. split; [done|by apply mapped_put| |done|done]. apply put_frame; [done|]. rewrite length_words32. lia. Qed.

(** The caller [cur] has pushed the arguments and the return address, which [ret] is to find. *)
Lemma wp_switch_threads lo hi cur next ret tl sp' l edi esi ebp ebx eip R m (Q : unit -> cpu -> Prop) :
  hi < 2 ^ 32 -> (forall r, word (R r)) -> stack m lo hi (ret :: cur :: next :: tl) m -> R ESP = top hi (ret :: cur :: next :: tl) -> lo + 16 <= top hi (ret :: cur :: next :: tl) ->
  0 <= cur -> cur + 52 <= lo -> mapped m (cur + thread_stack_ofs) 4 ->
  parked m next sp' (edi :: esi :: ebp :: ebx :: eip :: l) ->
  (forall i, lo <= i < hi -> ~ (next <= i < next + 52) /\ ~ (sp' <= i < sp' + 4 * Z.of_nat (5 + length l))) ->
  (forall i, cur + 48 <= i < cur + 52 -> ~ (next <= i < next + 52) /\ ~ (sp' <= i < sp' + 4 * Z.of_nat (5 + length l))) ->
  (forall m' R', parked m' cur (top hi (ret :: cur :: next :: tl) - 16) (R EDI :: R ESI :: R EBP :: R EBX :: ret :: cur :: next :: tl) ->
    (forall i, ~ (lo <= i < hi) -> ~ (cur + 48 <= i < cur + 52) -> m' !! i = m !! i) ->
    R' EDI = edi -> R' ESI = esi -> R' EBP = ebp -> R' EBX = ebx -> R' EIP = eip -> R' EAX = cur -> R' ESP = sp' + 20 -> Q tt (mk_cpu R' m')) ->
  wp switch_threads (mk_cpu R m) Q.
Proof.
  intros Hhi Hwd Hst Hsp Hroom Hc0 Hcur Hmap Hpark Hd1 Hd2 HQ. unfold switch_threads. pose proof (sk_range _ _ _ _ _ Hst) as (Hlo & _ & _). unfold top in Hsp, Hroom. cbn [length] in Hsp, Hroom.
  do 4 push. apply wp_bind, wp_setr, wp_bind, wp_getr. regs_simpl.
  apply wp_bind. eapply (wp_load_stack m lo hi 5); [eassumption|reflexivity|stack_side|]. apply wp_bind, wp_setr, wp_bind, wp_getr, wp_bind, wp_getr. regs_simpl.
  apply wp_bind. set (l0 := R EDI :: R ESI :: R EBP :: R EBX :: ret :: cur :: next :: tl) in *. set (sp := top hi l0).
  assert (0 <= sp /\ sp + 4 * Z.of_nat (length l0) = hi /\ sp = top hi (ret :: cur :: next :: tl) - 16) as (Hsp0 & Hsphi & Hspt) by (unfold sp, top, l0; cbn [length]; lia).
  assert (forall i, ~ (lo <= i < hi) -> m3 !! i = m !! i) as Hout by apply (sk_same _ _ _ _ _ H2).
  unfold store. replace (u32 (cur + thread_stack_ofs)) with (cur + thread_stack_ofs) by (unfold u32, thread_stack_ofs; rewrite Z.mod_small; lia).
  apply wp_cpu_ram, wp_store32; [intros i Hi; cbn [ram]; rewrite Hout by (unfold thread_stack_ofs in Hi; lia); by apply Hmap|]. cbn [regs ram]. set (m5 := put m3 (cur + thread_stack_ofs) (le 4 sp)).
  assert (forall i, ~ (lo <= i < hi) -> ~ (cur + 48 <= i < cur + 52) -> m5 !! i = m !! i) as Hsame.
  { intros i Hi1 Hi2. unfold m5. rewrite lookup_put, decide_False; [by apply Hout|]. rewrite length_le. unfold thread_stack_ofs. lia. }
  assert (stack m5 lo hi l0 m5) as H5 by (eapply stack_outside; [exact H2|rewrite length_le; unfold thread_stack_ofs; lia]).
  assert (parked m5 next sp' (edi :: esi :: ebp :: ebx :: eip :: l)) as Hp5.
  { apply (parked_eq m); [done| |]; intros i Hi; cbn [length] in Hi; apply Hsame; intros Hj; [destruct (Hd1 i Hj)|destruct (Hd2 i Hj)|destruct (Hd1 i Hj)|destruct (Hd2 i Hj)]; lia. }
  apply wp_bind. eapply (wp_load_stack m5 lo hi 6); [exact H5|reflexivity|reflexivity|]. apply wp_bind, wp_setr. regs_simpl. apply wp_bind. eapply wp_load_parked; [exact Hp5|]. apply wp_bind, wp_setr. regs_simpl.
  pose proof (parked_stack _ _ _ _ Hp5) as Hst'. set (hi' := sp' + _) in Hst'. assert (hi' < 2 ^ 32) as Hhi' by apply Hp5. assert (sp' = top hi' (edi :: esi :: ebp :: ebx :: eip :: l)) as Esp by (unfold top, hi'; lia). clearbody hi'. unfold top in Esp. cbn [length] in Esp.
  do 4 pop. pop1. apply HQ; try reflexivity; [|exact Hsame|stack_side].
  rewrite <-Hspt. split_and!; [done|lia|done|lia|apply (sk_word _ _ _ _ _ H5)|apply put_bytes|apply (sk_words _ _ _ _ _ H5)].
Qed.

(** Thread [cur] calls [switch_threads (cur, next)] from [ret], with its stack at [lo .. hi - 1] above its [struct thread]. *)
Record calling (lo hi cur next ret : Z) (tl : list Z) (s : cpu) : Prop := {
  ca_hi : hi < 2 ^ 32;
  ca_regs : forall r, word (regs s r);
  ca_stack : stack (ram s) lo hi (ret :: cur :: next :: tl) (ram s);
  ca_esp : regs s ESP = top hi (ret :: cur :: next :: tl);
  ca_room : lo + 16 <= top hi (ret :: cur :: next :: tl);
  ca_cur : 0 <= cur /\ cur + 52 <= lo;
  ca_struct : mapped (ram s) (cur + thread_stack_ofs) 4
}.

(** The stack and the [struct thread] of the caller are not those of [next], parked with [n] words at [sp]. *)
Definition separate (lo hi cur next sp n : Z) : Prop := forall i, lo <= i < hi \/ cur + 48 <= i < cur + 52 -> ~ (next <= i < next + 52) /\ ~ (sp <= i < sp + 4 * n).

Lemma wp_switch lo hi cur next ret tl sp' edi esi ebp ebx eip l s (Q : unit -> cpu -> Prop) :
  calling lo hi cur next ret tl s -> parked (ram s) next sp' (edi :: esi :: ebp :: ebx :: eip :: l) -> separate lo hi cur next sp' (5 + Z.of_nat (length l)) ->
  (forall s', parked (ram s') cur (regs s ESP - 16) (regs s EDI :: regs s ESI :: regs s EBP :: regs s EBX :: ret :: cur :: next :: tl) ->
    (forall i, ~ (lo <= i < hi) -> ~ (cur + 48 <= i < cur + 52) -> ram s' !! i = ram s !! i) ->
    regs s' EDI = edi -> regs s' ESI = esi -> regs s' EBP = ebp -> regs s' EBX = ebx -> regs s' EIP = eip -> regs s' EAX = cur -> regs s' ESP = sp' + 20 -> Q tt s') ->
  wp switch_threads s Q.
Proof.
  intros [H1 H2 H3 H4 H5 [H6 H6'] H7] Hp Hsep HQ. destruct s as [R m]. cbn [regs ram] in *.
  eapply (wp_switch_threads lo hi cur next ret tl sp' l); [done..|exact Hp|intros i Hi; specialize (Hsep i (or_introl Hi)); lia|intros i Hi; specialize (Hsep i (or_intror Hi)); lia|].
  intros m' R' Hp' Hs E1 E2 E3 E4 E5 E6 E7. rewrite <-H4 in Hp'. by apply (HQ (mk_cpu R' m')).
Qed.

(** * Theorems *)

(** C17: An interrupt in user mode, from the processor's stack switch through the stub and the entry code
    to the return, leaves every register of the program as it was, except for the result that the
    handler stores in the frame, provided the stub and the processor agree on whether there is an error code. *)
Theorem interrupt_transparent handler lo hi vec error result s :
  user_mode lo hi s -> (vec < 256)%nat -> word_opt error -> (is_Some error <-> stub_real vec = true) -> word_opt result -> handler_ok handler hi result ->
  wp (interrupt handler hi vec error) s (fun _ s' => forall r, regs s' r = with_result result (regs s) r).
Proof.
  intros Hum Hvec Hew Hreal Hrw Hh. destruct s as [R m]. pose proof Hum as [U1 U2 U3 U4]. cbn [regs ram] in *. unfold interrupt.
  apply wp_bind, (wp_entry_user lo hi vec error R m); [done..|]. intros m1 R1 Hst1 Hsp1.
  apply wp_bind. assert (mapped m1 (hi - 80) 80) as Hfm by (intros i Hi; apply (sk_room _ _ _ _ _ Hst1); lia).
  apply (wp_mono _ _ _ _ (Hh (mk_cpu R1 m1) ltac:(cbn; lia) Hfm)). intros [] [R2 m2] [E1 E2]. cbn [regs ram] in *.
  pose proof (frame_result _ _ _ _ _ _ _ result _ m2 Hst1 eq_refl Hrw E2) as Hst2. apply wp_bind. apply wp_bind, wp_getr, wp_setr. cbn [regs ram].
  replace (u32 (R2 ESP + 4)) with (hi - 80) by (rewrite E1, Hsp1; unfold u32; rewrite Z.mod_small; lia).
  eapply (wp_exit m2 (hi - 80) hi); [lia|exact Hst2|done|by destruct result|]. intros R' HR'. exact HR'.
Qed.

(** At the call of [intr_handler] the members of [struct intr_frame] are the registers of the program,
    the vector and the error code, and no memory but the kernel stack has changed. *)
Theorem interrupt_frame_correct lo hi vec error s :
  user_mode lo hi s -> (vec < 256)%nat -> word_opt error -> (is_Some error <-> stub_real vec = true) ->
  wp (raise hi error;; stub vec;; intr_entry) s (fun f s' => f = hi - 80 /\ bytes_at (ram s') f (words32 (frame_words f (regs s) vec (default 0 error))) /\
    forall i, ~ (lo <= i < hi) -> ram s' !! i = ram s !! i).
Proof.
  intros Hum Hvec Hew Hreal. destruct s as [R m]. cbn [regs ram] in *.
  apply (wp_entry_user lo hi vec error R m); [done..|]. intros m1 R1 Hst1 Hsp1.
  pose proof (sk_words _ _ _ _ _ (stack_pop _ _ _ _ _ _ Hst1)) as Hb. split; [done|]. split; [exact Hb|apply (sk_same _ _ _ _ _ Hst1)].
Qed.

(** C40: The stub of vector 12, a stack fault, expects no error code, but the processor pushes one: the members
    of the frame after it are off by one word, and [kill] takes the instruction pointer of the program for its code segment.
    A user program that faults at an address that ends in 0x0008 panics the kernel. *)
Theorem stack_fault_panics {A} (thread_exit : M cpu A) lo hi e s :
  user_mode lo hi s -> word e -> regs s EIP mod 2 ^ 16 = SEL_KCSEG ->
  (f ← (raise hi (Some e);; stub 12;; intr_entry); kill thread_exit f) s = Err Panic.
Proof.
  intros Hum He Heip. assert (wpe (f ← (raise hi (Some e);; stub 12;; intr_entry); kill thread_exit f) s (fun _ _ => False) (fun x => x = Panic)) as H.
  2: { unfold wpe in H. destruct ((f ← (raise hi (Some e);; stub 12;; intr_entry); kill thread_exit f) s) as [[]|]; [done|by subst]. }
  pose proof (user_stack _ _ _ Hum) as Hst. destruct Hum as [U1 U2 U3 U4], s as [R m]. cbn [regs ram] in *. apply wpe_step. eapply (wp_entry m lo hi R); [done|lia|lia|lia|exact Hst|done|]. cbv zeta.
  change (stub_real 12) with false. cbv iota. change (cpu_words R (Some e)) with [e; R EIP; R CS; R EFLAGS; R ESP; R SS]. intros m1 R1 Hst1 _.
  set (f := top hi [e; R EIP; R CS; R EFLAGS; R ESP; R SS] - 60) in *. apply stack_pop in Hst1. pose proof (sk_words _ _ _ _ _ Hst1) as Hb.
  replace (hi - _) with f in Hb by (unfold f, top; cbn; lia).
  apply (words32_lookup _ _ [R EDI; R ESI; R EBP; f + 32; R EBX; R EDX; R ECX; R EAX; R GS; R FS; R ES; R DS; 12; 0; R EBP; e]) in Hb. cbn [length] in Hb.
  change (le 4 (R EIP)) with (le 2 (R EIP) ++ le 2 (R EIP / 256 / 256)) in Hb. apply bytes_at_app in Hb as [Hb _].
  apply wpe_step, wp_cpu_ram. eapply wp_load_le; [exact Hb|by rewrite length_le|]. replace (unle (le 2 (R EIP))) with (R EIP mod 2 ^ 16); [rewrite Heip; apply wpe_fail; done|].
  cbn [le unle]. rewrite Z.mul_0_r, Z.add_0_r. change (2 ^ 16) with (256 * 256). rewrite Z.rem_mul_r by lia. done.
Qed.

(** C18: A thread that calls [switch_threads] continues, when any other thread switches back to it however much
    later, after the call: with the registers that a called function preserves, its stack pointer past
    the return address, and the thread that ran before as the result. *)
Theorem switch_back lo hi cur next ret tl sp' edi esi ebp ebx eip l (between : M cpu unit) x lo' hi' ret' tl' s :
  calling lo hi cur next ret tl s -> parked (ram s) next sp' (edi :: esi :: ebp :: ebx :: eip :: l) -> separate lo hi cur next sp' (5 + Z.of_nat (length l)) ->
  (let l0 := regs s EDI :: regs s ESI :: regs s EBP :: regs s EBX :: ret :: cur :: next :: tl in
   forall s1, parked (ram s1) cur (regs s ESP - 16) l0 -> wp between s1 (fun _ s2 => parked (ram s2) cur (regs s ESP - 16) l0 /\ calling lo' hi' x cur ret' tl' s2 /\ separate lo' hi' x cur (regs s ESP - 16) (Z.of_nat (length l0)))) ->
  wp (switch_threads;; between;; switch_threads) s (fun _ s' => regs s' EDI = regs s EDI /\ regs s' ESI = regs s ESI /\ regs s' EBP = regs s EBP /\ regs s' EBX = regs s EBX /\
    regs s' EIP = ret /\ regs s' ESP = regs s ESP + 4 /\ regs s' EAX = x).
Proof.
  intros Hc Hp Hsep Hbt. cbv zeta in Hbt. apply wp_bind. eapply wp_switch; [exact Hc|exact Hp|done|]. intros s1 Hp1 _ _ _ _ _ _ _ _. apply wp_bind. apply (wp_mono _ _ _ _ (Hbt s1 Hp1)).
  intros [] s2 (Hp2 & Hc2 & Hs2). eapply wp_switch; [exact Hc2|exact Hp2|cbn [length] in *; by replace (5 + Z.of_nat (S (S (length tl)))) with (Z.of_nat (S (S (S (S (S (S (S (length tl)))))))))  by lia|].
  intros s3 _ _ E1 E2 E3 E4 E5 E6 E7. split_and!; try done. lia.
Qed.

(** * Witnesses *)

Definition demo_regs (r : reg) : Z := match r with ESP => 0xbfff0000 | EIP => 0x8050008 | CS => SEL_UCSEG | SS | DS | ES | FS | GS => SEL_UDSEG | _ => Z.of_nat (reg_no r) end.
Definition demo_user : cpu := mk_cpu demo_regs (put ∅ 4096 (replicate 256 0)).

Lemma demo_user_mode : user_mode 4096 4352 demo_user.
Proof.
  split; [intros []; vm_compute; split; congruence|done|lia|]. apply demo_mapped. vm_compute. reflexivity.
Qed.

Lemma interrupt_transparent_witness : stub_real 48 = false /\
  wp (interrupt (fun f => store (f + o_eax) 7) 4352 48 None) demo_user (fun _ s' => forall r, regs s' r = with_result (Some 7) (regs demo_user) r).
Proof.
  split; [reflexivity|]. apply (interrupt_transparent (fun f => store (f + o_eax) 7) 4096 4352 48 None (Some 7) demo_user); [apply demo_user_mode|lia|done|split; [by intros []|done]|vm_compute; split; congruence|].
  intros s f _ Hm. subst f. apply wp_cpu_ram, wp_store32; [intros i Hi; apply Hm; change (u32 (4352 - 80 + o_eax)) with 4300 in Hi; lia|]. done.
Defined.

Lemma interrupt_frame_correct_witness : wp (raise 4352 (Some 5);; stub 14;; intr_entry) demo_user (fun f s' => f = 4272 /\
  bytes_at (ram s') f (words32 (frame_words f (regs demo_user) 14 5)) /\ forall i, ~ (4096 <= i < 4352) -> ram s' !! i = ram demo_user !! i).
Proof.
  apply (interrupt_frame_correct 4096 4352 14 (Some 5) demo_user); [apply demo_user_mode|lia|vm_compute; split; congruence|split; [done|by eexists]].
Defined.

Lemma stack_fault_panics_witness : regs demo_user EIP mod 2 ^ 16 = SEL_KCSEG /\ (f ← (raise 4352 (Some 0);; stub 12;; intr_entry); kill (mret tt) f) demo_user = Err Panic.
Proof. split; [reflexivity|]. apply (stack_fault_panics (mret tt) 4096 4352 0 demo_user); [apply demo_user_mode|vm_compute; split; congruence|reflexivity]. Defined.

(** Threads at 1000 and 2000, with their stacks at 1100 and 2100. *)
Definition demo_threads : mem := put (put (put (put ∅ 1000 (replicate 52 0)) 1100 (replicate 64 0)) 2000 (replicate 52 0)) 2100 (replicate 64 0).
Definition demo_caller : cpu := mk_cpu (fun r => match r with ESP => 1152 | _ => Z.of_nat (reg_no r) end)
  (put (put (put demo_threads 1152 (words32 [77; 1000; 2000])) 2048 (le 4 2128)) 2128 (words32 [1; 2; 3; 4; 55; 2000; 1000])).
Definition demo_return : cpu := mk_cpu (fun r => match r with ESP => 2152 | _ => 9 end)
  (put (put (put demo_threads 1048 (le 4 1136)) 1136 (words32 [7; 6; 5; 3; 77; 1000; 2000])) 2152 (words32 [88; 2000; 1000])).

#[local] Ltac demo_calling := split; [lia|intros []; vm_compute; split; congruence| |reflexivity|unfold top; cbn; lia|lia|apply demo_mapped; vm_compute; reflexivity];
  split; [cbn; lia|apply demo_mapped; vm_compute; reflexivity|vm_compute; tauto|repeat constructor; unfold word; lia|done].

Lemma switch_back_witness : calling 1100 1164 1000 2000 77 [] demo_caller /\
  wp (switch_threads;; mput demo_return;; switch_threads) demo_caller (fun _ s' => regs s' EDI = regs demo_caller EDI /\ regs s' ESI = regs demo_caller ESI /\ regs s' EBP = regs demo_caller EBP /\ regs s' EBX = regs demo_caller EBX /\
    regs s' EIP = 77 /\ regs s' ESP = regs demo_caller ESP + 4 /\ regs s' EAX = 2000).
Proof.
  assert (calling 1100 1164 1000 2000 77 [] demo_caller) as Hc by demo_calling. split; [exact Hc|].
  apply (switch_back 1100 1164 1000 2000 77 [] 2128 1 2 3 4 55 [2000; 1000] (mput demo_return) 2000 2100 2164 88 [] demo_caller Hc).
  - split_and!; [lia|lia|lia|cbn; lia|repeat constructor; unfold word; lia|vm_compute; tauto|vm_compute; tauto].
  - intros i Hi. cbn [length]. lia.
  - intros l0 s1 _. apply wp_put. split; [split_and!; [lia|lia|done|cbn; lia|repeat constructor; vm_compute; congruence|vm_compute; tauto|vm_compute; tauto]|]. split; [demo_calling|].
    intros i Hi. change (regs demo_caller ESP - 16) with 1136. change (Z.of_nat (length l0)) with 7. lia.
Defined.
