(* ===== verification/Thread.v ===== *)
(** src/threads/thread.c: the page of a new thread, with [struct thread] at its start and the first
    stack frames at its end, and the part of process_execute (src/userprog/process.c) that names the
    thread.

    The page is part of a byte memory.  Switched to for the first time, a new thread enters
    [kernel_thread] with its function and argument.  A name of 92 characters or more runs over the rest
    of [struct thread] and stops the kernel, and so does a command without a name. *)
From stdpp Require Import base list numbers gmap fin_maps.
From Stdlib Require Import ZArith Lia.
From S2P Require Import Prelude Strings Vaddr Args Switch.

Open Scope Z_scope.

(** * struct thread *)

Definition o_tid : Z := 0.
Definition o_status : Z := 4.
Definition o_name : Z := 8.
Definition o_stack : Z := 48.
Definition o_priority : Z := 52.
Definition o_full_name : Z := 72.
Definition o_child_list : Z := 112.
Definition o_fd_table : Z := 132.
Definition o_fd_table_counter : Z := 148.
Definition o_exec_fp : Z := 152.
Definition o_load_failed : Z := 156.
Definition o_magic : Z := 164.
Definition sizeof_thread : nat := 168.

Definition THREAD_MAGIC : Z := 0xcd6abf4b.
Definition THREAD_BLOCKED : Z := 2.
Definition PRI_MIN : Z := 0.
Definition PRI_DEFAULT : Z := 31.
Definition PRI_MAX : Z := 63.
Definition TID_ERROR : Z := -1.

(** * Operations *)

Definition running_thread (esp : Z) : Z := pg_round_down esp.

Definition is_thread (t : Z) : M mem bool :=
  if negb (t =? NULL) then magic ← load32 (t + o_magic); mret (magic =? THREAD_MAGIC) else mret false.

(** The link into [all_list] is part of the model of the scheduler. *)
Definition init_thread (t name priority : Z) : M mem unit :=
  ASSERT (negb (t =? NULL));;
  ASSERT ((PRI_MIN <=? priority) && (priority <=? PRI_MAX));;
  ASSERT (negb (name =? NULL));;
  memset t 0 sizeof_thread;;
  store32 (t + o_status) THREAD_BLOCKED;;
  strlcpy (t + o_name) name 40;;
  store32 (t + o_stack) (t + PGSIZE);;
  store32 (t + o_priority) priority;;
  store32 (t + o_magic) THREAD_MAGIC.

Definition alloc_frame (t size : Z) : M mem Z :=
  b ← is_thread t;
  ASSERT b;;
  ASSERT (size mod 4 =? 0);;
  sp ← load32 (t + o_stack);
  store32 (t + o_stack) (u32 (sp - size));;
  mret (u32 (sp - size)).

Definition list_init (list : Z) : M mem unit :=
  store32 list NULL;; store32 (list + 4) (list + 8);; store32 (list + 8) list;; store32 (list + 12) NULL.

Section Create.
(** The addresses of the code. *)
Context (kernel_thread switch_entry : Z).

(** [thread_create] up to [thread_unblock]; [t] is the page that [palloc_get_page] gave and [tid] the
    number that [allocate_tid] gave. *)
Definition thread_create (t tid name priority function aux : Z) : M mem Z :=
  ASSERT (negb (function =? NULL));;
  if t =? NULL then mret TID_ERROR
  else
    init_thread t name priority;;
    store32 (t + o_tid) tid;;
    len ← strlen name;
    strlcpy (t + o_full_name) name (len + 1);;
    kf ← alloc_frame t 12;
    store32 kf NULL;; store32 (kf + 4) function;; store32 (kf + 8) aux;;
    ef ← alloc_frame t 4;
    store32 ef kernel_thread;;
    sf ← alloc_frame t 28;
    store32 (sf + 16) switch_entry;; store32 (sf + 8) 0;;
    list_init (t + o_fd_table);;
    store32 (t + o_fd_table_counter) 2;;
    list_init (t + o_child_list);;
    store32 (t + o_exec_fp) NULL;;
    store8 (t + o_load_failed) 0;;
    mret tid.

(** [process_execute] from the copy of the name without arguments to the call of [thread_create];
    [copy] and [argv] are its two local arrays, [sp] the string literal of [parse_command_string]. *)
Definition execute_thread (sp file_name copy argv t tid start_process fn_copy : Z) : M mem Z :=
  len ← strlen file_name;
  strlcpy copy file_name (len + 1);;
  parse_command_string sp copy argv true;;
  name ← load32 argv;
  thread_create t tid name PRI_DEFAULT start_process fn_copy.
End Create.

(** * The page of a thread *)

(** In the page at [t], the aligned words that [D] selects are [W], and the bytes [X] are at their offsets;
    outside it memory is [m0]. *)
Record page (m0 : mem) (t : Z) (D : Z -> Prop) (W : Z -> Z) (X : list (Z * list Z)) (m : mem) : Prop := {
  pg_room : mapped m t 4096;
  pg_words : forall o, 0 <= o < 4096 -> o mod 4 = 0 -> D o -> word (W o) /\ bytes_at m (t + o) (le 4 (W o));
  pg_bytes : Forall (fun x => bytes_at m (t + x.1) x.2) X;
  pg_same : forall i, ~ (t <= i < t + 4096) -> m !! i = m0 !! i
}.

Definition updw (o v : Z) (W : Z -> Z) : Z -> Z := fun o' => if o =? o' then v else W o'.
Definition apart (o n : Z) (X : list (Z * list Z)) : Prop := Forall (fun x => o + n <= x.1 \/ x.1 + Z.of_nat (length x.2) <= o) X.

Section Page.
Context (m0 : mem) (t : Z).

Lemma page_put D W X m o bs : page m0 t D W X m -> 0 <= o -> o + Z.of_nat (length bs) <= 4096 -> apart o (Z.of_nat (length bs)) X -> 
  page m0 t (fun o' => D o' /\ (o' + 4 <= o \/ o + Z.of_nat (length bs) <= o')) W X (put m (t + o) bs).
Proof.
  intros [H1 H2 H3 H4] Ho Hle HX. split; [by apply mapped_put| | |].
  - intros o' Hr Ha [HD Hout]. destruct (H2 o' Hr Ha HD) as [Hw Hb]. split; [done|]. apply put_frame; [done|]. rewrite length_le. lia.
  - apply Forall_forall. intros x Hx. rewrite Forall_forall in H3. unfold apart in HX. rewrite Forall_forall in HX. apply put_frame; [by apply H3|]. specialize (HX x Hx). lia.
  - intros i Hi. rewrite lookup_put, decide_False; [by apply H4|lia].
Qed.

Lemma page_add D W X m o bs : page m0 t D W X m -> 0 <= o -> o + Z.of_nat (length bs) <= 4096 -> apart o (Z.of_nat (length bs)) X ->
  page m0 t (fun o' => D o' /\ (o' + 4 <= o \/ o + Z.of_nat (length bs) <= o')) W ((o, bs) :: X) (put m (t + o) bs).
Proof. intros Hp Ho Hle HX. destruct (page_put _ _ _ _ _ _ Hp Ho Hle HX) as [H1 H2 H3 H4]. split; [done..| |done]. constructor; [apply put_bytes|done]. Qed.

Lemma page_mono (D D' : Z -> Prop) W X m : page m0 t D W X m -> (forall o, D' o -> D o) -> page m0 t D' W X m.
Proof. intros [H1 H2 H3 H4] HD. split; [done| |done|done]. intros o Hr Ha Ho. by apply H2, HD. Qed.

Lemma wp_page_store D W X m o v (Q : unit -> mem -> Prop) : page m0 t D W X m -> 0 <= o <= 4092 -> o mod 4 = 0 -> word v -> apart o 4 X ->
  (forall m', page m0 t (fun o' => D o' \/ o' = o) (updw o v W) X m' -> Q tt m') -> wp (store32 (t + o) v) m Q.
Proof.
  intros Hp Ho Ha Hv HX HQ. apply wp_store32; [intros i Hi; apply (pg_room _ _ _ _ _ _ Hp); lia|]. apply HQ. pose proof (page_put _ _ _ _ _ (le 4 v) Hp (proj1 Ho)) as Hp'. rewrite length_le in Hp'. destruct (Hp' ltac:(lia) HX) as [H1 H2 H3 H4].
  split; [done| |done|done]. intros o' Hr' Ha' HD. unfold updw. destruct (Z.eqb_spec o o') as [<-|Hne]; [split; [done|apply put_bytes]|]. destruct HD as [HD| ->]; [|done]. apply H2; [done|done|split; [done|]].
  pose proof (Z.div_mod o 4). pose proof (Z.div_mod o' 4). lia.
Qed.

Lemma wp_page_load D W X m o (Q : Z -> mem -> Prop) : page m0 t D W X m -> 0 <= o < 4096 -> o mod 4 = 0 -> D o -> Q (W o) m -> wp (load32 (t + o)) m Q.
Proof. intros Hp Hr Ha HD HQ. destruct (pg_words _ _ _ _ _ _ Hp o Hr Ha HD) as [Hw Hb]. by eapply wp_load32. Qed.

(** A run of words. *)
Lemma page_run D W X m l o : page m0 t D W X m -> 0 <= o -> o mod 4 = 0 -> o + 4 * Z.of_nat (length l) <= 4096 ->
  (forall i v, l !! i = Some v -> D (o + 4 * Z.of_nat i) /\ W (o + 4 * Z.of_nat i) = v) -> bytes_at m (t + o) (words32 l).
Proof.
  intros Hp. revert o. induction l as [|v l IH]; intros o Ho Ha Hlen Hl; [done|]. change (words32 (v :: l)) with (le 4 v ++ words32 l). cbn [length] in Hlen.
  apply bytes_at_app. destruct (Hl 0%nat v eq_refl) as [HD HW]. rewrite Z.mul_0_r, Z.add_0_r in HD, HW. split; [rewrite <-HW; by apply (pg_words _ _ _ _ _ _ Hp); [lia|..]|].
  rewrite length_le. replace (t + o + Z.of_nat 4) with (t + (o + 4)) by lia. apply IH; [lia|rewrite Z.add_mod, Ha by lia; done|lia|]. intros i w Hi. specialize (Hl (S i) w Hi).
  by replace (o + 4 + 4 * Z.of_nat i) with (o + 4 * Z.of_nat (S i)) by lia.
Qed.

Lemma page_cstr D W X m a l : page m0 t D W X m -> cstr m0 a l -> a + Z.of_nat (length l) < t \/ t + 4096 <= a -> cstr m a l.
Proof. intros Hp Hc Ha. apply (cstr_frame _ _ _ _ Hc). intros i Hi. apply (pg_same _ _ _ _ _ _ Hp). lia. Qed.

(** Copying a string into the page. *)
Lemma wp_page_strlcpy D W X m o name l size (Q : Z -> mem -> Prop) : 0 < t -> page m0 t D W X m -> cstr m0 name l -> name + Z.of_nat (length l) < t \/ t + 4096 <= name ->
  0 <= o -> 0 < size -> o + size <= 4096 -> apart o (Z.of_nat (length (take (Z.to_nat (size - 1)) l ++ [0]))) X ->
  (forall m', let bs := take (Z.to_nat (size - 1)) l ++ [0] in page m0 t (fun o' => D o' /\ (o' + 4 <= o \/ o + Z.of_nat (length bs) <= o')) W ((o, bs) :: X) m' -> Q (Z.of_nat (length l)) m') ->
  wp (strlcpy (t + o) name size) m Q.
Proof.
  intros Ht Hp Hn Hna Ho Hs Hfit HX HQ. eapply wp_strlcpy; [lia|by eapply page_cstr|lia|intros i Hi; apply (pg_room _ _ _ _ _ _ Hp); lia|lia|].
  rewrite (proj2 (Z.ltb_lt 0 size)) by done. apply HQ. apply page_add; [done..| |done]. rewrite length_app, length_take. cbn. lia.
Qed.

Lemma wp_is_thread D W X m (Q : bool -> mem -> Prop) : 0 < t -> page m0 t D W X m -> D o_magic -> Q (W o_magic =? THREAD_MAGIC) m -> wp (is_thread t) m Q.
Proof.
  intros Ht Hp HD HQ. unfold is_thread. rewrite (proj2 (Z.eqb_neq t NULL)) by (unfold NULL; lia). cbn [negb]. apply wp_bind. eapply wp_page_load; [exact Hp|unfold o_magic; lia|done|done|]. by apply wp_ret.
Qed.

Lemma wp_alloc_frame D W X m k size (Q : Z -> mem -> Prop) : 0 < t -> t + 4096 < 2 ^ 32 -> page m0 t D W X m -> D o_magic -> W o_magic = THREAD_MAGIC -> D o_stack -> W o_stack = t + k ->
  0 <= size <= k -> k <= 4096 -> size mod 4 = 0 -> apart o_stack 4 X ->
  (forall m', page m0 t (fun o => D o \/ o = o_stack) (updw o_stack (t + (k - size)) W) X m' -> Q (t + (k - size)) m') -> wp (alloc_frame t size) m Q.
Proof.
  intros Ht Hfit Hp HD1 HW1 HD2 HW2 Hsz Hk Ha HX HQ. unfold alloc_frame. apply wp_bind. eapply wp_is_thread; [done|exact Hp|done|]. rewrite HW1, Z.eqb_refl.
  apply wp_bind, wp_assert; [done|]. apply wp_bind, wp_assert; [lia|]. apply wp_bind. eapply wp_page_load; [exact Hp|unfold o_stack; lia|done|done|]. rewrite HW2.
  replace (u32 (t + k - size)) with (t + (k - size)) by (unfold u32; rewrite Z.mod_small; lia). apply wp_bind. eapply wp_page_store; [exact Hp|unfold o_stack; lia|done|unfold word; lia|done|].
  intros m' Hm'. by apply wp_ret, HQ.
Qed.
End Page.

(** * A new thread *)

Definition first_frames (kernel_thread switch_entry function aux : Z) : list Z := [0; 0; 0; 0; switch_entry; 0; 0; kernel_thread; 0; function; aux].

Record new_thread (kernel_thread switch_entry : Z) (m0 : mem) (t tid : Z) (name : list Z) (priority function aux : Z) (m : mem) : Prop := {
  nt_tid : bytes_at m t (le 4 tid);
  nt_status : bytes_at m (t + o_status) (le 4 THREAD_BLOCKED);
  nt_name : cstr m (t + o_name) name;
  nt_stack : bytes_at m (t + o_stack) (le 4 (t + 4052));
  nt_priority : bytes_at m (t + o_priority) (le 4 priority);
  nt_full_name : cstr m (t + o_full_name) name;
  nt_files : bytes_at m (t + o_fd_table_counter) (le 4 2);
  nt_magic : bytes_at m (t + o_magic) (le 4 THREAD_MAGIC);
  nt_frames : bytes_at m (t + 4052) (words32 (first_frames kernel_thread switch_entry function aux));
  nt_room : mapped m t 4096;
  nt_same : forall i, ~ (t <= i < t + 4096) -> m !! i = m0 !! i
}.

#[local] Ltac offs := unfold o_tid, o_status, o_name, o_stack, o_priority, o_full_name, o_child_list, o_fd_table, o_fd_table_counter, o_exec_fp, o_load_failed, o_magic in *.
#[local] Ltac apart_solve := unfold apart; offs; repeat (apply Forall_cons; split; [cbn [fst snd]; lia|]); apply Forall_nil; done.
#[local] Ltac pstore := eapply wp_page_store; [eassumption|offs; lia|offs; reflexivity|first [done|unfold word, THREAD_BLOCKED, THREAD_MAGIC, NULL in *; lia]|apart_solve|let m := fresh "m" in let H := fresh "Hp" in intros m H].

Section Create.
Context (kernel_thread switch_entry : Z) (m0 : mem) (t : Z).
Hypothesis Ht : 0 < t.
Hypothesis Hfit : t + 4096 < 2 ^ 32.

Lemma zero_page : bytes_at m0 t (replicate 4096 0) -> page m0 t (fun _ => True) (fun _ => 0) [] m0.
Proof.
  intros Hz. split; [|intros o Ho Ha _; split; [unfold word; lia|]|constructor|done].
  - intros i Hi. apply bytes_at_mapped in Hz. apply Hz. rewrite length_replicate. lia.
  - rewrite <-(take_drop (Z.to_nat o) (replicate 4096 0)) in Hz. apply bytes_at_app in Hz as [_ Hz]. rewrite <-(take_drop 4 (drop _ _)) in Hz. apply bytes_at_app in Hz as [Hz _].
    rewrite length_take, length_replicate, drop_replicate, take_replicate in Hz. pose proof (Z.div_mod o 4). replace (4 `min` (4096 - Z.to_nat o))%nat with 4%nat in Hz by lia.
    by replace (t + Z.of_nat (Z.to_nat o `min` 4096)) with (t + o) in Hz by lia.
Qed.

Lemma wp_init_thread name l priority m (Q : unit -> mem -> Prop) : page m0 t (fun _ => True) (fun _ => 0) [] m -> 0 <= priority <= 63 ->
  cstr m0 name l -> name + Z.of_nat (length l) < t \/ t + 4096 <= name ->
  (forall m', page m0 t (fun o => o ∈ [o_status; o_stack; o_priority; o_magic] \/ 168 <= o)
     (updw o_magic THREAD_MAGIC (updw o_priority priority (updw o_stack (t + 4096) (updw o_status THREAD_BLOCKED (fun _ => 0))))) [(o_name, take 39 l ++ [0])] m' -> Q tt m') ->
  wp (init_thread t name priority) m Q.
Proof.
  intros Hp Hpri Hn Hna HQ. unfold init_thread. pose proof (cstr_pos _ _ _ Hn) as Hpos. apply wp_bind, wp_assert; [unfold NULL; lia|]. apply wp_bind, wp_assert; [unfold PRI_MIN, PRI_MAX; lia|]. apply wp_bind, wp_assert; [unfold NULL; lia|].
  apply wp_bind, wp_memset; [unfold NULL; lia|intros i Hi; apply (pg_room _ _ _ _ _ _ Hp); unfold sizeof_thread in Hi; lia|].
  pose proof (page_put _ _ _ _ _ _ 0 (replicate sizeof_thread (u8 0)) Hp) as Hp0. rewrite Z.add_0_r in Hp0. specialize (Hp0 ltac:(lia)). rewrite length_replicate in Hp0. change (Z.of_nat sizeof_thread) with 168 in Hp0. specialize (Hp0 ltac:(lia) ltac:(constructor)).
  apply wp_bind. pstore. apply wp_bind. eapply (wp_page_strlcpy m0 t _ _ _ _ o_name _ l 40); [done|eassumption|done|done|offs; lia|lia|offs; lia|constructor|]. cbn zeta. change (Z.to_nat (40 - 1)) with 39%nat. intros m3 Hp3.
  assert (Z.of_nat (length (take 39 l ++ [0])) <= 40) as Hlen by (rewrite length_app, length_take; cbn [length]; lia).
  apply wp_bind. change (t + PGSIZE) with (t + 4096). pstore. apply wp_bind. pstore. pstore. apply HQ. eapply page_mono; [eassumption|]. intros o Ho. cbn beta. rewrite !elem_of_cons, elem_of_nil in Ho. offs. lia.
Qed.

#[local] Ltac pfinish := cbn beta; cbn [length]; rewrite ?elem_of_cons, ?elem_of_nil; offs; lia.

Lemma wp_page_list_init D W X m o (Q : unit -> mem -> Prop) : page m0 t D W X m -> 0 <= o <= 2000 -> o mod 4 = 0 -> apart o 16 X ->
  (forall m', page m0 t (fun o' => D o' \/ o <= o' < o + 16) (updw (o + 12) 0 (updw (o + 8) (t + o) (updw (o + 4) (t + (o + 8)) (updw o 0 W)))) X m' -> Q tt m') -> wp (list_init (t + o)) m Q.
Proof.
  intros Hp Ho Ha HX HQ. unfold list_init. rewrite <-!(Z.add_assoc t o). assert (forall k, 0 <= k <= 12 -> apart (o + k) 4 X) as HX' by (intros k Hk; apply (Forall_impl _ _ _ HX); intros x Hx; lia).
  assert (forall k, k mod 4 = 0 -> (o + k) mod 4 = 0) as Ha' by (intros k Hk; by rewrite Z.add_mod, Ha, Hk by lia).
  apply wp_bind. replace o with (o + 0) at 1 by lia. eapply wp_page_store; [exact Hp|lia|by apply Ha'|unfold word, NULL; lia|apply HX'; lia|]. rewrite Z.add_0_r. intros m1 H1.
  apply wp_bind. eapply wp_page_store; [exact H1|lia|by apply Ha'|unfold word; lia|apply HX'; lia|]. intros m2 H2. apply wp_bind. eapply wp_page_store; [exact H2|lia|by apply Ha'|unfold word; lia|apply HX'; lia|]. intros m3 H3.
  eapply wp_page_store; [exact H3|lia|by apply Ha'|unfold word, NULL; lia|apply HX'; lia|]. intros m4 [G1 G2 G3 G4]. apply HQ. split; [done| |done|done]. intros o' Hr Ha4 HD. apply G2; [done|done|].
  destruct HD as [HD|HD]; [by repeat left|]. pose proof (Z.div_mod o 4). pose proof (Z.div_mod o' 4). assert (o' = o \/ o' = o + 4 \/ o' = o + 8 \/ o' = o + 12) as Hc by lia. tauto.
Qed.

(** Up to the copy of the full name. *)
Lemma wpe_create_prefix {A} tid name l priority (k : M mem A) (Q : A -> mem -> Prop) E : bytes_at m0 t (replicate 4096 0) -> word tid -> 0 <= priority <= 63 ->
  cstr m0 name l -> name + Z.of_nat (length l) < t \/ t + 4096 <= name -> Z.of_nat (length l) < 4000 ->
  (forall m1, page m0 t (fun o => (o ∈ [o_tid; o_status; o_stack; o_priority; o_magic] \/ 168 <= o))
     (updw o_tid tid (updw o_magic THREAD_MAGIC (updw o_priority priority (updw o_stack (t + 4096) (updw o_status THREAD_BLOCKED (fun _ => 0)))))) [(o_name, take 39 l ++ [0])] m1 ->
     wpe k (put m1 (t + o_full_name) (l ++ [0])) Q E) ->
  wpe (init_thread t name priority;; store32 (t + o_tid) tid;; len ← strlen name; strlcpy (t + o_full_name) name (len + 1);; k) m0 Q E.
Proof.
  intros Hz Htid Hpri Hn Hna Hlen Hk. eapply wpe_step, wp_init_thread; [by apply zero_page|done|done|done|]. intros m1 Hp1. apply wpe_step. assert (Z.of_nat (length (take 39 l ++ [0])) <= 40) as Hl39 by (rewrite length_app, length_take; cbn [length]; lia).
  pstore. apply wpe_step. eapply wp_strlen; [by eapply page_cstr|]. apply wpe_step.
  eapply wp_strlcpy; [offs; lia|by eapply page_cstr|lia|intros i Hi; apply (pg_room _ _ _ _ _ _ Hp); offs; lia|offs; lia|]. rewrite (proj2 (Z.ltb_lt 0 _)) by lia.
  rewrite take_ge by lia. apply Hk. eapply page_mono; [exact Hp|]. intros o Ho. revert Ho. rewrite !elem_of_cons, !elem_of_nil. tauto.
Qed.

Lemma wp_create_thread tid name l priority function aux (Q : Z -> mem -> Prop) : bytes_at m0 t (replicate 4096 0) -> function ≠ 0 -> word tid -> 0 <= priority <= 63 -> word function -> word aux -> word kernel_thread -> word switch_entry ->
  cstr m0 name l -> name + Z.of_nat (length l) < t \/ t + 4096 <= name -> (length l <= 39)%nat ->
  (forall m', new_thread kernel_thread switch_entry m0 t tid l priority function aux m' -> Q tid m') ->
  wp (thread_create kernel_thread switch_entry t tid name priority function aux) m0 Q.
Proof.
  intros Hz Hf Htid Hpri Hwf Hwa Hwk Hws Hn Hna Hlen HQ. unfold thread_create. apply wp_bind, wp_assert; [unfold NULL; lia|]. rewrite (proj2 (Z.eqb_neq t NULL)) by (unfold NULL; lia).
  apply (wpe_create_prefix tid name l priority _ Q (fun _ => False)); [done..|lia|]. intros m1 Hp1.
  assert (Z.of_nat (length (take 39 l ++ [0])) <= 40) as Hl39 by (rewrite length_app, length_take; cbn [length]; lia). assert (length (l ++ [0]) = S (length l)) as Hl by (rewrite length_app; cbn [length]; lia).
  pose proof (page_add _ _ _ _ _ _ o_full_name (l ++ [0]) Hp1 ltac:(offs; lia) ltac:(rewrite Hl; offs; lia) ltac:(apart_solve)) as Hp2. rewrite Hl in Hp2. revert Hp2. generalize (put m1 (t + o_full_name) (l ++ [0])). intros m2 Hp2.
  change (wp (kf ← alloc_frame t 12; store32 kf NULL;; store32 (kf + 4) function;; store32 (kf + 8) aux;; ef ← alloc_frame t 4; store32 ef kernel_thread;; sf ← alloc_frame t 28;
    store32 (sf + 16) switch_entry;; store32 (sf + 8) 0;; list_init (t + o_fd_table);; store32 (t + o_fd_table_counter) 2;; list_init (t + o_child_list);; store32 (t + o_exec_fp) NULL;; store8 (t + o_load_failed) 0;; mret tid) m2 Q).
  apply wp_bind. eapply (wp_alloc_frame _ _ _ _ _ _ 4096); [done|done|eassumption|pfinish|done|pfinish|done|lia|lia|done|apart_solve|]. intros m3 Hp3. change (4096 - 12) with 4084.
  rewrite <-(Z.add_assoc t 4084 4), <-(Z.add_assoc t 4084 8). do 3 (apply wp_bind; pstore).
  apply wp_bind. eapply (wp_alloc_frame _ _ _ _ _ _ 4084); [done|done|eassumption|pfinish|done|pfinish|done|lia|lia|done|apart_solve|]. intros m7 Hp7. change (4084 - 4) with 4080. apply wp_bind. pstore.
  apply wp_bind. eapply (wp_alloc_frame _ _ _ _ _ _ 4080); [done|done|eassumption|pfinish|done|pfinish|done|lia|lia|done|apart_solve|]. intros m9 Hp9. change (4080 - 28) with 4052.
  rewrite <-(Z.add_assoc t 4052 16), <-(Z.add_assoc t 4052 8). do 2 (apply wp_bind; pstore).
  apply wp_bind. eapply wp_page_list_init; [eassumption|offs; lia|done|apart_solve|]. intros m12 Hp12. apply wp_bind. pstore. apply wp_bind. eapply wp_page_list_init; [eassumption|offs; lia|done|apart_solve|]. intros m14 Hp14. apply wp_bind. pstore.
  lazymatch goal with H : page _ _ _ _ _ ?m |- wp _ ?m _ => rename H into Hpl end. apply wp_bind, wp_store8; [apply (pg_room _ _ _ _ _ _ Hpl); offs; lia|]. apply wp_ret, HQ.
  pose proof (page_put _ _ _ _ _ _ o_load_failed [u8 0] Hpl ltac:(offs; lia) ltac:(cbn; offs; lia) ltac:(apart_solve)) as Hend.
  pose proof (pg_bytes _ _ _ _ _ _ Hend) as HX. apply Forall_cons in HX as [HX1 HX]. apply Forall_cons in HX as [HX2 _]. cbn [fst snd] in HX1, HX2. rewrite take_ge in HX2 by lia. destruct Hn as (Hn1 & Hn2 & Hn3).
  pose proof (pg_words _ _ _ _ _ _ Hend) as Hw. split.
  - pose proof (proj2 (Hw o_tid ltac:(offs; lia) eq_refl ltac:(pfinish))) as H0. unfold o_tid at 1 in H0. rewrite Z.add_0_r in H0. exact H0.
  - exact (proj2 (Hw o_status ltac:(offs; lia) eq_refl ltac:(pfinish))).
  - split_and!; [offs; lia|exact HX2|exact Hn3].
  - exact (proj2 (Hw o_stack ltac:(offs; lia) eq_refl ltac:(pfinish))).
  - exact (proj2 (Hw o_priority ltac:(offs; lia) eq_refl ltac:(pfinish))).
  - split_and!; [offs; lia|exact HX1|exact Hn3].
  - exact (proj2 (Hw o_fd_table_counter ltac:(offs; lia) eq_refl ltac:(pfinish))).
  - exact (proj2 (Hw o_magic ltac:(offs; lia) eq_refl ltac:(pfinish))).
  - eapply page_run; [exact Hend|lia|done|cbn; lia|]. intros i v Hi. do 11 (destruct i as [|i]; [injection Hi as <-; split; [pfinish|reflexivity]|]). done.
  - exact (pg_room _ _ _ _ _ _ Hend).
  - exact (pg_same _ _ _ _ _ _ Hend).
Qed.
End Create.

(** * The first switch *)

(** What [thread_schedule_tail] is relied on for here: it returns to its caller, on a stack that it left as it was. *)
Definition tail_ok (thread_schedule_tail : Z -> M cpu unit) (prev hi : Z) : Prop := forall s,
  wp (thread_schedule_tail prev) s (fun _ s' => regs s' ESP = regs s ESP /\ forall i, regs s ESP <= i < hi -> ram s' !! i = ram s !! i).

Lemma new_thread_parked kernel_thread switch_entry m0 t tid name priority function aux m : 0 < t -> t + 4096 < 2 ^ 32 -> word kernel_thread -> word switch_entry -> word function -> word aux ->
  new_thread kernel_thread switch_entry m0 t tid name priority function aux m -> parked m t (t + 4052) (first_frames kernel_thread switch_entry function aux).
Proof.
  intros Ht Hfit Hk He Hf Ha [H1 H2 H3 H4 H5 H6 H7 H8 H9 H10 H11]. split_and!; [lia|lia|lia|cbn; lia| |done|done]. repeat (apply Forall_cons; split; [first [done|unfold word; lia]|]). done.
Qed.

(** From the entry of [switch_entry] on the stack of the new thread. *)
Lemma wp_switch_entry thread_schedule_tail kernel_thread function aux t cur R m (Q : unit -> cpu -> Prop) : 0 < t -> t + 4096 < 2 ^ 32 -> word cur -> mapped m t 4096 -> Forall word [0; 0; kernel_thread; 0; function; aux] ->
  bytes_at m (t + 4072) (words32 [0; 0; kernel_thread; 0; function; aux]) -> R ESP = t + 4072 -> R EAX = cur -> tail_ok thread_schedule_tail cur (t + 4096) ->
  (forall s', regs s' EIP = kernel_thread -> regs s' ESP = t + 4084 -> bytes_at (ram s') (t + 4084) (words32 [0; function; aux]) -> Q tt s') ->
  wp (Switch.switch_entry thread_schedule_tail) (mk_cpu R m) Q.
Proof.
  intros Ht Hfit Hcur Hm Hw Hb Hsp Hax Htail HQ. unfold Switch.switch_entry.
  assert (stack m t (t + 4096) [0; 0; kernel_thread; 0; function; aux] m) as Hst.
  { split; [cbn; lia|by replace (Z.to_nat (t + 4096 - t)) with 4096%nat by lia| |done|done]. cbn [length]. by replace (t + 4096 - 4 * Z.of_nat 6) with (t + 4072) by lia. }
  apply wp_bind. eapply (wp_add_esp m t (t + 4096) 2); [exact Hst|unfold top; cbn [length]; lia|lia|cbn; lia|done|]. cbn [drop]. intros Hst1. apply wp_bind, wp_getr. cbn [regs].
  lazymatch goal with |- wp (pushl ?v ≫= _) _ _ => change v with (R EAX) end. rewrite Hax.
  apply wp_bind. eapply (wp_pushl m t (t + 4096)); [exact Hst1|reflexivity|unfold top; cbn [length]; lia|done|]. intros m2 Hst2.
  apply wp_bind. apply (wp_mono _ _ _ _ (Htail _)). intros [] [R3 m3] [E1 E2]. cbn [regs ram] in *. unfold upd at 1 in E1. cbn [reg_no Nat.eqb] in E1.
  assert (stack m3 (t + 4076) (t + 4096) [cur; kernel_thread; 0; function; aux] m3) as Hst3.
  { unfold upd in E2. cbn [reg_no Nat.eqb] in E2. unfold top in E2. cbn [length] in E2. split; [cbn; lia| | |apply (sk_word _ _ _ _ _ Hst2)|done].
    - intros i Hi. rewrite E2 by lia. apply (sk_room _ _ _ _ _ Hst2). lia.
    - pose proof (sk_words _ _ _ _ _ Hst2) as Hbs. apply (bytes_at_eq _ _ _ _ Hbs). intros i Hi. apply E2. cbn [length] in Hi. rewrite length_words32 in Hi. cbn [length] in Hi. lia. }
  apply wp_bind. eapply (wp_add_esp m3 (t + 4076) (t + 4096) 1); [exact Hst3|rewrite E1; unfold top; cbn [length]; lia|lia|cbn; lia|done|]. cbn [drop]. intros Hst4.
  eapply (wp_pop_reg m3 (t + 4076) (t + 4096)); [exact Hst4|reflexivity|lia|]. intros Hst5. apply HQ; [done|unfold upd, top; cbn [reg_no Nat.eqb regs length]; lia|].
  pose proof (sk_words _ _ _ _ _ Hst5) as Hbs. cbn [length] in Hbs. by replace (t + 4096 - 4 * Z.of_nat 3) with (t + 4084) in Hbs by lia.
Qed.

Lemma calling_same lo hi cur next ret tl R m m' : calling lo hi cur next ret tl (mk_cpu R m) -> (forall i, cur <= i < hi -> m' !! i = m !! i) -> calling lo hi cur next ret tl (mk_cpu R m').
Proof.
  intros [H1 H2 [S1 S2 S3 S4 S5] H4 H5 H6 H7] E. cbn [regs ram] in *. split; [done|done| |done|done|done|]; cbn [regs ram].
  - split; [done| | |done|done].
    + intros i Hi. rewrite E by lia. by apply S2.
    + apply (bytes_at_eq _ _ _ _ S3). intros i Hi. rewrite length_words32 in Hi. apply E. lia.
  - intros i Hi. unfold thread_stack_ofs in *. rewrite E; [by apply H7|]. unfold top in H5. cbn [length] in *. lia.
Qed.

(** * Theorems *)


(** The bytes of the magic number under a long name. *)
Definition overlaid (l : list Z) : list Z := take 4 (drop 92 (l ++ [0]) ++ drop (length l - 91) (le 4 THREAD_MAGIC)).

Lemma overlaid_at m t l : bytes_at m (t + o_magic) (le 4 THREAD_MAGIC) -> (92 <= length l)%nat -> bytes_at (put m (t + o_full_name) (l ++ [0])) (t + o_magic) (overlaid l).
Proof.
  intros Hm Hl. assert (length (l ++ [0]) = (length l + 1)%nat) as Hlen by (by rewrite length_app).
  apply bytes_at_lookup. intros i b Hi. unfold overlaid in Hi. apply lookup_take_Some in Hi as [Hi Hi4]. rewrite lookup_put, Hlen. unfold o_magic, o_full_name in *.
  destruct (decide _) as [Hin|Hout].
  - rewrite lookup_app_l in Hi by (rewrite length_drop, Hlen; lia). rewrite lookup_drop in Hi. by replace (Z.to_nat (t + 164 + Z.of_nat i - (t + 72))) with (92 + i)%nat by lia.
  - rewrite lookup_app_r in Hi by (rewrite length_drop, Hlen; lia). rewrite length_drop, Hlen, lookup_drop in Hi. rewrite bytes_at_lookup in Hm. apply Hm. by replace (length l - 91 + (i - (length l + 1 - 92)))%nat with i in Hi by lia.
Qed.

Lemma overlaid_not_magic l : (92 <= length l)%nat -> Forall (fun c => 0 < c < 128) l -> length (overlaid l) = 4%nat /\ unle (overlaid l) ≠ THREAD_MAGIC.
Proof.
  intros Hl Hc. assert (exists k, overlaid l = take 4 (k ++ [0] ++ drop (S (length k)) [75; 191; 106; 205]) /\ Forall (fun c => 0 < c < 128) k) as (k & -> & Hk).
  { exists (drop 92 l). split; [|by apply Forall_drop]. unfold overlaid. rewrite length_drop. replace (S (length l - 92)) with (length l - 91)%nat by lia. by rewrite drop_app_le, <-app_assoc by done. }
  unfold THREAD_MAGIC. destruct k as [|a [|b [|c [|d k]]]]; repeat (apply Forall_cons in Hk as [? Hk]); cbn [length app drop take unle]; (split; [done|lia]).
Qed.


Lemma words_blank l : Forall (fun c => c = 32) l -> words blank l = [].
Proof. intros H. rewrite <-(app_nil_r l), words_skip; [done|]. apply (Forall_impl _ _ _ H). by intros c ->. Qed.

(** A command without a word, for instance the empty one, has no program name: [process_execute] passes a null pointer to
    [thread_create], whose assertion stops the kernel. *)
Theorem blank_command_panics kernel_thread switch_entry sp m file_name copy argv l t tid start_process fn_copy :
  cstr m file_name l -> Forall (fun c => c = 32) l -> 0 < copy -> mapped m copy (length l + 1) -> copy + Z.of_nat (length l) < file_name \/ file_name + Z.of_nat (length l) < copy ->
  cstr m sp blank -> mapped m argv 4 -> 0 < argv -> copy + Z.of_nat (length l) < 2 ^ 32 -> argv + 4 <= copy \/ copy + Z.of_nat (length l) < argv -> sp + 1 < copy \/ copy + Z.of_nat (length l) < sp -> sp + 1 < argv \/ argv + 4 <= sp ->
  t ≠ 0 -> start_process ≠ 0 ->
  execute_thread kernel_thread switch_entry sp file_name copy argv t tid start_process fn_copy m = Err Panic.
Proof.
  intros Hn Hl Hc0 Hcm Hcf Hsp Hav Hav0 Hfit Hac Hsc Hsa Ht Hsf. assert (wpe (execute_thread kernel_thread switch_entry sp file_name copy argv t tid start_process fn_copy) m (fun _ _ => False) (fun e => e = Panic)) as H.
  2: { unfold wpe in H. destruct (execute_thread _ _ _ _ _ _ _ _ _ _ m) as [[]|]; [done|by subst]. }
  unfold execute_thread. apply wpe_step. eapply wp_strlen; [exact Hn|]. apply wpe_step. eapply wp_strlcpy; [done|exact Hn|lia|by replace (Z.to_nat (Z.of_nat (length l) + 1)) with (length l + 1)%nat by lia|lia|].
  rewrite (proj2 (Z.ltb_lt 0 _)), take_ge by lia. set (m1 := put m copy (l ++ [0])). assert (length (l ++ [0]) = (length l + 1)%nat) as Hlen by (by rewrite length_app).
  assert (cstr m1 copy l) as Hc1 by (split_and!; [done|apply put_bytes|apply Hn]). pose proof (words_blank l Hl) as Hw.
  assert (parse_pre sp m1 copy argv l) as Hpre.
  { split; rewrite ?Hw; cbn [length]; try done; try lia; [|by apply mapped_put]. apply (cstr_frame _ _ _ _ Hsp). intros i Hi. unfold m1. rewrite lookup_put, decide_False; [done|]. rewrite Hlen. cbn in Hi. lia. }
  apply wpe_step. unfold parse_command_string.
  apply (wp_parse_tok sp m1 copy argv l Hpre [] copy l m1 copy NULL (fun tok save => fuel ← mem_fuel; loop fuel _ (0, save))); [by apply (parse_inv_init sp)|unfold NULL; destruct (Z.eqb_spec copy 0); lia| |by rewrite Hw].
  intros x m2 _ Hi. pose proof (pi_argv _ _ _ _ _ _ _ _ _ Hi) as Hb. cbn [map app] in Hb. change (words32 [NULL]) with (le 4 NULL) in Hb.
  apply wp_bind, wp_mem_fuel. apply wp_loop_S. apply wp_bind. replace (argv + 4 * 0) with argv by lia. eapply wp_load32; [exact Hb|unfold NULL; lia|]. rewrite Z.eqb_refl. apply wp_ret.
  apply wpe_step. eapply wp_load32; [exact Hb|unfold NULL; lia|]. unfold thread_create. apply wpe_step, wp_assert; [unfold NULL; lia|]. rewrite (proj2 (Z.eqb_neq t NULL)) by done. apply wpe_bind. unfold init_thread.
  apply wpe_step, wp_assert; [unfold NULL; lia|]. apply wpe_step, wp_assert; [done|]. apply wpe_bind. rewrite Z.eqb_refl. done.
Qed.

(** * Witnesses *)

Definition demo_page (m : mem) : mem := put m 4096 (replicate 4096 0).
Lemma demo_page_zero m : bytes_at (demo_page m) 4096 (replicate 4096 0).
Proof. unfold demo_page. generalize (replicate 4096 0). intros bs. apply put_bytes. Qed.

(** A thread at 1000 with its stack at 1100, and the name "ab" at 100. *)
Definition demo_before : cpu := mk_cpu (fun r => match r with ESP => 1152 | _ => 0 end)
  (demo_page (put (put (put (put ∅ 1000 (replicate 52 0)) 1100 (replicate 64 0)) 1152 (words32 [77; 1000; 4096])) 100 [97; 98; 0])).


Definition demo_long : mem := demo_page (put ∅ 100 (replicate 92 97 ++ [0])).


Definition demo_blank : mem := put (put (put (put ∅ 10 [0]) 20 [1]) 30 [32; 0]) 40 [0; 0; 0; 0].

Lemma blank_command_panics_witness : execute_thread 5000 6000 30 10 20 40 4096 3 7000 8000 demo_blank = Err Panic.
Proof.
  apply (blank_command_panics 5000 6000 30 demo_blank 10 20 40 []); [|constructor|lia|apply demo_mapped; vm_compute; reflexivity|cbn; lia| |apply demo_mapped; vm_compute; reflexivity|lia|cbn; lia|cbn; lia|cbn; lia|lia|lia|lia];
    (split_and!; [lia|vm_compute; tauto|repeat constructor; vm_compute; congruence]).
Defined.
