(* ===== verification/Gdt.v ===== *)
(** src/userprog/gdt.c and src/userprog/tss.c: the segments of kernel and user programs, and the stack
    that the processor takes when a user program is interrupted.

    The table holds the 64-bit descriptors that the processor reads.  The task state segment is a page of
    the kernel, of which three members are used. *)
From stdpp Require Import base list numbers.
From Stdlib Require Import ZArith Lia.
From S2P Require Import Prelude Vaddr.

Open Scope Z_scope.

(** * State *)

(** The members of [struct tss] that are set. *)
Record tss : Type := mk_tss { esp0 : Z; ss0 : Z; bitmap : Z }.

Record segments : Type := mk_segments { gdt : list Z; tss_page : Z; tss_mem : tss; gdtr : Z; tr : Z }.

Definition set_gdt_at (i : nat) (d : Z) : M segments unit := s ← mget; mput (mk_segments (<[i := d]> (gdt s)) (tss_page s) (tss_mem s) (gdtr s) (tr s)).
Definition set_tss (t : tss) : M segments unit := s ← mget; mput (mk_segments (gdt s) (tss_page s) t (gdtr s) (tr s)).

(** * Operations *)

Definition SEL_NULL : Z := 0x00.
Definition SEL_KCSEG : Z := 0x08.
Definition SEL_KDSEG : Z := 0x10.
Definition SEL_UCSEG : Z := 0x1B.
Definition SEL_UDSEG : Z := 0x23.
Definition SEL_TSS : Z := 0x28.
Definition SEL_CNT : nat := 6.

Inductive seg_class : Set := CLS_SYSTEM | CLS_CODE_DATA.
Inductive seg_granularity : Set := GRAN_BYTE | GRAN_PAGE.
Definition class_no (c : seg_class) : Z := match c with CLS_SYSTEM => 0 | CLS_CODE_DATA => 1 end.
Definition gran_no (g : seg_granularity) : Z := match g with GRAN_BYTE => 0 | GRAN_PAGE => 1 end.

Definition make_seg_desc (base limit : Z) (class : seg_class) (type dpl : Z) (granularity : seg_granularity) : M segments Z :=
  ASSERT (limit <=? 0xfffff);;
  ASSERT ((0 <=? type) && (type <=? 15));;
  ASSERT ((0 <=? dpl) && (dpl <=? 3));;
  let e0 := u32 (Z.lor (Z.land limit 0xffff) (u32 (Z.shiftl base 16))) in
  let e1 := u32 (Z.lor (Z.lor (Z.lor (Z.lor (Z.lor (Z.lor (Z.lor (Z.lor (Z.land (Z.shiftr base 16) 0xff)
    (Z.shiftl type 8)) (Z.shiftl (class_no class) 12)) (Z.shiftl dpl 13)) (Z.shiftl 1 15))
    (Z.land limit 0xf0000)) (Z.shiftl 1 22)) (Z.shiftl (gran_no granularity) 23)) (Z.land base 0xff000000)) in
  mret (Z.lor e0 (u64 (Z.shiftl e1 32))).

Definition make_code_desc (dpl : Z) : M segments Z := make_seg_desc 0 0xfffff CLS_CODE_DATA 10 dpl GRAN_PAGE.
Definition make_data_desc (dpl : Z) : M segments Z := make_seg_desc 0 0xfffff CLS_CODE_DATA 2 dpl GRAN_PAGE.
Definition make_tss_desc (laddr : Z) : M segments Z := make_seg_desc (u32 laddr) 0x67 CLS_SYSTEM 9 0 GRAN_BYTE.
Definition make_gdtr_operand (limit base : Z) : Z := Z.lor limit (u64 (Z.shiftl (u32 base) 16)).

Definition tss_get : M segments Z := s ← mget; ASSERT (negb (tss_page s =? NULL));; mret (tss_page s).

(** [thread] is the running thread. *)
Definition tss_update (thread : Z) : M segments unit :=
  s ← mget;
  ASSERT (negb (tss_page s =? NULL));;
  set_tss (mk_tss (u32 (thread + PGSIZE)) (ss0 (tss_mem s)) (bitmap (tss_mem s))).

(** [page] is the zeroed page that [palloc_get_page] gave; without one it panics. *)
Definition tss_init (page thread : Z) : M segments unit :=
  ASSERT (negb (page =? NULL));;
  s ← mget;
  mput (mk_segments (gdt s) page (mk_tss 0 SEL_KDSEG 0xdfff) (gdtr s) (tr s));;
  tss_update thread.

Definition index_of (sel : Z) : nat := Z.to_nat (sel / 8).

Definition gdt_init (gdt_addr : Z) : M segments unit :=
  set_gdt_at (index_of SEL_NULL) 0;;
  d ← make_code_desc 0; set_gdt_at (index_of SEL_KCSEG) d;;
  d ← make_data_desc 0; set_gdt_at (index_of SEL_KDSEG) d;;
  d ← make_code_desc 3; set_gdt_at (index_of SEL_UCSEG) d;;
  d ← make_data_desc 3; set_gdt_at (index_of SEL_UDSEG) d;;
  t ← tss_get;
  d ← make_tss_desc t; set_gdt_at (index_of SEL_TSS) d;;
  s ← mget;
  mput (mk_segments (gdt s) (tss_page s) (tss_mem s) (make_gdtr_operand (8 * Z.of_nat SEL_CNT - 1) gdt_addr) SEL_TSS).

(** * What the processor reads from a descriptor *)

Definition seg_base (d : Z) : Z := Z.land (Z.shiftr d 16) 0xffffff + Z.shiftl (Z.shiftr d 56) 24.
Definition seg_limit (d : Z) : Z := Z.land d 0xffff + Z.shiftl (Z.land (Z.shiftr d 48) 0xf) 16.
Definition seg_type (d : Z) : Z := Z.land (Z.shiftr d 40) 0xf.
Definition seg_system (d : Z) : bool := negb (Z.testbit d 44).
Definition seg_dpl (d : Z) : Z := Z.land (Z.shiftr d 45) 3.
Definition seg_present (d : Z) : bool := Z.testbit d 47.
Definition seg_32bit (d : Z) : bool := Z.testbit d 54.
Definition seg_pages (d : Z) : bool := Z.testbit d 55.
(** The last address of the segment, relative to its base. *)
Definition seg_last (d : Z) : Z := if seg_pages d then seg_limit d * 4096 + 4095 else seg_limit d.

Record desc_is (d base limit type dpl : Z) (system pages : bool) : Prop := {
  ds_base : seg_base d = base;
  ds_limit : seg_limit d = limit;
  ds_type : seg_type d = type;
  ds_dpl : seg_dpl d = dpl;
  ds_system : seg_system d = system;
  ds_pages : seg_pages d = pages;
  ds_present : seg_present d = true;
  ds_32bit : seg_32bit d = true
}.

#[local] Ltac divlia := Z.to_euclidean_division_equations; lia.

Lemma lor_above n a b : 0 <= n -> 0 <= a < 2 ^ n -> b mod 2 ^ n = 0 -> Z.lor a b = a + b.
Proof. intros Hn Ha Hb. rewrite Z.lor_comm, (lor_add n) by done. lia. Qed.

(** The descriptor as a number. *)
Lemma desc_value base limit class type dpl gran : 0 <= base < 2 ^ 32 -> 0 <= limit <= 0xfffff -> 0 <= type <= 15 -> 0 <= dpl <= 3 -> 0 <= class <= 1 -> 0 <= gran <= 1 ->
  let e0 := u32 (Z.lor (Z.land limit 0xffff) (u32 (Z.shiftl base 16))) in
  let e1 := u32 (Z.lor (Z.lor (Z.lor (Z.lor (Z.lor (Z.lor (Z.lor (Z.lor (Z.land (Z.shiftr base 16) 0xff)
    (Z.shiftl type 8)) (Z.shiftl class 12)) (Z.shiftl dpl 13)) (Z.shiftl 1 15))
    (Z.land limit 0xf0000)) (Z.shiftl 1 22)) (Z.shiftl gran 23)) (Z.land base 0xff000000)) in
  Z.lor e0 (u64 (Z.shiftl e1 32)) = limit mod 65536 + 65536 * (base mod 65536) +
    2 ^ 32 * (base / 65536 mod 256 + 256 * type + 4096 * class + 8192 * dpl + 32768 + 65536 * (limit / 65536) + 4194304 + 8388608 * gran + 16777216 * (base / 16777216)).
Proof.
  intros Hb Hl Ht Hd Hc Hg. cbn zeta.
  change 0xffff with (Z.ones 16) at 1. change 0xff with (Z.ones 8) at 1. rewrite !Z.land_ones, Z.shiftr_div_pow2, !Z.shiftl_mul_pow2 by lia.
  change 0xf0000 with (Z.shiftl (Z.ones 4) 16). change 0xff000000 with (Z.shiftl (Z.ones 8) 24). rewrite (land_high 16 4), (land_high 24 8) by lia.
  change (2 ^ 16) with 65536. change (2 ^ 8) with 256. change (2 ^ 12) with 4096. change (2 ^ 13) with 8192. change (1 * 2 ^ 15) with 32768. change (1 * 2 ^ 22) with 4194304. change (2 ^ 23) with 8388608. change (2 ^ 24) with 16777216.
  unfold u32 at 1 2. rewrite (lor_above 16 (limit mod 65536)) by divlia.
  rewrite (lor_above 8 (base / 65536 mod 256)) by divlia. rewrite (lor_above 12 (base / 65536 mod 256 + _)) by divlia. rewrite (lor_above 13 (base / 65536 mod 256 + _ + _)) by divlia.
  rewrite (lor_above 15 (base / 65536 mod 256 + _ + _ + _)) by divlia. rewrite (lor_above 16 (base / 65536 mod 256 + _ + _ + _ + _)) by divlia. rewrite (lor_above 22 (base / 65536 mod 256 + _ + _ + _ + _ + _)) by divlia.
  rewrite (lor_above 23 (base / 65536 mod 256 + _ + _ + _ + _ + _ + _)) by divlia. rewrite (lor_above 24 (base / 65536 mod 256 + _ + _ + _ + _ + _ + _ + _)) by divlia.
  replace ((base * 65536) mod 2 ^ 32) with (65536 * (base mod 65536)) by divlia. rewrite (Z.mod_small (limit mod 65536 + _)) by divlia.
  unfold u32. rewrite (Z.mod_small (base / 65536 mod 256 + _ + _ + _ + _ + _ + _ + _ + _)) by divlia. unfold u64. rewrite (Z.mod_small (_ * 2 ^ 32)) by divlia.
  rewrite (lor_above 32 (limit mod 65536 + _)) by divlia. lia.
Qed.

Lemma wp_make_seg_desc base limit class type dpl gran s (Q : Z -> segments -> Prop) : 0 <= base < 2 ^ 32 -> 0 <= limit <= 0xfffff -> 0 <= type <= 15 -> 0 <= dpl <= 3 ->
  (forall d, desc_is d base limit type dpl (match class with CLS_SYSTEM => true | _ => false end) (match gran with GRAN_PAGE => true | _ => false end) -> Q d s) ->
  wp (make_seg_desc base limit class type dpl gran) s Q.
Proof.
  intros Hb Hl Ht Hd HQ. unfold make_seg_desc. do 3 (apply wp_bind, wp_assert; [lia|]). apply wp_ret, HQ. rewrite desc_value by (try done; destruct class, gran; cbn; lia).
  assert (0 <= class_no class <= 1 /\ 0 <= gran_no gran <= 1) as [Hc Hg] by (destruct class, gran; cbn; lia). split.
  - unfold seg_base. change 0xffffff with (Z.ones 24). rewrite !Z.shiftr_div_pow2, Z.land_ones, Z.shiftl_mul_pow2 by lia. divlia.
  - unfold seg_limit. change 0xffff with (Z.ones 16). change 0xf with (Z.ones 4). rewrite !Z.land_ones, !Z.shiftr_div_pow2, Z.shiftl_mul_pow2 by lia. divlia.
  - unfold seg_type. change 0xf with (Z.ones 4). rewrite Z.shiftr_div_pow2, Z.land_ones by lia. divlia.
  - unfold seg_dpl. change 3 with (Z.ones 2) at 1. rewrite Z.shiftr_div_pow2, Z.land_ones by lia. divlia.
  - unfold seg_system. destruct class; cbn [class_no]; [apply negb_true_iff, Z.testbit_false|apply negb_false_iff, Z.testbit_true]; divlia.
  - unfold seg_pages. destruct gran; cbn [gran_no]; [apply Z.testbit_false|apply Z.testbit_true]; divlia.
  - unfold seg_present. rewrite Z.testbit_true by lia. divlia.
  - unfold seg_32bit. rewrite Z.testbit_true by lia. divlia.
Qed.

Lemma wp_set_gdt i d s (Q : unit -> segments -> Prop) : Q tt (mk_segments (<[i := d]> (gdt s)) (tss_page s) (tss_mem s) (gdtr s) (tr s)) -> wp (set_gdt_at i d) s Q.
Proof. intros HQ. by apply wp_bind, wp_get, wp_put. Qed.

Lemma wp_tss_init page thread s (Q : unit -> segments -> Prop) : 0 < page -> 0 <= thread -> thread + 4096 < 2 ^ 32 ->
  Q tt (mk_segments (gdt s) page (mk_tss (thread + 4096) SEL_KDSEG 0xdfff) (gdtr s) (tr s)) -> wp (tss_init page thread) s Q.
Proof.
  intros Hp Ht Hfit HQ. unfold tss_init, tss_update. apply wp_bind, wp_assert; [unfold NULL; lia|]. apply wp_bind, wp_get, wp_bind, wp_put, wp_bind, wp_get, wp_bind, wp_assert; [cbn [tss_page]; unfold NULL; lia|].
  apply wp_bind, wp_get, wp_put. cbn [gdt tss_page tss_mem gdtr tr ss0 bitmap]. change PGSIZE with 4096. replace (u32 (thread + 4096)) with (thread + 4096) by (unfold u32; rewrite Z.mod_small; lia). done.
Qed.

(** * Theorems *)

(** The segment that a selector names, and the ring that it asks for. *)
Definition segment (s : segments) (sel : Z) : Z := gdt s !!! index_of sel.
Definition rpl (sel : Z) : Z := Z.land sel 3.

(** [tss_init] and [gdt_init] fail no assertion and leave a table with code and data segments of 4 GB for kernel and user, which only the
    rings of their selectors may use, and a segment for the page of the TSS; the stack for interrupts of user programs is the end of the page of the running thread. *)
Theorem gdt_init_correct page thread gdt_addr s :
  length (gdt s) = SEL_CNT -> 0 < page < 2 ^ 32 -> 0 <= thread -> thread + 4096 < 2 ^ 32 ->
  wp (tss_init page thread;; gdt_init gdt_addr) s (fun _ s' =>
    desc_is (segment s' SEL_KCSEG) 0 0xfffff 10 (rpl SEL_KCSEG) false true /\ desc_is (segment s' SEL_KDSEG) 0 0xfffff 2 (rpl SEL_KDSEG) false true /\
    desc_is (segment s' SEL_UCSEG) 0 0xfffff 10 (rpl SEL_UCSEG) false true /\ desc_is (segment s' SEL_UDSEG) 0 0xfffff 2 (rpl SEL_UDSEG) false true /\
    desc_is (segment s' SEL_TSS) page 0x67 9 0 true false /\ segment s' SEL_NULL = 0 /\ tr s' = SEL_TSS /\
    tss_mem s' = mk_tss (thread + 4096) SEL_KDSEG 0xdfff /\ forall d, d ∈ [segment s' SEL_KCSEG; segment s' SEL_UDSEG] -> seg_last d = 2 ^ 32 - 1).
Proof.
  intros Hlen Hp Ht Hfit. destruct s as [g p0 t0 r0 q0]. cbn [gdt] in Hlen. destruct g as [|g0 [|g1 [|g2 [|g3 [|g4 [|g5 [|]]]]]]]; try done.
  apply wp_bind, wp_tss_init; [lia|lia|lia|]. unfold gdt_init, make_code_desc, make_data_desc, make_tss_desc. apply wp_bind, wp_set_gdt. cbn [gdt tss_page tss_mem gdtr tr].
  change (<[_ := 0]> _) with [0; g1; g2; g3; g4; g5]. apply wp_bind, wp_make_seg_desc; [lia..|]. intros d1 H1. apply wp_bind, wp_set_gdt. cbn [gdt tss_page tss_mem gdtr tr].
  change (<[_ := d1]> _) with [0; d1; g2; g3; g4; g5]. apply wp_bind, wp_make_seg_desc; [lia..|]. intros d2 H2. apply wp_bind, wp_set_gdt. cbn [gdt tss_page tss_mem gdtr tr].
  change (<[_ := d2]> _) with [0; d1; d2; g3; g4; g5]. apply wp_bind, wp_make_seg_desc; [lia..|]. intros d3 H3. apply wp_bind, wp_set_gdt. cbn [gdt tss_page tss_mem gdtr tr].
  change (<[_ := d3]> _) with [0; d1; d2; d3; g4; g5]. apply wp_bind, wp_make_seg_desc; [lia..|]. intros d4 H4. apply wp_bind, wp_set_gdt. cbn [gdt tss_page tss_mem gdtr tr].
  change (<[_ := d4]> _) with [0; d1; d2; d3; d4; g5]. apply wp_bind. unfold tss_get. apply wp_bind, wp_get, wp_bind, wp_assert; [cbn [tss_page]; unfold NULL; lia|]. apply wp_ret. cbn [tss_page].
  replace (u32 page) with page by (unfold u32; rewrite Z.mod_small; lia). apply wp_bind, wp_make_seg_desc; [lia..|]. intros d5 H5. apply wp_bind, wp_set_gdt. cbn [gdt tss_page tss_mem gdtr tr].
  change (<[_ := d5]> _) with [0; d1; d2; d3; d4; d5]. apply wp_bind, wp_get, wp_put. cbn [gdt tss_page tss_mem gdtr tr]. split_and!; try done.
  intros d Hd. change (d ∈ [d1; d4]) in Hd. rewrite !elem_of_cons, elem_of_nil in Hd. unfold seg_last. destruct Hd as [-> |[-> |[]]]; [by rewrite (ds_pages _ _ _ _ _ _ _ H1), (ds_limit _ _ _ _ _ _ _ H1)|by rewrite (ds_pages _ _ _ _ _ _ _ H4), (ds_limit _ _ _ _ _ _ _ H4)].
Qed.

Lemma gdt_init_correct_witness : length (gdt (mk_segments (replicate 6 0) 0 (mk_tss 0 0 0) 0 0)) = SEL_CNT /\
  wp (tss_init 0xc0100000 0xc000e000;; gdt_init 0xc0030000) (mk_segments (replicate 6 0) 0 (mk_tss 0 0 0) 0 0) (fun _ s' => desc_is (segment s' SEL_UCSEG) 0 0xfffff 10 3 false true /\ esp0 (tss_mem s') = 0xc000f000).
Proof.
  split; [reflexivity|]. eapply wp_mono; [apply (gdt_init_correct 0xc0100000 0xc000e000 0xc0030000 (mk_segments (replicate 6 0) 0 (mk_tss 0 0 0) 0 0)); [reflexivity|lia..]|].
  intros _ s' (_ & _ & H3 & _ & _ & _ & _ & H8 & _). split; [exact H3|]. by rewrite H8.
Defined.
