(* ===== verification/Timer.v ===== *)
(** src/devices/timer.c: calibration, sleeping and delays.  (The timer interrupt is in Interrupt.v.)

    [fits n] says whether [n] iterations of the delay loop that start at a timer tick end before the next one;
    [clock k] is the number of ticks that the [k]-th reading of the clock finds.  The calibration tests the bits one by
    one instead of together, and so finds a number of iterations that takes up to twice as long as a tick. *)
From stdpp Require Import base list numbers.
From Stdlib Require Import ZArith Lia.
From S2P Require Import Prelude.

Open Scope Z_scope.

(** * State *)

(** [iterations] counts the iterations of [busy_wait], [yields] the calls of [thread_yield]. *)
Record timer : Type := mk_timer { loops_per_tick : Z; intr_on : bool; iterations : Z; reads : nat; yields : nat }.

Definition TIMER_FREQ : Z := 100.

Section Timer.
Context (fits : Z -> bool) (clock : nat -> Z).

Definition set_loops (v : Z) : M timer unit := s ← mget; mput (mk_timer v (intr_on s) (iterations s) (reads s) (yields s)).
Definition barrier : M timer unit := s ← mget; mput (mk_timer (loops_per_tick s) (intr_on s) (iterations s + 1) (reads s) (yields s)).
Definition thread_yield : M timer unit := s ← mget; mput (mk_timer (loops_per_tick s) (intr_on s) (iterations s) (reads s) (S (yields s))).

(** * Operations *)

Definition busy_wait (loops : Z) : M timer unit :=
  loop (S (Z.to_nat loops)) (fun loops => if 0 <? loops then barrier;; mret (inl (loops - 1)) else mret (inr tt)) loops.

(** [too_many_loops] after it has seen the tick that it waits for. *)
Definition too_many_loops (loops : Z) : M timer bool :=
  busy_wait loops;;
  mret (negb (fits loops)).

Definition timer_calibrate : M timer unit :=
  s ← mget;
  ASSERT (intr_on s);;
  set_loops (2 ^ 10);;
  loop 24 (fun _ =>
    s ← mget;
    b ← too_many_loops (u32 (Z.shiftl (loops_per_tick s) 1));
    if b : bool then mret (inr tt)
    else
      let l := u32 (Z.shiftl (loops_per_tick s) 1) in
      set_loops l;; ASSERT (negb (l =? 0));; mret (inl tt)) tt;;
  s ← mget;
  let high_bit := loops_per_tick s in
  loop 32 (fun test_bit =>
    if test_bit =? Z.shiftr high_bit 10 then mret (inr tt)
    else
      b ← too_many_loops (Z.lor high_bit test_bit);
      (if b : bool then mret tt else s ← mget; set_loops (Z.lor (loops_per_tick s) test_bit));;
      mret (inl (Z.shiftr test_bit 1))) (Z.shiftr high_bit 1).

Definition timer_ticks : M timer Z :=
  s ← mget;
  mput (mk_timer (loops_per_tick s) (intr_on s) (iterations s) (S (reads s)) (yields s));;
  mret (clock (reads s)).

Definition timer_elapsed (then_ : Z) : M timer Z := t ← timer_ticks; mret (s64 (t - then_)).

(** The fuel bounds the number of times that the thread is scheduled again before the time is over. *)
Definition timer_sleep (fuel : nat) (ticks : Z) : M timer unit :=
  start ← timer_ticks;
  s ← mget;
  ASSERT (intr_on s);;
  loop fuel (fun _ =>
    e ← timer_elapsed start;
    if e <? ticks then thread_yield;; mret (inl tt) else mret (inr tt)) tt.

Definition real_time_delay (num denom : Z) : M timer unit :=
  ASSERT (Z.rem denom 1000 =? 0);;
  s ← mget;
  busy_wait (Z.quot (s64 (Z.quot (s64 (loops_per_tick s * num)) 1000 * TIMER_FREQ)) (Z.quot denom 1000)).

Definition real_time_sleep (fuel : nat) (num denom : Z) : M timer unit :=
  let ticks := Z.quot (s64 (num * TIMER_FREQ)) denom in
  s ← mget;
  ASSERT (intr_on s);;
  if 0 <? ticks then timer_sleep fuel ticks else real_time_delay num denom.

Definition timer_msleep (fuel : nat) (ms : Z) : M timer unit := real_time_sleep fuel ms 1000.
Definition timer_usleep (fuel : nat) (us : Z) : M timer unit := real_time_sleep fuel us (1000 * 1000).
Definition timer_nsleep (fuel : nat) (ns : Z) : M timer unit := real_time_sleep fuel ns (1000 * 1000 * 1000).
Definition timer_mdelay (ms : Z) : M timer unit := real_time_delay ms 1000.
Definition timer_udelay (us : Z) : M timer unit := real_time_delay us (1000 * 1000).
Definition timer_ndelay (ns : Z) : M timer unit := real_time_delay ns (1000 * 1000 * 1000).

(** * Delay loops *)

Lemma wp_busy_wait n s (Q : unit -> timer -> Prop) :
  Q tt (mk_timer (loops_per_tick s) (intr_on s) (iterations s + Z.max 0 n) (reads s) (yields s)) -> wp (busy_wait n) s Q.
Proof.
  intros HQ. unfold busy_wait. apply (wp_loop (fun k n' s' => k = Z.to_nat n' /\ s' = mk_timer (loops_per_tick s) (intr_on s) (iterations s + (Z.max 0 n - Z.max 0 n')) (reads s) (yields s)) Q _) with (n := Z.to_nat n).
  - intros k n' s' [-> ->]. destruct (Z.ltb_spec 0 n').
    + apply wp_bind, wp_bind, wp_get, wp_put, wp_ret. exists (Z.to_nat (n' - 1)). split; [lia|]. split; [done|]. cbn. f_equal. lia.
    + apply wp_ret. by replace (Z.max 0 n - Z.max 0 n') with (Z.max 0 n) by lia.
  - split; [done|]. destruct s. cbn. f_equal. lia.
  - lia.
Qed.

Lemma wp_too_many n s (Q : bool -> timer -> Prop) :
  (forall s', loops_per_tick s' = loops_per_tick s -> intr_on s' = intr_on s -> Q (negb (fits n)) s') -> wp (too_many_loops n) s Q.
Proof. intros HQ. apply wp_bind, wp_busy_wait, wp_ret. by apply HQ. Qed.

Lemma wp_set_loops v s (Q : unit -> timer -> Prop) :
  Q tt (mk_timer v (intr_on s) (iterations s) (reads s) (yields s)) -> wp (set_loops v) s Q.
Proof. intros HQ. by apply wp_bind, wp_get, wp_put. Qed.

(** * Calibration *)

Section Calibrate.
Context (T : Z) (Hfits : forall n, fits n = (n <=? T)).

(** The excess over the highest bit, and the value that the loop has collected when the bits from [e] up have been tried. *)
Definition excess : Z := T - 2 ^ Z.log2 T.
Definition collected (e : Z) : Z :=
  2 ^ Z.log2 T + (if excess <? 2 ^ e then 0 else 2 ^ (Z.log2 excess + 1) - 2 ^ e).

Context (HT : 2 ^ 10 <= T < 2 ^ 31).

Lemma log2_range : 10 <= Z.log2 T < 31.
Proof. pose proof (Z.log2_le_pow2 T 10). pose proof (Z.log2_lt_pow2 T 31). lia. Qed.

Lemma log2_bounds : 2 ^ Z.log2 T <= T < 2 * 2 ^ Z.log2 T.
Proof. pose proof (Z.log2_spec T). pose proof (Z.log2_nonneg T). rewrite <-Z.pow_succ_r by lia. lia. Qed.

Lemma lor_pow e n : 0 <= e < n -> Z.lor (2 ^ n) (2 ^ e) = 2 ^ n + 2 ^ e.
Proof.
  intros He. apply (lor_add n); [lia|split; [lia|apply Z.pow_lt_mono_r; lia]|]. apply Z.mod_same. lia.
Qed.

Lemma collected_skip e : 1 <= e -> excess < 2 ^ (e - 1) -> collected e = collected (e - 1).
Proof.
  intros He Hx. assert (2 ^ e = 2 * 2 ^ (e - 1)) by (rewrite <-Z.pow_succ_r by lia; f_equal; lia).
  unfold collected. by rewrite !(proj2 (Z.ltb_lt _ _)) by lia.
Qed.

Lemma collected_take e : 1 <= e <= Z.log2 T -> 2 ^ (e - 1) <= excess ->
  Z.lor (collected e) (2 ^ (e - 1)) = collected (e - 1).
Proof.
  intros He Hx. assert (2 ^ e = 2 * 2 ^ (e - 1)) as E by (rewrite <-Z.pow_succ_r by lia; f_equal; lia).
  assert (0 < 2 ^ (e - 1)) by (apply Z.pow_pos_nonneg; lia).
  pose proof (Z.log2_spec excess ltac:(lia)) as Hl. unfold collected. rewrite (proj2 (Z.ltb_ge excess (2 ^ (e - 1)))) by lia.
  destruct (Z.ltb_spec excess (2 ^ e)) as [Hb|Hb].
  - rewrite Z.add_0_r, lor_pow by lia. replace (Z.log2 excess) with (e - 1); [rewrite Z.sub_add; lia|].
    symmetry. apply Z.log2_unique; [lia|]. rewrite <-Z.add_1_r, Z.sub_add. lia.
  - assert (e <= Z.log2 excess) by (apply Z.log2_le_pow2; lia). rewrite (lor_add e); [lia..|].
    replace (Z.log2 T) with (Z.log2 T - e + e) by lia. replace (Z.log2 excess + 1) with (Z.log2 excess + 1 - e + e) by lia.
    rewrite !Z.pow_add_r by lia. set (a := 2 ^ (_ - e)). set (b := 2 ^ (_ + 1 - e)).
    replace (a * 2 ^ e + (b * 2 ^ e - 2 ^ e)) with ((a + b - 1) * 2 ^ e) by lia. apply Z.mod_mul. lia.
Qed.

Lemma wp_first_bit s (Q : unit -> timer -> Prop) : loops_per_tick s = 2 ^ 10 ->
  (forall s', loops_per_tick s' = 2 ^ Z.log2 T -> intr_on s' = intr_on s -> Q tt s') ->
  wp (loop 24 (fun _ =>
    s ← mget;
    b ← too_many_loops (u32 (Z.shiftl (loops_per_tick s) 1));
    if b : bool then mret (inr tt)
    else
      let l := u32 (Z.shiftl (loops_per_tick s) 1) in
      set_loops l;; ASSERT (negb (l =? 0));; mret (inl tt)) tt) s Q.
Proof.
  intros Hs HQ. pose proof log2_range as Hr. pose proof log2_bounds as Hb.
  apply (wp_loop (fun n _ s' => loops_per_tick s' = 2 ^ (Z.log2 T - Z.of_nat n) /\ intr_on s' = intr_on s /\ Z.of_nat n <= Z.log2 T - 10) Q) with (n := Z.to_nat (Z.log2 T - 10)).
  2: { rewrite Hs. split; [f_equal; lia|]. split; [done|lia]. } 2: lia.
  intros n [] s' (Hl & Hi & Hn). apply wp_bind, wp_get. rewrite Hl, Z.shiftl_mul_pow2, Z.pow_1_r by lia.
  assert (2 ^ (Z.log2 T - Z.of_nat n) * 2 = 2 ^ (Z.log2 T - Z.of_nat n + 1)) as -> by (rewrite Z.pow_add_r by lia; lia).
  unfold u32. rewrite Z.mod_small by (split; [lia|apply Z.pow_lt_mono_r; lia]).
  apply wp_bind, wp_too_many. intros s1 L1 I1. rewrite Hfits. destruct (Z.leb_spec (2 ^ (Z.log2 T - Z.of_nat n + 1)) T) as [Hle|Hlt]; cbn [negb].
  - apply Z.log2_le_pow2 in Hle; [|lia]. apply wp_bind, wp_set_loops, wp_bind, wp_assert; [|apply wp_ret].
    { apply negb_true_iff, Z.eqb_neq. assert (0 < 2 ^ (Z.log2 T - Z.of_nat n + 1)) by (apply Z.pow_pos_nonneg; lia). lia. }
    exists (n - 1)%nat. cbn. split; [lia|]. split; [f_equal; lia|]. split; [congruence|lia].
  - apply wp_ret, HQ; [|congruence]. rewrite L1, Hl. apply Z.log2_lt_pow2 in Hlt; [|lia]. f_equal. lia.
Qed.

Lemma wp_timer_calibrate s (Q : unit -> timer -> Prop) : intr_on s = true ->
  (forall s', loops_per_tick s' = collected (Z.log2 T - 9) -> intr_on s' = true -> Q tt s') -> wp timer_calibrate s Q.
Proof.
  intros Hon HQ. pose proof log2_range as Hr. pose proof log2_bounds as Hb. unfold timer_calibrate.
  apply wp_bind, wp_get, wp_bind, wp_assert; [done|]. apply wp_bind, wp_set_loops, wp_bind, wp_first_bit; [done|].
  intros s1 L1 I1. apply wp_bind, wp_get. rewrite L1. cbn in I1.
  apply (wp_loop (fun n t s' => t = 2 ^ (Z.log2 T - 10 + Z.of_nat n) /\ loops_per_tick s' = collected (Z.log2 T - 9 + Z.of_nat n) /\ intr_on s' = true /\ (n <= 9)%nat) Q) with (n := 9%nat).
  2: { rewrite Z.shiftr_div_pow2, Z.pow_1_r by lia. replace (Z.log2 T) with (Z.log2 T - 1 + 1) at 1 by lia.
       rewrite Z.pow_add_r, Z.pow_1_r, Z.div_mul by lia. split; [f_equal; lia|]. split; [|split; [congruence|lia]].
       rewrite L1. unfold collected, excess. replace (Z.log2 T - 9 + Z.of_nat 9) with (Z.log2 T) by lia. rewrite (proj2 (Z.ltb_lt _ _)); lia. } 2: lia.
  intros n t s2 (-> & L2 & I2 & Hn).
  rewrite Z.shiftr_div_pow2 by lia. replace (2 ^ Z.log2 T / 2 ^ 10) with (2 ^ (Z.log2 T - 10)) by (rewrite Z.pow_sub_r; lia).
  destruct n as [|n].
  { rewrite Z.add_0_r, Z.eqb_refl in *. by apply wp_ret, HQ. }
  rewrite (proj2 (Z.eqb_neq _ _)) by (intros ?%Z.pow_inj_r; lia).
  rewrite lor_pow by lia. set (e := Z.log2 T - 9 + Z.of_nat (S n)) in *. replace (Z.log2 T - 10 + Z.of_nat (S n)) with (e - 1) by lia.
  assert (Z.shiftr (2 ^ (e - 1)) 1 = 2 ^ (Z.log2 T - 10 + Z.of_nat n)) as ->.
  { rewrite Z.shiftr_div_pow2, Z.pow_1_r by lia. replace (e - 1) with (Z.log2 T - 10 + Z.of_nat n + 1) by lia.
    by rewrite Z.pow_add_r, Z.pow_1_r, Z.div_mul by lia. }
  apply wp_bind, wp_too_many. intros s3 L3 I3. rewrite Hfits.
  assert (Z.log2 T - 9 + Z.of_nat n = e - 1) as He by lia.
  destruct (Z.leb_spec (2 ^ Z.log2 T + 2 ^ (e - 1)) T) as [Hle|Hlt]; cbn [negb].
  - apply wp_bind, wp_bind, wp_get, wp_set_loops, wp_ret. exists n. cbn. rewrite He, L3, L2, I3, I2, collected_take by (unfold excess; lia). repeat split; lia.
  - apply wp_bind, wp_ret, wp_ret. exists n. rewrite He, L3, L2, I3, I2, collected_skip by (unfold excess; lia). repeat split; lia.
Qed.
End Calibrate.

(** where at most [T] iterations of the delay loop fit into a tick, the calibration returns with interrupts still on,
    and the number that it leaves is less than a 512th of the highest bit of [T] below [T], and exceeds [T] by no more
    than [T] itself exceeds that bit. *)
Theorem timer_calibrate_within T s (Hfits : forall n, fits n = (n <=? T)) (HT : 2 ^ 10 <= T < 2 ^ 31) (Hon : intr_on s = true) :
  exists s', timer_calibrate s = Ok (tt, s') /\ intr_on s' = true /\
    T - 2 ^ (Z.log2 T - 9) < loops_per_tick s' <= T + (T - 2 ^ Z.log2 T).
Proof.
  assert (wp timer_calibrate s (fun _ s' => intr_on s' = true /\ T - 2 ^ (Z.log2 T - 9) < loops_per_tick s' <= T + (T - 2 ^ Z.log2 T))) as W.
  { apply (wp_timer_calibrate T); [done..|]. intros s' -> I'. split; [done|]. pose proof (log2_range T HT).
    assert (0 < 2 ^ (Z.log2 T - 9)) by (apply Z.pow_pos_nonneg; lia).
    pose proof (log2_bounds T HT) as Hb. unfold collected. change (T - 2 ^ Z.log2 T) with (excess T).
    assert (T = 2 ^ Z.log2 T + excess T) as E by (unfold excess; lia). destruct (Z.ltb_spec (excess T) (2 ^ (Z.log2 T - 9))); [lia|].
    pose proof (Z.log2_spec (excess T) ltac:(lia)) as Hl. rewrite <-Z.add_1_r in Hl.
    rewrite Z.pow_add_r in * by (try apply Z.log2_nonneg; lia). lia. }
  apply wp_unfold in W as ([] & s' & E & W). by exists s'.
Qed.

(** each bit is tried with the highest bit alone and not with the bits found before it.  Where the second highest bit
    of [T] is set all the bits tried are kept: for [T] = 3 * 2^(k-1) the result is almost 2^(k+1), a third more than the
    iterations that fit into a tick. *)
Theorem timer_calibrate_overestimates T s (Hfits : forall n, fits n = (n <=? T)) (HT : 2 ^ 10 <= T < 2 ^ 31)
    (Hon : intr_on s = true) (Hbit : 2 ^ Z.log2 T + 2 ^ (Z.log2 T - 1) <= T) :
  exists s', timer_calibrate s = Ok (tt, s') /\ loops_per_tick s' = 2 ^ (Z.log2 T + 1) - 2 ^ (Z.log2 T - 9).
Proof.
  assert (wp timer_calibrate s (fun _ s' => loops_per_tick s' = 2 ^ (Z.log2 T + 1) - 2 ^ (Z.log2 T - 9))) as W.
  { apply (wp_timer_calibrate T); [done..|]. intros s' -> _. pose proof (log2_range T HT). pose proof (log2_bounds T HT) as Hb.
    assert (Z.log2 (excess T) = Z.log2 T - 1) as E.
    { apply Z.log2_unique; [lia|]. replace (Z.succ (Z.log2 T - 1)) with (Z.log2 T) by lia. unfold excess. lia. }
    assert (2 ^ (Z.log2 T - 9) <= 2 ^ (Z.log2 T - 1)) by (apply Z.pow_le_mono_r; lia).
    unfold collected. rewrite (proj2 (Z.ltb_ge _ _)) by (unfold excess; lia). rewrite E, Z.sub_add, Z.pow_add_r, Z.pow_1_r by lia. lia. }
  apply wp_unfold in W as ([] & s' & E & W). by exists s'.
Qed.

(** * Sleeping and delays *)

Lemma wp_timer_elapsed t0 s (Q : Z -> timer -> Prop) :
  Q (s64 (clock (reads s) - t0)) (mk_timer (loops_per_tick s) (intr_on s) (iterations s) (S (reads s)) (yields s)) -> wp (timer_elapsed t0) s Q.
Proof. intros HQ. by apply wp_bind, wp_bind, wp_get, wp_bind, wp_put, wp_ret, wp_ret. Qed.

(** a thread that sleeps for [ticks] ticks yields the processor each time that it finds less time gone, and returns
    the first time that it finds the time gone: after [n] yields, if the [n]-th reading after the first is the first
    such reading. *)
Theorem timer_sleep_correct fuel ticks s n (Hon : intr_on s = true) (Hfuel : (n < fuel)%nat)
    (Hclock : forall k, 0 <= clock k < 2 ^ 62)
    (Hearly : forall k, (k < n)%nat -> clock (S (reads s) + k)%nat - clock (reads s) < ticks)
    (Htime : ticks <= clock (S (reads s) + n)%nat - clock (reads s)) :
  timer_sleep fuel ticks s =
    Ok (tt, mk_timer (loops_per_tick s) (intr_on s) (iterations s) (S (S (reads s)) + n) (yields s + n)).
Proof.
  assert (wp (timer_sleep fuel ticks) s (fun _ s' => s' = mk_timer (loops_per_tick s) (intr_on s) (iterations s) (S (S (reads s)) + n) (yields s + n))) as W.
  { apply wp_bind, wp_bind, wp_get, wp_bind, wp_put, wp_ret, wp_bind, wp_get, wp_bind, wp_assert; [done|]. cbn [reads loops_per_tick intr_on iterations yields].
    apply (wp_loop (fun m _ s' => (m <= n)%nat /\ s' = mk_timer (loops_per_tick s) (intr_on s) (iterations s) (S (reads s) + (n - m)) (yields s + (n - m))) _) with (n := n); [|split; [done|f_equal; lia]|done].
    intros m [] s' [Hm ->]. apply wp_bind, wp_timer_elapsed. cbn [reads loops_per_tick intr_on iterations yields].
    pose proof (Hclock (S (reads s) + (n - m))%nat). pose proof (Hclock (reads s)). rewrite s64_small by lia.
    destruct m as [|m].
    - rewrite !Nat.sub_0_r. rewrite (proj2 (Z.ltb_ge _ _)) by done. by apply wp_ret.
    - rewrite (proj2 (Z.ltb_lt _ _)) by (apply Hearly; lia). apply wp_bind, wp_bind, wp_get, wp_put, wp_ret. exists m.
      cbn [reads loops_per_tick intr_on iterations yields]. split; [lia|]. split; [lia|]. f_equal; lia. }
  by apply wp_unfold in W as ([] & s' & E & ->).
Qed.

(** a delay of [num]/[denom] seconds iterates the delay loop [loops_per_tick] * 100 * [num]/[denom] times, up to 101
    iterations that the divisions lose, as long as [loops_per_tick] * [num] fits in 63 bits. *)
Theorem real_time_delay_accurate num e s (Hnum : 0 <= num) (He : 0 < e) (Hl : 0 <= loops_per_tick s)
    (Hfit : loops_per_tick s * num < 2 ^ 63) :
  exists n, real_time_delay num (1000 * e) s = Ok (tt, mk_timer (loops_per_tick s) (intr_on s) (iterations s + n) (reads s) (yields s)) /\
    1000 * e * n <= loops_per_tick s * TIMER_FREQ * num < 1000 * e * (n + 101).
Proof.
  set (x := loops_per_tick s * num) in *. assert (0 <= x) by (apply Z.mul_nonneg_nonneg; lia).
  exists (x / 1000 * 100 / e). pose proof (Z.div_mod x 1000 ltac:(lia)). pose proof (Z.mod_pos_bound x 1000 ltac:(lia)).
  set (q := x / 1000) in *. pose proof (Z.div_mod (q * 100) e ltac:(lia)). pose proof (Z.mod_pos_bound (q * 100) e ltac:(lia)).
  set (n := q * 100 / e) in *. assert (0 <= q) by (unfold q; apply Z.div_pos; lia). assert (0 <= n) by (unfold n; apply Z.div_pos; lia).
  split; [|unfold TIMER_FREQ; replace (loops_per_tick s * 100 * num) with (100 * x) by (unfold x; lia); nia].
  assert (wp (real_time_delay num (1000 * e)) s (fun _ s' => s' = mk_timer (loops_per_tick s) (intr_on s) (iterations s + n) (reads s) (yields s))) as W.
  { apply wp_bind, wp_assert; [rewrite (Z.mul_comm 1000), Z.rem_mul by lia; done|]. apply wp_bind, wp_get, wp_busy_wait.
    fold x. unfold TIMER_FREQ. rewrite (s64_small x), !(Z.quot_div_nonneg x) by lia. fold q. rewrite s64_small by lia.
    rewrite (Z.mul_comm 1000 e), Z.quot_mul, Z.quot_div_nonneg by lia. fold n. by rewrite Z.max_r by lia. }
  by apply wp_unfold in W as ([] & s' & E & ->).
Qed.
End Timer.

(** * Witnesses *)

Lemma timer_calibrate_within_witness : exists s',
  timer_calibrate (fun n => n <=? 5000) (mk_timer 0 true 0 0 0) = Ok (tt, s') /\ 4992 < loops_per_tick s' <= 5904.
Proof.
  destruct (timer_calibrate_within (fun n => n <=? 5000) 5000 (mk_timer 0 true 0 0 0)) as (s' & E & _ & B); [done|lia|done|].
  exists s'. split; [exact E|]. vm_compute in B |- *. exact B.
Defined.

Lemma timer_calibrate_overestimates_witness : exists s',
  timer_calibrate (fun n => n <=? 1536) (mk_timer 0 true 0 0 0) = Ok (tt, s') /\ loops_per_tick s' = 2046.
Proof.
  destruct (timer_calibrate_overestimates (fun n => n <=? 1536) 1536 (mk_timer 0 true 0 0 0)) as (s' & E & B); [done|lia|done|by vm_compute|].
  exists s'. split; [exact E|exact B].
Defined.

(** A clock that advances one tick at every second reading. *)
Lemma timer_sleep_correct_witness :
  timer_sleep (fun k => Z.of_nat (Nat.min k 1000) / 2) 10 2 (mk_timer 0 true 0 0 0) = Ok (tt, mk_timer 0 true 0 5 3).
Proof.
  apply (timer_sleep_correct (fun k => Z.of_nat (Nat.min k 1000) / 2) 10 2 (mk_timer 0 true 0 0 0) 3); [done|lia| | |by vm_compute].
  - intros k. split; [apply Z.div_pos; lia|]. apply Z.div_lt_upper_bound; lia.
  - intros [|[|[|k]]] Hk; [by vm_compute..|lia].
Defined.

Lemma real_time_delay_accurate_witness : exists n,
  real_time_delay 3 (1000 * 1) (mk_timer 2046 true 0 0 0) = Ok (tt, mk_timer 2046 true (0 + n) 0 0) /\
  1000 * 1 * n <= 2046 * TIMER_FREQ * 3 < 1000 * 1 * (n + 101).
Proof. apply (real_time_delay_accurate 3 1 (mk_timer 2046 true 0 0 0)); cbn; lia. Defined.
