(* ===== verification/Paging.v ===== *)
(** The kernel's own address space: [paging_init] of src/threads/init.c over the machine of [Palloc], after [palloc_init]
    of src/threads/palloc.c and before the page directories of [Pagedir].

    The theorems are about the translation that the processor makes: kernel addresses go to the RAM, user addresses
    nowhere, and a new process's page directory translates every address as the kernel's does. *)
From stdpp Require Import base list numbers gmap fin_maps.
From Stdlib Require Import ZArith Lia.
From S2P Require Import Prelude Strings Vaddr Bitmap Palloc Pagedir.

Open Scope Z_scope.

(** * Operation *)

Section Operation.
(** Pages of RAM, and the two addresses that the linker defines. *)
Context (init_ram_pages _start _end_kernel_text : Z).

(** The loop over the pages of RAM; the result is [init_page_dir]. *)
Definition paging_init : M machine Z :=
  pd ← palloc_get_page (Z.lor PAL_ASSERT PAL_ZERO);
  loop (S (Z.to_nat init_ram_pages)) (fun '(page, pt) =>
    if page <? init_ram_pages then
      let paddr := u32 (page * PGSIZE) in
      vaddr ← ptov paddr;
      let pde_idx := pd_no vaddr in
      let pte_idx := pt_no vaddr in
      let in_kernel_text := (_start <=? vaddr) && (vaddr <? _end_kernel_text) in
      w ← on_ram (load32 (pd + 4 * pde_idx));
      pt ← (if w =? 0 then
              pt ← palloc_get_page (Z.lor PAL_ASSERT PAL_ZERO);
              e ← pde_create pt;
              on_ram (store32 (pd + 4 * pde_idx) e);;
              mret pt
            else mret pt);
      e ← pte_create_kernel vaddr (negb in_kernel_text);
      on_ram (store32 (pt + 4 * pte_idx) e);;
      mret (inl (page + 1, pt))
    else mret (inr tt)) (0, NULL);;
  p ← vtop pd;
  s ← mget;
  mput (mk_machine (kernel_pool s) (user_pool s) (ram s) p);;
  mret pd.

(** * Specification *)

(** The processor's translation of [va] under the page directory [pd]: the physical address, whether it may be written
    and whether user code may use it. *)
Definition walk (m : mem) (pd va : Z) : option (Z * bool * bool) :=
  let pde := rd m (pd + 4 * pd_no va) in
  if flag pde PTE_P then
    let pte := rd m (Z.land pde PTE_ADDR + PHYS_BASE + 4 * pt_no va) in
    if flag pte PTE_P then
      Some (Z.land pte PTE_ADDR + pg_ofs va, flag pde PTE_W && flag pte PTE_W, flag pde PTE_U && flag pte PTE_U)
    else None
  else None.

(** The page [page] of RAM is kernel text. *)
Definition text (page : Z) : bool :=
  (_start <=? page * 4096 + PHYS_BASE) && (page * 4096 + PHYS_BASE <? _end_kernel_text).

(** The kernel's translation: an address above [PHYS_BASE] goes to the RAM, if there is so much, and only the kernel
    may use it. *)
Definition kernel_walk (va : Z) : option (Z * bool * bool) :=
  if (PHYS_BASE <=? va) && (va <? PHYS_BASE + 4096 * init_ram_pages)
  then Some (va - PHYS_BASE, negb (text ((va - PHYS_BASE) / 4096)), false) else None.

(** The entry of page [page] of RAM. *)
Definition kpte (page : Z) : Z := page * 4096 + (if text page then 1 else 3).

(** [pts] are the page tables so far, and the first [n] pages have been entered. *)
Record kinv (s0 s : machine) (pd : Z) (pts : list Z) (n : Z) : Prop := {
  ki_wf : machine_wf s;
  ki_bytes : bytes_ok (ram s);
  ki_only : kernel_only s0 s;
  ki_owned : Forall (owned s false) (pd :: pts);
  ki_nodup : NoDup (pd :: pts);
  ki_pdes : forall i, 0 <= i < 1024 -> rd (ram s) (pd + 4 * i) =
    if 768 <=? i then match pts !! Z.to_nat (i - 768) with Some pt => pde_of pt | None => 0 end else 0;
  ki_ptes : forall k pt j, pts !! k = Some pt -> 0 <= j < 1024 -> rd (ram s) (pt + 4 * j) =
    if 1024 * Z.of_nat k + j <? n then kpte (1024 * Z.of_nat k + j) else 0
}.

(** [k] pages of the kernel pool are free. *)
Definition avail (s : machine) (k : nat) : Prop :=
  exists l, NoDup l /\ length l = k /\ Forall (free s false) l.

(** * Free pages *)

Lemma avail_run s k : machine_wf s -> avail s (S k) -> ~ no_run (kernel_pool s) 1.
Proof.
  intros Hwf (l & _ & Hl & Hf) Hn. destruct l as [|p l]; [done|]. apply Forall_cons in Hf as [[Hi Hu] _].
  destruct (in_pool_index _ _ _ (mw_pool _ false Hwf) Hi) as [Hr _]. cbn [the_pool] in *. apply (Hn ((p - base (kernel_pool s)) / 4096)); [lia|lia|].
  intros j Hj. replace j with ((p - base (kernel_pool s)) / 4096) by lia. exact Hu.
Qed.

Lemma avail_set_ram s m k : avail s k -> avail (set_ram m s) k.
Proof. intros (l & H1 & H2 & H3). exists l. split; [done|]. split; [done|]. by apply H3. Qed.

Lemma filter_absent (p : Z) (l : list Z) : p ∉ l -> filter (fun q => q ≠ p) l = l.
Proof.
  induction l as [|q l IH]; [done|]. rewrite not_elem_of_cons, filter_cons. intros [Hq Hl]. rewrite decide_True by done.
  by rewrite IH.
Qed.

Lemma got_avail s s' zero p k : got s s' false 1 zero p -> avail s (S k) -> avail s' k.
Proof.
  intros G (l & Hn & Hl & Hf).
  assert (Forall (free s' false) (filter (fun q => q ≠ p) l)) as Hf'.
  { apply Forall_forall. intros q [Hqp Hq]%list_elem_of_filter. rewrite Forall_forall in Hf. destruct (Hf q Hq) as [Hi Hu].
    destruct (got_pools _ _ _ _ _ _ G false) as [B1 B2]. split; [unfold in_pool in *; by rewrite B1, B2|].
    rewrite (got_other _ _ _ _ _ _ G false q Hi); [done|]. right. intros [Ha Hr]. apply Hqp.
    pose proof (got_aligned _ _ _ _ _ _ G). Z.to_euclidean_division_equations. lia. }
  assert (k <= length (filter (fun q => q ≠ p) l))%nat as Hk.
  { clear -Hn Hl. revert k Hl. induction Hn as [|q l Hq Hn IH]; intros k Hl; [cbn in *; lia|]. rewrite filter_cons. case_decide as Hd.
    - destruct k as [|k]; [lia|]. cbn in *. specialize (IH k). lia.
    - subst q. rewrite filter_absent by done. cbn in Hl. lia. }
  exists (take k (filter (fun q => q ≠ p) l)). split; [|split; [rewrite length_take; lia|by apply Forall_take]].
  apply (sublist_NoDup _ (filter (fun q => q ≠ p) l)); [by apply NoDup_filter|apply sublist_take].
Qed.

(** * The invariant *)

Lemma rd_store s p i v q j :
  owned s false p -> owned s false q -> 0 <= i < 1024 -> 0 <= j < 1024 -> 0 <= v < 2 ^ 32 ->
  rd (put (ram s) (p + 4 * i) (le 4 v)) (q + 4 * j) = if decide (q = p /\ j = i) then v else rd (ram s) (q + 4 * j).
Proof.
  intros Hp Hq Hi Hj Hv. case_decide as Hd; [destruct Hd as [-> ->]; by rewrite rd_put_eq|]. apply rd_put_ne. rewrite length_le.
  pose proof (pages_apart q p j i (owned_aligned _ _ Hq) (owned_aligned _ _ Hp) Hj Hi). destruct (decide (q = p)); lia.
Qed.

Lemma wf_store s p i v : machine_wf s -> bytes_ok (ram s) -> owned s false p -> 0 <= i < 1024 ->
  machine_wf (set_ram (put (ram s) (p + 4 * i) (le 4 v)) s) /\ bytes_ok (put (ram s) (p + 4 * i) (le 4 v)).
Proof.
  intros Hwf Hb Hp Hi. split; [|apply bytes_ok_put; [done|apply le_bytes]]. apply machine_wf_set_ram; [done|]. apply dom_put.
  rewrite length_le. by apply page_word_mapped.
Qed.

Lemma wf_got s s' p : bytes_ok (ram s) -> got s s' false 1 true p -> bytes_ok (ram s').
Proof.
  intros Hb G. rewrite (got_ram _ _ _ _ _ _ G). apply bytes_ok_put; [done|]. apply Forall_replicate. unfold byte. lia.
Qed.

Lemma kernel_only_trans s1 s2 s3 : kernel_only s1 s2 -> kernel_only s2 s3 -> kernel_only s1 s3.
Proof.
  intros (A1 & A2 & A3) (B1 & B2 & B3). split; [|split].
  - intros u. destruct (A1 u), (B1 u). split; congruence.
  - intros page Hp. rewrite B2; [by apply A2|]. destruct (A1 true) as [E1 E2]. cbn [the_pool] in *. unfold in_pool in *. by rewrite E1, E2.
  - intros a Ha. rewrite B3; [by apply A3|]. destruct (A1 true) as [E _]. cbn in E. lia.
Qed.

Lemma kinv_init s s' pd : machine_wf s -> bytes_ok (ram s) -> got s s' false 1 true pd -> kinv s s' pd [] 0.
Proof.
  intros Hwf Hb G. split; [apply G|by eapply wf_got|by eapply kernel_only_got| |apply NoDup_singleton| |done].
  - apply Forall_singleton, G. split; [apply G|lia].
  - intros i Hi. rewrite lookup_nil. replace (if 768 <=? i then 0 else 0) with 0 by (by destruct (768 <=? i)).
    rewrite (got_ram _ _ _ _ _ _ G). apply rd_zeros; lia.
Qed.

Lemma kinv_owned s0 s pd pts n k pt : kinv s0 s pd pts n -> pts !! k = Some pt -> owned s false pt /\ pt ≠ pd.
Proof.
  intros H Hk. destruct (proj1 (Forall_cons _ _ _) (ki_owned _ _ _ _ _ H)) as [_ Ho]. destruct (proj1 (NoDup_cons _ _) (ki_nodup _ _ _ _ _ H)) as [Hn _].
  split; [by apply (Forall_lookup_1 _ _ _ _ Ho Hk)|]. intros ->. by apply Hn, list_elem_of_lookup_2 with k.
Qed.

Lemma kinv_pd s0 s pd pts n : kinv s0 s pd pts n -> owned s false pd.
Proof. intros H. by destruct (proj1 (Forall_cons _ _ _) (ki_owned _ _ _ _ _ H)). Qed.

(** A page table is added for the next group of 1024 pages. *)
Lemma kinv_grow s0 s s1 pd pts n pt :
  kinv s0 s pd pts n -> got s s1 false 1 true pt -> kernel_page pt -> n = 1024 * Z.of_nat (length pts) -> n < 2 ^ 18 ->
  kinv s0 (set_ram (put (ram s1) (pd + 4 * (768 + n / 1024)) (le 4 (pde_of pt))) s1) pd (pts ++ [pt]) n.
Proof.
  intros H G Hk Hn Hlim. assert (n / 1024 = Z.of_nat (length pts)) as -> by (rewrite Hn, Z.mul_comm; by apply Z.div_mul).
  assert (in_group pt 1 pt) as Hg by (split; [apply G|lia]). pose proof (got_owned _ _ _ _ _ _ G _ Hg) as Hopt.
  assert (forall q, owned s false q -> owned s1 false q /\ q ≠ pt) as Hkeep.
  { intros q Hq. destruct (got_owned_kept _ _ _ _ _ _ _ _ G Hq) as [Hq' Hne]. split; [done|]. intros ->. by apply Hne. }
  destruct (Hkeep _ (kinv_pd _ _ _ _ _ H)) as [Hopd Hpd]. destruct (pde_of_flags pt Hk) as (_ & _ & Hv).
  assert (Z.of_nat (length pts) < 256) by lia.
  destruct (wf_store s1 pd (768 + Z.of_nat (length pts)) (pde_of pt)) as [W1 W2]; [apply G|by eapply wf_got, G; apply H|done|lia|].
  split; cbn [ram set_ram]; [done|done| | | | |].
  - apply kernel_only_store; [|apply G|done|lia]. eapply kernel_only_trans; [apply H|]. eapply kernel_only_got; [apply H|done].
  - apply Forall_cons. split; [by apply owned_set_ram|]. apply Forall_app. split; [|by apply Forall_singleton, owned_set_ram].
    destruct (proj1 (Forall_cons _ _ _) (ki_owned _ _ _ _ _ H)) as [_ Ho]. eapply Forall_impl; [exact Ho|]. intros q Hq. by apply owned_set_ram, Hkeep.
  - rewrite app_comm_cons. apply NoDup_app. split; [apply H|]. split; [|apply NoDup_singleton]. intros q Hq ->%list_elem_of_singleton.
    pose proof (ki_owned _ _ _ _ _ H) as Ho. rewrite Forall_forall in Ho. by destruct (Hkeep _ (Ho _ Hq)).
  - intros i Hi. rewrite rd_store by (done || lia). case_decide as Hd.
    + destruct Hd as [_ ->]. rewrite (proj2 (Z.leb_le _ _)) by lia. replace (Z.to_nat _) with (length pts) by lia. by rewrite list_lookup_middle.
    + rewrite (got_rd s s1 true pt pd) by (done || apply (kinv_pd _ _ _ _ _ H) || lia). rewrite (ki_pdes _ _ _ _ _ H) by done.
      destruct (Z.leb_spec 768 i); [|done]. destruct (decide (Z.to_nat (i - 768) < length pts)%nat).
      * by rewrite lookup_app_l.
      * rewrite !lookup_ge_None_2; [done|rewrite length_app; cbn; lia|lia].
  - intros k q j Hq Hj. destruct (decide (k < length pts)%nat) as [Hlt|Hge].
    + rewrite lookup_app_l in Hq by done. destruct (kinv_owned _ _ _ _ _ _ _ H Hq) as [Hoq Hqpd].
      rewrite rd_store, decide_False by (done || lia || apply Hkeep, Hoq || intros [? _]; done).
      rewrite (got_rd s s1 true pt q) by done. by apply (ki_ptes _ _ _ _ _ H).
    + pose proof (lookup_lt_Some _ _ _ Hq) as Hl. rewrite length_app in Hl. cbn in Hl. assert (k = length pts) as -> by lia.
      rewrite list_lookup_middle in Hq by done. injection Hq as <-.
      rewrite rd_store, decide_False by (done || lia || intros [? _]; congruence). rewrite (got_ram _ _ _ _ _ _ G), (proj2 (Z.ltb_ge _ _)) by lia.
      apply rd_zeros; lia.
Qed.

Lemma kpte_range page : 0 <= page < 2 ^ 18 -> 0 <= kpte page < 2 ^ 32.
Proof. unfold kpte. destruct (text page); lia. Qed.

(** The next page is entered. *)
Lemma kinv_enter s0 s pd pts n pt :
  kinv s0 s pd pts n -> 0 <= n < 2 ^ 18 -> pts !! Z.to_nat (n / 1024) = Some pt ->
  kinv s0 (set_ram (put (ram s) (pt + 4 * (n mod 1024)) (le 4 (kpte n))) s) pd pts (n + 1).
Proof.
  intros H Hn E. pose proof (Z.mod_pos_bound n 1024 ltac:(lia)) as Hm. destruct (kinv_owned _ _ _ _ _ _ _ H E) as [Ho Hne].
  destruct (wf_store s pt (n mod 1024) (kpte n)) as [W1 W2]; [apply H|apply H|done|lia|]. pose proof (kpte_range n Hn) as Hr.
  split; cbn [ram set_ram]; [done|done| | |apply H| |].
  - apply kernel_only_store; [apply H|apply H|done|lia].
  - eapply Forall_impl; [apply H|]. intros q Hq. by apply owned_set_ram.
  - intros i Hi. rewrite rd_store, decide_False by (done || lia || apply (kinv_pd _ _ _ _ _ H) || intros [? _]; congruence). by apply (ki_pdes _ _ _ _ _ H).
  - intros k q j Hq Hj. destruct (kinv_owned _ _ _ _ _ _ _ H Hq) as [Hoq _]. rewrite rd_store by (done || lia). case_decide as Hd.
    + destruct Hd as [-> ->]. assert (k = Z.to_nat (n / 1024)) as ->.
      { destruct (proj1 (NoDup_cons _ _) (ki_nodup _ _ _ _ _ H)) as [_ Hnd]. by eapply NoDup_lookup. }
      rewrite (proj2 (Z.ltb_lt _ _)); [f_equal|]; Z.to_euclidean_division_equations; lia.
    + rewrite (ki_ptes _ _ _ _ _ H k q j Hq Hj). destruct (decide (1024 * Z.of_nat k + j = n)) as [En|En].
      * exfalso. apply Hd. assert (k = Z.to_nat (n / 1024)) as Ek by (Z.to_euclidean_division_equations; lia). subst k. rewrite E in Hq.
        injection Hq as <-. split; [done|]. Z.to_euclidean_division_equations. lia.
      * destruct (Z.ltb_spec (1024 * Z.of_nat k + j) n), (Z.ltb_spec (1024 * Z.of_nat k + j) (n + 1)); done || lia.
Qed.

(** * The loop *)

Lemma wp_get_zeroed s k (Q : Z -> machine -> Prop) :
  machine_wf s -> avail s (S k) ->
  (forall p s', got s s' false 1 true p -> kernel_page p -> avail s' k -> Q p s') ->
  wp (palloc_get_page (Z.lor PAL_ASSERT PAL_ZERO)) s Q.
Proof.
  intros Hwf Ha HQ. apply wp_palloc_get_multiple; [done|lia| |].
  - intros p s' G Hk. apply HQ; [exact G|done|]. by eapply got_avail.
  - intros Hn. by destruct (avail_run s k Hwf Ha).
Qed.

Lemma wp_pte_create_kernel page (w : bool) s (Q : Z -> machine -> Prop) :
  kernel_page page -> Q (page - PHYS_BASE + (if w then 3 else 1)) s -> wp (pte_create_kernel page w) s Q.
Proof.
  intros Hk HQ. destruct (kernel_page_phys _ Hk) as [Hp Ha]. destruct Hk as [Hk1 Hk2].
  apply wp_bind, wp_assert; [rewrite pg_ofs_mod; by apply Z.eqb_eq|].
  apply wp_bind, wp_bind, wp_assert; [apply Z.leb_le; lia|]. apply wp_ret, wp_ret. rewrite <-Z.lor_assoc.
  assert (Z.lor PTE_P (if w then PTE_W else 0) = if w then 3 else 1) as -> by (by destruct w).
  by rewrite lor_flags by (try done; destruct w; lia).
Qed.

Lemma ram_page page : 0 <= page < 2 ^ 18 ->
  kernel_page (page * 4096 + PHYS_BASE) /\ pd_no (page * 4096 + PHYS_BASE) = 768 + page / 1024 /\
  pt_no (page * 4096 + PHYS_BASE) = page mod 1024.
Proof.
  intros Hp. rewrite pd_no_div, pt_no_div. unfold kernel_page. unpage. Z.to_euclidean_division_equations. lia.
Qed.

(** What holds before page [n] is entered: as many page tables as needed so far, the last one at hand. *)
Record khead (s0 s : machine) (pd pt : Z) (pts : list Z) (n : Z) : Prop := {
  kh_inv : kinv s0 s pd pts n;
  kh_len : Z.of_nat (length pts) = (n + 1023) / 1024;
  kh_last : pts ≠ [] -> last pts = Some pt;
  kh_avail : avail s (Z.to_nat ((init_ram_pages + 1023) / 1024 - Z.of_nat (length pts)))
}.

Lemma wp_table s0 s pd pt pts n (Q : Z -> machine -> Prop) :
  khead s0 s pd pt pts n -> 0 <= n < init_ram_pages -> init_ram_pages < 2 ^ 18 ->
  (forall pt' s' pts', kinv s0 s' pd pts' n -> Z.of_nat (length pts') = n / 1024 + 1 -> last pts' = Some pt' ->
     avail s' (Z.to_nat ((init_ram_pages + 1023) / 1024 - Z.of_nat (length pts'))) -> Q pt' s') ->
  wp (w ← on_ram (load32 (pd + 4 * (768 + n / 1024)));
      if w =? 0 then
        pt ← palloc_get_page (Z.lor PAL_ASSERT PAL_ZERO);
        e ← pde_create pt;
        on_ram (store32 (pd + 4 * (768 + n / 1024)) e);;
        mret pt
      else mret pt) s Q.
Proof.
  intros [H Hlen Hlast Ha] Hn Hlim HQ. assert (0 <= n / 1024 < 256) as Hd by (Z.to_euclidean_division_equations; lia).
  pose proof (kinv_pd _ _ _ _ _ H) as Hpd. apply wp_bind, wp_on_load; [apply page_word_mapped; [apply H|done|lia]|].
  rewrite (ki_pdes _ _ _ _ _ H), (proj2 (Z.leb_le _ _)) by lia. replace (768 + n / 1024 - 768) with (n / 1024) by lia.
  destruct (pts !! Z.to_nat (n / 1024)) as [q|] eqn:E.
  - destruct (kinv_owned _ _ _ _ _ _ _ H E) as [Hoq _]. destruct (owned_mapped _ _ (ki_wf _ _ _ _ _ H) Hoq) as [_ Hk].
    rewrite (proj2 (Z.eqb_neq (pde_of q) 0)) by (destruct Hk; unfold pde_of; unpage; lia). apply wp_ret.
    pose proof (lookup_lt_Some _ _ _ E). apply (HQ _ _ pts); [done|Z.to_euclidean_division_equations; lia| |done].
    apply Hlast. by intros ->.
  - apply lookup_ge_None_1 in E. change (0 =? 0) with true. cbv iota.
    assert (n = 1024 * Z.of_nat (length pts)) as En by (Z.to_euclidean_division_equations; lia).
    assert (Z.to_nat ((init_ram_pages + 1023) / 1024 - Z.of_nat (length pts)) = S (Z.to_nat ((init_ram_pages + 1023) / 1024 - Z.of_nat (length pts) - 1))) as Ek by (Z.to_euclidean_division_equations; lia).
    rewrite Ek in Ha. apply wp_bind, (wp_get_zeroed _ _ _ (ki_wf _ _ _ _ _ H) Ha). intros p s1 G Hk Ha1.
    apply wp_bind, wp_pde_create; [done|]. apply wp_bind, wp_on_store.
    { apply page_word_mapped; [apply G| |lia]. by destruct (got_owned_kept _ _ _ _ _ _ _ _ G Hpd). }
    apply wp_ret, (HQ _ _ (pts ++ [p])); [apply (kinv_grow s0 s); [done..|lia]|rewrite length_app; cbn; Z.to_euclidean_division_equations; lia|by rewrite last_snoc|].
    apply avail_set_ram. rewrite length_app. cbn. by replace (Z.to_nat _) with (Z.to_nat ((init_ram_pages + 1023) / 1024 - Z.of_nat (length pts) - 1)) by lia.
Qed.

Lemma kinv_cr3 s0 s pd pts n c : kinv s0 s pd pts n -> kinv s0 (mk_machine (kernel_pool s) (user_pool s) (ram s) c) pd pts n.
Proof. intros [[W1 W2 W3] Hb Hko Ho Hn Hpd Hpt]. split; try done. Qed.

Lemma wp_paging_init s (Q : Z -> machine -> Prop) :
  machine_wf s -> bytes_ok (ram s) -> 0 <= init_ram_pages < 2 ^ 18 -> avail s (S (Z.to_nat ((init_ram_pages + 1023) / 1024))) ->
  (forall pd s' pts, kinv s s' pd pts init_ram_pages -> Z.of_nat (length pts) = (init_ram_pages + 1023) / 1024 -> cr3 s' = pd - PHYS_BASE -> Q pd s') ->
  wp paging_init s Q.
Proof.
  intros Hwf Hb Hlim Ha HQ. apply wp_bind, (wp_get_zeroed _ _ _ Hwf Ha). intros pd s1 G Hk Ha1. apply wp_bind.
  apply (wp_loop (fun m '(page, pt) s' => exists pts, khead s s' pd pt pts page /\ 0 <= page <= init_ram_pages /\ m = Z.to_nat (init_ram_pages - page)) _) with (n := Z.to_nat init_ram_pages).
  3: lia.
  2: { exists []. split; [|split; [lia|f_equal; lia]]. split; [by apply kinv_init|done|done|]. cbn. by rewrite Z.sub_0_r. }
  intros m [page pt] s2 (pts & H & Hp & ->). destruct (Z.ltb_spec page init_ram_pages) as [Hlt|Hge].
  - destruct (ram_page page ltac:(lia)) as (Hkp & Epd & Ept). unfold u32. rewrite Z.mod_small by (unpage; lia). change PGSIZE with 4096.
    apply wp_bind, wp_ptov; [lia|unpage; lia|]. rewrite Epd, Ept. apply wp_bind.
    eapply wp_mono; [|intros w s' W; apply wp_bind; exact W]. apply wp_bind_inv, (wp_table s s2 pd pt pts page); [done|lia|lia|].
    intros pt' s3 pts' H3 Hl3 Hlast Ha3. apply wp_bind, wp_pte_create_kernel; [done|].
    replace (page * 4096 + PHYS_BASE - PHYS_BASE) with (page * 4096) by lia. fold (text page).
    replace (if negb (text page) then 3 else 1) with (if text page then 1 else 3) by (by destruct (text page)). fold (kpte page).
    rewrite last_lookup in Hlast. replace (Nat.pred (length pts')) with (Z.to_nat (page / 1024)) in Hlast by lia.
    destruct (kinv_owned _ _ _ _ _ _ _ H3 Hlast) as [Ho _].
    apply wp_bind, wp_on_store; [apply page_word_mapped; [apply H3|done|apply Z.mod_pos_bound; lia]|]. apply wp_ret.
    exists (Z.to_nat (init_ram_pages - (page + 1))). split; [lia|]. exists pts'. split; [|split; [lia|done]].
    split; [by apply kinv_enter; [|lia|]|Z.to_euclidean_division_equations; lia| |by apply avail_set_ram].
    intros _. rewrite last_lookup. by replace (Nat.pred (length pts')) with (Z.to_nat (page / 1024)) by lia.
  - assert (page = init_ram_pages) as -> by lia. apply wp_ret, wp_bind. destruct Hk as [Hk1 Hk2].
    apply wp_bind, wp_assert; [apply Z.leb_le; lia|]. apply wp_ret, wp_bind, wp_get, wp_bind, wp_put, wp_ret. destruct H as [H Hl _ _].
    apply (HQ _ _ pts); [by apply kinv_cr3|done|done].
Qed.

(** * Translation *)

Lemma pde_of_walk pt : kernel_page pt ->
  flag (pde_of pt) PTE_P = true /\ flag (pde_of pt) PTE_W = true /\ Z.land (pde_of pt) PTE_ADDR + PHYS_BASE = pt.
Proof.
  intros Hk. destruct (kernel_page_phys _ Hk) as [Hp Ha]. unfold pde_of. rewrite !flag_entry by (done || lia).
  rewrite entry_addr by (unpage; lia). split; [done|]. split; [done|]. lia.
Qed.

Lemma kpte_walk page : 0 <= page < 2 ^ 18 ->
  flag (kpte page) PTE_P = true /\ flag (kpte page) PTE_W = negb (text page) /\ flag (kpte page) PTE_U = false /\
  Z.land (kpte page) PTE_ADDR = page * 4096.
Proof.
  intros Hp. unfold kpte. assert ((page * 4096) mod 4096 = 0) by (by apply Z.mod_mul).
  destruct (text page); rewrite !flag_entry, entry_addr by (done || lia); done.
Qed.

Lemma kinv_walk s0 s pd pts va :
  kinv s0 s pd pts init_ram_pages -> Z.of_nat (length pts) = (init_ram_pages + 1023) / 1024 -> 0 <= init_ram_pages < 2 ^ 18 ->
  0 <= va < 2 ^ 32 -> walk (ram s) pd va = kernel_walk va.
Proof.
  intros H Hl Hlim Hva. unfold walk, kernel_walk.
  assert (0 <= pd_no va < 1024) as Hi by (rewrite pd_no_div; Z.to_euclidean_division_equations; lia).
  assert (0 <= pt_no va < 1024) as Hj by (rewrite pt_no_div; apply Z.mod_pos_bound; lia).
  rewrite (ki_pdes _ _ _ _ _ H) by done. destruct (Z.leb_spec PHYS_BASE va) as [Hlo|Hlo]; cbn [andb].
  2: { rewrite (proj2 (Z.leb_gt _ _)) by (rewrite pd_no_div; unpage; Z.to_euclidean_division_equations; lia). done. }
  set (page := (va - PHYS_BASE) / 4096). assert (0 <= page < 2 ^ 18) as Hpg by (unfold page; unpage; Z.to_euclidean_division_equations; lia).
  assert (pd_no va = 768 + page / 1024) as Epd by (rewrite pd_no_div; unfold page; unpage; Z.to_euclidean_division_equations; lia).
  assert (pt_no va = page mod 1024) as Ept by (rewrite pt_no_div; unfold page; unpage; Z.to_euclidean_division_equations; lia).
  assert ((va <? PHYS_BASE + 4096 * init_ram_pages) = (page <? init_ram_pages)) as ->.
  { unfold page. destruct (Z.ltb_spec va (PHYS_BASE + 4096 * init_ram_pages)), (Z.ltb_spec ((va - PHYS_BASE) / 4096) init_ram_pages); try done; unpage; Z.to_euclidean_division_equations; lia. }
  assert (0 <= page / 1024) by (apply Z.div_pos; lia). rewrite Epd, (proj2 (Z.leb_le _ _)) by lia. replace (768 + page / 1024 - 768) with (page / 1024) by lia.
  destruct (pts !! Z.to_nat (page / 1024)) as [pt|] eqn:E.
  - destruct (kinv_owned _ _ _ _ _ _ _ H E) as [Ho _]. destruct (owned_mapped _ _ (ki_wf _ _ _ _ _ H) Ho) as [_ Hk].
    destruct (pde_of_walk pt Hk) as (-> & -> & ->). rewrite (ki_ptes _ _ _ _ _ H _ _ _ E) by done.
    rewrite Ept. replace (1024 * Z.of_nat (Z.to_nat (page / 1024)) + page mod 1024) with page by (Z.to_euclidean_division_equations; lia).
    destruct (Z.ltb_spec page init_ram_pages); [|done]. destruct (kpte_walk page Hpg) as (-> & -> & -> & ->).
    rewrite pg_ofs_mod, andb_false_r. cbn [andb]. f_equal. f_equal. f_equal. unfold page. unpage. Z.to_euclidean_division_equations. lia.
  - apply lookup_ge_None_1 in E. rewrite (proj2 (Z.ltb_ge _ _)); [done|]. Z.to_euclidean_division_equations. lia.
Qed.

(** A copy of the kernel's page directory translates as the original. *)
Lemma walk_copy s0 s s1 init_page_dir pts pd bs va :
  kinv s0 s init_page_dir pts init_ram_pages -> got s s1 false 1 false pd -> Z.of_nat (length bs) = 4096 ->
  bytes_at (ram s) init_page_dir bs -> 0 <= va < 2 ^ 32 -> walk (put (ram s1) pd bs) pd va = walk (ram s) init_page_dir va.
Proof.
  intros H G Hl Hbs Hva. pose proof (got_ram _ _ _ _ _ _ G) as ->. cbv iota. unfold walk.
  assert (0 <= pd_no va < 1024) as Hi by (rewrite pd_no_div; Z.to_euclidean_division_equations; lia).
  assert (0 <= pt_no va < 1024) as Hj by (rewrite pt_no_div; apply Z.mod_pos_bound; lia).
  rewrite (rd_copy _ init_page_dir) by (done || lia). destruct (flag (rd (ram s) (init_page_dir + 4 * pd_no va)) PTE_P) eqn:Ef; [|done].
  revert Ef. rewrite (ki_pdes _ _ _ _ _ H) by done. destruct (768 <=? pd_no va); [|done].
  destruct (pts !! Z.to_nat (pd_no va - 768)) as [pt|] eqn:E; [|done]. intros _. destruct (kinv_owned _ _ _ _ _ _ _ H E) as [Ho _].
  destruct (owned_mapped _ _ (ki_wf _ _ _ _ _ H) Ho) as [_ Hk]. destruct (pde_of_walk pt Hk) as (_ & _ & ->).
  rewrite rd_put_ne; [done|]. destruct (got_owned_kept _ _ _ _ _ _ _ _ G Ho) as [_ Hne].
  pose proof (got_aligned _ _ _ _ _ _ G) as Ha. pose proof (owned_aligned _ _ Ho). assert (pt ≠ pd) as Hd.
  { intros ->. apply Hne; [done|]. split; [done|lia]. }
  rewrite Hl. Z.to_euclidean_division_equations. lia.
Qed.
End Operation.

(** * [palloc_init] *)

(** Pages that the bitmap of a pool of [k] pages takes. *)
Definition map_pages (k : Z) : Z := (8 + 4 * ((k + 31) / 32) + 4095) / 4096.

(** The memory of the bitmap of [k] pages before the bitmap is made. *)
Definition map_memory (k : Z) (old : list Z) : Prop :=
  Z.of_nat (length old) = elem_cnt (k - map_pages k) /\ Forall (fun e => 0 <= e < 2 ^ 32) old.

Lemma map_pages_range k : 1 <= k -> 1 <= map_pages k <= k.
Proof. intros Hk. unfold map_pages. Z.to_euclidean_division_equations. lia. Qed.

Lemma init_pool_correct m old start k :
  1 <= k < 2 ^ 18 -> kernel_page start -> start + 4096 * k <= 2 ^ 32 - 4096 -> map_memory k old ->
  mapped m start (Z.to_nat (4096 * k)) ->
  exists p, init_pool old start k = Ok p /\ pool_wf m p /\ base p = start + 4096 * map_pages k /\ pages_of p = k - map_pages k /\
    forall j, 0 <= j < pages_of p -> bit (used_map p) j = false.
Proof.
  intros Hk [Hs1 Hs2] Hend [Ho1 Ho2] Hm. pose proof (map_pages_range k ltac:(lia)) as Hr. unfold init_pool.
  assert (forall c, 0 <= c < 2 ^ 18 -> bitmap_buf_size c = 8 + 4 * ((c + 31) / 32)) as Hbuf.
  { intros c Hc. unfold bitmap_buf_size, byte_cnt, elem_cnt, ELEM_BITS, u32. rewrite (Z.mod_small (c + 32 - 1)) by lia.
    replace (c + 32 - 1) with (c + 31) by lia. rewrite !Z.mod_small by (Z.to_euclidean_division_equations; lia). done. }
  assert (u32 (bitmap_buf_size k + PGSIZE - 1) / PGSIZE = map_pages k) as ->.
  { rewrite Hbuf by lia. change PGSIZE with 4096. unfold u32, map_pages. rewrite Z.mod_small by (Z.to_euclidean_division_equations; lia). f_equal. lia. }
  rewrite (proj2 (Z.ltb_ge _ _)) by lia. unfold bitmap_create_in_buf. unfold u32. rewrite Hbuf, !Z.mod_small by (unpage; lia).
  assert (8 + 4 * ((k - map_pages k + 31) / 32) <= map_pages k * PGSIZE) as Hfit by (unpage; unfold map_pages in *; Z.to_euclidean_division_equations; lia).
  rewrite (proj2 (Z.leb_le _ _) Hfit).
  assert (bm_wf (mk_bitmap (k - map_pages k) old)) as Hbw by (split; cbn; [lia|done|done]).
  pose proof (wp_set_all (mk_bitmap (k - map_pages k) old) false (fun _ b => bits_are (mk_bitmap (k - map_pages k) old) b (fun _ => false)) Hbw ltac:(done)) as W.
  apply wp_unfold in W as ([] & b & E & B1 & B2 & B3). cbn in B2, B3. rewrite E. cbn. eexists. split; [done|]. cbn. rewrite B2.
  change PGSIZE with 4096. rewrite (Z.mul_comm _ 4096). split; [|split; [done|split; [done|exact B3]]].
  split; cbn; [done|Z.to_euclidean_division_equations; lia|lia|lia|]. rewrite B2. intros i Hi. apply Hm. lia.
Qed.

(** The pages of the two pools. *)
Definition user_share (n limit : Z) : Z := Z.min ((n - 256) / 2) limit.
Definition kernel_share (n limit : Z) : Z := n - 256 - user_share n limit.

Lemma palloc_init_correct n limit old_k old_u m c :
  258 <= n < 2 ^ 18 -> 1 <= limit ->
  map_memory (kernel_share n limit) old_k -> map_memory (user_share n limit) old_u ->
  mapped m (PHYS_BASE + 1024 * 1024) (Z.to_nat (4096 * (n - 256))) ->
  exists s, palloc_init n limit old_k old_u m c = Ok s /\ machine_wf s /\ ram s = m /\ cr3 s = c /\
    pages_of (kernel_pool s) = kernel_share n limit - map_pages (kernel_share n limit) /\
    pages_of (user_pool s) = user_share n limit - map_pages (user_share n limit) /\
    forall user page, in_pool (the_pool user s) page -> free s user page.
Proof.
  intros Hn Hl Hk Hu Hm. assert (1 <= user_share n limit <= (n - 256) / 2) as Hus by (unfold user_share; Z.to_euclidean_division_equations; lia).
  assert (1 <= kernel_share n limit <= n - 257) as Hks by (unfold kernel_share; Z.to_euclidean_division_equations; lia).
  assert (user_share n limit + kernel_share n limit = n - 256) as Hsum by (unfold kernel_share; lia).
  set (start := PHYS_BASE + 1024 * 1024) in *. assert (kernel_page start) as Hst by done.
  destruct (init_pool_correct m old_k start (kernel_share n limit)) as (k & Ek & Wk & Bk & Pk & Fk); [lia|done|unfold start; unpage; lia|done| |].
  { intros i Hi. apply Hm. lia. }
  destruct (init_pool_correct m old_u (start + 4096 * kernel_share n limit) (user_share n limit)) as (u & Eu & Wu & Bu & Pu & Fu);
    [lia|unfold start, kernel_page; unpage; Z.to_euclidean_division_equations; lia|unfold start; unpage; lia|done| |].
  { intros i Hi. apply Hm. lia. }
  exists (mk_machine k u m c). split.
  - unfold palloc_init. change (ptov (1024 * 1024) tt) with (Ok (A := Z * unit) (start, tt)). cbn [mbind res_bind].
    assert (ptov (u32 (n * PGSIZE)) tt = Ok (n * 4096 + PHYS_BASE, tt)) as ->.
    { unfold ptov, u32. change PGSIZE with 4096. rewrite (Z.mod_small (n * 4096)), (proj2 (Z.ltb_lt _ PHYS_BASE)) by (unpage; lia). cbn.
      by rewrite Z.mod_small by (unpage; lia). }
    cbn [mbind res_bind]. change PGSIZE with 4096.
    assert (Z.quot (n * 4096 + PHYS_BASE - start) 4096 = n - 256) as ->.
    { unfold start. replace (_ - _) with ((n - 256) * 4096) by lia. by apply Z.quot_mul. }
    assert ((if limit <? (n - 256) / 2 then limit else (n - 256) / 2) = user_share n limit) as ->.
    { unfold user_share. destruct (Z.ltb_spec limit ((n - 256) / 2)); lia. }
    fold (kernel_share n limit). rewrite Ek. cbn. unfold u32. rewrite (Z.mul_comm _ 4096), Z.mod_small by (unfold start; unpage; lia). by rewrite Eu.
  - pose proof (map_pages_range (user_share n limit)). pose proof (map_pages_range (kernel_share n limit)).
    assert (machine_wf (mk_machine k u m c)) as Hwf by (split; cbn; [done|done|lia]).
    split; [done|]. split; [done|]. split; [done|]. split; [done|]. split; [done|]. intros user page Hi. split; [done|].
    destruct (in_pool_index _ _ _ (mw_pool _ user Hwf) Hi) as [Hr _]. unfold pool_used. destruct user; [by apply Fu|by apply Fk].
Qed.

Lemma all_avail s k : machine_wf s -> (forall page, in_pool (kernel_pool s) page -> free s false page) ->
  Z.of_nat k <= pages_of (kernel_pool s) -> avail s k.
Proof.
  intros Hwf Hf Hk. exists ((fun i => base (kernel_pool s) + 4096 * i) <$> seqZ 0 (Z.of_nat k)). split; [|split].
  - apply NoDup_fmap_2; [intros x y; lia|apply NoDup_seqZ].
  - rewrite length_fmap, length_seqZ. lia.
  - apply Forall_fmap, Forall_forall. intros i Hi%elem_of_seqZ. apply Hf, (page_in_pool (ram s)); [apply Hwf|lia].
Qed.

(** * Theorems *)

(** C16: on a machine with [n] pages of RAM, at least 320 of them, [palloc_init] and [paging_init] set up the kernel's
    address space: under the page directory that CR3 then holds the processor translates the addresses from [PHYS_BASE]
    up to the RAM, for the kernel only, and its text read-only; it translates no other address.  The page directory of
    a new process translates every address in the same way. *)
Theorem kernel_address_space n limit start text_end old_k old_u m c
    (Hn : 320 <= n < 2 ^ 18) (Hlimit : 1 <= limit)
    (Hk : map_memory (kernel_share n limit) old_k) (Hu : map_memory (user_share n limit) old_u)
    (Hm : mapped m (PHYS_BASE + 1024 * 1024) (Z.to_nat (4096 * (n - 256)))) (Hb : bytes_ok m) :
  exists s pd s', palloc_init n limit old_k old_u m c = Ok s /\ paging_init n start text_end s = Ok (pd, s') /\
    machine_wf s' /\ kernel_dir pd s' /\ cr3 s' = pd - PHYS_BASE /\
    (forall va, 0 <= va < 2 ^ 32 -> walk (ram s') pd va = kernel_walk n start text_end va) /\
    wp (pagedir_create pd) s' (fun pd' s2 => pd' = NULL \/
      forall va, 0 <= va < 2 ^ 32 -> walk (ram s2) pd' va = kernel_walk n start text_end va).
Proof.
  destruct (palloc_init_correct n limit old_k old_u m c) as (s & E & Hwf & Er & _ & Hp & _ & Hf); [lia|done..|]. subst m.
  assert (avail s (S (Z.to_nat ((n + 1023) / 1024)))) as Ha.
  { apply all_avail; [done|intros page; apply (Hf false)|]. rewrite Hp. unfold kernel_share, user_share, map_pages. Z.to_euclidean_division_equations. lia. }
  assert (wp (paging_init n start text_end) s (fun pd s' => exists pts, kinv start text_end s s' pd pts n /\
    Z.of_nat (length pts) = (n + 1023) / 1024 /\ cr3 s' = pd - PHYS_BASE)) as W.
  { apply wp_paging_init; [done|done|lia|done|]. intros pd s' pts H1 H2 H3. by exists pts. }
  apply wp_unfold in W as (pd & s' & E' & pts & H & Hl & Hc). exists s, pd, s'. split; [done|]. split; [done|]. split; [apply H|].
  pose proof (kinv_pd _ _ _ _ _ _ _ H) as Ho. split; [|split; [done|split]].
  - split; [done|]. intros i Hi. rewrite (ki_pdes _ _ _ _ _ _ _ H), (proj2 (Z.leb_gt _ _)) by lia. done.
  - intros va Hva. eapply kinv_walk; [done|done|lia|done].
  - apply wp_pagedir_copy; [apply H|apply H|done| |by left]. intros pd' s1 bs G Hkp Hne Hlen Hbs Hby. right. intros va Hva.
    cbn [ram set_ram]. erewrite walk_copy by done. eapply kinv_walk; [done|done|lia|done].
Qed.

(** A machine with 2 MB of RAM, all zero. *)
Lemma kernel_address_space_witness :
  exists s pd s', palloc_init 512 1000 (replicate 4 0) (replicate 4 0) (put ∅ (PHYS_BASE + 1024 * 1024) (replicate (Z.to_nat (4096 * 256)) 0)) 0 = Ok s /\
    paging_init 512 0xc0020000 0xc0030000 s = Ok (pd, s') /\ machine_wf s' /\ kernel_dir pd s' /\ cr3 s' = pd - PHYS_BASE /\
    (forall va, 0 <= va < 2 ^ 32 -> walk (ram s') pd va = kernel_walk 512 0xc0020000 0xc0030000 va) /\
    wp (pagedir_create pd) s' (fun pd' s2 => pd' = NULL \/
      forall va, 0 <= va < 2 ^ 32 -> walk (ram s2) pd' va = kernel_walk 512 0xc0020000 0xc0030000 va).
Proof.
  apply kernel_address_space; [lia|lia|split; [done|repeat constructor; lia]|split; [done|repeat constructor; lia]| |].
  - intros i Hi. rewrite lookup_put, length_replicate, decide_True by lia. apply lookup_lt_is_Some. rewrite length_replicate. lia.
  - apply bytes_ok_put; [done|]. apply Forall_replicate. unfold byte. lia.
Defined.
