(* ===== verification/Random.v ===== *)
(** src/lib/random.c: the pseudo-random numbers, an RC4 key stream.

    The table is a list that is read and written by index; an index out of range is a failure of the model.  The
    invariant is that the table is a permutation of the 256 bytes.  A second seed replaces the first one. *)
From stdpp Require Import base list numbers sorting.
From Stdlib Require Import ZArith Lia.
From S2P Require Import Prelude Strings.

Open Scope Z_scope.

(** * State *)

Record rng : Type := mk_rng { s_tbl : list Z; s_i : Z; s_j : Z; inited : bool }.

Definition tbl_get (i : Z) : M rng Z := r ← mget; match s_tbl r !! Z.to_nat i with Some v => mret v | None => mfail Fault end.
Definition tbl_put (i v : Z) : M rng unit :=
  r ← mget;
  if (Z.to_nat i <? length (s_tbl r))%nat then mput (mk_rng (<[Z.to_nat i := v]> (s_tbl r)) (s_i r) (s_j r) (inited r)) else mfail Fault.
Definition set_ij (i j : Z) : M rng unit := r ← mget; mput (mk_rng (s_tbl r) i j (inited r)).

(** * Operations *)

Definition swap_byte (a b : Z) : M rng unit :=
  t ← tbl_get a;
  u ← tbl_get b;
  tbl_put a u;;
  tbl_put b t.

(** [seedp] are the bytes of the seed. *)
Definition random_init (seed : Z) : M rng unit :=
  let seedp := le 4 seed in
  for_each (fun i => tbl_put i (u8 i)) (seqZ 0 256);;
  loop 257 (fun '(i, j) =>
    if i <? 256 then
      v ← tbl_get i;
      let j := u8 (j + (v + seedp !!! Z.to_nat (i mod 4))) in
      swap_byte i j;;
      mret (inl (i + 1, j))
    else mret (inr tt)) (0, 0);;
  r ← mget; mput (mk_rng (s_tbl r) 0 0 true).

(** One iteration of the loop of [random_bytes]. *)
Definition random_byte : M rng Z :=
  r ← mget;
  let i := u8 (s_i r + 1) in
  v ← tbl_get i;
  let j := u8 (s_j r + v) in
  set_ij i j;;
  swap_byte i j;;
  a ← tbl_get i;
  b ← tbl_get j;
  tbl_get (u8 (a + b)).

(** The bytes that are written to the buffer. *)
Definition random_bytes (size : nat) : M rng (list Z) :=
  r ← mget;
  (if inited r then mret tt else random_init 0);;
  loop (S size) (fun '(n, out) =>
    match n with
    | O => mret (inr out)
    | S n => b ← random_byte; mret (inl (n, out ++ [b]))
    end) (size, []).

Definition random_ulong : M rng Z := bs ← random_bytes 4; mret (unle bs).

(** * Specification: RC4 *)

Definition swap (t : list Z) (i j : Z) : list Z := <[Z.to_nat j := t !!! Z.to_nat i]> (<[Z.to_nat i := t !!! Z.to_nat j]> t).

(** The key schedule: [key_tbl key n] is the table, with the index [j], after [n] steps. *)
Fixpoint key_tbl (key : list Z) (n : nat) : list Z * Z :=
  match n with
  | O => (seqZ 0 256, 0)
  | S n =>
    let '(t, j) := key_tbl key n in
    let j := (j + t !!! n + key !!! (n mod length key)%nat) mod 256 in
    (swap t (Z.of_nat n) j, j)
  end.

(** The output: [n] bytes from the table [t] and the indices [i] and [j], and the table and indices afterwards. *)
Fixpoint key_stream (t : list Z) (i j : Z) (n : nat) : list Z * (list Z * Z * Z) :=
  match n with
  | O => ([], (t, i, j))
  | S n =>
    let i := (i + 1) mod 256 in
    let j := (j + t !!! Z.to_nat i) mod 256 in
    let t := swap t i j in
    let '(out, last) := key_stream t i j n in
    (t !!! Z.to_nat ((t !!! Z.to_nat i + t !!! Z.to_nat j) mod 256) :: out, last)
  end.

(** * The table *)

Definition table_ok (t : list Z) : Prop := t ≡ₚ seqZ 0 256.

Section Table.
Implicit Types (t : list Z) (r : rng).

Lemma table_length t : table_ok t -> length t = 256%nat.
Proof. unfold table_ok. intros H. rewrite H. by rewrite length_seqZ. Qed.

Lemma table_get t i : table_ok t -> byte i -> t !! Z.to_nat i = Some (t !!! Z.to_nat i) /\ byte (t !!! Z.to_nat i).
Proof.
  intros H Hi. pose proof (table_length _ H) as Hl. unfold byte in Hi.
  destruct (lookup_lt_is_Some_2 t (Z.to_nat i)) as [v E]; [lia|]. rewrite (list_lookup_total_correct _ _ _ E). split; [done|].
  apply list_elem_of_lookup_2 in E. unfold table_ok in H. rewrite H in E. apply elem_of_seqZ in E. unfold byte. lia.
Qed.

Lemma byte_mod x : byte (x mod 256).
Proof. unfold byte. by apply Z.mod_pos_bound. Qed.

Lemma swap_perm t i j a b : t !! i = Some a -> t !! j = Some b -> <[j := a]> (<[i := b]> t) ≡ₚ t.
Proof.
  intros Ha Hb. destruct (decide (i = j)) as [->|Hij].
  - rewrite list_insert_insert_eq. assert (a = b) as -> by congruence. by rewrite list_insert_id.
  - pose proof (lookup_lt_Some _ _ _ Ha). pose proof (lookup_lt_Some _ _ _ Hb).
    apply Permutation_inj. rewrite !length_insert. split; [done|].
    exists (fun k => if decide (k = i) then j else if decide (k = j) then i else k). split.
    + intros x y. repeat case_decide; congruence.
    + intros k. repeat case_decide; subst.
      * rewrite list_lookup_insert_ne, list_lookup_insert_eq by done. done.
      * rewrite list_lookup_insert_eq by (rewrite length_insert; done). done.
      * rewrite !list_lookup_insert_ne by done. done.
Qed.

Lemma swap_ok t i j : table_ok t -> byte i -> byte j -> table_ok (swap t i j).
Proof.
  intros Ht Hi Hj. destruct (table_get t i Ht Hi) as [Ei _]. destruct (table_get t j Ht Hj) as [Ej _].
  unfold table_ok, swap. by rewrite (swap_perm _ _ _ _ _ Ei Ej).
Qed.

Lemma key_tbl_ok key n : (n <= 256)%nat -> table_ok (key_tbl key n).1 /\ byte (key_tbl key n).2.
Proof.
  induction n as [|n IH]; intros Hn; [split; [unfold table_ok; reflexivity|done]|]. cbn [key_tbl]. destruct IH as [Ht Hj]; [lia|]. destruct (key_tbl key n) as [t j]. cbn [fst snd] in *.
  split; [|apply byte_mod]. apply swap_ok; [done|unfold byte; lia|apply byte_mod].
Qed.

Lemma wp_tbl_get r i (Q : Z -> rng -> Prop) : table_ok (s_tbl r) -> byte i -> Q (s_tbl r !!! Z.to_nat i) r -> wp (tbl_get i) r Q.
Proof. intros Ht Hi HQ. apply wp_bind, wp_get. destruct (table_get _ _ Ht Hi) as [-> _]. by apply wp_ret. Qed.

Lemma wp_tbl_put r i v (Q : unit -> rng -> Prop) : (Z.to_nat i < length (s_tbl r))%nat ->
  Q tt (mk_rng (<[Z.to_nat i := v]> (s_tbl r)) (s_i r) (s_j r) (inited r)) -> wp (tbl_put i v) r Q.
Proof. intros Hi HQ. apply wp_bind, wp_get. rewrite (proj2 (Nat.ltb_lt _ _)) by done. by apply wp_put. Qed.

Lemma wp_swap_byte r i j (Q : unit -> rng -> Prop) : table_ok (s_tbl r) -> byte i -> byte j ->
  Q tt (mk_rng (swap (s_tbl r) i j) (s_i r) (s_j r) (inited r)) -> wp (swap_byte i j) r Q.
Proof.
  intros Ht Hi Hj HQ. pose proof (table_length _ Ht) as Hl. apply wp_bind, wp_tbl_get; [done|done|]. apply wp_bind, wp_tbl_get; [done|done|].
  unfold byte in *. apply wp_bind, wp_tbl_put; [lia|]. apply wp_tbl_put; [cbn; rewrite length_insert; lia|]. exact HQ.
Qed.

Lemma insert_here (l k : list Z) v w : <[length l := w]> (l ++ v :: k) = l ++ w :: k.
Proof. by induction l as [|x l IH]; cbn; [|f_equal]. Qed.

Lemma wp_random_init seed r (Q : unit -> rng -> Prop) : length (s_tbl r) = 256%nat ->
  Q tt (mk_rng (key_tbl (le 4 seed) 256).1 0 0 true) -> wp (random_init seed) r Q.
Proof.
  intros Hl HQ. apply wp_bind.
  apply (wp_for_each (fun n r' => r' = mk_rng (take n (seqZ 0 256) ++ drop n (s_tbl r)) (s_i r) (s_j r) (inited r))).
  { by destruct r. }
  { intros n x r' Hx ->. pose proof (lookup_lt_Some _ _ _ Hx) as Hn. rewrite length_seqZ in Hn. apply lookup_seqZ in Hx as [-> _]. change (Z.to_nat 256) with 256%nat in Hn.
    assert (length (take n (seqZ 0 256)) = n) as Ht by (rewrite length_take, length_seqZ; lia).
    apply wp_tbl_put; cbn [s_tbl]; [rewrite length_app, Ht, length_drop; lia|]. cbn [s_i s_j inited]. f_equal. rewrite Z.add_0_l, Nat2Z.id.
    destruct (lookup_lt_is_Some_2 (s_tbl r) n) as [v Ev]; [lia|]. replace (n + 1)%nat with (S n) by lia.
    rewrite (take_S_r _ _ (Z.of_nat n)) by (apply lookup_seqZ; lia). rewrite (drop_S _ _ _ Ev), <-app_assoc. rewrite <-Ht at 1.
    rewrite insert_here. unfold u8. by rewrite Z.mod_small by lia. }
  intros r'. rewrite length_seqZ. change (Z.to_nat 256) with 256%nat. rewrite drop_ge, app_nil_r, take_ge by (rewrite ?length_seqZ; lia). intros ->.
  apply wp_bind.
  apply (wp_loop (fun n '(i, j) r' => exists k, n = (256 - k)%nat /\ (k <= 256)%nat /\ i = Z.of_nat k /\ j = (key_tbl (le 4 seed) k).2 /\
    r' = mk_rng (key_tbl (le 4 seed) k).1 (s_i r) (s_j r) (inited r)) _) with (n := 256%nat); [|exists O; repeat split; lia|lia].
  intros n [i j] r' (k & -> & Hk & -> & -> & ->). destruct (Z.ltb_spec (Z.of_nat k) 256) as [Hlt|Hge].
  - destruct (key_tbl_ok (le 4 seed) k Hk) as [Ht Hj]. assert (byte (Z.of_nat k)) as Hb by (unfold byte; lia).
    apply wp_bind, wp_tbl_get; [done|done|]. cbn [s_tbl]. apply wp_bind, wp_swap_byte; [done|done|apply byte_mod|]. apply wp_ret.
    exists (256 - S k)%nat. split; [lia|]. exists (S k). split; [done|]. split; [lia|]. split; [lia|]. cbn [s_tbl s_i s_j inited].
    assert ((key_tbl (le 4 seed) (S k)) = (swap (key_tbl (le 4 seed) k).1 (Z.of_nat k) (u8 ((key_tbl (le 4 seed) k).2 + ((key_tbl (le 4 seed) k).1 !!! Z.to_nat (Z.of_nat k) + le 4 seed !!! Z.to_nat (Z.of_nat k mod 4)))),
      u8 ((key_tbl (le 4 seed) k).2 + ((key_tbl (le 4 seed) k).1 !!! Z.to_nat (Z.of_nat k) + le 4 seed !!! Z.to_nat (Z.of_nat k mod 4))))) as ->; [|done].
    cbn [key_tbl]. destruct (key_tbl (le 4 seed) k) as [t j]. cbn [fst snd]. rewrite length_le. unfold u8. rewrite Nat2Z.id, Z.add_assoc.
    change 4 with (Z.of_nat 4). by rewrite <-Nat2Z.inj_mod, Nat2Z.id.
  - assert (k = 256%nat) as -> by lia. by apply wp_ret, wp_bind, wp_get, wp_put.
Qed.

Lemma wp_random_byte r (Q : Z -> rng -> Prop) : table_ok (s_tbl r) -> byte (s_i r) -> byte (s_j r) ->
  (let i := (s_i r + 1) mod 256 in let j := (s_j r + s_tbl r !!! Z.to_nat i) mod 256 in let t := swap (s_tbl r) i j in
   Q (t !!! Z.to_nat ((t !!! Z.to_nat i + t !!! Z.to_nat j) mod 256)) (mk_rng t i j (inited r))) -> wp random_byte r Q.
Proof.
  intros Ht Hi Hj HQ. cbv zeta in HQ. apply wp_bind, wp_get, wp_bind, wp_tbl_get; [done|apply byte_mod|]. apply wp_bind, wp_bind, wp_get, wp_put.
  apply wp_bind, wp_swap_byte; [done|apply byte_mod|apply byte_mod|]. cbn [s_tbl s_i s_j inited].
  assert (forall i j, table_ok (swap (s_tbl r) (u8 i) (u8 j))) as Hs by (intros; apply swap_ok; [done|apply byte_mod..]).
  apply wp_bind, wp_tbl_get; [apply Hs|apply byte_mod|]. apply wp_bind, wp_tbl_get; [apply Hs|apply byte_mod|].
  apply wp_tbl_get; [apply Hs|apply byte_mod|]. exact HQ.
Qed.

Lemma key_stream_ok t i j n : table_ok t -> byte i -> byte j ->
  length (key_stream t i j n).1 = n /\ Forall byte (key_stream t i j n).1 /\
  table_ok (key_stream t i j n).2.1.1 /\ byte (key_stream t i j n).2.1.2 /\ byte (key_stream t i j n).2.2.
Proof.
  revert t i j. induction n as [|n IH]; intros t i j Ht Hi Hj; [done|]. cbn [key_stream].
  set (i' := (i + 1) mod 256). set (j' := (j + t !!! Z.to_nat i') mod 256).
  assert (table_ok (swap t i' j')) as Hs by (apply swap_ok; [done|apply byte_mod..]).
  destruct (IH (swap t i' j') i' j') as (H1 & H2 & H3); [done|apply byte_mod..|].
  destruct (key_stream (swap t i' j') i' j' n) as [out last]. cbn [fst snd length] in *. split; [by rewrite H1|]. split; [|done].
  apply Forall_cons. split; [|done]. apply table_get; [done|apply byte_mod].
Qed.

Lemma wp_random_bytes r size (Q : list Z -> rng -> Prop) : inited r = true -> table_ok (s_tbl r) -> byte (s_i r) -> byte (s_j r) ->
  (let '(out, (t, i, j)) := key_stream (s_tbl r) (s_i r) (s_j r) size in Q out (mk_rng t i j true)) -> wp (random_bytes size) r Q.
Proof.
  intros Hini Ht Hi Hj HQ. apply wp_bind, wp_get. rewrite Hini. apply wp_bind, wp_ret.
  assert (forall n out fuel r', (n < fuel)%nat -> inited r' = true -> table_ok (s_tbl r') -> byte (s_i r') -> byte (s_j r') ->
    (let '(out', (t, i, j)) := key_stream (s_tbl r') (s_i r') (s_j r') n in Q (out ++ out') (mk_rng t i j true)) ->
    wp (loop fuel (fun '(n, out) => match n with O => mret (inr out) | S n => b ← random_byte; mret (inl (n, out ++ [b])) end) (n, out)) r' Q) as W.
  { clear. induction n as [|n IH]; intros out fuel r Hf Hini Ht Hi Hj HQ; (destruct fuel as [|fuel]; [lia|]); apply wp_bind.
    - apply wp_ret, wp_ret. cbn in HQ. rewrite app_nil_r in HQ. rewrite <-Hini in HQ. by destruct r.
    - apply wp_bind, wp_random_byte; [done..|]. cbv zeta. apply wp_ret. apply IH; cbn [s_tbl s_i s_j inited]; [lia|done|apply swap_ok; [done|apply byte_mod..]|apply byte_mod..|].
      cbn [key_stream] in HQ. cbv zeta in HQ. destruct (key_stream (swap _ _ _) _ _ n) as [out' [[t i] j]]. by rewrite <-app_assoc. }
  apply W; [lia|done..|]. by destruct (key_stream _ _ _ size) as [out [[t i] j]].
Qed.
End Table.

(** * Theorems *)

(** C32: after a seed has been set, the bytes that [random_bytes] writes are the RC4 key stream of the seed's four bytes;
    the table stays a permutation of the 256 byte values. *)
Theorem random_bytes_rc4 seed size r (Hl : length (s_tbl r) = 256%nat) :
  exists out r', (random_init seed;; random_bytes size) r = Ok (out, r') /\
    out = (key_stream (key_tbl (le 4 seed) 256).1 0 0 size).1 /\ length out = size /\ Forall byte out /\ table_ok (s_tbl r').
Proof.
  assert (wp (random_init seed;; random_bytes size) r (fun out r' => out = (key_stream (key_tbl (le 4 seed) 256).1 0 0 size).1 /\
    length out = size /\ Forall byte out /\ table_ok (s_tbl r'))) as W.
  { destruct (key_tbl_ok (le 4 seed) 256 ltac:(done)) as [Ht _]. apply wp_bind, wp_random_init; [done|].
    apply wp_random_bytes; cbn [s_tbl s_i s_j inited]; [done|done|done|done|].
    destruct (key_stream_ok (key_tbl (le 4 seed) 256).1 0 0 size) as (H1 & H2 & H3 & _); [done..|].
    destruct (key_stream _ 0 0 size) as [out [[t i] j]]. done. }
  apply wp_unfold in W as (out & r' & E & W). by exists out, r'.
Qed.

(** The published test vector for the key "Wiki". *)
Lemma random_bytes_rc4_witness : exists r',
  (random_init 0x696b6957;; random_bytes 6) (mk_rng (replicate 256 0) 0 0 false) = Ok ([0x60; 0x44; 0xdb; 0x6d; 0x41; 0xb7], r').
Proof.
  destruct (random_bytes_rc4 0x696b6957 6 (mk_rng (replicate 256 0) 0 0 false)) as (out & r' & E & Ho & _); [done|].
  exists r'. rewrite E, Ho. by vm_compute.
Defined.

(** A new seed leaves nothing of an earlier one. *)
Lemma random_init_forgets a b r : length (s_tbl r) = 256%nat -> (random_init a;; random_init b) r = random_init b r.
Proof.
  intros Hl. set (q := mk_rng (key_tbl (le 4 b) 256).1 0 0 true).
  assert (wp (random_init a;; random_init b) r (fun _ r' => r' = q)) as W1.
  { apply wp_bind, wp_random_init; [done|]. apply wp_random_init; [|done]. cbn [s_tbl]. by apply table_length, key_tbl_ok. }
  assert (wp (random_init b) r (fun _ r' => r' = q)) as W2 by (by apply wp_random_init).
  apply wp_unfold in W1 as ([] & r1 & -> & ->). by apply wp_unfold in W2 as ([] & r2 & -> & ->).
Qed.
