(* ===== verification/Rtc.v ===== *)
(** src/devices/rtc.c: the time of day from the CMOS clock.

    [cmos k r] is the byte that the [k]-th read finds in register [r].  [rtc_get_time] counts the days of the current
    month in, and takes the wrong years for leap years, so that the time is about a month late. *)
From stdpp Require Import base list numbers.
From Stdlib Require Import ZArith Lia.
From S2P Require Import Prelude.

Open Scope Z_scope.

Definition RTC_REG_SEC : Z := 0.
Definition RTC_REG_MIN : Z := 2.
Definition RTC_REG_HOUR : Z := 4.
Definition RTC_REG_MDAY : Z := 7.
Definition RTC_REG_MON : Z := 8.
Definition RTC_REG_YEAR : Z := 9.

Definition days_per_month : list Z := [31; 28; 31; 30; 31; 30; 31; 31; 30; 31; 30; 31].

Definition bcd_to_bin (x : Z) : Z := Z.land x 0x0f + Z.shiftr x 4 * 10.

(** * Operations *)

Section Clock.
Context (cmos : nat -> Z -> Z).

(** The state counts the reads. *)
Definition cmos_read (index : Z) : M nat Z := k ← mget; mput (S k);; mret (cmos k index).

(** The loop that reads the clock until the second does not change. *)
Definition read_clock (fuel : nat) : M nat (Z * Z * Z * Z * Z * Z) :=
  loop fuel (fun _ =>
    sec ← cmos_read RTC_REG_SEC;
    min ← cmos_read RTC_REG_MIN;
    hour ← cmos_read RTC_REG_HOUR;
    mday ← cmos_read RTC_REG_MDAY;
    mon ← cmos_read RTC_REG_MON;
    year ← cmos_read RTC_REG_YEAR;
    again ← cmos_read RTC_REG_SEC;
    if negb (bcd_to_bin sec =? bcd_to_bin again) then mret (inl tt)
    else mret (inr (bcd_to_bin sec, bcd_to_bin min, bcd_to_bin hour, bcd_to_bin mday, bcd_to_bin mon, bcd_to_bin year))) tt.

(** The days of the months [i] to [mon], in seconds. *)
Definition add_months (mon time : Z) : M nat Z :=
  loop (S (Z.to_nat mon)) (fun '(i, time) =>
    if i <=? mon then
      match days_per_month !! Z.to_nat (i - 1) with
      | Some d => mret (inl (i + 1, u32 (time + d * 24 * 60 * 60)))
      | None => mfail Fault
      end
    else mret (inr time)) (1, time).

Definition rtc_get_time (fuel : nat) : M nat Z :=
  '(sec, min, hour, mday, mon, year) ← read_clock fuel;
  let year := (if year <? 70 then year + 100 else year) - 70 in
  let time := u32 ((year * 365 + Z.quot (year - 1) 4) * 24 * 60 * 60) in
  time ← add_months mon time;
  let time := if (2 <? mon) && (Z.rem year 4 =? 0) then u32 (time + 24 * 60 * 60) else time in
  let time := u32 (time + (mday - 1) * 24 * 60 * 60) in
  let time := u32 (time + hour * 60 * 60) in
  let time := u32 (time + min * 60) in
  mret (u32 (time + sec)).

End Clock.

(** * Specification: the calendar *)

Definition leap (y : Z) : bool := (y mod 4 =? 0) && (negb (y mod 100 =? 0) || (y mod 400 =? 0)).
Definition month_days (y m : Z) : Z := if (m =? 2) && leap y then 29 else days_per_month !!! Z.to_nat (m - 1).

(** Days from 1 January 1970 to 1 January [1970 + k]; and from 1 January to the first of month [S k] of the year [y]. *)
Fixpoint days_to_year (k : nat) : Z :=
  match k with O => 0 | S k => days_to_year k + (if leap (1970 + Z.of_nat k) then 366 else 365) end.
Fixpoint days_to_month (y : Z) (k : nat) : Z :=
  match k with O => 0 | S k => days_to_month y k + month_days y (Z.of_nat (S k)) end.

Definition seconds (y m d h mi s : Z) : Z :=
  (days_to_year (Z.to_nat (y - 1970)) + days_to_month y (Z.to_nat (m - 1)) + (d - 1)) * 86400 + h * 3600 + mi * 60 + s.

Definition bcd (n : Z) : Z := n / 10 * 16 + n mod 10.

(** * Proofs *)

Lemma bcd_roundtrip n : 0 <= n < 100 -> bcd_to_bin (bcd n) = n.
Proof.
  intros Hn. unfold bcd_to_bin, bcd. change 0x0f with (Z.ones 4). rewrite Z.land_ones, Z.shiftr_div_pow2 by lia.
  change (2 ^ 4) with 16. Z.to_euclidean_division_equations. lia.
Qed.

Lemma leap_years k : (k < 100)%nat -> leap (1970 + Z.of_nat k) = ((Z.of_nat k + 2) mod 4 =? 0) /\ days_to_year k = 365 * Z.of_nat k + (Z.of_nat k + 1) / 4.
Proof.
  intros Hk. assert (forallb (fun k => eqb (leap (1970 + Z.of_nat k)) ((Z.of_nat k + 2) mod 4 =? 0) && (days_to_year k =? 365 * Z.of_nat k + (Z.of_nat k + 1) / 4)) (seq 0 100) = true) as H by (by vm_compute).
  rewrite forallb_forall in H. specialize (H k). rewrite andb_true_iff, eqb_true_iff, Z.eqb_eq in H. apply H, in_seq. lia.
Qed.

Lemma months m (P : Z -> Prop) : P 1 -> P 2 -> P 3 -> P 4 -> P 5 -> P 6 -> P 7 -> P 8 -> P 9 -> P 10 -> P 11 -> P 12 -> 1 <= m <= 12 -> P m.
Proof.
  intros. assert (m = 1 \/ m = 2 \/ m = 3 \/ m = 4 \/ m = 5 \/ m = 6 \/ m = 7 \/ m = 8 \/ m = 9 \/ m = 10 \/ m = 11 \/ m = 12) as Hc by lia.
  by repeat destruct Hc as [->|Hc]; subst.
Qed.

Lemma month_days_range y m : 1 <= m <= 12 -> 28 <= month_days y m <= 31.
Proof. unfold month_days. apply (months m (fun m => 28 <= (if (m =? 2) && leap y then 29 else days_per_month !!! Z.to_nat (m - 1)) <= 31)); destruct (leap y); by vm_compute. Qed.

(** The months before [m], in any year and in one that is not a leap year. *)
Lemma months_before y m : 1 <= m <= 12 ->
  days_to_month y (Z.to_nat (m - 1)) = days_to_month 1970 (Z.to_nat (m - 1)) + (if (2 <? m) && leap y then 1 else 0).
Proof.
  apply (months m (fun m => days_to_month y (Z.to_nat (m - 1)) = days_to_month 1970 (Z.to_nat (m - 1)) + (if (2 <? m) && leap y then 1 else 0)));
    match goal with |- context [Z.to_nat ?z] => let n := eval vm_compute in (Z.to_nat z) in change (Z.to_nat z) with n end;
    cbn [days_to_month]; unfold month_days; generalize (leap y); intros []; by vm_compute.
Qed.

Lemma u32_add a b : u32 (u32 a + b) = u32 (a + b).
Proof. apply Zplus_mod_idemp_l. Qed.

Lemma wp_add_months m time k (Q : Z -> nat -> Prop) : 1 <= m <= 12 ->
  Q (u32 (time + 86400 * days_to_month 1970 (Z.to_nat m))) k -> wp (add_months m (u32 time)) k Q.
Proof.
  intros Hm HQ. apply (wp_loop (fun n '(i, t) k' => k' = k /\ 1 <= i <= m + 1 /\ n = Z.to_nat (m + 1 - i) /\
    t = u32 (time + 86400 * days_to_month 1970 (Z.to_nat (i - 1)))) Q) with (n := Z.to_nat m); [|split_and!; [done|lia|lia|f_equal; lia|by rewrite Z.add_0_r]|lia].
  intros n [i t] k' (-> & Hi & -> & ->). destruct (Z.leb_spec i m) as [Hle|Hgt].
  - assert (exists d, days_per_month !! Z.to_nat (i - 1) = Some d) as [d Ed] by (apply lookup_lt_is_Some; cbn; lia).
    rewrite Ed. apply wp_ret. exists (Z.to_nat (m - i)). split; [lia|]. split_and!; [done|lia|lia|lia|].
    replace (Z.to_nat (i + 1 - 1)) with (S (Z.to_nat (i - 1))) by lia. cbn [days_to_month]. unfold month_days. rewrite andb_false_r.
    replace (Z.of_nat (S (Z.to_nat (i - 1))) - 1) with (i - 1) by lia. rewrite (list_lookup_total_correct _ _ _ Ed), u32_add. f_equal. lia.
  - apply wp_ret. by replace (i - 1) with m by lia.
Qed.

(** How many days the result is late. *)
Definition late (y m : Z) : Z :=
  let k := y - 1970 in
  days_per_month !!! Z.to_nat (m - 1) + (Z.quot (k - 1) 4 - (k + 1) / 4) + (if 2 <? m then (if Z.rem k 4 =? 0 then 1 else 0) - (if leap y then 1 else 0) else 0).

Lemma late_range y m : 1970 <= y < 2070 -> 1 <= m <= 12 -> 26 <= late y m <= 32.
Proof.
  intros Hy Hm. unfold late. pose proof (month_days_range 1970 m Hm) as Hr. unfold month_days in Hr. rewrite andb_false_r in Hr.
  destruct (leap_years (Z.to_nat (y - 1970)) ltac:(lia)) as [Hl _]. rewrite Z2Nat.id in Hl by lia. replace (1970 + (y - 1970)) with y in Hl by lia.
  rewrite Hl. destruct (2 <? m), (Z.eqb_spec (Z.rem (y - 1970) 4) 0), (Z.eqb_spec ((y - 1970 + 2) mod 4) 0); Z.to_euclidean_division_equations; lia.
Qed.

(** * Reading the clock *)

Section Reading.
Context (cmos : nat -> Z -> Z).

(** The clock shows a date and time and does not change while it is read. *)
Record shows (y m d h mi s : Z) : Prop := {
  sh_year : 1970 <= y < 2070; sh_month : 1 <= m <= 12; sh_day : 1 <= d <= month_days y m;
  sh_hour : 0 <= h < 24; sh_min : 0 <= mi < 60; sh_sec : 0 <= s < 60;
  sh_regs : forall k, cmos k RTC_REG_SEC = bcd s /\ cmos k RTC_REG_MIN = bcd mi /\ cmos k RTC_REG_HOUR = bcd h /\
    cmos k RTC_REG_MDAY = bcd d /\ cmos k RTC_REG_MON = bcd m /\ cmos k RTC_REG_YEAR = bcd (y mod 100)
}.

Lemma wp_cmos_read k r (Q : Z -> nat -> Prop) : Q (cmos k r) (S k) -> wp (cmos_read cmos r) k Q.
Proof. intros HQ. by apply wp_bind, wp_get, wp_bind, wp_put, wp_ret. Qed.

Lemma wp_read_clock y m d h mi s fuel k (Q : Z * Z * Z * Z * Z * Z -> nat -> Prop) : shows y m d h mi s -> (0 < fuel)%nat ->
  Q (s, mi, h, d, m, y mod 100) (k + 7)%nat -> wp (read_clock cmos fuel) k Q.
Proof.
  intros [Hy Hm Hd Hh Hmi Hs R] Hf HQ. destruct fuel as [|fuel]; [lia|]. apply wp_bind.
  pose proof (month_days_range y m Hm).
  pose proof (Z.mod_pos_bound y 100 ltac:(lia)).
  do 7 (apply wp_bind, wp_cmos_read). destruct (R k) as (-> & _), (R (S k)) as (_ & -> & _), (R (S (S k))) as (_ & _ & -> & _), (R (S (S (S k)))) as (_ & _ & _ & -> & _).
  destruct (R (S (S (S (S k))))) as (_ & _ & _ & _ & -> & _), (R (S (S (S (S (S k)))))) as (_ & _ & _ & _ & _ & ->), (R (S (S (S (S (S (S k))))))) as (-> & _).
  rewrite !bcd_roundtrip, Z.eqb_refl by lia. apply wp_ret, wp_ret. by replace (S (S (S (S (S (S (S k))))))) with (k + 7)%nat by lia.
Qed.

Lemma wp_rtc_get_time y m d h mi s fuel k (Q : Z -> nat -> Prop) : shows y m d h mi s -> (0 < fuel)%nat ->
  Q (seconds y m d h mi s + 86400 * late y m) (k + 7)%nat -> wp (rtc_get_time cmos fuel) k Q.
Proof.
  intros Hsh Hf HQ. apply wp_bind. eapply wp_read_clock; [done|done|]. destruct Hsh as [Hy Hm Hd Hh Hmi Hs _]. cbv zeta iota.
  assert ((if y mod 100 <? 70 then y mod 100 + 100 else y mod 100) - 70 = y - 1970) as ->.
  { destruct (Z.ltb_spec (y mod 100) 70); Z.to_euclidean_division_equations; lia. }
  apply wp_bind, wp_add_months; [done|]. apply wp_ret.
  destruct (leap_years (Z.to_nat (y - 1970)) ltac:(lia)) as [_ Hl]. rewrite Z2Nat.id in Hl by lia.
  pose proof (months_before y m Hm) as Hb. pose proof (month_days_range y m Hm) as Hr. pose proof (late_range y m Hy Hm) as Hlate.
  assert (days_to_month 1970 (Z.to_nat m) = days_to_month 1970 (Z.to_nat (m - 1)) + days_per_month !!! Z.to_nat (m - 1)) as Hs1.
  { replace (Z.to_nat m) with (S (Z.to_nat (m - 1))) by lia. cbn [days_to_month]. unfold month_days. rewrite andb_false_r. do 2 f_equal. lia. }
  assert (0 <= days_to_month 1970 (Z.to_nat (m - 1)) <= 334) as Hd1.
  { apply (months m (fun m => 0 <= days_to_month 1970 (Z.to_nat (m - 1)) <= 334)); by vm_compute. }
  match goal with |- Q ?t _ => assert (t = u32 (seconds y m d h mi s + 86400 * late y m)) as -> end.
  { unfold seconds, late. rewrite Hl, Hb, Hs1. destruct (2 <? m), (Z.rem (y - 1970) 4 =? 0), (leap y); cbn [andb]; repeat (rewrite u32_add; rewrite <-?Z.add_assoc); f_equal; lia. }
  unfold u32. rewrite Z.mod_small; [exact HQ|]. unfold seconds. rewrite Hl, Hb.
  destruct ((2 <? m) && leap y); Z.to_euclidean_division_equations; lia.
Qed.
End Reading.

(** * Theorem *)

(** [rtc_get_time] returns, if the clock does not change while it is read, but between 26 and 32 days late: at every
    date from 1970 to 2069 the result exceeds the number of seconds since the epoch. *)
Theorem rtc_get_time_late cmos y m d h mi s fuel k (Hshows : shows cmos y m d h mi s) (Hfuel : (0 < fuel)%nat) :
  exists t, rtc_get_time cmos fuel k = Ok (t, (k + 7)%nat) /\
    seconds y m d h mi s + 26 * 86400 <= t <= seconds y m d h mi s + 32 * 86400.
Proof.
  assert (wp (rtc_get_time cmos fuel) k (fun t k' => k' = (k + 7)%nat /\ t = seconds y m d h mi s + 86400 * late y m)) as W by (by eapply wp_rtc_get_time).
  apply wp_unfold in W as (t & k' & E & -> & ->). eexists. split; [exact E|]. pose proof (late_range y m (sh_year _ _ _ _ _ _ _ Hshows) (sh_month _ _ _ _ _ _ _ Hshows)). lia.
Qed.

(** 29 February 2016, 12:30:59. *)
Definition demo_cmos (k : nat) (r : Z) : Z :=
  if r =? RTC_REG_SEC then 0x59 else if r =? RTC_REG_MIN then 0x30 else if r =? RTC_REG_HOUR then 0x12
  else if r =? RTC_REG_MDAY then 0x29 else if r =? RTC_REG_MON then 0x02 else 0x16.

Lemma rtc_get_time_late_witness : exists t, rtc_get_time demo_cmos 1 0%nat = Ok (t, 7%nat) /\
  seconds 2016 2 29 12 30 59 = 1456749059 /\ 1456749059 + 26 * 86400 <= t <= 1456749059 + 32 * 86400.
Proof.
  destruct (rtc_get_time_late demo_cmos 2016 2 29 12 30 59 1%nat 0%nat) as (t & E & H); [split; [lia|lia|by vm_compute|lia|lia|lia|done]|lia|].
  assert (seconds 2016 2 29 12 30 59 = 1456749059) as Es by (by vm_compute). rewrite Es in H. exists t. split; [exact E|]. split; [exact Es|exact H].
Defined.
