(* ===== verification/Command.v ===== *)
(** The kernel's command line: [read_command_line], [parse_options], [run_actions] and [locate_block_devices] of
    src/threads/init.c, with [shutdown_configure] of src/devices/shutdown.c.

    [read_command_line] works on memory and leaves an array of C strings; [parse_options] and [run_actions] are on those
    strings, as lists of bytes.  [wp_option_tokens] relates the splitting of an option to the code's [strtok_r] calls.
    The file system actions are those of [Fsutil], the block devices those of [Block], the seed that of [Random]. *)
From Stdlib Require Import String Ascii.
From stdpp Require Import base list numbers gmap fin_maps.
From Stdlib Require Import ZArith Lia.
From S2P Require Import Prelude Strings Vaddr Args CStdlib Stdio Random Block Fsutil.

Open Scope Z_scope.

(** * [read_command_line] *)

Definition LOADER_SIG : Z := 0x7e00 - 2.
Definition LOADER_PARTS : Z := LOADER_SIG - 64.
Definition LOADER_ARGS_LEN : Z := 128.
Definition LOADER_ARGS : Z := LOADER_PARTS - LOADER_ARGS_LEN.
Definition LOADER_ARG_CNT : Z := LOADER_ARGS - 4.

(** [argv] is the address of the static array.  The result is the number of arguments. *)
Definition read_command_line (argv : Z) : M mem Z :=
  cnt ← ptov LOADER_ARG_CNT;
  argc ← load32 cnt;
  let argc := s32 argc in
  p ← ptov LOADER_ARGS;
  let end_ := p + LOADER_ARGS_LEN in
  loop (S (Z.to_nat argc)) (fun '(i, p) =>
    if i <? argc then
      if end_ <=? p then mfail Panic
      else
        store32 (argv + 4 * i) p;;
        n ← strnlen p (end_ - p);
        mret (inl (i + 1, p + n + 1))
    else mret (inr tt)) (0, p);;
  store32 (argv + 4 * argc) NULL;;
  mret argc.

(** * [parse_options] *)

Inductive shutdown_type : Set := SHUTDOWN_NONE | SHUTDOWN_POWER_OFF | SHUTDOWN_REBOOT.

Record boot : Type := mk_boot {
  how : shutdown_type;
  format_filesys : bool;
  filesys_bdev_name : option (list Z);
  scratch_bdev_name : option (list Z);
  thread_mlfqs : bool;
  user_page_limit : Z;
  b_rng : rng
}.

Definition set_how v b := mk_boot v (format_filesys b) (filesys_bdev_name b) (scratch_bdev_name b) (thread_mlfqs b) (user_page_limit b) (b_rng b).
Definition set_format b := mk_boot (how b) true (filesys_bdev_name b) (scratch_bdev_name b) (thread_mlfqs b) (user_page_limit b) (b_rng b).
Definition set_filesys v b := mk_boot (how b) (format_filesys b) v (scratch_bdev_name b) (thread_mlfqs b) (user_page_limit b) (b_rng b).
Definition set_scratch_name v b := mk_boot (how b) (format_filesys b) (filesys_bdev_name b) v (thread_mlfqs b) (user_page_limit b) (b_rng b).
Definition set_mlfqs b := mk_boot (how b) (format_filesys b) (filesys_bdev_name b) (scratch_bdev_name b) true (user_page_limit b) (b_rng b).
Definition set_limit v b := mk_boot (how b) (format_filesys b) (filesys_bdev_name b) (scratch_bdev_name b) (thread_mlfqs b) v (b_rng b).
Definition set_rng v b := mk_boot (how b) (format_filesys b) (filesys_bdev_name b) (scratch_bdev_name b) (thread_mlfqs b) (user_page_limit b) v.

Definition modify_boot (f : boot -> boot) : M boot unit := b ← mget; mput (f b).
Definition on_rng {A} (c : M rng A) : M boot A := fun b =>
  match c (b_rng b) with Ok (a, r) => Ok (a, set_rng r b) | Err e => Err e end.

Definition shutdown_configure (type : shutdown_type) : M boot unit := modify_boot (set_how type).

(** The name and the value of an option: the two calls of [strtok_r]. *)
Definition split_option (arg : list Z) : list Z * option (list Z) :=
  let n := span (fun c => negb (c =? 61)) arg in
  (take n arg, match drop (S n) arg with [] => None | v => Some v end).

(** [atoi] on a string that may be a null pointer. *)
Definition atoi_of {S} (v : option (list Z)) : M S Z :=
  match v with
  | Some v => '(n, _) ← mlift (atoi 16 (put ∅ 16 (v ++ [0]))); mret n
  | None => mfail Panic
  end.

(** One option; [usage], which powers the machine off, is the result [false]. *)
Definition parse_option (name : list Z) (value : option (list Z)) : M boot bool :=
  if bool_decide (name = str "-h") then mret false
  else if bool_decide (name = str "-q") then shutdown_configure SHUTDOWN_POWER_OFF;; mret true
  else if bool_decide (name = str "-r") then shutdown_configure SHUTDOWN_REBOOT;; mret true
  else if bool_decide (name = str "-f") then modify_boot set_format;; mret true
  else if bool_decide (name = str "-filesys") then modify_boot (set_filesys value);; mret true
  else if bool_decide (name = str "-scratch") then modify_boot (set_scratch_name value);; mret true
  else if bool_decide (name = str "-rs") then n ← atoi_of value; on_rng (random_init (u32 n));; mret true
  else if bool_decide (name = str "-mlfqs") then modify_boot set_mlfqs;; mret true
  else if bool_decide (name = str "-ul") then n ← atoi_of value; modify_boot (set_limit (u32 n));; mret true
  else mfail Panic.

(** [now] is the result of [rtc_get_time].  The result [None] means that the machine was powered off. *)
Definition parse_options (now : Z) (argv : list (list Z)) : M boot (option (list (list Z))) :=
  rest ← loop (S (length argv)) (fun argv =>
    match argv with
    | [] => mret (inr (Some []))
    | arg :: rest =>
      if bool_decide (head arg = Some 45) then
        let '(name, value) := split_option arg in
        go ← parse_option name value;
        mret (if go : bool then inl rest else inr None)
      else mret (inr (Some argv))
    end) argv;
  match rest with
  | Some argv => on_rng (random_init now);; mret (Some argv)
  | None => mret None
  end.

(** * [run_actions] *)

Section Actions.
(** [run_task] is [process_execute] and [process_wait]; the rest are the parameters of [Fsutil]. *)
Context (mallocs : nat -> bool) (stack : Z -> list Z) (page : bool) (beyond : Z) (run_task : list Z -> M util unit).

(** The table of actions: name, number of words, function. *)
Definition actions : list (list Z * (nat * (list (list Z) -> M util unit))) :=
  [(str "run", (2%nat, fun argv => run_task (argv !!! 1%nat)));
   (str "ls", (1%nat, fun argv => fsutil_ls mallocs));
   (str "cat", (2%nat, fun argv => fsutil_cat mallocs page (argv !!! 1%nat)));
   (str "rm", (2%nat, fun argv => fsutil_rm mallocs (argv !!! 1%nat)));
   (str "extract", (1%nat, fun argv => fsutil_extract mallocs stack));
   (str "append", (2%nat, fun argv => fsutil_append mallocs beyond (argv !!! 1%nat)))].

Fixpoint find_action (w : list Z) (tbl : list (list Z * (nat * (list (list Z) -> M util unit)))) :=
  match tbl with
  | [] => None
  | (name, a) :: tbl => if bool_decide (w = name) then Some a else find_action w tbl
  end.

(** The loop's body: find the action, check its arguments, run it and advance. *)
Definition run_action (argv : list (list Z)) : M util (list (list Z) + unit) :=
  match argv with
  | [] => mret (inr tt)
  | w :: _ =>
    match find_action w actions with
    | None => mfail Panic
    | Some (argc, function) =>
      if (length argv <? argc)%nat then mfail Panic
      else function argv;; mret (inl (drop argc argv))
    end
  end.

Definition run_actions (argv : list (list Z)) : M util unit := loop (S (length argv)) run_action argv.
End Actions.

(** * [locate_block_devices] *)

(** The loop over the devices in probe order. *)
Definition find_of_type (role : block_type) : M devs Z :=
  s ← mget;
  b ← block_first;
  loop (S (length (all_blocks s))) (fun b =>
    if b =? NULL then mret (inr b)
    else
      x ← get_block b;
      if bool_decide (b_type x = role) then mret (inr b) else b ← block_next b; mret (inl b)) b.

Definition locate_block_device (role : block_type) (name : option (list Z)) : M devs unit :=
  b ← match name with
      | Some name => b ← block_get_by_name name; if b =? NULL then mfail Panic else mret b
      | None => find_of_type role
      end;
  if nonnull b then block_set_role role b else mret tt.

Definition locate_block_devices (b : boot) : M devs unit :=
  locate_block_device BLOCK_FILESYS (filesys_bdev_name b);;
  locate_block_device BLOCK_SCRATCH (scratch_bdev_name b).

(** * The array of arguments *)

Definition pack (args : list (list Z)) : list Z := flat_map (fun a => a ++ [0]) args.

(** Where the arguments start that are packed from address [a] on. *)
Fixpoint starts (a : Z) (args : list (list Z)) : list Z :=
  match args with [] => [] | s :: args => a :: starts (a + Z.of_nat (length s) + 1) args end.

Definition args_base : Z := LOADER_ARGS + PHYS_BASE.

(** The addresses as numbers, for [lia]. *)
Ltac unloader := unfold args_base in *; change LOADER_ARG_CNT with 32058 in *; change LOADER_ARGS with 32062 in *; change LOADER_ARGS_LEN with 128 in *; unpage.

(** The loader has left the arguments [args]; the array is apart from them. *)
Record loaded (m : mem) (argv : Z) (args : list (list Z)) : Prop := {
  ld_cnt : bytes_at m (LOADER_ARG_CNT + PHYS_BASE) (le 4 (Z.of_nat (length args)));
  ld_args : bytes_at m args_base (pack args);
  ld_chars : Forall (Forall (fun c => byte c /\ c ≠ 0)) args;
  ld_fit : Z.of_nat (length (pack args)) <= LOADER_ARGS_LEN;
  ld_cnt_fit : (length args <= 65)%nat;
  ld_argv : mapped m argv (4 * 65);
  ld_apart : 0 < argv /\ (argv + 260 <= LOADER_ARG_CNT + PHYS_BASE \/ args_base + LOADER_ARGS_LEN <= argv)
}.

Lemma starts_app a xs ys : starts a (xs ++ ys) = starts a xs ++ starts (a + Z.of_nat (length (pack xs))) ys.
Proof.
  revert a. induction xs as [|x xs IH]; intros a; cbn [starts app pack flat_map length]; [by rewrite Z.add_0_r|].
  rewrite IH. do 3 f_equal. fold (pack xs). rewrite !length_app. cbn [length]. lia.
Qed.

Lemma length_starts a args : length (starts a args) = length args.
Proof. revert a. induction args as [|x xs IH]; intros a; cbn; [done|]. by rewrite IH. Qed.

Section ReadCommandLine.
Context (m : mem) (argv : Z) (args : list (list Z)) (H : loaded m argv args).

(** The array after the first arguments have been entered. *)
Definition entered (xs : list (list Z)) : mem := put m argv (words32 (starts args_base xs)).

Lemma entered_string xs x ys vs : args = xs ++ x :: ys -> Z.of_nat (length vs) <= 65 ->
  cstr (put m argv (words32 vs)) (args_base + Z.of_nat (length (pack xs))) x.
Proof.
  intros E Hv. destruct H as [_ Ha Hc Hf _ _ Hap]. rewrite E in Ha, Hc, Hf. unfold pack in Ha, Hf. rewrite flat_map_app in Ha, Hf. fold (pack xs) in Ha, Hf.
  cbn [flat_map] in Ha, Hf. fold (pack ys) in Ha, Hf. rewrite !length_app in Hf. cbn [length] in Hf.
  apply bytes_at_app in Ha as [_ Ha]. apply bytes_at_app in Ha as [Ha _]. apply Forall_app in Hc as [_ Hc]. apply Forall_cons in Hc as [Hc _].
  unloader.
  split; [lia|]. split; [|done]. eapply bytes_at_eq; [exact Ha|]. intros i Hi. rewrite lookup_put, decide_False; [done|].
  rewrite length_words32. rewrite length_app in Hi. cbn [length] in Hi. lia.
Qed.

Lemma wp_read_loop (Q : unit -> mem -> Prop) : Q tt (entered args) ->
  wp (loop (S (length args)) (fun '(i, p) =>
    if i <? Z.of_nat (length args) then
      if args_base + LOADER_ARGS_LEN <=? p then mfail Panic
      else
        store32 (argv + 4 * i) p;;
        n ← strnlen p (args_base + LOADER_ARGS_LEN - p);
        mret (inl (i + 1, p + n + 1))
    else mret (inr tt)) (0, args_base)) m Q.
Proof.
  intros HQ. apply (wp_loop (fun n '(i, p) m' => exists xs ys, args = xs ++ ys /\ n = length ys /\ i = Z.of_nat (length xs) /\
    p = args_base + Z.of_nat (length (pack xs)) /\ m' = entered xs) Q) with (n := length args); [| |lia].
  2: { exists [], args. split; [done|]. split; [done|]. split; [done|]. split; [by rewrite Z.add_0_r|done]. }
  intros n [i p] m' (xs & ys & E & -> & -> & -> & ->). destruct ys as [|x ys].
  - rewrite app_nil_r in E. rewrite <-E, Z.ltb_irrefl. by apply wp_ret.
  - pose proof (ld_fit _ _ _ H) as Hfit. pose proof (ld_cnt_fit _ _ _ H) as Hcnt. rewrite E, length_app in Hcnt. cbn [length] in Hcnt.
    assert (length (pack args) = length (pack xs) + (length x + 1) + length (pack ys))%nat as Hlen.
    { rewrite E. unfold pack. rewrite flat_map_app. cbn [flat_map]. rewrite !length_app. cbn [length]. lia. }
    rewrite (proj2 (Z.ltb_lt _ _)) by (rewrite E, length_app; cbn; lia). rewrite (proj2 (Z.leb_gt _ _)) by lia.
    assert (put (entered xs) (argv + 4 * Z.of_nat (length xs)) (le 4 (args_base + Z.of_nat (length (pack xs)))) = entered (xs ++ [x])) as Eput.
    { unfold entered. rewrite starts_app. cbn [starts]. rewrite words32_snoc, put_app, length_words32, length_starts. do 2 f_equal. lia. }
    apply wp_bind, wp_store32; [|rewrite Eput].
    { unfold entered. apply mapped_put. intros j Hj. apply (ld_argv _ _ _ H). lia. }
    apply wp_bind. eapply (wp_strnlen _ _ x); [apply (entered_string xs x ys); [done|rewrite length_starts, length_app; cbn; lia]|lia|].
    apply wp_ret. exists (length ys). split; [cbn; lia|]. exists (xs ++ [x]), ys. split; [by rewrite <-app_assoc|]. split; [done|].
    split; [rewrite length_app; cbn; lia|]. split; [|done]. unfold pack. rewrite flat_map_app. cbn [flat_map]. rewrite !length_app. cbn [length]. unfold pack in *. lia.
Qed.
End ReadCommandLine.

(** The code up to the terminating null pointer. *)
Lemma read_command_line_until m argv args : loaded m argv args ->
  read_command_line argv m = (store32 (argv + 4 * Z.of_nat (length args)) NULL;; mret (Z.of_nat (length args))) (entered m argv args).
Proof.
  intros H. pose proof (ld_cnt_fit _ _ _ H) as Hcnt.
  assert (wp (cnt ← ptov (LOADER_ARG_CNT); load32 cnt) m (fun n m' => n = Z.of_nat (length args) /\ m' = m)) as W1.
  { apply wp_bind, wp_ptov; [unloader; lia|unloader; lia|]. eapply wp_load32; [apply H|lia|done]. }
  assert (wp (ptov LOADER_ARGS) m (fun p m' => p = args_base /\ m' = m)) as W2 by (apply wp_ptov; [unloader; lia|unloader; lia|done]).
  pose proof (wp_read_loop m argv args H (fun _ m' => m' = entered m argv args) eq_refl) as W3.
  apply wp_unfold in W1 as (n & m1 & E1 & -> & ->). apply wp_unfold in W2 as (p & m2 & E2 & -> & ->). apply wp_unfold in W3 as ([] & m3 & E3 & ->).
  unfold read_command_line. unfold mbind at 1, M_bind at 1. unfold mbind at 1, M_bind at 1 in E1. destruct (ptov LOADER_ARG_CNT m) as [[c m0]|]; [|done].
  rewrite (bind_ok _ _ _ _ _ E1). rewrite s32_small by lia. cbv zeta. rewrite (bind_ok _ _ _ _ _ E2). rewrite Nat2Z.id. by rewrite (bind_ok _ _ _ _ _ E3).
Qed.

Lemma wp_read_command_line m argv args (Q : Z -> mem -> Prop) : loaded m argv args -> (length args <= 64)%nat ->
  (let vs := starts args_base args ++ [NULL] in
   (forall x y, args !! x = Some y -> exists p, vs !! x = Some p /\ cstr (put m argv (words32 vs)) p y) ->
   Q (Z.of_nat (length args)) (put m argv (words32 vs))) -> wp (read_command_line argv) m Q.
Proof.
  intros H Hcnt HQ. unfold wp. rewrite (read_command_line_until m argv args H). fold (wp (store32 (argv + 4 * Z.of_nat (length args)) NULL;; mret (Z.of_nat (length args))) (entered m argv args) Q).
  apply wp_bind, wp_store32.
  { unfold entered. apply mapped_put. intros j Hj. apply (ld_argv _ _ _ H). lia. }
  apply wp_ret. cbv zeta in HQ.
  assert (put (entered m argv args) (argv + 4 * Z.of_nat (length args)) (le 4 NULL) = put m argv (words32 (starts args_base args ++ [NULL]))) as ->.
  { unfold entered. rewrite words32_snoc, put_app, length_words32, length_starts. do 2 f_equal. lia. }
  apply HQ. intros i x Hx. pose proof (take_drop_middle _ _ _ Hx) as E. set (xs := take i args) in *. set (ys := drop (S i) args) in *.
  exists (args_base + Z.of_nat (length (pack xs))). split.
  - rewrite <-E, starts_app. cbn [starts]. rewrite <-app_assoc. cbn [app]. assert (length (starts args_base xs) = i) as Hi.
    { rewrite length_starts. apply length_take_le. apply lookup_lt_Some in Hx. lia. }
    by rewrite list_lookup_middle.
  - eapply entered_string; [exact H|by symmetry|]. rewrite length_app, length_starts. cbn. lia.
Qed.

(** * Options *)

(** The two calls of [strtok_r] in [parse_options]; [eq] and [empty] are the addresses of the delimiter strings. *)
Definition option_tokens (arg eq empty : Z) : M mem (Z * Z) :=
  '(name, save) ← strtok_r arg eq 0;
  '(value, _) ← strtok_r NULL empty save;
  mret (name, value).

Lemma span_ext f g s : (forall c, f c = g c) -> span f s = span g s.
Proof. intros E. induction s as [|c s IH]; [done|]. cbn. by rewrite E, IH. Qed.

Lemma span_all s : span (fun c => negb (in_str [] c)) s = length s.
Proof. induction s as [|c s IH]; [done|]. cbn [span in_str existsb negb length]. by f_equal. Qed.

Definition not_eq (c : Z) : bool := negb (c =? 61).

Lemma tok_option m a s : tok_step [61] m a (45 :: s) =
  let n := span not_eq s in
  match drop n s with
  | [] => ((a, a + Z.of_nat (S n)), m)
  | _ => ((a, a + Z.of_nat (S n) + 1), <[a + Z.of_nat (S n) := 0]> m)
  end.
Proof.
  unfold tok_step. change (span (in_str [61]) (45 :: s)) with 0%nat. rewrite drop_0, Z.add_0_r.
  rewrite (span_ext _ not_eq (45 :: s)) by (intros c; unfold in_str, not_eq; cbn [existsb]; by rewrite orb_false_r).
  change (span not_eq (45 :: s)) with (S (span not_eq s)). cbn [drop]. done.
Qed.

Lemma split_dash s : split_option (45 :: s) = let n := span not_eq s in (45 :: take n s, match drop (S n) s with [] => None | v => Some v end).
Proof. done. Qed.

(** They split an option as [split_option] does. *)
Lemma wp_option_tokens m arg eq empty s (Q : Z * Z -> mem -> Prop) :
  cstr m arg (45 :: s) -> cstr m eq [61] -> cstr m empty [] -> (empty < arg \/ arg + Z.of_nat (length s) + 1 < empty) ->
  (forall name value m', cstr m' name (split_option (45 :: s)).1 ->
     match (split_option (45 :: s)).2 with Some v => cstr m' value v | None => value = NULL end -> Q (name, value) m') ->
  wp (option_tokens arg eq empty) m Q.
Proof.
  intros Ha He Hn Hap HQ. pose proof (cstr_pos _ _ _ Ha) as Hpos. apply wp_bind.
  eapply wp_strtok_r; [by rewrite (proj2 (Z.eqb_neq arg NULL)) by (unfold NULL; lia)|done|done|].
  rewrite tok_option. rewrite split_dash in HQ. cbn [fst snd] in HQ.
  cbv zeta in *. destruct (span_split not_eq s) as (E & _ & _). pose proof (span_length not_eq s) as Hl. set (n := span not_eq s) in *.
  destruct (drop n s) as [|c t] eqn:Ed.
  - cbn [fst snd]. apply wp_bind. rewrite app_nil_r in E.
    assert (cstr m (arg + Z.of_nat (S n)) []) as Hend.
    { rewrite <-(app_nil_r (45 :: s)) in Ha. apply cstr_app in Ha. apply (f_equal length) in E. rewrite length_take in E. cbn [length] in Ha. by replace (S n) with (S (length s)) by lia. }
    eapply wp_strtok_r; [done|exact Hend|exact Hn|]. cbn. apply wp_ret. apply HQ.
    + by rewrite <-E.
    + replace (drop (S n) s) with ([] : list Z); [done|]. symmetry. apply drop_ge. apply (f_equal length) in Ed. rewrite length_drop in Ed. cbn in Ed. lia.
  - cbn [fst snd]. apply wp_bind. assert (length s = n + S (length t))%nat as Hs by (rewrite E, length_app, length_take_le by done; cbn; lia).
    assert (cstr (<[arg + Z.of_nat (S n) := 0]> m) arg (45 :: take n s)) as Hw.
    { apply cstr_terminate with (t := c :: t); [|cbn [length]; rewrite length_take_le by done; lia]. cbn [app]. by rewrite <-E. }
    assert (cstr (<[arg + Z.of_nat (S n) := 0]> m) (arg + Z.of_nat (S n) + 1) t) as Ht.
    { rewrite E in Ha. change (45 :: take n s ++ c :: t) with ((45 :: take n s) ++ c :: t) in Ha. apply cstr_app in Ha. cbn [length] in Ha. rewrite length_take_le in Ha by done.
      apply cstr_cons in Ha as (_ & _ & _ & _ & Ha). eapply cstr_frame; [exact Ha|]. intros i Hi. by rewrite lookup_insert_ne by lia. }
    assert (cstr (<[arg + Z.of_nat (S n) := 0]> m) empty []) as Hn' by (eapply cstr_frame; [exact Hn|]; intros i Hi; cbn in Hi; by rewrite lookup_insert_ne by lia).
    eapply wp_strtok_r; [done|exact Ht|exact Hn'|]. unfold tok_step. assert (drop (S n) s = t) as Et by (rewrite <-(Nat.add_1_r n), <-drop_drop, Ed; done). rewrite Et in HQ.
    assert (span (in_str []) t = 0%nat) as -> by (by destruct t). rewrite drop_0, span_all, drop_all, Z.add_0_r. destruct t as [|d t].
    + apply wp_ret. by apply HQ.
    + apply wp_ret. by apply HQ.
Qed.

(** The options as they are meant. *)
Inductive opt : Type := PowerOff | Reboot | Format | Filesys (v : list Z) | Scratch (v : list Z) | Seed (ds : list Z) | Mlfqs | Limit (ds : list Z).

Definition print_opt (o : opt) : list Z :=
  match o with
  | PowerOff => str "-q" | Reboot => str "-r" | Format => str "-f" | Mlfqs => str "-mlfqs"
  | Filesys v => str "-filesys" ++ 61 :: v | Scratch v => str "-scratch" ++ 61 :: v
  | Seed ds => str "-rs" ++ 61 :: ds | Limit ds => str "-ul" ++ 61 :: ds
  end.

Definition number_ok (ds : list Z) : Prop := ds ≠ [] /\ Forall (fun c => isdigit c = true) ds.
Definition opt_ok (o : opt) : Prop :=
  match o with Filesys v | Scratch v => v ≠ [] | Seed ds | Limit ds => number_ok ds | _ => True end.

(** What an option sets, the seed apart. *)
Definition set_opt (b : boot) (o : opt) : boot :=
  match o with
  | PowerOff => set_how SHUTDOWN_POWER_OFF b | Reboot => set_how SHUTDOWN_REBOOT b
  | Format => set_format b | Mlfqs => set_mlfqs b
  | Filesys v => set_filesys (Some v) b | Scratch v => set_scratch_name (Some v) b
  | Seed _ => b
  | Limit ds => set_limit (u32 (s32 (digits_value ds))) b
  end.

Lemma split_value nm v : Forall (fun c => not_eq c = true) nm ->
  split_option (nm ++ 61 :: v) = (nm, match v with [] => None | _ => Some v end).
Proof.
  intros Hn. unfold split_option. fold not_eq. rewrite (span_unique not_eq nm (61 :: v)) by done.
  rewrite take_app_length. f_equal. replace (drop (S (length nm)) (nm ++ 61 :: v)) with v; [by destruct v|].
  symmetry. change (61 :: v) with ([61] ++ v). rewrite app_assoc. apply drop_app_length'. rewrite length_app. cbn. lia.
Qed.

Lemma isdigit_byte c : isdigit c = true -> byte c /\ c ≠ 0.
Proof. unfold isdigit, byte. rewrite andb_true_iff, !Z.leb_le. lia. Qed.

Lemma wp_atoi_of {S} ds (s : S) (Q : Z -> S -> Prop) : number_ok ds -> Q (s32 (digits_value ds)) s -> wp (atoi_of (Some ds)) s Q.
Proof.
  intros [Hne Hds] HQ. unfold atoi_of.
  assert (wp (atoi 16) (put ∅ 16 (ds ++ [0])) (fun n _ => n = s32 (digits_value ds))) as W.
  { apply (wp_atoi _ _ [] SNone ds []); [|done|done|done|by intros _ ?|done]. cbn [app sign_text]. rewrite app_nil_r.
    split; [lia|]. split; [apply put_bytes|]. eapply Forall_impl; [exact Hds|]. apply isdigit_byte. }
  apply wp_unfold in W as (n & m' & E & ->). rewrite E. apply wp_bind. by apply (wp_lift _ _ _ (s32 (digits_value ds), m')).
Qed.

Definition seeded (b : boot) : Prop := length (s_tbl (b_rng b)) = 256%nat.

Lemma wp_on_rng {A} (c : M rng A) b (Q : A -> boot -> Prop) : wp c (b_rng b) (fun a r => Q a (set_rng r b)) -> wp (on_rng c) b Q.
Proof. unfold wp, on_rng. by destruct (c (b_rng b)) as [[a r]|e]. Qed.

Lemma wp_parse_opt o b (Q : bool -> boot -> Prop) : opt_ok o -> seeded b ->
  (forall r, length (s_tbl r) = 256%nat -> Q true (set_rng r (set_opt b o))) ->
  wp (parse_option (split_option (print_opt o)).1 (split_option (print_opt o)).2) b Q.
Proof.
  intros Ho Hb HQ. specialize (HQ (b_rng b) Hb) as HQ0.
  assert (set_rng (b_rng b) (set_opt b o) = set_opt b o) as E by (by destruct b, o). rewrite E in HQ0.
  destruct o as [| | |v|v|ds| |ds]; cbn [print_opt opt_ok set_opt] in *.
  all: try (apply wp_bind, wp_bind, wp_get, wp_put, wp_ret; exact HQ0).
  all: rewrite split_value by (by vm_compute; repeat constructor).
  - destruct v as [|c v]; [done|]. apply wp_bind, wp_bind, wp_get, wp_put, wp_ret. exact HQ0.
  - destruct v as [|c v]; [done|]. apply wp_bind, wp_bind, wp_get, wp_put, wp_ret. exact HQ0.
  - pose proof Ho as [Hne _]. destruct ds as [|c ds]; [done|]. apply wp_bind, wp_atoi_of; [done|]. apply wp_bind, wp_on_rng, wp_random_init; [done|].
    apply wp_ret, HQ. cbn [s_tbl]. by apply table_length, key_tbl_ok.
  - pose proof Ho as [Hne _]. destruct ds as [|c ds]; [done|]. apply wp_bind, wp_atoi_of; [done|]. apply wp_bind, wp_bind, wp_get, wp_put, wp_ret. exact HQ0.
Qed.

(** The state after the options [os]: what they set, with the random numbers seeded by the clock. *)
Definition configured (now : Z) (b : boot) (os : list opt) : boot :=
  set_rng (mk_rng (key_tbl (le 4 now) 256).1 0 0 true) (foldl set_opt b os).

Definition no_dash (rest : list (list Z)) : Prop := match rest with [] => True | arg :: _ => head arg ≠ Some 45 end.

Lemma set_rng_opts b r os : foldl set_opt (set_rng r b) os = set_rng r (foldl set_opt b os).
Proof. revert b. induction os as [|o os IH]; intros b; [done|]. cbn. rewrite <-IH. f_equal. by destruct b, o. Qed.

Lemma print_dash o : exists t, print_opt o = 45 :: t.
Proof. destruct o; by eexists. Qed.

Lemma wp_parse_options now os rest b (Q : option (list (list Z)) -> boot -> Prop) : Forall opt_ok os -> seeded b -> no_dash rest ->
  Q (Some rest) (configured now b os) -> wp (parse_options now (map print_opt os ++ rest)) b Q.
Proof.
  intros Hos Hb Hrest HQ. apply wp_bind.
  apply (wp_loop (fun n argv b' => exists os' os2 r, os = os' ++ os2 /\ argv = map print_opt os2 ++ rest /\ n = length os2 /\
    length (s_tbl r) = 256%nat /\ b' = set_rng r (foldl set_opt b os')) _) with (n := length os).
  - intros n argv b' (os' & os2 & r & -> & -> & -> & Hr & ->). apply Forall_app in Hos as [_ Hos]. destruct os2 as [|o os2]; cbn [map app].
    + assert (forall (k : list Z -> list (list Z) -> M boot (list (list Z) + option (list (list Z)))),
        match rest with [] => mret (inr (Some [])) | arg :: rest' => if bool_decide (head arg = Some 45) then k arg rest' else mret (inr (Some rest)) end = mret (inr (Some rest))) as Hm.
      { intros k. destruct rest as [|arg rest]; [done|]. by rewrite bool_decide_eq_false_2. }
      rewrite (Hm (fun arg rest' => let '(name, value) := split_option arg in go ← parse_option name value; mret (if go : bool then inl rest' else inr None))).
      apply wp_ret, wp_bind, wp_on_rng, wp_random_init; [done|]. apply wp_ret. rewrite app_nil_r in HQ. unfold configured in HQ. by destruct (foldl set_opt b os').
    + apply Forall_cons in Hos as [Ho _]. destruct (print_dash o) as [t Et]. rewrite bool_decide_eq_true_2 by (by rewrite Et).
      destruct (split_option (print_opt o)) as [name value] eqn:Es. apply wp_bind.
      pose proof (wp_parse_opt o (set_rng r (foldl set_opt b os'))) as W. rewrite Es in W. cbn [fst snd] in W. apply W; [done|done|]. clear W.
      intros r' Hr'. apply wp_ret. exists (length os2). split; [cbn; lia|]. exists (os' ++ [o]), os2, r'. rewrite <-app_assoc. split; [done|].
      split; [done|]. split; [done|]. split; [done|]. rewrite foldl_app. cbn. by destruct (foldl set_opt b os'), o.
  - exists [], os, (b_rng b). split; [done|]. split; [done|]. split; [done|]. split; [done|]. by destruct b.
  - rewrite length_app, length_map. lia.
Qed.

(** * Actions *)

Section RunActions.
Context (mallocs : nat -> bool) (stack : Z -> list Z) (page : bool) (beyond : Z) (run_task : list Z -> M util unit).

Inductive action : Type := Run (t : list Z) | Ls | Cat (f : list Z) | Rm (f : list Z) | Extract_ | Append (f : list Z).

Definition words_of (a : action) : list (list Z) :=
  match a with
  | Run t => [str "run"; t] | Ls => [str "ls"] | Cat f => [str "cat"; f] | Rm f => [str "rm"; f]
  | Extract_ => [str "extract"] | Append f => [str "append"; f]
  end.

Definition exec (a : action) : M util unit :=
  match a with
  | Run t => run_task t | Ls => fsutil_ls mallocs | Cat f => fsutil_cat mallocs page f | Rm f => fsutil_rm mallocs f
  | Extract_ => fsutil_extract mallocs stack | Append f => fsutil_append mallocs beyond f
  end.

(** The first word is no action, or the last word of an action is missing. *)
Definition malformed (argv : list (list Z)) : Prop :=
  match argv with
  | [] => False
  | w :: _ =>
    match find_action w (actions mallocs stack page beyond run_task) with None => True | Some (argc, _) => (length argv < argc)%nat end
  end.

Abbreviation step := (run_action mallocs stack page beyond run_task).

Lemma run_action_step a argv u : step (words_of a ++ argv) u = (exec a;; mret (inl argv)) u.
Proof. by destruct a. Qed.

Lemma run_actions_from acts tail fuel u : (length (flat_map words_of acts ++ tail) <= fuel)%nat -> tail = [] \/ malformed tail ->
  loop (S fuel) step (flat_map words_of acts ++ tail) u = (for_each exec acts;; if bool_decide (tail = []) then mret tt else mfail Panic) u.
Proof.
  revert fuel u. induction acts as [|a acts IH]; intros fuel u Hf Ht.
  - cbn [flat_map app]. destruct Ht as [->|Ht]; [done|]. destruct tail as [|w tail]; [done|]. cbn [malformed loop] in *.
    unfold mbind, M_bind. unfold run_action. destruct (find_action w _) as [[argc f]|]; [|done]. by rewrite (proj2 (Nat.ltb_lt _ _)) by done.
  - cbn [flat_map for_each]. rewrite <-app_assoc. assert (exists n, fuel = S n /\ length (flat_map words_of acts ++ tail) <= n)%nat as (n & -> & Hn).
    { exists (fuel - 1)%nat. cbn [flat_map] in Hf. rewrite !length_app in *. destruct a; cbn in Hf; lia. }
    change (loop (S (S n)) step (words_of a ++ flat_map words_of acts ++ tail) u) with
      ((r ← step (words_of a ++ flat_map words_of acts ++ tail); match r with inl a' => loop (S n) step a' | inr b => mret b end) u).
    unfold mbind at 1, M_bind at 1. rewrite run_action_step. unfold mbind, M_bind, mret, M_ret. destruct (exec a u) as [[[] u']|e]; [|done]. by apply IH.
Qed.
End RunActions.

(** * Roles of block devices *)

Section Locate.
Context (s : devs) (H : devs_ok s).

(** The device [b] may be given the role: it has the name, or, without a name, the role's type. *)
Definition suits (role : block_type) (name : option (list Z)) (b : Z) : bool :=
  match block_at s !! b with
  | Some x => match name with Some nm => bool_decide (nm = b_name x) | None => bool_decide (b_type x = role) end
  | None => false
  end.

(** The first such device in probe order. *)
Fixpoint first_of (p : Z -> bool) (l : list Z) : option Z := match l with [] => None | b :: l => if p b then Some b else first_of p l end.

Definition with_role (role : block_type) (b : Z) : devs :=
  mk_devs (all_blocks s) (block_at s) (<[block_type_no role := b]> (block_by_role s)) (disks s) (next_block s) (tries s) (announced s).

Lemma registered b : b ∈ all_blocks s -> exists x, block_at s !! b = Some x /\ b ≠ NULL.
Proof.
  intros Hb. apply (do_list _ H) in Hb as Hx. destruct Hx as [x Ex]. exists x. split; [done|]. pose proof (do_addr _ H b). unfold NULL. rewrite Ex in H0.
  assert (0 < b < next_block s) by eauto. lia.
Qed.

Lemma find_by_name_first nm l : (forall b, b ∈ l -> b ∈ all_blocks s) ->
  find_by_name nm l s = Ok (default NULL (first_of (suits BLOCK_RAW (Some nm)) l), s).
Proof.
  induction l as [|b l IH]; intros Hl; [done|]. destruct (registered b) as (x & Ex & _); [apply Hl; left|]. cbn [find_by_name first_of].
  unfold suits at 1. rewrite Ex. unfold get_block, mbind, M_bind, mget. rewrite Ex. cbn. destruct (bool_decide (nm = b_name x)); [done|]. apply IH. intros b' Hb'. apply Hl. by right.
Qed.

Lemma next_in xs b ys (Q : Z -> devs -> Prop) : all_blocks s = xs ++ b :: ys -> Q (default NULL (head ys)) s -> wp (block_next b) s Q.
Proof.
  intros E HQ. apply wp_bind, wp_get. assert (list_find (eq b) (all_blocks s) = Some (length xs, b)) as ->.
  { apply list_find_Some. rewrite E. split; [by apply list_lookup_middle|]. split; [done|]. intros j y Hj Hlt <-.
    pose proof (do_nodup _ H) as Hn. rewrite E in Hn. apply NoDup_app in Hn as (_ & Hn & _). rewrite lookup_app_l in Hj by done.
    apply (Hn b); [by apply list_elem_of_lookup_2 with j|left]. }
  apply wp_ret. rewrite E. replace (xs ++ b :: ys) with ((xs ++ [b]) ++ ys) by (by rewrite <-app_assoc).
  rewrite lookup_app_r by (rewrite length_app; cbn; lia). rewrite length_app. cbn. replace (S (length xs) - (length xs + 1))%nat with 0%nat by lia. by destruct ys.
Qed.

Lemma wp_find_of_type role (Q : Z -> devs -> Prop) : Q (default NULL (first_of (suits role None) (all_blocks s))) s -> wp (find_of_type role) s Q.
Proof.
  intros HQ. apply wp_bind, wp_get, wp_bind, wp_bind, wp_get, wp_ret.
  apply (wp_loop (fun n b s' => s' = s /\ exists xs ys, all_blocks s = xs ++ ys /\ n = length ys /\ b = default NULL (head ys) /\
    first_of (suits role None) (all_blocks s) = first_of (suits role None) ys) Q) with (n := length (all_blocks s)); [|split; [done|]; by exists [], (all_blocks s)|lia].
  intros n b s' (-> & xs & ys & E & -> & -> & Ef). destruct ys as [|b ys]; cbn [head default from_option].
  - rewrite Z.eqb_refl. apply wp_ret. by rewrite Ef in HQ.
  - destruct (registered b) as (x & Ex & Hb); [rewrite E; apply elem_of_app; right; left|]. rewrite (proj2 (Z.eqb_neq _ _)) by done.
    apply wp_bind. eapply wp_get_block; [done|]. cbn [first_of] in Ef. unfold suits at 2 in Ef. rewrite Ex in Ef. destruct (bool_decide (b_type x = role)).
    + apply wp_ret. by rewrite Ef in HQ.
    + apply wp_bind. eapply next_in; [done|]. apply wp_ret. exists (length ys). split; [cbn; lia|]. split; [done|]. exists (xs ++ [b]), ys.
      by rewrite <-app_assoc.
Qed.

Lemma locate_first role name : (block_type_no role < 4)%nat ->
  locate_block_device role name s =
    match first_of (suits role name) (all_blocks s) with
    | Some b => Ok (tt, with_role role b)
    | None => match name with Some _ => Err Panic | None => Ok (tt, s) end
    end.
Proof.
  intros Hr. assert (forall p l b, first_of p l = Some b -> b ∈ l) as Hin.
  { intros p l b. induction l as [|c l IH]; [done|]. cbn. destruct (p c); [intros [= ->]; left|intros Hc; right; auto]. }
  assert (forall b, b ≠ NULL -> (if nonnull b then block_set_role role b else mret tt) s = Ok (tt, with_role role b)) as Hset.
  { intros b Hb. rewrite nonnull_true by done. unfold block_set_role. by rewrite (proj2 (Nat.ltb_lt _ _)) by done. }
  destruct name as [nm|].
  - assert (locate_block_device role (Some nm) s = match find_by_name nm (all_blocks s) s with
      | Ok (b, s') => (if b =? NULL then mfail Panic else if nonnull b then block_set_role role b else mret tt) s' | Err e => Err e end) as ->.
    { unfold locate_block_device, block_get_by_name, mbind, M_bind, mget. destruct (find_by_name nm (all_blocks s) s) as [[b s']|]; [|done]. by destruct (b =? NULL). }
    rewrite find_by_name_first by done. change (suits BLOCK_RAW (Some nm)) with (suits role (Some nm)).
    destruct (first_of (suits role (Some nm)) (all_blocks s)) as [b|] eqn:E; cbn [default from_option id]; [|done].
    destruct (registered b (Hin _ _ _ E)) as (x & _ & Hb). rewrite (proj2 (Z.eqb_neq _ _)) by done. by apply Hset.
  - assert (wp (find_of_type role) s (fun b s' => s' = s /\ b = default NULL (first_of (suits role None) (all_blocks s)))) as W by (by apply wp_find_of_type).
    apply wp_unfold in W as (b & s' & E & -> & ->). unfold locate_block_device. rewrite (bind_ok _ _ _ _ _ E).
    destruct (first_of (suits role None) (all_blocks s)) as [b|] eqn:Eb; cbn [default from_option id]; [|done].
    destruct (registered b (Hin _ _ _ Eb)) as (x & _ & Hb). by apply Hset.
Qed.
End Locate.

(** * Theorems *)

(** where the loader has left at most 64 arguments, [read_command_line] returns their number and leaves in [argv] a
    pointer to each of them, as a C string, with a null pointer after the last. *)
Theorem read_command_line_correct m argv args (H : loaded m argv args) (Hcnt : (length args <= 64)%nat) :
  exists vs, read_command_line argv m = Ok (Z.of_nat (length args), put m argv (words32 (vs ++ [NULL]))) /\ length vs = length args /\
    forall i x, args !! i = Some x -> exists p, vs !! i = Some p /\ cstr (put m argv (words32 (vs ++ [NULL]))) p x.
Proof.
  exists (starts args_base args). assert (wp (read_command_line argv) m (fun n m' => n = Z.of_nat (length args) /\ m' = put m argv (words32 (starts args_base args ++ [NULL])) /\
    forall i x, args !! i = Some x -> exists p, starts args_base args !! i = Some p /\ cstr m' p x)) as W.
  { apply wp_read_command_line with (args := args); [done|done|]. intros vs Hvs. split; [done|]. split; [done|]. intros i x Hx. destruct (Hvs i x Hx) as (p & Hp & Hs).
    exists p. split; [|done]. unfold vs in Hp. rewrite lookup_app_l in Hp; [done|]. rewrite length_starts. by apply lookup_lt_Some in Hx. }
  apply wp_unfold in W as (n & m' & E & -> & -> & Hs). split; [done|]. split; [apply length_starts|done].
Qed.

(** 65 arguments fit into the loader's 128 bytes, but the null pointer after them does not fit into [argv]. *)
Theorem read_command_line_overflow m argv args (H : loaded m argv args) (Hcnt : length args = 65%nat) (Hend : m !! (argv + 260) = None) :
  read_command_line argv m = Err Fault.
Proof.
  rewrite (read_command_line_until m argv args H), Hcnt. unfold store32. cbn [store_le]. unfold store8.
  assert (entered m argv args !! (argv + 4 * Z.of_nat 65) = None) as E; [|unfold mbind, M_bind; by rewrite E].
  unfold entered. rewrite lookup_put, length_words32, length_starts, decide_False by lia. done.
Qed.


(** the option -rs=SEED has no effect, because [random_init] with the clock's time follows it: the state after
    parsing is the same without it. *)
Theorem seed_option_ignored now os1 ds os2 rest b (Hos : Forall opt_ok (os1 ++ Seed ds :: os2)) (Hb : seeded b) (Hrest : no_dash rest) :
  exists r, parse_options now (map print_opt (os1 ++ Seed ds :: os2) ++ rest) b = Ok r /\ parse_options now (map print_opt (os1 ++ os2) ++ rest) b = Ok r.
Proof.
  exists (Some rest, configured now b (os1 ++ os2)).
  assert (forall os, Forall opt_ok os -> configured now b os = configured now b (os1 ++ os2) ->
    parse_options now (map print_opt os ++ rest) b = Ok (Some rest, configured now b (os1 ++ os2))) as Hp.
  { intros os Ho <-. assert (wp (parse_options now (map print_opt os ++ rest)) b (fun r b' => r = Some rest /\ b' = configured now b os)) as W by (by apply wp_parse_options).
    by apply wp_unfold in W as (r & b' & E & -> & ->). }
  split; apply Hp; [done| | |done].
  - unfold configured. by rewrite !foldl_app.
  - apply Forall_app in Hos as [H1 H2]. apply Forall_cons in H2 as [_ H2]. by apply Forall_app.
Qed.

(** [run_actions] runs the actions that the words spell, in order, each with its argument; at words that spell no
    action, or an action without its argument, the kernel panics, after the actions before them. *)
Theorem run_actions_correct mallocs stack page beyond run_task acts tail u
    (Htail : tail = [] \/ malformed mallocs stack page beyond run_task tail) :
  run_actions mallocs stack page beyond run_task (flat_map words_of acts ++ tail) u =
    (for_each (exec mallocs stack page beyond run_task) acts;; if bool_decide (tail = []) then mret tt else mfail Panic) u.
Proof. by apply run_actions_from. Qed.

(** the role goes to the first device in probe order that has the given name, or, if no name is given, the role's
    type.  Without such a device the kernel panics if a name was given, and leaves the role as it was if not. *)
Theorem locate_block_device_correct s role name (H : devs_ok s) (Hrole : (block_type_no role < 4)%nat) :
  locate_block_device role name s =
    match first_of (suits s role name) (all_blocks s) with
    | Some b => Ok (tt, with_role s role b)
    | None => match name with Some _ => Err Panic | None => Ok (tt, s) end
    end.
Proof. by apply locate_first. Qed.

(** * Witnesses *)

Definition demo_line (args : list (list Z)) : mem :=
  put (put ∅ (LOADER_ARG_CNT + PHYS_BASE) (le 4 (Z.of_nat (length args)) ++ pack args ++ replicate (128 - length (pack args)) 0)) 0x1000 (replicate 260 0).

Lemma demo_loaded args : Forall (Forall (fun c => byte c /\ c ≠ 0)) args -> Z.of_nat (length (pack args)) <= 128 -> (length args <= 65)%nat ->
  loaded (demo_line args) 0x1000 args.
Proof.
  intros Hc Hf Hn. assert (bytes_at (demo_line args) (LOADER_ARG_CNT + PHYS_BASE) (le 4 (Z.of_nat (length args)) ++ pack args ++ replicate (128 - length (pack args)) 0)) as Hb.
  { apply put_frame; [apply put_bytes|]. rewrite length_replicate. unloader. lia. }
  apply bytes_at_app in Hb as [Hb1 Hb2]. apply bytes_at_app in Hb2 as [Hb2 _]. rewrite length_le in Hb2.
  split; [done|exact Hb2|done|done|done| |unloader; lia].
  intros i Hi. unfold demo_line. rewrite lookup_put, length_replicate, decide_True by lia. apply lookup_lt_is_Some. rewrite length_replicate. lia.
Qed.

Lemma read_command_line_correct_witness : exists vs,
  read_command_line 0x1000 (demo_line [str "-q"; str "ls"]) = Ok (2, put (demo_line [str "-q"; str "ls"]) 0x1000 (words32 (vs ++ [NULL]))) /\
  forall p, vs !! 1%nat = Some p -> cstr (put (demo_line [str "-q"; str "ls"]) 0x1000 (words32 (vs ++ [NULL]))) p (str "ls").
Proof.
  destruct (read_command_line_correct (demo_line [str "-q"; str "ls"]) 0x1000 [str "-q"; str "ls"]) as (vs & E & _ & Hs).
  - apply demo_loaded; [repeat constructor; by vm_compute|by vm_compute|cbn; lia].
  - cbn. lia.
  - exists vs. split; [exact E|]. intros p Hp. destruct (Hs 1%nat (str "ls") eq_refl) as (p' & Hp' & H). rewrite Hp in Hp'. by injection Hp' as <-.
Defined.

Lemma read_command_line_overflow_witness : read_command_line 0x1000 (demo_line (replicate 65 [])) = Err Fault.
Proof.
  apply (read_command_line_overflow (demo_line (replicate 65 [])) 0x1000 (replicate 65 [])).
  - apply demo_loaded; [by apply Forall_replicate|by vm_compute|done].
  - done.
  - by vm_compute.
Defined.

Definition demo_boot : boot := mk_boot SHUTDOWN_NONE false None None false (2 ^ 32 - 1) (mk_rng (replicate 256 0) 0 0 false).
Definition demo_opts : list opt := [PowerOff; Filesys (str "hdb1"); Seed (str "42"); Limit (str "100")].

Lemma demo_opts_ok : Forall opt_ok demo_opts.
Proof. repeat constructor; by vm_compute. Qed.


Lemma seed_option_ignored_witness : exists r,
  parse_options 7 [str "-q"; str "-rs=42"; str "ls"] demo_boot = Ok r /\ parse_options 7 [str "-q"; str "ls"] demo_boot = Ok r.
Proof. apply (seed_option_ignored 7 [PowerOff] (str "42") [] [str "ls"] demo_boot); [repeat constructor; by vm_compute|done|by vm_compute]. Defined.

Lemma locate_block_device_correct_witness :
  locate_block_device BLOCK_FILESYS (Some (str "hda")) (demo_devs []) = Ok (tt, with_role (demo_devs []) BLOCK_FILESYS 1) /\
  locate_block_device BLOCK_FILESYS (Some (str "hdb")) (demo_devs []) = Err Panic /\
  locate_block_device BLOCK_FILESYS None (demo_devs []) = Ok (tt, demo_devs []).
Proof.
  split; [|split]; (etransitivity; [apply locate_block_device_correct; [apply demo_devs_ok|cbn; lia]|by vm_compute]).
Defined.

(** A program that says its command line; "cat" lacks its argument. *)
Lemma run_actions_correct_witness :
  run_actions (fun _ => true) (fun _ => []) true 0 (fun t => say (Name t)) [str "run"; str "echo x"; str "cat"] demo_util = Err Panic /\
  run_actions (fun _ => true) (fun _ => []) true 0 (fun t => say (Name t)) [str "run"; str "echo x"] demo_util = say (Name (str "echo x")) demo_util.
Proof.
  split.
  - etransitivity; [apply (run_actions_correct (fun _ => true) (fun _ => []) true 0 (fun t => say (Name t)) [Run (str "echo x")] [str "cat"] demo_util); right; vm_compute; lia|done].
  - etransitivity; [apply (run_actions_correct (fun _ => true) (fun _ => []) true 0 (fun t => say (Name t)) [Run (str "echo x")] [] demo_util); by left|done].
Defined.
