(* ===== verification/Ide.v ===== *)
(** src/devices/ide.c: the driver of ATA disks, for one channel.

    The disks are a model of the ATA commands that the driver uses: registers, the two drives, and a command in progress.
    [delays k] is how long the [k]-th command takes, and [lag k] how much time passes before the [k]-th access to a port,
    in nanoseconds; a completed command raises an interrupt, which is delivered before the next access.  The theorems hold
    for every [lag] and for delays of less than the 30 seconds that the driver waits.

    The driver implements the disks of [Block]: arrays of sectors. *)
From stdpp Require Import base list numbers.
From Stdlib Require Import ZArith Lia.
From S2P Require Import Prelude Strings CStdlib.

Open Scope Z_scope.

(** * Disks *)

Record drive : Type := mk_drive { identity : list Z; sectors : list (list Z) }.

(** What follows a busy period: data to be read, a request for the data to write, the end of a write, or an error. *)
Inductive after : Type := ToIn (bs : list Z) | ToOut (lba : Z) | ToDone (lba : Z) (bs : list Z) | ToError | ToReset.
Inductive phase : Type := Idle | Busy (rem : Z) (next : after) | DataIn (bs : list Z) | DataOut (lba : Z).

(** The registers by their offset from [reg_base].  [irq] is a request that the interrupt controller has latched and not
    yet delivered.  Sectors and identities are transferred whole: 256 words of two bytes. *)
Record ata : Type := mk_ata { ph : phase; regs : Z -> Z; drives : list (option drive); irq : bool; cmds : nat; accesses : nat }.

Definition set_reg (o v : Z) (R : Z -> Z) : Z -> Z := fun o' => if o =? o' then v else R o'.
Definition set_ph (p : phase) (h : ata) : ata := mk_ata p (regs h) (drives h) (irq h) (cmds h) (accesses h).
Definition set_irq (b : bool) (h : ata) : ata := mk_ata (ph h) (regs h) (drives h) b (cmds h) (accesses h).

Definition dev_of (R : Z -> Z) : nat := if Z.testbit (R 6) 4 then 1%nat else 0%nat.
Definition lba_of (R : Z -> Z) : Z := R 3 + 256 * R 4 + 65536 * R 5 + 16777216 * Z.land (R 6) 15.
Definition selected (h : ata) : option drive := mjoin (drives h !! dev_of (regs h)).

Definition store_sector (D : list (option drive)) (dev : nat) (lba : Z) (bs : list Z) : list (option drive) :=
  match mjoin (D !! dev) with
  | Some d => <[dev := Some (mk_drive (identity d) (<[Z.to_nat lba := bs]> (sectors d)))]> D
  | None => D
  end.

(** The registers after a reset. *)
Definition signature (o : Z) : Z := if (o =? 1) || (o =? 2) || (o =? 3) then 1 else 0.

Definition complete (a : after) (h : ata) : ata :=
  match a with
  | ToIn bs => set_irq true (set_ph (DataIn bs) h)
  | ToOut lba => set_ph (DataOut lba) h
  | ToDone lba bs => set_irq true (mk_ata Idle (regs h) (store_sector (drives h) (dev_of (regs h)) lba bs) (irq h) (cmds h) (accesses h))
  | ToError => set_irq true (set_ph Idle h)
  | ToReset => mk_ata Idle signature (drives h) (irq h) (cmds h) (accesses h)
  end.

(** [t] nanoseconds pass. *)
Definition advance (t : Z) (h : ata) : ata :=
  match ph h with Busy rem next => if t <? rem then set_ph (Busy (rem - t) next) h else complete next h | _ => h end.

Definition status (h : ata) : Z :=
  match selected h with
  | None => 0xff
  | Some _ => match ph h with Busy _ _ => 0x80 | Idle => 0x40 | _ => 0x48 end
  end.

Definition read_reg (o : Z) (h : ata) : Z :=
  if (o =? 7) || (o =? 0x206) then status h else match selected h with Some _ => regs h o | None => 0xff end.

(** * State of the driver *)

Record ide : Type := mk_ide { hw : ata; completion_wait : Z; expecting_interrupt : bool; held : bool; is_ata : list bool; found : list (nat * Z * list Z * list Z); surprises : nat }.

Definition set_hw (h : ata) (s : ide) : ide := mk_ide h (completion_wait s) (expecting_interrupt s) (held s) (is_ata s) (found s) (surprises s).

Section Driver.
Context (delays lag : nat -> Z).

(** A command [v] from the idle state. *)
Definition start (v : Z) (h : ata) : ata :=
  match ph h, selected h with
  | Idle, Some d =>
    let go a := mk_ata (Busy (delays (cmds h)) a) (regs h) (drives h) (irq h) (S (cmds h)) (accesses h) in
    let lba := lba_of (regs h) in
    if v =? 0xec then go (ToIn (identity d))
    else if negb (Z.testbit (regs h 6) 6) then go ToError
    else if v =? 0x20 then match sectors d !! Z.to_nat lba with Some bs => go (ToIn bs) | None => go ToError end
    else if v =? 0x30 then (if lba <? Z.of_nat (length (sectors d)) then go (ToOut lba) else go ToError)
    else go ToError
  | _, _ => h
  end.

Definition write_reg (o v : Z) (h : ata) : ata :=
  if o =? 0x206 then
    if Z.testbit v 2 then mk_ata (Busy (delays (cmds h)) ToReset) (regs h) (drives h) false (S (cmds h)) (accesses h) else h
  else match ph h with
       | Busy _ _ => h
       | _ => if o =? 7 then start v h else mk_ata (ph h) (set_reg o v (regs h)) (drives h) (irq h) (cmds h) (accesses h)
       end.

(** * Operations *)

(** The interrupt of this channel.  Reading the status register, which acknowledges it, has no other effect here. *)
Definition interrupt_handler : M ide unit :=
  s ← mget;
  if expecting_interrupt s then
    mput (mk_ide (hw s) (completion_wait s + 1) (expecting_interrupt s) (held s) (is_ata s) (found s) (surprises s))
  else mput (mk_ide (hw s) (completion_wait s) (expecting_interrupt s) (held s) (is_ata s) (found s) (S (surprises s))).

(** [t] nanoseconds pass, and an interrupt is delivered if one was raised. *)
Definition pass (t : Z) : M ide unit :=
  s ← mget;
  let h := advance t (hw s) in
  mput (set_hw (set_irq false h) s);;
  if irq h then interrupt_handler else mret tt.

(** The next access to a port. *)
Definition tick : M ide unit :=
  s ← mget;
  let h := hw s in
  mput (set_hw (mk_ata (ph h) (regs h) (drives h) (irq h) (cmds h) (S (accesses h))) s);;
  pass (lag (accesses h)).

Definition inb (o : Z) : M ide Z := tick;; s ← mget; mret (read_reg o (hw s)).
Definition outb (o v : Z) : M ide unit := tick;; s ← mget; mput (set_hw (write_reg o (u8 v) (hw s)) s).

Definition input_sector : M ide (list Z) :=
  tick;;
  s ← mget;
  match ph (hw s) with
  | DataIn bs => mput (set_hw (set_ph Idle (hw s)) s);; mret bs
  | _ => mfail Fault
  end.
Definition output_sector (bs : list Z) : M ide unit :=
  tick;;
  s ← mget;
  match ph (hw s) with
  | DataOut lba =>
    let h := hw s in
    mput (set_hw (mk_ata (Busy (delays (cmds h)) (ToDone lba bs)) (regs h) (drives h) (irq h) (S (cmds h)) (accesses h)) s)
  | _ => mfail Fault
  end.

Definition timer_msleep (ms : Z) : M ide unit := pass (ms * 1000000).
Definition timer_usleep (us : Z) : M ide unit := pass (us * 1000).
Definition timer_nsleep (ns : Z) : M ide unit := pass ns.

Definition reg_error : Z := 1.
Definition reg_nsect : Z := 2.
Definition reg_lbal : Z := 3.
Definition reg_lbam : Z := 4.
Definition reg_lbah : Z := 5.
Definition reg_device : Z := 6.
Definition reg_status : Z := 7.
Definition reg_command : Z := reg_status.
Definition reg_ctl : Z := 0x206.
Definition reg_alt_status : Z := reg_ctl.
Definition STA_BSY : Z := 0x80.
Definition STA_DRDY : Z := 0x40.
Definition STA_DRQ : Z := 0x08.
Definition CTL_SRST : Z := 0x04.
Definition DEV_MBS : Z := 0xa0.
Definition DEV_LBA : Z := 0x40.
Definition DEV_DEV : Z := 0x10.
Definition CMD_IDENTIFY_DEVICE : Z := 0xec.
Definition CMD_READ_SECTOR_RETRY : Z := 0x20.
Definition CMD_WRITE_SECTOR_RETRY : Z := 0x30.

Definition wait_until_idle : M ide unit :=
  loop 1001 (fun i =>
    if i <? 1000 then
      st ← inb reg_status;
      if Z.land st (Z.lor STA_BSY STA_DRQ) =? 0 then mret (inr tt) else timer_usleep 10;; mret (inl (i + 1))
    else mret (inr tt)) 0.

Definition wait_while_busy : M ide bool :=
  loop 3001 (fun i =>
    if i <? 3000 then
      st ← inb reg_alt_status;
      if Z.land st STA_BSY =? 0 then st ← inb reg_alt_status; mret (inr (negb (Z.land st STA_DRQ =? 0)))
      else timer_msleep 10;; mret (inl (i + 1))
    else mret (inr false)) 0.

Definition select_device (dev_no : nat) : M ide unit :=
  outb reg_device (if (dev_no =? 1)%nat then Z.lor DEV_MBS DEV_DEV else DEV_MBS);;
  inb reg_alt_status;;
  timer_nsleep 400.

Definition select_device_wait (dev_no : nat) : M ide unit := wait_until_idle;; select_device dev_no;; wait_until_idle.

Definition select_sector (dev_no : nat) (sec_no : Z) : M ide unit :=
  ASSERT (sec_no <? 2 ^ 28);;
  select_device_wait dev_no;;
  outb reg_nsect 1;;
  outb reg_lbal sec_no;;
  outb reg_lbam (Z.shiftr sec_no 8);;
  outb reg_lbah (Z.shiftr sec_no 16);;
  outb reg_device (Z.lor (Z.lor (Z.lor DEV_MBS DEV_LBA) (if (dev_no =? 1)%nat then DEV_DEV else 0)) (Z.shiftr sec_no 24)).

(** Interrupts are on throughout, as the assertion at its start demands. *)
Definition issue_pio_command (command : Z) : M ide unit :=
  s ← mget;
  mput (mk_ide (hw s) (completion_wait s) true (held s) (is_ata s) (found s) (surprises s));;
  outb reg_command command.

(** [sema_down (&completion_wait)]: a thread that must wait sleeps until the command in progress is complete; without
    one it would wait for ever. *)
Definition completion_down : M ide unit :=
  tick;;
  s ← mget;
  (if completion_wait s =? 0 then match ph (hw s) with Busy rem _ => pass rem | _ => mfail Exhausted end else mret tt);;
  s ← mget;
  if completion_wait s =? 0 then mfail Exhausted
  else mput (mk_ide (hw s) (completion_wait s - 1) (expecting_interrupt s) (held s) (is_ata s) (found s) (surprises s)).

Definition lock_acquire : M ide unit :=
  s ← mget; ASSERT (negb (held s));; mput (mk_ide (hw s) (completion_wait s) (expecting_interrupt s) true (is_ata s) (found s) (surprises s)).
Definition lock_release : M ide unit :=
  s ← mget; ASSERT (held s);; mput (mk_ide (hw s) (completion_wait s) (expecting_interrupt s) false (is_ata s) (found s) (surprises s)).

Definition ide_read (dev_no : nat) (sec_no : Z) : M ide (list Z) :=
  lock_acquire;;
  select_sector dev_no sec_no;;
  issue_pio_command CMD_READ_SECTOR_RETRY;;
  completion_down;;
  ok ← wait_while_busy;
  ASSERT ok;;
  bs ← input_sector;
  lock_release;;
  mret bs.

Definition ide_write (dev_no : nat) (sec_no : Z) (buffer : list Z) : M ide unit :=
  lock_acquire;;
  select_sector dev_no sec_no;;
  issue_pio_command CMD_WRITE_SECTOR_RETRY;;
  ok ← wait_while_busy;
  ASSERT ok;;
  output_sector buffer;;
  completion_down;;
  lock_release.

(** * Detection *)

Definition set_is_ata (dev_no : nat) (b : bool) : M ide unit :=
  s ← mget; mput (mk_ide (hw s) (completion_wait s) (expecting_interrupt s) (held s) (<[dev_no := b]> (is_ata s)) (found s) (surprises s)).

(** The test for a device: what is written to two registers is read back. *)
Definition probe (dev_no : nat) : M ide bool :=
  select_device dev_no;;
  outb reg_nsect 0x55;; outb reg_lbal 0xaa;;
  outb reg_nsect 0xaa;; outb reg_lbal 0x55;;
  outb reg_nsect 0x55;; outb reg_lbal 0xaa;;
  a ← inb reg_nsect;
  if a =? 0x55 then b ← inb reg_lbal; mret (b =? 0xaa) else mret false.

(** The loop that waits for the signature of device 1. *)
Definition wait_signature : M ide unit :=
  loop 3001 (fun i =>
    if i <? 3000 then
      a ← inb reg_nsect;
      b ← (if a =? 1 then b ← inb reg_lbal; mret (b =? 1) else mret false);
      if b : bool then mret (inr tt) else timer_msleep 10;; mret (inl (i + 1))
    else mret (inr tt)) 0.

Definition reset_channel : M ide unit :=
  present0 ← probe 0;
  present1 ← probe 1;
  outb reg_ctl 0;;
  timer_usleep 10;;
  outb reg_ctl CTL_SRST;;
  timer_usleep 10;;
  outb reg_ctl 0;;
  timer_msleep 150;;
  (if present0 : bool then select_device 0;; wait_while_busy;; mret tt else mret tt);;
  (if present1 : bool then select_device 1;; wait_signature;; wait_while_busy;; mret tt else mret tt).

Definition check_device_type (dev_no : nat) : M ide bool :=
  select_device dev_no;;
  error ← inb reg_error;
  lbam ← inb reg_lbam;
  lbah ← inb reg_lbah;
  status ← inb reg_status;
  if (negb (error =? 1) && (negb (error =? 0x81) || (dev_no =? 1)%nat)) || (Z.land status STA_DRDY =? 0) || negb (Z.land status STA_BSY =? 0)
  then set_is_ata dev_no false;; mret (negb (error =? 0x81))
  else set_is_ata dev_no (((lbam =? 0) && (lbah =? 0)) || ((lbam =? 0x3c) && (lbah =? 0xc3)));; mret true.

Fixpoint swap_pairs (l : list Z) : list Z := match l with a :: b :: l => b :: a :: swap_pairs l | _ => l end.

(** The loop for the last character that is neither white nor null, from index [n - 1] down. *)
Fixpoint trim (n : nat) (l : list Z) : nat :=
  match n with
  | O => O
  | S k => let c := l !!! k in if negb (c =? 0) && negb (isspace c) then n else trim k l
  end.

Definition descramble_ata_string (string : list Z) : list Z :=
  let s := swap_pairs string in take (trim (length string - 1) s) s.

(** [found] records the call of [block_register], with the model and the serial number of its message, and the scan of the
    partitions. *)
Definition identify_ata_device (dev_no : nat) : M ide unit :=
  s ← mget;
  ASSERT (is_ata s !!! dev_no);;
  select_device_wait dev_no;;
  issue_pio_command CMD_IDENTIFY_DEVICE;;
  completion_down;;
  ok ← wait_while_busy;
  if negb ok then set_is_ata dev_no false
  else
    id ← input_sector;
    let capacity := unle (take 4 (drop 120 id)) in
    let model := descramble_ata_string (take 20 (drop 20 id)) in
    let serial := descramble_ata_string (take 40 (drop 54 id)) in
    if 1024 * 1024 * 1024 / 512 <=? capacity then set_is_ata dev_no false
    else
      s ← mget;
      mput (mk_ide (hw s) (completion_wait s) (expecting_interrupt s) (held s) (is_ata s) (found s ++ [(dev_no, capacity, model, serial)]) (surprises s)).

(** [ide_init] for one channel, after the handler has been registered. *)
Definition init_channel : M ide unit :=
  s ← mget;
  mput (mk_ide (hw s) 0 false false [false; false] (found s) (surprises s));;
  reset_channel;;
  more ← check_device_type 0;
  (if more : bool then check_device_type 1;; mret tt else mret tt);;
  for_each (fun dev_no => s ← mget; if is_ata s !!! dev_no : bool then identify_ata_device dev_no else mret tt) [0%nat; 1%nat].

(** * Time *)

Context (Hlag : forall k, 0 <= lag k).

(** A state without a pending interrupt. *)
Definition st (p : phase) R D n e l T (c a : nat) : ide :=
  mk_ide (mk_ata p R D false c a) n e l T.1.1 T.1.2 T.2.

Definition quiet (p : phase) : Prop := match p with Busy _ _ => False | _ => True end.

(** The phase, the contents of the disks and the completions after the busy period of a command. *)
Definition fin_ph (x : after) : phase := match x with ToIn bs => DataIn bs | ToOut lba => DataOut lba | _ => Idle end.
Definition fin_drives (x : after) R D := match x with ToDone lba bs => store_sector D (dev_of R) lba bs | _ => D end.
Definition fin_count (x : after) (n : Z) : Z := match x with ToOut _ => n | _ => n + 1 end.

Section Time.
Context (R : Z -> Z) (l : bool) (T : list bool * list (nat * Z * list Z * list Z) * nat).

Lemma wp_pass_quiet p D n e c a t (Q : unit -> ide -> Prop) : quiet p -> Q tt (st p R D n e l T c a) -> wp (pass t) (st p R D n e l T c a) Q.
Proof. intros Hp HQ. apply wp_bind, wp_get. unfold advance. cbn [hw st ph]. destruct p; try done; apply wp_bind, wp_put; cbn; by apply wp_ret. Qed.

Lemma wp_tick_quiet p D n e c a (Q : unit -> ide -> Prop) : quiet p -> (forall a', Q tt (st p R D n e l T c a')) -> wp tick (st p R D n e l T c a) Q.
Proof. intros Hp HQ. apply wp_bind, wp_get, wp_bind, wp_put. by apply (wp_pass_quiet p D n e c (S a)). Qed.

Lemma wp_pass_busy rem x D n c a t (Q : unit -> ide -> Prop) : x ≠ ToReset ->
  (t < rem -> Q tt (st (Busy (rem - t) x) R D n true l T c a)) ->
  (rem <= t -> Q tt (st (fin_ph x) R (fin_drives x R D) (fin_count x n) true l T c a)) ->
  wp (pass t) (st (Busy rem x) R D n true l T c a) Q.
Proof.
  intros Hx H1 H2. apply wp_bind, wp_get. unfold advance. cbn [hw st ph]. destruct (Z.ltb_spec t rem) as [Hlt|Hge].
  - apply wp_bind, wp_put, wp_ret. by apply H1.
  - apply wp_bind, wp_put. destruct x; try done; cbn; [| | |]; try (apply wp_bind, wp_get, wp_put); try apply wp_ret; by apply H2.
Qed.
End Time.

(** * Access to the ports *)

Section Ports.
Context (l : bool) (T : list bool * list (nat * Z * list Z * list Z) * nat).

Lemma wp_tick_busy R rem x D n c a (Q : unit -> ide -> Prop) : x ≠ ToReset ->
  (forall rem' a', 0 < rem' <= rem -> Q tt (st (Busy rem' x) R D n true l T c a')) ->
  (forall a', Q tt (st (fin_ph x) R (fin_drives x R D) (fin_count x n) true l T c a')) -> wp tick (st (Busy rem x) R D n true l T c a) Q.
Proof.
  intros Hx H1 H2. apply wp_bind, wp_get, wp_bind, wp_put. pose proof (Hlag a). apply (wp_pass_busy R l T rem x D n c (S a)); [done| |].
  - intros Hlt. apply H1. cbn in *. lia.
  - intros _. apply H2.
Qed.

Lemma wp_inb p R D n e c a o (Q : Z -> ide -> Prop) : quiet p ->
  (forall a', Q (read_reg o (mk_ata p R D false c a')) (st p R D n e l T c a')) -> wp (inb o) (st p R D n e l T c a) Q.
Proof. intros Hp HQ. apply wp_bind, wp_tick_quiet; [done|]. intros a'. apply wp_bind, wp_get, wp_ret, HQ. Qed.

Lemma wp_outb R D n e c a o v (Q : unit -> ide -> Prop) : o ≠ 7 -> o ≠ 0x206 ->
  (forall a', Q tt (st Idle (set_reg o (u8 v) R) D n e l T c a')) -> wp (outb o v) (st Idle R D n e l T c a) Q.
Proof.
  intros H7 Hc HQ. apply wp_bind, wp_tick_quiet; [done|]. intros a'. apply wp_bind, wp_get, wp_put. unfold write_reg. cbn [hw st ph].
  rewrite (proj2 (Z.eqb_neq o 0x206)), (proj2 (Z.eqb_neq o 7)) by done. apply HQ.
Qed.

(** Waiting for an idle controller changes nothing, also when the selected drive is missing. *)
Lemma wp_wait_until_idle R D n e c a (Q : unit -> ide -> Prop) :
  (forall a', Q tt (st Idle R D n e l T c a')) -> wp wait_until_idle (st Idle R D n e l T c a) Q.
Proof.
  intros HQ. apply (wp_loop (fun m i s => 0 <= i <= 1000 /\ m = Z.to_nat (1000 - i) /\ exists a', s = st Idle R D n e l T c a') Q) with (n := 1000%nat); [| |lia].
  2: { split; [lia|]. split; [done|]. by exists a. }
  intros m i s (Hi & -> & a1 & ->). destruct (Z.ltb_spec i 1000); [|by apply wp_ret].
  apply wp_bind, wp_inb; [done|]. intros a2. destruct (_ =? 0); [by apply wp_ret|]. apply wp_bind, wp_pass_quiet; [done|]. apply wp_ret.
  exists (Z.to_nat (1000 - (i + 1))). split; [lia|]. split; [lia|]. split; [done|]. by exists a2.
Qed.

Lemma wp_select_device R D n e c a dev (Q : unit -> ide -> Prop) :
  (forall a', Q tt (st Idle (set_reg 6 (if (dev =? 1)%nat then 0xb0 else 0xa0) R) D n e l T c a')) ->
  wp (select_device_wait dev) (st Idle R D n e l T c a) Q.
Proof.
  intros HQ. apply wp_bind, wp_wait_until_idle. intros a1. apply wp_bind, wp_bind, wp_outb; [done|done|]. intros a2.
  assert (u8 (if (dev =? 1)%nat then Z.lor DEV_MBS DEV_DEV else DEV_MBS) = if (dev =? 1)%nat then 0xb0 else 0xa0) as -> by (by destruct (dev =? 1)%nat).
  apply wp_bind, wp_inb; [done|]. intros a3. apply wp_pass_quiet; [done|]. apply wp_wait_until_idle. intros a4. apply HQ.
Qed.

(** The registers address sector [sec] of drive [dev]. *)
Definition addresses (R : Z -> Z) (dev : nat) (sec : Z) : Prop := dev_of R = dev /\ lba_of R = sec /\ Z.testbit (R 6) 6 = true.

Lemma device_bits (b : bool) k : 0 <= k < 16 ->
  let v := u8 (Z.lor (Z.lor (Z.lor DEV_MBS DEV_LBA) (if b then DEV_DEV else 0)) k) in
  Z.testbit v 4 = b /\ Z.testbit v 6 = true /\ Z.land v 15 = k.
Proof.
  intros Hk. assert (k = 0 \/ k = 1 \/ k = 2 \/ k = 3 \/ k = 4 \/ k = 5 \/ k = 6 \/ k = 7 \/ k = 8 \/ k = 9 \/ k = 10 \/ k = 11 \/ k = 12 \/ k = 13 \/ k = 14 \/ k = 15) as Hc by lia.
  by repeat destruct Hc as [->|Hc]; subst; destruct b.
Qed.

Lemma wp_select_sector R D n e c a dev sec (Q : unit -> ide -> Prop) : (dev < 2)%nat -> 0 <= sec < 2 ^ 28 ->
  (forall R' a', addresses R' dev sec -> Q tt (st Idle R' D n e l T c a')) -> wp (select_sector dev sec) (st Idle R D n e l T c a) Q.
Proof.
  intros Hdev Hsec HQ. apply wp_bind, wp_assert; [apply Z.ltb_lt; lia|]. apply wp_bind, wp_select_device. intros a1.
  do 4 (apply wp_bind, wp_outb; [done|done|]; intros ?). apply wp_outb; [done|done|]. intros a6. apply HQ.
  assert (0 <= Z.shiftr sec 24 < 16) as Hk by (rewrite Z.shiftr_div_pow2 by lia; split; [apply Z.div_pos; lia|apply Z.div_lt_upper_bound; lia]).
  destruct (device_bits (dev =? 1)%nat _ Hk) as (B4 & B6 & Bl). set (R' := set_reg reg_device _ _).
  assert (R' 6 = u8 (Z.lor (Z.lor (Z.lor DEV_MBS DEV_LBA) (if (dev =? 1)%nat then DEV_DEV else 0)) (Z.shiftr sec 24))) as E6 by done.
  assert (R' 3 = u8 sec /\ R' 4 = u8 (Z.shiftr sec 8) /\ R' 5 = u8 (Z.shiftr sec 16)) as (E3 & E4 & E5) by done.
  unfold addresses, dev_of, lba_of. rewrite E3, E4, E5, E6, B4, B6, Bl. split; [destruct dev as [|[|dev]]; [done|done|lia]|]. split; [|done].
  rewrite !Z.shiftr_div_pow2 by lia. unfold u8. change (2 ^ 8) with 256. change (2 ^ 16) with 65536. change (2 ^ 24) with 16777216. Z.to_euclidean_division_equations. lia.
Qed.
End Ports.

(** * Commands *)

Section Commands.
Context (l : bool) (T : list bool * list (nat * Z * list Z * list Z) * nat).

Lemma wp_issue R D n e c a v x (Q : unit -> ide -> Prop) :
  (forall a', start (u8 v) (mk_ata Idle R D false c a') = mk_ata (Busy (delays c) x) R D false (S c) a') ->
  (forall a', Q tt (st (Busy (delays c) x) R D n true l T (S c) a')) -> wp (issue_pio_command v) (st Idle R D n e l T c a) Q.
Proof.
  intros Hs HQ. apply wp_bind, wp_get, wp_bind, wp_put. apply wp_bind, (wp_tick_quiet R l T Idle D n true c a); [done|]. intros a'.
  apply wp_bind, wp_get, wp_put. unfold write_reg. cbn [hw st ph]. rewrite (proj2 (Z.eqb_neq reg_command 0x206)), (proj2 (Z.eqb_eq reg_command 7)) by done.
  rewrite Hs. apply HQ.
Qed.

(** A phase in which the drive asks for data to be moved. *)
Definition requests (p : phase) : Prop := match p with DataIn _ | DataOut _ => True | _ => False end.

Lemma wp_wait_quiet p R D n e c a d (Q : bool -> ide -> Prop) : requests p -> mjoin (D !! dev_of R) = Some d ->
  (forall a', Q true (st p R D n e l T c a')) -> wp wait_while_busy (st p R D n e l T c a) Q.
Proof.
  intros Hp Hd HQ. assert (forall a', read_reg reg_alt_status (mk_ata p R D false c a') = 0x48) as Hs.
  { intros a'. unfold read_reg, status, selected. cbn. rewrite Hd. by destruct p. }
  apply wp_bind. change (0 <? 3000) with true. cbv iota. apply wp_bind, wp_inb; [by destruct p|]. intros a1. rewrite Hs. change (Z.land 0x48 STA_BSY =? 0) with true. cbv iota.
  apply wp_bind, wp_inb; [by destruct p|]. intros a2. rewrite Hs. apply wp_ret, wp_ret, HQ.
Qed.

(** The busy period ends while [wait_while_busy] waits. *)
Lemma wp_wait_busy rem x R D n c a d (Q : bool -> ide -> Prop) : x ≠ ToReset -> requests (fin_ph x) -> mjoin (D !! dev_of R) = Some d -> rem < 2999 * 10000000 ->
  (forall a', Q true (st (fin_ph x) R D (fin_count x n) true l T c a')) -> wp wait_while_busy (st (Busy rem x) R D n true l T c a) Q.
Proof.
  intros Hx Hf Hd Hrem HQ. assert (fin_drives x R D = D) as HD by (by destruct x). assert (quiet (fin_ph x)) as Hq by (by destruct x).
  assert (forall a', read_reg reg_alt_status (mk_ata (fin_ph x) R D false c a') = 0x48) as Hs by (intros a'; unfold read_reg, status, selected; cbn; rewrite Hd; by destruct x).
  apply (wp_loop (fun m i s => 0 <= i < 3000 /\ m = Z.to_nat (3000 - i) /\ exists a', s = st (fin_ph x) R D (fin_count x n) true l T c a' \/
    exists rem', rem' < (2999 - i) * 10000000 /\ s = st (Busy rem' x) R D n true l T c a') Q) with (n := 3000%nat); [| |lia].
  2: { split; [lia|]. split; [done|]. exists a. right. exists rem. split; [lia|done]. }
  intros m i s (Hi & -> & a1 & Hc). rewrite (proj2 (Z.ltb_lt i 3000)) by lia.
  assert (forall a', wp (st ← inb reg_alt_status; mret (inr (negb (Z.land st STA_DRQ =? 0)))) (st (fin_ph x) R D (fin_count x n) true l T c a') (fun r s' =>
    match r with inl i' => exists n', (n' < Z.to_nat (3000 - i))%nat /\ 0 <= i' < 3000 /\ n' = Z.to_nat (3000 - i') /\ exists a', s' = st (fin_ph x) R D (fin_count x n) true l T c a' \/
      exists rem', rem' < (2999 - i') * 10000000 /\ s' = st (Busy rem' x) R D n true l T c a' | inr b => Q b s' end)) as Hend.
  { intros a'. apply wp_bind, wp_inb; [done|]. intros a2. rewrite Hs. apply wp_ret, HQ. }
  destruct Hc as [->|(rem' & Hr & ->)].
  - apply wp_bind, wp_inb; [done|]. intros a2. rewrite Hs. change (Z.land 0x48 STA_BSY =? 0) with true. cbv iota. apply Hend.
  - apply wp_bind, wp_bind, wp_tick_busy; [done| |].
    + intros rem2 a2 Hr2. apply wp_bind, wp_get, wp_ret. unfold read_reg, status, selected. cbn [reg_alt_status reg_ctl Z.eqb Pos.eqb orb hw st drives regs ph]. rewrite Hd.
      change (Z.land 128 STA_BSY =? 0) with false. cbv iota. apply wp_bind, wp_pass_busy; [done| |].
      * intros Hlt. apply wp_ret. exists (Z.to_nat (3000 - (i + 1))). split; [lia|]. split; [lia|]. split; [done|]. exists a2. right. exists (rem2 - 10 * 1000000). split; [lia|done].
      * intros _. apply wp_ret. rewrite HD. exists (Z.to_nat (3000 - (i + 1))). split; [lia|]. split; [lia|]. split; [done|]. exists a2. by left.
    + intros a2. rewrite HD. apply wp_bind, wp_get, wp_ret. change (read_reg reg_alt_status (hw (st (fin_ph x) R D (fin_count x n) true l T c a2))) with (read_reg reg_alt_status (mk_ata (fin_ph x) R D false c a2)).
      rewrite Hs. change (Z.land 0x48 STA_BSY =? 0) with true. cbv iota. apply Hend.
Qed.

(** The thread sleeps until the command that raises the interrupt is complete. *)
Lemma wp_completion_down rem x R D c a (Q : unit -> ide -> Prop) : x ≠ ToReset -> fin_count x 0 = 1 ->
  (forall a', Q tt (st (fin_ph x) R (fin_drives x R D) 0 true l T c a')) -> wp completion_down (st (Busy rem x) R D 0 true l T c a) Q.
Proof.
  intros Hx Hc HQ. assert (forall a', wp (s ← mget; if completion_wait s =? 0 then mfail Exhausted
    else mput (mk_ide (hw s) (completion_wait s - 1) (expecting_interrupt s) (held s) (is_ata s) (found s) (surprises s)))
    (st (fin_ph x) R (fin_drives x R D) (fin_count x 0) true l T c a') Q) as Hend.
  { intros a'. apply wp_bind, wp_get. rewrite Hc. apply wp_put, HQ. }
  apply wp_bind, wp_tick_busy; [done| |].
  - intros rem' a' Hr. apply wp_bind, wp_get. cbn [completion_wait st hw ph]. change (0 =? 0) with true. cbv iota.
    apply wp_bind, wp_pass_busy; [done|lia|]. intros _. apply Hend.
  - intros a'. rewrite Hc in *. apply wp_bind, wp_get. cbn [completion_wait st]. change (1 =? 0) with false. cbv iota. apply wp_bind, wp_ret, Hend.
Qed.
End Commands.

(** * Sectors *)

Context (Hdelays : forall k, delays k < 2999 * 10000000).

Section Sectors.
Context (T : list bool * list (nat * Z * list Z * list Z) * nat).

Lemma wp_channel_acquire p R D n e c a (Q : unit -> ide -> Prop) : Q tt (st p R D n e true T c a) -> wp lock_acquire (st p R D n e false T c a) Q.
Proof. intros HQ. by apply wp_bind, wp_get, wp_bind, wp_assert, wp_put. Qed.
Lemma wp_channel_release p R D n e c a (Q : unit -> ide -> Prop) : Q tt (st p R D n e false T c a) -> wp lock_release (st p R D n e true T c a) Q.
Proof. intros HQ. by apply wp_bind, wp_get, wp_bind, wp_assert, wp_put. Qed.

Lemma wp_ide_read R D e c a dev sec d bs (Q : list Z -> ide -> Prop) : (dev < 2)%nat -> 0 <= sec < 2 ^ 28 ->
  mjoin (D !! dev) = Some d -> sectors d !! Z.to_nat sec = Some bs ->
  (forall R' c' a', Q bs (st Idle R' D 0 true false T c' a')) -> wp (ide_read dev sec) (st Idle R D 0 e false T c a) Q.
Proof.
  intros Hdev Hsec Hd Hbs HQ. apply wp_bind, wp_channel_acquire, wp_bind, wp_select_sector; [done|done|]. intros R1 a1 (E1 & E2 & E3).
  apply wp_bind, wp_issue with (x := ToIn bs).
  { intros a'. unfold start, selected. cbn [ph regs drives cmds]. rewrite E1, E2, E3, Hd. change (u8 CMD_READ_SECTOR_RETRY =? 0xec) with false. change (u8 CMD_READ_SECTOR_RETRY =? 0x20) with true. cbn [negb]. cbv iota zeta. by rewrite Hbs. }
  intros a2. apply wp_bind, wp_completion_down; [done|done|]. intros a3. cbn [fin_ph fin_drives].
  apply wp_bind. eapply wp_wait_quiet; [done|by rewrite E1|]. intros a4. apply wp_bind, wp_assert; [done|].
  apply wp_bind, wp_bind, wp_tick_quiet; [done|]. intros a5. apply wp_bind, wp_get. cbn [hw st ph]. apply wp_bind, wp_put, wp_ret.
  apply wp_bind, (wp_channel_release Idle R1 D 0 true (S c) a5), wp_ret, HQ.
Qed.

Lemma wp_ide_write R D e c a dev sec d bs (Q : unit -> ide -> Prop) : (dev < 2)%nat -> 0 <= sec < 2 ^ 28 ->
  mjoin (D !! dev) = Some d -> sec < Z.of_nat (length (sectors d)) ->
  (forall R' c' a', Q tt (st Idle R' (store_sector D dev sec bs) 0 true false T c' a')) -> wp (ide_write dev sec bs) (st Idle R D 0 e false T c a) Q.
Proof.
  intros Hdev Hsec Hd Hl HQ. apply wp_bind, wp_channel_acquire, wp_bind, wp_select_sector; [done|done|]. intros R1 a1 (E1 & E2 & E3).
  apply wp_bind, wp_issue with (x := ToOut sec).
  { intros a'. unfold start, selected. cbn [ph regs drives cmds]. rewrite E1, E2, E3, Hd. change (u8 CMD_WRITE_SECTOR_RETRY =? 0xec) with false. change (u8 CMD_WRITE_SECTOR_RETRY =? 0x20) with false.
    change (u8 CMD_WRITE_SECTOR_RETRY =? 0x30) with true. cbn [negb]. cbv iota zeta. by rewrite (proj2 (Z.ltb_lt _ _)). }
  intros a2. apply wp_bind. eapply wp_wait_busy; [done|done|by rewrite E1|apply Hdelays|]. intros a3. cbn [fin_ph fin_count]. apply wp_bind, wp_assert; [done|].
  apply wp_bind, wp_bind, wp_tick_quiet; [done|]. intros a4. apply wp_bind, wp_get. cbn [hw st ph]. apply wp_put.
  apply wp_bind, (wp_completion_down true T (delays (S c)) (ToDone sec bs) R1 D (S (S c)) a4); [done|done|]. intros a5. cbn [fin_ph fin_drives]. rewrite E1.
  apply wp_channel_release, HQ.
Qed.

(** * The driver as an array of sectors *)

Inductive request : Type := Rd (dev : nat) (sec : Z) | Wr (dev : nat) (sec : Z) (bs : list Z).

Fixpoint ide_run (rs : list request) : M ide (list (list Z)) :=
  match rs with
  | [] => mret []
  | Rd dev sec :: rs => bs ← ide_read dev sec; out ← ide_run rs; mret (bs :: out)
  | Wr dev sec bs :: rs => ide_write dev sec bs;; ide_run rs
  end.

(** The same requests on the arrays of sectors; [None] if a sector does not exist. *)
Fixpoint array_run (D : list (option drive)) (rs : list request) : option (list (list Z) * list (option drive)) :=
  match rs with
  | [] => Some ([], D)
  | Rd dev sec :: rs =>
    d ← mjoin (D !! dev);
    if (0 <=? sec) && (sec <? 2 ^ 28) then
      bs ← sectors d !! Z.to_nat sec;
      '(out, D') ← array_run D rs;
      Some (bs :: out, D')
    else None
  | Wr dev sec bs :: rs =>
    d ← mjoin (D !! dev);
    if (0 <=? sec) && (sec <? 2 ^ 28) && (sec <? Z.of_nat (length (sectors d))) then array_run (store_sector D dev sec bs) rs else None
  end.

Lemma wp_ide_run rs R D e c a out D' (Q : list (list Z) -> ide -> Prop) : length D = 2%nat -> array_run D rs = Some (out, D') ->
  (forall R' e' c' a', Q out (st Idle R' D' 0 e' false T c' a')) -> wp (ide_run rs) (st Idle R D 0 e false T c a) Q.
Proof.
  revert R D e c a out Q. induction rs as [|[dev sec|dev sec bs] rs IH]; intros R D e c a out Q HD Hs HQ; cbn [array_run ide_run] in *.
  - injection Hs as <- <-. apply wp_ret, HQ.
  - destruct (mjoin (D !! dev)) as [d|] eqn:Hd; [|done]. cbn [mbind option_bind] in Hs.
    assert (dev < 2)%nat as Hdev by (destruct (D !! dev) eqn:E; [apply lookup_lt_Some in E; lia|done]).
    destruct ((0 <=? sec) && (sec <? 2 ^ 28)) eqn:Hsec; [|done]. rewrite andb_true_iff, Z.leb_le, Z.ltb_lt in Hsec.
    destruct (sectors d !! Z.to_nat sec) as [bs|] eqn:Hbs; [|done]. cbn [mbind option_bind] in Hs. destruct (array_run D rs) as [[out' D2]|] eqn:Er; [|done]. cbn in Hs. injection Hs as <- <-.
    apply wp_bind. eapply wp_ide_read; [done|done|done|done|]. intros R' c' a'. apply wp_bind. eapply IH; [done|done|]. intros R2 e2 c2 a2. apply wp_ret, HQ.
  - destruct (mjoin (D !! dev)) as [d|] eqn:Hd; [|done]. cbn [mbind option_bind] in Hs.
    assert (dev < 2)%nat as Hdev by (destruct (D !! dev) eqn:E; [apply lookup_lt_Some in E; lia|done]).
    destruct ((0 <=? sec) && (sec <? 2 ^ 28) && (sec <? Z.of_nat (length (sectors d)))) eqn:Hsec; [|done]. rewrite !andb_true_iff, Z.leb_le, !Z.ltb_lt in Hsec.
    apply wp_bind. eapply wp_ide_write; [done|lia|done|lia|]. intros R' c' a'. eapply IH; [|done|done]. unfold store_sector. rewrite Hd. by rewrite length_insert.
Qed.
End Sectors.

(** * Detection *)

Definition present (x : option drive) : bool := match x with Some _ => true | None => false end.

(** The registers hold the signature of a reset disk. *)
Definition fresh (R : Z -> Z) : Prop := R 1 = 1 /\ R 2 = 1 /\ R 3 = 1 /\ R 4 = 0 /\ R 5 = 0.

Definition dev_reg (dev : nat) : Z := if (dev =? 1)%nat then 0xb0 else 0xa0.

Section Detect.
Context (D : list (option drive)).

Lemma wp_select R n e l T c a dev (Q : unit -> ide -> Prop) :
  (forall a', Q tt (st Idle (set_reg 6 (dev_reg dev) R) D n e l T c a')) -> wp (select_device dev) (st Idle R D n e l T c a) Q.
Proof.
  intros HQ. apply wp_bind, wp_outb; [done|done|]. intros a2. unfold dev_reg in HQ.
  assert (u8 (if (dev =? 1)%nat then Z.lor DEV_MBS DEV_DEV else DEV_MBS) = if (dev =? 1)%nat then 0xb0 else 0xa0) as -> by (by destruct (dev =? 1)%nat).
  apply wp_bind, wp_inb; [done|]. intros a3. apply wp_pass_quiet; [done|]. apply HQ.
Qed.

Lemma dev_of_set R dev : (dev < 2)%nat -> dev_of (set_reg 6 (dev_reg dev) R) = dev.
Proof. intros Hd. destruct dev as [|[|dev]]; [done|done|lia]. Qed.

Lemma wp_probe R n e l T c a dev x (Q : bool -> ide -> Prop) : (dev < 2)%nat -> D !! dev = Some x ->
  (forall R' a', dev_of R' = dev -> Q (present x) (st Idle R' D n e l T c a')) -> wp (probe dev) (st Idle R D n e l T c a) Q.
Proof.
  intros Hdev Hx HQ. apply wp_bind, wp_select. intros a1. do 6 (apply wp_bind, wp_outb; [done|done|]; intros ?). set (R1 := set_reg reg_lbal _ _).
  assert (dev_of R1 = dev) as E1 by (by destruct dev as [|[|dev]]; [| |lia]). apply wp_bind, wp_inb; [done|]. intros a8.
  unfold read_reg, selected. cbn [drives regs]. rewrite E1, Hx. change ((reg_nsect =? 7) || (reg_nsect =? 518)) with false. cbv iota. cbn [mjoin option_join].
  destruct x as [d|]; [|apply wp_ret, HQ, E1]. change (R1 reg_nsect =? 0x55) with true. cbv iota. apply wp_bind, wp_inb; [done|]. intros a9. apply wp_ret.
  unfold read_reg, selected. cbn [drives regs]. rewrite E1, Hx. apply (HQ R1), E1.
Qed.

(** Waiting for a disk that is not busy. *)
Lemma wp_wait_idle R n e l T c a d (Q : bool -> ide -> Prop) : mjoin (D !! dev_of R) = Some d ->
  (forall a', Q false (st Idle R D n e l T c a')) -> wp wait_while_busy (st Idle R D n e l T c a) Q.
Proof.
  intros Hd HQ. assert (forall a', read_reg reg_alt_status (mk_ata Idle R D false c a') = 0x40) as Hs by (intros a'; unfold read_reg, status, selected; cbn; by rewrite Hd).
  apply wp_bind. change (0 <? 3000) with true. cbv iota. apply wp_bind, wp_inb; [done|]. intros a1. rewrite Hs. change (Z.land 0x40 STA_BSY =? 0) with true. cbv iota.
  apply wp_bind, wp_inb; [done|]. intros a2. rewrite Hs. apply wp_ret, wp_ret, HQ.
Qed.

(** A reset in progress, or complete. *)
Definition resetting (bound : Z) R l T (c : nat) (s : ide) : Prop :=
  (exists rem a, rem < bound /\ s = st (Busy rem ToReset) R D 0 false l T c a) \/
  (exists R' a, fresh R' /\ dev_of R' = 0%nat /\ s = st Idle R' D 0 false l T c a).

Lemma wp_pass_reset bound R l T c t s (Q : unit -> ide -> Prop) : resetting bound R l T c s ->
  (forall s', resetting (bound - t) R l T c s' -> Q tt s') -> wp (pass t) s Q.
Proof.
  intros [(rem & a & Hr & ->)|(R' & a & Hf & H0 & ->)] HQ.
  - apply wp_bind, wp_get. unfold advance. cbn [hw st ph]. destruct (Z.ltb_spec t rem) as [Hlt|Hge].
    + apply wp_bind, wp_put, wp_ret, HQ. left. exists (rem - t), a. split; [lia|done].
    + apply wp_bind, wp_put, wp_ret, HQ. right. exists signature, a. done.
  - apply wp_pass_quiet; [done|]. apply HQ. right. by exists R', a.
Qed.

Lemma resetting_mono b b' R l T c s : resetting b R l T c s -> b <= b' -> resetting b' R l T c s.
Proof. intros [(rem & a & Hr & ->)|H] Hb; [left; exists rem, a; split; [lia|done]|by right]. Qed.

Lemma wp_tick_resetting bound R l T c s (Q : unit -> ide -> Prop) : resetting bound R l T c s ->
  (forall rem a, 0 < rem < bound -> Q tt (st (Busy rem ToReset) R D 0 false l T c a)) ->
  (forall R' a, fresh R' -> dev_of R' = 0%nat -> Q tt (st Idle R' D 0 false l T c a)) -> wp tick s Q.
Proof.
  intros [(rem & a & Hr & ->)|(R' & a & Hf & H0 & ->)] H1 H2; [|apply wp_tick_quiet; [done|]; intros a'; by apply H2].
  apply wp_bind, wp_get, wp_bind, wp_put, wp_bind, wp_get. unfold advance. cbn [hw st ph accesses set_hw]. pose proof (Hlag a). destruct (Z.ltb_spec (lag a) rem) as [Hlt|Hge].
  - apply wp_bind, wp_put, wp_ret. apply (H1 (rem - lag a) (S a)). lia.
  - apply wp_bind, wp_put, wp_ret. by apply (H2 signature (S a)).
Qed.

Lemma wp_tick_reset bound R l T c s (Q : unit -> ide -> Prop) : resetting bound R l T c s ->
  (forall s', resetting bound R l T c s' -> Q tt s') -> wp tick s Q.
Proof.
  intros Hs HQ. eapply wp_tick_resetting; [done| |].
  - intros rem a Hr. apply HQ. left. exists rem, a. split; [lia|done].
  - intros R' a Hf H0. apply HQ. right. by exists R', a.
Qed.

Lemma wp_ctl_reset bound R l T c s (Q : unit -> ide -> Prop) : resetting bound R l T c s ->
  (forall s', resetting bound R l T c s' -> Q tt s') -> wp (outb reg_ctl 0) s Q.
Proof.
  intros Hs HQ. apply wp_bind. eapply wp_tick_reset; [done|]. intros s' Hs'. apply wp_bind, wp_get, wp_put.
  replace (set_hw (write_reg reg_ctl (u8 0) (hw s')) s') with s' by (by destruct s' as [[]]). by apply HQ.
Qed.

Lemma wp_select_reset bound R l T c s (Q : unit -> ide -> Prop) : resetting bound R l T c s ->
  (forall s', resetting bound R l T c s' -> Q tt s') -> wp (select_device 0) s Q.
Proof.
  intros Hs HQ. apply wp_bind, wp_bind. eapply wp_tick_reset; [done|]. intros s1 H1. apply wp_bind, wp_get, wp_put.
  set (s2 := set_hw _ s1). assert (resetting bound R l T c s2) as H2.
  { destruct H1 as [(rem & a & Hr & ->)|(R' & a & Hf & H0 & ->)]; [left; by exists rem, a|]. right.
    exists (set_reg 6 0xa0 R'), a. done. }
  clearbody s2. apply wp_bind, wp_bind. eapply wp_tick_reset; [done|]. intros s3 H3. apply wp_bind, wp_get, wp_ret.
  eapply wp_pass_reset; [done|]. intros s4 H4. apply HQ. eapply resetting_mono; [done|lia].
Qed.

Lemma wp_wait_reset R l T c s d0 (Q : bool -> ide -> Prop) : mjoin (D !! 0%nat) = Some d0 -> resetting (2999 * 10000000) R l T c s ->
  (forall b R' a, fresh R' -> dev_of R' = 0%nat -> Q b (st Idle R' D 0 false l T c a)) -> wp wait_while_busy s Q.
Proof.
  intros Hd Hs HQ. apply (wp_loop (fun m i s => 0 <= i < 3000 /\ m = Z.to_nat (3000 - i) /\ resetting ((2999 - i) * 10000000) R l T c s) Q) with (n := 3000%nat); [|by split|lia].
  clear s Hs. intros m i s (Hi & -> & Hs). rewrite (proj2 (Z.ltb_lt i 3000)) by lia. apply wp_bind, wp_bind. eapply wp_tick_resetting; [done| |].
  - intros rem a Hr. apply wp_bind, wp_get, wp_ret. assert ((Z.land (read_reg reg_alt_status (hw (st (Busy rem ToReset) R D 0 false l T c a))) STA_BSY =? 0) = false) as ->.
    { unfold read_reg, status. cbn. by destruct (selected _). }
    apply wp_bind. eapply (wp_pass_reset ((2999 - i) * 10000000) R l T c); [left; exists rem, a; split; [lia|done]|]. intros s2 H2. apply wp_ret.
    exists (Z.to_nat (3000 - (i + 1))). split; [lia|]. split; [lia|]. split; [done|]. eapply resetting_mono; [done|lia].
  - intros R' a Hf H0. apply wp_bind, wp_get, wp_ret.
    assert (forall a', read_reg reg_alt_status (mk_ata Idle R' D false c a') = 0x40) as Hst by (intros a'; unfold read_reg, status, selected; cbn; by rewrite H0, Hd).
    change (hw (st Idle R' D 0 false l T c a)) with (mk_ata Idle R' D false c a). rewrite Hst. change (Z.land 0x40 STA_BSY =? 0) with true. cbv iota.
    apply wp_bind, wp_inb; [done|]. intros a2. apply wp_ret. by apply HQ.
Qed.

(** The reset with a disk as device 0 leaves both disks idle with their signature. *)
Lemma wp_reset_channel R e T c a d0 x (Q : unit -> ide -> Prop) : D = [Some d0; x] -> e = false ->
  (forall R' c' a', fresh R' -> Q tt (st Idle R' D 0 e false T c' a')) -> wp reset_channel (st Idle R D 0 e false T c a) Q.
Proof.
  intros HD -> HQ. apply wp_bind. eapply (wp_probe R 0 false false T c a 0 (Some d0)); [lia|by rewrite HD|]. intros R1 a1 E1.
  apply wp_bind. eapply (wp_probe R1 0 false false T c a1 1 x); [lia|by rewrite HD|]. intros R2 a2 E2. cbn [present].
  assert (forall R a, wp (outb reg_ctl 0) (st Idle R D 0 false false T c a) (fun _ s => exists a', s = st Idle R D 0 false false T c a')) as Hctl.
  { intros R0 a0. apply wp_bind, wp_tick_quiet; [done|]. intros a'. apply wp_bind, wp_get, wp_put. by exists a'. }
  apply wp_bind. eapply wp_mono; [apply Hctl|]. intros [] s1 [a3 ->]. apply wp_bind, wp_pass_quiet; [done|].
  apply wp_bind, wp_bind, wp_tick_quiet; [done|]. intros a4. apply wp_bind, wp_get, wp_put.
  assert (resetting (2999 * 10000000) R2 false T (S c) (st (Busy (delays c) ToReset) R2 D 0 false false T (S c) a4)) as H0 by (left; exists (delays c), a4; split; [apply Hdelays|done]).
  apply wp_bind. eapply (wp_pass_reset _ R2 false T (S c)); [exact H0|]. intros s2 H2. apply wp_bind. eapply wp_ctl_reset; [done|]. intros s3 H3.
  apply wp_bind. eapply wp_pass_reset; [done|]. intros s4 H4. apply wp_bind, wp_bind. eapply wp_select_reset; [done|]. intros s5 H5.
  apply wp_bind. eapply wp_wait_reset; [by rewrite HD|eapply resetting_mono; [done|lia]|]. intros b R3 a5 Hf E3. apply wp_ret.
  destruct x as [d1|]; cbn [present]; [|apply wp_ret, HQ, Hf].
  apply wp_bind, wp_select. intros a6. set (R4 := set_reg 6 (dev_reg 1) R3). assert (dev_of R4 = 1%nat) as E4 by done. assert (fresh R4) as Hf4 by done.
  destruct Hf4 as (F1 & F2 & F3 & F4). assert (selected (mk_ata Idle R4 D false (S c) 0) = Some d1) as Hsel by (unfold selected; cbn [drives regs]; by rewrite E4, HD).
  apply wp_bind, wp_bind. change (0 <? 3000) with true. cbv iota. apply wp_bind, wp_inb; [done|]. intros a7.
  assert (forall o a', o = 2 \/ o = 3 -> read_reg o (mk_ata Idle R4 D false (S c) a') = 1) as Hread.
  { intros o a' [-> | ->]; unfold read_reg; change (selected (mk_ata Idle R4 D false (S c) a')) with (selected (mk_ata Idle R4 D false (S c) 0)); rewrite Hsel; done. }
  rewrite Hread by (by left). change (1 =? 1) with true. cbv iota. apply wp_bind, wp_bind, wp_inb; [done|]. intros a8. rewrite Hread by (by right). apply wp_ret.
  apply wp_ret, wp_ret. apply wp_bind. eapply wp_wait_idle; [by rewrite E4, HD|]. intros a9. apply wp_ret, HQ. done.
Qed.

Lemma wp_check R n e A F u c a dev x (Q : bool -> ide -> Prop) : (dev < 2)%nat -> D !! dev = Some x -> fresh R ->
  (forall R' a', fresh R' -> Q true (st Idle R' D n e false (<[dev := present x]> A, F, u) c a')) ->
  wp (check_device_type dev) (st Idle R D n e false (A, F, u) c a) Q.
Proof.
  intros Hdev Hx Hf HQ. apply wp_bind, wp_select. intros a1. set (R1 := set_reg 6 (dev_reg dev) R). assert (fresh R1) as Hf1 by done.
  assert (dev_of R1 = dev) as E1 by (by apply dev_of_set).
  assert (forall o a', read_reg o (mk_ata Idle R1 D false c a') = match x with Some _ => if (o =? 7) || (o =? 0x206) then 0x40 else R1 o | None => 0xff end) as Hr.
  { intros o a'. unfold read_reg, status, selected. cbn [drives regs ph]. rewrite E1, Hx. cbn [mjoin option_join]. by destruct x, ((o =? 7) || (o =? 518)). }
  do 4 (apply wp_bind, wp_inb; [done|]; intros ?; rewrite Hr). destruct x as [d|].
  - destruct Hf1 as (F1 & F2 & F3 & F4 & F5). change ((reg_error =? 7) || (reg_error =? 518)) with false. change ((reg_lbam =? 7) || (reg_lbam =? 518)) with false. change ((reg_lbah =? 7) || (reg_lbah =? 518)) with false. cbv iota.
    change (R1 reg_error) with (R1 1). change (R1 reg_lbam) with (R1 4). change (R1 reg_lbah) with (R1 5). rewrite F1, F4, F5.
    apply wp_bind, wp_bind, wp_get, wp_put, wp_ret. by apply HQ.
  - assert ((dev =? 1)%nat || true = true) as _ by (by destruct (dev =? 1)%nat). apply wp_bind, wp_bind, wp_get, wp_put, wp_ret. by apply HQ.
Qed.

(** What the drive says about itself. *)
Definition capacity (d : drive) : Z := unle (take 4 (drop 120 (identity d))).
Definition entry_of (dev : nat) (d : drive) : nat * Z * list Z * list Z :=
  (dev, capacity d, descramble_ata_string (take 20 (drop 20 (identity d))), descramble_ata_string (take 40 (drop 54 (identity d)))).

(** The disks that are registered: those of less than 1 GB. *)
Definition small (d : drive) : bool := capacity d <? 2097152.

Lemma wp_identify R e A F u c a dev d (Q : unit -> ide -> Prop) : (dev < 2)%nat -> D !! dev = Some (Some d) -> A !!! dev = true ->
  (forall R' c' a', Q tt (st Idle R' D 0 true false (if small d then (A, F ++ [entry_of dev d], u) else (<[dev := false]> A, F, u)) c' a')) ->
  wp (identify_ata_device dev) (st Idle R D 0 e false (A, F, u) c a) Q.
Proof.
  intros Hdev Hd HA HQ. apply wp_bind, wp_get. cbn [is_ata st fst snd]. apply wp_bind, wp_assert; [done|]. apply wp_bind, wp_select_device. intros a1.
  fold (dev_reg dev). set (R1 := set_reg 6 (dev_reg dev) R). assert (dev_of R1 = dev) as E1 by (by apply dev_of_set).
  apply wp_bind, wp_issue with (x := ToIn (identity d)).
  { intros a'. unfold start, selected. cbn [ph regs drives cmds]. by rewrite E1, Hd. }
  intros a2. apply wp_bind, wp_completion_down; [done|done|]. intros a3. cbn [fin_ph fin_drives].
  apply wp_bind. eapply wp_wait_quiet; [done|by rewrite E1, Hd|]. intros a4. cbn [negb]. cbv iota.
  apply wp_bind, wp_bind, wp_tick_quiet; [done|]. intros a5. apply wp_bind, wp_get. cbn [hw st ph]. apply wp_bind, wp_put, wp_ret. cbv zeta.
  fold (capacity d). change (1024 * 1024 * 1024 / 512) with 2097152. specialize (HQ R1 (S c) a5). unfold small in HQ.
  destruct (Z.leb_spec 2097152 (capacity d)) as [Hge|Hlt].
  - rewrite (proj2 (Z.ltb_ge _ _)) in HQ by done. by apply wp_bind, wp_get, wp_put.
  - rewrite (proj2 (Z.ltb_lt _ _)) in HQ by done. by apply wp_bind, wp_get, wp_put.
Qed.
End Detect.

(** The devices that a channel with the drives [d0] and [x] has, and those that are registered. *)
Definition detected (d0 : drive) (x : option drive) : list bool := [small d0; match x with Some d => small d | None => false end].
Definition registered (d0 : drive) (x : option drive) : list (nat * Z * list Z * list Z) :=
  (if small d0 then [entry_of 0 d0] else []) ++ match x with Some d => if small d then [entry_of 1 d] else [] | None => [] end.

Lemma wp_init_channel R n e l A F u c a d0 x (Q : unit -> ide -> Prop) :
  (forall R' c' a', Q tt (st Idle R' [Some d0; x] 0 true false (detected d0 x, F ++ registered d0 x, u) c' a')) ->
  wp init_channel (st Idle R [Some d0; x] n e l (A, F, u) c a) Q.
Proof.
  intros HQ. apply wp_bind, wp_get, wp_bind, wp_put. cbn [hw st found surprises fst snd].
  apply wp_bind, (wp_reset_channel [Some d0; x] R false ([false; false], F, u) c a d0 x); [done|done|]. intros R1 c1 a1 Hf1.
  apply wp_bind. eapply (wp_check [Some d0; x] R1 0 false _ F u c1 a1 0 (Some d0)); [lia|done|done|]. intros R2 a2 Hf2. cbn [present].
  apply wp_bind, wp_bind. eapply (wp_check [Some d0; x] R2 0 false _ F u c1 a2 1 x); [lia|done|done|]. intros R3 a3 Hf3. apply wp_ret.
  change (<[1%nat := present x]> (<[0%nat := true]> [false; false])) with [true; present x]. cbn [for_each].
  apply wp_bind, wp_bind, wp_get. cbn [is_ata st fst snd]. change ([true; present x] !!! 0%nat) with true. cbv iota.
  apply (wp_identify [Some d0; x] R3 false [true; present x] F u c1 a3 0 d0); [lia|done|done|]. intros R4 c4 a4. apply wp_bind, wp_bind, wp_get. cbn [is_ata st].
  assert (forall c5 a5 R5 A5 F5, (A5, F5) = (if small d0 then ([true; present x], F ++ [entry_of 0 d0]) else ([false; present x], F)) ->
    wp (if A5 !!! 1%nat : bool then identify_ata_device 1 else mret tt) (st Idle R5 [Some d0; x] 0 true false (A5, F5, u) c5 a5) (fun a s' => wp (mret tt) s' Q)) as Hlast.
  { intros c5 a5 R5 A5 F5 E5. unfold detected, registered in HQ. destruct x as [d1|]; cbn [present] in E5.
    - assert (A5 !!! 1%nat = true) as -> by (destruct (small d0); by injection E5 as -> ->). apply (wp_identify [Some d0; Some d1] R5 true A5 F5 u c5 a5 1 d1); [lia|done|destruct (small d0); by injection E5 as -> ->|].
      intros R6 c6 a6. apply wp_ret. destruct (small d0), (small d1); injection E5 as -> ->; specialize (HQ R6 c6 a6); cbn [app] in HQ; rewrite ?app_nil_r in HQ; try rewrite <-app_assoc; exact HQ.
    - assert (A5 !!! 1%nat = false) as -> by (destruct (small d0); by injection E5 as -> ->). apply wp_ret, wp_ret.
      destruct (small d0); injection E5 as -> ->; specialize (HQ R5 c5 a5); rewrite ?app_nil_r in HQ; exact HQ. }
  destruct (small d0); by apply Hlast.
Qed.
End Driver.

(** C20: For every timing of the controller within the limit of 30 seconds, initialising a channel with a master and perhaps
    a slave registers exactly the disks below 1 GB with the capacity they report, and any sequence of reads and writes of
    existing sectors then returns and stores what it would on arrays of sectors: no panic, no lost or unexpected interrupt,
    the lock free and the controller idle at the end. *)
Theorem ide_implements_array delays lag R n e l A F u c a d0 x rs out D' :
  (forall k, 0 <= lag k) -> (forall k, delays k < 2999 * 10000000) -> array_run [Some d0; x] rs = Some (out, D') ->
  wp (init_channel delays lag;; ide_run delays lag rs) (mk_ide (mk_ata Idle R [Some d0; x] false c a) n e l A F u)
     (fun res s => res = out /\ drives (hw s) = D' /\ ph (hw s) = Idle /\ completion_wait s = 0 /\ held s = false /\
        is_ata s = detected d0 x /\ found s = F ++ registered d0 x /\ surprises s = u).
Proof.
  intros Hlag Hdelays Hrun. apply wp_bind, (wp_init_channel delays lag Hlag Hdelays R n e l A F u c a d0 x). intros R1 c1 a1.
  eapply wp_ide_run; [done|done|done|done|]. by intros R2 e2 c2 a2.
Qed.

(** A disk of two sectors that calls itself "AB", and a write that is read back. *)
Definition demo_drive : drive := mk_drive (replicate 20 0 ++ [66; 65] ++ replicate 98 32 ++ [2; 0; 0; 0] ++ replicate 388 0) [replicate 512 0; replicate 512 7].

Lemma ide_implements_array_witness :
  wp (init_channel (fun k => 5000000 * Z.of_nat (Nat.modulo k 7)) (fun _ => 100);; ide_run (fun k => 5000000 * Z.of_nat (Nat.modulo k 7)) (fun _ => 100) [Wr 0 1 (replicate 512 9); Rd 0 1; Rd 0 0])
     (mk_ide (mk_ata Idle (fun _ => 0) [Some demo_drive; None] false 0 0) 0 false false [false; false] [] 0)
     (fun res s => res = [replicate 512 9; replicate 512 0] /\ found s = [(0%nat, 2, [65; 66], [])]).
Proof.
  eapply wp_mono; [apply (ide_implements_array (fun k => 5000000 * Z.of_nat (Nat.modulo k 7)) (fun _ => 100) (fun _ => 0) 0 false false [false; false] [] 0 0 0 demo_drive None
    [Wr 0 1 (replicate 512 9); Rd 0 1; Rd 0 0] [replicate 512 9; replicate 512 0] [Some (mk_drive (identity demo_drive) [replicate 512 0; replicate 512 9]); None])|].
  - intros k. lia.
  - intros k. pose proof (Nat.mod_upper_bound k 7). lia.
  - by vm_compute.
  - intros res s (-> & _ & _ & _ & _ & _ & -> & _). done.
Defined.
